(* ===== verification/_CoqProject ===== *)
-Q . S2P
Prelude.v
RustStr.v
Json.v
Enums.v
Records.v
Doubles.v
Admission.v
EventBus.v
Capacity.v
SessionManager.v
Approvals.v
ContextPackets.v
Gating.v
WorkGraphDb.v
WorkGraphInv.v
Layout.v
LayoutProps.v
Limits.v
QueuedTurns.v
Budget.v
SqlTable.v
AgentDb.v
AgentDbProps.v
AgentDbTheorems.v
ThreadText.v
Attachments.v
GitText.v
CoreWorld.v
TaskRepos.v
ThreadFallback.v
TaskTexts.v
TaskNotes.v
TurnLoop.v
CoreDemo.v
TaskReposProps.v
FallbackProps.v
TurnProps.v
TurnStatus.v
CollabDb.v
CollabLife.v
Collab.v
CollabProps.v
Scheduler.v
SchedulerProps.v
TaskRuns.v
TaskProps.v
ThreadWork.v
ThreadWorkProps.v
ThreadRuns.v
ThreadRunsProps.v
ThreadEdit.v
WorkPlan.v
PlanDriver.v
PlanProps.v
NodeCommands.v
Demo.v
PlanTheorems.v
JsonView.v
ProviderText.v
AdapterArgs.v
ExecDrive.v
ClaudeStream.v
CodexStream.v
ExecProps.v
ClaudeUsage.v
AppServerText.v
AppServer.v
AppServerProps.v
ProviderAccounts.v
ProviderAccountsProps.v
CloudRuns.v
CloudClients.v
CloudHandoff.v
CloudProps.v
Evaluator.v
ContextIndex.v
ContextScoring.v
Knowledge.v
PacketSelection.v
