(* ===== verification/Prelude.v ===== *)
(** * Perpetual: a verification development of its orchestration core

    Perpetual runs coding agents for a user: a daemon holds a graph of work, starts
    agent sessions on it within the machine's and the providers' limits, asks the
    user for permissions, and reports what happens to its clients.  The Rust
    workspace under crates/ has the wire types (am-proto), the SQLite
    repositories (am-db), the services (am-core), the provider adapters
    (am-agents), git (am-vcs) and the socket server (am-daemon); an editor
    extension and a web view in TypeScript are clients.  This development models
    the parts of am-proto, am-db, am-core, am-agents and am-daemon that decide what
    runs, when, with what it starts, what becomes of it, and what is remembered.

    ** How the parts interact

    The plan driver reads the work graph, asks which nodes are ready, starts
    sessions for them under repository locks, and records runs; at a gate it may ask
    the evaluator, which runs an agent and reads its verdict.  A session starts with
    a context packet, chosen from the graph, the index of source files, memory and
    search.  Tasks ([TaskRuns]) and threads ([ThreadRuns]) launch the sessions: each
    takes a slot of the admission controller, whose capacity follows the run
    capacity policy, an account of the provider's pool, and an adapter, which turns
    the output of a provider process into events; the loop that consumes them
    writes the transcript and settles the run.  A session that hits a provider limit
    marks its agent limited, which moves the scheduler's wake-up and may choose a
    fallback agent; one that reaches its task budget is cancelled.  The scheduler
    starts what can go on.  Agents ask for permissions through the approval
    registry.  Messages sent to a busy thread wait in the turn queue.  Work may be
    done elsewhere: on a paired device under an expiring lease (collaboration) or in
    a provider's cloud (cloud handoff).  All publish on the event bus, which the
    daemon forwards.

    ** Files

    Foundations:
    - [Prelude]: machine integers, results, the state-and-error monad [M] with its
      Hoare rules ([keeps], [triple]), tables as lists of rows, sorting, finite
      acyclic relations, the hint databases [perp] and [perp_simp].
    - [RustStr]: the operations of Rust's [str] on byte strings.  [Json]: classes
      [Json] and [TextSerde], what the code uses of serde_json, with the instance
      [Tree]; [JsonView]: the readers of values the adapters use.
    - [Enums]: the enumerations of crates/am-proto/src with [as_str] and [parse];
      class [WireEnum] (with its round-trip law) is what the repositories need.
    - [Records]: the structs of crates/am-proto/src, the errors of am-db, am-core.
    - [Doubles]: the operations and the order of [f64].
    - [SqlTable]: keyed tables, row codecs, and the statements on them with laws.

    The machine's resources and the clients:
    - [Admission]: am-core/src/admission.rs.  [State] is the locked data; Module
      [Concurrent] is the controller as a step relation over critical sections.
    - [EventBus]: am-core/src/bus.rs and the forwarding of am-daemon/src/server.rs.
    - [Capacity]: am-core/src/capacity.rs.
    - [SessionManager]: session_manager.rs, [Approvals]: approvals.rs, as transition
      systems over critical sections.

    The work graph and its plans (am-core/src/work_graph.rs unless said otherwise):
    - [Gating]: Kahn's check, readiness, the closure of failed work.
    - [WorkGraphDb], [WorkGraphInv]: am-db/src/repos/work_graph.rs with the keys,
      foreign keys and cascades of the schema, and its invariant [wf].
    - [WorkPlan]: the link commands.  [NodeCommands]: creating, binding and deleting
      nodes; class [NodeServices] is the tasks and threads that own them.
    - [PlanDriver], [PlanProps]: starting work and one iteration of the driver
      loop; class [Services] is what they call in other components.
    - [Demo], [PlanTheorems]: a concrete project, and the theorems on the work
      graph and its plans with their instances.
    - [Layout], [LayoutProps]: layout.rs.
    - [Evaluator]: evaluator.rs and the table of its evaluations.

    The context of a session:
    - [ContextPackets]: the budgeted builder and the rendering of a packet.
      [PacketSelection]: what [build_context_packet] pushes into it.
    - [ContextIndex]: context_index.rs and its tables.  [ContextScoring]:
      context_scoring.rs.  [Knowledge]: documents, notes and the search index
      (knowledge.rs, memory.rs, search.rs of am-db, the triggers of migration 0004).
    - [TaskNotes]: task_context.rs of both crates, the notes kept in a worktree.

    Tables and texts of the agents' work:
    - [AgentDb], [AgentDbProps], [AgentDbTheorems]: project.rs, task.rs, session.rs,
      message.rs, agent_thread.rs, agent_turn.rs, agent_thread_message.rs of am-db.
    - [QueuedTurns]: queued_turn.rs.  [TaskRepos], [TaskReposProps]: repo.rs,
      task_repo.rs, agent_thread_repo.rs and the commands on them.
    - [ThreadText], [TaskTexts], [GitText]: transcripts, prompts, handoff notes,
      paths and diffs.  [Attachments]: am-agents/src/attachments.rs.

    Tasks and threads (am-core/src/orchestrate.rs, agent_thread.rs, fallback.rs):
    - [CoreWorld]: the state the handlers share and class [CoreServices], what they
      call elsewhere; [CoreDemo] is a concrete core.
    - [TaskRuns], [TaskProps]: launching a task, consuming its session.
    - [ThreadRuns], [ThreadRunsProps]: launching a turn, sending and editing
      messages.  [ThreadEdit]: the two transactions of an edit.
    - [TurnLoop], [TurnProps], [TurnStatus]: the supervision of a turn.
    - [ThreadFallback], [FallbackProps]: what follows a limit or a lost network.
    - [ThreadWork], [ThreadWorkProps]: workspaces, diffs, applying changes.
    - [Limits]: provider limits (parts of orchestrate.rs, fallback.rs,
      availability.rs, scheduler.rs; am-db/src/repos/agent.rs).
    - [Scheduler], [SchedulerProps]: the phases of a tick (scheduler.rs).
    - [Budget]: budget.rs, the usage ledger, their use in agent_thread.rs.

    The providers (am-agents/src):
    - [ProviderText], [AdapterArgs]: limits.rs, network.rs, runtime.rs, and how a
      provider is started.  [ExecDrive], [ClaudeStream], [CodexStream]: the parsers
      and driver tasks of claude.rs and codex.rs; [ExecProps], [ClaudeUsage]: laws.
    - [AppServerText], [AppServer], [AppServerProps]: codex_app_server.rs.
    - [ProviderAccounts], [ProviderAccountsProps]: provider_accounts.rs of am-core.

    Work done elsewhere:
    - [CollabDb], [CollabLife], [Collab], [CollabProps]: collaboration.rs of am-db
      and am-core.
    - [CloudRuns], [CloudClients], [CloudHandoff], [CloudProps]: cloud_run.rs,
      am-agents/src/cloud, cloud_handoff.rs.

    ** How code is modelled

    Integers are [Z] with their wrap-around or saturation written out (sums of
    unsigned integers wrap as in a release build), doubles are the Standard
    Library's [spec_float], strings are UTF-8 bytes, hash maps are [gmap].  A table
    is a list of rows in insertion order; a repository function is a program of [M]
    over its store, so an error keeps the writes made before it (unless it runs in a
    transaction) and a constraint violation is the value [Sqlx].  [now()] and
    [new_id()] are arguments.  Iteration over a hash set or map is a parameter that
    lists it once in any order.  Concurrent components are step relations or
    transition systems whose steps are the critical sections; handlers that run on
    many tables are programs whose effects on the rest of the system are recorded in
    order, so that the theorems speak of the history.  What a component calls in
    another is a class; its theorems hold for every instance, and the witnesses give
    one.  Timestamps are integers: milliseconds where the code computes with them in
    milliseconds, nanoseconds in [QueuedTurns].

    ** What is proved

    - Admission: the counters equal the permits that are out, no free slot is
      withheld, no waiter is lost, in every interleaving; a call run alone refines
      the interleaving semantics.  Sessions: one start of a task at a time.
    - Work graph: no sequence of commands on links and nodes makes the gating links
      cyclic, the check accepts exactly the acyclic graphs, the tables stay well
      formed and readable under every repository command.  Layout: it exists for
      every graph, places every node once, and ranks by longest chains.
    - Plans: one writer per repository in every state, starts within the budget and in priority
      order, progress while work is left, the end of a plan, the graph invariant
      through every iteration.  A gate passes or fails only on the verdict the
      evaluator agent stated in time.
    - Context: a packet stays within its budgets, opens with the work item and holds
      the best ranked files; the incremental index is the full index; the search
      index mirrors the rows; user text around a managed block is preserved.
    - Launches and turns: whatever fails, permits and sandboxes come back and at
      most one run follows; a turn settles whatever the provider sends; streamed text
      and transcripts are exact; an edit removes and restores the same rows.
    - Workspaces: deletion stays inside the managed root; every change is checked
      before the first is applied; attachments land in their own directory.
    - Fallback and scheduler: a thread's home survives every fallback; limits are
      waited for; the queue phases start every queued record that is not active.
    - Adapters: a session ends once, usage is counted once, every app-server request
      settles once, approvals fail closed.  Accounts: the one chosen is usable.
    - Approvals: consent, at most one resolution, no stranded call, session end.
    - Queue and budgets: claimed in order, each once; token limits stop sessions and
      launches; consumption is never refunded.
    - Collaboration and cloud: the tables stay sound under every sequence of
      requests, assignments follow their life cycle, a stale lease stays refused,
      a cloud run is launched under its guards and always taken back.
    - Tables, limits, capacity, events: what is written is read back, start-up
      reconciliation, exact fallback choice, backoff, wake-up times, replay.

    ** Bounds and fuel

    [Gating.visit] has the number of nodes as fuel: a node enters the queue once,
    when its count reaches zero ([visit_spec]).  [Gating.closure] has the number of
    pushes possible; [Admission.drain_waiters] the queue length, each iteration
    removing a waiter ([pop_shrinks]).  [Layout]'s ranking has the counted nodes, its
    pushing down of overlaps the bound of the code.  Loops over a
    string (splitting, replacing, collapsing) have its length; the search of a JSON
    value its depth; the walk of [ContextIndex] nine levels, the depth at which the
    code stops.  The scheduler reads 32 records a phase and context packets list 500
    files, as the code does.  Enough fuel is part of the theorems about these
    functions.  The driver loops of plans, of provider processes and of the cloud
    monitor are functions of what they receive, or modelled one iteration at a time.

    ** What is not modelled

    Processes, sockets, HTTP, git and the file system are classes: [WorkServices],
    [RepoServices], [TaskFiles], [RepoView], [AccountHost], [CloudHost],
    [CloudServices], [EvaluatorHost], [PacketHost].  So are third-party libraries:
    serde_json ([Json], [JsonView], [TextSerde]), the formats of chrono, SHA-256 and
    base64 ([Codecs]), the Unicode tables and the decoding of UTF-8 ([CharTable]),
    the logarithm of the ranking, SQLite's full-text matching ([Fts]).  Paths are
    those of Unix.  Handlers of one component are interleaved where they share
    in-memory state (admission, approvals, sessions, the app-server connection);
    collaboration requests, cloud operations and gate evaluations run one at a
    time.  Writing the activity log cannot fail in the handlers of the work graph,
    its plans and evaluations, and of documents and notes, where the code passes an
    error on; elsewhere it is a service that may.  Left out: the model catalogs of
    the providers, sandboxes, GitHub and local model servers, detection of installed
    providers, the daemon's protocol, titles and settings of the workbench, the
    read-only queries of the clients, and the TypeScript clients.

    ** What is left

    The catalogs of models (claude_models.rs, local_models.rs), the dispatch of the
    daemon's requests, the settings of the workbench, and interleavings of the
    handlers that are modelled one at a time. *)
From stdpp Require Export prelude gmap strings list fin_maps relations sorting.
From Stdlib Require Export ZArith Lia.

Declare Scope perpetual_scope.
Delimit Scope perpetual_scope with perp.
Global Open Scope Z_scope.

(** ** Machine integers

    Rust's [u64], [usize] (64-bit targets) and [i64] are kept as [Z] with their
    bounds; the saturating operations of the standard library are written out. *)

Definition u64_max : Z := 2 ^ 64 - 1.
Definition usize_max : Z := 2 ^ 64 - 1.
Definition i64_max : Z := 2 ^ 63 - 1.
Definition i64_min : Z := - 2 ^ 63.
Definition u32_max : Z := 2 ^ 32 - 1.

Definition is_u64 (x : Z) : Prop := 0 <= x <= u64_max.
Definition is_usize (x : Z) : Prop := 0 <= x <= usize_max.
Definition is_i64 (x : Z) : Prop := i64_min <= x <= i64_max.

(** [Ord::clamp lo hi] (the library panics when [hi < lo]; every caller of the
    program passes [lo <= hi]). *)
Definition clampZ (lo hi x : Z) : Z := Z.max lo (Z.min x hi).

(** Wrapping addition on [u64], what a release build computes for [+]. *)
Definition u64_wrapping_add (x y : Z) : Z := (x + y) mod 2 ^ 64.

Definition u64_saturating_add (x y : Z) : Z := Z.min (x + y) u64_max.
Definition u_saturating_sub (x y : Z) : Z := Z.max 0 (x - y).
Definition usize_saturating_mul (x y : Z) : Z := Z.min (x * y) usize_max.
Definition i64_saturating_mul (x y : Z) : Z := clampZ i64_min i64_max (x * y).

(** [x as i64] for an unsigned 64-bit [x]: two's complement reinterpretation. *)
Definition u64_as_i64 (x : Z) : Z := if decide (x < 2 ^ 63) then x else x - 2 ^ 64.

Lemma clampZ_bounds lo hi x : lo <= hi -> lo <= clampZ lo hi x <= hi.
Proof. unfold clampZ. lia. Qed.

Lemma clampZ_id lo hi x : lo <= x <= hi -> clampZ lo hi x = x.
Proof. unfold clampZ. lia. Qed.

Lemma clampZ_mono lo hi x y : x <= y -> clampZ lo hi x <= clampZ lo hi y.
Proof. unfold clampZ. lia. Qed.

Lemma clampZ_idemp lo hi x : lo <= hi -> clampZ lo hi (clampZ lo hi x) = clampZ lo hi x.
Proof. unfold clampZ. lia. Qed.

Lemma u64_wrapping_add_small x y :
  is_u64 x -> 0 <= y -> x + y <= u64_max -> u64_wrapping_add x y = x + y.
Proof. unfold is_u64, u64_max, u64_wrapping_add. intros. apply Z.mod_small. lia. Qed.

(** ** Results

    Rust's [Result] with the error first; a computation that reads and writes a
    store and may return early with [?] keeps the writes it made before the
    error, so the store is threaded outside the result. *)

Inductive result (E A : Type) : Type :=
| Ok (a : A)
| Err (e : E).
Arguments Ok {E A} a.
Arguments Err {E A} e.

Definition is_ok {E A} (r : result E A) : bool :=
  match r with Ok _ => true | Err _ => false end.

#[global] Instance result_ret {E} : MRet (result E) := fun _ a => Ok a.
#[global] Instance result_bind {E} : MBind (result E) :=
  fun _ _ f r => match r with Ok a => f a | Err e => Err e end.
#[global] Instance result_fmap {E} : FMap (result E) :=
  fun _ _ f r => match r with Ok a => Ok (f a) | Err e => Err e end.

(** [Option::ok_or]. *)
Definition ok_or {E A} (o : option A) (e : E) : result E A :=
  match o with Some a => Ok a | None => Err e end.

(** [Option<Result<_,_>>::transpose]. *)
Definition transpose {E A} (o : option (result E A)) : result E (option A) :=
  match o with
  | None => Ok None
  | Some (Ok a) => Ok (Some a)
  | Some (Err e) => Err e
  end.

(** [iter.collect::<Result<Vec<_>, _>>()]: the first error wins. *)
Fixpoint collect {E A} (l : list (result E A)) : result E (list A) :=
  match l with
  | [] => Ok []
  | r :: rest => a ← r; rest' ← collect rest; mret (a :: rest')
  end.

Lemma collect_inv {E A} (l : list (result E A)) xs : collect l = Ok xs -> Forall2 (fun r x => r = Ok x) l xs.
Proof.
  revert xs. induction l as [|[a|e] l IH]; intros xs; cbn; [by intros [= <-]| |done].
  destruct (collect l) as [rest|]; cbn; [|done]. intros [= <-]. constructor; [done|by apply IH].
Qed.

Lemma collect_map_Ok {E A B} (f : A -> result E B) (g : A -> B) l :
  (forall a, a ∈ l -> f a = Ok (g a)) -> collect (f <$> l) = Ok (g <$> l).
Proof.
  induction l as [|a l IH]; intros H; [done|].
  rewrite !fmap_cons; cbn [collect]. rewrite (H a) by set_solver.
  cbn. rewrite IH by set_solver. done.
Qed.

(** ** The state-and-error monad *)

Definition M (S E A : Type) : Type := S -> S * result E A.

#[global] Instance M_ret {S E} : MRet (M S E) := fun _ a s => (s, Ok a).
#[global] Instance M_bind {S E} : MBind (M S E) :=
  fun _ _ f m s => match m s with
                   | (s', Ok a) => f a s'
                   | (s', Err e) => (s', Err e)
                   end.

Definition get {S E} : M S E S := fun s => (s, Ok s).
Definition gets {S E A} (f : S -> A) : M S E A := fun s => (s, Ok (f s)).
Definition modify {S E} (f : S -> S) : M S E () := fun s => (f s, Ok ()).
Definition throw {S E A} (e : E) : M S E A := fun s => (s, Err e).
Definition lift {S E A} (r : result E A) : M S E A := fun s => (s, r).
Definition lift_opt {S E A} (o : option A) (e : E) : M S E A := lift (ok_or o e).
(** [if cond { return Err(e) }]. *)
Definition fail_when {S E} (b : bool) (e : E) : M S E () :=
  if b then throw e else mret ().
(** [let _ = m;] and [if let Ok(..)]: the error is dropped, the writes stay. *)
Definition attempt {S E A} (m : M S E A) : M S E (option A) :=
  fun s => match m s with
           | (s', Ok a) => (s', Ok (Some a))
           | (s', Err _) => (s', Ok None)
           end.
(** [match m.await { Ok(..) => .., Err(..) => .. }]. *)
Definition try_ {S E A} (m : M S E A) : M S E (result E A) :=
  fun s => let '(s', r) := m s in (s', Ok r).
Fixpoint for_each {S E A} (f : A -> M S E ()) (l : list A) : M S E () :=
  match l with
  | [] => mret ()
  | a :: rest => _ ← f a; for_each f rest
  end.

Definition final {S E A} (m : M S E A) (s : S) : S := fst (m s).
Definition value {S E A} (m : M S E A) (s : S) : result E A := snd (m s).

Lemma M_bind_unfold {S E A B} (m : M S E A) (f : A -> M S E B) s :
  (m ≫= f) s = match m s with
               | (s', Ok a) => f a s'
               | (s', Err e) => (s', Err e)
               end.
Proof. done. Qed.

Lemma M_assoc {S E A B C} (m : M S E A) (f : A -> M S E B) (g : B -> M S E C) s :
  ((m ≫= f) ≫= g) s = (m ≫= (fun a => f a ≫= g)) s.
Proof. rewrite !M_bind_unfold. destruct (m s) as [s' [a|e]]; done. Qed.

(** Evaluate one monadic program symbolically: unfold the monad and case on the
    first stuck scrutinee. *)
Ltac unfold_M :=
  unfold mbind, M_bind, mret, M_ret, get, gets, modify, throw, lift, lift_opt,
    fail_when, attempt in *; cbn in *.
Ltac step_M :=
  unfold_M; repeat (case_match; simplify_eq/=; try done).

(** *** Hoare-style reasoning

    [keeps P m]: running [m] from a state with [P] ends in one, whether it
    succeeds or fails. *)
Definition keeps {S E A} (P : S -> Prop) (m : M S E A) : Prop := forall s, P s -> P (final m s).

Section Keeps.
Context {S E : Type} (P : S -> Prop).

Lemma keeps_ret {A} (a : A) : keeps P (mret a : M S E A).
Proof. by intros s. Qed.
Lemma keeps_lift {A} (r : result E A) : keeps P (lift r : M S E A).
Proof. by intros s. Qed.
Lemma keeps_get : keeps P (get : M S E S).
Proof. by intros s. Qed.
Lemma keeps_gets {A} (f : S -> A) : keeps P (gets f : M S E A).
Proof. by intros s. Qed.
Lemma keeps_fail_when b e : keeps P (fail_when b e : M S E ()).
Proof. by intros s; unfold fail_when; destruct b. Qed.
Lemma keeps_modify (f : S -> S) : (forall s, P s -> P (f s)) -> keeps P (modify f : M S E ()).
Proof. intros H s Hs. by apply H. Qed.

Lemma keeps_bind {A B} (m : M S E A) (f : A -> M S E B) :
  keeps P m -> (forall a, keeps P (f a)) -> keeps P (m ≫= f).
Proof.
  intros Hm Hf s Hs. specialize (Hm s Hs). unfold final in *. rewrite M_bind_unfold.
  destruct (m s) as [s' [a|e]]; cbn in *; [by apply Hf|done].
Qed.

(** A write guarded by a test of the state it reads. *)
Lemma keeps_guarded {B} (b : S -> bool) (e : E) (f : S -> S -> S) (k : S -> M S E B) :
  (forall s, P s -> b s = false -> P (f s s)) -> (forall s, keeps P (k s)) ->
  keeps P ((s ← get; _ ← fail_when (b s) e; _ ← modify (f s); k s) : M S E B).
Proof.
  intros Hf Hk s Hs. unfold final, fail_when. rewrite M_bind_unfold. cbn.
  rewrite M_bind_unfold. destruct (b s) eqn:Hb; cbn; [done|].
  rewrite M_bind_unfold. cbn. apply Hk. by apply Hf.
Qed.

Lemma keeps_guarded_last (b : S -> bool) (e : E) (f : S -> S -> S) :
  (forall s, P s -> b s = false -> P (f s s)) ->
  keeps P ((s ← get; _ ← fail_when (b s) e; modify (f s)) : M S E ()).
Proof.
  intros Hf s Hs. unfold final, fail_when. rewrite M_bind_unfold. cbn.
  rewrite M_bind_unfold. destruct (b s) eqn:Hb; cbn; [done|]. by apply Hf.
Qed.

Lemma keeps_for_each {A} (f : A -> M S E ()) l :
  (forall a, keeps P (f a)) -> keeps P (for_each f l).
Proof. intros Hf. induction l as [|a l IH]; cbn; [apply keeps_ret|]. by apply keeps_bind. Qed.

Lemma keeps_ext {A} (m m' : M S E A) : (forall s, m s = m' s) -> keeps P m -> keeps P m'.
Proof. intros He Hm s Hs. unfold final. rewrite <- He. by apply Hm. Qed.
End Keeps.

(** [triple P m Q R]: from [P], [m] returns [a] in a state of [Q a] or fails in
    one of [R]. *)
Definition triple {S E A} (P : S -> Prop) (m : M S E A) (Q : A -> S -> Prop) (R : S -> Prop) : Prop :=
  forall s, P s -> match m s with (s', Ok a) => Q a s' | (s', Err _) => R s' end.

Section Triple.
Context {S E : Type}.

Lemma triple_bind {A B} (P : S -> Prop) (m : M S E A) Q (f : A -> M S E B) Q' R :
  triple P m Q R -> (forall a, triple (Q a) (f a) Q' R) -> triple P (m ≫= f) Q' R.
Proof.
  intros Hm Hf s Hs. specialize (Hm s Hs). rewrite M_bind_unfold.
  destruct (m s) as [s' [a|e]]; [by apply Hf|done].
Qed.

Lemma triple_conseq {A} (P P' : S -> Prop) (m : M S E A) (Q Q' : A -> S -> Prop) (R R' : S -> Prop) :
  triple P' m Q' R' -> (forall s, P s -> P' s) -> (forall a s, Q' a s -> Q a s) -> (forall s, R' s -> R s) ->
  triple P m Q R.
Proof. intros Hm HP HQ HR s Hs. specialize (Hm s (HP s Hs)). destruct (m s) as [s' [a|e]]; auto. Qed.

Lemma keeps_triple {A} P (m : M S E A) : keeps P m <-> triple P m (fun _ => P) P.
Proof.
  split; intros Hm s Hs; specialize (Hm s Hs); unfold final in *; destruct (m s) as [s' [a|e]]; done.
Qed.

Lemma triple_fail_when (P : S -> Prop) b (e : E) :
  triple P (fail_when b e) (fun _ s => P s /\ b = false) P.
Proof. intros s Hs. unfold fail_when. by destruct b. Qed.

Lemma triple_lift {A} (P : S -> Prop) (r : result E A) :
  triple P (lift r) (fun a s => P s /\ r = Ok a) P.
Proof. intros s Hs. unfold lift. by destruct r. Qed.
End Triple.

(** [Option::or]. *)
Definition opt_or {A} (o o' : option A) : option A :=
  match o with Some _ => o | None => o' end.

(** ** First match in a list ([Iterator::find], [Iterator::position]) *)

Fixpoint find {A} (p : A -> bool) (l : list A) : option A :=
  match l with
  | [] => None
  | a :: rest => if p a then Some a else find p rest
  end.

Fixpoint position {A} (p : A -> bool) (l : list A) : option nat :=
  match l with
  | [] => None
  | a :: rest => if p a then Some 0%nat else S <$> position p rest
  end.

Lemma first_match_unique {A} (p : A -> bool) l1 a l2 k1 b k2 :
  l1 ++ a :: l2 = k1 ++ b :: k2 -> p a = true -> p b = true ->
  (forall x, x ∈ l1 -> p x = false) -> (forall x, x ∈ k1 -> p x = false) ->
  l1 = k1 /\ a = b /\ l2 = k2.
Proof.
  revert k1. induction l1 as [|c l1 IH]; intros [|d k1] Heq Ha Hb Hl Hk; simplify_eq/=; [done| | |].
  - rewrite Hk in Ha by left. done.
  - rewrite Hl in Hb by left. done.
  - destruct (IH k1) as (-> & -> & ->); [done..| | |done]; intros x ?; [apply Hl|apply Hk]; by right.
Qed.

Lemma find_Some {A} (p : A -> bool) l a :
  find p l = Some a <->
  exists l1 l2, l = l1 ++ a :: l2 /\ p a = true /\ forall x, x ∈ l1 -> p x = false.
Proof.
  induction l as [|b l IH]; cbn.
  - split; [done|]. intros (l1 & l2 & H & _). by destruct l1.
  - destruct (p b) eqn:Hb; [|rewrite IH]; (split; [|intros (l1 & l2 & Heq & Ha & Hl1);
      destruct l1 as [|c l1]; simplify_eq/=; try done; try congruence]).
    + intros [= ->]. exists [], l. split_and!; [done..|]. by intros x ?%elem_of_nil.
    + rewrite (Hl1 c) in Hb by left. done.
    + intros (l1 & l2 & -> & Ha & Hl1). exists (b :: l1), l2. split_and!; [done..|].
      intros x [->|?]%elem_of_cons; auto.
    + exists l1, l2. split_and!; [done..|]. intros x ?. apply Hl1. by right.
Qed.

Lemma find_None {A} (p : A -> bool) l :
  find p l = None <-> forall x, x ∈ l -> p x = false.
Proof.
  induction l as [|b l IH]; cbn.
  - split; [|done]. intros _ x ?%elem_of_nil. done.
  - destruct (p b) eqn:Hb; [|rewrite IH]; split; intros H; try done.
    + rewrite (H b) in Hb by left. done.
    + intros x [->|?]%elem_of_cons; auto.
    + intros x ?. apply H. by right.
Qed.

Lemma find_Some_elem {A} (p : A -> bool) l a :
  find p l = Some a -> a ∈ l /\ p a = true.
Proof. intros (l1 & l2 & -> & Ha & _)%find_Some. by rewrite elem_of_app, elem_of_cons; auto. Qed.

Lemma position_find {A} (p : A -> bool) l :
  position p l = None /\ find p l = None \/
  exists i a, position p l = Some i /\ find p l = Some a /\ l !! i = Some a /\
              exists l2, l = take i l ++ a :: l2.
Proof.
  induction l as [|b l IH]; cbn; [by left|].
  destruct (p b); [right; exists 0%nat, b; cbn; eauto|].
  destruct IH as [[-> ->]|(i & a & -> & -> & Hi & l2 & Hl)]; [by left|right].
  exists (S i), a. split_and!; [done..|]. exists l2. cbn. by rewrite <- Hl.
Qed.

Lemma position_Some {A} (p : A -> bool) l i :
  position p l = Some i ->
  exists a l1 l2, l = l1 ++ a :: l2 /\ length l1 = i /\ p a = true /\
                  forall x, x ∈ l1 -> p x = false.
Proof.
  revert i. induction l as [|b l IH]; intros i; cbn; [done|].
  destruct (p b) eqn:Hb.
  - intros [= <-]. exists b, [], l. split_and!; [done..|]. by intros x ?%elem_of_nil.
  - intros (j & (a & l1 & l2 & -> & <- & Ha & Hl1)%IH & ->)%fmap_Some.
    exists a, (b :: l1), l2. split_and!; [done..|]. intros x [->|?]%elem_of_cons; auto.
Qed.

Lemma position_None {A} (p : A -> bool) l :
  position p l = None <-> forall x, x ∈ l -> p x = false.
Proof.
  rewrite <- find_None.
  destruct (position_find p l) as [[-> ->]|(i & a & -> & -> & _)]; naive_solver.
Qed.

Lemma filter_all {A} (P : A -> Prop) `{!forall x, Decision (P x)} (l : list A) :
  (forall x, x ∈ l -> P x) -> filter P l = l.
Proof.
  induction l as [|a l IH]; intros Hl; [done|].
  rewrite filter_cons, decide_True by (apply Hl; left). f_equal. apply IH. intros. apply Hl. by right.
Qed.

Lemma filter_none {A} (P : A -> Prop) `{!forall x, Decision (P x)} (l : list A) :
  (forall x, x ∈ l -> ~ P x) -> filter P l = [].
Proof.
  induction l as [|a l IH]; intros Hl; [done|].
  rewrite filter_cons, decide_False by (apply Hl; left). apply IH. intros. apply Hl. by right.
Qed.

Lemma filter_ext_in {A} (P Q : A -> Prop) `{!forall x, Decision (P x), !forall x, Decision (Q x)}
  (l : list A) : (forall x, x ∈ l -> P x <-> Q x) -> filter P l = filter Q l.
Proof.
  induction l as [|a l IH]; intros Hl; [done|].
  assert (P a <-> Q a) by (apply Hl; left).
  rewrite !filter_cons, IH by (intros; apply Hl; by right). repeat case_decide; tauto.
Qed.

Lemma filter_fmap {A B} (f : A -> B) (P : B -> Prop) `{!forall x, Decision (P x)} (l : list A) :
  filter P (f <$> l) = f <$> filter (fun a => P (f a)) l.
Proof.
  induction l as [|a l IH]; [done|]. rewrite fmap_cons, !filter_cons, IH. by case_decide.
Qed.

Lemma existsb_false {A} (p : A -> bool) l : existsb p l = false <-> forall a, a ∈ l -> p a = false.
Proof.
  split.
  - intros He a Ha. destruct (p a) eqn:Hp; [|done]. rewrite <- He. symmetry. apply existsb_exists. exists a.
    by rewrite <- list_elem_of_In.
  - intros H. destruct (existsb p l) eqn:He; [|done]. apply existsb_exists in He as (a & Ha%list_elem_of_In & Hp).
    by rewrite H in Hp.
Qed.

Lemma forallb_false {A} (f : A -> bool) l :
  forallb f l = false -> exists a, a ∈ l /\ f a = false.
Proof.
  induction l as [|a l IH]; cbn; [done|]. intros [H|H]%andb_false_iff.
  - exists a. split; [by left|done].
  - destruct (IH H) as (b & ? & ?). exists b. split; [by right|done].
Qed.

(** [ORDER BY] and [sort_by] with a boolean "not after" test: a stable sort. *)
Definition le_of {A} (leb : A -> A -> bool) (a b : A) : Prop := leb a b = true.
#[export] Instance le_of_dec {A} (leb : A -> A -> bool) : RelDecision (le_of leb).
Proof. intros a b. unfold le_of. apply _. Defined.

Fixpoint insert_by {A} (leb : A -> A -> bool) (a : A) (l : list A) : list A :=
  match l with
  | [] => [a]
  | b :: rest => if leb a b then a :: b :: rest else b :: insert_by leb a rest
  end.
Definition sort_by {A} (leb : A -> A -> bool) (l : list A) : list A := foldr (insert_by leb) [] l.

Lemma insert_by_perm {A} (leb : A -> A -> bool) a l : insert_by leb a l ≡ₚ a :: l.
Proof. induction l as [|b l IH]; cbn; [done|]. destruct (leb a b); [done|]. rewrite IH. constructor. Qed.

Lemma sort_by_perm {A} (leb : A -> A -> bool) l : sort_by leb l ≡ₚ l.
Proof. induction l as [|a l IH]; cbn; [done|]. by rewrite insert_by_perm, IH. Qed.

Lemma insert_by_sorted {A} (leb : A -> A -> bool) `{!Total (le_of leb), !Transitive (le_of leb)} a l :
  StronglySorted (le_of leb) l -> StronglySorted (le_of leb) (insert_by leb a l).
Proof.
  induction 1 as [|b l Hs IH Hb]; cbn; [repeat constructor|]. destruct (leb a b) eqn:Hab.
  - constructor; [by constructor|]. constructor; [done|]. eapply Forall_impl; [exact Hb|].
    intros c. by apply transitivity.
  - constructor; [done|]. rewrite insert_by_perm. constructor; [|done].
    destruct (total (le_of leb) a b) as [?|?]; [|done]. unfold le_of in *. congruence.
Qed.

Lemma sort_by_sorted {A} (leb : A -> A -> bool) `{!Total (le_of leb), !Transitive (le_of leb)} l :
  StronglySorted (le_of leb) (sort_by leb l).
Proof. induction l; cbn; [constructor|by apply insert_by_sorted]. Qed.

(** Elements the test does not tell apart keep their order. *)
Lemma sort_by_stable {A} (leb : A -> A -> bool) (P : A -> Prop) `{!forall x, Decision (P x)} l :
  (forall x y, x ∈ l -> y ∈ l -> P x -> P y -> leb x y = true) -> filter P (sort_by leb l) = filter P l.
Proof.
  induction l as [|a l IH]; intros HP; [done|].
  change (sort_by leb (a :: l)) with (insert_by leb a (sort_by leb l)). rewrite filter_cons, <- IH by (intros; apply HP; by try right).
  assert (forall y, y ∈ sort_by leb l -> P a -> P y -> leb a y = true) as Ha.
  { intros y Hy. rewrite sort_by_perm in Hy. apply HP; [by left|by right]. }
  clear HP IH. induction (sort_by leb l) as [|b k IHk]; [done|].
  cbn [insert_by]. destruct (leb a b) eqn:Hab; [by rewrite filter_cons|]. rewrite !filter_cons, IHk by (intros; apply Ha; [by right|done..]).
  repeat case_decide; try done. by rewrite Ha in Hab by (done || by left).
Qed.

Lemma StronglySorted_filter_keep {A} (R : relation A) (P : A -> Prop) `{!forall x, Decision (P x)} (l : list A) :
  StronglySorted R l -> StronglySorted R (filter P l).
Proof.
  induction 1 as [|a l Hs IH Ha]; [constructor|]. rewrite filter_cons. case_decide; [|done].
  constructor; [done|]. apply Forall_forall. intros x [_ Hx]%list_elem_of_filter.
  by eapply Forall_forall in Ha.
Qed.

Lemma StronglySorted_snoc_last {A} (R : relation A) (l : list A) a :
  StronglySorted R l -> Forall (fun x => R x a) l -> StronglySorted R (l ++ [a]).
Proof.
  induction 1 as [|b l Hs IH Hb]; intros Ha; [repeat constructor|]. apply Forall_cons in Ha as [Hba Ha]. cbn.
  constructor; [auto|]. apply Forall_app. by repeat constructor.
Qed.

(** Rewrite the rows of a table that satisfy a condition ([UPDATE ... WHERE]). *)
Definition update_where {A} (p : A -> bool) (f : A -> A) (l : list A) : list A :=
  (fun a => if p a then f a else a) <$> l.

Lemma elem_of_update_where {A} (p : A -> bool) f l a :
  a ∈ update_where p f l <-> exists b, b ∈ l /\ a = if p b then f b else b.
Proof. unfold update_where. rewrite list_elem_of_fmap. naive_solver. Qed.

Lemma update_where_none {A} (p : A -> bool) f l : existsb p l = false -> update_where p f l = l.
Proof.
  unfold update_where. induction l as [|a l IH]; [done|]. cbn. intros [-> Hl]%orb_false_iff. f_equal. by apply IH.
Qed.

Lemma update_where_app {A} (p : A -> bool) f l1 l2 :
  update_where p f (l1 ++ l2) = update_where p f l1 ++ update_where p f l2.
Proof. unfold update_where. apply fmap_app. Qed.

Lemma find_snoc {A} (p : A -> bool) l a :
  existsb p l = false -> p a = true -> find p (l ++ [a]) = Some a.
Proof.
  induction l as [|b l IH]; cbn; [by intros _ ->|]. intros [-> Hl]%orb_false_iff Ha. by apply IH.
Qed.

Lemma find_append {A} (p : A -> bool) l l' : find p (l ++ l') = opt_or (find p l) (find p l').
Proof. induction l as [|a l IH]; cbn; [done|]. by destruct (p a). Qed.

(** The row an update by key has written. *)
Lemma find_update_where {A} (p q : A -> bool) f l :
  (forall a, p a = true -> q a = true) -> (forall a, p (f a) = p a) -> (forall a, q a = true -> p a = true) ->
  find p (update_where q f l) = f <$> find p l.
Proof.
  intros Hpq Hpf Hqp. induction l as [|a l IH]; [done|]. cbn. destruct (q a) eqn:Hq.
  - rewrite Hpf, (Hqp a Hq). done.
  - destruct (p a) eqn:Hp; [by rewrite Hpq in Hq|]. apply IH.
Qed.

Lemma find_update_other {A} (p q : A -> bool) f l :
  (forall a, q a = true -> p a = false /\ p (f a) = false) -> find p (update_where q f l) = find p l.
Proof.
  intros H. induction l as [|a l IH]; [done|]. cbn. destruct (q a) eqn:Hq.
  - destruct (H a Hq) as [-> ->]. apply IH.
  - destruct (p a); [done|apply IH].
Qed.

(** A column an update does not touch. *)
Lemma update_where_column {A B} (g : A -> B) (p : A -> bool) f l :
  (forall a, a ∈ l -> p a = true -> g (f a) = g a) -> g <$> update_where p f l = g <$> l.
Proof.
  unfold update_where. intros H. rewrite <- list_fmap_compose. 
  induction l as [|a l IH]; [done|]. cbn. rewrite IH by (intros; apply H; [by right|done]).
  f_equal. destruct (p a) eqn:Hp; [|done]. apply H; [by left|done].
Qed.

Lemma NoDup_column_inj {A B} (g : A -> B) (l : list A) a b :
  NoDup (g <$> l) -> a ∈ l -> b ∈ l -> g a = g b -> a = b.
Proof.
  induction l as [|c l IH]; intros Hnd Ha Hb Hg; [by apply elem_of_nil in Ha|].
  rewrite fmap_cons in Hnd. apply NoDup_cons in Hnd as [Hc Hnd].
  apply elem_of_cons in Ha as [->|Ha]; apply elem_of_cons in Hb as [->|Hb]; [done|..|auto];
    exfalso; apply Hc; [rewrite Hg|rewrite <- Hg]; by apply list_elem_of_fmap_2.
Qed.

Lemma NoDup_snoc {A} (l : list A) a : NoDup l -> a ∉ l -> NoDup (l ++ [a]).
Proof.
  intros Hl Ha. apply NoDup_app. split_and!; [done| |repeat constructor; by intros ?%elem_of_nil].
  intros x Hx ->%list_elem_of_singleton. done.
Qed.

Lemma NoDup_filter_column {A B} (g : A -> B) (P : A -> Prop) `{!forall x, Decision (P x)} (l : list A) :
  NoDup (g <$> l) -> NoDup (g <$> filter P l).
Proof.
  intros Hnd. induction l as [|a l IH]; [done|]. rewrite fmap_cons in Hnd.
  apply NoDup_cons in Hnd as [Ha Hnd]. rewrite filter_cons. case_decide; [|auto].
  rewrite fmap_cons. constructor; [|auto]. intros (b & Hb & [_ Hin]%list_elem_of_filter)%list_elem_of_fmap.
  apply Ha. rewrite Hb. by apply list_elem_of_fmap_2.
Qed.

(** [VecDeque::remove(i)]. *)
Definition remove_at {A} (i : nat) (l : list A) : list A := take i l ++ drop (S i) l.

Lemma remove_at_app {A} (l1 l2 : list A) a :
  remove_at (length l1) (l1 ++ a :: l2) = l1 ++ l2.
Proof.
  unfold remove_at. rewrite take_app_length. f_equal.
  rewrite <- Nat.add_1_r, drop_app_add. done.
Qed.

(** Permutation goals between concatenations: compare the occurrence counts. *)
Ltac solve_perm :=
  apply (Permutation_count_occ (fun x y => decide (x = y))); intros ?;
  rewrite ?count_occ_app; cbn; rewrite ?count_occ_app;
  repeat match goal with |- context [if decide ?P then _ else _] => destruct (decide P) end;
  lia.

(** ** Finite relations without cycles *)

Lemma tc_flip {A} (R : relation A) x y : tc R x y -> tc (flip R) y x.
Proof. induction 1 as [x y H|x y z H _ IH]; [by apply tc_once|]. by eapply tc_r. Qed.

Lemma tc_first {A} (R : relation A) x y : tc R x y -> exists z, R x z.
Proof. induction 1; eauto. Qed.

Lemma tc_last {A} (R : relation A) x y :
  tc R x y -> exists z, R z y /\ (z = x \/ tc R x z).
Proof.
  induction 1 as [x y H|x y z H _ (w & Hw & [->|Hyw])]; [by eauto|exists y|exists w]; split; try done.
  - right. by apply tc_once.
  - right. by eapply tc_l.
Qed.

Lemma Acc_irrefl {A} (R : relation A) x : Acc R x -> ~ tc R x x.
Proof.
  induction 1 as [x _ IH]. intros (z & Hz & [->|Hxz])%tc_last; apply (IH _ Hz).
  - by apply tc_once.
  - by eapply tc_l.
Qed.

Lemma acyclic_Acc {A} `{Countable A} (R : relation A) (X : gset A) :
  (forall x y, R x y -> x ∈ X) -> (forall x, ~ tc R x x) -> forall x, Acc R x.
Proof.
  intros HX Hirr x.
  assert (sn (flip R) x) as Hsn; [|exact Hsn].
  apply tc_finite_sn.
  - intros y Hy. by apply (Hirr y), (tc_flip (flip R)).
  - apply (pred_finite_set (C:=gset A)). exists X. intros y Hy.
    apply (tc_flip (flip R)), tc_first in Hy as [z Hz]. by eapply HX.
Qed.

(** [Option::is_some_and] and [Option::is_none_or]. *)
Definition is_some_and {A} (o : option A) (p : A -> bool) : bool :=
  match o with Some a => p a | None => false end.
Definition is_none_or {A} (o : option A) (p : A -> bool) : bool :=
  match o with Some a => p a | None => true end.

Create HintDb perp discriminated.
Create Rewrite HintDb perp_simp.
#[export] Hint Resolve clampZ_bounds clampZ_id : perp.
#[export] Hint Resolve keeps_ret keeps_lift keeps_get keeps_gets keeps_fail_when : perp.
#[export] Hint Rewrite @remove_at_app : perp_simp.
