(* ===== verification/RustStr.v ===== *)
(** * Rust string operations

    A Rust [str] is its UTF-8 bytes, kept as a Rocq [string] (one [ascii] per
    byte).  The operations of the standard library the program calls. *)
From S2P Require Import Prelude.
From Stdlib Require Import Ascii String.
#[local] Open Scope string_scope.
#[local] Open Scope Z_scope.

(** [str::len]: the number of bytes. *)
Definition len (s : string) : Z := Z.of_nat (String.length s).

Definition is_empty (s : string) : bool :=
  match s with EmptyString => true | String _ _ => false end.

(** [str::starts_with], [str::strip_prefix]. *)
Fixpoint strip_prefix (p s : string) : option string :=
  match p, s with
  | EmptyString, _ => Some s
  | String a p, String b s => if Ascii.eqb a b then strip_prefix p s else None
  | String _ _, EmptyString => None
  end.

Definition starts_with (p s : string) : bool :=
  match strip_prefix p s with Some _ => true | None => false end.

Fixpoint rev_append (s acc : string) : string :=
  match s with EmptyString => acc | String a s => rev_append s (String a acc) end.
Definition rev_str (s : string) : string := rev_append s EmptyString.

Definition strip_suffix (p s : string) : option string :=
  option_map rev_str (strip_prefix (rev_str p) (rev_str s)).
Definition ends_with (p s : string) : bool :=
  match strip_suffix p s with Some _ => true | None => false end.

(** [str::contains] with a string pattern. *)
Fixpoint contains (needle s : string) : bool :=
  starts_with needle s ||
  match s with EmptyString => false | String _ rest => contains needle rest end.

(** [str::trim_start_matches] with a (non-empty) string pattern; each removal
    shortens the string, so its length is fuel. *)
Fixpoint trim_start_matches_fuel (fuel : nat) (p s : string) : string :=
  match fuel with
  | O => s
  | S fuel => match strip_prefix p s with
              | Some s' => trim_start_matches_fuel fuel p s'
              | None => s
              end
  end.
Definition trim_start_matches (p s : string) : string :=
  trim_start_matches_fuel (String.length s) p s.

(** ** Whitespace

    [char::is_whitespace] is Unicode [White_Space]; its UTF-8 encodings are one
    to three bytes long. *)
Definition bytes_of (l : list Z) : string :=
  string_of_list_ascii (map (fun z => ascii_of_N (Z.to_N z)) l).

Definition white_space : list string :=
  map bytes_of
    ([[9]; [10]; [11]; [12]; [13]; [32]; [194; 133]; [194; 160]; [225; 154; 128]] ++
     map (fun z => [226; 128; 128 + z]) [0; 1; 2; 3; 4; 5; 6; 7; 8; 9; 10; 40; 41; 47] ++
     [[226; 129; 159]; [227; 128; 128]]).

Fixpoint strip_one (ws : list string) (s : string) : option string :=
  match ws with
  | [] => None
  | w :: ws => match strip_prefix w s with Some s' => Some s' | None => strip_one ws s end
  end.

Fixpoint trim_with (fuel : nat) (ws : list string) (s : string) : string :=
  match fuel with
  | O => s
  | S fuel => match strip_one ws s with Some s' => trim_with fuel ws s' | None => s end
  end.

(** [str::trim_start], [str::trim_end], [str::trim]. *)
Definition trim_start (s : string) : string := trim_with (String.length s) white_space s.
Definition trim_end (s : string) : string :=
  rev_str (trim_with (String.length s) (map rev_str white_space) (rev_str s)).
Definition trim (s : string) : string := trim_end (trim_start s).

(** ** Lemmas *)

Lemma strip_prefix_Some p s s' : strip_prefix p s = Some s' <-> s = (p +:+ s')%string.
Proof.
  revert s. induction p as [|a p IH]; intros s.
  - change (strip_prefix EmptyString s) with (Some s). change (EmptyString +:+ s')%string with s'.
    split; congruence.
  - change (String a p +:+ s')%string with (String a (p +:+ s')). destruct s as [|b s]; cbn; [done|].
    destruct (Ascii.eqb_spec a b) as [->|Hne]; [rewrite IH|]; split; congruence.
Qed.

Lemma length_rev_append s acc : String.length (rev_append s acc) = (String.length s + String.length acc)%nat.
Proof. revert acc. induction s as [|a s IH]; intros acc; cbn; [done|]. rewrite IH. cbn. lia. Qed.

Lemma length_rev_str s : String.length (rev_str s) = String.length s.
Proof. unfold rev_str. rewrite length_rev_append. cbn. lia. Qed.

Lemma app_assoc_str (s t u : string) : ((s +:+ t) +:+ u = s +:+ (t +:+ u))%string.
Proof. induction s as [|a s IH]; [done|]. apply (f_equal (String a)), IH. Qed.

Lemma app_empty_str (s : string) : (s +:+ EmptyString)%string = s.
Proof. induction s as [|a s IH]; [done|]. apply (f_equal (String a)), IH. Qed.

Lemma rev_append_spec s acc : rev_append s acc = (rev_str s +:+ acc)%string.
Proof.
  revert acc. induction s as [|a s IH]; intros acc; cbn; [done|].
  unfold rev_str. cbn. rewrite (IH (String a acc)), (IH (String a EmptyString)).
  by rewrite app_assoc_str.
Qed.

Lemma rev_str_cons a s : rev_str (String a s) = (rev_str s +:+ String a EmptyString)%string.
Proof. unfold rev_str at 1. cbn. apply rev_append_spec. Qed.

Lemma rev_str_app s t : rev_str (s +:+ t) = (rev_str t +:+ rev_str s)%string.
Proof.
  induction s as [|a s IH].
  - symmetry. apply app_empty_str.
  - change (String a s +:+ t)%string with (String a (s +:+ t)). rewrite !rev_str_cons, IH.
    by rewrite app_assoc_str.
Qed.

Lemma rev_str_involutive s : rev_str (rev_str s) = s.
Proof. induction s as [|a s IH]; [done|]. rewrite rev_str_cons, rev_str_app, IH. done. Qed.

Lemma length_app_str (s t : string) : String.length (s +:+ t) = (String.length s + String.length t)%nat.
Proof. induction s as [|a s IH]; [done|]. apply (f_equal S), IH. Qed.

Lemma ends_with_app p s : ends_with p (s +:+ p) = true.
Proof.
  unfold ends_with, strip_suffix. rewrite rev_str_app.
  assert (strip_prefix (rev_str p) (rev_str p +:+ rev_str s) = Some (rev_str s)) as ->
    by by apply strip_prefix_Some.
  done.
Qed.

(** ** Cutting at a character boundary *)

(** [str::is_char_boundary]: an end of the string, or a byte that does not
    continue a character. *)
Definition is_char_boundary (s : string) (i : nat) : bool :=
  Nat.eqb i 0 ||
  match String.get i s with
  | None => Nat.eqb i (String.length s)
  | Some a => negb ((128 <=? Z.of_N (N_of_ascii a)) && (Z.of_N (N_of_ascii a) <? 192))
  end.

(** [while end > 0 && !value.is_char_boundary(end) { end -= 1 }]. *)
Fixpoint char_floor (s : string) (e : nat) : nat :=
  match e with
  | O => O
  | S e' => if is_char_boundary s e then e else char_floor s e'
  end.

Lemma char_floor_le s e : (char_floor s e <= e)%nat.
Proof. induction e as [|e IH]; cbn [char_floor]; [done|]. case_match; lia. Qed.

Lemma char_floor_boundary s e : is_char_boundary s (char_floor s e) = true.
Proof. induction e as [|e IH]; cbn [char_floor]; [done|]. destruct (is_char_boundary s (S e)) eqn:He; done. Qed.

Lemma len_app s t : len (s +:+ t) = len s + len t.
Proof. unfold len. rewrite length_app_str. lia. Qed.

Lemma len_nonneg s : 0 <= len s.
Proof. unfold len. lia. Qed.

Lemma length_substring0 n s : (String.length (substring 0 n s) <= n)%nat.
Proof. revert n. induction s as [|a s IH]; intros [|n]; cbn; try lia. specialize (IH n). lia. Qed.
