(* ===== verification/Json.v ===== *)
(** * JSON values

    The third-party serde_json as a parameter: class [Json] has the operations
    the code calls, [JsonOk] the behaviour it documents.  Module [Tree] is a
    concrete value type with a reversible text, the instance of the witnesses. *)
From S2P Require Import Prelude.
From stdpp Require Import countable.
From Stdlib Require Import Ascii String.

Class Json (V : Type) := {
  Null : V;
  json_str : string -> V;
  json_num : Z -> V;
  json_bool : bool -> V;
  (** [json!({ k: v, ... })] with distinct keys. *)
  json_object : list (string * V) -> V;
  (** [Value::get] on a string key. *)
  json_get : V -> string -> option V;
  json_as_str : V -> option string;
  json_as_i64 : V -> option Z;
  (** [serde_json::to_string] on a [Value] (it fails on no value). *)
  json_to_string : V -> string;
  (** the error is [err.to_string()] *)
  json_from_str : string -> result string V
}.

(** [json!] on an [Option<String>]. *)
Definition json_opt {V} `{Json V} (o : option string) : V := from_option json_str Null o.

Fixpoint assoc {A} (k : string) (l : list (string * A)) : option A :=
  match l with
  | [] => None
  | (k', a) :: rest => if String.eqb k k' then Some a else assoc k rest
  end.

Class JsonOk (V : Type) `{Json V} : Prop := {
  json_text_roundtrip : forall v, json_from_str (json_to_string v) = Ok v;
  json_get_object : forall kvs k, NoDup kvs.*1 -> json_get (json_object kvs) k = assoc k kvs;
  json_as_str_str : forall s, json_as_str (json_str s) = Some s;
  json_as_str_null : json_as_str Null = None;
  json_as_i64_num : forall z, is_i64 z -> json_as_i64 (json_num z) = Some z;
  json_bool_distinct : json_bool true <> json_bool false
}.

Lemma json_opt_as_str {V} `{JsonOk V} o : json_as_str (json_opt (V:=V) o) = o.
Proof. destruct o; [apply json_as_str_str|apply json_as_str_null]. Qed.

(** serde_json on a type of the program: [to_string] and [from_str]. *)
Class TextSerde (A : Type) := { to_text : A -> string; from_text : string -> result string A }.
Class TextSerdeOk (A : Type) `{TextSerde A} : Prop := { from_to_text : forall a, from_text (to_text a) = Ok a }.

(** A concrete instance. *)
Module Tree.

Inductive t :=
| JNull
| JBool (b : bool)
| JNum (z : Z)
| JStr (s : string)
| JArray (vs : list t)
| JObject (kvs : list (string * t)).

(** The shape as a generic tree: an object lists keys and values in turn. *)
Fixpoint to_tree (v : t) : gen_tree (Z + string) :=
  match v with
  | JNull => GenNode 0 []
  | JBool b => GenNode (if b then 1 else 2) []
  | JNum z => GenLeaf (inl z)
  | JStr s => GenLeaf (inr s)
  | JArray vs => GenNode 5 (to_tree <$> vs)
  | JObject kvs => GenNode 3 ((fun kv => GenNode 4 [GenLeaf (inr kv.1); to_tree kv.2]) <$> kvs)
  end.

Fixpoint of_tree (g : gen_tree (Z + string)) : t :=
  match g with
  | GenLeaf (inl z) => JNum z
  | GenLeaf (inr s) => JStr s
  | GenNode 0 _ => JNull
  | GenNode 1 _ => JBool true
  | GenNode 2 _ => JBool false
  | GenNode 5 gs => JArray (of_tree <$> gs)
  | GenNode _ gs =>
      JObject ((fun g => match g with
                         | GenNode _ [GenLeaf (inr k); v] => (k, of_tree v)
                         | _ => (EmptyString, JNull)
                         end) <$> gs)
  end.

Section Induction.
Variable P : t -> Prop.
Hypothesis HNull : P JNull.
Hypothesis HBool : forall b, P (JBool b).
Hypothesis HNum : forall z, P (JNum z).
Hypothesis HStr : forall s, P (JStr s).
Hypothesis HArray : forall vs, Forall P vs -> P (JArray vs).
Hypothesis HObject : forall kvs, Forall (fun kv => P kv.2) kvs -> P (JObject kvs).

Fixpoint tree_ind (v : t) : P v :=
  match v with
  | JNull => HNull
  | JBool b => HBool b
  | JNum z => HNum z
  | JStr s => HStr s
  | JArray vs =>
      HArray vs ((fix go (l : list t) : Forall P l :=
                    match l with
                    | [] => Forall_nil_2 _
                    | v :: l => Forall_cons_2 _ _ _ (tree_ind v) (go l)
                    end) vs)
  | JObject kvs =>
      HObject kvs ((fix go (l : list (string * t)) : Forall (fun kv => P kv.2) l :=
                      match l with
                      | [] => Forall_nil_2 _
                      | kv :: l => Forall_cons_2 _ _ _ (tree_ind kv.2) (go l)
                      end) kvs)
  end.
End Induction.

Lemma of_to_tree v : of_tree (to_tree v) = v.
Proof.
  induction v as [|b| | |vs IH|kvs IH] using tree_ind; [done|by destruct b|done..| |]; cbn; f_equal.
  { induction IH as [|v l Hv _ IHl]; [done|]. cbn in *. by rewrite Hv, IHl. }
  induction IH as [|[k v] l Hv _ IHl]; [done|]. cbn in *. by rewrite Hv, IHl.
Qed.

#[global] Instance Tree_eq_dec : EqDecision t.
Proof.
  refine (fun v w => cast_if (decide (to_tree v = to_tree w))).
  - abstract (rewrite <- (of_to_tree v), <- (of_to_tree w); by f_equal).
  - abstract congruence.
Defined.

#[global] Instance Tree_countable : Countable t := inj_countable' to_tree of_tree of_to_tree.

(** Binary text of a positive, lowest digit first. *)
Fixpoint digits (p : positive) : string :=
  match p with
  | xH => EmptyString
  | xO p => String "0"%char (digits p)
  | xI p => String "1"%char (digits p)
  end.

Fixpoint undigits (s : string) : positive :=
  match s with
  | EmptyString => xH
  | String c s => if Ascii.eqb c "0"%char then xO (undigits s) else xI (undigits s)
  end.

Lemma undigits_digits p : undigits (digits p) = p.
Proof. induction p as [p IH|p IH|]; cbn; by rewrite ?IH. Qed.

#[global] Instance tree_json : Json t := {
  Null := JNull;
  json_str := JStr;
  json_num := JNum;
  json_bool := JBool;
  json_object := JObject;
  json_get v k := match v with JObject kvs => assoc k kvs | _ => None end;
  json_as_str v := match v with JStr s => Some s | _ => None end;
  json_as_i64 v := match v with JNum z => Some z | _ => None end;
  json_to_string v := digits (encode v);
  json_from_str s := ok_or (decode (undigits s)) "expected value"%string
}.

#[global] Instance tree_json_ok : JsonOk t.
Proof.
  split; [|done..]. intros v. cbn. by rewrite undigits_digits, decode_encode.
Qed.

End Tree.
