(* ===== verification/Enums.v ===== *)
(** * Wire enumerations (crates/am-proto/src)

    Every fieldless enum that is stored in the database or sent to a client has
    [as_str] and [parse].  Each is a module named after the Rust type, with the
    source's constructors; [WireEnum] is what the database layer needs from it. *)
From S2P Require Import Prelude.

(** [match s { "a" => A, ... _ => return None }]: the first arm that matches. *)
Fixpoint match_str {A} (s : string) (arms : list (string * A)) : option A :=
  match arms with
  | [] => None
  | (k, a) :: rest => if String.eqb s k then Some a else match_str s rest
  end.

Lemma match_str_Some {A} s (arms : list (string * A)) a :
  match_str s arms = Some a -> (s, a) ∈ arms.
Proof.
  induction arms as [|[k b] rest IH]; cbn; [done|].
  destruct (String.eqb_spec s k) as [->|]; [intros [= ->]; by left|intros ?; right; auto].
Qed.

(** A type with a textual form from which it is read back. *)
Class WireEnum (T : Type) := {
  wire : T -> string;
  unwire : string -> option T;
  unwire_wire : forall x, unwire (wire x) = Some x
}.

Definition wire_enum {T} (as_str : T -> string) (parse : string -> option T)
  (law : forall x, parse (as_str x) = Some x) : WireEnum T :=
  Build_WireEnum T as_str parse law.

(** [parse] has no alias: it accepts the output of [as_str] and nothing else. *)
Class CanonicalEnum (T : Type) `{WireEnum T} := {
  wire_unwire : forall s x, unwire s = Some x -> wire x = s
}.

(** Invert a successful [match_str] arm by arm. *)
Ltac solve_match_str :=
  intros Hm; apply match_str_Some in Hm;
  repeat (apply elem_of_cons in Hm as [Hm|Hm]; [by inversion Hm|]);
  by apply elem_of_nil in Hm.

Section WireLaws.
Context {T : Type} `{WireEnum T}.

(** Distinct values have distinct texts. *)
Lemma wire_inj x y : wire x = wire y -> x = y.
Proof. intros Heq. pose proof (unwire_wire x) as Hx. rewrite Heq, unwire_wire in Hx. by inversion Hx. Qed.

Lemma unwire_spec `{!CanonicalEnum T} s x : unwire s = Some x <-> wire x = s.
Proof. split; [apply wire_unwire|intros <-; apply unwire_wire]. Qed.
End WireLaws.

#[export] Hint Resolve unwire_wire : perp.

(** ** enums.rs *)

Module AgentKind.

Inductive t := ClaudeCode | Codex | Gemini | Cursor | OpenCode.

#[global] Instance AgentKind_eq_dec : EqDecision t.
Proof. solve_decision. Defined.

Definition as_str (x : t) : string :=
  match x with
  | ClaudeCode => "claude_code"
  | Codex => "codex"
  | Gemini => "gemini"
  | Cursor => "cursor"
  | OpenCode => "open_code"
  end%string.

Definition label (x : t) : string :=
  match x with
  | ClaudeCode => "Claude Code"
  | Codex => "Codex"
  | Gemini => "Gemini CLI"
  | Cursor => "Cursor"
  | OpenCode => "OpenCode"
  end%string.

Definition parse (s : string) : option t :=
  match_str s
    [("claude_code", ClaudeCode);
     ("codex", Codex);
     ("gemini", Gemini);
     ("cursor", Cursor);
     ("open_code", OpenCode)]%string.

#[global] Instance AgentKind_wire : WireEnum t := wire_enum as_str parse ltac:(intros []; done).
#[global] Instance AgentKind_canonical : CanonicalEnum t.
Proof. constructor. intros s x. solve_match_str. Qed.

End AgentKind.

Module TaskStatus.

Inductive t :=
| Draft
| Queued
| Running
| RunningInCloud
| AwaitingApproval
| WaitingForLimit
| WaitingForNetwork
| Paused
| Review
| Done
| Failed
| Cancelled.

#[global] Instance TaskStatus_eq_dec : EqDecision t.
Proof. solve_decision. Defined.

Definition as_str (x : t) : string :=
  match x with
  | Draft => "draft"
  | Queued => "queued"
  | Running => "running"
  | RunningInCloud => "running_in_cloud"
  | AwaitingApproval => "awaiting_approval"
  | WaitingForLimit => "waiting_for_limit"
  | WaitingForNetwork => "waiting_for_network"
  | Paused => "paused"
  | Review => "review"
  | Done => "done"
  | Failed => "failed"
  | Cancelled => "cancelled"
  end%string.

Definition parse (s : string) : option t :=
  match_str s
    [("draft", Draft);
     ("queued", Queued);
     ("running", Running);
     ("running_in_cloud", RunningInCloud);
     ("awaiting_approval", AwaitingApproval);
     ("waiting_for_limit", WaitingForLimit);
     ("waiting_for_network", WaitingForNetwork);
     ("paused", Paused);
     ("review", Review);
     ("done", Done);
     ("failed", Failed);
     ("cancelled", Cancelled)]%string.

#[global] Instance TaskStatus_wire : WireEnum t := wire_enum as_str parse ltac:(intros []; done).
#[global] Instance TaskStatus_canonical : CanonicalEnum t.
Proof. constructor. intros s x. solve_match_str. Qed.

End TaskStatus.

Module TaskPriority.

Inductive t := Low | Medium | High | Urgent.

#[global] Instance TaskPriority_eq_dec : EqDecision t.
Proof. solve_decision. Defined.

Definition as_str (x : t) : string :=
  match x with
  | Low => "low"
  | Medium => "medium"
  | High => "high"
  | Urgent => "urgent"
  end%string.

Definition parse (s : string) : option t :=
  match_str s
    [("low", Low);
     ("medium", Medium);
     ("high", High);
     ("urgent", Urgent)]%string.

#[global] Instance TaskPriority_wire : WireEnum t := wire_enum as_str parse ltac:(intros []; done).
#[global] Instance TaskPriority_canonical : CanonicalEnum t.
Proof. constructor. intros s x. solve_match_str. Qed.

Definition default : t := Medium.

End TaskPriority.

Module RepoKind.

Inductive t := Local | GitHub.

#[global] Instance RepoKind_eq_dec : EqDecision t.
Proof. solve_decision. Defined.

Definition as_str (x : t) : string :=
  match x with
  | Local => "local"
  | GitHub => "github"
  end%string.

Definition parse (s : string) : option t :=
  match_str s
    [("local", Local);
     ("github", GitHub)]%string.

#[global] Instance RepoKind_wire : WireEnum t := wire_enum as_str parse ltac:(intros []; done).
#[global] Instance RepoKind_canonical : CanonicalEnum t.
Proof. constructor. intros s x. solve_match_str. Qed.

End RepoKind.

Module ExecutionBackend.

Inductive t := Host | DockerSandbox | Cloud.

#[global] Instance ExecutionBackend_eq_dec : EqDecision t.
Proof. solve_decision. Defined.

Definition as_str (x : t) : string :=
  match x with
  | Host => "host"
  | DockerSandbox => "docker_sandbox"
  | Cloud => "cloud"
  end%string.

Definition parse (s : string) : option t :=
  match_str s
    [("host", Host);
     ("docker_sandbox", DockerSandbox);
     ("cloud", Cloud)]%string.

#[global] Instance ExecutionBackend_wire : WireEnum t := wire_enum as_str parse ltac:(intros []; done).
#[global] Instance ExecutionBackend_canonical : CanonicalEnum t.
Proof. constructor. intros s x. solve_match_str. Qed.

Definition default : t := Host.

End ExecutionBackend.

(** ** session.rs *)

Module SessionState.

Inductive t := Running | Completed | Interrupted | Failed.

#[global] Instance SessionState_eq_dec : EqDecision t.
Proof. solve_decision. Defined.

Definition as_str (x : t) : string :=
  match x with
  | Running => "running"
  | Completed => "completed"
  | Interrupted => "interrupted"
  | Failed => "failed"
  end%string.

Definition parse (s : string) : option t :=
  match_str s
    [("running", Running);
     ("completed", Completed);
     ("interrupted", Interrupted);
     ("failed", Failed)]%string.

#[global] Instance SessionState_wire : WireEnum t := wire_enum as_str parse ltac:(intros []; done).
#[global] Instance SessionState_canonical : CanonicalEnum t.
Proof. constructor. intros s x. solve_match_str. Qed.

End SessionState.

Module AvailabilityState.

Inductive t := Unknown | Available | Limited.

#[global] Instance AvailabilityState_eq_dec : EqDecision t.
Proof. solve_decision. Defined.

Definition as_str (x : t) : string :=
  match x with
  | Unknown => "unknown"
  | Available => "available"
  | Limited => "limited"
  end%string.

Definition parse (s : string) : option t :=
  match_str s
    [("unknown", Unknown);
     ("available", Available);
     ("limited", Limited)]%string.

#[global] Instance AvailabilityState_wire : WireEnum t := wire_enum as_str parse ltac:(intros []; done).
#[global] Instance AvailabilityState_canonical : CanonicalEnum t.
Proof. constructor. intros s x. solve_match_str. Qed.

End AvailabilityState.

(** ** compute.rs *)

Module ComputeProviderKind.

Inductive t := Vast | Runpod | Lambda.

#[global] Instance ComputeProviderKind_eq_dec : EqDecision t.
Proof. solve_decision. Defined.

Definition as_str (x : t) : string :=
  match x with
  | Vast => "vast"
  | Runpod => "runpod"
  | Lambda => "lambda"
  end%string.

Definition parse (s : string) : option t :=
  match_str s
    [("vast", Vast);
     ("vast_ai", Vast);
     ("runpod", Runpod);
     ("run_pod", Runpod);
     ("lambda", Lambda);
     ("lambda_cloud", Lambda)]%string.

#[global] Instance ComputeProviderKind_wire : WireEnum t := wire_enum as_str parse ltac:(intros []; done).

End ComputeProviderKind.

Module ModelTargetKind.

Inductive t := FrontierDefault | LocalProvider | RentedCompute.

#[global] Instance ModelTargetKind_eq_dec : EqDecision t.
Proof. solve_decision. Defined.

Definition as_str (x : t) : string :=
  match x with
  | FrontierDefault => "frontier_default"
  | LocalProvider => "local_provider"
  | RentedCompute => "rented_compute"
  end%string.

Definition parse (s : string) : option t :=
  match_str s
    [("frontier_default", FrontierDefault);
     ("default", FrontierDefault);
     ("cloud", FrontierDefault);
     ("local_provider", LocalProvider);
     ("local", LocalProvider);
     ("rented_compute", RentedCompute);
     ("rented", RentedCompute);
     ("remote_model", RentedCompute)]%string.

#[global] Instance ModelTargetKind_wire : WireEnum t := wire_enum as_str parse ltac:(intros []; done).

Definition default : t := FrontierDefault.

End ModelTargetKind.

(** ** local_model.rs *)

Module LocalModelProviderKind.

Inductive t := Ollama | LmStudio.

#[global] Instance LocalModelProviderKind_eq_dec : EqDecision t.
Proof. solve_decision. Defined.

Definition as_str (x : t) : string :=
  match x with
  | Ollama => "ollama"
  | LmStudio => "lm_studio"
  end%string.

Definition label (x : t) : string :=
  match x with
  | Ollama => "Ollama"
  | LmStudio => "LM Studio"
  end%string.

Definition codex_oss_provider (x : t) : string :=
  match x with
  | Ollama => "ollama"
  | LmStudio => "lmstudio"
  end%string.

Definition default_base_url (x : t) : string :=
  match x with
  | Ollama => "http://127.0.0.1:11434"
  | LmStudio => "http://127.0.0.1:1234"
  end%string.

Definition parse (s : string) : option t :=
  match_str s
    [("ollama", Ollama);
     ("lm_studio", LmStudio);
     ("lmstudio", LmStudio)]%string.

#[global] Instance LocalModelProviderKind_wire : WireEnum t := wire_enum as_str parse ltac:(intros []; done).

End LocalModelProviderKind.

(** ** cloud.rs *)

Module CloudRunStatus.

Inductive t :=
| Provisioning
| Running
| Stalled
| Completed
| Failed
| Expired
| Reclaimed.

#[global] Instance CloudRunStatus_eq_dec : EqDecision t.
Proof. solve_decision. Defined.

Definition as_str (x : t) : string :=
  match x with
  | Provisioning => "provisioning"
  | Running => "running"
  | Stalled => "stalled"
  | Completed => "completed"
  | Failed => "failed"
  | Expired => "expired"
  | Reclaimed => "reclaimed"
  end%string.

Definition is_active (x : t) : bool :=
  match x with | Provisioning | Running | Stalled => true | _ => false end.

Definition parse (s : string) : option t :=
  match_str s
    [("provisioning", Provisioning);
     ("running", Running);
     ("stalled", Stalled);
     ("completed", Completed);
     ("failed", Failed);
     ("expired", Expired);
     ("reclaimed", Reclaimed)]%string.

#[global] Instance CloudRunStatus_wire : WireEnum t := wire_enum as_str parse ltac:(intros []; done).
#[global] Instance CloudRunStatus_canonical : CanonicalEnum t.
Proof. constructor. intros s x. solve_match_str. Qed.

End CloudRunStatus.

Module CloudHandoffTrigger.

Inductive t := Manual | Sleep | Shutdown.

#[global] Instance CloudHandoffTrigger_eq_dec : EqDecision t.
Proof. solve_decision. Defined.

Definition as_str (x : t) : string :=
  match x with
  | Manual => "manual"
  | Sleep => "sleep"
  | Shutdown => "shutdown"
  end%string.

Definition parse (s : string) : option t :=
  match_str s
    [("manual", Manual);
     ("sleep", Sleep);
     ("shutdown", Shutdown)]%string.

#[global] Instance CloudHandoffTrigger_wire : WireEnum t := wire_enum as_str parse ltac:(intros []; done).
#[global] Instance CloudHandoffTrigger_canonical : CanonicalEnum t.
Proof. constructor. intros s x. solve_match_str. Qed.

End CloudHandoffTrigger.

(** ** approval.rs *)

Module ApprovalKind.

Inductive t := Command | FileChange | Tool.

#[global] Instance ApprovalKind_eq_dec : EqDecision t.
Proof. solve_decision. Defined.

Definition as_str (x : t) : string :=
  match x with
  | Command => "command"
  | FileChange => "file_change"
  | Tool => "tool"
  end%string.

End ApprovalKind.

Module ApprovalDecision.

Inductive t := Allow | AllowForSession | Deny | Abort.

#[global] Instance ApprovalDecision_eq_dec : EqDecision t.
Proof. solve_decision. Defined.

Definition as_str (x : t) : string :=
  match x with
  | Allow => "allow"
  | AllowForSession => "allow_for_session"
  | Deny => "deny"
  | Abort => "abort"
  end%string.

Definition is_allow (x : t) : bool :=
  match x with | Allow | AllowForSession => true | _ => false end.

Definition parse (s : string) : option t :=
  match_str s
    [("allow", Allow);
     ("allow_for_session", AllowForSession);
     ("deny", Deny);
     ("abort", Abort)]%string.

#[global] Instance ApprovalDecision_wire : WireEnum t := wire_enum as_str parse ltac:(intros []; done).
#[global] Instance ApprovalDecision_canonical : CanonicalEnum t.
Proof. constructor. intros s x. solve_match_str. Qed.

End ApprovalDecision.

Module ApprovalResolution.

Inductive t := Decided | Cancelled | TimedOut.

#[global] Instance ApprovalResolution_eq_dec : EqDecision t.
Proof. solve_decision. Defined.

Definition as_str (x : t) : string :=
  match x with
  | Decided => "decided"
  | Cancelled => "cancelled"
  | TimedOut => "timed_out"
  end%string.

End ApprovalResolution.

(** ** work_graph.rs *)

Module WorkNodeKind.

Inductive t := Group | Task | Session | Milestone.

#[global] Instance WorkNodeKind_eq_dec : EqDecision t.
Proof. solve_decision. Defined.

Definition as_str (x : t) : string :=
  match x with
  | Group => "group"
  | Task => "task"
  | Session => "session"
  | Milestone => "milestone"
  end%string.

Definition parse (s : string) : option t :=
  match_str s
    [("group", Group);
     ("task", Task);
     ("session", Session);
     ("milestone", Milestone)]%string.

#[global] Instance WorkNodeKind_wire : WireEnum t := wire_enum as_str parse ltac:(intros []; done).
#[global] Instance WorkNodeKind_canonical : CanonicalEnum t.
Proof. constructor. intros s x. solve_match_str. Qed.

End WorkNodeKind.

Module WorkEdgeKind.

Inductive t := DependsOn | Blocks | Handoff | SharesContext | RelatesTo.

#[global] Instance WorkEdgeKind_eq_dec : EqDecision t.
Proof. solve_decision. Defined.

Definition as_str (x : t) : string :=
  match x with
  | DependsOn => "depends_on"
  | Blocks => "blocks"
  | Handoff => "handoff"
  | SharesContext => "shares_context"
  | RelatesTo => "relates_to"
  end%string.

Definition parse (s : string) : option t :=
  match_str s
    [("depends_on", DependsOn);
     ("blocks", Blocks);
     ("handoff", Handoff);
     ("shares_context", SharesContext);
     ("relates_to", RelatesTo)]%string.

#[global] Instance WorkEdgeKind_wire : WireEnum t := wire_enum as_str parse ltac:(intros []; done).
#[global] Instance WorkEdgeKind_canonical : CanonicalEnum t.
Proof. constructor. intros s x. solve_match_str. Qed.

End WorkEdgeKind.

Module LayoutMode.

Inductive t := PreserveManual | Force.

#[global] Instance LayoutMode_eq_dec : EqDecision t.
Proof. solve_decision. Defined.

Definition as_str (x : t) : string :=
  match x with
  | PreserveManual => "preserve_manual"
  | Force => "force"
  end%string.

Definition parse (s : string) : option t :=
  match_str s
    [("preserve_manual", PreserveManual);
     ("force", Force)]%string.

#[global] Instance LayoutMode_wire : WireEnum t := wire_enum as_str parse ltac:(intros []; done).
#[global] Instance LayoutMode_canonical : CanonicalEnum t.
Proof. constructor. intros s x. solve_match_str. Qed.

Definition default : t := PreserveManual.

End LayoutMode.

Module GateMode.

Inductive t := Manual | AutoEvaluate | Autonomous.

#[global] Instance GateMode_eq_dec : EqDecision t.
Proof. solve_decision. Defined.

Definition as_str (x : t) : string :=
  match x with
  | Manual => "manual"
  | AutoEvaluate => "auto_evaluate"
  | Autonomous => "autonomous"
  end%string.

Definition parse (s : string) : option t :=
  match_str s
    [("manual", Manual);
     ("auto_evaluate", AutoEvaluate);
     ("autonomous", Autonomous)]%string.

#[global] Instance GateMode_wire : WireEnum t := wire_enum as_str parse ltac:(intros []; done).
#[global] Instance GateMode_canonical : CanonicalEnum t.
Proof. constructor. intros s x. solve_match_str. Qed.

Definition default : t := AutoEvaluate.

End GateMode.

Module WorkPlanRunState.

Inductive t := Running | Paused | Completed | Failed | Cancelled.

#[global] Instance WorkPlanRunState_eq_dec : EqDecision t.
Proof. solve_decision. Defined.

Definition as_str (x : t) : string :=
  match x with
  | Running => "running"
  | Paused => "paused"
  | Completed => "completed"
  | Failed => "failed"
  | Cancelled => "cancelled"
  end%string.

Definition parse (s : string) : option t :=
  match_str s
    [("running", Running);
     ("paused", Paused);
     ("completed", Completed);
     ("failed", Failed);
     ("cancelled", Cancelled)]%string.

#[global] Instance WorkPlanRunState_wire : WireEnum t := wire_enum as_str parse ltac:(intros []; done).
#[global] Instance WorkPlanRunState_canonical : CanonicalEnum t.
Proof. constructor. intros s x. solve_match_str. Qed.

End WorkPlanRunState.

Module PlanFailureMode.

Inductive t := Halt | Continue | Retry.

#[global] Instance PlanFailureMode_eq_dec : EqDecision t.
Proof. solve_decision. Defined.

Definition as_str (x : t) : string :=
  match x with
  | Halt => "halt"
  | Continue => "continue"
  | Retry => "retry"
  end%string.

Definition parse (s : string) : option t :=
  match_str s
    [("halt", Halt);
     ("continue", Continue);
     ("retry", Retry)]%string.

#[global] Instance PlanFailureMode_wire : WireEnum t := wire_enum as_str parse ltac:(intros []; done).
#[global] Instance PlanFailureMode_canonical : CanonicalEnum t.
Proof. constructor. intros s x. solve_match_str. Qed.

Definition default : t := Halt.

End PlanFailureMode.

Module EvaluationVerdict.

Inductive t := NeedsHuman | Pass | Fail.

#[global] Instance EvaluationVerdict_eq_dec : EqDecision t.
Proof. solve_decision. Defined.

Definition as_str (x : t) : string :=
  match x with
  | Pass => "pass"
  | Fail => "fail"
  | NeedsHuman => "needs_human"
  end%string.

Definition parse (s : string) : option t :=
  match_str s
    [("pass", Pass);
     ("fail", Fail);
     ("needs_human", NeedsHuman)]%string.

#[global] Instance EvaluationVerdict_wire : WireEnum t := wire_enum as_str parse ltac:(intros []; done).
#[global] Instance EvaluationVerdict_canonical : CanonicalEnum t.
Proof. constructor. intros s x. solve_match_str. Qed.

Definition default : t := NeedsHuman.

End EvaluationVerdict.

(** ** collaboration.rs *)

Module CollaborationAssignmentStatus.

Inductive t :=
| Queued
| Running
| Review
| Completed
| Failed
| Cancelled
| LeaseExpired.

#[global] Instance CollaborationAssignmentStatus_eq_dec : EqDecision t.
Proof. solve_decision. Defined.

Definition as_str (x : t) : string :=
  match x with
  | Queued => "queued"
  | Running => "running"
  | Review => "review"
  | Completed => "completed"
  | Failed => "failed"
  | Cancelled => "cancelled"
  | LeaseExpired => "lease_expired"
  end%string.

Definition is_terminal (x : t) : bool :=
  match x with | Completed | Failed | Cancelled | LeaseExpired => true | _ => false end.

Definition parse (s : string) : option t :=
  match_str s
    [("queued", Queued);
     ("running", Running);
     ("review", Review);
     ("completed", Completed);
     ("failed", Failed);
     ("cancelled", Cancelled);
     ("lease_expired", LeaseExpired)]%string.

#[global] Instance CollaborationAssignmentStatus_wire : WireEnum t := wire_enum as_str parse ltac:(intros []; done).
#[global] Instance CollaborationAssignmentStatus_canonical : CanonicalEnum t.
Proof. constructor. intros s x. solve_match_str. Qed.

End CollaborationAssignmentStatus.

Module CollaborationChangeStatus.

Inductive t := Pending | Applied | AppliedWithOverwrite | Conflict | Rejected.

#[global] Instance CollaborationChangeStatus_eq_dec : EqDecision t.
Proof. solve_decision. Defined.

Definition as_str (x : t) : string :=
  match x with
  | Pending => "pending"
  | Applied => "applied"
  | AppliedWithOverwrite => "applied_with_overwrite"
  | Conflict => "conflict"
  | Rejected => "rejected"
  end%string.

Definition parse (s : string) : option t :=
  match_str s
    [("pending", Pending);
     ("applied", Applied);
     ("applied_with_overwrite", AppliedWithOverwrite);
     ("conflict", Conflict);
     ("rejected", Rejected)]%string.

#[global] Instance CollaborationChangeStatus_wire : WireEnum t := wire_enum as_str parse ltac:(intros []; done).
#[global] Instance CollaborationChangeStatus_canonical : CanonicalEnum t.
Proof. constructor. intros s x. solve_match_str. Qed.

End CollaborationChangeStatus.
