(* ===== verification/Records.v ===== *)
(** * Domain records (crates/am-proto/src)

    The structs the modelled components read and write, one module per struct,
    with the source's field names.  Timestamps and machine integers are [Z],
    [f64] is the Standard Library's IEEE value [spec_float], and the JSON value
    type of the third-party serde_json is the parameter [V] of the structs that
    carry one. *)
From S2P Require Import Prelude Enums.
From Stdlib Require Import SpecFloat.

Abbreviation f64 := spec_float.

(** ** Errors (crates/am-db/src/lib.rs, crates/am-core/src/error.rs)

    A violated constraint, or any other failure of the database library,
    surfaces as [Sqlx]. *)
Inductive DbError := Sqlx | Migrate | InvalidEnum (value : string) | Serde (msg : string) | DbNotFound.

Inductive CoreError := Db (e : DbError) | NotFound | Other (msg : string).

(** *** Permissions (crates/am-agents/src/lib.rs) *)
Module PermissionPolicy.

Inductive t := ReadOnly | WorkspaceWrite | Ask | Autonomous.

#[global] Instance PermissionPolicy_eq_dec : EqDecision t.
Proof. solve_decision. Defined.

Definition default : t := WorkspaceWrite.

End PermissionPolicy.

(** [permission_to_string], [parse_permission] (crates/am-core/src/agent_thread.rs). *)
Definition permission_to_string (permission : PermissionPolicy.t) : string :=
  match permission with
  | PermissionPolicy.ReadOnly => "read_only"%string
  | PermissionPolicy.WorkspaceWrite => "workspace_write"%string
  | PermissionPolicy.Ask => "ask"%string
  | PermissionPolicy.Autonomous => "autonomous"%string
  end.

Definition parse_permission (value : string) : PermissionPolicy.t :=
  if String.eqb value "read_only"%string then PermissionPolicy.ReadOnly
  else if String.eqb value "ask"%string then PermissionPolicy.Ask
  else if String.eqb value "autonomous"%string then PermissionPolicy.Autonomous
  else PermissionPolicy.WorkspaceWrite.

(** ** session.rs *)

Module FileChange.

Record t := mk {
  path : string;
  status : string;
  additions : Z;
  deletions : Z
}.

#[global] Instance FileChange_eq_dec : EqDecision t.
Proof. solve_decision. Defined.

End FileChange.

Module ProviderUsageWindow.

Record t := mk {
  used_percent : f64;
  reset_at : option Z
}.

End ProviderUsageWindow.

Module ProviderUsage.

Record t := mk {
  five_hour : option ProviderUsageWindow.t;
  weekly : option ProviderUsageWindow.t
}.

End ProviderUsage.

Module AgentStatus.

Record t := mk {
  kind : AgentKind.t;
  installed : bool;
  authenticated : bool;
  version : option string;
  binary_path : option string;
  availability : AvailabilityState.t;
  reset_at : option Z;
  last_checked : option Z;
  usage : option ProviderUsage.t
}.

End AgentStatus.

Module Session.

Record t := mk {
  id : string;
  task_id : string;
  agent_kind : AgentKind.t;
  agent_session_id : option string;
  execution_backend : ExecutionBackend.t;
  sandbox_name : option string;
  model : option string;
  reasoning : option string;
  local_provider : option LocalModelProviderKind.t;
  local_base_url : option string;
  model_target : ModelTargetKind.t;
  compute_lease_id : option string;
  compute_provider : option ComputeProviderKind.t;
  estimated_compute_cost_usd : option f64;
  fallback_model_target : option ModelTargetKind.t;
  target_hash : option string;
  policy_envelope_id : option string;
  state : SessionState.t;
  started_at : Z;
  ended_at : option Z
}.

Definition set_state (v : SessionState.t) (r : t) : t :=
  mk r.(id) r.(task_id) r.(agent_kind) r.(agent_session_id) r.(execution_backend)
    r.(sandbox_name) r.(model) r.(reasoning) r.(local_provider) r.(local_base_url)
    r.(model_target) r.(compute_lease_id) r.(compute_provider)
    r.(estimated_compute_cost_usd) r.(fallback_model_target) r.(target_hash)
    r.(policy_envelope_id) v r.(started_at) r.(ended_at).

Definition set_ended_at (v : option Z) (r : t) : t :=
  mk r.(id) r.(task_id) r.(agent_kind) r.(agent_session_id) r.(execution_backend)
    r.(sandbox_name) r.(model) r.(reasoning) r.(local_provider) r.(local_base_url)
    r.(model_target) r.(compute_lease_id) r.(compute_provider)
    r.(estimated_compute_cost_usd) r.(fallback_model_target) r.(target_hash)
    r.(policy_envelope_id) r.(state) r.(started_at) v.

End Session.

Module SessionEvent.

Record t {V : Type} := mk {
  id : string;
  session_id : string;
  task_id : string;
  role : string;
  kind : string;
  text : option string;
  data : V;
  ts : Z
}.

Arguments t : clear implicits.

End SessionEvent.

Module TaskDiff.

Record t := mk {
  files : list FileChange.t;
  patch : string;
  repo_id : option string;
  repo_name : option string;
  remote_url : option string;
  branch : option string;
  base_ref : option string;
  head_ref : option string;
  worktree_path : option string
}.

End TaskDiff.

(** ** work_graph.rs *)

Module WorkNode.

Record t := mk {
  id : string;
  project_id : string;
  parent_id : option string;
  task_id : option string;
  thread_id : option string;
  kind : WorkNodeKind.t;
  title : string;
  description : option string;
  status : TaskStatus.t;
  priority : TaskPriority.t;
  primary_agent : option AgentKind.t;
  position_x : f64;
  position_y : f64;
  width : option f64;
  height : option f64;
  position_locked : bool;
  sort_order : Z;
  created_at : Z;
  updated_at : Z
}.

Definition set_parent_id (v : option string) (r : t) : t :=
  mk r.(id) r.(project_id) v r.(task_id) r.(thread_id) r.(kind) r.(title) r.(description)
    r.(status) r.(priority) r.(primary_agent) r.(position_x) r.(position_y) r.(width)
    r.(height) r.(position_locked) r.(sort_order) r.(created_at) r.(updated_at).

Definition set_task_id (v : option string) (r : t) : t :=
  mk r.(id) r.(project_id) r.(parent_id) v r.(thread_id) r.(kind) r.(title) r.(description)
    r.(status) r.(priority) r.(primary_agent) r.(position_x) r.(position_y) r.(width)
    r.(height) r.(position_locked) r.(sort_order) r.(created_at) r.(updated_at).

Definition set_thread_id (v : option string) (r : t) : t :=
  mk r.(id) r.(project_id) r.(parent_id) r.(task_id) v r.(kind) r.(title) r.(description)
    r.(status) r.(priority) r.(primary_agent) r.(position_x) r.(position_y) r.(width)
    r.(height) r.(position_locked) r.(sort_order) r.(created_at) r.(updated_at).

Definition set_title (v : string) (r : t) : t :=
  mk r.(id) r.(project_id) r.(parent_id) r.(task_id) r.(thread_id) r.(kind) v
    r.(description) r.(status) r.(priority) r.(primary_agent) r.(position_x) r.(position_y)
    r.(width) r.(height) r.(position_locked) r.(sort_order) r.(created_at) r.(updated_at).

Definition set_description (v : option string) (r : t) : t :=
  mk r.(id) r.(project_id) r.(parent_id) r.(task_id) r.(thread_id) r.(kind) r.(title) v
    r.(status) r.(priority) r.(primary_agent) r.(position_x) r.(position_y) r.(width)
    r.(height) r.(position_locked) r.(sort_order) r.(created_at) r.(updated_at).

Definition set_status (v : TaskStatus.t) (r : t) : t :=
  mk r.(id) r.(project_id) r.(parent_id) r.(task_id) r.(thread_id) r.(kind) r.(title)
    r.(description) v r.(priority) r.(primary_agent) r.(position_x) r.(position_y)
    r.(width) r.(height) r.(position_locked) r.(sort_order) r.(created_at) r.(updated_at).

Definition set_priority (v : TaskPriority.t) (r : t) : t :=
  mk r.(id) r.(project_id) r.(parent_id) r.(task_id) r.(thread_id) r.(kind) r.(title)
    r.(description) r.(status) v r.(primary_agent) r.(position_x) r.(position_y) r.(width)
    r.(height) r.(position_locked) r.(sort_order) r.(created_at) r.(updated_at).

Definition set_primary_agent (v : option AgentKind.t) (r : t) : t :=
  mk r.(id) r.(project_id) r.(parent_id) r.(task_id) r.(thread_id) r.(kind) r.(title)
    r.(description) r.(status) r.(priority) v r.(position_x) r.(position_y) r.(width)
    r.(height) r.(position_locked) r.(sort_order) r.(created_at) r.(updated_at).

Definition set_position_x (v : f64) (r : t) : t :=
  mk r.(id) r.(project_id) r.(parent_id) r.(task_id) r.(thread_id) r.(kind) r.(title)
    r.(description) r.(status) r.(priority) r.(primary_agent) v r.(position_y) r.(width)
    r.(height) r.(position_locked) r.(sort_order) r.(created_at) r.(updated_at).

Definition set_position_y (v : f64) (r : t) : t :=
  mk r.(id) r.(project_id) r.(parent_id) r.(task_id) r.(thread_id) r.(kind) r.(title)
    r.(description) r.(status) r.(priority) r.(primary_agent) r.(position_x) v r.(width)
    r.(height) r.(position_locked) r.(sort_order) r.(created_at) r.(updated_at).

Definition set_position_locked (v : bool) (r : t) : t :=
  mk r.(id) r.(project_id) r.(parent_id) r.(task_id) r.(thread_id) r.(kind) r.(title)
    r.(description) r.(status) r.(priority) r.(primary_agent) r.(position_x) r.(position_y)
    r.(width) r.(height) v r.(sort_order) r.(created_at) r.(updated_at).

Definition set_sort_order (v : Z) (r : t) : t :=
  mk r.(id) r.(project_id) r.(parent_id) r.(task_id) r.(thread_id) r.(kind) r.(title)
    r.(description) r.(status) r.(priority) r.(primary_agent) r.(position_x) r.(position_y)
    r.(width) r.(height) r.(position_locked) v r.(created_at) r.(updated_at).

Definition set_updated_at (v : Z) (r : t) : t :=
  mk r.(id) r.(project_id) r.(parent_id) r.(task_id) r.(thread_id) r.(kind) r.(title)
    r.(description) r.(status) r.(priority) r.(primary_agent) r.(position_x) r.(position_y)
    r.(width) r.(height) r.(position_locked) r.(sort_order) r.(created_at) v.

End WorkNode.

Module NewWorkNode.

Record t := mk {
  project_id : string;
  parent_id : option string;
  kind : option WorkNodeKind.t;
  title : string;
  description : option string;
  priority : TaskPriority.t;
  primary_agent : option AgentKind.t;
  model : option string;
  model_target : option ModelTargetKind.t;
  compute_profile : option string;
  max_compute_usd : option f64;
  allow_auto_purchase : option bool;
  compute_provider : option ComputeProviderKind.t;
  repo_ids : list string;
  position_x : option f64;
  position_y : option f64
}.

End NewWorkNode.

Module WorkNodeUpdate.

Record t := mk {
  parent_id : option string;
  title : option string;
  description : option string;
  status : option TaskStatus.t;
  priority : option TaskPriority.t;
  primary_agent : option AgentKind.t;
  position_x : option f64;
  position_y : option f64;
  sort_order : option Z
}.

End WorkNodeUpdate.

Module WorkEdge.

Record t := mk {
  id : string;
  project_id : string;
  source_id : string;
  target_id : string;
  kind : WorkEdgeKind.t;
  label : option string;
  created_at : Z;
  updated_at : Z
}.

End WorkEdge.

Module NewWorkEdge.

Record t := mk {
  project_id : string;
  source_id : string;
  target_id : string;
  kind : WorkEdgeKind.t;
  label : option string
}.

End NewWorkEdge.

Module WorkEdgeUpdate.

Record t := mk {
  source_id : option string;
  target_id : option string;
  kind : option WorkEdgeKind.t;
  label : option string
}.

End WorkEdgeUpdate.

Module WorkNodeRepoBinding.

Record t := mk {
  node_id : string;
  repo_id : string;
  repo_name : string;
  worktree_path : option string;
  branch : option string;
  base_ref : option string;
  workspace_backend : ExecutionBackend.t
}.

End WorkNodeRepoBinding.

Module WorkGraph.

Record t := mk {
  project_id : string;
  nodes : list WorkNode.t;
  edges : list WorkEdge.t;
  repo_bindings : list WorkNodeRepoBinding.t
}.

End WorkGraph.

Module WorkRun.

Record t := mk {
  id : string;
  node_id : string;
  task_id : option string;
  thread_id : option string;
  agent_kind : AgentKind.t;
  run_ref : string;
  state : SessionState.t;
  started_at : Z;
  ended_at : option Z
}.

End WorkRun.

Module WorkPlanOptions.

Record t := mk {
  failure_mode : PlanFailureMode.t;
  max_node_retries : Z;
  steer_dependents_on_unblock : bool;
  model : option string;
  model_target : option ModelTargetKind.t;
  compute_profile : option string;
  max_compute_usd : option f64;
  allow_auto_purchase : bool
}.

End WorkPlanOptions.

Module WorkPlanRun.

Record t := mk {
  id : string;
  project_id : string;
  gate_mode : GateMode.t;
  state : WorkPlanRunState.t;
  max_active_runs : Z;
  failure_mode : PlanFailureMode.t;
  max_node_retries : Z;
  steer_dependents_on_unblock : bool;
  default_agent : option AgentKind.t;
  default_permission : option string;
  default_execution_backend : option ExecutionBackend.t;
  evaluator_policy_json : option string;
  resume_after_node_id : option string;
  policy_envelope_id : option string;
  total_count : Z;
  completed_count : Z;
  active_count : Z;
  blocked_count : Z;
  error : option string;
  started_at : Z;
  ended_at : option Z;
  updated_at : Z
}.

End WorkPlanRun.

Module ContextInclusion.

Record t := mk {
  source_kind : string;
  entity_id : option string;
  title : string;
  snippet : string;
  reason : string;
  score : f64;
  bytes : Z;
  estimated_tokens : Z
}.

End ContextInclusion.

Module ContextPacket.

Record t := mk {
  id : string;
  node_id : string;
  budget_bytes : Z;
  used_bytes : Z;
  summary : string;
  inclusions : list ContextInclusion.t;
  created_at : Z
}.

End ContextPacket.

Module RunCapacityPolicy.

Record t := mk {
  adaptive : bool;
  reserved_cpus : Z;
  memory_per_session_mb : Z;
  manual_max_active_sessions : option Z;
  hard_max_active_sessions : Z;
  allow_over_recommended : bool
}.

Definition set_reserved_cpus (v : Z) (r : t) : t :=
  mk r.(adaptive) v r.(memory_per_session_mb) r.(manual_max_active_sessions)
    r.(hard_max_active_sessions) r.(allow_over_recommended).

Definition set_memory_per_session_mb (v : Z) (r : t) : t :=
  mk r.(adaptive) r.(reserved_cpus) v r.(manual_max_active_sessions)
    r.(hard_max_active_sessions) r.(allow_over_recommended).

Definition set_manual_max_active_sessions (v : option Z) (r : t) : t :=
  mk r.(adaptive) r.(reserved_cpus) r.(memory_per_session_mb) v
    r.(hard_max_active_sessions) r.(allow_over_recommended).

Definition set_hard_max_active_sessions (v : Z) (r : t) : t :=
  mk r.(adaptive) r.(reserved_cpus) r.(memory_per_session_mb)
    r.(manual_max_active_sessions) v r.(allow_over_recommended).

End RunCapacityPolicy.

(** ** limit_policy.rs *)

Module ProviderAccountAuthMode.

Inductive t := IsolatedCli | OauthToken | System.

#[global] Instance ProviderAccountAuthMode_eq_dec : EqDecision t.
Proof. solve_decision. Defined.

Definition default : t := IsolatedCli.

End ProviderAccountAuthMode.

Module ProviderAccount.

Record t := mk {
  id : string;
  label : string;
  agent : AgentKind.t;
  enabled : bool;
  use_credits : bool;
  auth_mode : ProviderAccountAuthMode.t
}.

#[global] Instance ProviderAccount_eq_dec : EqDecision t.
Proof. solve_decision. Defined.

End ProviderAccount.

Module ProviderAccountStatus.

Record t := mk {
  account : ProviderAccount.t;
  authenticated : bool;
  email : option string;
  plan : option string;
  availability : AvailabilityState.t;
  reset_at : option Z;
  detail : option string;
  installed : bool;
  active : bool
}.

End ProviderAccountStatus.

Module AgentTargetProfile.

Record t := mk {
  agent : AgentKind.t;
  model : option string;
  reasoning : option string
}.

End AgentTargetProfile.

Module LimitPolicy.

Record t := mk {
  auto_switch : bool;
  switch_back : bool;
  agent_priority : list AgentKind.t;
  agent_profiles : list AgentTargetProfile.t;
  accounts : list ProviderAccount.t;
  dismissed_system_accounts : list AgentKind.t;
  resume_with_earliest : bool;
  unknown_reset_retry_secs : Z;
  keep_awake : bool
}.

End LimitPolicy.

(** ** local_model.rs *)

Module LocalModelTarget.

Record t := mk {
  provider : LocalModelProviderKind.t;
  model : string;
  base_url : option string
}.

End LocalModelTarget.

Module LocalModelPolicy.

Record t := mk {
  auto_resume_cloud : bool;
  use_local_fallback : bool;
  switch_back_to_cloud : bool;
  probe_interval_secs : Z;
  offline_grace_secs : Z;
  stable_successes : Z;
  ollama_base_url : string;
  lm_studio_base_url : string;
  lm_studio_api_token_configured : bool;
  lm_studio_api_token : option string;
  targets : list LocalModelTarget.t
}.

End LocalModelPolicy.

(** ** approval.rs *)

Module ApprovalAsk.

Record t {V : Type} := mk {
  kind : ApprovalKind.t;
  tool_name : string;
  command : option (list string);
  cwd : option string;
  input : V;
  reason : option string
}.

Arguments t : clear implicits.

End ApprovalAsk.

Module ApprovalRequest.

Record t {V : Type} := mk {
  id : string;
  agent : AgentKind.t;
  project_id : option string;
  work_node_id : option string;
  task_id : option string;
  thread_id : option string;
  session_id : option string;
  kind : ApprovalKind.t;
  tool_name : string;
  command : option (list string);
  cwd : option string;
  input : V;
  reason : option string;
  created_at : Z
}.

Arguments t : clear implicits.

End ApprovalRequest.

(** ** agent_thread.rs *)

Module QueuedTurn.

Record t := mk {
  id : string;
  thread_id : string;
  agent_kind : AgentKind.t;
  permission : string;
  message : string;
  echo_user_message : bool;
  client_message_id : option string;
  policy_envelope_id : option string;
  created_at : Z
}.

End QueuedTurn.

Module TaskBudget.

Inductive t :=
| Unlimited
| Tokens (limit_tokens : Z)
| WeeklyPercent (limit_percent : Z).

#[global] Instance TaskBudget_eq_dec : EqDecision t.
Proof. solve_decision. Defined.

End TaskBudget.

Module AgentThreadRepo.

Record t := mk {
  thread_id : string;
  repo_id : string;
  repo_name : string;
  worktree_path : option string;
  branch : option string;
  base_ref : option string;
  workspace_backend : ExecutionBackend.t
}.

End AgentThreadRepo.

Module NewAgentThread.

Record t := mk {
  project_id : option string;
  group_id : option string;
  title : string;
  objective : option string;
  repo_ids : list string;
  preferred_agent : option AgentKind.t;
  permission : option string;
  execution_backend : option ExecutionBackend.t;
  force_managed_workspace : bool;
  model : option string;
  reasoning : option string;
  local_provider : option LocalModelProviderKind.t;
  local_base_url : option string;
  model_target : option ModelTargetKind.t;
  compute_lease_id : option string;
  compute_provider : option ComputeProviderKind.t;
  estimated_compute_cost_usd : option f64;
  fallback_model_target : option ModelTargetKind.t;
  sort_order : option Z;
  task_budget : option TaskBudget.t
}.

End NewAgentThread.

Module AgentThread.

Record t := mk {
  id : string;
  project_id : option string;
  group_id : option string;
  title : string;
  status : TaskStatus.t;
  active_agent : option AgentKind.t;
  preferred_agent : option AgentKind.t;
  permission : string;
  execution_backend : ExecutionBackend.t;
  force_managed_workspace : bool;
  model : option string;
  reasoning : option string;
  local_provider : option LocalModelProviderKind.t;
  local_base_url : option string;
  model_target : ModelTargetKind.t;
  compute_lease_id : option string;
  compute_provider : option ComputeProviderKind.t;
  estimated_compute_cost_usd : option f64;
  fallback_model_target : option ModelTargetKind.t;
  original_agent : option AgentKind.t;
  fallback_agent : option AgentKind.t;
  original_model : option string;
  fallback_model : option string;
  original_reasoning : option string;
  fallback_reasoning : option string;
  original_local_provider : option LocalModelProviderKind.t;
  fallback_local_provider : option LocalModelProviderKind.t;
  original_local_base_url : option string;
  fallback_local_base_url : option string;
  switch_back_pending : bool;
  limit_reset_at : option Z;
  switch_back : bool;
  handoff_state : string;
  provider_account_id : option string;
  objective : string;
  decisions : string;
  progress : string;
  open_questions : string;
  next_actions : string;
  task_budget : TaskBudget.t;
  sort_order : Z;
  created_at : Z;
  updated_at : Z
}.

Definition set_status (v : TaskStatus.t) (r : t) : t :=
  mk r.(id) r.(project_id) r.(group_id) r.(title) v r.(active_agent) r.(preferred_agent)
    r.(permission) r.(execution_backend) r.(force_managed_workspace) r.(model)
    r.(reasoning) r.(local_provider) r.(local_base_url) r.(model_target)
    r.(compute_lease_id) r.(compute_provider) r.(estimated_compute_cost_usd)
    r.(fallback_model_target) r.(original_agent) r.(fallback_agent) r.(original_model)
    r.(fallback_model) r.(original_reasoning) r.(fallback_reasoning)
    r.(original_local_provider) r.(fallback_local_provider) r.(original_local_base_url)
    r.(fallback_local_base_url) r.(switch_back_pending) r.(limit_reset_at) r.(switch_back)
    r.(handoff_state) r.(provider_account_id) r.(objective) r.(decisions) r.(progress)
    r.(open_questions) r.(next_actions) r.(task_budget) r.(sort_order) r.(created_at)
    r.(updated_at).

Definition set_provider_account_id (v : option string) (r : t) : t :=
  mk r.(id) r.(project_id) r.(group_id) r.(title) r.(status) r.(active_agent)
    r.(preferred_agent) r.(permission) r.(execution_backend) r.(force_managed_workspace)
    r.(model) r.(reasoning) r.(local_provider) r.(local_base_url) r.(model_target)
    r.(compute_lease_id) r.(compute_provider) r.(estimated_compute_cost_usd)
    r.(fallback_model_target) r.(original_agent) r.(fallback_agent) r.(original_model)
    r.(fallback_model) r.(original_reasoning) r.(fallback_reasoning)
    r.(original_local_provider) r.(fallback_local_provider) r.(original_local_base_url)
    r.(fallback_local_base_url) r.(switch_back_pending) r.(limit_reset_at) r.(switch_back)
    r.(handoff_state) v r.(objective) r.(decisions) r.(progress) r.(open_questions)
    r.(next_actions) r.(task_budget) r.(sort_order) r.(created_at) r.(updated_at).

Definition set_model_target (v : ModelTargetKind.t) (r : t) : t :=
  mk r.(id) r.(project_id) r.(group_id) r.(title) r.(status) r.(active_agent)
    r.(preferred_agent) r.(permission) r.(execution_backend) r.(force_managed_workspace)
    r.(model) r.(reasoning) r.(local_provider) r.(local_base_url) v r.(compute_lease_id)
    r.(compute_provider) r.(estimated_compute_cost_usd) r.(fallback_model_target)
    r.(original_agent) r.(fallback_agent) r.(original_model) r.(fallback_model)
    r.(original_reasoning) r.(fallback_reasoning) r.(original_local_provider)
    r.(fallback_local_provider) r.(original_local_base_url) r.(fallback_local_base_url)
    r.(switch_back_pending) r.(limit_reset_at) r.(switch_back) r.(handoff_state)
    r.(provider_account_id) r.(objective) r.(decisions) r.(progress) r.(open_questions)
    r.(next_actions) r.(task_budget) r.(sort_order) r.(created_at) r.(updated_at).

Definition set_objective (v : string) (r : t) : t :=
  mk r.(id) r.(project_id) r.(group_id) r.(title) r.(status) r.(active_agent)
    r.(preferred_agent) r.(permission) r.(execution_backend) r.(force_managed_workspace)
    r.(model) r.(reasoning) r.(local_provider) r.(local_base_url) r.(model_target)
    r.(compute_lease_id) r.(compute_provider) r.(estimated_compute_cost_usd)
    r.(fallback_model_target) r.(original_agent) r.(fallback_agent) r.(original_model)
    r.(fallback_model) r.(original_reasoning) r.(fallback_reasoning)
    r.(original_local_provider) r.(fallback_local_provider) r.(original_local_base_url)
    r.(fallback_local_base_url) r.(switch_back_pending) r.(limit_reset_at) r.(switch_back)
    r.(handoff_state) r.(provider_account_id) v r.(decisions) r.(progress)
    r.(open_questions) r.(next_actions) r.(task_budget) r.(sort_order) r.(created_at)
    r.(updated_at).

Definition set_decisions (v : string) (r : t) : t :=
  mk r.(id) r.(project_id) r.(group_id) r.(title) r.(status) r.(active_agent)
    r.(preferred_agent) r.(permission) r.(execution_backend) r.(force_managed_workspace)
    r.(model) r.(reasoning) r.(local_provider) r.(local_base_url) r.(model_target)
    r.(compute_lease_id) r.(compute_provider) r.(estimated_compute_cost_usd)
    r.(fallback_model_target) r.(original_agent) r.(fallback_agent) r.(original_model)
    r.(fallback_model) r.(original_reasoning) r.(fallback_reasoning)
    r.(original_local_provider) r.(fallback_local_provider) r.(original_local_base_url)
    r.(fallback_local_base_url) r.(switch_back_pending) r.(limit_reset_at) r.(switch_back)
    r.(handoff_state) r.(provider_account_id) r.(objective) v r.(progress)
    r.(open_questions) r.(next_actions) r.(task_budget) r.(sort_order) r.(created_at)
    r.(updated_at).

Definition set_open_questions (v : string) (r : t) : t :=
  mk r.(id) r.(project_id) r.(group_id) r.(title) r.(status) r.(active_agent)
    r.(preferred_agent) r.(permission) r.(execution_backend) r.(force_managed_workspace)
    r.(model) r.(reasoning) r.(local_provider) r.(local_base_url) r.(model_target)
    r.(compute_lease_id) r.(compute_provider) r.(estimated_compute_cost_usd)
    r.(fallback_model_target) r.(original_agent) r.(fallback_agent) r.(original_model)
    r.(fallback_model) r.(original_reasoning) r.(fallback_reasoning)
    r.(original_local_provider) r.(fallback_local_provider) r.(original_local_base_url)
    r.(fallback_local_base_url) r.(switch_back_pending) r.(limit_reset_at) r.(switch_back)
    r.(handoff_state) r.(provider_account_id) r.(objective) r.(decisions) r.(progress) v
    r.(next_actions) r.(task_budget) r.(sort_order) r.(created_at) r.(updated_at).

Definition set_preferred_agent (v : option AgentKind.t) (r : t) : t :=
  mk r.(id) r.(project_id) r.(group_id) r.(title) r.(status) r.(active_agent) v
    r.(permission) r.(execution_backend) r.(force_managed_workspace) r.(model)
    r.(reasoning) r.(local_provider) r.(local_base_url) r.(model_target)
    r.(compute_lease_id) r.(compute_provider) r.(estimated_compute_cost_usd)
    r.(fallback_model_target) r.(original_agent) r.(fallback_agent) r.(original_model)
    r.(fallback_model) r.(original_reasoning) r.(fallback_reasoning)
    r.(original_local_provider) r.(fallback_local_provider) r.(original_local_base_url)
    r.(fallback_local_base_url) r.(switch_back_pending) r.(limit_reset_at) r.(switch_back)
    r.(handoff_state) r.(provider_account_id) r.(objective) r.(decisions) r.(progress)
    r.(open_questions) r.(next_actions) r.(task_budget) r.(sort_order) r.(created_at)
    r.(updated_at).

Definition set_active_agent (v : option AgentKind.t) (r : t) : t :=
  mk r.(id) r.(project_id) r.(group_id) r.(title) r.(status) v r.(preferred_agent)
    r.(permission) r.(execution_backend) r.(force_managed_workspace) r.(model)
    r.(reasoning) r.(local_provider) r.(local_base_url) r.(model_target)
    r.(compute_lease_id) r.(compute_provider) r.(estimated_compute_cost_usd)
    r.(fallback_model_target) r.(original_agent) r.(fallback_agent) r.(original_model)
    r.(fallback_model) r.(original_reasoning) r.(fallback_reasoning)
    r.(original_local_provider) r.(fallback_local_provider) r.(original_local_base_url)
    r.(fallback_local_base_url) r.(switch_back_pending) r.(limit_reset_at) r.(switch_back)
    r.(handoff_state) r.(provider_account_id) r.(objective) r.(decisions) r.(progress)
    r.(open_questions) r.(next_actions) r.(task_budget) r.(sort_order) r.(created_at)
    r.(updated_at).

Definition set_permission (v : string) (r : t) : t :=
  mk r.(id) r.(project_id) r.(group_id) r.(title) r.(status) r.(active_agent)
    r.(preferred_agent) v r.(execution_backend) r.(force_managed_workspace) r.(model)
    r.(reasoning) r.(local_provider) r.(local_base_url) r.(model_target)
    r.(compute_lease_id) r.(compute_provider) r.(estimated_compute_cost_usd)
    r.(fallback_model_target) r.(original_agent) r.(fallback_agent) r.(original_model)
    r.(fallback_model) r.(original_reasoning) r.(fallback_reasoning)
    r.(original_local_provider) r.(fallback_local_provider) r.(original_local_base_url)
    r.(fallback_local_base_url) r.(switch_back_pending) r.(limit_reset_at) r.(switch_back)
    r.(handoff_state) r.(provider_account_id) r.(objective) r.(decisions) r.(progress)
    r.(open_questions) r.(next_actions) r.(task_budget) r.(sort_order) r.(created_at)
    r.(updated_at).

Definition set_execution_backend (v : ExecutionBackend.t) (r : t) : t :=
  mk r.(id) r.(project_id) r.(group_id) r.(title) r.(status) r.(active_agent)
    r.(preferred_agent) r.(permission) v r.(force_managed_workspace) r.(model)
    r.(reasoning) r.(local_provider) r.(local_base_url) r.(model_target)
    r.(compute_lease_id) r.(compute_provider) r.(estimated_compute_cost_usd)
    r.(fallback_model_target) r.(original_agent) r.(fallback_agent) r.(original_model)
    r.(fallback_model) r.(original_reasoning) r.(fallback_reasoning)
    r.(original_local_provider) r.(fallback_local_provider) r.(original_local_base_url)
    r.(fallback_local_base_url) r.(switch_back_pending) r.(limit_reset_at) r.(switch_back)
    r.(handoff_state) r.(provider_account_id) r.(objective) r.(decisions) r.(progress)
    r.(open_questions) r.(next_actions) r.(task_budget) r.(sort_order) r.(created_at)
    r.(updated_at).

Definition set_model (v : option string) (r : t) : t :=
  mk r.(id) r.(project_id) r.(group_id) r.(title) r.(status) r.(active_agent)
    r.(preferred_agent) r.(permission) r.(execution_backend) r.(force_managed_workspace) v
    r.(reasoning) r.(local_provider) r.(local_base_url) r.(model_target)
    r.(compute_lease_id) r.(compute_provider) r.(estimated_compute_cost_usd)
    r.(fallback_model_target) r.(original_agent) r.(fallback_agent) r.(original_model)
    r.(fallback_model) r.(original_reasoning) r.(fallback_reasoning)
    r.(original_local_provider) r.(fallback_local_provider) r.(original_local_base_url)
    r.(fallback_local_base_url) r.(switch_back_pending) r.(limit_reset_at) r.(switch_back)
    r.(handoff_state) r.(provider_account_id) r.(objective) r.(decisions) r.(progress)
    r.(open_questions) r.(next_actions) r.(task_budget) r.(sort_order) r.(created_at)
    r.(updated_at).

Definition set_reasoning (v : option string) (r : t) : t :=
  mk r.(id) r.(project_id) r.(group_id) r.(title) r.(status) r.(active_agent)
    r.(preferred_agent) r.(permission) r.(execution_backend) r.(force_managed_workspace)
    r.(model) v r.(local_provider) r.(local_base_url) r.(model_target) r.(compute_lease_id)
    r.(compute_provider) r.(estimated_compute_cost_usd) r.(fallback_model_target)
    r.(original_agent) r.(fallback_agent) r.(original_model) r.(fallback_model)
    r.(original_reasoning) r.(fallback_reasoning) r.(original_local_provider)
    r.(fallback_local_provider) r.(original_local_base_url) r.(fallback_local_base_url)
    r.(switch_back_pending) r.(limit_reset_at) r.(switch_back) r.(handoff_state)
    r.(provider_account_id) r.(objective) r.(decisions) r.(progress) r.(open_questions)
    r.(next_actions) r.(task_budget) r.(sort_order) r.(created_at) r.(updated_at).

Definition set_local_provider (v : option LocalModelProviderKind.t) (r : t) : t :=
  mk r.(id) r.(project_id) r.(group_id) r.(title) r.(status) r.(active_agent)
    r.(preferred_agent) r.(permission) r.(execution_backend) r.(force_managed_workspace)
    r.(model) r.(reasoning) v r.(local_base_url) r.(model_target) r.(compute_lease_id)
    r.(compute_provider) r.(estimated_compute_cost_usd) r.(fallback_model_target)
    r.(original_agent) r.(fallback_agent) r.(original_model) r.(fallback_model)
    r.(original_reasoning) r.(fallback_reasoning) r.(original_local_provider)
    r.(fallback_local_provider) r.(original_local_base_url) r.(fallback_local_base_url)
    r.(switch_back_pending) r.(limit_reset_at) r.(switch_back) r.(handoff_state)
    r.(provider_account_id) r.(objective) r.(decisions) r.(progress) r.(open_questions)
    r.(next_actions) r.(task_budget) r.(sort_order) r.(created_at) r.(updated_at).

Definition set_local_base_url (v : option string) (r : t) : t :=
  mk r.(id) r.(project_id) r.(group_id) r.(title) r.(status) r.(active_agent)
    r.(preferred_agent) r.(permission) r.(execution_backend) r.(force_managed_workspace)
    r.(model) r.(reasoning) r.(local_provider) v r.(model_target) r.(compute_lease_id)
    r.(compute_provider) r.(estimated_compute_cost_usd) r.(fallback_model_target)
    r.(original_agent) r.(fallback_agent) r.(original_model) r.(fallback_model)
    r.(original_reasoning) r.(fallback_reasoning) r.(original_local_provider)
    r.(fallback_local_provider) r.(original_local_base_url) r.(fallback_local_base_url)
    r.(switch_back_pending) r.(limit_reset_at) r.(switch_back) r.(handoff_state)
    r.(provider_account_id) r.(objective) r.(decisions) r.(progress) r.(open_questions)
    r.(next_actions) r.(task_budget) r.(sort_order) r.(created_at) r.(updated_at).

Definition set_original_agent (v : option AgentKind.t) (r : t) : t :=
  mk r.(id) r.(project_id) r.(group_id) r.(title) r.(status) r.(active_agent)
    r.(preferred_agent) r.(permission) r.(execution_backend) r.(force_managed_workspace)
    r.(model) r.(reasoning) r.(local_provider) r.(local_base_url) r.(model_target)
    r.(compute_lease_id) r.(compute_provider) r.(estimated_compute_cost_usd)
    r.(fallback_model_target) v r.(fallback_agent) r.(original_model) r.(fallback_model)
    r.(original_reasoning) r.(fallback_reasoning) r.(original_local_provider)
    r.(fallback_local_provider) r.(original_local_base_url) r.(fallback_local_base_url)
    r.(switch_back_pending) r.(limit_reset_at) r.(switch_back) r.(handoff_state)
    r.(provider_account_id) r.(objective) r.(decisions) r.(progress) r.(open_questions)
    r.(next_actions) r.(task_budget) r.(sort_order) r.(created_at) r.(updated_at).

Definition set_fallback_agent (v : option AgentKind.t) (r : t) : t :=
  mk r.(id) r.(project_id) r.(group_id) r.(title) r.(status) r.(active_agent)
    r.(preferred_agent) r.(permission) r.(execution_backend) r.(force_managed_workspace)
    r.(model) r.(reasoning) r.(local_provider) r.(local_base_url) r.(model_target)
    r.(compute_lease_id) r.(compute_provider) r.(estimated_compute_cost_usd)
    r.(fallback_model_target) r.(original_agent) v r.(original_model) r.(fallback_model)
    r.(original_reasoning) r.(fallback_reasoning) r.(original_local_provider)
    r.(fallback_local_provider) r.(original_local_base_url) r.(fallback_local_base_url)
    r.(switch_back_pending) r.(limit_reset_at) r.(switch_back) r.(handoff_state)
    r.(provider_account_id) r.(objective) r.(decisions) r.(progress) r.(open_questions)
    r.(next_actions) r.(task_budget) r.(sort_order) r.(created_at) r.(updated_at).

Definition set_original_model (v : option string) (r : t) : t :=
  mk r.(id) r.(project_id) r.(group_id) r.(title) r.(status) r.(active_agent)
    r.(preferred_agent) r.(permission) r.(execution_backend) r.(force_managed_workspace)
    r.(model) r.(reasoning) r.(local_provider) r.(local_base_url) r.(model_target)
    r.(compute_lease_id) r.(compute_provider) r.(estimated_compute_cost_usd)
    r.(fallback_model_target) r.(original_agent) r.(fallback_agent) v r.(fallback_model)
    r.(original_reasoning) r.(fallback_reasoning) r.(original_local_provider)
    r.(fallback_local_provider) r.(original_local_base_url) r.(fallback_local_base_url)
    r.(switch_back_pending) r.(limit_reset_at) r.(switch_back) r.(handoff_state)
    r.(provider_account_id) r.(objective) r.(decisions) r.(progress) r.(open_questions)
    r.(next_actions) r.(task_budget) r.(sort_order) r.(created_at) r.(updated_at).

Definition set_fallback_model (v : option string) (r : t) : t :=
  mk r.(id) r.(project_id) r.(group_id) r.(title) r.(status) r.(active_agent)
    r.(preferred_agent) r.(permission) r.(execution_backend) r.(force_managed_workspace)
    r.(model) r.(reasoning) r.(local_provider) r.(local_base_url) r.(model_target)
    r.(compute_lease_id) r.(compute_provider) r.(estimated_compute_cost_usd)
    r.(fallback_model_target) r.(original_agent) r.(fallback_agent) r.(original_model) v
    r.(original_reasoning) r.(fallback_reasoning) r.(original_local_provider)
    r.(fallback_local_provider) r.(original_local_base_url) r.(fallback_local_base_url)
    r.(switch_back_pending) r.(limit_reset_at) r.(switch_back) r.(handoff_state)
    r.(provider_account_id) r.(objective) r.(decisions) r.(progress) r.(open_questions)
    r.(next_actions) r.(task_budget) r.(sort_order) r.(created_at) r.(updated_at).

Definition set_original_reasoning (v : option string) (r : t) : t :=
  mk r.(id) r.(project_id) r.(group_id) r.(title) r.(status) r.(active_agent)
    r.(preferred_agent) r.(permission) r.(execution_backend) r.(force_managed_workspace)
    r.(model) r.(reasoning) r.(local_provider) r.(local_base_url) r.(model_target)
    r.(compute_lease_id) r.(compute_provider) r.(estimated_compute_cost_usd)
    r.(fallback_model_target) r.(original_agent) r.(fallback_agent) r.(original_model)
    r.(fallback_model) v r.(fallback_reasoning) r.(original_local_provider)
    r.(fallback_local_provider) r.(original_local_base_url) r.(fallback_local_base_url)
    r.(switch_back_pending) r.(limit_reset_at) r.(switch_back) r.(handoff_state)
    r.(provider_account_id) r.(objective) r.(decisions) r.(progress) r.(open_questions)
    r.(next_actions) r.(task_budget) r.(sort_order) r.(created_at) r.(updated_at).

Definition set_fallback_reasoning (v : option string) (r : t) : t :=
  mk r.(id) r.(project_id) r.(group_id) r.(title) r.(status) r.(active_agent)
    r.(preferred_agent) r.(permission) r.(execution_backend) r.(force_managed_workspace)
    r.(model) r.(reasoning) r.(local_provider) r.(local_base_url) r.(model_target)
    r.(compute_lease_id) r.(compute_provider) r.(estimated_compute_cost_usd)
    r.(fallback_model_target) r.(original_agent) r.(fallback_agent) r.(original_model)
    r.(fallback_model) r.(original_reasoning) v r.(original_local_provider)
    r.(fallback_local_provider) r.(original_local_base_url) r.(fallback_local_base_url)
    r.(switch_back_pending) r.(limit_reset_at) r.(switch_back) r.(handoff_state)
    r.(provider_account_id) r.(objective) r.(decisions) r.(progress) r.(open_questions)
    r.(next_actions) r.(task_budget) r.(sort_order) r.(created_at) r.(updated_at).

Definition set_original_local_provider (v : option LocalModelProviderKind.t) (r : t) : t :=
  mk r.(id) r.(project_id) r.(group_id) r.(title) r.(status) r.(active_agent)
    r.(preferred_agent) r.(permission) r.(execution_backend) r.(force_managed_workspace)
    r.(model) r.(reasoning) r.(local_provider) r.(local_base_url) r.(model_target)
    r.(compute_lease_id) r.(compute_provider) r.(estimated_compute_cost_usd)
    r.(fallback_model_target) r.(original_agent) r.(fallback_agent) r.(original_model)
    r.(fallback_model) r.(original_reasoning) r.(fallback_reasoning) v
    r.(fallback_local_provider) r.(original_local_base_url) r.(fallback_local_base_url)
    r.(switch_back_pending) r.(limit_reset_at) r.(switch_back) r.(handoff_state)
    r.(provider_account_id) r.(objective) r.(decisions) r.(progress) r.(open_questions)
    r.(next_actions) r.(task_budget) r.(sort_order) r.(created_at) r.(updated_at).

Definition set_fallback_local_provider (v : option LocalModelProviderKind.t) (r : t) : t :=
  mk r.(id) r.(project_id) r.(group_id) r.(title) r.(status) r.(active_agent)
    r.(preferred_agent) r.(permission) r.(execution_backend) r.(force_managed_workspace)
    r.(model) r.(reasoning) r.(local_provider) r.(local_base_url) r.(model_target)
    r.(compute_lease_id) r.(compute_provider) r.(estimated_compute_cost_usd)
    r.(fallback_model_target) r.(original_agent) r.(fallback_agent) r.(original_model)
    r.(fallback_model) r.(original_reasoning) r.(fallback_reasoning)
    r.(original_local_provider) v r.(original_local_base_url) r.(fallback_local_base_url)
    r.(switch_back_pending) r.(limit_reset_at) r.(switch_back) r.(handoff_state)
    r.(provider_account_id) r.(objective) r.(decisions) r.(progress) r.(open_questions)
    r.(next_actions) r.(task_budget) r.(sort_order) r.(created_at) r.(updated_at).

Definition set_original_local_base_url (v : option string) (r : t) : t :=
  mk r.(id) r.(project_id) r.(group_id) r.(title) r.(status) r.(active_agent)
    r.(preferred_agent) r.(permission) r.(execution_backend) r.(force_managed_workspace)
    r.(model) r.(reasoning) r.(local_provider) r.(local_base_url) r.(model_target)
    r.(compute_lease_id) r.(compute_provider) r.(estimated_compute_cost_usd)
    r.(fallback_model_target) r.(original_agent) r.(fallback_agent) r.(original_model)
    r.(fallback_model) r.(original_reasoning) r.(fallback_reasoning)
    r.(original_local_provider) r.(fallback_local_provider) v r.(fallback_local_base_url)
    r.(switch_back_pending) r.(limit_reset_at) r.(switch_back) r.(handoff_state)
    r.(provider_account_id) r.(objective) r.(decisions) r.(progress) r.(open_questions)
    r.(next_actions) r.(task_budget) r.(sort_order) r.(created_at) r.(updated_at).

Definition set_fallback_local_base_url (v : option string) (r : t) : t :=
  mk r.(id) r.(project_id) r.(group_id) r.(title) r.(status) r.(active_agent)
    r.(preferred_agent) r.(permission) r.(execution_backend) r.(force_managed_workspace)
    r.(model) r.(reasoning) r.(local_provider) r.(local_base_url) r.(model_target)
    r.(compute_lease_id) r.(compute_provider) r.(estimated_compute_cost_usd)
    r.(fallback_model_target) r.(original_agent) r.(fallback_agent) r.(original_model)
    r.(fallback_model) r.(original_reasoning) r.(fallback_reasoning)
    r.(original_local_provider) r.(fallback_local_provider) r.(original_local_base_url) v
    r.(switch_back_pending) r.(limit_reset_at) r.(switch_back) r.(handoff_state)
    r.(provider_account_id) r.(objective) r.(decisions) r.(progress) r.(open_questions)
    r.(next_actions) r.(task_budget) r.(sort_order) r.(created_at) r.(updated_at).

Definition set_switch_back_pending (v : bool) (r : t) : t :=
  mk r.(id) r.(project_id) r.(group_id) r.(title) r.(status) r.(active_agent)
    r.(preferred_agent) r.(permission) r.(execution_backend) r.(force_managed_workspace)
    r.(model) r.(reasoning) r.(local_provider) r.(local_base_url) r.(model_target)
    r.(compute_lease_id) r.(compute_provider) r.(estimated_compute_cost_usd)
    r.(fallback_model_target) r.(original_agent) r.(fallback_agent) r.(original_model)
    r.(fallback_model) r.(original_reasoning) r.(fallback_reasoning)
    r.(original_local_provider) r.(fallback_local_provider) r.(original_local_base_url)
    r.(fallback_local_base_url) v r.(limit_reset_at) r.(switch_back) r.(handoff_state)
    r.(provider_account_id) r.(objective) r.(decisions) r.(progress) r.(open_questions)
    r.(next_actions) r.(task_budget) r.(sort_order) r.(created_at) r.(updated_at).

Definition set_limit_reset_at (v : option Z) (r : t) : t :=
  mk r.(id) r.(project_id) r.(group_id) r.(title) r.(status) r.(active_agent)
    r.(preferred_agent) r.(permission) r.(execution_backend) r.(force_managed_workspace)
    r.(model) r.(reasoning) r.(local_provider) r.(local_base_url) r.(model_target)
    r.(compute_lease_id) r.(compute_provider) r.(estimated_compute_cost_usd)
    r.(fallback_model_target) r.(original_agent) r.(fallback_agent) r.(original_model)
    r.(fallback_model) r.(original_reasoning) r.(fallback_reasoning)
    r.(original_local_provider) r.(fallback_local_provider) r.(original_local_base_url)
    r.(fallback_local_base_url) r.(switch_back_pending) v r.(switch_back) r.(handoff_state)
    r.(provider_account_id) r.(objective) r.(decisions) r.(progress) r.(open_questions)
    r.(next_actions) r.(task_budget) r.(sort_order) r.(created_at) r.(updated_at).

Definition set_switch_back (v : bool) (r : t) : t :=
  mk r.(id) r.(project_id) r.(group_id) r.(title) r.(status) r.(active_agent)
    r.(preferred_agent) r.(permission) r.(execution_backend) r.(force_managed_workspace)
    r.(model) r.(reasoning) r.(local_provider) r.(local_base_url) r.(model_target)
    r.(compute_lease_id) r.(compute_provider) r.(estimated_compute_cost_usd)
    r.(fallback_model_target) r.(original_agent) r.(fallback_agent) r.(original_model)
    r.(fallback_model) r.(original_reasoning) r.(fallback_reasoning)
    r.(original_local_provider) r.(fallback_local_provider) r.(original_local_base_url)
    r.(fallback_local_base_url) r.(switch_back_pending) r.(limit_reset_at) v
    r.(handoff_state) r.(provider_account_id) r.(objective) r.(decisions) r.(progress)
    r.(open_questions) r.(next_actions) r.(task_budget) r.(sort_order) r.(created_at)
    r.(updated_at).

Definition set_handoff_state (v : string) (r : t) : t :=
  mk r.(id) r.(project_id) r.(group_id) r.(title) r.(status) r.(active_agent)
    r.(preferred_agent) r.(permission) r.(execution_backend) r.(force_managed_workspace)
    r.(model) r.(reasoning) r.(local_provider) r.(local_base_url) r.(model_target)
    r.(compute_lease_id) r.(compute_provider) r.(estimated_compute_cost_usd)
    r.(fallback_model_target) r.(original_agent) r.(fallback_agent) r.(original_model)
    r.(fallback_model) r.(original_reasoning) r.(fallback_reasoning)
    r.(original_local_provider) r.(fallback_local_provider) r.(original_local_base_url)
    r.(fallback_local_base_url) r.(switch_back_pending) r.(limit_reset_at) r.(switch_back)
    v r.(provider_account_id) r.(objective) r.(decisions) r.(progress) r.(open_questions)
    r.(next_actions) r.(task_budget) r.(sort_order) r.(created_at) r.(updated_at).

Definition set_progress (v : string) (r : t) : t :=
  mk r.(id) r.(project_id) r.(group_id) r.(title) r.(status) r.(active_agent)
    r.(preferred_agent) r.(permission) r.(execution_backend) r.(force_managed_workspace)
    r.(model) r.(reasoning) r.(local_provider) r.(local_base_url) r.(model_target)
    r.(compute_lease_id) r.(compute_provider) r.(estimated_compute_cost_usd)
    r.(fallback_model_target) r.(original_agent) r.(fallback_agent) r.(original_model)
    r.(fallback_model) r.(original_reasoning) r.(fallback_reasoning)
    r.(original_local_provider) r.(fallback_local_provider) r.(original_local_base_url)
    r.(fallback_local_base_url) r.(switch_back_pending) r.(limit_reset_at) r.(switch_back)
    r.(handoff_state) r.(provider_account_id) r.(objective) r.(decisions) v
    r.(open_questions) r.(next_actions) r.(task_budget) r.(sort_order) r.(created_at)
    r.(updated_at).

Definition set_next_actions (v : string) (r : t) : t :=
  mk r.(id) r.(project_id) r.(group_id) r.(title) r.(status) r.(active_agent)
    r.(preferred_agent) r.(permission) r.(execution_backend) r.(force_managed_workspace)
    r.(model) r.(reasoning) r.(local_provider) r.(local_base_url) r.(model_target)
    r.(compute_lease_id) r.(compute_provider) r.(estimated_compute_cost_usd)
    r.(fallback_model_target) r.(original_agent) r.(fallback_agent) r.(original_model)
    r.(fallback_model) r.(original_reasoning) r.(fallback_reasoning)
    r.(original_local_provider) r.(fallback_local_provider) r.(original_local_base_url)
    r.(fallback_local_base_url) r.(switch_back_pending) r.(limit_reset_at) r.(switch_back)
    r.(handoff_state) r.(provider_account_id) r.(objective) r.(decisions) r.(progress)
    r.(open_questions) v r.(task_budget) r.(sort_order) r.(created_at) r.(updated_at).

Definition set_updated_at (v : Z) (r : t) : t :=
  mk r.(id) r.(project_id) r.(group_id) r.(title) r.(status) r.(active_agent)
    r.(preferred_agent) r.(permission) r.(execution_backend) r.(force_managed_workspace)
    r.(model) r.(reasoning) r.(local_provider) r.(local_base_url) r.(model_target)
    r.(compute_lease_id) r.(compute_provider) r.(estimated_compute_cost_usd)
    r.(fallback_model_target) r.(original_agent) r.(fallback_agent) r.(original_model)
    r.(fallback_model) r.(original_reasoning) r.(fallback_reasoning)
    r.(original_local_provider) r.(fallback_local_provider) r.(original_local_base_url)
    r.(fallback_local_base_url) r.(switch_back_pending) r.(limit_reset_at) r.(switch_back)
    r.(handoff_state) r.(provider_account_id) r.(objective) r.(decisions) r.(progress)
    r.(open_questions) r.(next_actions) r.(task_budget) r.(sort_order) r.(created_at) v.

End AgentThread.

Module AgentThreadUpdate.

Record t := mk {
  title : option string;
  status : option TaskStatus.t;
  active_agent : option AgentKind.t;
  group_id : option string;
  preferred_agent : option AgentKind.t;
  permission : option string;
  execution_backend : option ExecutionBackend.t;
  model : option string;
  reasoning : option string;
  local_provider : option LocalModelProviderKind.t;
  local_base_url : option string;
  model_target : option ModelTargetKind.t;
  compute_lease_id : option string;
  compute_provider : option ComputeProviderKind.t;
  estimated_compute_cost_usd : option f64;
  fallback_model_target : option ModelTargetKind.t;
  objective : option string;
  decisions : option string;
  progress : option string;
  open_questions : option string;
  next_actions : option string;
  task_budget : option TaskBudget.t
}.

End AgentThreadUpdate.

Module AgentTurn.

Record t := mk {
  id : string;
  thread_id : string;
  agent_kind : AgentKind.t;
  agent_session_id : option string;
  state : SessionState.t;
  permission : string;
  execution_backend : ExecutionBackend.t;
  sandbox_name : option string;
  model : option string;
  reasoning : option string;
  local_provider : option LocalModelProviderKind.t;
  local_base_url : option string;
  model_target : ModelTargetKind.t;
  compute_lease_id : option string;
  compute_provider : option ComputeProviderKind.t;
  estimated_compute_cost_usd : option f64;
  fallback_model_target : option ModelTargetKind.t;
  target_hash : option string;
  policy_envelope_id : option string;
  started_at : Z;
  ended_at : option Z
}.

Definition set_state (v : SessionState.t) (r : t) : t :=
  mk r.(id) r.(thread_id) r.(agent_kind) r.(agent_session_id) v r.(permission)
    r.(execution_backend) r.(sandbox_name) r.(model) r.(reasoning) r.(local_provider)
    r.(local_base_url) r.(model_target) r.(compute_lease_id) r.(compute_provider)
    r.(estimated_compute_cost_usd) r.(fallback_model_target) r.(target_hash)
    r.(policy_envelope_id) r.(started_at) r.(ended_at).

Definition set_ended_at (v : option Z) (r : t) : t :=
  mk r.(id) r.(thread_id) r.(agent_kind) r.(agent_session_id) r.(state) r.(permission)
    r.(execution_backend) r.(sandbox_name) r.(model) r.(reasoning) r.(local_provider)
    r.(local_base_url) r.(model_target) r.(compute_lease_id) r.(compute_provider)
    r.(estimated_compute_cost_usd) r.(fallback_model_target) r.(target_hash)
    r.(policy_envelope_id) r.(started_at) v.

End AgentTurn.

Module AgentThreadEvent.

Record t {V : Type} := mk {
  id : string;
  thread_id : string;
  turn_id : string;
  role : string;
  kind : string;
  text : option string;
  client_message_id : option string;
  data : V;
  ts : Z
}.

Arguments t : clear implicits.

End AgentThreadEvent.

Module WorkbenchSessionGroup.

Record t := mk {
  id : string;
  project_id : option string;
  name : string;
  color : string;
  collapsed : bool;
  sort_order : Z;
  created_at : Z;
  updated_at : Z
}.

End WorkbenchSessionGroup.

Module NewWorkbenchSessionGroup.

Record t := mk {
  project_id : option string;
  name : string;
  color : option string;
  sort_order : option Z
}.

End NewWorkbenchSessionGroup.

Module WorkbenchSessionGroupUpdate.

Record t := mk {
  name : option string;
  color : option string;
  collapsed : option bool;
  sort_order : option Z
}.

End WorkbenchSessionGroupUpdate.

(** ** project.rs *)

Module Project.

Record t := mk {
  id : string;
  name : string;
  description : option string;
  created_at : Z;
  updated_at : Z
}.

End Project.

Module NewProject.

Record t := mk {
  name : string;
  description : option string
}.

End NewProject.

(** ** task.rs *)

Module NewTask.

Record t := mk {
  project_id : string;
  title : string;
  repo_id : option string;
  description : option string;
  priority : TaskPriority.t;
  primary_agent : option AgentKind.t;
  model : option string;
  model_target : option ModelTargetKind.t;
  compute_lease_id : option string;
  compute_provider : option ComputeProviderKind.t;
  estimated_compute_cost_usd : option f64;
  fallback_model_target : option ModelTargetKind.t
}.

End NewTask.

Module Task.

Record t := mk {
  id : string;
  project_id : string;
  title : string;
  description : option string;
  status : TaskStatus.t;
  priority : TaskPriority.t;
  primary_agent : option AgentKind.t;
  model : option string;
  model_target : ModelTargetKind.t;
  compute_lease_id : option string;
  compute_provider : option ComputeProviderKind.t;
  estimated_compute_cost_usd : option f64;
  fallback_model_target : option ModelTargetKind.t;
  created_at : Z;
  updated_at : Z
}.

Definition set_status (v : TaskStatus.t) (r : t) : t :=
  mk r.(id) r.(project_id) r.(title) r.(description) v r.(priority) r.(primary_agent)
    r.(model) r.(model_target) r.(compute_lease_id) r.(compute_provider)
    r.(estimated_compute_cost_usd) r.(fallback_model_target) r.(created_at) r.(updated_at).

Definition set_updated_at (v : Z) (r : t) : t :=
  mk r.(id) r.(project_id) r.(title) r.(description) r.(status) r.(priority)
    r.(primary_agent) r.(model) r.(model_target) r.(compute_lease_id) r.(compute_provider)
    r.(estimated_compute_cost_usd) r.(fallback_model_target) r.(created_at) v.

End Task.

Module TaskUpdate.

Record t := mk {
  title : option string;
  description : option string;
  status : option TaskStatus.t;
  priority : option TaskPriority.t;
  primary_agent : option AgentKind.t;
  model : option string;
  model_target : option ModelTargetKind.t;
  compute_lease_id : option string;
  compute_provider : option ComputeProviderKind.t;
  estimated_compute_cost_usd : option f64;
  fallback_model_target : option ModelTargetKind.t
}.

End TaskUpdate.

(** ** repo.rs *)

Module Repo.

Record t := mk {
  id : string;
  project_id : string;
  name : string;
  kind : RepoKind.t;
  local_path : option string;
  remote_url : option string;
  default_branch : string;
  created_at : Z;
  updated_at : Z
}.

End Repo.

Module NewLocalRepo.

Record t := mk {
  project_id : string;
  path : string;
  initialize : bool
}.

End NewLocalRepo.

(** ** task_context.rs, git_automation.rs *)

Module TaskContext.

Record t := mk {
  task_id : string;
  objective : string;
  requirements : string;
  decisions : string;
  progress : string;
  open_questions : string;
  next_actions : string;
  updated_at : Z
}.

Definition set_objective (v : string) (r : t) : t :=
  mk r.(task_id) v r.(requirements) r.(decisions) r.(progress) r.(open_questions)
    r.(next_actions) r.(updated_at).

Definition set_requirements (v : string) (r : t) : t :=
  mk r.(task_id) r.(objective) v r.(decisions) r.(progress) r.(open_questions)
    r.(next_actions) r.(updated_at).

Definition set_progress (v : string) (r : t) : t :=
  mk r.(task_id) r.(objective) r.(requirements) r.(decisions) v r.(open_questions)
    r.(next_actions) r.(updated_at).

Definition set_next_actions (v : string) (r : t) : t :=
  mk r.(task_id) r.(objective) r.(requirements) r.(decisions) r.(progress)
    r.(open_questions) v r.(updated_at).

Definition set_updated_at (v : Z) (r : t) : t :=
  mk r.(task_id) r.(objective) r.(requirements) r.(decisions) r.(progress)
    r.(open_questions) r.(next_actions) v.

End TaskContext.

Module TaskHandoff.

Record t := mk {
  id : string;
  task_id : string;
  session_id : string;
  agent : AgentKind.t;
  status : string;
  summary : string;
  changed_files : list string;
  next_actions : string;
  created_at : Z
}.

End TaskHandoff.

Module TaskContextUpdate.

Record t := mk {
  objective : option string;
  requirements : option string;
  decisions : option string;
  progress : option string;
  open_questions : option string;
  next_actions : option string
}.

End TaskContextUpdate.

Module GitAutomation.

Record t := mk {
  auto_commit : bool;
  auto_push : bool
}.

End GitAutomation.

Module AgentThreadRepoApplyResult.

Record t := mk {
  repo_id : string;
  repo_name : string;
  target_path : option string;
  worktree_path : option string;
  files : list FileChange.t;
  applied : bool;
  blocker : option string
}.

Definition set_files (v : list FileChange.t) (r : t) : t :=
  mk r.(repo_id) r.(repo_name) r.(target_path) r.(worktree_path) v r.(applied) r.(blocker).

Definition set_applied (v : bool) (r : t) : t :=
  mk r.(repo_id) r.(repo_name) r.(target_path) r.(worktree_path) r.(files) v r.(blocker).

Definition set_blocker (v : option string) (r : t) : t :=
  mk r.(repo_id) r.(repo_name) r.(target_path) r.(worktree_path) r.(files) r.(applied) v.

End AgentThreadRepoApplyResult.

Module AgentThreadApplyResult.

Record t := mk {
  thread_id : string;
  applied : bool;
  repos : list AgentThreadRepoApplyResult.t;
  blockers : list string
}.

End AgentThreadApplyResult.

(** ** collaboration.rs *)

Module CollaborationAgentCapability.

Record t := mk {
  agent : AgentKind.t;
  installed : bool;
  authenticated : bool;
  version : option string
}.

#[global] Instance CollaborationAgentCapability_eq_dec : EqDecision t.
Proof. solve_decision. Defined.

End CollaborationAgentCapability.

Module CollaborationDevice.

Record t := mk {
  id : string;
  name : string;
  hostname : string;
  platform : string;
  extension_version : string;
  capabilities : list CollaborationAgentCapability.t;
  last_seen_at : Z;
  paired_at : Z;
  revoked_at : option Z;
  active_assignments : Z
}.

End CollaborationDevice.

Module RegisterCollaborationDevice.

Record t := mk {
  id : string;
  name : string;
  hostname : string;
  platform : string;
  extension_version : string;
  capabilities : list CollaborationAgentCapability.t
}.

End RegisterCollaborationDevice.

Module CollaborationAssignment.

Record t := mk {
  id : string;
  thread_id : string;
  turn_id : string;
  device_id : string;
  device_name : string;
  agent : AgentKind.t;
  permission : string;
  execution_backend : ExecutionBackend.t;
  prompt : string;
  status : CollaborationAssignmentStatus.t;
  lease_expires_at : option Z;
  created_at : Z;
  started_at : option Z;
  finished_at : option Z;
  error : option string
}.

End CollaborationAssignment.

Module NewCollaborationAssignment.

Record t := mk {
  thread_id : string;
  device_id : string;
  agent : AgentKind.t;
  permission : string;
  execution_backend : ExecutionBackend.t;
  message : option string;
  client_message_id : option string
}.

End NewCollaborationAssignment.

Module ClaimedCollaborationAssignment.

Record t := mk {
  assignment : CollaborationAssignment.t;
  lease_token : string
}.

End ClaimedCollaborationAssignment.

Module CollaborationEventInput.

Record t {V : Type} := mk {
  assignment_id : string;
  lease_token : string;
  event_id : string;
  role : string;
  kind : string;
  text : option string;
  client_message_id : option string;
  data : V;
  ts : Z
}.

Arguments t : clear implicits.

End CollaborationEventInput.

Module FinishCollaborationAssignment.

Record t := mk {
  assignment_id : string;
  lease_token : string;
  state : SessionState.t;
  error : option string
}.

End FinishCollaborationAssignment.

Module ReportCollaborationApproval.

Record t {V : Type} := mk {
  assignment_id : string;
  lease_token : string;
  approval : ApprovalRequest.t V
}.

Arguments t : clear implicits.

End ReportCollaborationApproval.

Module CollaborationApprovalDecision.

Record t := mk {
  id : string;
  local_approval_id : string;
  decision : ApprovalDecision.t
}.

End CollaborationApprovalDecision.

Module CollaborationChangeSet.

Record t := mk {
  id : string;
  assignment_id : string;
  thread_id : string;
  device_id : string;
  repo_id : string;
  repo_name : string;
  base_ref : option string;
  files : list FileChange.t;
  patch : string;
  patch_sha256 : string;
  status : CollaborationChangeStatus.t;
  conflict_files : list string;
  created_at : Z;
  applied_at : option Z
}.

End CollaborationChangeSet.

Module NewCollaborationChangeSet.

Record t := mk {
  assignment_id : string;
  lease_token : string;
  repo_id : string;
  base_ref : option string;
  files : list FileChange.t;
  patch : string
}.

End NewCollaborationChangeSet.

Module CollaborationSnapshot.

Record t := mk {
  devices : list CollaborationDevice.t;
  assignments : list CollaborationAssignment.t;
  change_sets : list CollaborationChangeSet.t;
  server_time : Z
}.

End CollaborationSnapshot.
