(* ===== verification/Doubles.v ===== *)
(** * Doubles

    Rust's [f64] as the Standard Library's IEEE values, with the operations the
    program uses and the order of the values that are not NaN. *)
From Stdlib Require Import SpecFloat.
From S2P Require Import Prelude Records.

(** ** Operations *)

Definition f64_zero : f64 := S754_zero false.
(** [f64::from] of a small integer. *)
Definition f64_of_int (n : Z) : f64 := binary_normalize 53 1024 n 0 false.
Definition f64_add : f64 -> f64 -> f64 := SFadd 53 1024.
Definition f64_sub : f64 -> f64 -> f64 := SFsub 53 1024.
Definition f64_mul : f64 -> f64 -> f64 := SFmul 53 1024.
(** [f64::max]: a NaN operand is ignored. *)
Definition f64_max (x y : f64) : f64 :=
  match x, y with
  | S754_nan, _ => y
  | _, S754_nan => x
  | _, _ => if SFltb x y then y else x
  end.

(** [f64::clamp]: a NaN stays. *)
Definition f64_clamp (lo hi x : f64) : f64 := if SFltb x lo then lo else if SFltb hi x then hi else x.
Definition f64_100 : f64 := S754_finite false 7036874417766400 (-46).

(** ** The order of doubles

    [SFcompare] orders the doubles that are not NaN by class, exponent and
    mantissa. *)
Definition float_key (x : f64) : Z * Z * Z :=
  match x with
  | S754_nan | S754_zero _ => (0, 0, 0)
  | S754_infinity s => (if s then -2 else 2, 0, 0)
  | S754_finite s m e => if s then (-1, - e, - Zpos m) else (1, e, Zpos m)
  end.

Definition key_le (a b : Z * Z * Z) : Prop :=
  let '(a1, a2, a3) := a in let '(b1, b2, b3) := b in
  a1 < b1 \/ (a1 = b1 /\ (a2 < b2 \/ (a2 = b2 /\ a3 <= b3))).

Definition is_number (x : f64) : Prop := x <> S754_nan.

Lemma SFleb_key x y : is_number x -> is_number y -> SFleb x y = true <-> key_le (float_key x) (float_key y).
Proof.
  unfold is_number, SFleb, SFcompare, key_le. intros Hx Hy.
  destruct x as [sx|sx| |sx mx ex], y as [sy|sy| |sy my ey]; try done; cbn [float_key];
    try (destruct sx); try (destruct sy); try (split; [intros; lia|done]); try (split; [done|intros; lia]).
  - destruct (Z.compare_spec ex ey); try (split; [intros; lia|done]); try (split; [done|intros; lia]).
    change (Pos.compare_cont Eq mx my) with (Pos.compare mx my).
    destruct (Pos.compare_spec mx my); cbn; split; intros; try done; lia.
  - destruct (Z.compare_spec ex ey); try (split; [intros; lia|done]); try (split; [done|intros; lia]).
    change (Pos.compare_cont Eq mx my) with (Pos.compare mx my).
    destruct (Pos.compare_spec mx my); cbn; split; intros; try done; lia.
Qed.

Lemma SFltb_le x y : SFltb x y = true -> SFleb x y = true.
Proof. unfold SFltb, SFleb. destruct (SFcompare x y) as [[]|]; done. Qed.

Lemma SFleb_number x y : SFleb x y = true -> is_number x /\ is_number y.
Proof. unfold SFleb, is_number. by destruct x, y. Qed.

Lemma SFleb_refl x : is_number x -> SFleb x x = true.
Proof. intros Hx. apply SFleb_key; [done..|]. destruct (float_key x) as [[? ?] ?]. cbn. lia. Qed.

Lemma SFleb_trans x y z : SFleb x y = true -> SFleb y z = true -> SFleb x z = true.
Proof.
  intros Hxy Hyz. destruct (SFleb_number _ _ Hxy), (SFleb_number _ _ Hyz).
  rewrite SFleb_key in * by done.
  destruct (float_key x) as [[? ?] ?], (float_key y) as [[? ?] ?], (float_key z) as [[? ?] ?]. cbn in *. lia.
Qed.

Lemma SFltb_negb x y : is_number x -> is_number y -> SFltb x y = negb (SFleb y x).
Proof.
  unfold is_number, SFltb, SFleb, SFcompare. intros Hx Hy.
  destruct x as [sx|sx| |sx mx ex], y as [sy|sy| |sy my ey]; try done; try (destruct sx); try (destruct sy); try done;
    rewrite (Z.compare_antisym ex ey); destruct (ex ?= ey); cbn; try done;
    change (Pos.compare_cont Eq my mx) with (Pos.compare my mx);
    change (Pos.compare_cont Eq mx my) with (Pos.compare mx my);
    rewrite (Pos.compare_antisym mx my); by destruct (mx ?= my)%positive.
Qed.

Lemma f64_max_ge x y : is_number x -> SFleb x (f64_max x y) = true /\ (is_number y -> SFleb y (f64_max x y) = true).
Proof.
  intros Hx. assert (y = S754_nan \/ is_number y) as [->|Hy] by (destruct y; [right|right|left|right]; done).
  { assert (f64_max x S754_nan = x) as -> by (by destruct x). by split; [apply SFleb_refl|]. }
  assert (f64_max x y = if SFltb x y then y else x) as -> by (by destruct x, y).
  destruct (SFltb x y) eqn:Hlt.
  - split; [by apply SFltb_le|intros; by apply SFleb_refl].
  - split; [by apply SFleb_refl|]. intros _. rewrite SFltb_negb in Hlt by done. by apply negb_false_iff.
Qed.
