(* ===== verification/Admission.v ===== *)
(** * Resizable admission control (crates/am-core/src/admission.rs)

    [State] is the data behind the controller's mutex and each method of
    [impl State] is a pure function on it.  The public operations are critical
    sections separated by unlocked code (sending a permit, running a [Drop]), so
    the controller as a whole is the step relation [step] of Module [Concurrent]:
    one constructor per critical section, any interleaving of calls. *)
From S2P Require Import Prelude.

(** ** The locked state *)

(** [struct Waiter]: the sender half [tx] is the one-shot channel named by the
    waiter's [id]. *)
Record Waiter := mkWaiter { wid : Z; wscope : option string }.

Record State := mkState {
  running : nat;
  capacity : nat;
  per_scope : gmap string nat;
  scope_caps : gmap string nat;
  waiters : list Waiter;
  next_waiter_id : Z
}.

#[export] Instance Waiter_eq_dec : EqDecision Waiter.
Proof. solve_decision. Defined.

Definition set_counts (s : State) (r : nat) (m : gmap string nat) : State :=
  mkState r s.(capacity) m s.(scope_caps) s.(waiters) s.(next_waiter_id).
Definition set_waiters (s : State) (ws : list Waiter) : State :=
  mkState s.(running) s.(capacity) s.(per_scope) s.(scope_caps) ws s.(next_waiter_id).

(** [AdmissionController::new]. *)
Definition new (capacity : nat) : State :=
  mkState 0 (capacity `max` 1)%nat ∅ ∅ [] 0.

(** Slots in use by one scope ([per_scope.get(scope).unwrap_or(0)]). *)
Definition scope_running (s : State) (sc : string) : nat := default 0%nat (s.(per_scope) !! sc).

Definition can_admit (s : State) (scope : option string) : bool :=
  if (s.(capacity) <=? s.(running))%nat then false
  else match scope with
       | None => true
       | Some sc => match s.(scope_caps) !! sc with
                    | Some cap => (scope_running s sc <? cap)%nat
                    | None => true
                    end
       end.

Definition admit_slot (s : State) (scope : option string) : State :=
  set_counts s (S s.(running))
    (match scope with
     | Some sc => <[sc := S (scope_running s sc)]> s.(per_scope)
     | None => s.(per_scope)
     end).

Definition release (s : State) (scope : option string) : State :=
  set_counts s (s.(running) - 1)%nat
    (match scope with
     | Some sc => match s.(per_scope) !! sc with
                  | Some count =>
                      if decide (count - 1 = 0)%nat then delete sc s.(per_scope)
                      else <[sc := (count - 1)%nat]> s.(per_scope)
                  | None => s.(per_scope)
                  end
     | None => s.(per_scope)
     end).

(** First waiter whose scope admits it; FIFO with skip-over. *)
Definition pop_and_reserve (s : State) : option (Waiter * State) :=
  if (s.(capacity) <=? s.(running))%nat then None
  else
    idx ← position (fun w => can_admit s w.(wscope)) s.(waiters);
    w ← s.(waiters) !! idx;
    Some (w, admit_slot (set_waiters s (remove_at idx s.(waiters))) w.(wscope)).

(** [try_acquire]: the permit is its scope. *)
Definition try_acquire (s : State) (scope : option string) : option State :=
  if can_admit s scope then Some (admit_slot s scope) else None.

(** The locked part of [acquire_queued]: a slot now, or the id it waits under. *)
Definition acquire_locked (s : State) (scope : option string) : State + State * Z :=
  if can_admit s scope then inl (admit_slot s scope)
  else
    let id := s.(next_waiter_id) in
    inr (mkState s.(running) s.(capacity) s.(per_scope) s.(scope_caps)
           (s.(waiters) ++ [mkWaiter id scope]) (u64_wrapping_add id 1), id).

Definition set_capacity (s : State) (cap : nat) : State :=
  mkState s.(running) (cap `max` 1)%nat s.(per_scope) s.(scope_caps) s.(waiters) s.(next_waiter_id).

Definition set_cap_locked (s : State) (sc : string) (cap : option nat) : State :=
  mkState s.(running) s.(capacity) s.(per_scope)
    (match cap with
     | Some c => <[sc := (c `max` 1)%nat]> s.(scope_caps)
     | None => delete sc s.(scope_caps)
     end) s.(waiters) s.(next_waiter_id).

Definition queue_len (s : State) : nat := length s.(waiters).

(** [WaiterGuard::drop]: removes the abandoned queue entry, if still queued. *)
Definition guard_drop (s : State) (id : Z) : State :=
  match position (fun w => bool_decide (w.(wid) = id)) s.(waiters) with
  | Some idx => set_waiters s (remove_at idx s.(waiters))
  | None => s
  end.

(** ** One call running alone

    [drain_waiters] when no other thread runs: [alive id] says whether the
    receiver of waiter [id] still exists.  Returns the state and the waiters that
    were handed a permit, in order.  Each iteration removes a waiter, so the
    queue length bounds the fuel. *)
Fixpoint drain_fuel (fuel : nat) (alive : Z -> bool) (s : State) : State * list Waiter :=
  match fuel with
  | O => (s, [])
  | S fuel' =>
      match pop_and_reserve s with
      | None => (s, [])
      | Some (w, s') =>
          if alive w.(wid) then
            let '(s'', given) := drain_fuel fuel' alive s' in (s'', w :: given)
          else drain_fuel fuel' alive (release s' w.(wscope))
      end
  end.

Definition drain_waiters (alive : Z -> bool) (s : State) : State * list Waiter :=
  drain_fuel (S (length s.(waiters))) alive s.

Definition release_slot (alive : Z -> bool) (s : State) (scope : option string) :
  State * list Waiter := drain_waiters alive (release s scope).
Definition resize (alive : Z -> bool) (s : State) (cap : nat) : State * list Waiter :=
  drain_waiters alive (set_capacity s cap).
Definition set_scope_cap (alive : Z -> bool) (s : State) (sc : string) (cap : option nat) :
  State * list Waiter := drain_waiters alive (set_cap_locked s sc cap).

Module Concurrent.

(** ** The controller under concurrency *)

(** Where a [drain_waiters] call is: about to lock, holding a reserved permit
    for a popped waiter, or taking an unsent permit back. *)
Inductive drain :=
| DLoop
| DSend (w : Waiter)
| DUndo (scope : option string).

#[export] Instance drain_eq_dec : EqDecision drain.
Proof. solve_decision. Defined.

Record Config := mkConfig {
  st : State;
  (** armed permits owned by callers, by scope *)
  held : list (option string);
  (** permits sent to a waiting future and not received yet *)
  inbox : gmap Z (option string);
  (** permits found in the channel of a dropped receiver, about to be dropped *)
  dropping : list (option string);
  (** in-flight [drain_waiters] calls *)
  drains : list drain;
  (** [acquire_queued] futures awaiting their receiver, with their scope *)
  parked : gmap Z (option string);
  (** cancelled futures whose [WaiterGuard] has not run yet *)
  guards : list Z
}.

Definition init (cap : nat) : Config := mkConfig (new cap) [] ∅ [] [] ∅ [].

(** One critical section (or one channel operation) of some thread. *)
Inductive step : Config -> Config -> Prop :=
| step_acquire s h ib dr ds pk gs scope :
    can_admit s scope = true ->
    step (mkConfig s h ib dr ds pk gs)
         (mkConfig (admit_slot s scope) (scope :: h) ib dr ds pk gs)
| step_try_fail s h ib dr ds pk gs scope :
    try_acquire s scope = None ->
    step (mkConfig s h ib dr ds pk gs) (mkConfig s h ib dr ds pk gs)
| step_enqueue s s' h ib dr ds pk gs scope id :
    acquire_locked s scope = inr (s', id) ->
    step (mkConfig s h ib dr ds pk gs)
         (mkConfig s' h ib dr ds (<[id := scope]> pk) gs)
| step_receive s h ib dr ds pk gs id scope sc :
    pk !! id = Some sc -> ib !! id = Some scope ->
    step (mkConfig s h ib dr ds pk gs)
         (mkConfig s (scope :: h) (delete id ib) dr ds (delete id pk) gs)
(** [Err(_)]: the sender is gone without a permit; the future re-enters
    [acquire_queued]. *)
| step_sender_lost s s' h ib dr ds pk gs id sc :
    pk !! id = Some sc -> ib !! id = None ->
    (forall w, w ∈ s.(waiters) -> w.(wid) <> id) ->
    (forall w, DSend w ∈ ds -> w.(wid) <> id) ->
    acquire_locked s sc = inl s' ->
    step (mkConfig s h ib dr ds pk gs)
         (mkConfig s' (sc :: h) ib dr ds (delete id pk) gs)
| step_sender_lost_requeue s s' h ib dr ds pk gs id id' sc :
    pk !! id = Some sc -> ib !! id = None ->
    (forall w, w ∈ s.(waiters) -> w.(wid) <> id) ->
    (forall w, DSend w ∈ ds -> w.(wid) <> id) ->
    acquire_locked s sc = inr (s', id') ->
    step (mkConfig s h ib dr ds pk gs)
         (mkConfig s' h ib dr ds (<[id' := sc]> (delete id pk)) gs)
(** the future is dropped: first its receiver (with any permit in it) ... *)
| step_cancel s h ib dr ds pk gs id sc :
    pk !! id = Some sc ->
    step (mkConfig s h ib dr ds pk gs)
         (mkConfig s h (delete id ib) (option_list (ib !! id) ++ dr) ds
            (delete id pk) (id :: gs))
(** ... then its [WaiterGuard]. *)
| step_guard s h ib dr ds pk gs gs' id :
    gs ≡ₚ id :: gs' ->
    step (mkConfig s h ib dr ds pk gs) (mkConfig (guard_drop s id) h ib dr ds pk gs')
| step_drop_permit s h h' ib dr ds pk gs scope :
    h ≡ₚ scope :: h' ->
    step (mkConfig s h ib dr ds pk gs)
         (mkConfig (release s scope) h' ib dr (DLoop :: ds) pk gs)
| step_drop_unreceived s h ib dr dr' ds pk gs scope :
    dr ≡ₚ scope :: dr' ->
    step (mkConfig s h ib dr ds pk gs)
         (mkConfig (release s scope) h ib dr' (DLoop :: ds) pk gs)
| step_resize s h ib dr ds pk gs cap :
    step (mkConfig s h ib dr ds pk gs)
         (mkConfig (set_capacity s cap) h ib dr (DLoop :: ds) pk gs)
| step_set_cap s h ib dr ds pk gs sc cap :
    step (mkConfig s h ib dr ds pk gs)
         (mkConfig (set_cap_locked s sc cap) h ib dr (DLoop :: ds) pk gs)
| step_drain_end s h ib dr ds ds' pk gs :
    ds ≡ₚ DLoop :: ds' -> pop_and_reserve s = None ->
    step (mkConfig s h ib dr ds pk gs) (mkConfig s h ib dr ds' pk gs)
| step_drain_pop s s' h ib dr ds ds' pk gs w :
    ds ≡ₚ DLoop :: ds' -> pop_and_reserve s = Some (w, s') ->
    step (mkConfig s h ib dr ds pk gs) (mkConfig s' h ib dr (DSend w :: ds') pk gs)
| step_drain_sent s h ib dr ds ds' pk gs w sc :
    ds ≡ₚ DSend w :: ds' -> pk !! w.(wid) = Some sc ->
    step (mkConfig s h ib dr ds pk gs)
         (mkConfig s h (<[w.(wid) := w.(wscope)]> ib) dr (DLoop :: ds') pk gs)
| step_drain_unsent s h ib dr ds ds' pk gs w :
    ds ≡ₚ DSend w :: ds' -> pk !! w.(wid) = None ->
    step (mkConfig s h ib dr ds pk gs)
         (mkConfig s h ib dr (DUndo w.(wscope) :: ds') pk gs)
| step_drain_undo s h ib dr ds ds' pk gs scope :
    ds ≡ₚ DUndo scope :: ds' ->
    step (mkConfig s h ib dr ds pk gs)
         (mkConfig (release s scope) h ib dr (DLoop :: ds') pk gs).

(** Slots reserved by a drain in flight. *)
Definition drain_scopes (ds : list drain) : list (option string) :=
  ds ≫= fun d => match d with DLoop => [] | DSend w => [w.(wscope)] | DUndo sc => [sc] end.

(** Every permit in existence, wherever it is. *)
Definition permits (c : Config) : list (option string) :=
  c.(held) ++ (map_to_list c.(inbox)).*2 ++ c.(dropping) ++ drain_scopes c.(drains).

End Concurrent.

(** ** Slot accounting

    The state against its specification, a multiset of outstanding permits. *)

Definition count_scope (sc : string) (l : list (option string)) : nat :=
  length (filter (fun x => x = Some sc) l).

(** [s] accounts exactly for the permits [l]. *)
Definition accounts (s : State) (l : list (option string)) : Prop :=
  s.(running) = length l /\
  (forall sc, scope_running s sc = count_scope sc l) /\
  (forall sc, s.(per_scope) !! sc <> Some 0%nat).

#[export] Instance count_scope_Proper sc : Proper (Permutation ==> eq) (count_scope sc).
Proof. intros l l' Hl. unfold count_scope. by rewrite Hl. Qed.

#[export] Instance accounts_Proper s : Proper (Permutation ==> iff) (accounts s).
Proof.
  intros l l' Hl. unfold accounts. rewrite Hl.
  split; intros (?&H&?); split_and!; [done|..|done| done| |done]; intros sc; rewrite H, Hl; done.
Qed.

Lemma count_scope_cons sc x l :
  count_scope sc (x :: l) = ((if decide (x = Some sc) then 1 else 0) + count_scope sc l)%nat.
Proof. unfold count_scope. rewrite filter_cons. case_decide; done. Qed.

(** [accounts] reads only the two counters. *)
Lemma accounts_counters s s' l :
  s'.(running) = s.(running) -> s'.(per_scope) = s.(per_scope) ->
  accounts s l -> accounts s' l.
Proof. unfold accounts, scope_running. by intros -> ->. Qed.

Lemma accounts_new cap : accounts (new cap) [].
Proof. split_and!; [done|done|]. intros sc. cbn. by rewrite lookup_empty. Qed.

Lemma accounts_admit s x l : accounts s l -> accounts (admit_slot s x) (x :: l).
Proof.
  intros (Hr & Hc & Hz). split_and!; [by cbn; rewrite Hr| |].
  - intros sc. specialize (Hc sc). rewrite count_scope_cons.
    unfold scope_running in *. destruct x as [sc'|]; cbn; [|by case_decide].
    rewrite lookup_insert. case_decide as Hd; simplify_eq.
    + rewrite decide_True by done. cbn. unfold scope_running. by rewrite Hc.
    + rewrite decide_False by congruence. done.
  - intros sc. destruct x as [sc'|]; cbn; [|done].
    rewrite lookup_insert. case_decide; [done|apply Hz].
Qed.

Lemma release_lookup s sc' sc :
  (release s (Some sc')).(per_scope) !! sc =
  if decide (sc' = sc)
  then match s.(per_scope) !! sc with
       | Some n => if decide (n - 1 = 0)%nat then None else Some (n - 1)%nat
       | None => None
       end
  else s.(per_scope) !! sc.
Proof.
  unfold release. cbn. destruct (decide (sc' = sc)) as [->|Hne].
  - destruct (per_scope s !! sc) as [n|] eqn:Hn; [|done].
    destruct (decide (n - 1 = 0)%nat); [apply lookup_delete_eq|apply lookup_insert_eq].
  - destruct (per_scope s !! sc') as [n|]; [|done].
    destruct (decide (n - 1 = 0)%nat); [by apply lookup_delete_ne|by apply lookup_insert_ne].
Qed.

Lemma accounts_release s x l : accounts s (x :: l) -> accounts (release s x) l.
Proof.
  intros (Hr & Hc & Hz). split_and!; [cbn in *; lia| |].
  - intros sc. specialize (Hc sc). rewrite count_scope_cons in Hc.
    unfold scope_running in *. destruct x as [sc'|]; [rewrite release_lookup|];
      repeat case_decide; simplify_eq/=; try done;
      destruct (per_scope s !! _) as [n|]; repeat case_decide; cbn in *; lia.
  - intros sc. destruct x as [sc'|]; [rewrite release_lookup|apply Hz].
    specialize (Hz sc). repeat case_match; naive_solver lia.
Qed.

(** ** The admission test and the pop *)

Lemma can_admit_spec s x :
  can_admit s x = true <->
  (s.(running) < s.(capacity))%nat /\
  (forall sc cap, x = Some sc -> s.(scope_caps) !! sc = Some cap -> (scope_running s sc < cap)%nat).
Proof.
  unfold can_admit. destruct (Nat.leb_spec (capacity s) (running s)).
  - split; [done|lia].
  - destruct x as [sc|]; [|naive_solver].
    destruct (scope_caps s !! sc) as [cap|] eqn:Hcap; [rewrite Nat.ltb_lt|].
    + split; [intros ?; split; [done|]; intros ? ? [= <-]; congruence|].
      intros [_ H']. by apply H'.
    + split; [|done]. intros _. split; [done|]. intros ? ? [= <-]. congruence.
Qed.

(** Taking a slot only makes admission harder. *)
Lemma can_admit_anti s x y : can_admit (admit_slot s x) y = true -> can_admit s y = true.
Proof.
  rewrite !can_admit_spec. cbn. intros [Hr Hs]. split; [lia|].
  intros sc cap -> Hcap. specialize (Hs sc cap eq_refl Hcap).
  unfold scope_running in *. destruct x as [sc'|]; cbn in *; [|done].
  rewrite lookup_insert in Hs. case_decide; simplify_eq/=; unfold scope_running in *; lia.
Qed.

Lemma pop_and_reserve_Some s w s' :
  pop_and_reserve s = Some (w, s') <->
  exists l1 l2, s.(waiters) = l1 ++ w :: l2 /\ can_admit s w.(wscope) = true /\
    (forall x, x ∈ l1 -> can_admit s x.(wscope) = false) /\
    s' = admit_slot (set_waiters s (l1 ++ l2)) w.(wscope).
Proof.
  unfold pop_and_reserve. split.
  - destruct (Nat.leb_spec (capacity s) (running s)); [done|].
    intros (i & Hi & H')%bind_Some. apply position_Some in Hi as (a & l1 & l2 & Hw & <- & Ha & Hl1).
    rewrite Hw, list_lookup_middle in H' by done. simplify_eq/=.
    exists l1, l2. rewrite remove_at_app. done.
  - intros (l1 & l2 & Hw & Ha & Hl1 & ->).
    destruct (Nat.leb_spec (capacity s) (running s)).
    { apply can_admit_spec in Ha as [? _]. lia. }
    destruct (position _ _) as [i|] eqn:Hi.
    + apply position_Some in Hi as (b & k1 & k2 & Hk & <- & Hb & Hk1).
      rewrite Hw in Hk. eapply (first_match_unique (fun w => can_admit s (wscope w)))
        in Hk as (-> & -> & ->); [|done..].
      cbn. rewrite Hw, list_lookup_middle by done. cbn. by rewrite remove_at_app.
    + rewrite position_None in Hi. rewrite Hi in Ha; [done|].
      rewrite Hw, elem_of_app, elem_of_cons. auto.
Qed.

Lemma pop_and_reserve_None s :
  pop_and_reserve s = None <-> forall w, w ∈ s.(waiters) -> can_admit s w.(wscope) = false.
Proof.
  split.
  - intros Hpop w Hw. destruct (can_admit s (wscope w)) eqn:Ha; [|done]. exfalso.
    destruct (position (fun w => can_admit s (wscope w)) (waiters s)) as [i|] eqn:Hi;
      [|rewrite position_None in Hi; by rewrite Hi in Ha].
    apply position_Some in Hi as (a & l1 & l2 & Hl & _ & Ha' & Hl1).
    assert (exists s', pop_and_reserve s = Some (a, s')) as [s' Hs]; [|congruence].
    eexists. apply pop_and_reserve_Some. eauto 10.
  - intros H. destruct (pop_and_reserve s) as [[w s']|] eqn:Hpop; [|done].
    apply pop_and_reserve_Some in Hpop as (l1 & l2 & Hl & Ha & _).
    rewrite H in Ha; [done|]. rewrite Hl, elem_of_app, elem_of_cons. auto.
Qed.

#[export] Hint Resolve accounts_new accounts_admit accounts_release : perp.

Module Invariant.
Import Concurrent.

(** ** The controller's invariant *)

Definition send_ids (ds : list drain) : list Z :=
  ds ≫= fun d => match d with DSend w => [w.(wid)] | _ => [] end.

(** Ids that stand for one grant to come: queued, being sent, or delivered. *)
Definition tickets (c : Config) : list Z :=
  (wid <$> c.(st).(waiters)) ++ send_ids c.(drains) ++ (map_to_list c.(inbox)).*1.

(** [n] bounds the ids handed out so far. *)
Record Inv (n : Z) (c : Config) : Prop := {
  inv_accounts : accounts c.(st) (permits c);
  inv_capacity : (1 <= c.(st).(capacity))%nat;
  inv_caps : map_Forall (fun _ cap => (1 <= cap)%nat) c.(st).(scope_caps);
  inv_sorted : StronglySorted (fun a b => a.(wid) < b.(wid)) c.(st).(waiters);
  inv_tickets : NoDup (tickets c);
  inv_next : 0 <= c.(st).(next_waiter_id) <= n;
  inv_fresh : forall id, id ∈ tickets c \/ id ∈ dom c.(parked) \/ id ∈ c.(guards) ->
                         0 <= id < c.(st).(next_waiter_id);
  inv_parked : forall id, id ∈ dom c.(parked) -> id ∈ tickets c;
  inv_inbox : dom c.(inbox) ⊆ dom c.(parked);
  inv_guards : forall id, id ∈ c.(guards) -> id ∉ dom c.(parked);
  inv_live : forall id, id ∈ wid <$> c.(st).(waiters) -> id ∈ dom c.(parked) \/ id ∈ c.(guards);
  inv_quiet : c.(drains) = [] -> pop_and_reserve c.(st) = None
}.

Lemma send_ids_perm ds ds' : ds ≡ₚ ds' -> send_ids ds ≡ₚ send_ids ds'.
Proof. intros H. unfold send_ids. by rewrite H. Qed.
Lemma drain_scopes_perm ds ds' : ds ≡ₚ ds' -> drain_scopes ds ≡ₚ drain_scopes ds'.
Proof. intros H. unfold drain_scopes. by rewrite H. Qed.

Lemma elem_of_send_ids id ds : id ∈ send_ids ds <-> exists w, DSend w ∈ ds /\ w.(wid) = id.
Proof.
  unfold send_ids. rewrite list_elem_of_bind. split.
  - intros ([|w|] & Hin & Hd); cbn in *; [by apply elem_of_nil in Hin|..];
      apply list_elem_of_singleton in Hin as -> || by apply elem_of_nil in Hin. eauto.
  - intros (w & Hd & <-). exists (DSend w). split; [by left|done].
Qed.

(** Everything about the queue is kept by a step that leaves it alone. *)
Lemma Inv_same_queue n s s' h h' ib dr dr' ds ds' pk gs :
  Inv n (mkConfig s h ib dr ds pk gs) ->
  s'.(waiters) = s.(waiters) -> s'.(next_waiter_id) = s.(next_waiter_id) ->
  send_ids ds' ≡ₚ send_ids ds ->
  (1 <= s'.(capacity))%nat -> map_Forall (fun _ cap => (1 <= cap)%nat) s'.(scope_caps) ->
  accounts s' (permits (mkConfig s' h' ib dr' ds' pk gs)) ->
  (ds' = [] -> pop_and_reserve s' = None) ->
  Inv n (mkConfig s' h' ib dr' ds' pk gs).
Proof.
  intros [] Hw Hn Hds ????. cbn in *.
  assert (tickets (mkConfig s' h' ib dr' ds' pk gs) ≡ₚ tickets (mkConfig s h ib dr ds pk gs)) as Ht.
  { unfold tickets. cbn. by rewrite Hw, Hds. }
  split; cbn; rewrite ?Hw, ?Hn; try done.
  - by rewrite Ht.
  - intros id. rewrite Ht. auto.
  - intros id. rewrite Ht. auto.
Qed.

Lemma Inv_init cap : Inv 0 (init cap).
Proof.
  assert (tickets (init cap) = []) as Ht by done.
  assert (forall id, id ∉ dom (parked (init cap))) as Hp by (intros id; cbn; set_solver).
  split.
  - apply accounts_new.
  - cbn. lia.
  - apply map_Forall_empty.
  - constructor.
  - rewrite Ht. constructor.
  - cbn. lia.
  - intros id. rewrite Ht. intros [?%elem_of_nil|[?%Hp|?%elem_of_nil]]; done.
  - by intros id ?%Hp.
  - done.
  - by intros id ?%elem_of_nil.
  - by intros id ?%elem_of_nil.
  - intros _. apply pop_and_reserve_None. by intros ? ?%elem_of_nil.
Qed.

Lemma pop_admit_None s x : pop_and_reserve s = None -> pop_and_reserve (admit_slot s x) = None.
Proof.
  rewrite !pop_and_reserve_None. cbn. intros H w Hw. specialize (H w Hw).
  destruct (can_admit (admit_slot s x) (wscope w)) eqn:Ha; [|done].
  apply can_admit_anti in Ha. congruence.
Qed.

Lemma Inv_admit n s h ib dr ds pk gs x :
  Inv n (mkConfig s h ib dr ds pk gs) -> can_admit s x = true ->
  Inv n (mkConfig (admit_slot s x) (x :: h) ib dr ds pk gs).
Proof.
  intros HI Ha. destruct (HI).
  eapply Inv_same_queue; try done.
  - by apply (accounts_admit _ x) in inv_accounts0.
  - intros ->. apply pop_admit_None. auto.
Qed.

(** A release (or any change of caps) starts a drain. *)
Lemma Inv_restart n s s' h h' ib dr dr' ds pk gs :
  Inv n (mkConfig s h ib dr ds pk gs) ->
  s'.(waiters) = s.(waiters) -> s'.(next_waiter_id) = s.(next_waiter_id) ->
  (1 <= s'.(capacity))%nat -> map_Forall (fun _ cap => (1 <= cap)%nat) s'.(scope_caps) ->
  accounts s' (permits (mkConfig s h' ib dr' ds pk gs)) ->
  Inv n (mkConfig s' h' ib dr' (DLoop :: ds) pk gs).
Proof. intros. eapply Inv_same_queue; try done. Qed.

(** Tickets after the parts of a configuration move. *)
Lemma tickets_elem c id :
  id ∈ tickets c <->
  id ∈ wid <$> c.(st).(waiters) \/ id ∈ send_ids c.(drains) \/ id ∈ dom c.(inbox).
Proof.
  unfold tickets. rewrite !elem_of_app. do 2 apply or_iff_compat_l.
  rewrite list_elem_of_fmap, elem_of_dom. split.
  - intros ([i x] & -> & Hx%elem_of_map_to_list). by exists x.
  - intros [x Hx]. exists (id, x). split; [done|]. by apply elem_of_map_to_list.
Qed.

Lemma inbox_fresh n c id :
  Inv n c -> id ∈ send_ids c.(drains) -> c.(inbox) !! id = None.
Proof.
  intros HI Hs. pose proof (inv_tickets _ _ HI) as Hnd. unfold tickets in Hnd.
  apply NoDup_app in Hnd as (_ & _ & (_ & Hd & _)%NoDup_app).
  destruct (inbox c !! id) as [x|] eqn:Hx; [|done].
  exfalso. apply (Hd id Hs). apply list_elem_of_fmap. exists (id, x).
  split; [done|]. by apply elem_of_map_to_list.
Qed.

Lemma Inv_enqueue n s s' h ib dr ds pk gs scope id :
  Inv n (mkConfig s h ib dr ds pk gs) -> n + 1 < 2 ^ 64 ->
  acquire_locked s scope = inr (s', id) ->
  Inv (n + 1) (mkConfig s' h ib dr ds (<[id := scope]> pk) gs).
Proof.
  intros HI Hn Hacq. destruct HI; cbn in *.
  unfold acquire_locked in Hacq. destruct (can_admit s scope) eqn:Ha; simplify_eq.
  assert (u64_wrapping_add (next_waiter_id s) 1 = next_waiter_id s + 1) as Hw.
  { apply u64_wrapping_add_small; unfold is_u64, u64_max; lia. }
  set (id := next_waiter_id s) in *.
  assert (tickets (mkConfig (mkState (running s) (capacity s) (per_scope s) (scope_caps s)
            (waiters s ++ [mkWaiter id scope]) (u64_wrapping_add id 1)) h ib dr ds
            (<[id := scope]> pk) gs)
          ≡ₚ id :: tickets (mkConfig s h ib dr ds pk gs)) as Ht.
  { unfold tickets. cbn. rewrite fmap_app. cbn. solve_perm. }
  split; cbn; rewrite ?Hw; try done.
  - apply StronglySorted_app_2; [|done|repeat constructor].
    intros a b Hin ->%list_elem_of_singleton. cbn.
    apply inv_fresh0. left. apply tickets_elem. left. cbn. by apply list_elem_of_fmap_2.
  - rewrite Ht. constructor; [|done]. intros Hin.
    assert (0 <= id < id); [|lia]. apply inv_fresh0. by left.
  - lia.
  - intros i. rewrite Ht, dom_insert_L, elem_of_cons, elem_of_union, elem_of_singleton.
    destruct (decide (i = id)) as [->|]; [lia|]. intros Hi.
    assert (0 <= i < id); [|lia]. apply inv_fresh0. naive_solver.
  - intros i. rewrite Ht, dom_insert_L, elem_of_cons, elem_of_union, elem_of_singleton.
    naive_solver.
  - set_solver.
  - intros i Hi. rewrite dom_insert_L, not_elem_of_union, not_elem_of_singleton.
    split; [|auto]. intros ->. assert (0 <= id < id); [|lia]. apply inv_fresh0. auto.
  - intros i. rewrite fmap_app, elem_of_app, dom_insert_L, elem_of_union, elem_of_singleton.
    cbn. rewrite list_elem_of_singleton. naive_solver.
  - rewrite !pop_and_reserve_None in *. cbn. intros Hds w [Hin| ->%list_elem_of_singleton]%elem_of_app.
    + by apply inv_quiet0.
    + done.
Qed.

(** A delivered permit reaches its future. *)
Lemma Inv_receive n s h ib dr ds pk gs id scope :
  Inv n (mkConfig s h ib dr ds pk gs) -> ib !! id = Some scope ->
  Inv n (mkConfig s (scope :: h) (delete id ib) dr ds (delete id pk) gs).
Proof.
  intros HI Hib. destruct HI; cbn in *.
  pose proof (map_to_list_delete _ _ _ Hib) as Hl.
  assert (tickets (mkConfig s h ib dr ds pk gs)
          ≡ₚ id :: tickets (mkConfig s (scope :: h) (delete id ib) dr ds (delete id pk) gs)) as Ht.
  { unfold tickets. cbn. rewrite <- Hl. cbn. solve_perm. }
  rewrite Ht in inv_tickets0. apply NoDup_cons in inv_tickets0 as [Hid Hnd].
  split; cbn; try done.
  - eapply accounts_Proper; [|exact inv_accounts0]. unfold permits. cbn. rewrite <- Hl. cbn. solve_perm.
  - intros i Hi. apply inv_fresh0. rewrite Ht, elem_of_cons. rewrite dom_delete_L in Hi. set_solver.
  - intros i. rewrite dom_delete_L. intros [Hi Hne]%elem_of_difference. apply inv_parked0 in Hi.
    rewrite Ht, elem_of_cons in Hi. set_solver.
  - set_solver.
  - set_solver.
  - intros i Hi. destruct (inv_live0 i Hi) as [|]; [|by right]. left.
    rewrite dom_delete_L. apply elem_of_difference. split; [done|].
    intros ->%elem_of_singleton. apply Hid. apply tickets_elem. by left.
Qed.

(** A waiting future is dropped. *)
Lemma Inv_cancel n s h ib dr ds pk gs id sc :
  Inv n (mkConfig s h ib dr ds pk gs) -> pk !! id = Some sc ->
  Inv n (mkConfig s h (delete id ib) (option_list (ib !! id) ++ dr) ds (delete id pk) (id :: gs)).
Proof.
  intros HI Hpk. destruct HI; cbn in *.
  assert (tickets (mkConfig s h ib dr ds pk gs)
          ≡ₚ (fst <$> (pair id <$> option_list (ib !! id))) ++ tickets (mkConfig s h (delete id ib) (option_list (ib !! id) ++ dr) ds (delete id pk) (id :: gs))) as Ht.
  { unfold tickets. cbn. destruct (ib !! id) as [x|] eqn:Hx; cbn.
    - rewrite <- (map_to_list_delete _ _ _ Hx). cbn. solve_perm.
    - by rewrite delete_id. }
  assert (forall i, i ∈ fst <$> (pair id <$> option_list (ib !! id)) -> i = id) as Hone.
  { intros i. destruct (ib !! id); cbn; [by intros ->%list_elem_of_singleton|by intros ?%elem_of_nil]. }
  rewrite Ht in inv_tickets0. apply NoDup_app in inv_tickets0 as (_ & Hid & Hnd).
  assert (id ∈ dom pk) by (apply elem_of_dom; eauto).
  split; cbn; try done.
  - eapply accounts_Proper; [|exact inv_accounts0]. unfold permits. cbn.
    destruct (ib !! id) as [x|] eqn:Hx; cbn.
    + rewrite <- (map_to_list_delete _ _ _ Hx). cbn. solve_perm.
    + by rewrite delete_id.
  - intros i Hi. apply inv_fresh0. rewrite Ht, elem_of_app. rewrite dom_delete_L in Hi. set_solver.
  - intros i. rewrite dom_delete_L. intros [Hi Hne]%elem_of_difference. apply inv_parked0 in Hi.
    rewrite Ht, elem_of_app in Hi. destruct Hi as [->%Hone|]; set_solver.
  - set_solver.
  - intros i [->|Hi]%elem_of_cons; set_solver.
  - intros i Hi. rewrite elem_of_cons. destruct (decide (i = id)); [auto|].
    destruct (inv_live0 i Hi); set_solver.
Qed.

(** The queue keeps its order when entries leave it. *)
Lemma StronglySorted_skip {A} (R : relation A) l1 a l2 :
  StronglySorted R (l1 ++ a :: l2) -> StronglySorted R (l1 ++ l2).
Proof.
  rewrite !StronglySorted_app. intros (H1 & H2 & H3). inversion H3; subst.
  split_and!; [|done|done]. intros x y ??. apply H1; [done|]. by right.
Qed.

Lemma guard_drop_split s id :
  guard_drop s id = s /\ id ∉ wid <$> s.(waiters) \/
  exists l1 w l2, s.(waiters) = l1 ++ w :: l2 /\ w.(wid) = id /\
                  guard_drop s id = set_waiters s (l1 ++ l2).
Proof.
  unfold guard_drop. destruct (position _ _) as [i|] eqn:Hi; [right|left].
  - apply position_Some in Hi as (a & l1 & l2 & Hl & <- & Ha%bool_decide_eq_true & _).
    exists l1, a, l2. rewrite Hl, remove_at_app. done.
  - split; [done|]. rewrite position_None in Hi.
    intros (w & -> & Hw)%list_elem_of_fmap. specialize (Hi w Hw). by apply bool_decide_eq_false in Hi.
Qed.

Lemma Inv_guard n s h ib dr ds pk gs gs' id :
  Inv n (mkConfig s h ib dr ds pk gs) -> gs ≡ₚ id :: gs' ->
  Inv n (mkConfig (guard_drop s id) h ib dr ds pk gs').
Proof.
  intros HI Hgs. destruct HI; cbn in *.
  assert (forall i, i ∈ gs <-> i = id \/ i ∈ gs') as Hin by (intros i; by rewrite Hgs, elem_of_cons).
  assert (id ∉ dom pk) as Hpk by (apply inv_guards0, Hin; by left).
  destruct (guard_drop_split s id) as [[-> Hq]|(l1 & w & l2 & Hw & Hid & ->)].
  - split; cbn; try done; intros i.
    + rewrite (tickets_elem (mkConfig _ _ _ _ _ _ _)) in *. intros Hi. apply inv_fresh0.
      rewrite tickets_elem. set_solver.
    + intros Hi. apply inv_guards0, Hin. by right.
    + intros Hi. destruct (inv_live0 i Hi) as [|[->|]%Hin]; auto. done.
  - assert (tickets (mkConfig s h ib dr ds pk gs)
      ≡ₚ id :: tickets (mkConfig (set_waiters s (l1 ++ l2)) h ib dr ds pk gs')) as Ht.
    { unfold tickets. cbn. rewrite Hw, !fmap_app, fmap_cons, Hid. solve_perm. }
    rewrite Ht in inv_tickets0. apply NoDup_cons in inv_tickets0 as [Hidt Hnd].
    split; cbn; try done.
    + rewrite Hw in inv_sorted0. by eapply StronglySorted_skip.
    + intros i Hi. apply inv_fresh0. rewrite Ht, elem_of_cons, Hin. naive_solver.
    + intros i Hi. specialize (inv_parked0 i Hi). rewrite Ht in inv_parked0.
      apply elem_of_cons in inv_parked0 as [->|]; done.
    + intros i Hi. apply inv_guards0, Hin. by right.
    + intros i Hi. destruct (inv_live0 i) as [|[->|]%Hin]; auto.
      * rewrite Hw, fmap_app, fmap_cons. rewrite fmap_app in Hi. set_solver.
      * exfalso. apply Hidt, tickets_elem. by left.
    + intros Hds. specialize (inv_quiet0 Hds). rewrite pop_and_reserve_None in *. cbn.
      intros x Hx. apply inv_quiet0. rewrite Hw. set_solver.
Qed.

Lemma Inv_pop n s s' h ib dr ds ds' pk gs w :
  Inv n (mkConfig s h ib dr ds pk gs) -> ds ≡ₚ DLoop :: ds' ->
  pop_and_reserve s = Some (w, s') ->
  Inv n (mkConfig s' h ib dr (DSend w :: ds') pk gs).
Proof.
  intros HI Hds (l1 & l2 & Hw & Ha & _ & ->)%pop_and_reserve_Some. destruct HI; cbn in *.
  assert (tickets (mkConfig (admit_slot (set_waiters s (l1 ++ l2)) (wscope w)) h ib dr
            (DSend w :: ds') pk gs) ≡ₚ tickets (mkConfig s h ib dr ds pk gs)) as Ht.
  { unfold tickets. cbn. rewrite Hds, Hw, !fmap_app, fmap_cons. cbn. solve_perm. }
  split; cbn; try done.
  - eapply accounts_Proper; [|apply (accounts_admit _ (wscope w)), (accounts_counters s); [done|done|exact inv_accounts0]].
    unfold permits. cbn. rewrite (drain_scopes_perm _ _ Hds). cbn. solve_perm.
  - rewrite Hw in inv_sorted0. by eapply StronglySorted_skip.
  - by rewrite Ht.
  - intros i. rewrite Ht. auto.
  - intros i. rewrite Ht. auto.
  - intros i Hi. apply inv_live0. rewrite Hw. rewrite fmap_app in Hi. rewrite fmap_app, fmap_cons.
    set_solver.
Qed.

Lemma Inv_sent n s h ib dr ds ds' pk gs w sc :
  Inv n (mkConfig s h ib dr ds pk gs) -> ds ≡ₚ DSend w :: ds' -> pk !! w.(wid) = Some sc ->
  Inv n (mkConfig s h (<[w.(wid) := w.(wscope)]> ib) dr (DLoop :: ds') pk gs).
Proof.
  intros HI Hds Hpk.
  assert (ib !! wid w = None) as Hib.
  { apply (inbox_fresh _ _ _ HI). cbn. rewrite Hds. by left. }
  destruct HI; cbn in *.
  pose proof (map_to_list_insert ib (wid w) (wscope w) Hib) as Hl.
  assert (tickets (mkConfig s h (<[wid w:=wscope w]> ib) dr (DLoop :: ds') pk gs)
          ≡ₚ tickets (mkConfig s h ib dr ds pk gs)) as Ht.
  { unfold tickets. cbn. rewrite Hds, Hl. cbn. solve_perm. }
  split; cbn; try done.
  - eapply accounts_Proper; [|exact inv_accounts0]. unfold permits. cbn.
    rewrite (drain_scopes_perm _ _ Hds), Hl. cbn. solve_perm.
  - by rewrite Ht.
  - intros i. rewrite Ht. auto.
  - intros i. rewrite Ht. auto.
  - rewrite dom_insert_L. apply union_subseteq. split; [|done].
    apply singleton_subseteq_l, elem_of_dom. eauto.
Qed.

(** The receiver is gone: the drain keeps the permit, to undo it. *)
Lemma Inv_unsent n s h ib dr ds ds' pk gs w :
  Inv n (mkConfig s h ib dr ds pk gs) -> ds ≡ₚ DSend w :: ds' -> pk !! w.(wid) = None ->
  Inv n (mkConfig s h ib dr (DUndo w.(wscope) :: ds') pk gs).
Proof.
  intros HI Hds Hpk. destruct HI; cbn in *.
  assert (tickets (mkConfig s h ib dr ds pk gs)
          ≡ₚ w.(wid) :: tickets (mkConfig s h ib dr (DUndo w.(wscope) :: ds') pk gs)) as Ht.
  { unfold tickets. cbn. rewrite Hds. cbn. solve_perm. }
  rewrite Ht in inv_tickets0. apply NoDup_cons in inv_tickets0 as [Hid Hnd].
  split; cbn; try done.
  - eapply accounts_Proper; [|exact inv_accounts0]. unfold permits. cbn.
    rewrite (drain_scopes_perm _ _ Hds). cbn. solve_perm.
  - intros i. intros Hi. apply inv_fresh0. rewrite Ht, elem_of_cons. naive_solver.
  - intros i Hi. specialize (inv_parked0 i Hi). rewrite Ht in inv_parked0.
    apply elem_of_cons in inv_parked0 as [->|]; [|done].
    apply elem_of_dom in Hi as [? ?]. congruence.
Qed.

(** The "sender lost" arm of [acquire_queued] never runs: a parked future is
    queued, about to be sent to, or has its permit. *)
Lemma no_sender_lost n s h ib dr ds pk gs id sc :
  Inv n (mkConfig s h ib dr ds pk gs) -> pk !! id = Some sc -> ib !! id = None ->
  (forall w, w ∈ s.(waiters) -> w.(wid) <> id) ->
  (forall w, DSend w ∈ ds -> w.(wid) <> id) -> False.
Proof.
  intros HI Hpk Hib Hq Hd.
  assert (id ∈ dom pk) as Hin by (apply elem_of_dom; eauto).
  apply (inv_parked _ _ HI) in Hin. apply tickets_elem in Hin as [Hin|[Hin|Hin]]; cbn in *.
  - apply list_elem_of_fmap in Hin as (w & -> & Hw). by apply (Hq w).
  - apply elem_of_send_ids in Hin as (w & Hw & Hid). by apply (Hd w).
  - apply elem_of_dom in Hin as [? ?]. congruence.
Qed.

Lemma Inv_weaken n c : Inv n c -> Inv (n + 1) c.
Proof. intros []. split; try done. lia. Qed.

#[export] Hint Resolve Inv_weaken Inv_admit Inv_receive Inv_cancel Inv_guard Inv_pop Inv_sent Inv_unsent : perp.

Lemma Inv_step n c c' : n + 1 < 2 ^ 64 -> Inv n c -> step c c' -> Inv (n + 1) c'.
Proof.
  intros Hn HI Hstep. pose proof (Inv_weaken _ _ HI) as HW.
  destruct Hstep; eauto with perp.
  - by eapply Inv_enqueue.
  - exfalso. by eapply no_sender_lost.
  - exfalso. by eapply no_sender_lost.
  - eapply Inv_restart; try done; try apply HW. apply accounts_release.
    eapply accounts_Proper; [|exact (inv_accounts _ _ HW)]. unfold permits. cbn.
    match goal with H : h ≡ₚ _ |- _ => rewrite H end. solve_perm.
  - eapply Inv_restart; try done; try apply HW. apply accounts_release.
    eapply accounts_Proper; [|exact (inv_accounts _ _ HW)]. unfold permits. cbn.
    match goal with H : dr ≡ₚ _ |- _ => rewrite H end. solve_perm.
  - eapply Inv_restart; try done; try apply HW; cbn; lia.
  - eapply Inv_restart; try done; try apply HW.
    cbn. destruct cap as [cap|]; [|apply map_Forall_delete; apply HW].
    apply map_Forall_insert_2; [cbn; lia|apply HW].
  - eapply Inv_same_queue; try done; try apply HW.
    + match goal with H : ds ≡ₚ _ |- _ => by rewrite (send_ids_perm _ _ H) end.
    + eapply accounts_Proper; [|exact (inv_accounts _ _ HW)]. unfold permits. cbn.
      match goal with H : ds ≡ₚ _ |- _ => rewrite (drain_scopes_perm _ _ H) end. solve_perm.
  - eapply Inv_same_queue; try done; try apply HW.
    + match goal with H : ds ≡ₚ _ |- _ => rewrite (send_ids_perm _ _ H) end. done.
    + apply accounts_release. eapply accounts_Proper; [|exact (inv_accounts _ _ HW)]. unfold permits. cbn.
      match goal with H : ds ≡ₚ _ |- _ => rewrite (drain_scopes_perm _ _ H) end. cbn. solve_perm.
Qed.

(** [c] is reached from a fresh controller in [n] critical sections; ids are
    [u64] counters, so fewer than 2^64 of them. *)
Definition reachable (cap n : nat) (c : Config) : Prop :=
  nsteps step n (init cap) c /\ Z.of_nat n < 2 ^ 64.

Lemma reachable_Inv cap n c : reachable cap n c -> Inv (Z.of_nat n) c.
Proof.
  intros [Hs Hn].
  assert (forall m i c0 c1, nsteps step m c0 c1 -> Z.of_nat (i + m) < 2 ^ 64 ->
            Inv (Z.of_nat i) c0 -> Inv (Z.of_nat (i + m)) c1) as H.
  { clear. intros m. induction m as [|m IH]; intros i c0 c1 Hs Hb HI.
    - inversion Hs; subst. by rewrite Nat.add_0_r.
    - inversion Hs; subst. rewrite <- Nat.add_succ_comm in *. eapply IH; [done|done|].
      rewrite Nat2Z.inj_succ. eapply Inv_step; [lia|done|done]. }
  apply (H n 0%nat (init cap) c Hs); [done|]. apply Inv_init.
Qed.

End Invariant.

Module Properties.
Import Concurrent Invariant.

Lemma reach_inv cap n c : reachable cap n c -> Inv (Z.of_nat n) c.
Proof. apply reachable_Inv. Qed.

(** C36: in every state any interleaving of acquires, cancellations, drops,
    resizes and drains can reach, the slot counters are exactly the permits in
    existence (held by a caller, in a channel, or in a drain's hands), in total
    and per scope, and no scope keeps a zero entry. *)
Theorem slots_exact cap n c :
  reachable cap n c ->
  c.(st).(running) = length (permits c) /\
  (forall sc, scope_running c.(st) sc = count_scope sc (permits c)) /\
  (forall sc, c.(st).(per_scope) !! sc <> Some 0%nat).
Proof. intros H. exact (inv_accounts _ _ (reach_inv _ _ _ H)). Qed.

(** nobody waits for a slot that is free: once no [drain_waiters] call is in
    flight, no queued waiter is admissible. *)
Theorem work_conserving cap n c :
  reachable cap n c -> c.(drains) = [] ->
  forall w, w ∈ c.(st).(waiters) -> can_admit c.(st) w.(wscope) = false.
Proof.
  intros H Hd. apply pop_and_reserve_None. exact (inv_quiet _ _ (reach_inv _ _ _ H) Hd).
Qed.

(** a parked future is represented exactly once (queued, about to be sent
    its permit, or its permit delivered), so the "sender lost" arm of
    [acquire_queued] is dead code. *)
Theorem waiter_never_lost cap n c id :
  reachable cap n c -> id ∈ dom c.(parked) ->
  NoDup (tickets c) /\
  (id ∈ wid <$> c.(st).(waiters) \/ id ∈ send_ids c.(drains) \/ id ∈ dom c.(inbox)).
Proof.
  intros H%reach_inv Hid. split; [apply H|]. apply tickets_elem. by apply H.
Qed.

(** abandoned calls leak nothing: when every future has finished or its
    guard has run, and every permit is dropped, the controller is empty: zero
    running, no scope entry, no queued waiter. *)
Theorem quiescent_empty cap n c :
  reachable cap n c ->
  c.(held) = [] -> c.(dropping) = [] -> c.(drains) = [] -> c.(parked) = ∅ -> c.(guards) = [] ->
  c.(st).(running) = 0%nat /\ c.(st).(per_scope) = ∅ /\ c.(st).(waiters) = [].
Proof.
  intros H%reach_inv Hh Hdr Hds Hp Hg. destruct H.
  assert (permits c = []) as Hpm.
  { unfold permits. rewrite Hh, Hdr, Hds. cbn. rewrite app_nil_r.
    assert (inbox c = ∅) as ->; [|done]. apply dom_empty_inv_L.
    rewrite Hp, dom_empty_L in inv_inbox0. clear -inv_inbox0. set_solver. }
  rewrite Hpm in inv_accounts0. destruct inv_accounts0 as (Hr & Hc & Hz). split_and!; [done| |].
  - apply map_empty. intros sc. specialize (Hc sc). specialize (Hz sc). unfold scope_running in Hc.
    destruct (per_scope (st c) !! sc) as [[|k]|]; [done| |done]. discriminate.
  - destruct (waiters (st c)) as [|w ws]; [done|]. exfalso.
    destruct (inv_live0 (wid w)) as [Hi|Hi]; [by left| |].
    + rewrite Hp, dom_empty_L in Hi. by apply elem_of_empty in Hi.
    + rewrite Hg in Hi. by apply elem_of_nil in Hi.
Qed.

(** One admission stays within the caps. *)
Lemma admit_within s x :
  can_admit s x = true ->
  ((s.(running) < (admit_slot s x).(running))%nat ->
   ((admit_slot s x).(running) <= (admit_slot s x).(capacity))%nat) /\
  (forall sc cap, (scope_running s sc < scope_running (admit_slot s x) sc)%nat ->
     (admit_slot s x).(scope_caps) !! sc = Some cap ->
     (scope_running (admit_slot s x) sc <= cap)%nat).
Proof.
  intros [Hr Hs]%can_admit_spec. split; [cbn; lia|]. intros sc cap Hlt Hcap.
  specialize (Hs sc cap). unfold scope_running in *. destruct x as [sc'|]; cbn in *; [|lia].
  rewrite lookup_insert in *. case_decide; simplify_eq/=; [|lia].
  unfold scope_running in *. specialize (Hs eq_refl Hcap). lia.
Qed.

Lemma release_le s x sc : (scope_running (release s x) sc <= scope_running s sc)%nat.
Proof.
  unfold scope_running. destruct x as [sc'|]; [|done]. rewrite release_lookup.
  case_decide; [|done]. destruct (per_scope s !! sc) as [k|]; [|done].
  case_decide; cbn; lia.
Qed.

Lemma acquire_locked_inl s x s' :
  acquire_locked s x = inl s' -> can_admit s x = true /\ s' = admit_slot s x.
Proof. unfold acquire_locked. destruct (can_admit s x); naive_solver. Qed.

(** A step either admits one task into [c]'s counters or raises none of them. *)
Lemma step_counts c c' :
  step c c' ->
  ((c'.(st).(running) <= c.(st).(running))%nat /\
   forall sc, (scope_running c'.(st) sc <= scope_running c.(st) sc)%nat) \/
  exists s x, can_admit s x = true /\ s.(running) = c.(st).(running) /\
    c'.(st) = admit_slot s x /\ s.(per_scope) = c.(st).(per_scope) /\
    s.(scope_caps) = c.(st).(scope_caps).
Proof.
  assert (forall s, (running s <= running s)%nat /\ forall sc, (scope_running s sc <= scope_running s sc)%nat)
    as Hrefl by (intros s; split; done).
  assert (forall s x, (running (release s x) <= running s)%nat /\
    forall sc, (scope_running (release s x) sc <= scope_running s sc)%nat) as Hrel.
  { intros s x. split; [cbn; lia|]. intros sc. apply release_le. }
  intros Hstep. destruct Hstep; cbn [st]; eauto;
    try match goal with H : acquire_locked _ _ = _ |- _ => rename H into Hacq end;
    try match goal with H : pop_and_reserve _ = Some _ |- _ => rename H into Hpop end.
  - right. exists s, scope. done.
  - left. unfold acquire_locked in Hacq. destruct (can_admit _ _); by simplify_eq.
  - right. apply acquire_locked_inl in Hacq as [? ->]. by exists s, sc.
  - left. unfold acquire_locked in Hacq. destruct (can_admit _ _); by simplify_eq.
  - left. destruct (guard_drop_split s id) as [[-> _]|(? & ? & ? & _ & _ & ->)]; exact (Hrefl s).
  - right. apply pop_and_reserve_Some in Hpop as (l1 & l2 & _ & Ha & _ & ->).
    exists (set_waiters s (l1 ++ l2)), (wscope w). done.
Qed.

(** no step admits past a cap: if a step raises the number of running tasks
    (or of one scope) then the result respects the global (or that scope's) cap;
    lowering a cap evicts nobody. *)
Theorem cap_respected c c' :
  step c c' ->
  ((c.(st).(running) < c'.(st).(running))%nat ->
   (c'.(st).(running) <= c'.(st).(capacity))%nat) /\
  (forall sc cap, (scope_running c.(st) sc < scope_running c'.(st) sc)%nat ->
     c'.(st).(scope_caps) !! sc = Some cap -> (scope_running c'.(st) sc <= cap)%nat).
Proof.
  intros Hstep. apply step_counts in Hstep as [Hle|(s & x & Ha & Hr & Hc & Hp & Hs)].
  - destruct Hle as [Hr Hs]. split; [lia|]. intros sc ?. specialize (Hs sc). lia.
  - destruct (admit_within s x Ha) as [H1 H2]. unfold scope_running in *.
    rewrite Hc, <- Hr, <- Hp. split; [exact H1|exact H2].
Qed.

(** the queue is served first-come first-served among the waiters whose
    scope has room: the drain pops the admissible waiter with the smallest
    ticket, and every earlier one is blocked by a cap. *)
Theorem pop_is_fifo cap n c w s' :
  reachable cap n c -> pop_and_reserve c.(st) = Some (w, s') ->
  w ∈ c.(st).(waiters) /\ can_admit c.(st) w.(wscope) = true /\
  forall x, x ∈ c.(st).(waiters) ->
    (x.(wid) < w.(wid) -> can_admit c.(st) x.(wscope) = false) /\
    (x.(wid) = w.(wid) -> x = w).
Proof.
  intros H%reach_inv (l1 & l2 & Hw & Ha & Hl1 & _)%pop_and_reserve_Some.
  pose proof (inv_sorted _ _ H) as Hs. rewrite Hw in Hs |- *.
  apply StronglySorted_app in Hs as (H12 & _ & Hs2). inversion_clear Hs2 as [|?? _ Hf].
  rewrite Forall_forall in Hf.
  split_and!; [rewrite elem_of_app, elem_of_cons; auto|done|].
  intros x [Hx|[->|Hx]%elem_of_cons]%elem_of_app.
  - split; [auto|]. assert (wid x < wid w); [|lia]. apply H12; [done|by left].
  - split; [lia|done].
  - specialize (Hf x Hx). split; lia.
Qed.

(** Permits put in the channels of the waiters [ws]. *)
Definition deliver (ws : list Waiter) (ib : gmap Z (option string)) : gmap Z (option string) :=
  foldl (fun ib w => <[w.(wid) := w.(wscope)]> ib) ib ws.

Lemma pop_shrinks s w s' :
  pop_and_reserve s = Some (w, s') -> length s.(waiters) = S (length s'.(waiters)).
Proof.
  intros (l1 & l2 & -> & _ & _ & ->)%pop_and_reserve_Some. cbn. rewrite !length_app. cbn. lia.
Qed.

Lemma drain_fuel_run pk fuel s h ib dr ds gs :
  (length s.(waiters) < fuel)%nat ->
  let '(s', given) := drain_fuel fuel (fun id => bool_decide (is_Some (pk !! id))) s in
  rtc step (mkConfig s h ib dr (DLoop :: ds) pk gs)
           (mkConfig s' h (deliver given ib) dr ds pk gs) /\
  pop_and_reserve s' = None.
Proof.
  revert s ib. induction fuel as [|fuel IH]; intros s ib Hf; [lia|]. cbn.
  destruct (pop_and_reserve s) as [[w s']|] eqn:Hpop; cbn.
  - pose proof (pop_shrinks _ _ _ Hpop) as Hlen. case_bool_decide as Hal; cbn in *.
    + destruct Hal as [sc Hal]. specialize (IH s' (<[wid w := wscope w]> ib) ltac:(lia)).
      destruct (drain_fuel fuel _ s') as [s'' given]. destruct IH as [IH ?]. split; [|done].
      eapply rtc_l; [by eapply step_drain_pop|]. eapply rtc_l; [by eapply step_drain_sent|]. done.
    + specialize (IH (release s' (wscope w)) ib ltac:(cbn; lia)).
      destruct (drain_fuel fuel _ _) as [s'' given]. destruct IH as [IH ?]. split; [|done].
      eapply rtc_l; [by eapply step_drain_pop|].
      eapply rtc_l; [eapply step_drain_unsent; [done|by apply eq_None_not_Some]|].
      eapply rtc_l; [by eapply step_drain_undo|]. done.
  - split; [|done]. apply rtc_once. by eapply step_drain_end.
Qed.

(** [drain_waiters] run by one thread terminates, is an execution of the
    interleaving semantics in which each live popped waiter finds its permit in
    its channel, and leaves no admissible waiter behind. *)
Theorem drain_waiters_refines s h ib dr ds pk gs :
  exists s' given,
    drain_waiters (fun id => bool_decide (is_Some (pk !! id))) s = (s', given) /\
    rtc step (mkConfig s h ib dr (DLoop :: ds) pk gs)
             (mkConfig s' h (deliver given ib) dr ds pk gs) /\
    (forall w, w ∈ s'.(waiters) -> can_admit s' w.(wscope) = false).
Proof.
  pose proof (drain_fuel_run pk (S (length (waiters s))) s h ib dr ds gs ltac:(lia)) as H.
  unfold drain_waiters. destruct (drain_fuel _ _ _) as [s' given]. destruct H as [H Hp].
  exists s', given. split_and!; [done..|]. by apply pop_and_reserve_None.
Qed.

(** *** Instances: one slot, a holder and two waiters, the first one scoped *)

Definition one_slot : State := new 1.
Definition busy : Config :=
  mkConfig (mkState 1 1 ∅ ∅ [mkWaiter 0 (Some "t"%string); mkWaiter 1 None] 2)
    [None] ∅ [] [] (<[1 := None]> (<[0 := Some "t"%string]> ∅)) [].

Lemma busy_reachable : reachable 1 3 busy.
Proof.
  split; [|lia]. eapply nsteps_l; [by apply (step_acquire _ _ _ _ _ _ _ None)|].
  eapply nsteps_l; [by eapply (step_enqueue _ _ _ _ _ _ _ _ (Some "t"%string))|].
  eapply nsteps_l; [by eapply (step_enqueue _ _ _ _ _ _ _ _ None)|]. apply nsteps_O.
Qed.

(** The holder drops its permit; the drain is about to pop. *)
Definition freed : Config :=
  mkConfig (release busy.(st) None) [] ∅ [] [DLoop] busy.(parked) [].

Lemma freed_step : step busy freed.
Proof. by apply (step_drop_permit _ _ []). Qed.

Lemma freed_reachable : reachable 1 4 freed.
Proof.
  split; [|lia]. eapply nsteps_r; [apply busy_reachable|apply freed_step].
Qed.

Lemma slots_exact_witness :
  reachable 1 4 freed /\ freed.(st).(running) = length (permits freed).
Proof. split; [apply freed_reachable|]. apply (slots_exact 1 4 freed freed_reachable). Defined.

Lemma work_conserving_witness : can_admit busy.(st) (Some "t"%string) = false.
Proof.
  apply (work_conserving 1 3 busy busy_reachable eq_refl (mkWaiter 0 (Some "t"%string))). by left.
Defined.

Lemma waiter_never_lost_witness : NoDup (tickets freed).
Proof.
  apply (waiter_never_lost 1 4 freed 1 freed_reachable). apply elem_of_dom. by exists None.
Defined.

Lemma quiescent_empty_witness : (new 1).(per_scope) = ∅.
Proof.
  apply (quiescent_empty 1 0 (init 1)); [split; [constructor|lia]|done..].
Defined.

Lemma cap_respected_witness :
  step (init 1) (mkConfig (admit_slot (new 1) None) [None] ∅ [] [] ∅ []) /\
  ((admit_slot (new 1) None).(running) <= 1)%nat.
Proof.
  assert (step (init 1) (mkConfig (admit_slot (new 1) None) [None] ∅ [] [] ∅ [])) as H
    by by apply (step_acquire _ _ _ _ _ _ _ None).
  split; [exact H|]. apply (cap_respected _ _ H). cbn. lia.
Defined.

Lemma pop_is_fifo_witness :
  exists w s', pop_and_reserve freed.(st) = Some (w, s') /\ w ∈ freed.(st).(waiters) /\ wid w = 0.
Proof.
  eexists _, _. split; [reflexivity|]. split; [|reflexivity].
  eapply (pop_is_fifo 1 4 freed); [apply freed_reachable|reflexivity].
Defined.

End Properties.
