(* ===== verification/EventBus.v ===== *)
(** * The in-process event bus (crates/am-core/src/bus.rs)

    The bounded replay ring behind the bus's mutex.  [publish] returns the
    sequenced event it broadcasts.  Events are opaque to the bus. *)
From S2P Require Import Prelude.

Definition RING_CAPACITY : Z := 8192.

Section Bus.
Context {AppEvent : Type}.

Record SequencedEvent := mkSeq { seq : Z; event : AppEvent }.

Record RingState := mkRing { next_seq : Z; ring : list SequencedEvent }.

Record EventReplay := mkReplay { complete : bool; latest_seq : Z; events : list SequencedEvent }.

Definition new : RingState := mkRing 0 [].

Definition publish (state : RingState) (ev : AppEvent) : RingState * SequencedEvent :=
  let next := u64_wrapping_add state.(next_seq) 1 in
  let sequenced := mkSeq next ev in
  let kept := if RING_CAPACITY <=? Z.of_nat (length state.(ring)) then tail state.(ring)
              else state.(ring) in
  (mkRing next (kept ++ [sequenced]), sequenced).

Definition replay_since (state : RingState) (since_seq : Z) : EventReplay :=
  let complete := match head state.(ring) with
                  | Some oldest => bool_decide (oldest.(seq) <= u64_wrapping_add since_seq 1)
                  | None => bool_decide (state.(next_seq) = since_seq)
                  end in
  mkReplay complete state.(next_seq) (filter (fun e => since_seq < e.(seq)) state.(ring)).

(** ** Forwarding to one client (crates/am-daemon/src/server.rs, [handle_conn])

    What the forwarding task sends for one answer of its broadcast receiver, and
    its new [last_sent_seq].  [events_v2] is the client's capability. *)
Inductive ServerMessage :=
| EventV2 (e : SequencedEvent)
| Event (e : AppEvent)
| EventGap (missed_from missed_to : Z).

Definition event_msg (events_v2 : bool) (sequenced : SequencedEvent) : ServerMessage :=
  if events_v2 then EventV2 sequenced else Event sequenced.(event).

(** [Ok(sequenced)]. *)
Definition forward_ok (events_v2 : bool) (sequenced : SequencedEvent) : list ServerMessage * Z :=
  ([event_msg events_v2 sequenced], sequenced.(seq)).

(** [Err(RecvError::Lagged(_))]: catch up from the ring of the bus state [state]. *)
Definition forward_lagged (events_v2 : bool) (state : RingState) (last_sent_seq : Z) :
  list ServerMessage * Z :=
  let replay := replay_since state last_sent_seq in
  let gap :=
    if negb replay.(complete) && events_v2 then
      let missed_to := match head replay.(events) with
                       | Some e => u_saturating_sub e.(seq) 1
                       | None => replay.(latest_seq)
                       end in
      [EventGap (u64_wrapping_add last_sent_seq 1) missed_to]
    else [] in
  (gap ++ (event_msg events_v2 <$> replay.(events)),
   match last replay.(events) with Some e => e.(seq) | None => last_sent_seq end).

(** ** Specification: the bus as the sequence of everything ever published *)

Definition run (h : list AppEvent) : RingState := foldl (fun s e => (publish s e).1) new h.

(** The events from position [from] on, each with its number. *)
Fixpoint numbered (from : Z) (h : list AppEvent) : list SequencedEvent :=
  match h with
  | [] => []
  | e :: rest => mkSeq (from + 1) e :: numbered (from + 1) rest
  end.

Lemma numbered_app from h h' :
  numbered from (h ++ h') = numbered from h ++ numbered (from + Z.of_nat (length h)) h'.
Proof.
  revert from. induction h as [|e h IH]; intros from; cbn; [f_equal; lia|].
  rewrite IH. do 3 f_equal. lia.
Qed.

Lemma numbered_length from h : length (numbered from h) = length h.
Proof. revert from. induction h; intros; cbn; auto. Qed.

Lemma numbered_drop from h k :
  drop k (numbered from h) = numbered (from + Z.of_nat k) (drop k h).
Proof.
  revert from k. induction h as [|e h IH]; intros from [|k]; cbn; try done.
  - by rewrite Z.add_0_r.
  - rewrite IH. f_equal. lia.
Qed.

Lemma numbered_above from h : forall e, e ∈ numbered from h -> from < e.(seq) <= from + Z.of_nat (length h).
Proof.
  revert from. induction h as [|a h IH]; intros from e; cbn; [by intros ?%elem_of_nil|].
  intros [->|He]%elem_of_cons; cbn; [lia|]. apply IH in He. lia.
Qed.

(** How many events of a history of [n] have left the ring. *)
Definition dropped (n : nat) : nat := Z.to_nat (Z.of_nat n - RING_CAPACITY).

Lemma tail_drop {A} k (l : list A) : tail (drop k l) = drop (S k) l.
Proof. revert k. induction l as [|a l IH]; intros [|k]; cbn; try done. Qed.

(** The ring is the numbered history cut to its last [RING_CAPACITY] events. *)
Lemma run_spec h :
  Z.of_nat (length h) <= u64_max ->
  run h = mkRing (Z.of_nat (length h)) (drop (dropped (length h)) (numbered 0 h)).
Proof.
  induction h as [|e h IH] using rev_ind; [done|]. rewrite length_app; cbn [length]. intros Hb.
  unfold run. rewrite foldl_app. cbn [foldl]. fold (run h). rewrite IH by lia.
  unfold publish. cbn [fst next_seq ring]. rewrite u64_wrapping_add_small by (unfold is_u64; lia).
  rewrite length_drop, numbered_length, numbered_app. cbn [numbered]. f_equal; [lia|].
  replace (Z.of_nat (length h) + 1) with (0 + Z.of_nat (length h) + 1) by lia.
  unfold dropped, RING_CAPACITY in *. destruct (Z.leb_spec 8192 (Z.of_nat (length h - Z.to_nat (Z.of_nat (length h) - 8192)))).
  - rewrite tail_drop, drop_app_le by (rewrite numbered_length; lia). do 2 f_equal. lia.
  - rewrite drop_app_le by (rewrite numbered_length; lia). do 2 f_equal; lia.
Qed.

(** Filtering consecutive numbers by a bound is dropping a prefix. *)
Lemma filter_numbered_all from h since :
  since <= from -> filter (fun e => since < e.(seq)) (numbered from h) = numbered from h.
Proof.
  intros Hf. apply filter_all. intros e He%numbered_above. lia.
Qed.

Lemma filter_numbered from h k since :
  (k <= length h)%nat -> since = from + Z.of_nat k ->
  filter (fun e => since < e.(seq)) (numbered from h) = numbered since (drop k h).
Proof.
  revert from k. induction h as [|e h IH]; intros from [|k] Hk ->; cbn in Hk; try done; try lia.
  - rewrite Z.add_0_r, filter_numbered_all by lia. done.
  - cbn [numbered]. rewrite filter_cons, decide_False by (cbn; lia).
    cbn [drop]. rewrite (IH _ k); [f_equal; lia|lia|lia].
Qed.

Lemma replay_spec h since :
  Z.of_nat (length h) < u64_max -> (since <= length h)%nat ->
  let r := replay_since (run h) (Z.of_nat since) in
  r.(latest_seq) = Z.of_nat (length h) /\
  (r.(complete) = true <-> Z.of_nat (length h - since) <= RING_CAPACITY) /\
  (r.(complete) = true -> r.(events) = numbered (Z.of_nat since) (drop since h)) /\
  (r.(complete) = false ->
   r.(events) = numbered (Z.of_nat (dropped (length h))) (drop (dropped (length h)) h)).
Proof.
  intros Hb Hs r. subst r. rewrite run_spec by lia. unfold replay_since. cbn [next_seq ring latest_seq complete events].
  rewrite u64_wrapping_add_small by (unfold is_u64; lia).
  set (d := dropped (length h)). assert (Hd : (d <= length h)%nat) by (unfold d, dropped, RING_CAPACITY; lia).
  rewrite !numbered_drop. split; [done|].
  assert (Hc : (match head (numbered (0 + Z.of_nat d) (drop d h)) with
                | Some oldest => bool_decide (seq oldest <= Z.of_nat since + 1)
                | None => bool_decide (Z.of_nat (length h) = Z.of_nat since)
                end = true) <-> (d <= since)%nat).
  { destruct (drop d h) as [|a t] eqn:Ht; cbn; rewrite bool_decide_eq_true; [|lia].
    apply (f_equal length) in Ht. rewrite length_drop in Ht. cbn in Ht. lia. }
  split; [rewrite Hc; unfold d, dropped, RING_CAPACITY; lia|].
  split; intros Hcomp.
  - apply Hc in Hcomp. rewrite (filter_numbered (0 + Z.of_nat d) (drop d h) (since - d)).
    + rewrite drop_drop. replace (d + (since - d))%nat with since by lia. done.
    + rewrite length_drop. lia.
    + lia.
  - assert (~ (d <= since)%nat) as Hnd by (rewrite <- Hc, Hcomp; done).
    rewrite filter_numbered_all by lia. f_equal.
Qed.

(** replay is exact.  After any history of published events, a consumer that
    has processed the first [since] of them gets, when [complete] is set,
    precisely the later ones, each with its number and in order; [complete] is
    set exactly when none of them has left the ring, and otherwise the reply is
    the whole ring. *)
Theorem replay_exact h since :
  Z.of_nat (length h) < u64_max -> (since <= length h)%nat ->
  let r := replay_since (run h) (Z.of_nat since) in
  r.(latest_seq) = Z.of_nat (length h) /\
  (r.(complete) = true <-> Z.of_nat (length h - since) <= RING_CAPACITY) /\
  (r.(complete) = true -> r.(events) = numbered (Z.of_nat since) (drop since h)) /\
  (r.(complete) = false ->
   r.(events) = numbered (Z.of_nat (dropped (length h))) (drop (dropped (length h)) h)).
Proof. apply replay_spec. Qed.

(** sequence numbers are gap-free: the [k]-th event published is broadcast
    with number [k]. *)
Theorem publish_gap_free h e :
  Z.of_nat (length h) < u64_max ->
  (publish (run h) e).2 = mkSeq (Z.of_nat (length h) + 1) e /\
  Z.of_nat (length (publish (run h) e).1.(ring)) <= RING_CAPACITY.
Proof.
  intros Hb. rewrite run_spec by lia. unfold publish. cbn [fst snd next_seq ring].
  rewrite u64_wrapping_add_small by (unfold is_u64; lia). split; [done|].
  rewrite length_app. cbn [length]. unfold dropped, RING_CAPACITY in *.
  destruct (Z.leb_spec 8192 (Z.of_nat (length (drop (Z.to_nat (Z.of_nat (length h) - 8192)) (numbered 0 h)))));
    [rewrite tail_drop|]; rewrite length_drop, numbered_length in *; lia.
Qed.

Lemma numbered_last from h d :
  match last (numbered from h) with Some e => e.(seq) | None => d end =
  match h with [] => d | _ => from + Z.of_nat (length h) end.
Proof.
  revert from d. induction h as [|a h IH]; intros from d; [done|].
  destruct h as [|b h]; [cbn; lia|]. specialize (IH (from + 1) d).
  change (numbered from (a :: b :: h)) with (mkSeq (from + 1) a :: numbered (from + 1) (b :: h)).
  rewrite last_cons. destruct (last (numbered (from + 1) (b :: h))) as [e|] eqn:He;
    [rewrite IH; cbn [length]; lia|].
  apply last_None in He. cbn in He. done.
Qed.

(** lag recovery tells a v2 client everything: a client that has received
    the first [since] of the events published so far is sent all the later ones
    in order, or, when some have left the ring, a gap frame naming exactly the
    numbers it missed followed by all the others; either way it is then current. *)
Theorem lag_recovery_exact h since :
  Z.of_nat (length h) < u64_max -> (since <= length h)%nat ->
  forward_lagged true (run h) (Z.of_nat since) =
  (if decide (dropped (length h) <= since)%nat
   then EventV2 <$> numbered (Z.of_nat since) (drop since h)
   else EventGap (Z.of_nat since + 1) (Z.of_nat (dropped (length h))) ::
        (EventV2 <$> numbered (Z.of_nat (dropped (length h))) (drop (dropped (length h)) h)),
   Z.of_nat (length h)).
Proof.
  intros Hb Hs. pose proof (replay_spec h since Hb Hs) as (Hl & Hc & Ht & Hf).
  unfold forward_lagged. cbn zeta in *. rewrite Hl.
  assert (Hd : (dropped (length h) <= since)%nat <-> Z.of_nat (length h - since) <= RING_CAPACITY)
    by (unfold dropped, RING_CAPACITY; lia).
  destruct (complete _) eqn:Hcomp; cbn [negb andb].
  - rewrite decide_True by (apply Hd, Hc; done). rewrite Ht by done. cbn [app].
    f_equal. rewrite numbered_last. destruct (drop since h) eqn:Hdrop;
      apply (f_equal length) in Hdrop; rewrite length_drop in Hdrop; cbn in *; lia.
  - assert (Hlt : ~ (dropped (length h) <= since)%nat) by (rewrite Hd, <- Hc; done).
    rewrite decide_False, Hf by done.
    rewrite u64_wrapping_add_small by (unfold is_u64; lia). rewrite numbered_last.
    assert (dropped (length h) < length h)%nat by (unfold dropped, RING_CAPACITY in *; lia).
    destruct (drop (dropped (length h)) h) eqn:Hdrop;
      apply (f_equal length) in Hdrop; rewrite length_drop in Hdrop; cbn [length] in *; [lia|].
    cbn. unfold u_saturating_sub. do 2 f_equal; [f_equal; lia|lia].
Qed.

End Bus.

(** *** Instances *)

Lemma replay_exact_witness :
  let r := replay_since (run ["a"; "b"; "c"]%string) 1 in
  r.(complete) = true /\ r.(events) = [mkSeq 2 "b"; mkSeq 3 "c"]%string.
Proof.
  destruct (replay_exact ["a"; "b"; "c"]%string 1%nat ltac:(done) ltac:(cbn; lia)) as (_ & _ & H & _).
  split; [reflexivity|]. apply H. reflexivity.
Defined.

Lemma publish_gap_free_witness :
  (publish (run ["a"; "b"]%string) "c"%string).2 = mkSeq 3 "c"%string.
Proof. apply (publish_gap_free ["a"; "b"]%string "c"%string). done. Defined.

Lemma lag_recovery_exact_witness :
  forward_lagged true (run ["a"; "b"; "c"]%string) 2 = ([EventV2 (mkSeq 3 "c"%string)], 3).
Proof. exact (lag_recovery_exact ["a"; "b"; "c"]%string 2%nat ltac:(done) ltac:(cbn; lia)). Defined.

