(* ===== verification/Capacity.v ===== *)
(** * Run capacity (crates/am-core/src/capacity.rs)

    How many sessions may run at once: the stored policy, the recommendation from
    the machine's resources, and the effective cap applied to the admission
    controller.  The JSON encoding of the policy (serde_json) is a parameter. *)
From stdpp Require Import pretty.
From S2P Require Import Prelude RustStr Enums Records Admission.
#[local] Open Scope string_scope.
#[local] Open Scope Z_scope.

Definition RUN_CAPACITY_POLICY_KEY : string := "run_capacity_policy".
Definition DEFAULT_HARD_RUNTIME_CAP : Z := 512.
Definition IO_BOUND_SESSION_CPU_MULTIPLIER : Z := 4.

Record LocalSystemCapacity := mkSystem {
  logical_cpus : Z;
  total_memory_mb : Z;
  available_memory_mb : Z
}.

Definition default_policy : RunCapacityPolicy.t := RunCapacityPolicy.mk true 1 512 None 512 false.

Definition recommended_active_sessions (policy : RunCapacityPolicy.t) (system : LocalSystemCapacity) : Z :=
  let spare_cpus := Z.max (u_saturating_sub system.(logical_cpus) policy.(RunCapacityPolicy.reserved_cpus)) 1 in
  let cpu_based := usize_saturating_mul spare_cpus IO_BOUND_SESSION_CPU_MULTIPLIER in
  let per_session := Z.max policy.(RunCapacityPolicy.memory_per_session_mb) 256 in
  let usable_memory_mb :=
    Z.max (Z.max system.(available_memory_mb) (system.(total_memory_mb) / 4)) per_session in
  let memory_based := Z.max (usable_memory_mb / per_session) 1 in
  clampZ 1 (Z.max policy.(RunCapacityPolicy.hard_max_active_sessions) 1) (Z.min cpu_based memory_based).

Definition effective_active_sessions (policy : RunCapacityPolicy.t) (recommended : Z) : Z :=
  let requested :=
    if policy.(RunCapacityPolicy.adaptive) then recommended
    else default recommended policy.(RunCapacityPolicy.manual_max_active_sessions) in
  clampZ 1 (Z.max policy.(RunCapacityPolicy.hard_max_active_sessions) 1)
    (if policy.(RunCapacityPolicy.allow_over_recommended) then requested
     else Z.min requested recommended).

Definition capacity_warning (policy : RunCapacityPolicy.t) (recommended effective : Z) : option string :=
  if recommended <? effective then
    Some ("Active cap is above the current resource-aware recommendation (" +:+ pretty recommended +:+ ").")
  else if DEFAULT_HARD_RUNTIME_CAP <? policy.(RunCapacityPolicy.hard_max_active_sessions) then
    Some "Hard cap is unusually high; monitor CPU, memory, and provider limits."
  else None.

Definition normalize_capacity_policy (policy : RunCapacityPolicy.t) : RunCapacityPolicy.t :=
  let policy := RunCapacityPolicy.set_reserved_cpus
    (Z.min policy.(RunCapacityPolicy.reserved_cpus) 64) policy in
  let policy := RunCapacityPolicy.set_memory_per_session_mb
    (clampZ 256 131072 policy.(RunCapacityPolicy.memory_per_session_mb)) policy in
  let policy := RunCapacityPolicy.set_hard_max_active_sessions
    (clampZ 1 DEFAULT_HARD_RUNTIME_CAP policy.(RunCapacityPolicy.hard_max_active_sessions)) policy in
  match policy.(RunCapacityPolicy.manual_max_active_sessions) with
  | Some max => RunCapacityPolicy.set_manual_max_active_sessions
                  (Some (clampZ 1 policy.(RunCapacityPolicy.hard_max_active_sessions) max)) policy
  | None => policy
  end.

Definition capacity_limit_message (active effective recommended : Z) (system : LocalSystemCapacity)
  (policy : RunCapacityPolicy.t) : string :=
  "Active agent capacity reached (" +:+ pretty active +:+ "/" +:+ pretty effective +:+ "). The " +:+
  (if policy.(RunCapacityPolicy.adaptive) then "adaptive" else "manual") +:+ " cap is based on " +:+
  pretty system.(logical_cpus) +:+ " CPU threads, " +:+ pretty system.(available_memory_mb) +:+
  " MB available memory, and a " +:+ pretty (Z.max policy.(RunCapacityPolicy.memory_per_session_mb) 256) +:+
  " MB/session budget; current recommendation is " +:+ pretty recommended +:+
  ". Wait for an active agent to finish, stop one, or raise Run Capacity if this machine can handle it.".

(** ** The stored policy and the admission controller *)

Section Store.
Context (from_json : string -> option RunCapacityPolicy.t) (to_json : RunCapacityPolicy.t -> string).

Definition get_run_capacity_policy (settings : gmap string string) : RunCapacityPolicy.t :=
  normalize_capacity_policy (default default_policy (settings !! RUN_CAPACITY_POLICY_KEY ≫= from_json)).

Definition effective_session_capacity (settings : gmap string string) (system : LocalSystemCapacity) : Z :=
  let policy := get_run_capacity_policy settings in
  clampZ 1 DEFAULT_HARD_RUNTIME_CAP
    (effective_active_sessions policy (recommended_active_sessions policy system)).

(** [alive id]: the waiter with this id has not been dropped. *)
Definition sync_session_capacity (alive : Z -> bool) (settings : gmap string string)
  (system : LocalSystemCapacity) (st : State) : State * list Waiter :=
  resize alive st (Z.to_nat (effective_session_capacity settings system)).

Definition set_run_capacity_policy (alive : Z -> bool) (policy : RunCapacityPolicy.t)
  (system : LocalSystemCapacity) (settings : gmap string string) (st : State) :
  RunCapacityPolicy.t * gmap string string * (State * list Waiter) :=
  let policy := normalize_capacity_policy policy in
  let settings := <[RUN_CAPACITY_POLICY_KEY := to_json policy]> settings in
  (policy, settings, sync_session_capacity alive settings system st).

(** [active >= effective] refuses a run outside the admission controller. *)
Definition ensure_session_capacity (settings : gmap string string) (system : LocalSystemCapacity)
  (active : Z) : result CoreError () :=
  let effective := effective_session_capacity settings system in
  if effective <=? active then
    let policy := get_run_capacity_policy settings in
    Err (Other (capacity_limit_message active effective (recommended_active_sessions policy system) system policy))
  else Ok ().
End Store.

(** ** Lemmas *)

Lemma drain_capacity alive fuel s : capacity (drain_fuel fuel alive s).1 = capacity s.
Proof.
  revert s. induction fuel as [|fuel IH]; intros s; [done|]. cbn [drain_fuel].
  destruct (pop_and_reserve s) as [[w s']|] eqn:Hp; [|done].
  assert (capacity s' = capacity s) as Hs.
  { unfold pop_and_reserve in Hp. destruct (_ <=? _)%nat; [done|].
    destruct (position _ _); cbn in Hp; [|done]. destruct (_ !! _); cbn in Hp; [|done]. by injection Hp as _ <-. }
  destruct (alive (wid w)).
  - specialize (IH s'). destruct (drain_fuel fuel alive s') as [s'' given]. cbn in *. congruence.
  - rewrite IH. exact Hs.
Qed.

Lemma normalize_mk ad rc mem man hard over :
  normalize_capacity_policy (RunCapacityPolicy.mk ad rc mem man hard over) =
  RunCapacityPolicy.mk ad (Z.min rc 64) (clampZ 256 131072 mem) (option_map (clampZ 1 (clampZ 1 512 hard)) man)
    (clampZ 1 512 hard) over.
Proof. by destruct man. Qed.

Lemma normalize_idemp p : normalize_capacity_policy (normalize_capacity_policy p) = normalize_capacity_policy p.
Proof.
  destruct p as [ad rc mem man hard over]. rewrite !normalize_mk, !clampZ_idemp by lia. f_equal; [lia|].
  destruct man as [m|]; cbn [option_map]; [|done]. f_equal. apply clampZ_idemp, clampZ_bounds. lia.
Qed.

(** What the stored policy satisfies after normalisation. *)
Lemma normalize_bounds p :
  let q := normalize_capacity_policy p in
  1 <= q.(RunCapacityPolicy.hard_max_active_sessions) <= DEFAULT_HARD_RUNTIME_CAP /\
  256 <= q.(RunCapacityPolicy.memory_per_session_mb) <= 131072 /\
  q.(RunCapacityPolicy.reserved_cpus) <= 64 /\
  forall m, q.(RunCapacityPolicy.manual_max_active_sessions) = Some m ->
    1 <= m <= q.(RunCapacityPolicy.hard_max_active_sessions).
Proof.
  destruct p as [ad rc mem [m|] hard over]; cbn; unfold DEFAULT_HARD_RUNTIME_CAP, clampZ; split_and!; try lia;
    intros ? [=]; lia.
Qed.

Lemma recommended_bounds p sys :
  1 <= recommended_active_sessions p sys <= Z.max p.(RunCapacityPolicy.hard_max_active_sessions) 1.
Proof. unfold recommended_active_sessions. apply clampZ_bounds. lia. Qed.

Lemma effective_bounds p r :
  1 <= r -> 1 <= effective_active_sessions p r <= Z.max p.(RunCapacityPolicy.hard_max_active_sessions) 1 /\
  (p.(RunCapacityPolicy.allow_over_recommended) = false -> effective_active_sessions p r <= r).
Proof.
  intros Hr. unfold effective_active_sessions. split; [apply clampZ_bounds; lia|]. intros ->. unfold clampZ. lia.
Qed.

Module Properties.

(** whatever policy is stored (or none, or garbage) and whatever the machine
    reports, the cap applied to the admission controller is between 1 and 512 and
    within the policy's hard maximum, never above the recommendation unless the
    policy allows it, and it is the capacity the controller then has. *)
Theorem capacity_in_bounds from_json alive settings sys st :
  let policy := get_run_capacity_policy from_json settings in
  let eff := effective_session_capacity from_json settings sys in
  1 <= eff <= 512 /\ eff <= policy.(RunCapacityPolicy.hard_max_active_sessions) /\
  (policy.(RunCapacityPolicy.allow_over_recommended) = false ->
     eff <= recommended_active_sessions policy sys) /\
  Z.of_nat (capacity (sync_session_capacity from_json alive settings sys st).1) = eff.
Proof.
  cbn zeta. set (policy := get_run_capacity_policy from_json settings).
  assert (1 <= policy.(RunCapacityPolicy.hard_max_active_sessions) <= 512) as Hhard
    by apply (normalize_bounds (default default_policy (settings !! RUN_CAPACITY_POLICY_KEY ≫= from_json))).
  destruct (recommended_bounds policy sys) as [Hr _].
  destruct (effective_bounds policy (recommended_active_sessions policy sys) Hr) as [He Hover].
  assert (effective_session_capacity from_json settings sys =
          effective_active_sessions policy (recommended_active_sessions policy sys)) as Heq
    by (apply clampZ_id; unfold DEFAULT_HARD_RUNTIME_CAP; lia).
  unfold sync_session_capacity, resize, drain_waiters. rewrite drain_capacity, Heq. cbn.
  split_and!; [lia|lia|lia|done|lia].
Qed.

(** a saved policy reads back exactly as it was reported to the caller, when
    the JSON encoding round-trips. *)
Theorem capacity_policy_roundtrip from_json to_json alive policy sys settings st :
  from_json (to_json (normalize_capacity_policy policy)) = Some (normalize_capacity_policy policy) ->
  let '(saved, settings', _) := set_run_capacity_policy from_json to_json alive policy sys settings st in
  get_run_capacity_policy from_json settings' = saved /\ saved = normalize_capacity_policy policy.
Proof.
  intros Hjson. cbn. unfold get_run_capacity_policy. rewrite lookup_insert_eq. cbn. rewrite Hjson. cbn.
  by rewrite normalize_idemp.
Qed.

Lemma capacity_policy_roundtrip_witness :
  let encode := fun p : RunCapacityPolicy.t => if p.(RunCapacityPolicy.adaptive) then "a" else "m" in
  let decode := fun s => if String.eqb s "a" then Some default_policy else None in
  let '(saved, settings', _) := set_run_capacity_policy decode encode (fun _ => true) default_policy
    (mkSystem 4 8192 1024) ∅ (new 1) in
  get_run_capacity_policy decode settings' = saved /\ saved = normalize_capacity_policy default_policy.
Proof. intros encode decode. apply capacity_policy_roundtrip. reflexivity. Defined.

(** more resources never lower the recommendation. *)
Theorem recommendation_monotone p sys sys' :
  sys.(logical_cpus) <= sys'.(logical_cpus) -> sys.(total_memory_mb) <= sys'.(total_memory_mb) ->
  sys.(available_memory_mb) <= sys'.(available_memory_mb) ->
  recommended_active_sessions p sys <= recommended_active_sessions p sys'.
Proof.
  intros Hc Ht Ha. unfold recommended_active_sessions. apply clampZ_mono.
  set (m := Z.max (RunCapacityPolicy.memory_per_session_mb p) 256).
  assert (total_memory_mb sys / 4 <= total_memory_mb sys' / 4) by (apply Z.div_le_mono; lia).
  apply Z.min_le_compat.
  - unfold usize_saturating_mul, u_saturating_sub, IO_BOUND_SESSION_CPU_MULTIPLIER. lia.
  - apply Z.max_le_compat_r, Z.div_le_mono; lia.
Qed.

Lemma recommendation_monotone_witness :
  recommended_active_sessions default_policy (mkSystem 4 8192 1024) <=
  recommended_active_sessions default_policy (mkSystem 16 32768 8192).
Proof. apply recommendation_monotone; cbn; lia. Defined.

End Properties.
