(* ===== verification/SessionManager.v ===== *)
(** * The session manager (crates/am-core/src/session_manager.rs)

    The registry of running sessions, the locks that serialise the start of one
    task, and the wait for a cancelled session to settle, as one transition
    system: a label is one critical section of one caller, so every interleaving
    is a list of labels.  The slots are the admission controller's ([Admission]). *)
From Stdlib Require Import Ascii String.
From S2P Require Import Prelude.
#[local] Open Scope string_scope.
#[local] Open Scope Z_scope.

(** ** State *)

(** A session's control: the channel of its cancel signal until it is used, and
    the channel that steers it ([SessionControl] of am-agents). *)
Module Control.
Record t := mk { cancel : option nat; steer : option nat }.
End Control.

(** A start lock: who holds it and who queues for it, first come first served.
    Every one of them holds an [Arc], so the lock lives while there is one; [task] is
    what it was created for. *)
Record StartLock := mkLock { task : string; holder : option nat; queue : list nat }.

Definition participants (l : StartLock) : list nat := option_list l.(holder) ++ l.(queue).

(** Where a call of [wait_until_inactive] stands. *)
Inductive Wait :=
| Checking (id : string) (deadline : Z)
| SawActive (id : string) (deadline : Z)
(** the [Notified] future exists since generation [gen] *)
| Armed (id : string) (deadline : Z) (gen : nat)
| LastCheck (id : string) (deadline : Z)
| Answered (id : string) (answer : bool).

Record Sessions := mkSessions {
  active : gmap string Control.t;
  (** the weak entries: a lock id may be dangling *)
  launches : gmap string nat;
  locks : gmap nat StartLock;
  next_lock : nat;
  (** calls of [notify_waiters] so far *)
  notifications : nat;
  clock : Z;
  waits : gmap nat Wait;
  signals : list nat;
  steered : list (nat * string);
  closed : gset nat
}.

Definition new_sessions : Sessions := mkSessions ∅ ∅ ∅ 0 0 0 ∅ [] [] ∅.

Definition set_active a (s : Sessions) : Sessions :=
  mkSessions a s.(launches) s.(locks) s.(next_lock) s.(notifications) s.(clock) s.(waits) s.(signals) s.(steered) s.(closed).
Definition set_locks la lo n (s : Sessions) : Sessions :=
  mkSessions s.(active) la lo n s.(notifications) s.(clock) s.(waits) s.(signals) s.(steered) s.(closed).
Definition notify_waiters (s : Sessions) : Sessions :=
  mkSessions s.(active) s.(launches) s.(locks) s.(next_lock) (S s.(notifications)) s.(clock) s.(waits) s.(signals) s.(steered) s.(closed).
Definition set_wait w x (s : Sessions) : Sessions :=
  mkSessions s.(active) s.(launches) s.(locks) s.(next_lock) s.(notifications) s.(clock) (<[w := x]> s.(waits)) s.(signals) s.(steered) s.(closed).
Definition set_clock t (s : Sessions) : Sessions :=
  mkSessions s.(active) s.(launches) s.(locks) s.(next_lock) s.(notifications) t s.(waits) s.(signals) s.(steered) s.(closed).
Definition send_signals l (s : Sessions) : Sessions :=
  mkSessions s.(active) s.(launches) s.(locks) s.(next_lock) s.(notifications) s.(clock) s.(waits) (s.(signals) ++ l) s.(steered) s.(closed).
Definition send_steer c text (s : Sessions) : Sessions :=
  mkSessions s.(active) s.(launches) s.(locks) s.(next_lock) s.(notifications) s.(clock) s.(waits) s.(signals) (s.(steered) ++ [(c, text)]) s.(closed).
Definition close_channel c (s : Sessions) : Sessions :=
  mkSessions s.(active) s.(launches) s.(locks) s.(next_lock) s.(notifications) s.(clock) s.(waits) s.(signals) s.(steered) ({[c]} ∪ s.(closed)).

(** ** Starting *)

(** The critical section of [lock_start]: drop the dead entries, then share the
    live lock of the task or create one; the caller queues for it. *)
Definition lock_start (caller : nat) (id : string) (s : Sessions) : Sessions :=
  let launches := filter (fun e => is_Some (s.(locks) !! e.2)) s.(launches) in
  match l ← launches !! id; lock ← s.(locks) !! l; Some (l, lock) with
  | Some (l, lock) =>
      set_locks launches (<[l := mkLock lock.(task) lock.(holder) (lock.(queue) ++ [caller])]> s.(locks)) s.(next_lock) s
  | None =>
      let l := s.(next_lock) in
      set_locks (<[id := l]> launches) (<[l := mkLock id None [caller]]> s.(locks)) (S l) s
  end.

(** A free lock goes to the first in line. *)
Definition grant (l : nat) (s : Sessions) : option Sessions :=
  lock ← s.(locks) !! l;
  match lock.(holder), lock.(queue) with
  | None, c :: rest => Some (set_locks s.(launches) (<[l := mkLock lock.(task) (Some c) rest]> s.(locks)) s.(next_lock) s)
  | _, _ => None
  end.

(** A guard is dropped, or a caller stops waiting: the last one frees the lock. *)
Definition leave (caller : nat) (l : nat) (s : Sessions) : option Sessions :=
  lock ← s.(locks) !! l;
  if decide (caller ∈ participants lock) then
    let lock := mkLock lock.(task) (if decide (lock.(holder) = Some caller) then None else lock.(holder))
                  (filter (fun c => c <> caller) lock.(queue)) in
    Some (set_locks s.(launches)
            (if decide (participants lock = []) then delete l s.(locks) else <[l := lock]> s.(locks)) s.(next_lock) s)
  else None.

(** ** The registry *)

Definition is_active (id : string) (s : Sessions) : bool := bool_decide (is_Some (s.(active) !! id)).
Definition active_count (s : Sessions) : nat := size s.(active).
Definition register (id : string) (control : Control.t) (s : Sessions) : Sessions := set_active (<[id := control]> s.(active)) s.

(** The signal is sent once; the entry stays. *)
Definition cancel (id : string) (s : Sessions) : bool * Sessions :=
  match s.(active) !! id with
  | Some control =>
      (true, send_signals (option_list control.(Control.cancel))
               (set_active (<[id := Control.mk None control.(Control.steer)]> s.(active)) s))
  | None => (false, s)
  end.

Definition steer (id text : string) (s : Sessions) : bool * Sessions :=
  match control ← s.(active) !! id; control.(Control.steer) with
  | Some c => if decide (c ∈ s.(closed)) then (false, s) else (true, send_steer c text s)
  | None => (false, s)
  end.

Definition remove (id : string) (s : Sessions) : Sessions := notify_waiters (set_active (delete id s.(active)) s).

Definition shutdown (s : Sessions) : Sessions :=
  notify_waiters (set_active ∅ (send_signals (omap Control.cancel ((map_to_list s.(active)).*2)) s)).

(** ** Waiting for a session to settle

    One step of [wait_until_inactive], up to its next [await]. *)
Definition wait_step (w : nat) (s : Sessions) : option Sessions :=
  x ← s.(waits) !! w;
  match x with
  | Checking id deadline =>
      Some (set_wait w (if is_active id s then SawActive id deadline else Answered id true) s)
  | SawActive id deadline =>
      Some (set_wait w (if deadline <=? s.(clock) then LastCheck id deadline else Armed id deadline s.(notifications)) s)
  | Armed id deadline gen =>
      if decide (gen < s.(notifications))%nat then Some (set_wait w (Checking id deadline) s)
      else if deadline <=? s.(clock) then Some (set_wait w (LastCheck id deadline) s)
      else None
  | LastCheck id _ => Some (set_wait w (Answered id (negb (is_active id s))) s)
  | Answered _ _ => None
  end.

Definition start_wait (w : nat) (id : string) (timeout : Z) (s : Sessions) : Sessions :=
  set_wait w (Checking id (s.(clock) + timeout)) s.

(** ** Interleavings *)
Inductive Label :=
| LockStart (caller : nat) (id : string)
| Grant (l : nat)
| Leave (caller l : nat)
| Register (id : string) (control : Control.t)
| Cancel (id : string)
| Steer (id text : string)
| Remove (id : string)
| Shutdown
| StartWait (w : nat) (id : string) (timeout : Z)
| WaitStep (w : nat)
| Tick (dt : Z)
| CloseSteer (c : nat).

Definition fresh_caller (caller : nat) (s : Sessions) : Prop :=
  forall l lock, s.(locks) !! l = Some lock -> caller ∉ participants lock.

#[global] Instance fresh_caller_dec caller s : Decision (fresh_caller caller s).
Proof.
  refine (cast_if (decide (map_Forall (fun _ lock => caller ∉ participants lock) s.(locks)))); unfold fresh_caller; done.
Defined.

(** Callers and waiting calls are named once. *)
Definition step (x : Label) (s : Sessions) : option Sessions :=
  match x with
  | LockStart caller id => if decide (fresh_caller caller s) then Some (lock_start caller id s) else None
  | Grant l => grant l s
  | Leave caller l => leave caller l s
  | Register id control => Some (register id control s)
  | Cancel id => Some (cancel id s).2
  | Steer id text => Some (steer id text s).2
  | Remove id => Some (remove id s)
  | Shutdown => Some (shutdown s)
  | StartWait w id timeout => if decide (s.(waits) !! w = None) then Some (start_wait w id timeout s) else None
  | WaitStep w => wait_step w s
  | Tick dt => if 0 <=? dt then Some (set_clock (s.(clock) + dt) s) else None
  | CloseSteer c => Some (close_channel c s)
  end.

(** A schedule from [s]. *)
Fixpoint steps (ys : list Label) (s : Sessions) : option Sessions :=
  match ys with
  | [] => Some s
  | y :: ys => s' ← step y s; steps ys s'
  end.

Inductive runs : list Label -> Sessions -> Prop :=
| runs_nil : runs [] new_sessions
| runs_step xs s x s' : runs xs s -> step x s = Some s' -> runs (xs ++ [x]) s'.

(** ** Invariants *)

(** Every live lock is the one its task's entry names. *)
Record locks_ok (s : Sessions) : Prop := {
  lk_alive : forall l lock, s.(locks) !! l = Some lock -> participants lock <> [] /\ NoDup (participants lock);
  lk_entry : forall l lock, s.(locks) !! l = Some lock -> s.(launches) !! lock.(task) = Some l;
  lk_task : forall id l lock, s.(launches) !! id = Some l -> s.(locks) !! l = Some lock -> lock.(task) = id;
  lk_old : forall l lock, s.(locks) !! l = Some lock -> (l < s.(next_lock))%nat;
  lk_weak : forall id l, s.(launches) !! id = Some l -> (l < s.(next_lock))%nat
}.

Definition waits_ok (s : Sessions) : Prop := forall w x, s.(waits) !! w = Some x ->
  match x with
  | Armed _ _ gen => (gen <= s.(notifications))%nat
  | LastCheck _ deadline => deadline <= s.(clock)
  | _ => True
  end.

Lemma live_entries (lo : gmap nat StartLock) (la : gmap string nat) id l :
  filter (fun e => is_Some (lo !! e.2)) la !! id = Some l <-> la !! id = Some l /\ is_Some (lo !! l).
Proof. rewrite map_lookup_filter_Some. done. Qed.

(** Replacing a live lock by one of the same task. *)
Lemma locks_ok_update s l lock lock' (la : gmap string nat) :
  locks_ok s -> s.(locks) !! l = Some lock -> lock'.(task) = lock.(task) -> participants lock' <> [] -> NoDup (participants lock') ->
  (forall id l', la !! id = Some l' -> s.(launches) !! id = Some l') ->
  (forall l' k, s.(locks) !! l' = Some k -> la !! k.(task) = Some l') ->
  locks_ok (set_locks la (<[l := lock']> s.(locks)) s.(next_lock) s).
Proof.
  intros Hs Hl Ht Hp Hnd Hsub Hkeep. split; cbn.
  - intros l' k. rewrite lookup_insert. case_decide; [by intros [= <-]|apply Hs].
  - intros l' k. rewrite lookup_insert. case_decide as He; [intros [= <-]; subst; rewrite Ht; by eapply Hkeep|apply Hkeep].
  - intros id l' k Hid. rewrite lookup_insert. case_decide as He; [intros [= <-]|intros Hk; eapply (lk_task s Hs); [by apply Hsub|done]].
    subst. rewrite Ht. eapply (lk_task s Hs); [by apply Hsub|done].
  - intros l' k. rewrite lookup_insert. case_decide; [intros [= <-]; subst; by eapply (lk_old s Hs)|apply Hs].
  - intros id l' Hid. eapply (lk_weak s Hs). by apply Hsub.
Qed.

Lemma lock_start_ok caller id s : fresh_caller caller s -> locks_ok s -> locks_ok (lock_start caller id s).
Proof.
  intros Hf Hs. unfold lock_start. set (la := filter _ (launches s)).
  assert (Hsub : forall i l, la !! i = Some l -> launches s !! i = Some l) by by intros i l [? _]%live_entries.
  assert (Hkeep : forall l k, locks s !! l = Some k -> la !! task k = Some l).
  { intros l k Hk. apply live_entries. split; [by apply (lk_entry s Hs)|by eexists]. }
  assert (Hnew : la !! id = None -> locks_ok (set_locks (<[id := next_lock s]> la)
            (<[next_lock s := mkLock id None [caller]]> (locks s)) (S (next_lock s)) s)).
  { intros Hid. split; cbn.
    - intros l k. rewrite lookup_insert. case_decide; [intros [= <-]; cbn; split; [done|apply NoDup_singleton]|apply Hs].
    - intros l k. rewrite lookup_insert. case_decide as He; [intros [= <-]; cbn; subst; by rewrite lookup_insert, decide_True|].
      intros Hk. pose proof (Hkeep l k Hk) as Hk'. rewrite lookup_insert, decide_False; [done|]. intros ->. congruence.
    - intros i l k. rewrite !lookup_insert. destruct (decide (id = i)) as [<-|Hne].
      + intros [= <-]. rewrite decide_True by done. by intros [= <-].
      + intros Hi%Hsub. pose proof (lk_weak s Hs i l Hi). rewrite decide_False by lia. by apply (lk_task s Hs).
    - intros l k. rewrite lookup_insert. case_decide; [intros; lia|]. intros Hk%(lk_old s Hs). lia.
    - intros i l. rewrite lookup_insert. case_decide; [intros [= <-]; lia|]. intros Hi%Hsub%(lk_weak s Hs). lia. }
  destruct (la !! id) as [l|] eqn:Hl; cbn; [|by apply Hnew].
  destruct (locks s !! l) as [lock|] eqn:Hk; cbn.
  - apply (locks_ok_update s l lock); try done.
    + unfold participants. cbn. rewrite app_assoc. by intros [_ ?]%app_eq_nil.
    + unfold participants. cbn. rewrite app_assoc. apply NoDup_snoc; [by apply (lk_alive s Hs l)|by apply (Hf l)].
  - apply live_entries in Hl as [_ [? ?]]. congruence.
Qed.

Lemma grant_ok l s s' : grant l s = Some s' -> locks_ok s -> locks_ok s'.
Proof.
  unfold grant. destruct (locks s !! l) as [[t [h|] [|c rest]]|] eqn:Hl; [done..| |done]. cbn. intros [= <-] Hs.
  apply (locks_ok_update s l _ _ _ Hs Hl); try done; [|by apply (lk_entry s Hs)].
  unfold participants. cbn. by apply (lk_alive s Hs l) in Hl as [_ Hnd].
Qed.

Lemma leave_ok caller l s s' : leave caller l s = Some s' -> locks_ok s -> locks_ok s'.
Proof.
  unfold leave. destruct (locks s !! l) as [lock|] eqn:Hl; [|done]. cbn. case_decide; [|done]. intros [= <-] Hs.
  case_decide as Hp.
  - split; cbn.
    + intros l' k [_ Hk]%lookup_delete_Some. by apply (lk_alive s Hs l').
    + intros l' k [_ Hk]%lookup_delete_Some. by apply (lk_entry s Hs).
    + intros i l' k Hi [_ Hk]%lookup_delete_Some. by eapply (lk_task s Hs).
    + intros l' k [_ Hk]%lookup_delete_Some. by eapply (lk_old s Hs).
    + apply Hs.
  - apply (locks_ok_update s l lock); try done; [|by apply (lk_entry s Hs)].
    pose proof (proj2 (lk_alive s Hs l lock Hl)) as Hnd. unfold participants in *. cbn. apply NoDup_app in Hnd as (Hh & Hd & Hq).
    apply NoDup_app. split; [case_decide; [constructor|done]|]. split; [|by apply NoDup_filter].
    intros x Hx. rewrite list_elem_of_filter. intros [_ Hin]. case_decide; [by apply not_elem_of_nil in Hx|]. by apply (Hd x).
Qed.

(** The waits are kept by whatever does not touch them. *)
Lemma waits_ok_frame s s' :
  s'.(waits) = s.(waits) -> (s.(notifications) <= s'.(notifications))%nat -> s.(clock) <= s'.(clock) -> waits_ok s -> waits_ok s'.
Proof. intros Hw Hn Hc Hs w x. rewrite Hw. intros Hx%Hs. destruct x; cbn in *; lia. Qed.

Lemma set_wait_ok w x s :
  waits_ok s -> match x with
                | Armed _ _ gen => (gen <= s.(notifications))%nat
                | LastCheck _ deadline => deadline <= s.(clock)
                | _ => True
                end -> waits_ok (set_wait w x s).
Proof. intros Hs Hx w' x'. cbn. rewrite lookup_insert. case_decide; [by intros [= <-]|apply Hs]. Qed.

Lemma wait_step_ok w s s' : wait_step w s = Some s' -> waits_ok s -> waits_ok s'.
Proof.
  unfold wait_step. destruct (waits s !! w) as [x|] eqn:Hx; [|done]. cbn.
  destruct x as [id d|id d|id d g|id d|id b]; try done.
  - intros [= <-] Hs. apply set_wait_ok; [done|]. by destruct (is_active id s).
  - destruct (d <=? clock s) eqn:Hd; intros [= <-] Hs; apply set_wait_ok; try done. by apply Z.leb_le.
  - case_decide; [|destruct (d <=? clock s) eqn:Hd; [|done]]; intros [= <-] Hs; apply set_wait_ok; try done. by apply Z.leb_le.
  - intros [= <-] Hs. by apply set_wait_ok.
Qed.

Lemma lock_start_waits caller id s : (lock_start caller id s).(waits) = s.(waits) /\
  (lock_start caller id s).(notifications) = s.(notifications) /\ (lock_start caller id s).(clock) = s.(clock) /\
  (lock_start caller id s).(active) = s.(active).
Proof. unfold lock_start. destruct (_ ≫= _) as [[l lock]|]; done. Qed.

(** What a label does to the registry, the waits and the notifications. *)
Lemma step_frame x s s' :
  step x s = Some s' -> (forall w, x <> WaitStep w) -> (forall w id t, x <> StartWait w id t) ->
  s'.(waits) = s.(waits) /\ (s.(notifications) <= s'.(notifications))%nat /\ s.(clock) <= s'.(clock) /\
  forall id, is_active id s = true -> is_active id s' = true \/ (s.(notifications) < s'.(notifications))%nat.
Proof.
  destruct x; cbn; intros Hs Hw Hst; try by destruct (Hw w).
  - case_decide; [|done]. simplify_eq. destruct (lock_start_waits caller id s) as (-> & -> & -> & Ha).
    unfold is_active. rewrite Ha. split_and!; auto; lia.
  - unfold grant in Hs. destruct (locks s !! l) as [[t [h|] [|c rest]]|]; try done. cbn in Hs. simplify_eq. split_and!; auto; cbn; lia.
  - unfold leave in Hs. destruct (locks s !! l) as [lock|]; [|done]. cbn in Hs. case_decide; [|done]. simplify_eq. split_and!; auto; cbn; lia.
  - simplify_eq. split_and!; [done|cbn; lia..|]. intros i. unfold is_active. cbn. rewrite !bool_decide_eq_true, lookup_insert.
    case_decide; eauto.
  - unfold cancel in Hs. destruct (active s !! id) as [c|] eqn:Hid; simplify_eq; split_and!; auto; try (cbn; lia). intros i.
    unfold is_active. cbn. rewrite !bool_decide_eq_true, lookup_insert. case_decide; eauto.
  - unfold steer in Hs. destruct (_ ≫= _); [case_decide|]; simplify_eq; split_and!; auto; cbn; lia.
  - simplify_eq. split_and!; [done|cbn; lia..|]. intros i _. right. cbn. lia.
  - simplify_eq. split_and!; [done|cbn; lia..|]. intros i _. right. cbn. lia.
  - by destruct (Hst w id timeout).
  - destruct (0 <=? dt) eqn:Hdt; [|done]. simplify_eq. split_and!; auto; cbn; lia.
  - simplify_eq. split_and!; auto; cbn; lia.
Qed.

Lemma step_waits_ok x s s' : step x s = Some s' -> waits_ok s -> waits_ok s'.
Proof.
  intros Hx Hs. destruct x.
  9: { cbn in Hx. case_decide; [|done]. simplify_eq. by apply set_wait_ok. }
  9: { by eapply wait_step_ok. }
  all: destruct (step_frame _ s s' Hx ltac:(done) ltac:(done)) as (Hw & Hn & Hc & _); by eapply waits_ok_frame.
Qed.

(** Labels that do not touch the start locks. *)
Lemma locks_ok_frame s s' :
  s'.(launches) = s.(launches) -> s'.(locks) = s.(locks) -> s'.(next_lock) = s.(next_lock) -> locks_ok s -> locks_ok s'.
Proof. intros H1 H2 H3 []. split; rewrite ?H1, ?H2, ?H3; done. Qed.

Lemma step_locks_ok x s s' : step x s = Some s' -> locks_ok s -> locks_ok s'.
Proof.
  destruct x; cbn; intros Hx Hs.
  - case_decide; [|done]. simplify_eq. by apply lock_start_ok.
  - by eapply grant_ok.
  - by eapply leave_ok.
  - simplify_eq. by apply (locks_ok_frame s).
  - unfold cancel in Hx. destruct (active s !! id); simplify_eq; by apply (locks_ok_frame s).
  - unfold steer in Hx. destruct (_ ≫= _); [case_decide|]; simplify_eq; by apply (locks_ok_frame s).
  - simplify_eq. by apply (locks_ok_frame s).
  - simplify_eq. by apply (locks_ok_frame s).
  - case_decide; [|done]. simplify_eq. by apply (locks_ok_frame s).
  - unfold wait_step in Hx. destruct (waits s !! w) as [[]|]; try done; cbn in Hx; repeat case_match; simplify_eq; by apply (locks_ok_frame s).
  - destruct (0 <=? dt); [|done]. simplify_eq. by apply (locks_ok_frame s).
  - simplify_eq. by apply (locks_ok_frame s).
Qed.

Lemma runs_ok xs s : runs xs s -> locks_ok s /\ waits_ok s.
Proof.
  induction 1 as [|xs s x s' _ [Hl Hw] Hx]; [split|].
  - split; cbn; intros *; rewrite lookup_empty; done.
  - intros w x. cbn. by rewrite lookup_empty.
  - split; [by eapply step_locks_ok|by eapply step_waits_ok].
Qed.

(** An armed waiter stays armed, and sees the end of its session. *)
Definition awaits (w : nat) (id : string) (deadline : Z) (gen : nat) (s : Sessions) : Prop :=
  s.(waits) !! w = Some (Armed id deadline gen) /\ (gen <= s.(notifications))%nat /\
  (is_active id s = true \/ (gen < s.(notifications))%nat).

Lemma awaits_other_wait w w' x id deadline gen s : w' <> w -> awaits w id deadline gen s -> awaits w id deadline gen (set_wait w' x s).
Proof. intros Hne (Hw & Hg & Ha). split; [|done]. cbn. by rewrite lookup_insert, decide_False. Qed.

Lemma awaits_step y w id deadline gen s s' :
  step y s = Some s' -> y <> WaitStep w -> awaits w id deadline gen s -> awaits w id deadline gen s'.
Proof.
  intros Hy Hne Hs. destruct y.
  9: { cbn in Hy. case_decide as Hn; [|done]. simplify_eq. apply awaits_other_wait; [|done]. intros ->. destruct Hs as [Hs _]. congruence. }
  9: { cbn in Hy. unfold wait_step in Hy. assert (w0 <> w) as Hw by congruence. destruct (waits s !! w0) as [[]|]; try done; cbn in Hy.
       all: repeat (case_match; try done); simplify_eq; by apply awaits_other_wait. }
  all: destruct (step_frame _ s s' Hy ltac:(done) ltac:(done)) as (Hw & Hn & _ & Ha), Hs as (Hs & Hg & Hor).
  all: split; [by rewrite Hw|split; [lia|]]; destruct Hor as [Hid|Hlt]; [destruct (Ha id Hid); [by left|right; lia]|right; lia].
Qed.

Lemma awaits_steps ys w id deadline gen s s' :
  steps ys s = Some s' -> WaitStep w ∉ ys -> awaits w id deadline gen s -> awaits w id deadline gen s'.
Proof.
  revert s. induction ys as [|y ys IH]; intros s Hy Hne Hs; cbn in Hy; [by simplify_eq|].
  apply not_elem_of_cons in Hne as [Hne Hnes]. destruct (step y s) as [s1|] eqn:Hs1; [|done].
  apply (IH s1); [done..|]. by eapply awaits_step.
Qed.

(** *** Past its deadline a wait ends *)
Definition deadline_of (x : Wait) : option Z :=
  match x with
  | Checking _ d | SawActive _ d | Armed _ d _ | LastCheck _ d => Some d
  | Answered _ _ => None
  end.

Definition answers_within (n : nat) (w : nat) (s : Sessions) : Prop :=
  exists k s' id b, (k <= n)%nat /\ steps (replicate k (WaitStep w)) s = Some s' /\ s'.(waits) !! w = Some (Answered id b).

Lemma answers_next n w s s' : wait_step w s = Some s' -> answers_within n w s' -> answers_within (S n) w s.
Proof.
  intros Hs (k & t & id & b & Hk & Ht & Ha). exists (S k), t, id, b. split; [lia|]. split; [|done]. cbn. by rewrite Hs.
Qed.

Lemma answers_at w x d s :
  s.(waits) !! w = Some x -> deadline_of x = Some d -> d <= s.(clock) ->
  answers_within (match x with LastCheck _ _ => 1 | SawActive _ _ => 2 | Checking _ _ => 3 | _ => 4 end) w s.
Proof.
  assert (Hset : forall y t, (set_wait w y t).(waits) !! w = Some y) by (intros y t; cbn; by rewrite lookup_insert, decide_True).
  assert (H0 : forall id b t, t.(waits) !! w = Some (Answered id b) -> answers_within 0 w t).
  { intros id b t Ht. by exists 0%nat, t, id, b. }
  assert (H1 : forall id d t, t.(waits) !! w = Some (LastCheck id d) -> answers_within 1 w t).
  { intros id e t Ht. eapply answers_next; [unfold wait_step; rewrite Ht; done|]. eapply H0, Hset. }
  assert (H2 : forall id d t, t.(waits) !! w = Some (SawActive id d) -> d <= t.(clock) -> answers_within 2 w t).
  { intros id e t Ht He%Z.leb_le. eapply answers_next; [unfold wait_step; rewrite Ht; cbn; by rewrite He|]. eapply H1, Hset. }
  assert (H3 : forall id d t, t.(waits) !! w = Some (Checking id d) -> d <= t.(clock) -> answers_within 3 w t).
  { intros id e t Ht He. eapply answers_next; [unfold wait_step; rewrite Ht; done|]. cbv zeta. destruct (is_active id t).
    - eapply H2; [apply Hset|done].
    - destruct (H0 id true (set_wait w (Answered id true) t) (Hset _ _)) as (k & Hk). exists k. naive_solver lia. }
  intros Hx Hd Hc. destruct x as [id e|id e|id e g|id e|id b]; simplify_eq/=; [by eapply H3|by eapply H2| |by eapply H1].
  destruct (decide (g < notifications s)%nat) as [Hg|Hg].
  - eapply (answers_next 3); [unfold wait_step; rewrite Hx; cbn; by rewrite decide_True|]. eapply H3; [apply Hset|done].
  - destruct (answers_next 1 w s (set_wait w (LastCheck id d) s)) as (k & Hk).
    + unfold wait_step. rewrite Hx. cbn. rewrite decide_False by done. by apply Z.leb_le in Hc as ->.
    + eapply H1, Hset.
    + exists k. naive_solver lia.
Qed.

(** ** Properties *)
Section Properties.

(** C23: the start of a task is serialised: at every moment of every interleaving at
    most one caller holds a start lock of a given task, whatever dead entries were
    dropped or recreated meanwhile. *)
Theorem one_start_per_task xs s l1 l2 lock1 lock2 c1 c2 :
  runs xs s -> s.(locks) !! l1 = Some lock1 -> s.(locks) !! l2 = Some lock2 ->
  lock1.(holder) = Some c1 -> lock2.(holder) = Some c2 -> lock1.(task) = lock2.(task) -> l1 = l2 /\ c1 = c2.
Proof.
  intros [Hs _]%runs_ok H1 H2 Hc1 Hc2 Ht. pose proof (lk_entry s Hs l1 lock1 H1) as He1. pose proof (lk_entry s Hs l2 lock2 H2) as He2.
  rewrite Ht in He1. assert (l1 = l2) as -> by congruence. split; [done|]. congruence.
Qed.

(** waiting for a session to settle.  An answer is true at the moment it is
    given, and a negative one comes only after the deadline.  Past the deadline
    the call answers within four of its own steps.  A waiter armed while the
    session was active never misses its end: in every later state before its next
    step, either the session is still active or the waiter can go on at once. *)
Theorem settle_wait_is_truthful xs s w :
  runs xs s ->
  (forall s' id b, wait_step w s = Some s' -> s'.(waits) !! w = Some (Answered id b) ->
     b = negb (is_active id s) /\
     (b = false -> exists deadline, s.(waits) !! w = Some (LastCheck id deadline) /\ deadline <= s.(clock))) /\
  (forall x d, s.(waits) !! w = Some x -> deadline_of x = Some d -> d <= s.(clock) -> answers_within 4 w s) /\
  (forall id deadline gen ys s', s.(waits) !! w = Some (Armed id deadline gen) -> is_active id s = true ->
     WaitStep w ∉ ys -> steps ys s = Some s' ->
     is_active id s' = true \/ wait_step w s' = Some (set_wait w (Checking id deadline) s')).
Proof.
  intros Hrun. pose proof (proj2 (runs_ok xs s Hrun)) as Hs. split; [|split].
  - intros s' id b. unfold wait_step. destruct (waits s !! w) as [x|] eqn:Hx; [|done]. cbn.
    destruct x as [i d|i d|i d g|i d|i a]; try done.
    + intros [= <-]. cbn. rewrite lookup_insert, decide_True by done. destruct (is_active i s) eqn:Ha; [done|]. intros [= <- <-].
      by rewrite Ha.
    + intros [= <-]. cbn. rewrite lookup_insert, decide_True by done. by case_match.
    + case_decide; [|case_match; [|done]]; intros [= <-]; cbn; by rewrite lookup_insert, decide_True.
    + intros [= <-]. cbn. rewrite lookup_insert, decide_True by done. intros [= <- <-]. split; [done|]. intros _.
      exists d. split; [done|]. exact (Hs w _ Hx).
  - intros x d Hx Hd Hc. destruct (answers_at w x d s Hx Hd Hc) as (k & s' & id & b & Hk & Hr). exists k, s', id, b.
    split; [destruct x; lia|done].
  - intros id deadline gen ys s' Hx Ha Hys Hf.
    destruct (awaits_steps ys w id deadline gen s s' Hf Hys) as (Hw & _ & [?|Hlt]); [|by left|right].
    { split; [done|]. split; [exact (Hs w _ Hx)|by left]. }
    unfold wait_step. rewrite Hw. cbn. by rewrite decide_True.
Qed.
End Properties.

(** ** A concrete run *)
Module DemoSessions.

(** Two starts of one task, a session, and a wait of 100 for it to settle. *)
Definition start : list Label :=
  [LockStart 1 "t"; Grant 0; LockStart 2 "t"; Register "t" (Control.mk (Some 7%nat) None); Leave 1 0; Grant 0;
   StartWait 5 "t" 100; Cancel "t"; WaitStep 5].

Definition after (xs : list Label) : Sessions := default new_sessions (steps xs new_sessions).

Lemma steps_run xs s ys s' : runs xs s -> steps ys s = Some s' -> runs (xs ++ ys) s'.
Proof.
  revert xs s. induction ys as [|y ys IH]; intros xs s Hr Hs; cbn in Hs; [simplify_eq; by rewrite app_nil_r|].
  destruct (step y s) as [s1|] eqn:Hy; [|done]. replace (xs ++ y :: ys)%list with ((xs ++ [y]) ++ ys)%list by by rewrite <- app_assoc.
  apply (IH _ s1); [by eapply runs_step|done].
Qed.

Lemma start_runs xs : is_Some (steps xs new_sessions) -> runs xs (after xs).
Proof. intros [s Hs]. unfold after. rewrite Hs. exact (steps_run [] new_sessions xs s runs_nil Hs). Qed.
End DemoSessions.

Section Witnesses.
Import DemoSessions.

(** A session that ends between the check and the creation of the notification is
    noticed only at the deadline. *)
Lemma end_can_be_missed :
  let s := after (start ++ [Remove "t"; WaitStep 5])%list in
  is_active "t" s = false /\ wait_step 5 s = None /\ s.(clock) = 0.
Proof. vm_compute. done. Qed.

Lemma one_start_per_task_witness :
  let s := after start in
  let lock := mkLock "t" (Some 2%nat) [] in
  s.(locks) !! 0%nat = Some lock /\ 0%nat = 0%nat /\ 2%nat = 2%nat.
Proof.
  assert (Hl : (after start).(locks) !! 0%nat = Some (mkLock "t" (Some 2%nat) [])) by (vm_compute; reflexivity).
  split; [exact Hl|].
  apply (one_start_per_task start (after start) 0 0 (mkLock "t" (Some 2%nat) []) (mkLock "t" (Some 2%nat) []) 2 2); try done.
  apply start_runs. eexists. vm_compute. reflexivity.
Defined.

Lemma settle_wait_is_truthful_witness :
  let s := after (start ++ [WaitStep 5])%list in
  let s' := after (start ++ [WaitStep 5; Remove "t"])%list in
  is_active "t" s' = true \/ wait_step 5 s' = Some (set_wait 5 (Checking "t" 100) s').
Proof.
  assert (Hr : runs (start ++ [WaitStep 5])%list (after (start ++ [WaitStep 5])%list)) by (apply start_runs; eexists; vm_compute; reflexivity).
  destruct (settle_wait_is_truthful _ _ 5 Hr) as (_ & _ & Hmiss).
  apply (Hmiss "t" 100 0%nat [Remove "t"] (after (start ++ [WaitStep 5; Remove "t"])%list)).
  - vm_compute. reflexivity.
  - vm_compute. reflexivity.
  - intros Hin. apply list_elem_of_singleton in Hin. discriminate Hin.
  - vm_compute. reflexivity.
Defined.
End Witnesses.
