(* ===== verification/Approvals.v ===== *)
(** * Live permission approvals (crates/am-core/src/approvals.rs)

    Requests wait in a registry behind a mutex; each has a one-shot channel its
    [request_approval] call awaits.  The calls are sequences of critical sections
    and channel operations, so the component is a labelled transition system: one
    label per atomic step, any interleaving of requests, decisions, session ends,
    timeouts and aborted runs. *)
From S2P Require Import Prelude RustStr Enums Records.

Section Approvals.
Context {V : Type}.

Abbreviation Request := (ApprovalRequest.t V).

Record ApprovalScope := mkScope {
  project_id : option string;
  work_node_id : option string;
  task_id : option string;
  thread_id : option string;
  session_id : option string
}.

(** [approver_for]: whether a run gets a live approver. *)
Definition approver_for (permission : PermissionPolicy.t) (agent : AgentKind.t) : bool :=
  (bool_decide (agent = AgentKind.Codex) || bool_decide (agent = AgentKind.ClaudeCode)) &&
  (bool_decide (permission = PermissionPolicy.Ask) || bool_decide (permission = PermissionPolicy.WorkspaceWrite)).

(** The request a call registers. *)
Definition make_request (id : string) (ts : Z) (scope : ApprovalScope) (agent : AgentKind.t)
  (ask : ApprovalAsk.t V) : Request :=
  ApprovalRequest.mk V id agent scope.(project_id) scope.(work_node_id) scope.(task_id) scope.(thread_id)
    scope.(session_id) ask.(ApprovalAsk.kind) ask.(ApprovalAsk.tool_name) ask.(ApprovalAsk.command)
    ask.(ApprovalAsk.cwd) ask.(ApprovalAsk.input) ask.(ApprovalAsk.reason) ts.

(** Where one [request_approval] call is. *)
Inductive Waiter :=
| Waiting            (** parked on the channel *)
| TimingOut          (** the timeout fired; about to tear down its entry *)
| Returned (d : ApprovalDecision.t)
| Aborted.           (** the run was dropped while waiting *)

(** The one-shot channel: nothing sent, a decision, or the sender dropped. *)
Inductive Channel := Open | Sent (d : ApprovalDecision.t) | Closed.

(** [publish_resolution]. *)
Record Resolution := mkResolution {
  r_id : string;
  r_resolution : ApprovalResolution.t;
  r_decision : option ApprovalDecision.t
}.

Record State := mkState {
  approvals : gmap string Request;            (** the registry *)
  calls : gmap string (Waiter * Channel);     (** one per request ever made *)
  resolving : list (string * ApprovalDecision.t);  (** taken by resolve_approval, not yet sent *)
  publishing : list Resolution;               (** resolutions decided, not yet published *)
  published : list Resolution
}.

Definition init : State := mkState ∅ ∅ [] [] [].

Inductive Label :=
| Register (r : Request)
| TakeDecision (id : string) (d : ApprovalDecision.t)
| SendDecision (id : string) (d : ApprovalDecision.t)
| Publish (r : Resolution)
| CancelSession (session_id : string)
| Receive (id : string)
| Timeout (id : string)
| TearDown (id : string)
| AbortRun (id : string).

Definition in_session (session_id : string) (r : Request) : bool :=
  bool_decide (r.(ApprovalRequest.session_id) = Some session_id).

Definition close_channel (c : Waiter * Channel) : Waiter * Channel :=
  (c.1, match c.2 with Open => Closed | ch => ch end).

(** The entries [cancel_session_approvals] removes, in the map's order. *)
Definition session_ids (session_id : string) (s : State) : list string :=
  (map_to_list (filter (fun kv => in_session session_id kv.2 = true) s.(approvals))).*1.

Definition step (l : Label) (s : State) : option State :=
  match l with
  (* request_approval: insert the entry, create the channel; ids are fresh *)
  | Register r =>
      let id := r.(ApprovalRequest.id) in
      match s.(calls) !! id with
      | Some _ => None
      | None => Some (mkState (<[id := r]> s.(approvals)) (<[id := (Waiting, Open)]> s.(calls)) s.(resolving)
                        s.(publishing) s.(published))
      end
  (* resolve_approval: remove under the lock *)
  | TakeDecision id d =>
      match s.(approvals) !! id with
      | Some _ => Some (mkState (delete id s.(approvals)) s.(calls) (s.(resolving) ++ [(id, d)])
                          s.(publishing) s.(published))
      | None => None
      end
  (* ... then send (the receiver may be gone) and hand over to the publisher *)
  | SendDecision id d =>
      if bool_decide ((id, d) ∈ s.(resolving)) then
        Some (mkState s.(approvals)
                (alter (fun c => match c with (Waiting, Open) => (Waiting, Sent d) | _ => close_channel c end) id
                   s.(calls))
                (filter (fun x => x <> (id, d)) s.(resolving))
                (s.(publishing) ++ [mkResolution id ApprovalResolution.Decided (Some d)]) s.(published))
      else None
  | Publish r =>
      match position (fun x => bool_decide (r_id x = r_id r) &&
                               bool_decide (r_resolution x = r_resolution r) &&
                               bool_decide (r_decision x = r_decision r)) s.(publishing) with
      | Some i => Some (mkState s.(approvals) s.(calls) s.(resolving) (remove_at i s.(publishing))
                          (s.(published) ++ [r]))
      | None => None
      end
  (* cancel_session_approvals: drop every entry of the session, with its sender *)
  | CancelSession sid =>
      let ids := session_ids sid s in
      Some (mkState (filter (fun kv => in_session sid kv.2 = false) s.(approvals))
              (foldr (fun id m => alter close_channel id m) s.(calls) ids) s.(resolving)
              (s.(publishing) ++ ((fun id => mkResolution id ApprovalResolution.Cancelled None) <$> ids))
              s.(published))
  (* the receiver is polled before the timer *)
  | Receive id =>
      match s.(calls) !! id with
      | Some (Waiting, Sent d) =>
          Some (mkState s.(approvals) (<[id := (Returned d, Sent d)]> s.(calls)) s.(resolving)
                  s.(publishing) s.(published))
      | Some (Waiting, Closed) =>
          Some (mkState s.(approvals) (<[id := (Returned ApprovalDecision.Deny, Closed)]> s.(calls)) s.(resolving)
                  s.(publishing) s.(published))
      | _ => None
      end
  | Timeout id =>
      match s.(calls) !! id with
      | Some (Waiting, Open) =>
          Some (mkState s.(approvals) (<[id := (TimingOut, Open)]> s.(calls)) s.(resolving)
                  s.(publishing) s.(published))
      | _ => None
      end
  | TearDown id =>
      match s.(calls) !! id with
      | Some (TimingOut, ch) =>
          let calls' := <[id := (Returned ApprovalDecision.Deny, ch)]> s.(calls) in
          match s.(approvals) !! id with
          | Some _ => Some (mkState (delete id s.(approvals)) calls' s.(resolving)
                              (s.(publishing) ++ [mkResolution id ApprovalResolution.TimedOut None]) s.(published))
          | None => Some (mkState s.(approvals) calls' s.(resolving) s.(publishing) s.(published))
          end
      | _ => None
      end
  | AbortRun id =>
      match s.(calls) !! id with
      | Some (Waiting, ch) | Some (TimingOut, ch) =>
          Some (mkState s.(approvals) (<[id := (Aborted, ch)]> s.(calls)) s.(resolving)
                  s.(publishing) s.(published))
      | _ => None
      end
  end.

Fixpoint run (ls : list Label) (s : State) : option State :=
  match ls with
  | [] => Some s
  | l :: rest => s' ← step l s; run rest s'
  end.

(** [list_pending_approvals], the in-memory part: oldest first, then by id. *)
Definition request_order (a b : Request) : bool :=
  (a.(ApprovalRequest.created_at) <? b.(ApprovalRequest.created_at)) ||
  ((a.(ApprovalRequest.created_at) =? b.(ApprovalRequest.created_at)) &&
   String.leb a.(ApprovalRequest.id) b.(ApprovalRequest.id)).

Definition list_pending_approvals (s : State) : list Request :=
  sort_by request_order (map_to_list s.(approvals)).*2.
End Approvals.

Section Invariant.
Context {V : Type}.
Implicit Types s : State (V:=V).

(** Resolutions decided so far, published or about to be. *)
Definition resolutions s : list Resolution := s.(publishing) ++ s.(published).

Record Inv s : Prop := {
  inv_registry : forall id r, s.(approvals) !! id = Some r ->
    r.(ApprovalRequest.id) = id /\ exists w, s.(calls) !! id = Some (w, Open) /\ (forall d, w <> Returned d);
  inv_resolving : NoDup ((s.(resolving)).*1);
  inv_resolving_open : forall id d, (id, d) ∈ s.(resolving) ->
    s.(approvals) !! id = None /\ exists w, s.(calls) !! id = Some (w, Open);
  inv_once : NoDup (r_id <$> resolutions s);
  inv_resolved : forall r, r ∈ resolutions s ->
    s.(approvals) !! r_id r = None /\ (r_id r ∉ (s.(resolving)).*1) /\ is_Some (s.(calls) !! r_id r);
  inv_waiting : forall id, s.(calls) !! id = Some (Waiting, Open) ->
    is_Some (s.(approvals) !! id) \/ id ∈ (s.(resolving)).*1;
  inv_sent : forall id w d, s.(calls) !! id = Some (w, Sent d) ->
    mkResolution id ApprovalResolution.Decided (Some d) ∈ resolutions s;
  inv_returned : forall id d ch, s.(calls) !! id = Some (Returned d, ch) ->
    d = ApprovalDecision.Deny \/ ch = Sent d
}.

Lemma approvals_init : Inv init.
Proof.
  split; cbn; try (intros *; rewrite lookup_empty; done); try apply NoDup_nil_2.
  - by intros id d ?%elem_of_nil.
  - by intros r ?%elem_of_nil.
Qed.

Lemma resolution_eq_dec_pos (r : Resolution) l i :
  position (fun x => bool_decide (r_id x = r_id r) && bool_decide (r_resolution x = r_resolution r) &&
                     bool_decide (r_decision x = r_decision r)) l = Some i ->
  exists l1 l2, l = l1 ++ r :: l2 /\ remove_at i l = l1 ++ l2.
Proof.
  intros (a & l1 & l2 & -> & <- & Ha & _)%position_Some. exists l1, l2.
  rewrite !andb_true_iff, !bool_decide_eq_true in Ha. destruct Ha as [[H1 H2] H3].
  assert (a = r) as -> by (destruct a, r; cbn in *; congruence).
  split; [done|]. apply remove_at_app.
Qed.

(** A step that only changes one call record of a request outside the registry
    and outside [resolving], or inside with the channel still open. *)
Lemma approvals_call s id w ch w' ch' :
  Inv s -> s.(calls) !! id = Some (w, ch) ->
  (ch = Open -> ch' = Open) -> (forall d, ch' = Sent d -> ch = Sent d) ->
  (is_Some (s.(approvals) !! id) -> forall d, w' <> Returned d) ->
  (w' = Waiting -> w = Waiting /\ ch = ch') ->
  (forall d, w' = Returned d -> d = ApprovalDecision.Deny \/ ch' = Sent d) ->
  Inv (mkState s.(approvals) (<[id := (w', ch')]> s.(calls)) s.(resolving) s.(publishing) s.(published)).
Proof.
  intros [H1 H2 H3 H4 H5 H6 H7 H8] Hc Hopen Hsent Hreg Hwait Hret. split; cbn; try done.
  - intros i r Hr. destruct (H1 i r Hr) as (Hid & w0 & Hw0 & Hn). split; [done|].
    destruct (decide (id = i)) as [->|Hne]; [|exists w0; by rewrite lookup_insert_ne].
    rewrite Hc in Hw0. injection Hw0 as -> ->. exists w'. rewrite lookup_insert_eq, (Hopen eq_refl).
    split; [done|]. apply Hreg. by rewrite Hr.
  - intros i d Hd. destruct (H3 i d Hd) as [? [w0 Hw0]]. split; [done|].
    destruct (decide (id = i)) as [->|Hne]; [|exists w0; by rewrite lookup_insert_ne].
    rewrite Hc in Hw0. injection Hw0 as -> ->. exists w'. by rewrite lookup_insert_eq, (Hopen eq_refl).
  - intros r Hr. destruct (H5 r Hr) as (? & ? & Hs). split_and!; [done..|].
    destruct (decide (id = r_id r)) as [->|Hne]; [by rewrite lookup_insert_eq|by rewrite lookup_insert_ne].
  - intros i. destruct (decide (id = i)) as [->|Hne]; [|rewrite lookup_insert_ne by done; apply H6].
    rewrite lookup_insert_eq. intros [= -> ->]. destruct (Hwait eq_refl) as [-> ->]. by apply H6.
  - intros i w0 d. destruct (decide (id = i)) as [->|Hne]; [|rewrite lookup_insert_ne by done; apply H7].
    rewrite lookup_insert_eq. intros [= -> ->]. apply (H7 i w d). by rewrite <- (Hsent d eq_refl).
  - intros i d c. destruct (decide (id = i)) as [->|Hne]; [|rewrite lookup_insert_ne by done; apply H8].
    rewrite lookup_insert_eq. intros [= -> ->]. by apply Hret.
Qed.

Lemma approvals_register s r :
  Inv s -> s.(calls) !! r.(ApprovalRequest.id) = None ->
  Inv (mkState (<[r.(ApprovalRequest.id) := r]> s.(approvals))
         (<[r.(ApprovalRequest.id) := (Waiting, Open)]> s.(calls)) s.(resolving) s.(publishing) s.(published)).
Proof.
  intros [H1 H2 H3 H4 H5 H6 H7 H8] Hnew. set (id := r.(ApprovalRequest.id)) in *. split; cbn; try done.
  - intros i r'. destruct (decide (id = i)) as [<-|Hne].
    + rewrite !lookup_insert_eq. intros [= <-]. split; [done|]. by exists Waiting.
    + rewrite !lookup_insert_ne by done. apply H1.
  - intros i d Hd. destruct (H3 i d Hd) as [Ha [w Hw]].
    assert (id <> i) by (intros <-; congruence). rewrite !lookup_insert_ne by done. eauto.
  - intros x Hx. destruct (H5 x Hx) as (Ha & Hb & Hs). assert (id <> r_id x) by (intros He; rewrite <- He in Hs;
      destruct Hs; congruence). by rewrite !lookup_insert_ne.
  - intros i. destruct (decide (id = i)) as [<-|Hne]; [rewrite !lookup_insert_eq; by left|].
    rewrite !lookup_insert_ne by done. apply H6.
  - intros i w d. destruct (decide (id = i)) as [<-|Hne]; [by rewrite lookup_insert_eq|].
    rewrite lookup_insert_ne by done. apply H7.
  - intros i d ch. destruct (decide (id = i)) as [<-|Hne]; [by rewrite lookup_insert_eq|].
    rewrite lookup_insert_ne by done. apply H8.
Qed.

Lemma approvals_take s id d :
  Inv s -> is_Some (s.(approvals) !! id) ->
  Inv (mkState (delete id s.(approvals)) s.(calls) (s.(resolving) ++ [(id, d)]) s.(publishing) s.(published)).
Proof.
  intros [H1 H2 H3 H4 H5 H6 H7 H8] [r Hr]. destruct (H1 id r Hr) as (_ & w & Hw & _).
  assert (id ∉ (s.(resolving)).*1) as Hfresh.
  { intros ([i d'] & -> & Hin)%list_elem_of_fmap. destruct (H3 i d' Hin). cbn in Hr. congruence. }
  split; cbn; try done.
  - intros i r' [? Hr']%lookup_delete_Some. by apply H1.
  - rewrite fmap_app. apply NoDup_app. split_and!; [done| |apply NoDup_singleton].
    by intros x Hx ->%list_elem_of_singleton.
  - intros i d' [Hin|[= -> ->]%list_elem_of_singleton]%elem_of_app; [|rewrite lookup_delete_eq; eauto].
    destruct (H3 i d' Hin) as [Ha ?]. split; [|done]. by apply lookup_delete_None; right.
  - intros x Hx. destruct (H5 x Hx) as (Ha & Hb & Hs). split_and!; [by apply lookup_delete_None; right| |done].
    rewrite fmap_app. intros [?|Heq%list_elem_of_singleton]%elem_of_app; [done|]. cbn in Heq. congruence.
  - intros i Hi. destruct (decide (id = i)) as [<-|Hne].
    + right. rewrite fmap_app. apply elem_of_app. right. by left.
    + rewrite lookup_delete_ne by done. destruct (H6 i Hi); [by left|right]. rewrite fmap_app. apply elem_of_app. by left.
Qed.

(** Adding a resolution for a request that has left the registry. *)
Lemma approvals_resolve s id c res ap rs :
  Inv s -> res.(r_id) = id -> id ∉ r_id <$> resolutions s -> is_Some (s.(calls) !! id) ->
  ap !! id = None -> (forall i, i <> id -> ap !! i = s.(approvals) !! i) ->
  id ∉ rs.*1 -> NoDup (rs.*1) -> (forall x, x ∈ rs -> x ∈ s.(resolving)) ->
  (forall x, x ∈ s.(resolving) -> x.1 <> id -> x ∈ rs) ->
  (forall d, c.1 = Returned d -> d = ApprovalDecision.Deny \/ c.2 = Sent d) ->
  (c = (Waiting, Open) -> False) ->
  (forall d, c.2 = Sent d -> res = mkResolution id ApprovalResolution.Decided (Some d)) ->
  Inv (mkState ap (<[id := c]> s.(calls)) rs (s.(publishing) ++ [res]) s.(published)).
Proof.
  intros [H1 H2 H3 H4 H5 H6 H7 H8] Hid Hnew Hcall Hap Hap' Hrs Hnd Hsub Hsup Hret Hwait Hsent.
  assert (forall x, x ∈ (s.(publishing) ++ [res]) ++ s.(published) <-> x = res \/ x ∈ resolutions s) as Hres.
  { intros x. unfold resolutions. rewrite !elem_of_app, list_elem_of_singleton. tauto. }
  split; unfold resolutions; cbn [approvals calls resolving publishing published].
  - intros i r Hr. destruct (decide (id = i)) as [<-|Hne]; [congruence|].
    rewrite Hap' in Hr by done. rewrite lookup_insert_ne by done. by apply H1.
  - done.
  - intros i d Hd. assert (i <> id) by (intros ->; apply Hrs; by apply (list_elem_of_fmap_2 fst _ (id, d))).
    rewrite Hap', lookup_insert_ne by done. by apply (H3 i d), Hsub.
  - assert (r_id <$> (s.(publishing) ++ [res]) ++ s.(published) ≡ₚ id :: (r_id <$> resolutions s)) as ->.
    { unfold resolutions. rewrite !fmap_app. cbn. rewrite Hid. solve_Permutation. }
    by constructor.
  - intros x [->|Hx]%Hres.
    + rewrite Hid, lookup_insert_eq. eauto.
    + destruct (H5 x Hx) as (Ha & Hb & Hs).
      assert (r_id x <> id) by (intros Heq; apply Hnew; rewrite <- Heq; by apply list_elem_of_fmap_2).
      rewrite Hap', lookup_insert_ne by done. split_and!; [done| |done].
      intros (y & Hy & Hyin)%list_elem_of_fmap. apply Hb. rewrite Hy. by apply list_elem_of_fmap_2, Hsub.
  - intros i. destruct (decide (id = i)) as [<-|Hne]; [rewrite lookup_insert_eq; intros [= ->]; by destruct Hwait|].
    rewrite lookup_insert_ne by done. intros Hi. rewrite Hap' by done.
    destruct (H6 i Hi) as [?|(y & -> & Hy)%list_elem_of_fmap]; [by left|right].
    apply list_elem_of_fmap_2, Hsup; [done|]. congruence.
  - intros i w d. rewrite Hres. destruct (decide (id = i)) as [<-|Hne].
    + rewrite lookup_insert_eq. intros [= ->]. left. symmetry. by apply Hsent.
    + rewrite lookup_insert_ne by done. intros Hi. right. by eapply H7.
  - intros i d ch. destruct (decide (id = i)) as [<-|Hne].
    + rewrite lookup_insert_eq. intros [= ->]. by apply Hret.
    + rewrite lookup_insert_ne by done. apply H8.
Qed.

(** Publishing moves a resolution; nothing else of the state is touched. *)
Lemma approvals_perm s s' :
  Inv s -> s'.(approvals) = s.(approvals) -> s'.(calls) = s.(calls) -> s'.(resolving) = s.(resolving) ->
  resolutions s' ≡ₚ resolutions s -> Inv s'.
Proof.
  intros [H1 H2 H3 H4 H5 H6 H7 H8] Ha Hb Hc Hp. split; rewrite ?Ha, ?Hb, ?Hc; try done.
  - by rewrite Hp.
  - intros r. rewrite Hp. apply H5.
  - intros id w d Hi. rewrite Hp. by eapply H7.
Qed.

Lemma alter_found {A} (f : A -> A) (m : gmap string A) id x :
  m !! id = Some x -> alter f id m = <[id := f x]> m.
Proof.
  intros Hx. apply map_eq. intros i. destruct (decide (id = i)) as [->|Hne].
  - by rewrite lookup_alter_eq, lookup_insert_eq, Hx.
  - by rewrite lookup_alter_ne, lookup_insert_ne.
Qed.

Lemma approvals_unresolved s id : Inv s -> is_Some (s.(approvals) !! id) -> id ∉ r_id <$> resolutions s.
Proof. intros HI [r Hr] (x & -> & Hx)%list_elem_of_fmap. destruct (inv_resolved s HI x Hx). congruence. Qed.

Lemma approvals_not_resolving s id : Inv s -> is_Some (s.(approvals) !! id) -> id ∉ (s.(resolving)).*1.
Proof.
  intros HI [r Hr] ([i d] & -> & Hin)%list_elem_of_fmap.
  destruct (inv_resolving_open s HI i d Hin). cbn in Hr. congruence.
Qed.

Lemma approvals_send s id d :
  Inv s -> (id, d) ∈ s.(resolving) ->
  Inv (mkState s.(approvals)
         (alter (fun c => match c with (Waiting, Open) => (Waiting, Sent d) | _ => close_channel c end) id s.(calls))
         (filter (fun x => x <> (id, d)) s.(resolving))
         (s.(publishing) ++ [mkResolution id ApprovalResolution.Decided (Some d)]) s.(published)).
Proof.
  intros HI Hin. destruct (inv_resolving_open s HI id d Hin) as (Ha & w & Hw).
  rewrite (alter_found _ _ _ _ Hw).
  assert (forall x, x ∈ s.(resolving) -> x.1 = id -> x = (id, d)) as Huniq.
  { intros [i d'] Hx. cbn. intros ->. by eapply (NoDup_column_inj fst _ _ _ (inv_resolving s HI)). }
  apply approvals_resolve with (id := id); try done.
  - intros (x & Hx & Hin')%list_elem_of_fmap. destruct (inv_resolved s HI x Hin') as (_ & Hn & _).
    apply Hn. rewrite <- Hx. by apply (list_elem_of_fmap_2 fst _ (id, d)).
  - intros (x & Hx & [Hne Hin']%list_elem_of_filter)%list_elem_of_fmap. by apply Hne, Huniq.
  - apply NoDup_filter_column, HI.
  - by intros x [_ ?]%list_elem_of_filter.
  - intros x Hx Hne. apply list_elem_of_filter. split; [by intros ->|done].
  - destruct w; cbn; try done. intros d' [= ->]. destruct (inv_returned s HI _ _ _ Hw); [by left|done].
  - by destruct w.
  - destruct w; cbn; by intros ? [= ->].
Qed.

(** Cancelling requests one by one. *)
Lemma approvals_cancel s ids :
  Inv s -> NoDup ids -> (forall id, id ∈ ids -> is_Some (s.(approvals) !! id)) ->
  Inv (mkState (foldr delete s.(approvals) ids) (foldr (fun id m => alter close_channel id m) s.(calls) ids)
         s.(resolving)
         (s.(publishing) ++ ((fun id => mkResolution id ApprovalResolution.Cancelled None) <$> ids)) s.(published)).
Proof.
  intros HI Hnd. induction ids as [|id ids IH]; intros Hreg; cbn.
  { rewrite app_nil_r. by destruct s. }
  apply NoDup_cons in Hnd as [Hfresh Hnd]. ospecialize (IH Hnd _); [by intros i Hi; apply Hreg; right|].
  set (s' := mkState _ _ _ _ _) in IH.
  assert (is_Some (approvals s' !! id)) as Hid.
  { cbn. rewrite lookup_foldr_delete_not_elem_of by done. apply Hreg. by left. }
  destruct Hid as [r Hr]. destruct (inv_registry s' IH id r Hr) as (_ & w & Hw & Hn).
  change (foldr _ s.(calls) ids) with (calls s'). rewrite (alter_found _ _ _ _ Hw).
  change (foldr delete s.(approvals) ids) with (approvals s').
  apply (approvals_perm (mkState (delete id (approvals s')) (<[id := close_channel (w, Open)]> (calls s'))
            (resolving s') (publishing s' ++ [mkResolution id ApprovalResolution.Cancelled None]) (published s'))); try done.
  - apply approvals_resolve with (id := id); try done.
    + by apply approvals_unresolved; [|rewrite Hr].
    + by rewrite lookup_delete_eq.
    + intros i Hi. by rewrite lookup_delete_ne.
    + by apply approvals_not_resolving; [|rewrite Hr].
    + apply IH.
    + cbn. intros d Hd. by destruct (Hn d).
  - unfold resolutions. cbn. solve_Permutation.
Qed.

Lemma session_ids_spec sid s id :
  id ∈ session_ids sid s <-> exists r, s.(approvals) !! id = Some r /\ in_session sid r = true.
Proof.
  unfold session_ids. rewrite list_elem_of_fmap. split.
  - intros ([i r] & -> & [Hr Hs]%elem_of_map_to_list%map_lookup_filter_Some). eauto.
  - intros (r & Hr & Hs). exists (id, r). split; [done|].
    apply elem_of_map_to_list, map_lookup_filter_Some. done.
Qed.

Lemma session_cancel_registry sid s :
  filter (fun kv => in_session sid kv.2 = false) s.(approvals) = foldr delete s.(approvals) (session_ids sid s).
Proof.
  apply map_eq. intros i. destruct (decide (i ∈ session_ids sid s)) as [Hin|Hout].
  - rewrite lookup_foldr_delete by done. apply session_ids_spec in Hin as (r & Hr & Hs).
    apply map_lookup_filter_None. right. intros x Hx. cbn. congruence.
  - rewrite lookup_foldr_delete_not_elem_of by done. apply option_eq. intros r.
    rewrite map_lookup_filter_Some. cbn. split; [by intros [? _]|]. intros Hr. split; [done|].
    destruct (in_session sid r) eqn:Hs; [|done]. destruct Hout. apply session_ids_spec. eauto.
Qed.

Lemma approvals_step l s s' : Inv s -> step l s = Some s' -> Inv s'.
Proof.
  intros HI. destruct l as [r|id d|id d|r|sid|id|id|id|id]; cbn [step].
  - destruct (s.(calls) !! _) eqn:Hc; [done|]. intros [= <-]. by apply approvals_register.
  - destruct (s.(approvals) !! id) eqn:Ha; [|done]. intros [= <-]. by apply approvals_take; [|rewrite Ha].
  - case_bool_decide; [|done]. intros [= <-]. by apply approvals_send.
  - destruct (position _ _) as [i|] eqn:Hp; [|done]. intros [= <-].
    apply resolution_eq_dec_pos in Hp as (l1 & l2 & Hl & ->). apply (approvals_perm s); try done.
    unfold resolutions. rewrite Hl. solve_Permutation.
  - intros [= <-]. rewrite session_cancel_registry. apply approvals_cancel; [done| |].
    + apply NoDup_fst_map_to_list.
    + intros id (r & Hr & _)%session_ids_spec. by rewrite Hr.
  - destruct (s.(calls) !! id) as [[[] []]|] eqn:Hc; try done; intros [= <-]; eapply approvals_call; eauto; try done.
    + intros [r Hr]. destruct (inv_registry s HI id r Hr) as (_ & w & Hw & _). congruence.
    + intros d' [= ->]. by right.
    + intros [r Hr]. destruct (inv_registry s HI id r Hr) as (_ & w & Hw & _). congruence.
    + intros d' [= ->]. by left.
  - destruct (s.(calls) !! id) as [[[] []]|] eqn:Hc; try done. intros [= <-]. eapply approvals_call; eauto; done.
  - destruct (s.(calls) !! id) as [[[] ch]|] eqn:Hc; try done.
    destruct (s.(approvals) !! id) as [r|] eqn:Ha; intros [= <-].
    + apply approvals_resolve with (id := id); try done.
      * by apply approvals_unresolved; [|rewrite Ha].
      * by rewrite lookup_delete_eq.
      * intros i Hi. by rewrite lookup_delete_ne.
      * by apply approvals_not_resolving; [|rewrite Ha].
      * apply HI.
      * intros d [= <-]. by left.
      * cbn. intros d ->. destruct (inv_registry s HI id r Ha) as (_ & w & Hw & _). congruence.
    + eapply approvals_call; eauto; try done; [rewrite Ha; by intros [? ?]|]. intros d [= <-]. by left.
  - destruct (s.(calls) !! id) as [[[] ch]|] eqn:Hc; try done; intros [= <-]; eapply approvals_call; eauto; done.
Qed.

Lemma run_invariant (P : list Label -> State (V:=V) -> Prop) :
  (forall ls l s s', P ls s -> step l s = Some s' -> P (ls ++ [l]) s') ->
  forall ls0 ls s s', P ls0 s -> run ls s = Some s' -> P (ls0 ++ ls) s'.
Proof.
  intros Hstep ls0 ls. revert ls0. induction ls as [|l ls IH]; intros ls0 s s' HP; cbn.
  - intros [= <-]. by rewrite app_nil_r.
  - intros (s1 & Hs1 & Hr)%bind_Some. replace (ls0 ++ l :: ls) with ((ls0 ++ [l]) ++ ls) by (by rewrite <- app_assoc).
    eauto.
Qed.

Lemma approvals_run ls s : run ls init = Some s -> Inv s.
Proof.
  intros Hr. apply (run_invariant (fun _ s => Inv s)) with (ls0 := []) (ls := ls) (s := init); [|apply approvals_init|done].
  intros _ l s1 s2 HI Hs. by eapply approvals_step.
Qed.

(** What the trace says of the decisions in flight, sent or returned. *)
Definition decided (ls : list (Label (V:=V))) (s : State (V:=V)) : Prop :=
  Inv s /\
  (forall id d, (id, d) ∈ s.(resolving) -> TakeDecision id d ∈ ls) /\
  (forall id w d, s.(calls) !! id = Some (w, Sent d) -> TakeDecision id d ∈ ls).

Lemma decided_calls ls l s s' id w d :
  decided ls s -> step l s = Some s' -> s'.(calls) !! id = Some (w, Sent d) -> TakeDecision id d ∈ ls ++ [l].
Proof.
  intros (HI & H1 & H2) Hs Hc. apply elem_of_app.
  assert (forall m i c, <[i := c]> m !! id = Some (w, Sent d) -> (i = id /\ c = (w, Sent d)) \/ m !! id = Some (w, Sent d))
    as Hins by (intros m i c [[-> ->]|[_ ?]]%lookup_insert_Some; auto).
  destruct l as [r|i d'|i d'|r|sid|i|i|i|i]; cbn [step] in Hs.
  - destruct (s.(calls) !! _); [done|]. injection Hs as <-. destruct (Hins _ _ _ Hc) as [[_ ?]|?]; [done|eauto].
  - destruct (s.(approvals) !! i); [|done]. injection Hs as <-. eauto.
  - case_bool_decide as Hin; [|done]. injection Hs as <-. cbn in Hc.
    destruct (inv_resolving_open s HI i d' Hin) as (_ & w0 & Hw0). rewrite (alter_found _ _ _ _ Hw0) in Hc.
    destruct (Hins _ _ _ Hc) as [[-> Hq]|?]; [|eauto]. destruct w0; cbn in Hq; try done. injection Hq as <- <-. eauto.
  - destruct (position _ _); [|done]. injection Hs as <-. eauto.
  - injection Hs as <-. cbn in Hc. left. revert w Hc Hins. generalize (session_ids sid s).
    intros ids. induction ids as [|j ids IH]; cbn; intros w Hc Hins; [eauto|].
    apply lookup_alter_Some in Hc as [(-> & [w0 ch] & Hc & Hq)|[_ Hc]]; [|eauto].
    destruct ch; cbn in Hq; try done. injection Hq as -> <-.
    apply (IH w0); [done|]. intros m k c [[-> ->]|[_ ?]]%lookup_insert_Some; auto.
  - destruct (s.(calls) !! i) as [[[] []]|] eqn:Hi; try done; injection Hs as <-;
      (destruct (Hins _ _ _ Hc) as [[-> Hq]|?]; [|eauto]); simplify_eq; eauto.
  - destruct (s.(calls) !! i) as [[[] []]|] eqn:Hi; try done; injection Hs as <-.
    destruct (Hins _ _ _ Hc) as [[-> Hq]|?]; [done|eauto].
  - destruct (s.(calls) !! i) as [[[] ch]|] eqn:Hi; try done.
    destruct (s.(approvals) !! i); injection Hs as <-; (destruct (Hins _ _ _ Hc) as [[-> Hq]|?]; [|eauto]);
      simplify_eq; eauto.
  - destruct (s.(calls) !! i) as [[[] ch]|] eqn:Hi; try done; injection Hs as <-;
      (destruct (Hins _ _ _ Hc) as [[-> Hq]|?]; [|eauto]); simplify_eq; eauto.
Qed.

Lemma decided_step ls l s s' : decided ls s -> step l s = Some s' -> decided (ls ++ [l]) s'.
Proof.
  intros HD Hs. pose proof HD as (HI & H1 & _). split_and!; [by eapply approvals_step| |by intros; eapply decided_calls].
  intros id d Hin. apply elem_of_app.
  destruct l as [r|i d'|i d'|r|sid|i|i|i|i]; cbn [step] in Hs;
    try (injection Hs as <-; cbn in Hin; by eauto);
    try (repeat case_match; simplify_eq; cbn in Hin; by eauto).
  - destruct (s.(approvals) !! i); [|done]. injection Hs as <-. cbn in Hin.
    apply elem_of_app in Hin as [Hin|[= -> ->]%list_elem_of_singleton]; [eauto|right; by left].
  - case_bool_decide; [|done]. injection Hs as <-. cbn in Hin. apply list_elem_of_filter in Hin as [_ ?]. eauto.
Qed.

Lemma decided_run ls s : run ls init = Some s -> decided ls s.
Proof.
  intros Hr. apply (run_invariant decided) with (ls0 := []) (s := init); [by intros; eapply decided_step| |done].
  split; [apply approvals_init|]. by split; [intros ? ? ?%elem_of_nil|intros ? ? ?; cbn; rewrite lookup_empty].
Qed.

(** What a pending request can rely on: it is in the list a user interface
    renders, a decision is being delivered, or the call can return at once. *)
Definition attended (s : State (V:=V)) (id : string) : Prop :=
  (exists r, r ∈ list_pending_approvals s /\ r.(ApprovalRequest.id) = id) \/
  (exists d s', (id, d) ∈ s.(resolving) /\ step (SendDecision id d) s = Some s' /\ s'.(calls) !! id = Some (Waiting, Sent d)) \/
  (exists d s', step (Receive id) s = Some s' /\ s'.(calls) !! id = Some (Returned d, (default Closed (snd <$> s.(calls) !! id)))).

Lemma list_pending_spec s r :
  r ∈ list_pending_approvals s <-> exists id, s.(approvals) !! id = Some r.
Proof.
  unfold list_pending_approvals. rewrite sort_by_perm, list_elem_of_fmap. split.
  - intros ([id r'] & -> & Hin%elem_of_map_to_list). eauto.
  - intros [id Hid]. exists (id, r). split; [done|]. by apply elem_of_map_to_list.
Qed.

Lemma close_lookup id ids (m : gmap string (Waiter * Channel)) :
  id ∈ ids -> foldr (fun i m => alter close_channel i m) m ids !! id = close_channel <$> m !! id.
Proof.
  induction ids as [|j ids IH]; [by intros ?%elem_of_nil|]. cbn. intros Hin.
  assert (forall c, close_channel (close_channel c) = close_channel c) as Hidem by (intros [? []]; done).
  assert (id ∉ ids -> foldr (fun i m => alter close_channel i m) m ids !! id = m !! id) as Hout.
  { clear. induction ids as [|k ids IH]; cbn; [done|]. intros [Hne Hni]%not_elem_of_cons.
    rewrite lookup_alter_ne by done. auto. }
  destruct (decide (j = id)) as [->|Hne].
  - rewrite lookup_alter_eq. destruct (decide (id ∈ ids)) as [Hi|Hi].
    + rewrite IH by done. destruct (m !! id); cbn; by rewrite ?Hidem.
    + by rewrite Hout.
  - rewrite lookup_alter_ne by done. apply IH. apply elem_of_cons in Hin as [->|?]; done.
Qed.
End Invariant.

Module Properties.
(** In every interleaving of requests, decisions, session ends, timeouts and
    aborted runs, at most one resolution of each approval is ever published. *)
Theorem approval_resolved_once {V} (ls : list (Label (V:=V))) s :
  run ls init = Some s -> NoDup (r_id <$> s.(published)).
Proof.
  intros HI%approvals_run%inv_once. unfold resolutions in HI. rewrite fmap_app in HI. by apply NoDup_app in HI as (_ & _ & ?).
Qed.

(** C38: An agent is never let through without a user: a call that returned
    anything but a denial returned exactly a decision some user passed to
    [resolve_approval] for that very request, and that decision is what was (or
    is about to be) published. *)
Theorem approval_needs_consent {V} (ls : list (Label (V:=V))) s id d ch :
  run ls init = Some s -> s.(calls) !! id = Some (Returned d, ch) -> d <> ApprovalDecision.Deny ->
  TakeDecision id d ∈ ls /\ mkResolution id ApprovalResolution.Decided (Some d) ∈ resolutions s.
Proof.
  intros (HI & _ & Hsent)%decided_run Hc Hd.
  destruct (inv_returned s HI id d ch Hc) as [?| ->]; [done|]. split; [by eapply Hsent|by eapply inv_sent].
Qed.

(** No call waits unseen: a request whose call is still parked is in the list
    of pending approvals, or a decision for it has been taken and sending it
    reaches the call, or the call's next poll returns. *)
Theorem approval_never_stranded {V} (ls : list (Label (V:=V))) s id ch :
  run ls init = Some s -> s.(calls) !! id = Some (Waiting, ch) -> attended s id.
Proof.
  intros HI%approvals_run Hc. unfold attended. destruct ch as [|d|].
  - destruct (inv_waiting s HI id Hc) as [[r Hr]|([i d] & -> & Hin)%list_elem_of_fmap].
    + left. exists r. destruct (inv_registry s HI id r Hr). split; [|done]. apply list_pending_spec. eauto.
    + right; left. cbn in *. do 2 eexists. split; [done|]. cbn [step]. rewrite bool_decide_true by done.
      split; [done|]. cbn. by rewrite lookup_alter_eq, Hc.
  - do 2 right. do 2 eexists. cbn [step]. rewrite Hc. split; [done|]. cbn. by rewrite lookup_insert_eq.
  - do 2 right. do 2 eexists. cbn [step]. rewrite Hc. split; [done|]. cbn. by rewrite lookup_insert_eq.
Qed.

(** When a session ends, cancelling its approvals leaves none of them pending,
    keeps every other one, and lets each of their calls that still waits return a
    denial at its next poll. *)
Theorem session_end_denies {V} (ls : list (Label (V:=V))) s sid s' :
  run ls init = Some s -> step (CancelSession sid) s = Some s' ->
  (forall r, r ∈ list_pending_approvals s' <->
     r ∈ list_pending_approvals s /\ r.(ApprovalRequest.session_id) <> Some sid) /\
  (forall r, r ∈ list_pending_approvals s -> r.(ApprovalRequest.session_id) = Some sid ->
     s.(calls) !! r.(ApprovalRequest.id) = Some (Waiting, Open) ->
     exists s'', step (Receive r.(ApprovalRequest.id)) s' = Some s'' /\
       s''.(calls) !! r.(ApprovalRequest.id) = Some (Returned ApprovalDecision.Deny, Closed)).
Proof.
  intros HI%approvals_run [= <-]. split.
  - intros r. rewrite !list_pending_spec. cbn. setoid_rewrite map_lookup_filter_Some. cbn.
    unfold in_session. setoid_rewrite bool_decide_eq_false. naive_solver.
  - intros r [id Hr]%list_pending_spec Hs Hc. destruct (inv_registry s HI id r Hr) as [Hid _]. rewrite Hid in *.
    eexists. cbn [step calls]. rewrite close_lookup, Hc; [cbn|].
    + split; [done|]. cbn. by rewrite lookup_insert_eq.
    + apply session_ids_spec. exists r. split; [done|]. by apply bool_decide_eq_true.
Qed.

(** A concrete run: two requests of different sessions. *)
Definition demo_request (id : string) (sid : string) : ApprovalRequest.t unit :=
  make_request id 5 (mkScope None None None None (Some sid)) AgentKind.Codex
    (ApprovalAsk.mk unit ApprovalKind.Command "command" (Some ["ls"]) None tt None).

Definition demo_run : list (Label (V:=unit)) :=
  [Register (demo_request "a" "s1"); Register (demo_request "b" "s2");
   TakeDecision "a" ApprovalDecision.Allow; SendDecision "a" ApprovalDecision.Allow; Receive "a";
   Publish (mkResolution "a" ApprovalResolution.Decided (Some ApprovalDecision.Allow))].

Definition demo_state : State (V:=unit) := default init (run demo_run init).

Lemma approval_resolved_once_witness : (r_id <$> demo_state.(published)) = ["a"] /\ NoDup (r_id <$> demo_state.(published)).
Proof. split; [vm_compute; reflexivity|]. apply (approval_resolved_once demo_run). vm_compute. reflexivity. Defined.

Lemma approval_needs_consent_witness : TakeDecision "a" ApprovalDecision.Allow ∈ demo_run.
Proof.
  apply (approval_needs_consent demo_run demo_state "a" ApprovalDecision.Allow (Sent ApprovalDecision.Allow));
    [vm_compute; reflexivity|vm_compute; reflexivity|discriminate].
Defined.

Lemma approval_never_stranded_witness : attended demo_state "b".
Proof. apply (approval_never_stranded demo_run demo_state "b" Open); vm_compute; reflexivity. Defined.

Lemma session_end_denies_witness :
  exists s', step (CancelSession "s2") demo_state = Some s' /\ ((demo_request "b" "s2" ∈ list_pending_approvals s') -> False).
Proof.
  eexists. split; [reflexivity|]. intros Hin.
  destruct (session_end_denies demo_run demo_state "s2" _ ltac:(vm_compute; reflexivity) eq_refl) as [H _].
  apply H in Hin as [_ Hne]. apply Hne. reflexivity.
Defined.

(** The timer can fire after a decision was taken and before it is sent: the
    call denies, and the decision is published as if it had been applied. *)
Lemma published_allow_but_denied :
  exists s, run [Register (demo_request "a" "s1"); TakeDecision "a" ApprovalDecision.Allow; Timeout "a";
                 SendDecision "a" ApprovalDecision.Allow; TearDown "a";
                 Publish (mkResolution "a" ApprovalResolution.Decided (Some ApprovalDecision.Allow))] init = Some s /\
    fst <$> s.(calls) !! "a" = Some (Returned ApprovalDecision.Deny) /\
    s.(published) = [mkResolution "a" ApprovalResolution.Decided (Some ApprovalDecision.Allow)].
Proof. eexists. split; [vm_compute; reflexivity|]. split; reflexivity. Qed.
End Properties.
