(* ===== verification/ContextPackets.v ===== *)
(** * Context packets (crates/am-core/src/work_graph.rs)

    The bounded packet a session starts with: truncation, the budgeted builder,
    the rendering of the prompt, and the path patterns that keep files out. *)
From stdpp Require Import pretty.
From Stdlib Require Import SpecFloat Ascii String.
From S2P Require Import Prelude RustStr Enums Records.
#[local] Open Scope string_scope.
#[local] Open Scope Z_scope.

Definition CONTEXT_BUDGET_BYTES : Z := 24 * 1024.
Definition CONTEXT_HARD_CAP_BYTES : Z := 32 * 1024.
Definition CONTEXT_BUDGET_TOKENS : Z := 6000.
Definition CONTEXT_HARD_CAP_TOKENS : Z := 8000.

(** The binary64 value of the literal [0.8]. *)
Definition f64_0_8 : f64 := S754_finite false 7205759403792794 (-53).

Definition source_token_budget (source_kind : string) : Z :=
  if String.eqb source_kind "repo_file" then 3000
  else if String.eqb source_kind "memory" then 900
  else if String.eqb source_kind "doc" then 900
  else if String.eqb source_kind "handoff" || String.eqb source_kind "sibling" then 1200
  else if starts_with "search:" source_kind then 600
  else i64_max.

Definition truncate (value : string) (max : Z) : string :=
  let value := trim value in
  if len value <=? max then value
  else substring 0 (char_floor value (Z.to_nat (u_saturating_sub max 20))) value +:+ "... [trimmed]".

(** ** The builder *)

Record ContextPacketBuilder := mkBuilder {
  node_id : string;
  used_bytes : Z;
  used_tokens : Z;
  tokens_by_source : gmap string Z;
  inclusions : list ContextInclusion.t
}.

Definition new_builder (node_id : string) : ContextPacketBuilder := mkBuilder node_id 0 0 ∅ [].

(** The arguments of one [push]. *)
Record PushArgs := mkPush {
  p_source_kind : string;
  p_entity_id : option string;
  p_title : string;
  p_snippet : string;
  p_reason : string;
  p_score : f64
}.

Definition source_used (b : ContextPacketBuilder) (source_kind : string) : Z :=
  default 0 (b.(tokens_by_source) !! source_kind).

Definition push (a : PushArgs) (b : ContextPacketBuilder) : ContextPacketBuilder :=
  let snippet := truncate a.(p_snippet) 1400 in
  let title := truncate a.(p_title) 180 in
  let bytes := len a.(p_source_kind) + len title + len snippet + len a.(p_reason) in
  let estimated_tokens := Z.max (bytes / 4) 1 in
  if (CONTEXT_HARD_CAP_BYTES <? b.(used_bytes) + bytes) ||
     (CONTEXT_HARD_CAP_TOKENS <? b.(used_tokens) + estimated_tokens) then b
  else
    let over_soft_budget := (CONTEXT_BUDGET_BYTES <=? b.(used_bytes)) ||
                            (CONTEXT_BUDGET_TOKENS <=? b.(used_tokens)) in
    if over_soft_budget && SFltb a.(p_score) f64_0_8 then b
    else if source_token_budget a.(p_source_kind) <? source_used b a.(p_source_kind) + estimated_tokens then b
    else mkBuilder b.(node_id) (b.(used_bytes) + bytes) (b.(used_tokens) + estimated_tokens)
           (<[a.(p_source_kind) := source_used b a.(p_source_kind) + estimated_tokens]> b.(tokens_by_source))
           (b.(inclusions) ++
             [ContextInclusion.mk a.(p_source_kind) a.(p_entity_id) title snippet a.(p_reason)
                a.(p_score) bytes estimated_tokens]).

Definition build (node_id : string) (pushes : list PushArgs) : ContextPacketBuilder :=
  foldl (fun b a => push a b) (new_builder node_id) pushes.

Definition newline : string := String (ascii_of_nat 10) EmptyString.

Definition finish (id : string) (ts : Z) (b : ContextPacketBuilder) : ContextPacket.t :=
  ContextPacket.mk id b.(node_id) CONTEXT_BUDGET_BYTES b.(used_bytes)
    (foldl (fun s (i : ContextInclusion.t) =>
       s +:+ newline +:+ "- [" +:+ i.(ContextInclusion.source_kind) +:+ "] " +:+ i.(ContextInclusion.title) +:+
       " - " +:+ i.(ContextInclusion.reason))
      ("Perpetual selected a bounded context packet for this run." +:+ newline +:+
       "Use these inclusions as orientation; ask or search when more detail is needed." +:+ newline)
      b.(inclusions))
    b.(inclusions) ts.

Definition sum_by {A} (f : A -> Z) (l : list A) : Z := foldr (fun a n => f a + n) 0 l.

Definition render_context_packet_prompt (packet : ContextPacket.t) : string :=
  foldl (fun out (i : ContextInclusion.t) =>
      out +:+ newline +:+ "### " +:+ i.(ContextInclusion.source_kind) +:+ ": " +:+ i.(ContextInclusion.title) +:+
      newline +:+ "Reason: " +:+ i.(ContextInclusion.reason) +:+ newline +:+ i.(ContextInclusion.snippet) +:+ newline)
    ("Use this Perpetual context packet. It is intentionally bounded; do not assume omitted files or transcript history are irrelevant if you discover you need them." +:+
     newline +:+ newline +:+ "Context budget: " +:+ pretty packet.(ContextPacket.used_bytes) +:+ "/" +:+
     pretty packet.(ContextPacket.budget_bytes) +:+ " bytes (~" +:+
     pretty (sum_by ContextInclusion.estimated_tokens packet.(ContextPacket.inclusions)) +:+ " tokens) used." +:+
     newline +:+ newline +:+ "## Selected Context" +:+ newline)
    packet.(ContextPacket.inclusions).

(** ** Denied paths *)

Definition wildcard_path (pattern value : string) : bool :=
  if String.eqb pattern "*" || String.eqb pattern "**/*" then true
  else
    let pattern := trim_start_matches "**/" pattern in
    match strip_prefix "*" pattern with
    | Some suffix => ends_with suffix value
    | None =>
        match strip_suffix "*" pattern with
        | Some prefix => starts_with prefix value
        | None => String.eqb value pattern || ends_with pattern value
        end
    end.

Definition path_denied (path : string) (globs : list string) : bool :=
  existsb (fun glob => wildcard_path glob path) globs.

Record ContextDenials := mkDenials { global : list string; per_repo : gmap string (list string) }.

Definition denies (d : ContextDenials) (repo_id path : string) : bool :=
  path_denied path d.(global) || is_some_and (d.(per_repo) !! repo_id) (path_denied path).

(** The globs that apply to a node: the node and its repositories are ignored. *)
Definition denied_context_globs_for_node (node : WorkNode.t) (repo_ids : list string) : ContextDenials :=
  mkDenials [] ∅.

(** ** Lemmas *)

Lemma sum_by_snoc {A} (f : A -> Z) l a : sum_by f (l ++ [a]) = sum_by f l + f a.
Proof. induction l as [|b l IH]; cbn; [lia|]. fold (sum_by f (l ++ [a])). rewrite IH. unfold sum_by. lia. Qed.

Lemma truncate_len value max : 20 <= max -> len (truncate value max) <= max.
Proof.
  intros Hmax. unfold truncate. destruct (Z.leb_spec (len (trim value)) max); [done|].
  rewrite len_app. change (len "... [trimmed]") with 13.
  pose proof (length_substring0 (char_floor (trim value) (Z.to_nat (u_saturating_sub max 20))) (trim value)).
  pose proof (char_floor_le (trim value) (Z.to_nat (u_saturating_sub max 20))).
  unfold len, u_saturating_sub in *. lia.
Qed.

Lemma source_token_budget_nonneg k : 0 <= source_token_budget k.
Proof. unfold source_token_budget. repeat case_match; unfold i64_max; lia. Qed.

(** The tokens of one source among the inclusions. *)
Definition source_tokens (k : string) (l : list ContextInclusion.t) : Z :=
  sum_by ContextInclusion.estimated_tokens (filter (fun i => i.(ContextInclusion.source_kind) = k) l).

Record builder_ok (b : ContextPacketBuilder) : Prop := {
  ok_bytes : b.(used_bytes) = sum_by ContextInclusion.bytes b.(inclusions);
  ok_tokens : b.(used_tokens) = sum_by ContextInclusion.estimated_tokens b.(inclusions);
  ok_sources : forall k, source_used b k = source_tokens k b.(inclusions);
  ok_cap_bytes : b.(used_bytes) <= CONTEXT_HARD_CAP_BYTES;
  ok_cap_tokens : b.(used_tokens) <= CONTEXT_HARD_CAP_TOKENS;
  ok_cap_source : forall k, source_used b k <= source_token_budget k;
  ok_item : forall i, i ∈ b.(inclusions) ->
    len i.(ContextInclusion.title) <= 180 /\ len i.(ContextInclusion.snippet) <= 1400 /\
    i.(ContextInclusion.bytes) = len i.(ContextInclusion.source_kind) + len i.(ContextInclusion.title) +
      len i.(ContextInclusion.snippet) + len i.(ContextInclusion.reason) /\
    i.(ContextInclusion.estimated_tokens) = Z.max (i.(ContextInclusion.bytes) / 4) 1
}.

Lemma builder_ok_new id : builder_ok (new_builder id).
Proof.
  split; cbn; try done; intros k; unfold source_used; cbn; rewrite ?lookup_empty; cbn; try done.
  - apply source_token_budget_nonneg.
  - by intros ?%elem_of_nil.
Qed.

Lemma builder_ok_push a b : builder_ok b -> builder_ok (push a b).
Proof.
  intros Hb. unfold push. cbv zeta. case_match eqn:Hhard; [done|]. case_match eqn:Hsoft; [done|]. clear Hsoft.
  case_match eqn:Hsrc; [done|].
  apply orb_false_iff in Hhard as [Hbytes Htok]. apply Z.ltb_ge in Hbytes, Htok, Hsrc.
  pose proof (truncate_len (p_title a) 180 ltac:(lia)). pose proof (truncate_len (p_snippet a) 1400 ltac:(lia)).
  destruct Hb as [H1 H2 H3 H4 H5 H6 H7]. split; cbn [used_bytes used_tokens inclusions].
  - by rewrite sum_by_snoc, H1.
  - by rewrite sum_by_snoc, H2.
  - intros k. unfold source_used at 1, source_tokens. cbn [tokens_by_source].
    rewrite filter_app, filter_cons. cbn. destruct (decide (p_source_kind a = k)) as [->|Hk].
    + rewrite lookup_insert_eq. cbn. rewrite sum_by_snoc. cbn. by rewrite H3.
    + rewrite lookup_insert_ne by done. cbn. rewrite app_nil_r. apply H3.
  - lia.
  - lia.
  - intros k. unfold source_used at 1. cbn [tokens_by_source]. rewrite lookup_insert.
    case_decide as Hk; subst; cbn; [lia|apply H6].
  - intros i [Hi| ->%list_elem_of_singleton]%elem_of_app; [by apply H7|]. cbn. done.
Qed.

Lemma builder_ok_build id pushes : builder_ok (build id pushes).
Proof.
  unfold build. generalize (builder_ok_new id). generalize (new_builder id).
  induction pushes as [|a l IH]; intros b Hb; cbn; [done|]. by apply IH, builder_ok_push.
Qed.

Module Properties.

(** a context packet never exceeds its budgets: whatever is pushed, the byte
    and token totals stay within the hard caps, every source within its own
    ceiling, each title and snippet within its length, and the totals are exactly
    the sums over the inclusions. *)
Theorem packet_within_budget node_id pushes ts id :
  let b := build node_id pushes in
  let p := finish id ts b in
  p.(ContextPacket.used_bytes) = sum_by ContextInclusion.bytes p.(ContextPacket.inclusions) /\
  p.(ContextPacket.used_bytes) <= CONTEXT_HARD_CAP_BYTES /\
  sum_by ContextInclusion.estimated_tokens p.(ContextPacket.inclusions) <= CONTEXT_HARD_CAP_TOKENS /\
  (forall k, source_tokens k p.(ContextPacket.inclusions) <= source_token_budget k) /\
  forall i, i ∈ p.(ContextPacket.inclusions) ->
    len i.(ContextInclusion.title) <= 180 /\ len i.(ContextInclusion.snippet) <= 1400.
Proof.
  cbn [finish ContextPacket.used_bytes ContextPacket.inclusions]. destruct (builder_ok_build node_id pushes) as [H1 H2 H3 H4 H5 H6 H7].
  split_and!; [done|done|rewrite <- H2; done|intros k; rewrite <- H3; apply H6|].
  intros i Hi. by destruct (H7 i Hi) as (? & ? & _).
Qed.

(** a rule scoped to one repository decides for that repository only: adding
    globs for [a] changes the verdict on a path of [b] exactly when [b] is [a]
    and one of the new globs matches. *)
Theorem denials_scoped d a globs b path :
  denies (mkDenials d.(global) (<[a := (default [] (d.(per_repo) !! a) ++ globs)%list]> d.(per_repo))) b path =
  denies d b path || (String.eqb a b && path_denied path globs).
Proof.
  unfold denies. cbn [global per_repo]. rewrite lookup_insert.
  destruct (String.eqb_spec a b) as [->|Hne].
  - rewrite decide_True by done. unfold path_denied at 2. cbn [is_some_and].
    rewrite existsb_app. destruct (per_repo d !! b); cbn; by rewrite ?orb_assoc, ?orb_false_r.
  - rewrite decide_False by done. by rewrite orb_false_r.
Qed.

End Properties.
