(* ===== verification/Gating.v ===== *)
(** * Gating structure of the work graph (crates/am-core/src/work_graph.rs)

    The pure functions the plan driver and the edge commands share: which edges
    gate, whether the gating edges are acyclic (Kahn's algorithm), what a failed
    node takes down with it, and which nodes may start. *)
From S2P Require Import Prelude RustStr Enums Records.

(** ** Statuses, priorities, gating edges *)

Definition is_success_status (status : TaskStatus.t) : bool :=
  match status with TaskStatus.Done | TaskStatus.Cancelled => true | _ => false end.

Definition is_active_status (status : TaskStatus.t) : bool :=
  match status with
  | TaskStatus.Running | TaskStatus.AwaitingApproval
  | TaskStatus.WaitingForLimit | TaskStatus.WaitingForNetwork => true
  | _ => false
  end.

Definition priority_rank (priority : TaskPriority.t) : Z :=
  match priority with
  | TaskPriority.Urgent => 3
  | TaskPriority.High => 2
  | TaskPriority.Medium => 1
  | TaskPriority.Low => 0
  end.

(** The (prerequisite, dependent) pair of a gating edge. *)
Definition gating_dependency (edge : WorkEdge.t) : option (string * string) :=
  match edge.(WorkEdge.kind) with
  | WorkEdgeKind.DependsOn => Some (edge.(WorkEdge.target_id), edge.(WorkEdge.source_id))
  | WorkEdgeKind.Blocks | WorkEdgeKind.Handoff =>
      Some (edge.(WorkEdge.source_id), edge.(WorkEdge.target_id))
  | WorkEdgeKind.SharesContext | WorkEdgeKind.RelatesTo => None
  end.

Definition is_group (node : WorkNode.t) : bool :=
  bool_decide (node.(WorkNode.kind) = WorkNodeKind.Group).

(** [HashMap::from_iter] keeps the last entry of a key. *)
Definition nodes_by_id (nodes : list WorkNode.t) : gmap string WorkNode.t :=
  foldl (fun m node => <[node.(WorkNode.id) := node]> m) ∅ nodes.

Definition prerequisites_complete (node_id : string) (graph : WorkGraph.t) : bool :=
  let by_id := nodes_by_id graph.(WorkGraph.nodes) in
  forallb (fun '(prereq, _) =>
             is_some_and (by_id !! prereq) (fun node => is_success_status node.(WorkNode.status)))
    (filter (fun '(_, dependent) => dependent = node_id)
       (omap gating_dependency graph.(WorkGraph.edges))).

Definition plan_counts (graph : WorkGraph.t) : Z * Z * Z :=
  foldl (fun '(completed, active, blocked) node =>
           if is_success_status node.(WorkNode.status) then (completed + 1, active, blocked)
           else if is_active_status node.(WorkNode.status) then (completed, active + 1, blocked)
           else if negb (prerequisites_complete node.(WorkNode.id) graph)
                then (completed, active, blocked + 1)
                else (completed, active, blocked))
    (0, 0, 0) (filter (fun node => is_group node = false) graph.(WorkGraph.nodes)).

Definition startable (graph : WorkGraph.t) (node : WorkNode.t) : bool :=
  match node.(WorkNode.kind) with WorkNodeKind.Task | WorkNodeKind.Session => true | _ => false end &&
  match node.(WorkNode.status) with
  | TaskStatus.Draft | TaskStatus.Queued | TaskStatus.Paused => true
  | _ => false
  end &&
  prerequisites_complete node.(WorkNode.id) graph.

(** The comparator of [sort_by]: higher priority, then lower sort order, then
    older. *)
Definition ready_cmp (a b : WorkNode.t) : comparison :=
  match Z.compare (priority_rank b.(WorkNode.priority)) (priority_rank a.(WorkNode.priority)) with
  | Eq => match Z.compare a.(WorkNode.sort_order) b.(WorkNode.sort_order) with
          | Eq => Z.compare a.(WorkNode.created_at) b.(WorkNode.created_at)
          | c => c
          end
  | c => c
  end.

Definition ready_leb (a b : WorkNode.t) : bool := if ready_cmp a b is Gt then false else true.
Abbreviation ready_le := (le_of ready_leb).

Definition ready_runnable_nodes (graph : WorkGraph.t) : list WorkNode.t :=
  sort_by ready_leb (filter (fun node => startable graph node = true) graph.(WorkGraph.nodes)).

Definition manual_gate_pending (graph : WorkGraph.t) : bool :=
  existsb (fun node =>
    negb (is_group node) &&
    (bool_decide (node.(WorkNode.status) = TaskStatus.Review) ||
     (bool_decide (node.(WorkNode.kind) = WorkNodeKind.Milestone) &&
      negb (bool_decide (node.(WorkNode.status) = TaskStatus.Done)) &&
      prerequisites_complete node.(WorkNode.id) graph)))
    graph.(WorkGraph.nodes).

Definition plan_start_error_is_retryable (error : string) : bool :=
  contains "already running" error || contains "maximum concurrent" error ||
  contains "repository is already locked" error.

(** ** Acyclicity check

    [HashMap] and [HashSet] iterate in an unspecified order: [iter] is any
    enumeration of a set without repetition. *)
Section Kahn.
Context (iter : gset string -> list string).

Record degrees := mkDegrees { outgoing : gmap string (gset string); indegree : gmap string Z }.

(** The order a hash set is iterated in: any, without repetition. *)
Definition enumerates : Prop := forall s, NoDup (iter s) /\ forall x, x ∈ iter s <-> x ∈ s.

(** The first loop: collect the distinct gating edges between known nodes. *)
Fixpoint count_edges (node_ids : gset string) (edges : list WorkEdge.t) (d : degrees) :
  result CoreError degrees :=
  match edges with
  | [] => Ok d
  | edge :: rest =>
      match gating_dependency edge with
      | None => count_edges node_ids rest d
      | Some (from, to) =>
          if decide (from = to) then
            Err (Other "a gating work link cannot target itself")
          else if decide (from ∉ node_ids \/ to ∉ node_ids) then count_edges node_ids rest d
          else
            let out := default ∅ (d.(outgoing) !! from) in
            if decide (to ∈ out) then count_edges node_ids rest d
            else count_edges node_ids rest
                   (mkDegrees (<[from := {[to]} ∪ out]> d.(outgoing))
                      (<[to := default 0 (d.(indegree) !! to) + 1]> d.(indegree)))
      end
  end.

(** [for next in outgoing.get(id)]: decrement and enqueue at zero. *)
Fixpoint relax (nexts : list string) (indeg : gmap string Z) (queue : list string) :
  gmap string Z * list string :=
  match nexts with
  | [] => (indeg, queue)
  | next :: rest =>
      let count := u_saturating_sub (default 0 (indeg !! next)) 1 in
      relax rest (<[next := count]> indeg) (if decide (count = 0) then queue ++ [next] else queue)
  end.

(** The [while let Some(id) = queue.pop_front()] loop; a node is enqueued when
    its count reaches zero, hence at most once, so the node count is fuel. *)
Fixpoint visit (fuel : nat) (out : gmap string (gset string)) (indeg : gmap string Z)
  (queue : list string) (visited : nat) : option nat :=
  match queue with
  | [] => Some visited
  | id :: queue =>
      match fuel with
      | O => None
      | S fuel =>
          let nexts := match out !! id with Some s => iter s | None => [] end in
          let '(indeg, queue) := relax nexts indeg queue in
          visit fuel out indeg queue (S visited)
      end
  end.

Definition node_id_set (nodes : list WorkNode.t) : gset string :=
  list_to_set (WorkNode.id <$> nodes).

(** The check with the fuel of its loop: [None] is a loop that has not ended. *)
Definition check_gating_edges (fuel : nat) (nodes : list WorkNode.t) (edges : list WorkEdge.t) :
  option (result CoreError ()) :=
  let node_ids := node_id_set nodes in
  let zero := set_to_map (fun id => (id, 0)) node_ids in
  match count_edges node_ids edges (mkDegrees ∅ zero) with
  | Err e => Some (Err e)
  | Ok d =>
      let queue := filter (fun id => d.(indegree) !! id = Some 0) (iter (dom d.(indegree))) in
      visited ← visit fuel d.(outgoing) d.(indegree) queue 0;
      Some (if decide (visited = length nodes) then Ok ()
            else Err (Other "gating work links must not create dependency cycles"))
  end.

(** The fuel is the number of nodes, with which the loop always ends
    ([check_ends]); the default is never the answer. *)
Definition validate_gating_edges_acyclic (nodes : list WorkNode.t) (edges : list WorkEdge.t) : result CoreError () :=
  default (Err (Other "out of fuel")) (check_gating_edges (length nodes) nodes edges).
End Kahn.

(** *** Specification: the gating relation *)

Definition gating_pairs (edges : list WorkEdge.t) : list (string * string) :=
  omap gating_dependency edges.

(** [x] must finish before [y]: a gating edge between two nodes of the graph. *)
Definition gates (nodes : list WorkNode.t) (edges : list WorkEdge.t) (x y : string) : Prop :=
  x ∈ node_id_set nodes /\ y ∈ node_id_set nodes /\ (x, y) ∈ gating_pairs edges.

Definition acyclic (nodes : list WorkNode.t) (edges : list WorkEdge.t) : Prop :=
  forall x, ~ tc (gates nodes edges) x x.

Definition no_self_link (edges : list WorkEdge.t) : Prop :=
  forall x, (x, x) ∉ gating_pairs edges.

(** ** Correctness of the first loop *)

Definition out_of (out : gmap string (gset string)) (x : string) : gset string :=
  default ∅ (out !! x).

(** The predecessors of [y] among [U]. *)
Definition preds (out : gmap string (gset string)) (U : gset string) (y : string) : gset string :=
  filter (fun x => y ∈ out_of out x) U.

Lemma elem_of_preds out U y x : x ∈ preds out U y <-> y ∈ out_of out x /\ x ∈ U.
Proof. unfold preds. by rewrite elem_of_filter. Qed.

Lemma out_of_insert out from to x :
  out_of (<[from := {[to]} ∪ out_of out from]> out) x =
  if decide (x = from) then {[to]} ∪ out_of out from else out_of out x.
Proof.
  unfold out_of at 1. rewrite lookup_insert. case_decide; simplify_eq; [by rewrite decide_True|].
  by rewrite decide_False.
Qed.

(** The counts agree with the collected edges. *)
Definition degrees_ok (N : gset string) (d : degrees) : Prop :=
  dom d.(indegree) = N /\
  (forall x y, y ∈ out_of d.(outgoing) x -> x ∈ N /\ y ∈ N) /\
  forall y, y ∈ N -> d.(indegree) !! y = Some (Z.of_nat (size (preds d.(outgoing) N y))).

Lemma preds_insert_size out N from to y :
  from ∈ N -> to ∉ out_of out from ->
  size (preds (<[from := {[to]} ∪ out_of out from]> out) N y) =
  ((if decide (y = to) then 1 else 0) + size (preds out N y))%nat.
Proof.
  intros Hf Ht. case_decide as Hy; subst.
  - assert (preds (<[from:={[to]} ∪ out_of out from]> out) N to = {[from]} ∪ preds out N to) as ->.
    { apply set_eq. intros x. rewrite elem_of_union, elem_of_singleton, !elem_of_preds, out_of_insert.
      case_decide; subst; set_solver. }
    rewrite size_union, size_singleton; [done|].
    apply disjoint_singleton_l. rewrite elem_of_preds. tauto.
  - cbn. f_equal. apply set_eq. intros x. rewrite !elem_of_preds, out_of_insert.
    case_decide; subst; set_solver.
Qed.

Lemma degrees_ok_add N d from to :
  degrees_ok N d -> from ∈ N -> to ∈ N -> to ∉ out_of d.(outgoing) from ->
  degrees_ok N (mkDegrees (<[from := {[to]} ∪ out_of d.(outgoing) from]> d.(outgoing))
                  (<[to := default 0 (d.(indegree) !! to) + 1]> d.(indegree))).
Proof.
  intros (Hdom & Hin & Hcnt) Hf Ht Hnew. split_and!; cbn.
  - rewrite dom_insert_L. set_solver.
  - intros x y. rewrite out_of_insert. case_decide; subst; [|apply Hin].
    intros [->%elem_of_singleton|Hy]%elem_of_union; [done|]. by apply Hin.
  - intros y Hy. rewrite preds_insert_size by done. rewrite lookup_insert.
    rewrite (Hcnt to Ht). cbn. case_decide; subst; [rewrite decide_True by done|rewrite decide_False by done].
    + f_equal. lia.
    + rewrite Hcnt by done. f_equal.
Qed.

Lemma count_edges_ok N edges d d' :
  degrees_ok N d -> count_edges N edges d = Ok d' ->
  degrees_ok N d' /\ no_self_link edges /\
  forall x y, y ∈ out_of d'.(outgoing) x <->
    y ∈ out_of d.(outgoing) x \/ (x ∈ N /\ y ∈ N /\ (x, y) ∈ gating_pairs edges).
Proof.
  revert d. induction edges as [|edge rest IH]; intros d Hd; cbn.
  { intros [= ->]. split_and!; [done|by intros x ?%elem_of_nil|].
    intros x y. rewrite elem_of_nil. tauto. }
  unfold no_self_link, gating_pairs in *. cbn.
  destruct (gating_dependency edge) as [[from to]|]; [|by apply IH].
  destruct (decide (from = to)) as [->|Hne]; [done|].
  assert (forall x, (x, x) ∈ (from, to) :: omap gating_dependency rest <->
                    (x, x) ∈ omap gating_dependency rest) as Hself
    by (intros x; rewrite elem_of_cons; naive_solver).
  destruct (decide (from ∉ N \/ to ∉ N)) as [Hout|Hin].
  { intros Hc. destruct (IH _ Hd Hc) as (Hd' & Hn & Hiff). split_and!; [done| |].
    - intros x. rewrite Hself. apply Hn.
    - intros x y. rewrite Hiff, elem_of_cons. naive_solver. }
  assert (from ∈ N /\ to ∈ N) as [Hf Ht] by (split; apply dec_stable; tauto).
  change (default ∅ (outgoing d !! from)) with (out_of (outgoing d) from).
  destruct (decide (to ∈ out_of (outgoing d) from)) as [Hdup|Hnew]; intros Hc.
  - destruct (IH _ Hd Hc) as (Hd' & Hn & Hiff). split_and!; [done| |].
    + intros x. rewrite Hself. apply Hn.
    + intros x y. rewrite Hiff, elem_of_cons. naive_solver.
  - destruct (IH _ (degrees_ok_add _ _ _ _ Hd Hf Ht Hnew) Hc) as (Hd' & Hn & Hiff).
    split_and!; [done| |].
    + intros x. rewrite Hself. apply Hn.
    + intros x y. rewrite Hiff, elem_of_cons. cbn. rewrite out_of_insert.
      case_decide; subst; rewrite ?elem_of_union, ?elem_of_singleton; naive_solver.
Qed.

(** The loop fails only on a self link. *)
Lemma count_edges_total N edges d :
  no_self_link edges -> is_ok (count_edges N edges d) = true.
Proof.
  unfold no_self_link, gating_pairs.
  revert d. induction edges as [|edge rest IH]; intros d; cbn; [done|].
  destruct (gating_dependency edge) as [[from to]|]; [|apply IH].
  intros Hn. rewrite decide_False by (intros ->; apply (Hn to); by left).
  assert (forall x, (x, x) ∉ omap gating_dependency rest) by (intros x ?; apply (Hn x); by right).
  repeat case_decide; by apply IH.
Qed.

Lemma degrees_ok_init N : degrees_ok N (mkDegrees ∅ (set_to_map (fun id => (id, 0)) N)).
Proof.
  assert (forall y, y ∈ N -> (set_to_map (fun id : string => (id, 0)) N : gmap string Z) !! y = Some 0) as Hz.
  { intros y Hy. apply lookup_set_to_map; [naive_solver|]. eauto. }
  split_and!; cbn.
  - apply set_eq. intros y. rewrite elem_of_dom. split; [|intros Hy; rewrite Hz by done; eauto].
    intros [v Hv]. apply lookup_set_to_map in Hv as (z & Hz' & ?); [by simplify_eq|naive_solver].
  - intros x y. unfold out_of. rewrite lookup_empty. set_solver.
  - intros y Hy. rewrite Hz by done. f_equal.
    assert (preds ∅ N y = ∅) as ->; [|done]. apply set_eq. intros x. rewrite elem_of_preds.
    unfold out_of. rewrite lookup_empty. set_solver.
Qed.

(** ** Correctness of the second loop *)

Lemma relax_spec nexts indeg queue indeg' queue' :
  NoDup nexts -> relax nexts indeg queue = (indeg', queue') ->
  let dec n := u_saturating_sub (default 0 (indeg !! n)) 1 in
  (forall y, indeg' !! y = if decide (y ∈ nexts) then Some (dec y) else indeg !! y) /\
  queue' = queue ++ filter (fun n => dec n = 0) nexts.
Proof.
  intros Hnd. revert indeg queue. induction Hnd as [|n nexts Hn Hnd IH]; intros indeg queue; cbn [relax]; cbv zeta.
  { intros [= <- <-]. split; [done|by rewrite app_nil_r]. }
  intros Hr. apply IH in Hr as [Hm Hq].
  assert (forall y, y ∈ nexts -> <[n := u_saturating_sub (default 0 (indeg !! n)) 1]> indeg !! y = indeg !! y) as Hne.
  { intros y Hy. apply lookup_insert_ne. by intros ->. }
  split.
  - intros y. rewrite Hm. destruct (decide (y ∈ nexts)) as [Hy|Hy].
    + rewrite Hne, decide_True by (done || by right). done.
    + rewrite lookup_insert. destruct (decide (n = y)) as [->|].
      * by rewrite decide_True by left.
      * rewrite decide_False; [done|]. by intros [->|]%elem_of_cons.
  - rewrite Hq. set (P := fun n => u_saturating_sub (default 0 (indeg !! n)) 1 = 0).
    change (filter P (n :: nexts)) with (if decide (P n) then n :: filter P nexts else filter P nexts).
    rewrite (filter_ext_in _ P nexts) by (intros y Hy; unfold P; by rewrite Hne).
    unfold P. repeat case_decide; try contradiction; by rewrite <- ?app_assoc.
Qed.

Section Visit.
Context (iter : gset string -> list string).
Hypothesis iter_enum : enumerates iter.
Context (out : gmap string (gset string)) (N : gset string).
Hypothesis out_in : forall x y, y ∈ out_of out x -> x ∈ N /\ y ∈ N.

(** Unvisited predecessors of [y]. *)
Definition waiting (V : list string) (y : string) : nat := size (preds out (N ∖ list_to_set V) y).

Record VInv (V Q : list string) (indeg : gmap string Z) : Prop := {
  v_nodup : NoDup (V ++ Q);
  v_nodes : forall x, x ∈ V ++ Q -> x ∈ N;
  v_count : forall y, y ∈ N -> indeg !! y = Some (Z.of_nat (waiting V y));
  v_ready : forall y, y ∈ N -> (y ∈ V ++ Q <-> waiting V y = 0%nat);
  v_acc : forall y, y ∈ V -> Acc (fun x y => y ∈ out_of out x) y
}.

Lemma waiting_zero V y : waiting V y = 0%nat <-> forall x, y ∈ out_of out x -> x ∈ V.
Proof.
  unfold waiting. rewrite size_empty_iff. split.
  - intros He x Hx. destruct (decide (x ∈ V)) as [|Hn]; [done|]. exfalso.
    apply (not_elem_of_empty (C:=gset string) x). rewrite <- He. apply elem_of_preds.
    split; [done|]. apply elem_of_difference. rewrite elem_of_list_to_set.
    split; [by apply (out_in x y)|done].
  - intros H x. split; [|by intros ?%elem_of_empty].
    intros [Hx [_ Hn]%elem_of_difference]%elem_of_preds. rewrite elem_of_list_to_set in Hn.
    exfalso. by apply Hn, H.
Qed.

Lemma waiting_visit V id y :
  id ∈ N -> id ∉ V ->
  waiting V y = ((if decide (y ∈ out_of out id) then 1 else 0) + waiting (V ++ [id]) y)%nat.
Proof.
  intros Hid Hn. unfold waiting. case_decide as Hy.
  - assert (preds out (N ∖ list_to_set V) y = {[id]} ∪ preds out (N ∖ list_to_set (V ++ [id])) y) as ->.
    { apply set_eq. intros x. rewrite elem_of_union, elem_of_singleton, !elem_of_preds,
        !elem_of_difference, !elem_of_list_to_set, elem_of_app, list_elem_of_singleton.
      destruct (decide (x = id)) as [->|]; naive_solver. }
    rewrite size_union, size_singleton; [done|]. apply disjoint_singleton_l.
    rewrite elem_of_preds, elem_of_difference, elem_of_list_to_set, elem_of_app,
      list_elem_of_singleton. tauto.
  - cbn. f_equal. apply set_eq. intros x. rewrite !elem_of_preds,
      !elem_of_difference, !elem_of_list_to_set, elem_of_app, list_elem_of_singleton.
    destruct (decide (x = id)) as [->|]; naive_solver.
Qed.
Lemma VInv_step V id Q indeg indeg' Q' :
  VInv V (id :: Q) indeg ->
  relax (match out !! id with Some s => iter s | None => [] end) indeg Q = (indeg', Q') ->
  VInv (V ++ [id]) Q' indeg'.
Proof.
  intros [Hnd Hin Hcnt Hready Hacc] Hr.
  set (nexts := match out !! id with Some s => iter s | None => [] end) in *.
  assert (NoDup nexts /\ forall y, y ∈ nexts <-> y ∈ out_of out id) as [Hnn Hnext].
  { unfold nexts, out_of. destruct (out !! id); [apply iter_enum|]. split; [constructor|].
    intros y. cbn. rewrite elem_of_nil. set_solver. }
  apply relax_spec in Hr as [Hm ->]; [|done]. cbn in Hm.
  assert (id ∈ N) as Hid by (apply Hin, elem_of_app; right; left).
  assert (id ∉ V) as HidV.
  { intros HV. apply NoDup_app in Hnd as (_ & Hd & _). apply (Hd id HV). by left. }
  pose proof (waiting_visit V id) as Hw.
  assert (forall y, y ∈ N -> u_saturating_sub (default 0 (indeg !! y)) 1 = Z.of_nat (waiting V y) - 1
            \/ waiting V y = 0%nat) as Hdec.
  { intros y Hy. rewrite (Hcnt y Hy). cbn. unfold u_saturating_sub. lia. }
  assert (forall y, y ∈ filter (fun n => u_saturating_sub (default 0 (indeg !! n)) 1 = 0) nexts <->
            y ∈ out_of out id /\ waiting (V ++ [id]) y = 0%nat) as Hnew.
  { intros y. rewrite list_elem_of_filter, Hnext. split.
    - intros [Hz Hy]. split; [done|]. assert (y ∈ N) as HyN by by apply (out_in id).
      specialize (Hw y Hid HidV). rewrite decide_True in Hw by done. destruct (Hdec y HyN); lia.
    - intros [Hy Hz]. split; [|done]. assert (y ∈ N) as HyN by by apply (out_in id).
      specialize (Hw y Hid HidV). rewrite decide_True in Hw by done. destruct (Hdec y HyN); lia. }
  assert (forall y, y ∈ out_of out id -> y ∉ V ++ id :: Q) as Hfresh.
  { intros y Hy Hin'. apply Hready in Hin'; [|by apply (out_in id)].
    specialize (Hw y Hid HidV). rewrite decide_True in Hw by done. lia. }
  split.
  - rewrite <- app_assoc. cbn. rewrite app_comm_cons, app_assoc. apply NoDup_app. split_and!; [done| |].
    + intros y Hy [Hy' _]%Hnew. by apply (Hfresh y).
    + by apply NoDup_filter.
  - intros x. rewrite <- app_assoc. cbn. rewrite app_comm_cons, app_assoc.
    intros [Hx|[Hx _]%Hnew]%elem_of_app; [by apply Hin|by apply (out_in id)].
  - intros y Hy. rewrite Hm. specialize (Hw y Hid HidV).
    destruct (decide (y ∈ nexts)) as [Hyn|Hyn]; rewrite Hnext in Hyn.
    + rewrite decide_True in Hw by done. f_equal. destruct (Hdec y Hy); lia.
    + rewrite decide_False in Hw by done. rewrite Hcnt by done. f_equal. lia.
  - intros y Hy. rewrite <- app_assoc. cbn. rewrite app_comm_cons, app_assoc, elem_of_app.
    rewrite Hnew, (Hready y Hy). specialize (Hw y Hid HidV).
    destruct (decide (y ∈ out_of out id)); [|naive_solver lia].
    split; [|auto]. intros [?|[_ ?]]; lia.
  - intros y [Hy| ->%list_elem_of_singleton]%elem_of_app; [auto|].
    constructor. intros x Hx. apply Hacc.
    assert (waiting V id = 0%nat) as Hz by (apply Hready; [done|]; apply elem_of_app; right; left).
    rewrite waiting_zero in Hz. by apply Hz.
Qed.

Lemma VInv_length V Q indeg : VInv V Q indeg -> (length V + length Q <= size N)%nat.
Proof.
  intros [Hnd Hin _ _ _]. rewrite <- length_app, <- (size_list_to_set (C:=gset string)) by done.
  apply subseteq_size. intros x. rewrite elem_of_list_to_set. apply Hin.
Qed.

(** The loop always ends with an empty queue. *)
Lemma visit_spec fuel V Q indeg :
  VInv V Q indeg -> (size N <= fuel + length V)%nat ->
  exists V' indeg', visit iter fuel out indeg Q (length V) = Some (length V') /\ VInv V' [] indeg'.
Proof.
  revert V Q indeg. induction fuel as [|fuel IH]; intros V [|id Q] indeg HI Hf; cbn; [by eauto| |by eauto|].
  - apply VInv_length in HI. cbn in HI. lia.
  - destruct (relax _ _ _) as [indeg' Q'] eqn:Hr.
    pose proof (VInv_step _ _ _ _ _ _ HI Hr) as HI'.
    replace (S (length V)) with (length (V ++ [id])) by (rewrite length_app; cbn; lia).
    apply IH; [done|]. rewrite length_app. cbn. lia.
Qed.

(** All nodes are visited exactly when the collected edges have no cycle. *)
Lemma visited_all V indeg :
  VInv V [] indeg ->
  length V = size N <-> forall x, ~ tc (fun x y => y ∈ out_of out x) x x.
Proof.
  intros HI. pose proof (VInv_length _ _ _ HI) as Hlen. destruct HI as [Hnd Hin _ Hready Hacc].
  rewrite app_nil_r in *. split.
  - intros Heq x. apply Acc_irrefl. constructor. intros y Hy. apply Hacc.
    rewrite <- (elem_of_list_to_set (C:=gset string)).
    rewrite (set_subseteq_size_eq (list_to_set V) N); [by apply (out_in y x)| |].
    + intros z. rewrite elem_of_list_to_set. apply Hin.
    + rewrite size_list_to_set; [lia|done].
  - intros Hirr. apply Nat.le_antisymm; [cbn in Hlen; lia|].
    rewrite <- (size_list_to_set (C:=gset string)) by done. apply subseteq_size.
    intros x Hx. rewrite elem_of_list_to_set.
    assert (Acc (fun x y => y ∈ out_of out x) x) as HA by (apply (acyclic_Acc _ N); [|done]; apply out_in).
    induction HA as [x _ IH]. apply Hready; [done|]. apply waiting_zero. intros y Hy.
    apply IH; [done|]. by apply (out_in y x).
Qed.

End Visit.

Lemma tc_proper {A} (R S : relation A) : (forall x y, R x y <-> S x y) -> forall x y, tc R x y <-> tc S x y.
Proof.
  intros H x y. split; induction 1; [apply tc_once|eapply tc_l|apply tc_once|eapply tc_l]; try done; by apply H.
Qed.

Lemma out_of_empty x : out_of ∅ x = ∅.
Proof. unfold out_of. by rewrite lookup_empty. Qed.

Lemma waiting_nil out N y : waiting out N [] y = size (preds out N y).
Proof. unfold waiting. rewrite list_to_set_nil. by rewrite difference_empty_L. Qed.

(** What the check decides, for any iteration order of the hash sets. *)
Section Validate.
Context (iter : gset string -> list string).
Hypothesis iter_enum : enumerates iter.

Lemma visit_more fuel fuel' out indeg queue n visited :
  visit iter fuel out indeg queue n = Some visited -> (fuel <= fuel')%nat -> visit iter fuel' out indeg queue n = Some visited.
Proof.
  revert fuel' indeg queue n. induction fuel as [|fuel IH]; intros fuel' indeg [|id queue] n Hv Hf; cbn in Hv;
    [by destruct fuel'|done|by destruct fuel'|].
  destruct fuel' as [|fuel']; [lia|]. cbn. destruct (relax _ _ _) as [indeg' queue']. apply IH; [done|lia].
Qed.

(** Both loops end, whatever the links. *)
Lemma check_ends nodes edges fuel :
  (length nodes <= fuel)%nat ->
  check_gating_edges iter fuel nodes edges = Some (validate_gating_edges_acyclic iter nodes edges) /\
  (no_self_link edges ->
   let N := node_id_set nodes in
   exists d V indeg, count_edges N edges (mkDegrees ∅ (set_to_map (fun id => (id, 0)) N)) = Ok d /\
     degrees_ok N d /\ VInv (outgoing d) N V [] indeg /\
     validate_gating_edges_acyclic iter nodes edges =
       if decide (length V = length nodes) then Ok () else Err (Other "gating work links must not create dependency cycles")).
Proof.
  intros Hfuel. unfold validate_gating_edges_acyclic, check_gating_edges. set (N := node_id_set nodes).
  destruct (count_edges N edges _) as [d|] eqn:Hc;
    [|split; [done|]; intros Hns; pose proof (count_edges_total N edges (mkDegrees ∅ (set_to_map (fun id => (id, 0)) N)) Hns) as Ht;
      rewrite Hc in Ht; done].
  apply count_edges_ok in Hc as ((Hdom & Hin & Hcnt) & _ & Hout); [|apply degrees_ok_init].
  assert (VInv (outgoing d) N [] (filter (fun id => indegree d !! id = Some 0) (iter (dom (indegree d))))
            (indegree d)) as HI.
  { rewrite Hdom. destruct (iter_enum N) as [Hin1 Hin2]. split; cbn.
    - by apply NoDup_filter.
    - intros x [_ Hx]%list_elem_of_filter. by apply Hin2.
    - intros y Hy. by rewrite (Hcnt y Hy), waiting_nil.
    - intros y Hy. rewrite list_elem_of_filter, Hin2, (Hcnt y Hy), waiting_nil.
      split; [intros [[=] _]; lia|intros ->; done].
    - by intros y ?%elem_of_nil. }
  assert (size N <= length nodes)%nat as Hsize.
  { unfold N, node_id_set. rewrite <- (length_fmap WorkNode.id nodes).
    induction (WorkNode.id <$> nodes) as [|x l IH]; cbn; [by rewrite size_empty|].
    rewrite size_union_alt, size_singleton. apply le_n_S. etrans; [|exact IH]. apply subseteq_size. set_solver. }
  destruct (visit_spec iter iter_enum _ _ Hin (length nodes) _ _ _ HI) as (V & indeg & Hv & HV); [cbn; lia|]. cbn in Hv.
  rewrite (visit_more _ _ _ _ _ _ _ Hv Hfuel), Hv. split; [done|]. intros _. by exists d, V, indeg.
Qed.

Lemma validate_spec nodes edges :
  NoDup (WorkNode.id <$> nodes) -> no_self_link edges ->
  (validate_gating_edges_acyclic iter nodes edges = Ok () <-> acyclic nodes edges) /\
  (~ acyclic nodes edges ->
   validate_gating_edges_acyclic iter nodes edges = Err (Other "gating work links must not create dependency cycles")).
Proof.
  intros Hnd Hns. destruct (check_ends nodes edges (length nodes) ltac:(done)) as [_ He].
  destruct (He Hns) as (d & V & indeg & Hc & (_ & Hin & _) & HV & ->). clear He.
  apply count_edges_ok in Hc as (_ & _ & Hout); [|apply degrees_ok_init]. set (N := node_id_set nodes) in *.
  assert (size N = length nodes) as Hsize by (unfold N, node_id_set; rewrite size_list_to_set, length_fmap; done).
  pose proof (visited_all _ _ Hin _ _ HV) as Hall.
  assert ((forall x, ~ tc (fun x y => y ∈ out_of (outgoing d) x) x x) <-> acyclic nodes edges) as Hiff.
  { unfold acyclic. split; intros H x Hx; apply (H x); revert Hx; apply tc_proper; intros y z;
      rewrite Hout; cbn [outgoing]; rewrite out_of_empty; unfold gates; set_solver. }
  rewrite <- Hiff, <- Hall, Hsize. case_decide; by split.
Qed.

Lemma validate_self_link nodes edges :
  ~ no_self_link edges ->
  validate_gating_edges_acyclic iter nodes edges = Err (Other "a gating work link cannot target itself").
Proof.
  intros Hns. unfold validate_gating_edges_acyclic, check_gating_edges.
  assert (forall N d, ~ no_self_link edges ->
            count_edges N edges d = Err (Other "a gating work link cannot target itself")) as H.
  { clear Hns. intros N. unfold no_self_link, gating_pairs. induction edges as [|e rest IH]; intros d Hn; cbn.
    - exfalso. apply Hn. by intros x ?%elem_of_nil.
    - cbn in Hn. destruct (gating_dependency e) as [[from to]|]; [|by apply IH].
      destruct (decide (from = to)) as [->|Hne]; [done|].
      assert (~ forall x, (x, x) ∉ omap gating_dependency rest) as Hr.
      { intros Hr. apply Hn. intros x Hx. apply elem_of_cons in Hx as [Hx|Hx]; [congruence|by apply (Hr x)]. }
      repeat case_decide; by apply IH. }
  by rewrite H.
Qed.

Lemma validate_exact nodes edges :
  NoDup (WorkNode.id <$> nodes) ->
  (validate_gating_edges_acyclic iter nodes edges = Ok () <-> no_self_link edges /\ acyclic nodes edges).
Proof.
  intros Hnd. split.
  - intros Hv. assert (no_self_link edges) as Hns; [|split; [done|by apply (proj1 (validate_spec _ _ Hnd Hns))]].
    intros x Hx. rewrite validate_self_link in Hv; [done|]. intros Hn. by apply (Hn x).
  - intros [Hns Hac]. by apply (proj1 (validate_spec _ _ Hnd Hns)).
Qed.
End Validate.

Lemma elements_enum : enumerates elements.
Proof. intros s. split; [apply NoDup_elements|apply elem_of_elements]. Qed.

(** ** The closure of failed nodes ([gating_subtree_size]) *)

(** [dependents.entry(prerequisite).or_default().push(dependent)]. *)
Definition dependents_map (edges : list WorkEdge.t) : gmap string (list string) :=
  foldl (fun m edge =>
           match gating_dependency edge with
           | Some (prerequisite, dependent) =>
               <[prerequisite := default [] (m !! prerequisite) ++ [dependent]]> m
           | None => m
           end) ∅ edges.

Definition done_ids (nodes : list WorkNode.t) : gset string :=
  list_to_set (WorkNode.id <$> filter (fun node => is_success_status node.(WorkNode.status) = true) nodes).

Definition group_ids (nodes : list WorkNode.t) : gset string :=
  list_to_set (WorkNode.id <$> filter (fun node => is_group node = true) nodes).

(** The breadth-first loop; every gating edge is pushed at most once, when its
    prerequisite is first seen. *)
Fixpoint closure (fuel : nat) (dependents : gmap string (list string)) (done : gset string)
  (seen : gset string) (queue : list string) : option (gset string) :=
  match queue with
  | [] => Some seen
  | id :: queue =>
      match fuel with
      | O => None
      | S fuel =>
          if decide (id ∈ seen) then closure fuel dependents done seen queue
          else closure fuel dependents done ({[id]} ∪ seen)
                 (queue ++ filter (fun next => next ∉ done) (default [] (dependents !! id)))
      end
  end.

Definition gating_subtree_size (roots : list string) (graph : WorkGraph.t) : Z :=
  let edges := graph.(WorkGraph.edges) in
  let done := done_ids graph.(WorkGraph.nodes) in
  match closure (length roots + length edges) (dependents_map edges) done ∅ roots with
  | Some seen => Z.of_nat (size (filter (fun id => id ∉ group_ids graph.(WorkGraph.nodes)) seen))
  | None => 0
  end.

(** [y] is lost with [x]: gated on it and not already finished. *)
Definition drags (edges : list WorkEdge.t) (done : gset string) (x y : string) : Prop :=
  (x, y) ∈ gating_pairs edges /\ y ∉ done.

Lemma dependents_map_lookup edges id :
  default [] (dependents_map edges !! id) = (filter (fun p => p.1 = id) (gating_pairs edges)).*2.
Proof.
  unfold dependents_map, gating_pairs. induction edges as [|e edges IH] using rev_ind; [done|].
  rewrite foldl_app, omap_app, filter_app, fmap_app, <- IH. cbn.
  destruct (gating_dependency e) as [[p d]|]; cbn; [|by rewrite app_nil_r].
  rewrite lookup_insert. destruct (decide (p = id)) as [->|Hne]; cbn; [done|].
  by rewrite app_nil_r.
Qed.

(** Edges not yet pushed. *)
Definition unpushed (edges : list WorkEdge.t) (seen : gset string) : nat :=
  length (filter (fun p => p.1 ∉ seen) (gating_pairs edges)).

Lemma unpushed_see edges seen id :
  id ∉ seen ->
  unpushed edges seen =
  (length (filter (fun p => p.1 = id) (gating_pairs edges)) + unpushed edges ({[id]} ∪ seen))%nat.
Proof.
  intros Hid. unfold unpushed. induction (gating_pairs edges) as [|p l IH]; [done|].
  rewrite !filter_cons. destruct (decide (p.1 = id)) as [Hp|Hp].
  - rewrite decide_True, decide_False by (rewrite ?Hp; set_solver). cbn. lia.
  - destruct (decide (p.1 ∈ seen)).
    + rewrite !decide_False by set_solver. done.
    + rewrite !decide_True by set_solver. cbn. lia.
Qed.

Lemma elem_of_pushed edges done id y :
  y ∈ filter (fun next => next ∉ done) (default [] (dependents_map edges !! id)) <->
  drags edges done id y.
Proof.
  rewrite list_elem_of_filter, dependents_map_lookup, list_elem_of_fmap. unfold drags. split.
  - intros [Hd ([p q] & -> & [Hp Hin]%list_elem_of_filter)]. cbn in *. by subst.
  - intros [Hin Hd]. split; [done|]. exists (id, y). split; [done|]. by apply list_elem_of_filter.
Qed.

(** Whatever is reachable from a closed set passes through the queue. *)
Lemma reach_seen edges done (seen : gset string) (queue : list string) z x :
  (forall x y, x ∈ seen -> drags edges done x y -> y ∈ seen \/ y ∈ queue) ->
  rtc (drags edges done) z x -> z ∈ seen ->
  x ∈ seen \/ exists r, r ∈ queue /\ rtc (drags edges done) r x.
Proof.
  intros Hcl Hr. induction Hr as [z|z y x Hzy Hyx IH]; intros Hz; [auto|].
  destruct (Hcl z y Hz Hzy) as [|Hy]; [auto|]. right. by exists y.
Qed.

Lemma closure_spec edges done fuel seen queue :
  (length queue + unpushed edges seen <= fuel)%nat ->
  (forall x y, x ∈ seen -> drags edges done x y -> y ∈ seen \/ y ∈ queue) ->
  exists seen', closure fuel (dependents_map edges) done seen queue = Some seen' /\
    (forall x, x ∈ seen' <-> x ∈ seen \/ exists r, r ∈ queue /\ rtc (drags edges done) r x).
Proof.
  assert (forall (seen : gset string) x, x ∈ seen <->
            x ∈ seen \/ exists r, r ∈ ([] : list string) /\ rtc (drags edges done) r x) as Hnil.
  { intros ? x. split; [auto|]. intros [|(r & ?%elem_of_nil & _)]; done. }
  revert seen queue. induction fuel as [|fuel IH]; intros seen [|id queue] Hf Hcl; cbn in *;
    try (eexists; split; [done|apply Hnil]); try lia.
  destruct (decide (id ∈ seen)) as [Hid|Hid].
  - destruct (IH seen queue) as (seen' & -> & Hs); [lia| |].
    { intros x y Hx Hy. destruct (Hcl x y Hx Hy) as [|[->|]%elem_of_cons]; auto. }
    exists seen'. split; [done|]. intros x. rewrite Hs. split.
    + intros [|(r & Hr & Hrx)]; [auto|]. right. exists r. split; [by right|done].
    + intros [|(r & [->|Hr]%elem_of_cons & Hrx)]; [auto| |eauto].
      eapply (reach_seen edges done seen queue id); [|done..].
      intros z y Hz Hy. destruct (Hcl z y Hz Hy) as [|[->|]%elem_of_cons]; auto.
  - set (new := filter (fun next => next ∉ done) (default [] (dependents_map edges !! id))).
    assert (length new <= length (filter (fun p => p.1 = id) (gating_pairs edges)))%nat as Hlen.
    { unfold new. rewrite length_filter, dependents_map_lookup, length_fmap. done. }
    pose proof (unpushed_see edges seen id Hid) as Hup.
    destruct (IH ({[id]} ∪ seen) (queue ++ new)) as (seen' & -> & Hs).
    { rewrite length_app. lia. }
    { intros x y [->%elem_of_singleton|Hx]%elem_of_union Hy; rewrite elem_of_app, elem_of_union, elem_of_singleton.
      - right. right. by apply elem_of_pushed.
      - destruct (Hcl x y Hx Hy) as [|[->|]%elem_of_cons]; auto. }
    exists seen'. split; [done|]. intros x. rewrite Hs, elem_of_union, elem_of_singleton. split.
    + intros [[->|]|(r & [Hr|Hr%elem_of_pushed]%elem_of_app & Hrx)]; [|by auto| |].
      * right. exists id. split; [by left|done].
      * right. exists r. split; [by right|done].
      * right. exists id. split; [by left|]. by eapply rtc_l.
    + intros [|(r & [->|Hr]%elem_of_cons & Hrx)]; [by auto| |].
      * apply rtc_inv in Hrx as [->|(y & Hy & Hyx)]; [by auto|]. right. exists y.
        split; [|done]. apply elem_of_app. right. by apply elem_of_pushed.
      * right. exists r. split; [|done]. apply elem_of_app. by left.
Qed.

(** ** Prerequisites *)

Lemma nodes_by_id_lookup nodes id node :
  NoDup (WorkNode.id <$> nodes) ->
  nodes_by_id nodes !! id = Some node <-> node ∈ nodes /\ node.(WorkNode.id) = id.
Proof.
  unfold nodes_by_id. induction nodes as [|n nodes IH] using rev_ind; intros Hnd; cbn.
  - rewrite lookup_empty. split; [done|]. by intros [?%elem_of_nil _].
  - rewrite foldl_app. cbn. rewrite fmap_app in Hnd. apply NoDup_app in Hnd as (Hnd & Hd & _).
    rewrite lookup_insert, elem_of_app, list_elem_of_singleton.
    destruct (decide (WorkNode.id n = id)) as [He|Hne].
    + split; [intros [= ->]; auto|]. intros [[Hin| ->] Hid]; [|done]. exfalso.
      apply (Hd id); [rewrite <- Hid; by apply list_elem_of_fmap_2|]. cbn. rewrite He. by left.
    + rewrite IH by done. naive_solver.
Qed.

(** The nodes of a graph have distinct ids (the table's primary key). *)
Definition distinct_ids (graph : WorkGraph.t) : Prop := NoDup (WorkNode.id <$> graph.(WorkGraph.nodes)).

Lemma prerequisites_complete_spec graph id :
  distinct_ids graph ->
  prerequisites_complete id graph = true <->
  forall p, (p, id) ∈ gating_pairs graph.(WorkGraph.edges) ->
    exists node, node ∈ graph.(WorkGraph.nodes) /\ node.(WorkNode.id) = p /\
                 is_success_status node.(WorkNode.status) = true.
Proof.
  intros Hnd. unfold prerequisites_complete. rewrite forallb_forall. split.
  - intros H p Hp. specialize (H (p, id)). cbn in H.
    destruct (nodes_by_id (WorkGraph.nodes graph) !! p) as [node|] eqn:Hl; cbn in H.
    + apply nodes_by_id_lookup in Hl as [? ?]; [|done]. exists node. split_and!; [done..|].
      apply H, list_elem_of_In, list_elem_of_filter. done.
    + discriminate H. apply list_elem_of_In, list_elem_of_filter. done.
  - intros H [p d] Hin%list_elem_of_In. apply list_elem_of_filter in Hin as [-> Hin].
    destruct (H p Hin) as (node & Hn & Hid & Hs).
    assert (nodes_by_id (WorkGraph.nodes graph) !! p = Some node) as -> by by apply nodes_by_id_lookup.
    done.
Qed.

(** In an acyclic graph the unfinished nodes have a first one. *)
Lemma first_unfinished graph :
  distinct_ids graph -> acyclic graph.(WorkGraph.nodes) graph.(WorkGraph.edges) ->
  (forall p d, (p, d) ∈ gating_pairs graph.(WorkGraph.edges) -> p ∈ node_id_set graph.(WorkGraph.nodes)) ->
  forall node, node ∈ graph.(WorkGraph.nodes) -> is_success_status node.(WorkNode.status) = false ->
  exists node', node' ∈ graph.(WorkGraph.nodes) /\
    is_success_status node'.(WorkNode.status) = false /\
    prerequisites_complete node'.(WorkNode.id) graph = true.
Proof.
  intros Hnd Hac Hknown node Hin Hs.
  pose proof (acyclic_Acc (gates (WorkGraph.nodes graph) (WorkGraph.edges graph))
                (node_id_set (WorkGraph.nodes graph)) (fun x y H => proj1 H) Hac (WorkNode.id node)) as HA.
  remember (WorkNode.id node) as i eqn:Hi. revert node Hi Hin Hs. induction HA as [i _ IH].
  intros node -> Hin Hs. destruct (prerequisites_complete (WorkNode.id node) graph) eqn:Hp; [eauto|].
  apply forallb_false in Hp as ([p d] & [-> Hpd]%list_elem_of_filter & Hf).
  assert (p ∈ node_id_set (WorkGraph.nodes graph)) as Hpn by by eapply Hknown.
  assert (WorkNode.id node ∈ node_id_set (WorkGraph.nodes graph)) as Hdn
    by (apply elem_of_list_to_set, list_elem_of_fmap_2; done).
  pose proof Hpn as (n & -> & Hn)%elem_of_list_to_set%list_elem_of_fmap.
  assert (nodes_by_id (WorkGraph.nodes graph) !! WorkNode.id n = Some n) as Hl by by apply nodes_by_id_lookup.
  rewrite Hl in Hf. cbn in Hf. by apply (IH (WorkNode.id n)) with n.
Qed.

#[export] Instance ready_le_total : Total ready_le.
Proof.
  intros a b. unfold le_of, ready_leb, ready_cmp.
  destruct (Z.compare_spec (priority_rank (WorkNode.priority b)) (priority_rank (WorkNode.priority a)));
  destruct (Z.compare_spec (priority_rank (WorkNode.priority a)) (priority_rank (WorkNode.priority b)));
  destruct (Z.compare_spec (WorkNode.sort_order a) (WorkNode.sort_order b));
  destruct (Z.compare_spec (WorkNode.sort_order b) (WorkNode.sort_order a));
  destruct (Z.compare_spec (WorkNode.created_at a) (WorkNode.created_at b));
  destruct (Z.compare_spec (WorkNode.created_at b) (WorkNode.created_at a));
  try lia; first [left; done|right; done].
Qed.

(** The order in plain terms. *)
Lemma ready_le_spec a b :
  ready_le a b <->
  priority_rank a.(WorkNode.priority) > priority_rank b.(WorkNode.priority) \/
  priority_rank a.(WorkNode.priority) = priority_rank b.(WorkNode.priority) /\
  (a.(WorkNode.sort_order) < b.(WorkNode.sort_order) \/
   a.(WorkNode.sort_order) = b.(WorkNode.sort_order) /\
   a.(WorkNode.created_at) <= b.(WorkNode.created_at)).
Proof.
  unfold le_of, ready_leb, ready_cmp.
  destruct (Z.compare_spec (priority_rank (WorkNode.priority b)) (priority_rank (WorkNode.priority a)));
  destruct (Z.compare_spec (WorkNode.sort_order a) (WorkNode.sort_order b));
  destruct (Z.compare_spec (WorkNode.created_at a) (WorkNode.created_at b));
  split; intros; try lia; try done.
Qed.

#[export] Instance ready_le_trans : Transitive ready_le.
Proof. intros a b c. rewrite !ready_le_spec. lia. Qed.

(** Two tasks, [a] before [b], for evaluation. *)
Definition sample_node (id : string) : WorkNode.t :=
  WorkNode.mk id "p" None None None WorkNodeKind.Task id None TaskStatus.Draft TaskPriority.Medium None
    (SpecFloat.S754_zero false) (SpecFloat.S754_zero false) None None false 0 0 0.
Definition sample_edge : WorkEdge.t := WorkEdge.mk "e" "p" "a" "b" WorkEdgeKind.Blocks None 0 0.
Definition sample_graph : WorkGraph.t :=
  WorkGraph.mk "p" [sample_node "b"; sample_node "a"] [sample_edge] [].

Lemma sample_ids : distinct_ids sample_graph.
Proof. unfold distinct_ids. apply (bool_decide_unpack _). vm_compute. exact I. Qed.

Lemma sample_acyclic : no_self_link [sample_edge] /\ acyclic sample_graph.(WorkGraph.nodes) [sample_edge].
Proof. apply (validate_exact elements elements_enum); [exact sample_ids|]. vm_compute. reflexivity. Qed.

Module Properties.

(** C35: the acyclicity check is exact, whatever order the hash sets are
    iterated in.  Its loop ends within one round per node on every graph, cycles
    included: any fuel from the number of nodes on gives the same answer.  It
    refuses a link of a node to itself with its own error, accepts precisely the
    graphs without such a link whose gating edges have no cycle through the graph's
    nodes, and refuses the others as cyclic. *)
Theorem validate_iff_acyclic iter nodes edges :
  enumerates iter -> NoDup (WorkNode.id <$> nodes) ->
  (forall fuel, (length nodes <= fuel)%nat ->
     check_gating_edges iter fuel nodes edges = Some (validate_gating_edges_acyclic iter nodes edges)) /\
  (validate_gating_edges_acyclic iter nodes edges = Ok () <-> no_self_link edges /\ acyclic nodes edges) /\
  (~ no_self_link edges ->
   validate_gating_edges_acyclic iter nodes edges = Err (Other "a gating work link cannot target itself")) /\
  (no_self_link edges -> ~ acyclic nodes edges ->
   validate_gating_edges_acyclic iter nodes edges = Err (Other "gating work links must not create dependency cycles")).
Proof.
  intros Hiter Hnd. split_and!.
  - intros fuel Hf. by apply check_ends.
  - by apply validate_exact.
  - by apply validate_self_link.
  - intros Hns. by apply validate_spec.
Qed.

Lemma validate_iff_acyclic_witness :
  check_gating_edges elements 3 sample_graph.(WorkGraph.nodes) [sample_edge] = Some (Ok ()) /\
  (validate_gating_edges_acyclic elements sample_graph.(WorkGraph.nodes) [sample_edge] = Ok () <->
   no_self_link [sample_edge] /\ acyclic sample_graph.(WorkGraph.nodes) [sample_edge]).
Proof.
  destruct (validate_iff_acyclic elements sample_graph.(WorkGraph.nodes) [sample_edge] elements_enum sample_ids) as (Hf & Hiff & _).
  split; [|exact Hiff]. rewrite (Hf 3%nat ltac:(cbn; lia)). vm_compute. reflexivity.
Defined.

(** [gating_subtree_size] counts exactly the nodes a failure takes down:
    the roots and every unfinished node transitively gated on one, groups not
    counted. *)
Theorem gating_subtree_size_exact roots graph :
  exists lost : gset string,
    gating_subtree_size roots graph = Z.of_nat (size lost) /\
    forall x, (x ∈ lost <->
      (x ∉ group_ids graph.(WorkGraph.nodes)) /\
      exists r, r ∈ roots /\
        rtc (drags graph.(WorkGraph.edges) (done_ids graph.(WorkGraph.nodes))) r x).
Proof.
  unfold gating_subtree_size.
  destruct (closure_spec (WorkGraph.edges graph) (done_ids (WorkGraph.nodes graph))
              (length roots + length (WorkGraph.edges graph)) ∅ roots) as (seen & -> & Hseen).
  { assert (unpushed (WorkGraph.edges graph) ∅ <= length (WorkGraph.edges graph))%nat; [|lia].
    unfold unpushed. rewrite length_filter. unfold gating_pairs.
    induction (WorkGraph.edges graph); cbn; [done|]. case_match; cbn; lia. }
  { intros x y ?%elem_of_empty. done. }
  exists (filter (fun id => id ∉ group_ids (WorkGraph.nodes graph)) seen). split; [done|].
  intros x. rewrite elem_of_filter, Hseen. set_solver.
Qed.

(** the plan starts only work whose prerequisites all succeeded, and in
    order: every node returned is a task or session that is draft, queued or
    paused with every gating prerequisite done or cancelled; all such nodes are
    returned; the list is sorted by priority, then sort order, then age. *)
Theorem ready_nodes_spec graph :
  distinct_ids graph ->
  (forall node, node ∈ ready_runnable_nodes graph <->
     node ∈ graph.(WorkGraph.nodes) /\
     (node.(WorkNode.kind) = WorkNodeKind.Task \/ node.(WorkNode.kind) = WorkNodeKind.Session) /\
     node.(WorkNode.status) ∈ [TaskStatus.Draft; TaskStatus.Queued; TaskStatus.Paused] /\
     forall p, (p, node.(WorkNode.id)) ∈ gating_pairs graph.(WorkGraph.edges) ->
       exists n, n ∈ graph.(WorkGraph.nodes) /\ n.(WorkNode.id) = p /\
                 is_success_status n.(WorkNode.status) = true) /\
  StronglySorted ready_le (ready_runnable_nodes graph).
Proof.
  intros Hnd. split; [|apply sort_by_sorted; apply _].
  intros node. unfold ready_runnable_nodes.
  rewrite (sort_by_perm ready_leb), list_elem_of_filter, <- prerequisites_complete_spec by done.
  unfold startable. rewrite !andb_true_iff. rewrite !elem_of_cons, elem_of_nil.
  destruct (WorkNode.kind node), (WorkNode.status node); naive_solver.
Qed.

Lemma ready_nodes_spec_witness :
  ready_runnable_nodes sample_graph = [sample_node "a"] /\
  StronglySorted ready_le (ready_runnable_nodes sample_graph).
Proof. split; [vm_compute; reflexivity|]. apply ready_nodes_spec. exact sample_ids. Defined.

(** C40: dependencies never deadlock a plan: in an acyclic graph whose unfinished
    nodes are all tasks or sessions in a startable status, if anything is
    unfinished then something can be started. *)
Theorem plan_progress graph node :
  distinct_ids graph -> acyclic graph.(WorkGraph.nodes) graph.(WorkGraph.edges) ->
  (forall p d, (p, d) ∈ gating_pairs graph.(WorkGraph.edges) -> p ∈ node_id_set graph.(WorkGraph.nodes)) ->
  (forall n, n ∈ graph.(WorkGraph.nodes) -> is_success_status n.(WorkNode.status) = false ->
     (n.(WorkNode.kind) = WorkNodeKind.Task \/ n.(WorkNode.kind) = WorkNodeKind.Session) /\
     n.(WorkNode.status) ∈ [TaskStatus.Draft; TaskStatus.Queued; TaskStatus.Paused]) ->
  node ∈ graph.(WorkGraph.nodes) -> is_success_status node.(WorkNode.status) = false ->
  ready_runnable_nodes graph <> [].
Proof.
  intros Hnd Hac Hk Hst Hin Hs Hnil.
  destruct (first_unfinished graph Hnd Hac Hk node Hin Hs) as (n & Hn & Hns & Hp).
  destruct (Hst n Hn Hns) as [Hkind Hstat].
  assert (n ∈ ready_runnable_nodes graph) as Hr; [|rewrite Hnil in Hr; by apply elem_of_nil in Hr].
  unfold ready_runnable_nodes. rewrite (sort_by_perm ready_leb), list_elem_of_filter.
  split; [|done]. unfold startable. rewrite Hp, andb_true_r.
  rewrite !elem_of_cons, elem_of_nil in Hstat.
  destruct (WorkNode.kind n), (WorkNode.status n); naive_solver.
Qed.

Lemma plan_progress_witness : ready_runnable_nodes sample_graph <> [].
Proof.
  apply (plan_progress sample_graph (sample_node "a")).
  - exact sample_ids.
  - exact (proj2 sample_acyclic).
  - intros p d Hin. vm_compute in Hin. apply list_elem_of_singleton in Hin as [= -> ->].
    apply elem_of_list_to_set, list_elem_of_In. vm_compute. tauto.
  - intros n Hn _. split; [left|apply elem_of_cons; left]; cbn in Hn;
      repeat (apply elem_of_cons in Hn as [->|Hn]; [reflexivity|]); by apply elem_of_nil in Hn.
  - apply list_elem_of_In. cbn. tauto.
  - reflexivity.
Defined.

End Properties.
