(* ===== verification/WorkGraphDb.v ===== *)
(** * Work-graph tables (crates/am-db/src/repos/work_graph.rs)

    The SQLite tables of the work graph as lists of rows (in rowid order) and
    each repository function as a program in the state-and-error monad: a
    [SELECT] filters, an [UPDATE] maps, an [INSERT] appends after its key and
    foreign-key checks.  [now()] and [new_id()] are explicit arguments. *)
From S2P Require Import Prelude RustStr Enums Records.
From Stdlib Require Import SpecFloat.

(** ** Rows *)

Module WorkNodeRow.

Record t := mk {
  id : string;
  project_id : string;
  parent_id : option string;
  task_id : option string;
  thread_id : option string;
  kind : string;
  title : string;
  description : option string;
  status : string;
  priority : string;
  primary_agent : option string;
  position_x : f64;
  position_y : f64;
  width : option f64;
  height : option f64;
  position_locked : Z;
  sort_order : Z;
  created_at : Z;
  updated_at : Z
}.

Definition set_parent_id (v : option string) (r : t) : t :=
  mk r.(id) r.(project_id) v r.(task_id) r.(thread_id) r.(kind) r.(title) r.(description)
    r.(status) r.(priority) r.(primary_agent) r.(position_x) r.(position_y) r.(width)
    r.(height) r.(position_locked) r.(sort_order) r.(created_at) r.(updated_at).

Definition set_position_x (v : f64) (r : t) : t :=
  mk r.(id) r.(project_id) r.(parent_id) r.(task_id) r.(thread_id) r.(kind) r.(title)
    r.(description) r.(status) r.(priority) r.(primary_agent) v r.(position_y) r.(width)
    r.(height) r.(position_locked) r.(sort_order) r.(created_at) r.(updated_at).

Definition set_position_y (v : f64) (r : t) : t :=
  mk r.(id) r.(project_id) r.(parent_id) r.(task_id) r.(thread_id) r.(kind) r.(title)
    r.(description) r.(status) r.(priority) r.(primary_agent) r.(position_x) v r.(width)
    r.(height) r.(position_locked) r.(sort_order) r.(created_at) r.(updated_at).

Definition set_width (v : option f64) (r : t) : t :=
  mk r.(id) r.(project_id) r.(parent_id) r.(task_id) r.(thread_id) r.(kind) r.(title)
    r.(description) r.(status) r.(priority) r.(primary_agent) r.(position_x) r.(position_y)
    v r.(height) r.(position_locked) r.(sort_order) r.(created_at) r.(updated_at).

Definition set_height (v : option f64) (r : t) : t :=
  mk r.(id) r.(project_id) r.(parent_id) r.(task_id) r.(thread_id) r.(kind) r.(title)
    r.(description) r.(status) r.(priority) r.(primary_agent) r.(position_x) r.(position_y)
    r.(width) v r.(position_locked) r.(sort_order) r.(created_at) r.(updated_at).

Definition set_position_locked (v : Z) (r : t) : t :=
  mk r.(id) r.(project_id) r.(parent_id) r.(task_id) r.(thread_id) r.(kind) r.(title)
    r.(description) r.(status) r.(priority) r.(primary_agent) r.(position_x) r.(position_y)
    r.(width) r.(height) v r.(sort_order) r.(created_at) r.(updated_at).

Definition set_updated_at (v : Z) (r : t) : t :=
  mk r.(id) r.(project_id) r.(parent_id) r.(task_id) r.(thread_id) r.(kind) r.(title)
    r.(description) r.(status) r.(priority) r.(primary_agent) r.(position_x) r.(position_y)
    r.(width) r.(height) r.(position_locked) r.(sort_order) r.(created_at) v.

End WorkNodeRow.

Module WorkEdgeRow.

Record t := mk {
  id : string;
  project_id : string;
  source_id : string;
  target_id : string;
  kind : string;
  label : option string;
  created_at : Z;
  updated_at : Z
}.

Definition set_label (v : option string) (r : t) : t :=
  mk r.(id) r.(project_id) r.(source_id) r.(target_id) r.(kind) v r.(created_at)
    r.(updated_at).

Definition set_updated_at (v : Z) (r : t) : t :=
  mk r.(id) r.(project_id) r.(source_id) r.(target_id) r.(kind) r.(label) r.(created_at) v.

End WorkEdgeRow.

Module RepoBindingRow.

Record t := mk {
  node_id : string;
  repo_id : string;
  repo_name : string;
  worktree_path : option string;
  branch : option string;
  base_ref : option string;
  workspace_backend : string
}.

End RepoBindingRow.

Module WorkRunRow.

Record t := mk {
  id : string;
  node_id : string;
  task_id : option string;
  thread_id : option string;
  agent_kind : string;
  run_ref : string;
  state : string;
  started_at : Z;
  ended_at : option Z;
  plan_run_id : option string
}.

Definition set_state (v : string) (r : t) : t :=
  mk r.(id) r.(node_id) r.(task_id) r.(thread_id) r.(agent_kind) r.(run_ref) v
    r.(started_at) r.(ended_at) r.(plan_run_id).

Definition set_ended_at (v : option Z) (r : t) : t :=
  mk r.(id) r.(node_id) r.(task_id) r.(thread_id) r.(agent_kind) r.(run_ref) r.(state)
    r.(started_at) v r.(plan_run_id).

Definition set_plan_run_id (v : option string) (r : t) : t :=
  mk r.(id) r.(node_id) r.(task_id) r.(thread_id) r.(agent_kind) r.(run_ref) r.(state)
    r.(started_at) r.(ended_at) v.

End WorkRunRow.

Module WorkPlanRunRow.

Record t := mk {
  id : string;
  project_id : string;
  gate_mode : string;
  state : string;
  max_active_runs : Z;
  failure_mode : string;
  max_node_retries : Z;
  steer_dependents_on_unblock : Z;
  default_agent : option string;
  default_permission : option string;
  default_execution_backend : option string;
  evaluator_policy_json : option string;
  resume_after_node_id : option string;
  policy_envelope_id : option string;
  total_count : Z;
  completed_count : Z;
  active_count : Z;
  blocked_count : Z;
  error : option string;
  started_at : Z;
  ended_at : option Z;
  updated_at : Z
}.

Definition set_state (v : string) (r : t) : t :=
  mk r.(id) r.(project_id) r.(gate_mode) v r.(max_active_runs) r.(failure_mode)
    r.(max_node_retries) r.(steer_dependents_on_unblock) r.(default_agent)
    r.(default_permission) r.(default_execution_backend) r.(evaluator_policy_json)
    r.(resume_after_node_id) r.(policy_envelope_id) r.(total_count) r.(completed_count)
    r.(active_count) r.(blocked_count) r.(error) r.(started_at) r.(ended_at) r.(updated_at).

Definition set_completed_count (v : Z) (r : t) : t :=
  mk r.(id) r.(project_id) r.(gate_mode) r.(state) r.(max_active_runs) r.(failure_mode)
    r.(max_node_retries) r.(steer_dependents_on_unblock) r.(default_agent)
    r.(default_permission) r.(default_execution_backend) r.(evaluator_policy_json)
    r.(resume_after_node_id) r.(policy_envelope_id) r.(total_count) v r.(active_count)
    r.(blocked_count) r.(error) r.(started_at) r.(ended_at) r.(updated_at).

Definition set_active_count (v : Z) (r : t) : t :=
  mk r.(id) r.(project_id) r.(gate_mode) r.(state) r.(max_active_runs) r.(failure_mode)
    r.(max_node_retries) r.(steer_dependents_on_unblock) r.(default_agent)
    r.(default_permission) r.(default_execution_backend) r.(evaluator_policy_json)
    r.(resume_after_node_id) r.(policy_envelope_id) r.(total_count) r.(completed_count) v
    r.(blocked_count) r.(error) r.(started_at) r.(ended_at) r.(updated_at).

Definition set_blocked_count (v : Z) (r : t) : t :=
  mk r.(id) r.(project_id) r.(gate_mode) r.(state) r.(max_active_runs) r.(failure_mode)
    r.(max_node_retries) r.(steer_dependents_on_unblock) r.(default_agent)
    r.(default_permission) r.(default_execution_backend) r.(evaluator_policy_json)
    r.(resume_after_node_id) r.(policy_envelope_id) r.(total_count) r.(completed_count)
    r.(active_count) v r.(error) r.(started_at) r.(ended_at) r.(updated_at).

Definition set_error (v : option string) (r : t) : t :=
  mk r.(id) r.(project_id) r.(gate_mode) r.(state) r.(max_active_runs) r.(failure_mode)
    r.(max_node_retries) r.(steer_dependents_on_unblock) r.(default_agent)
    r.(default_permission) r.(default_execution_backend) r.(evaluator_policy_json)
    r.(resume_after_node_id) r.(policy_envelope_id) r.(total_count) r.(completed_count)
    r.(active_count) r.(blocked_count) v r.(started_at) r.(ended_at) r.(updated_at).

Definition set_ended_at (v : option Z) (r : t) : t :=
  mk r.(id) r.(project_id) r.(gate_mode) r.(state) r.(max_active_runs) r.(failure_mode)
    r.(max_node_retries) r.(steer_dependents_on_unblock) r.(default_agent)
    r.(default_permission) r.(default_execution_backend) r.(evaluator_policy_json)
    r.(resume_after_node_id) r.(policy_envelope_id) r.(total_count) r.(completed_count)
    r.(active_count) r.(blocked_count) r.(error) r.(started_at) v r.(updated_at).

Definition set_updated_at (v : Z) (r : t) : t :=
  mk r.(id) r.(project_id) r.(gate_mode) r.(state) r.(max_active_runs) r.(failure_mode)
    r.(max_node_retries) r.(steer_dependents_on_unblock) r.(default_agent)
    r.(default_permission) r.(default_execution_backend) r.(evaluator_policy_json)
    r.(resume_after_node_id) r.(policy_envelope_id) r.(total_count) r.(completed_count)
    r.(active_count) r.(blocked_count) r.(error) r.(started_at) r.(ended_at) v.

Definition set_resume_after_node_id (v : option string) (r : t) : t :=
  mk r.(id) r.(project_id) r.(gate_mode) r.(state) r.(max_active_runs) r.(failure_mode)
    r.(max_node_retries) r.(steer_dependents_on_unblock) r.(default_agent)
    r.(default_permission) r.(default_execution_backend) r.(evaluator_policy_json) v
    r.(policy_envelope_id) r.(total_count) r.(completed_count) r.(active_count)
    r.(blocked_count) r.(error) r.(started_at) r.(ended_at) r.(updated_at).

End WorkPlanRunRow.

Module NodePlacement.

Record t := mk {
  node_id : string;
  x : f64;
  y : f64;
  width : f64;
  height : f64
}.

End NodePlacement.

(** A row of [work_locks]; the code only writes glob ['*'] and mode ['write'],
    so the key (repo_id, path_glob, mode) is the repository. *)
Module WorkLockRow.

Record t := mk { node_id : string; repo_id : string; acquired_at : Z }.

End WorkLockRow.

(** A row of [work_node_repos] with its default columns. *)
Module NodeRepoRow.

Record t := mk {
  node_id : string;
  repo_id : string;
  worktree_path : option string;
  branch : option string;
  base_ref : option string;
  workspace_backend : string
}.

End NodeRepoRow.

Record WorkDb := mkDb {
  projects : gset string;
  repos : list (string * string);
  nodes : list WorkNodeRow.t;
  edges : list WorkEdgeRow.t;
  node_repos : list NodeRepoRow.t;
  locks : list WorkLockRow.t;
  runs : list WorkRunRow.t;
  plans : list WorkPlanRunRow.t
}.

Definition set_nodes (v : list WorkNodeRow.t) (db : WorkDb) : WorkDb :=
  mkDb db.(projects) db.(repos) v db.(edges) db.(node_repos) db.(locks) db.(runs) db.(plans).
Definition set_edges (v : list WorkEdgeRow.t) (db : WorkDb) : WorkDb :=
  mkDb db.(projects) db.(repos) db.(nodes) v db.(node_repos) db.(locks) db.(runs) db.(plans).
Definition set_node_repos (v : list NodeRepoRow.t) (db : WorkDb) : WorkDb :=
  mkDb db.(projects) db.(repos) db.(nodes) db.(edges) v db.(locks) db.(runs) db.(plans).
Definition set_locks (v : list WorkLockRow.t) (db : WorkDb) : WorkDb :=
  mkDb db.(projects) db.(repos) db.(nodes) db.(edges) db.(node_repos) v db.(runs) db.(plans).
Definition set_runs (v : list WorkRunRow.t) (db : WorkDb) : WorkDb :=
  mkDb db.(projects) db.(repos) db.(nodes) db.(edges) db.(node_repos) db.(locks) v db.(plans).
Definition set_plans (v : list WorkPlanRunRow.t) (db : WorkDb) : WorkDb :=
  mkDb db.(projects) db.(repos) db.(nodes) db.(edges) db.(node_repos) db.(locks) db.(runs) v.

Abbreviation DbM := (M WorkDb DbError).

(** ** Decoding rows *)

Definition decode {T} `{WireEnum T} (s : string) : result DbError T := ok_or (unwire s) (InvalidEnum s).

Definition decode_opt {T} `{WireEnum T} (o : option string) : result DbError (option T) :=
  transpose (decode <$> o).

Definition node_try_from (row : WorkNodeRow.t) : result DbError WorkNode.t :=
  primary_agent ← decode_opt row.(WorkNodeRow.primary_agent);
  kind ← decode row.(WorkNodeRow.kind);
  status ← decode row.(WorkNodeRow.status);
  priority ← decode row.(WorkNodeRow.priority);
  mret (WorkNode.mk row.(WorkNodeRow.id) row.(WorkNodeRow.project_id) row.(WorkNodeRow.parent_id)
    row.(WorkNodeRow.task_id) row.(WorkNodeRow.thread_id) kind row.(WorkNodeRow.title)
    row.(WorkNodeRow.description) status priority primary_agent row.(WorkNodeRow.position_x)
    row.(WorkNodeRow.position_y) row.(WorkNodeRow.width) row.(WorkNodeRow.height)
    (negb (row.(WorkNodeRow.position_locked) =? 0)) row.(WorkNodeRow.sort_order)
    row.(WorkNodeRow.created_at) row.(WorkNodeRow.updated_at)).

Definition edge_try_from (row : WorkEdgeRow.t) : result DbError WorkEdge.t :=
  kind ← decode row.(WorkEdgeRow.kind);
  mret (WorkEdge.mk row.(WorkEdgeRow.id) row.(WorkEdgeRow.project_id) row.(WorkEdgeRow.source_id)
    row.(WorkEdgeRow.target_id) kind row.(WorkEdgeRow.label) row.(WorkEdgeRow.created_at)
    row.(WorkEdgeRow.updated_at)).

Definition binding_try_from (row : RepoBindingRow.t) : result DbError WorkNodeRepoBinding.t :=
  workspace_backend ← decode row.(RepoBindingRow.workspace_backend);
  mret (WorkNodeRepoBinding.mk row.(RepoBindingRow.node_id) row.(RepoBindingRow.repo_id)
    row.(RepoBindingRow.repo_name) row.(RepoBindingRow.worktree_path) row.(RepoBindingRow.branch)
    row.(RepoBindingRow.base_ref) workspace_backend).

Definition parse_session_state (value : string) : result DbError SessionState.t :=
  default (Err (InvalidEnum value))
    (match_str value
       [("running", Ok SessionState.Running); ("completed", Ok SessionState.Completed);
        ("interrupted", Ok SessionState.Interrupted); ("failed", Ok SessionState.Failed)]%string).

Definition run_try_from (row : WorkRunRow.t) : result DbError WorkRun.t :=
  agent_kind ← decode row.(WorkRunRow.agent_kind);
  state ← parse_session_state row.(WorkRunRow.state);
  mret (WorkRun.mk row.(WorkRunRow.id) row.(WorkRunRow.node_id) row.(WorkRunRow.task_id)
    row.(WorkRunRow.thread_id) agent_kind row.(WorkRunRow.run_ref) state
    row.(WorkRunRow.started_at) row.(WorkRunRow.ended_at)).

Definition plan_try_from (row : WorkPlanRunRow.t) : result DbError WorkPlanRun.t :=
  gate_mode ← decode row.(WorkPlanRunRow.gate_mode);
  state ← decode row.(WorkPlanRunRow.state);
  failure_mode ← decode row.(WorkPlanRunRow.failure_mode);
  default_agent ← decode_opt row.(WorkPlanRunRow.default_agent);
  default_execution_backend ← decode_opt row.(WorkPlanRunRow.default_execution_backend);
  mret (WorkPlanRun.mk row.(WorkPlanRunRow.id) row.(WorkPlanRunRow.project_id) gate_mode state
    row.(WorkPlanRunRow.max_active_runs) failure_mode row.(WorkPlanRunRow.max_node_retries)
    (negb (row.(WorkPlanRunRow.steer_dependents_on_unblock) =? 0)) default_agent
    row.(WorkPlanRunRow.default_permission) default_execution_backend
    row.(WorkPlanRunRow.evaluator_policy_json) row.(WorkPlanRunRow.resume_after_node_id)
    row.(WorkPlanRunRow.policy_envelope_id) row.(WorkPlanRunRow.total_count)
    row.(WorkPlanRunRow.completed_count) row.(WorkPlanRunRow.active_count)
    row.(WorkPlanRunRow.blocked_count) row.(WorkPlanRunRow.error) row.(WorkPlanRunRow.started_at)
    row.(WorkPlanRunRow.ended_at) row.(WorkPlanRunRow.updated_at)).

(** ** Queries *)

Definition fetch_optional {R A} (table : WorkDb -> list R) (p : R -> bool) (from : R -> result DbError A) :
  DbM (option A) :=
  row ← gets (fun db => find p (table db));
  lift (transpose (from <$> row)).

Definition fetch_all {R A} (query : WorkDb -> list R) (from : R -> result DbError A) : DbM (list A) :=
  rows ← gets query;
  lift (collect (from <$> rows)).

(** [.ok_or(DbError::NotFound)?] on a fetched row. *)
Definition required {A} (m : DbM (option A)) : DbM A :=
  o ← m; lift_opt o DbNotFound.

Definition eq_str (a b : string) : bool := bool_decide (a = b).
Definition eq_opt (a : option string) (b : string) : bool := bool_decide (a = Some b).

Definition get_node (id : string) : DbM (option WorkNode.t) :=
  fetch_optional nodes (fun r => eq_str r.(WorkNodeRow.id) id) node_try_from.
Definition get_node_for_task (task_id : string) : DbM (option WorkNode.t) :=
  fetch_optional nodes (fun r => eq_opt r.(WorkNodeRow.task_id) task_id) node_try_from.
Definition get_node_for_thread (thread_id : string) : DbM (option WorkNode.t) :=
  fetch_optional nodes (fun r => eq_opt r.(WorkNodeRow.thread_id) thread_id) node_try_from.

(** [ORDER BY sort_order ASC, updated_at DESC]. *)
Definition node_order (a b : WorkNodeRow.t) : bool :=
  (a.(WorkNodeRow.sort_order) <? b.(WorkNodeRow.sort_order)) ||
  ((a.(WorkNodeRow.sort_order) =? b.(WorkNodeRow.sort_order)) &&
   (b.(WorkNodeRow.updated_at) <=? a.(WorkNodeRow.updated_at))).

Definition list_nodes (project_id : string) : DbM (list WorkNode.t) :=
  fetch_all (fun db => sort_by node_order
    (filter (fun r => r.(WorkNodeRow.project_id) = project_id) db.(nodes))) node_try_from.

Definition list_edges (project_id : string) : DbM (list WorkEdge.t) :=
  fetch_all (fun db => sort_by (fun a b => a.(WorkEdgeRow.created_at) <=? b.(WorkEdgeRow.created_at))
    (filter (fun r => r.(WorkEdgeRow.project_id) = project_id) db.(edges))) edge_try_from.

Definition get_edge (id : string) : DbM (option WorkEdge.t) :=
  fetch_optional edges (fun r => eq_str r.(WorkEdgeRow.id) id) edge_try_from.

(** [JOIN repos r ON r.id = wnr.repo_id ... ORDER BY r.name ASC]. *)
Definition join_repos (db : WorkDb) (rows : list NodeRepoRow.t) : list RepoBindingRow.t :=
  sort_by (fun a b => String.leb a.(RepoBindingRow.repo_name) b.(RepoBindingRow.repo_name))
    (w ← rows;
     r ← filter (fun r => r.1 = w.(NodeRepoRow.repo_id)) db.(repos);
     [RepoBindingRow.mk w.(NodeRepoRow.node_id) w.(NodeRepoRow.repo_id) r.2
        w.(NodeRepoRow.worktree_path) w.(NodeRepoRow.branch) w.(NodeRepoRow.base_ref)
        w.(NodeRepoRow.workspace_backend)]).

Definition list_repo_bindings (node_id : string) : DbM (list WorkNodeRepoBinding.t) :=
  fetch_all (fun db => join_repos db (filter (fun w => w.(NodeRepoRow.node_id) = node_id) db.(node_repos)))
    binding_try_from.

Definition list_repo_bindings_for_project (project_id : string) : DbM (list WorkNodeRepoBinding.t) :=
  fetch_all (fun db => join_repos db
    (filter (fun w => existsb (fun n => eq_str n.(WorkNodeRow.id) w.(NodeRepoRow.node_id) &&
                                        eq_str n.(WorkNodeRow.project_id) project_id) db.(nodes) = true)
       db.(node_repos))) binding_try_from.

Definition graph (project_id : string) : DbM WorkGraph.t :=
  nodes ← list_nodes project_id;
  edges ← list_edges project_id;
  repo_bindings ← list_repo_bindings_for_project project_id;
  mret (WorkGraph.mk project_id nodes edges repo_bindings).

Definition unfinished_row (n : WorkNodeRow.t) : bool :=
  negb (eq_str n.(WorkNodeRow.status) "done" || eq_str n.(WorkNodeRow.status) "cancelled").

(** The join of [blocking_edges_for_node]: one result per (edge, blocker). *)
Definition blocking_edges_for_node (node_id : string) : DbM (list WorkEdge.t) :=
  fetch_all (fun db =>
    e ← db.(edges);
    blocker ← filter (fun b =>
      (((eq_str e.(WorkEdgeRow.kind) "blocks" && eq_str b.(WorkNodeRow.id) e.(WorkEdgeRow.source_id) &&
         eq_str e.(WorkEdgeRow.target_id) node_id) ||
        (eq_str e.(WorkEdgeRow.kind) "depends_on" && eq_str b.(WorkNodeRow.id) e.(WorkEdgeRow.target_id) &&
         eq_str e.(WorkEdgeRow.source_id) node_id)) && unfinished_row b) = true) db.(nodes);
    [e]) edge_try_from.

(** The edges that gate [node_id], with handoffs. *)
Definition gated_by (node_id : string) (e : WorkEdgeRow.t) (n : WorkNodeRow.t) : bool :=
  ((eq_str e.(WorkEdgeRow.kind) "blocks" || eq_str e.(WorkEdgeRow.kind) "handoff") &&
   eq_str n.(WorkNodeRow.id) e.(WorkEdgeRow.source_id) && eq_str e.(WorkEdgeRow.target_id) node_id) ||
  (eq_str e.(WorkEdgeRow.kind) "depends_on" &&
   eq_str n.(WorkNodeRow.id) e.(WorkEdgeRow.target_id) && eq_str e.(WorkEdgeRow.source_id) node_id).

Definition completed_gating_predecessors (node_id : string) : DbM (list WorkNode.t) :=
  fetch_all (fun db =>
    e ← db.(edges);
    filter (fun n => (gated_by node_id e n && eq_str n.(WorkNodeRow.status) "done") = true) db.(nodes))
    node_try_from.

Definition gating_dependents (node_id : string) : DbM (list WorkNode.t) :=
  fetch_all (fun db =>
    e ← db.(edges);
    filter (fun n =>
      (((eq_str e.(WorkEdgeRow.kind) "blocks" || eq_str e.(WorkEdgeRow.kind) "handoff") &&
        eq_str e.(WorkEdgeRow.source_id) node_id && eq_str n.(WorkNodeRow.id) e.(WorkEdgeRow.target_id)) ||
       (eq_str e.(WorkEdgeRow.kind) "depends_on" &&
        eq_str e.(WorkEdgeRow.target_id) node_id && eq_str n.(WorkNodeRow.id) e.(WorkEdgeRow.source_id)))
      = true) db.(nodes)) node_try_from.

(** ** Node commands *)

(** A [parent_id] or similar reference must name an existing node. *)
Definition node_exists (db : WorkDb) (id : string) : bool :=
  existsb (fun n => eq_str n.(WorkNodeRow.id) id) db.(nodes).
Definition opt_node_exists (db : WorkDb) (id : option string) : bool :=
  match id with Some id => node_exists db id | None => true end.

(** [SELECT COALESCE(MAX(sort_order) + 1, 0)]. *)
Definition next_sort_order (db : WorkDb) (project_id : string) : Z :=
  foldr (fun n acc => Z.max acc (n.(WorkNodeRow.sort_order) + 1))
    (match filter (fun n => n.(WorkNodeRow.project_id) = project_id) db.(nodes) with
     | [] => 0
     | n :: _ => n.(WorkNodeRow.sort_order) + 1
     end) (filter (fun n => n.(WorkNodeRow.project_id) = project_id) db.(nodes)).

Definition insert_node (row : WorkNodeRow.t) : DbM () :=
  db ← get;
  _ ← fail_when (node_exists db row.(WorkNodeRow.id) ||
        negb (bool_decide (row.(WorkNodeRow.project_id) ∈ db.(projects))) ||
        negb (opt_node_exists db row.(WorkNodeRow.parent_id))) Sqlx;
  modify (set_nodes (db.(nodes) ++ [row])).

Definition create_standalone_node (ts : Z) (id : string) (input : NewWorkNode.t)
  (kind : WorkNodeKind.t) : DbM WorkNode.t :=
  sort_order ← gets (fun db => next_sort_order db input.(NewWorkNode.project_id));
  _ ← insert_node (WorkNodeRow.mk id input.(NewWorkNode.project_id) input.(NewWorkNode.parent_id)
        None None (WorkNodeKind.as_str kind) (trim input.(NewWorkNode.title))
        input.(NewWorkNode.description) (TaskStatus.as_str TaskStatus.Draft)
        (TaskPriority.as_str input.(NewWorkNode.priority))
        (AgentKind.as_str <$> input.(NewWorkNode.primary_agent))
        (default (S754_zero false) input.(NewWorkNode.position_x))
        (default (S754_zero false) input.(NewWorkNode.position_y)) None None 0 sort_order ts ts);
  required (get_node id).

(** The bound columns of [update_node_fields]'s [UPDATE]. *)
Definition write_node_fields (node : WorkNode.t) (r : WorkNodeRow.t) : WorkNodeRow.t :=
  WorkNodeRow.mk r.(WorkNodeRow.id) r.(WorkNodeRow.project_id) node.(WorkNode.parent_id)
    r.(WorkNodeRow.task_id) r.(WorkNodeRow.thread_id) r.(WorkNodeRow.kind) node.(WorkNode.title)
    node.(WorkNode.description) (TaskStatus.as_str node.(WorkNode.status))
    (TaskPriority.as_str node.(WorkNode.priority)) (AgentKind.as_str <$> node.(WorkNode.primary_agent))
    node.(WorkNode.position_x) node.(WorkNode.position_y) r.(WorkNodeRow.width)
    r.(WorkNodeRow.height) r.(WorkNodeRow.position_locked) node.(WorkNode.sort_order)
    r.(WorkNodeRow.created_at) node.(WorkNode.updated_at).

(** The patched node: fields present in the patch replace the node's. *)
Definition patch_node (ts : Z) (patch : WorkNodeUpdate.t) (node : WorkNode.t) : WorkNode.t :=
  WorkNode.mk node.(WorkNode.id) node.(WorkNode.project_id)
    (opt_or patch.(WorkNodeUpdate.parent_id) node.(WorkNode.parent_id))
    node.(WorkNode.task_id) node.(WorkNode.thread_id) node.(WorkNode.kind)
    (default node.(WorkNode.title) patch.(WorkNodeUpdate.title))
    (opt_or patch.(WorkNodeUpdate.description) node.(WorkNode.description))
    (default node.(WorkNode.status) patch.(WorkNodeUpdate.status))
    (default node.(WorkNode.priority) patch.(WorkNodeUpdate.priority))
    (opt_or patch.(WorkNodeUpdate.primary_agent) node.(WorkNode.primary_agent))
    (default node.(WorkNode.position_x) patch.(WorkNodeUpdate.position_x))
    (default node.(WorkNode.position_y) patch.(WorkNodeUpdate.position_y))
    node.(WorkNode.width) node.(WorkNode.height) node.(WorkNode.position_locked)
    (default node.(WorkNode.sort_order) patch.(WorkNodeUpdate.sort_order))
    node.(WorkNode.created_at) ts.

Definition update_node_fields (ts : Z) (id : string) (patch : WorkNodeUpdate.t) : DbM WorkNode.t :=
  before ← required (get_node id);
  let node := patch_node ts patch before in
  db ← get;
  _ ← fail_when (negb (opt_node_exists db node.(WorkNode.parent_id))) Sqlx;
  _ ← modify (set_nodes (update_where (fun r => eq_str r.(WorkNodeRow.id) node.(WorkNode.id))
                (write_node_fields node) db.(nodes)));
  required (get_node id).

Definition move_node (ts : Z) (id : string) (parent_id : option string) (position_x position_y : f64) :
  DbM WorkNode.t :=
  db ← get;
  _ ← fail_when (node_exists db id && negb (opt_node_exists db parent_id)) Sqlx;
  _ ← modify (set_nodes (update_where (fun r => eq_str r.(WorkNodeRow.id) id)
        (fun r => WorkNodeRow.set_updated_at ts (WorkNodeRow.set_position_locked 1
           (WorkNodeRow.set_position_y position_y (WorkNodeRow.set_position_x position_x
              (WorkNodeRow.set_parent_id parent_id r))))) db.(nodes)));
  required (get_node id).

(** [DELETE FROM work_nodes], with the schema's [ON DELETE] actions. *)
Definition delete_node (id : string) : DbM () :=
  modify (fun db =>
    mkDb db.(projects) db.(repos)
      (update_where (fun r => eq_opt r.(WorkNodeRow.parent_id) id) (WorkNodeRow.set_parent_id None)
         (filter (fun r => r.(WorkNodeRow.id) <> id) db.(nodes)))
      (filter (fun e => e.(WorkEdgeRow.source_id) <> id /\ e.(WorkEdgeRow.target_id) <> id) db.(edges))
      (filter (fun w => w.(NodeRepoRow.node_id) <> id) db.(node_repos))
      (filter (fun l => l.(WorkLockRow.node_id) <> id) db.(locks))
      (filter (fun r => r.(WorkRunRow.node_id) <> id) db.(runs))
      (update_where (fun p => eq_opt p.(WorkPlanRunRow.resume_after_node_id) id)
         (WorkPlanRunRow.set_resume_after_node_id None) db.(plans))).

(** One transaction; nothing in it can violate a constraint. *)
Definition apply_layout (ts : Z) (project_id : string) (placements : list NodePlacement.t)
  (clear_locks : bool) : DbM () :=
  _ ← modify (fun db =>
        if clear_locks
        then set_nodes (update_where (fun r => eq_str r.(WorkNodeRow.project_id) project_id)
                          (WorkNodeRow.set_position_locked 0) db.(nodes)) db
        else db);
  for_each (fun p : NodePlacement.t =>
    modify (fun db => set_nodes (update_where (fun r => eq_str r.(WorkNodeRow.id) p.(NodePlacement.node_id))
      (fun r => WorkNodeRow.set_updated_at ts (WorkNodeRow.set_height (Some p.(NodePlacement.height))
         (WorkNodeRow.set_width (Some p.(NodePlacement.width))
            (WorkNodeRow.set_position_y p.(NodePlacement.y)
               (WorkNodeRow.set_position_x p.(NodePlacement.x) r))))) db.(nodes)) db)) placements.

(** ** Edge commands *)

Definition same_edge (s t k : string) (e : WorkEdgeRow.t) : bool :=
  eq_str e.(WorkEdgeRow.source_id) s && eq_str e.(WorkEdgeRow.target_id) t && eq_str e.(WorkEdgeRow.kind) k.

(** [INSERT ... ON CONFLICT(source_id, target_id, kind) DO UPDATE SET label, updated_at]. *)
Definition create_edge (ts : Z) (id : string) (input : NewWorkEdge.t) : DbM WorkEdge.t :=
  let s := input.(NewWorkEdge.source_id) in
  let t := input.(NewWorkEdge.target_id) in
  let k := WorkEdgeKind.as_str input.(NewWorkEdge.kind) in
  db ← get;
  _ ← (if existsb (same_edge s t k) db.(edges)
       then modify (set_edges (update_where (same_edge s t k)
              (fun e => WorkEdgeRow.set_updated_at ts (WorkEdgeRow.set_label input.(NewWorkEdge.label) e))
              db.(edges)))
       else
         _ ← fail_when (negb (bool_decide (input.(NewWorkEdge.project_id) ∈ db.(projects))) ||
               negb (node_exists db s) || negb (node_exists db t) ||
               existsb (fun e => eq_str e.(WorkEdgeRow.id) id) db.(edges)) Sqlx;
         modify (set_edges (db.(edges) ++
           [WorkEdgeRow.mk id input.(NewWorkEdge.project_id) s t k input.(NewWorkEdge.label) ts ts])));
  o ← fetch_optional edges (same_edge s t k) edge_try_from;
  lift_opt o Sqlx.

Definition patch_edge (ts : Z) (patch : WorkEdgeUpdate.t) (edge : WorkEdge.t) : WorkEdge.t :=
  WorkEdge.mk edge.(WorkEdge.id) edge.(WorkEdge.project_id)
    (default edge.(WorkEdge.source_id) patch.(WorkEdgeUpdate.source_id))
    (default edge.(WorkEdge.target_id) patch.(WorkEdgeUpdate.target_id))
    (default edge.(WorkEdge.kind) patch.(WorkEdgeUpdate.kind))
    (match patch.(WorkEdgeUpdate.label) with
     | Some label => let trimmed := trim label in if is_empty trimmed then None else Some trimmed
     | None => edge.(WorkEdge.label)
     end) edge.(WorkEdge.created_at) ts.

Definition write_edge_fields (edge : WorkEdge.t) (r : WorkEdgeRow.t) : WorkEdgeRow.t :=
  WorkEdgeRow.mk r.(WorkEdgeRow.id) r.(WorkEdgeRow.project_id) edge.(WorkEdge.source_id)
    edge.(WorkEdge.target_id) (WorkEdgeKind.as_str edge.(WorkEdge.kind)) edge.(WorkEdge.label)
    r.(WorkEdgeRow.created_at) edge.(WorkEdge.updated_at).

Definition save_edge (id : string) (edge : WorkEdge.t) : DbM WorkEdge.t :=
  db ← get;
  _ ← fail_when (negb (node_exists db edge.(WorkEdge.source_id)) ||
        negb (node_exists db edge.(WorkEdge.target_id)) ||
        existsb (fun e => same_edge edge.(WorkEdge.source_id) edge.(WorkEdge.target_id)
                            (WorkEdgeKind.as_str edge.(WorkEdge.kind)) e &&
                          negb (eq_str e.(WorkEdgeRow.id) id)) db.(edges)) Sqlx;
  _ ← modify (set_edges (update_where (fun r => eq_str r.(WorkEdgeRow.id) edge.(WorkEdge.id))
                (write_edge_fields edge) db.(edges)));
  required (get_edge id).

Definition update_edge (ts : Z) (id : string) (patch : WorkEdgeUpdate.t) : DbM WorkEdge.t :=
  before ← required (get_edge id);
  save_edge id (patch_edge ts patch before).

Definition delete_edge (id : string) : DbM () :=
  modify (fun db => set_edges (filter (fun e => e.(WorkEdgeRow.id) <> id) db.(edges)) db).

(** ** Repository bindings and locks *)

Definition replace_node_repos (node_id : string) (repo_ids : list string) : DbM (list WorkNodeRepoBinding.t) :=
  _ ← modify (fun db => set_node_repos
        (filter (fun w => w.(NodeRepoRow.node_id) <> node_id) db.(node_repos)) db);
  _ ← for_each (fun repo_id =>
        db ← get;
        _ ← fail_when (negb (node_exists db node_id) ||
              negb (existsb (fun r => eq_str r.1 repo_id) db.(repos)) ||
              existsb (fun w => eq_str w.(NodeRepoRow.node_id) node_id &&
                                eq_str w.(NodeRepoRow.repo_id) repo_id) db.(node_repos)) Sqlx;
        modify (set_node_repos (db.(node_repos) ++
          [NodeRepoRow.mk node_id repo_id None None None "host"]))) repo_ids;
  list_repo_bindings node_id.

(** [SELECT DISTINCT wl.node_id]. *)
Definition conflicting_locks (node_id : string) : DbM (list string) :=
  gets (fun db => remove_dups
    (l ← db.(locks);
     wnr ← filter (fun w => w.(NodeRepoRow.repo_id) = l.(WorkLockRow.repo_id) /\
                            w.(NodeRepoRow.node_id) = node_id) db.(node_repos);
     if decide (l.(WorkLockRow.node_id) = node_id) then [] else [l.(WorkLockRow.node_id)])).

Definition insert_lock (node_id repo_id : string) (ts : Z) : DbM () :=
  db ← get;
  _ ← fail_when (existsb (fun l => eq_str l.(WorkLockRow.repo_id) repo_id) db.(locks) ||
        negb (node_exists db node_id) ||
        negb (existsb (fun r => eq_str r.1 repo_id) db.(repos))) Sqlx;
  modify (set_locks (db.(locks) ++ [WorkLockRow.mk node_id repo_id ts])).

Definition acquire_locks (ts : Z) (node_id : string) : DbM () :=
  bindings ← list_repo_bindings node_id;
  for_each (fun b => insert_lock node_id b.(WorkNodeRepoBinding.repo_id) ts) bindings.

Definition release_locks (node_id : string) : DbM () :=
  modify (fun db => set_locks (filter (fun l => l.(WorkLockRow.node_id) <> node_id) db.(locks)) db).

Definition release_locks_for_task (task_id : string) : DbM () :=
  o ← get_node_for_task task_id;
  match o with Some node => release_locks node.(WorkNode.id) | None => mret () end.

Definition release_locks_for_thread (thread_id : string) : DbM () :=
  o ← get_node_for_thread thread_id;
  match o with Some node => release_locks node.(WorkNode.id) | None => mret () end.

(** ** Runs *)

Definition get_run (id : string) : DbM (option WorkRun.t) :=
  fetch_optional runs (fun r => eq_str r.(WorkRunRow.id) id) run_try_from.

Definition record_run (ts : Z) (id : string) (node : WorkNode.t) (agent : AgentKind.t) (run_ref : string) :
  DbM WorkRun.t :=
  db ← get;
  _ ← fail_when (existsb (fun r => eq_str r.(WorkRunRow.id) id) db.(runs) ||
        negb (node_exists db node.(WorkNode.id))) Sqlx;
  _ ← modify (set_runs (db.(runs) ++
        [WorkRunRow.mk id node.(WorkNode.id) node.(WorkNode.task_id) node.(WorkNode.thread_id)
           (AgentKind.as_str agent) run_ref "running" ts None None]));
  required (get_run id).

Definition attach_run_to_plan (run_ref plan_run_id : string) : DbM () :=
  db ← get;
  _ ← fail_when (existsb (fun r => eq_str r.(WorkRunRow.run_ref) run_ref) db.(runs) &&
        negb (existsb (fun p => eq_str p.(WorkPlanRunRow.id) plan_run_id) db.(plans))) Sqlx;
  modify (set_runs (update_where (fun r => eq_str r.(WorkRunRow.run_ref) run_ref)
            (WorkRunRow.set_plan_run_id (Some plan_run_id)) db.(runs))).

Definition finish_runs_for_ref (ts : Z) (run_ref : string) (state : SessionState.t) : DbM () :=
  modify (fun db => set_runs
    (update_where (fun r => eq_str r.(WorkRunRow.run_ref) run_ref && bool_decide (r.(WorkRunRow.ended_at) = None))
       (fun r => WorkRunRow.set_ended_at (Some ts) (WorkRunRow.set_state (SessionState.as_str state) r))
       db.(runs)) db).

Definition run_order (a b : WorkRunRow.t) : bool := a.(WorkRunRow.started_at) <=? b.(WorkRunRow.started_at).

Definition list_runs_for_node (node_id : string) : DbM (list WorkRun.t) :=
  fetch_all (fun db => sort_by run_order (filter (fun r => r.(WorkRunRow.node_id) = node_id) db.(runs)))
    run_try_from.

Definition list_running_runs_for_plan (plan_run_id : string) : DbM (list WorkRun.t) :=
  fetch_all (fun db => sort_by run_order
    (filter (fun r => r.(WorkRunRow.plan_run_id) = Some plan_run_id /\ r.(WorkRunRow.state) = "running"%string)
       db.(runs))) run_try_from.

Definition count_runs_for_node_in_plan (plan_run_id node_id : string) : DbM Z :=
  gets (fun db => Z.of_nat (length
    (filter (fun r => r.(WorkRunRow.plan_run_id) = Some plan_run_id /\ r.(WorkRunRow.node_id) = node_id)
       db.(runs)))).

(** ** Plan runs *)

Definition get_plan_run (id : string) : DbM (option WorkPlanRun.t) :=
  fetch_optional plans (fun p => eq_str p.(WorkPlanRunRow.id) id) plan_try_from.

Definition create_plan_run (ts : Z) (id project_id : string) (gate_mode : GateMode.t) (max_active_runs : Z)
  (default_agent : AgentKind.t) (default_permission : string)
  (default_execution_backend : option ExecutionBackend.t) (evaluator_policy_json : option string)
  (total_count : Z) (options : WorkPlanOptions.t) : DbM WorkPlanRun.t :=
  db ← get;
  _ ← fail_when (existsb (fun p => eq_str p.(WorkPlanRunRow.id) id) db.(plans) ||
        negb (bool_decide (project_id ∈ db.(projects)))) Sqlx;
  _ ← modify (set_plans (db.(plans) ++
        [WorkPlanRunRow.mk id project_id (GateMode.as_str gate_mode) "running" max_active_runs
           (PlanFailureMode.as_str options.(WorkPlanOptions.failure_mode))
           (Z.max 0 options.(WorkPlanOptions.max_node_retries))
           (if options.(WorkPlanOptions.steer_dependents_on_unblock) then 1 else 0)
           (Some (AgentKind.as_str default_agent)) (Some default_permission)
           (ExecutionBackend.as_str <$> default_execution_backend) evaluator_policy_json None None
           total_count 0 0 0 None ts None ts]));
  required (get_plan_run id).

(** [UPDATE work_plan_runs SET ... WHERE id = ?], then read the row back. *)
Definition update_plan (id : string) (cond : WorkPlanRunRow.t -> bool)
  (f : WorkPlanRunRow.t -> WorkPlanRunRow.t) : DbM WorkPlanRun.t :=
  _ ← modify (fun db => set_plans
        (update_where (fun p => eq_str p.(WorkPlanRunRow.id) id && cond p) f db.(plans)) db);
  required (get_plan_run id).

Definition set_plan_run_resume_after_node (ts : Z) (id : string) (node_id : option string) :
  DbM WorkPlanRun.t :=
  db ← get;
  _ ← fail_when (existsb (fun p => eq_str p.(WorkPlanRunRow.id) id) db.(plans) &&
        negb (opt_node_exists db node_id)) Sqlx;
  update_plan id (fun _ => true)
    (fun p => WorkPlanRunRow.set_updated_at ts (WorkPlanRunRow.set_resume_after_node_id node_id p)).

Definition resume_plan_run (ts : Z) (id : string) : DbM WorkPlanRun.t :=
  update_plan id (fun p => eq_str p.(WorkPlanRunRow.state) "paused")
    (fun p => WorkPlanRunRow.set_updated_at ts (WorkPlanRunRow.set_ended_at None
       (WorkPlanRunRow.set_resume_after_node_id None (WorkPlanRunRow.set_error None
          (WorkPlanRunRow.set_state "running" p))))).

Definition update_plan_run_progress (ts : Z) (id : string) (state : WorkPlanRunState.t)
  (completed_count active_count blocked_count : Z) (error : option string) (ended : bool) :
  DbM WorkPlanRun.t :=
  update_plan id (fun _ => true)
    (fun p => WorkPlanRunRow.set_updated_at ts
       (WorkPlanRunRow.set_ended_at (opt_or (if ended then Some ts else None) p.(WorkPlanRunRow.ended_at))
          (WorkPlanRunRow.set_error error (WorkPlanRunRow.set_blocked_count blocked_count
             (WorkPlanRunRow.set_active_count active_count
                (WorkPlanRunRow.set_completed_count completed_count
                   (WorkPlanRunRow.set_state (WorkPlanRunState.as_str state) p))))))).

Definition cancel_plan_run (ts : Z) (id : string) : DbM WorkPlanRun.t :=
  update_plan id (fun _ => true)
    (fun p => WorkPlanRunRow.set_updated_at ts
       (WorkPlanRunRow.set_ended_at (opt_or p.(WorkPlanRunRow.ended_at) (Some ts))
          (WorkPlanRunRow.set_state "cancelled" p))).

Definition list_paused_plan_runs : DbM (list WorkPlanRun.t) :=
  fetch_all (fun db => sort_by (fun a b => a.(WorkPlanRunRow.started_at) <=? b.(WorkPlanRunRow.started_at))
    (filter (fun p => p.(WorkPlanRunRow.state) = "paused"%string) db.(plans))) plan_try_from.

Definition list_plan_runs (project_id : string) : DbM (list WorkPlanRun.t) :=
  fetch_all (fun db => sort_by (fun a b => b.(WorkPlanRunRow.started_at) <=? a.(WorkPlanRunRow.started_at))
    (filter (fun p => p.(WorkPlanRunRow.project_id) = project_id) db.(plans))) plan_try_from.
