(* ===== verification/WorkGraphInv.v ===== *)
(** * Well-formedness of the work-graph tables

    The invariant of [WorkGraphDb]: keys are unique, every row decodes, and every
    reference names an existing node; each repository function keeps it, whether
    it succeeds or fails. *)
From S2P Require Import Prelude RustStr Enums Records WorkGraphDb.

Definition node_ids (db : WorkDb) : list string := WorkNodeRow.id <$> db.(nodes).

Definition edge_key (e : WorkEdgeRow.t) : string * string * string :=
  (e.(WorkEdgeRow.source_id), e.(WorkEdgeRow.target_id), e.(WorkEdgeRow.kind)).

Definition edge_ends (db : WorkDb) (e : WorkEdgeRow.t) : Prop :=
  e.(WorkEdgeRow.source_id) ∈ node_ids db /\ e.(WorkEdgeRow.target_id) ∈ node_ids db.

Definition ExecutionBackend_of (s : string) : result DbError ExecutionBackend.t := decode s.

Record wf (db : WorkDb) : Prop := {
  wf_node_ids : NoDup (node_ids db);
  wf_node_rows : forall r, r ∈ db.(nodes) -> is_ok (node_try_from r) = true;
  wf_edge_ids : NoDup (WorkEdgeRow.id <$> db.(edges));
  wf_edge_keys : NoDup (edge_key <$> db.(edges));
  wf_edge_rows : forall e, e ∈ db.(edges) -> is_ok (edge_try_from e) = true;
  wf_edge_ends : forall e, e ∈ db.(edges) -> edge_ends db e;
  wf_binding_keys : NoDup ((fun w => (w.(NodeRepoRow.node_id), w.(NodeRepoRow.repo_id))) <$> db.(node_repos));
  wf_binding_nodes : forall w, w ∈ db.(node_repos) -> w.(NodeRepoRow.node_id) ∈ node_ids db;
  wf_binding_rows : forall w, w ∈ db.(node_repos) ->
    is_ok (ExecutionBackend_of w.(NodeRepoRow.workspace_backend)) = true;
  wf_lock_repos : NoDup (WorkLockRow.repo_id <$> db.(locks));
  wf_lock_nodes : forall l, l ∈ db.(locks) -> l.(WorkLockRow.node_id) ∈ node_ids db;
  wf_run_ids : NoDup (WorkRunRow.id <$> db.(runs));
  wf_run_rows : forall r, r ∈ db.(runs) -> is_ok (run_try_from r) = true;
  wf_run_nodes : forall r, r ∈ db.(runs) -> r.(WorkRunRow.node_id) ∈ node_ids db;
  wf_plan_ids : NoDup (WorkPlanRunRow.id <$> db.(plans));
  wf_plan_rows : forall p, p ∈ db.(plans) -> is_ok (plan_try_from p) = true;
  wf_repo_ids : NoDup (db.(repos).*1)
}.

Lemma eq_str_true a b : eq_str a b = true <-> a = b.
Proof. apply bool_decide_eq_true. Qed.

Lemma existsb_key {A} (g : A -> string) (l : list A) k :
  existsb (fun a => eq_str (g a) k) l = true <-> k ∈ g <$> l.
Proof.
  rewrite existsb_exists, list_elem_of_fmap. split.
  - intros (a & Hin%list_elem_of_In & Ha%eq_str_true). eauto.
  - intros (a & -> & Hin%list_elem_of_In). exists a. by rewrite eq_str_true.
Qed.

Lemma existsb_key_false {A} (g : A -> string) (l : list A) k :
  existsb (fun a => eq_str (g a) k) l = false <-> k ∉ g <$> l.
Proof. rewrite <- existsb_key, not_true_iff_false. done. Qed.

Lemma node_exists_true db id : node_exists db id = true <-> id ∈ node_ids db.
Proof. apply existsb_key. Qed.

(** *** What makes a row readable *)

Definition readable {T} `{WireEnum T} (s : string) : Prop := exists x : T, unwire s = Some x.

Lemma readable_wire {T} `{WireEnum T} (x : T) : readable (T:=T) (wire x).
Proof. exists x. apply unwire_wire. Qed.

Lemma decode_ok {T} `{WireEnum T} s : is_ok (decode (T:=T) s) = true <-> readable (T:=T) s.
Proof. unfold decode, readable. destruct (unwire s); cbn; naive_solver. Qed.

Lemma decode_inv {T} `{WireEnum T} s (x : T) : decode s = Ok x -> unwire s = Some x.
Proof. unfold decode. destruct (unwire s); cbn; congruence. Qed.

Lemma decode_wire {T} `{WireEnum T} (x : T) : decode (wire x) = Ok x.
Proof. unfold decode. by rewrite unwire_wire. Qed.

Lemma decode_opt_wire {T} `{WireEnum T} (o : option T) : decode_opt (wire <$> o) = Ok o.
Proof. destruct o; [|done]. cbn. by rewrite decode_wire. Qed.

Lemma decode_opt_ok {T} `{WireEnum T} o :
  is_ok (decode_opt (T:=T) o) = true <-> forall s, o = Some s -> readable (T:=T) s.
Proof.
  unfold decode_opt. destruct o as [s|]; cbn; [|naive_solver].
  pose proof (decode_ok (T:=T) s) as Hs. destruct (decode s); cbn in *; naive_solver.
Qed.

Lemma is_ok_bind {E A B} (r : result E A) (f : A -> result E B) :
  (forall a, is_ok (f a) = true) -> is_ok (r ≫= f) = is_ok r.
Proof. intros Hf. destruct r; cbn; auto. Qed.

Lemma node_ok_iff r :
  is_ok (node_try_from r) = true <->
  (forall s, r.(WorkNodeRow.primary_agent) = Some s -> readable (T:=AgentKind.t) s) /\
  readable (T:=WorkNodeKind.t) r.(WorkNodeRow.kind) /\
  readable (T:=TaskStatus.t) r.(WorkNodeRow.status) /\
  readable (T:=TaskPriority.t) r.(WorkNodeRow.priority).
Proof.
  rewrite <- decode_opt_ok, <- !decode_ok. unfold node_try_from.
  destruct (decode_opt _), (decode _), (decode _), (decode _); cbn; naive_solver.
Qed.

Lemma edge_ok_iff e : is_ok (edge_try_from e) = true <-> readable (T:=WorkEdgeKind.t) e.(WorkEdgeRow.kind).
Proof. rewrite <- decode_ok. unfold edge_try_from. destruct (decode _); done. Qed.

Lemma plan_ok_iff p :
  is_ok (plan_try_from p) = true <->
  readable (T:=GateMode.t) p.(WorkPlanRunRow.gate_mode) /\
  readable (T:=WorkPlanRunState.t) p.(WorkPlanRunRow.state) /\
  readable (T:=PlanFailureMode.t) p.(WorkPlanRunRow.failure_mode) /\
  (forall s, p.(WorkPlanRunRow.default_agent) = Some s -> readable (T:=AgentKind.t) s) /\
  (forall s, p.(WorkPlanRunRow.default_execution_backend) = Some s -> readable (T:=ExecutionBackend.t) s).
Proof.
  rewrite <- !decode_opt_ok, <- !decode_ok. unfold plan_try_from.
  destruct (decode _), (decode _), (decode _), (decode_opt _), (decode_opt _); cbn; naive_solver.
Qed.

Lemma parse_session_state_spec s :
  parse_session_state s = ok_or (SessionState.parse s) (InvalidEnum s).
Proof.
  unfold parse_session_state, SessionState.parse. cbn.
  repeat (destruct (String.eqb _ _); [done|]). done.
Qed.

Lemma run_ok_iff r :
  is_ok (run_try_from r) = true <->
  readable (T:=AgentKind.t) r.(WorkRunRow.agent_kind) /\
  readable (T:=SessionState.t) r.(WorkRunRow.state).
Proof.
  rewrite <- !decode_ok. unfold run_try_from. rewrite parse_session_state_spec.
  change (ok_or (SessionState.parse (WorkRunRow.state r)) (InvalidEnum (WorkRunRow.state r)))
    with (decode (T:=SessionState.t) (WorkRunRow.state r)).
  destruct (decode _), (decode _); cbn; naive_solver.
Qed.

Lemma readable_const {T} `{WireEnum T} (x : T) s : wire x = s -> readable (T:=T) s.
Proof. intros <-. apply readable_wire. Qed.

#[export] Hint Resolve readable_wire : perp.

(** A column bound with [as_str]. *)
Ltac solve_readable :=
  match goal with |- readable (T:=?T) (_ ?x) => exact (readable_wire (T:=T) x) end.

(** ** Table updates *)

Lemma wf_update_nodes db p f :
  wf db -> (forall r, WorkNodeRow.id (f r) = WorkNodeRow.id r) ->
  (forall r, is_ok (node_try_from r) = true -> is_ok (node_try_from (f r)) = true) ->
  wf (set_nodes (update_where p f db.(nodes)) db).
Proof.
  intros [] Hid Hok.
  assert (node_ids (set_nodes (update_where p f (nodes db)) db) = node_ids db) as Hids
    by (apply update_where_column; auto).
  split; rewrite ?Hids; try done.
  - intros r (b & Hb & ->)%elem_of_update_where. destruct (p b); auto.
  - intros e He. unfold edge_ends. rewrite Hids. by apply wf_edge_ends0.
Qed.

Lemma wf_insert_node db r :
  wf db -> r.(WorkNodeRow.id) ∉ node_ids db -> is_ok (node_try_from r) = true ->
  wf (set_nodes (db.(nodes) ++ [r]) db).
Proof.
  intros [] Hid Hok.
  assert (node_ids (set_nodes (nodes db ++ [r]) db) = node_ids db ++ [r.(WorkNodeRow.id)]) as Hids
    by (unfold node_ids; apply (fmap_app WorkNodeRow.id)).
  assert (forall x, x ∈ node_ids db -> x ∈ node_ids db ++ [r.(WorkNodeRow.id)]) as Hmono
    by (intros x ?; apply elem_of_app; by left).
  split; rewrite ?Hids; eauto.
  - by apply NoDup_snoc.
  - intros b [Hb| ->%list_elem_of_singleton]%elem_of_app; auto.
  - intros e He. unfold edge_ends. rewrite Hids. destruct (wf_edge_ends0 e He); auto.
Qed.

Lemma wf_set_edges db es :
  wf db -> NoDup (WorkEdgeRow.id <$> es) -> NoDup (edge_key <$> es) ->
  (forall e, e ∈ es -> is_ok (edge_try_from e) = true /\ edge_ends db e) ->
  wf (set_edges es db).
Proof. intros [] Hi Hk He. split; cbn; try done; intros e Hin; by apply (He e). Qed.

Lemma wf_set_node_repos db ws :
  wf db -> NoDup ((fun w => (w.(NodeRepoRow.node_id), w.(NodeRepoRow.repo_id))) <$> ws) ->
  (forall w, w ∈ ws -> w.(NodeRepoRow.node_id) ∈ node_ids db /\
     is_ok (ExecutionBackend_of w.(NodeRepoRow.workspace_backend)) = true) ->
  wf (set_node_repos ws db).
Proof. intros [] Hn Hw. split; cbn; try done; intros w Hin; by apply (Hw w). Qed.

Lemma wf_set_locks db ls :
  wf db -> NoDup (WorkLockRow.repo_id <$> ls) ->
  (forall l, l ∈ ls -> l.(WorkLockRow.node_id) ∈ node_ids db) -> wf (set_locks ls db).
Proof. intros [] ??. by split. Qed.

Lemma wf_set_runs db rs :
  wf db -> NoDup (WorkRunRow.id <$> rs) ->
  (forall r, r ∈ rs -> is_ok (run_try_from r) = true /\ r.(WorkRunRow.node_id) ∈ node_ids db) ->
  wf (set_runs rs db).
Proof. intros [] Hn Hr. split; cbn; try done; intros r Hin; by apply (Hr r). Qed.

Lemma wf_set_plans db ps :
  wf db -> NoDup (WorkPlanRunRow.id <$> ps) ->
  (forall p, p ∈ ps -> is_ok (plan_try_from p) = true) -> wf (set_plans ps db).
Proof. intros [] ??. by split. Qed.

Lemma wf_update_plans db p f :
  wf db -> (forall r, WorkPlanRunRow.id (f r) = WorkPlanRunRow.id r) ->
  (forall r, is_ok (plan_try_from r) = true -> is_ok (plan_try_from (f r)) = true) ->
  wf (set_plans (update_where p f db.(plans)) db).
Proof.
  intros Hwf Hid Hok. apply wf_set_plans; [done| |].
  - rewrite update_where_column by auto. apply Hwf.
  - intros r (b & Hb & ->)%elem_of_update_where. pose proof (wf_plan_rows _ Hwf b Hb). destruct (p b); auto.
Qed.

Lemma wf_update_runs db p f :
  wf db -> (forall r, WorkRunRow.id (f r) = WorkRunRow.id r /\ WorkRunRow.node_id (f r) = WorkRunRow.node_id r) ->
  (forall r, is_ok (run_try_from r) = true -> is_ok (run_try_from (f r)) = true) ->
  wf (set_runs (update_where p f db.(runs)) db).
Proof.
  intros Hwf Hid Hok. apply wf_set_runs; [done| |].
  - rewrite update_where_column by (intros; apply Hid). apply Hwf.
  - intros r (b & Hb & ->)%elem_of_update_where. destruct (Hid b) as [_ Hn].
    pose proof (wf_run_rows _ Hwf b Hb). pose proof (wf_run_nodes _ Hwf b Hb).
    destruct (p b); rewrite ?Hn; auto.
Qed.

(** ** Reads keep any predicate *)

Lemma keeps_fetch_optional P {R A} (table : WorkDb -> list R) p (from : R -> result DbError A) :
  keeps P (fetch_optional table p from).
Proof. apply keeps_bind; auto with perp. Qed.

Lemma keeps_fetch_all P {R A} (query : WorkDb -> list R) (from : R -> result DbError A) :
  keeps P (fetch_all query from).
Proof. apply keeps_bind; auto with perp. Qed.

Lemma keeps_required P {A} (m : DbM (option A)) : keeps P m -> keeps P (required m).
Proof. intros Hm. apply keeps_bind; [done|]. intros o. apply keeps_lift. Qed.

#[export] Hint Resolve keeps_fetch_optional keeps_fetch_all keeps_required : perp.
#[export] Hint Extern 2 (keeps _ (get_node _)) => apply keeps_fetch_optional : perp.
#[export] Hint Extern 2 (keeps _ (get_edge _)) => apply keeps_fetch_optional : perp.
#[export] Hint Extern 2 (keeps _ (get_run _)) => apply keeps_fetch_optional : perp.
#[export] Hint Extern 2 (keeps _ (get_plan_run _)) => apply keeps_fetch_optional : perp.
#[export] Hint Extern 2 (keeps _ (get_node_for_task _)) => apply keeps_fetch_optional : perp.
#[export] Hint Extern 2 (keeps _ (get_node_for_thread _)) => apply keeps_fetch_optional : perp.
#[export] Hint Extern 2 (keeps _ (list_repo_bindings _)) => apply keeps_fetch_all : perp.

(** ** Every command *)

Lemma keeps_create_standalone_node ts id input kind : keeps wf (create_standalone_node ts id input kind).
Proof.
  apply keeps_bind; [apply keeps_gets|]. intros so. apply keeps_bind; [|auto with perp].
  apply keeps_guarded_last. intros db Hwf Hg.
  rewrite !orb_false_iff in Hg. destruct Hg as [[Hid _] _]. apply existsb_key_false in Hid.
  apply wf_insert_node; [done|done|]. apply node_ok_iff.
  cbn [WorkNodeRow.primary_agent WorkNodeRow.kind WorkNodeRow.status WorkNodeRow.priority].
  split_and!; [|solve_readable..].
  intros s. destruct (NewWorkNode.primary_agent input); cbn; [intros [= <-]|done]. solve_readable.
Qed.

Lemma keeps_update_node_fields ts id patch : keeps wf (update_node_fields ts id patch).
Proof.
  apply keeps_bind; [auto with perp|]. intros before.
  apply keeps_guarded; [|auto with perp]. intros db Hwf _. apply wf_update_nodes; [done|done|].
  intros r. rewrite !node_ok_iff. cbn. intros (_ & Hk & _). split_and!; [|done|solve_readable..].
  intros s. destruct (opt_or _ _); cbn; [intros [= <-]|done]. solve_readable.
Qed.

Lemma keeps_move_node ts id parent_id x y : keeps wf (move_node ts id parent_id x y).
Proof.
  apply keeps_guarded; [|auto with perp]. intros db Hwf _. apply wf_update_nodes; [done|done|].
  intros r. by rewrite !node_ok_iff.
Qed.

Lemma keeps_apply_layout ts pid ps b : keeps wf (apply_layout ts pid ps b).
Proof.
  apply keeps_bind.
  - apply keeps_modify. intros db Hwf. destruct b; [|done].
    apply wf_update_nodes; [done|done|]. intros r. by rewrite !node_ok_iff.
  - intros _. apply keeps_for_each. intros p. apply keeps_modify. intros db Hwf.
    apply wf_update_nodes; [done|done|]. intros r. by rewrite !node_ok_iff.
Qed.

Lemma keeps_delete_node id : keeps wf (delete_node id).
Proof.
  apply keeps_modify. intros db [].
  assert (forall x, x ∈ node_ids db -> x <> id ->
     x ∈ WorkNodeRow.id <$> update_where (fun r => eq_opt r.(WorkNodeRow.parent_id) id)
            (WorkNodeRow.set_parent_id None) (filter (fun r => r.(WorkNodeRow.id) <> id) (nodes db))) as Hkeep.
  { intros x (r & -> & Hr)%list_elem_of_fmap Hne. rewrite update_where_column by done.
    apply list_elem_of_fmap. exists r. split; [done|]. by apply list_elem_of_filter. }
  split; cbn; unfold node_ids, edge_ends; cbn.
  - rewrite update_where_column by done. by apply NoDup_filter_column.
  - intros r (b & [_ Hb]%list_elem_of_filter & ->)%elem_of_update_where.
    specialize (wf_node_rows0 b Hb). case_match; [|done]. by rewrite node_ok_iff in *.
  - by apply NoDup_filter_column.
  - by apply NoDup_filter_column.
  - intros e [_ He]%list_elem_of_filter. auto.
  - intros e [[??] He]%list_elem_of_filter. destruct (wf_edge_ends0 e He). auto.
  - by apply NoDup_filter_column.
  - intros w [? Hw]%list_elem_of_filter. auto.
  - intros w [? Hw]%list_elem_of_filter. auto.
  - by apply NoDup_filter_column.
  - intros l [? Hl]%list_elem_of_filter. auto.
  - by apply NoDup_filter_column.
  - intros r [_ Hr]%list_elem_of_filter. auto.
  - intros r [? Hr]%list_elem_of_filter. auto.
  - rewrite update_where_column; done.
  - intros p (q & Hq & ->)%elem_of_update_where. specialize (wf_plan_rows0 q Hq).
    case_match; [|done]. by rewrite plan_ok_iff in *.
  - done.
Qed.

(** A command that starts by reading one row. *)
Lemma keeps_fetched {R A B} (P : WorkDb -> Prop) (table : WorkDb -> list R) p (from : R -> result DbError A)
  (k : A -> DbM B) :
  (forall db row a, P db -> find p (table db) = Some row -> from row = Ok a -> P (final (k a) db)) ->
  keeps P (a ← required (fetch_optional table p from); k a).
Proof.
  intros Hk db Hdb. unfold final, required, fetch_optional. rewrite !M_bind_unfold. cbn.
  destruct (find p (table db)) as [row|] eqn:Hrow; cbn; [|done].
  destruct (from row) as [a|e] eqn:Ha; cbn; [|done]. by apply (Hk db row).
Qed.

(** Giving one row a key no other row has keeps the keys distinct. *)
Lemma NoDup_update_one {A B} (id : A -> string) (g : A -> B) i f (l : list A) v :
  NoDup (id <$> l) -> NoDup (g <$> l) -> (forall a, g (f a) = v) ->
  (forall a, a ∈ l -> id a <> i -> g a <> v) ->
  NoDup (g <$> update_where (fun a => eq_str (id a) i) f l).
Proof.
  intros Hid Hg Hv Hother. induction l as [|a l IH]; [done|]. cbn in *.
  apply NoDup_cons in Hid as [Ha Hid]. apply NoDup_cons in Hg as [Hga Hg].
  assert (forall x, x ∈ l -> x ∈ a :: l) as Hin by (intros x ?; by right).
  constructor; [|apply IH; auto]. intros (b & Hb & Hbin)%list_elem_of_fmap.
  apply elem_of_update_where in Hbin as (c & Hc & ->). unfold eq_str in *.
  case_bool_decide as H1; case_bool_decide as H2.
  - apply Ha. rewrite H1, <- H2. by apply list_elem_of_fmap_2.
  - apply (Hother c); [by right|done|]. by rewrite <- Hb.
  - apply (Hother a); [by left|done|]. by rewrite Hb.
  - apply Hga. rewrite Hb. by apply list_elem_of_fmap_2.
Qed.

Lemma same_edge_true s t k e : same_edge s t k e = true <-> edge_key e = (s, t, k).
Proof.
  unfold same_edge, edge_key. rewrite !andb_true_iff, !eq_str_true. split; [intros [[-> ->] ->]; done|].
  intros [= -> -> ->]. done.
Qed.

Lemma keeps_create_edge ts id input : keeps wf (create_edge ts id input).
Proof.
  assert (forall p, keeps wf (o ← fetch_optional edges p edge_try_from; lift_opt o Sqlx)) as Htail
    by (intros p; apply keeps_bind; [auto with perp|intros; apply keeps_lift]).
  intros db Hwf. unfold create_edge, final. rewrite M_bind_unfold. cbn [get].
  destruct (existsb _ _) eqn:Hdup.
  - rewrite M_bind_unfold. cbn [modify]. apply Htail.
    apply wf_set_edges; [done|rewrite update_where_column by done; apply Hwf..|].
    intros e (b & Hb & ->)%elem_of_update_where.
    pose proof (wf_edge_rows _ Hwf b Hb). pose proof (wf_edge_ends _ Hwf b Hb).
    destruct (same_edge _ _ _ b); [|done]. split; [by rewrite edge_ok_iff in *|done].
  - rewrite !M_bind_unfold. destruct (_ || _) eqn:Hg; cbn [fail_when throw mret M_ret modify]; [done|].
    apply Htail.
    rewrite !orb_false_iff, !negb_false_iff, !node_exists_true in Hg. destruct Hg as [[[_ Hs] Ht] Hid].
    apply existsb_key_false in Hid.
    apply wf_set_edges; [done|rewrite fmap_app; apply NoDup_snoc; [apply Hwf|]..|].
    + done.
    + intros (e & He & Hin)%list_elem_of_fmap. apply not_true_iff_false in Hdup. apply Hdup.
      apply existsb_exists. exists e. split; [by apply list_elem_of_In|]. apply same_edge_true. by rewrite <- He.
    + intros e [He| ->%list_elem_of_singleton]%elem_of_app.
      * split; [by apply Hwf|by apply (wf_edge_ends _ Hwf)].
      * split; [|done]. apply edge_ok_iff. cbn [WorkEdgeRow.kind]. solve_readable.
Qed.

Lemma keeps_save_edge id edge : WorkEdge.id edge = id -> keeps wf (save_edge id edge).
Proof.
  intros Hb. apply keeps_guarded; [|auto with perp]. intros db Hwf Hg.
  rewrite !orb_false_iff, !negb_false_iff, !node_exists_true in Hg. destruct Hg as [[Hs Ht] Hdup].
  rewrite Hb. apply wf_set_edges; [done|rewrite update_where_column by done; apply Hwf| |].
  - apply (NoDup_update_one WorkEdgeRow.id edge_key id _ _ (WorkEdge.source_id edge,
             WorkEdge.target_id edge, WorkEdgeKind.as_str (WorkEdge.kind edge)));
      [apply Hwf|apply Hwf|done|].
    intros e He Hne Hkey. apply not_true_iff_false in Hdup. apply Hdup, existsb_exists. exists e.
    split; [by apply list_elem_of_In|]. apply andb_true_iff. split; [by apply same_edge_true|].
    by apply negb_true_iff, bool_decide_eq_false.
  - intros e (b & Hbin & ->)%elem_of_update_where.
    pose proof (wf_edge_rows _ Hwf b Hbin). pose proof (wf_edge_ends _ Hwf b Hbin).
    destruct (eq_str _ _); [|done]. split; [|done]. apply edge_ok_iff. cbn. solve_readable.
Qed.

Lemma edge_try_from_id row e : edge_try_from row = Ok e -> WorkEdge.id e = WorkEdgeRow.id row.
Proof. unfold edge_try_from. destruct (decode _); [|done]. by intros [= <-]. Qed.

Lemma keeps_update_edge ts id patch : keeps wf (update_edge ts id patch).
Proof.
  apply keeps_fetched. intros db row before Hwf Hrow Hbefore.
  apply find_Some_elem in Hrow as [_ Hid%eq_str_true]. apply keeps_save_edge; [|done].
  cbn. rewrite <- Hid. by apply edge_try_from_id.
Qed.

Lemma keeps_delete_edge id : keeps wf (delete_edge id).
Proof.
  apply keeps_modify. intros db Hwf. apply wf_set_edges; [done|apply NoDup_filter_column, Hwf..|].
  intros e [_ He]%list_elem_of_filter. split; [by apply Hwf|by apply (wf_edge_ends _ Hwf)].
Qed.

Lemma keeps_replace_node_repos id repo_ids : keeps wf (replace_node_repos id repo_ids).
Proof.
  apply keeps_bind; [|intros _; apply keeps_bind; [|auto with perp]].
  - apply keeps_modify. intros db Hwf. apply wf_set_node_repos; [done|apply NoDup_filter_column, Hwf|].
    intros w [_ Hw]%list_elem_of_filter. split; by apply Hwf.
  - apply keeps_for_each. intros repo_id. apply keeps_guarded_last. intros db Hwf Hg.
    rewrite !orb_false_iff, !negb_false_iff, !node_exists_true in Hg. destruct Hg as [[Hn _] Hdup].
    apply wf_set_node_repos; [done|rewrite fmap_app; apply NoDup_snoc; [apply Hwf|]|].
    + cbn. intros (w & [= Hw1 Hw2] & Hin)%list_elem_of_fmap. apply not_true_iff_false in Hdup. apply Hdup.
      apply existsb_exists. exists w. split; [by apply list_elem_of_In|].
      by rewrite andb_true_iff, !eq_str_true.
    + intros w [Hw| ->%list_elem_of_singleton]%elem_of_app; [split; by apply Hwf|done].
Qed.

Lemma keeps_acquire_locks ts id : keeps wf (acquire_locks ts id).
Proof.
  apply keeps_bind; [auto with perp|]. intros bs. apply keeps_for_each. intros b.
  apply keeps_guarded_last. intros db Hwf Hg.
  rewrite !orb_false_iff, !negb_false_iff, node_exists_true in Hg. destruct Hg as [[Hdup Hn] _].
  apply existsb_key_false in Hdup.
  apply wf_set_locks; [done|rewrite fmap_app; apply NoDup_snoc; [apply Hwf|done]|].
  intros l [Hl| ->%list_elem_of_singleton]%elem_of_app; [by apply Hwf|done].
Qed.

Lemma keeps_release_locks id : keeps wf (release_locks id).
Proof.
  apply keeps_modify. intros db Hwf. apply wf_set_locks; [done|apply NoDup_filter_column, Hwf|].
  intros l [_ Hl]%list_elem_of_filter. by apply Hwf.
Qed.

Lemma keeps_record_run ts id node agent run_ref : keeps wf (record_run ts id node agent run_ref).
Proof.
  apply keeps_guarded; [|auto with perp]. intros db Hwf Hg.
  rewrite orb_false_iff, negb_false_iff, node_exists_true in Hg. destruct Hg as [Hid Hn].
  apply existsb_key_false in Hid.
  apply wf_set_runs; [done|rewrite fmap_app; apply NoDup_snoc; [apply Hwf|done]|].
  intros r [Hr| ->%list_elem_of_singleton]%elem_of_app.
  - split; by apply Hwf.
  - split; [|done]. apply run_ok_iff. cbn [WorkRunRow.agent_kind WorkRunRow.state].
    split; [solve_readable|by exists SessionState.Running].
Qed.

Lemma keeps_attach_run_to_plan run_ref plan : keeps wf (attach_run_to_plan run_ref plan).
Proof.
  apply keeps_guarded_last. intros db Hwf _. apply wf_update_runs; [done|done|].
  intros r. by rewrite !run_ok_iff.
Qed.

Lemma keeps_finish_runs ts run_ref state : keeps wf (finish_runs_for_ref ts run_ref state).
Proof.
  apply keeps_modify. intros db Hwf. apply wf_update_runs; [done|done|].
  intros r. rewrite !run_ok_iff. cbn. intros [Ha _]. split; [done|solve_readable].
Qed.

Lemma keeps_create_plan_run ts id pid gm mx ag perm be ev total options :
  keeps wf (create_plan_run ts id pid gm mx ag perm be ev total options).
Proof.
  apply keeps_guarded; [|auto with perp]. intros db Hwf Hg.
  rewrite orb_false_iff in Hg. destruct Hg as [Hid _]. apply existsb_key_false in Hid.
  apply wf_set_plans; [done|rewrite fmap_app; apply NoDup_snoc; [apply Hwf|done]|].
  intros p [Hp| ->%list_elem_of_singleton]%elem_of_app; [by apply Hwf|]. apply plan_ok_iff.
  cbn [WorkPlanRunRow.gate_mode WorkPlanRunRow.state WorkPlanRunRow.failure_mode
       WorkPlanRunRow.default_agent WorkPlanRunRow.default_execution_backend].
  split_and!; [solve_readable|by exists WorkPlanRunState.Running|solve_readable| |].
  - intros s [= <-]. solve_readable.
  - intros s. destruct be; cbn; [intros [= <-]; solve_readable|done].
Qed.

(** An update of a plan run that leaves the decoded columns readable. *)
Lemma keeps_update_plan id cond f :
  (forall p, WorkPlanRunRow.id (f p) = WorkPlanRunRow.id p) ->
  (forall p, is_ok (plan_try_from p) = true -> is_ok (plan_try_from (f p)) = true) ->
  keeps wf (update_plan id cond f).
Proof.
  intros Hid Hok. apply keeps_bind; [|auto with perp].
  apply keeps_modify. intros db Hwf. by apply wf_update_plans.
Qed.

Lemma keeps_set_plan_run_resume ts id node_id : keeps wf (set_plan_run_resume_after_node ts id node_id).
Proof.
  apply keeps_bind; [apply keeps_get|]. intros db. apply keeps_bind; [apply keeps_fail_when|].
  intros _. apply keeps_update_plan; [done|]. intros p. by rewrite !plan_ok_iff.
Qed.

Lemma keeps_resume_plan_run ts id : keeps wf (resume_plan_run ts id).
Proof.
  apply keeps_update_plan; [done|]. intros p. rewrite !plan_ok_iff.
  intros (? & _ & ? & ? & ?). split_and!; try done. by exists WorkPlanRunState.Running.
Qed.

Lemma keeps_update_plan_run_progress ts id state c a b err ended :
  keeps wf (update_plan_run_progress ts id state c a b err ended).
Proof.
  apply keeps_update_plan; [done|]. intros p. rewrite !plan_ok_iff.
  intros (? & _ & ? & ? & ?). split_and!; try done. cbn. solve_readable.
Qed.

Lemma keeps_cancel_plan_run ts id : keeps wf (cancel_plan_run ts id).
Proof.
  apply keeps_update_plan; [done|]. intros p. rewrite !plan_ok_iff.
  intros (? & _ & ? & ? & ?). split_and!; try done. by exists WorkPlanRunState.Cancelled.
Qed.

#[export] Hint Resolve keeps_create_standalone_node keeps_update_node_fields keeps_move_node
  keeps_apply_layout keeps_delete_node keeps_create_edge keeps_update_edge keeps_delete_edge
  keeps_replace_node_repos keeps_acquire_locks keeps_release_locks keeps_record_run
  keeps_attach_run_to_plan keeps_finish_runs keeps_create_plan_run keeps_set_plan_run_resume
  keeps_resume_plan_run keeps_update_plan_run_progress keeps_cancel_plan_run : perp.

(** ** All commands at once *)

Inductive command :=
| CreateStandaloneNode (ts : Z) (id : string) (input : NewWorkNode.t) (kind : WorkNodeKind.t)
| UpdateNodeFields (ts : Z) (id : string) (patch : WorkNodeUpdate.t)
| MoveNode (ts : Z) (id : string) (parent_id : option string) (x y : f64)
| DeleteNode (id : string)
| ApplyLayout (ts : Z) (project_id : string) (placements : list NodePlacement.t) (clear_locks : bool)
| CreateEdge (ts : Z) (id : string) (input : NewWorkEdge.t)
| UpdateEdge (ts : Z) (id : string) (patch : WorkEdgeUpdate.t)
| DeleteEdge (id : string)
| ReplaceNodeRepos (node_id : string) (repo_ids : list string)
| AcquireLocks (ts : Z) (node_id : string)
| ReleaseLocks (node_id : string)
| RecordRun (ts : Z) (id : string) (node : WorkNode.t) (agent : AgentKind.t) (run_ref : string)
| AttachRunToPlan (run_ref plan_run_id : string)
| FinishRunsForRef (ts : Z) (run_ref : string) (state : SessionState.t)
| CreatePlanRun (ts : Z) (id project_id : string) (gate_mode : GateMode.t) (max_active_runs : Z)
    (agent : AgentKind.t) (permission : string) (backend : option ExecutionBackend.t)
    (policy : option string) (total : Z) (options : WorkPlanOptions.t)
| SetPlanRunResumeAfterNode (ts : Z) (id : string) (node_id : option string)
| ResumePlanRun (ts : Z) (id : string)
| UpdatePlanRunProgress (ts : Z) (id : string) (state : WorkPlanRunState.t)
    (completed active blocked : Z) (error : option string) (ended : bool)
| CancelPlanRun (ts : Z) (id : string).

Definition exec (c : command) : WorkDb -> WorkDb :=
  match c with
  | CreateStandaloneNode ts id input kind => final (create_standalone_node ts id input kind)
  | UpdateNodeFields ts id patch => final (update_node_fields ts id patch)
  | MoveNode ts id parent_id x y => final (move_node ts id parent_id x y)
  | DeleteNode id => final (delete_node id)
  | ApplyLayout ts pid ps b => final (apply_layout ts pid ps b)
  | CreateEdge ts id input => final (create_edge ts id input)
  | UpdateEdge ts id patch => final (update_edge ts id patch)
  | DeleteEdge id => final (delete_edge id)
  | ReplaceNodeRepos id rs => final (replace_node_repos id rs)
  | AcquireLocks ts id => final (acquire_locks ts id)
  | ReleaseLocks id => final (release_locks id)
  | RecordRun ts id node agent run_ref => final (record_run ts id node agent run_ref)
  | AttachRunToPlan run_ref plan => final (attach_run_to_plan run_ref plan)
  | FinishRunsForRef ts run_ref state => final (finish_runs_for_ref ts run_ref state)
  | CreatePlanRun ts id pid gm mx ag perm be ev total options =>
      final (create_plan_run ts id pid gm mx ag perm be ev total options)
  | SetPlanRunResumeAfterNode ts id node_id => final (set_plan_run_resume_after_node ts id node_id)
  | ResumePlanRun ts id => final (resume_plan_run ts id)
  | UpdatePlanRunProgress ts id st c a b err ended =>
      final (update_plan_run_progress ts id st c a b err ended)
  | CancelPlanRun ts id => final (cancel_plan_run ts id)
  end.

Lemma wf_exec c db : wf db -> wf (exec c db).
Proof.
  intros Hwf. destruct c; cbn [exec];
    match goal with |- wf (final ?m db) => assert (keeps wf m) as Hk by auto with perp; by apply Hk end.
Qed.

(** *** Reading a well-formed database *)

Lemma collect_ok {E A B} (f : A -> result E B) l :
  (forall a, a ∈ l -> is_ok (f a) = true) -> is_ok (collect (f <$> l)) = true.
Proof.
  induction l as [|a l IH]; intros H; [done|]. cbn.
  assert (is_ok (f a) = true) as Ha by (apply H; by left). destruct (f a); [|done]. cbn.
  assert (is_ok (collect (f <$> l)) = true) as Hl by (apply IH; intros; apply H; by right).
  by destruct (collect _).
Qed.

Lemma collect_each {E A B} (f : A -> result E B) l l' a :
  collect (f <$> l) = Ok l' -> a ∈ l -> exists b, f a = Ok b.
Proof.
  revert l'. induction l as [|c l IH]; intros l' H Ha; cbn in H; [by apply elem_of_nil in Ha|].
  destruct (f c) as [b0|] eqn:Hc; cbn in H; [|done].
  destruct (collect (f <$> l)) as [l0|] eqn:Hl; cbn in H; [|done].
  apply elem_of_cons in Ha as [->|Ha]; [eauto|by eapply IH].
Qed.

Lemma collect_elem {E A B} (f : A -> result E B) l l' b :
  collect (f <$> l) = Ok l' -> b ∈ l' <-> exists a, a ∈ l /\ f a = Ok b.
Proof.
  revert l'. induction l as [|a l IH]; intros l' H; cbn in H.
  - simplify_eq. split; [by intros ?%elem_of_nil|]. by intros (a & ?%elem_of_nil & _).
  - destruct (f a) as [b0|] eqn:Ha; cbn in H; [|done].
    destruct (collect (f <$> l)) as [l0|] eqn:Hl; cbn in H; [|done].
    injection H as <-. rewrite elem_of_cons, (IH l0 eq_refl). split.
    + intros [->|(c & ? & ?)]; [exists a; split; [by left|done]|exists c; split; [by right|done]].
    + intros (c & [->|?]%elem_of_cons & Hc); [left; congruence|right; eauto].
Qed.

Lemma collect_column {E A B} (f : A -> result E B) {C} (g : A -> C) (h : B -> C) l l' :
  (forall a b, f a = Ok b -> h b = g a) -> collect (f <$> l) = Ok l' -> h <$> l' = g <$> l.
Proof.
  intros Hfg. revert l'. induction l as [|a l IH]; intros l' H; cbn in H; [by simplify_eq|].
  destruct (f a) as [b0|] eqn:Ha; cbn in H; [|done].
  destruct (collect (f <$> l)) as [l0|] eqn:Hl; cbn in H; [|done].
  injection H as <-. rewrite !fmap_cons, (IH l0 eq_refl), (Hfg a b0); done.
Qed.

Lemma elem_of_sort_by {A} leb (l : list A) a : a ∈ sort_by leb l <-> a ∈ l.
Proof. by rewrite sort_by_perm. Qed.

Lemma fetch_all_read {R A} (query : WorkDb -> list R) (from : R -> result DbError A) db :
  fetch_all query from db = (db, collect (from <$> query db)).
Proof. done. Qed.

Lemma node_try_from_fields r n :
  node_try_from r = Ok n ->
  WorkNode.id n = WorkNodeRow.id r /\ WorkNode.project_id n = WorkNodeRow.project_id r /\
  TaskStatus.parse (WorkNodeRow.status r) = Some (WorkNode.status n).
Proof.
  unfold node_try_from. destruct (decode_opt _); [|done]. destruct (decode (T:=WorkNodeKind.t) _); [|done].
  destruct (decode (T:=TaskStatus.t) _) eqn:Hs; [|done]. destruct (decode (T:=TaskPriority.t) _); [|done].
  intros [= <-]. split_and!; [done..|]. by apply decode_inv in Hs.
Qed.

(** Reading a project: the rows of the project, decoded, whatever their order. *)
Lemma graph_read db pid :
  wf db -> exists g, graph pid db = (db, Ok g) /\
    (forall n, n ∈ g.(WorkGraph.nodes) <->
       exists r, r ∈ db.(nodes) /\ r.(WorkNodeRow.project_id) = pid /\ node_try_from r = Ok n) /\
    (forall e, e ∈ g.(WorkGraph.edges) <->
       exists r, r ∈ db.(edges) /\ r.(WorkEdgeRow.project_id) = pid /\ edge_try_from r = Ok e) /\
    NoDup (WorkNode.id <$> g.(WorkGraph.nodes)).
Proof.
  intros Hwf. unfold graph. rewrite M_bind_unfold. unfold list_nodes. rewrite fetch_all_read.
  destruct (collect (node_try_from <$> _)) as [ns|] eqn:Hns; cycle 1.
  { exfalso. match type of Hns with ?x = _ => assert (is_ok x = true) as Hok end; [|by rewrite Hns in Hok].
    apply collect_ok. intros r [_ Hr]%elem_of_sort_by%list_elem_of_filter. by apply Hwf. }
  rewrite M_bind_unfold. unfold list_edges. rewrite fetch_all_read.
  destruct (collect (edge_try_from <$> _)) as [es|] eqn:Hes; cycle 1.
  { exfalso. match type of Hes with ?x = _ => assert (is_ok x = true) as Hok end; [|by rewrite Hes in Hok].
    apply collect_ok. intros r [_ Hr]%elem_of_sort_by%list_elem_of_filter. by apply Hwf. }
  rewrite M_bind_unfold. unfold list_repo_bindings_for_project. rewrite fetch_all_read.
  destruct (collect (binding_try_from <$> _)) as [bs|] eqn:Hbs; cycle 1.
  { exfalso. match type of Hbs with ?x = _ => assert (is_ok x = true) as Hok end; [|by rewrite Hbs in Hok].
    apply collect_ok. intros r Hr. unfold join_repos in Hr.
    apply elem_of_sort_by, list_elem_of_bind in Hr as (w & Hr & [_ Hw]%list_elem_of_filter).
    apply list_elem_of_bind in Hr as (x & ->%list_elem_of_singleton & _).
    pose proof (wf_binding_rows _ Hwf w Hw) as Hok. unfold binding_try_from, ExecutionBackend_of in *. cbn.
    by destruct (decode _). }
  eexists. split; [done|]. cbn. split_and!.
  - intros n. rewrite (collect_elem _ _ _ _ Hns). setoid_rewrite elem_of_sort_by.
    setoid_rewrite list_elem_of_filter. naive_solver.
  - intros e. rewrite (collect_elem _ _ _ _ Hes). setoid_rewrite elem_of_sort_by.
    setoid_rewrite list_elem_of_filter. naive_solver.
  - rewrite (collect_column _ WorkNodeRow.id _ _ _ (fun a b H => proj1 (node_try_from_fields a b H)) Hns).
    rewrite (sort_by_perm node_order). apply NoDup_filter_column, Hwf.
Qed.
