(* ===== verification/Layout.v ===== *)
(** * Layout of the work graph (crates/am-core/src/layout.rs)

    A layered layout: the children of a group are contracted into it, the
    remaining nodes get the layer of their longest chain of gating links, the
    layers are reordered by barycenters, and coordinates follow; pinned nodes
    stay and the others are pushed below what they hit.  Coordinates are doubles.
    Hash maps iterate in any order [iter]. *)
From Stdlib Require Import SpecFloat Ascii String.
From S2P Require Import Prelude RustStr Enums Records Doubles Gating WorkGraphDb.
#[local] Open Scope string_scope.
#[local] Open Scope Z_scope.

Definition X0 : f64 := f64_of_int 80.
Definition Y0 : f64 := f64_of_int 80.
Definition COLUMN_GUTTER : f64 := f64_of_int 110.
Definition VGAP : f64 := f64_of_int 36.
Definition LEAF_W : f64 := f64_of_int 230.
Definition LEAF_H : f64 := f64_of_int 96.
Definition GROUP_HEADER : f64 := f64_of_int 42.
Definition GROUP_PAD : f64 := f64_of_int 14.
Definition CHILD_W : f64 := f64_of_int 218.
Definition CHILD_H : f64 := f64_of_int 96.
Definition CHILD_GAP : f64 := f64_of_int 10.
Definition TWO_COLUMN_THRESHOLD : nat := 6.
(** 0.25 *)
Definition SOFT_EDGE_WEIGHT : f64 := S754_finite false 4503599627370496 (-54).
Definition ORDERING_SWEEPS : nat := 4.
Definition f64_one : f64 := f64_of_int 1.
Definition f64_div : f64 -> f64 -> f64 := SFdiv 53 1024.
Definition f64_of_nat (n : nat) : f64 := f64_of_int (Z.of_nat n).

(** ** Comparators *)

(** [a.cmp(&b).then(rest)]. *)
Definition then_ (c rest : comparison) : comparison := match c with Eq => rest | _ => c end.
Definition not_after {A} (cmp : A -> A -> comparison) (a b : A) : bool := if cmp a b is Gt then false else true.

Definition visual_cmp (a b : WorkNode.t) : comparison :=
  then_ (Z.compare a.(WorkNode.sort_order) b.(WorkNode.sort_order))
    (then_ (Z.compare a.(WorkNode.created_at) b.(WorkNode.created_at))
       (String.compare a.(WorkNode.id) b.(WorkNode.id))).

Definition kind_order (kind : WorkNodeKind.t) : Z :=
  match kind with
  | WorkNodeKind.Group => 0
  | WorkNodeKind.Milestone => 1
  | WorkNodeKind.Task => 2
  | WorkNodeKind.Session => 3
  end.

Definition initial_cmp (a b : WorkNode.t) : comparison :=
  then_ (Z.compare (kind_order a.(WorkNode.kind)) (kind_order b.(WorkNode.kind))) (visual_cmp a b).

(** [partial_cmp(..).unwrap_or(Equal)]. *)
Definition partial_cmp (x y : f64) : comparison := default Eq (SFcompare x y).

(** ** Geometry *)

Definition group_size (count : nat) : f64 * f64 :=
  let count := Nat.max count 1 in
  let cols := if (TWO_COLUMN_THRESHOLD <? count)%nat then 2%nat else 1%nat in
  let rows := ((count + cols - 1) / cols)%nat in
  let width := f64_add (f64_add (f64_mul (f64_of_int 2) GROUP_PAD) (f64_mul (f64_of_nat cols) CHILD_W))
                 (f64_mul (f64_of_nat (cols - 1)) CHILD_GAP) in
  let height := f64_add (f64_add (f64_add GROUP_HEADER (f64_mul (f64_of_nat rows) CHILD_H))
                  (f64_mul (f64_of_nat (rows - 1)) CHILD_GAP)) GROUP_PAD in
  (width, height).

Record rect := mkRect { rx : f64; ry : f64; rw : f64; rh : f64 }.

Definition rects_overlap (a b : rect) : bool :=
  SFltb a.(rx) (f64_add b.(rx) b.(rw)) && SFltb b.(rx) (f64_add a.(rx) a.(rw)) &&
  SFltb a.(ry) (f64_add b.(ry) b.(rh)) && SFltb b.(ry) (f64_add a.(ry) a.(rh)).

Definition rect_of (p : NodePlacement.t) : rect :=
  mkRect p.(NodePlacement.x) p.(NodePlacement.y) p.(NodePlacement.width) p.(NodePlacement.height).
Definition moved_to (x y : f64) (p : NodePlacement.t) : NodePlacement.t :=
  NodePlacement.mk p.(NodePlacement.node_id) x y p.(NodePlacement.width) p.(NodePlacement.height).

(** The [while let] loop: push the rectangle below what it hits.  [guard] starts
    at 0 and the loop is left once it exceeds 1000: [pushes] counts down. *)
Fixpoint push_down (pushes : nat) (occupied : list rect) (candidate : rect) : rect :=
  match find (fun rect => rects_overlap rect candidate) occupied with
  | None => candidate
  | Some hit =>
      let candidate := mkRect candidate.(rx) (f64_add (f64_add hit.(ry) hit.(rh)) VGAP) candidate.(rw) candidate.(rh) in
      match pushes with
      | O => candidate
      | S pushes => push_down pushes occupied candidate
      end
  end.

#[global] Arguments push_down : simpl never.

Section Layout.
Context (iter : gset string -> list string).

(** ** Groups and super-nodes *)

(** [nodes.iter().map(|n| (n.id, n)).collect()]: the last node of an id wins. *)
Definition index_nodes (nodes : list WorkNode.t) : gmap string WorkNode.t :=
  foldl (fun m n => <[n.(WorkNode.id) := n]> m) ∅ nodes.

Definition is_group_node (n : WorkNode.t) : bool := bool_decide (n.(WorkNode.kind) = WorkNodeKind.Group).

Definition group_id_set (nodes : list WorkNode.t) : gset string :=
  list_to_set (WorkNode.id <$> filter (fun n => is_group_node n = true) nodes).

(** The group that holds a node. *)
Definition group_of (group_ids : gset string) (n : WorkNode.t) : option string :=
  match n.(WorkNode.parent_id) with
  | Some parent => if bool_decide (parent ∈ group_ids) && negb (is_group_node n) then Some parent else None
  | None => None
  end.

Definition children_by_group (group_ids : gset string) (nodes : list WorkNode.t) : gmap string (list WorkNode.t) :=
  sort_by (not_after visual_cmp) <$>
    foldl (fun (m : gmap string (list WorkNode.t)) n => match group_of group_ids n with
                      | Some g => <[g := (default [] (m !! g) ++ [n])%list]> m
                      | None => m
                      end) ∅ nodes.

Definition super_of (by_id : gmap string WorkNode.t) (group_ids : gset string) (id : string) : option string :=
  node ← by_id !! id;
  Some (default node.(WorkNode.id) (group_of group_ids node)).

Definition super_nodes (by_id : gmap string WorkNode.t) (group_ids : gset string) (nodes : list WorkNode.t) : list WorkNode.t :=
  filter (fun n => super_of by_id group_ids n.(WorkNode.id) = Some n.(WorkNode.id)) nodes.

(** [(from, to, weight, gating)]. *)
Definition directed (edge : WorkEdge.t) : string * string * f64 * bool :=
  match edge.(WorkEdge.kind) with
  | WorkEdgeKind.DependsOn => (edge.(WorkEdge.target_id), edge.(WorkEdge.source_id), f64_one, true)
  | WorkEdgeKind.Blocks | WorkEdgeKind.Handoff => (edge.(WorkEdge.source_id), edge.(WorkEdge.target_id), f64_one, true)
  | WorkEdgeKind.SharesContext | WorkEdgeKind.RelatesTo =>
      (edge.(WorkEdge.source_id), edge.(WorkEdge.target_id), SOFT_EDGE_WEIGHT, false)
  end.

Definition contract (by_id : gmap string WorkNode.t) (group_ids : gset string) (edge : WorkEdge.t) :
  option (string * string * f64 * bool) :=
  let '(from, to, weight, gating) := directed edge in
  match super_of by_id group_ids from, super_of by_id group_ids to with
  | Some from, Some to => if String.eqb from to then None else Some (from, to, weight, gating)
  | _, _ => None
  end.

Definition rank_edges (contracted : list (string * string * f64 * bool)) : list (string * string) :=
  omap (fun e : string * string * f64 * bool => let '(from, to, _, gating) := e in if gating then Some (from, to) else None) contracted.
Definition order_edges (contracted : list (string * string * f64 * bool)) : list (string * string * f64) :=
  (fun e : string * string * f64 * bool => let '(from, to, weight, _) := e in (from, to, weight)) <$> contracted.

(** ** Ranks *)
Record ranking := mkRanking { layer : gmap string Z; indegree : gmap string Z; queue : list string }.

Definition outgoing_of (edges : list (string * string)) (id : string) : list string :=
  omap (fun e : string * string => if decide (e.1 = id) then Some e.2 else None) edges.

Definition count_in (edges : list (string * string)) (d : gmap string Z) : gmap string Z :=
  foldl (fun d e => <[e.2 := default 0 (d !! e.2) + 1]> d) d edges.

(** [for next in outgoing.get(id)]. *)
Definition relax_rank (base : Z) (r : ranking) (next : string) : ranking :=
  let layer := <[next := Z.max (default 0 (r.(layer) !! next)) (base + 1)]> r.(layer) in
  let count := u_saturating_sub (default 0 (r.(indegree) !! next)) 1 in
  mkRanking layer (<[next := count]> r.(indegree)) (if decide (count = 0) then (r.(queue) ++ [next])%list else r.(queue)).

(** The [while let Some(id) = queue.pop_front()] loop. *)
Fixpoint rank_loop (fuel : nat) (edges : list (string * string)) (r : ranking) : option (gmap string Z) :=
  match r.(queue) with
  | [] => Some r.(layer)
  | id :: rest =>
      match fuel with
      | O => None
      | S fuel =>
          let base := default 0 (r.(layer) !! id) in
          rank_loop fuel edges
            (foldl (relax_rank base) (mkRanking r.(layer) r.(indegree) rest) (outgoing_of edges id))
      end
  end.

Definition zeros (supers : list WorkNode.t) : gmap string Z :=
  set_to_map (fun id => (id, 0)) (list_to_set (WorkNode.id <$> supers) : gset string).

Definition start_ranking (supers : list WorkNode.t) (edges : list (string * string)) : ranking :=
  let indegree := count_in edges (zeros supers) in
  mkRanking (zeros supers) indegree (filter (fun id => indegree !! id = Some 0) (iter (dom indegree))).

(** Each counted node is popped at most once. *)
Definition ranks (supers : list WorkNode.t) (edges : list (string * string)) : option (gmap string Z) :=
  let r := start_ranking supers edges in rank_loop (size (dom r.(indegree))) edges r.

(** ** Order within the layers *)

Definition max_layer (layer : gmap string Z) : Z := foldr Z.max 0 ((map_to_list layer).*2).

Definition initial_layers (supers : list WorkNode.t) (layer : gmap string Z) : list (list string) :=
  foldl (fun layers n => alter (fun l => (l ++ [n.(WorkNode.id)])%list)
                           (Z.to_nat (default 0 (layer !! n.(WorkNode.id)))) layers)
    (replicate (Z.to_nat (max_layer layer + 1)) [])
    (sort_by (not_after initial_cmp) supers).

Definition neighbors (edges : list (string * string * f64)) (id : string) : list (string * f64) :=
  mjoin ((fun e : string * string * f64 => let '(from, to, weight) := e in
                   ((if decide (from = id) then [(to, weight)] else []) ++
                    (if decide (to = id) then [(from, weight)] else []))%list) <$> edges).

(** [enumerate().map(|(pos, id)| (id, pos)).collect()]. *)
Definition positions (layer : list string) : gmap string f64 :=
  foldl (fun m p => <[p.2 := f64_of_nat p.1]> m) ∅ (imap pair layer).

Definition barycenter (reference : gmap string f64) (hold : f64) (ns : list (string * f64)) : f64 :=
  let '(acc, weight_sum) :=
    foldl (fun '(acc, weight_sum) '(other, weight) =>
             match reference !! other with
             | Some pos => (f64_add acc (f64_mul pos weight), f64_add weight_sum weight)
             | None => (acc, weight_sum)
             end) (f64_zero, f64_zero) ns in
  if SFltb f64_zero weight_sum then f64_div acc weight_sum else hold.

Definition scored_cmp (a b : f64 * f64 * string) : comparison :=
  then_ (partial_cmp a.1.1 b.1.1) (partial_cmp a.1.2 b.1.2).

Definition reorder_layer (edges : list (string * string * f64)) (ref_layer this : list string) : list string :=
  let reference := positions ref_layer in
  let current := positions this in
  let scored := (fun id => let hold := default f64_zero (current !! id) in
                           (barycenter reference hold (neighbors edges id), hold, id)) <$> this in
  snd <$> sort_by (not_after scored_cmp) scored.

Definition sweep_indices (n : nat) (forward : bool) : list nat :=
  if forward then seq 1 (n - 1) else reverse (seq 0 (n - 1)).

Definition sweep_step (edges : list (string * string * f64)) (forward : bool) (layers : list (list string)) (i : nat) :
  list (list string) :=
  let ref_layer := default [] (layers !! (if forward then i - 1 else i + 1)%nat) in
  alter (reorder_layer edges ref_layer) i layers.

Definition sweep (edges : list (string * string * f64)) (layers : list (list string)) (k : nat) : list (list string) :=
  let forward := Nat.even k in
  foldl (sweep_step edges forward) layers (sweep_indices (length layers) forward).

Definition order_layers (edges : list (string * string * f64)) (layers : list (list string)) : list (list string) :=
  foldl (sweep edges) layers (seq 0 ORDERING_SWEEPS).

(** ** Coordinates *)

Definition size_of (group_ids : gset string) (children : gmap string (list WorkNode.t)) (id : string) : f64 * f64 :=
  if bool_decide (id ∈ group_ids) then group_size (from_option length 0%nat (children !! id)) else (LEAF_W, LEAF_H).

Definition place_column (size : string -> f64 * f64) (x : f64) (column : list string)
  (placements : gmap string NodePlacement.t) : gmap string NodePlacement.t :=
  (foldl (fun '(placements, y) id =>
            let '(w, h) := size id in
            (<[id := NodePlacement.mk id x y w h]> placements, f64_add y (f64_add h VGAP))) (placements, Y0) column).1.

Definition place_layers (size : string -> f64 * f64) (layers : list (list string)) : gmap string NodePlacement.t :=
  (foldl (fun '(placements, x) column =>
            let column_width := foldl (fun m id => f64_max m (size id).1) LEAF_W column in
            (place_column size x column placements, f64_add x (f64_add column_width COLUMN_GUTTER)))
     (∅, X0) layers).1.

(** Pinned super-nodes keep their position. *)
Definition pin (state : gmap string NodePlacement.t * list rect) (node : WorkNode.t) :
  gmap string NodePlacement.t * list rect :=
  let '(placements, occupied) := state in
  if node.(WorkNode.position_locked) then
    match placements !! node.(WorkNode.id) with
    | Some p =>
        let p := moved_to node.(WorkNode.position_x) node.(WorkNode.position_y) p in
        (<[node.(WorkNode.id) := p]> placements, (occupied ++ [rect_of p])%list)
    | None => state
    end
  else state.

(** The others are pushed below what they hit. *)
Definition settle (state : gmap string NodePlacement.t * list rect) (id : string) :
  gmap string NodePlacement.t * list rect :=
  let '(placements, occupied) := state in
  match placements !! id with
  | Some p =>
      let candidate := push_down 1000 occupied (rect_of p) in
      (<[id := moved_to candidate.(rx) candidate.(ry) p]> placements, (occupied ++ [candidate])%list)
  | None => state
  end.

Definition preserve_manual (by_id : gmap string WorkNode.t) (supers : list WorkNode.t) (layers : list (list string))
  (placements : gmap string NodePlacement.t) : gmap string NodePlacement.t :=
  let order := filter (fun id => from_option (fun n => negb n.(WorkNode.position_locked)) false (by_id !! id) = true)
                 (mjoin layers) in
  (foldl settle (foldl pin (placements, []) supers) order).1.

(** ** Children, inside their group *)
Definition place_children (group : NodePlacement.t) (kids : list WorkNode.t) : list NodePlacement.t :=
  let cols := if (TWO_COLUMN_THRESHOLD <? length kids)%nat then 2%nat else 1%nat in
  imap (fun index child =>
    let col := f64_of_nat (index mod cols) in
    let row := f64_of_nat (index / cols) in
    NodePlacement.mk (child : WorkNode.t).(WorkNode.id)
      (f64_add (f64_add group.(NodePlacement.x) GROUP_PAD) (f64_mul col (f64_add CHILD_W CHILD_GAP)))
      (f64_add (f64_add group.(NodePlacement.y) GROUP_HEADER) (f64_mul row (f64_add CHILD_H CHILD_GAP)))
      CHILD_W CHILD_H) kids.

Definition placement_leb (a b : NodePlacement.t) : bool := String.leb a.(NodePlacement.node_id) b.(NodePlacement.node_id).

Definition place_all (children : gmap string (list WorkNode.t)) (placements : gmap string NodePlacement.t) :
  list NodePlacement.t :=
  let inside := mjoin ((fun g => match placements !! g with
                                 | Some group => place_children group (default [] (children !! g))
                                 | None => []
                                 end) <$> iter (dom children)) in
  sort_by placement_leb (inside ++ omap (fun id => placements !! id) (iter (dom placements)))%list.

(** [None] when the ranking loop would not end. *)
Definition compute_layout (nodes : list WorkNode.t) (edges : list WorkEdge.t) (mode : LayoutMode.t) :
  option (list NodePlacement.t) :=
  match nodes with
  | [] => Some []
  | _ =>
      let by_id := index_nodes nodes in
      let group_ids := group_id_set nodes in
      let children := children_by_group group_ids nodes in
      let supers := super_nodes by_id group_ids nodes in
      let contracted := omap (contract by_id group_ids) edges in
      layer ← ranks supers (rank_edges contracted);
      let layers := order_layers (order_edges contracted) (initial_layers supers layer) in
      let placements := place_layers (size_of group_ids children) layers in
      let placements :=
        if bool_decide (mode = LayoutMode.PreserveManual) then preserve_manual by_id supers layers placements
        else placements in
      Some (place_all children placements)
  end.
End Layout.
