(* ===== verification/LayoutProps.v ===== *)
(** * Layout of the work graph: laws

    The ranking ends and gives every node the length of its longest chain; the
    sweeps only permute; every node is placed once; pinned nodes stay. *)
From Stdlib Require Import SpecFloat Ascii String.
From S2P Require Import Prelude RustStr Enums Records Doubles Gating WorkGraphDb Layout.
#[local] Open Scope string_scope.
#[local] Open Scope Z_scope.

Lemma length_filter_zero {A} (P : A -> Prop) `{!forall x, Decision (P x)} l :
  length (filter P l) = 0%nat <-> forall x, x ∈ l -> ~ P x.
Proof.
  split.
  - intros Hl x Hx HP. apply length_zero_iff_nil in Hl. assert (x ∈ filter P l) as Hin by by apply list_elem_of_filter.
    rewrite Hl in Hin. by apply not_elem_of_nil in Hin.
  - intros Hl. destruct (filter P l) as [|x f] eqn:Hf; [done|]. assert (x ∈ filter P l) as Hin by (rewrite Hf; by left).
    apply list_elem_of_filter in Hin as [HP Hx]. by destruct (Hl x Hx).
Qed.

(** ** Ranking *)
Section Ranking.
Context (edges : list (string * string)) (D : gset string).

Definition occurrences (y : string) (l : list string) : nat := length (filter (fun x => x = y) l).

(** Links into [y] whose source is still to be popped. *)
Definition pending (P : gset string) (y : string) : nat := length (filter (fun e : string * string => (e.1 ∉ P) /\ e.2 = y) edges).

Definition at_ (m : gmap string Z) (y : string) : Z := default 0 (m !! y).

Lemma elem_of_outgoing id y : y ∈ outgoing_of edges id <-> (id, y) ∈ edges.
Proof.
  unfold outgoing_of. rewrite list_elem_of_omap. split.
  - intros ([a b] & He & Hd). cbn in Hd. case_decide; [|done]. by simplify_eq.
  - intros He. exists (id, y). split; [done|]. cbn. by rewrite decide_True.
Qed.

Lemma pending_pop P id y : id ∉ P -> pending P y = (pending ({[id]} ∪ P) y + occurrences y (outgoing_of edges id))%nat.
Proof.
  intros Hid. unfold pending, occurrences, outgoing_of. induction edges as [|[a b] l IH]; [done|].
  rewrite !filter_cons. cbn [omap list_omap fst snd].
  destruct (decide (a = id)) as [->|Hne].
  - rewrite (decide_False (P:=(id ∉ {[id]} ∪ P) /\ b = y)) by set_solver. rewrite filter_cons.
    destruct (decide (b = y)).
    + rewrite decide_True by done. cbn. rewrite IH. lia.
    + rewrite decide_False by (intros []; done). apply IH.
  - destruct (decide ((a ∉ P) /\ b = y)) as [[Ha Hb]|Hn].
    + rewrite decide_True by set_solver. cbn. by rewrite IH.
    + rewrite decide_False by set_solver. apply IH.
Qed.

Lemma pending_zero P y : pending P y = 0%nat <-> forall a, (a, y) ∈ edges -> a ∈ P.
Proof.
  unfold pending. rewrite length_filter_zero. split.
  - intros Hf a Ha. destruct (decide (a ∈ P)); [done|]. by destruct (Hf (a, y) Ha).
  - intros Hp [a b] Hab [Ha Hb]. cbn in *. subst. by apply Ha, Hp.
Qed.

Lemma occurrences_zero y l : occurrences y l = 0%nat <-> y ∉ l.
Proof.
  unfold occurrences. rewrite length_filter_zero. split; [intros Hf Hy; by apply (Hf y Hy)|]. by intros Hy x Hx ->.
Qed.

Context (targets_counted : forall a b, (a, b) ∈ edges -> b ∈ D).

(** Within one pop: [todo] is still to be relaxed. *)
Record relaxing (P : gset string) (todo : list string) (r : ranking) : Prop := {
  rel_count : forall y, y ∈ D -> r.(indegree) !! y = Some (Z.of_nat (pending P y + occurrences y todo));
  rel_dom : dom r.(indegree) = D;
  rel_nodup : NoDup r.(queue);
  rel_queue : forall y, y ∈ r.(queue) -> y ∈ D /\ y ∉ P;
  rel_zero : forall y, y ∈ D -> (pending P y + occurrences y todo = 0)%nat <-> y ∈ P \/ y ∈ r.(queue)
}.

Lemma relax_step base P next todo r :
  next ∈ D -> relaxing P (next :: todo) r -> relaxing P todo (relax_rank base r next).
Proof.
  intros Hnext Hr. set (q := pending P). assert (forall y, occurrences y (next :: todo) =
    ((if decide (next = y) then 1 else 0) + occurrences y todo)%nat) as Hocc.
  { intros y. unfold occurrences. rewrite filter_cons. by case_decide. }
  assert (Hold : (next ∉ P) /\ (next ∉ queue r)).
  { pose proof (rel_zero _ _ _ Hr next Hnext) as Hz. rewrite Hocc, decide_True in Hz by done.
    split; intros Hin; [assert (next ∈ P \/ next ∈ queue r) as Hor by tauto|assert (next ∈ P \/ next ∈ queue r) as Hor by tauto];
      apply Hz in Hor; lia. }
  destruct Hold as [HP Hq]. unfold relax_rank. rewrite (rel_count _ _ _ Hr next Hnext), Hocc, decide_True by done. cbn [default].
  replace (u_saturating_sub _ 1) with (Z.of_nat (pending P next + occurrences next todo)) by (unfold u_saturating_sub, id; lia).
  split; cbn.
  - intros y Hy. rewrite lookup_insert. destruct (decide (next = y)) as [->|]; [done|].
    rewrite (rel_count _ _ _ Hr y Hy), Hocc, decide_False by done. done.
  - rewrite dom_insert_L, (rel_dom _ _ _ Hr). set_solver.
  - case_decide; [|apply Hr]. apply NoDup_app. split; [apply Hr|]. split; [|apply NoDup_singleton]. set_solver.
  - intros y. case_decide; [rewrite elem_of_app, list_elem_of_singleton|]; [intros [Hy| ->]|]; [by apply (rel_queue _ _ _ Hr)|done|].
    apply (rel_queue _ _ _ Hr).
  - intros y Hy. pose proof (rel_zero _ _ _ Hr y Hy) as Hz. rewrite Hocc in Hz.
    destruct (decide (next = y)) as [->|Hne].
    + case_decide; [rewrite elem_of_app, list_elem_of_singleton|]; split; try tauto; lia.
    + cbn in Hz. rewrite Hz. case_decide; [rewrite elem_of_app, list_elem_of_singleton|]; naive_solver.
Qed.

Lemma relax_all base P todo r :
  (forall y, y ∈ todo -> y ∈ D) -> relaxing P todo r -> relaxing P [] (foldl (relax_rank base) r todo).
Proof.
  revert r. induction todo as [|next todo IH]; intros r Hin Hr; cbn; [done|].
  apply IH; [intros; apply Hin; by right|]. apply relax_step; [apply Hin; by left|done].
Qed.

Lemma relax_layers base todo r y :
  at_ (foldl (relax_rank base) r todo).(layer) y =
  if decide (y ∈ todo) then Z.max (at_ r.(layer) y) (base + 1) else at_ r.(layer) y.
Proof.
  revert r. induction todo as [|next todo IH]; intros r; cbn [foldl]; [by rewrite decide_False by set_solver|].
  rewrite IH. unfold at_. cbn [relax_rank layer]. rewrite lookup_insert. destruct (decide (next = y)) as [->|Hne].
  - cbn [default]. rewrite (decide_True (P:=y ∈ y :: todo)) by set_solver. case_decide; unfold id; lia.
  - repeat case_decide; try done; set_solver.
Qed.

(** Between two pops: [P] is popped. *)
Record ranked (P : gset string) (r : ranking) : Prop := {
  rk_relaxed : relaxing P [] r;
  rk_popped : P ⊆ D;
  rk_forward : forall a b, (a, b) ∈ edges -> a ∈ P -> at_ r.(layer) a + 1 <= at_ r.(layer) b;
  rk_chain : forall y, at_ r.(layer) y = 0 \/ exists a, a ∈ P /\ (a, y) ∈ edges /\ at_ r.(layer) y = at_ r.(layer) a + 1
}.

Lemma rank_pop P r id rest :
  r.(queue) = id :: rest -> ranked P r ->
  ranked ({[id]} ∪ P)
    (foldl (relax_rank (at_ r.(layer) id)) (mkRanking r.(layer) r.(indegree) rest) (outgoing_of edges id)).
Proof.
  intros Hq Hr. pose proof (rk_relaxed _ _ Hr) as Hx.
  destruct (rel_queue _ _ _ Hx id) as [HidD HidP]; [rewrite Hq; by left|].
  assert (Hdone : forall y, y ∈ {[id]} ∪ P -> forall a, (a, y) ∈ edges -> a ∈ P).
  { intros y Hy. apply pending_zero. assert (y ∈ P \/ y ∈ queue r) as Hin by (rewrite Hq; set_solver).
    apply (rel_zero _ _ _ Hx) in Hin; [unfold occurrences in Hin; cbn in Hin; lia|].
    apply elem_of_union in Hy as [->%elem_of_singleton|Hy]; [done|by apply (rk_popped _ _ Hr)]. }
  assert (Hout : forall y, y ∈ {[id]} ∪ P -> y ∉ outgoing_of edges id).
  { intros y Hy Hin%elem_of_outgoing. by apply HidP, (Hdone y Hy). }
  split.
  - apply relax_all; [intros y Hy%elem_of_outgoing; by eapply targets_counted|].
    pose proof (rel_nodup _ _ _ Hx) as Hnd. rewrite Hq in Hnd. apply NoDup_cons in Hnd as [Hnew Hnd]. split; cbn.
    + intros y Hy. rewrite (rel_count _ _ _ Hx y Hy). cbn. by rewrite (pending_pop P id y HidP), Nat.add_0_r.
    + apply Hx.
    + done.
    + intros y Hy. destruct (rel_queue _ _ _ Hx y) as [HyD HyP]; [rewrite Hq; by right|]. split; [done|].
      intros [->%elem_of_singleton|]%elem_of_union; done.
    + intros y Hy. rewrite <- (pending_pop P id y HidP). pose proof (rel_zero _ _ _ Hx y Hy) as Hz. cbn in Hz.
      rewrite Nat.add_0_r, Hq, elem_of_cons in Hz. rewrite Hz, elem_of_union, elem_of_singleton. tauto.
  - pose proof (rk_popped _ _ Hr). set_solver.
  - intros a b Hab Ha. rewrite !relax_layers. cbn. rewrite (decide_False (P:=a ∈ _)) by by apply Hout.
    apply elem_of_union in Ha as [->%elem_of_singleton|Ha].
    + rewrite decide_True by by apply elem_of_outgoing. lia.
    + pose proof (rk_forward _ _ Hr a b Hab Ha). case_decide; lia.
  - intros y. rewrite relax_layers. cbn. destruct (decide (y ∈ outgoing_of edges id)) as [Hy|Hy].
    + destruct (decide (at_ (layer r) y <= at_ (layer r) id + 1)) as [Hle|Hgt].
      * right. exists id. rewrite relax_layers, decide_False by (apply Hout; set_solver). split; [set_solver|].
        split; [by apply elem_of_outgoing|]. cbn. lia.
      * destruct (rk_chain _ _ Hr y) as [H0|(a & Ha & Hay & Heq)]; [left; lia|right]. exists a.
        rewrite relax_layers, decide_False by (apply Hout; set_solver). split; [set_solver|]. split; [done|]. cbn. lia.
    + destruct (rk_chain _ _ Hr y) as [H0|(a & Ha & Hay & Heq)]; [by left|right]. exists a.
      rewrite relax_layers, decide_False by (apply Hout; set_solver). split; [set_solver|]. done.
Qed.

(** With a unit of fuel for every node still to be popped, the loop ends; then
    what is not popped waits for something that is not popped. *)
Lemma rank_loop_spec fuel P r :
  (size (D ∖ P) <= fuel)%nat -> ranked P r ->
  exists L P', rank_loop fuel edges r = Some L /\ P ⊆ P' /\ P' ⊆ D /\
    (forall a b, (a, b) ∈ edges -> a ∈ P' -> at_ L a + 1 <= at_ L b) /\
    (forall y, at_ L y = 0 \/ exists a, a ∈ P' /\ (a, y) ∈ edges /\ at_ L y = at_ L a + 1) /\
    (forall y, y ∈ D -> (forall a, (a, y) ∈ edges -> a ∈ P') -> y ∈ P').
Proof.
  revert P r. induction fuel as [|fuel IH]; intros P r Hf Hr; cbn [rank_loop]; destruct (queue r) as [|id rest] eqn:Hq.
  2: { destruct (rel_queue _ _ _ (rk_relaxed _ _ Hr) id) as [HD HP]; [rewrite Hq; by left|].
       assert (size (D ∖ P) = 0%nat) as Hz by lia. apply size_empty_inv in Hz. set_solver. }
  3: { destruct (rel_queue _ _ _ (rk_relaxed _ _ Hr) id) as [HD HP]; [rewrite Hq; by left|].
       assert (Hsz : (size (D ∖ ({[id]} ∪ P)) <= fuel)%nat).
       { assert (size (D ∖ ({[id]} ∪ P)) < size (D ∖ P))%nat; [|lia]. apply subset_size. set_solver. }
       destruct (IH _ _ Hsz (rank_pop P r id rest Hq Hr)) as (L & P' & HL & HP' & Hrest).
       exists L, P'. split; [exact HL|]. split; [set_solver|exact Hrest]. }
  all: exists (layer r), P; split_and!; [done..|apply Hr|apply Hr|apply Hr|].
  all: intros y Hy Ha; pose proof (rel_zero _ _ _ (rk_relaxed _ _ Hr) y Hy) as Hz; rewrite Hq in Hz; cbn in Hz.
  all: apply pending_zero in Ha; destruct (proj1 Hz ltac:(lia)) as [?|?%not_elem_of_nil]; done.
Qed.
End Ranking.

(** *** The counts at the start *)
Lemma count_in_at edges d y :
  at_ (count_in edges d) y = at_ d y + Z.of_nat (length (filter (fun e : string * string => e.2 = y) edges)).
Proof.
  unfold count_in. revert d. induction edges as [|[a b] l IH]; intros d; cbn [foldl]; [cbn; lia|].
  rewrite IH, filter_cons. unfold at_. cbn [fst snd]. rewrite lookup_insert.
  destruct (decide (b = y)) as [->|]; cbn; unfold id; lia.
Qed.

Lemma count_in_dom edges d : dom (count_in edges d) = dom d ∪ list_to_set edges.*2.
Proof.
  unfold count_in. revert d. induction edges as [|[a b] l IH]; intros d; cbn [foldl]; [set_solver|].
  rewrite IH, dom_insert_L. cbn. set_solver.
Qed.

Lemma zeros_lookup supers y z : zeros supers !! y = Some z <-> y ∈ (list_to_set (WorkNode.id <$> supers) : gset string) /\ z = 0.
Proof.
  unfold zeros. rewrite lookup_set_to_map by by intros ? ? ? ? [= ->]. split.
  - intros (x & Hx & [= -> <-]). done.
  - intros [Hy ->]. by exists y.
Qed.

Lemma zeros_at supers y : at_ (zeros supers) y = 0.
Proof. unfold at_. destruct (zeros supers !! y) as [z|] eqn:Hz; [|done]. by apply zeros_lookup in Hz as [_ ->]. Qed.

Lemma zeros_dom supers : dom (zeros supers) = list_to_set (WorkNode.id <$> supers).
Proof.
  apply set_eq. intros y. rewrite elem_of_dom. split.
  - by intros [z [Hy _]%zeros_lookup].
  - intros Hy. exists 0. by apply zeros_lookup.
Qed.

(** [n] gating links in a row end in [y]. *)
Inductive chain (edges : list (string * string)) : nat -> string -> Prop :=
| chain_start y : chain edges 0 y
| chain_link n a b : (a, b) ∈ edges -> chain edges n a -> chain edges (S n) b.

Section Ranks.
Context (iter : gset string -> list string) (Hiter : enumerates iter).
Context (supers : list WorkNode.t) (edges : list (string * string)).
Let D : gset string := list_to_set (WorkNode.id <$> supers) ∪ list_to_set edges.*2.

Lemma start_dom : dom (start_ranking iter supers edges).(indegree) = D.
Proof. cbn. by rewrite count_in_dom, zeros_dom. Qed.

Lemma start_ranked : ranked edges D ∅ (start_ranking iter supers edges).
Proof.
  assert (Hcount : forall y, y ∈ D -> (start_ranking iter supers edges).(indegree) !! y =
    Some (Z.of_nat (pending edges ∅ y + occurrences y []))).
  { intros y Hy. rewrite <- start_dom in Hy. apply elem_of_dom in Hy as [z Hz]. rewrite Hz. f_equal.
    assert (at_ (start_ranking iter supers edges).(indegree) y = z) as <- by (unfold at_; by rewrite Hz).
    cbn. rewrite count_in_at, zeros_at, Nat.add_0_r. cbn. unfold pending. rewrite Z.add_0_l. do 2 f_equal. apply list_filter_iff. set_solver. }
  split.
  - destruct (Hiter (dom (start_ranking iter supers edges).(indegree))) as [Hnd Hin]. split; [done|apply start_dom|..].
    + cbn. by apply NoDup_filter.
    + intros y Hy. split; [|set_solver]. cbn in Hy. apply list_elem_of_filter in Hy as [_ Hy]. rewrite <- start_dom. by apply Hin.
    + intros y Hy. split.
      * intros Hz. right. cbn. apply list_elem_of_filter. split; [|apply Hin; by rewrite start_dom].
        pose proof (Hcount y Hy) as Hc. rewrite Hz in Hc. exact Hc.
      * intros [?%not_elem_of_empty|Hq]; [done|]. cbn in Hq. apply list_elem_of_filter in Hq as [Hq _].
        pose proof (Hcount y Hy) as Hc. cbn in Hc. rewrite Hq in Hc. injection Hc. cbn. lia.
  - set_solver.
  - set_solver.
  - intros y. left. apply zeros_at.
Qed.

Lemma ranks_spec :
  exists L (P : gset string), ranks iter supers edges = Some L /\
    (forall a b, (a, b) ∈ edges -> a ∈ P -> at_ L a + 1 <= at_ L b) /\
    (forall y, at_ L y = 0 \/ exists a, a ∈ P /\ (a, y) ∈ edges /\ at_ L y = at_ L a + 1) /\
    (forall y, y ∈ D -> (forall a, (a, y) ∈ edges -> a ∈ P) -> y ∈ P).
Proof.
  destruct (rank_loop_spec edges D ltac:(intros a b Hab; unfold D; apply elem_of_union; right; apply elem_of_list_to_set;
    apply (list_elem_of_fmap_2' snd _ (a, b) b Hab eq_refl)) (size D) ∅ (start_ranking iter supers edges)) as (L & P & HL & _ & _ & H);
    [rewrite difference_empty_L; lia|apply start_ranked|].
  exists L, P. split; [|exact H]. unfold ranks. by rewrite start_dom.
Qed.

Lemma chain_bound L (P : gset string) n y :
  (forall a b, (a, b) ∈ edges -> a ∈ P -> at_ L a + 1 <= at_ L b) -> (forall y, 0 <= at_ L y) -> (forall a b, (a, b) ∈ edges -> a ∈ P) ->
  chain edges n y -> Z.of_nat n <= at_ L y.
Proof. intros Hf H0 HP. induction 1 as [y|n a b Hab _ IH]; [apply H0|]. specialize (Hf a b Hab (HP a b Hab)). lia. Qed.
End Ranks.

(** ** Permutations of the layers *)
Lemma reorder_layer_perm edges ref this : reorder_layer edges ref this ≡ₚ this.
Proof. unfold reorder_layer. rewrite sort_by_perm, <- list_fmap_compose. by rewrite list_fmap_id. Qed.

Lemma mjoin_alter_perm {A} (f : list A -> list A) extra i (ls : list (list A)) :
  (i < length ls)%nat -> (forall l, f l ≡ₚ extra ++ l) -> mjoin (alter f i ls) ≡ₚ extra ++ mjoin ls.
Proof.
  intros Hi Hf. revert i Hi. induction ls as [|l ls IH]; intros [|i] Hi; cbn in *; [lia|lia| |].
  - by rewrite Hf, app_assoc.
  - change (l ++ mjoin (alter f i ls) ≡ₚ extra ++ l ++ mjoin ls). rewrite IH by lia. solve_Permutation.
Qed.

Lemma mjoin_alter_same {A} (f : list A -> list A) i (ls : list (list A)) :
  (forall l, f l ≡ₚ l) -> mjoin (alter f i ls) ≡ₚ mjoin ls.
Proof.
  intros Hf. revert i. induction ls as [|l ls IH]; intros [|i]; cbn; [done..|by rewrite Hf|].
  change (l ++ mjoin (alter f i ls) ≡ₚ l ++ mjoin ls). by rewrite IH.
Qed.

Lemma sweep_step_perm edges forward layers i :
  mjoin (sweep_step edges forward layers i) ≡ₚ mjoin layers /\ length (sweep_step edges forward layers i) = length layers.
Proof.
  unfold sweep_step. split; [|by rewrite length_alter]. apply mjoin_alter_same. intros. apply reorder_layer_perm.
Qed.

Lemma foldl_keeps {A B} (R : A -> A -> Prop) `{!PreOrder R} (f : A -> B -> A) l a :
  (forall a b, R (f a b) a) -> R (foldl f a l) a.
Proof. intros Hf. revert a. induction l as [|b l IH]; intros a; cbn; [reflexivity|]. etrans; [apply IH|apply Hf]. Qed.

Definition same_nodes (ls ls' : list (list string)) : Prop := mjoin ls ≡ₚ mjoin ls'.
#[global] Instance same_nodes_preorder : PreOrder same_nodes.
Proof. split; [by intros ls; unfold same_nodes|]. intros ? ? ?. unfold same_nodes. by intros -> ->. Qed.

Lemma order_layers_perm edges layers : same_nodes (order_layers edges layers) layers.
Proof.
  unfold order_layers. apply (foldl_keeps same_nodes). intros ls k. unfold sweep. apply (foldl_keeps same_nodes).
  intros ls' i. apply sweep_step_perm.
Qed.

Lemma max_layer_nonneg L : 0 <= max_layer L.
Proof. unfold max_layer. induction ((map_to_list L).*2); cbn; lia. Qed.

Lemma max_layer_bound L y : at_ L y <= max_layer L.
Proof.
  pose proof (max_layer_nonneg L) as H0. unfold at_, max_layer in *.
  destruct (L !! y) as [z|] eqn:Hz; cbn; unfold id; [|apply H0].
  clear H0. apply elem_of_map_to_list in Hz. apply (list_elem_of_fmap_2 snd) in Hz. cbn in Hz.
  induction ((map_to_list L).*2) as [|w l IH]; [by apply not_elem_of_nil in Hz|]. cbn.
  apply elem_of_cons in Hz as [->|Hz]; [lia|]. specialize (IH Hz). lia.
Qed.

Lemma initial_layers_perm supers L : mjoin (initial_layers supers L) ≡ₚ WorkNode.id <$> supers.
Proof.
  unfold initial_layers. rewrite <- (sort_by_perm (not_after initial_cmp) supers) at 2.
  assert (forall k, mjoin (replicate k ([] : list string)) = []) as H0 by (induction k; cbn; done).
  assert (forall ls, length ls = Z.to_nat (max_layer L + 1) ->
    mjoin (foldl (fun layers n => alter (fun l => (l ++ [n.(WorkNode.id)])%list)
                           (Z.to_nat (default 0 (L !! n.(WorkNode.id)))) layers) ls (sort_by (not_after initial_cmp) supers))
    ≡ₚ (WorkNode.id <$> sort_by (not_after initial_cmp) supers) ++ mjoin ls) as Hgen.
  { induction (sort_by (not_after initial_cmp) supers) as [|n ns IH]; intros ls Hls; cbn [foldl fmap list_fmap]; [done|].
    rewrite IH by by rewrite length_alter. rewrite (mjoin_alter_perm _ [WorkNode.id n]).
    - solve_Permutation.
    - rewrite Hls. pose proof (max_layer_bound L (WorkNode.id n)) as Hb. unfold at_ in Hb.
      pose proof (max_layer_nonneg L). unfold id in *. lia.
    - intros l. solve_Permutation. }
  rewrite Hgen by by rewrite length_replicate. by rewrite H0, app_nil_r.
Qed.

(** ** Placements *)
Definition keyed (m : gmap string NodePlacement.t) : Prop := forall id p, m !! id = Some p -> p.(NodePlacement.node_id) = id.

(** [m] places the ids [X], each under its own key. *)
Definition places (X : gset string) (m : gmap string NodePlacement.t) : Prop := keyed m /\ dom m = X.

Lemma places_insert X m id p : places X m -> p.(NodePlacement.node_id) = id -> places ({[id]} ∪ X) (<[id := p]> m).
Proof.
  intros [Hk <-] Hp. split; [|by rewrite dom_insert_L]. intros id' p'. rewrite lookup_insert.
  case_decide as He; [intros [= <-]; by rewrite Hp|apply Hk].
Qed.

Lemma place_column_places size x column X m :
  places X m -> places (list_to_set column ∪ X) (place_column size x column m).
Proof.
  unfold place_column. generalize Y0. revert X m. induction column as [|id column IH]; intros X m y Hm; cbn [foldl].
  - cbn. by rewrite union_empty_l_L.
  - destruct (size id) as [w h]. cbn [list_to_set]. rewrite <- (assoc_L (∪)), (comm_L (∪) (list_to_set column)), (assoc_L (∪)).
    rewrite (comm_L (∪)). apply IH. by apply places_insert.
Qed.

Lemma place_layers_places size layers : places (list_to_set (mjoin layers)) (place_layers size layers).
Proof.
  unfold place_layers. assert (forall m x X, places X m -> places (list_to_set (mjoin layers) ∪ X)
    (foldl (fun '(placements, x) column =>
            let column_width := foldl (fun m id => f64_max m (size id).1) LEAF_W column in
            (place_column size x column placements, f64_add x (f64_add column_width COLUMN_GUTTER))) (m, x) layers).1) as Hgen.
  - induction layers as [|column layers IH]; intros m x X Hm; cbn [foldl]; [cbn; by rewrite union_empty_l_L|].
    change (mjoin (column :: layers)) with (column ++ mjoin layers)%list. rewrite list_to_set_app_L.
    rewrite <- (assoc_L (∪)), (comm_L (∪) (list_to_set (mjoin layers))), (assoc_L (∪)), (comm_L (∪)).
    apply IH. by apply place_column_places.
  - specialize (Hgen ∅ X0 ∅). rewrite union_empty_r_L in Hgen. apply Hgen. split; [by intros id p; rewrite lookup_empty|apply dom_empty_L].
Qed.

(** Replacing the placement of a placed id. *)
Lemma places_update X m id p p' :
  places X m -> m !! id = Some p -> p'.(NodePlacement.node_id) = id -> places X (<[id := p']> m).
Proof.
  intros Hm Hp Hp'. pose proof (places_insert X m id p' Hm Hp') as H. destruct Hm as [_ <-].
  assert ({[id]} ∪ dom m = dom m) as <-; [|done]. apply elem_of_dom_2 in Hp. set_solver.
Qed.

Lemma pin_places X st node : places X st.1 -> places X (pin st node).1.
Proof.
  destruct st as [m occ]. cbn. intros Hm. destruct (WorkNode.position_locked node); [|done].
  destruct (m !! WorkNode.id node) as [p|] eqn:Hp; [|done]. cbn. apply (places_update X m _ p); [done..|]. exact (proj1 Hm _ p Hp).
Qed.

Lemma settle_places X st id : places X st.1 -> places X (settle st id).1.
Proof.
  destruct st as [m occ]. cbn. intros Hm. destruct (m !! id) as [p|] eqn:Hp; [|done]. cbn.
  apply (places_update X m _ p); [done..|]. exact (proj1 Hm _ p Hp).
Qed.

Lemma foldl_inv {A B} (P : A -> Prop) (f : A -> B -> A) l a : P a -> (forall a b, P a -> P (f a b)) -> P (foldl f a l).
Proof. intros Ha Hf. revert a Ha. induction l as [|b l IH]; intros a Ha; cbn; [done|]. apply IH. by apply Hf. Qed.

Lemma preserve_manual_places by_id supers layers X m : places X m -> places X (preserve_manual by_id supers layers m).
Proof.
  intros Hm. unfold preserve_manual. apply (foldl_inv (fun st => places X st.1)); [|intros; by apply settle_places].
  apply (foldl_inv (fun st => places X st.1)); [done|intros; by apply pin_places].
Qed.

(** Pinned nodes stay. *)
Definition pinned_at (n : WorkNode.t) (m : gmap string NodePlacement.t) : Prop :=
  exists p, m !! n.(WorkNode.id) = Some p /\ p.(NodePlacement.x) = n.(WorkNode.position_x) /\
    p.(NodePlacement.y) = n.(WorkNode.position_y).

Lemma pin_pins st n supers :
  n ∈ supers -> NoDup (WorkNode.id <$> supers) -> n.(WorkNode.position_locked) = true -> is_Some (st.1 !! n.(WorkNode.id)) ->
  pinned_at n (foldl pin st supers).1.
Proof.
  intros Hn Hnd Hl. revert st. induction supers as [|n' supers IH]; intros st Hst; [by apply not_elem_of_nil in Hn|].
  cbn [fmap list_fmap] in Hnd. apply NoDup_cons in Hnd as [Hnew Hnd]. cbn [foldl]. apply elem_of_cons in Hn as [<-|Hn].
  - assert (pinned_at n (pin st n).1) as Hp.
    { destruct st as [m occ], Hst as [p Hp]. cbn in *. rewrite Hl, Hp. exists (moved_to (WorkNode.position_x n) (WorkNode.position_y n) p).
      cbn. by rewrite lookup_insert, decide_True. }
    clear IH Hst. revert Hp. generalize (pin st n). induction supers as [|n' supers IH]; intros st' Hp; [done|].
    cbn in Hnew, Hnd. apply not_elem_of_cons in Hnew as [Hne Hnew]. apply NoDup_cons in Hnd as [_ Hnd]. cbn [foldl]. apply IH; [done..|].
    destruct st' as [m occ], Hp as (p & Hp & Hxy). cbn in *. destruct (WorkNode.position_locked n'); [|by exists p].
    destruct (m !! WorkNode.id n'); [|by exists p]. cbn. exists p. by rewrite lookup_insert, decide_False by done.
  - apply IH; [done..|]. destruct st as [m occ]. cbn in *. destruct (WorkNode.position_locked n'); [|done].
    destruct (m !! WorkNode.id n'); [|done]. cbn. rewrite lookup_insert. case_decide; [by eexists|done].
Qed.

Lemma settle_keeps_pin n order st :
  n.(WorkNode.id) ∉ order -> pinned_at n st.1 -> pinned_at n (foldl settle st order).1.
Proof.
  revert st. induction order as [|id order IH]; intros st Hn Hp; [done|]. apply not_elem_of_cons in Hn as [Hne Hn].
  cbn [foldl]. apply IH; [done|]. destruct st as [m occ], Hp as (p & Hp & Hxy). cbn in *.
  destruct (m !! id) as [q|]; [|by exists p]. cbn. exists p. by rewrite lookup_insert, decide_False by done.
Qed.

(** ** Groups *)
Section Groups.
Context (nodes : list WorkNode.t) (Hids : NoDup (WorkNode.id <$> nodes)).
Abbreviation gids := (group_id_set nodes).
Abbreviation by_id := (index_nodes nodes).

Lemma same_node n n' : n ∈ nodes -> n' ∈ nodes -> n.(WorkNode.id) = n'.(WorkNode.id) -> n = n'.
Proof. intros Hn Hn' He. by apply (NoDup_column_inj WorkNode.id nodes). Qed.

Lemma index_lookup n : n ∈ nodes -> by_id !! n.(WorkNode.id) = Some n.
Proof.
  unfold index_nodes. assert (forall m : gmap string WorkNode.t, n ∈ nodes \/ (m !! n.(WorkNode.id) = Some n /\ (n.(WorkNode.id) ∉ (WorkNode.id <$> nodes))) ->
    foldl (fun m n => <[n.(WorkNode.id) := n]> m) m nodes !! n.(WorkNode.id) = Some n) as H; [|intros Hn; apply H; by left].
  induction nodes as [|n' l IH]; intros m Hn; cbn [foldl fmap list_fmap] in *.
  - by destruct Hn as [?%not_elem_of_nil|[? _]].
  - apply NoDup_cons in Hids as [Hnew Hnd]. apply IH; [done|]. rewrite lookup_insert. destruct Hn as [Hn|[Hm Hn]].
    + apply elem_of_cons in Hn as [->|Hn]; [right|by left]. by rewrite decide_True.
    + apply not_elem_of_cons in Hn as [Hne Hn]. right. by rewrite decide_False by done.
Qed.

Lemma elem_of_gids g : g ∈ gids <-> exists n, n ∈ nodes /\ is_group_node n = true /\ n.(WorkNode.id) = g.
Proof.
  unfold group_id_set. rewrite elem_of_list_to_set, list_elem_of_fmap. split.
  - intros (n & -> & [Hg Hn]%list_elem_of_filter). by exists n.
  - intros (n & Hn & Hg & <-). exists n. split; [done|]. by apply list_elem_of_filter.
Qed.

Lemma group_of_Some n g : group_of gids n = Some g -> g ∈ gids /\ is_group_node n = false.
Proof.
  unfold group_of. destruct (WorkNode.parent_id n); [|done]. case_bool_decide; [|done]. destruct (is_group_node n); [done|].
  cbn. by intros [= <-].
Qed.

Lemma super_iff n : n ∈ nodes -> super_of by_id gids n.(WorkNode.id) = Some n.(WorkNode.id) <-> group_of gids n = None.
Proof.
  intros Hn. unfold super_of. rewrite index_lookup by done. cbn. destruct (group_of gids n) as [g|] eqn:Hg; [|done]. cbn.
  split; [|done]. intros [= ->]. apply group_of_Some in Hg as [(n' & Hn' & Hg' & He)%elem_of_gids Hng].
  apply same_node in He; [|done..]. congruence.
Qed.

Lemma supers_eq : super_nodes by_id gids nodes = filter (fun n => group_of gids n = None) nodes.
Proof. unfold super_nodes. apply filter_ext_in. intros n Hn. by apply super_iff. Qed.

(** A group is itself a super-node. *)
Lemma group_is_super g : g ∈ gids -> g ∈ (WorkNode.id <$> super_nodes by_id gids nodes).
Proof.
  intros (n & Hn & Hg & <-)%elem_of_gids. apply list_elem_of_fmap_2. rewrite supers_eq.
  apply list_elem_of_filter. split; [|done]. unfold group_of. destruct (WorkNode.parent_id n); [|done]. by rewrite Hg, andb_false_r.
Qed.

Lemma children_lookup g :
  children_by_group gids nodes !! g =
  match filter (fun n => group_of gids n = Some g) nodes with
  | [] => None
  | kids => Some (sort_by (not_after visual_cmp) kids)
  end.
Proof.
  unfold children_by_group. rewrite lookup_fmap.
  generalize gids; intros gs. assert (forall m : gmap string (list WorkNode.t), (forall l, m !! g = Some l -> l <> []) ->
    foldl (fun (m : gmap string (list WorkNode.t)) n => match group_of gs n with
                      | Some g => <[g := (default [] (m !! g) ++ [n])%list]> m
                      | None => m
                      end) m nodes !! g =
    match (default [] (m !! g) ++ filter (fun n => group_of gs n = Some g) nodes)%list with [] => None | kids => Some kids end) as Hgen.
  { clear Hids. induction nodes as [|n l IH]; intros m Hm; cbn [foldl].
    - change (filter _ []) with (@nil WorkNode.t). rewrite app_nil_r. destruct (m !! g) as [k|] eqn:Hk; [|done]. cbn. unfold id.
      destruct k; [by destruct (Hm [] eq_refl)|done].
    - rewrite filter_cons. destruct (group_of gs n) as [g'|]; [|rewrite decide_False by done; by apply IH].
      rewrite IH; rewrite lookup_insert; destruct (decide (g' = g)) as [->|Hne].
      + rewrite (decide_True (P:=Some g = Some g)) by done. cbn [default from_option]. unfold id. by rewrite <- app_assoc.
      + by rewrite (decide_False (P:=Some g' = Some g)) by congruence.
      + intros k [= <-]. by destruct (default [] (m !! g)).
      + apply Hm. }
  rewrite Hgen by by intros l; rewrite lookup_empty. rewrite lookup_empty. cbn. by destruct (filter _ nodes).
Qed.
End Groups.

(** Splitting a list by key. *)
Lemma mjoin_insert_one {A} (K : list string) (g0 : string) (a : A) (F : string -> list A) :
  NoDup K -> g0 ∈ K -> mjoin ((fun g => if decide (g0 = g) then a :: F g else F g) <$> K) ≡ₚ a :: mjoin (F <$> K).
Proof.
  induction 1 as [|g K Hg Hnd IH]; intros Hin; [by apply not_elem_of_nil in Hin|]. cbn.
  destruct (decide (g0 = g)) as [->|Hne].
  - cbn. constructor. f_equiv. assert (forall K', g ∉ K' -> (fun g1 => if decide (g = g1) then a :: F g1 else F g1) <$> K' = F <$> K') as ->; [|done..].
    clear. intros K' Hg. apply list_fmap_ext. intros i g' Hg'. rewrite decide_False; [done|]. intros ->.
    apply Hg. by apply list_elem_of_lookup_2 in Hg'.
  - apply elem_of_cons in Hin as [|Hin]; [done|]. change (F g ++ mjoin ((fun g1 => if decide (g0 = g1) then a :: F g1 else F g1) <$> K) ≡ₚ a :: F g ++ mjoin (F <$> K)).
    rewrite IH by done. solve_Permutation.
Qed.

Lemma split_by_key {A} (key : A -> option string) (K : list string) l :
  NoDup K -> (forall a g, a ∈ l -> key a = Some g -> g ∈ K) ->
  mjoin ((fun g => filter (fun a => key a = Some g) l) <$> K) ++ filter (fun a => key a = None) l ≡ₚ l.
Proof.
  intros HK. induction l as [|a l IH]; intros Hin.
  - change (filter _ []) with (@nil A). rewrite app_nil_r. assert (forall K : list string, mjoin ((fun _ : string => @nil A) <$> K) = []) as H
      by (intros K'; induction K' as [|? K' IHK]; [done|exact IHK]). by rewrite H.
  - assert (forall g, key a = Some g -> g ∈ K) as Ha by (intros g Hg; by apply (Hin a); [left|]).
    assert (IH' := IH (fun a g Ha => Hin a g (list_elem_of_further _ _ _ Ha))). clear IH.
    etrans; [|apply perm_skip, IH']. rewrite filter_cons. destruct (key a) as [g0|] eqn:Hk.
    + rewrite decide_False by done. rewrite app_comm_cons. apply Permutation_app; [|done].
      rewrite <- (mjoin_insert_one K g0 a _ HK) by by apply Ha.
      apply reflexive_eq. f_equal. apply list_fmap_ext. intros i g _. rewrite filter_cons, Hk. repeat case_decide; congruence.
    + rewrite decide_True by done. rewrite <- Permutation_middle. constructor. apply reflexive_eq. do 2 f_equal.
      apply list_fmap_ext. intros i g _. by rewrite filter_cons, Hk, decide_False.
Qed.

(** ** Everything is placed once *)
Lemma place_children_ids group kids : NodePlacement.node_id <$> place_children group kids = WorkNode.id <$> kids.
Proof. unfold place_children. rewrite fmap_imap. apply imap_const. Qed.

Lemma placed_ids pl (l : list string) :
  keyed pl -> (forall id, id ∈ l -> is_Some (pl !! id)) -> NodePlacement.node_id <$> omap (fun id => pl !! id) l = l.
Proof.
  intros Hk. induction l as [|id l IH]; intros Hl; [done|]. cbn. destruct (Hl id) as [p Hp]; [by left|]. rewrite Hp. cbn.
  rewrite (Hk id p Hp). f_equal. apply IH. intros; apply Hl; by right.
Qed.

Lemma place_all_ids iter children pl :
  enumerates iter -> keyed pl -> (forall g, g ∈ dom children -> is_Some (pl !! g)) ->
  NodePlacement.node_id <$> place_all iter children pl ≡ₚ
    mjoin ((fun g => WorkNode.id <$> default [] (children !! g)) <$> iter (dom children)) ++ iter (dom pl).
Proof.
  intros Hiter Hk Hg. unfold place_all. rewrite sort_by_perm, fmap_app, (placed_ids pl) by
    (done || (intros id Hid; apply elem_of_dom, Hiter, Hid)).
  apply Permutation_app; [|done]. apply reflexive_eq.
  assert (forall g, g ∈ iter (dom children) -> is_Some (pl !! g)) as H by (intros g Hin; apply Hg, Hiter, Hin).
  induction (iter (dom children)) as [|g K IH]; [done|]. cbn. rewrite fmap_app. destruct (H g) as [p ->]; [by left|].
  rewrite place_children_ids. f_equal. apply IH. intros; apply H; by right.
Qed.

Section Whole.
Context (iter : gset string -> list string) (Hiter : enumerates iter).
Context (nodes : list WorkNode.t) (Hids : NoDup (WorkNode.id <$> nodes)).
Abbreviation gids := (group_id_set nodes).
Abbreviation children := (children_by_group gids nodes).
Abbreviation supers := (super_nodes (index_nodes nodes) gids nodes).

Lemma child_group_placed g : g ∈ dom children -> g ∈ (WorkNode.id <$> supers).
Proof.
  intros [kids Hk]%elem_of_dom. rewrite children_lookup in Hk. destruct (filter _ nodes) as [|n l] eqn:Hf; [done|].
  assert (n ∈ filter (fun n => group_of gids n = Some g) nodes) as [Hg Hn]%list_elem_of_filter by (rewrite Hf; by left).
  apply group_is_super; [done|]. by apply group_of_Some in Hg as [].
Qed.

Lemma whole_ids pl :
  places (list_to_set (WorkNode.id <$> supers)) pl ->
  NodePlacement.node_id <$> place_all iter children pl ≡ₚ WorkNode.id <$> nodes.
Proof.
  intros [Hk Hdom]. rewrite place_all_ids; [|done..|].
  2: { intros g Hg%child_group_placed. apply elem_of_dom. by rewrite Hdom, elem_of_list_to_set. }
  assert (iter (dom pl) ≡ₚ WorkNode.id <$> filter (fun n => group_of gids n = None) nodes) as ->.
  { apply NoDup_Permutation; [apply Hiter| |].
    - by apply NoDup_filter_column.
    - intros id. rewrite (proj2 (Hiter _)), Hdom, elem_of_list_to_set. by rewrite supers_eq. }
  etrans; [|apply (fmap_Permutation WorkNode.id), (split_by_key (group_of gids) (iter (dom children)) nodes); [apply Hiter|]].
  - rewrite fmap_app. apply Permutation_app; [|done]. generalize (iter (dom children)). intros K.
    induction K as [|g K IH]; [done|]. cbn [fmap list_fmap mjoin list_join]. rewrite fmap_app. apply Permutation_app; [|exact IH].
    rewrite children_lookup. destruct (filter _ nodes) as [|n l] eqn:Hf; [done|]. cbn [default from_option]. unfold id.
    by rewrite sort_by_perm.
  - intros n g Hn Hg. apply Hiter, elem_of_dom. rewrite children_lookup.
    assert (n ∈ filter (fun n => group_of gids n = Some g) nodes) as Hin by by apply list_elem_of_filter.
    destruct (filter _ nodes); [by apply not_elem_of_nil in Hin|by eexists].
Qed.

Lemma layers_places size L edges :
  places (list_to_set (WorkNode.id <$> supers)) (place_layers size (order_layers edges (initial_layers supers L))).
Proof.
  pose proof (order_layers_perm edges (initial_layers supers L)) as Hp. unfold same_nodes in Hp.
  rewrite initial_layers_perm in Hp. apply (list_to_set_perm_L (C:=gset string)) in Hp. rewrite <- Hp. apply place_layers_places.
Qed.

Lemma placements_place mode size L edges :
  let layers := order_layers edges (initial_layers supers L) in
  places (list_to_set (WorkNode.id <$> supers))
    (if bool_decide (mode = LayoutMode.PreserveManual)
     then preserve_manual (index_nodes nodes) supers layers (place_layers size layers) else place_layers size layers).
Proof. case_bool_decide; [apply preserve_manual_places|]; apply layers_places. Qed.

(** A pinned node keeps its place. *)
Lemma preserved n layers pl :
  n ∈ nodes -> group_of gids n = None -> n.(WorkNode.position_locked) = true ->
  places (list_to_set (WorkNode.id <$> supers)) pl ->
  pinned_at n (preserve_manual (index_nodes nodes) supers layers pl).
Proof.
  intros Hn Hg Hl [_ Hdom]. assert (n ∈ supers) as Hs by (rewrite supers_eq by done; by apply list_elem_of_filter).
  unfold preserve_manual. apply settle_keeps_pin.
  - intros [Hf _]%list_elem_of_filter. rewrite index_lookup in Hf by done. cbn in Hf. by rewrite Hl in Hf.
  - apply pin_pins; [done|by apply NoDup_filter_column|done|]. cbn. apply elem_of_dom. rewrite Hdom.
    by apply elem_of_list_to_set, list_elem_of_fmap_2.
Qed.

Lemma pinned_in_all n pl : pinned_at n pl -> keyed pl ->
  exists p, p ∈ place_all iter children pl /\ p.(NodePlacement.node_id) = n.(WorkNode.id) /\
    p.(NodePlacement.x) = n.(WorkNode.position_x) /\ p.(NodePlacement.y) = n.(WorkNode.position_y).
Proof.
  intros (p & Hp & Hxy) Hk. exists p. split; [|split; [by apply Hk|done]]. unfold place_all. rewrite sort_by_perm, elem_of_app.
  right. apply list_elem_of_omap. exists n.(WorkNode.id). split; [|done]. apply Hiter, elem_of_dom. by exists p.
Qed.
End Whole.

(** ** Properties *)
Section Properties.

(** C32: ranking terminates whatever the links, cycles included, and when they are
    acyclic every node gets exactly the length of its longest chain of links: so
    every link points to a later column, and no column is wasted. *)
Theorem ranks_are_longest_chains iter supers edges :
  enumerates iter ->
  exists L, ranks iter supers edges = Some L /\
    ((forall a b, (a, b) ∈ edges -> a ∈ (WorkNode.id <$> supers)) ->
     (forall x, ~ tc (fun a b => (a, b) ∈ edges) x x) ->
     forall y, exists n, default 0 (L !! y) = Z.of_nat n /\ chain edges n y /\ forall m, chain edges m y -> (m <= n)%nat).
Proof.
  intros Hiter. destruct (ranks_spec iter Hiter supers edges) as (L & P & HL & Hfwd & Hchain & Hall).
  exists L. split; [done|]. intros Hsrc Hac y.
  assert (HA : forall x, Acc (fun a b => (a, b) ∈ edges) x).
  { apply (acyclic_Acc _ (list_to_set (WorkNode.id <$> supers))); [|done]. intros a b Hab. by apply elem_of_list_to_set, (Hsrc a b). }
  assert (HP : forall a b, (a, b) ∈ edges -> a ∈ P).
  { intros a b Hab. specialize (HA a). assert (a ∈ (WorkNode.id <$> supers)) as Ha by by eapply Hsrc. clear Hab b.
    induction HA as [a _ IH]. apply Hall; [set_solver|]. intros a' Ha'. apply IH; [done|by eapply Hsrc]. }
  assert (Hex : forall y, exists n, at_ L y = Z.of_nat n /\ chain edges n y).
  { intros z. specialize (HA z). induction HA as [z _ IH]. destruct (Hchain z) as [H0|(a & _ & Haz & Heq)].
    - exists 0%nat. split; [done|constructor].
    - destruct (IH a Haz) as (n & Hn & Hc). exists (S n). split; [lia|by econstructor]. }
  destruct (Hex y) as (n & Hn & Hc). exists n. split; [exact Hn|]. split; [done|]. intros m Hm.
  assert (H0 : forall y, 0 <= at_ L y) by (intros z; destruct (Hex z) as (k & -> & _); lia).
  pose proof (chain_bound edges L P m y Hfwd H0 HP Hm). lia.
Qed.

(** C31: a layout always exists and places every node of the graph exactly once,
    whatever the links and the hash order; in the mode [PreserveManual] every
    pinned node outside a group stays exactly where it is (nothing is claimed of
    pinned nodes in the other modes). *)
Theorem layout_places_every_node_once iter nodes edges mode :
  enumerates iter -> NoDup (WorkNode.id <$> nodes) ->
  exists out, compute_layout iter nodes edges mode = Some out /\
    NodePlacement.node_id <$> out ≡ₚ WorkNode.id <$> nodes /\
    (mode = LayoutMode.PreserveManual -> forall n, n ∈ nodes -> n.(WorkNode.position_locked) = true ->
     group_of (group_id_set nodes) n = None ->
     exists p, p ∈ out /\ p.(NodePlacement.node_id) = n.(WorkNode.id) /\
       p.(NodePlacement.x) = n.(WorkNode.position_x) /\ p.(NodePlacement.y) = n.(WorkNode.position_y)).
Proof.
  intros Hiter Hids. unfold compute_layout. destruct nodes as [|n0 ns] eqn:Hnodes.
  { exists []. split; [done|]. split; [done|]. by intros _ n ?%not_elem_of_nil. }
  rewrite <- Hnodes in *. cbv zeta.
  set (edges' := omap (contract (index_nodes nodes) (group_id_set nodes)) edges).
  destruct (ranks_spec iter Hiter (super_nodes (index_nodes nodes) (group_id_set nodes) nodes) (rank_edges edges')) as (L & _ & -> & _).
  cbn. eexists. split; [done|].
  pose proof (placements_place nodes mode (size_of (group_id_set nodes) (children_by_group (group_id_set nodes) nodes)) L
    (order_edges edges')) as Hpl. split.
  - by apply whole_ids.
  - intros -> n Hn Hl Hg. cbv zeta in Hpl. rewrite bool_decide_eq_true_2 in * by done.
    apply pinned_in_all; [done| |apply Hpl]. apply preserved; [done..|]. apply layers_places.
Qed.
End Properties.

(** ** Concrete graphs *)
Module DemoLayout.

Definition node (id : string) (kind : WorkNodeKind.t) (parent : option string) (locked : bool) : WorkNode.t :=
  WorkNode.mk id "p" parent None None kind id None TaskStatus.Draft TaskPriority.Medium None (f64_of_int 500) (f64_of_int 700)
    None None locked 0 0 0.
Definition link (id source target : string) (kind : WorkEdgeKind.t) : WorkEdge.t := WorkEdge.mk id "p" source target kind None 0 0.

Definition diamond : list WorkNode.t :=
  [node "a" WorkNodeKind.Task None false; node "b" WorkNodeKind.Task None false; node "c" WorkNodeKind.Task None true].
Definition diamond_links : list WorkEdge.t :=
  [link "e" "a" "b" WorkEdgeKind.Blocks; link "f" "c" "b" WorkEdgeKind.DependsOn; link "g" "a" "c" WorkEdgeKind.Blocks].

(** [b] sits between the two children of [g]. *)
Definition sandwich : list WorkNode.t :=
  [node "g" WorkNodeKind.Group None false; node "x" WorkNodeKind.Task (Some "g") false; node "y" WorkNodeKind.Task (Some "g") false;
   node "b" WorkNodeKind.Task None false].
Definition sandwich_links : list WorkEdge.t := [link "e" "x" "b" WorkEdgeKind.Blocks; link "f" "b" "y" WorkEdgeKind.Blocks].

Definition column (out : list NodePlacement.t) (id : string) : option f64 :=
  NodePlacement.x <$> find (fun p => String.eqb p.(NodePlacement.node_id) id) out.
End DemoLayout.

Section Witnesses.
Import DemoLayout.

Lemma increasing_acyclic {A} (R : A -> A -> Prop) (f : A -> nat) : (forall a b, R a b -> (f a < f b)%nat) -> forall x, ~ tc R x x.
Proof. intros Hf x Hx. assert (forall a b, tc R a b -> (f a < f b)%nat) as H; [|specialize (H x x Hx); lia]. induction 1 as [a b H|a b c H _ IH]; [auto|specialize (Hf _ _ H); lia]. Qed.

(** The contraction of an acyclic graph can be cyclic: the plan is valid, and yet
    the group and the node its children surround share the first column. *)
Lemma contraction_can_be_cyclic :
  validate_gating_edges_acyclic elements sandwich sandwich_links = Ok () /\
  from_option (fun out => (column out "g", column out "b")) (None, None)
    (compute_layout elements sandwich sandwich_links LayoutMode.Force) = (Some X0, Some X0).
Proof. split; vm_compute; reflexivity. Qed.

Definition triangle : list (string * string) := [("a", "b"); ("c", "b"); ("a", "c")].
Definition height (s : string) : nat := if String.eqb s "a" then 0%nat else if String.eqb s "c" then 1%nat else 2%nat.

Lemma triangle_rises a b : (a, b) ∈ triangle -> (height a < height b)%nat /\ a ∈ (WorkNode.id <$> diamond).
Proof.
  unfold triangle. rewrite !elem_of_cons, elem_of_nil. intros [[= -> ->]|[[= -> ->]|[[= -> ->]|[]]]]; (split; [vm_compute; lia|]).
  all: apply (bool_decide_unpack _); exact I.
Qed.

Lemma ranks_are_longest_chains_witness :
  exists L n, ranks elements diamond triangle = Some L /\ default 0 (L !! "b") = Z.of_nat n /\ chain triangle n "b".
Proof.
  destruct (ranks_are_longest_chains elements diamond triangle elements_enum) as (L & HL & Hc).
  destruct (Hc (fun a b Hab => proj2 (triangle_rises a b Hab))
    (increasing_acyclic _ height (fun a b Hab => proj1 (triangle_rises a b Hab))) "b") as (n & Hn & Hch & _).
  exists L, n. split; [exact HL|split; [exact Hn|exact Hch]].
Defined.

Lemma layout_places_every_node_once_witness :
  exists out, compute_layout elements diamond diamond_links LayoutMode.PreserveManual = Some out /\
    NodePlacement.node_id <$> out ≡ₚ ["a"; "b"; "c"] /\
    exists p, p ∈ out /\ p.(NodePlacement.node_id) = "c" /\ p.(NodePlacement.x) = f64_of_int 500.
Proof.
  destruct (layout_places_every_node_once elements diamond diamond_links LayoutMode.PreserveManual elements_enum) as (out & Ho & Hp & Hpin).
  - apply (bool_decide_unpack _). exact I.
  - exists out. split; [exact Ho|]. split; [exact Hp|].
    destruct (Hpin eq_refl (node "c" WorkNodeKind.Task None true) ltac:(do 2 right; left) eq_refl eq_refl) as (p & Hin & Hid & Hx & _).
    exists p. split; [exact Hin|split; [exact Hid|exact Hx]].
Defined.
End Witnesses.
