(* ===== verification/Limits.v ===== *)
(** * Provider limits

    What happens when an agent hits a usage limit: the policy and its
    normalisation (crates/am-core/src/orchestrate.rs), the choice of a fallback
    agent (fallback.rs), the availability records with their probe backoff
    (availability.rs, crates/am-db/src/repos/agent.rs), and the reset deadline
    the scheduler sleeps until (scheduler.rs). *)
From Stdlib Require Import SpecFloat Ascii String.
From S2P Require Import Prelude RustStr Enums Records Doubles WorkGraphDb WorkGraphInv.
#[local] Open Scope string_scope.
#[local] Open Scope Z_scope.

(** ** Normalising the policy *)

Definition clean_optional (value : option string) : option string :=
  match value with
  | Some value => let value := trim value in if is_empty value then None else Some value
  | None => None
  end.

(** [s.chars().take(n).collect()]: a byte that does not continue a character
    starts one. *)
Definition is_continuation (a : ascii) : bool :=
  (128 <=? Z.of_N (N_of_ascii a)) && (Z.of_N (N_of_ascii a) <? 192).

Fixpoint take_chars (n : nat) (s : string) : string :=
  match s with
  | EmptyString => EmptyString
  | String a rest =>
      if is_continuation a then String a (take_chars n rest)
      else match n with O => EmptyString | S n => String a (take_chars n rest) end
  end.

Fixpoint char_count (s : string) : nat :=
  match s with
  | EmptyString => O
  | String a rest => if is_continuation a then char_count rest else S (char_count rest)
  end.

Definition id_char (a : ascii) : bool :=
  let z := Z.of_N (N_of_ascii a) in
  ((48 <=? z) && (z <=? 57)) || ((65 <=? z) && (z <=? 90)) || ((97 <=? z) && (z <=? 122)) ||
  (z =? 45) || (z =? 95).

Fixpoint all_chars (p : ascii -> bool) (s : string) : bool :=
  match s with EmptyString => true | String a rest => p a && all_chars p rest end.

(** Push if absent. *)
Definition push_new {A} `{EqDecision A} (l : list A) (a : A) : list A :=
  if bool_decide (a ∈ l) then l else l ++ [a].

(** [if let Some(x) = l.iter_mut().find(p) { *x = a } else { l.push(a) }]. *)
Fixpoint replace_or_push {A} (p : A -> bool) (a : A) (l : list A) : list A :=
  match l with
  | [] => [a]
  | b :: rest => if p b then a :: rest else b :: replace_or_push p a rest
  end.

Definition normalize_profile (p : AgentTargetProfile.t) : AgentTargetProfile.t :=
  AgentTargetProfile.mk p.(AgentTargetProfile.agent) (clean_optional p.(AgentTargetProfile.model))
    (clean_optional p.(AgentTargetProfile.reasoning)).

(** The body of the account loop up to the merge; [None]: [continue]. *)
Definition normalize_account (a : ProviderAccount.t) : option ProviderAccount.t :=
  if negb (bool_decide (a.(ProviderAccount.agent) = AgentKind.Codex) ||
           bool_decide (a.(ProviderAccount.agent) = AgentKind.ClaudeCode)) then None
  else
    let id := trim a.(ProviderAccount.id) in
    let label := take_chars 80 (trim a.(ProviderAccount.label)) in
    if is_empty label || (len id <? 8) || (128 <? len id) || negb (all_chars id_char id) then None
    else if bool_decide (a.(ProviderAccount.agent) = AgentKind.Codex) then
      Some (ProviderAccount.mk id label a.(ProviderAccount.agent) a.(ProviderAccount.enabled)
              a.(ProviderAccount.use_credits)
              (if bool_decide (a.(ProviderAccount.auth_mode) = ProviderAccountAuthMode.OauthToken)
               then ProviderAccountAuthMode.IsolatedCli else a.(ProviderAccount.auth_mode)))
    else
      Some (ProviderAccount.mk id label a.(ProviderAccount.agent) a.(ProviderAccount.enabled) false
              a.(ProviderAccount.auth_mode)).

Definition is_system (a : ProviderAccount.t) : bool :=
  bool_decide (a.(ProviderAccount.auth_mode) = ProviderAccountAuthMode.System).

Definition same_account (account item : ProviderAccount.t) : bool :=
  bool_decide (item.(ProviderAccount.id) = account.(ProviderAccount.id)) ||
  (is_system account && bool_decide (item.(ProviderAccount.agent) = account.(ProviderAccount.agent)) &&
   is_system item).

(** [Vec::dedup]: consecutive repetitions only. *)
Fixpoint dedup {A} `{EqDecision A} (l : list A) : list A :=
  match l with
  | a :: ((b :: _) as rest) => if bool_decide (a = b) then dedup rest else a :: dedup rest
  | _ => l
  end.

Definition normalize_limit_policy (policy : LimitPolicy.t) : LimitPolicy.t :=
  let priority := foldl push_new [] policy.(LimitPolicy.agent_priority) in
  let priority := match priority with [] => [AgentKind.ClaudeCode; AgentKind.Codex] | _ => priority end in
  let profiles := foldl (fun ps p =>
      replace_or_push (fun existing =>
        bool_decide (existing.(AgentTargetProfile.agent) = p.(AgentTargetProfile.agent))) p ps)
    [] (normalize_profile <$> policy.(LimitPolicy.agent_profiles)) in
  let accounts := foldl (fun accs a => replace_or_push (same_account a) a accs)
    [] (omap normalize_account policy.(LimitPolicy.accounts)) in
  LimitPolicy.mk policy.(LimitPolicy.auto_switch) policy.(LimitPolicy.switch_back) priority profiles accounts
    (filter (fun agent => existsb (fun a => bool_decide (a.(ProviderAccount.agent) = agent) && is_system a)
                            accounts = false)
       (dedup policy.(LimitPolicy.dismissed_system_accounts)))
    policy.(LimitPolicy.resume_with_earliest)
    (Z.min policy.(LimitPolicy.unknown_reset_retry_secs) (7 * 24 * 60 * 60))
    policy.(LimitPolicy.keep_awake).

(** ** Choosing a fallback agent *)

Record FallbackPolicy := mkFallback {
  auto_switch : bool;
  switch_back : bool;
  preferred_order : list AgentKind.t
}.

Definition fallback_of (policy : LimitPolicy.t) : FallbackPolicy :=
  mkFallback policy.(LimitPolicy.auto_switch) policy.(LimitPolicy.switch_back)
    policy.(LimitPolicy.agent_priority).

Inductive FallbackDecision :=
| Switch (agent : AgentKind.t) (switch_back : bool)
| Wait (reset_at : option Z)
| Disabled.

Definition agent_ready (status : AgentStatus.t) : bool :=
  status.(AgentStatus.installed) && status.(AgentStatus.authenticated) &&
  negb (bool_decide (status.(AgentStatus.availability) = AvailabilityState.Limited)).

Definition ready_as (statuses : list AgentStatus.t) (agent : AgentKind.t) : bool :=
  existsb (fun status => bool_decide (status.(AgentStatus.kind) = agent) && agent_ready status) statuses.

Definition decide_fallback (policy : FallbackPolicy) (current : AgentKind.t) (statuses : list AgentStatus.t)
  (reset_at : option Z) : FallbackDecision :=
  if negb policy.(auto_switch) then Disabled
  else
    match find (fun preferred => negb (bool_decide (preferred = current)) && ready_as statuses preferred)
            policy.(preferred_order) with
    | Some preferred => Switch preferred policy.(switch_back)
    | None =>
        match find (fun status => negb (bool_decide (status.(AgentStatus.kind) = current)) && agent_ready status)
                statuses with
        | Some status => Switch status.(AgentStatus.kind) policy.(switch_back)
        | None => Wait reset_at
        end
    end.

Definition agent_target_profile (policy : LimitPolicy.t) (agent : AgentKind.t) : option string * option string :=
  match find (fun p => bool_decide (p.(AgentTargetProfile.agent) = agent)) policy.(LimitPolicy.agent_profiles) with
  | Some p => (p.(AgentTargetProfile.model), p.(AgentTargetProfile.reasoning))
  | None => (None, None)
  end.

(** ** Availability records *)

Module AgentRecord.

Record t := mk {
  kind : AgentKind.t;
  install_status : string;
  version : option string;
  availability : AvailabilityState.t;
  reset_at : option Z;
  last_checked : option Z;
  limit_strikes : Z
}.

End AgentRecord.

(** The row of the table; [kind] is the primary key. *)
Module AgentRow.

Record t := mk {
  kind : string;
  install_status : string;
  version : option string;
  availability : string;
  reset_at : option Z;
  last_checked : option Z;
  limit_strikes : Z
}.

End AgentRow.

Definition record_try_from (row : AgentRow.t) : result DbError AgentRecord.t :=
  kind ← decode (T:=AgentKind.t) row.(AgentRow.kind);
  availability ← decode (T:=AvailabilityState.t) row.(AgentRow.availability);
  mret (AgentRecord.mk kind row.(AgentRow.install_status) row.(AgentRow.version) availability
    row.(AgentRow.reset_at) row.(AgentRow.last_checked) row.(AgentRow.limit_strikes)).

(** The core's state: the agents table, the usage samples, the scheduler's
    deadline, and whether the scheduler was woken. *)
Record LimitState := mkLimits {
  agents : list AgentRow.t;
  provider_usage : gmap string ProviderUsage.t;
  next_reset_deadline : option Z;
  wakes : nat
}.

Abbreviation LimM := (M LimitState DbError).

Definition set_agents (rows : list AgentRow.t) (s : LimitState) : LimitState :=
  mkLimits rows s.(provider_usage) s.(next_reset_deadline) s.(wakes).

Definition row_key (kind : AgentKind.t) (r : AgentRow.t) : bool := eq_str r.(AgentRow.kind) (AgentKind.as_str kind).

Definition get_agent (kind : AgentKind.t) : LimM (option AgentRecord.t) :=
  row ← gets (fun s => find (row_key kind) s.(agents));
  lift (transpose (record_try_from <$> row)).

Definition to_row (r : AgentRecord.t) : AgentRow.t :=
  AgentRow.mk (AgentKind.as_str r.(AgentRecord.kind)) r.(AgentRecord.install_status) r.(AgentRecord.version)
    (AvailabilityState.as_str r.(AgentRecord.availability)) r.(AgentRecord.reset_at)
    r.(AgentRecord.last_checked) r.(AgentRecord.limit_strikes).

(** [INSERT ... ON CONFLICT(kind) DO UPDATE], then read back. *)
Definition upsert (r : AgentRecord.t) : LimM AgentRecord.t :=
  _ ← modify (fun s => set_agents (replace_or_push (row_key r.(AgentRecord.kind)) (to_row r) s.(agents)) s);
  o ← get_agent r.(AgentRecord.kind);
  lift_opt o DbNotFound.

Definition mark_limited (ts : Z) (kind : AgentKind.t) (reset_at : option Z) (limit_strikes : Z) :
  LimM AgentRecord.t :=
  existing ← get_agent kind;
  upsert (AgentRecord.mk kind (from_option AgentRecord.install_status "installed" existing)
            (existing ≫= AgentRecord.version) AvailabilityState.Limited reset_at (Some ts) limit_strikes).

Definition mark_available (ts : Z) (kind : AgentKind.t) : LimM AgentRecord.t :=
  existing ← get_agent kind;
  upsert (AgentRecord.mk kind (from_option AgentRecord.install_status "installed" existing)
            (existing ≫= AgentRecord.version) AvailabilityState.Available None (Some ts) 0).

(** ** Scheduler deadline (times in milliseconds) *)

Definition SCHEDULER_INTERVAL : Z := 30000.

Definition wake_scheduler : LimM () :=
  modify (fun s => mkLimits s.(agents) s.(provider_usage) s.(next_reset_deadline) (S s.(wakes))).

Definition note_limit_reset_deadline (reset_at : Z) : LimM () :=
  _ ← modify (fun s => mkLimits s.(agents) s.(provider_usage)
        (match s.(next_reset_deadline) with
         | Some current => if current <=? reset_at then Some current else Some reset_at
         | None => Some reset_at
         end) s.(wakes));
  wake_scheduler.

(** The delay, and the deadline left behind. *)
Definition next_scheduler_delay (ts : Z) (deadline : option Z) : Z * option Z :=
  match deadline with
  | None => (SCHEDULER_INTERVAL, None)
  | Some at_ =>
      let until := at_ - ts in
      if 0 <=? until then (Z.min (until + 500) SCHEDULER_INTERVAL, deadline) else (0, None)
  end.

(** ** Limits observed (availability.rs; times in milliseconds) *)

Definition READY_AGENT_CACHE_SECS : Z := 60.
Definition MAX_UNKNOWN_RESET_BACKOFF_SECS : Z := 15 * 60.

Definition unknown_reset_backoff (base strikes : Z) : Z :=
  Z.min (i64_saturating_mul (u64_as_i64 (Z.max base 1)) (Z.shiftl 1 (clampZ 0 16 (strikes - 1))))
    MAX_UNKNOWN_RESET_BACKOFF_SECS.

Definition mark_agent_limited (ts : Z) (policy : LimitPolicy.t) (kind : AgentKind.t) (reset_at : option Z) :
  LimM () :=
  '(reset_at, strikes) ←
    match reset_at with
    | Some reset_at => mret (Some reset_at, 0)
    | None =>
        let base := policy.(LimitPolicy.unknown_reset_retry_secs) in
        existing ← get_agent kind;
        let prior := from_option AgentRecord.limit_strikes 0 existing in
        let strikes := prior + 1 in
        let backoff := unknown_reset_backoff base strikes in
        mret (if 0 <? base then Some (ts + 1000 * backoff) else None, strikes)
    end;
  _ ← mark_limited ts kind reset_at strikes;
  match reset_at with Some reset_at => note_limit_reset_deadline reset_at | None => mret () end.

Definition mark_agent_available (ts : Z) (kind : AgentKind.t) : LimM () :=
  _ ← mark_available ts kind; wake_scheduler.

Definition install_status (installed authenticated : bool) : string :=
  if negb installed then "not_installed" else if negb authenticated then "unauthenticated" else "installed".

(** [AgentInstallStatus]. *)
Record AgentInstallStatus := mkDetected {
  d_kind : AgentKind.t;
  d_installed : bool;
  d_authenticated : bool;
  d_version : option string;
  d_binary_path : option string
}.

Definition record_agent_probe (ts : Z) (detected : AgentInstallStatus) : LimM AgentStatus.t :=
  existing ← get_agent detected.(d_kind);
  let ready := detected.(d_installed) && detected.(d_authenticated) in
  let preserve_limited :=
    is_some_and existing (fun record =>
      bool_decide (record.(AgentRecord.availability) = AvailabilityState.Limited) &&
      is_some_and record.(AgentRecord.reset_at) (fun reset_at => ts <? reset_at)) in
  saved ← upsert (AgentRecord.mk detected.(d_kind)
    (install_status detected.(d_installed) detected.(d_authenticated)) detected.(d_version)
    (if preserve_limited then AvailabilityState.Limited
     else if ready then AvailabilityState.Available else AvailabilityState.Unknown)
    (if preserve_limited then existing ≫= AgentRecord.reset_at else None) (Some ts)
    (if preserve_limited then from_option AgentRecord.limit_strikes 0 existing else 0));
  usage ← gets (fun s => s.(provider_usage) !! AgentKind.as_str detected.(d_kind));
  mret (AgentStatus.mk detected.(d_kind) detected.(d_installed) detected.(d_authenticated)
    detected.(d_version) detected.(d_binary_path) saved.(AgentRecord.availability)
    saved.(AgentRecord.reset_at) saved.(AgentRecord.last_checked) usage).

Definition fresh_ready_agent_status (ts : Z) (kind : AgentKind.t) : LimM (option AgentStatus.t) :=
  o ← get_agent kind;
  match o with
  | None => mret None
  | Some record =>
      if negb (eq_str record.(AgentRecord.install_status) "installed") ||
         negb (bool_decide (record.(AgentRecord.availability) = AvailabilityState.Available))
      then mret None
      else match record.(AgentRecord.last_checked) with
           | None => mret None
           | Some last_checked =>
               if 1000 * READY_AGENT_CACHE_SECS <? ts - last_checked then mret None
               else
                 usage ← gets (fun s => s.(provider_usage) !! AgentKind.as_str kind);
                 mret (Some (AgentStatus.mk kind true true record.(AgentRecord.version) None
                   record.(AgentRecord.availability) record.(AgentRecord.reset_at)
                   record.(AgentRecord.last_checked) usage))
           end
  end.

Inductive QuotaWindowKind := FiveHour | Weekly.


Definition update_provider_usage (kind : AgentKind.t) (window : QuotaWindowKind) (used_percent : f64)
  (reset_at : option Z) : LimM ProviderUsage.t :=
  s ← get;
  let usage := default (ProviderUsage.mk None None) (s.(provider_usage) !! AgentKind.as_str kind) in
  let sample := Some (ProviderUsageWindow.mk (f64_clamp (S754_zero false) f64_100 used_percent) reset_at) in
  let usage := match window with
               | FiveHour => ProviderUsage.mk sample usage.(ProviderUsage.weekly)
               | Weekly => ProviderUsage.mk usage.(ProviderUsage.five_hour) sample
               end in
  _ ← modify (fun s => mkLimits s.(agents) (<[AgentKind.as_str kind := usage]> s.(provider_usage))
        s.(next_reset_deadline) s.(wakes));
  mret usage.

(** ** Lemmas *)

Lemma find_replace_or_push {A} (p : A -> bool) a l : p a = true -> find p (replace_or_push p a l) = Some a.
Proof.
  intros Ha. induction l as [|b l IH]; cbn; [by rewrite Ha|].
  destruct (p b) eqn:Hb; cbn; [by rewrite Ha|]. by rewrite Hb.
Qed.

Lemma elem_of_replace_or_push {A} (p : A -> bool) a l x :
  x ∈ replace_or_push p a l -> x = a \/ x ∈ l.
Proof.
  induction l as [|b l IH]; cbn; [intros ->%list_elem_of_singleton; auto|].
  destruct (p b); rewrite !elem_of_cons; tauto.
Qed.

Lemma record_try_from_to_row r : record_try_from (to_row r) = Ok r.
Proof.
  unfold record_try_from, to_row. cbn [AgentRow.kind AgentRow.availability].
  assert (decode (AgentKind.as_str (AgentRecord.kind r)) = Ok (AgentRecord.kind r)) as ->
    by exact (decode_wire (T:=AgentKind.t) _).
  assert (decode (AvailabilityState.as_str (AgentRecord.availability r)) = Ok (AgentRecord.availability r)) as ->
    by exact (decode_wire (T:=AvailabilityState.t) _).
  by destruct r.
Qed.

(** The record a successful [upsert] leaves. *)
Lemma upsert_spec r s :
  exists s', upsert r s = (s', Ok r) /\ get_agent r.(AgentRecord.kind) s' = (s', Ok (Some r)) /\
    s'.(next_reset_deadline) = s.(next_reset_deadline) /\ s'.(provider_usage) = s.(provider_usage).
Proof.
  unfold upsert. rewrite M_bind_unfold. cbn [modify].
  set (s' := set_agents _ s).
  assert (get_agent r.(AgentRecord.kind) s' = (s', Ok (Some r))) as Hget.
  { unfold get_agent. rewrite M_bind_unfold. cbn [gets].
    unfold s'. cbn [agents set_agents]. rewrite find_replace_or_push by by apply bool_decide_eq_true.
    cbn [fmap option_fmap option_map]. by rewrite record_try_from_to_row. }
  exists s'. rewrite M_bind_unfold, Hget. done.
Qed.

(** Replacing by a key keeps the keys distinct. *)
Lemma replace_or_push_column {A K} `{EqDecision K} (g : A -> K) a l :
  NoDup (g <$> l) -> NoDup (g <$> replace_or_push (fun b => bool_decide (g b = g a)) a l).
Proof.
  induction l as [|b l IH]; intros Hnd; cbn; [apply NoDup_singleton|].
  rewrite fmap_cons in Hnd. apply NoDup_cons in Hnd as [Hb Hnd].
  case_bool_decide as Hk; rewrite fmap_cons; constructor; [by rewrite <- Hk|done| |by apply IH].
  intros (x & Hx & [->|Hin]%elem_of_replace_or_push)%list_elem_of_fmap; [congruence|].
  apply Hb. rewrite Hx. by apply list_elem_of_fmap_2.
Qed.

Lemma foldl_push_new {A} `{EqDecision A} (l acc : list A) :
  NoDup acc -> NoDup (foldl push_new acc l) /\ forall x, x ∈ foldl push_new acc l <-> x ∈ acc \/ x ∈ l.
Proof.
  revert acc. induction l as [|a l IH]; intros acc Hnd; cbn.
  { split; [done|]. intros x. rewrite elem_of_nil. tauto. }
  unfold push_new at 2 4. case_bool_decide as Ha.
  - destruct (IH acc Hnd) as [H1 H2]. split; [done|]. intros x. rewrite H2, elem_of_cons. naive_solver.
  - destruct (IH (acc ++ [a])%list) as [H1 H2].
    { apply NoDup_app. split_and!; [done| |apply NoDup_singleton]. by intros x Hx ->%list_elem_of_singleton. }
    split; [done|]. intros x. rewrite H2, elem_of_app, list_elem_of_singleton, elem_of_cons. tauto.
Qed.

(** A property every merged element has. *)
Lemma foldl_replace_forall {A} (p : A -> A -> bool) (P : A -> Prop) l acc :
  (forall x, x ∈ acc -> P x) -> (forall x, x ∈ l -> P x) ->
  forall x, x ∈ foldl (fun accs a => replace_or_push (p a) a accs) acc l -> P x.
Proof.
  revert acc. induction l as [|a l IH]; intros acc Hacc Hl x; cbn; [apply Hacc|].
  apply IH; [|intros; apply Hl; by right].
  intros y [->|?]%elem_of_replace_or_push; [apply Hl; by left|by apply Hacc].
Qed.

Lemma take_chars_count n s : (char_count (take_chars n s) <= n)%nat.
Proof.
  revert n. induction s as [|a s IH]; intros n; cbn; [lia|].
  destruct (is_continuation a) eqn:Ha; cbn; [rewrite Ha; apply IH|].
  destruct n as [|n]; cbn; [lia|]. rewrite Ha. specialize (IH n). lia.
Qed.

(** What normalisation guarantees of an account. *)
Definition account_valid (a : ProviderAccount.t) : Prop :=
  (a.(ProviderAccount.agent) = AgentKind.Codex \/ a.(ProviderAccount.agent) = AgentKind.ClaudeCode) /\
  8 <= len a.(ProviderAccount.id) <= 128 /\ all_chars id_char a.(ProviderAccount.id) = true /\
  is_empty a.(ProviderAccount.label) = false /\ (char_count a.(ProviderAccount.label) <= 80)%nat /\
  (a.(ProviderAccount.agent) = AgentKind.Codex ->
     a.(ProviderAccount.auth_mode) <> ProviderAccountAuthMode.OauthToken) /\
  (a.(ProviderAccount.agent) = AgentKind.ClaudeCode -> a.(ProviderAccount.use_credits) = false).

Lemma normalize_account_valid a b : normalize_account a = Some b -> account_valid b.
Proof.
  unfold normalize_account. case_match eqn:Hagent; [done|]. cbv zeta. case_match eqn:Hbad; [done|].
  rewrite !orb_false_iff, negb_false_iff, !Z.ltb_ge in Hbad. destruct Hbad as [[[Hl H8] H128] Hid].
  pose proof (take_chars_count 80 (trim (ProviderAccount.label a))).
  apply negb_false_iff, orb_true_iff in Hagent. rewrite !bool_decide_eq_true in Hagent.
  case_bool_decide as Hc; intros [= <-]; unfold account_valid; cbn; split_and!; try done; try lia.
  - intros _. case_bool_decide; done.
  - by rewrite Hc.
Qed.

Lemma ready_as_spec statuses agent :
  ready_as statuses agent = true <->
  exists st, st ∈ statuses /\ st.(AgentStatus.kind) = agent /\ agent_ready st = true.
Proof.
  unfold ready_as. rewrite existsb_exists. split.
  - intros (st & Hin & [Hk%bool_decide_eq_true Hr]%andb_true_iff). exists st. by rewrite list_elem_of_In.
  - intros (st & Hin & <- & Hr). exists st. rewrite <- list_elem_of_In, Hr, bool_decide_true by done. done.
Qed.

Lemma profiles_distinct (l acc : list AgentTargetProfile.t) :
  NoDup (AgentTargetProfile.agent <$> acc) ->
  NoDup (AgentTargetProfile.agent <$> foldl (fun ps p =>
      replace_or_push (fun existing =>
        bool_decide (existing.(AgentTargetProfile.agent) = p.(AgentTargetProfile.agent))) p ps) acc l).
Proof.
  revert acc. induction l as [|x l IH]; intros acc Hacc; cbn; [done|]. apply IH. by apply replace_or_push_column.
Qed.

Lemma unknown_reset_backoff_spec base strikes :
  0 < base <= 7 * 24 * 60 * 60 -> 1 <= strikes ->
  unknown_reset_backoff base strikes = Z.min (base * 2 ^ Z.min (strikes - 1) 16) 900 /\
  1 <= unknown_reset_backoff base strikes <= 900.
Proof.
  intros Hb Hs. unfold unknown_reset_backoff, MAX_UNKNOWN_RESET_BACKOFF_SECS.
  rewrite (Z.max_l base 1) by lia.
  assert (u64_as_i64 base = base) as -> by (unfold u64_as_i64; rewrite decide_True by lia; done).
  assert (clampZ 0 16 (strikes - 1) = Z.min (strikes - 1) 16) as -> by (unfold clampZ; lia).
  rewrite Z.shiftl_1_l. set (k := Z.min (strikes - 1) 16).
  assert (1 <= 2 ^ k <= 65536) as Hk.
  { split; [apply (Z.pow_le_mono_r 2 0 k); lia|]. change 65536 with (2 ^ 16). apply Z.pow_le_mono_r; lia. }
  assert (1 <= base * 2 ^ k <= 604800 * 65536) as Hp by nia.
  unfold i64_saturating_mul. rewrite clampZ_id by (unfold i64_min, i64_max; lia). lia.
Qed.

Module Properties.

(** the fallback choice is exact: disabled only when switching is off; a
    switch goes to another agent that is ready, the first such agent of the
    preference order or, when that order has none, the first ready one detected;
    waiting means no other agent is ready. *)
Theorem fallback_choice_exact policy current statuses reset_at :
  match decide_fallback policy current statuses reset_at with
  | Disabled => policy.(auto_switch) = false
  | Switch a back =>
      policy.(auto_switch) = true /\ back = policy.(switch_back) /\ a <> current /\ ready_as statuses a = true /\
      ((exists l1 l2, policy.(preferred_order) = (l1 ++ a :: l2)%list /\
          forall x, x ∈ l1 -> x = current \/ ready_as statuses x = false) \/
       (forall x, x ∈ policy.(preferred_order) -> x = current \/ ready_as statuses x = false) /\
       exists l1 st l2, statuses = (l1 ++ st :: l2)%list /\ st.(AgentStatus.kind) = a /\
          forall x, x ∈ l1 -> x.(AgentStatus.kind) = current \/ agent_ready x = false)
  | Wait r =>
      policy.(auto_switch) = true /\ r = reset_at /\
      forall a, a <> current -> ready_as statuses a = false
  end.
Proof.
  unfold decide_fallback. destruct (auto_switch policy) eqn:Hauto; cbn [negb]; [|done].
  destruct (find _ (preferred_order policy)) as [a|] eqn:Hpref.
  - apply find_Some in Hpref as (l1 & l2 & Hl & Ha & Hl1). apply andb_true_iff in Ha as [Hne Hready].
    apply negb_true_iff, bool_decide_eq_false in Hne. split_and!; try done. left. exists l1, l2. split; [done|].
    intros x Hx. apply Hl1, andb_false_iff in Hx as [Hx|Hx]; [left|by right].
    by apply negb_false_iff, bool_decide_eq_true in Hx.
  - rewrite find_None in Hpref.
    assert (forall x, x ∈ preferred_order policy -> x = current \/ ready_as statuses x = false) as Hnone.
    { intros x Hx. apply Hpref, andb_false_iff in Hx as [Hx|Hx]; [left|by right].
      by apply negb_false_iff, bool_decide_eq_true in Hx. }
    destruct (find _ statuses) as [st|] eqn:Hst.
    + apply find_Some in Hst as (l1 & l2 & Hl & Ha & Hl1). apply andb_true_iff in Ha as [Hne Hready].
      apply negb_true_iff, bool_decide_eq_false in Hne. split_and!; try done.
      * apply ready_as_spec. exists st. split_and!; [|done..]. rewrite Hl. apply elem_of_app. right. by left.
      * right. split; [done|]. exists l1, st, l2. split_and!; [done..|].
        intros x Hx. apply Hl1, andb_false_iff in Hx as [Hx|Hx]; [left|by right].
        by apply negb_false_iff, bool_decide_eq_true in Hx.
    + rewrite find_None in Hst. split_and!; [done..|]. intros a Ha. apply not_true_iff_false.
      intros (st & Hin & <- & Hr)%ready_as_spec. specialize (Hst st Hin).
      rewrite Hr, andb_true_r in Hst. by apply negb_false_iff, bool_decide_eq_true in Hst.
Qed.

(** whatever was stored, the normalised policy is usable: a bounded retry
    time, a non-empty preference order without repetition that keeps every listed
    agent, one profile per agent, and only valid accounts. *)
Theorem limit_policy_normalized p :
  let q := normalize_limit_policy p in
  q.(LimitPolicy.unknown_reset_retry_secs) <= 7 * 24 * 60 * 60 /\
  q.(LimitPolicy.agent_priority) <> [] /\ NoDup q.(LimitPolicy.agent_priority) /\
  (forall a, a ∈ p.(LimitPolicy.agent_priority) -> a ∈ q.(LimitPolicy.agent_priority)) /\
  NoDup (AgentTargetProfile.agent <$> q.(LimitPolicy.agent_profiles)) /\
  (forall a, a ∈ q.(LimitPolicy.accounts) -> account_valid a).
Proof.
  cbn [normalize_limit_policy LimitPolicy.unknown_reset_retry_secs LimitPolicy.agent_priority
       LimitPolicy.agent_profiles LimitPolicy.accounts].
  destruct (foldl_push_new (LimitPolicy.agent_priority p) [] (NoDup_nil_2)) as [Hnd Hin].
  set (pr := foldl push_new [] (LimitPolicy.agent_priority p)) in *.
  split_and!; [lia|by destruct pr| | | |].
  - destruct pr; [|done]. apply (bool_decide_unpack _). vm_compute. exact I.
  - intros a Ha. assert (a ∈ pr) as Hpr by (apply Hin; by right).
    destruct pr; [by apply elem_of_nil in Hpr|done].
  - apply profiles_distinct, NoDup_nil_2.
  - apply foldl_replace_forall; [by intros x ?%elem_of_nil|].
    intros x (a & _ & Ha)%list_elem_of_omap. by eapply normalize_account_valid.
Qed.

(** a limit without a reset time backs off exponentially and boundedly: each
    consecutive one adds a strike, the agent is marked limited until
    min(base * 2^(strikes-1), 15 minutes) from now, at least a second, and the
    scheduler's deadline is no later than that. *)
Theorem unknown_limit_backs_off ts policy kind s existing :
  get_agent kind s = (s, Ok existing) ->
  0 < policy.(LimitPolicy.unknown_reset_retry_secs) <= 7 * 24 * 60 * 60 ->
  0 <= from_option AgentRecord.limit_strikes 0 existing ->
  exists s' r d, mark_agent_limited ts policy kind None s = (s', Ok ()) /\
    get_agent kind s' = (s', Ok (Some r)) /\
    r.(AgentRecord.availability) = AvailabilityState.Limited /\
    r.(AgentRecord.limit_strikes) = from_option AgentRecord.limit_strikes 0 existing + 1 /\
    (let b := Z.min (policy.(LimitPolicy.unknown_reset_retry_secs) *
                     2 ^ Z.min (r.(AgentRecord.limit_strikes) - 1) 16) 900 in
     1 <= b <= 900 /\ r.(AgentRecord.reset_at) = Some (ts + 1000 * b) /\
     s'.(next_reset_deadline) = Some d /\ d <= ts + 1000 * b).
Proof.
  intros Hget Hbase Hstrikes. set (n := from_option AgentRecord.limit_strikes 0 existing) in *.
  destruct (unknown_reset_backoff_spec (LimitPolicy.unknown_reset_retry_secs policy) (n + 1)) as [Hb Hbounds];
    [done|lia|].
  unfold mark_agent_limited. rewrite M_bind_unfold, M_bind_unfold, Hget. cbn [mret M_ret]. fold n.
  rewrite (proj2 (Z.ltb_lt _ _)) by lia. cbv iota beta.
  rewrite M_bind_unfold. unfold mark_limited. rewrite M_bind_unfold, Hget.
  set (r := AgentRecord.mk kind _ _ _ _ _ _).
  destruct (upsert_spec r s) as (s1 & Hup & Hget1 & Hdl & Hus). rewrite Hup.
  unfold note_limit_reset_deadline. rewrite M_bind_unfold. cbn [modify].
  set (x := ts + 1000 * unknown_reset_backoff (LimitPolicy.unknown_reset_retry_secs policy) (n + 1)) in *.
  eexists _, r, (match s1.(next_reset_deadline) with
                 | Some cur => if cur <=? x then cur else x
                 | None => x
                 end). split; [done|]. split.
  { unfold wake_scheduler, modify. cbn. unfold get_agent in *. rewrite M_bind_unfold in *. cbn in *.
    injection Hget1 as ->. done. }
  split; [done|]. split; [done|]. replace (AgentRecord.limit_strikes r) with (n + 1) by done. rewrite <- Hb.
  split; [lia|]. split; [done|]. split.
  - cbn. destruct (next_reset_deadline s1) as [cur|]; [|done]. by destruct (cur <=? x).
  - fold x. destruct (next_reset_deadline s1) as [cur|]; [|lia]. destruct (Z.leb_spec cur x); lia.
Qed.

Definition no_agents : LimitState := mkLimits [] ∅ None 0.
Definition stock_policy : LimitPolicy.t :=
  LimitPolicy.mk true true [AgentKind.ClaudeCode; AgentKind.Codex] [] [] [] true 600 true.

Lemma unknown_limit_backs_off_witness :
  exists s' r, mark_agent_limited 0 stock_policy AgentKind.Codex None no_agents = (s', Ok ()) /\
    get_agent AgentKind.Codex s' = (s', Ok (Some r)) /\ r.(AgentRecord.reset_at) = Some 600000.
Proof.
  destruct (unknown_limit_backs_off 0 stock_policy AgentKind.Codex no_agents None) as
    (s' & r & d & H1 & H2 & _ & Hst & _ & Hr & _); [reflexivity|cbn; lia|cbn; lia|].
  exists s', r. split; [exact H1|]. split; [exact H2|]. rewrite Hr, Hst. reflexivity.
Defined.

(** probing an agent never lifts a limit early: while a recorded limit's
    reset lies in the future the probe keeps the limit, its reset time and its
    strikes; otherwise the agent becomes available or unknown as detected and the
    backoff starts afresh. *)
Theorem probe_respects_limit ts detected s existing :
  get_agent detected.(d_kind) s = (s, Ok existing) ->
  let live := is_some_and existing (fun record =>
    bool_decide (record.(AgentRecord.availability) = AvailabilityState.Limited) &&
    is_some_and record.(AgentRecord.reset_at) (fun reset_at => ts <? reset_at)) in
  exists s' status r, record_agent_probe ts detected s = (s', Ok status) /\
    get_agent detected.(d_kind) s' = (s', Ok (Some r)) /\
    status.(AgentStatus.availability) = r.(AgentRecord.availability) /\
    status.(AgentStatus.reset_at) = r.(AgentRecord.reset_at) /\
    if live then
      r.(AgentRecord.availability) = AvailabilityState.Limited /\
      Some r.(AgentRecord.reset_at) = (AgentRecord.reset_at <$> existing) /\
      Some r.(AgentRecord.limit_strikes) = (AgentRecord.limit_strikes <$> existing)
    else
      r.(AgentRecord.availability) =
        (if detected.(d_installed) && detected.(d_authenticated) then AvailabilityState.Available
         else AvailabilityState.Unknown) /\
      r.(AgentRecord.reset_at) = None /\ r.(AgentRecord.limit_strikes) = 0.
Proof.
  intros Hget live. unfold record_agent_probe. rewrite M_bind_unfold, Hget. fold live.
  rewrite M_bind_unfold. set (r := AgentRecord.mk _ _ _ _ _ _ _).
  destruct (upsert_spec r s) as (s1 & -> & Hget1 & _). rewrite M_bind_unfold. cbn [gets].
  eexists s1, _, r. split; [done|]. split; [done|]. split; [done|]. split; [done|].
  unfold r. destruct live eqn:Hlive; cbn; [|done].
  destruct existing as [e|]; [|done]. done.
Qed.

Lemma probe_respects_limit_witness :
  let row := AgentRow.mk "codex" "installed" None "limited" (Some 100) None 3 in
  let s := mkLimits [row] ∅ None 0 in
  exists s' status, record_agent_probe 50 (mkDetected AgentKind.Codex true true None None) s = (s', Ok status) /\
    status.(AgentStatus.availability) = AvailabilityState.Limited.
Proof.
  intros row s.
  destruct (probe_respects_limit 50 (mkDetected AgentKind.Codex true true None None) s _ eq_refl)
    as (s' & st & r & H1 & _ & H2 & _ & H3).
  exists s', st. split; [exact H1|]. rewrite H2. cbn in H3. apply H3.
Defined.

(** the scheduler never oversleeps a reset: after noting any deadlines, its
    next sleep is at most the safety interval and ends at most half a second
    after each noted reset that still lies ahead. *)
Theorem scheduler_wakes_by_reset resets ts s :
  let s' := final (for_each note_limit_reset_deadline resets) s in
  let '(delay, _) := next_scheduler_delay ts s'.(next_reset_deadline) in
  0 <= delay <= SCHEDULER_INTERVAL /\
  forall r, r ∈ resets -> ts <= r -> ts + delay <= r + 500.
Proof.
  cbn zeta.
  assert (forall resets s, exists d, (resets = [] \/ d <> None) /\
    (final (for_each note_limit_reset_deadline resets) s).(next_reset_deadline) = d /\
    forall x, d = Some x -> (forall r, r ∈ resets -> x <= r) /\
      (forall c, s.(next_reset_deadline) = Some c -> x <= c)) as Hmin.
  { clear. induction resets as [|r rs IH]; intros s; cbn [for_each].
    - eexists. split_and!; [by left|done|]. intros x Hx. split; [by intros r ?%elem_of_nil|].
      intros c Hc. cbn in Hx. rewrite Hc in Hx. injection Hx as ->. lia.
    - unfold final. rewrite M_bind_unfold.
      set (s1 := final (note_limit_reset_deadline r) s).
      assert (note_limit_reset_deadline r s = (s1, Ok ())) as -> by done.
      destruct (IH s1) as (d & Hd & Hfin & Hle). exists d.
      assert (exists x1, s1.(next_reset_deadline) = Some x1 /\ x1 <= r /\
                forall c, s.(next_reset_deadline) = Some c -> x1 <= c) as (x1 & Hx1 & Hx1r & Hx1c).
      { exists (match s.(next_reset_deadline) with
                | Some c => if c <=? r then c else r
                | None => r
                end).
        assert (next_reset_deadline s1 = match next_reset_deadline s with
                  | Some c => if c <=? r then Some c else Some r
                  | None => Some r
                  end) as -> by reflexivity.
        split; [destruct (next_reset_deadline s) as [c|]; [by destruct (c <=? r)|done]|].
        destruct (next_reset_deadline s) as [c|]; [|split; [lia|done]].
        split; [|intros ? [= <-]]; destruct (Z.leb_spec c r); lia. }
      split_and!; [right|done|].
      + destruct Hd as [->|Hd]; [|done]. rewrite <- Hfin. cbn. by rewrite Hx1.
      + intros x ->. destruct (Hle x eq_refl) as [Hrs Hc]. specialize (Hc x1 Hx1). split.
        * intros r' [->|Hr']%elem_of_cons; [lia|by apply Hrs].
        * intros c Hsc. specialize (Hx1c c Hsc). lia. }
  destruct (Hmin resets s) as (d & Hd & -> & Hle). unfold next_scheduler_delay, SCHEDULER_INTERVAL.
  destruct d as [x|].
  - destruct (Hle x eq_refl) as [Hrs _]. destruct (Z.leb_spec 0 (x - ts)); split; try lia;
      intros r Hr Hts; specialize (Hrs r Hr); lia.
  - destruct Hd as [->|Hd]; [|done]. split; [lia|]. by intros r ?%elem_of_nil.
Qed.

End Properties.

(** *** A normalised pool can still name one account twice

    Merging into the first entry that matches by id or by being the provider's
    system sign-in can leave a second entry with the same id. *)
Definition account (id : string) (mode : ProviderAccountAuthMode.t) : ProviderAccount.t :=
  ProviderAccount.mk id "label" AgentKind.Codex true false mode.

Lemma normalized_ids_can_repeat :
  ProviderAccount.id <$> LimitPolicy.accounts (normalize_limit_policy
    (LimitPolicy.mk true true [] []
       [account "system-1" ProviderAccountAuthMode.System; account "account-x" ProviderAccountAuthMode.IsolatedCli;
        account "account-x" ProviderAccountAuthMode.System] [] true 600 true)) =
  ["account-x"; "account-x"].
Proof. vm_compute. reflexivity. Qed.
