(* ===== verification/QueuedTurns.v ===== *)
(** * Queued turns (crates/am-db/src/repos/queued_turn.rs)

    Messages a user sends while a thread is busy wait in the [queued_turns]
    table.  Their position is their [created_at] (a count of nanoseconds), ties
    broken by id; a finished session claims the next one with one
    select-and-delete statement. *)
From Stdlib Require Import Ascii String.
From S2P Require Import Prelude RustStr Enums Records WorkGraphDb WorkGraphInv Limits.
#[local] Open Scope string_scope.
#[local] Open Scope Z_scope.

Module QueuedTurnRow.
Record t := mk {
  id : string;
  thread_id : string;
  agent_kind : string;
  permission : string;
  message : string;
  echo_user_message : Z;
  client_message_id : option string;
  policy_envelope_id : option string;
  created_at : Z
}.

Definition set_message (m : string) (r : t) : t :=
  mk r.(id) r.(thread_id) r.(agent_kind) r.(permission) m r.(echo_user_message) r.(client_message_id)
    r.(policy_envelope_id) r.(created_at).
Definition set_created_at (ts : Z) (r : t) : t :=
  mk r.(id) r.(thread_id) r.(agent_kind) r.(permission) r.(message) r.(echo_user_message) r.(client_message_id)
    r.(policy_envelope_id) ts.
End QueuedTurnRow.

Abbreviation Row := QueuedTurnRow.t.

Definition queued_turn_try_from (r : Row) : result DbError QueuedTurn.t :=
  agent_kind ← decode (T:=AgentKind.t) r.(QueuedTurnRow.agent_kind);
  mret (QueuedTurn.mk r.(QueuedTurnRow.id) r.(QueuedTurnRow.thread_id) agent_kind r.(QueuedTurnRow.permission)
    r.(QueuedTurnRow.message) (negb (r.(QueuedTurnRow.echo_user_message) =? 0))
    r.(QueuedTurnRow.client_message_id) r.(QueuedTurnRow.policy_envelope_id) r.(QueuedTurnRow.created_at)).

(** The table and the keys its foreign keys refer to. *)
Record Queue := mkQueue {
  threads : gset string;
  envelopes : gset string;
  turns : list Row
}.

Definition set_turns (f : list Row -> list Row) (q : Queue) : Queue := mkQueue q.(threads) q.(envelopes) (f q.(turns)).

Abbreviation QueueM := (M Queue DbError).

Definition turn_row (turn : QueuedTurn.t) : Row :=
  QueuedTurnRow.mk turn.(QueuedTurn.id) turn.(QueuedTurn.thread_id) (AgentKind.as_str turn.(QueuedTurn.agent_kind))
    turn.(QueuedTurn.permission) turn.(QueuedTurn.message) (if turn.(QueuedTurn.echo_user_message) then 1 else 0)
    turn.(QueuedTurn.client_message_id) turn.(QueuedTurn.policy_envelope_id) turn.(QueuedTurn.created_at).

(** [now()] and [new_id()] are the arguments [ts] and [id]. *)
Definition enqueue_with_echo (ts : Z) (id thread_id : string) (agent_kind : AgentKind.t) (permission message : string)
  (policy_envelope_id : option string) (echo_user_message : bool) (client_message_id : option string) :
  QueueM QueuedTurn.t :=
  let turn := QueuedTurn.mk id thread_id agent_kind permission message echo_user_message
                (clean_optional client_message_id) policy_envelope_id ts in
  q ← get;
  _ ← fail_when (existsb (fun r => eq_str r.(QueuedTurnRow.id) id) q.(turns)) Sqlx;
  _ ← fail_when (negb (bool_decide (thread_id ∈ q.(threads)))) Sqlx;
  _ ← fail_when (negb (is_none_or policy_envelope_id (fun e => bool_decide (e ∈ q.(envelopes))))) Sqlx;
  _ ← modify (set_turns (fun rows => (rows ++ [turn_row turn])%list));
  mret turn.

Definition enqueue (ts : Z) (id thread_id : string) (agent_kind : AgentKind.t) (permission message : string)
  (policy_envelope_id : option string) : QueueM QueuedTurn.t :=
  enqueue_with_echo ts id thread_id agent_kind permission message policy_envelope_id true None.

(** [ORDER BY created_at ASC, id ASC]. *)
Definition turn_order (a b : Row) : bool :=
  (a.(QueuedTurnRow.created_at) <? b.(QueuedTurnRow.created_at)) ||
  ((a.(QueuedTurnRow.created_at) =? b.(QueuedTurnRow.created_at)) &&
   String.leb a.(QueuedTurnRow.id) b.(QueuedTurnRow.id)).

Definition of_thread (thread_id : string) (rows : list Row) : list Row :=
  filter (fun r => r.(QueuedTurnRow.thread_id) = thread_id) rows.

Definition queue_rows (thread_id : string) (q : Queue) : list Row := sort_by turn_order (of_thread thread_id q.(turns)).

Definition list_for_thread (thread_id : string) : QueueM (list QueuedTurn.t) :=
  rows ← gets (queue_rows thread_id);
  lift (collect (queued_turn_try_from <$> rows)).

(** One statement: the subquery picks the id, the deletion returns its row. *)
Definition pop_next (thread_id : string) : QueueM (option QueuedTurn.t) :=
  q ← get;
  match queue_rows thread_id q with
  | [] => mret None
  | first :: _ =>
      let id := first.(QueuedTurnRow.id) in
      let row := find (fun r => eq_str r.(QueuedTurnRow.id) id) q.(turns) in
      _ ← modify (set_turns (filter (fun r => r.(QueuedTurnRow.id) <> id)));
      lift (transpose (queued_turn_try_from <$> row))
  end.

Definition update_message (id message : string) : QueueM () :=
  modify (set_turns (update_where (fun r => eq_str r.(QueuedTurnRow.id) id) (QueuedTurnRow.set_message message))).

Definition MILLISECOND : Z := 1000000.

(** The loop of [reorder]: one [UPDATE] per id, all in one transaction. *)
Fixpoint restamp_all (thread_id : string) (base : Z) (ordered_ids : list string) (rows : list Row) : list Row :=
  match ordered_ids with
  | [] => rows
  | id :: rest =>
      restamp_all thread_id (base + MILLISECOND) rest
        (update_where (fun r => eq_str r.(QueuedTurnRow.id) id && eq_str r.(QueuedTurnRow.thread_id) thread_id)
           (QueuedTurnRow.set_created_at base) rows)
  end.

Definition reorder (ts : Z) (thread_id : string) (ordered_ids : list string) : QueueM () :=
  modify (set_turns (restamp_all thread_id ts ordered_ids)).

Definition delete_turn (id : string) : QueueM () :=
  modify (set_turns (filter (fun r => r.(QueuedTurnRow.id) <> id))).

(** Claiming turns one after the other. *)
Fixpoint pop_many (thread_id : string) (n : nat) : QueueM (list (option QueuedTurn.t)) :=
  match n with
  | O => mret []
  | S n => turn ← pop_next thread_id; rest ← pop_many thread_id n; mret (turn :: rest)
  end.

(** ** Invariant *)

Record queue_ok (q : Queue) : Prop := {
  turn_ids : NoDup (QueuedTurnRow.id <$> q.(turns));
  turn_agents : forall r, r ∈ q.(turns) -> is_ok (queued_turn_try_from r) = true;
  turn_threads : forall r, r ∈ q.(turns) -> r.(QueuedTurnRow.thread_id) ∈ q.(threads)
}.

(** ** The order of a queue *)

#[global] Instance turn_order_total : Total (le_of turn_order).
Proof.
  intros a b. unfold le_of, turn_order. rewrite !orb_true_iff, !andb_true_iff, !Z.ltb_lt, !Z.eqb_eq.
  destruct (String.leb_total a.(QueuedTurnRow.id) b.(QueuedTurnRow.id)) as [->| ->];
    destruct (Z.lt_total a.(QueuedTurnRow.created_at) b.(QueuedTurnRow.created_at)) as [?|[?|?]]; auto.
Qed.

#[global] Instance turn_order_trans : Transitive (le_of turn_order).
Proof.
  intros a b c. unfold le_of, turn_order. rewrite !orb_true_iff, !andb_true_iff, !Z.ltb_lt, !Z.eqb_eq.
  intros [?|[-> H1]] [?|[? H2]]; [left; lia|left; lia|by left|]. right. split; [done|].
  apply Is_true_true. apply (transitivity (R:=String.le) (y:=b.(QueuedTurnRow.id))); by apply Is_true_true.
Qed.

Lemma turn_order_antisym a b :
  turn_order a b = true -> turn_order b a = true -> a.(QueuedTurnRow.id) = b.(QueuedTurnRow.id).
Proof.
  unfold turn_order. rewrite !orb_true_iff, !andb_true_iff, !Z.ltb_lt, !Z.eqb_eq.
  intros [?|[? H1]] [?|[? H2]]; try lia. by apply String.leb_antisym.
Qed.

(** With distinct ids a queue has exactly one order. *)
Lemma queue_order_unique rows k :
  NoDup (QueuedTurnRow.id <$> rows) -> k ≡ₚ rows -> StronglySorted (le_of turn_order) k -> sort_by turn_order rows = k.
Proof.
  intros Hnd Hp Hs. apply (StronglySorted_unique_strong (le_of turn_order)); [| |done|].
  - intros x y Hx Hy Hxy Hyx. rewrite sort_by_perm in Hx. rewrite Hp in Hy.
    by apply (NoDup_column_inj _ _ _ _ Hnd Hx Hy), turn_order_antisym.
  - apply sort_by_sorted; apply _.
  - by rewrite sort_by_perm.
Qed.

Lemma queue_sorted tid q : StronglySorted (le_of turn_order) (queue_rows tid q).
Proof. apply sort_by_sorted; apply _. Qed.

Lemma elem_of_queue tid q r : r ∈ queue_rows tid q <-> r ∈ q.(turns) /\ r.(QueuedTurnRow.thread_id) = tid.
Proof. unfold queue_rows, of_thread. rewrite sort_by_perm, list_elem_of_filter. tauto. Qed.

Lemma queue_ids tid q : NoDup (QueuedTurnRow.id <$> q.(turns)) -> NoDup (QueuedTurnRow.id <$> queue_rows tid q).
Proof. intros H. unfold queue_rows, of_thread. rewrite sort_by_perm. by apply NoDup_filter_column. Qed.

(** What the service sees of a decodable row. *)
Definition turn_of (r : Row) : QueuedTurn.t :=
  QueuedTurn.mk r.(QueuedTurnRow.id) r.(QueuedTurnRow.thread_id)
    (default AgentKind.ClaudeCode (AgentKind.parse r.(QueuedTurnRow.agent_kind)))
    r.(QueuedTurnRow.permission) r.(QueuedTurnRow.message) (negb (r.(QueuedTurnRow.echo_user_message) =? 0))
    r.(QueuedTurnRow.client_message_id) r.(QueuedTurnRow.policy_envelope_id) r.(QueuedTurnRow.created_at).

Lemma queued_turn_ok r : is_ok (queued_turn_try_from r) = true -> queued_turn_try_from r = Ok (turn_of r).
Proof.
  unfold queued_turn_try_from, turn_of, decode.
  change (unwire (T:=AgentKind.t) r.(QueuedTurnRow.agent_kind)) with (AgentKind.parse r.(QueuedTurnRow.agent_kind)).
  by destruct (AgentKind.parse r.(QueuedTurnRow.agent_kind)).
Qed.

Lemma list_for_thread_spec tid q :
  queue_ok q -> list_for_thread tid q = (q, Ok (turn_of <$> queue_rows tid q)).
Proof.
  intros Hq. unfold list_for_thread. rewrite M_bind_unfold. cbn [gets]. unfold lift. f_equal.
  apply collect_map_Ok. intros r [Hr _]%elem_of_queue. by apply queued_turn_ok, Hq.
Qed.

(** Deleting the head of a queue leaves its tail, and the other queues. *)
Lemma queue_rows_delete tid' id q :
  NoDup (QueuedTurnRow.id <$> q.(turns)) ->
  queue_rows tid' (set_turns (filter (fun r => r.(QueuedTurnRow.id) <> id)) q) =
  filter (fun r => r.(QueuedTurnRow.id) <> id) (queue_rows tid' q).
Proof.
  intros Hnd. apply queue_order_unique.
  - cbn. by apply NoDup_filter_column, NoDup_filter_column.
  - unfold queue_rows, of_thread, set_turns; cbn. rewrite sort_by_perm.
    rewrite !list_filter_filter. apply reflexive_eq, list_filter_iff. naive_solver.
  - apply StronglySorted_filter_keep, queue_sorted.
Qed.

Lemma queue_ok_delete id q : queue_ok q -> queue_ok (set_turns (filter (fun r => r.(QueuedTurnRow.id) <> id)) q).
Proof.
  intros [H1 H2 H3]. split; cbn.
  - by apply NoDup_filter_column.
  - intros r [_ ?]%list_elem_of_filter. auto.
  - intros r [_ ?]%list_elem_of_filter. auto.
Qed.

Lemma find_row q r :
  NoDup (QueuedTurnRow.id <$> q.(turns)) -> r ∈ q.(turns) ->
  find (fun x => eq_str x.(QueuedTurnRow.id) r.(QueuedTurnRow.id)) q.(turns) = Some r.
Proof.
  intros Hnd Hr. destruct (find _ _) as [x|] eqn:Hf.
  - apply find_Some_elem in Hf as [Hx Heq%eq_str_true]. f_equal. by apply (NoDup_column_inj _ _ _ _ Hnd).
  - pose proof (proj1 (find_None _ _) Hf r Hr) as Hn. cbn in Hn. by rewrite (proj2 (eq_str_true _ _)) in Hn.
Qed.

Lemma pop_next_spec tid q :
  queue_ok q ->
  pop_next tid q =
  match queue_rows tid q with
  | [] => (q, Ok None)
  | first :: _ => (set_turns (filter (fun r => r.(QueuedTurnRow.id) <> first.(QueuedTurnRow.id))) q, Ok (Some (turn_of first)))
  end.
Proof.
  intros Hq. unfold pop_next. rewrite M_bind_unfold. cbn [get].
  destruct (queue_rows tid q) as [|first k] eqn:Hk; [done|].
  assert (first ∈ queue_rows tid q) as [Hin _]%elem_of_queue by (rewrite Hk; by left).
  rewrite (find_row q first) by (done || apply Hq). rewrite M_bind_unfold. cbn [modify].
  unfold lift. cbn [fmap option_fmap option_map]. by rewrite queued_turn_ok by (by apply Hq).
Qed.

Lemma filter_head_tail (first : Row) k :
  NoDup (QueuedTurnRow.id <$> first :: k) ->
  filter (fun r => r.(QueuedTurnRow.id) <> first.(QueuedTurnRow.id)) (first :: k) = k.
Proof.
  rewrite fmap_cons. intros [Hf _]%NoDup_cons. rewrite filter_cons_False by tauto. apply filter_all.
  intros r Hr Heq. apply Hf. rewrite <- Heq. by apply list_elem_of_fmap_2.
Qed.

Lemma filter_other_queue tid tid' (first : Row) q :
  NoDup (QueuedTurnRow.id <$> q.(turns)) -> first ∈ queue_rows tid q -> tid' <> tid ->
  filter (fun r => r.(QueuedTurnRow.id) <> first.(QueuedTurnRow.id)) (queue_rows tid' q) = queue_rows tid' q.
Proof.
  intros Hnd [Hf Ht]%elem_of_queue Hne. apply filter_all.
  intros r [Hr Hrt]%elem_of_queue Heq. apply Hne. rewrite <- Hrt, <- Ht. f_equal. by apply (NoDup_column_inj _ _ _ _ Hnd).
Qed.

Lemma pop_many_spec tid rows q :
  queue_ok q -> queue_rows tid q = rows ->
  value (pop_many tid (S (length rows))) q = Ok ((Some <$> (turn_of <$> rows)) ++ [None])%list /\
  queue_rows tid (final (pop_many tid (S (length rows))) q) = [] /\
  forall tid', tid' <> tid -> queue_rows tid' (final (pop_many tid (S (length rows))) q) = queue_rows tid' q.
Proof.
  revert q. induction rows as [|first k IH]; intros q Hq Hrows.
  - unfold value, final. cbn [length pop_many]. rewrite M_bind_unfold, pop_next_spec, Hrows by done. done.
  - assert (first ∈ queue_rows tid q) as Hin by (rewrite Hrows; by left).
    pose proof (queue_ids tid q (turn_ids q Hq)) as Hnd.
    set (q' := set_turns (filter (fun r => r.(QueuedTurnRow.id) <> first.(QueuedTurnRow.id))) q).
    assert (queue_ok q') as Hq' by (by apply queue_ok_delete).
    assert (queue_rows tid q' = k) as Hk.
    { unfold q'. rewrite queue_rows_delete, Hrows by apply Hq. apply filter_head_tail. by rewrite <- Hrows. }
    destruct (IH q' Hq' Hk) as (H1 & H2 & H3). unfold value, final in *.
    change (length (first :: k)) with (S (length k)). cbn [pop_many].
    rewrite M_bind_unfold, pop_next_spec, Hrows by done. fold q'.
    change (turn ← pop_next tid; rest ← pop_many tid (length k); mret (turn :: rest)) with (pop_many tid (S (length k))).
    rewrite M_bind_unfold. destruct (pop_many tid (S (length k)) q') as [q2 r2]. cbn [fst snd] in *. subst r2.
    split_and!; [done|done|]. intros tid' Hne. cbn. rewrite H3 by done. unfold q'.
    rewrite queue_rows_delete by apply Hq. by apply filter_other_queue with tid; [apply Hq|..].
Qed.

(** ** Reordering *)

Fixpoint restamp (thread_id : string) (base : Z) (ordered_ids : list string) (r : Row) : Row :=
  match ordered_ids with
  | [] => r
  | id :: rest =>
      restamp thread_id (base + MILLISECOND) rest
        (if eq_str r.(QueuedTurnRow.id) id && eq_str r.(QueuedTurnRow.thread_id) thread_id
         then QueuedTurnRow.set_created_at base r else r)
  end.

Lemma restamp_all_fmap tid base ids rows : restamp_all tid base ids rows = restamp tid base ids <$> rows.
Proof.
  revert base rows. induction ids as [|id ids IH]; intros base rows; cbn.
  - symmetry. apply list_fmap_id.
  - rewrite IH. unfold update_where. by rewrite <- list_fmap_compose.
Qed.

(** Only the stamp of a row can change. *)
Lemma restamp_row tid base ids r : exists ts, restamp tid base ids r = QueuedTurnRow.set_created_at ts r.
Proof.
  revert base r. induction ids as [|id ids IH]; intros base r; cbn; [by exists r.(QueuedTurnRow.created_at); destruct r|].
  case_match; [|apply IH]. destruct (IH (base + MILLISECOND) (QueuedTurnRow.set_created_at base r)) as [ts ->].
  by exists ts.
Qed.

Lemma restamp_absent tid base ids r :
  r.(QueuedTurnRow.id) ∉ ids \/ r.(QueuedTurnRow.thread_id) <> tid -> restamp tid base ids r = r.
Proof.
  intros H. revert base. induction ids as [|id ids IH]; intros base; cbn; [done|].
  destruct (eq_str r.(QueuedTurnRow.id) id && _) eqn:He.
  - apply andb_true_iff in He as [H1%eq_str_true H2%eq_str_true]. destruct H as [H|H]; [|done].
    destruct H. rewrite H1. by left.
  - apply IH. destruct H as [H|H]; [left|by right]. intros Hin. apply H. by right.
Qed.

Lemma restamp_at tid base ids r j :
  NoDup ids -> r.(QueuedTurnRow.thread_id) = tid -> ids !! j = Some r.(QueuedTurnRow.id) ->
  (restamp tid base ids r).(QueuedTurnRow.created_at) = base + Z.of_nat j * MILLISECOND.
Proof.
  revert base j. induction ids as [|id ids IH]; intros base j Hnd Ht Hj; [done|].
  apply NoDup_cons in Hnd as [Hf Hnd]. destruct j as [|j]; cbn in Hj |- *.
  - injection Hj as Hid. rewrite (proj2 (eq_str_true _ _)), (proj2 (eq_str_true _ _)) by done. cbn [andb].
    rewrite restamp_absent by (left; cbn; by rewrite <- Hid). cbn. lia.
  - replace (eq_str r.(QueuedTurnRow.id) id) with false. 2:{ symmetry. apply bool_decide_eq_false. intros He.
      apply Hf. rewrite <- He. by eapply list_elem_of_lookup_2. }
    cbn [andb]. rewrite (IH _ j) by done. lia.
Qed.

Lemma reorder_turns ts tid ids q : (final (reorder ts tid ids) q).(turns) = restamp tid ts ids <$> q.(turns).
Proof. apply restamp_all_fmap. Qed.

Lemma queue_ok_reorder ts tid ids q : queue_ok q -> queue_ok (final (reorder ts tid ids) q).
Proof.
  intros [H1 H2 H3]. split; rewrite ?reorder_turns; cbn.
  - rewrite <- list_fmap_compose. erewrite list_fmap_ext; [exact H1|]. intros i r _. cbn.
    by destruct (restamp_row tid ts ids r) as [? ->].
  - intros x (r & -> & Hr)%list_elem_of_fmap. destruct (restamp_row tid ts ids r) as [t ->].
    specialize (H2 r Hr). unfold queued_turn_try_from in *. cbn in *. by destruct (decode _).
  - intros x (r & -> & Hr)%list_elem_of_fmap. destruct (restamp_row tid ts ids r) as [t ->]. cbn. auto.
Qed.

Lemma of_thread_restamp tid' tid ts ids rows :
  of_thread tid' (restamp tid ts ids <$> rows) = restamp tid ts ids <$> of_thread tid' rows.
Proof.
  unfold of_thread. induction rows as [|r rows IH]; [done|]. rewrite fmap_cons.
  assert ((restamp tid ts ids r).(QueuedTurnRow.thread_id) = r.(QueuedTurnRow.thread_id)) as Ht
    by (by destruct (restamp_row tid ts ids r) as [t ->]).
  destruct (decide (r.(QueuedTurnRow.thread_id) = tid')).
  - rewrite !filter_cons_True by congruence. by rewrite fmap_cons, IH.
  - by rewrite !filter_cons_False by congruence.
Qed.

Lemma reorder_rows_other ts tid tid' ids q :
  tid' <> tid -> queue_rows tid' (final (reorder ts tid ids) q) = queue_rows tid' q.
Proof.
  intros Hne. unfold queue_rows. rewrite reorder_turns, of_thread_restamp. f_equal.
  transitivity (id <$> of_thread tid' q.(turns)); [|apply list_fmap_id]. apply list_fmap_ext. intros i r Hr%list_elem_of_lookup_2.
  apply list_elem_of_filter in Hr as [Hr _]. apply (restamp_absent tid ts ids r). right. by rewrite Hr.
Qed.

(** The sorted stamps are the requested positions. *)
Lemma reorder_rows ts tid ids q :
  queue_ok q -> (QueuedTurnRow.id <$> queue_rows tid q) ≡ₚ ids ->
  QueuedTurnRow.id <$> queue_rows tid (final (reorder ts tid ids) q) = ids.
Proof.
  intros Hq Hp. assert (NoDup ids) as Hnd by (rewrite <- Hp; apply queue_ids, Hq).
  set (pos := fun s => default 0%nat (fst <$> list_find (s =.) ids)).
  assert (forall r, r ∈ queue_rows tid (final (reorder ts tid ids) q) ->
    r.(QueuedTurnRow.id) ∈ ids /\ r.(QueuedTurnRow.created_at) = ts + Z.of_nat (pos r.(QueuedTurnRow.id)) * MILLISECOND) as Hpos.
  { intros r [Hr Ht]%elem_of_queue. rewrite reorder_turns in Hr.
    apply list_elem_of_fmap in Hr as (r0 & -> & Hr0). destruct (restamp_row tid ts ids r0) as [t Ht0].
    rewrite Ht0 in Ht. cbn in Ht.
    assert (r0.(QueuedTurnRow.id) ∈ ids) as Hin.
    { rewrite <- Hp. by apply list_elem_of_fmap_2, elem_of_queue. }
    rewrite Ht0. cbn. split; [done|]. change t with (QueuedTurnRow.set_created_at t r0).(QueuedTurnRow.created_at).
    rewrite <- Ht0. apply restamp_at; [done..|]. unfold pos.
    destruct (list_find (r0.(QueuedTurnRow.id) =.) ids) as [[j x]|] eqn:Hf.
    - apply list_find_Some in Hf as (Hj & Hx & _). cbn. by rewrite Hj, Hx.
    - apply list_find_None in Hf. rewrite Forall_forall in Hf. by destruct (Hf _ Hin). }
  assert (forall i s, ids !! i = Some s -> pos s = i) as Hidx.
  { intros i s Hi. unfold pos. destruct (list_find (s =.) ids) as [[j x]|] eqn:Hf; cbn.
    - apply list_find_Some in Hf as (Hj & <- & _). by eapply NoDup_lookup.
    - apply list_find_None in Hf. rewrite Forall_forall in Hf. apply list_elem_of_lookup_2 in Hi. by destruct (Hf _ Hi). }
  set (k := queue_rows tid (final (reorder ts tid ids) q)) in *.
  assert (QueuedTurnRow.id <$> k ≡ₚ ids) as Hk.
  { rewrite <- Hp. unfold k, queue_rows. rewrite !sort_by_perm.
    rewrite reorder_turns, of_thread_restamp, <- list_fmap_compose. apply reflexive_eq, list_fmap_ext.
    intros i r _. cbn. by destruct (restamp_row tid ts ids r) as [? ->]. }
  apply (StronglySorted_unique_strong (fun a b => (pos a <= pos b)%nat)); [| | |done].
  - intros a b Ha Hb Hab Hba. rewrite Hk in Ha. apply list_elem_of_lookup in Ha as [i Hi], Hb as [j Hj].
    rewrite (Hidx i a Hi), (Hidx j b Hj) in *. assert (i = j) as -> by lia. congruence.
  - pose proof (queue_sorted tid (final (reorder ts tid ids) q)) as Hs. fold k in Hs. clear Hk.
    induction Hs as [|r l Hs IH Hall]; [constructor|]. rewrite fmap_cons. constructor.
    + apply IH. intros x Hx. apply Hpos. by right.
    + apply Forall_fmap, Forall_forall. intros x Hx. cbn. rewrite Forall_forall in Hall. specialize (Hall x Hx).
      destruct (Hpos r ltac:(by left)) as [_ H1], (Hpos x ltac:(by right)) as [_ H2].
      unfold le_of, turn_order in Hall. rewrite orb_true_iff, andb_true_iff, Z.ltb_lt, Z.eqb_eq, H1, H2 in Hall.
      unfold MILLISECOND in Hall. lia.
  - clear - Hidx. assert (forall n l, drop n ids = l -> StronglySorted (fun a b => (pos a <= pos b)%nat) l) as H.
    { intros n l. revert n. induction l as [|a l IH]; intros n Hn; [constructor|]. constructor.
      - apply (IH (S n)). replace (S n) with (n + 1)%nat by lia. by rewrite <- drop_drop, Hn.
      - apply Forall_forall. intros x [j Hj]%list_elem_of_lookup.
        rewrite (Hidx n a), (Hidx (n + S j)%nat x); [lia| |].
        + by rewrite <- lookup_drop, Hn.
        + by rewrite <- (Nat.add_0_r n), <- lookup_drop, Hn. }
    by apply (H 0%nat).
Qed.

(** A turn queued later than every waiting one goes last. *)
Lemma enqueue_last ts id tid agent permission message envelope echo client q :
  queue_ok q -> id ∉ QueuedTurnRow.id <$> q.(turns) -> tid ∈ q.(threads) ->
  (forall e, envelope = Some e -> e ∈ q.(envelopes)) ->
  (forall r, r ∈ queue_rows tid q -> r.(QueuedTurnRow.created_at) < ts) ->
  let turn := QueuedTurn.mk id tid agent permission message echo (clean_optional client) envelope ts in
  exists q', enqueue_with_echo ts id tid agent permission message envelope echo client q = (q', Ok turn) /\
    queue_ok q' /\ queue_rows tid q' = (queue_rows tid q ++ [turn_row turn])%list /\
    forall tid', tid' <> tid -> queue_rows tid' q' = queue_rows tid' q.
Proof.
  intros Hq Hid Htid Henv Hts turn. exists (set_turns (fun rows => (rows ++ [turn_row turn])%list) q).
  assert (NoDup (QueuedTurnRow.id <$> (q.(turns) ++ [turn_row turn])%list)) as Hnd.
  { rewrite fmap_app. apply NoDup_app. split_and!; [apply Hq| |apply NoDup_singleton].
    by intros x Hx ->%list_elem_of_singleton. }
  split_and!.
  - unfold enqueue_with_echo. rewrite M_bind_unfold. cbn [get].
    replace (existsb _ _) with false. 2:{ symmetry. apply existsb_key_false. done. }
    rewrite bool_decide_true by done.
    replace (is_none_or envelope _) with true. 2:{ destruct envelope as [e|]; [|done]. cbn. symmetry.
      apply bool_decide_eq_true. auto. }
    done.
  - split; cbn; [done| |].
    + intros r [Hr| ->%list_elem_of_singleton]%elem_of_app; [by apply Hq|]. by destruct agent.
    + intros r [Hr| ->%list_elem_of_singleton]%elem_of_app; [by apply Hq|done].
  - apply queue_order_unique; cbn; [by apply NoDup_filter_column| |].
    + unfold queue_rows, of_thread. rewrite sort_by_perm, filter_app. cbn. by rewrite decide_True.
    + apply StronglySorted_snoc_last; [apply queue_sorted|]. apply Forall_forall. intros r Hr%Hts.
      unfold le_of, turn_order. apply orb_true_iff. left. cbn. by apply Z.ltb_lt.
  - intros tid' Hne. unfold queue_rows, of_thread, set_turns; cbn. rewrite filter_app. cbn.
    rewrite decide_False by done. by rewrite app_nil_r.
Qed.

Module Properties.
(** Claiming turns one after the other returns exactly the listed turns, in
    the listed order and each once, then nothing; the other threads' queues are
    untouched, and a turn queued later than every waiting one runs last. *)
Theorem queue_runs_in_order tid q :
  queue_ok q ->
  exists l, value (list_for_thread tid) q = Ok l /\
    value (pop_many tid (S (length l))) q = Ok ((Some <$> l) ++ [None])%list /\
    (forall tid', tid' <> tid ->
       value (list_for_thread tid') (final (pop_many tid (S (length l))) q) = value (list_for_thread tid') q) /\
    (forall ts id agent permission message envelope echo client,
       id ∉ QueuedTurnRow.id <$> q.(turns) -> tid ∈ q.(threads) -> (forall e, envelope = Some e -> e ∈ q.(envelopes)) ->
       (forall r, r ∈ queue_rows tid q -> r.(QueuedTurnRow.created_at) < ts) ->
       exists turn q', enqueue_with_echo ts id tid agent permission message envelope echo client q = (q', Ok turn) /\
         turn.(QueuedTurn.message) = message /\ value (list_for_thread tid) q' = Ok (l ++ [turn])%list).
Proof.
  intros Hq. exists (turn_of <$> queue_rows tid q). rewrite length_fmap.
  destruct (pop_many_spec tid (queue_rows tid q) q Hq eq_refl) as (H1 & _ & H3). split_and!.
  - unfold value. by rewrite list_for_thread_spec.
  - done.
  - intros tid' Hne. unfold value at 1 2, list_for_thread. rewrite !M_bind_unfold. cbn [gets]. by rewrite H3.
  - intros ts id agent permission message envelope echo client Hid Htid Henv Hts.
    destruct (enqueue_last ts id tid agent permission message envelope echo client q Hq Hid Htid Henv Hts)
      as (q' & He & Hq' & Hrows & _).
    eexists _, q'. split; [exact He|]. split; [done|]. unfold value. rewrite list_for_thread_spec by done.
    cbn [snd]. rewrite Hrows, fmap_app. f_equal. f_equal. cbn. unfold turn_of. cbn.
    by destruct agent, echo.
Qed.

(** Asking for an order of a thread's waiting turns makes them run in exactly
    that order, with the same messages, and leaves the other queues alone. *)
Theorem reorder_then_runs ts tid ordered_ids q l :
  queue_ok q -> value (list_for_thread tid) q = Ok l -> (QueuedTurn.id <$> l) ≡ₚ ordered_ids ->
  let q' := final (reorder ts tid ordered_ids) q in
  exists l', value (list_for_thread tid) q' = Ok l' /\ QueuedTurn.id <$> l' = ordered_ids /\
    ((fun t => (t.(QueuedTurn.id), t.(QueuedTurn.message))) <$> l') ≡ₚ
      ((fun t => (t.(QueuedTurn.id), t.(QueuedTurn.message))) <$> l) /\
    value (pop_many tid (S (length ordered_ids))) q' = Ok ((Some <$> l') ++ [None])%list /\
    forall tid', tid' <> tid -> value (list_for_thread tid') q' = value (list_for_thread tid') q.
Proof.
  intros Hq Hl Hp q'. assert (queue_ok q') as Hq' by (by apply queue_ok_reorder).
  unfold value in Hl. rewrite list_for_thread_spec in Hl by done. injection Hl as <-.
  rewrite <- list_fmap_compose in Hp.
  pose proof (reorder_rows ts tid ordered_ids q Hq Hp) as Hrows. fold q' in Hrows.
  exists (turn_of <$> queue_rows tid q'). split_and!.
  - unfold value. by rewrite list_for_thread_spec.
  - by rewrite <- list_fmap_compose.
  - rewrite <- !list_fmap_compose. unfold queue_rows. rewrite !sort_by_perm. unfold q'.
    rewrite reorder_turns, of_thread_restamp, <- list_fmap_compose. apply reflexive_eq, list_fmap_ext. intros i r _. cbn.
    by destruct (restamp_row tid ts ordered_ids r) as [? ->].
  - rewrite <- Hrows, length_fmap. by apply pop_many_spec.
  - intros tid' Hne. unfold value, list_for_thread. rewrite !M_bind_unfold. cbn [gets]. unfold q'.
    by rewrite reorder_rows_other.
Qed.

(** Three messages of one thread, and one of another. *)
Definition demo_turn (id tid : string) (ts : Z) : Row :=
  turn_row (QueuedTurn.mk id tid AgentKind.Codex "ask" ("message " +:+ id) true None None ts).
Definition demo_queue : Queue :=
  mkQueue {["t"; "u"]} ∅ [demo_turn "a" "t" 3; demo_turn "b" "t" 1; demo_turn "c" "u" 2; demo_turn "d" "t" 1].

Lemma demo_queue_ok : queue_ok demo_queue.
Proof.
  split.
  - cbn. repeat (constructor; [set_solver|]). constructor.
  - intros r Hr. cbn in Hr. repeat (apply elem_of_cons in Hr as [->|Hr]; [reflexivity|]). by apply elem_of_nil in Hr.
  - intros r Hr. cbn in Hr. repeat (apply elem_of_cons in Hr as [->|Hr]; [cbn; set_solver|]). by apply elem_of_nil in Hr.
Qed.

Lemma queue_runs_in_order_witness :
  exists l, value (list_for_thread "t") demo_queue = Ok l /\ QueuedTurn.id <$> l = ["b"; "d"; "a"] /\
    value (pop_many "t" 4) demo_queue = Ok ((Some <$> l) ++ [None])%list.
Proof.
  destruct (queue_runs_in_order "t" demo_queue demo_queue_ok) as (l & Hl & Hpop & _).
  exists l. split; [done|]. vm_compute in Hl. injection Hl as <-. split; [reflexivity|exact Hpop].
Defined.

Lemma reorder_then_runs_witness :
  exists l', value (list_for_thread "t") (final (reorder 9 "t" ["a"; "b"; "d"]) demo_queue) = Ok l' /\
    QueuedTurn.id <$> l' = ["a"; "b"; "d"].
Proof.
  destruct (reorder_then_runs 9 "t" ["a"; "b"; "d"] demo_queue
              (turn_of <$> queue_rows "t" demo_queue) demo_queue_ok) as (l' & H1 & H2 & _).
  - vm_compute. reflexivity.
  - change (QueuedTurn.id <$> (turn_of <$> queue_rows "t" demo_queue)) with ["b"; "d"; "a"]. 
    apply (Permutation_app_comm ["b"; "d"] ["a"]).
  - by exists l'.
Defined.
End Properties.
