(* ===== verification/Budget.v ===== *)
(** * Task budgets

    The usage target of a session: its validation (crates/am-proto/src/agent_thread.rs,
    crates/am-core/src/budget.rs), the usage ledger (crates/am-db/src/repos/usage_ledger.rs,
    crates/am-core/src/policy.rs), and its enforcement while a session runs and
    when the next one is launched (crates/am-core/src/agent_thread.rs).  Percentages
    are IEEE doubles. *)
From Stdlib Require Import SpecFloat Ascii String.
From S2P Require Import Prelude RustStr Enums Records Doubles WorkGraphDb WorkGraphInv Limits.
#[local] Open Scope string_scope.
#[local] Open Scope Z_scope.

Definition f64_0_15 : f64 := S754_finite false 5404319552844595 (-55).
Definition f64_0_5 : f64 := S754_finite false 4503599627370496 (-53).

(** ** The budget and its changes *)

Definition MIN_TOKENS : Z := 10000.
Definition MAX_TOKENS : Z := 10000000.

Definition validate (budget : TaskBudget.t) : result string () :=
  match budget with
  | TaskBudget.Unlimited => Ok ()
  | TaskBudget.Tokens limit_tokens =>
      if (MIN_TOKENS <=? limit_tokens) && (limit_tokens <=? MAX_TOKENS) then Ok ()
      else Err "Token budgets must be between 10000 and 10000000 tokens."
  | TaskBudget.WeeklyPercent limit_percent =>
      if (1 <=? limit_percent) && (limit_percent <=? 100) then Ok ()
      else Err "Weekly budgets must be a whole percentage from 1% through 100%."
  end.

Definition is_unlimited (budget : TaskBudget.t) : bool := match budget with TaskBudget.Unlimited => true | _ => false end.

Definition quota_limit (budget : TaskBudget.t) (window : QuotaWindowKind) : option f64 :=
  match budget, window with
  | TaskBudget.WeeklyPercent limit_percent, Weekly => Some (f64_of_int limit_percent)
  | _, _ => None
  end.

Definition is_percentage_budget (budget : TaskBudget.t) : bool :=
  match budget with TaskBudget.WeeklyPercent _ => true | _ => false end.

Definition validate_change (current requested : TaskBudget.t) (has_started : bool) : result string () :=
  _ ← validate requested;
  if negb has_started then Ok ()
  else if bool_decide (current = requested) || is_unlimited requested then Ok ()
  else
    let refused := Err "After the first turn, a task budget can only be increased or turned off while stopped." in
    match current, requested with
    | TaskBudget.Tokens before, TaskBudget.Tokens after => if before <=? after then Ok () else refused
    | TaskBudget.WeeklyPercent before, TaskBudget.WeeklyPercent after => if before <=? after then Ok () else refused
    | _, _ => refused
    end.

Definition token_reserve (limit : Z) : Z := clampZ 4000 20000 (limit / 20).

Definition closeout_instruction : string :=
  "Budget closeout: stop starting substantive work. Safely finish the operation already in flight, run only the highest-value validation that fits, then return a concise summary of completed work, remaining work, blockers, and current workspace state.".
Definition progress_instruction : string :=
  "Budget reminder: you are around halfway through the session target. Prioritize the highest-value work and reserve enough capacity for validation and a concise completed/remaining/current-state response.".

Definition validate_runtime_budget (budget : TaskBudget.t) (agent : AgentKind.t) (backend : ExecutionBackend.t)
  (uses_local_model : bool) : result CoreError () :=
  if is_unlimited budget then Ok ()
  else if negb (bool_decide (backend = ExecutionBackend.Host)) || uses_local_model then
    Err (Other "Task budgets require host execution with a hosted agent; local models are not supported.")
  else if is_percentage_budget budget && negb (bool_decide (agent = AgentKind.Codex)) then
    Err (Other "Weekly % budgets currently require Codex with ChatGPT account usage telemetry.")
  else Ok ().

(** ** Weekly consumption *)

Record EnforcementState := mkEnforcement {
  five_hour_baseline_percent : option f64;
  five_hour_consumed_percent : f64;
  weekly_baseline_percent : option f64;
  weekly_consumed_percent : f64;
  weekly_offset_percent : f64;
  weekly_reset_at : option Z;
  reminder_sent : bool;
  closeout_sent : bool;
  provider : option string
}.

Definition default_enforcement : EnforcementState :=
  mkEnforcement None f64_zero None f64_zero f64_zero None false false None.

Definition set_reminder (s : EnforcementState) : EnforcementState :=
  mkEnforcement s.(five_hour_baseline_percent) s.(five_hour_consumed_percent) s.(weekly_baseline_percent)
    s.(weekly_consumed_percent) s.(weekly_offset_percent) s.(weekly_reset_at) true s.(closeout_sent) s.(provider).
Definition set_closeout (s : EnforcementState) : EnforcementState :=
  mkEnforcement s.(five_hour_baseline_percent) s.(five_hour_consumed_percent) s.(weekly_baseline_percent)
    s.(weekly_consumed_percent) s.(weekly_offset_percent) s.(weekly_reset_at) s.(reminder_sent) true s.(provider).

(** The consumption after one sample: the part shared by both windows. *)
Definition consume (baseline : option f64) (consumed offset used_percent : f64) : option f64 * f64 :=
  let base := default (f64_max used_percent f64_zero) baseline in
  (Some base,
   if SFleb base used_percent then f64_max consumed (f64_sub (f64_add offset used_percent) base) else consumed).

Definition observe (window : QuotaWindowKind) (used_percent : f64) (new_provider : string) (reset_at : option Z)
  (s : EnforcementState) : EnforcementState * f64 :=
  let provider_changed := is_some_and s.(provider) (fun old => negb (eq_str old new_provider)) in
  match window with
  | FiveHour =>
      let '(base, consumed) := consume s.(five_hour_baseline_percent) s.(five_hour_consumed_percent) f64_zero used_percent in
      (mkEnforcement base consumed s.(weekly_baseline_percent) s.(weekly_consumed_percent) s.(weekly_offset_percent)
         s.(weekly_reset_at) s.(reminder_sent) s.(closeout_sent) (Some new_provider), consumed)
  | Weekly =>
      let reset_changed := is_some_and reset_at (fun next =>
                             is_some_and s.(weekly_reset_at) (fun old => negb (old =? next))) in
      let restart := provider_changed || reset_changed in
      let offset := if restart then s.(weekly_consumed_percent) else s.(weekly_offset_percent) in
      let baseline := if restart then None else s.(weekly_baseline_percent) in
      let '(base, consumed) := consume baseline s.(weekly_consumed_percent) offset used_percent in
      (mkEnforcement s.(five_hour_baseline_percent) s.(five_hour_consumed_percent) base consumed offset
         (opt_or reset_at s.(weekly_reset_at)) s.(reminder_sent) s.(closeout_sent) (Some new_provider), consumed)
  end.

(** ** The usage ledger *)

Record LedgerRow := mkLedger {
  l_id : string;
  l_session_id : option string;
  l_input_tokens : Z;
  l_output_tokens : Z;
  l_policy_envelope_id : option string
}.

Record Ledger := mkLedgerDb { l_rows : list LedgerRow; l_envelopes : gset string }.

Definition record_tokens (id : string) (session_id policy_envelope_id : option string) (input_tokens output_tokens : Z) :
  M Ledger DbError () :=
  db ← get;
  _ ← fail_when (existsb (fun r => eq_str r.(l_id) id) db.(l_rows)) Sqlx;
  _ ← fail_when (negb (is_none_or policy_envelope_id (fun e => bool_decide (e ∈ db.(l_envelopes))))) Sqlx;
  modify (fun db => mkLedgerDb
    (db.(l_rows) ++ [mkLedger id session_id (Z.min input_tokens i64_max) (Z.min output_tokens i64_max) policy_envelope_id])%list
    db.(l_envelopes)).

Definition sum_of {A} (f : A -> Z) (l : list A) : Z := foldr (fun a n => f a + n) 0 l.

(** [SUM] of an integer column fails on overflow; an overflowing [+] gives a
    float, which does not decode as an integer. *)
Definition total_for_session (session_id : string) (db : Ledger) : result DbError Z :=
  let rows := filter (fun r => r.(l_session_id) = Some session_id) db.(l_rows) in
  let i := sum_of l_input_tokens rows in
  let o := sum_of l_output_tokens rows in
  if (i64_max <? i) || (i64_max <? o) || (i64_max <? i + o) then Err Sqlx else Ok (Z.max (i + o) 0).

Definition record_token_usage (id : string) (session_id policy_envelope_id : option string) (input_tokens output_tokens : Z)
  (db : Ledger) : Ledger * result CoreError Z :=
  match record_tokens id session_id policy_envelope_id input_tokens output_tokens db with
  | (db', Ok _) => (db', Ok (u64_saturating_add input_tokens output_tokens))
  | (db', Err e) => (db', Err (Records.Db e))
  end.

(** ** Enforcement while a session runs (the event loop of [consume_agent_thread_turn]) *)

Inductive Action :=
| Cancel                       (** [sessions.cancel] *)
| Steer (message : string)     (** [sessions.steer] *)
| SaveEnforcement (s : EnforcementState)
| PublishUsage (usage : ProviderUsage.t)
| PauseThread.                 (** saved and published as paused *)

Record RunBudget := mkRun {
  usage_total : Z;
  budget_exhausted : bool;
  budget_accounting_failed : bool;
  saw_token_telemetry : bool;
  saw_final_weekly_telemetry : bool;
  enforcement_state : EnforcementState;
  ledger : Ledger;
  limits : LimitState;
  actions : list Action
}.

Definition act (l : list Action) (s : RunBudget) : RunBudget :=
  mkRun s.(usage_total) s.(budget_exhausted) s.(budget_accounting_failed) s.(saw_token_telemetry)
    s.(saw_final_weekly_telemetry) s.(enforcement_state) s.(ledger) s.(limits) (s.(actions) ++ l)%list.
Definition set_enforcement (e : EnforcementState) (s : RunBudget) : RunBudget :=
  mkRun s.(usage_total) s.(budget_exhausted) s.(budget_accounting_failed) s.(saw_token_telemetry)
    s.(saw_final_weekly_telemetry) e s.(ledger) s.(limits) s.(actions).
Definition set_exhausted (s : RunBudget) : RunBudget :=
  mkRun s.(usage_total) true s.(budget_accounting_failed) s.(saw_token_telemetry)
    s.(saw_final_weekly_telemetry) s.(enforcement_state) s.(ledger) s.(limits) s.(actions).

Definition exhaust (s : RunBudget) : RunBudget := act [Cancel] (set_exhausted s).
(** Errors of saving and steering are dropped. *)
Definition send_closeout (s : RunBudget) : RunBudget :=
  let e := set_closeout s.(enforcement_state) in
  act [SaveEnforcement e; Steer closeout_instruction] (set_enforcement e s).
Definition send_reminder (s : RunBudget) : RunBudget :=
  let e := set_reminder s.(enforcement_state) in
  act [SaveEnforcement e; Steer progress_instruction] (set_enforcement e s).

Definition u64_saturating_mul (x y : Z) : Z := Z.min (x * y) u64_max.

Definition enforce_tokens (budget : TaskBudget.t) (s : RunBudget) : RunBudget :=
  match budget with
  | TaskBudget.Tokens limit_tokens =>
      let remaining := u_saturating_sub limit_tokens s.(usage_total) in
      let s1 := if limit_tokens <=? s.(usage_total) then exhaust s
                else if (remaining <=? token_reserve limit_tokens) && negb s.(enforcement_state).(closeout_sent)
                then send_closeout s
                else s in
      if (limit_tokens <=? u64_saturating_mul s1.(usage_total) 2) && negb s1.(enforcement_state).(reminder_sent)
      then send_reminder s1 else s1
  | _ => s
  end.

(** [NormalizedEvent::TokenUsage]; [id] is the ledger row's fresh id. *)
Definition on_token_usage (budget : TaskBudget.t) (thread_id : string) (policy_envelope_id : option string)
  (id : string) (input output : Z) (s : RunBudget) : RunBudget :=
  let s := mkRun s.(usage_total) s.(budget_exhausted) s.(budget_accounting_failed) true
             s.(saw_final_weekly_telemetry) s.(enforcement_state) s.(ledger) s.(limits) s.(actions) in
  if (input =? 0) && (output =? 0) then s
  else
    let '(ledger', r) := record_token_usage id (Some thread_id) policy_envelope_id input output s.(ledger) in
    let '(total, failed) := match r with
                            | Ok recorded => (u64_saturating_add s.(usage_total) recorded, s.(budget_accounting_failed))
                            | Err _ => (s.(usage_total), true)
                            end in
    enforce_tokens budget
      (mkRun total s.(budget_exhausted) failed s.(saw_token_telemetry) s.(saw_final_weekly_telemetry)
         s.(enforcement_state) ledger' s.(limits) s.(actions)).

Definition enforce_quota (budget : TaskBudget.t) (window : QuotaWindowKind) (consumed : f64) (s : RunBudget) : RunBudget :=
  match quota_limit budget window with
  | Some limit =>
      let remaining := f64_max (f64_sub limit consumed) f64_zero in
      let s1 := if SFleb limit consumed then exhaust s
                else if SFleb remaining (f64_mul limit f64_0_15) && negb s.(enforcement_state).(closeout_sent)
                then send_closeout s
                else s in
      if SFleb (f64_mul limit f64_0_5) consumed && negb s1.(enforcement_state).(reminder_sent)
      then send_reminder s1 else s1
  | None => s
  end.

(** [NormalizedEvent::QuotaWindow]; [saved] says whether storing the state worked. *)
Definition on_quota_window (budget : TaskBudget.t) (agent : AgentKind.t) (provider_account_id : option string)
  (window : QuotaWindowKind) (used_percent : f64) (reset_at : option Z) (final_sample saved : bool) (s : RunBudget) :
  RunBudget :=
  let saw := match window with Weekly => final_sample || s.(saw_final_weekly_telemetry) | _ => s.(saw_final_weekly_telemetry) end in
  let '(limits', usage) := update_provider_usage agent window used_percent reset_at s.(limits) in
  let published := match usage with Ok u => [PublishUsage u] | Err _ => [] end in
  let quota_account := default (AgentKind.as_str agent) provider_account_id in
  let '(e, consumed) := observe window used_percent quota_account reset_at s.(enforcement_state) in
  enforce_quota budget window consumed
    (mkRun s.(usage_total) s.(budget_exhausted) (s.(budget_accounting_failed) || negb saved) s.(saw_token_telemetry) saw e
       s.(ledger) limits' (s.(actions) ++ published ++ [SaveEnforcement e])%list).

(** ** The check before a launch ([run_agent_thread_inner_locked])

    [stored] is the enforcement state read from its JSON, [paused] the outcome of
    saving the paused thread. *)
Definition refuse_launch (paused : result DbError ()) (message : string) : list Action * result CoreError (Z * f64) :=
  match paused with
  | Ok _ => ([PauseThread], Err (Other message))
  | Err e => ([], Err (Records.Db e))
  end.

Definition check_launch_budget (budget : TaskBudget.t) (thread_id : string) (db : Ledger)
  (stored : result DbError (result string EnforcementState)) (paused : result DbError ()) :
  list Action * result CoreError (Z * f64) :=
  match budget with
  | TaskBudget.Tokens limit_tokens =>
      match total_for_session thread_id db with
      | Err e => ([], Err (Records.Db e))
      | Ok spent =>
          if limit_tokens <=? spent then
            refuse_launch paused "This task budget is exhausted. Increase the cap or turn budgeting off before resuming."
          else ([], Ok (spent, f64_zero))
      end
  | TaskBudget.WeeklyPercent limit_percent =>
      match stored with
      | Err e => ([], Err (Records.Db e))
      | Ok (Err err) => ([], Err (Other ("Cannot read weekly budget state: " +:+ err)))
      | Ok (Ok state) =>
          if SFleb (f64_of_int limit_percent) state.(weekly_consumed_percent) then
            refuse_launch paused
              "This weekly usage budget is exhausted. Increase the cap or turn budgeting off before resuming."
          else ([], Ok (0, state.(weekly_consumed_percent)))
      end
  | TaskBudget.Unlimited => ([], Ok (0, f64_zero))
  end.

(** The samples of the source's own tests. *)
Example weekly_usage_cumulative :
  let o := fun s u => observe Weekly u "codex" None s in
  let s1 := (o default_enforcement (f64_of_int 40)).1 in
  let s2 := (o s1 (f64_of_int 43)).1 in
  let s3 := (o s2 (f64_of_int 41)).1 in
  (weekly_consumed_percent s2, weekly_consumed_percent s3, (o s3 (f64_of_int 45)).2) =
  (f64_of_int 3, f64_of_int 3, f64_of_int 5).
Proof. reflexivity. Qed.

(** ** Weekly consumption never decreases *)

Lemma consume_ge baseline consumed offset used :
  is_number consumed -> SFleb consumed (consume baseline consumed offset used).2 = true.
Proof. intros Hc. cbn. case_match; [by apply f64_max_ge|by apply SFleb_refl]. Qed.

Lemma observe_ge window used p reset s :
  is_number s.(weekly_consumed_percent) ->
  SFleb s.(weekly_consumed_percent) (observe window used p reset s).1.(weekly_consumed_percent) = true.
Proof. intros Hn. destruct window; cbn -[SFleb consume]; [by apply SFleb_refl|]. apply (consume_ge _ _ _ _ Hn). Qed.

(** ** Token budgets *)

(** TaskBudget.Tokens of a thread as stored: what [total_for_session] adds up. *)
Definition stored_tokens (thread_id : string) (db : Ledger) : Z :=
  let rows := filter (fun r => r.(l_session_id) = Some thread_id) db.(l_rows) in
  sum_of l_input_tokens rows + sum_of l_output_tokens rows.

Lemma sum_of_app {A} (f : A -> Z) l k : sum_of f (l ++ k) = sum_of f l + sum_of f k.
Proof. unfold sum_of. induction l as [|a l IH]; cbn; [done|]. rewrite IH. lia. Qed.

Lemma total_for_session_spec tid db t :
  total_for_session tid db = Ok t -> t = Z.max (stored_tokens tid db) 0.
Proof. unfold total_for_session, stored_tokens. case_match; [done|]. by intros [= <-]. Qed.

(** One reported usage: its ledger id, input and output tokens. *)
Record Usage := mkUsage { u_id : string; u_input : Z; u_output : Z }.
Definition usage_ok (u : Usage) : Prop := is_u64 u.(u_input) /\ is_u64 u.(u_output).
Definition reported (us : list Usage) : Z := sum_of (fun u => u.(u_input) + u.(u_output)) us.

Definition on_usages (budget : TaskBudget.t) (tid : string) (envelope : option string) (us : list Usage) (s : RunBudget) :
  RunBudget :=
  foldl (fun s u => on_token_usage budget tid envelope u.(u_id) u.(u_input) u.(u_output) s) s us.

Definition is_steer (message : string) (a : Action) : bool :=
  match a with Steer m => eq_str m message | _ => false end.
Definition steers (message : string) (s : RunBudget) : nat :=
  length (filter (fun a => is_steer message a = true) s.(actions)).

Definition flag (b : bool) : nat := if b then 1%nat else 0%nat.

Lemma flag_le b : (flag b <= 1)%nat.
Proof. destruct b; cbn; lia. Qed.

Record token_inv (limit : Z) (tid : string) (s : RunBudget) : Prop := {
  ti_total : 0 <= s.(usage_total) <= u64_max;
  ti_stored : Z.min s.(usage_total) i64_max <= stored_tokens tid s.(ledger);
  ti_closeout : steers closeout_instruction s = flag s.(enforcement_state).(closeout_sent);
  ti_reminder : steers progress_instruction s = flag s.(enforcement_state).(reminder_sent)
}.

Lemma steers_act m l s : steers m (act l s) = (steers m s + length (filter (fun a => is_steer m a = true) l))%nat.
Proof. unfold steers, act. cbn. by rewrite filter_app, length_app. Qed.

Lemma steers_set m e s : steers m (set_enforcement e s) = steers m s.
Proof. done. Qed.

Lemma exhaust_inv limit tid s : token_inv limit tid s -> token_inv limit tid (exhaust s).
Proof.
  intros [H1 H2 H3 H4]. split; [done|done| |];
    (etransitivity; [apply steers_act|]; etransitivity; [apply Nat.add_0_r|]); [exact H3|exact H4].
Qed.

Lemma closeout_inv limit tid s :
  token_inv limit tid s -> s.(enforcement_state).(closeout_sent) = false -> token_inv limit tid (send_closeout s).
Proof.
  intros [H1 H2 H3 H4] Hc. rewrite Hc in H3.
  split; [done|done| |]; (etransitivity; [apply steers_act|]); rewrite steers_set.
  - by rewrite H3.
  - rewrite H4. apply Nat.add_0_r.
Qed.

Lemma reminder_inv limit tid s :
  token_inv limit tid s -> s.(enforcement_state).(reminder_sent) = false -> token_inv limit tid (send_reminder s).
Proof.
  intros [H1 H2 H3 H4] Hc. rewrite Hc in H4.
  split; [done|done| |]; (etransitivity; [apply steers_act|]); rewrite steers_set.
  - rewrite H3. apply Nat.add_0_r.
  - by rewrite H4.
Qed.

Lemma enforce_tokens_spec limit tid s :
  token_inv limit tid s ->
  let s' := enforce_tokens (TaskBudget.Tokens limit) s in
  token_inv limit tid s' /\ s'.(usage_total) = s.(usage_total) /\ s'.(ledger) = s.(ledger) /\
  s'.(budget_accounting_failed) = s.(budget_accounting_failed) /\
  s'.(budget_exhausted) = s.(budget_exhausted) || (limit <=? s.(usage_total)) /\
  (s.(budget_exhausted) = false -> limit <= s.(usage_total) -> Cancel ∈ s'.(actions)) /\
  (forall a, a ∈ s.(actions) -> a ∈ s'.(actions)).
Proof.
  intros Hi. cbn -[u64_saturating_mul token_reserve].
  set (s1 := if limit <=? usage_total s then exhaust s else _).
  assert (token_inv limit tid s1 /\ s1.(usage_total) = s.(usage_total) /\ s1.(ledger) = s.(ledger) /\
    s1.(budget_accounting_failed) = s.(budget_accounting_failed) /\
    s1.(budget_exhausted) = s.(budget_exhausted) || (limit <=? s.(usage_total)) /\
    (s.(budget_exhausted) = false -> limit <= s.(usage_total) -> Cancel ∈ s1.(actions)) /\
    (forall a, a ∈ s.(actions) -> a ∈ s1.(actions))) as (H1 & H2 & H3 & H4 & H5 & H6 & H7).
  { unfold s1. destruct (Z.leb_spec limit (usage_total s)) as [Hle|Hgt].
    - split_and!; try done; [by apply exhaust_inv|by rewrite orb_true_r|..]; cbn; intros; apply elem_of_app.
      + right. by left.
      + by left.
    - destruct (_ && _) eqn:Hb.
      + apply andb_true_iff in Hb as [_ Hb%negb_true_iff].
        split_and!; try done; [by apply closeout_inv|by rewrite orb_false_r|lia|]. cbn. intros. apply elem_of_app. by left.
      + split_and!; try done; [by rewrite orb_false_r|lia]. }
  clearbody s1. destruct (_ && _) eqn:Hb; [|split_and!; assumption]. apply andb_true_iff in Hb as [_ Hb%negb_true_iff].
  split_and!; try done; [by apply reminder_inv|..]; cbn; intros; apply elem_of_app; left; auto.
Qed.

Definition ledger_ids (s : RunBudget) : list string := l_id <$> s.(ledger).(l_rows).

Lemma record_usage_ok id tid envelope input output db :
  id ∉ l_id <$> db.(l_rows) -> (forall e, envelope = Some e -> e ∈ db.(l_envelopes)) ->
  record_token_usage id (Some tid) envelope input output db =
  (mkLedgerDb (db.(l_rows) ++ [mkLedger id (Some tid) (Z.min input i64_max) (Z.min output i64_max) envelope])%list
     db.(l_envelopes), Ok (u64_saturating_add input output)).
Proof.
  intros Hid Henv. unfold record_token_usage, record_tokens. rewrite M_bind_unfold. cbn [get].
  rewrite (proj2 (existsb_key_false l_id _ _) Hid).
  replace (is_none_or envelope _) with true; [done|]. destruct envelope as [e|]; [|done]. cbn. symmetry.
  apply bool_decide_eq_true. auto.
Qed.

Lemma on_token_usage_spec limit tid envelope u s :
  token_inv limit tid s -> usage_ok u -> 0 < u.(u_input) + u.(u_output) -> u.(u_id) ∉ ledger_ids s ->
  (forall e, envelope = Some e -> e ∈ s.(ledger).(l_envelopes)) ->
  let s' := on_token_usage (TaskBudget.Tokens limit) tid envelope u.(u_id) u.(u_input) u.(u_output) s in
  token_inv limit tid s' /\ s'.(usage_total) = Z.min (s.(usage_total) + u.(u_input) + u.(u_output)) u64_max /\
  ledger_ids s' = (ledger_ids s ++ [u.(u_id)])%list /\ s'.(ledger).(l_envelopes) = s.(ledger).(l_envelopes) /\
  s'.(budget_accounting_failed) = s.(budget_accounting_failed) /\
  s'.(budget_exhausted) = s.(budget_exhausted) || (limit <=? s'.(usage_total)) /\
  (s.(budget_exhausted) = false -> s'.(budget_exhausted) = true -> Cancel ∈ s'.(actions)) /\
  (forall a, a ∈ s.(actions) -> a ∈ s'.(actions)).
Proof.
  intros [T1 T2 T3 T4] [[Hi1 Hi2] [Ho1 Ho2]] Hpos Hid Henv. unfold on_token_usage.
  replace ((u_input u =? 0) && (u_output u =? 0)) with false by (symmetry; apply andb_false_iff; rewrite !Z.eqb_neq; lia).
  cbn [ledger]. rewrite record_usage_ok by done. cbn [usage_total budget_exhausted budget_accounting_failed
    saw_token_telemetry saw_final_weekly_telemetry enforcement_state limits actions].
  set (s1 := mkRun _ _ _ _ _ _ _ _ _).
  assert (s1.(usage_total) = Z.min (s.(usage_total) + u.(u_input) + u.(u_output)) u64_max) as Htot.
  { cbn. unfold u64_saturating_add. lia. }
  assert (token_inv limit tid s1) as Hs1.
  { split; [rewrite Htot; unfold u64_max in *; lia| |done|done].
    rewrite Htot. unfold stored_tokens, s1. cbn [ledger l_rows]. rewrite filter_app. cbn.
    rewrite decide_True by done. rewrite !sum_of_app. unfold stored_tokens in T2. cbn.
    unfold i64_max, u64_max in *. lia. }
  destruct (enforce_tokens_spec limit tid s1 Hs1) as (E1 & E2 & E3 & E4 & E5 & E6 & E7).
  split_and!; [done|by rewrite E2| |by rewrite E3|by rewrite E4| | |].
  - unfold ledger_ids. rewrite E3. cbn. by rewrite fmap_app.
  - by rewrite E5, E2.
  - intros Hf. rewrite E5. change (s1.(budget_exhausted)) with (s.(budget_exhausted)). rewrite Hf. cbn [orb].
    intros Hl%Z.leb_le. by apply E6.
  - intros a Ha. by apply E7.
Qed.

Lemma on_usages_spec limit tid envelope us s :
  token_inv limit tid s -> Forall usage_ok us -> Forall (fun u => 0 < u.(u_input) + u.(u_output)) us ->
  NoDup (ledger_ids s ++ (u_id <$> us))%list -> (forall e, envelope = Some e -> e ∈ s.(ledger).(l_envelopes)) ->
  let s' := on_usages (TaskBudget.Tokens limit) tid envelope us s in
  token_inv limit tid s' /\ s'.(usage_total) = Z.min (s.(usage_total) + reported us) u64_max /\
  s'.(budget_accounting_failed) = s.(budget_accounting_failed) /\
  (us <> [] -> limit <= s'.(usage_total) -> s'.(budget_exhausted) = true) /\
  (s.(budget_exhausted) = false -> s'.(usage_total) < limit -> s'.(budget_exhausted) = false) /\
  (s.(budget_exhausted) = false -> s'.(budget_exhausted) = true -> Cancel ∈ s'.(actions)) /\
  (s.(budget_exhausted) = true -> s'.(budget_exhausted) = true) /\
  (forall a, a ∈ s.(actions) -> a ∈ s'.(actions)).
Proof.
  revert s. induction us as [|u us IH]; intros s Hi Hok Hpos Hnd Henv.
  { cbn. pose proof (ti_total _ _ _ Hi). split_and!; try done; [lia|]. congruence. }
  apply Forall_cons in Hok as [Hu Hok], Hpos as [Hp Hpos].
  assert (NoDup ((ledger_ids s ++ [u_id u]) ++ (u_id <$> us))%list) as Hnd1 by (by rewrite <- app_assoc).
  assert (u_id u ∉ ledger_ids s) as Hfresh.
  { rewrite fmap_cons in Hnd. apply NoDup_app in Hnd as (_ & Hd & _). intros Hin. apply (Hd _ Hin). by left. }
  destruct (on_token_usage_spec limit tid envelope u s Hi Hu Hp Hfresh Henv) as (S1 & S2 & S3 & S4 & S5 & S6 & S7 & S8).
  cbn [on_usages foldl]. set (s1 := on_token_usage _ _ _ _ _ _ s) in *.
  destruct (IH s1 S1 Hok Hpos ltac:(by rewrite S3) ltac:(by rewrite S4)) as (R1 & R2 & R3 & R4 & R5 & R6 & R7 & R8).
  fold (on_usages (TaskBudget.Tokens limit) tid envelope us s1). set (s' := on_usages _ _ _ us s1) in *.
  assert (0 <= reported us) as Hrep.
  { unfold reported, sum_of. clear - Hpos. induction Hpos; cbn in *; lia. }
  pose proof (ti_total _ _ _ S1) as Ht1. pose proof (ti_total _ _ _ Hi) as Ht. destruct Hu as [[? ?] [? ?]].
  assert (reported (u :: us) = u.(u_input) + u.(u_output) + reported us) as Hcons by done.
  split_and!; try done.
  - rewrite R2, S2, Hcons. lia.
  - congruence.
  - intros _ Hle. destruct us as [|u' us']; [|by apply R4].
    cbn in s'. unfold s' in *. cbn in *. rewrite S6. apply orb_true_iff. right. by apply Z.leb_le.
  - intros Hf Hlt. apply R5; [|done]. rewrite S6, Hf. cbn. apply Z.leb_gt. lia.
  - intros Hf Ht'. destruct (s1.(budget_exhausted)) eqn:He; [by apply R8, S7|by apply R6].
  - intros Hb. apply R7. by rewrite S6, Hb.
  - intros a Ha. by apply R8, S8.
Qed.

Module Properties.
(** Token budgets stop the work: when the tokens reported during a session
    bring the thread's total to its limit, the session is cancelled and no later
    launch passes the check; below the limit it is never cancelled for budget; and
    each of the two instructions is sent at most once. *)
Theorem token_budget_stops limit tid envelope us s stored paused :
  validate (TaskBudget.Tokens limit) = Ok () -> token_inv limit tid s -> s.(budget_exhausted) = false ->
  Forall usage_ok us -> Forall (fun u => 0 < u.(u_input) + u.(u_output)) us -> us <> [] ->
  NoDup (ledger_ids s ++ (u_id <$> us))%list -> (forall e, envelope = Some e -> e ∈ s.(ledger).(l_envelopes)) ->
  let s' := on_usages (TaskBudget.Tokens limit) tid envelope us s in
  (limit <= s.(usage_total) + reported us ->
     s'.(budget_exhausted) = true /\ Cancel ∈ s'.(actions) /\
     is_ok (check_launch_budget (TaskBudget.Tokens limit) tid s'.(ledger) stored paused).2 = false) /\
  (s.(usage_total) + reported us < limit -> s'.(budget_exhausted) = false) /\
  (steers closeout_instruction s' <= 1)%nat /\ (steers progress_instruction s' <= 1)%nat.
Proof.
  intros Hv Hi Hex Hok Hpos Hne Hnd Henv s'. cbn in Hv. unfold MIN_TOKENS, MAX_TOKENS in Hv.
  destruct (Z.leb_spec 10000 limit), (Z.leb_spec limit 10000000); try done.
  destruct (on_usages_spec limit tid envelope us s Hi Hok Hpos Hnd Henv) as (R1 & R2 & R3 & R4 & R5 & R6 & R7 & R8).
  fold s' in R1, R2, R3, R4, R5, R6, R7, R8. destruct R1 as [Q1 Q2 Q3 Q4]. split_and!.
  - intros Hle. assert (s'.(budget_exhausted) = true) as He by (apply R4; [done|]; unfold u64_max in *; lia).
    split_and!; [done|by apply R6|]. cbn. destruct (total_for_session tid s'.(ledger)) as [t|e] eqn:Ht; [|done].
    apply total_for_session_spec in Ht. unfold u64_max, i64_max in *.
    destruct (Z.leb_spec limit t); [|lia]. unfold refuse_launch. by destruct paused.
  - intros Hlt. apply R5; [done|]. unfold u64_max in *. lia.
  - rewrite Q3. apply flag_le.
  - rewrite Q4. apply flag_le.
Qed.

(** The weekly consumption charged to a session never goes down, whatever
    samples arrive from whichever windows, accounts and reset periods. *)
Theorem budget_never_refunds samples s :
  is_number s.(weekly_consumed_percent) ->
  let s' := foldl (fun s '(w, used, account, reset_at) => (observe w used account reset_at s).1) s samples in
  SFleb s.(weekly_consumed_percent) s'.(weekly_consumed_percent) = true.
Proof.
  revert s. induction samples as [|[[[w used] account] reset_at] samples IH]; intros s Hn; cbn [foldl].
  { by apply SFleb_refl. }
  pose proof (observe_ge w used account reset_at s Hn) as Hge.
  eapply SFleb_trans; [exact Hge|]. apply IH. by apply (SFleb_number _ _ Hge).
Qed.

(** How generous a budget is, for budgets of one kind. *)
Definition at_least (before after : TaskBudget.t) : Prop :=
  match before, after with
  | _, TaskBudget.Unlimited => True
  | TaskBudget.Tokens a, TaskBudget.Tokens b | TaskBudget.WeeklyPercent a, TaskBudget.WeeklyPercent b => a <= b
  | _, _ => False
  end.

(** Once a session has started, any sequence of accepted changes leaves a
    valid budget that is off or of the same kind and at least as large; a budget
    that was turned off stays off. *)
Theorem budget_only_tops_up b0 changes :
  is_ok (validate b0) = true ->
  Forall (fun '(b, b') => is_ok (validate_change b b' true) = true) (zip (b0 :: changes) changes) ->
  is_ok (validate (List.last changes b0)) = true /\ at_least b0 (List.last changes b0).
Proof.
  revert b0. induction changes as [|b changes IH]; intros b0 Hv Hc.
  { cbn. split; [done|]. destruct b0; cbn; try done; lia. }
  cbn [zip] in Hc. apply Forall_cons in Hc as [H1 Hc]. unfold validate_change in H1.
  destruct (validate b) as [[]|] eqn:Hvb; [cbn in H1|done].
  destruct (IH b ltac:(by rewrite Hvb) Hc) as [Hl Ha].
  replace (List.last (b :: changes) b0) with (List.last changes b)
    by (clear; revert b; induction changes as [|c cs IH]; intros b; [done|]; cbn; destruct cs; [done|apply (IH b)]).
  split; [done|]. set (z := List.last changes b) in *. clearbody z.
  case_bool_decide as He; [by subst|]. cbn in H1.
  destruct b0 as [|n|n], b as [|m|m]; cbn in H1; try done; destruct z; cbn in *; try done;
    (destruct (Z.leb_spec n m); [lia|done]).
Qed.

(** A thread with a 10000-token budget that reports 6000 and then 5000 tokens. *)
Definition demo_run : RunBudget :=
  mkRun 0 false false false false default_enforcement (mkLedgerDb [] ∅) (mkLimits [] ∅ None 0) [].
Definition demo_usage : list Usage := [mkUsage "u1" 4000 2000; mkUsage "u2" 3000 2000].

Lemma demo_token_inv : token_inv 10000 "t" demo_run.
Proof. split; cbn; unfold u64_max, i64_max; done || lia. Qed.

Lemma token_budget_stops_witness :
  budget_exhausted (on_usages (TaskBudget.Tokens 10000) "t" None demo_usage demo_run) = true /\
  (steers closeout_instruction (on_usages (TaskBudget.Tokens 10000) "t" None demo_usage demo_run) <= 1)%nat.
Proof.
  assert (Forall usage_ok demo_usage) as Hok by (repeat constructor; cbn; unfold u64_max; lia).
  assert (NoDup (ledger_ids demo_run ++ (u_id <$> demo_usage))%list) as Hnd
    by (cbn; repeat (constructor; [set_solver|]); constructor).
  destruct (token_budget_stops 10000 "t" None demo_usage demo_run (Ok (Ok default_enforcement)) (Ok ())
              eq_refl demo_token_inv eq_refl Hok ltac:(repeat constructor) ltac:(discriminate) Hnd ltac:(discriminate))
    as (H1 & _ & H3 & _).
  split; [|exact H3]. apply H1. unfold reported. cbn. lia.
Defined.

Lemma budget_never_refunds_witness :
  SFleb (f64_of_int 3)
    (weekly_consumed_percent
       (foldl (fun s '(w, used, account, reset_at) => (observe w used account reset_at s).1)
          (mkEnforcement None f64_zero (Some (f64_of_int 40)) (f64_of_int 3) f64_zero None false false (Some "a"))
          [(Weekly, f64_of_int 10, "b", None); (Weekly, f64_of_int 12, "b", None)])) = true.
Proof.
  apply (budget_never_refunds [(Weekly, f64_of_int 10, "b", None); (Weekly, f64_of_int 12, "b", None)]
           (mkEnforcement None f64_zero (Some (f64_of_int 40)) (f64_of_int 3) f64_zero None false false (Some "a"))).
  discriminate.
Defined.

Lemma budget_only_tops_up_witness : at_least (TaskBudget.Tokens 50000) (List.last [TaskBudget.Tokens 60000; TaskBudget.Tokens 60000; TaskBudget.Tokens 90000] (TaskBudget.Tokens 50000)).
Proof. apply (budget_only_tops_up (TaskBudget.Tokens 50000) [TaskBudget.Tokens 60000; TaskBudget.Tokens 60000; TaskBudget.Tokens 90000]); [reflexivity|]. repeat constructor. Defined.
End Properties.
