(* ===== verification/SqlTable.v ===== *)
(** * Tables and statements

    A table of the database as a list of rows in rowid order with a text primary
    key.  [Table] says where a table lives in the store and what its foreign keys
    require; [Codec] is the [TryFrom] of a row type and the column bindings of its
    [INSERT].  The statements of the repositories are programs over the two, and
    their laws are proved once. *)
From Stdlib Require Import Ascii String.
From S2P Require Import Prelude RustStr Enums Records WorkGraphDb WorkGraphInv.

Class Table (S R : Type) := {
  row_id : R -> string;
  rows_of : S -> list R;
  put_rows : list R -> S -> S;
  (** the foreign keys of a row point at rows of the store *)
  references_ok : S -> R -> bool
}.

(** No modelled table refers to itself. *)
Class TableOk (S R : Type) `{Table S R} : Prop := {
  rows_put : forall l (s : S), rows_of (put_rows l s) = l;
  references_put : forall l (s : S) r, references_ok (put_rows l s) r = references_ok s r
}.

Class Codec (R T : Type) := {
  to_row : T -> R;
  try_from : R -> result DbError T
}.

Class CodecOk (R T : Type) `{Codec R T} : Prop := {
  try_from_to_row : forall x, try_from (to_row x) = Ok x
}.

Section Statements.
Context {S R T : Type} `{Table S R} `{Codec R T}.

Definition by_id (id : string) (r : R) : bool := eq_str (row_id r) id.

(** [INSERT INTO ...]. *)
Definition insert_row (r : R) : M S DbError () :=
  s ← get;
  _ ← fail_when (existsb (by_id (row_id r)) (rows_of s)) Sqlx;
  _ ← fail_when (negb (references_ok s r)) Sqlx;
  modify (put_rows (rows_of s ++ [r])).

(** [UPDATE ... SET ... WHERE ...]; the result is [rows_affected()]. *)
Definition update_rows (p : R -> bool) (f : R -> R) : M S DbError Z :=
  s ← get;
  _ ← fail_when (existsb (fun r => p r && negb (references_ok s (f r))) (rows_of s)) Sqlx;
  _ ← modify (put_rows (update_where p f (rows_of s)));
  mret (Z.of_nat (length (filter (fun r => p r = true) (rows_of s)))).

(** [DELETE FROM ... WHERE ...] on a table nothing refers to. *)
Definition delete_rows (p : R -> bool) : M S DbError () :=
  modify (fun s => put_rows (filter (fun r => p r = false) (rows_of s)) s).

(** [LIMIT n]: a negative limit is no limit. *)
Definition sql_limit {A} (n : Z) (l : list A) : list A := if n <? 0 then l else take (Z.to_nat n) l.

(** [SELECT ... WHERE p ORDER BY leb], every row decoded. *)
Definition selected (p : R -> bool) (leb : R -> R -> bool) (s : S) : list R :=
  sort_by leb (filter (fun r => p r = true) (rows_of s)).
Definition fetch_all (p : R -> bool) (leb : R -> R -> bool) : M S DbError (list T) :=
  rows ← gets (selected p leb);
  lift (collect (try_from <$> rows)).
Definition fetch_limit (p : R -> bool) (leb : R -> R -> bool) (n : Z) : M S DbError (list T) :=
  rows ← gets (selected p leb);
  lift (collect (try_from <$> sql_limit n rows)).

(** [SELECT ... WHERE id = ?] with [fetch_optional]. *)
Definition fetch_by_id (id : string) : M S DbError (option T) :=
  row ← gets (fun s => find (by_id id) (rows_of s));
  lift (transpose (try_from <$> row)).

Definition row_ok (s : S) (r : R) : Prop := is_ok (try_from r) = true /\ references_ok s r = true.
Definition table_ok (s : S) : Prop := NoDup (row_id <$> rows_of s) /\ forall r, r ∈ rows_of s -> row_ok s r.

(** What a decodable row stands for. *)
Definition decoded (r : R) (x : T) : Prop := try_from r = Ok x.
End Statements.
Arguments row_ok {S R} T {_ _} s r.
Arguments table_ok {S R} T {_ _} s.
Arguments fetch_by_id {S R T _ _} id.

(** ** Laws *)
Section Laws.
Context {S R T : Type} `{HT : TableOk S R} `{HC : Codec R T}.
Implicit Types (s : S) (r : R).

Lemma eq_str_false a b : a <> b -> eq_str a b = false.
Proof. intros Hne. unfold eq_str. by apply bool_decide_eq_false. Qed.

Lemma by_id_true id r : by_id id r = true <-> row_id r = id.
Proof. apply eq_str_true. Qed.

Lemma find_by_id s r :
  NoDup (row_id <$> rows_of s) -> r ∈ rows_of s -> find (by_id (row_id r)) (rows_of s) = Some r.
Proof.
  intros Hnd Hr. destruct (find _ _) as [x|] eqn:Hf.
  - apply find_Some_elem in Hf as [Hx Heq%by_id_true]. f_equal. by apply (NoDup_column_inj _ _ _ _ Hnd).
  - pose proof (proj1 (find_None _ _) Hf r Hr) as Hn. by rewrite (proj2 (by_id_true _ _)) in Hn.
Qed.

Lemma insert_row_eq s r :
  insert_row r s =
  if existsb (by_id (row_id r)) (rows_of s) || negb (references_ok s r) then (s, Err Sqlx)
  else (put_rows (rows_of s ++ [r]) s, Ok ()).
Proof.
  unfold insert_row. rewrite M_bind_unfold. cbn [get]. unfold fail_when. rewrite M_bind_unfold.
  destruct (existsb _ _); [done|]. cbn [orb mret M_ret]. rewrite M_bind_unfold.
  by destruct (references_ok s r).
Qed.

(** The rows an update rewrites keep the foreign keys of a store whose keys hold. *)
Lemma update_rows_eq s p f :
  (forall r, r ∈ rows_of s -> p r = true -> references_ok s (f r) = true) ->
  update_rows p f s = (put_rows (update_where p f (rows_of s)) s,
                       Ok (Z.of_nat (length (filter (fun r => p r = true) (rows_of s))))).
Proof.
  intros Hf. unfold update_rows. rewrite M_bind_unfold. cbn [get]. unfold fail_when.
  destruct (existsb _ _) eqn:He; [|done]. apply existsb_exists in He as (r & Hr & He).
  apply list_elem_of_In in Hr. apply andb_true_iff in He as [Hp He]. by rewrite Hf in He.
Qed.

Lemma table_ok_insert s r :
  table_ok T s -> existsb (by_id (row_id r)) (rows_of s) = false -> row_ok T s r ->
  table_ok T (put_rows (rows_of s ++ [r]) s).
Proof.
  intros [Hnd Hok] Hnew Hr. split.
  - rewrite rows_put, fmap_app. apply NoDup_app. split; [done|]. split; [|apply NoDup_singleton].
    intros i (x & -> & Hx)%list_elem_of_fmap [Heq|[]%elem_of_nil]%elem_of_cons.
    assert (existsb (by_id (row_id r)) (rows_of s) = true) as Ht; [|congruence].
    apply existsb_exists. exists x. split; [by apply list_elem_of_In|by apply by_id_true].
  - intros x. rewrite rows_put. unfold row_ok. rewrite references_put.
    intros [Hx| ->%list_elem_of_singleton]%elem_of_app; [by apply Hok|done].
Qed.

Lemma table_ok_update s p f :
  table_ok T s -> (forall r, r ∈ rows_of s -> p r = true -> row_id (f r) = row_id r /\ row_ok T s (f r)) ->
  table_ok T (put_rows (update_where p f (rows_of s)) s).
Proof.
  intros [Hnd Hok] Hf. split.
  - rewrite rows_put, update_where_column by (intros; by apply Hf). done.
  - intros x. rewrite rows_put. unfold row_ok. rewrite references_put.
    intros (r & Hr & ->)%elem_of_update_where. destruct (p r) eqn:Hp; [by apply Hf|by apply Hok].
Qed.

Lemma table_ok_delete s p :
  table_ok T s -> table_ok T (put_rows (filter (fun r => p r = false) (rows_of s)) s).
Proof.
  intros [Hnd Hok]. split.
  - rewrite rows_put. by apply NoDup_filter_column.
  - intros x. rewrite rows_put. unfold row_ok. rewrite references_put. intros [_ Hx]%list_elem_of_filter. by apply Hok.
Qed.

(** What is left of a table after deletions, possibly here and elsewhere. *)
Lemma table_ok_filter s s' (P : R -> Prop) `{!forall r, Decision (P r)} :
  table_ok T s -> rows_of s' = filter P (rows_of s) ->
  (forall r, r ∈ rows_of s -> P r -> references_ok s r = true -> references_ok s' r = true) -> table_ok T s'.
Proof.
  intros [Hnd Hok] Hrows Hrefs. unfold table_ok, row_ok. rewrite Hrows. split; [by apply NoDup_filter_column|].
  intros r [HP Hr]%list_elem_of_filter. destruct (Hok r Hr). auto.
Qed.

Lemma table_ok_mapped s s' (f : R -> R) :
  table_ok T s -> rows_of s' = f <$> rows_of s -> (forall r, row_id (f r) = row_id r) ->
  (forall r, r ∈ rows_of s -> row_ok T s r -> row_ok T s' (f r)) -> table_ok T s'.
Proof.
  intros [Hnd Hok] Hrows Hid Hf. unfold table_ok. rewrite Hrows. split.
  - rewrite <- list_fmap_compose. erewrite list_fmap_ext; [exact Hnd|]. intros; apply Hid.
  - intros x (r & -> & Hr)%list_elem_of_fmap. auto.
Qed.

(** A change elsewhere that leaves the table's rows and keeps their foreign keys. *)
Lemma table_ok_frame s s' :
  rows_of s' = rows_of s -> (forall r, r ∈ rows_of s -> references_ok s r = true -> references_ok s' r = true) ->
  table_ok T s -> table_ok T s'.
Proof. intros Hrows Hrefs [Hnd Hok]. unfold table_ok, row_ok. rewrite Hrows. split; [done|]. intros r Hr. destruct (Hok r Hr). auto. Qed.

Lemma table_ok_decodes s r : table_ok T s -> r ∈ rows_of s -> exists x : T, try_from r = Ok x.
Proof. intros [_ Hok] [Hd _]%Hok. destruct (try_from r); [by eexists|done]. Qed.

(** A readable table is listed without an error, row by row. *)
Lemma collect_decodes l :
  (forall r, r ∈ l -> is_ok (try_from (T:=T) r) = true) ->
  exists xs : list T, collect (try_from <$> l) = Ok xs /\ Forall2 (fun r x => try_from r = Ok x) l xs.
Proof.
  induction l as [|r l IH]; intros Hl; [by exists []|].
  destruct IH as (xs & Hxs & Hf); [by intros; apply Hl; right|].
  specialize (Hl r ltac:(left)). rewrite fmap_cons. cbn [collect].
  destruct (try_from r) as [x|] eqn:Hx; [|done]. exists (x :: xs). cbn. rewrite Hxs. split; [done|by constructor].
Qed.

Lemma elem_of_selected s p leb r : r ∈ selected p leb s <-> r ∈ rows_of s /\ p r = true.
Proof. unfold selected. rewrite sort_by_perm, list_elem_of_filter. tauto. Qed.

Lemma elem_of_sql_limit {A} n (l : list A) x : x ∈ sql_limit n l -> x ∈ l.
Proof. unfold sql_limit. case_match; [done|]. by apply subseteq_take. Qed.

Lemma fetch_all_ok s p leb :
  table_ok T s ->
  exists xs : list T, fetch_all p leb s = (s, Ok xs) /\ Forall2 (fun r x => try_from r = Ok x) (selected p leb s) xs.
Proof.
  intros [_ Hok]. destruct (collect_decodes (selected p leb s)) as (xs & Hxs & Hf).
  - intros r [Hr _]%elem_of_selected. by apply Hok.
  - exists xs. split; [|done]. unfold fetch_all. rewrite M_bind_unfold. cbn [gets]. unfold lift. by rewrite Hxs.
Qed.

Lemma fetch_limit_ok s p leb n :
  table_ok T s ->
  exists xs : list T, fetch_limit p leb n s = (s, Ok xs) /\
    Forall2 (fun r x => try_from r = Ok x) (sql_limit n (selected p leb s)) xs.
Proof.
  intros [_ Hok]. destruct (collect_decodes (sql_limit n (selected p leb s))) as (xs & Hxs & Hf).
  - intros r [Hr _]%elem_of_sql_limit%elem_of_selected. by apply Hok.
  - exists xs. split; [|done]. unfold fetch_limit. rewrite M_bind_unfold. cbn [gets]. unfold lift. by rewrite Hxs.
Qed.

(** A listing that succeeds: at most [n] values, each decoded from a selected row. *)
Lemma fetch_limit_inv s p leb n xs :
  0 <= n -> value (fetch_limit (T:=T) p leb n) s = Ok xs ->
  Z.of_nat (length xs) <= n /\ Forall (fun x => exists r, r ∈ rows_of s /\ p r = true /\ try_from r = Ok x) xs.
Proof.
  intros Hn. unfold value, fetch_limit. rewrite M_bind_unfold. cbn [gets]. unfold lift. cbn.
  intros Hxs%collect_inv. apply Forall2_length in Hxs as Hlen. rewrite length_fmap in Hlen. split.
  - rewrite <- Hlen. unfold sql_limit. destruct (n <? 0) eqn:?; [lia|]. rewrite length_take. lia.
  - apply Forall2_fmap_l in Hxs. apply Forall_forall. intros x (i & Hi)%list_elem_of_lookup.
    destruct (Forall2_lookup_r _ _ _ _ _ Hxs Hi) as (r & Hr & Hx). exists r. split; [|split; [|done]].
    all: apply list_elem_of_lookup_2, elem_of_sql_limit, elem_of_selected in Hr; tauto.
Qed.

Lemma fetch_by_id_eq s id :
  fetch_by_id (T:=T) id s = (s, transpose (try_from <$> find (by_id id) (rows_of s))).
Proof. done. Qed.

Lemma fetch_by_id_ok s id :
  table_ok T s -> fetch_by_id (T:=T) id s = (s, Ok None) \/
  exists r x, r ∈ rows_of s /\ row_id r = id /\ try_from r = Ok x /\ fetch_by_id (T:=T) id s = (s, Ok (Some x)).
Proof.
  intros Hok. rewrite fetch_by_id_eq. destruct (find _ _) as [r|] eqn:Hf; [right|by left].
  apply find_Some_elem in Hf as [Hr Hid%by_id_true]. destruct (table_ok_decodes s r Hok Hr) as [x Hx].
  exists r, x. cbn. by rewrite Hx.
Qed.

(** A row just written is read back as the value it was made from. *)
Lemma fetch_inserted `{!CodecOk R T} s (x : T) :
  existsb (by_id (row_id (to_row x))) (rows_of s) = false ->
  value (fetch_by_id (T:=T) (row_id (to_row x))) (put_rows (rows_of s ++ [to_row x]) s) = Ok (Some x).
Proof.
  intros Hnew. unfold value. rewrite fetch_by_id_eq, rows_put, find_snoc by (done || by apply by_id_true).
  cbn. by rewrite try_from_to_row.
Qed.

(** The row an update by id has written. *)
Lemma fetch_updated s id f :
  (forall r, row_id (f r) = row_id r) ->
  value (fetch_by_id (T:=T) id) (put_rows (update_where (by_id id) f (rows_of s)) s) =
  transpose (try_from <$> (f <$> find (by_id id) (rows_of s))).
Proof.
  intros Hf. unfold value. rewrite fetch_by_id_eq, rows_put, find_update_where; [done|done| |done].
  intros r. unfold by_id. by rewrite Hf.
Qed.

(** A statement over many rows, seen through [get]. *)
Lemma find_mapped s s' id p f :
  (forall r, row_id (f r) = row_id r) -> rows_of s' = update_where p f (rows_of s) ->
  find (by_id id) (rows_of s') = (fun r => if p r then f r else r) <$> find (by_id id) (rows_of s).
Proof.
  intros Hf ->. induction (rows_of s) as [|r l IH]; [done|]. cbn.
  assert (by_id id (if p r then f r else r) = by_id id r) as -> by (unfold by_id; destruct (p r); by rewrite ?Hf).
  by destruct (by_id id r).
Qed.

Lemma fetch_mapped s s' id p f (g : T -> T) x :
  (forall r, row_id (f r) = row_id r) -> rows_of s' = update_where p f (rows_of s) ->
  (forall r x, try_from r = Ok x -> try_from (if p r then f r else r) = Ok (g x)) ->
  value (fetch_by_id (T:=T) id) s = Ok (Some x) -> value (fetch_by_id (T:=T) id) s' = Ok (Some (g x)).
Proof.
  intros Hf Hrows Hg. unfold value. rewrite !fetch_by_id_eq, (find_mapped s s' id p f) by done. cbn.
  destruct (find _ _) as [r|]; [|done]. cbn. destruct (try_from r) as [y|] eqn:Hy; [|done].
  intros [= ->]. by rewrite (Hg r x).
Qed.

(** No row of a selection is left. *)
Lemma fetch_limit_none s p leb n :
  (forall r, r ∈ rows_of s -> p r = false) -> value (fetch_limit (T:=T) p leb n) s = Ok [].
Proof.
  intros Hp. unfold value, fetch_limit. rewrite M_bind_unfold. cbn [gets]. unfold selected.
  rewrite filter_none; [by unfold sql_limit, sort_by; case_match; cbn; rewrite ?take_nil|].
  intros r Hr. by rewrite Hp.
Qed.

Lemma fetch_other s id id' f :
  (forall r, row_id (f r) = row_id r) -> id' <> id ->
  value (fetch_by_id (T:=T) id') (put_rows (update_where (by_id id) f (rows_of s)) s) = value (fetch_by_id (T:=T) id') s.
Proof.
  intros Hf Hne. unfold value. rewrite !fetch_by_id_eq, rows_put, find_update_other; [done|].
  intros r Hr%by_id_true. unfold by_id. rewrite Hf, Hr. split; by apply eq_str_false.
Qed.
End Laws.
