(* ===== verification/AgentDb.v ===== *)
(** * Tables of the agents' work (crates/am-db/src/repos)

    Projects, tasks, sessions with their transcripts, Workbench threads with
    their groups, turns and transcripts: the rows, their [TryFrom], and each
    repository function of project.rs, task.rs, session.rs, message.rs,
    agent_thread.rs, agent_turn.rs and agent_thread_message.rs over one store.
    Deletions write out the cascades of the schema among these tables. *)
From Stdlib Require Import SpecFloat Ascii String.
From S2P Require Import Prelude RustStr Json Enums Records WorkGraphDb WorkGraphInv Limits Budget SqlTable.
#[local] Open Scope string_scope.
#[local] Open Scope Z_scope.

(** ** Rows *)

Module ProjectRow.

Record t := mk {
  id : string;
  name : string;
  description : option string;
  created_at : Z;
  updated_at : Z
}.

End ProjectRow.

Module TaskRow.

Record t := mk {
  id : string;
  project_id : string;
  title : string;
  description : option string;
  status : string;
  priority : string;
  primary_agent : option string;
  model : option string;
  model_target : string;
  compute_lease_id : option string;
  compute_provider : option string;
  estimated_compute_cost_usd : option f64;
  fallback_model_target : option string;
  created_at : Z;
  updated_at : Z
}.

Definition set_status (v : string) (r : t) : t :=
  mk r.(id) r.(project_id) r.(title) r.(description) v r.(priority) r.(primary_agent)
    r.(model) r.(model_target) r.(compute_lease_id) r.(compute_provider)
    r.(estimated_compute_cost_usd) r.(fallback_model_target) r.(created_at) r.(updated_at).

Definition set_updated_at (v : Z) (r : t) : t :=
  mk r.(id) r.(project_id) r.(title) r.(description) r.(status) r.(priority)
    r.(primary_agent) r.(model) r.(model_target) r.(compute_lease_id) r.(compute_provider)
    r.(estimated_compute_cost_usd) r.(fallback_model_target) r.(created_at) v.

End TaskRow.

Module SessionRow.

Record t := mk {
  id : string;
  task_id : string;
  agent_kind : string;
  agent_session_id : option string;
  execution_backend : string;
  sandbox_name : option string;
  model : option string;
  reasoning : option string;
  local_provider : option string;
  local_base_url : option string;
  model_target : string;
  compute_lease_id : option string;
  compute_provider : option string;
  estimated_compute_cost_usd : option f64;
  fallback_model_target : option string;
  target_hash : option string;
  policy_envelope_id : option string;
  status : string;
  started_at : Z;
  ended_at : option Z
}.

Definition set_status (v : string) (r : t) : t :=
  mk r.(id) r.(task_id) r.(agent_kind) r.(agent_session_id) r.(execution_backend)
    r.(sandbox_name) r.(model) r.(reasoning) r.(local_provider) r.(local_base_url)
    r.(model_target) r.(compute_lease_id) r.(compute_provider)
    r.(estimated_compute_cost_usd) r.(fallback_model_target) r.(target_hash)
    r.(policy_envelope_id) v r.(started_at) r.(ended_at).

Definition set_agent_session_id (v : option string) (r : t) : t :=
  mk r.(id) r.(task_id) r.(agent_kind) v r.(execution_backend) r.(sandbox_name) r.(model)
    r.(reasoning) r.(local_provider) r.(local_base_url) r.(model_target)
    r.(compute_lease_id) r.(compute_provider) r.(estimated_compute_cost_usd)
    r.(fallback_model_target) r.(target_hash) r.(policy_envelope_id) r.(status)
    r.(started_at) r.(ended_at).

Definition set_ended_at (v : option Z) (r : t) : t :=
  mk r.(id) r.(task_id) r.(agent_kind) r.(agent_session_id) r.(execution_backend)
    r.(sandbox_name) r.(model) r.(reasoning) r.(local_provider) r.(local_base_url)
    r.(model_target) r.(compute_lease_id) r.(compute_provider)
    r.(estimated_compute_cost_usd) r.(fallback_model_target) r.(target_hash)
    r.(policy_envelope_id) r.(status) r.(started_at) v.

End SessionRow.

Module AgentTurnRow.

Record t := mk {
  id : string;
  thread_id : string;
  agent_kind : string;
  agent_session_id : option string;
  status : string;
  permission : string;
  execution_backend : string;
  sandbox_name : option string;
  model : option string;
  reasoning : option string;
  local_provider : option string;
  local_base_url : option string;
  model_target : string;
  compute_lease_id : option string;
  compute_provider : option string;
  estimated_compute_cost_usd : option f64;
  fallback_model_target : option string;
  target_hash : option string;
  policy_envelope_id : option string;
  started_at : Z;
  ended_at : option Z
}.

Definition set_status (v : string) (r : t) : t :=
  mk r.(id) r.(thread_id) r.(agent_kind) r.(agent_session_id) v r.(permission)
    r.(execution_backend) r.(sandbox_name) r.(model) r.(reasoning) r.(local_provider)
    r.(local_base_url) r.(model_target) r.(compute_lease_id) r.(compute_provider)
    r.(estimated_compute_cost_usd) r.(fallback_model_target) r.(target_hash)
    r.(policy_envelope_id) r.(started_at) r.(ended_at).

Definition set_agent_session_id (v : option string) (r : t) : t :=
  mk r.(id) r.(thread_id) r.(agent_kind) v r.(status) r.(permission) r.(execution_backend)
    r.(sandbox_name) r.(model) r.(reasoning) r.(local_provider) r.(local_base_url)
    r.(model_target) r.(compute_lease_id) r.(compute_provider)
    r.(estimated_compute_cost_usd) r.(fallback_model_target) r.(target_hash)
    r.(policy_envelope_id) r.(started_at) r.(ended_at).

Definition set_ended_at (v : option Z) (r : t) : t :=
  mk r.(id) r.(thread_id) r.(agent_kind) r.(agent_session_id) r.(status) r.(permission)
    r.(execution_backend) r.(sandbox_name) r.(model) r.(reasoning) r.(local_provider)
    r.(local_base_url) r.(model_target) r.(compute_lease_id) r.(compute_provider)
    r.(estimated_compute_cost_usd) r.(fallback_model_target) r.(target_hash)
    r.(policy_envelope_id) r.(started_at) v.

End AgentTurnRow.

Module AgentThreadRow.

Record t := mk {
  id : string;
  project_id : option string;
  group_id : option string;
  title : string;
  status : string;
  active_agent : option string;
  preferred_agent : option string;
  permission : string;
  execution_backend : string;
  force_managed_workspace : bool;
  model : option string;
  reasoning : option string;
  local_provider : option string;
  local_base_url : option string;
  model_target : string;
  compute_lease_id : option string;
  compute_provider : option string;
  estimated_compute_cost_usd : option f64;
  fallback_model_target : option string;
  original_agent : option string;
  fallback_agent : option string;
  original_model : option string;
  fallback_model : option string;
  original_reasoning : option string;
  fallback_reasoning : option string;
  original_local_provider : option string;
  fallback_local_provider : option string;
  original_local_base_url : option string;
  fallback_local_base_url : option string;
  switch_back_pending : bool;
  limit_reset_at : option Z;
  switch_back : bool;
  handoff_state : string;
  provider_account_id : option string;
  objective : string;
  decisions : string;
  progress : string;
  open_questions : string;
  next_actions : string;
  task_budget : string;
  sort_order : Z;
  created_at : Z;
  updated_at : Z
}.

Definition set_status (v : string) (r : t) : t :=
  mk r.(id) r.(project_id) r.(group_id) r.(title) v r.(active_agent) r.(preferred_agent)
    r.(permission) r.(execution_backend) r.(force_managed_workspace) r.(model)
    r.(reasoning) r.(local_provider) r.(local_base_url) r.(model_target)
    r.(compute_lease_id) r.(compute_provider) r.(estimated_compute_cost_usd)
    r.(fallback_model_target) r.(original_agent) r.(fallback_agent) r.(original_model)
    r.(fallback_model) r.(original_reasoning) r.(fallback_reasoning)
    r.(original_local_provider) r.(fallback_local_provider) r.(original_local_base_url)
    r.(fallback_local_base_url) r.(switch_back_pending) r.(limit_reset_at) r.(switch_back)
    r.(handoff_state) r.(provider_account_id) r.(objective) r.(decisions) r.(progress)
    r.(open_questions) r.(next_actions) r.(task_budget) r.(sort_order) r.(created_at)
    r.(updated_at).

Definition set_objective (v : string) (r : t) : t :=
  mk r.(id) r.(project_id) r.(group_id) r.(title) r.(status) r.(active_agent)
    r.(preferred_agent) r.(permission) r.(execution_backend) r.(force_managed_workspace)
    r.(model) r.(reasoning) r.(local_provider) r.(local_base_url) r.(model_target)
    r.(compute_lease_id) r.(compute_provider) r.(estimated_compute_cost_usd)
    r.(fallback_model_target) r.(original_agent) r.(fallback_agent) r.(original_model)
    r.(fallback_model) r.(original_reasoning) r.(fallback_reasoning)
    r.(original_local_provider) r.(fallback_local_provider) r.(original_local_base_url)
    r.(fallback_local_base_url) r.(switch_back_pending) r.(limit_reset_at) r.(switch_back)
    r.(handoff_state) r.(provider_account_id) v r.(decisions) r.(progress)
    r.(open_questions) r.(next_actions) r.(task_budget) r.(sort_order) r.(created_at)
    r.(updated_at).

Definition set_decisions (v : string) (r : t) : t :=
  mk r.(id) r.(project_id) r.(group_id) r.(title) r.(status) r.(active_agent)
    r.(preferred_agent) r.(permission) r.(execution_backend) r.(force_managed_workspace)
    r.(model) r.(reasoning) r.(local_provider) r.(local_base_url) r.(model_target)
    r.(compute_lease_id) r.(compute_provider) r.(estimated_compute_cost_usd)
    r.(fallback_model_target) r.(original_agent) r.(fallback_agent) r.(original_model)
    r.(fallback_model) r.(original_reasoning) r.(fallback_reasoning)
    r.(original_local_provider) r.(fallback_local_provider) r.(original_local_base_url)
    r.(fallback_local_base_url) r.(switch_back_pending) r.(limit_reset_at) r.(switch_back)
    r.(handoff_state) r.(provider_account_id) r.(objective) v r.(progress)
    r.(open_questions) r.(next_actions) r.(task_budget) r.(sort_order) r.(created_at)
    r.(updated_at).

Definition set_progress (v : string) (r : t) : t :=
  mk r.(id) r.(project_id) r.(group_id) r.(title) r.(status) r.(active_agent)
    r.(preferred_agent) r.(permission) r.(execution_backend) r.(force_managed_workspace)
    r.(model) r.(reasoning) r.(local_provider) r.(local_base_url) r.(model_target)
    r.(compute_lease_id) r.(compute_provider) r.(estimated_compute_cost_usd)
    r.(fallback_model_target) r.(original_agent) r.(fallback_agent) r.(original_model)
    r.(fallback_model) r.(original_reasoning) r.(fallback_reasoning)
    r.(original_local_provider) r.(fallback_local_provider) r.(original_local_base_url)
    r.(fallback_local_base_url) r.(switch_back_pending) r.(limit_reset_at) r.(switch_back)
    r.(handoff_state) r.(provider_account_id) r.(objective) r.(decisions) v
    r.(open_questions) r.(next_actions) r.(task_budget) r.(sort_order) r.(created_at)
    r.(updated_at).

Definition set_open_questions (v : string) (r : t) : t :=
  mk r.(id) r.(project_id) r.(group_id) r.(title) r.(status) r.(active_agent)
    r.(preferred_agent) r.(permission) r.(execution_backend) r.(force_managed_workspace)
    r.(model) r.(reasoning) r.(local_provider) r.(local_base_url) r.(model_target)
    r.(compute_lease_id) r.(compute_provider) r.(estimated_compute_cost_usd)
    r.(fallback_model_target) r.(original_agent) r.(fallback_agent) r.(original_model)
    r.(fallback_model) r.(original_reasoning) r.(fallback_reasoning)
    r.(original_local_provider) r.(fallback_local_provider) r.(original_local_base_url)
    r.(fallback_local_base_url) r.(switch_back_pending) r.(limit_reset_at) r.(switch_back)
    r.(handoff_state) r.(provider_account_id) r.(objective) r.(decisions) r.(progress) v
    r.(next_actions) r.(task_budget) r.(sort_order) r.(created_at) r.(updated_at).

Definition set_next_actions (v : string) (r : t) : t :=
  mk r.(id) r.(project_id) r.(group_id) r.(title) r.(status) r.(active_agent)
    r.(preferred_agent) r.(permission) r.(execution_backend) r.(force_managed_workspace)
    r.(model) r.(reasoning) r.(local_provider) r.(local_base_url) r.(model_target)
    r.(compute_lease_id) r.(compute_provider) r.(estimated_compute_cost_usd)
    r.(fallback_model_target) r.(original_agent) r.(fallback_agent) r.(original_model)
    r.(fallback_model) r.(original_reasoning) r.(fallback_reasoning)
    r.(original_local_provider) r.(fallback_local_provider) r.(original_local_base_url)
    r.(fallback_local_base_url) r.(switch_back_pending) r.(limit_reset_at) r.(switch_back)
    r.(handoff_state) r.(provider_account_id) r.(objective) r.(decisions) r.(progress)
    r.(open_questions) v r.(task_budget) r.(sort_order) r.(created_at) r.(updated_at).

Definition set_project_id (v : option string) (r : t) : t :=
  mk r.(id) v r.(group_id) r.(title) r.(status) r.(active_agent) r.(preferred_agent)
    r.(permission) r.(execution_backend) r.(force_managed_workspace) r.(model)
    r.(reasoning) r.(local_provider) r.(local_base_url) r.(model_target)
    r.(compute_lease_id) r.(compute_provider) r.(estimated_compute_cost_usd)
    r.(fallback_model_target) r.(original_agent) r.(fallback_agent) r.(original_model)
    r.(fallback_model) r.(original_reasoning) r.(fallback_reasoning)
    r.(original_local_provider) r.(fallback_local_provider) r.(original_local_base_url)
    r.(fallback_local_base_url) r.(switch_back_pending) r.(limit_reset_at) r.(switch_back)
    r.(handoff_state) r.(provider_account_id) r.(objective) r.(decisions) r.(progress)
    r.(open_questions) r.(next_actions) r.(task_budget) r.(sort_order) r.(created_at)
    r.(updated_at).

Definition set_group_id (v : option string) (r : t) : t :=
  mk r.(id) r.(project_id) v r.(title) r.(status) r.(active_agent) r.(preferred_agent)
    r.(permission) r.(execution_backend) r.(force_managed_workspace) r.(model)
    r.(reasoning) r.(local_provider) r.(local_base_url) r.(model_target)
    r.(compute_lease_id) r.(compute_provider) r.(estimated_compute_cost_usd)
    r.(fallback_model_target) r.(original_agent) r.(fallback_agent) r.(original_model)
    r.(fallback_model) r.(original_reasoning) r.(fallback_reasoning)
    r.(original_local_provider) r.(fallback_local_provider) r.(original_local_base_url)
    r.(fallback_local_base_url) r.(switch_back_pending) r.(limit_reset_at) r.(switch_back)
    r.(handoff_state) r.(provider_account_id) r.(objective) r.(decisions) r.(progress)
    r.(open_questions) r.(next_actions) r.(task_budget) r.(sort_order) r.(created_at)
    r.(updated_at).

Definition set_handoff_state (v : string) (r : t) : t :=
  mk r.(id) r.(project_id) r.(group_id) r.(title) r.(status) r.(active_agent)
    r.(preferred_agent) r.(permission) r.(execution_backend) r.(force_managed_workspace)
    r.(model) r.(reasoning) r.(local_provider) r.(local_base_url) r.(model_target)
    r.(compute_lease_id) r.(compute_provider) r.(estimated_compute_cost_usd)
    r.(fallback_model_target) r.(original_agent) r.(fallback_agent) r.(original_model)
    r.(fallback_model) r.(original_reasoning) r.(fallback_reasoning)
    r.(original_local_provider) r.(fallback_local_provider) r.(original_local_base_url)
    r.(fallback_local_base_url) r.(switch_back_pending) r.(limit_reset_at) r.(switch_back)
    v r.(provider_account_id) r.(objective) r.(decisions) r.(progress) r.(open_questions)
    r.(next_actions) r.(task_budget) r.(sort_order) r.(created_at) r.(updated_at).

Definition set_updated_at (v : Z) (r : t) : t :=
  mk r.(id) r.(project_id) r.(group_id) r.(title) r.(status) r.(active_agent)
    r.(preferred_agent) r.(permission) r.(execution_backend) r.(force_managed_workspace)
    r.(model) r.(reasoning) r.(local_provider) r.(local_base_url) r.(model_target)
    r.(compute_lease_id) r.(compute_provider) r.(estimated_compute_cost_usd)
    r.(fallback_model_target) r.(original_agent) r.(fallback_agent) r.(original_model)
    r.(fallback_model) r.(original_reasoning) r.(fallback_reasoning)
    r.(original_local_provider) r.(fallback_local_provider) r.(original_local_base_url)
    r.(fallback_local_base_url) r.(switch_back_pending) r.(limit_reset_at) r.(switch_back)
    r.(handoff_state) r.(provider_account_id) r.(objective) r.(decisions) r.(progress)
    r.(open_questions) r.(next_actions) r.(task_budget) r.(sort_order) r.(created_at) v.

Definition set_sort_order (v : Z) (r : t) : t :=
  mk r.(id) r.(project_id) r.(group_id) r.(title) r.(status) r.(active_agent)
    r.(preferred_agent) r.(permission) r.(execution_backend) r.(force_managed_workspace)
    r.(model) r.(reasoning) r.(local_provider) r.(local_base_url) r.(model_target)
    r.(compute_lease_id) r.(compute_provider) r.(estimated_compute_cost_usd)
    r.(fallback_model_target) r.(original_agent) r.(fallback_agent) r.(original_model)
    r.(fallback_model) r.(original_reasoning) r.(fallback_reasoning)
    r.(original_local_provider) r.(fallback_local_provider) r.(original_local_base_url)
    r.(fallback_local_base_url) r.(switch_back_pending) r.(limit_reset_at) r.(switch_back)
    r.(handoff_state) r.(provider_account_id) r.(objective) r.(decisions) r.(progress)
    r.(open_questions) r.(next_actions) r.(task_budget) v r.(created_at) r.(updated_at).

End AgentThreadRow.

Module WorkbenchSessionGroupRow.

Record t := mk {
  id : string;
  project_id : option string;
  name : string;
  color : string;
  collapsed : bool;
  sort_order : Z;
  created_at : Z;
  updated_at : Z
}.

End WorkbenchSessionGroupRow.

Module SessionMessageRow.

Record t := mk {
  id : string;
  session_id : string;
  role : string;
  kind : string;
  content_json : string;
  ts : Z
}.

End SessionMessageRow.

Module ThreadMessageRow.

Record t := mk {
  id : string;
  thread_id : string;
  turn_id : string;
  role : string;
  kind : string;
  content_json : string;
  ts : Z
}.

Definition set_content_json (v : string) (r : t) : t :=
  mk r.(id) r.(thread_id) r.(turn_id) r.(role) r.(kind) v r.(ts).

End ThreadMessageRow.

Record AgentDb := mkAgentDb {
  projects : list ProjectRow.t;
  envelopes : gset string;
  tasks : list TaskRow.t;
  sessions : list SessionRow.t;
  messages : list SessionMessageRow.t;
  groups : list WorkbenchSessionGroupRow.t;
  threads : list AgentThreadRow.t;
  turns : list AgentTurnRow.t;
  thread_messages : list ThreadMessageRow.t
}.

Definition put_projects v db := mkAgentDb v db.(envelopes) db.(tasks) db.(sessions) db.(messages) db.(groups) db.(threads) db.(turns) db.(thread_messages).
Definition put_tasks v db := mkAgentDb db.(projects) db.(envelopes) v db.(sessions) db.(messages) db.(groups) db.(threads) db.(turns) db.(thread_messages).
Definition put_sessions v db := mkAgentDb db.(projects) db.(envelopes) db.(tasks) v db.(messages) db.(groups) db.(threads) db.(turns) db.(thread_messages).
Definition put_messages v db := mkAgentDb db.(projects) db.(envelopes) db.(tasks) db.(sessions) v db.(groups) db.(threads) db.(turns) db.(thread_messages).
Definition put_groups v db := mkAgentDb db.(projects) db.(envelopes) db.(tasks) db.(sessions) db.(messages) v db.(threads) db.(turns) db.(thread_messages).
Definition put_threads v db := mkAgentDb db.(projects) db.(envelopes) db.(tasks) db.(sessions) db.(messages) db.(groups) v db.(turns) db.(thread_messages).
Definition put_turns v db := mkAgentDb db.(projects) db.(envelopes) db.(tasks) db.(sessions) db.(messages) db.(groups) db.(threads) v db.(thread_messages).
Definition put_thread_messages v db := mkAgentDb db.(projects) db.(envelopes) db.(tasks) db.(sessions) db.(messages) db.(groups) db.(threads) db.(turns) v.

Abbreviation AgentM := (M AgentDb DbError).

(** ** Keys and foreign keys *)

Definition keyed {R} (key : R -> string) (rows : list R) (id : string) : bool := existsb (fun r => eq_str (key r) id) rows.
Definition keyed_opt {R} (key : R -> string) (rows : list R) (id : option string) : bool := is_none_or id (keyed key rows).
Definition enveloped (db : AgentDb) (id : option string) : bool := is_none_or id (fun e => bool_decide (e ∈ db.(envelopes))).

#[global] Instance project_table : Table AgentDb ProjectRow.t := {
  row_id := ProjectRow.id; rows_of := projects; put_rows := put_projects;
  references_ok db r := true }.
#[global] Instance task_table : Table AgentDb TaskRow.t := {
  row_id := TaskRow.id; rows_of := tasks; put_rows := put_tasks;
  references_ok db r := keyed ProjectRow.id db.(projects) r.(TaskRow.project_id) }.
#[global] Instance session_table : Table AgentDb SessionRow.t := {
  row_id := SessionRow.id; rows_of := sessions; put_rows := put_sessions;
  references_ok db r := keyed TaskRow.id db.(tasks) r.(SessionRow.task_id) && enveloped db r.(SessionRow.policy_envelope_id) }.
#[global] Instance message_table : Table AgentDb SessionMessageRow.t := {
  row_id := SessionMessageRow.id; rows_of := messages; put_rows := put_messages;
  references_ok db r := keyed SessionRow.id db.(sessions) r.(SessionMessageRow.session_id) }.
#[global] Instance group_table : Table AgentDb WorkbenchSessionGroupRow.t := {
  row_id := WorkbenchSessionGroupRow.id; rows_of := groups; put_rows := put_groups;
  references_ok db r := keyed_opt ProjectRow.id db.(projects) r.(WorkbenchSessionGroupRow.project_id) }.
#[global] Instance thread_table : Table AgentDb AgentThreadRow.t := {
  row_id := AgentThreadRow.id; rows_of := threads; put_rows := put_threads;
  references_ok db r := keyed_opt ProjectRow.id db.(projects) r.(AgentThreadRow.project_id) &&
                        keyed_opt WorkbenchSessionGroupRow.id db.(groups) r.(AgentThreadRow.group_id) }.
#[global] Instance turn_table : Table AgentDb AgentTurnRow.t := {
  row_id := AgentTurnRow.id; rows_of := turns; put_rows := put_turns;
  references_ok db r := keyed AgentThreadRow.id db.(threads) r.(AgentTurnRow.thread_id) && enveloped db r.(AgentTurnRow.policy_envelope_id) }.
#[global] Instance thread_message_table : Table AgentDb ThreadMessageRow.t := {
  row_id := ThreadMessageRow.id; rows_of := thread_messages; put_rows := put_thread_messages;
  references_ok db r := keyed AgentThreadRow.id db.(threads) r.(ThreadMessageRow.thread_id) &&
                        keyed AgentTurnRow.id db.(turns) r.(ThreadMessageRow.turn_id) }.

(** The derived [Serialize]/[Deserialize] of [TaskBudget]: a value tagged by
    [mode]; the error of reading one is its text. *)
Class BudgetSerde (V : Type) := {
  budget_to_value : TaskBudget.t -> V;
  budget_from_value : V -> result string TaskBudget.t
}.

Class BudgetSerdeOk (V : Type) `{Json V} `{BudgetSerde V} : Prop := {
  budget_roundtrip : forall b, budget_from_value (budget_to_value b) = Ok b;
  budget_mode : forall b, exists mode, json_get (budget_to_value b) "mode" ≫= json_as_str = Some mode /\
    mode = match b with
           | TaskBudget.Unlimited => "unlimited"
           | TaskBudget.Tokens _ => "tokens"
           | TaskBudget.WeeklyPercent _ => "weekly_percent"
           end
}.

(** ** Decoding rows *)

Definition project_row (x : Project.t) : ProjectRow.t :=
  ProjectRow.mk x.(Project.id) x.(Project.name) x.(Project.description) x.(Project.created_at)
    x.(Project.updated_at).

Definition project_try_from (r : ProjectRow.t) : result DbError Project.t :=
  mret (Project.mk r.(ProjectRow.id) r.(ProjectRow.name) r.(ProjectRow.description) r.(ProjectRow.created_at)
    r.(ProjectRow.updated_at)).

#[global] Instance project_codec : Codec ProjectRow.t Project.t := { to_row := project_row; try_from := project_try_from }.

Definition task_row (x : Task.t) : TaskRow.t :=
  TaskRow.mk x.(Task.id) x.(Task.project_id) x.(Task.title) x.(Task.description) (wire x.(Task.status))
    (wire x.(Task.priority)) (wire <$> x.(Task.primary_agent)) x.(Task.model) (wire x.(Task.model_target))
    x.(Task.compute_lease_id) (wire <$> x.(Task.compute_provider)) x.(Task.estimated_compute_cost_usd)
    (wire <$> x.(Task.fallback_model_target)) x.(Task.created_at) x.(Task.updated_at).

Definition task_try_from (r : TaskRow.t) : result DbError Task.t :=
  status ← decode r.(TaskRow.status);
  priority ← decode r.(TaskRow.priority);
  primary_agent ← decode_opt r.(TaskRow.primary_agent);
  model_target ← decode r.(TaskRow.model_target);
  compute_provider ← decode_opt r.(TaskRow.compute_provider);
  fallback_model_target ← decode_opt r.(TaskRow.fallback_model_target);
  mret (Task.mk r.(TaskRow.id) r.(TaskRow.project_id) r.(TaskRow.title) r.(TaskRow.description) status priority
    primary_agent r.(TaskRow.model) model_target r.(TaskRow.compute_lease_id) compute_provider
    r.(TaskRow.estimated_compute_cost_usd) fallback_model_target r.(TaskRow.created_at) r.(TaskRow.updated_at)).

Definition task_columns (x : Task.t) (r : TaskRow.t) : TaskRow.t :=
  TaskRow.mk r.(TaskRow.id) r.(TaskRow.project_id) x.(Task.title) x.(Task.description) (wire x.(Task.status))
    (wire x.(Task.priority)) (wire <$> x.(Task.primary_agent)) x.(Task.model) (wire x.(Task.model_target))
    x.(Task.compute_lease_id) (wire <$> x.(Task.compute_provider)) x.(Task.estimated_compute_cost_usd)
    (wire <$> x.(Task.fallback_model_target)) r.(TaskRow.created_at) x.(Task.updated_at).

#[global] Instance task_codec : Codec TaskRow.t Task.t := { to_row := task_row; try_from := task_try_from }.

Definition session_row (x : Session.t) : SessionRow.t :=
  SessionRow.mk x.(Session.id) x.(Session.task_id) (wire x.(Session.agent_kind)) x.(Session.agent_session_id)
    (wire x.(Session.execution_backend)) x.(Session.sandbox_name) x.(Session.model) x.(Session.reasoning)
    (wire <$> x.(Session.local_provider)) x.(Session.local_base_url) (wire x.(Session.model_target))
    x.(Session.compute_lease_id) (wire <$> x.(Session.compute_provider)) x.(Session.estimated_compute_cost_usd)
    (wire <$> x.(Session.fallback_model_target)) x.(Session.target_hash) x.(Session.policy_envelope_id)
    (wire x.(Session.state)) x.(Session.started_at) x.(Session.ended_at).

Definition session_try_from (r : SessionRow.t) : result DbError Session.t :=
  agent_kind ← decode r.(SessionRow.agent_kind);
  state ← decode r.(SessionRow.status);
  execution_backend ← decode r.(SessionRow.execution_backend);
  local_provider ← decode_opt r.(SessionRow.local_provider);
  model_target ← decode r.(SessionRow.model_target);
  compute_provider ← decode_opt r.(SessionRow.compute_provider);
  fallback_model_target ← decode_opt r.(SessionRow.fallback_model_target);
  mret (Session.mk r.(SessionRow.id) r.(SessionRow.task_id) agent_kind r.(SessionRow.agent_session_id)
    execution_backend r.(SessionRow.sandbox_name) r.(SessionRow.model) r.(SessionRow.reasoning) local_provider
    r.(SessionRow.local_base_url) model_target r.(SessionRow.compute_lease_id) compute_provider
    r.(SessionRow.estimated_compute_cost_usd) fallback_model_target r.(SessionRow.target_hash)
    r.(SessionRow.policy_envelope_id) state r.(SessionRow.started_at) r.(SessionRow.ended_at)).

#[global] Instance session_codec : Codec SessionRow.t Session.t := { to_row := session_row; try_from := session_try_from }.

Definition turn_row (x : AgentTurn.t) : AgentTurnRow.t :=
  AgentTurnRow.mk x.(AgentTurn.id) x.(AgentTurn.thread_id) (wire x.(AgentTurn.agent_kind))
    x.(AgentTurn.agent_session_id) (wire x.(AgentTurn.state)) x.(AgentTurn.permission)
    (wire x.(AgentTurn.execution_backend)) x.(AgentTurn.sandbox_name) x.(AgentTurn.model)
    x.(AgentTurn.reasoning) (wire <$> x.(AgentTurn.local_provider)) x.(AgentTurn.local_base_url)
    (wire x.(AgentTurn.model_target)) x.(AgentTurn.compute_lease_id) (wire <$> x.(AgentTurn.compute_provider))
    x.(AgentTurn.estimated_compute_cost_usd) (wire <$> x.(AgentTurn.fallback_model_target))
    x.(AgentTurn.target_hash) x.(AgentTurn.policy_envelope_id) x.(AgentTurn.started_at) x.(AgentTurn.ended_at).

Definition turn_try_from (r : AgentTurnRow.t) : result DbError AgentTurn.t :=
  agent_kind ← decode r.(AgentTurnRow.agent_kind);
  state ← decode r.(AgentTurnRow.status);
  execution_backend ← decode r.(AgentTurnRow.execution_backend);
  local_provider ← decode_opt r.(AgentTurnRow.local_provider);
  model_target ← decode r.(AgentTurnRow.model_target);
  compute_provider ← decode_opt r.(AgentTurnRow.compute_provider);
  fallback_model_target ← decode_opt r.(AgentTurnRow.fallback_model_target);
  mret (AgentTurn.mk r.(AgentTurnRow.id) r.(AgentTurnRow.thread_id) agent_kind
    r.(AgentTurnRow.agent_session_id) state r.(AgentTurnRow.permission) execution_backend
    r.(AgentTurnRow.sandbox_name) r.(AgentTurnRow.model) r.(AgentTurnRow.reasoning) local_provider
    r.(AgentTurnRow.local_base_url) model_target r.(AgentTurnRow.compute_lease_id) compute_provider
    r.(AgentTurnRow.estimated_compute_cost_usd) fallback_model_target r.(AgentTurnRow.target_hash)
    r.(AgentTurnRow.policy_envelope_id) r.(AgentTurnRow.started_at) r.(AgentTurnRow.ended_at)).

#[global] Instance turn_codec : Codec AgentTurnRow.t AgentTurn.t := { to_row := turn_row; try_from := turn_try_from }.

Definition group_row (x : WorkbenchSessionGroup.t) : WorkbenchSessionGroupRow.t :=
  WorkbenchSessionGroupRow.mk x.(WorkbenchSessionGroup.id) x.(WorkbenchSessionGroup.project_id)
    x.(WorkbenchSessionGroup.name) x.(WorkbenchSessionGroup.color) x.(WorkbenchSessionGroup.collapsed)
    x.(WorkbenchSessionGroup.sort_order) x.(WorkbenchSessionGroup.created_at)
    x.(WorkbenchSessionGroup.updated_at).

Definition group_try_from (r : WorkbenchSessionGroupRow.t) : result DbError WorkbenchSessionGroup.t :=
  mret (WorkbenchSessionGroup.mk r.(WorkbenchSessionGroupRow.id) r.(WorkbenchSessionGroupRow.project_id)
    r.(WorkbenchSessionGroupRow.name) r.(WorkbenchSessionGroupRow.color) r.(WorkbenchSessionGroupRow.collapsed)
    r.(WorkbenchSessionGroupRow.sort_order) r.(WorkbenchSessionGroupRow.created_at)
    r.(WorkbenchSessionGroupRow.updated_at)).

Definition group_columns (x : WorkbenchSessionGroup.t) (r : WorkbenchSessionGroupRow.t) : WorkbenchSessionGroupRow.t :=
  WorkbenchSessionGroupRow.mk r.(WorkbenchSessionGroupRow.id) r.(WorkbenchSessionGroupRow.project_id)
    x.(WorkbenchSessionGroup.name) x.(WorkbenchSessionGroup.color) x.(WorkbenchSessionGroup.collapsed)
    x.(WorkbenchSessionGroup.sort_order) r.(WorkbenchSessionGroupRow.created_at)
    x.(WorkbenchSessionGroup.updated_at).

#[global] Instance group_codec : Codec WorkbenchSessionGroupRow.t WorkbenchSessionGroup.t := {
  to_row := group_row; try_from := group_try_from }.

Section ThreadCodec.
Context {V : Type} `{Json V} `{!BudgetSerde V}.

Definition budget_text (b : TaskBudget.t) : string := json_to_string (budget_to_value b).

(** [map_err(|err| DbError::Serde(err.to_string()))]. *)
Definition serde_error {A} (r : result string A) : result DbError A :=
  match r with Ok a => Ok a | Err msg => Err (Serde msg) end.

Definition parse_task_budget (value : string) : result DbError TaskBudget.t :=
  raw ← serde_error (json_from_str value);
  if bool_decide (json_get raw "mode" ≫= json_as_str = Some "claude_percent") then Ok TaskBudget.Unlimited
  else serde_error (budget_from_value raw).

Definition thread_row (x : AgentThread.t) : AgentThreadRow.t :=
  AgentThreadRow.mk x.(AgentThread.id) x.(AgentThread.project_id) x.(AgentThread.group_id)
    x.(AgentThread.title) (wire x.(AgentThread.status)) (wire <$> x.(AgentThread.active_agent))
    (wire <$> x.(AgentThread.preferred_agent)) x.(AgentThread.permission)
    (wire x.(AgentThread.execution_backend)) x.(AgentThread.force_managed_workspace) x.(AgentThread.model)
    x.(AgentThread.reasoning) (wire <$> x.(AgentThread.local_provider)) x.(AgentThread.local_base_url)
    (wire x.(AgentThread.model_target)) x.(AgentThread.compute_lease_id)
    (wire <$> x.(AgentThread.compute_provider)) x.(AgentThread.estimated_compute_cost_usd)
    (wire <$> x.(AgentThread.fallback_model_target)) (wire <$> x.(AgentThread.original_agent))
    (wire <$> x.(AgentThread.fallback_agent)) x.(AgentThread.original_model) x.(AgentThread.fallback_model)
    x.(AgentThread.original_reasoning) x.(AgentThread.fallback_reasoning)
    (wire <$> x.(AgentThread.original_local_provider)) (wire <$> x.(AgentThread.fallback_local_provider))
    x.(AgentThread.original_local_base_url) x.(AgentThread.fallback_local_base_url)
    x.(AgentThread.switch_back_pending) x.(AgentThread.limit_reset_at) x.(AgentThread.switch_back)
    x.(AgentThread.handoff_state) x.(AgentThread.provider_account_id) x.(AgentThread.objective)
    x.(AgentThread.decisions) x.(AgentThread.progress) x.(AgentThread.open_questions)
    x.(AgentThread.next_actions) (budget_text x.(AgentThread.task_budget)) x.(AgentThread.sort_order)
    x.(AgentThread.created_at) x.(AgentThread.updated_at).

Definition thread_try_from (r : AgentThreadRow.t) : result DbError AgentThread.t :=
  status ← decode r.(AgentThreadRow.status);
  active_agent ← decode_opt r.(AgentThreadRow.active_agent);
  preferred_agent ← decode_opt r.(AgentThreadRow.preferred_agent);
  execution_backend ← decode r.(AgentThreadRow.execution_backend);
  local_provider ← decode_opt r.(AgentThreadRow.local_provider);
  model_target ← decode r.(AgentThreadRow.model_target);
  compute_provider ← decode_opt r.(AgentThreadRow.compute_provider);
  fallback_model_target ← decode_opt r.(AgentThreadRow.fallback_model_target);
  original_agent ← decode_opt r.(AgentThreadRow.original_agent);
  fallback_agent ← decode_opt r.(AgentThreadRow.fallback_agent);
  original_local_provider ← decode_opt r.(AgentThreadRow.original_local_provider);
  fallback_local_provider ← decode_opt r.(AgentThreadRow.fallback_local_provider);
  task_budget ← parse_task_budget r.(AgentThreadRow.task_budget);
  mret (AgentThread.mk r.(AgentThreadRow.id) r.(AgentThreadRow.project_id) r.(AgentThreadRow.group_id)
    r.(AgentThreadRow.title) status active_agent preferred_agent r.(AgentThreadRow.permission)
    execution_backend r.(AgentThreadRow.force_managed_workspace) r.(AgentThreadRow.model)
    r.(AgentThreadRow.reasoning) local_provider r.(AgentThreadRow.local_base_url) model_target
    r.(AgentThreadRow.compute_lease_id) compute_provider r.(AgentThreadRow.estimated_compute_cost_usd)
    fallback_model_target original_agent fallback_agent r.(AgentThreadRow.original_model)
    r.(AgentThreadRow.fallback_model) r.(AgentThreadRow.original_reasoning)
    r.(AgentThreadRow.fallback_reasoning) original_local_provider fallback_local_provider
    r.(AgentThreadRow.original_local_base_url) r.(AgentThreadRow.fallback_local_base_url)
    r.(AgentThreadRow.switch_back_pending) r.(AgentThreadRow.limit_reset_at) r.(AgentThreadRow.switch_back)
    r.(AgentThreadRow.handoff_state) r.(AgentThreadRow.provider_account_id) r.(AgentThreadRow.objective)
    r.(AgentThreadRow.decisions) r.(AgentThreadRow.progress) r.(AgentThreadRow.open_questions)
    r.(AgentThreadRow.next_actions) task_budget r.(AgentThreadRow.sort_order) r.(AgentThreadRow.created_at)
    r.(AgentThreadRow.updated_at)).

Definition thread_columns (x : AgentThread.t) (r : AgentThreadRow.t) : AgentThreadRow.t :=
  AgentThreadRow.mk r.(AgentThreadRow.id) r.(AgentThreadRow.project_id) x.(AgentThread.group_id)
    x.(AgentThread.title) (wire x.(AgentThread.status)) (wire <$> x.(AgentThread.active_agent))
    (wire <$> x.(AgentThread.preferred_agent)) x.(AgentThread.permission)
    (wire x.(AgentThread.execution_backend)) r.(AgentThreadRow.force_managed_workspace) x.(AgentThread.model)
    x.(AgentThread.reasoning) (wire <$> x.(AgentThread.local_provider)) x.(AgentThread.local_base_url)
    (wire x.(AgentThread.model_target)) x.(AgentThread.compute_lease_id)
    (wire <$> x.(AgentThread.compute_provider)) x.(AgentThread.estimated_compute_cost_usd)
    (wire <$> x.(AgentThread.fallback_model_target)) (wire <$> x.(AgentThread.original_agent))
    (wire <$> x.(AgentThread.fallback_agent)) x.(AgentThread.original_model) x.(AgentThread.fallback_model)
    x.(AgentThread.original_reasoning) x.(AgentThread.fallback_reasoning)
    (wire <$> x.(AgentThread.original_local_provider)) (wire <$> x.(AgentThread.fallback_local_provider))
    x.(AgentThread.original_local_base_url) x.(AgentThread.fallback_local_base_url)
    x.(AgentThread.switch_back_pending) x.(AgentThread.limit_reset_at) x.(AgentThread.switch_back)
    x.(AgentThread.handoff_state) x.(AgentThread.provider_account_id) x.(AgentThread.objective)
    x.(AgentThread.decisions) x.(AgentThread.progress) x.(AgentThread.open_questions)
    x.(AgentThread.next_actions) (budget_text x.(AgentThread.task_budget)) x.(AgentThread.sort_order)
    r.(AgentThreadRow.created_at) x.(AgentThread.updated_at).

#[global] Instance thread_codec : Codec AgentThreadRow.t AgentThread.t := { to_row := thread_row; try_from := thread_try_from }.
End ThreadCodec.

(** [Some("")] clears, [None] keeps. *)
Definition clearable (patch current : option string) : option string :=
  match patch with
  | Some value => if is_empty value then None else Some value
  | None => current
  end.

Definition newest_first {R} (at_ : R -> Z) (a b : R) : bool := at_ b <=? at_ a.
Definition oldest_first {R} (at_ : R -> Z) (a b : R) : bool := at_ a <=? at_ b.

(** ** Projects (project.rs) *)
Module Projects.

Definition create (ts : Z) (id : string) (input : NewProject.t) : AgentM Project.t :=
  let project := Project.mk id input.(NewProject.name) input.(NewProject.description) ts ts in
  _ ← insert_row (project_row project);
  mret project.

Definition list_all : AgentM (list Project.t) := fetch_all (fun _ => true) (newest_first ProjectRow.created_at).

Definition get_project (id : string) : AgentM (option Project.t) := fetch_by_id id.

(** The schema deletes the project's tasks (with their sessions and transcripts)
    and groups, and takes its threads out of it. *)
Definition delete (id : string) : AgentM () :=
  modify (fun db =>
    let ours := filter (fun t => t.(TaskRow.project_id) = id) db.(tasks) in
    let dead_sessions := filter (fun s => s.(SessionRow.task_id) ∈ TaskRow.id <$> ours) db.(sessions) in
    let dead_groups := filter (fun g => g.(WorkbenchSessionGroupRow.project_id) = Some id) db.(groups) in
    mkAgentDb (filter (fun p => p.(ProjectRow.id) <> id) db.(projects)) db.(envelopes)
      (filter (fun t => t.(TaskRow.project_id) <> id) db.(tasks))
      (filter (fun s => s.(SessionRow.task_id) ∉ TaskRow.id <$> ours) db.(sessions))
      (filter (fun m => m.(SessionMessageRow.session_id) ∉ SessionRow.id <$> dead_sessions) db.(messages))
      (filter (fun g => g.(WorkbenchSessionGroupRow.project_id) <> Some id) db.(groups))
      ((fun t => AgentThreadRow.set_project_id (if bool_decide (t.(AgentThreadRow.project_id) = Some id) then None
                                                else t.(AgentThreadRow.project_id))
                 (AgentThreadRow.set_group_id (t.(AgentThreadRow.group_id) ≫= fun g =>
                    if bool_decide (g ∈ WorkbenchSessionGroupRow.id <$> dead_groups) then None else Some g) t))
         <$> db.(threads))
      db.(turns) db.(thread_messages)).

End Projects.

(** ** Tasks (task.rs) *)
Module Tasks.

Definition create (ts : Z) (id : string) (input : NewTask.t) : AgentM Task.t :=
  let task := Task.mk id input.(NewTask.project_id) input.(NewTask.title) input.(NewTask.description) TaskStatus.Draft
                input.(NewTask.priority) input.(NewTask.primary_agent) input.(NewTask.model)
                (default ModelTargetKind.default input.(NewTask.model_target)) input.(NewTask.compute_lease_id)
                input.(NewTask.compute_provider) input.(NewTask.estimated_compute_cost_usd)
                input.(NewTask.fallback_model_target) ts ts in
  _ ← insert_row (task_row task);
  mret task.

Definition list_for_project (project_id : string) : AgentM (list Task.t) :=
  fetch_all (fun r => eq_str r.(TaskRow.project_id) project_id) (newest_first TaskRow.created_at).

Definition list_for_status (status : TaskStatus.t) (limit : Z) : AgentM (list Task.t) :=
  fetch_limit (fun r => eq_str r.(TaskRow.status) (TaskStatus.as_str status)) (oldest_first TaskRow.updated_at) limit.

Definition get_task (id : string) : AgentM (option Task.t) := fetch_by_id id.

Definition set_status_at (status : string) (ts : Z) (r : TaskRow.t) : TaskRow.t :=
  TaskRow.set_status status (TaskRow.set_updated_at ts r).

Definition pause_orphaned_running (ts : Z) : AgentM Z :=
  update_rows (fun r => eq_str r.(TaskRow.status) "running") (set_status_at (TaskStatus.as_str TaskStatus.Queued) ts).

Definition patch_task (ts : Z) (patch : TaskUpdate.t) (task : Task.t) : Task.t :=
  Task.mk task.(Task.id) task.(Task.project_id)
    (default task.(Task.title) patch.(TaskUpdate.title))
    (opt_or patch.(TaskUpdate.description) task.(Task.description))
    (default task.(Task.status) patch.(TaskUpdate.status))
    (default task.(Task.priority) patch.(TaskUpdate.priority))
    (opt_or patch.(TaskUpdate.primary_agent) task.(Task.primary_agent))
    (clearable patch.(TaskUpdate.model) task.(Task.model))
    (default task.(Task.model_target) patch.(TaskUpdate.model_target))
    (opt_or patch.(TaskUpdate.compute_lease_id) task.(Task.compute_lease_id))
    (opt_or patch.(TaskUpdate.compute_provider) task.(Task.compute_provider))
    (opt_or patch.(TaskUpdate.estimated_compute_cost_usd) task.(Task.estimated_compute_cost_usd))
    (opt_or patch.(TaskUpdate.fallback_model_target) task.(Task.fallback_model_target))
    task.(Task.created_at) ts.

Definition update (ts : Z) (id : string) (patch : TaskUpdate.t) : AgentM Task.t :=
  found ← get_task id;
  task ← lift_opt found DbNotFound;
  let task := patch_task ts patch task in
  _ ← update_rows (by_id task.(Task.id)) (task_columns task);
  mret task.

(** Sessions go with their task, messages with their session. *)
Definition delete (id : string) : AgentM () :=
  modify (fun db =>
    let dead := SessionRow.id <$> filter (fun s => s.(SessionRow.task_id) = id) db.(sessions) in
    put_tasks (filter (fun t => t.(TaskRow.id) <> id) db.(tasks))
      (put_sessions (filter (fun s => s.(SessionRow.task_id) <> id) db.(sessions))
         (put_messages (filter (fun m => m.(SessionMessageRow.session_id) ∉ dead) db.(messages)) db))).

End Tasks.

(** ** Sessions (session.rs) *)
Module Sessions.

Definition create (ts : Z) (id task_id : string) (agent_kind : AgentKind.t) (execution_backend : ExecutionBackend.t)
  (sandbox_name model reasoning : option string) (local_provider : option LocalModelProviderKind.t)
  (local_base_url : option string) (model_target : ModelTargetKind.t) (compute_lease_id : option string)
  (compute_provider : option ComputeProviderKind.t) (estimated_compute_cost_usd : option f64)
  (fallback_model_target : option ModelTargetKind.t) (target_hash policy_envelope_id : option string) :
  AgentM Session.t :=
  let session := Session.mk id task_id agent_kind None execution_backend sandbox_name model reasoning local_provider
                   local_base_url model_target compute_lease_id compute_provider estimated_compute_cost_usd
                   fallback_model_target target_hash policy_envelope_id SessionState.Running ts None in
  _ ← insert_row (session_row session);
  mret session.

Definition set_agent_session_id (id agent_session_id : string) : AgentM () :=
  _ ← update_rows (by_id id) (SessionRow.set_agent_session_id (Some agent_session_id));
  mret ().

Definition end_row (status : string) (ts : Z) (r : SessionRow.t) : SessionRow.t :=
  SessionRow.set_status status (SessionRow.set_ended_at (Some ts) r).

Definition finish (ts : Z) (id : string) (state : SessionState.t) : AgentM () :=
  _ ← update_rows (by_id id) (end_row (SessionState.as_str state) ts);
  mret ().

Definition list_for_task (task_id : string) : AgentM (list Session.t) :=
  fetch_all (fun r => eq_str r.(SessionRow.task_id) task_id) (oldest_first SessionRow.started_at).

Definition get_session (id : string) : AgentM (option Session.t) := fetch_by_id id.

Definition delete (id : string) : AgentM () :=
  modify (fun db =>
    put_sessions (filter (fun s => s.(SessionRow.id) <> id) db.(sessions))
      (put_messages (filter (fun m => m.(SessionMessageRow.session_id) <> id) db.(messages)) db)).

Definition mark_orphans_interrupted (ts : Z) : AgentM Z :=
  update_rows (fun r => eq_str r.(SessionRow.status) "running") (end_row (SessionState.as_str SessionState.Interrupted) ts).

End Sessions.

(** ** Turns (agent_turn.rs) *)
Module Turns.

Definition create (ts : Z) (id thread_id : string) (agent_kind : AgentKind.t) (permission : string)
  (execution_backend : ExecutionBackend.t) (sandbox_name model reasoning : option string)
  (local_provider : option LocalModelProviderKind.t) (local_base_url : option string) (model_target : ModelTargetKind.t)
  (compute_lease_id : option string) (compute_provider : option ComputeProviderKind.t)
  (estimated_compute_cost_usd : option f64) (fallback_model_target : option ModelTargetKind.t)
  (target_hash policy_envelope_id : option string) : AgentM AgentTurn.t :=
  let turn := AgentTurn.mk id thread_id agent_kind None SessionState.Running permission execution_backend sandbox_name
                model reasoning local_provider local_base_url model_target compute_lease_id compute_provider
                estimated_compute_cost_usd fallback_model_target target_hash policy_envelope_id ts None in
  _ ← insert_row (turn_row turn);
  mret turn.

Definition set_agent_session_id (id agent_session_id : string) : AgentM () :=
  _ ← update_rows (by_id id) (AgentTurnRow.set_agent_session_id (Some agent_session_id));
  mret ().

Definition end_row (status : string) (ts : Z) (r : AgentTurnRow.t) : AgentTurnRow.t :=
  AgentTurnRow.set_status status (AgentTurnRow.set_ended_at (Some ts) r).

Definition finish (ts : Z) (id : string) (state : SessionState.t) : AgentM () :=
  _ ← update_rows (by_id id) (end_row (SessionState.as_str state) ts);
  mret ().

Definition list_for_thread (thread_id : string) : AgentM (list AgentTurn.t) :=
  fetch_all (fun r => eq_str r.(AgentTurnRow.thread_id) thread_id) (oldest_first AgentTurnRow.started_at).

Definition get_turn (id : string) : AgentM (option AgentTurn.t) := fetch_by_id id.

Definition mark_orphans_interrupted (ts : Z) : AgentM Z :=
  update_rows (fun r => eq_str r.(AgentTurnRow.status) "running")
    (end_row (SessionState.as_str SessionState.Interrupted) ts).

End Turns.

(** ** Threads and their groups (agent_thread.rs) *)
Module Threads.
Section Threads.
Context {V : Type} `{Json V} `{!BudgetSerde V}.

(** [validate().map_err(DbError::Serde)?] on an optional budget. *)
Definition check_budget (budget : option TaskBudget.t) : AgentM () :=
  match budget with
  | None => mret ()
  | Some budget => lift (serde_error (validate budget))
  end.

Definition new_thread (ts : Z) (id : string) (input : NewAgentThread.t) : AgentThread.t :=
  AgentThread.mk id input.(NewAgentThread.project_id) input.(NewAgentThread.group_id) input.(NewAgentThread.title)
    TaskStatus.Draft input.(NewAgentThread.preferred_agent) input.(NewAgentThread.preferred_agent)
    (default "workspace_write" input.(NewAgentThread.permission))
    (default ExecutionBackend.default input.(NewAgentThread.execution_backend))
    input.(NewAgentThread.force_managed_workspace) input.(NewAgentThread.model) input.(NewAgentThread.reasoning)
    input.(NewAgentThread.local_provider) input.(NewAgentThread.local_base_url)
    (default (if input.(NewAgentThread.local_provider) is Some _ then ModelTargetKind.LocalProvider
              else ModelTargetKind.FrontierDefault) input.(NewAgentThread.model_target))
    input.(NewAgentThread.compute_lease_id) input.(NewAgentThread.compute_provider)
    input.(NewAgentThread.estimated_compute_cost_usd) input.(NewAgentThread.fallback_model_target)
    None None None None None None None None None None false None true "none" None
    (default "" input.(NewAgentThread.objective)) "" "" "" ""
    (default TaskBudget.Unlimited input.(NewAgentThread.task_budget))
    (default 0 input.(NewAgentThread.sort_order)) ts ts.

(** The [INSERT] leaves out [provider_account_id], which is [NULL] as in the value. *)
Definition create (ts : Z) (id : string) (input : NewAgentThread.t) : AgentM AgentThread.t :=
  _ ← check_budget input.(NewAgentThread.task_budget);
  let thread := new_thread ts id input in
  _ ← insert_row (thread_row thread);
  mret thread.

(** [group_id IS NULL, group_id, sort_order ASC, updated_at DESC]. *)
Definition list_order (a b : AgentThreadRow.t) : bool :=
  let tail := (a.(AgentThreadRow.sort_order) <? b.(AgentThreadRow.sort_order)) ||
              ((a.(AgentThreadRow.sort_order) =? b.(AgentThreadRow.sort_order)) &&
               (b.(AgentThreadRow.updated_at) <=? a.(AgentThreadRow.updated_at))) in
  match a.(AgentThreadRow.group_id), b.(AgentThreadRow.group_id) with
  | Some _, None => true
  | None, Some _ => false
  | None, None => tail
  | Some g, Some h => if eq_str g h then tail else String.leb g h
  end.

Definition list_threads (project_id : option string) : AgentM (list AgentThread.t) :=
  match project_id with
  | Some project_id => fetch_all (fun r => eq_opt r.(AgentThreadRow.project_id) project_id) list_order
  | None => fetch_all (fun _ => true) list_order
  end.

Definition list_for_status (status : TaskStatus.t) (limit : Z) : AgentM (list AgentThread.t) :=
  fetch_limit (fun r => eq_str r.(AgentThreadRow.status) (TaskStatus.as_str status))
    (oldest_first AgentThreadRow.updated_at) limit.

Definition get_thread (id : string) : AgentM (option AgentThread.t) := fetch_by_id id.

Definition save (ts : Z) (thread : AgentThread.t) : AgentM AgentThread.t :=
  _ ← update_rows (by_id thread.(AgentThread.id))
        (fun r => AgentThreadRow.set_updated_at ts (thread_columns thread r));
  saved ← get_thread thread.(AgentThread.id);
  lift_opt saved DbNotFound.

Definition patch_thread (patch : AgentThreadUpdate.t) (t : AgentThread.t) : AgentThread.t :=
  AgentThread.mk t.(AgentThread.id) t.(AgentThread.project_id)
    (clearable patch.(AgentThreadUpdate.group_id) t.(AgentThread.group_id))
    (default t.(AgentThread.title) patch.(AgentThreadUpdate.title))
    (default t.(AgentThread.status) patch.(AgentThreadUpdate.status))
    (opt_or patch.(AgentThreadUpdate.active_agent) t.(AgentThread.active_agent))
    (opt_or patch.(AgentThreadUpdate.preferred_agent) t.(AgentThread.preferred_agent))
    (default t.(AgentThread.permission) patch.(AgentThreadUpdate.permission))
    (default t.(AgentThread.execution_backend) patch.(AgentThreadUpdate.execution_backend))
    t.(AgentThread.force_managed_workspace)
    (clearable patch.(AgentThreadUpdate.model) t.(AgentThread.model))
    (clearable patch.(AgentThreadUpdate.reasoning) t.(AgentThread.reasoning))
    (opt_or patch.(AgentThreadUpdate.local_provider) t.(AgentThread.local_provider))
    (clearable patch.(AgentThreadUpdate.local_base_url) t.(AgentThread.local_base_url))
    (default t.(AgentThread.model_target) patch.(AgentThreadUpdate.model_target))
    (clearable patch.(AgentThreadUpdate.compute_lease_id) t.(AgentThread.compute_lease_id))
    (opt_or patch.(AgentThreadUpdate.compute_provider) t.(AgentThread.compute_provider))
    (opt_or patch.(AgentThreadUpdate.estimated_compute_cost_usd) t.(AgentThread.estimated_compute_cost_usd))
    (opt_or patch.(AgentThreadUpdate.fallback_model_target) t.(AgentThread.fallback_model_target))
    t.(AgentThread.original_agent) t.(AgentThread.fallback_agent) t.(AgentThread.original_model)
    t.(AgentThread.fallback_model) t.(AgentThread.original_reasoning) t.(AgentThread.fallback_reasoning)
    t.(AgentThread.original_local_provider) t.(AgentThread.fallback_local_provider)
    t.(AgentThread.original_local_base_url) t.(AgentThread.fallback_local_base_url)
    t.(AgentThread.switch_back_pending) t.(AgentThread.limit_reset_at) t.(AgentThread.switch_back)
    t.(AgentThread.handoff_state) t.(AgentThread.provider_account_id)
    (default t.(AgentThread.objective) patch.(AgentThreadUpdate.objective))
    (default t.(AgentThread.decisions) patch.(AgentThreadUpdate.decisions))
    (default t.(AgentThread.progress) patch.(AgentThreadUpdate.progress))
    (default t.(AgentThread.open_questions) patch.(AgentThreadUpdate.open_questions))
    (default t.(AgentThread.next_actions) patch.(AgentThreadUpdate.next_actions))
    (default t.(AgentThread.task_budget) patch.(AgentThreadUpdate.task_budget))
    t.(AgentThread.sort_order) t.(AgentThread.created_at) t.(AgentThread.updated_at).

Definition update (ts : Z) (id : string) (patch : AgentThreadUpdate.t) : AgentM AgentThread.t :=
  found ← get_thread id;
  thread ← lift_opt found DbNotFound;
  _ ← check_budget patch.(AgentThreadUpdate.task_budget);
  save ts (patch_thread patch thread).

Definition assign_group (ts : Z) (thread_id : string) (group_id : option string) : AgentM AgentThread.t :=
  _ ← update_rows (by_id thread_id)
        (fun r => AgentThreadRow.set_group_id group_id (AgentThreadRow.set_updated_at ts r));
  saved ← get_thread thread_id;
  lift_opt saved DbNotFound.
End Threads.

Definition create_group (ts : Z) (id : string) (input : NewWorkbenchSessionGroup.t) : AgentM WorkbenchSessionGroup.t :=
  let group := WorkbenchSessionGroup.mk id input.(NewWorkbenchSessionGroup.project_id)
                 input.(NewWorkbenchSessionGroup.name) (default "teal" input.(NewWorkbenchSessionGroup.color)) false
                 (default 0 input.(NewWorkbenchSessionGroup.sort_order)) ts ts in
  _ ← insert_row (group_row group);
  mret group.

Definition group_order (a b : WorkbenchSessionGroupRow.t) : bool :=
  (a.(WorkbenchSessionGroupRow.sort_order) <? b.(WorkbenchSessionGroupRow.sort_order)) ||
  ((a.(WorkbenchSessionGroupRow.sort_order) =? b.(WorkbenchSessionGroupRow.sort_order)) &&
   String.leb a.(WorkbenchSessionGroupRow.name) b.(WorkbenchSessionGroupRow.name)).

Definition list_groups (project_id : option string) : AgentM (list WorkbenchSessionGroup.t) :=
  match project_id with
  | Some project_id => fetch_all (fun r => eq_opt r.(WorkbenchSessionGroupRow.project_id) project_id) group_order
  | None => fetch_all (fun _ => true) group_order
  end.

Definition patch_group (ts : Z) (patch : WorkbenchSessionGroupUpdate.t) (g : WorkbenchSessionGroup.t) :
  WorkbenchSessionGroup.t :=
  WorkbenchSessionGroup.mk g.(WorkbenchSessionGroup.id) g.(WorkbenchSessionGroup.project_id)
    (default g.(WorkbenchSessionGroup.name) patch.(WorkbenchSessionGroupUpdate.name))
    (default g.(WorkbenchSessionGroup.color) patch.(WorkbenchSessionGroupUpdate.color))
    (default g.(WorkbenchSessionGroup.collapsed) patch.(WorkbenchSessionGroupUpdate.collapsed))
    (default g.(WorkbenchSessionGroup.sort_order) patch.(WorkbenchSessionGroupUpdate.sort_order))
    g.(WorkbenchSessionGroup.created_at) ts.

Definition update_group (ts : Z) (id : string) (patch : WorkbenchSessionGroupUpdate.t) : AgentM WorkbenchSessionGroup.t :=
  found ← fetch_by_id id;
  group ← lift_opt found DbNotFound;
  let group := patch_group ts patch group in
  _ ← update_rows (by_id group.(WorkbenchSessionGroup.id)) (group_columns group);
  mret group.

(** Two statements: the threads leave the group first. *)
Definition delete_group (ts : Z) (id : string) : AgentM () :=
  _ ← update_rows (fun r => eq_opt r.(AgentThreadRow.group_id) id)
        (fun r => AgentThreadRow.set_group_id None (AgentThreadRow.set_updated_at ts r));
  modify (fun db => put_groups (filter (fun g => g.(WorkbenchSessionGroupRow.id) <> id) db.(groups))
    (put_threads ((fun t => AgentThreadRow.set_group_id (if eq_opt t.(AgentThreadRow.group_id) id then None
                                                         else t.(AgentThreadRow.group_id)) t) <$> db.(threads)) db)).

(** The loop of [set_order] inside its transaction; positions start at 1. *)
Fixpoint order_from (position : Z) (ordered_ids : list string) : AgentM () :=
  match ordered_ids with
  | [] => mret ()
  | id :: rest =>
      _ ← update_rows (by_id id) (AgentThreadRow.set_sort_order position);
      order_from (position + 1) rest
  end.

Definition set_order (ordered_ids : list string) : AgentM () := order_from 1 ordered_ids.

(** Turns and both transcripts' rows go with the thread. *)
Definition delete (id : string) : AgentM () :=
  modify (fun db =>
    let dead := AgentTurnRow.id <$> filter (fun t => t.(AgentTurnRow.thread_id) = id) db.(turns) in
    put_threads (filter (fun t => t.(AgentThreadRow.id) <> id) db.(threads))
      (put_turns (filter (fun t => t.(AgentTurnRow.thread_id) <> id) db.(turns))
         (put_thread_messages
            (filter (fun m => m.(ThreadMessageRow.thread_id) <> id /\ m.(ThreadMessageRow.turn_id) ∉ dead)
               db.(thread_messages)) db))).

Definition orphaned (r : AgentThreadRow.t) : bool :=
  eq_str r.(AgentThreadRow.status) "running" || eq_str r.(AgentThreadRow.status) "awaiting_approval".

Definition pause_row (ts : Z) (r : AgentThreadRow.t) : AgentThreadRow.t :=
  AgentThreadRow.set_status
    (if eq_str r.(AgentThreadRow.status) "awaiting_approval" then "paused" else TaskStatus.as_str TaskStatus.Queued)
    (AgentThreadRow.set_handoff_state "process_restarted" (AgentThreadRow.set_updated_at ts r)).

Definition pause_orphaned_running (ts : Z) : AgentM Z := update_rows orphaned (pause_row ts).

End Threads.

(** ** Transcripts (message.rs, agent_thread_message.rs) *)
Module Transcripts.
Section Transcripts.
Context {V : Type} `{Json V}.

Definition session_message_row (ev : SessionEvent.t V) : SessionMessageRow.t :=
  let content := json_object [("text", json_opt ev.(SessionEvent.text)); ("data", ev.(SessionEvent.data))] in
  SessionMessageRow.mk ev.(SessionEvent.id) ev.(SessionEvent.session_id) ev.(SessionEvent.role) ev.(SessionEvent.kind)
    (json_to_string content) ev.(SessionEvent.ts).

Definition insert (ev : SessionEvent.t V) : AgentM () := insert_row (session_message_row ev).

(** [serde_json::from_str(..).unwrap_or(Null)]. *)
Definition content_of (content_json : string) : V :=
  match json_from_str content_json with Ok v => v | Err _ => Null end.

Definition row_to_event (task_id : string) (r : SessionMessageRow.t) : SessionEvent.t V :=
  let content := content_of r.(SessionMessageRow.content_json) in
  SessionEvent.mk V r.(SessionMessageRow.id) r.(SessionMessageRow.session_id) task_id r.(SessionMessageRow.role)
    r.(SessionMessageRow.kind) (json_get content "text" ≫= json_as_str) (default Null (json_get content "data"))
    r.(SessionMessageRow.ts).

(** [ORDER BY ts ASC, rowid ASC]: the sort is stable. *)
Definition session_rows (session_id : string) (db : AgentDb) : list SessionMessageRow.t :=
  selected (fun r => eq_str r.(SessionMessageRow.session_id) session_id) (oldest_first SessionMessageRow.ts) db.

Definition list_for_session (session_id task_id : string) : AgentM (list (SessionEvent.t V)) :=
  gets (fun db => row_to_event task_id <$> session_rows session_id db).

(** [ORDER BY ts DESC, rowid DESC LIMIT n], then reversed. *)
Definition last_events_for_session (session_id task_id : string) (kinds : list string) (limit : Z) :
  AgentM (list (SessionEvent.t V)) :=
  if bool_decide (kinds = []) then mret []
  else gets (fun db =>
    let rows := filter (fun r => r.(SessionMessageRow.session_id) = session_id /\ r.(SessionMessageRow.kind) ∈ kinds)
                  db.(messages) in
    reverse (row_to_event task_id <$> sql_limit limit (sort_by (newest_first SessionMessageRow.ts) (reverse rows)))).

Definition thread_message_row (ev : AgentThreadEvent.t V) : ThreadMessageRow.t :=
  let content := json_object [("text", json_opt ev.(AgentThreadEvent.text)); ("data", ev.(AgentThreadEvent.data));
                              ("client_message_id", json_opt ev.(AgentThreadEvent.client_message_id))] in
  ThreadMessageRow.mk ev.(AgentThreadEvent.id) ev.(AgentThreadEvent.thread_id) ev.(AgentThreadEvent.turn_id)
    ev.(AgentThreadEvent.role) ev.(AgentThreadEvent.kind) (json_to_string content) ev.(AgentThreadEvent.ts).

Definition insert_thread_event (ev : AgentThreadEvent.t V) : AgentM () := insert_row (thread_message_row ev).

(** [ON CONFLICT(id) DO UPDATE SET content_json = excluded.content_json]. *)
Definition upsert (ev : AgentThreadEvent.t V) : AgentM () :=
  let row := thread_message_row ev in
  db ← get;
  if existsb (by_id (row_id row)) (rows_of db) then
    _ ← update_rows (by_id (row_id row)) (ThreadMessageRow.set_content_json row.(ThreadMessageRow.content_json));
    mret ()
  else insert_row row.

Definition row_to_thread_event (r : ThreadMessageRow.t) : AgentThreadEvent.t V :=
  let content := content_of r.(ThreadMessageRow.content_json) in
  let data := default Null (json_get content "data") in
  let client_message_id :=
    match json_get content "client_message_id" ≫= json_as_str with
    | Some id => Some id
    | None => json_get data "client_message_id" ≫= json_as_str
    end in
  AgentThreadEvent.mk V r.(ThreadMessageRow.id) r.(ThreadMessageRow.thread_id) r.(ThreadMessageRow.turn_id)
    r.(ThreadMessageRow.role) r.(ThreadMessageRow.kind) (json_get content "text" ≫= json_as_str) client_message_id data
    r.(ThreadMessageRow.ts).

(** [ORDER BY ts DESC, rowid DESC LIMIT 1]. *)
Definition latest_user_message (thread_id : string) : AgentM (option (AgentThreadEvent.t V)) :=
  gets (fun db =>
    let rows := filter (fun r => r.(ThreadMessageRow.thread_id) = thread_id /\ r.(ThreadMessageRow.role) = "user")
                  db.(thread_messages) in
    row_to_thread_event <$> head (sort_by (newest_first ThreadMessageRow.ts) (reverse rows))).

Definition list_for_thread (thread_id : string) : AgentM (list (AgentThreadEvent.t V)) :=
  gets (fun db => row_to_thread_event <$>
    selected (fun r => eq_str r.(ThreadMessageRow.thread_id) thread_id) (oldest_first ThreadMessageRow.ts) db).

Definition list_for_turn (turn_id : string) : AgentM (list (AgentThreadEvent.t V)) :=
  gets (fun db => row_to_thread_event <$>
    selected (fun r => eq_str r.(ThreadMessageRow.turn_id) turn_id) (oldest_first ThreadMessageRow.ts) db).
End Transcripts.
End Transcripts.

(** ** Reconciliation at start-up (am-core/src/lib.rs, [AppCore::new])

    Four repository calls whose errors are dropped ([.ok()]). *)
Definition reconcile (ts1 ts2 ts3 ts4 : Z) : AgentM () :=
  _ ← attempt (Sessions.mark_orphans_interrupted ts1);
  _ ← attempt (Turns.mark_orphans_interrupted ts2);
  _ ← attempt (Tasks.pause_orphaned_running ts3);
  _ ← attempt (Threads.pause_orphaned_running ts4);
  mret ().
