(* ===== verification/AgentDbProps.v ===== *)
(** * The tables of the agents' work: laws

    The codecs read back what they bind, every repository function keeps the
    tables well formed ([agent_db_ok]: keys, foreign keys, readable rows), and the
    theorems on reconciliation, transcripts and updates. *)
From Stdlib Require Import SpecFloat Ascii String.
From S2P Require Import Prelude RustStr Json Enums Records WorkGraphDb WorkGraphInv Limits Budget SqlTable AgentDb.
#[local] Open Scope string_scope.
#[local] Open Scope Z_scope.

#[global] Instance project_table_ok : TableOk AgentDb ProjectRow.t.
Proof. by split. Qed.
#[global] Instance task_table_ok : TableOk AgentDb TaskRow.t.
Proof. by split. Qed.
#[global] Instance session_table_ok : TableOk AgentDb SessionRow.t.
Proof. by split. Qed.
#[global] Instance message_table_ok : TableOk AgentDb SessionMessageRow.t.
Proof. by split. Qed.
#[global] Instance group_table_ok : TableOk AgentDb WorkbenchSessionGroupRow.t.
Proof. by split. Qed.
#[global] Instance thread_table_ok : TableOk AgentDb AgentThreadRow.t.
Proof. by split. Qed.
#[global] Instance turn_table_ok : TableOk AgentDb AgentTurnRow.t.
Proof. by split. Qed.
#[global] Instance thread_message_table_ok : TableOk AgentDb ThreadMessageRow.t.
Proof. by split. Qed.

(** Reading back a row just bound: every text decodes to the value it came from. *)
Ltac read_back :=
  cbn -[decode decode_opt wire fmap]; repeat first [rewrite decode_wire; cbn -[decode decode_opt wire fmap]
                                                   |rewrite decode_opt_wire; cbn -[decode decode_opt wire fmap]];
  try reflexivity.

#[global] Instance project_codec_ok : CodecOk ProjectRow.t Project.t.
Proof. split. intros []. unfold to_row, try_from, project_codec, project_row, project_try_from. read_back. Qed.
#[global] Instance task_codec_ok : CodecOk TaskRow.t Task.t.
Proof. split. intros []. unfold to_row, try_from, task_codec, task_row, task_try_from. read_back. Qed.
#[global] Instance session_codec_ok : CodecOk SessionRow.t Session.t.
Proof. split. intros []. unfold to_row, try_from, session_codec, session_row, session_try_from. read_back. Qed.
#[global] Instance turn_codec_ok : CodecOk AgentTurnRow.t AgentTurn.t.
Proof. split. intros []. unfold to_row, try_from, turn_codec, turn_row, turn_try_from. read_back. Qed.
#[global] Instance group_codec_ok : CodecOk WorkbenchSessionGroupRow.t WorkbenchSessionGroup.t.
Proof. split. intros []. unfold to_row, try_from, group_codec, group_row, group_try_from. read_back. Qed.

Section ThreadCodec.
Context {V : Type} `{JsonOk V} `{!BudgetSerde V} `{!BudgetSerdeOk V}.

Lemma parse_budget_text b : parse_task_budget (budget_text b) = Ok b.
Proof.
  unfold parse_task_budget, budget_text. rewrite json_text_roundtrip. cbn.
  destruct (budget_mode b) as (mode & -> & ->). rewrite bool_decide_eq_false_2 by (by destruct b).
  by rewrite budget_roundtrip.
Qed.

#[global] Instance thread_codec_ok : CodecOk AgentThreadRow.t AgentThread.t.
Proof. split. intros []. unfold to_row, try_from, thread_codec, thread_row, thread_try_from. read_back. by rewrite parse_budget_text. Qed.
End ThreadCodec.

(** Transcript rows are read as they are. *)
#[global] Instance message_codec : Codec SessionMessageRow.t SessionMessageRow.t := { to_row r := r; try_from r := Ok r }.
#[global] Instance thread_message_codec : Codec ThreadMessageRow.t ThreadMessageRow.t := { to_row r := r; try_from r := Ok r }.
#[global] Instance message_codec_ok : CodecOk SessionMessageRow.t SessionMessageRow.t.
Proof. by split. Qed.
#[global] Instance thread_message_codec_ok : CodecOk ThreadMessageRow.t ThreadMessageRow.t.
Proof. by split. Qed.

(** ** The invariant *)
Section Invariant.
Context {V : Type} `{Json V} `{!BudgetSerde V}.

Record agent_db_ok (db : AgentDb) : Prop := {
  projects_ok : table_ok Project.t db;
  tasks_ok : table_ok Task.t db;
  sessions_ok : table_ok Session.t db;
  messages_ok : table_ok SessionMessageRow.t db;
  groups_ok : table_ok WorkbenchSessionGroup.t db;
  threads_ok : table_ok AgentThread.t db;
  turns_ok : table_ok AgentTurn.t db;
  thread_messages_ok : table_ok ThreadMessageRow.t db
}.

Lemma keyed_true {R} (key : R -> string) rows id : keyed key rows id = true <-> exists r, r ∈ rows /\ key r = id.
Proof.
  unfold keyed. rewrite existsb_exists. split; intros (r & Hr & Heq); exists r.
  - by apply list_elem_of_In in Hr as ?; apply eq_str_true in Heq.
  - by rewrite <- list_elem_of_In, eq_str_true.
Qed.

Definition keys_grow {R} (key : R -> string) (rows rows' : list R) : Prop :=
  forall id, keyed key rows id = true -> keyed key rows' id = true.

Lemma keys_grow_column {R} (key : R -> string) rows rows' : key <$> rows' = key <$> rows -> keys_grow key rows rows'.
Proof.
  intros Heq id (r & Hr & <-)%keyed_true. apply keyed_true.
  assert (key r ∈ key <$> rows') as (r' & ? & ?)%list_elem_of_fmap; [|by exists r'].
  rewrite Heq. by apply list_elem_of_fmap_2.
Qed.

Lemma keys_grow_snoc {R} (key : R -> string) rows r : keys_grow key rows (rows ++ [r]).
Proof. intros id (x & Hx & <-)%keyed_true. apply keyed_true. exists x. split; [set_solver|done]. Qed.

Lemma keys_grow_filter {R} (key : R -> string) (P : R -> Prop) `{!forall r, Decision (P r)} rows id :
  keyed key rows id = true -> (forall r, r ∈ rows -> key r = id -> P r) -> keyed key (filter P rows) id = true.
Proof. intros (r & Hr & <-)%keyed_true HP. apply keyed_true. exists r. by rewrite list_elem_of_filter; auto. Qed.

Lemma keyed_opt_grow {R} (key : R -> string) rows rows' o :
  keys_grow key rows rows' -> keyed_opt key rows o = true -> keyed_opt key rows' o = true.
Proof. destruct o; cbn; auto. Qed.

(** A table of the invariant: the rest of the store does not mind its rows being
    replaced as long as no key disappears. *)
Class Hosted (R T : Type) `{Table AgentDb R} `{Codec R T} : Prop := {
  host_table : forall db, agent_db_ok db -> table_ok T db;
  host_put : forall db l, agent_db_ok db -> table_ok T (put_rows l db) -> keys_grow row_id (rows_of db) l ->
    agent_db_ok (put_rows l db)
}.

Ltac solve_hosted :=
  split; [by intros db []|]; intros db l [] Hl Hk; split; try exact Hl;
  match goal with
  | H : table_ok ?T ?db |- table_ok ?T _ =>
      revert H; apply table_ok_frame; [done|]; cbn; intros r _; rewrite ?andb_true_iff; try tauto;
      intuition eauto using keyed_opt_grow
  end.

#[global] Instance project_hosted : Hosted ProjectRow.t Project.t.
Proof. solve_hosted. Qed.
#[global] Instance task_hosted : Hosted TaskRow.t Task.t.
Proof. solve_hosted. Qed.
#[global] Instance session_hosted : Hosted SessionRow.t Session.t.
Proof. solve_hosted. Qed.
#[global] Instance message_hosted : Hosted SessionMessageRow.t SessionMessageRow.t.
Proof. solve_hosted. Qed.
#[global] Instance group_hosted : Hosted WorkbenchSessionGroupRow.t WorkbenchSessionGroup.t.
Proof. solve_hosted. Qed.
#[global] Instance thread_hosted : Hosted AgentThreadRow.t AgentThread.t.
Proof. solve_hosted. Qed.
#[global] Instance turn_hosted : Hosted AgentTurnRow.t AgentTurn.t.
Proof. solve_hosted. Qed.
#[global] Instance thread_message_hosted : Hosted ThreadMessageRow.t ThreadMessageRow.t.
Proof. solve_hosted. Qed.

Section Host.
Context {R T : Type} `{HR : TableOk AgentDb R} `{HC : Codec R T} `{!Hosted R T}.

Lemma keeps_insert_row r : is_ok (try_from (T:=T) r) = true -> keeps agent_db_ok (insert_row r).
Proof.
  intros Hr db Hdb. unfold final. rewrite insert_row_eq. destruct (_ || _) eqn:Hg; [done|].
  apply orb_false_iff in Hg as [Hnew Href%negb_false_iff]. cbn. apply (host_put (T:=T)); [done| |apply keys_grow_snoc].
  apply table_ok_insert; [by apply host_table|done|done].
Qed.

(** The foreign keys need no argument: a statement that breaks one fails. *)
Lemma keeps_update_rows p f :
  (forall r, row_id (f r) = row_id r) ->
  (forall r, p r = true -> is_ok (try_from (T:=T) r) = true -> is_ok (try_from (T:=T) (f r)) = true) ->
  keeps agent_db_ok (update_rows p f).
Proof.
  intros Hid Hf db Hdb. unfold final, update_rows. rewrite M_bind_unfold. cbn [get]. unfold fail_when.
  rewrite M_bind_unfold. destruct (existsb _ _) eqn:He; [done|]. cbn.
  apply (host_put (T:=T)); [done| |apply keys_grow_column, update_where_column; auto].
  apply table_ok_update; [by apply host_table|]. intros r Hr Hp. split; [done|].
  destruct (host_table (T:=T) db Hdb) as [_ Hok]. destruct (Hok r Hr) as [Hd Href]. split; [by apply Hf|].
  destruct (references_ok db (f r)) eqn:Hg; [done|]. exfalso.
  assert (existsb (fun r => p r && negb (references_ok db (f r))) (rows_of db) = true) as Ht; [|congruence].
  apply existsb_exists. exists r. by rewrite Hp, Hg, <- list_elem_of_In.
Qed.
End Host.

End Invariant.

(** ** Every repository function keeps the invariant *)

(** Follow the columns an update leaves to the decodings they had. *)
Ltac chase_decode :=
  repeat match goal with
  | |- context [decode (T:=?T) ?x] => destruct (decode (T:=T) x); cbn -[decode decode_opt]; [|done]
  | |- context [decode_opt (T:=?T) ?x] => destruct (decode_opt (T:=T) x); cbn -[decode decode_opt]; [|done]
  end; try done.

Section Calls.
Context {V : Type} `{JsonOk V} `{!BudgetSerde V} `{!BudgetSerdeOk V}.
Abbreviation ok := (keeps (agent_db_ok (V:=V))).

Lemma to_row_ok {R T} `{CodecOk R T} (x : T) : is_ok (try_from (T:=T) (to_row x)) = true.
Proof. by rewrite try_from_to_row. Qed.

Lemma keeps_created {R T} `{HR : TableOk AgentDb R} `{HC : CodecOk R T} `{!Hosted (V:=V) R T} (x : T) r :
  r = to_row x -> ok (_ ← insert_row r; mret x).
Proof. intros ->. apply keeps_bind; [apply (keeps_insert_row (T:=T)), to_row_ok|intros _; apply keeps_ret]. Qed.

Lemma task_columns_ok x r : is_ok (task_try_from (task_columns x r)) = true.
Proof. unfold task_try_from, task_columns. read_back. Qed.
Lemma group_columns_ok x r : is_ok (group_try_from (group_columns x r)) = true.
Proof. done. Qed.
Lemma thread_columns_ok ts x r : is_ok (thread_try_from (AgentThreadRow.set_updated_at ts (thread_columns x r))) = true.
Proof. unfold thread_try_from, thread_columns, AgentThreadRow.set_updated_at. read_back. by rewrite parse_budget_text. Qed.

Lemma decode_state state : decode (T:=SessionState.t) (SessionState.as_str state) = Ok state.
Proof. exact (decode_wire state). Qed.

(** An update that leaves every decoded column but the state. *)
Lemma end_session_row_ok state ts r :
  is_ok (session_try_from r) = true -> is_ok (session_try_from (Sessions.end_row (SessionState.as_str state) ts r)) = true.
Proof.
  unfold session_try_from. cbn -[decode decode_opt]. rewrite decode_state.
  chase_decode.
Qed.

Lemma end_turn_row_ok state ts r :
  is_ok (turn_try_from r) = true -> is_ok (turn_try_from (Turns.end_row (SessionState.as_str state) ts r)) = true.
Proof.
  unfold turn_try_from. cbn -[decode decode_opt]. rewrite decode_state.
  chase_decode.
Qed.

Lemma session_id_row_ok sid r :
  is_ok (session_try_from r) = true -> is_ok (session_try_from (SessionRow.set_agent_session_id sid r)) = true.
Proof. unfold session_try_from. cbn -[decode decode_opt]. chase_decode. Qed.

Lemma turn_id_row_ok sid r :
  is_ok (turn_try_from r) = true -> is_ok (turn_try_from (AgentTurnRow.set_agent_session_id sid r)) = true.
Proof. unfold turn_try_from. cbn -[decode decode_opt]. chase_decode. Qed.

Lemma task_status_row_ok ts r : is_ok (task_try_from r) = true -> is_ok (task_try_from (Tasks.set_status_at "queued" ts r)) = true.
Proof. unfold task_try_from. cbn -[decode decode_opt]. destruct (decode (T:=TaskStatus.t) (TaskRow.status r)); [|done]. cbn -[decode decode_opt]. chase_decode. Qed.

Ltac chase_thread :=
  unfold thread_try_from; cbn -[decode decode_opt parse_task_budget]; chase_decode; by destruct (parse_task_budget _).

Lemma set_group_row_ok g ts r :
  is_ok (thread_try_from r) = true ->
  is_ok (thread_try_from (AgentThreadRow.set_group_id g (AgentThreadRow.set_updated_at ts r))) = true.
Proof. chase_thread. Qed.

Lemma move_row_ok g r :
  is_ok (thread_try_from r) = true -> is_ok (thread_try_from (AgentThreadRow.set_group_id g r)) = true.
Proof. chase_thread. Qed.

Lemma set_order_row_ok n r :
  is_ok (thread_try_from r) = true -> is_ok (thread_try_from (AgentThreadRow.set_sort_order n r)) = true.
Proof. chase_thread. Qed.

Lemma set_project_row_ok p g r :
  is_ok (thread_try_from r) = true ->
  is_ok (thread_try_from (AgentThreadRow.set_project_id p (AgentThreadRow.set_group_id g r))) = true.
Proof. chase_thread. Qed.

Lemma pause_row_ok ts r :
  is_ok (thread_try_from r) = true -> is_ok (thread_try_from (Threads.pause_row ts r)) = true.
Proof.
  unfold thread_try_from. cbn -[decode decode_opt parse_task_budget]. destruct (decode (T:=TaskStatus.t) r.(AgentThreadRow.status)); [|done].
  assert (exists st, decode (T:=TaskStatus.t) (if eq_str r.(AgentThreadRow.status) "awaiting_approval" then "paused" else "queued") = Ok st)
    as [st ->] by (destruct (eq_str _ _); by eexists).
  cbn -[decode decode_opt parse_task_budget]. chase_decode. by destruct (parse_task_budget _).
Qed.

(** *** Deletions with their cascades *)

(** Case by case over the tables: one the deletion filtered, or one it left. *)
Ltac deleted :=
  match goal with
  | Hok : table_ok ?T ?db |- table_ok ?T _ =>
      first [ apply (table_ok_frame db); [done| |exact Hok]
            | eapply (table_ok_filter db); [exact Hok|reflexivity|] ]
  end;
  cbn; intros r Hr; rewrite ?andb_true_iff; try tauto.

Lemma ok_delete_task id : ok (Tasks.delete id).
Proof.
  intros db []. split; cbn; deleted.
  - intros Ht [Hk ?]. split; [|done]. apply keys_grow_filter; [done|]. by intros ? _ ->.
  - intros Hm Hk. apply keys_grow_filter; [done|]. intros x Hx Heq Hid. apply Hm. rewrite <- Heq.
    apply list_elem_of_fmap_2. by apply list_elem_of_filter.
Qed.

Lemma ok_delete_session id : ok (Sessions.delete id).
Proof.
  intros db []. split; cbn; deleted. intros Hm Hk. apply keys_grow_filter; [done|]. by intros ? _ ->.
Qed.

Lemma ok_delete_thread id : ok (Threads.delete id).
Proof.
  intros db []. split; cbn; deleted.
  - intros Ht [Hk ?]. split; [|done]. apply keys_grow_filter; [done|]. by intros ? _ ->.
  - intros [Ht Hm] [Hk Hk']. split; [apply keys_grow_filter; [done|]; by intros ? _ ->|].
    apply keys_grow_filter; [done|]. intros x Hx Heq Hid. apply Hm. rewrite <- Heq.
    apply list_elem_of_fmap_2. by apply list_elem_of_filter.
Qed.

Lemma keys_mapped {R} (f : R -> R) rows (key : R -> string) :
  (forall r, key (f r) = key r) -> keys_grow key rows (f <$> rows).
Proof. intros Hf. apply keys_grow_column. rewrite <- list_fmap_compose. apply list_fmap_ext. intros. apply Hf. Qed.

(** Rows that mention threads, when the threads keep their keys. *)
Lemma turn_refs_grow db db' :
  keys_grow AgentThreadRow.id db.(threads) db'.(threads) -> envelopes db' = envelopes db ->
  forall r, r ∈ db.(turns) -> references_ok (S:=AgentDb) db r = true -> references_ok (S:=AgentDb) db' r = true.
Proof.
  intros Hk He r _. cbn. unfold enveloped. rewrite He, !andb_true_iff. intros [??]; auto.
Qed.

Lemma thread_message_refs_grow db db' :
  keys_grow AgentThreadRow.id db.(threads) db'.(threads) -> turns db' = turns db ->
  forall r, r ∈ db.(thread_messages) -> references_ok (S:=AgentDb) db r = true -> references_ok (S:=AgentDb) db' r = true.
Proof.
  intros Hk Ht r _. cbn. rewrite Ht, !andb_true_iff. intros [??]; auto.
Qed.

Lemma ok_delete_project id : ok (Projects.delete id).
Proof.
  intros db Hdb. pose proof Hdb as []. split; cbn.
  - by eapply (table_ok_filter db); [done|reflexivity|].
  - eapply (table_ok_filter db); [done|reflexivity|]. cbn. intros r Hr Hp Hk.
    apply keys_grow_filter; [done|]. by intros ? _ ->.
  - eapply (table_ok_filter db); [done|reflexivity|]. cbn. intros r Hr Hp [Hk ?]%andb_true_iff.
    apply andb_true_iff. split; [|done]. apply keys_grow_filter; [done|]. intros t Ht Heq Hid. apply Hp.
    rewrite <- Heq. apply list_elem_of_fmap_2. by apply list_elem_of_filter.
  - eapply (table_ok_filter db); [done|reflexivity|]. cbn. intros r Hr Hp Hk.
    apply keys_grow_filter; [done|]. intros t Ht Heq Hid. apply Hp.
    rewrite <- Heq. apply list_elem_of_fmap_2. by apply list_elem_of_filter.
  - eapply (table_ok_filter db); [done|reflexivity|]. cbn. intros r Hr Hp Hk.
    destruct (WorkbenchSessionGroupRow.project_id r) as [p|]; [|done]. apply keys_grow_filter; [done|].
    intros ? _ -> ->. done.
  - eapply (table_ok_mapped db); [done|reflexivity|done|]. intros r Hr [Hd Href]. split; [by apply set_project_row_ok|].
    cbn in *. apply andb_true_iff in Href as [Hp Hg]. apply andb_true_iff. split.
    + case_bool_decide as Hpid; [done|]. destruct (AgentThreadRow.project_id r) as [p|]; [|done].
      apply keys_grow_filter; [done|]. intros ? _ -> ->. done.
    + destruct (AgentThreadRow.group_id r) as [g|]; [|done]. cbn. case_bool_decide as Hdead; [done|]. cbn.
      apply keys_grow_filter; [done|]. intros x Hx Heq Hid. apply Hdead. rewrite <- Heq.
      apply list_elem_of_fmap_2. by apply list_elem_of_filter.
  - by apply (table_ok_frame db); [done|apply turn_refs_grow; [by apply keys_mapped|]|].
  - by apply (table_ok_frame db); [done|apply thread_message_refs_grow; [by apply keys_mapped|]|].
Qed.

Lemma ok_delete_group ts id : ok (Threads.delete_group ts id).
Proof.
  apply keeps_bind.
  - apply (keeps_update_rows (T:=AgentThread.t)); [done|]. intros r _. apply set_group_row_ok.
  - intros _ db Hdb. pose proof Hdb as []. split; cbn; try done.
    + eapply (table_ok_filter db); [done|reflexivity|]. done.
    + eapply (table_ok_mapped db); [done|reflexivity|done|]. intros r Hr [Hd Href]. split.
      * by apply move_row_ok.
      * cbn in *. apply andb_true_iff in Href as [Hp Hg]. apply andb_true_iff. split; [done|].
        destruct (AgentThreadRow.group_id r) as [g|]; [|done]. unfold eq_opt. case_bool_decide as Hid; [done|]. cbn.
        apply keys_grow_filter; [done|]. intros ? _ -> ->. done.
    + by apply (table_ok_frame db); [done|apply turn_refs_grow; [by apply keys_mapped|]|].
    + by apply (table_ok_frame db); [done|apply thread_message_refs_grow; [by apply keys_mapped|]|].
Qed.

(** *** Calls that write *)

(** The bodies of the repository functions that change a table. *)
Inductive repo_call : forall A, AgentM A -> Prop :=
| call_create_project ts id input : repo_call _ (Projects.create ts id input)
| call_delete_project id : repo_call _ (Projects.delete id)
| call_create_task ts id input : repo_call _ (Tasks.create ts id input)
| call_update_task ts id patch : repo_call _ (Tasks.update ts id patch)
| call_delete_task id : repo_call _ (Tasks.delete id)
| call_pause_tasks ts : repo_call _ (Tasks.pause_orphaned_running ts)
| call_create_session ts id tid k b sn m rs lp lu mt cl cp ec fm th pe :
    repo_call _ (Sessions.create ts id tid k b sn m rs lp lu mt cl cp ec fm th pe)
| call_set_session_id id sid : repo_call _ (Sessions.set_agent_session_id id sid)
| call_finish_session ts id state : repo_call _ (Sessions.finish ts id state)
| call_delete_session id : repo_call _ (Sessions.delete id)
| call_interrupt_sessions ts : repo_call _ (Sessions.mark_orphans_interrupted ts)
| call_create_turn ts id tid k p b sn m rs lp lu mt cl cp ec fm th pe :
    repo_call _ (Turns.create ts id tid k p b sn m rs lp lu mt cl cp ec fm th pe)
| call_set_turn_session_id id sid : repo_call _ (Turns.set_agent_session_id id sid)
| call_finish_turn ts id state : repo_call _ (Turns.finish ts id state)
| call_interrupt_turns ts : repo_call _ (Turns.mark_orphans_interrupted ts)
| call_create_thread ts id input : repo_call _ (Threads.create ts id input)
| call_update_thread ts id patch : repo_call _ (Threads.update ts id patch)
| call_save_thread ts thread : repo_call _ (Threads.save ts thread)
| call_assign_group ts id g : repo_call _ (Threads.assign_group ts id g)
| call_create_group ts id input : repo_call _ (Threads.create_group ts id input)
| call_update_group ts id patch : repo_call _ (Threads.update_group ts id patch)
| call_delete_group ts id : repo_call _ (Threads.delete_group ts id)
| call_set_order ids : repo_call _ (Threads.set_order ids)
| call_delete_thread id : repo_call _ (Threads.delete id)
| call_pause_threads ts : repo_call _ (Threads.pause_orphaned_running ts)
| call_insert_message ev : repo_call _ (Transcripts.insert (V:=V) ev)
| call_insert_thread_message ev : repo_call _ (Transcripts.insert_thread_event (V:=V) ev)
| call_upsert ev : repo_call _ (Transcripts.upsert (V:=V) ev).

Lemma ok_fetch {R T} `{Table AgentDb R} `{Codec R T} id : ok (fetch_by_id (T:=T) id).
Proof. apply keeps_bind; [apply keeps_gets|intros; apply keeps_lift]. Qed.

(** [get(..)?.ok_or(NotFound)?] before more work. *)
Lemma ok_found {R T B} `{Table AgentDb R} `{Codec R T} id (k : T -> AgentM B) :
  (forall x, ok (k x)) -> ok (found ← fetch_by_id id; x ← lift_opt found DbNotFound; k x).
Proof. intros Hk. apply keeps_bind; [apply ok_fetch|]. intros found. apply keeps_bind; [apply keeps_lift|done]. Qed.

Lemma ok_set {R T A} `{HR : TableOk AgentDb R} `{HC : Codec R T} `{!Hosted (V:=V) R T} p f (x : A) :
  (forall r, row_id (f r) = row_id r) ->
  (forall r, p r = true -> is_ok (try_from (T:=T) r) = true -> is_ok (try_from (T:=T) (f r)) = true) ->
  ok (_ ← update_rows p f; mret x).
Proof. intros Hid Hf. apply keeps_bind; [by apply (keeps_update_rows (T:=T))|intros _; apply keeps_ret]. Qed.

Lemma ok_save ts thread : ok (Threads.save ts thread).
Proof.
  apply keeps_bind; [apply (keeps_update_rows (T:=AgentThread.t)); [done|intros r _ _; apply thread_columns_ok]|].
  intros _. apply keeps_bind; [apply ok_fetch|intros; apply keeps_lift].
Qed.

Lemma ok_order_from ids n : ok (Threads.order_from n ids).
Proof.
  revert n. induction ids as [|id ids IH]; intros n; cbn; [apply keeps_ret|]. apply keeps_bind; [|intros _; apply IH].
  apply (keeps_update_rows (T:=AgentThread.t)); [done|]. intros r _. apply set_order_row_ok.
Qed.

Lemma repo_call_ok {A} (m : AgentM A) : repo_call A m -> ok m.
Proof.
  destruct 1.
  - unfold Projects.create. eapply (keeps_created (T:=Project.t)). reflexivity.
  - apply ok_delete_project.
  - unfold Tasks.create. eapply (keeps_created (T:=Task.t)). reflexivity.
  - apply ok_found. intros x. apply (ok_set (T:=Task.t)); [done|intros r _ _; apply task_columns_ok].
  - apply ok_delete_task.
  - apply (keeps_update_rows (T:=Task.t)); [done|intros r _; apply task_status_row_ok].
  - unfold Sessions.create. eapply (keeps_created (T:=Session.t)). reflexivity.
  - apply (ok_set (T:=Session.t)); [done|intros r _; apply session_id_row_ok].
  - apply (ok_set (T:=Session.t)); [done|intros r _; apply end_session_row_ok].
  - apply ok_delete_session.
  - apply (keeps_update_rows (T:=Session.t)); [done|intros r _; apply end_session_row_ok].
  - unfold Turns.create. eapply (keeps_created (T:=AgentTurn.t)). reflexivity.
  - apply (ok_set (T:=AgentTurn.t)); [done|intros r _; apply turn_id_row_ok].
  - apply (ok_set (T:=AgentTurn.t)); [done|intros r _; apply end_turn_row_ok].
  - apply (keeps_update_rows (T:=AgentTurn.t)); [done|intros r _; apply end_turn_row_ok].
  - apply keeps_bind; [destruct (NewAgentThread.task_budget input); [apply keeps_lift|apply keeps_ret]|].
    intros _. eapply (keeps_created (T:=AgentThread.t)). reflexivity.
  - apply ok_found. intros x. apply keeps_bind; [|intros _; apply ok_save].
    destruct (AgentThreadUpdate.task_budget patch); [apply keeps_lift|apply keeps_ret].
  - apply ok_save.
  - apply keeps_bind; [apply (keeps_update_rows (T:=AgentThread.t)); [done|intros r _; apply set_group_row_ok]|].
    intros _. apply keeps_bind; [apply ok_fetch|intros; apply keeps_lift].
  - unfold Threads.create_group. eapply (keeps_created (T:=WorkbenchSessionGroup.t)). reflexivity.
  - apply ok_found. intros x. apply (ok_set (T:=WorkbenchSessionGroup.t)); done.
  - apply ok_delete_group.
  - apply ok_order_from.
  - apply ok_delete_thread.
  - apply (keeps_update_rows (T:=AgentThread.t)); [done|intros r _; apply pause_row_ok].
  - by apply (keeps_insert_row (T:=SessionMessageRow.t)).
  - by apply (keeps_insert_row (T:=ThreadMessageRow.t)).
  - apply keeps_bind; [apply keeps_get|]. intros db. case_match; [apply (ok_set (T:=ThreadMessageRow.t)); done|].
    by apply (keeps_insert_row (T:=ThreadMessageRow.t)).
Qed.

Inductive reached (es : gset string) : AgentDb -> Prop :=
| reached_empty : reached es (mkAgentDb [] es [] [] [] [] [] [] [])
| reached_call A (m : AgentM A) db : reached es db -> repo_call A m -> reached es (final m db).

Lemma reached_ok es db : reached es db -> agent_db_ok (V:=V) db.
Proof.
  induction 1 as [|A m db _ IH Hm]; [|by apply (repo_call_ok m)].
  split; split; try apply NoDup_nil_2; by intros r ?%elem_of_nil.
Qed.
End Calls.
