(* ===== verification/AgentDbTheorems.v ===== *)
(** * The tables of the agents' work: theorems

    Every call keeps the tables readable; what is written is what is read back;
    start-up reconciliation; transcripts in order. *)
From Stdlib Require Import SpecFloat Ascii String.
From S2P Require Import Prelude RustStr Json Enums Records WorkGraphDb WorkGraphInv Limits Budget SqlTable AgentDb AgentDbProps.
#[local] Open Scope string_scope.
#[local] Open Scope Z_scope.

(** ** Orders by a timestamp *)
Section Timestamps.
Context {R : Type} (at_ : R -> Z).

#[global] Instance oldest_total : Total (le_of (oldest_first at_)).
Proof. intros a b. unfold le_of, oldest_first. rewrite !Z.leb_le. lia. Qed.
#[global] Instance oldest_trans : Transitive (le_of (oldest_first at_)).
Proof. intros a b c. unfold le_of, oldest_first. rewrite !Z.leb_le. lia. Qed.
#[global] Instance newest_total : Total (le_of (newest_first at_)).
Proof. intros a b. unfold le_of, newest_first. rewrite !Z.leb_le. lia. Qed.
#[global] Instance newest_trans : Transitive (le_of (newest_first at_)).
Proof. intros a b c. unfold le_of, newest_first. rewrite !Z.leb_le. lia. Qed.

(** A list sorted by time is determined by its rows of each instant. *)
Lemma timeline_unique l1 l2 :
  StronglySorted (le_of (oldest_first at_)) l1 -> StronglySorted (le_of (oldest_first at_)) l2 ->
  (forall k, filter (fun r => at_ r = k) l1 = filter (fun r => at_ r = k) l2) -> l1 = l2.
Proof.
  intros H1. revert l2. induction H1 as [|a l1 Hs1 IH Ha]; intros l2 H2 Hf.
  - destruct l2 as [|b l2]; [done|]. specialize (Hf (at_ b)). rewrite filter_cons_True in Hf by done. done.
  - destruct H2 as [|b l2 Hs2 Hb].
    { specialize (Hf (at_ a)). rewrite filter_cons_True in Hf by done. done. }
    assert (at_ a = at_ b) as Hab.
    { assert (b ∈ a :: l1) as Hin1.
      { apply (list_elem_of_filter (fun r => at_ r = at_ b)). rewrite Hf. apply list_elem_of_filter. split; [done|left]. }
      assert (a ∈ b :: l2) as Hin2.
      { apply (list_elem_of_filter (fun r => at_ r = at_ a)). rewrite <- Hf. apply list_elem_of_filter. split; [done|left]. }
      rewrite Forall_forall in Ha, Hb. unfold le_of, oldest_first in *.
      apply elem_of_cons in Hin1 as [->|Hin1]; [done|]. apply elem_of_cons in Hin2 as [->|Hin2]; [done|].
      specialize (Ha _ Hin1). specialize (Hb _ Hin2). rewrite Z.leb_le in *. lia. }
    pose proof (Hf (at_ a)) as Hhead. rewrite !filter_cons_True in Hhead by done. injection Hhead as -> _. f_equal.
    apply IH; [done|]. intros k. specialize (Hf k). rewrite !filter_cons in Hf. case_decide; [by injection Hf|done].
Qed.

Lemma StronglySorted_reverse (Q : relation R) l : StronglySorted Q l -> StronglySorted (flip Q) (reverse l).
Proof.
  induction 1 as [|a l Hs IH Ha]; [constructor|]. rewrite reverse_cons. apply StronglySorted_snoc_last; [done|].
  by apply Forall_reverse.
Qed.

Lemma filter_rev (P : R -> Prop) `{!forall r, Decision (P r)} l : filter P (reverse l) = reverse (filter P l).
Proof.
  induction l as [|a l IH]; [done|]. rewrite reverse_cons, filter_app, IH, !filter_cons.
  case_decide; [by rewrite reverse_cons|by rewrite app_nil_r].
Qed.

Lemma oldest_at k l : filter (fun r => at_ r = k) (sort_by (oldest_first at_) l) = filter (fun r => at_ r = k) l.
Proof. apply sort_by_stable. intros x y _ _ <- Heq. unfold oldest_first. apply Z.leb_le. lia. Qed.
Lemma newest_at k l : filter (fun r => at_ r = k) (sort_by (newest_first at_) l) = filter (fun r => at_ r = k) l.
Proof. apply sort_by_stable. intros x y _ _ <- Heq. unfold newest_first. apply Z.leb_le. lia. Qed.

(** Newest first with the later row first among equals is oldest first backwards. *)
Lemma newest_reverse l : sort_by (newest_first at_) (reverse l) = reverse (sort_by (oldest_first at_) l).
Proof.
  rewrite <- (reverse_involutive (sort_by _ (reverse l))). f_equal. apply timeline_unique.
  - eapply (StronglySorted_reverse (le_of (newest_first at_))), sort_by_sorted; apply _.
  - apply sort_by_sorted; apply _.
  - intros k. by rewrite filter_rev, newest_at, filter_rev, reverse_involutive, oldest_at.
Qed.

(** Sorting and selecting commute. *)
Lemma filter_oldest (P : R -> Prop) `{!forall r, Decision (P r)} l :
  filter P (sort_by (oldest_first at_) l) = sort_by (oldest_first at_) (filter P l).
Proof.
  apply timeline_unique.
  - apply StronglySorted_filter_keep, sort_by_sorted; apply _.
  - apply sort_by_sorted; apply _.
  - intros k. rewrite oldest_at, !list_filter_filter.
    rewrite (list_filter_iff _ (fun r => P r /\ at_ r = k) (sort_by _ l)) by tauto.
    rewrite <- list_filter_filter, oldest_at, list_filter_filter. apply list_filter_iff. tauto.
Qed.
End Timestamps.

Definition lastn {A} (n : nat) (l : list A) : list A := drop (length l - n) l.

Lemma reverse_take_reverse {A} n (l : list A) : reverse (take n (reverse l)) = lastn n l.
Proof. unfold lastn. rewrite take_reverse, reverse_involutive. done. Qed.

(** ** Reconciliation at start-up *)

(** What is left of the work a dead process had in hand. *)
Definition requeued_task (ts : Z) (t : Task.t) : Task.t :=
  if bool_decide (t.(Task.status) = TaskStatus.Running) then Task.set_status TaskStatus.Queued (Task.set_updated_at ts t) else t.
Definition interrupted_session (ts : Z) (x : Session.t) : Session.t :=
  if bool_decide (x.(Session.state) = SessionState.Running)
  then Session.set_state SessionState.Interrupted (Session.set_ended_at (Some ts) x) else x.
Definition interrupted_turn (ts : Z) (x : AgentTurn.t) : AgentTurn.t :=
  if bool_decide (x.(AgentTurn.state) = SessionState.Running)
  then AgentTurn.set_state SessionState.Interrupted (AgentTurn.set_ended_at (Some ts) x) else x.
Definition recovered_thread (ts : Z) (x : AgentThread.t) : AgentThread.t :=
  let restarted := AgentThread.set_handoff_state "process_restarted" (AgentThread.set_updated_at ts x) in
  match x.(AgentThread.status) with
  | TaskStatus.Running => AgentThread.set_status TaskStatus.Queued restarted
  | TaskStatus.AwaitingApproval => AgentThread.set_status TaskStatus.Paused restarted
  | _ => x
  end.

(** Decode column by column, keeping what each column decoded to. *)
Ltac decode_row :=
  cbn -[decode decode_opt parse_task_budget];
  repeat match goal with
  | |- context [decode (T:=?T) ?x ≫= _] => destruct (decode (T:=T) x) eqn:?; cbn -[decode decode_opt parse_task_budget]; [|done]
  | |- context [decode_opt (T:=?T) ?x ≫= _] => destruct (decode_opt (T:=T) x) eqn:?; cbn -[decode decode_opt parse_task_budget]; [|done]
  end; try intros [= <-].
Ltac rewrite_decodes :=
  repeat match goal with
  | H : decode _ = Ok _ |- _ => rewrite H; clear H; cbn -[decode decode_opt parse_task_budget]
  | H : decode_opt _ = Ok _ |- _ => rewrite H; clear H; cbn -[decode decode_opt parse_task_budget]
  end.

Section Reconcile.
Context {V : Type} `{JsonOk V} `{!BudgetSerde V} `{!BudgetSerdeOk V}.

(** A text column equals a constant exactly when it decodes to that value. *)
Lemma decode_is {T} `{CanonicalEnum T} s (x c : T) : decode s = Ok x -> eq_str s (wire c) = true <-> x = c.
Proof.
  unfold decode. destruct (unwire s) as [y|] eqn:Hu; [|done]. intros [= ->]. rewrite eq_str_true. split.
  - intros ->. rewrite unwire_wire in Hu. congruence.
  - intros ->. symmetry. by apply wire_unwire.
Qed.

Lemma decode_is_bool {T} `{CanonicalEnum T} `{EqDecision T} s (x c : T) :
  decode s = Ok x -> eq_str s (wire c) = bool_decide (x = c).
Proof.
  intros Hx. apply eq_true_iff_eq. rewrite (decode_is s x c Hx). by rewrite bool_decide_eq_true.
Qed.

Lemma task_requeued ts r x :
  task_try_from r = Ok x ->
  task_try_from (if eq_str r.(TaskRow.status) "running" then Tasks.set_status_at "queued" ts r else r) =
  Ok (requeued_task ts x).
Proof.
  unfold task_try_from. destruct (decode (T:=TaskStatus.t) r.(TaskRow.status)) as [st|] eqn:Hst; [|done].
  rewrite (decode_is_bool _ st TaskStatus.Running Hst : eq_str r.(TaskRow.status) "running" = _).
  decode_row. unfold requeued_task. cbn. case_bool_decide; cbn -[decode decode_opt]; rewrite_decodes; by subst.
Qed.

Lemma session_interrupted ts r x :
  session_try_from r = Ok x ->
  session_try_from (if eq_str r.(SessionRow.status) "running" then Sessions.end_row "interrupted" ts r else r) =
  Ok (interrupted_session ts x).
Proof.
  unfold session_try_from. destruct (decode (T:=AgentKind.t) r.(SessionRow.agent_kind)) eqn:Hk; [|done]. cbn -[decode decode_opt].
  destruct (decode (T:=SessionState.t) r.(SessionRow.status)) as [st|] eqn:Hst; [|done].
  rewrite (decode_is_bool _ st SessionState.Running Hst : eq_str r.(SessionRow.status) "running" = _).
  decode_row. unfold interrupted_session. cbn. case_bool_decide; cbn -[decode decode_opt]; rewrite_decodes; by subst.
Qed.

Lemma turn_interrupted ts r x :
  turn_try_from r = Ok x ->
  turn_try_from (if eq_str r.(AgentTurnRow.status) "running" then Turns.end_row "interrupted" ts r else r) =
  Ok (interrupted_turn ts x).
Proof.
  unfold turn_try_from. destruct (decode (T:=AgentKind.t) r.(AgentTurnRow.agent_kind)) eqn:Hk; [|done]. cbn -[decode decode_opt].
  destruct (decode (T:=SessionState.t) r.(AgentTurnRow.status)) as [st|] eqn:Hst; [|done].
  rewrite (decode_is_bool _ st SessionState.Running Hst : eq_str r.(AgentTurnRow.status) "running" = _).
  decode_row. unfold interrupted_turn. cbn. case_bool_decide; cbn -[decode decode_opt]; rewrite_decodes; by subst.
Qed.

Lemma pause_row_cases ts r st :
  decode (T:=TaskStatus.t) r.(AgentThreadRow.status) = Ok st ->
  (if Threads.orphaned r then Threads.pause_row ts r else r) =
  let restarted := AgentThreadRow.set_handoff_state "process_restarted" (AgentThreadRow.set_updated_at ts r) in
  match st with
  | TaskStatus.Running => AgentThreadRow.set_status "queued" restarted
  | TaskStatus.AwaitingApproval => AgentThreadRow.set_status "paused" restarted
  | _ => r
  end.
Proof.
  intros Hst. unfold Threads.orphaned, Threads.pause_row.
  rewrite (decode_is_bool _ st TaskStatus.Running Hst : eq_str r.(AgentThreadRow.status) "running" = _).
  rewrite (decode_is_bool _ st TaskStatus.AwaitingApproval Hst : eq_str r.(AgentThreadRow.status) "awaiting_approval" = _).
  by destruct st.
Qed.

Lemma thread_status_decodes r x : thread_try_from r = Ok x -> decode r.(AgentThreadRow.status) = Ok x.(AgentThread.status).
Proof.
  unfold thread_try_from. destruct (decode (T:=TaskStatus.t) r.(AgentThreadRow.status)) as [st|] eqn:Hst; [|done].
  decode_row. destruct (parse_task_budget _); [|done]. by intros [= <-].
Qed.

(** The three columns of a restart. *)
Lemma restarted_row status st ts r x :
  thread_try_from r = Ok x -> decode status = Ok st ->
  thread_try_from (AgentThreadRow.set_status status
    (AgentThreadRow.set_handoff_state "process_restarted" (AgentThreadRow.set_updated_at ts r))) =
  Ok (AgentThread.set_status st (AgentThread.set_handoff_state "process_restarted" (AgentThread.set_updated_at ts x))).
Proof.
  unfold thread_try_from. intros Hx Hst. revert Hx. cbn -[decode decode_opt parse_task_budget]. rewrite Hst.
  decode_row. destruct (parse_task_budget _) eqn:Hb; [|done]. by intros [= <-].
Qed.

Lemma thread_recovered ts r x :
  thread_try_from r = Ok x ->
  thread_try_from (if Threads.orphaned r then Threads.pause_row ts r else r) = Ok (recovered_thread ts x).
Proof.
  intros Hx. rewrite (pause_row_cases ts r _ (thread_status_decodes r x Hx)). unfold recovered_thread.
  destruct (AgentThread.status x); try exact Hx; by apply restarted_row.
Qed.

(** A statement that leaves the foreign-key columns alone runs. *)
Lemma update_rows_runs {R T} `{TableOk AgentDb R} `{Codec R T} `{!Hosted (V:=V) R T} p f db :
  agent_db_ok (V:=V) db -> (forall r, references_ok db (f r) = references_ok db r) ->
  update_rows p f db = (put_rows (update_where p f (rows_of db)) db,
                        Ok (Z.of_nat (length (filter (fun r => p r = true) (rows_of db))))).
Proof.
  intros Hdb Hf. apply update_rows_eq. intros r Hr _. rewrite Hf. by apply (host_table (T:=T) db Hdb).
Qed.

Definition session_running (r : SessionRow.t) : bool := eq_str r.(SessionRow.status) "running".
Definition turn_running (r : AgentTurnRow.t) : bool := eq_str r.(AgentTurnRow.status) "running".
Definition task_running (r : TaskRow.t) : bool := eq_str r.(TaskRow.status) "running".

Lemma reconcile_eq ts1 ts2 ts3 ts4 db :
  agent_db_ok (V:=V) db ->
  final (reconcile ts1 ts2 ts3 ts4) db =
  put_threads (update_where Threads.orphaned (Threads.pause_row ts4) db.(threads))
    (put_tasks (update_where task_running (Tasks.set_status_at "queued" ts3) db.(tasks))
       (put_turns (update_where turn_running (Turns.end_row "interrupted" ts2) db.(turns))
          (put_sessions (update_where session_running (Sessions.end_row "interrupted" ts1) db.(sessions)) db))).
Proof.
  intros H1. unfold final, reconcile.
  assert (H2 := repo_call_ok (V:=V) _ (call_interrupt_sessions ts1) db H1).
  assert (H3 := repo_call_ok (V:=V) _ (call_interrupt_turns ts2) _ H2).
  assert (H4 := repo_call_ok (V:=V) _ (call_pause_tasks ts3) _ H3).
  unfold final, Sessions.mark_orphans_interrupted, Turns.mark_orphans_interrupted, Tasks.pause_orphaned_running in *.
  rewrite (update_rows_runs (T:=Session.t)) in H2, H3, H4 by done. cbn [fst] in *.
  rewrite (update_rows_runs (T:=AgentTurn.t)) in H3, H4 by done. cbn [fst] in *.
  rewrite (update_rows_runs (T:=Task.t)) in H4 by done. cbn [fst] in *.
  rewrite M_bind_unfold. unfold attempt at 1. rewrite (update_rows_runs (T:=Session.t)) by done.
  rewrite M_bind_unfold. unfold attempt at 1. rewrite (update_rows_runs (T:=AgentTurn.t)) by done.
  rewrite M_bind_unfold. unfold attempt at 1. rewrite (update_rows_runs (T:=Task.t)) by done.
  rewrite M_bind_unfold. unfold attempt, Threads.pause_orphaned_running.
  rewrite (update_rows_runs (T:=AgentThread.t)) by done. done.
Qed.
End Reconcile.

(** ** Reading back *)
Section ReadBack.
Context {V : Type} `{JsonOk V} `{!BudgetSerde V} `{!BudgetSerdeOk V}.

Lemma created_then_read {R T} `{HR : TableOk AgentDb R} `{HC : CodecOk R T} (x : T) r db db' y :
  r = to_row x -> (_ ← insert_row r; mret x) db = (db', Ok y) ->
  y = x /\ value (fetch_by_id (T:=T) (row_id r)) db' = Ok (Some x).
Proof.
  intros ->. rewrite M_bind_unfold, insert_row_eq. destruct (_ || _) eqn:Hg; [done|]. cbn. intros [= <- <-].
  split; [done|]. apply fetch_inserted. by apply orb_false_iff in Hg as [? _].
Qed.

(** The columns an update keeps come from the row; the rest from the value. *)
Lemma task_columns_row r x ts patch :
  task_try_from r = Ok x -> task_columns (Tasks.patch_task ts patch x) r = task_row (Tasks.patch_task ts patch x).
Proof. unfold task_try_from. decode_row. done. Qed.

Lemma thread_columns_row r x patch ts :
  thread_try_from r = Ok x ->
  AgentThreadRow.set_updated_at ts (thread_columns (Threads.patch_thread patch x) r) =
  thread_row (AgentThread.set_updated_at ts (Threads.patch_thread patch x)).
Proof. unfold thread_try_from. decode_row. destruct (parse_task_budget _); [|done]. by intros [= <-]. Qed.

Lemma task_id_column r x : task_try_from r = Ok x -> x.(Task.id) = r.(TaskRow.id).
Proof. unfold task_try_from. by decode_row. Qed.
Lemma thread_id_column r x : thread_try_from r = Ok x -> x.(AgentThread.id) = r.(AgentThreadRow.id).
Proof. unfold thread_try_from. decode_row. destruct (parse_task_budget _); [|done]. by intros [= <-]. Qed.

(** The columns [thread_columns] copies from the row are the value's. *)
Lemma thread_kept_columns r x :
  thread_try_from r = Ok x ->
  x.(AgentThread.id) = r.(AgentThreadRow.id) /\ x.(AgentThread.project_id) = r.(AgentThreadRow.project_id) /\
  x.(AgentThread.group_id) = r.(AgentThreadRow.group_id) /\
  x.(AgentThread.force_managed_workspace) = r.(AgentThreadRow.force_managed_workspace) /\
  x.(AgentThread.created_at) = r.(AgentThreadRow.created_at).
Proof. unfold thread_try_from. decode_row. destruct (parse_task_budget _); [|done]. by intros [= <-]. Qed.

Lemma found_row {R T} `{HR : TableOk AgentDb R} `{HC : Codec R T} db id (x : T) :
  value (fetch_by_id id) db = Ok (Some x) ->
  exists r, find (by_id id) (rows_of db) = Some r /\ r ∈ rows_of db /\ row_id r = id /\ try_from r = Ok x.
Proof.
  unfold value. rewrite fetch_by_id_eq. destruct (find _ _) as [r|] eqn:Hf; [|done]. cbn.
  destruct (try_from r) eqn:Hr; [|done]. intros [= ->]. exists r. split; [done|].
  apply find_Some_elem in Hf as [? ?%by_id_true]. done.
Qed.

Lemma fetch_found {R T} `{Table AgentDb R} `{Codec R T} db id (x : T) :
  value (fetch_by_id id) db = Ok (Some x) -> fetch_by_id id db = (db, Ok (Some x)).
Proof. unfold value. rewrite !fetch_by_id_eq. cbn. by intros ->. Qed.

(** One row rewritten in place: what its id reads, and what every other id reads. *)
Lemma updated_then_read {R T} `{HR : TableOk AgentDb R} `{HC : CodecOk R T} `{!Hosted (V:=V) R T} db id f r (y : T) :
  agent_db_ok (V:=V) db -> find (by_id id) (rows_of db) = Some r -> (forall r, row_id (f r) = row_id r) ->
  f r = to_row y -> references_ok db (to_row y) = true ->
  exists n db', update_rows (by_id id) f db = (db', Ok n) /\
    value (fetch_by_id (T:=T) id) db' = Ok (Some y) /\
    forall id', id' <> id -> value (fetch_by_id (T:=T) id') db' = value (fetch_by_id (T:=T) id') db.
Proof.
  intros Hdb Hf Hid Hy Href. apply find_Some_elem in Hf as Hr. destruct Hr as [Hr Hrid].
  assert (Hupd := update_rows_eq db (by_id id) f). eexists _, _. split; [apply Hupd|split].
  - intros r' Hr' Hr'id. destruct (host_table (T:=T) db Hdb) as [Hnd _].
    apply by_id_true in Hrid, Hr'id. assert (r' = r) as ->; [|by rewrite Hy].
    apply (NoDup_column_inj _ _ _ _ Hnd); [done..|]. congruence.
  - rewrite fetch_updated by done. rewrite Hf. cbn. by rewrite Hy, try_from_to_row.
  - intros id' Hne. by apply fetch_other.
Qed.

(** An update of a stored task. *)
Lemma task_updated ts id patch x db :
  agent_db_ok (V:=V) db -> value (Tasks.get_task id) db = Ok (Some x) ->
  let y := Tasks.patch_task ts patch x in
  exists db', Tasks.update ts id patch db = (db', Ok y) /\ value (Tasks.get_task id) db' = Ok (Some y) /\
    forall id', id' <> id -> value (Tasks.get_task id') db' = value (Tasks.get_task id') db.
Proof.
  intros Hdb Hx. destruct (found_row db id x Hx) as (r & Hf & Hin & Hid & Hr). cbv zeta.
  pose proof (task_id_column r x Hr : Task.id x = row_id r) as Hxid.
  destruct (updated_then_read (T:=Task.t) db id (task_columns (Tasks.patch_task ts patch x)) r (Tasks.patch_task ts patch x))
    as (n & db' & Hupd & Hget & Hother); [done..|by apply task_columns_row| |].
  { destruct (host_table (T:=Task.t) db Hdb) as [_ Hrows]. destruct (Hrows r Hin) as [_ Href]. revert Hr Href.
    change (try_from r) with (task_try_from r). unfold task_try_from. by decode_row. }
  exists db'. split; [|done]. unfold Tasks.update, Tasks.get_task. rewrite M_bind_unfold, (fetch_found db id x Hx).
  rewrite M_bind_unfold. unfold lift_opt, lift. cbn [ok_or]. rewrite M_bind_unfold.
  change (Task.id (Tasks.patch_task ts patch x)) with (Task.id x). by rewrite Hxid, Hid, Hupd.
Qed.
End ReadBack.

(** ** Transcripts *)
Section Transcripts.
Context {V : Type} `{JsonOk V}.

Lemma content_text (content : V) : Transcripts.content_of (json_to_string content) = content.
Proof. unfold Transcripts.content_of. by rewrite json_text_roundtrip. Qed.

(** The event a stream of deltas amounts to: the first one's identity, the last
    one's content; a missing message id is looked for in the data. *)
Definition merged_event (ev last : AgentThreadEvent.t V) : AgentThreadEvent.t V :=
  AgentThreadEvent.mk V ev.(AgentThreadEvent.id) ev.(AgentThreadEvent.thread_id) ev.(AgentThreadEvent.turn_id)
    ev.(AgentThreadEvent.role) ev.(AgentThreadEvent.kind) last.(AgentThreadEvent.text)
    (match last.(AgentThreadEvent.client_message_id) with
     | Some id => Some id
     | None => json_get last.(AgentThreadEvent.data) "client_message_id" ≫= json_as_str
     end) last.(AgentThreadEvent.data) ev.(AgentThreadEvent.ts).

Definition merged_row (ev last : AgentThreadEvent.t V) : ThreadMessageRow.t :=
  ThreadMessageRow.set_content_json (Transcripts.thread_message_row last).(ThreadMessageRow.content_json)
    (Transcripts.thread_message_row ev).

Lemma read_merged ev last : Transcripts.row_to_thread_event (merged_row ev last) = merged_event ev last.
Proof.
  unfold Transcripts.row_to_thread_event, merged_event. cbn. rewrite content_text.
  rewrite !json_get_object by by apply (bool_decide_unpack _). cbn. rewrite !json_opt_as_str.
  by destruct (AgentThreadEvent.client_message_id last).
Qed.

Lemma read_inserted tid ev :
  ev.(SessionEvent.task_id) = tid -> Transcripts.row_to_event tid (Transcripts.session_message_row ev) = ev.
Proof.
  intros <-. destruct ev. unfold Transcripts.row_to_event. cbn. rewrite content_text.
  rewrite !json_get_object by by apply (bool_decide_unpack _). cbn. by rewrite (json_opt_as_str text : json_as_str (from_option json_str Null text) = text).
Qed.

(** Once a message is there, each delta rewrites it in place. *)
Lemma upsert_again ev prev delta db :
  delta.(AgentThreadEvent.id) = ev.(AgentThreadEvent.id) ->
  existsb (by_id ev.(AgentThreadEvent.id)) db.(thread_messages) = false ->
  references_ok db (Transcripts.thread_message_row ev) = true ->
  (forall r, r ∈ db.(thread_messages) -> references_ok db r = true) ->
  Transcripts.upsert delta (put_thread_messages (db.(thread_messages) ++ [merged_row ev prev])%list db) =
  (put_thread_messages (db.(thread_messages) ++ [merged_row ev delta])%list db, Ok ()).
Proof.
  intros Hid Hnew Href Hrefs. unfold Transcripts.upsert. cbv zeta. rewrite M_bind_unfold. cbn [get].
  change (row_id (Transcripts.thread_message_row delta)) with (AgentThreadEvent.id delta). rewrite Hid.
  change (rows_of (put_thread_messages ?l db)) with l.
  assert (existsb (by_id ev.(AgentThreadEvent.id)) (thread_messages db ++ [merged_row ev prev])%list = true) as ->.
  { apply existsb_exists. exists (merged_row ev prev). split; [apply list_elem_of_In; set_solver|by apply by_id_true]. }
  rewrite M_bind_unfold, (update_rows_eq (S:=AgentDb)).
  - cbn -[update_where]. rewrite update_where_app, update_where_none by done.
    unfold update_where. cbn. by rewrite (proj2 (by_id_true (S:=AgentDb) _ (merged_row ev prev))).
  - intros r [Hr| ->%list_elem_of_singleton]%elem_of_app _; [|exact Href]. exact (Hrefs r Hr).
Qed.

Lemma upserts_again ev deltas prev db :
  (forall d, d ∈ deltas -> d.(AgentThreadEvent.id) = ev.(AgentThreadEvent.id)) ->
  existsb (by_id ev.(AgentThreadEvent.id)) db.(thread_messages) = false ->
  references_ok db (Transcripts.thread_message_row ev) = true ->
  (forall r, r ∈ db.(thread_messages) -> references_ok db r = true) ->
  for_each Transcripts.upsert deltas (put_thread_messages (db.(thread_messages) ++ [merged_row ev prev])%list db) =
  (put_thread_messages (db.(thread_messages) ++ [merged_row ev (default prev (last deltas))])%list db, Ok ()).
Proof.
  intros Hids Hnew Href Hrefs. revert prev. induction deltas as [|d deltas IH]; intros prev; [done|]. cbn [for_each].
  rewrite M_bind_unfold, upsert_again by (done || apply Hids; by left).
  rewrite IH by (intros; apply Hids; by right). rewrite last_cons. by destruct (last deltas).
Qed.
End Transcripts.

(** ** A concrete store *)
Module DemoStore.

#[global] Instance tree_budget : BudgetSerde Tree.t := {
  budget_to_value b :=
    match b with
    | TaskBudget.Unlimited => Tree.JObject [("mode", Tree.JStr "unlimited")]
    | TaskBudget.Tokens n => Tree.JObject [("mode", Tree.JStr "tokens"); ("limit_tokens", Tree.JNum n)]
    | TaskBudget.WeeklyPercent n => Tree.JObject [("mode", Tree.JStr "weekly_percent"); ("limit_percent", Tree.JNum n)]
    end;
  budget_from_value v :=
    match v with
    | Tree.JObject [(_, Tree.JStr mode)] => if String.eqb mode "unlimited" then Ok TaskBudget.Unlimited else Err "missing field"
    | Tree.JObject [(_, Tree.JStr mode); (_, Tree.JNum n)] =>
        if String.eqb mode "tokens" then Ok (TaskBudget.Tokens n) else Ok (TaskBudget.WeeklyPercent n)
    | _ => Err "invalid type"
    end }.

#[global] Instance tree_budget_ok : BudgetSerdeOk Tree.t.
Proof. split; intros []; [done..| | |]; by eexists. Qed.

Definition new_task : NewTask.t := NewTask.mk "p" "Fix the parser" None None TaskPriority.Medium (Some AgentKind.Codex) None None None None None None.
Definition new_thread : NewAgentThread.t :=
  NewAgentThread.mk (Some "p") None "Chat" None [] (Some AgentKind.ClaudeCode) None None false None None None None None None None None
    None None (Some (TaskBudget.Tokens 20000)).

Definition setup : AgentM () :=
  _ ← Projects.create 1 "p" (NewProject.mk "Demo" None);
  _ ← Tasks.create 2 "t" new_task;
  _ ← Sessions.create 3 "s" "t" AgentKind.Codex ExecutionBackend.Host None None None None None ModelTargetKind.FrontierDefault
        None None None None None None;
  _ ← Threads.create (V:=Tree.t) 4 "h" new_thread;
  _ ← Turns.create 5 "u" "h" AgentKind.ClaudeCode "ask" ExecutionBackend.Host None None None None None
        ModelTargetKind.FrontierDefault None None None None None None;
  _ ← Tasks.update 6 "t" (TaskUpdate.mk None None (Some TaskStatus.Running) None None None None None None None None);
  mret ().

Definition db : AgentDb := final setup (mkAgentDb [] ∅ [] [] [] [] [] [] []).

Lemma db_reached : reached (V:=Tree.t) ∅ db.
Proof.
  pose proof (reached_empty (V:=Tree.t) ∅) as H.
  apply (fun H => reached_call _ _ _ _ H (call_create_project 1 "p" (NewProject.mk "Demo" None))) in H.
  apply (fun H => reached_call _ _ _ _ H (call_create_task 2 "t" new_task)) in H.
  apply (fun H => reached_call _ _ _ _ H (call_create_session 3 "s" "t" AgentKind.Codex ExecutionBackend.Host None None None
    None None ModelTargetKind.FrontierDefault None None None None None None)) in H.
  apply (fun H => reached_call _ _ _ _ H (call_create_thread 4 "h" new_thread)) in H.
  apply (fun H => reached_call _ _ _ _ H (call_create_turn 5 "u" "h" AgentKind.ClaudeCode "ask" ExecutionBackend.Host None None
    None None None ModelTargetKind.FrontierDefault None None None None None None)) in H.
  apply (fun H => reached_call _ _ _ _ H (call_update_task 6 "t"
    (TaskUpdate.mk None None (Some TaskStatus.Running) None None None None None None None None))) in H.
  exact H.
Qed.

Lemma db_ok : agent_db_ok (V:=Tree.t) db.
Proof. exact (reached_ok ∅ db db_reached). Qed.

Definition delta (text : string) : AgentThreadEvent.t Tree.t :=
  AgentThreadEvent.mk Tree.t "m" "h" "u" "assistant" "assistant_text" (Some text) None Tree.JNull 7.

End DemoStore.

Module Properties.
Section Properties.
Context {V : Type} `{JsonOk V} `{!BudgetSerde V} `{!BudgetSerdeOk V}.

(** in every store the repositories can produce, every listing of tasks,
    sessions, turns, threads and groups succeeds: no sequence of writes leaves a
    row that cannot be read, a dangling foreign key or a repeated key. *)
Theorem agent_tables_stay_readable es db :
  reached (V:=V) es db ->
  agent_db_ok (V:=V) db /\
  (forall p, is_ok (value (Tasks.list_for_project p) db) = true) /\
  (forall st n, is_ok (value (Tasks.list_for_status st n) db) = true) /\
  (forall t, is_ok (value (Sessions.list_for_task t) db) = true) /\
  (forall t, is_ok (value (Turns.list_for_thread t) db) = true) /\
  (forall p, is_ok (value (Threads.list_threads (V:=V) p) db) = true) /\
  (forall st n, is_ok (value (Threads.list_for_status (V:=V) st n) db) = true) /\
  (forall p, is_ok (value (Threads.list_groups p) db) = true).
Proof.
  intros Hdb%reached_ok. pose proof Hdb as [].
  assert (forall R T `{TableOk AgentDb R} `{Codec R T} p leb, table_ok T db -> is_ok (value (fetch_all (T:=T) p leb) db) = true) as Hall.
  { intros R T ??? p leb Ht. by destruct (fetch_all_ok db p leb Ht) as (xs & Hxs & _); unfold value; rewrite Hxs. }
  assert (forall R T `{TableOk AgentDb R} `{Codec R T} p leb n, table_ok T db -> is_ok (value (fetch_limit (T:=T) p leb n) db) = true) as Hlim.
  { intros R T ??? p leb n Ht. by destruct (fetch_limit_ok db p leb n Ht) as (xs & Hxs & _); unfold value; rewrite Hxs. }
  split_and!; [done|..]; intros; try (by apply Hall); try (by apply Hlim).
  - destruct p; by apply Hall.
  - destruct p; by apply Hall.
Qed.

(** what a creation returns is what is stored: the task, session, turn or
    thread just created is read back by its id exactly as it was returned. *)
Theorem created_records_read_back db db' :
  (forall ts id input x, Tasks.create ts id input db = (db', Ok x) -> value (Tasks.get_task id) db' = Ok (Some x)) /\
  (forall ts id tid k b sn m rs lp lu mt cl cp ec fm th pe x,
     Sessions.create ts id tid k b sn m rs lp lu mt cl cp ec fm th pe db = (db', Ok x) ->
     value (Sessions.get_session id) db' = Ok (Some x)) /\
  (forall ts id tid k p b sn m rs lp lu mt cl cp ec fm th pe x,
     Turns.create ts id tid k p b sn m rs lp lu mt cl cp ec fm th pe db = (db', Ok x) ->
     value (Turns.get_turn id) db' = Ok (Some x)) /\
  (forall ts id input x, Threads.create (V:=V) ts id input db = (db', Ok x) ->
     value (Threads.get_thread (V:=V) id) db' = Ok (Some x)).
Proof.
  split_and!; intros *.
  - intros [-> Hr]%(created_then_read (T:=Task.t)); [exact Hr|reflexivity].
  - intros [-> Hr]%(created_then_read (T:=Session.t)); [exact Hr|reflexivity].
  - intros [-> Hr]%(created_then_read (T:=AgentTurn.t)); [exact Hr|reflexivity].
  - unfold Threads.create. rewrite M_bind_unfold.
    destruct (Threads.check_budget (NewAgentThread.task_budget input) db) as [db0 [[]|]] eqn:Hc; [|done].
    intros [-> Hr]%(created_then_read (T:=AgentThread.t)); [exact Hr|reflexivity].
Qed.

(** C39: a restart strands nothing: after reconciliation no task, session, turn or
    thread is running and no thread waits for an approval nobody can give; running
    tasks and threads are queued again, waiting threads are paused, sessions and
    turns are interrupted at the time of the restart, and every other record reads
    as before. *)
Theorem reconcile_recovers ts1 ts2 ts3 ts4 n db :
  agent_db_ok (V:=V) db ->
  let db' := final (reconcile ts1 ts2 ts3 ts4) db in
  value (Tasks.list_for_status TaskStatus.Running n) db' = Ok [] /\
  value (Threads.list_for_status (V:=V) TaskStatus.Running n) db' = Ok [] /\
  value (Threads.list_for_status (V:=V) TaskStatus.AwaitingApproval n) db' = Ok [] /\
  (forall id x, value (Tasks.get_task id) db = Ok (Some x) -> value (Tasks.get_task id) db' = Ok (Some (requeued_task ts3 x))) /\
  (forall id x, value (Sessions.get_session id) db = Ok (Some x) ->
     value (Sessions.get_session id) db' = Ok (Some (interrupted_session ts1 x))) /\
  (forall id x, value (Turns.get_turn id) db = Ok (Some x) ->
     value (Turns.get_turn id) db' = Ok (Some (interrupted_turn ts2 x))) /\
  (forall id x, value (Threads.get_thread (V:=V) id) db = Ok (Some x) ->
     value (Threads.get_thread (V:=V) id) db' = Ok (Some (recovered_thread ts4 x))).
Proof.
  intros Hdb. cbv zeta. rewrite reconcile_eq by done. split_and!.
  - apply fetch_limit_none. cbn. intros r (r0 & Hr & ->)%elem_of_update_where. unfold task_running.
    by destruct (eq_str r0.(TaskRow.status) "running") eqn:He; cbn; rewrite ?He.
  - apply fetch_limit_none. cbn. intros r (r0 & Hr & ->)%elem_of_update_where. unfold Threads.orphaned, Threads.pause_row.
    destruct (eq_str r0.(AgentThreadRow.status) "running") eqn:Hr0, (eq_str r0.(AgentThreadRow.status) "awaiting_approval") eqn:Ha;
      cbn; by rewrite ?Hr0, ?Ha.
  - apply fetch_limit_none. cbn. intros r (r0 & Hr & ->)%elem_of_update_where. unfold Threads.orphaned, Threads.pause_row.
    destruct (eq_str r0.(AgentThreadRow.status) "running") eqn:Hr0, (eq_str r0.(AgentThreadRow.status) "awaiting_approval") eqn:Ha;
      cbn; by rewrite ?Hr0, ?Ha.
  - intros id x. eapply (fetch_mapped (T:=Task.t)); [|reflexivity|]; [done|]. intros; by apply task_requeued.
  - intros id x. eapply (fetch_mapped (T:=Session.t)); [|reflexivity|]; [done|]. intros; by apply session_interrupted.
  - intros id x. eapply (fetch_mapped (T:=AgentTurn.t)); [|reflexivity|]; [done|]. intros; by apply turn_interrupted.
  - intros id x. eapply (fetch_mapped (T:=AgentThread.t)); [|reflexivity|]; [done|]. intros; by apply thread_recovered.
Qed.

(** an update changes exactly the columns its patch names: the record
    returned is the stored one patched and stamped, reading it back returns it, no
    other task or thread changes, and a thread's patch takes effect when its budget
    is valid and its group exists. *)
Theorem updates_exact ts id db :
  agent_db_ok (V:=V) db ->
  (forall patch x, value (Tasks.get_task id) db = Ok (Some x) ->
     let y := Tasks.patch_task ts patch x in
     exists db', Tasks.update ts id patch db = (db', Ok y) /\ value (Tasks.get_task id) db' = Ok (Some y) /\
       forall id', id' <> id -> value (Tasks.get_task id') db' = value (Tasks.get_task id') db) /\
  (forall patch x, value (Threads.get_thread (V:=V) id) db = Ok (Some x) ->
     let y := AgentThread.set_updated_at ts (Threads.patch_thread patch x) in
     is_none_or patch.(AgentThreadUpdate.task_budget) (fun b => is_ok (validate b)) = true ->
     keyed_opt WorkbenchSessionGroupRow.id db.(groups) y.(AgentThread.group_id) = true ->
     exists db', Threads.update (V:=V) ts id patch db = (db', Ok y) /\
       value (Threads.get_thread (V:=V) id) db' = Ok (Some y) /\
       forall id', id' <> id -> value (Threads.get_thread (V:=V) id') db' = value (Threads.get_thread (V:=V) id') db).
Proof.
  intros Hdb. split; intros patch x Hx; [by apply task_updated|].
  destruct (found_row db id x Hx) as (r & Hf & Hin & Hid & Hr). cbv zeta. intros Hbudget Hgroup.
    pose proof (thread_id_column r x Hr : AgentThread.id x = row_id r) as Hxid.
    destruct (updated_then_read (T:=AgentThread.t) db id
      (fun r => AgentThreadRow.set_updated_at ts (thread_columns (Threads.patch_thread patch x) r)) r
      (AgentThread.set_updated_at ts (Threads.patch_thread patch x))) as (n & db' & Hupd & Hget & Hother);
      [done..|by apply thread_columns_row| |].
    { destruct (host_table (T:=AgentThread.t) db Hdb) as [_ Hrows]. destruct (Hrows r Hin) as [_ Href].
      apply andb_true_iff in Href as [Hp _]. apply andb_true_iff. split; [|exact Hgroup]. revert Hr Hp.
      change (try_from r) with (thread_try_from r). unfold thread_try_from. decode_row.
      destruct (parse_task_budget _); [|done]. by intros [= <-]. }
    exists db'. split; [|done]. unfold Threads.update, Threads.get_thread. rewrite M_bind_unfold, (fetch_found db id x Hx).
    rewrite M_bind_unfold. unfold lift_opt, lift. cbn [ok_or]. rewrite M_bind_unfold.
    assert (Threads.check_budget patch.(AgentThreadUpdate.task_budget) db = (db, Ok ())) as ->.
    { destruct (AgentThreadUpdate.task_budget patch) as [b|]; [|done]. cbn in *. unfold lift.
      by destruct (validate b) as [[]|]. }
    unfold Threads.save. rewrite M_bind_unfold.
    change (AgentThread.id (Threads.patch_thread patch x)) with (AgentThread.id x). rewrite Hxid, Hid, Hupd.
    rewrite M_bind_unfold. unfold Threads.get_thread. by rewrite (fetch_found db' id _ Hget).
Qed.

(** the tail of a transcript that a handoff reads is exactly the tail of the
    transcript: the newest [limit] events of the given kinds, in the order of the
    full listing (all of them for a negative limit). *)
Theorem last_events_is_tail sid tid kinds limit db :
  exists all, value (Transcripts.list_for_session (V:=V) sid tid) db = Ok all /\
    value (Transcripts.last_events_for_session (V:=V) sid tid kinds limit) db =
    Ok (let chosen := filter (fun e => e.(SessionEvent.kind) ∈ kinds) all in
        if limit <? 0 then chosen else lastn (Z.to_nat limit) chosen).
Proof.
  eexists. split; [done|]. unfold Transcripts.last_events_for_session. case_bool_decide as Hk.
  - subst. rewrite filter_none by (intros e _; apply not_elem_of_nil). unfold lastn. by destruct (limit <? 0).
  - unfold value, gets. cbn [snd]. f_equal. cbv zeta. rewrite newest_reverse.
    assert (filter (fun e : SessionEvent.t V => SessionEvent.kind e ∈ kinds)
              (Transcripts.row_to_event tid <$> Transcripts.session_rows sid db) =
            Transcripts.row_to_event tid <$>
              sort_by (oldest_first SessionMessageRow.ts)
                (filter (fun r => SessionMessageRow.session_id r = sid /\ SessionMessageRow.kind r ∈ kinds) db.(messages))) as ->.
    { rewrite filter_fmap. f_equal. unfold Transcripts.session_rows, selected. cbn -[sort_by].
      rewrite filter_oldest, list_filter_filter. f_equal. apply list_filter_iff. intros r. rewrite eq_str_true. tauto. }
    unfold sql_limit. destruct (limit <? 0).
    + by rewrite <- fmap_reverse, reverse_involutive.
    + by rewrite <- fmap_reverse, reverse_take_reverse; unfold lastn; rewrite fmap_drop, length_fmap.
Qed.

(** streaming keeps one message: however many deltas with the same id are
    written, the thread's transcript gains exactly one event, with the first
    delta's place and the last delta's content. *)
Theorem upserts_merge ev deltas db :
  agent_db_ok (V:=V) db ->
  (forall d, d ∈ deltas -> d.(AgentThreadEvent.id) = ev.(AgentThreadEvent.id)) ->
  existsb (by_id ev.(AgentThreadEvent.id)) db.(thread_messages) = false ->
  references_ok db (Transcripts.thread_message_row (V:=V) ev) = true ->
  exists db' before after,
    for_each Transcripts.upsert (ev :: deltas) db = (db', Ok ()) /\
    value (Transcripts.list_for_thread (V:=V) ev.(AgentThreadEvent.thread_id)) db = Ok before /\
    value (Transcripts.list_for_thread (V:=V) ev.(AgentThreadEvent.thread_id)) db' = Ok after /\
    after ≡ₚ merged_event ev (default ev (last deltas)) :: before.
Proof.
  intros Hdb Hids Hnew Href. destruct (thread_messages_ok db Hdb) as [_ Hrows].
  eexists _, _, _. split; [|split; [done|split; [done|]]].
  - cbn [for_each]. rewrite M_bind_unfold. unfold Transcripts.upsert at 1. cbv zeta. rewrite M_bind_unfold. cbn [get].
    change (row_id (Transcripts.thread_message_row ev)) with (AgentThreadEvent.id ev).
    change (rows_of db) with (thread_messages db). rewrite Hnew, insert_row_eq.
    change (row_id (Transcripts.thread_message_row ev)) with (AgentThreadEvent.id ev).
    change (rows_of db) with (thread_messages db). rewrite Hnew, Href. cbn [orb negb].
    apply (upserts_again ev deltas ev db); [done..|]. intros r Hr. by apply (Hrows r Hr).
  - unfold selected. rewrite !sort_by_perm. cbn. rewrite filter_app, fmap_app. cbn.
    rewrite decide_True by (by apply eq_str_true). cbn. rewrite read_merged. by rewrite Permutation_app_comm.
Qed.
End Properties.

Lemma agent_tables_stay_readable_witness :
  is_ok (value (Threads.list_threads (V:=Tree.t) (Some "p")) DemoStore.db) = true.
Proof.
  destruct (agent_tables_stay_readable (V:=Tree.t) ∅ DemoStore.db DemoStore.db_reached) as (_ & _ & _ & _ & _ & Hlist & _).
  exact (Hlist (Some "p")).
Defined.

Lemma created_records_read_back_witness :
  exists db' x, Threads.create (V:=Tree.t) 9 "new" DemoStore.new_thread DemoStore.db = (db', Ok x) /\
    value (Threads.get_thread (V:=Tree.t) "new") db' = Ok (Some x).
Proof.
  destruct (Threads.create (V:=Tree.t) 9 "new" DemoStore.new_thread DemoStore.db) as [db' [x|]] eqn:Hc;
    [|by vm_compute in Hc].
  destruct (created_records_read_back (V:=Tree.t) DemoStore.db db') as (_ & _ & _ & Hread).
  exists db', x. split; [reflexivity|]. exact (Hread _ _ _ _ Hc).
Defined.

Lemma reconcile_recovers_witness :
  value (Tasks.list_for_status TaskStatus.Running 10) (final (reconcile 10 11 12 13) DemoStore.db) = Ok [] /\
  exists x, value (Tasks.get_task "t") DemoStore.db = Ok (Some x) /\ x.(Task.status) = TaskStatus.Running /\
    value (Tasks.get_task "t") (final (reconcile 10 11 12 13) DemoStore.db) = Ok (Some (requeued_task 12 x)).
Proof.
  destruct (reconcile_recovers (V:=Tree.t) 10 11 12 13 10 DemoStore.db DemoStore.db_ok) as (H1 & _ & _ & H4 & _).
  split; [exact H1|]. eexists. split; [vm_compute; reflexivity|]. split; [reflexivity|]. apply H4. vm_compute. reflexivity.
Defined.

Lemma updates_exact_witness :
  let patch := AgentThreadUpdate.mk (Some "Renamed") None None None None None None (Some "") None None None None None None None
                 None None None None None None (Some (TaskBudget.Tokens 30000)) in
  exists db' y, Threads.update (V:=Tree.t) 20 "h" patch DemoStore.db = (db', Ok y) /\
    value (Threads.get_thread (V:=Tree.t) "h") db' = Ok (Some y) /\ y.(AgentThread.task_budget) = TaskBudget.Tokens 30000.
Proof.
  cbv zeta. destruct (updates_exact (V:=Tree.t) 20 "h" DemoStore.db DemoStore.db_ok) as [_ Hthread].
  edestruct Hthread as (db' & Hupd & Hget & _); [vm_compute; reflexivity| | |]; cycle 2.
  - exists db'. eexists. split; [exact Hupd|]. split; [exact Hget|reflexivity].
  - reflexivity.
  - reflexivity.
Defined.

Lemma upserts_merge_witness :
  exists db' before after,
    for_each Transcripts.upsert [DemoStore.delta "He"; DemoStore.delta "Hello"] DemoStore.db = (db', Ok ()) /\
    value (Transcripts.list_for_thread (V:=Tree.t) "h") DemoStore.db = Ok before /\
    value (Transcripts.list_for_thread (V:=Tree.t) "h") db' = Ok after /\
    after ≡ₚ merged_event (DemoStore.delta "He") (DemoStore.delta "Hello") :: before.
Proof.
  apply (upserts_merge (V:=Tree.t) (DemoStore.delta "He") [DemoStore.delta "Hello"] DemoStore.db DemoStore.db_ok).
  - by intros d ->%list_elem_of_singleton.
  - vm_compute; reflexivity.
  - vm_compute; reflexivity.
Defined.
End Properties.
