(* ===== verification/ThreadText.v ===== *)
(** * The texts of a thread (crates/am-core/src/agent_thread.rs)

    What a provider's event becomes in the transcript, the handoff notes a turn
    leaves, the bounded progress log, the prompts of a turn, and the block of
    session context kept inside a repository's own instruction files. *)
From stdpp Require Import pretty.
From Stdlib Require Import Ascii String.
From S2P Require Import Prelude RustStr Json Enums Records Limits.
#[local] Open Scope string_scope.
#[local] Open Scope Z_scope.

(** ** Events of a provider (am-agents/src/lib.rs) *)
Inductive ChangeKind := Created | Modified | Deleted.
Inductive SessionStatus := Completed | Interrupted | Failed.
#[global] Instance SessionStatus_eq_dec : EqDecision SessionStatus.
Proof. solve_decision. Defined.

(** The names serde and [Debug] give them. *)
Definition change_wire (c : ChangeKind) : string :=
  match c with Created => "created" | Modified => "modified" | Deleted => "deleted" end.
Definition status_wire (s : SessionStatus) : string :=
  match s with Completed => "completed" | Interrupted => "interrupted" | Failed => "failed" end.
Definition status_debug (s : SessionStatus) : string :=
  match s with Completed => "Completed" | Interrupted => "Interrupted" | Failed => "Failed" end.

(** The text of a path and of a double in a quota sample are not looked into. *)
Inductive NormalizedEvent {V : Type} :=
| SessionStarted (session_id : string)
| AssistantText (text : string)
| AssistantTextDelta (delta : string)
| ToolUse (call_id : option string) (name : string) (input : V)
| ToolResult (call_id : option string) (ok : bool) (summary : string)
| FileChanged (path : string) (change : ChangeKind)
| TokenUsage (input output : Z)
| QuotaWindow (window : QuotaWindowKind) (used_percent : f64) (reset_at : option Z) (final_sample : bool)
| AwaitingApproval (detail : string)
| UsageLimitReached (reset_at : option Z)
| NetworkUnavailable (message : string)
| ErrorEvent (message : string) (retryable : bool)
| SessionEnded (status : SessionStatus).
Arguments NormalizedEvent : clear implicits.

(** chrono: the texts of an instant. *)
Class Chrono := { to_rfc3339 : Z -> string; serde_time : Z -> string }.

(** ** Strings *)

(** [str::lines]: the last line may lack its newline, and then keeps a [\r]. *)
Definition strip_cr (s : string) : string := default s (strip_suffix (bytes_of [13]) s).
Fixpoint lines_from (line s : string) : list string :=
  match s with
  | EmptyString => if is_empty line then [] else [rev_str line]
  | String a s =>
      if Ascii.eqb a "010"%char then strip_cr (rev_str line) :: lines_from EmptyString s
      else lines_from (String a line) s
  end.
Definition lines (s : string) : list string := lines_from EmptyString s.

Definition newline : string := bytes_of [10].

(** [str::find] with the slices around the first occurrence. *)
Fixpoint split_once (p s : string) : option (string * string) :=
  match strip_prefix p s with
  | Some post => Some (EmptyString, post)
  | None =>
      match s with
      | EmptyString => None
      | String a s => match split_once p s with Some (pre, post) => Some (String a pre, post) | None => None end
      end
  end.

(** [str::replace] of a pattern that is not empty. *)
Fixpoint replace_fuel (fuel : nat) (p r s : string) : string :=
  match fuel with
  | O => s
  | S fuel =>
      match split_once p s with
      | Some (pre, post) => pre +:+ r +:+ replace_fuel fuel p r post
      | None => s
      end
  end.
Definition replace (p r s : string) : string := replace_fuel (String.length s) p r s.

(** [s.replace('\n', " ")]. *)
Fixpoint newlines_to_spaces (s : string) : string :=
  match s with
  | EmptyString => EmptyString
  | String a s => String (if Ascii.eqb a "010"%char then " "%char else a) (newlines_to_spaces s)
  end.

Definition MAX_THREAD_PROGRESS_BYTES : Z := 20 * 1024.
Definition MAX_EVENT_TEXT_CHARS : nat := 2000.

Definition truncate_thread_chars (value : string) (max_chars : nat) : string :=
  if (char_count value <=? max_chars)%nat then value
  else take_chars max_chars value +:+ newline +:+ newline +:+ "[details truncated]".

Definition compact_thread_event_detail (value : string) : string :=
  let first_line := default "" (find (fun line => negb (is_empty (trim line))) (lines value)) in
  let compact := if is_empty (trim first_line) then "Completed" else trim first_line in
  truncate_thread_chars compact 160.

Definition capped_thread_event_detail (value : string) : string := truncate_thread_chars value MAX_EVENT_TEXT_CHARS.

Definition truncate_text (value : string) (max_chars : nat) : string :=
  let value := trim value in
  if (char_count value <=? max_chars)%nat then value
  else take_chars max_chars value +:+ newline +:+ "[truncated]".

Definition thread_change_label (change : ChangeKind) : string :=
  match change with Created => "Created" | Modified => "Edited" | Deleted => "Deleted" end.

Definition status_label (status : SessionStatus) : string :=
  match status with Completed => "completed" | Interrupted => "interrupted" | Failed => "failed" end.

(** ** Events of the transcript *)
Section Events.
Context {V : Type} `{Json V} `{Chrono}.

Definition json_time (t : option Z) : V := from_option (fun t => json_str (serde_time t)) Null t.

(** [id] and [ts] are [new_id()] and [now()]. *)
Definition map_thread_event (id : string) (ts : Z) (thread_id turn_id : string) (ev : NormalizedEvent V) : AgentThreadEvent.t V :=
  let '(role, kind, text, data) :=
    match ev with
    | SessionStarted session_id => ("system", "session_started", None, json_object [("agent_session_id", json_str session_id)])
    | AssistantText text => ("assistant", "assistant_text", Some text, json_object [])
    | AssistantTextDelta delta => ("assistant", "assistant_text", Some delta, json_object [("streaming", json_bool true)])
    | ToolUse call_id name input => ("tool", "tool_use", Some name, json_object [("input", input); ("call_id", json_opt call_id)])
    | ToolResult call_id ok summary =>
        ("tool", "tool_result", Some (compact_thread_event_detail summary),
         json_object [("ok", json_bool ok); ("summary", json_str (capped_thread_event_detail summary)); ("call_id", json_opt call_id)])
    | FileChanged path change =>
        ("app", "file_changed", Some (thread_change_label change +:+ " " +:+ path), json_object [("change", json_str (change_wire change))])
    | TokenUsage input output =>
        ("system", "token_usage", Some ("Token usage: " +:+ pretty input +:+ " in / " +:+ pretty output +:+ " out"),
         json_object [("input", json_num input); ("output", json_num output)])
    | QuotaWindow _ _ _ _ => ("system", "quota_window", None, json_object [])
    | AwaitingApproval detail => ("system", "awaiting_approval", Some detail, json_object [])
    | UsageLimitReached reset_at => ("system", "usage_limit", Some "Usage limit reached", json_object [("reset_at", json_time reset_at)])
    | NetworkUnavailable message => ("system", "network_unavailable", Some message, json_object [])
    | ErrorEvent message retryable => ("system", "error", Some message, json_object [("retryable", json_bool retryable)])
    | SessionEnded status => ("system", "session_ended", Some (status_debug status), json_object [("status", json_str (status_wire status))])
    end in
  AgentThreadEvent.mk V id thread_id turn_id role kind text None data ts.

Definition user_thread_event (id : string) (ts : Z) (thread_id turn_id message : string) (client_message_id : option string) :
  AgentThreadEvent.t V :=
  AgentThreadEvent.mk V id thread_id turn_id "user" "user_message" (Some message) client_message_id
    (json_object [("client_message_id", json_opt client_message_id)]) ts.
End Events.

(** ** Notes a turn leaves *)

Module AgentThreadRepoDiff.
Record t := mk {
  repo_id : string;
  repo_name : string;
  remote_url : option string;
  branch : option string;
  base_ref : option string;
  head_ref : option string;
  worktree_path : option string;
  files : list FileChange.t;
  patch : string
}.
End AgentThreadRepoDiff.
Record AgentThreadDiff := mkDiff { repos : list AgentThreadRepoDiff.t }.

Section Notes.
Context {V : Type} `{Json V} `{Chrono}.

Definition latest_event_text (events : list (AgentThreadEvent.t V)) (kind : string) : option string :=
  text ← mbind AgentThreadEvent.text
    (find (fun event => String.eqb event.(AgentThreadEvent.kind) kind) (reverse events));
  let text := trim text in
  if is_empty text then None else Some text.

Definition latest_assistant_text (events : list (AgentThreadEvent.t V)) : option string :=
  latest_event_text events "assistant_text".

Definition concat_str : list string -> string := foldr String.append EmptyString.

Definition changed_files (diff : AgentThreadDiff) : string :=
  match diff.(repos) with
  | [] => "- Changed files: none detected." +:+ newline
  | _ => "- Changed files:" +:+ newline +:+
    concat_str (repo ← diff.(repos); file ← take 8 repo.(AgentThreadRepoDiff.files);
      mret ("  - " +:+ repo.(AgentThreadRepoDiff.repo_name) +:+ " / " +:+ file.(FileChange.path) +:+ " (" +:+
            file.(FileChange.status) +:+ ", +" +:+ pretty file.(FileChange.additions) +:+ "/-" +:+
            pretty file.(FileChange.deletions) +:+ ")" +:+ newline))
  end.

(** [now] is [now()]. *)
Definition build_thread_handoff_summary (now : Z) (agent : AgentKind.t) (status : SessionStatus)
    (events : list (AgentThreadEvent.t V)) (diff : AgentThreadDiff) : string :=
  trim_end
    ("### Handoff " +:+ to_rfc3339 now +:+ " (" +:+ status_label status +:+ ")" +:+ newline +:+
     "- Agent: " +:+ AgentKind.label agent +:+ newline +:+
     "- Status: " +:+ status_label status +:+ newline +:+
     changed_files diff +:+
     (match latest_event_text events "usage_limit" with
      | Some limit => "- Usage limit: " +:+ newlines_to_spaces (truncate_text limit MAX_EVENT_TEXT_CHARS) +:+ newline
      | None => ""
      end) +:+
     (match latest_event_text events "error" with
      | Some _ => "- The provider could not complete this attempt. Continue the user's request from the last successful progress; provider errors are not a new task to investigate." +:+ newline
      | None => ""
      end) +:+
     newline +:+
     (match latest_assistant_text events with
      | Some text =>
          "Recent assistant output:" +:+ newline +:+
          concat_str ((fun line => "> " +:+ line +:+ newline) <$> lines (truncate_text text MAX_EVENT_TEXT_CHARS))
      | None => "Recent assistant output: none captured." +:+ newline
      end)).

Definition thread_next_actions (status : SessionStatus) (events : list (AgentThreadEvent.t V)) : string :=
  match status with
  | Completed => "The previous request completed. Continue only if the user has requested more work or the task has unfinished steps; do not invent follow-up work."
  | Interrupted =>
      match latest_event_text events "usage_limit" with
      | Some _ => "Continue with the next available agent, or resume this agent after its limit resets."
      | None => "Resume from the same workspace and context."
      end
  | Failed => "Continue the user's original request from the last successful progress after the provider issue is resolved. Do not turn the provider failure into a new task."
  end.
End Notes.

(** [while start < s.len() && !s.is_char_boundary(start) { start += 1 }]; [fuel]
    is the distance to the end. *)
Fixpoint char_ceil (fuel : nat) (s : string) (start : nat) : nat :=
  match fuel with
  | O => start
  | S fuel =>
      if (start <? String.length s)%nat && negb (is_char_boundary s start) then char_ceil fuel s (S start) else start
  end.

Fixpoint drop_bytes (n : nat) (s : string) : string :=
  match n, s with
  | S n, String _ s => drop_bytes n s
  | _, _ => s
  end.

Definition trimmed_notice : string := "Older handoff entries were trimmed to keep context bounded." +:+ newline +:+ newline.

(** A log that keeps its last [max_bytes] bytes. *)
Definition append_bounded (max_bytes : Z) (existing entry : string) : string :=
  let combined :=
    if is_empty (trim existing) then trim entry
    else trim_end existing +:+ newline +:+ newline +:+ trim entry in
  if len combined <=? max_bytes then combined
  else
    let start := (String.length combined - Z.to_nat max_bytes)%nat in
    let start := char_ceil (String.length combined - start) combined start in
    trimmed_notice +:+ trim_start (drop_bytes start combined).

Definition append_thread_progress : string -> string -> string := append_bounded MAX_THREAD_PROGRESS_BYTES.

(** ** Prompts *)

Definition build_thread_initial_prompt (thread : AgentThread.t) (message : string) (context_files_available : bool) : string :=
  let prompt := if is_empty (trim message) then thread.(AgentThread.objective) else message in
  let prompt := if is_empty (trim prompt) then thread.(AgentThread.title) else prompt in
  prompt +:+ newline +:+ newline +:+
  if context_files_available then
    "Use the session context already supplied in the workspace instructions. Multiple repositories, if selected, are sibling directories under the current workspace root. Answer conversational requests directly; inspect files and use tools only when the request requires it. Do not reread the Perpetual context files just to start a turn. Keep session restoration, account handoffs, and internal context filenames out of routine user-facing updates; continue the user’s request directly."
  else "Use the current repository working tree directly. Apply edits in place as you work.".

Definition double_quote : string := bytes_of [34].

Definition build_thread_resume_prompt (thread : AgentThread.t) (context_files_available : bool) : string :=
  if context_files_available then
    "Continue the user’s existing task in session " +:+ double_quote +:+ thread.(AgentThread.title) +:+ double_quote +:+ " from the last successful progress supplied in the workspace instructions. Account/provider switches are internal continuity, not a new task. Do not announce a handoff, greeting, setup checks, or internal context filenames. Do not investigate prior provider errors unless the user asked for that. Continue outstanding work directly, and answer conversational requests without tool calls."
  else
    "Continue the user's existing task in session " +:+ double_quote +:+ thread.(AgentThread.title) +:+ double_quote +:+ " in the current repository working tree. Apply edits in place when requested. Resume silently from the last successful progress; account changes and provider failures are not new tasks to investigate.".

Definition build_thread_followup_prompt (message : string) : string :=
  message +:+ newline +:+ newline +:+ "[Internal continuity guidance]" +:+ newline +:+ "Continue this request directly. Keep account/session restoration and internal context filenames out of routine updates. Prior provider failures are not new tasks to investigate unless the user asks. Answer conversational requests without setup tools.".

(** What is pushed on the prompt. *)
Definition push_section (title value : string) : string :=
  "## " +:+ title +:+ newline +:+
  (if is_empty (trim value) then "None recorded." else trim value) +:+ newline +:+ newline.

(** ** The block of session context inside an instruction file *)

Definition START : string := "<!-- Perpetual session context start -->".
Definition END : string := "<!-- Perpetual session context end -->".

Definition context_block (context : string) : string :=
  let context := replace START "[session context start]" context in
  let context := replace END "[session context end]" context in
  START +:+ newline +:+ (trim_end context +:+ newline) +:+ END +:+ newline.

Definition legacy : list string :=
  ["# Perpetual Session Context" +:+ newline +:+ newline +:+ "Session:";
   "# Perpetual Session Context" +:+ newline +:+ newline +:+ "Internal continuity for the existing task.";
   "# Perpetual Session Context" +:+ newline +:+ newline +:+ "Use the session context supplied by the parent workspace instructions."].

(** The start of the file, and what follows the block between two markers:
    [None] when there is no complete block. *)
Definition around (start end_ existing : string) : option (string * string) :=
  '(pre, tail) ← split_once start existing;
  '(_, rest) ← split_once end_ tail;
  Some (pre, match strip_prefix (bytes_of [13; 10]) rest with
             | Some rest => rest
             | None => default rest (strip_prefix newline rest)
             end).

(** The block exchanged, or put in front of a file of someone else's. *)
Definition merge_block (start end_ : string) (fresh : string -> bool) (existing block : string) : string :=
  match around start end_ existing with
  | Some (pre, remainder) => pre +:+ block +:+ remainder
  | None => if fresh existing then block else block +:+ newline +:+ existing
  end.

(** A file the program owned before there were blocks, or an empty one. *)
Definition owned (existing : string) : bool :=
  is_empty (trim existing) || existsb (fun prefix => starts_with prefix existing) legacy.

Definition merge_instruction_context (existing context : string) : string :=
  merge_block START END owned existing (context_block context).

(** What [write_thread_context] leaves in a file that holds [existing] (empty when
    there is none), and whether it writes at all; a read or write that fails is
    the file system's. *)
Definition write_thread_context (existing context : string) (replace_all : bool) : string * bool :=
  let content := if replace_all then context else merge_instruction_context existing context in
  (content, negb (String.eqb existing content)).

(** ** Searching: lemmas *)

Fixpoint has_char (a : ascii) (s : string) : bool :=
  match s with EmptyString => false | String b s => Ascii.eqb a b || has_char a s end.

Lemma strip_prefix_app p s : strip_prefix p (p +:+ s) = Some s.
Proof. by apply strip_prefix_Some. Qed.

Lemma strip_prefix_extend p s t z : strip_prefix p s = Some z -> strip_prefix p (s +:+ t) = Some (z +:+ t).
Proof. rewrite !strip_prefix_Some. intros ->. apply app_assoc_str. Qed.

(** A pattern without the character [a] cannot match across one. *)
Lemma strip_prefix_stops q a X Y z :
  has_char a q = false -> strip_prefix q (X +:+ String a Y) = Some z -> exists z', strip_prefix q X = Some z'.
Proof.
  revert X. induction q as [|b q IH]; intros X Hq Hs; [by eexists|].
  cbn in Hq. apply orb_false_iff in Hq as [Hab Hq].
  destruct X as [|c X].
  - change (EmptyString +:+ String a Y) with (String a Y) in Hs. cbn in Hs.
    destruct (Ascii.eqb_spec b a) as [->|]; [by rewrite Ascii.eqb_refl in Hab|done].
  - change (String c X +:+ String a Y) with (String c (X +:+ String a Y)) in Hs. cbn in *.
    destruct (Ascii.eqb b c); [eauto|done].
Qed.

Lemma starts_with_iff p s : starts_with p s = true <-> exists z, strip_prefix p s = Some z.
Proof. unfold starts_with. destruct (strip_prefix p s); naive_solver. Qed.

Lemma starts_with_false p s : starts_with p s = false <-> strip_prefix p s = None.
Proof. unfold starts_with. by destruct (strip_prefix p s). Qed.

Lemma contains_cons p a s : contains p (String a s) = starts_with p (String a s) || contains p s.
Proof. done. Qed.

Lemma split_once_None p s : split_once p s = None <-> contains p s = false.
Proof.
  induction s as [|a s IH]; cbn [split_once contains].
  - rewrite orb_false_iff, starts_with_false. destruct (strip_prefix p EmptyString); naive_solver.
  - rewrite orb_false_iff, starts_with_false. destruct (strip_prefix p (String a s)); [naive_solver|].
    rewrite <- IH. destruct (split_once p s) as [[]|]; naive_solver.
Qed.

Lemma split_once_Some p s pre post :
  split_once p s = Some (pre, post) -> s = pre +:+ p +:+ post /\ (pre = EmptyString \/ contains p pre = false).
Proof.
  revert pre. induction s as [|a s IH]; intros pre; cbn [split_once].
  - destruct (strip_prefix p EmptyString) eqn:Hp; intros [= <- <-]. apply strip_prefix_Some in Hp. auto.
  - destruct (strip_prefix p (String a s)) eqn:Hp.
    + intros [= <- <-]. apply strip_prefix_Some in Hp. auto.
    + destruct (split_once p s) as [[pre' post']|]; [|done]. intros [= <- <-].
      destruct (IH pre' eq_refl) as [Hs Hpre]. split; [rewrite Hs at 1; done|right].
      rewrite contains_cons, orb_false_iff. split.
      * apply starts_with_false. destruct (strip_prefix p (String a pre')) as [z|] eqn:Hz; [|done].
        apply (strip_prefix_extend _ _ (p +:+ post')) in Hz. rewrite Hs in Hp.
        by change (String a pre' +:+ p +:+ post') with (String a (pre' +:+ p +:+ post')) in Hz; rewrite Hp in Hz.
      * destruct Hpre as [->|]; [|done]. cbn [contains]. apply orb_false_iff. split; [|done].
        destruct p; [by cbn in Hp|done].
Qed.

(** Patterns whose first character occurs only there. *)
Lemma split_once_app a q X Y :
  has_char a q = false -> contains (String a q) X = false ->
  split_once (String a q) (X +:+ String a q +:+ Y) = Some (X, Y).
Proof.
  intros Hq. induction X as [|x X IH]; intros HX.
  - change (EmptyString +:+ String a q +:+ Y) with (String a (q +:+ Y)). cbn.
    by rewrite Ascii.eqb_refl, strip_prefix_app.
  - rewrite contains_cons in HX. apply orb_false_iff in HX as [Hsw HX].
    change (String x X +:+ String a q +:+ Y) with (String x (X +:+ String a (q +:+ Y))). cbn [split_once].
    destruct (strip_prefix (String a q) (String x (X +:+ String a (q +:+ Y)))) eqn:Hp.
    + cbn in Hp. destruct (Ascii.eqb_spec a x) as [->|]; [|done].
      apply (strip_prefix_stops q x X) in Hp as [z' Hz]; [|done].
      apply starts_with_false in Hsw. cbn in Hsw. rewrite Ascii.eqb_refl in Hsw. congruence.
    + by change (String a (q +:+ Y)) with (String a q +:+ Y); rewrite IH.
Qed.

Lemma contains_skip p s a q : p = String a q -> has_char a s = false -> forall t, contains p (s +:+ t) = contains p t.
Proof.
  intros -> Hs t. induction s as [|b s IH]; [done|]. cbn in Hs. apply orb_false_iff in Hs as [Hb Hs].
  change (String b s +:+ t) with (String b (s +:+ t)). rewrite contains_cons, (IH Hs).
  unfold starts_with. cbn. by rewrite Hb.
Qed.

(** A character foreign to the pattern separates what is searched. *)
Lemma contains_around p b X Y :
  p <> EmptyString -> has_char b p = false -> contains p (X +:+ String b Y) = contains p X || contains p Y.
Proof.
  intros Hp Hb. destruct p as [|a q]; [done|].
  assert (Hnil : contains (String a q) EmptyString = false) by done.
  assert (Hhead : forall X, starts_with (String a q) (X +:+ String b Y) = starts_with (String a q) X).
  { intros X'. apply eq_true_iff_eq. rewrite !starts_with_iff. split; intros [z Hz].
    - by eapply strip_prefix_stops.
    - apply (strip_prefix_extend _ _ (String b Y)) in Hz. eauto. }
  induction X as [|x X IH].
  - specialize (Hhead EmptyString). change (EmptyString +:+ String b Y) with (String b Y) in *.
    rewrite contains_cons, Hhead, Hnil. done.
  - specialize (Hhead (String x X)). change (String x X +:+ String b Y) with (String x (X +:+ String b Y)) in *.
    rewrite !contains_cons, Hhead, IH. apply orb_assoc.
Qed.

Lemma contains_app_l p s t : contains p (s +:+ t) = false -> p <> EmptyString -> contains p s = false.
Proof.
  intros Ht Hp. induction s as [|a s IH]; [by destruct p|].
  change (String a s +:+ t) with (String a (s +:+ t)) in Ht. rewrite contains_cons in *.
  apply orb_false_iff in Ht as [Hsw Ht]. rewrite IH, orb_false_r by done.
  destruct (starts_with p (String a s)) eqn:H1; [|done]. apply starts_with_iff in H1 as [z Hz].
  apply (strip_prefix_extend _ _ t) in Hz. apply starts_with_false in Hsw.
  change (String a s +:+ t) with (String a (s +:+ t)) in Hz. congruence.
Qed.

(** [trim_end] cuts a tail off. *)
Lemma trim_with_suffix fuel ws s : exists t, s = t +:+ trim_with fuel ws s.
Proof.
  revert s. induction fuel as [|fuel IH]; intros s; cbn; [by exists EmptyString|].
  assert (Hone : forall s', strip_one ws s = Some s' -> exists w, s = w +:+ s').
  { clear. induction ws as [|w ws IH]; intros s'; cbn; [done|].
    destruct (strip_prefix w s) eqn:Hw; [|auto]. intros [= ->]. apply strip_prefix_Some in Hw. eauto. }
  destruct (strip_one ws s) as [s'|]; [|by exists EmptyString].
  destruct (Hone s' eq_refl) as [w Hw]. destruct (IH s') as [t Ht]. exists (w +:+ t).
  by rewrite app_assoc_str, <- Ht.
Qed.

Lemma trim_end_prefix s : exists t, s = trim_end s +:+ t.
Proof.
  unfold trim_end. destruct (trim_with_suffix (String.length s) (map rev_str white_space) (rev_str s)) as [t Ht].
  exists (rev_str t). by rewrite <- rev_str_app, <- Ht, rev_str_involutive.
Qed.

Lemma replace_free p r b r' s :
  p <> EmptyString -> r = String b r' -> has_char b p = false ->
  (forall t, contains p (r' +:+ t) = contains p t) -> contains p (replace p r s) = false.
Proof.
  intros Hp -> Hb Hr. unfold replace.
  assert (Hle : (String.length s <= String.length s)%nat) by done. revert Hle.
  generalize (String.length s) at 2 3 as fuel. intros fuel. revert s.
  induction fuel as [|fuel IH]; intros s Hle; cbn [replace_fuel].
  - destruct s; [by destruct p|cbn in Hle; lia].
  - destruct (split_once p s) as [[pre post]|] eqn:Hs; [|by apply split_once_None].
    apply split_once_Some in Hs as [-> Hpre].
    change (String b r' +:+ replace_fuel fuel p (String b r') post)
      with (String b (r' +:+ replace_fuel fuel p (String b r') post)).
    rewrite contains_around, Hr, IH, orb_false_r by
      first [done|rewrite !length_app_str in Hle; destruct p; [done|cbn in Hle; lia]].
    destruct Hpre as [->|]; [by destruct p|done].
Qed.

(** ** The block of session context *)

Lemma free_trim_end p s : p <> EmptyString -> contains p s = false -> contains p (trim_end s) = false.
Proof. intros Hp Hs. destruct (trim_end_prefix s) as [t Ht]. rewrite Ht in Hs. by eapply contains_app_l. Qed.

(** The body of a block has no end marker of its own. *)
Definition block_body (context : string) : string :=
  newline +:+ trim_end (replace END "[session context end]" (replace START "[session context start]" context)) +:+ newline.

Lemma context_block_body c : context_block c = START +:+ block_body c +:+ END +:+ newline.
Proof. unfold context_block, block_body. by rewrite !app_assoc_str. Qed.

Lemma block_body_free c : contains END (block_body c) = false.
Proof.
  unfold block_body. set (s := replace END _ _).
  assert (Hs : contains END (trim_end s) = false).
  { apply free_trim_end; [done|].
    apply (replace_free END _ "["%char "session context end]"); [done..|].
    intros t. by apply (contains_skip _ _ "<"%char "!-- Perpetual session context end -->"). }
  change (newline +:+ trim_end s +:+ newline) with (EmptyString +:+ String "010" (trim_end s +:+ String "010" EmptyString)).
  by rewrite !contains_around, Hs by done.
Qed.

(** What may separate the end of the block from the rest of the file. *)
Definition line_ends : list string := [EmptyString; newline; bytes_of [13; 10]].

(** A marker that a search cannot find inside itself. *)
Definition marker (m : string) : bool := match m with String a q => negb (has_char a q) | EmptyString => false end.

Lemma split_once_marker m X Y :
  marker m = true -> contains m X = false -> split_once m (X +:+ m +:+ Y) = Some (X, Y).
Proof. destruct m as [|a q]; [done|]. intros ?%negb_true_iff. by apply split_once_app. Qed.

(** [merge] exchanges the block between two markers and nothing else: [pre] and
    [rest] stay around it, whatever is written. *)
Definition exchanges (start end_ : string) (fresh : string -> bool) {A} (merge : string -> A -> string) (block : A -> string)
  (e pre rest : string) : Prop :=
  (forall c, merge e c = pre +:+ block c +:+ rest) /\
  (match around start end_ e with
   | Some _ => exists old nl, nl ∈ line_ends /\ e = pre +:+ start +:+ old +:+ end_ +:+ nl +:+ rest
   | None => pre = EmptyString /\ rest = if fresh e then EmptyString else newline +:+ e
   end) /\
  (forall c1 c2, merge (merge e c1) c2 = merge e c2).

Section Blocks.
Context (start end_ : string) (fresh : string -> bool) {A : Type} (body : A -> string).
Hypothesis Hstart : marker start = true.
Hypothesis Hend : marker end_ = true.
Hypothesis Hbody : forall c, contains end_ (body c) = false.
Definition marked (c : A) : string := start +:+ body c +:+ end_ +:+ newline.

Lemma around_marked pre c rest :
  contains start pre = false -> around start end_ (pre +:+ marked c +:+ rest) = Some (pre, rest).
Proof.
  intros Hpre. unfold around, marked. rewrite !app_assoc_str, split_once_marker by done. cbn [mbind option_bind].
  rewrite split_once_marker by done. cbn [mbind option_bind]. by destruct rest.
Qed.

Lemma around_spec e pre rest :
  around start end_ e = Some (pre, rest) ->
  contains start pre = false /\ exists old nl, nl ∈ line_ends /\ e = pre +:+ start +:+ old +:+ end_ +:+ nl +:+ rest.
Proof.
  unfold around. destruct (split_once start e) as [[p1 tail]|] eqn:Hs; [|done]. cbn [mbind option_bind].
  destruct (split_once end_ tail) as [[old r]|] eqn:He; [|done]. cbn [mbind option_bind].
  intros Hsome. apply (inj Some), pair_equal_spec in Hsome as [<- <-].
  apply split_once_Some in Hs as [-> Hpre], He as [-> _].
  split; [destruct Hpre as [->|]; [by destruct start|done]|]. exists old.
  destruct (strip_prefix (bytes_of [13; 10]) r) eqn:Hcr;
    [apply strip_prefix_Some in Hcr as ->; exists (bytes_of [13; 10]); split; [unfold line_ends; set_solver|done]|].
  destruct (strip_prefix newline r) eqn:Hnl;
    [apply strip_prefix_Some in Hnl as ->; exists newline; split; [unfold line_ends; set_solver|done]|].
  exists EmptyString. split; [unfold line_ends; set_solver|done].
Qed.

Lemma block_exchanged (merge : string -> A -> string) e :
  (forall e c, merge e c = merge_block start end_ fresh e (marked c)) ->
  exists pre rest, exchanges start end_ fresh merge marked e pre rest.
Proof.
  intros Hmerge.
  assert (exists pre rest, contains start pre = false /\ (forall c, merge e c = pre +:+ marked c +:+ rest) /\
    match around start end_ e with
    | Some _ => exists old nl, nl ∈ line_ends /\ e = pre +:+ start +:+ old +:+ end_ +:+ nl +:+ rest
    | None => pre = EmptyString /\ rest = if fresh e then EmptyString else newline +:+ e
    end) as (pre & rest & Hpre & Hm & Hshape).
  { destruct (around start end_ e) as [[pre rest]|] eqn:Ha.
    - pose proof (around_spec _ _ _ Ha) as [Hpre He]. exists pre, rest. split_and!; [done| |done].
      intros c. rewrite Hmerge. unfold merge_block. by rewrite Ha.
    - exists EmptyString, (if fresh e then EmptyString else newline +:+ e). split_and!; [by destruct start| |done..].
      intros c. rewrite Hmerge. unfold merge_block. rewrite Ha. destruct (fresh e); [symmetry; apply app_empty_str|done]. }
  exists pre, rest. do 2 (split; [done|]). intros c1 c2. rewrite Hm, !Hmerge.
  unfold merge_block at 1. rewrite around_marked by done. by rewrite <- Hmerge, Hm.
Qed.
End Blocks.

(** Writing the session's context into a repository's instruction file
    keeps everything the repository wrote: the new file is the old one with only
    the marked block exchanged (and one line end after it), the block put in
    front when there is none and the file is not the program's own.  Whatever
    the contexts hold, the markers included, a later write exchanges exactly
    that block, and writing the same context again writes nothing. *)
Theorem context_merge_preserves e :
  (exists pre rest, exchanges START END owned merge_instruction_context context_block e pre rest) /\
  (forall c, write_thread_context (merge_instruction_context e c) c false = (merge_instruction_context e c, false)).
Proof.
  assert (exists pre rest, exchanges START END owned merge_instruction_context context_block e pre rest) as He.
  { destruct (block_exchanged START END owned block_body eq_refl eq_refl block_body_free merge_instruction_context e)
      as (pre & rest & H1 & H2 & H3); [intros; unfold merge_instruction_context; by rewrite context_block_body|].
    exists pre, rest. split_and!; [|done..]. intros c. rewrite context_block_body. apply H1. }
  split; [exact He|]. destruct He as (pre & rest & _ & _ & Hagain). intros c. unfold write_thread_context.
  by rewrite Hagain, String.eqb_refl.
Qed.

(** ** The progress log stays bounded *)

Lemma char_ceil_ge fuel s n : (n <= char_ceil fuel s n)%nat.
Proof. revert n. induction fuel as [|fuel IH]; intros n; cbn; [done|]. case_match; [specialize (IH (S n))|]; lia. Qed.

Lemma drop_bytes_suffix n s : exists t, s = t +:+ drop_bytes n s /\ (String.length t = Nat.min n (String.length s)).
Proof.
  revert s. induction n as [|n IH]; intros s; [by exists EmptyString|].
  destruct s as [|a s]; [by exists EmptyString|]. destruct (IH s) as (t & Ht & Hl). exists (String a t).
  split; [cbn [drop_bytes]; rewrite Ht at 1; done|cbn; lia].
Qed.

(** The log never exceeds its bound by more than the notice, and a log that is
    cut keeps the end of what was written, after the notice. *)
Lemma progress_bounded max_bytes existing entry :
  0 <= max_bytes ->
  let out := append_bounded max_bytes existing entry in
  len out <= max_bytes + len trimmed_notice /\
  (len out <= max_bytes \/
   exists cut kept, out = trimmed_notice +:+ kept /\
     (if is_empty (trim existing) then trim entry else trim_end existing +:+ newline +:+ newline +:+ trim entry) = cut +:+ kept).
Proof.
  intros Hmax. cbn zeta. unfold append_bounded. set (combined := if is_empty _ then _ else _).
  destruct (len combined <=? max_bytes) eqn:Hle.
  { apply Z.leb_le in Hle. pose proof (len_nonneg trimmed_notice). split; [|left]; lia. }
  apply Z.leb_gt in Hle. set (start := (_ - Z.to_nat max_bytes)%nat).
  pose proof (char_ceil_ge (String.length combined - start) combined start) as Hge. revert Hge.
  generalize (char_ceil (String.length combined - start) combined start) as s0. intros s0 Hge.
  destruct (drop_bytes_suffix s0 combined) as (t & Ht & Hl). unfold trim_start.
  destruct (trim_with_suffix (String.length (drop_bytes s0 combined)) white_space (drop_bytes s0 combined)) as (w & Hw).
  set (kept := trim_with _ _ _) in *. split.
  - assert (String.length combined = (String.length t + String.length w + String.length kept)%nat)
      by (rewrite Ht at 1; rewrite Hw at 1; rewrite !length_app_str; lia).
    rewrite len_app. unfold len in *. subst start. lia.
  - right. exists (t +:+ w), kept. split; [done|]. rewrite app_assoc_str. by rewrite <- Hw.
Qed.
