(* ===== verification/Attachments.v ===== *)
(** * Attachments of messages (crates/am-agents/src/attachments.rs)

    A message carries its files between two markers, as JSON with the bytes in
    base64.  [unpack] separates them, [display_text] names them for people, and
    [prepare] puts them in the task's workspace before an agent reads the prompt.

    base64 and SHA-256 are third-party: class [Codecs].  The file system is the map
    of the workspace's entries; [os_error] is what else the system may refuse. *)
From Stdlib Require Import Ascii String.
From S2P Require Import Prelude RustStr Json Enums Records ContextPackets ThreadText.
#[local] Open Scope string_scope.
#[local] Open Scope Z_scope.

Module Attachment.
Record t := mk { name : string; mime : string; data : string; path : option string }.
Definition set_path (v : option string) (a : t) : t := mk a.(name) a.(mime) a.(data) v.
End Attachment.

Definition MAX_BYTES : Z := 20 * 1024 * 1024.
Definition native_image (mime : string) : bool :=
  existsb (String.eqb mime) ["image/png"; "image/jpeg"; "image/gif"; "image/webp"].

(** [str::rfind] with the slices around the last occurrence. *)
Fixpoint rsplit_once (p s : string) : option (string * string) :=
  match s with
  | EmptyString => match strip_prefix p s with Some post => Some (EmptyString, post) | None => None end
  | String a s' =>
      match rsplit_once p s' with
      | Some (pre, post) => Some (String a pre, post)
      | None => match strip_prefix p s with Some post => Some (EmptyString, post) | None => None end
      end
  end.

(** [name.chars().map(..).collect()] with a mapping of the characters that are
    not ASCII to one replacement: their continuation bytes disappear. *)
Definition is_continuation (a : ascii) : bool := (128 <=? Z.of_N (N_of_ascii a)) && (Z.of_N (N_of_ascii a) <? 192).
Fixpoint clean_chars (allowed : ascii -> bool) (replacement : ascii) (s : string) : string :=
  match s with
  | EmptyString => EmptyString
  | String a s =>
      if is_continuation a then clean_chars allowed replacement s
      else String (if allowed a then a else replacement) (clean_chars allowed replacement s)
  end.
Definition between (a b c : ascii) : bool := Ascii.leb a c && Ascii.leb c b.
(** [char::is_ascii_alphanumeric]. *)
Definition is_ascii_alphanumeric (c : ascii) : bool :=
  between "0"%char "9"%char c || between "a"%char "z"%char c || between "A"%char "Z"%char c.
Definition name_char (c : ascii) : bool := is_ascii_alphanumeric c || existsb (Ascii.eqb c) ["."; "-"; "_"]%char.

(** What may fail for reasons outside the workspace's entries. *)
Inductive FileOp := CreateDir | Stat | CreateFile | WriteFile | ReadFile.

(** [Link live]: a symbolic link, and whether its target exists. *)
Inductive Entry := Directory | RegularFile (bytes : string) | Link (live : bool).
(** The entries below the workspace by their relative path. *)
Abbreviation Files := (gmap string Entry).
Abbreviation FileM := (M Files string).

Class Codecs := {
  (** [STANDARD.decode] *)
  decode_base64 : string -> option string;
  (** [format!("{:x}", Sha256::digest(..))] *)
  sha256_hex : string -> string;
  os_error : FileOp -> string -> option string;
  (** what a failed [write_all] leaves in the file it created *)
  left_by_failed_write : string -> string -> string
}.

Section Attachments.
Context `{!TextSerde (list Attachment.t)} `{!Codecs}.
Definition START : string := "<perpetual-attachments>".
Definition END : string := "</perpetual-attachments>".

(** The loop over the files; [total] is the sum of the decoded sizes so far. *)
Fixpoint check_files (total : Z) (files : list Attachment.t) : result string () :=
  match files with
  | [] => Ok ()
  | file :: files =>
      if MAX_BYTES * 4 / 3 + 4 <? len file.(Attachment.data) then Err "Attachments exceed 20 MB"
      else match decode_base64 file.(Attachment.data) with
           | None => Err "Invalid attachment encoding"
           | Some bytes =>
               if native_image file.(Attachment.mime) && (5 * 1024 * 1024 <? len bytes) then Err "Images must be 5 MB or less"
               else if MAX_BYTES <? total + len bytes then Err "Attachments exceed 20 MB"
               else if (255 <? len file.(Attachment.name)) || (100 <? len file.(Attachment.mime)) then Err "Invalid attachment metadata"
               else check_files (total + len bytes) files
           end
  end.

Definition unpack (text : string) : result string (string * list Attachment.t) :=
  match split_once START text with
  | None => Ok (text, [])
  | Some (pre, rest) =>
      match rsplit_once END rest with
      | None => Err "Invalid attachment message"
      | Some (body, post) =>
          match from_text body with
          | Err _ => Err "Invalid attachment data"
          | Ok files =>
              if (10 <? length files)%nat then Err "Attach up to 10 files"
              else _ ← check_files 0 files; Ok (pre +:+ post, files)
          end
      end
  end.

Definition attachment_dir (file : Attachment.t) : string :=
  "perpetual-upload-" +:+ sha256_hex (file.(Attachment.name) +:+ ":" +:+ file.(Attachment.data)).
Definition attachment_name (file : Attachment.t) : string :=
  let name := clean_chars name_char "_"%char file.(Attachment.name) in
  if existsb (String.eqb name) [""; "."; ".."] then "file" else name.
Definition attachment_path (file : Attachment.t) : string := attachment_dir file +:+ "/" +:+ attachment_name file.

Definition display_text (text : string) : string :=
  match unpack text with
  | Ok (text, files) =>
      text +:+ concat_str ((fun file => newline +:+ "Attached file " +:+ file.(Attachment.name) +:+ ": ./" +:+
        attachment_path file) <$> files)
  | Err _ => text
  end.

(** ** Into the workspace *)
(** An operation the system may refuse. *)
Definition io (op : FileOp) (path : string) (say : string -> string) : FileM () :=
  match os_error op path with Some e => throw (say e) | None => mret () end.

(** [Path::exists] follows a link. *)
Definition exists_at (path : string) (fs : Files) : bool :=
  match fs !! path with Some (Link live) => live | Some _ => true | None => false end.

(** The upload directory: made when absent, refused when it is a link. *)
Definition ensure_dir (dir : string) : FileM () :=
  there ← gets (exists_at dir);
  _ ← (if (there : bool) then mret () else
         let say e := "Could not save attachments: " +:+ e in
         _ ← io CreateDir dir say;
         fs ← get;
         match fs !! dir with
         | Some _ => throw (say "File exists")
         | None => modify (insert dir Directory)
         end);
  _ ← io Stat dir id;
  fs ← get;
  match fs !! dir with
  | Some (Link _) => throw "Attachment directory must not be a symbolic link"
  | _ => mret ()
  end.

(** [create_new], then [write_all]; a file that is there must hold the same bytes. *)
Definition save_file (dir full : string) (name bytes : string) : FileM () :=
  let failed e := "Could not save " +:+ name +:+ ": " +:+ e in
  fs ← get;
  match fs !! dir with
  | Some Directory =>
      match fs !! full with
      | None =>
          _ ← io CreateFile full failed;
          match os_error WriteFile full with
          | Some e => _ ← modify (insert full (RegularFile (left_by_failed_write full bytes))); throw e
          | None => modify (insert full (RegularFile bytes))
          end
      | Some entry =>
          _ ← io Stat full id;
          match entry with
          | RegularFile content =>
              _ ← io ReadFile full id;
              fail_when (negb (String.eqb content bytes)) "Saved attachment has changed; attach the file again."
          | _ => throw "Saved attachment has changed; attach the file again."
          end
      end
  | _ => throw (failed "Not a directory")
  end.

Definition availability (file : Attachment.t) : string :=
  newline +:+ "Attached file " +:+ file.(Attachment.name) +:+ " is available at ./" +:+ attachment_path file +:+
  ". Read it when answering this request." +:+ newline.

Definition save_attachment (file : Attachment.t) : FileM () :=
  _ ← ensure_dir (attachment_dir file);
  bytes ← lift_opt (decode_base64 file.(Attachment.data)) "Invalid attachment encoding";
  save_file (attachment_dir file) (attachment_path file) file.(Attachment.name) bytes.

Definition prepare (text : string) : FileM string :=
  '(text, files) ← lift (unpack text);
  if bool_decide (files = []) then mret text
  else
    _ ← for_each save_attachment files;
    let files' := (fun file => Attachment.set_path (Some (attachment_path file)) file) <$> files in
    mret (text +:+ concat_str (availability <$> files) +:+ START +:+ to_text files' +:+ END).
End Attachments.

(** ** For the providers *)
Section Inputs.
Context {V : Type} `{Json V} `{!TextSerde (list Attachment.t)} `{!Codecs}.

Definition unpacked (prompt : string) : string * list Attachment.t :=
  match unpack prompt with Ok p => p | Err _ => (prompt, []) end.
Definition text_input (text : string) : V := json_object [("type", json_str "text"); ("text", json_str text)].

Definition codex_input (prompt : string) : list V :=
  let '(text, files) := unpacked prompt in
  text_input text :: omap (fun file : Attachment.t =>
    if native_image file.(Attachment.mime)
    then Some (json_object [("type", json_str "image");
           ("url", json_str ("data:" +:+ file.(Attachment.mime) +:+ ";base64," +:+ file.(Attachment.data)))])
    else None) files.

Definition content_kind (mime : string) : option string :=
  if native_image mime then Some "image" else if String.eqb mime "application/pdf" then Some "document" else None.
Definition claude_content (prompt : string) : list V :=
  let '(text, files) := unpacked prompt in
  text_input text :: omap (fun file : Attachment.t =>
    kind ← content_kind file.(Attachment.mime);
    Some (json_object [("type", json_str kind);
      ("source", json_object [("type", json_str "base64"); ("media_type", json_str file.(Attachment.mime));
                              ("data", json_str file.(Attachment.data))])])) files.
End Inputs.

(** ** Names *)

Fixpoint all_chars (p : ascii -> bool) (s : string) : bool :=
  match s with EmptyString => true | String a s => p a && all_chars p s end.

(** A path component that names an entry of its directory. *)
Definition plain_name (n : string) : Prop :=
  all_chars name_char n = true /\ existsb (String.eqb n) [""; "."; ".."] = false.

Lemma clean_chars_all p r s : p r = true -> all_chars p (clean_chars p r s) = true.
Proof.
  intros Hr. induction s as [|a s IH]; [done|]. cbn. destruct (is_continuation a); [done|]. cbn.
  rewrite IH. by destruct (p a) eqn:Ha; rewrite ?Ha, ?Hr.
Qed.

Lemma attachment_name_plain f : plain_name (attachment_name f).
Proof.
  unfold attachment_name, plain_name. set (n := clean_chars _ _ _).
  destruct (existsb (String.eqb n) _) eqn:Hn; [done|]. split; [by apply clean_chars_all|done].
Qed.

Lemma rsplit_once_free c q s : has_char c s = false -> rsplit_once (String c q) s = None.
Proof. induction s as [|a s IH]; cbn; [done|]. intros [-> Hs]%orb_false_iff. by rewrite IH. Qed.

Lemma rsplit_once_marker c q pre :
  has_char c q = false -> rsplit_once (String c q) (pre +:+ String c q) = Some (pre, EmptyString).
Proof.
  intros Hq. induction pre as [|a pre IH].
  - change (EmptyString +:+ String c q) with (String c q). cbn [rsplit_once]. rewrite rsplit_once_free by done.
    assert (strip_prefix (String c q) (String c q) = Some EmptyString) as ->; [|done].
    apply strip_prefix_Some. by rewrite app_empty_str.
  - change (String a pre +:+ String c q) with (String a (pre +:+ String c q)). cbn [rsplit_once]. by rewrite IH.
Qed.

(** ** What [prepare] writes *)
Section Writes.
Context `{!TextSerde (list Attachment.t)} `{!Codecs}.
Implicit Types fs : Files.

(** An upload directory, or a file with a plain name in one. *)
Definition uploaded (p : string) (e : Entry) : Prop :=
  exists digest, p = "perpetual-upload-" +:+ digest /\ e = Directory \/
  exists n bytes, p = "perpetual-upload-" +:+ digest +:+ "/" +:+ n /\ plain_name n /\ e = RegularFile bytes.

(** Nothing that was there changes; what is new is uploaded. *)
Definition grows fs fs' : Prop := fs ⊆ fs' /\ map_Forall (fun p e => fs !! p = Some e \/ uploaded p e) fs'.
Definition adds {A} (m : FileM A) : Prop := forall fs, grows fs (final m fs).

Lemma grows_refl fs : grows fs fs.
Proof. split; [done|]. by intros p e ?; left. Qed.
Lemma grows_trans fs1 fs2 fs3 : grows fs1 fs2 -> grows fs2 fs3 -> grows fs1 fs3.
Proof.
  intros [Hs1 Hn1] [Hs2 Hn2]. split; [by trans fs2|]. intros p e He. destruct (Hn2 p e He) as [Hp|Hp]; [by apply Hn1|by right].
Qed.
Lemma grows_insert fs p e : fs !! p = None -> uploaded p e -> grows fs (<[p := e]> fs).
Proof.
  intros Hp Hu. split; [by apply insert_subseteq|]. intros p' e'. rewrite lookup_insert_Some.
  intros [[<- <-]|[_ ?]]; [by right|by left].
Qed.

Lemma file_adds_ret {A} (a : A) : adds (mret a).
Proof. intros fs. apply grows_refl. Qed.
Lemma file_adds_throw {A} e : adds (throw e : FileM A).
Proof. intros fs. apply grows_refl. Qed.
Lemma file_adds_lift {A} (r : result string A) : adds (lift r).
Proof. intros fs. apply grows_refl. Qed.
Lemma file_adds_bind {A B} (m : FileM A) (f : A -> FileM B) : adds m -> (forall a, adds (f a)) -> adds (m ≫= f).
Proof.
  intros Hm Hf fs. specialize (Hm fs). unfold final in *. rewrite M_bind_unfold. destruct (m fs) as [fs' [a|e]]; [|done].
  eapply grows_trans; [exact Hm|apply Hf].
Qed.
Lemma file_adds_for_each {A} (f : A -> FileM ()) l : (forall a, adds (f a)) -> adds (for_each f l).
Proof. intros Hf. induction l as [|a l IH]; cbn; [apply file_adds_ret|by apply file_adds_bind]. Qed.
(** A read, and a write that depends on it. *)
Lemma file_adds_get {B} (f : Files -> FileM B) : (forall fs, grows fs (final (f fs) fs)) -> adds (fs ← get; f fs).
Proof. intros Hf fs. apply Hf. Qed.
Lemma file_adds_io op p say : adds (io op p say).
Proof. unfold io. case_match; [apply file_adds_throw|apply file_adds_ret]. Qed.

Lemma file_adds_ensure f : adds (ensure_dir (attachment_dir f)).
Proof.
  unfold ensure_dir. apply file_adds_bind; [intros fs; apply grows_refl|]. intros there. apply file_adds_bind; [|intros _].
  - destruct there; [apply file_adds_ret|]. apply file_adds_bind; [apply file_adds_io|intros _]. apply file_adds_get. intros fs.
    destruct (fs !! _) eqn:Hd; [apply grows_refl|]. apply (grows_insert fs _ Directory Hd). eexists. left. done.
  - apply file_adds_bind; [apply file_adds_io|intros _]. apply file_adds_get. intros fs. case_match; [case_match|]; apply grows_refl.
Qed.

Lemma uploaded_file f bytes : uploaded (attachment_path f) (RegularFile bytes).
Proof.
  eexists. right. exists (attachment_name f), bytes. split_and!; [|apply attachment_name_plain|done].
  unfold attachment_path, attachment_dir. by rewrite app_assoc_str.
Qed.

Lemma file_adds_save f bytes : adds (save_file (attachment_dir f) (attachment_path f) f.(Attachment.name) bytes).
Proof.
  unfold save_file. apply file_adds_get. intros fs. destruct (fs !! attachment_dir f) as [[]|]; try apply grows_refl.
  destruct (fs !! attachment_path f) as [entry|] eqn:Hp.
  - apply (file_adds_bind (io _ _ _)); [apply file_adds_io|intros _]. destruct entry; [apply file_adds_throw| |apply file_adds_throw].
    apply file_adds_bind; [apply file_adds_io|intros _]. unfold fail_when. case_match; [apply file_adds_throw|apply file_adds_ret].
  - unfold final, io. rewrite M_bind_unfold. destruct (os_error CreateFile _); [apply grows_refl|]. cbn.
    destruct (os_error WriteFile _); apply (grows_insert fs _ _ Hp), uploaded_file.
Qed.

Lemma file_adds_attachment f : adds (save_attachment f).
Proof.
  unfold save_attachment. apply file_adds_bind; [apply file_adds_ensure|intros _]. apply file_adds_bind; [apply file_adds_lift|intros bytes].
  apply file_adds_save.
Qed.

Lemma file_adds_prepare text : adds (prepare text).
Proof.
  unfold prepare. apply file_adds_bind; [apply file_adds_lift|]. intros [text' files]. case_match; [apply file_adds_ret|].
  apply file_adds_bind; [apply file_adds_for_each, file_adds_attachment|intros; apply file_adds_ret].
Qed.
End Writes.

(** ** Reading back *)
Section Reading.
Context `{!TextSerde (list Attachment.t)} `{!TextSerdeOk (list Attachment.t)} `{!Codecs}.
Implicit Types fs : Files.

(** The file is in its place with its bytes. *)
Definition saved (fs : Files) (f : Attachment.t) : Prop :=
  fs !! attachment_dir f = Some Directory /\
  exists bytes, decode_base64 f.(Attachment.data) = Some bytes /\ fs !! attachment_path f = Some (RegularFile bytes).
Definition healthy : Prop := forall op p, os_error op p = None.

Definition notes (files : list Attachment.t) : string := concat_str (availability <$> files).
Definition placed (files : list Attachment.t) : list Attachment.t :=
  (fun file => Attachment.set_path (Some (attachment_path file)) file) <$> files.

Lemma saved_grows fs fs' f : grows fs fs' -> saved fs f -> saved fs' f.
Proof. intros [Hs _] (Hd & bytes & Hb & Hp). split; [by eapply lookup_weaken|]. exists bytes. split; [done|by eapply lookup_weaken]. Qed.

Lemma io_healthy op p say fs : healthy -> io op p say fs = (fs, Ok ()).
Proof. intros Hh. unfold io. by rewrite Hh. Qed.

Lemma ensure_dir_again f fs : healthy -> fs !! attachment_dir f = Some Directory -> ensure_dir (attachment_dir f) fs = (fs, Ok ()).
Proof.
  intros Hh Hd. unfold ensure_dir. rewrite M_bind_unfold. unfold gets, exists_at. cbn. rewrite Hd. cbn.
  rewrite M_bind_unfold. cbn. rewrite M_bind_unfold, (io_healthy _ _ _ _ Hh), M_bind_unfold. cbn. by rewrite Hd.
Qed.

Lemma saved_again f fs : healthy -> saved fs f -> save_attachment f fs = (fs, Ok ()).
Proof.
  intros Hh (Hd & bytes & Hb & Hp). unfold save_attachment. rewrite M_bind_unfold, ensure_dir_again by done.
  rewrite M_bind_unfold, Hb. cbn. unfold save_file. rewrite M_bind_unfold. cbn. rewrite Hd, Hp.
  rewrite M_bind_unfold, (io_healthy _ _ _ _ Hh), M_bind_unfold, (io_healthy _ _ _ _ Hh). unfold fail_when.
  by rewrite String.eqb_refl.
Qed.

Lemma save_attachment_saves f fs fs' : save_attachment f fs = (fs', Ok ()) -> saved fs' f.
Proof.
  unfold save_attachment. rewrite M_bind_unfold. destruct (ensure_dir _ fs) as [fs1 [[]|e]]; [|done]. rewrite M_bind_unfold.
  destruct (decode_base64 _) as [bytes|] eqn:Hb; [|done]. cbn. unfold save_file. rewrite M_bind_unfold. cbn.
  destruct (fs1 !! attachment_dir f) as [[]|] eqn:Hd; [|done..]. destruct (fs1 !! attachment_path f) as [entry|] eqn:Hp.
  - rewrite M_bind_unfold. destruct (io _ _ _ fs1) as [fs2 [[]|]] eqn:Hio; [|done].
    assert (fs2 = fs1) as -> by (revert Hio; unfold io; case_match; by intros [= <-]).
    destruct entry as [|content|]; [done| |done]. rewrite M_bind_unfold. destruct (io ReadFile _ _ fs1) as [fs3 [[]|]] eqn:Hio2; [|done].
    assert (fs3 = fs1) as -> by (revert Hio2; unfold io; case_match; by intros [= <-]).
    unfold fail_when. destruct (String.eqb_spec content bytes) as [->|]; cbn; [|done]. intros [= <-]. split; [done|by exists bytes].
  - rewrite M_bind_unfold. unfold io. destruct (os_error CreateFile _); [done|]. cbn. destruct (os_error WriteFile _); [done|].
    intros [= <-]. assert (attachment_path f <> attachment_dir f) by congruence. split; [by rewrite lookup_insert_ne|].
    exists bytes. by rewrite lookup_insert_eq.
Qed.

Lemma saves files fs fs' : for_each save_attachment files fs = (fs', Ok ()) -> grows fs fs' /\ Forall (saved fs') files.
Proof.
  revert fs. induction files as [|f files IH]; intros fs; cbn; [intros [= <-]; split; [apply grows_refl|done]|].
  rewrite M_bind_unfold. destruct (save_attachment f fs) as [fs1 [[]|e]] eqn:Hf; [|done]. intros Hr.
  assert (grows fs fs1) as Hg by (pose proof (file_adds_attachment f fs) as Hg; unfold final in Hg; by rewrite Hf in Hg).
  apply IH in Hr as [Hg' Hall]. split; [by eapply grows_trans|]. constructor; [|done].
  by eapply saved_grows, save_attachment_saves.
Qed.

Lemma saves_again files fs : healthy -> Forall (saved fs) files -> for_each save_attachment files fs = (fs, Ok ()).
Proof. intros Hh. induction 1 as [|f files Hf _ IH]; [done|]. cbn. by rewrite M_bind_unfold, saved_again. Qed.

Lemma check_placed total files : check_files total (placed files) = check_files total files.
Proof.
  revert total. induction files as [|f files IH]; intros total; [done|]. cbn. destruct (decode_base64 _); [|done].
  by rewrite IH.
Qed.

Lemma unpack_limits text text' files :
  unpack text = Ok (text', files) -> (10 <? length files)%nat = false /\ (files <> [] -> check_files 0 files = Ok ()).
Proof.
  unfold unpack. destruct (split_once _ _) as [[pre rest]|]; [|by intros [= <- <-]].
  destruct (rsplit_once _ _) as [[body post]|]; [|done]. destruct (from_text body) as [fs|]; [|done].
  destruct (10 <? length fs)%nat eqn:Hl; [done|]. destruct (check_files 0 fs) as [[]|] eqn:Hc; cbn; [|done].
  by intros [= <- <-].
Qed.

Lemma unpack_prepared text files :
  contains START text = false -> (10 <? length files)%nat = false -> check_files 0 files = Ok () ->
  unpack (text +:+ START +:+ to_text files +:+ END) = Ok (text, files).
Proof.
  intros Ht Hl Hc. unfold unpack. rewrite split_once_marker by done. unfold END at 1. rewrite rsplit_once_marker by done.
  rewrite from_to_text, Hl, Hc. cbn. by rewrite app_empty_str.
Qed.

Lemma prepare_inv text fs fs' out text' files :
  unpack text = Ok (text', files) -> files <> [] -> prepare text fs = (fs', Ok out) ->
  for_each save_attachment files fs = (fs', Ok ()) /\
  out = (text' +:+ notes files) +:+ START +:+ to_text (placed files) +:+ END.
Proof.
  intros Hu Hne. unfold prepare. rewrite M_bind_unfold, Hu. cbn. rewrite bool_decide_eq_false_2 by done.
  rewrite M_bind_unfold. destruct (for_each _ _ fs) as [fs1 [[]|]]; [|done]. cbn. intros [= <- <-]. split; [done|].
  by rewrite app_assoc_str.
Qed.

Lemma prepare_run text fs text' files :
  unpack text = Ok (text', files) -> files <> [] ->
  for_each save_attachment files fs = (fs, Ok ()) ->
  prepare text fs = (fs, Ok ((text' +:+ notes files) +:+ START +:+ to_text (placed files) +:+ END)).
Proof.
  intros Hu Hne Hs. unfold prepare. rewrite M_bind_unfold, Hu. cbn. rewrite bool_decide_eq_false_2 by done.
  rewrite M_bind_unfold, Hs. cbn. by rewrite app_assoc_str.
Qed.

(** The path depends only on the name and the data, so what a failed write left
    is in the way of every later attempt with the same file. *)
Lemma failed_write_stays f bytes part fs :
  healthy -> decode_base64 f.(Attachment.data) = Some bytes -> fs !! attachment_dir f = Some Directory ->
  fs !! attachment_path f = Some (RegularFile part) -> part <> bytes ->
  save_attachment f fs = (fs, Err "Saved attachment has changed; attach the file again.").
Proof.
  intros Hh Hb Hd Hp Hne. unfold save_attachment. rewrite M_bind_unfold, ensure_dir_again by done.
  rewrite M_bind_unfold, Hb. cbn. unfold save_file. rewrite M_bind_unfold. cbn. rewrite Hd, Hp.
  rewrite M_bind_unfold, (io_healthy _ _ _ _ Hh), M_bind_unfold, (io_healthy _ _ _ _ Hh). unfold fail_when.
  by destruct (String.eqb_spec part bytes).
Qed.

(** C21: Whatever happens, preparing a message adds entries and changes none, and
    every entry it adds is an upload directory or a file with a plain name in one
    (no separator, not a parent directory).  When it succeeds on a healthy file
    system, and neither the text nor the notes with the files' names contain the
    START tag (such a message would not unpack again), each attached file holds
    its decoded bytes, the prompt unpacks to the text with its notes and the same
    files with their paths, and a retry of the message writes nothing and gives
    the same prompt. *)
Theorem attachments_prepared text fs fs' out text' files :
  healthy -> unpack text = Ok (text', files) -> files <> [] -> contains START (text' +:+ notes files) = false ->
  prepare text fs = (fs', Ok out) ->
  (forall msg gs, grows gs (final (prepare msg) gs)) /\
  Forall (saved fs') files /\
  unpack out = Ok (text' +:+ notes files, placed files) /\
  prepare text fs' = (fs', Ok out).
Proof.
  intros Hh Hu Hne Hfree Hp. destruct (prepare_inv _ _ _ _ _ _ Hu Hne Hp) as [Hs ->]. apply saves in Hs as [_ Hall].
  destruct (unpack_limits _ _ _ Hu) as [Hl Hc]. split_and!; [apply file_adds_prepare|done| |].
  - apply unpack_prepared; [done|by unfold placed; rewrite length_fmap|by rewrite check_placed, Hc].
  - by apply prepare_run, saves_again.
Qed.
End Reading.

(** ** A message with one file *)
Module DemoFiles.
Definition to_tuple (a : Attachment.t) : string * string * string * option string :=
  (a.(Attachment.name), a.(Attachment.mime), a.(Attachment.data), a.(Attachment.path)).
Definition of_tuple (t : string * string * string * option string) : Attachment.t :=
  let '(n, m, d, p) := t in Attachment.mk n m d p.

#[global] Instance files_text : TextSerde (list Attachment.t) := {
  to_text files := Tree.digits (encode (to_tuple <$> files));
  from_text s := ok_or ((fun l : list (string * string * string * option string) => of_tuple <$> l) <$> decode (Tree.undigits s)) "expected value"
}.
#[global] Instance files_text_ok : TextSerdeOk (list Attachment.t).
Proof.
  split. intros files. cbn. rewrite Tree.undigits_digits, decode_encode. cbn. f_equal. rewrite <- list_fmap_compose.
  rewrite <- (list_fmap_id files) at 2. apply list_fmap_ext. by intros ? [] ?.
Qed.

#[global] Instance codecs : Codecs := {
  decode_base64 s := Some s;
  sha256_hex s := "ab";
  os_error _ _ := None;
  left_by_failed_write _ _ := ""
}.

Definition file : Attachment.t := Attachment.mk "../a.png" "image/png" "aGk=" None.
Definition message : string := "Look" +:+ START +:+ to_text [file] +:+ END.
End DemoFiles.

Lemma attachments_prepared_witness :
  attachment_path DemoFiles.file = "perpetual-upload-ab/.._a.png" /\
  exists fs' out,
    prepare DemoFiles.message ∅ = (fs', Ok out) /\
    unpack out = Ok ("Look" +:+ notes [DemoFiles.file], placed [DemoFiles.file]) /\ prepare DemoFiles.message fs' = (fs', Ok out).
Proof.
  split; [by vm_compute|].
  destruct (prepare DemoFiles.message ∅) as [fs' [out|e]] eqn:Hp; [|by vm_compute in Hp].
  exists fs', out. split; [done|].
  destruct (attachments_prepared DemoFiles.message ∅ fs' out "Look" [DemoFiles.file]) as (_ & _ & Hu & Hr);
    [done|by vm_compute|done|by vm_compute|exact Hp|].
  by split.
Defined.
