(* ===== verification/GitText.v ===== *)
(** * Paths and git's output (crates/am-core/src/agent_thread.rs)

    What the workspaces of threads need of strings: paths and their components, the
    directory of a repository, the files a diff lists, the environment that makes
    git trust a worktree. *)
From Stdlib Require Import Ascii String.
From stdpp Require Import pretty.
From S2P Require Import Prelude RustStr Json Enums Records ThreadText Attachments.
#[local] Open Scope string_scope.
#[local] Open Scope Z_scope.

(** [str::split] on a character: never empty. *)
Fixpoint split_on (c : ascii) (s : string) : list string :=
  match s with
  | EmptyString => [EmptyString]
  | String a s =>
      if Ascii.eqb a c then EmptyString :: split_on c s
      else match split_on c s with
           | w :: ws => String a w :: ws
           | [] => [String a EmptyString]
           end
  end.

(** [str::parse] of an unsigned integer: an optional sign, digits, no overflow. *)
Definition digit_value (a : ascii) : option Z :=
  let z := Z.of_N (N_of_ascii a) - 48 in if (0 <=? z) && (z <? 10) then Some z else None.
Fixpoint parse_digits (max acc : Z) (s : string) : option Z :=
  match s with
  | EmptyString => Some acc
  | String a s =>
      match digit_value a with
      | Some d => if max <? 10 * acc + d then None else parse_digits max (10 * acc + d) s
      | None => None
      end
  end.
Definition parse_unsigned (max : Z) (s : string) : option Z :=
  let digits := default s (strip_prefix "+" s) in
  if is_empty digits then None else parse_digits max 0 digits.

(** ** Paths

    [Path] on a Unix system: two paths are equal when their components are. *)
Definition kept_component (c : string) : bool := negb (is_empty c) && negb (String.eqb c ".").
Definition kept_components (parts : list string) : list string :=
  let kept := filter (fun c => kept_component c = true) parts in
  match parts with
  | first :: rest =>
      if is_empty first && negb (bool_decide (rest = [])) then "/" :: kept
      else if String.eqb first "." then "." :: kept else kept
  | [] => kept
  end.
Definition components (p : string) : list string := kept_components (split_on "/" p).
Definition eq_path (a b : string) : bool := bool_decide (components a = components b).
(** [Path::starts_with], [Path::join], [Path::file_name]. *)
Definition path_starts_with (base p : string) : bool := bool_decide (components base = take (length (components base)) (components p)).
Definition join (a b : string) : string :=
  if starts_with "/" b then b else if is_empty a || ends_with "/" a then a +:+ b else a +:+ "/" +:+ b.
Definition file_name (p : string) : option string :=
  match last (components p) with
  | Some c => if existsb (String.eqb c) ["/"; "."; ".."] then None else Some c
  | None => None
  end.

(** ** The directory of a repository in a workspace *)

Definition dir_char (c : ascii) : bool := is_ascii_alphanumeric c || existsb (Ascii.eqb c) ["-"; "_"]%char.

(** [while s.contains("--") { s = s.replace("--", "-") }]; a round shortens [s]. *)
Fixpoint collapse_fuel (fuel : nat) (s : string) : string :=
  match fuel with
  | O => s
  | S fuel => if contains "--" s then collapse_fuel fuel (replace "--" "-" s) else s
  end.
Definition collapse (s : string) : string := collapse_fuel (String.length s) s.

(** [trim_matches('-')]. *)
Fixpoint drop_dashes (s : string) : string :=
  match s with
  | String a s' => if Ascii.eqb a "-"%char then drop_dashes s' else s
  | EmptyString => EmptyString
  end.
Definition trim_dashes (s : string) : string := rev_str (drop_dashes (rev_str (drop_dashes s))).

(** [split('-').next()]. *)
Definition first_part (id : string) : string := default EmptyString (head (split_on "-" id)).

Definition safe_repo_dir (name id : string) : string :=
  let s := trim_dashes (collapse (clean_chars dir_char "-"%char name)) in
  (if is_empty s then "repo" else s) +:+ "-" +:+ first_part id.

(** ** Trusting the managed worktrees *)

(** [str::replace] of one character by another. *)
Fixpoint swap_char (a b : ascii) (s : string) : string :=
  match s with EmptyString => EmptyString | String c s => String (if Ascii.eqb c a then b else c) (swap_char a b s) end.

Definition git_safe_path (raw : string) : string :=
  match strip_prefix "\\?\UNC\" raw with
  | Some rest => swap_char "\" "/" ("\\" +:+ rest)
  | None => swap_char "\" "/" (default raw (strip_prefix "\\?\" raw))
  end.

(** The entries of the paths from [index] on. *)
Fixpoint git_entries (index : Z) (paths : list string) : list (string * string) :=
  match paths with
  | [] => []
  | path :: paths =>
      ("GIT_CONFIG_KEY_" +:+ pretty index, "safe.directory") :: ("GIT_CONFIG_VALUE_" +:+ pretty index, git_safe_path path) ::
      git_entries (index + 1) paths
  end.

(** [inherited] is the process's own [GIT_CONFIG_COUNT]. *)
Definition add_managed_git_safe_directories (inherited : option string) (env : list (string * string)) (paths : list string) :
  result CoreError (list (string * string)) :=
  if bool_decide (paths = []) then Ok env
  else
    let set := snd <$> find (fun kv => String.eqb kv.1 "GIT_CONFIG_COUNT") (reverse env) in
    start ← ok_or (parse_unsigned usize_max (default "0" (opt_or set inherited))) (Other "Invalid inherited GIT_CONFIG_COUNT");
    let count := start + Z.of_nat (length paths) in
    if (usize_max <? count) || (256 <? count) then Err (Other "Too many Git config entries")
    else Ok (env ++ git_entries start paths ++ [("GIT_CONFIG_COUNT", pretty count)])%list.

(** ** Diffs *)

Definition file_status_label (letter : ascii) : string :=
  match letter with
  | "A"%char => "added"
  | "D"%char => "deleted"
  | "R"%char => "renamed"
  | "C"%char => "copied"
  | _ => "modified"
  end.

Definition tab : ascii := "009"%char.
Definition parse_numstat (output : string) : list (Z * Z * string) :=
  omap (fun line =>
    match split_on tab line with
    | additions :: deletions :: path :: _ =>
        Some (default 0 (parse_unsigned u32_max additions), default 0 (parse_unsigned u32_max deletions), path)
    | _ => None
    end) (lines output).

Definition merge_file_changes (name_status numstat : string) : list FileChange.t :=
  let stats := parse_numstat numstat in
  (fun line =>
    let parts := split_on tab line in
    let status := default EmptyString (head parts) in
    let path := default EmptyString (last parts) in
    let letter := match status with String a _ => a | EmptyString => "M"%char end in
    let '(additions, deletions) :=
      match find (fun stat => String.eqb stat.2 path) stats with Some (a, d, _) => (a, d) | None => (0, 0) end in
    FileChange.mk path (file_status_label letter) additions deletions) <$> lines name_status.

Definition git_diff_args (prefix exclude_paths : list string) (include_pathspec : bool) : list string :=
  (prefix ++ (if include_pathspec || negb (bool_decide (exclude_paths = []))
              then "--" :: "." :: ((fun path => ":(exclude)" +:+ path) <$> exclude_paths) else []))%list.

Definition MAX_DIFF_NOTICE : string := newline +:+ "[diff truncated]" +:+ newline.
(** The patch up to the largest character boundary within [max_bytes]. *)
Definition capped_patch (max_bytes : Z) (patch : string) : string :=
  if max_bytes <? len patch then substring 0 (char_floor patch (Z.to_nat max_bytes)) patch +:+ MAX_DIFF_NOTICE else patch.

Definition GENERATED_CONTEXT_FILES : list string := ["TASK_CONTEXT.md"; "CLAUDE.md"; "AGENTS.md"].

(** ** Joined paths *)

Lemma split_on_app c a b : split_on c (a +:+ String c b) = (split_on c a ++ split_on c b)%list.
Proof.
  induction a as [|x a IH].
  - change (EmptyString +:+ String c b) with (String c b). cbn [split_on]. by rewrite Ascii.eqb_refl.
  - change (String x a +:+ String c b) with (String x (a +:+ String c b)). cbn [split_on]. rewrite IH.
    destruct (Ascii.eqb x c); [done|]. destruct (split_on c a) eqn:Ha; [|done].
    exfalso. clear -Ha. destruct a as [|y a]; cbn in Ha; [done|]. destruct (Ascii.eqb y c); [done|]. by destruct (split_on c a).
Qed.

Lemma split_on_free c s : has_char c s = false -> split_on c s = [s].
Proof.
  induction s as [|a s IH]; cbn; [done|]. intros [Ha Hs]%orb_false_iff. rewrite Ascii.eqb_sym, Ha. by rewrite IH.
Qed.

Lemma has_char_app c s t : has_char c (s +:+ t) = has_char c s || has_char c t.
Proof.
  induction s as [|a s IH]; [done|]. change (String a s +:+ t) with (String a (s +:+ t)). cbn. by rewrite IH, orb_assoc.
Qed.

Lemma has_char_rev c s acc : has_char c (rev_append s acc) = has_char c s || has_char c acc.
Proof.
  revert acc. induction s as [|a s IH]; intros acc; cbn; [done|]. rewrite IH. cbn.
  by destruct (Ascii.eqb c a), (has_char c s).
Qed.

Lemma has_char_drop c s : has_char c s = false -> has_char c (drop_dashes s) = false.
Proof. induction s as [|a s IH]; cbn; [done|]. intros [Ha Hs]%orb_false_iff. case_match; [auto|]. cbn. by rewrite Ha. Qed.

Lemma has_char_trim c s : has_char c s = false -> has_char c (trim_dashes s) = false.
Proof.
  intros Hs. unfold trim_dashes, rev_str. rewrite has_char_rev, orb_false_r. apply has_char_drop.
  rewrite has_char_rev, orb_false_r. by apply has_char_drop.
Qed.

Lemma has_char_split_once c p s pre post :
  split_once p s = Some (pre, post) -> has_char c s = false -> has_char c pre = false /\ has_char c post = false.
Proof.
  intros (-> & _)%split_once_Some Hs. rewrite !has_char_app in Hs. by apply orb_false_iff in Hs as [-> [_ ->]%orb_false_iff].
Qed.

Lemma has_char_replace c p r s : has_char c r = false -> has_char c s = false -> has_char c (replace p r s) = false.
Proof.
  intros Hr. unfold replace. generalize (String.length s) as fuel. intros fuel. revert s.
  induction fuel as [|fuel IH]; intros s Hs; cbn; [done|]. destruct (split_once p s) as [[pre post]|] eqn:Hsp; [|done].
  destruct (has_char_split_once c p s pre post) as [Hpre Hpost]; [done..|]. by rewrite !has_char_app, Hpre, Hr, IH.
Qed.

Lemma has_char_collapse c s : Ascii.eqb c "-"%char = false -> has_char c s = false -> has_char c (collapse s) = false.
Proof.
  intros Hc. unfold collapse. generalize (String.length s) as fuel. intros fuel. revert s.
  induction fuel as [|fuel IH]; intros s Hs; cbn; [done|]. case_match; [|done]. apply IH, has_char_replace; [cbn; by rewrite Hc|done].
Qed.

Lemma has_char_clean c p r s : p c = false -> Ascii.eqb c r = false -> has_char c (clean_chars p r s) = false.
Proof.
  intros Hp Hr. induction s as [|a s IH]; cbn; [done|]. case_match; [done|]. cbn. rewrite IH, orb_false_r.
  destruct (p a) eqn:Ha; [|done]. destruct (Ascii.eqb_spec c a) as [->|]; congruence.
Qed.

(** The name part of the directory is free of separators and dots. *)
Lemma safe_dir_free name c :
  dir_char c = false -> Ascii.eqb c "-"%char = false -> has_char c (trim_dashes (collapse (clean_chars dir_char "-"%char name))) = false.
Proof. intros Hd Hc. by apply has_char_trim, has_char_collapse, has_char_clean. Qed.

Lemma has_char_first c d id : has_char c id = false -> has_char c (default EmptyString (head (split_on d id))) = false.
Proof.
  induction id as [|a id IH]; cbn; [done|]. intros [Ha Hid]%orb_false_iff. case_match; [done|].
  specialize (IH Hid). destruct (split_on d id); cbn in *; by rewrite Ha.
Qed.

Lemma safe_repo_dir_component name id :
  has_char "/" id = false ->
  has_char "/" (safe_repo_dir name id) = false /\ kept_component (safe_repo_dir name id) = true /\ safe_repo_dir name id <> "..".
Proof.
  intros Hid. unfold safe_repo_dir. set (s := trim_dashes _). set (pre := if is_empty s then _ else s).
  assert (has_char "-" (pre +:+ "-" +:+ first_part id) = true) as Hdash.
  { rewrite !has_char_app. cbn. by rewrite !orb_true_r. }
  split_and!.
  - rewrite !has_char_app. unfold first_part. rewrite has_char_first by done. unfold pre, s. case_match; [done|].
    by rewrite safe_dir_free.
  - unfold kept_component. generalize dependent (pre +:+ "-" +:+ first_part id). intros d Hdash.
    destruct d as [|a d]; [done|]. cbn [is_empty negb andb]. destruct (String.eqb_spec (String a d) ".") as [Heq|]; [|done].
    by rewrite Heq in Hdash.
  - intros Heq. by rewrite Heq in Hdash.
Qed.

Lemma filter_kept x d :
  filter (fun c => kept_component c = true) (x ++ [d])%list =
  (filter (fun c => kept_component c = true) x ++ (if kept_component d then [d] else []))%list.
Proof.
  rewrite filter_app. f_equal. destruct (kept_component d) eqn:Hd; [by rewrite filter_cons_True|].
  rewrite filter_cons_False; [done|congruence].
Qed.

Lemma kept_snoc x d :
  x <> [] -> x <> [""] -> kept_component d = true -> kept_components (x ++ [d])%list = (kept_components x ++ [d])%list.
Proof.
  intros Hx Hx' Hd. pose proof (filter_kept x d) as Hf. rewrite Hd in Hf. destruct x as [|a x]; [done|].
  unfold kept_components. cbn [app] in *. rewrite Hf, (bool_decide_eq_false_2 (x ++ [d] = [])%list) by (by destruct x).
  destruct (is_empty a) eqn:Ha.
  - assert (a = "") as -> by (by destruct a). destruct x as [|b x]; [done|]. by rewrite bool_decide_eq_false_2.
  - cbn [andb]. by destruct (String.eqb a ".").
Qed.

Lemma kept_trailing x d :
  x <> [] -> kept_component d = true -> kept_components (x ++ [d])%list = (kept_components (x ++ [""]) ++ [d])%list.
Proof.
  intros Hx Hd. pose proof (filter_kept x d) as Hf. rewrite Hd in Hf. pose proof (filter_kept x "") as Hf'.
  destruct x as [|a x]; [done|]. unfold kept_components. cbn [app] in *.
  rewrite Hf, Hf', (bool_decide_eq_false_2 (x ++ [d] = [])%list), (bool_decide_eq_false_2 (x ++ [""] = [])%list) by (by destruct x).
  cbn [kept_component is_empty negb andb]. rewrite app_nil_r. by destruct (is_empty a); [|destruct (String.eqb a ".")].
Qed.

Lemma split_on_nonempty c s : split_on c s <> [].
Proof. destruct s as [|a s]; cbn; [done|]. case_match; [done|]. by destruct (split_on c s). Qed.

Lemma split_on_single c s : split_on c s = [EmptyString] -> s = EmptyString.
Proof.
  destruct s as [|a s]; cbn; [done|]. pose proof (split_on_nonempty c s). case_match; [intros [= ?]|]; [done|].
  by destruct (split_on c s).
Qed.

(** A component joined to a path is one more component. *)
Lemma components_join a d :
  has_char "/" d = false -> kept_component d = true -> d <> "." -> components (join a d) = (components a ++ [d])%list.
Proof.
  intros Hd Hk Hne. unfold join.
  assert (starts_with "/" d = false) as ->.
  { destruct d as [|c d]; [done|]. apply orb_false_iff in Hd as [Hc _]. unfold starts_with. cbn [strip_prefix]. by rewrite Hc. }
  destruct (is_empty a) eqn:Ha; cbn [orb].
  - assert (a = "") as -> by (by destruct a). change ("" +:+ d) with d. unfold components. rewrite split_on_free by done.
    unfold kept_components. rewrite bool_decide_eq_true_2, andb_false_r by done.
    destruct (String.eqb_spec d "."); [done|]. rewrite filter_cons_True, filter_nil by done. done.
  - destruct (ends_with "/" a) eqn:He.
    + unfold ends_with, strip_suffix in He. destruct (strip_prefix (rev_str "/") (rev_str a)) as [r|] eqn:Hr; [|done].
      apply strip_prefix_Some in Hr. apply (f_equal rev_str) in Hr. rewrite rev_str_involutive, rev_str_app, rev_str_involutive in Hr.
      rewrite Hr. unfold components. rewrite app_assoc_str. change ("/" +:+ d) with (String "/" d). change "/" with (String "/" "").
      rewrite !split_on_app, (split_on_free _ d) by done. apply kept_trailing; [apply split_on_nonempty|done].
    + unfold components. change (a +:+ "/" +:+ d) with (a +:+ String "/" d). rewrite split_on_app, (split_on_free _ d) by done.
      apply kept_snoc; [apply split_on_nonempty| |done]. intros Hs%split_on_single. by subst.
Qed.
