(* ===== verification/CoreWorld.v ===== *)
(** * The core's world

    The state the handlers of threads and the scheduler share: the agents'
    tables, an environment that holds every other component, the events
    published and the runs launched, in order.  Class [CoreServices] is what they
    call in the other components. *)
From Stdlib Require Import Ascii String.
From S2P Require Import Prelude RustStr Json Enums Records Limits AgentDb.
#[local] Open Scope string_scope.
#[local] Open Scope Z_scope.

(** [LimitPolicy::default()], [LocalModelPolicy::default()]. *)
Definition default_limit_policy : LimitPolicy.t :=
  LimitPolicy.mk true true [AgentKind.ClaudeCode; AgentKind.Codex] [] [] [] true 600 true.

Definition default_local_model_policy : LocalModelPolicy.t :=
  LocalModelPolicy.mk true true true 30 10 2 "http://127.0.0.1:11434" "http://127.0.0.1:1234" false None [].

Module PendingThreadMessage.
Record t := mk { text : string; echo_user_message : bool; client_message_id : option string }.
Definition from_queued (queued : QueuedTurn.t) : t :=
  mk queued.(QueuedTurn.message) queued.(QueuedTurn.echo_user_message) queued.(QueuedTurn.client_message_id).
End PendingThreadMessage.

Module AccountRuntime.
Record t := mk { id : string; agent : AgentKind.t; env : list (string * string); profile : option string }.
End AccountRuntime.

(** What an outside service reads and writes. *)
Record Sys (E : Type) := mkSys { db : AgentDb; env : E }.
Arguments mkSys {E} _ _.
Arguments db {E} _.
Arguments env {E} _.

(** [AppEvent]; the JSON values inside are published as their texts. *)
Inductive CoreEvent :=
| TaskUpdated (task : Task.t)
| AgentThreadUpdated (thread : AgentThread.t)
| AgentThreadCreated (thread : AgentThread.t)
| ThreadEvent (event : AgentThreadEvent.t string)
| ApprovalRequested (approval : ApprovalRequest.t string)
| RepoConnected (repo : Repo.t)
| SessionShown (event : SessionEvent.t string)
| CollaborationDeviceUpdated (device : CollaborationDevice.t)
| CollaborationAssignmentUpdated (assignment : CollaborationAssignment.t)
| CollaborationChangeSetUpdated (change : CollaborationChangeSet.t).

(** A run handed to an agent: awaited, or spawned as a background task. *)
Inductive Launch :=
| RunTask (task_id : string) (agent : AgentKind.t) (permission : PermissionPolicy.t)
| RunThread (thread_id : string) (agent : AgentKind.t) (permission : PermissionPolicy.t)
    (message : option PendingThreadMessage.t)
| SpawnThread (thread_id : string) (agent : AgentKind.t) (permission : PermissionPolicy.t)
    (message : option PendingThreadMessage.t).

(** [events] and [launches] are histories. *)
Record World (E : Type) := mkWorld { sys : Sys E; events : list CoreEvent; launches : list Launch }.
Arguments mkWorld {E} _ _ _.
Arguments sys {E} _.
Arguments events {E} _.
Arguments launches {E} _.

Abbreviation SysM E := (M (Sys E) CoreError).
Abbreviation W E := (M (World E) CoreError).

Class CoreServices (E : Type) := {
  now : SysM E Z;
  (** [self.activity(project, task, kind, ..)]: the payload is for display *)
  activity : option string -> option string -> string -> SysM E ();
  session_active : string -> Sys E -> bool;
  active_count : Sys E -> Z;
  sync_session_capacity : SysM E Z;
  run_task : string -> AgentKind.t -> PermissionPolicy.t -> SysM E string;
  run_agent_thread : string -> AgentKind.t -> PermissionPolicy.t -> option PendingThreadMessage.t -> SysM E string;
  detect_agents : SysM E (list AgentStatus.t);
  agent_record : AgentKind.t -> SysM E (option AgentRecord.t);
  get_limit_policy : SysM E LimitPolicy.t;
  get_local_model_policy : SysM E LocalModelPolicy.t;
  cloud_connectivity_stable : LocalModelPolicy.t -> SysM E bool;
  best_ready_local_target : LocalModelPolicy.t -> SysM E (option LocalModelTarget.t);
  provider_account_statuses : SysM E (list ProviderAccountStatus.t);
  next_ready_provider_account : option string -> SysM E (option AccountRuntime.t);
  earliest_provider_account_reset : SysM E (option Z);
  (** [provider_account::get]: the account's recorded reset, if the account has a record *)
  provider_account_reset : string -> SysM E (option (option Z));
  enqueue_turn : string -> AgentKind.t -> string -> string -> option string -> bool -> option string -> SysM E QueuedTurn.t;
  pop_queued_turn : string -> SysM E (option QueuedTurn.t);
  list_paused_plan_runs : SysM E (list WorkPlanRun.t);
  get_work_node : string -> SysM E (option WorkNode.t);
  resume_work_plan : string -> SysM E ();
  run_cloud_monitor_tick : SysM E ();
  run_cloud_checkpoints : SysM E ();
  (** [str::to_lowercase] *)
  to_lowercase : string -> string;
  (** the text of a database library error *)
  db_error_text : DbError -> string
}.

Section World.
Context {E : Type} `{CoreServices E}.

Definition call {A} (m : SysM E A) : W E A :=
  fun w => let '(s, r) := m w.(sys) in (mkWorld s w.(events) w.(launches), r).

(** A repository call; [?] turns its error into a [CoreError]. *)
Definition on_db {A} (m : M AgentDb DbError A) : W E A :=
  fun w => let '(d, r) := m w.(sys).(db) in
           (mkWorld (mkSys d w.(sys).(env)) w.(events) w.(launches),
            match r with Ok a => Ok a | Err e => Err (Db e) end).

Definition publish (event : CoreEvent) : W E () :=
  modify (fun w => mkWorld w.(sys) (w.(events) ++ [event]) w.(launches)).
Definition launched (l : Launch) : W E () :=
  modify (fun w => mkWorld w.(sys) w.(events) (w.(launches) ++ [l])).
Definition is_active (id : string) : W E bool := gets (fun w => session_active id w.(sys)).

(** [let _ = self.activity(..).await;] *)
Definition note (project task : option string) (kind : string) : W E () :=
  _ ← attempt (call (activity project task kind)); mret ().

(** [m.await.unwrap_or_default()]. *)
Definition unwrap_or {A} (m : SysM E A) (d : A) : W E A := r ← attempt (call m); mret (default d r).

(** [tokio::spawn] of a thread run whose result is dropped. *)
Definition spawn_thread (id : string) (agent : AgentKind.t) (permission : PermissionPolicy.t)
  (message : option PendingThreadMessage.t) : W E () := launched (SpawnThread id agent permission message).

(** [Display] of [CoreError]. *)
Definition error_text (e : CoreError) : string :=
  match e with
  | Db Sqlx => "database error: " +:+ db_error_text Sqlx
  | Db Migrate => "migration error: " +:+ db_error_text Migrate
  | Db (InvalidEnum value) => "invalid stored enum value: " +:+ value
  | Db (Serde msg) => "json error: " +:+ msg
  | Db DbNotFound => "not found"
  | NotFound => "not found"
  | Other msg => msg
  end.
End World.
