(* ===== verification/TaskRepos.v ===== *)
(** * Repositories of projects, tasks and threads

    The tables of am-db/src/repos/repo.rs, task_repo.rs and agent_thread_repo.rs,
    and the commands of am-core/src/orchestrate.rs on them: connecting a local
    repository, choosing a task's, making its worktree.  git is the class
    [RepoServices]; [windows] is [cfg!(windows)]. *)
From Stdlib Require Import Ascii String.
From S2P Require Import Prelude RustStr Json Enums Records WorkGraphDb WorkGraphInv Limits SqlTable AgentDb CoreWorld.
#[local] Open Scope string_scope.
#[local] Open Scope Z_scope.

(** ** Rows *)
Module RepoRow.
Record t := mk {
  id : string; project_id : string; name : string; kind : string; local_path : option string; remote_url : option string;
  default_branch : string; created_at : Z; updated_at : Z
}.
End RepoRow.

Module TaskRepoLink.
Record t := mk {
  task_id : string; repo_id : string; worktree_path : option string; branch : option string; base_ref : option string;
  workspace_backend : ExecutionBackend.t
}.
End TaskRepoLink.

Module TaskRepoLinkRow.
Record t := mk {
  task_id : string; repo_id : string; worktree_path : option string; branch : option string; base_ref : option string;
  workspace_backend : string
}.
Definition set_workspace (path branch base : option string) (backend : string) (r : t) : t :=
  mk r.(task_id) r.(repo_id) path branch base backend.
End TaskRepoLinkRow.

Module ThreadRepoLinkRow.
Record t := mk {
  thread_id : string; repo_id : string; worktree_path : option string; branch : option string; base_ref : option string;
  workspace_backend : string
}.
Definition set_workspace (path branch base : option string) (backend : string) (r : t) : t :=
  mk r.(thread_id) r.(repo_id) path branch base backend.
End ThreadRepoLinkRow.

(** [changed_files] is its JSON text. *)
Module TaskHandoffRow.
Record t := mk {
  id : string; task_id : string; session_id : string; agent : string; status : string; summary : string;
  changed_files_json : string; next_actions : string; created_at : Z
}.
End TaskHandoffRow.

(** The tables, with those of task_context.rs ([TaskNotes]). *)
Record RepoDb := mkRepoDb {
  repos : list RepoRow.t;
  task_links : list TaskRepoLinkRow.t;
  thread_links : list ThreadRepoLinkRow.t;
  contexts : list TaskContext.t;
  handoffs : list TaskHandoffRow.t
}.
Abbreviation RepoM := (M RepoDb DbError).
Definition put_repos v db := mkRepoDb v db.(task_links) db.(thread_links) db.(contexts) db.(handoffs).
Definition put_task_links v db := mkRepoDb db.(repos) v db.(thread_links) db.(contexts) db.(handoffs).
Definition put_thread_links v db := mkRepoDb db.(repos) db.(task_links) v db.(contexts) db.(handoffs).
Definition put_contexts v db := mkRepoDb db.(repos) db.(task_links) db.(thread_links) v db.(handoffs).
Definition put_handoffs v db := mkRepoDb db.(repos) db.(task_links) db.(thread_links) db.(contexts) v.

Definition repo_try_from (r : RepoRow.t) : result DbError Repo.t :=
  kind ← decode (T:=RepoKind.t) r.(RepoRow.kind);
  mret (Repo.mk r.(RepoRow.id) r.(RepoRow.project_id) r.(RepoRow.name) kind r.(RepoRow.local_path) r.(RepoRow.remote_url)
    r.(RepoRow.default_branch) r.(RepoRow.created_at) r.(RepoRow.updated_at)).

Definition repo_row (r : Repo.t) : RepoRow.t :=
  RepoRow.mk r.(Repo.id) r.(Repo.project_id) r.(Repo.name) (RepoKind.as_str r.(Repo.kind)) r.(Repo.local_path)
    r.(Repo.remote_url) r.(Repo.default_branch) r.(Repo.created_at) r.(Repo.updated_at).

Definition link_try_from (r : TaskRepoLinkRow.t) : result DbError TaskRepoLink.t :=
  backend ← decode (T:=ExecutionBackend.t) r.(TaskRepoLinkRow.workspace_backend);
  mret (TaskRepoLink.mk r.(TaskRepoLinkRow.task_id) r.(TaskRepoLinkRow.repo_id) r.(TaskRepoLinkRow.worktree_path)
    r.(TaskRepoLinkRow.branch) r.(TaskRepoLinkRow.base_ref) backend).

Definition binding_try_from (repo_name : string) (r : ThreadRepoLinkRow.t) : result DbError AgentThreadRepo.t :=
  backend ← decode (T:=ExecutionBackend.t) r.(ThreadRepoLinkRow.workspace_backend);
  mret (AgentThreadRepo.mk r.(ThreadRepoLinkRow.thread_id) r.(ThreadRepoLinkRow.repo_id) repo_name
    r.(ThreadRepoLinkRow.worktree_path) r.(ThreadRepoLinkRow.branch) r.(ThreadRepoLinkRow.base_ref) backend).

Definition is_repo (id : string) (r : RepoRow.t) : bool := eq_str r.(RepoRow.id) id.

(** ** repo.rs: [host] holds the projects *)

Definition insert_repo (host : AgentDb) (repo : Repo.t) : RepoM Repo.t :=
  db ← get;
  _ ← fail_when (existsb (is_repo repo.(Repo.id)) db.(repos)) Sqlx;
  _ ← fail_when (negb (keyed ProjectRow.id host.(projects) repo.(Repo.project_id))) Sqlx;
  _ ← modify (put_repos (db.(repos) ++ [repo_row repo])%list);
  mret repo.

Definition create_local (host : AgentDb) (ts : Z) (id project_id name local_path default_branch : string) : RepoM Repo.t :=
  insert_repo host (Repo.mk id project_id name RepoKind.Local (Some local_path) None default_branch ts ts).

Definition create_github (host : AgentDb) (ts : Z) (id project_id name local_path remote_url default_branch : string) : RepoM Repo.t :=
  insert_repo host (Repo.mk id project_id name RepoKind.GitHub (Some local_path) (Some remote_url) default_branch ts ts).

Definition oldest_repo (a b : RepoRow.t) : bool := a.(RepoRow.created_at) <=? b.(RepoRow.created_at).

Definition list_for_project (project_id : string) : RepoM (list Repo.t) :=
  db ← get;
  lift (collect (repo_try_from <$>
    sort_by oldest_repo (filter (fun r => eq_str r.(RepoRow.project_id) project_id = true) db.(repos)))).

Definition get_by_project_remote (project_id remote_url : string) : RepoM (option Repo.t) :=
  db ← get;
  lift (transpose (repo_try_from <$>
    find (fun r => eq_str r.(RepoRow.project_id) project_id && eq_opt r.(RepoRow.remote_url) remote_url) db.(repos))).

Definition get_repo (id : string) : RepoM (option Repo.t) :=
  db ← get;
  lift (transpose (repo_try_from <$> find (is_repo id) db.(repos))).

(** [DELETE FROM repos WHERE ..]: the links cascade. *)
Definition delete_repos (p : RepoRow.t -> bool) : RepoM Z :=
  db ← get;
  let gone id := existsb (fun r => p r && is_repo id r) db.(repos) in
  _ ← modify (fun db => mkRepoDb (filter (fun r => p r = false) db.(repos))
        (filter (fun l => gone l.(TaskRepoLinkRow.repo_id) = false) db.(task_links))
        (filter (fun l => gone l.(ThreadRepoLinkRow.repo_id) = false) db.(thread_links)) db.(contexts) db.(handoffs));
  mret (Z.of_nat (length (filter (fun r => p r = true) db.(repos)))).
Definition delete_one (id : string) : RepoM bool := n ← delete_repos (is_repo id); mret (0 <? n).
Definition delete_for_project (project_id : string) : RepoM Z :=
  delete_repos (fun r => eq_str r.(RepoRow.project_id) project_id).

(** ** task_repo.rs: [host] holds the tasks *)

Definition of_task (task_id : string) (l : TaskRepoLinkRow.t) : bool := eq_str l.(TaskRepoLinkRow.task_id) task_id.

Definition insert_task_link (host : AgentDb) (row : TaskRepoLinkRow.t) : RepoM () :=
  db ← get;
  _ ← fail_when (negb (keyed TaskRow.id host.(tasks) row.(TaskRepoLinkRow.task_id) &&
                       existsb (is_repo row.(TaskRepoLinkRow.repo_id)) db.(repos))) Sqlx;
  modify (put_task_links (db.(task_links) ++ [row])%list).

Definition upsert_task_link (host : AgentDb) (link : TaskRepoLink.t) : RepoM () :=
  let row := TaskRepoLinkRow.mk link.(TaskRepoLink.task_id) link.(TaskRepoLink.repo_id) link.(TaskRepoLink.worktree_path)
               link.(TaskRepoLink.branch) link.(TaskRepoLink.base_ref) (ExecutionBackend.as_str link.(TaskRepoLink.workspace_backend)) in
  let same l := of_task row.(TaskRepoLinkRow.task_id) l && eq_str l.(TaskRepoLinkRow.repo_id) row.(TaskRepoLinkRow.repo_id) in
  db ← get;
  if existsb same db.(task_links) then
    modify (put_task_links (update_where same (TaskRepoLinkRow.set_workspace row.(TaskRepoLinkRow.worktree_path)
      row.(TaskRepoLinkRow.branch) row.(TaskRepoLinkRow.base_ref) row.(TaskRepoLinkRow.workspace_backend)) db.(task_links)))
  else insert_task_link host row.

Definition clear_for_task (task_id : string) : RepoM () :=
  modify (fun db => put_task_links (filter (fun l => of_task task_id l = false) db.(task_links)) db).

(** Two statements without a transaction. *)
Definition replace_repo (host : AgentDb) (task_id repo_id : string) : RepoM () :=
  _ ← clear_for_task task_id;
  insert_task_link host (TaskRepoLinkRow.mk task_id repo_id None None None (ExecutionBackend.as_str ExecutionBackend.Host)).

Definition get_for_task (task_id : string) : RepoM (option TaskRepoLink.t) :=
  db ← get;
  lift (transpose (link_try_from <$> find (of_task task_id) db.(task_links))).

(** ** agent_thread_repo.rs: [host] holds the threads *)

Definition of_thread (thread_id : string) (l : ThreadRepoLinkRow.t) : bool := eq_str l.(ThreadRepoLinkRow.thread_id) thread_id.

Definition insert_thread_link (host : AgentDb) (row : ThreadRepoLinkRow.t) : RepoM () :=
  db ← get;
  _ ← fail_when (existsb (fun l => of_thread row.(ThreadRepoLinkRow.thread_id) l &&
                   eq_str l.(ThreadRepoLinkRow.repo_id) row.(ThreadRepoLinkRow.repo_id)) db.(thread_links)) Sqlx;
  _ ← fail_when (negb (keyed AgentThreadRow.id host.(threads) row.(ThreadRepoLinkRow.thread_id) &&
                       existsb (is_repo row.(ThreadRepoLinkRow.repo_id)) db.(repos))) Sqlx;
  modify (put_thread_links (db.(thread_links) ++ [row])%list).

Definition replace_repos (host : AgentDb) (thread_id : string) (repo_ids : list string) : RepoM () :=
  _ ← modify (fun db => put_thread_links (filter (fun l => of_thread thread_id l = false) db.(thread_links)) db);
  for_each (fun repo_id => insert_thread_link host
    (ThreadRepoLinkRow.mk thread_id repo_id None None None "host")) repo_ids.

Definition upsert_thread_link (host : AgentDb) (thread_id repo_id : string) (worktree_path branch base_ref : option string)
  (workspace_backend : ExecutionBackend.t) : RepoM () :=
  let row := ThreadRepoLinkRow.mk thread_id repo_id worktree_path branch base_ref (ExecutionBackend.as_str workspace_backend) in
  let same l := of_thread thread_id l && eq_str l.(ThreadRepoLinkRow.repo_id) repo_id in
  db ← get;
  if existsb same db.(thread_links) then
    modify (put_thread_links (update_where same (ThreadRepoLinkRow.set_workspace worktree_path branch base_ref
      (ExecutionBackend.as_str workspace_backend)) db.(thread_links)))
  else insert_thread_link host row.

(** Joined with the repositories, in the order of their names. *)
Definition list_for_thread (thread_id : string) : RepoM (list AgentThreadRepo.t) :=
  db ← get;
  let joined l := r ← find (is_repo l.(ThreadRepoLinkRow.repo_id)) db.(repos); Some (r.(RepoRow.name), l) in
  let by_name (a b : string * ThreadRepoLinkRow.t) := String.leb a.1 b.1 in
  lift (collect ((fun j => binding_try_from j.1 j.2) <$>
    sort_by by_name (omap joined (filter (fun l => of_thread thread_id l = true) db.(thread_links))))).

(** ** Paths *)

Definition map_chars (f : ascii -> ascii) : string -> string :=
  fix go s := match s with EmptyString => EmptyString | String a s => String (f a) (go s) end.

(** [trim_end_matches('/')]. *)
Fixpoint drop_slashes (s : string) : string :=
  match s with
  | String a s' => if Ascii.eqb a "/"%char then drop_slashes s' else s
  | EmptyString => EmptyString
  end.
Definition trim_end_slashes (s : string) : string := rev_str (drop_slashes (rev_str s)).

Section Paths.
Context (windows : bool) (to_lowercase : string -> string).

Definition local_path_key (path : string) : string :=
  let trimmed := trim_end_slashes (map_chars (fun a => if Ascii.eqb a "\"%char then "/"%char else a)
                   (trim_start_matches "\\?\" (trim path))) in
  if windows then to_lowercase trimmed else trimmed.
Definition same_local_path (a b : string) : bool := String.eqb (local_path_key a) (local_path_key b).
End Paths.

(** ** Commands *)

Record GitRepo := mkGitRepo { toplevel : string; git_name : string; git_default_branch : string }.

Class RepoServices (E : Type) := {
  windows : bool;
  fresh_id : SysM E string;
  (** [am_vcs::initialize_repo] when asked, then [validate_repo]; the error is its text *)
  open_repo : string -> bool -> SysM E (result string GitRepo);
  default_backend : SysM E ExecutionBackend.t;
  path_exists : string -> SysM E bool;
  (** [data_dir.join(..)]: a host worktree or a sandbox clone for a task *)
  worktree_path_for : ExecutionBackend.t -> string -> string;
  (** the base commit of the worktree or clone made on the branch *)
  make_worktree : ExecutionBackend.t -> string -> string -> string -> SysM E (result string string)
}.

(** The core's world with the repositories' tables. *)
Record Desk (E : Type) := mkDesk { desk_core : World E; repo_db : RepoDb }.
Arguments mkDesk {E} _ _.
Arguments desk_core {E} _.
Arguments repo_db {E} _.
Abbreviation D E := (M (Desk E) CoreError).

(** [str::split('-').next()]. *)
Fixpoint until_dash (s : string) : string :=
  match s with
  | EmptyString => EmptyString
  | String a s => if Ascii.eqb a "-"%char then EmptyString else String a (until_dash s)
  end.

Section Commands.
Context {E : Type} `{CoreServices E} `{!RepoServices E}.

Definition at_core {A} (m : W E A) : D E A :=
  fun s => let '(w, r) := m s.(desk_core) in (mkDesk w s.(repo_db), r).
Definition at_repos {A} (m : RepoM A) : D E A :=
  fun s => let '(d, r) := m s.(repo_db) in
           (mkDesk s.(desk_core) d, match r with Ok a => Ok a | Err e => Err (Db e) end).
Definition at_host {A} (m : AgentDb -> RepoM A) : D E A :=
  h ← gets (fun s : Desk E => s.(desk_core).(sys).(db)); at_repos (m h).

(** A blocking git call. *)
Definition git {A} (m : SysM E (result string A)) : D E A :=
  r ← at_core (call m);
  match r with Ok a => mret a | Err e => throw (Other e) end.

Definition same_path (a b : string) : bool := same_local_path windows to_lowercase a b.

Definition connect_local_repo (input : NewLocalRepo.t) : D E Repo.t :=
  let project_id := input.(NewLocalRepo.project_id) in
  info ← git (open_repo input.(NewLocalRepo.path) input.(NewLocalRepo.initialize));
  connected ← at_repos (list_for_project project_id);
  match find (fun repo => is_some_and repo.(Repo.local_path) (fun existing => same_path existing info.(toplevel))) connected with
  | Some existing => mret existing
  | None =>
      id ← at_core (call fresh_id);
      ts ← at_core (call now);
      repo ← at_host (fun host => create_local host ts id project_id info.(git_name) info.(toplevel) info.(git_default_branch));
      _ ← at_core (publish (RepoConnected repo));
      _ ← at_core (call (activity (Some repo.(Repo.project_id)) None "repo.connected"));
      mret repo
  end.

Definition list_repos (project_id : string) : D E (list Repo.t) := at_repos (list_for_project project_id).

Definition delete_repo (repo_id : string) : D E () :=
  found ← at_repos (get_repo repo_id);
  repo ← lift_opt found NotFound;
  _ ← at_repos (delete_one repo_id);
  at_core (call (activity (Some repo.(Repo.project_id)) None "repo.disconnected")).

Definition clear_project_repos (project_id : string) : D E Z :=
  removed ← at_repos (delete_for_project project_id);
  _ ← (if 0 <? removed then at_core (call (activity (Some project_id) None "repo.cleared")) else mret ());
  mret removed.

Definition get_task_repo (task_id : string) : D E (option Repo.t) :=
  link ← at_repos (get_for_task task_id);
  match link with
  | None => mret None
  | Some link => at_repos (get_repo link.(TaskRepoLink.repo_id))
  end.

Definition validate_project_repo (project_id repo_id : string) : D E Repo.t :=
  found ← at_repos (get_repo repo_id);
  repo ← lift_opt found NotFound;
  _ ← fail_when (negb (String.eqb repo.(Repo.project_id) project_id)) (Other "repository does not belong to this project");
  mret repo.

Definition read_task (task_id : string) : D E (option Task.t) := at_core (on_db (Tasks.get_task task_id)).

Definition assign_task_repo (task_id repo_id : string) : D E Repo.t :=
  found ← read_task task_id;
  task ← lift_opt found NotFound;
  repo ← validate_project_repo task.(Task.project_id) repo_id;
  link ← at_repos (get_for_task task_id);
  let replace :=
    _ ← at_host (fun host => replace_repo host task_id repo.(Repo.id));
    _ ← at_core (call (activity (Some task.(Task.project_id)) (Some task.(Task.id)) "task.repo_selected"));
    mret repo in
  match link with
  | Some link =>
      if String.eqb link.(TaskRepoLink.repo_id) repo.(Repo.id) then mret repo
      else if bool_decide (link.(TaskRepoLink.worktree_path) <> None)
      then throw (Other "cannot change repository after a task worktree has been created")
      else replace
  | None => replace
  end.

(** The linked repository, else the project's first. *)
Definition resolve_task_repo (task : Task.t) : D E Repo.t :=
  linked ← get_task_repo task.(Task.id);
  match linked with
  | Some repo => mret repo
  | None =>
      repos ← at_repos (list_for_project task.(Task.project_id));
      lift_opt (head repos) (Other "connect a repository to this project first")
  end.

Definition task_execution_backend (task : Task.t) (requested : option ExecutionBackend.t) : D E ExecutionBackend.t :=
  match requested with
  | Some requested => mret requested
  | None =>
      link ← at_repos (get_for_task task.(Task.id));
      match link with
      | Some (TaskRepoLink.mk _ _ (Some _) _ _ backend) => mret backend
      | _ =>
          policy ← attempt (at_core (call default_backend));
          mret (default ExecutionBackend.Host policy)
      end
  end.

(** A host run may go on in the clone a sandbox run made. *)
Definition reusable (link : TaskRepoLink.t) (backend : ExecutionBackend.t) : bool :=
  bool_decide (link.(TaskRepoLink.workspace_backend) = backend) ||
  (bool_decide (backend = ExecutionBackend.Host) &&
   bool_decide (link.(TaskRepoLink.workspace_backend) = ExecutionBackend.DockerSandbox)).

Definition existing_worktree (task_id : string) (backend : ExecutionBackend.t) : D E (option (string * string * string)) :=
  link ← at_repos (get_for_task task_id);
  match link with
  | Some link =>
      match link.(TaskRepoLink.worktree_path), link.(TaskRepoLink.base_ref) with
      | Some wt, Some base =>
          if reusable link backend then
            exists_ ← at_core (call (path_exists wt));
            mret (if exists_ : bool then Some (wt, default "" link.(TaskRepoLink.branch), base) else None)
          else mret None
      | _, _ => mret None
      end
  | None => mret None
  end.

Definition ensure_worktree (task : Task.t) (repo : Repo.t) (repo_path : string) (backend : ExecutionBackend.t) :
  D E (string * string * string) :=
  existing ← existing_worktree task.(Task.id) backend;
  match existing with
  | Some workspace => mret workspace
  | None =>
      let branch := "am/task-" +:+ until_dash task.(Task.id) in
      let worktree := worktree_path_for backend task.(Task.id) in
      base_ref ← git (make_worktree backend repo_path worktree branch);
      _ ← at_host (fun host => upsert_task_link host
            (TaskRepoLink.mk task.(Task.id) repo.(Repo.id) (Some worktree) (Some branch) (Some base_ref) backend));
      mret (worktree, branch, base_ref)
  end.
End Commands.
