(* ===== verification/ThreadFallback.v ===== *)
(** * Falling back and switching back (crates/am-core/src/agent_thread.rs)

    What happens to a thread whose agent hits a limit or loses the network: it
    is moved to another agent, another account or a local model, or waits; and
    how it returns to its original agent.  Each handler reads the thread, edits
    the record, saves it, and launches the next run. *)
From Stdlib Require Import Ascii String.
From S2P Require Import Prelude RustStr Json Enums Records WorkGraphDb WorkGraphInv Limits Budget SqlTable AgentDb CoreWorld.
#[local] Open Scope string_scope.
#[local] Open Scope Z_scope.

(** ** Which models fit an agent *)

Definition is_claude_model (model : string) : bool :=
  existsb (String.eqb model) ["opus"; "sonnet"; "haiku"; "fable"] || starts_with "claude-" model.

(** [matches!(bytes, [b'o', b'1'..=b'9', ..])]. *)
Definition is_o_series (model : string) : bool :=
  match model with
  | String c (String d _) => Ascii.eqb c "o"%char && (Ascii.leb "1"%char d && Ascii.leb d "9"%char)
  | _ => false
  end.

Definition is_codex_model (model : string) : bool := contains "gpt-" model || is_o_series model.

Definition fallback_backend_for_agent (agent : AgentKind.t) (backend : ExecutionBackend.t) : ExecutionBackend.t :=
  if bool_decide (backend = ExecutionBackend.DockerSandbox) && negb (bool_decide (agent = AgentKind.Codex))
  then ExecutionBackend.Host else backend.

(** [char::to_ascii_lowercase] on every byte. *)
Definition ascii_lower (a : ascii) : ascii :=
  if (Ascii.leb "A"%char a && Ascii.leb a "Z"%char) then ascii_of_nat (nat_of_ascii a + 32) else a.
Fixpoint to_ascii_lowercase (s : string) : string :=
  match s with EmptyString => EmptyString | String a s => String (ascii_lower a) (to_ascii_lowercase s) end.

Definition local_model_uses_container_localhost (target : LocalModelTarget.t) : bool :=
  let base := to_ascii_lowercase (trim
    (default (LocalModelProviderKind.default_base_url target.(LocalModelTarget.provider)) target.(LocalModelTarget.base_url))) in
  contains "://127." base || contains "://localhost" base || contains "://0.0.0.0" base ||
  starts_with "127." base || starts_with "localhost" base.

(** ** Edits of the thread record *)

(** The first fallback remembers what the thread ran on. *)
Definition remember_original (current : AgentKind.t) (t : AgentThread.t) : AgentThread.t :=
  match t.(AgentThread.original_agent) with
  | Some _ => t
  | None =>
      let t' := AgentThread.set_original_agent (Some current) t in
      let t' := AgentThread.set_original_model t.(AgentThread.model) t' in
      let t' := AgentThread.set_original_reasoning t.(AgentThread.reasoning) t' in
      let t' := AgentThread.set_original_local_provider t.(AgentThread.local_provider) t' in
      AgentThread.set_original_local_base_url t.(AgentThread.local_base_url) t'
  end.

(** An account switch remembers the agent, model and reasoning only. *)
Definition remember_original_account (current : AgentKind.t) (t : AgentThread.t) : AgentThread.t :=
  match t.(AgentThread.original_agent) with
  | Some _ => t
  | None =>
      let t' := AgentThread.set_original_agent (Some current) t in
      let t' := AgentThread.set_original_model t.(AgentThread.model) t' in
      AgentThread.set_original_reasoning t.(AgentThread.reasoning) t'
  end.

Section Edits.
Context {E : Type} `{CoreServices E}.

Definition model_compatible_with_agent (agent : AgentKind.t) (model : string) : bool :=
  let model := to_lowercase (trim model) in
  if is_empty model then true
  else match agent with
       | AgentKind.Codex => negb (is_claude_model model)
       | AgentKind.ClaudeCode => negb (is_codex_model model)
       | _ => true
       end.

Definition to_agent_fallback (current agent : AgentKind.t) (switch_back : bool) (reset_at : option Z)
  (profile : option string * option string) (thread : AgentThread.t) : AgentThread.t :=
  let thread := remember_original current thread in
  let compatible_model :=
    match thread.(AgentThread.model) with
    | Some m => if model_compatible_with_agent agent m then Some m else None
    | None => None
    end in
  let next_model := opt_or profile.1 compatible_model in
  let thread := AgentThread.set_fallback_agent (Some agent) thread in
  let thread := AgentThread.set_active_agent (Some agent) thread in
  let thread := AgentThread.set_model next_model thread in
  let thread := AgentThread.set_fallback_model next_model thread in
  let thread := AgentThread.set_reasoning profile.2 thread in
  let thread := AgentThread.set_fallback_reasoning profile.2 thread in
  let thread := AgentThread.set_local_provider None thread in
  let thread := AgentThread.set_local_base_url None thread in
  let thread := AgentThread.set_execution_backend
                  (fallback_backend_for_agent agent thread.(AgentThread.execution_backend)) thread in
  let thread := AgentThread.set_status TaskStatus.Queued thread in
  let thread := AgentThread.set_switch_back switch_back thread in
  let thread := AgentThread.set_limit_reset_at reset_at thread in
  AgentThread.set_handoff_state "fallback_active" thread.
End Edits.

Definition to_account_fallback (current : AgentKind.t) (next : AccountRuntime.t) (profile : option string * option string)
  (thread : AgentThread.t) : AgentThread.t :=
  let thread := remember_original_account current thread in
  let thread := AgentThread.set_active_agent (Some next.(AccountRuntime.agent)) thread in
  let thread := AgentThread.set_fallback_agent (Some next.(AccountRuntime.agent)) thread in
  let thread := AgentThread.set_model profile.1 thread in
  let thread := AgentThread.set_fallback_model profile.1 thread in
  let thread := AgentThread.set_reasoning profile.2 thread in
  let thread := AgentThread.set_fallback_reasoning profile.2 thread in
  let thread := AgentThread.set_status TaskStatus.Queued thread in
  let thread := AgentThread.set_handoff_state "account_fallback_active" thread in
  AgentThread.set_limit_reset_at None thread.

Definition to_local_fallback (current : AgentKind.t) (target : LocalModelTarget.t) (policy : LocalModelPolicy.t)
  (thread : AgentThread.t) : AgentThread.t :=
  let thread := remember_original current thread in
  let thread :=
    if bool_decide (thread.(AgentThread.execution_backend) = ExecutionBackend.DockerSandbox) &&
       local_model_uses_container_localhost target
    then AgentThread.set_execution_backend ExecutionBackend.Host thread else thread in
  let thread := AgentThread.set_fallback_agent (Some AgentKind.Codex) thread in
  let thread := AgentThread.set_fallback_model (Some target.(LocalModelTarget.model)) thread in
  let thread := AgentThread.set_fallback_reasoning None thread in
  let thread := AgentThread.set_fallback_local_provider (Some target.(LocalModelTarget.provider)) thread in
  let thread := AgentThread.set_fallback_local_base_url target.(LocalModelTarget.base_url) thread in
  let thread := AgentThread.set_active_agent (Some AgentKind.Codex) thread in
  let thread := AgentThread.set_model (Some target.(LocalModelTarget.model)) thread in
  let thread := AgentThread.set_reasoning None thread in
  let thread := AgentThread.set_local_provider (Some target.(LocalModelTarget.provider)) thread in
  let thread := AgentThread.set_local_base_url target.(LocalModelTarget.base_url) thread in
  let thread := AgentThread.set_status TaskStatus.Queued thread in
  let thread := AgentThread.set_switch_back policy.(LocalModelPolicy.switch_back_to_cloud) thread in
  let thread := AgentThread.set_switch_back_pending false thread in
  AgentThread.set_handoff_state "local_fallback_active" thread.

(** Forget the fallback and what it remembered. *)
Definition forget_fallback (thread : AgentThread.t) : AgentThread.t :=
  let thread := AgentThread.set_fallback_agent None thread in
  let thread := AgentThread.set_fallback_model None thread in
  let thread := AgentThread.set_fallback_reasoning None thread in
  let thread := AgentThread.set_fallback_local_provider None thread in
  let thread := AgentThread.set_fallback_local_base_url None thread in
  let thread := AgentThread.set_original_agent None thread in
  let thread := AgentThread.set_original_model None thread in
  let thread := AgentThread.set_original_reasoning None thread in
  let thread := AgentThread.set_original_local_provider None thread in
  let thread := AgentThread.set_original_local_base_url None thread in
  AgentThread.set_switch_back_pending false thread.

(** Put back what was remembered. *)
Definition restore_original (thread : AgentThread.t) : AgentThread.t :=
  let thread := AgentThread.set_model thread.(AgentThread.original_model) thread in
  let thread := AgentThread.set_reasoning thread.(AgentThread.original_reasoning) thread in
  let thread := AgentThread.set_local_provider thread.(AgentThread.original_local_provider) thread in
  AgentThread.set_local_base_url thread.(AgentThread.original_local_base_url) thread.

(** The return once the network is back. *)
Definition back_to_cloud (current : AgentKind.t) (thread : AgentThread.t) : AgentThread.t :=
  let agent := default current thread.(AgentThread.original_agent) in
  let had_original := if thread.(AgentThread.original_agent) is Some _ then true else false in
  let thread := AgentThread.set_active_agent (Some agent) thread in
  let thread := if had_original then restore_original thread else thread in
  let thread := forget_fallback thread in
  let thread := AgentThread.set_status TaskStatus.Queued thread in
  AgentThread.set_handoff_state "network_restored" thread.

(** The return after a completed run once the limit is over. *)
Definition switch_back_to (original : AgentKind.t) (thread : AgentThread.t) : AgentThread.t :=
  let thread := AgentThread.set_active_agent (Some original) thread in
  let thread := restore_original thread in
  let thread := forget_fallback thread in
  let thread := AgentThread.set_limit_reset_at None thread in
  AgentThread.set_handoff_state "resolved" thread.

Definition wait_for_reset (reset_at : option Z) (state : string) (thread : AgentThread.t) : AgentThread.t :=
  let thread := AgentThread.set_status TaskStatus.WaitingForLimit thread in
  let thread := AgentThread.set_limit_reset_at reset_at thread in
  AgentThread.set_handoff_state state thread.

(** ** Handlers *)
Section Handlers.
Context {V : Type} `{Json V} `{!BudgetSerde V} {E : Type} `{CoreServices E}.

Definition read_thread (id : string) : W E (option AgentThread.t) := on_db (Threads.get_thread (V:=V) id).

Definition save_thread (thread : AgentThread.t) : W E AgentThread.t :=
  ts ← call now;
  on_db (Threads.save (V:=V) ts thread).

(** [let Ok(Some(mut thread)) = get(..) else { return };] *)
Definition with_thread (id : string) (k : AgentThread.t -> W E ()) : W E () :=
  found ← attempt (read_thread id);
  match found with
  | Some (Some thread) => k thread
  | _ => mret ()
  end.

(** [if let Ok(saved) = save(..) { publish(..); k }]. *)
Definition save_and (thread : AgentThread.t) (k : AgentThread.t -> W E ()) : W E () :=
  saved ← attempt (save_thread thread);
  match saved with
  | Some saved => _ ← publish (AgentThreadUpdated saved); k saved
  | None => mret ()
  end.

Definition target_profile (agent : AgentKind.t) : W E (option string * option string) :=
  policy ← unwrap_or get_limit_policy default_limit_policy;
  mret (agent_target_profile policy agent).

Definition fallback_decision (current : AgentKind.t) (reset_at : option Z) : W E FallbackDecision :=
  statuses ← call detect_agents;
  policy ← unwrap_or get_limit_policy default_limit_policy;
  mret (decide_fallback (fallback_of policy) current statuses reset_at).

Definition provider_accounts_configured : W E bool :=
  policy ← attempt (call get_limit_policy);
  mret (match policy with Some p => negb (bool_decide (p.(LimitPolicy.accounts) = [])) | None => false end).

Definition known_limited_agent_reset (agent : AgentKind.t) : W E (option (option Z)) :=
  record ← call (agent_record agent);
  ts ← call now;
  mret (match record with
        | None => None
        | Some record =>
            if negb (bool_decide (record.(AgentRecord.availability) = AvailabilityState.Limited)) then None
            else if is_some_and record.(AgentRecord.reset_at) (fun reset_at => reset_at <=? ts) then None
            else Some record.(AgentRecord.reset_at)
        end).

Definition queue_known_limited_message (thread_id : string) (agent : AgentKind.t) (permission : string)
  (message : option PendingThreadMessage.t) (policy_envelope_id : option string) : W E (option string) :=
  match message with
  | None => mret None
  | Some message =>
      let text := trim message.(PendingThreadMessage.text) in
      if is_empty text then mret None
      else
        queued ← call (enqueue_turn thread_id agent permission text policy_envelope_id
                         message.(PendingThreadMessage.echo_user_message) message.(PendingThreadMessage.client_message_id));
        mret (Some queued.(QueuedTurn.id))
  end.

Definition start_thread_local_fallback (thread_id : string) (current : AgentKind.t) (target : LocalModelTarget.t)
  (policy : LocalModelPolicy.t) : W E () :=
  with_thread thread_id (fun thread =>
    active ← is_active thread_id;
    if (active : bool) then
      _ ← attempt (save_thread (AgentThread.set_switch_back_pending true thread)); mret ()
    else
      let thread := to_local_fallback current target policy thread in
      _ ← save_and thread (fun saved => note saved.(AgentThread.project_id) None "thread.local_fallback_started");
      spawn_thread thread_id AgentKind.Codex (parse_permission thread.(AgentThread.permission)) None).

Definition resume_thread_cloud_after_network (thread_id : string) (current : AgentKind.t) (activity_kind : string) : W E () :=
  with_thread thread_id (fun thread =>
    active ← is_active thread_id;
    if (active : bool) then
      save_and (AgentThread.set_switch_back_pending true thread) (fun _ => mret ())
    else
      let agent := default current thread.(AgentThread.original_agent) in
      let thread := back_to_cloud current thread in
      _ ← save_and thread (fun saved => note saved.(AgentThread.project_id) None activity_kind);
      spawn_thread thread_id agent (parse_permission thread.(AgentThread.permission)) None).

Definition start_thread_account_fallback (thread_id : string) (current : AgentKind.t) (next : AccountRuntime.t) : W E () :=
  with_thread thread_id (fun thread =>
    profile ← target_profile next.(AccountRuntime.agent);
    let thread := to_account_fallback current next profile thread in
    save_and thread (fun saved =>
      _ ← note saved.(AgentThread.project_id) None "thread.account_switched";
      spawn_thread thread_id next.(AccountRuntime.agent) (parse_permission thread.(AgentThread.permission)) None)).

Definition start_thread_fallback (thread_id : string) (current : AgentKind.t) (current_account_id : option string)
  (reset_at : option Z) : W E () :=
  configured ← provider_accounts_configured;
  if (configured : bool) then
    policy ← attempt (call get_limit_policy);
    let auto_switch := from_option LimitPolicy.auto_switch true policy in
    next ← (if auto_switch then attempt (call (next_ready_provider_account current_account_id)) else mret None);
    match next with
    | Some (Some next) => start_thread_account_fallback thread_id current next
    | _ =>
        own ← match current_account_id with
              | Some id => attempt (call (provider_account_reset id))
              | None => mret None
              end;
        let own_reset := mjoin (mjoin own) in
        reset_at ← (if auto_switch then
                      earliest ← attempt (call earliest_provider_account_reset); mret (opt_or (mjoin earliest) reset_at)
                    else mret (opt_or own_reset reset_at));
        with_thread thread_id (fun thread =>
          save_and (wait_for_reset reset_at (if auto_switch then "waiting_for_account" else "waiting_for_reset") thread)
            (fun _ => mret ()))
    end
  else
    decision ← attempt (fallback_decision current reset_at);
    match decision with
    | None => mret ()
    | Some (Switch agent switch_back) =>
        with_thread thread_id (fun thread =>
          profile ← target_profile agent;
          let thread := to_agent_fallback current agent switch_back reset_at profile thread in
          _ ← save_and thread (fun saved => note saved.(AgentThread.project_id) None "thread.fallback_started");
          spawn_thread thread_id agent (parse_permission thread.(AgentThread.permission)) None)
    | Some (Wait reset_at) =>
        local_policy ← unwrap_or get_local_model_policy default_local_model_policy;
        local ← attempt (call (best_ready_local_target local_policy));
        match local with
        | Some (Some target) => start_thread_local_fallback thread_id current target local_policy
        | _ =>
            with_thread thread_id (fun thread =>
              save_and (wait_for_reset reset_at "waiting_for_reset" thread)
                (fun saved => note saved.(AgentThread.project_id) None "thread.fallback_waiting"))
        end
    | Some Disabled =>
        with_thread thread_id (fun thread => note thread.(AgentThread.project_id) None "thread.fallback_disabled")
    end.

(** A run awaited by its caller. *)
Definition run_thread (thread_id : string) (agent : AgentKind.t) (permission : PermissionPolicy.t)
  (message : option PendingThreadMessage.t) : W E string :=
  _ ← launched (RunThread thread_id agent permission message);
  call (run_agent_thread thread_id agent permission message).

(** Refused before the start because the agent is known to be limited. *)
Definition start_known_limited_thread_fallback (thread : AgentThread.t) (current : AgentKind.t)
  (permission : PermissionPolicy.t) (message : option PendingThreadMessage.t) (reset_at : option Z)
  (policy_envelope_id : option string) : W E string :=
  let thread_id := thread.(AgentThread.id) in
  let queue := queue_known_limited_message thread_id current (permission_to_string permission) message policy_envelope_id in
  (** save, publish, record the activity; every error is returned *)
  let settle (thread : AgentThread.t) (kind : string) : W E () :=
    saved ← save_thread thread;
    _ ← publish (AgentThreadUpdated saved);
    call (activity saved.(AgentThread.project_id) None kind) in
  _ ← call (activity thread.(AgentThread.project_id) None "thread.agent_limited");
  decision ← fallback_decision current reset_at;
  match decision with
  | Switch agent switch_back =>
      profile ← target_profile agent;
      _ ← settle (to_agent_fallback current agent switch_back reset_at profile thread) "thread.fallback_started";
      run_thread thread_id agent permission message
  | Wait decided_reset =>
      local_policy ← unwrap_or get_local_model_policy default_local_model_policy;
      local ← (if is_unlimited thread.(AgentThread.task_budget)
               then attempt (call (best_ready_local_target local_policy)) else mret None);
      match local with
      | Some (Some target) =>
          queued_id ← queue;
          _ ← start_thread_local_fallback thread_id current target local_policy;
          mret (default thread_id queued_id)
      | _ =>
          queued_id ← queue;
          _ ← settle (wait_for_reset decided_reset "waiting_for_reset" thread) "thread.fallback_waiting";
          mret (default thread_id queued_id)
      end
  | Disabled =>
      queued_id ← queue;
      _ ← settle (wait_for_reset reset_at "waiting_for_reset" thread) "thread.fallback_disabled";
      mret (default thread_id queued_id)
  end.

Definition handle_thread_network_loss (thread_id : string) (current : AgentKind.t) : W E () :=
  policy ← unwrap_or get_local_model_policy default_local_model_policy;
  online ← (if policy.(LocalModelPolicy.auto_resume_cloud) then
              probe ← try_ (call (cloud_connectivity_stable policy));
              match probe with
              | Ok online => mret (online : bool)
              | Err _ => _ ← note None None "thread.network_probe_failed"; mret false
              end
            else mret false);
  if (online : bool) then resume_thread_cloud_after_network thread_id current "network.restored"
  else if policy.(LocalModelPolicy.use_local_fallback) then
    local ← try_ (call (best_ready_local_target policy));
    match local with
    | Ok (Some target) => start_thread_local_fallback thread_id current target policy
    | Ok None => note None None "thread.network_waiting"
    | Err _ => note None None "thread.local_fallback_failed"
    end
  else mret ().

Definition account_ready_for (agent : AgentKind.t) (status : ProviderAccountStatus.t) : bool :=
  bool_decide (status.(ProviderAccountStatus.account).(ProviderAccount.agent) = agent) &&
  status.(ProviderAccountStatus.account).(ProviderAccount.enabled) && status.(ProviderAccountStatus.authenticated) &&
  negb (bool_decide (status.(ProviderAccountStatus.availability) = AvailabilityState.Limited)).

(** After a completed run: return to the original agent, or mark the return pending. *)
Definition maybe_mark_thread_switchback_ready (thread_id : string) : W E () :=
  with_thread thread_id (fun thread =>
    match thread.(AgentThread.original_agent) with
    | None => mret ()
    | Some original =>
        if negb thread.(AgentThread.switch_back) then mret ()
        else
          configured ← provider_accounts_configured;
          original_ready ← (if (configured : bool) then
                              statuses ← attempt (call provider_account_statuses);
                              mret (existsb (account_ready_for original) (default [] statuses))
                            else mret true);
          if negb original_ready then save_and (AgentThread.set_switch_back_pending true thread) (fun _ => mret ())
          else if thread.(AgentThread.fallback_local_provider) is Some _ then
            policy ← unwrap_or get_local_model_policy default_local_model_policy;
            if negb policy.(LocalModelPolicy.switch_back_to_cloud) then mret ()
            else
              probe ← attempt (call (cloud_connectivity_stable policy));
              match probe with
              | Some true => resume_thread_cloud_after_network thread_id original "thread.local_switchback_started"
              | Some false =>
                  let thread := AgentThread.set_switch_back_pending true thread in
                  let thread := AgentThread.set_status TaskStatus.WaitingForNetwork thread in
                  save_and (AgentThread.set_handoff_state "local_fallback_waiting_for_cloud" thread) (fun _ => mret ())
              | None => mret ()
              end
          else
            ts ← call now;
            if is_some_and thread.(AgentThread.limit_reset_at) (fun reset_at => ts <? reset_at) then mret ()
            else
              _ ← note thread.(AgentThread.project_id) None "thread.switchback_started";
              save_and (switch_back_to original thread) (fun _ =>
                note thread.(AgentThread.project_id) None "thread.switchback_completed")
    end).

(** What the supervision of a session has seen when it ends. *)
Record SessionEnd := mkSessionEnd {
  usage_budget : TaskBudget.t;
  saw_token_telemetry : bool;
  saw_final_weekly_telemetry : bool;
  budget_exhausted : bool;
  budget_state_invalid : bool;
  budget_accounting_failed : bool;
  saw_network_loss : bool;
  saw_usage_limit : bool;
  credit_redeemed : bool;
  completed_ok : bool;
  provider_account_id : option string;
  limit_reset_at : option Z
}.

Definition budget_telemetry_complete (o : SessionEnd) : bool :=
  match o.(usage_budget) with
  | TaskBudget.Unlimited => true
  | TaskBudget.Tokens _ => o.(saw_token_telemetry)
  | TaskBudget.WeeklyPercent _ => o.(saw_final_weekly_telemetry)
  end.

(** The budgets under which nothing continues by itself. *)
Definition budget_blocks (o : SessionEnd) : bool :=
  o.(budget_exhausted) ||
  (negb (is_unlimited o.(usage_budget)) &&
   (negb (budget_telemetry_complete o) || o.(budget_state_invalid) || o.(budget_accounting_failed))).

(** The end of [run_agent_thread_inner]'s supervision: what runs next. *)
Definition after_session (thread_id : string) (agent : AgentKind.t) (o : SessionEnd) : W E () :=
  if budget_blocks o then mret ()
  else if o.(saw_network_loss) && negb (is_unlimited o.(usage_budget)) then mret ()
  else if o.(saw_network_loss) then handle_thread_network_loss thread_id agent
  else if o.(saw_usage_limit) then
    if is_percentage_budget o.(usage_budget) then mret ()
    else if o.(credit_redeemed) then
      with_thread thread_id (fun thread =>
        let thread := AgentThread.set_status TaskStatus.Queued thread in
        let thread := AgentThread.set_handoff_state "credit_reset_redeemed" thread in
        _ ← save_and thread (fun _ => mret ());
        spawn_thread thread_id agent (parse_permission thread.(AgentThread.permission)) None)
    else start_thread_fallback thread_id agent o.(provider_account_id) o.(limit_reset_at)
  else
    _ ← (if o.(completed_ok) then maybe_mark_thread_switchback_ready thread_id else mret ());
    next ← attempt (call (pop_queued_turn thread_id));
    match next with
    | Some (Some next) =>
        thread ← attempt (read_thread thread_id);
        let next_agent := default next.(QueuedTurn.agent_kind) (mjoin thread ≫= AgentThread.active_agent) in
        spawn_thread thread_id next_agent (parse_permission next.(QueuedTurn.permission))
          (Some (PendingThreadMessage.from_queued next))
    | _ => mret ()
    end.
End Handlers.
