(* ===== verification/TaskTexts.v ===== *)
(** * The texts of a task

    What a provider's event becomes in the transcript of a task's session and the
    prompts of a run (crates/am-core/src/orchestrate.rs), the identity of a run's
    target (local_models.rs), and the rendering of a task's context and handoffs
    (task_context.rs).  The shape is that of [ThreadText], which holds the common
    string functions and their lemmas. *)
From stdpp Require Import pretty.
From Stdlib Require Import Ascii String.
From S2P Require Import Prelude RustStr Json Enums Records Limits ThreadText CoreWorld ThreadFallback.
#[local] Open Scope string_scope.
#[local] Open Scope Z_scope.

(** ** The identity of a run's target (local_models.rs) *)

Definition FNV_OFFSET : Z := 14695981039346656037.
Definition FNV_PRIME : Z := 1099511628211.
Definition fnv_step (hash byte : Z) : Z := (Z.lxor hash byte * FNV_PRIME) mod 2 ^ 64.

Fixpoint fnv (hash : Z) (value : string) : Z :=
  match value with
  | EmptyString => hash
  | String a value => fnv (fnv_step hash (Z.of_nat (nat_of_ascii a))) value
  end.

Definition hex_digit (d : Z) : ascii := ascii_of_nat (Z.to_nat (if d <? 10 then 48 + d else 87 + d)).
(** [digits] hexadecimal digits, the highest first. *)
Fixpoint hex (digits : nat) (n : Z) : string :=
  match digits with
  | O => EmptyString
  | S digits => String (hex_digit (Z.land (Z.shiftr n (4 * Z.of_nat digits)) 15)) (hex digits n)
  end.

Definition stable_hex_hash (value : string) : string := hex 16 (fnv FNV_OFFSET value).

Definition clean_identity_part (value : option string) : string :=
  to_ascii_lowercase
    (match value with
     | Some value => if is_empty (trim value) then "-" else trim value
     | None => "-"
     end).

Definition legacy_identity (agent : AgentKind.t) (model reasoning : option string)
  (local_provider : option LocalModelProviderKind.t) (local_base_url : option string) : string :=
  "agent=" +:+ AgentKind.as_str agent +:+ "|model=" +:+ clean_identity_part model +:+ "|reasoning=" +:+
  clean_identity_part reasoning +:+ "|local_provider=" +:+ from_option LocalModelProviderKind.as_str "cloud" local_provider +:+
  "|local_base_url=" +:+ clean_identity_part local_base_url.

Definition run_target_hash (agent : AgentKind.t) (model reasoning : option string)
  (local_provider : option LocalModelProviderKind.t) (local_base_url : option string)
  (execution_backend : ExecutionBackend.t) (model_target : ModelTargetKind.t) (compute_lease_id : option string) : string :=
  stable_hex_hash
    (legacy_identity agent model reasoning local_provider local_base_url +:+
     "|backend=" +:+ ExecutionBackend.as_str execution_backend +:+ "|model_target=" +:+ ModelTargetKind.as_str model_target +:+
     "|compute_lease_id=" +:+ clean_identity_part compute_lease_id).

Definition legacy_run_target_hash (agent : AgentKind.t) (model reasoning : option string)
  (local_provider : option LocalModelProviderKind.t) (local_base_url : option string) : string :=
  stable_hex_hash (legacy_identity agent model reasoning local_provider local_base_url).

Definition target_hash_matches (stored : option string) (current legacy_current : string) : bool :=
  match stored with
  | Some hash => String.eqb hash current || String.eqb hash legacy_current
  | None => String.eqb legacy_current current
  end.

Definition normalize_model_target (target : ModelTargetKind.t) (local_provider : option LocalModelProviderKind.t) :
  ModelTargetKind.t :=
  if bool_decide (target = ModelTargetKind.FrontierDefault) && bool_decide (is_Some local_provider)
  then ModelTargetKind.LocalProvider else target.

(** The hashes of a run: those of the target, or one hash of the target and the
    profile of the account, since a provider's session lives in one profile. *)
Definition run_hashes (agent : AgentKind.t) (model : option string) (backend : ExecutionBackend.t)
  (model_target : ModelTargetKind.t) (compute_lease_id profile : option string) : string * string :=
  let target_hash := run_target_hash agent model None None None backend model_target compute_lease_id in
  match profile with
  | Some profile =>
      let hash := stable_hex_hash (target_hash +:+ "|account=" +:+ profile) in (hash, hash)
  | None => (target_hash, legacy_run_target_hash agent model None None None)
  end.

(** ** Prompts (orchestrate.rs) *)

Definition build_prompt (task : Task.t) : string :=
  task.(Task.title) +:+
  (match task.(Task.description) with
   | Some desc => if is_empty (trim desc) then "" else newline +:+ newline +:+ desc
   | None => ""
   end) +:+
  newline +:+ newline +:+ "Before making changes, read TASK_CONTEXT.md and the agent-specific context file in this worktree for the current objective, progress, and next actions. These Perpetual context files are routine session setup, so there is no need to announce that you are checking them. Share any findings, blockers, or decisions from them when relevant to the user.".

Definition build_resume_prompt (task : Task.t) : string :=
  "Continue the Perpetual task " +:+ double_quote +:+ task.(Task.title) +:+ double_quote +:+ " in this worktree. Read TASK_CONTEXT.md and the agent-specific context file first, then proceed from the recorded progress and next actions. Checking these Perpetual context files is routine session setup; focus user-facing updates on relevant progress, findings, and blockers.".

Definition build_followup_prompt (message : string) : string := message.

Definition run_prompt (task : Task.t) (message : option string) (resumed : bool) : string :=
  match message, resumed with
  | Some msg, true => build_followup_prompt msg
  | Some msg, false => build_prompt task +:+ newline +:+ newline +:+ msg
  | None, true => build_resume_prompt task
  | None, false => build_prompt task
  end.

(** ** Events of the transcript (orchestrate.rs) *)

Module Detail.
Definition MAX_EVENT_DETAIL_CHARS : nat := 2000.

Definition truncate_chars (value : string) (max_chars : nat) : string :=
  if (char_count value <=? max_chars)%nat then value
  else take_chars max_chars value +:+ newline +:+ newline +:+ "[details truncated]".

Definition compact_event_detail (value : string) : string :=
  let first_line := default "" (find (fun line => negb (is_empty (trim line))) (lines value)) in
  let compact := if is_empty (trim first_line) then "Completed" else trim first_line in
  truncate_chars compact 160.

Definition capped_event_detail (value : string) : string := truncate_chars value MAX_EVENT_DETAIL_CHARS.

Definition change_label (change : ChangeKind) : string :=
  match change with Created => "Created" | Modified => "Edited" | Deleted => "Deleted" end.
End Detail.

Section Events.
Context {V : Type} `{Json V} `{Chrono}.

(** [id] and [ts] are [new_id()] and [now()]. *)
Definition map_event (id : string) (ts : Z) (session_id task_id : string) (ev : NormalizedEvent V) : SessionEvent.t V :=
  let '(role, kind, text, data) :=
    match ev with
    | SessionStarted session_id => ("system", "session_started", None, json_object [("agent_session_id", json_str session_id)])
    | AssistantText text => ("assistant", "assistant_text", Some text, json_object [])
    | AssistantTextDelta delta => ("assistant", "assistant_text", Some delta, json_object [("streaming", json_bool true)])
    | ToolUse call_id name input => ("tool", "tool_use", Some name, json_object [("input", input); ("call_id", json_opt call_id)])
    | ToolResult call_id ok summary =>
        ("tool", "tool_result", Some (Detail.compact_event_detail summary),
         json_object [("ok", json_bool ok); ("summary", json_str (Detail.capped_event_detail summary)); ("call_id", json_opt call_id)])
    | FileChanged path change =>
        ("app", "file_changed", Some (Detail.change_label change +:+ " " +:+ path), json_object [("change", json_str (change_wire change))])
    | TokenUsage input output =>
        ("system", "token_usage", Some ("Token usage: " +:+ pretty input +:+ " in / " +:+ pretty output +:+ " out"),
         json_object [("input", json_num input); ("output", json_num output)])
    | QuotaWindow _ _ _ _ => ("system", "quota_window", None, json_object [])
    | AwaitingApproval detail => ("system", "awaiting_approval", Some detail, json_object [])
    | UsageLimitReached reset_at => ("system", "usage_limit", Some "Usage limit reached", json_object [("reset_at", json_time reset_at)])
    | NetworkUnavailable message => ("system", "network_unavailable", Some message, json_object [])
    | ErrorEvent message retryable => ("system", "error", Some message, json_object [("retryable", json_bool retryable)])
    | SessionEnded status => ("system", "session_ended", Some (status_debug status), json_object [("status", json_str (status_wire status))])
    end in
  SessionEvent.mk V id session_id task_id role kind text data ts.
End Events.

(** ** The context file (task_context.rs) *)

Definition MANAGED_START : string := "<!-- Perpetual task context start -->".
Definition MANAGED_END : string := "<!-- Perpetual task context end -->".

Definition clean_value (value : string) : string :=
  replace MANAGED_END "[Perpetual task context end]" (replace MANAGED_START "[Perpetual task context start]" value).

(** What is pushed for one section. *)
Definition context_section (title value : string) : string :=
  let value := trim (clean_value value) in
  "## " +:+ title +:+ newline +:+ (if is_empty value then "None recorded." else value) +:+ newline +:+ newline.

Section Rendering.
Context `{Chrono}.

Definition render_context (context : TaskContext.t) : string :=
  "# Perpetual Task Context" +:+ newline +:+ newline +:+
  "This file is generated by Perpetual from the task context record." +:+ newline +:+ newline +:+
  "Task: " +:+ clean_value context.(TaskContext.task_id) +:+ newline +:+
  "Updated: " +:+ to_rfc3339 context.(TaskContext.updated_at) +:+ newline +:+ newline +:+
  context_section "Objective" context.(TaskContext.objective) +:+
  context_section "Requirements" context.(TaskContext.requirements) +:+
  context_section "Decisions" context.(TaskContext.decisions) +:+
  context_section "Progress" context.(TaskContext.progress) +:+
  context_section "Open Questions" context.(TaskContext.open_questions) +:+
  context_section "Next Actions" context.(TaskContext.next_actions).

Definition managed_context_block (context : TaskContext.t) : string :=
  MANAGED_START +:+ newline +:+ render_context context +:+ MANAGED_END +:+ newline.
End Rendering.

Definition merge_managed_block (existing block : string) : string :=
  merge_block MANAGED_START MANAGED_END (fun e => is_empty (trim e)) existing block.

(** What [write_context_file] leaves in a file that holds [existing], and whether it
    writes. *)
Definition write_context_file (existing block : string) (replace_all : bool) : string * bool :=
  let content := if replace_all then block else merge_managed_block existing block in
  (content, negb (String.eqb existing content)).

(** ** Handoff notes (task_context.rs) *)
Module Handoff.
Definition MAX_HANDOFF_PROGRESS_BYTES : Z := 16 * 1024.
Definition MAX_HANDOFF_TEXT_CHARS : nat := 2000.
Definition MAX_CHANGED_FILES : nat := 12.

Definition status_label (status : SessionStatus) : string :=
  match status with Completed => "completed" | Interrupted => "interrupted" | Failed => "failed" end.

(** The loop takes up to [max_chars] characters, and marks a rest. *)
Definition truncate_text (value : string) (max_chars : nat) : string :=
  let value := trim value in
  let out := take_chars max_chars value in
  if (String.length out <? String.length value)%nat then out +:+ newline +:+ "[truncated]" else out.

Definition quote_text (text : string) : string :=
  concat_str ((fun line => "> " +:+ line +:+ newline) <$> lines text).

Definition changed_files (files : list FileChange.t) : string :=
  match files with
  | [] => "- Changed files: none detected." +:+ newline
  | _ =>
      "- Changed files:" +:+ newline +:+
      concat_str ((fun file => "  - " +:+ file.(FileChange.path) +:+ " (" +:+ file.(FileChange.status) +:+ ", +" +:+
        pretty file.(FileChange.additions) +:+ "/-" +:+ pretty file.(FileChange.deletions) +:+ ")" +:+ newline)
        <$> take MAX_CHANGED_FILES files) +:+
      (if (MAX_CHANGED_FILES <? length files)%nat
       then "  - ... " +:+ pretty (Z.of_nat (length files - MAX_CHANGED_FILES)) +:+ " more file(s)" +:+ newline else "")
  end.

Definition append_handoff : string -> string -> string := append_bounded MAX_HANDOFF_PROGRESS_BYTES.

Section Notes.
Context {V : Type} `{Chrono}.

Definition latest_event_text (events : list (SessionEvent.t V)) (kind : string) : option string :=
  text ← mbind SessionEvent.text (find (fun event => String.eqb event.(SessionEvent.kind) kind) (reverse events));
  let text := trim text in
  if is_empty text then None else Some text.
Definition latest_assistant_text (events : list (SessionEvent.t V)) : option string :=
  latest_event_text events "assistant_text".

(** [label: text], on one line. *)
Definition detail_line (label : string) (text : option string) : string :=
  match text with
  | Some text => "- " +:+ label +:+ ": " +:+ newlines_to_spaces (truncate_text text MAX_HANDOFF_TEXT_CHARS) +:+ newline
  | None => ""
  end.

Definition build_handoff_summary (agent : AgentKind.t) (status : SessionStatus) (ts : Z)
  (events : list (SessionEvent.t V)) (diff : list FileChange.t) (diff_error : option string) : string :=
  trim_end
    ("### Handoff " +:+ to_rfc3339 ts +:+ " (" +:+ status_label status +:+ ")" +:+ newline +:+
     "- Agent: " +:+ AgentKind.label agent +:+ newline +:+
     "- Status: " +:+ status_label status +:+ newline +:+
     changed_files diff +:+
     detail_line "Diff note" diff_error +:+
     detail_line "Usage limit" (latest_event_text events "usage_limit") +:+
     detail_line "Last error" (latest_event_text events "error") +:+
     newline +:+
     (match latest_assistant_text events with
      | Some text => "Recent assistant output:" +:+ newline +:+ quote_text (truncate_text text MAX_HANDOFF_TEXT_CHARS)
      | None => "Recent assistant output: none captured." +:+ newline
      end)).

Definition next_actions_for (status : SessionStatus) (events : list (SessionEvent.t V)) : string :=
  match status with
  | Completed => "Review the worktree diff, run the relevant validation, and mark the task done or resume if more changes are needed."
  | Interrupted =>
      match latest_event_text events "usage_limit" with
      | Some _ => "Continue after the provider limit resets, or switch to another ready agent using the same worktree and context."
      | None => "Resume the task from the same worktree and context."
      end
  | Failed =>
      match latest_event_text events "error" with
      | Some error => "Investigate the last failure (" +:+ newlines_to_spaces (truncate_text error 300) +:+ "), then resume from the same worktree and context."
      | None => "Inspect the failed session, fix the blocker, then resume from the same worktree and context."
      end
  end.
End Notes.
End Handoff.

(** ** The block of a task's context stays apart from the file's own text *)

Lemma clean_value_free v : contains MANAGED_END (clean_value v) = false.
Proof.
  apply (replace_free MANAGED_END _ "["%char "Perpetual task context end]"); [done..|].
  intros t. by apply (contains_skip _ _ "<"%char "!-- Perpetual task context end -->").
Qed.

Abbreviation unmarked s := (contains MANAGED_END s = false).

Lemma unmarked_line X Y : unmarked X -> unmarked Y -> unmarked (X +:+ newline +:+ Y).
Proof.
  intros HX HY. change (X +:+ newline +:+ Y) with (X +:+ String "010" Y). by rewrite contains_around, HX, HY by done.
Qed.

Lemma unmarked_after X Y : has_char "<" X = false -> unmarked Y -> unmarked (X +:+ Y).
Proof. intros HX HY. by rewrite (contains_skip _ _ "<"%char "!-- Perpetual task context end -->"). Qed.

Lemma unmarked_suffix X Y : unmarked (X +:+ Y) -> unmarked Y.
Proof.
  induction X as [|a X IH]; [done|]. change (String a X +:+ Y) with (String a (X +:+ Y)). rewrite contains_cons.
  intros [_ Hr]%orb_false_iff. auto.
Qed.

Lemma unmarked_trim s : unmarked s -> unmarked (trim s).
Proof.
  intros Hs. unfold trim. apply free_trim_end; [done|]. unfold trim_start.
  destruct (trim_with_suffix (String.length s) white_space s) as [w Hw]. rewrite Hw in Hs. by eapply unmarked_suffix.
Qed.

Lemma unmarked_section title value : has_char "<" title = false -> forall Y, unmarked Y -> unmarked (context_section title value +:+ Y).
Proof.
  intros Ht Y HY. unfold context_section. set (v := trim (clean_value value)).
  assert (unmarked (if is_empty v then "None recorded." else v)) as Hv
    by (destruct (is_empty v); [done|apply unmarked_trim, clean_value_free]).
  rewrite !app_assoc_str. apply (unmarked_after "## "); [done|]. apply unmarked_line; [|].
  { rewrite <- (app_empty_str title). by apply unmarked_after. }
  apply unmarked_line; [exact Hv|]. by apply (unmarked_line EmptyString).
Qed.

Section Managed.
Context `{Chrono}.
(** The text of an instant has no marker in it. *)
Hypothesis plain_time : forall ts, unmarked (to_rfc3339 ts).

Lemma render_unmarked c : unmarked (render_context c).
Proof.
  unfold render_context. apply unmarked_line; [done|]. apply (unmarked_line EmptyString); [done|].
  apply unmarked_line; [done|]. apply (unmarked_line EmptyString); [done|].
  apply unmarked_after; [done|]. apply unmarked_line; [apply clean_value_free|].
  apply unmarked_after; [done|]. apply unmarked_line; [apply plain_time|]. apply (unmarked_line EmptyString); [done|].
  do 5 (apply unmarked_section; [done|]).
  rewrite <- (app_empty_str (context_section _ _)). by apply unmarked_section.
Qed.

(** Rendering a task's context into the instruction files of its worktree
    keeps what the repository wrote: the new file is the old one with only the
    marked block exchanged (and one line end after it), the block put in front
    when there is none.  Whatever the fields of the contexts hold, the markers
    included, the next rendering exchanges exactly that block, and rendering the
    same context again writes nothing. *)
Theorem managed_block_preserves e :
  (exists pre rest, exchanges MANAGED_START MANAGED_END (fun e => is_empty (trim e))
     (fun e c => merge_managed_block e (managed_context_block c)) managed_context_block e pre rest) /\
  (forall c, let file := merge_managed_block e (managed_context_block c) in
             write_context_file file (managed_context_block c) false = (file, false)).
Proof.
  assert (exists pre rest, exchanges MANAGED_START MANAGED_END (fun e => is_empty (trim e))
     (fun e c => merge_managed_block e (managed_context_block c)) managed_context_block e pre rest) as He.
  { apply (block_exchanged MANAGED_START MANAGED_END (fun e => is_empty (trim e)) (fun c => newline +:+ render_context c));
      [done..| |done]. intros c. apply (unmarked_line EmptyString); [done|apply render_unmarked]. }
  split; [exact He|]. destruct He as (pre & rest & _ & _ & Hagain). intros c. cbn zeta. unfold write_context_file.
  by rewrite Hagain, String.eqb_refl.
Qed.
End Managed.

#[local] Instance noon : Chrono := { to_rfc3339 _ := "2026-01-01T12:00:00+00:00"; serde_time _ := "noon" }.

Lemma managed_block_preserves_witness :
  let file := "Be brief." +:+ newline in
  (exists pre rest, exchanges MANAGED_START MANAGED_END (fun e => is_empty (trim e))
     (fun e c => merge_managed_block e (managed_context_block c)) managed_context_block file pre rest) /\
  (forall c, let file' := merge_managed_block file (managed_context_block c) in
             write_context_file file' (managed_context_block c) false = (file', false)).
Proof. apply managed_block_preserves. intros ts. reflexivity. Defined.
