(* ===== verification/TaskNotes.v ===== *)
(** * The context and the handoffs of a task

    The tables of am-db/src/repos/task_context.rs and the commands of
    am-core/src/task_context.rs, with [task_diff] of orchestrate.rs: a record of
    notes per task, rendered into the files of its worktree, and the archive of
    what each session left.  The texts are in [TaskTexts]; files and git are the
    class [TaskFiles]. *)
From Stdlib Require Import Ascii String.
From S2P Require Import Prelude RustStr Json Enums Records WorkGraphDb WorkGraphInv Limits SqlTable AgentDb ThreadText CoreWorld TaskRepos TaskTexts.
#[local] Open Scope string_scope.
#[local] Open Scope Z_scope.

(** ** task_context.rs of am-db: [host] holds the tasks *)

Definition of_context (task_id : string) (c : TaskContext.t) : bool := eq_str c.(TaskContext.task_id) task_id.

Definition get_context (task_id : string) : RepoM (option TaskContext.t) :=
  gets (fun db => find (of_context task_id) db.(contexts)).

Definition upsert_context (host : AgentDb) (ts : Z) (context : TaskContext.t) : RepoM TaskContext.t :=
  let task_id := context.(TaskContext.task_id) in
  let row := TaskContext.set_updated_at ts context in
  db ← get;
  _ ← (if existsb (of_context task_id) db.(contexts) then
         modify (put_contexts (update_where (of_context task_id) (fun _ => row) db.(contexts)))
       else
         _ ← fail_when (negb (keyed TaskRow.id host.(tasks) task_id)) Sqlx;
         modify (put_contexts (db.(contexts) ++ [row])%list));
  found ← get_context task_id;
  lift_opt found DbNotFound.

Definition ensure_for_task (host : AgentDb) (ts : Z) (task : Task.t) : RepoM TaskContext.t :=
  found ← get_context task.(Task.id);
  match found with
  | Some context => mret context
  | None =>
      upsert_context host ts
        (TaskContext.mk task.(Task.id) task.(Task.title) (default "" task.(Task.description)) "" "" "" "" ts)
  end.

Definition patch_context (patch : TaskContextUpdate.t) (c : TaskContext.t) : TaskContext.t :=
  TaskContext.mk c.(TaskContext.task_id)
    (default c.(TaskContext.objective) patch.(TaskContextUpdate.objective))
    (default c.(TaskContext.requirements) patch.(TaskContextUpdate.requirements))
    (default c.(TaskContext.decisions) patch.(TaskContextUpdate.decisions))
    (default c.(TaskContext.progress) patch.(TaskContextUpdate.progress))
    (default c.(TaskContext.open_questions) patch.(TaskContextUpdate.open_questions))
    (default c.(TaskContext.next_actions) patch.(TaskContextUpdate.next_actions))
    c.(TaskContext.updated_at).

Definition update_context (host : AgentDb) (ts : Z) (task_id : string) (patch : TaskContextUpdate.t) : RepoM TaskContext.t :=
  found ← get_context task_id;
  context ← lift_opt found DbNotFound;
  upsert_context host ts (patch_context patch context).

Section Handoffs.
Context `{!TextSerde (list string)}.

Definition handoff_row (h : TaskHandoff.t) : TaskHandoffRow.t :=
  TaskHandoffRow.mk h.(TaskHandoff.id) h.(TaskHandoff.task_id) h.(TaskHandoff.session_id)
    (AgentKind.as_str h.(TaskHandoff.agent)) h.(TaskHandoff.status) h.(TaskHandoff.summary)
    (to_text h.(TaskHandoff.changed_files)) h.(TaskHandoff.next_actions) h.(TaskHandoff.created_at).

Definition handoff_try_from (r : TaskHandoffRow.t) : result DbError TaskHandoff.t :=
  agent ← decode (T:=AgentKind.t) r.(TaskHandoffRow.agent);
  mret (TaskHandoff.mk r.(TaskHandoffRow.id) r.(TaskHandoffRow.task_id) r.(TaskHandoffRow.session_id) agent
    r.(TaskHandoffRow.status) r.(TaskHandoffRow.summary)
    (match from_text r.(TaskHandoffRow.changed_files_json) with Ok files => files | Err _ => [] end)
    r.(TaskHandoffRow.next_actions) r.(TaskHandoffRow.created_at)).

Definition insert_handoff (host : AgentDb) (handoff : TaskHandoff.t) : RepoM () :=
  db ← get;
  _ ← fail_when (existsb (fun r => eq_str r.(TaskHandoffRow.id) handoff.(TaskHandoff.id)) db.(handoffs)) Sqlx;
  _ ← fail_when (negb (keyed TaskRow.id host.(tasks) handoff.(TaskHandoff.task_id))) Sqlx;
  modify (put_handoffs (db.(handoffs) ++ [handoff_row handoff])%list).

(** [ORDER BY created_at DESC, rowid DESC LIMIT n]. *)
Definition list_handoffs (task_id : string) (limit : Z) : RepoM (list TaskHandoff.t) :=
  db ← get;
  let newest (a b : TaskHandoffRow.t) := b.(TaskHandoffRow.created_at) <=? a.(TaskHandoffRow.created_at) in
  lift (collect (handoff_try_from <$> sql_limit limit
    (sort_by newest (reverse (filter (fun r => eq_str r.(TaskHandoffRow.task_id) task_id = true) db.(handoffs)))))).

Definition latest_handoff (task_id : string) : RepoM (option TaskHandoff.t) :=
  found ← list_handoffs task_id 1; mret (head found).
End Handoffs.

(** What the deletion of a task takes with it. *)
Definition cascade_task (task_id : string) : RepoM () :=
  modify (fun db => mkRepoDb db.(repos) (filter (fun l => of_task task_id l = false) db.(task_links)) db.(thread_links)
    (filter (fun c => of_context task_id c = false) db.(contexts))
    (filter (fun h => eq_str h.(TaskHandoffRow.task_id) task_id = false) db.(handoffs))).

(** ** Commands *)

Class TaskFiles (E : Type) := {
  (** [am_vcs::worktree_diff] of a worktree against a commit *)
  worktree_diff : string -> string -> SysM E (result string TaskDiff.t);
  (** a file of a directory: [None] when there is none; errors name the path *)
  read_file : string -> string -> SysM E (result string (option string));
  write_file : string -> string -> string -> SysM E (result string ())
}.

Definition no_diff : TaskDiff.t := TaskDiff.mk [] "" None None None None None None None.
Definition in_repo (repo_id base : string) (repo : option Repo.t) (d : TaskDiff.t) : TaskDiff.t :=
  TaskDiff.mk d.(TaskDiff.files) d.(TaskDiff.patch) (Some repo_id)
    (match repo with Some repo => Some repo.(Repo.name) | None => d.(TaskDiff.repo_name) end)
    (match repo with Some repo => repo.(Repo.remote_url) | None => d.(TaskDiff.remote_url) end)
    d.(TaskDiff.branch) (Some base) d.(TaskDiff.head_ref) d.(TaskDiff.worktree_path).

Section Commands.
Context {V : Type} `{Json V} `{!TextSerde (list string)} `{Chrono} {E : Type} `{CoreServices E} `{!RepoServices E} `{!TaskFiles E}.

Definition task_diff (task_id : string) : D E TaskDiff.t :=
  link ← at_repos (get_for_task task_id);
  match link with
  | None => mret no_diff
  | Some link =>
      repo ← at_repos (get_repo link.(TaskRepoLink.repo_id));
      match link.(TaskRepoLink.worktree_path), link.(TaskRepoLink.base_ref) with
      | Some wt, Some base => diff ← git (worktree_diff wt base); mret (in_repo link.(TaskRepoLink.repo_id) base repo diff)
      | _, _ => mret no_diff
      end
  end.

Definition ensure_task_context (task : Task.t) : D E TaskContext.t :=
  ts ← at_core (call now); at_host (fun host => ensure_for_task host ts task).

Definition write_context (worktree name block : string) (replace_all : bool) : D E () :=
  existing ← at_core (call (read_file worktree name));
  match existing with
  | Err e => throw (Other ("failed to read " +:+ e))
  | Ok existing =>
      let '(content, changed) := write_context_file (default "" existing) block replace_all in
      if (changed : bool) then
        written ← at_core (call (write_file worktree name content));
        match written with Ok _ => mret () | Err e => throw (Other ("failed to write " +:+ e)) end
      else mret ()
  end.

Definition render_task_context_files (worktree : string) (context : TaskContext.t) : D E () :=
  let block := managed_context_block context in
  _ ← write_context worktree "TASK_CONTEXT.md" block true;
  _ ← write_context worktree "CLAUDE.md" block false;
  write_context worktree "AGENTS.md" block false.

Definition render_task_context_for_existing_worktree (task_id : string) (context : TaskContext.t) : D E () :=
  link ← at_repos (get_for_task task_id);
  match link ≫= TaskRepoLink.worktree_path with
  | Some worktree =>
      exists_ ← at_core (call (path_exists worktree));
      if (exists_ : bool) then render_task_context_files worktree context else mret ()
  | None => mret ()
  end.

Definition get_task_context (task_id : string) : D E (option TaskContext.t) :=
  found ← read_task task_id;
  match found with
  | None => mret None
  | Some task => context ← ensure_task_context task; mret (Some context)
  end.

Definition update_task_context (task_id : string) (patch : TaskContextUpdate.t) : D E TaskContext.t :=
  found ← read_task task_id;
  task ← lift_opt found NotFound;
  _ ← ensure_task_context task;
  ts ← at_core (call now);
  context ← at_host (fun host => update_context host ts task_id patch);
  _ ← render_task_context_for_existing_worktree task_id context;
  _ ← at_core (call (activity (Some task.(Task.project_id)) (Some task.(Task.id)) "context.updated"));
  mret context.

(** What the task's own edit changes in the notes, when nobody edited them. *)
Definition follow_task (before after : Task.t) (context : TaskContext.t) : TaskContext.t * bool :=
  let retitled := negb (String.eqb before.(Task.title) after.(Task.title)) &&
                  String.eqb context.(TaskContext.objective) before.(Task.title) in
  let context := if retitled then TaskContext.set_objective after.(Task.title) context else context in
  let before_requirements := default "" before.(Task.description) in
  let after_requirements := default "" after.(Task.description) in
  let rewritten := negb (String.eqb before_requirements after_requirements) &&
                   String.eqb context.(TaskContext.requirements) before_requirements in
  (if rewritten then TaskContext.set_requirements after_requirements context else context, retitled || rewritten).

Definition sync_task_context_from_task_update (before after : Task.t) : D E () :=
  found ← at_repos (get_context before.(Task.id));
  match found with
  | None => _ ← ensure_task_context after; mret ()
  | Some context =>
      let '(context, changed) := follow_task before after context in
      if (changed : bool) then
        ts ← at_core (call now);
        _ ← at_host (fun host => upsert_context host ts context); mret ()
      else mret ()
  end.

Definition apply_session_handoff (session_id task_id : string) (agent : AgentKind.t) (status : SessionStatus) : D E string :=
  found ← read_task task_id;
  task ← lift_opt found NotFound;
  events ← at_core (on_db (Transcripts.last_events_for_session (V:=V) session_id task_id
                            ["assistant_text"; "usage_limit"; "error"] 24));
  diffed ← try_ (task_diff task_id);
  let '(diff, diff_error) := match diffed with Ok diff => (diff, None) | Err e => (no_diff, Some (error_text e)) end in
  ts ← at_core (call now);
  let summary := Handoff.build_handoff_summary agent status ts events diff.(TaskDiff.files) diff_error in
  let next_actions := Handoff.next_actions_for status events in
  id ← at_core (call fresh_id);
  created_at ← at_core (call now);
  let handoff := TaskHandoff.mk id task_id session_id agent (Handoff.status_label status) summary
                   (FileChange.path <$> take 100 diff.(TaskDiff.files)) next_actions created_at in
  _ ← at_host (fun host => insert_handoff host handoff);
  context ← ensure_task_context task;
  let context := TaskContext.set_next_actions next_actions
                   (TaskContext.set_progress (Handoff.append_handoff context.(TaskContext.progress) summary) context) in
  ts ← at_core (call now);
  context ← at_host (fun host => upsert_context host ts context);
  _ ← render_task_context_for_existing_worktree task_id context;
  mret summary.

Definition list_task_handoffs (task_id : string) (limit : Z) : D E (list TaskHandoff.t) := at_repos (list_handoffs task_id limit).
End Commands.
