(* ===== verification/TurnLoop.v ===== *)
(** * The supervision of a turn (consume_agent_thread_turn of crates/am-core/src/agent_thread.rs)

    The events of a provider session arrive on a channel; the loop records them in
    the transcript, shows streamed text, enforces the budget, marks limits and
    network losses, and on the end of the session settles the turn: its rows, the
    handoff notes, the locks and the permit, the message to deliver again, and
    what runs next ([ThreadFallback.after_session]).

    The local variables of the loop are the record [Turn]; every error is dropped
    by the code, so a step is a function on it.  A step's input is a tick of the
    frame timer (with whether 100 ms passed since the text was last stored) or an
    event; the end of the list is the closing of the channel. *)
From Stdlib Require Import Ascii String.
From S2P Require Import Prelude RustStr Json Enums Records WorkGraphDb WorkGraphInv Limits Budget SqlTable AgentDb ThreadText CoreWorld ThreadFallback.
#[local] Open Scope string_scope.
#[local] Open Scope Z_scope.

(** What the loop calls in other components. *)
Class TurnServices (E : Type) := {
  (** [new_id()] and [now()] of an event *)
  stamp : Sys E -> Sys E * (string * Z);
  try_consume_provider_credit : string -> SysM E bool;
  mark_provider_account_available : string -> SysM E ();
  mark_provider_account_limited : string -> option Z -> SysM E ();
  finish_runs_for_ref : string -> SessionState.t -> SysM E ();
  thread_diff : string -> SysM E AgentThreadDiff;
  render_thread_context_files : AgentThread.t -> SysM E ();
  save_enforcement : string -> EnforcementState -> SysM E ();
  cancel_session_approvals : string -> SysM E ();
  remove_session : string -> SysM E ();
  release_sandbox : SysM E ();
  release_locks_for_thread : string -> SysM E ();
  notify_plan_watchers : string -> SysM E ();
  list_queued_turns : string -> SysM E (list QueuedTurn.t);
  reorder_queued_turns : string -> list string -> SysM E ()
}.

(** What is fixed when the loop starts. *)
Record TurnInfo := mkInfo {
  turn_id : string;
  thread_id : string;
  agent : AgentKind.t;
  pending_message : option PendingThreadMessage.t;
  account : option string;
  usage_project_id : option string;
  budget : TaskBudget.t;
  usage_policy_envelope_id : option string;
  state_invalid : bool
}.

(** The effects outside the tables and the [World], in order. *)
Inductive Effect {V : Type} :=
| Shown (ev : AgentThreadEvent.t V)      (** [AppEvent::AgentThreadEvent] *)
| ApprovalsCancelled
| SessionRemoved
| PermitDropped
| SandboxReleased
| LocksReleased
| SchedulerWoken
| WatchersNotified (project_id : string).
Arguments Effect : clear implicits.

Record Turn (V E : Type) := mkTurn {
  world : World E;
  (** usage, enforcement, the ledger, and the agents' availability *)
  run : RunBudget;
  seen_usage_limit : bool;
  credit : bool;
  seen_network_loss : bool;
  seen_approval_needed : bool;
  completed : bool;
  reset : option Z;
  streaming_assistant : option (AgentThreadEvent.t V);
  stream_dirty : bool;
  effects : list (Effect V)
}.
Arguments mkTurn {V E} _ _ _ _ _ _ _ _ _ _ _.
Arguments world {V E} _.
Arguments run {V E} _.
Arguments seen_usage_limit {V E} _.
Arguments credit {V E} _.
Arguments seen_network_loss {V E} _.
Arguments seen_approval_needed {V E} _.
Arguments completed {V E} _.
Arguments reset {V E} _.
Arguments streaming_assistant {V E} _.
Arguments stream_dirty {V E} _.
Arguments effects {V E} _.

Section Setters.
Context {V E : Type}.

Definition set_world v (s : Turn V E) : Turn V E := mkTurn v s.(run) s.(seen_usage_limit) s.(credit) s.(seen_network_loss) s.(seen_approval_needed) s.(completed) s.(reset) s.(streaming_assistant) s.(stream_dirty) s.(effects).
Definition set_run v (s : Turn V E) : Turn V E := mkTurn s.(world) v s.(seen_usage_limit) s.(credit) s.(seen_network_loss) s.(seen_approval_needed) s.(completed) s.(reset) s.(streaming_assistant) s.(stream_dirty) s.(effects).
Definition set_limit (reset_at : option Z) (s : Turn V E) : Turn V E := mkTurn s.(world) s.(run) true s.(credit) s.(seen_network_loss) s.(seen_approval_needed) s.(completed) reset_at s.(streaming_assistant) s.(stream_dirty) s.(effects).
Definition set_credit v (s : Turn V E) : Turn V E := mkTurn s.(world) s.(run) s.(seen_usage_limit) v s.(seen_network_loss) s.(seen_approval_needed) s.(completed) s.(reset) s.(streaming_assistant) s.(stream_dirty) s.(effects).
Definition set_network_loss (s : Turn V E) : Turn V E := mkTurn s.(world) s.(run) s.(seen_usage_limit) s.(credit) true s.(seen_approval_needed) s.(completed) s.(reset) s.(streaming_assistant) s.(stream_dirty) s.(effects).
Definition set_approval_needed (s : Turn V E) : Turn V E := mkTurn s.(world) s.(run) s.(seen_usage_limit) s.(credit) s.(seen_network_loss) true s.(completed) s.(reset) s.(streaming_assistant) s.(stream_dirty) s.(effects).
Definition set_completed v (s : Turn V E) : Turn V E := mkTurn s.(world) s.(run) s.(seen_usage_limit) s.(credit) s.(seen_network_loss) s.(seen_approval_needed) v s.(reset) s.(streaming_assistant) s.(stream_dirty) s.(effects).
Definition set_stream v (s : Turn V E) : Turn V E := mkTurn s.(world) s.(run) s.(seen_usage_limit) s.(credit) s.(seen_network_loss) s.(seen_approval_needed) s.(completed) s.(reset) v s.(stream_dirty) s.(effects).
Definition set_dirty v (s : Turn V E) : Turn V E := mkTurn s.(world) s.(run) s.(seen_usage_limit) s.(credit) s.(seen_network_loss) s.(seen_approval_needed) s.(completed) s.(reset) s.(streaming_assistant) v s.(effects).
Definition did (e : Effect V) (s : Turn V E) : Turn V E := mkTurn s.(world) s.(run) s.(seen_usage_limit) s.(credit) s.(seen_network_loss) s.(seen_approval_needed) s.(completed) s.(reset) s.(streaming_assistant) s.(stream_dirty) (s.(effects) ++ [e]).
End Setters.

Definition with_text {V} (text : option string) (e : AgentThreadEvent.t V) : AgentThreadEvent.t V :=
  AgentThreadEvent.mk V e.(AgentThreadEvent.id) e.(AgentThreadEvent.thread_id) e.(AgentThreadEvent.turn_id)
    e.(AgentThreadEvent.role) e.(AgentThreadEvent.kind) text e.(AgentThreadEvent.client_message_id)
    e.(AgentThreadEvent.data) e.(AgentThreadEvent.ts).
Definition with_data {V} (data : V) (e : AgentThreadEvent.t V) : AgentThreadEvent.t V :=
  AgentThreadEvent.mk V e.(AgentThreadEvent.id) e.(AgentThreadEvent.thread_id) e.(AgentThreadEvent.turn_id)
    e.(AgentThreadEvent.role) e.(AgentThreadEvent.kind) e.(AgentThreadEvent.text) e.(AgentThreadEvent.client_message_id)
    data e.(AgentThreadEvent.ts).

Inductive Input {V : Type} :=
| Tick (checkpoint_due : bool)
| Recv (event : NormalizedEvent V).
Arguments Input : clear implicits.

Section Loop.
Context {V : Type} `{Json V} `{!BudgetSerde V} `{Chrono} {E : Type} `{CoreServices E} `{!TurnServices E} (info : TurnInfo).
Abbreviation Turn := (Turn V E).

(** A call whose error is dropped. *)
Definition ask {A} (m : W E A) (s : Turn) : Turn * option A :=
  let '(w, r) := m s.(world) in (set_world w s, match r with Ok a => Some a | Err _ => None end).
Definition run_ (m : W E ()) (s : Turn) : Turn := (ask m s).1.

(** A call of the availability of agents, on the state the budget shares with it. *)
Definition with_limits (m : LimM ()) (s : Turn) : Turn :=
  let r := s.(run) in
  set_run (mkRun r.(usage_total) r.(Budget.budget_exhausted) r.(Budget.budget_accounting_failed)
             r.(Budget.saw_token_telemetry) r.(Budget.saw_final_weekly_telemetry) r.(enforcement_state) r.(ledger)
             (final m r.(limits)) r.(actions)) s.
Definition timed (m : Z -> LimM ()) (s : Turn) : Turn :=
  let '(s, ts) := ask (call now) s in
  match ts with Some ts => with_limits (m ts) s | None => s end.

(** *** The transcript *)

(** [map_thread_event], with its [new_id()] and [now()]. *)
Definition make_event (ev : NormalizedEvent V) (s : Turn) : Turn * AgentThreadEvent.t V :=
  let w := s.(world) in
  let '(sys, (id, ts)) := stamp w.(CoreWorld.sys) in
  (set_world (mkWorld sys w.(CoreWorld.events) w.(launches)) s, map_thread_event id ts info.(thread_id) info.(turn_id) ev).

Definition show (e : AgentThreadEvent.t V) (s : Turn) : Turn := did (Shown e) s.
Definition store (e : AgentThreadEvent.t V) (s : Turn) : Turn := run_ (on_db (Transcripts.upsert e)) s.

Definition record_event (ev : NormalizedEvent V) (s : Turn) : Turn :=
  let '(s, e) := make_event ev s in
  show e (run_ (on_db (Transcripts.insert_thread_event e)) s).

Definition streaming (b : bool) : V := json_object [("streaming", json_bool b)].

Definition on_tick (checkpoint_due : bool) (s : Turn) : Turn :=
  if s.(stream_dirty) then
    let s := match s.(streaming_assistant) with
             | Some streamed =>
                 let s := show streamed s in
                 if checkpoint_due then store streamed s else s
             | None => s
             end in
    set_dirty false s
  else s.

Definition on_delta (delta : string) (s : Turn) : Turn :=
  if is_empty delta then s
  else match s.(streaming_assistant) with
       | Some streamed =>
           let streamed := with_text (Some (default "" streamed.(AgentThreadEvent.text) +:+ delta)) streamed in
           set_stream (Some (with_data (streaming true) streamed)) (set_dirty true s)
       | None =>
           let '(s, streamed) := make_event (AssistantTextDelta delta) s in
           let streamed := with_data (streaming true) streamed in
           set_stream (Some streamed) (store streamed (show streamed s))
       end.

(** The stream is over: its live caret goes, its text stays. *)
Definition close_stream (s : Turn) : Turn :=
  match s.(streaming_assistant) with
  | Some streamed =>
      let streamed := with_data (streaming false) streamed in
      show streamed (store streamed (set_stream None s))
  | None => s
  end.

(** [AssistantText] after deltas replaces their text. *)
Definition on_text (text : string) (streamed : AgentThreadEvent.t V) (s : Turn) : Turn :=
  let streamed := with_data (streaming false) (with_text (Some text) streamed) in
  show streamed (store streamed (set_stream None (set_dirty false s))).

(** *** One event *)

Definition with_stored_thread (edit : AgentThread.t -> AgentThread.t) (s : Turn) : Turn :=
  run_ (with_thread (V:=V) info.(thread_id) (fun thread => save_and (V:=V) (edit thread) (fun _ => mret ()))) s.

(** The ledger's row has a fresh id; an empty count has no row. *)
Definition on_tokens (input output : Z) (s : Turn) : Turn :=
  let w := s.(world) in
  let '(sys, (id, _)) := if (input =? 0) && (output =? 0) then (w.(CoreWorld.sys), ("", 0)) else stamp w.(CoreWorld.sys) in
  set_run (on_token_usage info.(budget) info.(thread_id) info.(usage_policy_envelope_id) id input output s.(run))
    (set_world (mkWorld sys w.(CoreWorld.events) w.(launches)) s).

Definition on_quota (window : QuotaWindowKind) (used_percent : f64) (reset_at : option Z) (final_sample : bool) (s : Turn) : Turn :=
  let quota_account := default (AgentKind.as_str info.(agent)) info.(account) in
  let '(e, _) := observe window used_percent quota_account reset_at s.(run).(enforcement_state) in
  let '(s, saved) := ask (call (save_enforcement info.(thread_id) e)) s in
  set_run (on_quota_window info.(budget) info.(agent) info.(account) window used_percent reset_at final_sample
             (bool_decide (is_Some saved)) s.(run)) s.

Definition on_usage_limit (reset_at : option Z) (s : Turn) : Turn :=
  let s := set_limit reset_at s in
  let s :=
    match info.(account) with
    | Some account_id =>
        let '(s, redeemed) := ask (call (try_consume_provider_credit account_id)) s in
        let credit_redeemed := default false redeemed in
        let s := set_credit credit_redeemed s in
        if credit_redeemed then run_ (call (mark_provider_account_available account_id)) s
        else run_ (call (mark_provider_account_limited account_id reset_at)) s
    | None =>
        let '(s, policy) := ask (call get_limit_policy) s in
        timed (fun ts => mark_agent_limited ts (default default_limit_policy policy) info.(agent) reset_at) s
    end in
  let percentage_budget := is_percentage_budget info.(budget) in
  let s := with_stored_thread (fun thread =>
    let thread := AgentThread.set_status
      (if percentage_budget then TaskStatus.Paused else TaskStatus.WaitingForLimit) thread in
    let thread := AgentThread.set_limit_reset_at reset_at thread in
    AgentThread.set_handoff_state
      (if percentage_budget then "budget_paused_provider_limit" else "waiting_for_fallback") thread) s in
  run_ (note None None "thread.agent_limited") s.

Definition on_network_unavailable (s : Turn) : Turn :=
  let s := set_network_loss s in
  let s := with_stored_thread (fun thread =>
    AgentThread.set_handoff_state "waiting_for_network" (AgentThread.set_status TaskStatus.WaitingForNetwork thread)) s in
  run_ (note None None "thread.network_unavailable") s.

(** What [after_session] and the final status depend on. *)
Definition session_end (s : Turn) : SessionEnd :=
  mkSessionEnd info.(budget) s.(run).(Budget.saw_token_telemetry) s.(run).(Budget.saw_final_weekly_telemetry)
    s.(run).(Budget.budget_exhausted) info.(state_invalid) s.(run).(Budget.budget_accounting_failed)
    s.(seen_network_loss) s.(seen_usage_limit) s.(credit) s.(completed) info.(account) s.(reset).

Definition effective_status (s : Turn) (status : SessionStatus) : SessionStatus :=
  if s.(seen_network_loss) then Interrupted else status.

Definition session_state (status : SessionStatus) : SessionState.t :=
  match status with
  | Completed => SessionState.Completed
  | Interrupted => SessionState.Interrupted
  | Failed => SessionState.Failed
  end.

Definition final_status (s : Turn) (status : SessionStatus) : TaskStatus.t :=
  if budget_blocks (session_end s) then TaskStatus.Paused
  else if s.(seen_network_loss) then TaskStatus.WaitingForNetwork
  else if s.(seen_usage_limit) then TaskStatus.WaitingForLimit
  else match status with
       | Completed => if s.(seen_approval_needed) then TaskStatus.Paused else TaskStatus.Review
       | Interrupted => TaskStatus.Paused
       | Failed => TaskStatus.Failed
       end.

Definition on_session_ended (status : SessionStatus) (s : Turn) : Turn :=
  let effective := effective_status s status in
  let s := set_completed (bool_decide (effective = Completed)) s in
  let state := session_state effective in
  let s := run_ (ts ← call now; on_db (Turns.finish ts info.(turn_id) state)) s in
  let s := run_ (call (finish_runs_for_ref info.(turn_id) state)) s in
  let s := if bool_decide (effective = Completed) && negb s.(seen_usage_limit)
           then timed (fun ts => mark_agent_available ts info.(agent)) s else s in
  with_stored_thread (fun thread =>
    let thread := AgentThread.set_status (final_status s effective) thread in
    if s.(seen_usage_limit) then AgentThread.set_limit_reset_at s.(reset) thread else thread) s.

(** The effect of an event on the turn, before it is recorded. *)
Definition handle (ev : NormalizedEvent V) (s : Turn) : Turn :=
  match ev with
  | AwaitingApproval _ => set_approval_needed s
  | TokenUsage input output => on_tokens input output s
  | QuotaWindow window used_percent reset_at final_sample => on_quota window used_percent reset_at final_sample s
  | SessionStarted provider => run_ (on_db (Turns.set_agent_session_id info.(turn_id) provider)) s
  | UsageLimitReached reset_at => on_usage_limit reset_at s
  | NetworkUnavailable _ => on_network_unavailable s
  | SessionEnded status => on_session_ended status s
  | _ => s
  end.

(** Quota samples are never shown; token counts only without a budget. *)
Definition recorded (ev : NormalizedEvent V) : bool :=
  match ev with
  | QuotaWindow _ _ _ _ => false
  | TokenUsage input output => is_unlimited info.(budget) && negb ((input =? 0) && (output =? 0))
  | _ => true
  end.

Definition apply_thread_handoff (status : SessionStatus) : W E () :=
  found ← read_thread (V:=V) info.(thread_id);
  match found with
  | None => mret ()
  | Some thread =>
      events ← on_db (Transcripts.list_for_turn (V:=V) info.(turn_id));
      diff ← unwrap_or (thread_diff info.(thread_id)) (mkDiff []);
      ts ← call now;
      let summary := build_thread_handoff_summary ts info.(agent) status events diff in
      let thread := AgentThread.set_progress (append_thread_progress thread.(AgentThread.progress) summary) thread in
      let thread := AgentThread.set_next_actions (thread_next_actions status events) thread in
      thread ← save_thread (V:=V) thread;
      _ ← attempt (call (render_thread_context_files thread));
      call (activity thread.(AgentThread.project_id) None "thread.context_handoff")
  end.

(** One round of the loop after the [select!]. *)
Definition receive (ev : NormalizedEvent V) (s : Turn) : Turn :=
  match ev with
  | AssistantTextDelta delta => on_delta delta s
  | _ =>
      match ev, s.(streaming_assistant) with
      | AssistantText text, Some streamed => on_text text streamed s
      | _, _ =>
          let s := match ev with SessionEnded _ => close_stream (set_dirty false s) | _ => s end in
          let s := handle ev s in
          let s := if recorded ev then record_event ev s else s in
          match ev with
          | SessionEnded status => run_ (apply_thread_handoff (effective_status s status)) s
          | _ => s
          end
      end
  end.

Definition disconnected : NormalizedEvent V :=
  ErrorEvent "The provider disconnected before finishing. Your progress is saved; please try again." true.

(** The loop: until the session ends or the channel closes. *)
Fixpoint turn_loop (inputs : list (Input V)) (s : Turn) : Turn :=
  match inputs with
  | [] => receive (SessionEnded Failed) (record_event disconnected s)
  | Tick checkpoint_due :: rest => turn_loop rest (on_tick checkpoint_due s)
  | Recv (SessionEnded status) :: _ => receive (SessionEnded status) s
  | Recv ev :: rest => turn_loop rest (receive ev s)
  end.

(** *** After the loop *)

Definition cleanup (s : Turn) : Turn :=
  let s := did ApprovalsCancelled (run_ (call (cancel_session_approvals info.(turn_id))) s) in
  let s := did SessionRemoved (run_ (call (remove_session info.(thread_id))) s) in
  let s := did PermitDropped s in
  let s := did SandboxReleased (run_ (call release_sandbox) s) in
  let s := did LocksReleased (run_ (call (release_locks_for_thread info.(thread_id))) s) in
  let s := did SchedulerWoken (with_limits wake_scheduler s) in
  match info.(usage_project_id) with
  | Some project_id => did (WatchersNotified project_id) (run_ (call (notify_plan_watchers project_id)) s)
  | None => s
  end.

(** The interrupted message goes back to the head of the queue. *)
Definition requeue (s : Turn) : Turn :=
  if negb s.(run).(Budget.budget_exhausted) && (s.(seen_usage_limit) || s.(seen_network_loss)) then
    match info.(pending_message) with
    | None => s
    | Some msg =>
        let '(s, thread) := ask (read_thread (V:=V) info.(thread_id)) s in
        let permission := from_option AgentThread.permission "workspace_write" (mjoin thread) in
        let '(s, existing) := ask (call (list_queued_turns info.(thread_id))) s in
        let existing_ids := QueuedTurn.id <$> default [] existing in
        let '(s, queued) := ask (call (enqueue_turn info.(thread_id) info.(agent) permission
                              msg.(PendingThreadMessage.text) None false msg.(PendingThreadMessage.client_message_id))) s in
        match queued with
        | Some queued => run_ (call (reorder_queued_turns info.(thread_id) (queued.(QueuedTurn.id) :: existing_ids))) s
        | None => s
        end
    end
  else s.

(** [consume_agent_thread_turn]. *)
Definition consume_turn (inputs : list (Input V)) (s : Turn) : Turn :=
  let s := turn_loop inputs s in
  let s := close_stream s in
  let s := cleanup s in
  let s := requeue s in
  run_ (after_session (V:=V) info.(thread_id) info.(agent) (session_end s)) s.
End Loop.
