(* ===== verification/CoreDemo.v ===== *)
(** * A concrete core

    Services over a small environment, for the witnesses of the threads' and the
    scheduler's properties: a clock, the sessions that run, what the agents and
    accounts report, and a start that respects the capacity. *)
From Stdlib Require Import Ascii String.
From S2P Require Import Prelude RustStr Json Enums Records Limits Budget AgentDb AgentDbProps AgentDbTheorems CoreWorld ThreadFallback.
#[local] Open Scope string_scope.
#[local] Open Scope Z_scope.

Module DemoCore.

Record Env := mkEnv {
  clock : Z;
  running : list string;
  capacity : Z;
  statuses : list AgentStatus.t;
  records : list AgentRecord.t;
  policy : LimitPolicy.t;
  local_policy : LocalModelPolicy.t;
  online : bool;
  target : option LocalModelTarget.t;
  accounts : list ProviderAccountStatus.t;
  queued : list QueuedTurn.t
}.

Definition set_running (l : list string) (e : Env) : Env :=
  mkEnv e.(clock) l e.(capacity) e.(statuses) e.(records) e.(policy) e.(local_policy) e.(online) e.(target) e.(accounts) e.(queued).
Definition set_queued (l : list QueuedTurn.t) (e : Env) : Env :=
  mkEnv e.(clock) e.(running) e.(capacity) e.(statuses) e.(records) e.(policy) e.(local_policy) e.(online) e.(target) e.(accounts) l.

Abbreviation S := (SysM Env).
Definition read {A} (f : Env -> A) : S A := gets (fun s => f s.(CoreWorld.env)).
Definition write (f : Env -> Env) : S () := modify (fun s => mkSys s.(db) (f s.(CoreWorld.env))).

(** A session is registered unless it runs already or the pool is full. *)
Definition start (id : string) : S string :=
  e ← read (fun e => e);
  if bool_decide (id ∈ e.(running)) then lift (Err (Other "session already running"))
  else if e.(capacity) <=? Z.of_nat (length e.(running)) then lift (Err (Other "maximum concurrent sessions reached"))
  else _ ← write (set_running (e.(running) ++ [id])); mret ("session of " +:+ id).

Definition ready (a : ProviderAccountStatus.t) : bool :=
  a.(ProviderAccountStatus.account).(ProviderAccount.enabled) && a.(ProviderAccountStatus.authenticated) &&
  negb (bool_decide (a.(ProviderAccountStatus.availability) = AvailabilityState.Limited)).

Definition earliest (l : list Z) : option Z :=
  foldr (fun z m => Some (from_option (Z.min z) z m)) None l.

Definition runtime (a : ProviderAccountStatus.t) : AccountRuntime.t :=
  let account := a.(ProviderAccountStatus.account) in
  AccountRuntime.mk account.(ProviderAccount.id) account.(ProviderAccount.agent) [] None.

#[global] Instance services : CoreServices Env := {
  now := read clock;
  activity _ _ _ := mret ();
  session_active id s := bool_decide (id ∈ s.(CoreWorld.env).(running));
  active_count s := Z.of_nat (length s.(CoreWorld.env).(running));
  sync_session_capacity := read capacity;
  run_task id _ _ := start id;
  run_agent_thread id _ _ _ := start id;
  detect_agents := read statuses;
  agent_record agent := read (fun e => find (fun r => bool_decide (r.(AgentRecord.kind) = agent)) e.(records));
  get_limit_policy := read policy;
  get_local_model_policy := read local_policy;
  cloud_connectivity_stable _ := read online;
  best_ready_local_target _ := read target;
  provider_account_statuses := read accounts;
  next_ready_provider_account current := read (fun e =>
    runtime <$> find (fun a => ready a && negb (bool_decide (Some a.(ProviderAccountStatus.account).(ProviderAccount.id) = current)))
                  e.(accounts));
  earliest_provider_account_reset := read (fun e =>
    earliest (omap ProviderAccountStatus.reset_at e.(accounts)));
  provider_account_reset id := read (fun e =>
    ProviderAccountStatus.reset_at <$>
      find (fun a => bool_decide (a.(ProviderAccountStatus.account).(ProviderAccount.id) = id)) e.(accounts));
  enqueue_turn thread agent permission message envelope echo client :=
    let turn := QueuedTurn.mk ("queued " +:+ thread) thread agent permission message echo client envelope 0 in
    _ ← write (fun e => set_queued (e.(queued) ++ [turn])%list e); mret turn;
  pop_queued_turn thread :=
    e ← read (fun e => e);
    _ ← write (set_queued (filter (fun q => q.(QueuedTurn.thread_id) <> thread) e.(queued)));
    mret (find (fun q => bool_decide (q.(QueuedTurn.thread_id) = thread)) e.(queued));
  list_paused_plan_runs := mret [];
  get_work_node _ := mret None;
  resume_work_plan _ := mret ();
  run_cloud_monitor_tick := mret ();
  run_cloud_checkpoints := lift (Err (Other "no cloud project"));
  to_lowercase := to_ascii_lowercase;
  db_error_text _ := "disk full"
}.

Definition agent (k : AgentKind.t) (a : AvailabilityState.t) (reset : option Z) : AgentStatus.t :=
  AgentStatus.mk k true true None None a reset None None.
Definition record (k : AgentKind.t) (a : AvailabilityState.t) (reset : option Z) : AgentRecord.t :=
  AgentRecord.mk k "installed" None a reset None 0.

(** Claude Code is limited until 1000, Codex is ready. *)
Definition env : Env :=
  mkEnv 100 [] 2
    [agent AgentKind.ClaudeCode AvailabilityState.Limited (Some 1000); agent AgentKind.Codex AvailabilityState.Available None]
    [record AgentKind.ClaudeCode AvailabilityState.Limited (Some 1000); record AgentKind.Codex AvailabilityState.Available None]
    default_limit_policy default_local_model_policy true None [] [].

Definition world (e : Env) (d : AgentDb) : World Env := mkWorld (mkSys d e) [] [].
End DemoCore.
