(* ===== verification/TaskReposProps.v ===== *)
(** * A repository is connected once *)
From Stdlib Require Import Ascii String.
From S2P Require Import Prelude RustStr Json Enums Records WorkGraphDb WorkGraphInv Limits Budget SqlTable AgentDb AgentDbProps AgentDbTheorems CoreWorld TaskRepos ThreadFallback CoreDemo.
#[local] Open Scope string_scope.
#[local] Open Scope Z_scope.

Section Connected.
Context {E : Type} `{CoreServices E} `{!RepoServices E}.
Implicit Types s : Desk E.

(** Whether a connected repository is the one at [top]. *)
Definition at_path (top : string) (repo : Repo.t) : bool :=
  is_some_and repo.(Repo.local_path) (fun existing => same_path existing top).

(** The repositories a project lists. *)
Definition listed (project_id : string) (db : RepoDb) : result DbError (list Repo.t) :=
  collect (repo_try_from <$>
    sort_by oldest_repo (filter (fun r => eq_str r.(RepoRow.project_id) project_id = true) db.(repos))).

Lemma listed_elem pid db l x :
  listed pid db = Ok l ->
  x ∈ l <-> exists r, r ∈ db.(repos) /\ eq_str r.(RepoRow.project_id) pid = true /\ repo_try_from r = Ok x.
Proof.
  intros Hl. rewrite (collect_elem _ _ _ _ Hl). setoid_rewrite elem_of_sort_by. setoid_rewrite list_elem_of_filter. naive_solver.
Qed.

Lemma decoded_row (repo : Repo.t) : repo_try_from (repo_row repo) = Ok repo.
Proof.
  unfold repo_try_from. cbn [repo_row RepoRow.kind]. change (RepoKind.as_str ?k) with (wire k). rewrite decode_wire. by destruct repo.
Qed.

Lemma listed_snoc (repo : Repo.t) db l :
  listed repo.(Repo.project_id) db = Ok l ->
  exists l', listed repo.(Repo.project_id) (put_repos (db.(repos) ++ [repo_row repo])%list db) = Ok l' /\
    forall x, x ∈ l' <-> x ∈ l \/ x = repo.
Proof.
  intros Hl. set (db' := put_repos _ db). destruct (listed repo.(Repo.project_id) db') as [l'|e] eqn:Hl'.
  - exists l'. split; [done|]. intros x. rewrite (listed_elem _ _ _ _ Hl'), (listed_elem _ _ _ _ Hl). cbn. setoid_rewrite elem_of_app.
    setoid_rewrite list_elem_of_singleton. pose proof (decoded_row repo) as Hdec. split.
    + intros (r & [Hr| ->] & Hp & Hx); [left; eauto|right]. rewrite Hdec in Hx. by injection Hx.
    + intros [(r & Hr & Hp & Hx)| ->]; [eauto|]. exists (repo_row repo). split; [by right|]. split; [by apply eq_str_true|done].
  - exfalso. assert (is_ok (listed repo.(Repo.project_id) db') = true) as Hok; [|by rewrite Hl' in Hok].
    apply collect_ok. intros r Hr%elem_of_sort_by%list_elem_of_filter. destruct Hr as [Hp [Hr|Hr]%elem_of_app].
    + destruct (collect_each _ _ _ r Hl) as [b ->]; [apply elem_of_sort_by, list_elem_of_filter; by split|done].
    + apply list_elem_of_singleton in Hr as ->. by rewrite decoded_row.
Qed.

Lemma bind_Ok {S Er A B} (m : M S Er A) (f : A -> M S Er B) (x x' : S) (b : B) :
  (m ≫= f) x = (x', Ok b) -> exists y a, m x = (y, Ok a) /\ f a y = (x', Ok b).
Proof. rewrite M_bind_unfold. destruct (m x) as [y [a|e]]; naive_solver. Qed.

Lemma core_call {A} (m : W E A) s s' (r : result CoreError A) : at_core m s = (s', r) -> s'.(repo_db) = s.(repo_db).
Proof. unfold at_core. destruct (m (desk_core s)). by intros [= <- _]. Qed.

Lemma git_opens {A} (m : SysM E (result string A)) (a : A) s :
  (forall y, value m y = Ok (Ok a)) -> exists s', git m s = (s', Ok a) /\ s'.(repo_db) = s.(repo_db).
Proof.
  intros Hm. unfold git, at_core, call. rewrite M_bind_unfold. specialize (Hm (sys (desk_core s))). unfold value in Hm.
  destruct (m _) as [y r]. cbn in *. subst r. eauto.
Qed.

Lemma list_call pid s : exists s', s'.(repo_db) = s.(repo_db) /\
  at_repos (list_for_project pid) s = (s', match listed pid s.(repo_db) with Ok l => Ok l | Err e => Err (Db e) end).
Proof.
  unfold at_repos, list_for_project. rewrite M_bind_unfold. cbn. eexists. split; [|reflexivity]. done.
Qed.

(** A repository found is returned, and nothing is written. *)
Lemma connect_found input info l repo s :
  (forall y, value (open_repo input.(NewLocalRepo.path) input.(NewLocalRepo.initialize)) y = Ok (Ok info)) ->
  listed input.(NewLocalRepo.project_id) s.(repo_db) = Ok l -> find (at_path info.(toplevel)) l = Some repo ->
  exists s', connect_local_repo input s = (s', Ok repo) /\ s'.(repo_db) = s.(repo_db).
Proof.
  intros Hopen Hl Hf. unfold connect_local_repo. cbn zeta. rewrite M_bind_unfold.
  destruct (git_opens _ _ s Hopen) as (s1 & -> & H1'). rewrite M_bind_unfold.
  destruct (list_call input.(NewLocalRepo.project_id) s1) as (s2 & H2' & ->). rewrite H1', Hl.
  unfold at_path in Hf. rewrite Hf. exists s2. split; [done|]. congruence.
Qed.

(** What a successful connection did. *)
Lemma connect_cases input info s s' repo :
  (forall y, value (open_repo input.(NewLocalRepo.path) input.(NewLocalRepo.initialize)) y = Ok (Ok info)) ->
  connect_local_repo input s = (s', Ok repo) ->
  exists l, listed input.(NewLocalRepo.project_id) s.(repo_db) = Ok l /\
    ((find (at_path info.(toplevel)) l = Some repo /\ s'.(repo_db) = s.(repo_db)) \/
     (find (at_path info.(toplevel)) l = None /\ repo.(Repo.project_id) = input.(NewLocalRepo.project_id) /\
      repo.(Repo.local_path) = Some info.(toplevel) /\
      s'.(repo_db) = put_repos (s.(repo_db).(repos) ++ [repo_row repo])%list s.(repo_db))).
Proof.
  intros Hopen. unfold connect_local_repo. cbn zeta. intros (s1 & i & Hg & Hc)%bind_Ok.
  destruct (git_opens _ _ s Hopen) as (s1' & Hg' & H1'). rewrite Hg' in Hg. injection Hg as -> ->.
  apply bind_Ok in Hc as (s2 & l & Hlist & Hc).
  destruct (list_call input.(NewLocalRepo.project_id) s1) as (s2' & H2' & Hlist'). rewrite Hlist', H1' in Hlist.
  destruct (listed _ _) as [l'|] eqn:Hl; [|done]. injection Hlist as -> ->. exists l. split; [done|]. unfold at_path.
  destruct (find _ l) as [found|] eqn:Hf; [left; injection Hc as -> ->; split; [done|congruence]|right].
  apply bind_Ok in Hc as (s3 & id & Hid & Hc). apply bind_Ok in Hc as (s4 & ts & Hts & Hc).
  apply core_call in Hid, Hts. apply bind_Ok in Hc as (s5 & made & Hmade & Hc).
  apply bind_Ok in Hc as (s6 & [] & Hpub & Hc). apply bind_Ok in Hc as (s7 & [] & Hact & Hc). apply core_call in Hpub, Hact.
  injection Hc as -> ->. unfold at_host in Hmade. apply bind_Ok in Hmade as (s5' & host & Hhost & Hmade). injection Hhost as <- <-.
  unfold at_repos, create_local, insert_repo in Hmade. rewrite M_bind_unfold in Hmade. cbn [get] in Hmade.
  rewrite M_bind_unfold in Hmade. unfold fail_when in Hmade. destruct (existsb _ _); cbn in Hmade; [done|].
  rewrite M_bind_unfold in Hmade. destruct (negb _); cbn in Hmade; [done|]. rewrite M_bind_unfold in Hmade. cbn in Hmade.
  injection Hmade as <- <-. cbn in *. split_and!; [done..|]. rewrite Hact, Hpub. congruence.
Qed.

(** A checkout is connected to a project once.  A connection that succeeds
    either returns a repository the project had and writes nothing, or adds the
    returned one, and then it is the only one of the project at that path.
    Connecting again, by any path whose toplevel has the same key, whatever else
    happened in between, returns the same repository and writes nothing. *)
Theorem path_connected_once input again info info' s s' s2 repo :
  (forall y, value (open_repo input.(NewLocalRepo.path) input.(NewLocalRepo.initialize)) y = Ok (Ok info)) ->
  (forall y, value (open_repo again.(NewLocalRepo.path) again.(NewLocalRepo.initialize)) y = Ok (Ok info')) ->
  again.(NewLocalRepo.project_id) = input.(NewLocalRepo.project_id) ->
  same_path info.(toplevel) info'.(toplevel) = true ->
  connect_local_repo input s = (s', Ok repo) -> s2.(repo_db) = s'.(repo_db) ->
  (s'.(repo_db) = s.(repo_db) \/
   forall l x, listed input.(NewLocalRepo.project_id) s'.(repo_db) = Ok l -> x ∈ l -> at_path info.(toplevel) x = true -> x = repo) /\
  exists s3, connect_local_repo again s2 = (s3, Ok repo) /\ s3.(repo_db) = s2.(repo_db).
Proof.
  intros Hopen Hopen' Hpid Hsame Hc Hs2.
  assert (forall x, at_path info'.(toplevel) x = at_path info.(toplevel) x) as Hpath.
  { intros x. unfold at_path, same_path, same_local_path in *. apply String.eqb_eq in Hsame. by rewrite Hsame. }
  assert (forall l, find (at_path info'.(toplevel)) l = find (at_path info.(toplevel)) l) as Hfind
    by (intros l; induction l as [|x l IH]; [done|]; cbn; by rewrite Hpath, IH).
  destruct (connect_cases _ _ _ _ _ Hopen Hc) as (l & Hl & [[Hf Hdb]|(Hf & Hproj & Htop & Hdb)]).
  - split; [by left|]. apply (connect_found again info' l repo s2 Hopen'); [by rewrite Hpid, Hs2, Hdb|by rewrite Hfind].
  - rewrite <- Hproj in *. destruct (listed_snoc repo _ l Hl) as (l' & Hl' & Hin). rewrite <- Hdb in Hl'.
    assert (forall x, x ∈ l' -> at_path info.(toplevel) x = true -> x = repo) as Honly.
    { intros x [Hx| ->]%Hin Hat; [|done]. rewrite find_None in Hf. by rewrite (Hf x Hx) in Hat. }
    split; [right; intros l0 x Hl0; rewrite Hl' in Hl0; injection Hl0 as <-; apply Honly|].
    apply (connect_found again info' l' repo s2 Hopen'); [by rewrite Hpid, Hs2|]. rewrite Hfind.
    destruct (find (at_path info.(toplevel)) l') as [x|] eqn:Hx.
    + apply find_Some_elem in Hx as [Hx Hat]. by rewrite (Honly x Hx Hat).
    + rewrite find_None in Hx. assert (repo ∈ l') as Hr by (apply Hin; by right). specialize (Hx _ Hr).
      unfold at_path in Hx. rewrite Htop in Hx. cbn in Hx. unfold same_path, same_local_path in Hx. by rewrite String.eqb_refl in Hx.
Qed.
End Connected.

(** A checkout at /home/me/app, and a project. *)
Module DemoRepos.
Import DemoCore.

#[global] Instance repo_services : RepoServices Env := {
  windows := false;
  fresh_id := mret "repo-1";
  open_repo path _ := mret (if starts_with "/home/me/app" path then Ok (mkGitRepo "/home/me/app" "app" "main") else Err "not a repository");
  default_backend := mret ExecutionBackend.Host;
  path_exists _ := mret true;
  worktree_path_for _ task_id := "/data/worktrees/" +:+ task_id;
  make_worktree _ _ _ _ := mret (Ok "base")
}.

Definition demo_db : AgentDb := mkAgentDb [ProjectRow.mk "p" "App" None 1 1] ∅ [] [] [] [] [] [] [].
Definition demo_desk : Desk Env := mkDesk (world env demo_db) (mkRepoDb [] [] [] [] []).
End DemoRepos.

Lemma path_connected_once_witness :
  let input := NewLocalRepo.mk "p" "/home/me/app" false in
  let again := NewLocalRepo.mk "p" "/home/me/app/src" false in
  let s := (connect_local_repo input DemoRepos.demo_desk).1 in
  exists repo, (connect_local_repo input DemoRepos.demo_desk).2 = Ok repo /\
    exists s3, connect_local_repo again s = (s3, Ok repo) /\ s3.(repo_db) = s.(repo_db).
Proof.
  cbn zeta. eexists. split; [vm_compute; reflexivity|].
  refine (proj2 (path_connected_once (NewLocalRepo.mk "p" "/home/me/app" false) (NewLocalRepo.mk "p" "/home/me/app/src" false)
    (mkGitRepo "/home/me/app" "app" "main") (mkGitRepo "/home/me/app" "app" "main") DemoRepos.demo_desk _ _ _ _ _ _ _ _ _));
    intros; vm_compute; reflexivity.
Defined.
