(* ===== verification/FallbackProps.v ===== *)
(** * Falling back and switching back: laws

    A thread's home is what it runs on when it is not falling back: the model,
    reasoning, local provider and address it remembers during a fallback, or the
    current ones.  Every handler of [ThreadFallback] keeps it. *)
From Stdlib Require Import Ascii String.
From S2P Require Import Prelude RustStr Json Enums Records WorkGraphDb WorkGraphInv Limits Budget SqlTable AgentDb AgentDbProps AgentDbTheorems CoreWorld ThreadFallback CoreDemo.
#[local] Open Scope string_scope.
#[local] Open Scope Z_scope.

Definition Home : Type := option string * option string * option LocalModelProviderKind.t * option string.

Definition home (x : AgentThread.t) : Home :=
  match x.(AgentThread.original_agent) with
  | Some _ => (x.(AgentThread.original_model), x.(AgentThread.original_reasoning),
               x.(AgentThread.original_local_provider), x.(AgentThread.original_local_base_url))
  | None => (x.(AgentThread.model), x.(AgentThread.reasoning), x.(AgentThread.local_provider), x.(AgentThread.local_base_url))
  end.

(** Nothing is remembered outside a fallback. *)
Definition remembers_nothing (x : AgentThread.t) : Prop :=
  x.(AgentThread.original_agent) = None ->
  x.(AgentThread.original_local_provider) = None /\ x.(AgentThread.original_local_base_url) = None.

(** An account switch does not remember a local provider. *)
Definition accountable (x : AgentThread.t) : Prop :=
  x.(AgentThread.original_agent) = None ->
  x.(AgentThread.local_provider) = None /\ x.(AgentThread.local_base_url) = None.

(** ** The edits keep the home *)
Section Edits.
Context {E : Type} `{CoreServices E}.

Ltac cases_original x :=
  unfold home, remembers_nothing; destruct (AgentThread.original_agent x) eqn:Ho; cbn; rewrite ?Ho.

Lemma home_remember current x : home (remember_original current x) = home x.
Proof. unfold remember_original. cases_original x; done. Qed.

Lemma home_agent current agent sb reset_at profile x : home (to_agent_fallback current agent sb reset_at profile x) = home x.
Proof. rewrite <- (home_remember current x). unfold to_agent_fallback, remember_original. cases_original x; done. Qed.

Lemma home_local current target policy x : home (to_local_fallback current target policy x) = home x.
Proof.
  rewrite <- (home_remember current x). unfold to_local_fallback, remember_original.
  cases_original x; destruct (bool_decide _ && _); cbn; by rewrite ?Ho.
Qed.

Lemma home_account current next profile x :
  remembers_nothing x -> accountable x -> home (to_account_fallback current next profile x) = home x.
Proof.
  unfold remembers_nothing, accountable, to_account_fallback, remember_original_account.
  intros Hr Ha. cases_original x; [done|]. destruct (Hr eq_refl) as [-> ->], (Ha eq_refl) as [-> ->]. done.
Qed.

Lemma home_back_to_cloud current x : home (back_to_cloud current x) = home x.
Proof. unfold back_to_cloud. cases_original x; done. Qed.

Lemma home_switch_back original x :
  x.(AgentThread.original_agent) = Some original -> home (switch_back_to original x) = home x.
Proof. intros Ho. unfold home. by rewrite Ho. Qed.

(** The edits of the handlers, from a thread whose home is [h]. *)
Definition at_home (h : Home) (x : AgentThread.t) : Prop := home x = h /\ remembers_nothing x.

Lemma at_home_agent h current agent sb reset_at profile x :
  at_home h x -> at_home h (to_agent_fallback current agent sb reset_at profile x).
Proof.
  intros [Hh _]. split; [by rewrite home_agent|]. unfold to_agent_fallback, remember_original. cases_original x; done.
Qed.

Lemma at_home_local h current target policy x : at_home h x -> at_home h (to_local_fallback current target policy x).
Proof.
  intros [Hh _]. split; [by rewrite home_local|]. unfold to_local_fallback, remember_original.
  cases_original x; destruct (bool_decide _ && _); cbn; by rewrite ?Ho.
Qed.

Lemma at_home_account h current next profile x :
  h.1.2 = None /\ h.2 = None -> at_home h x -> at_home h (to_account_fallback current next profile x).
Proof.
  intros Hc [Hh Hr]. split; [|unfold to_account_fallback, remember_original_account; cases_original x; done].
  rewrite home_account; [done..|]. subst h. revert Hc. unfold accountable. cases_original x; done.
Qed.

Lemma at_home_back_to_cloud h current x : at_home h x -> at_home h (back_to_cloud current x).
Proof. intros [Hh _]. split; [by rewrite home_back_to_cloud|]. unfold back_to_cloud. cases_original x; done. Qed.

Lemma at_home_switch_back h original x :
  x.(AgentThread.original_agent) = Some original -> at_home h x -> at_home h (switch_back_to original x).
Proof. intros Ho [Hh _]. split; [by rewrite home_switch_back|]. done. Qed.
End Edits.

(** ** The handlers keep the home *)
Section Handlers.
Context {V : Type} `{JsonOk V} `{!BudgetSerde V} `{!BudgetSerdeOk V} {E : Type} `{CoreServices E}.

(** A service that leaves the threads alone and the tables well formed. *)
Definition frames {A} (m : SysM E A) : Prop :=
  forall s, agent_db_ok (V:=V) s.(db) -> agent_db_ok (V:=V) (final m s).(db) /\ (final m s).(db).(threads) = s.(db).(threads).

Class ServicesFrame : Prop := {
  frame_now : frames now;
  frame_activity p t k : frames (activity p t k);
  frame_detect_agents : frames detect_agents;
  frame_limit_policy : frames get_limit_policy;
  frame_local_policy : frames get_local_model_policy;
  frame_connectivity p : frames (cloud_connectivity_stable p);
  frame_local_target p : frames (best_ready_local_target p);
  frame_account_statuses : frames provider_account_statuses;
  frame_next_account id : frames (next_ready_provider_account id);
  frame_earliest_reset : frames earliest_provider_account_reset;
  frame_account_reset id : frames (provider_account_reset id);
  frame_pop id : frames (pop_queued_turn id)
}.

(** A property of the tables that depends on the threads only. *)
Class Steady (Q : AgentDb -> Prop) : Prop := {
  steady_ok : forall d, Q d -> agent_db_ok (V:=V) d;
  steady_frame : forall d d', Q d -> agent_db_ok (V:=V) d' -> d'.(threads) = d.(threads) -> Q d'
}.

Definition in_db (Q : AgentDb -> Prop) (w : World E) : Prop := Q w.(sys).(db).

Section Steady.
Context (Q : AgentDb -> Prop) `{!Steady Q} `{!ServicesFrame}.
Abbreviation kept := (keeps (in_db Q)).

Lemma kept_call {A} (m : SysM E A) : frames m -> kept (call m).
Proof.
  intros Hm w Hw. unfold final, call. destruct (m (sys w)) as [s r] eqn:Hs. cbn.
  destruct (Hm (sys w) (steady_ok (Q:=Q) _ Hw)) as [Hok Ht]. unfold final in *. rewrite Hs in *.
  by apply (steady_frame (Q:=Q) (db (sys w))).
Qed.

Lemma kept_attempt {A} (m : W E A) : kept m -> kept (attempt m).
Proof. intros Hm w Hw. specialize (Hm w Hw). unfold final, attempt in *. by destruct (m w) as [w' [a|e]]. Qed.

Lemma kept_try {A} (m : W E A) : kept m -> kept (try_ m).
Proof. intros Hm w Hw. specialize (Hm w Hw). unfold final, try_ in *. by destruct (m w). Qed.

Lemma kept_publish e : kept (publish e).
Proof. by intros w Hw. Qed.
Lemma kept_launched l : kept (launched l).
Proof. by intros w Hw. Qed.
Lemma kept_is_active id : kept (is_active id).
Proof. by intros w Hw. Qed.
Lemma kept_note p t k : kept (note p t k).
Proof. apply keeps_bind; [apply kept_attempt, kept_call, frame_activity|intros; apply keeps_ret]. Qed.
Lemma kept_unwrap_or {A} (m : SysM E A) d : frames m -> kept (unwrap_or m d).
Proof. intros Hm. apply keeps_bind; [by apply kept_attempt, kept_call|intros; apply keeps_ret]. Qed.
Lemma kept_target_profile a : kept (target_profile a).
Proof. apply keeps_bind; [apply kept_unwrap_or, frame_limit_policy|intros; apply keeps_ret]. Qed.
Lemma kept_accounts_configured : kept provider_accounts_configured.
Proof. apply keeps_bind; [apply kept_attempt, kept_call, frame_limit_policy|intros; apply keeps_ret]. Qed.
Lemma kept_fallback_decision a r : kept (fallback_decision a r).
Proof.
  apply keeps_bind; [apply kept_call, frame_detect_agents|intros]. apply keeps_bind; [apply kept_unwrap_or, frame_limit_policy|].
  intros; apply keeps_ret.
Qed.
Lemma kept_read_thread id : kept (read_thread (V:=V) id).
Proof. by intros w Hw. Qed.
Lemma kept_spawn id a p m : kept (spawn_thread id a p m).
Proof. apply kept_launched. Qed.
End Steady.

(** The stored thread. *)
Definition holds (id : string) (x : AgentThread.t) (d : AgentDb) : Prop :=
  agent_db_ok (V:=V) d /\ value (Threads.get_thread (V:=V) id) d = Ok (Some x).
Definition homed (id : string) (h : Home) (d : AgentDb) : Prop := exists x, holds id x d /\ at_home h x.

#[global] Instance holds_steady id x : Steady (holds id x).
Proof.
  split; [by intros d []|]. intros d d' [_ Hx] Hok Ht. split; [done|]. rewrite <- Hx. unfold value, Threads.get_thread.
  rewrite !fetch_by_id_eq. cbn. by rewrite Ht.
Qed.
#[global] Instance homed_steady id h : Steady (homed id h).
Proof.
  split; [by intros d (x & [] & _)|]. intros d d' (x & Hx & Hh) Hok Ht. exists x. split; [|done].
  by apply (steady_frame (Q:=holds id x) d).
Qed.

(** An edit leaves the columns that [save] does not write, and the group. *)
Definition same_row (x y : AgentThread.t) : Prop :=
  y.(AgentThread.id) = x.(AgentThread.id) /\ y.(AgentThread.project_id) = x.(AgentThread.project_id) /\
  y.(AgentThread.group_id) = x.(AgentThread.group_id) /\
  y.(AgentThread.force_managed_workspace) = x.(AgentThread.force_managed_workspace) /\
  y.(AgentThread.created_at) = x.(AgentThread.created_at).

Lemma saved_columns x y r ts :
  thread_try_from r = Ok x -> same_row x y ->
  AgentThreadRow.set_updated_at ts (thread_columns y r) = thread_row (AgentThread.set_updated_at ts y).
Proof.
  intros (Hr1 & Hr2 & Hr3 & Hr4 & Hr5)%thread_kept_columns (Hy1 & Hy2 & Hy3 & Hy4 & Hy5).
  unfold thread_columns, thread_row, AgentThreadRow.set_updated_at.
  f_equal; cbn; congruence.
Qed.

(** Saving fails only when the clock does. *)
Definition clock_fails : Prop := exists (s s' : Sys E) e, now s = (s', Err e).

Lemma save_holds `{!ServicesFrame} id x y :
  same_row x y ->
  triple (in_db (holds id x)) (save_thread (V:=V) y)
    (fun saved w => (exists ts, saved = AgentThread.set_updated_at ts y) /\ in_db (holds id saved) w)
    (fun w => in_db (holds id x) w /\ clock_fails).
Proof.
  intros Hy w Hw. unfold save_thread. rewrite M_bind_unfold. pose proof (kept_call (holds id x) now frame_now w Hw) as Hnow.
  unfold final, call in Hnow. unfold call. destruct (now (sys w)) as [s1 [ts|e]] eqn:Hclock; [|split; [done|by eexists _, _, _]].
  set (w1 := mkWorld s1 _ _) in *. cbn in Hnow. destruct Hnow as [Hdb Hx].
  destruct (found_row _ id x Hx) as (r & Hf & Hin & Hid & Hr).
  pose proof (thread_id_column r x Hr : AgentThread.id x = row_id r) as Hxid.
  destruct (updated_then_read (T:=AgentThread.t) (db (sys w1)) id
    (fun r => AgentThreadRow.set_updated_at ts (thread_columns y r)) r (AgentThread.set_updated_at ts y)) as (n & d' & Hupd & Hget & _);
    [done..|by apply (saved_columns x)| |].
  { destruct (host_table (T:=AgentThread.t) _ Hdb) as [_ Hrows]. destruct (Hrows r Hin) as [_ Href].
    destruct Hy as (_ & Hp & Hg & _), (thread_kept_columns r x Hr) as (_ & Hrp & Hrg & _).
    revert Href. cbn. by rewrite Hp, Hg, Hrp, Hrg. }
  assert (agent_db_ok (V:=V) d') as Hok'.
  { pose proof (keeps_update_rows (V:=V) (T:=AgentThread.t) (by_id id)
      (fun r => AgentThreadRow.set_updated_at ts (thread_columns y r)) ltac:(done) ltac:(intros; apply thread_columns_ok) _ Hdb) as Hk.
    unfold final in Hk. by rewrite Hupd in Hk. }
  assert (AgentThread.id y = id) as Hyid by (destruct Hy as [-> _]; by rewrite Hxid).
  unfold on_db, Threads.save. rewrite M_bind_unfold, Hyid, Hupd, M_bind_unfold. unfold Threads.get_thread.
  rewrite (fetch_found d' id _ Hget). unfold lift_opt, lift. cbn. split; [by exists ts|]. by split.
Qed.

(** *** Rules of the handlers *)
Section Rules.
Context `{!ServicesFrame} (id : string) (h : Home).
Abbreviation stored x := (in_db (holds id x)).
Abbreviation home_kept := (keeps (in_db (homed id h))).

(** From the stored [x], [m] ends with the home [h]. *)
Definition lands (x : AgentThread.t) {A} (m : W E A) : Prop := forall w, stored x w -> in_db (homed id h) (final m w).

Lemma lands_bind {A B} x (m : W E A) (f : A -> W E B) :
  at_home h x -> keeps (stored x) m -> (forall a, lands x (f a)) -> lands x (m ≫= f).
Proof.
  intros Hx Hm Hf w Hw. specialize (Hm w Hw). unfold lands, final in *. rewrite M_bind_unfold.
  destruct (m w) as [w' [a|e]]; [by apply Hf|]. by exists x.
Qed.

Lemma lands_then {A B} x (m : W E A) (f : A -> W E B) : lands x m -> (forall a, home_kept (f a)) -> lands x (m ≫= f).
Proof.
  intros Hm Hf w Hw. specialize (Hm w Hw). unfold final in *. rewrite M_bind_unfold.
  destruct (m w) as [w' [a|e]]; [by apply Hf|done].
Qed.

Lemma lands_keeps {A} x (m : W E A) : at_home h x -> keeps (stored x) m -> lands x m.
Proof. intros Hx Hm w Hw. exists x. split; [by apply Hm|done]. Qed.

Lemma lands_save x y : same_row x y -> at_home h x -> at_home h y -> lands x (attempt (save_thread (V:=V) y)).
Proof.
  intros Hy Hx Hh w Hw. pose proof (save_holds id x y Hy w Hw) as Hs. unfold final, attempt.
  destruct (save_thread y w) as [w' [saved|e]]; [|destruct Hs; by exists x]. destruct Hs as [[ts ->] Hs]. eexists. split; [exact Hs|done].
Qed.

Lemma lands_save_and x y k :
  same_row x y -> at_home h x -> at_home h y -> (forall saved, home_kept (k saved)) -> lands x (save_and (V:=V) y k).
Proof.
  intros Hy Hx Hh Hk. apply lands_then; [by apply lands_save|]. intros [saved|]; [|apply keeps_ret].
  apply keeps_bind; [apply kept_publish|intros _; apply Hk].
Qed.

Lemma with_thread_homed k : (forall x, at_home h x -> lands x (k x)) -> home_kept (with_thread (V:=V) id k).
Proof.
  intros Hk w (x & [Hok Hx] & Hh). unfold final, with_thread. rewrite M_bind_unfold. unfold attempt, read_thread, on_db.
  unfold Threads.get_thread. rewrite (fetch_found _ id x Hx). apply (Hk x Hh). by split.
Qed.
End Rules.

(** *** The handlers *)
Section Keep.
Context `{!ServicesFrame} (id : string) (h : Home).
Abbreviation home_kept := (keeps (in_db (homed id h))).

Ltac by_rule R := apply R; apply _.
Ltac edited := unfold same_row, to_agent_fallback, to_account_fallback, to_local_fallback, back_to_cloud, remember_original,
  remember_original_account; repeat case_match; done.

Lemma home_note_spawn p k a pm m (thread_id : string) : home_kept (_ ← note p None k; spawn_thread thread_id a pm m).
Proof. apply keeps_bind; [by_rule kept_note|intros; by_rule kept_spawn]. Qed.

Lemma home_local_fallback current target policy :
  home_kept (start_thread_local_fallback (V:=V) id current target policy).
Proof.
  apply with_thread_homed; intros x Hx. apply lands_bind; [done|by_rule kept_is_active|]. intros [].
  - apply lands_then; [|intros; apply keeps_ret]. by apply lands_save.
  - apply lands_then; [|intros; by_rule kept_spawn].
    apply lands_save_and; [edited|done|by apply at_home_local|]. intros; by_rule kept_note.
Qed.

Lemma home_resume_cloud current kind : home_kept (resume_thread_cloud_after_network (V:=V) id current kind).
Proof.
  apply with_thread_homed; intros x Hx. apply lands_bind; [done|by_rule kept_is_active|]. intros [].
  - apply lands_save_and; [done..|]. intros; apply keeps_ret.
  - apply lands_then; [|intros; by_rule kept_spawn].
    apply lands_save_and; [edited|done|by apply at_home_back_to_cloud|]. intros; by_rule kept_note.
Qed.

Lemma home_wait reset_at state k :
  (forall saved, home_kept (k saved)) ->
  home_kept (with_thread (V:=V) id (fun thread => save_and (V:=V) (wait_for_reset reset_at state thread) k)).
Proof. intros Hk. apply with_thread_homed; intros x Hx. by apply lands_save_and. Qed.

Lemma home_account_fallback current next :
  h.1.2 = None /\ h.2 = None -> home_kept (start_thread_account_fallback (V:=V) id current next).
Proof.
  intros Hc. apply with_thread_homed; intros x Hx. apply lands_bind; [done|by_rule kept_target_profile|]. intros profile.
  apply lands_save_and; [edited|done|by apply at_home_account|]. intros; apply home_note_spawn.
Qed.

Lemma kept_attempt_call {A} (m : SysM E A) : frames m -> home_kept (attempt (call m)).
Proof. intros. apply kept_attempt. by apply (kept_call _). Qed.

(** A switch of account is possible only if some reading finds a ready one. *)
Definition no_account_ready : Prop :=
  forall account s s' next, next_ready_provider_account account s <> (s', Ok (Some next)).

Lemma home_next_account {B} (b : bool) account (f : option (option AccountRuntime.t) -> W E B) :
  (forall next, home_kept (f next)) \/ no_account_ready /\ home_kept (f None) /\ home_kept (f (Some None)) ->
  home_kept (next ← (if b then attempt (call (next_ready_provider_account account)) else mret None); f next).
Proof.
  intros [Hf|(Hno & Hnone & Hsome)].
  { apply keeps_bind; [|done]. destruct b; [apply kept_attempt_call; apply frame_next_account|apply keeps_ret]. }
  destruct b; [|exact Hnone].
  intros w Hw. pose proof (kept_attempt_call _ (frame_next_account account) w Hw) as Hw'. unfold final in *.
  rewrite M_bind_unfold. unfold attempt, call in *. specialize (Hno account (sys w)).
  destruct (next_ready_provider_account account (sys w)) as [s [[next|]|e]]; cbn in *.
  - by destruct (Hno s next).
  - by apply Hsome.
  - by apply Hnone.
Qed.

Lemma home_start_fallback current account reset_at :
  (h.1.2 = None /\ h.2 = None) \/ no_account_ready -> home_kept (start_thread_fallback (V:=V) id current account reset_at).
Proof.
  intros Hc. apply keeps_bind; [by_rule kept_accounts_configured|]. intros [].
  - apply keeps_bind; [apply kept_attempt_call; apply frame_limit_policy|]. intros policy. cbv zeta.
    assert (forall own (b : bool) reset_at state, home_kept (reset_at ← (if b then
              earliest ← attempt (call earliest_provider_account_reset); mret (opt_or (mjoin earliest) reset_at)
            else mret (opt_or own reset_at));
        with_thread (V:=V) id (fun thread => save_and (V:=V) (wait_for_reset reset_at state thread) (fun _ => mret ())))) as Hw.
    { intros own b r state. apply keeps_bind; [|intros; apply home_wait; intros; apply keeps_ret].
      destruct b; [|apply keeps_ret]. apply keeps_bind; [apply kept_attempt_call; apply frame_earliest_reset|intros; apply keeps_ret]. }
    apply home_next_account. destruct Hc as [Hc|Hno]; [left|right; split; [exact Hno|split]].
    1: intros [[next|]|]; [by apply home_account_fallback|..].
    all: apply keeps_bind; [|intros; apply Hw].
    all: destruct account; [apply kept_attempt_call; apply frame_account_reset|apply keeps_ret].
  - apply keeps_bind; [apply kept_attempt; by_rule kept_fallback_decision|]. intros [[agent sb|r|]|]; [..|apply keeps_ret].
    + apply with_thread_homed; intros x Hx. apply lands_bind; [done|by_rule kept_target_profile|]. intros profile.
      apply lands_then; [|intros; by_rule kept_spawn].
      apply lands_save_and; [edited|done|by apply at_home_agent|]. intros; by_rule kept_note.
    + apply keeps_bind; [apply (kept_unwrap_or _), frame_local_policy|]. intros policy.
      apply keeps_bind; [apply kept_attempt_call; apply frame_local_target|].
      intros [[target|]|]; [apply home_local_fallback|..]; apply home_wait; intros; by_rule kept_note.
    + apply with_thread_homed; intros x Hx. apply lands_keeps; [done|by_rule kept_note].
Qed.

Lemma kept_case_try {A B} (m : SysM E A) (f : result CoreError A -> W E B) :
  frames m -> (forall r, home_kept (f r)) -> home_kept (try_ (call m) ≫= f).
Proof. intros Hm Hf. apply keeps_bind; [by apply kept_try, (kept_call _)|done]. Qed.

Lemma home_network_loss current : home_kept (handle_thread_network_loss (V:=V) id current).
Proof.
  apply keeps_bind; [apply (kept_unwrap_or _), frame_local_policy|]. intros policy. apply keeps_bind.
  - destruct (LocalModelPolicy.auto_resume_cloud policy); [|apply keeps_ret].
    apply kept_case_try; [apply frame_connectivity|]. intros [online|e]; [apply keeps_ret|].
    apply keeps_bind; [by_rule kept_note|intros; apply keeps_ret].
  - intros []; [apply home_resume_cloud|]. destruct (LocalModelPolicy.use_local_fallback policy); [|apply keeps_ret].
    apply kept_case_try; [apply frame_local_target|]. intros [[target|]|e]; [apply home_local_fallback|by_rule kept_note..].
Qed.

(** A handler that runs from a thread already read. *)
Lemma lands_home {A} x (m : W E A) : at_home h x -> home_kept m -> lands id h x m.
Proof. intros Hx Hm w Hw. apply Hm. by exists x. Qed.

Lemma home_switchback : home_kept (maybe_mark_thread_switchback_ready (V:=V) id).
Proof.
  apply with_thread_homed; intros x Hx. destruct (AgentThread.original_agent x) as [original|] eqn:Ho; [|by apply lands_keeps, keeps_ret].
  destruct (AgentThread.switch_back x); [|by apply lands_keeps, keeps_ret].
  apply lands_bind; [done|by_rule kept_accounts_configured|]. intros configured. apply lands_bind; [done| |].
  { destruct configured; [|apply keeps_ret].
    apply keeps_bind; [apply kept_attempt, (kept_call _), frame_account_statuses|intros; apply keeps_ret]. }
  intros []; [|apply lands_save_and; [done..|intros; apply keeps_ret]].
  destruct (AgentThread.fallback_local_provider x).
  - apply lands_bind; [done|apply (kept_unwrap_or _), frame_local_policy|]. intros policy.
    destruct (LocalModelPolicy.switch_back_to_cloud policy); [|by apply lands_keeps, keeps_ret].
    apply lands_bind; [done|apply kept_attempt, (kept_call _), frame_connectivity|].
    intros [[]|]; [apply lands_home, home_resume_cloud; done|apply lands_save_and; [done..|intros; apply keeps_ret]|by apply lands_keeps, keeps_ret].
  - apply lands_bind; [done|apply (kept_call _), frame_now|]. intros ts.
    destruct (is_some_and _ _); [by apply lands_keeps, keeps_ret|]. apply lands_bind; [done|by_rule kept_note|]. intros _.
    apply lands_save_and; [done|done|by apply at_home_switch_back|intros; by_rule kept_note].
Qed.

Lemma home_redeemed agent : home_kept (with_thread (V:=V) id (fun thread =>
  let thread := AgentThread.set_status TaskStatus.Queued thread in
  let thread := AgentThread.set_handoff_state "credit_reset_redeemed" thread in
  _ ← save_and (V:=V) thread (fun _ => mret ());
  spawn_thread id agent (parse_permission thread.(AgentThread.permission)) None)).
Proof.
  apply with_thread_homed; intros x Hx. apply lands_then; [|intros; by_rule kept_spawn].
  apply lands_save_and; [done..|intros; apply keeps_ret].
Qed.

Lemma home_completed agent (completed : bool) : home_kept (
  _ ← (if completed then maybe_mark_thread_switchback_ready (V:=V) id else mret ());
  next ← attempt (call (pop_queued_turn id));
  match next with
  | Some (Some next) =>
      thread ← attempt (read_thread (V:=V) id);
      let next_agent := default next.(QueuedTurn.agent_kind) (mjoin thread ≫= AgentThread.active_agent) in
      spawn_thread agent next_agent (parse_permission next.(QueuedTurn.permission))
        (Some (PendingThreadMessage.from_queued next))
  | _ => mret ()
  end).
Proof.
  apply keeps_bind; [destruct completed; [apply home_switchback|apply keeps_ret]|]. intros _.
  apply keeps_bind; [apply kept_attempt, (kept_call _), frame_pop|]. intros [[next|]|]; [|apply keeps_ret..].
  apply keeps_bind; [apply kept_attempt; by_rule kept_read_thread|]. intros; by_rule kept_spawn.
Qed.
End Keep.
End Handlers.

(** ** Chains of fallbacks *)
Inductive Move :=
| ToAgent (current agent : AgentKind.t) (switch_back : bool) (reset_at : option Z) (profile : option string * option string)
| ToAccount (current : AgentKind.t) (next : AccountRuntime.t) (profile : option string * option string)
| ToLocal (current : AgentKind.t) (target : LocalModelTarget.t) (policy : LocalModelPolicy.t)
| Waits (reset_at : option Z) (state : string).

Section Chains.
Context {E : Type} `{CoreServices E}.

Definition move (x : AgentThread.t) (m : Move) : AgentThread.t :=
  match m with
  | ToAgent current agent sb reset_at profile => to_agent_fallback current agent sb reset_at profile x
  | ToAccount current next profile => to_account_fallback current next profile x
  | ToLocal current target policy => to_local_fallback current target policy x
  | Waits reset_at state => wait_for_reset reset_at state x
  end.

Definition leaves (m : Move) : option AgentKind.t :=
  match m with
  | ToAgent current _ _ _ _ | ToAccount current _ _ | ToLocal current _ _ => Some current
  | Waits _ _ => None
  end.

(** The agent the first move away leaves. *)
Fixpoint first_left (moves : list Move) : option AgentKind.t :=
  match moves with [] => None | m :: rest => opt_or (leaves m) (first_left rest) end.

Definition is_account (m : Move) : bool := match m with ToAccount _ _ _ => true | _ => false end.

Lemma move_original x m : (move x m).(AgentThread.original_agent) = opt_or x.(AgentThread.original_agent) (leaves m).
Proof.
  destruct m; cbn; unfold to_agent_fallback, to_account_fallback, to_local_fallback, remember_original, remember_original_account.
  all: destruct (AgentThread.original_agent x) eqn:Ho; cbn; repeat case_match; cbn; by rewrite ?Ho.
Qed.

Lemma moves_original moves x :
  (fold_left move moves x).(AgentThread.original_agent) = opt_or x.(AgentThread.original_agent) (first_left moves).
Proof.
  revert x. induction moves as [|m moves IH]; intros x; cbn; [by destruct (AgentThread.original_agent x)|].
  rewrite IH, move_original. by destruct (AgentThread.original_agent x), (leaves m).
Qed.

Lemma at_home_move h x m : (is_account m = true -> h.1.2 = None /\ h.2 = None) -> at_home h x -> at_home h (move x m).
Proof.
  intros Hc Hx. destruct m; [by apply at_home_agent|apply at_home_account; auto|by apply at_home_local|exact Hx].
Qed.

Lemma at_home_moves h moves x :
  (existsb is_account moves = true -> h.1.2 = None /\ h.2 = None) -> at_home h x -> at_home h (fold_left move moves x).
Proof.
  revert x. induction moves as [|m moves IH]; intros x Hc Hx; cbn in *; [done|].
  apply IH; [intros Ha; apply Hc; by rewrite Ha, orb_true_r|]. apply at_home_move; [|done].
  intros Ha. apply Hc. by destruct (is_account m).
Qed.
End Chains.

(** ** Properties *)
Section Properties.
Context {V : Type} `{JsonOk V} `{!BudgetSerde V} `{!BudgetSerdeOk V} {E : Type} `{CoreServices E}.

(** C30: whatever ended a session (a lost network, a limit, a redeemed credit, a
    plain completion) and whatever follows (another agent, another account, a
    local model, a wait, the return to the original agent, in any chain), the
    thread's home does not change: the model, reasoning, local provider and
    address it runs on outside a fallback are either current or remembered.  The
    condition: either the home has no local provider and no address, or no other
    account is ever ready, because an account switch does not remember them. *)
Theorem home_preserved `{!ServicesFrame (V:=V) (E:=E)} id h agent o :
  (h.1.2 = None /\ h.2 = None) \/ no_account_ready (E:=E) ->
  keeps (in_db (homed (V:=V) id h)) (after_session (V:=V) id agent o).
Proof.
  intros Hc. unfold after_session. destruct (budget_blocks o); [apply keeps_ret|].
  destruct (saw_network_loss o && _); [apply keeps_ret|]. destruct (saw_network_loss o); [by apply home_network_loss|].
  destruct (saw_usage_limit o); [|by apply home_completed]. destruct (is_percentage_budget _); [apply keeps_ret|].
  destruct (credit_redeemed o); [by apply home_redeemed|by apply home_start_fallback].
Qed.

(** any chain of fallbacks and waits is undone by the return: a thread that
    was not falling back gets its agent (the one the first move left), model,
    reasoning and local provider back, and nothing of the fallback remains.  The
    same holds for the return after a network loss. *)
Theorem fallback_round_trip (moves : list Move) (x : AgentThread.t) (original current : AgentKind.t) :
  x.(AgentThread.original_agent) = None -> remembers_nothing x ->
  (existsb is_account moves = true -> x.(AgentThread.local_provider) = None /\ x.(AgentThread.local_base_url) = None) ->
  first_left moves = Some original ->
  forall y, let z := fold_left move moves x in y = switch_back_to original z \/ y = back_to_cloud current z ->
  y.(AgentThread.active_agent) = Some original /\
  y.(AgentThread.model) = x.(AgentThread.model) /\ y.(AgentThread.reasoning) = x.(AgentThread.reasoning) /\
  y.(AgentThread.local_provider) = x.(AgentThread.local_provider) /\
  y.(AgentThread.local_base_url) = x.(AgentThread.local_base_url) /\
  y.(AgentThread.original_agent) = None /\ y.(AgentThread.fallback_agent) = None /\
  y.(AgentThread.fallback_model) = None /\ y.(AgentThread.switch_back_pending) = false.
Proof.
  intros Ho Hr Hc Hf y z Hy.
  assert (Hz : z.(AgentThread.original_agent) = Some original) by (unfold z; by rewrite moves_original, Ho, Hf).
  destruct (at_home_moves (home x) moves x) as [Hh _]; [unfold home; by rewrite Ho|done|].
  change (home z = home x) in Hh. revert Hh. unfold home. rewrite Ho, Hz. intros [= H1' H2' H3' H4'].
  destruct Hy as [-> | ->]; [|unfold back_to_cloud; rewrite Hz]; cbn; split_and!; done.
Qed.
End Properties.

Module DemoFallback.
Import DemoCore DemoStore.

#[global] Instance demo_frame : ServicesFrame (V:=Tree.t) (E:=Env).
Proof. split; intros; intros s Hs; done. Qed.

(** A session of the chat on Claude Code that ended at a usage limit. *)
Definition limited : SessionEnd :=
  mkSessionEnd TaskBudget.Unlimited true true false false false false true false false None (Some 1000).

Definition after : World Env := final (after_session (V:=Tree.t) "h" AgentKind.ClaudeCode limited) (world DemoCore.env db).

Definition chat : AgentThread.t := Threads.new_thread 4 "h" new_thread.

Lemma chat_stored : holds (V:=Tree.t) "h" chat db.
Proof. split; [exact db_ok|]. vm_compute. reflexivity. Qed.

Definition llama : LocalModelTarget.t := LocalModelTarget.mk LocalModelProviderKind.Ollama "llama3" None.
Definition moves : list Move :=
  [ToAgent AgentKind.ClaudeCode AgentKind.Codex true (Some 1000) (Some "gpt-5", None); Waits (Some 2000) "waiting_for_reset";
   ToLocal AgentKind.Codex llama default_local_model_policy].
End DemoFallback.

Section Witnesses.
Import DemoCore DemoStore DemoFallback.

Lemma home_preserved_witness :
  in_db (homed (V:=Tree.t) "h" (None, None, None, None)) after /\
  after.(launches) = [SpawnThread "h" AgentKind.Codex PermissionPolicy.WorkspaceWrite None].
Proof.
  split; [|vm_compute; reflexivity].
  apply (home_preserved (V:=Tree.t) "h" (None, None, None, None) AgentKind.ClaudeCode limited ltac:(by left)).
  exists chat. split; [exact chat_stored|]. split; [reflexivity|done].
Defined.

Lemma fallback_round_trip_witness :
  let y := switch_back_to AgentKind.ClaudeCode (fold_left move moves chat) in
  y.(AgentThread.active_agent) = Some AgentKind.ClaudeCode /\ y.(AgentThread.model) = None /\
  (fold_left move moves chat).(AgentThread.model) = Some "llama3".
Proof.
  destruct (fallback_round_trip moves chat AgentKind.ClaudeCode AgentKind.Codex ltac:(reflexivity) ltac:(done)
    ltac:(done) ltac:(reflexivity) _ (or_introl eq_refl)) as (Ha & Hm & _).
  split; [exact Ha|split; [rewrite Hm; reflexivity|reflexivity]].
Defined.
End Witnesses.
