(* ===== verification/TurnProps.v ===== *)
(** * The supervision of a turn: laws

    Every turn settles, whatever the provider sends; no live caret is left in
    the transcript; and the stored status of the thread says how the turn ended. *)
From Stdlib Require Import Ascii String.
From S2P Require Import Prelude RustStr Json Enums Records WorkGraphDb WorkGraphInv Limits Budget SqlTable AgentDb AgentDbProps AgentDbTheorems ThreadText CoreWorld ThreadFallback TurnLoop CoreDemo FallbackProps.
#[local] Open Scope string_scope.
#[local] Open Scope Z_scope.

Section Turn.
Context {V : Type} `{JsonOk V} `{!BudgetSerde V} `{Chrono} {E : Type} `{CoreServices E} `{!TurnServices E} (info : TurnInfo).
Abbreviation Turn := (Turn V E).
Implicit Types s : Turn.

(** ** What the steps show *)

(** [s'] has shown [l] more than [s], and its stream is [st]. *)
Definition stepped s (l : list (AgentThreadEvent.t V)) (st : option (AgentThreadEvent.t V)) s' : Prop :=
  s'.(effects) = (s.(effects) ++ (Shown <$> l))%list /\ s'.(streaming_assistant) = st.

(** Nothing is shown, the stream stays. *)
Definition quiet (f : Turn -> Turn) : Prop := forall s, stepped s [] s.(streaming_assistant) (f s).

Lemma stepped_refl s : stepped s [] s.(streaming_assistant) s.
Proof. split; cbn; by rewrite ?app_nil_r. Qed.

Lemma stepped_trans s l st s' l' st' s'' : stepped s l st s' -> stepped s' l' st' s'' -> stepped s (l ++ l') st' s''.
Proof. intros [Hl _] [Hl' ?]. split; [|done]. by rewrite Hl', Hl, fmap_app, app_assoc. Qed.

Lemma ask_spec {A} (m : W E A) s : exists w a, ask m s = (set_world w s, a).
Proof. unfold ask. destruct (m (world s)) as [w r]. eauto. Qed.

Ltac asked :=
  match goal with
  | |- context [ask ?m ?s] => let w := fresh "w" in let a := fresh "a" in destruct (ask_spec m s) as (w & a & ->)
  end.
(** Calls, limits and budgets: what is left is the same stream and effects. *)
Ltac quietly :=
  intros s; unfold with_stored_thread, timed, run_; repeat (asked || case_match); simplify_eq/=;
  split; cbn; by rewrite ?app_nil_r.

Lemma quiet_run m : quiet (run_ m).
Proof. quietly. Qed.

Lemma quiet_tokens i o : quiet (on_tokens info i o).
Proof. unfold on_tokens. quietly. Qed.

Lemma quiet_quota w u r f : quiet (on_quota info w u r f).
Proof. unfold on_quota. quietly. Qed.

Lemma quiet_limit r : quiet (on_usage_limit info r).
Proof. unfold on_usage_limit. quietly. Qed.

Lemma quiet_network : quiet (on_network_unavailable info).
Proof. unfold on_network_unavailable. quietly. Qed.

Lemma quiet_ended status : quiet (on_session_ended info status).
Proof. unfold on_session_ended. quietly. Qed.

Lemma quiet_handle ev : quiet (handle info ev).
Proof.
  destruct ev; try exact stepped_refl; cbn [handle]; [apply quiet_run|apply quiet_tokens|apply quiet_quota|
    apply quiet_limit|apply quiet_network|apply quiet_ended].
Qed.

Lemma quiet_requeue : quiet (requeue info).
Proof. unfold requeue. quietly. Qed.

(** ** Live carets *)

Definition shown (l : list (Effect V)) : list (AgentThreadEvent.t V) :=
  omap (fun e => match e with Shown ev => Some ev | _ => None end) l.

(** Shown with a caret that says more text is coming, and shown without. *)
Definition live (e : AgentThreadEvent.t V) : Prop :=
  e.(AgentThreadEvent.kind) = "assistant_text" /\ e.(AgentThreadEvent.data) = streaming true.
Definition settles (e' e : AgentThreadEvent.t V) : Prop :=
  e'.(AgentThreadEvent.id) = e.(AgentThreadEvent.id) /\ e'.(AgentThreadEvent.data) = streaming false.

(** Every caret was replaced later, or belongs to the open stream. *)
Fixpoint settled (open : option string) (l : list (AgentThreadEvent.t V)) : Prop :=
  match l with
  | [] => True
  | e :: post =>
      (live e -> open = Some e.(AgentThreadEvent.id) \/ Exists (fun e' => settles e' e) post) /\ settled open post
  end.

Lemma settled_app open l l' : settled open l -> settled open l' -> settled open (l ++ l').
Proof.
  intros Hl Hl'. induction l as [|e l IH]; [done|]. destruct Hl as [He Hl]. cbn. split; [|auto].
  intros [?|Hex]%He; [by left|right]. apply Exists_app. by left.
Qed.

Lemma streaming_distinct : streaming (V:=V) true <> streaming false.
Proof.
  intros Heq. apply (f_equal (fun v => json_get v "streaming")) in Heq. unfold streaming in Heq.
  rewrite !json_get_object in Heq by (cbn; repeat constructor; set_solver).
  cbn in Heq. injection Heq as Heq. by apply json_bool_distinct in Heq.
Qed.

Lemma settled_close i l e :
  settled (Some i) l -> e.(AgentThreadEvent.id) = i -> e.(AgentThreadEvent.data) = streaming false -> settled None (l ++ [e]).
Proof.
  intros Hl Hi Hd. induction l as [|x l IH]; cbn in *.
  - split; [|done]. intros [_ Hlive]. rewrite Hd in Hlive. by apply symmetry, streaming_distinct in Hlive.
  - destruct Hl as [Hx Hl]. split; [|auto]. intros Hlive. right. apply Exists_app.
    destruct (Hx Hlive) as [[= Heq]|Hex]; [right|by left]. constructor. split; [congruence|done].
Qed.

Lemma settled_open i l : settled None l -> settled i l.
Proof. induction l as [|e l IH]; [done|]. intros [He Hl]. split; [|auto]. intros [?|?]%He; [done|by right]. Qed.

(** The invariant of the loop. *)
Definition carets s : Prop :=
  settled (AgentThreadEvent.id <$> s.(streaming_assistant)) (shown s.(effects)).

Lemma shown_app l l' : shown (l ++ l') = (shown l ++ shown l')%list.
Proof. apply omap_app. Qed.
Lemma shown_shown l : shown (Shown <$> l) = l.
Proof. induction l as [|e l IH]; [done|]. cbn. by f_equal. Qed.

Lemma carets_quiet f s : quiet f -> carets s -> carets (f s).
Proof. intros Hf Hs. destruct (Hf s) as [He Hst]. unfold carets. by rewrite He, Hst, app_nil_r. Qed.

Lemma carets_stepped s l st s' :
  stepped s l st s' -> settled (AgentThreadEvent.id <$> st) (shown s.(effects) ++ l) -> carets s'.
Proof. intros [He Hst] Hl. unfold carets. by rewrite He, Hst, shown_app, shown_shown. Qed.

Lemma make_event_spec ev s :
  exists w id ts, make_event info ev s = (set_world w s, map_thread_event id ts info.(thread_id) info.(turn_id) ev).
Proof. unfold make_event. destruct (stamp _) as [sys [id ts]]. eauto. Qed.

Lemma not_live_map id ts t u ev :
  (forall d, ev <> AssistantTextDelta d) -> ~ live (map_thread_event (V:=V) id ts t u ev).
Proof.
  intros Hev. destruct ev; try by intros [? _]. 2: by destruct (Hev delta).
  intros [_ Hd]. cbn in Hd. apply (f_equal (fun v => json_get v "streaming")) in Hd. unfold streaming in Hd.
  by rewrite !json_get_object in Hd by (cbn; repeat constructor; set_solver).
Qed.

Lemma stepped_record ev s :
  exists id ts, stepped s [map_thread_event id ts info.(thread_id) info.(turn_id) ev] s.(streaming_assistant) (record_event info ev s).
Proof.
  unfold record_event. destruct (make_event_spec ev s) as (w & id & ts & ->). exists id, ts.
  unfold show. set (m := on_db _). destruct (quiet_run m (set_world w s)) as [He Hst].
  split; cbn; [|done]. by rewrite He, app_nil_r.
Qed.

Lemma carets_record ev s : (forall d, ev <> AssistantTextDelta d) -> carets s -> carets (record_event info ev s).
Proof.
  intros Hev Hs. destruct (stepped_record ev s) as (id & ts & Hstep). apply (carets_stepped _ _ _ _ Hstep).
  apply settled_app; [done|]. split; [|done]. by intros ?%not_live_map.
Qed.

Lemma stepped_store e s : stepped s [] s.(streaming_assistant) (store e s).
Proof. apply quiet_run. Qed.

Lemma stepped_close s :
  stepped s (match s.(streaming_assistant) with Some st => [with_data (streaming false) st] | None => [] end) None (close_stream s).
Proof.
  unfold close_stream. destruct (streaming_assistant s) as [st|] eqn:Hst.
  - set (e := with_data _ st). destruct (stepped_store e (set_stream None s)) as [He Hs].
    split; cbn; [|done]. by rewrite He, app_nil_r.
  - split; cbn; [by rewrite app_nil_r|done].
Qed.

Lemma carets_close s : carets s -> carets (close_stream s).
Proof.
  intros Hs. apply (carets_stepped _ _ _ _ (stepped_close s)). unfold carets in Hs.
  destruct (streaming_assistant s) as [st|]; [|by rewrite app_nil_r]. by apply (settled_close st.(AgentThreadEvent.id)).
Qed.

Lemma carets_tick due s : carets s -> carets (on_tick due s).
Proof.
  intros Hs. unfold on_tick. destruct (stream_dirty s); [|done].
  destruct (streaming_assistant s) as [st|] eqn:Hst; [|done].
  assert (carets (show st s)) as Hshow.
  { unfold carets in *. cbn. rewrite Hst, shown_app in *. apply settled_app; [done|]. cbn. by auto. }
  destruct due; [|exact Hshow]. apply (carets_quiet (store st)); [apply quiet_run|exact Hshow].
Qed.

Lemma only_tick due s e :
  s.(streaming_assistant) = Some e ->
  exists l, (on_tick due s).(effects) = (s.(effects) ++ (Shown <$> l))%list /\
    (on_tick due s).(streaming_assistant) = Some e /\ Forall (fun x => x = e) l.
Proof.
  intros Hst. unfold on_tick. destruct (stream_dirty s); [|exists []; by rewrite app_nil_r]. rewrite Hst. exists [e].
  destruct due; [destruct (stepped_store e (show e s)) as [He Hs]|]; (split_and!; [..|by constructor]); cbn;
    [by rewrite He, app_nil_r|by rewrite Hs|done|done].
Qed.

Lemma stepped_text text st s :
  exists e, settles e st /\ e.(AgentThreadEvent.text) = Some text /\ stepped s [e] None (on_text text st s).
Proof.
  unfold on_text. set (e := with_data _ _). exists e. do 2 (split; [done|]).
  destruct (stepped_store e (set_stream None (set_dirty false s))) as [He Hs]. split; cbn; [|done]. by rewrite He, app_nil_r.
Qed.

Lemma carets_text text st s : s.(streaming_assistant) = Some st -> carets s -> carets (on_text text st s).
Proof.
  intros Hst Hs. destruct (stepped_text text st s) as (e & [Hid Hd] & _ & Hstep).
  apply (carets_stepped _ _ _ _ Hstep). unfold carets in Hs. rewrite Hst in Hs. by eapply settled_close.
Qed.

Lemma stepped_first_delta delta s :
  s.(streaming_assistant) = None -> is_empty delta = false ->
  exists e, live e /\ e.(AgentThreadEvent.text) = Some delta /\ stepped s [e] (Some e) (on_delta info delta s).
Proof.
  intros Hst Hd. unfold on_delta. rewrite Hd, Hst. destruct (make_event_spec (AssistantTextDelta delta) s) as (w & id & ts & ->).
  set (e := with_data _ _). exists e. do 2 (split; [done|]).
  destruct (stepped_store e (show e (set_world w s))) as [He Hs]. split; cbn; [|done]. by rewrite He, app_nil_r.
Qed.

Lemma carets_delta delta s : carets s -> carets (on_delta info delta s).
Proof.
  intros Hs. destruct (is_empty delta) eqn:Hd; [unfold on_delta; by rewrite Hd|].
  destruct (streaming_assistant s) as [st|] eqn:Hst.
  - unfold on_delta, carets in *. rewrite Hd. by rewrite Hst in *.
  - destruct (stepped_first_delta delta s Hst Hd) as (e & _ & _ & Hstep). apply (carets_stepped _ _ _ _ Hstep).
    unfold carets in Hs. rewrite Hst in Hs. apply settled_app; [by apply settled_open|]. cbn. auto.
Qed.

(** An event that is neither a delta nor the text of an open stream. *)
Definition plain (ev : NormalizedEvent V) s : Prop :=
  (forall d, ev <> AssistantTextDelta d) /\ (forall t st, ev = AssistantText t -> s.(streaming_assistant) <> Some st).

Lemma receive_plain ev s :
  plain ev s ->
  receive info ev s =
    (let s := match ev with SessionEnded _ => close_stream (set_dirty false s) | _ => s end in
     let s := handle info ev s in
     let s := if recorded info ev then record_event info ev s else s in
     match ev with
     | SessionEnded status => run_ (apply_thread_handoff info (effective_status s status)) s
     | _ => s
     end).
Proof.
  intros [Hd Ht]. unfold receive. destruct ev; try done; [|by destruct (Hd delta)].
  destruct (streaming_assistant s) as [st|] eqn:Hst; [|done]. by destruct (Ht text st).
Qed.

Lemma event_cases ev s :
  (exists d, ev = AssistantTextDelta d) \/ (exists t st, ev = AssistantText t /\ s.(streaming_assistant) = Some st) \/ plain ev s.
Proof.
  unfold plain. destruct ev; try (right; right; split; congruence); [|by left; eexists].
  right. destruct (streaming_assistant s) as [st|]; [by left; do 2 eexists|right; split; congruence].
Qed.

Lemma carets_receive ev s : carets s -> carets (receive info ev s).
Proof.
  intros Hs. destruct (event_cases ev s) as [[d ->]|[(t & st & -> & Hst)|Hp]]; [by apply carets_delta|..].
  { cbn [receive]. rewrite Hst. by apply carets_text. }
  rewrite receive_plain by done. cbn zeta. destruct Hp as [Hp _].
  set (s1 := match ev with SessionEnded _ => _ | _ => s end).
  assert (carets s1) as Hc1 by (subst s1; destruct ev; try done; by apply carets_close).
  set (s2 := handle info ev s1). assert (carets s2) as Hc2 by (by apply (carets_quiet (handle info ev)); [apply quiet_handle|]).
  set (s3 := if recorded info ev then _ else _).
  assert (carets s3) as Hc3 by (subst s3; destruct (recorded info ev); [by apply carets_record|done]).
  destruct ev; try exact Hc3. eapply (carets_quiet (run_ _)); [apply quiet_run|exact Hc3].
Qed.

(** The end of the loop: the last event is the end of the session. *)
Lemma turn_loop_end inputs s :
  exists status s', turn_loop info inputs s = receive info (SessionEnded status) s' /\ (carets s -> carets s').
Proof.
  revert s. induction inputs as [|[due|ev] inputs IH]; intros s; cbn [turn_loop].
  - exists Failed, (record_event info disconnected s). split; [done|]. by apply carets_record.
  - destruct (IH (on_tick due s)) as (st & s' & Heq & Hc). exists st, s'. split; [done|]. intros. by apply Hc, carets_tick.
  - destruct (IH (receive info ev s)) as (st & s' & Heq & Hc).
    assert (carets s -> carets s') as Hc' by (intros; by apply Hc, carets_receive).
    destruct ev; try (exists st, s'; split; [exact Heq|exact Hc']). by exists status, s.
Qed.

Lemma stream_after_end status s : (receive info (SessionEnded status) s).(streaming_assistant) = None.
Proof.
  rewrite receive_plain by done. cbn zeta iota beta. set (s1 := close_stream _).
  assert (streaming_assistant s1 = None) as Hnone by (subst s1; apply stepped_close).
  cbn [recorded]. destruct (quiet_run (apply_thread_handoff info (effective_status
     (record_event info (SessionEnded status) (handle info (SessionEnded status) s1)) status))
     (record_event info (SessionEnded status) (handle info (SessionEnded status) s1))) as [_ ->].
  destruct (stepped_record (SessionEnded status) (handle info (SessionEnded status) s1)) as (? & ? & [_ ->]).
  by destruct (quiet_handle (SessionEnded status) s1) as [_ ->].
Qed.

(** The end of a session shows the open stream, finished, and then itself. *)
Lemma stepped_end status e s :
  s.(streaming_assistant) = Some e ->
  exists id ts,
    stepped s [with_data (streaming false) e; map_thread_event id ts info.(thread_id) info.(turn_id) (SessionEnded status)]
      None (receive info (SessionEnded status) s).
Proof.
  intros Hst. rewrite receive_plain by done. cbn zeta iota beta. cbn [recorded].
  pose proof (stepped_close (set_dirty false s)) as Hclose. cbn [set_dirty streaming_assistant] in Hclose. rewrite Hst in Hclose.
  set (s1 := close_stream _) in *.
  pose proof (quiet_handle (SessionEnded status) s1) as Hquiet.
  destruct (stepped_record (SessionEnded status) (handle info (SessionEnded status) s1)) as (id & ts & Hrec).
  set (s2 := record_event info _ _) in *. exists id, ts.
  pose proof (stepped_trans _ _ _ _ _ _ _ Hclose (stepped_trans _ _ _ _ _ _ _ Hquiet Hrec)) as Hall.
  pose proof (quiet_run (apply_thread_handoff info (effective_status s2 status)) s2) as Hrun.
  destruct (stepped_trans _ _ _ _ _ _ _ Hall Hrun) as [Heff Hnone]. split; [exact Heff|].
  rewrite Hnone. destruct Hall as [_ ->]. destruct Hquiet as [_ ->]. by destruct Hclose as [_ ->].
Qed.

(** ** The text of a stream *)

(** Ticks and deltas, and the text they add up to. *)
Definition streams (i : Input V) : bool := match i with Tick _ | Recv (AssistantTextDelta _) => true | _ => false end.
Fixpoint streamed_text (inputs : list (Input V)) : string :=
  match inputs with
  | Recv (AssistantTextDelta d) :: rest => d +:+ streamed_text rest
  | _ :: rest => streamed_text rest
  | [] => EmptyString
  end.

(** [x] is a snapshot of the stream [e], whose text is [t] in the end. *)
Definition snapshot_of (id t : string) (x : AgentThreadEvent.t V) : Prop :=
  x.(AgentThreadEvent.id) = id /\ exists shown_text more, x.(AgentThreadEvent.text) = Some shown_text /\ t = shown_text +:+ more.

(** After some inputs [s'] is reached, whatever follows; the stream [e] has the
    text [t], and only snapshots of it were shown. *)
Definition streamed s (inputs : list (Input V)) (t : string) s' (e : AgentThreadEvent.t V) : Prop :=
  (forall rest, turn_loop info (inputs ++ rest) s = turn_loop info rest s') /\
  s'.(streaming_assistant) = Some e /\ live e /\ e.(AgentThreadEvent.text) = Some t /\
  exists snaps, s'.(effects) = (s.(effects) ++ (Shown <$> snaps))%list /\ Forall (snapshot_of e.(AgentThreadEvent.id) t) snaps.

Lemma snapshot_more id t more x : snapshot_of id t x -> snapshot_of id (t +:+ more) x.
Proof. intros [Hid (a & b & Ha & ->)]. split; [done|]. exists a, (b +:+ more). by rewrite app_assoc_str. Qed.

Lemma streamed_on chunk s e t :
  forallb streams chunk = true -> s.(streaming_assistant) = Some e -> live e -> e.(AgentThreadEvent.text) = Some t ->
  exists s' e', streamed s chunk (t +:+ streamed_text chunk) s' e' /\ e'.(AgentThreadEvent.id) = e.(AgentThreadEvent.id).
Proof.
  revert s e t. induction chunk as [|i chunk IH]; intros s e t Hc Hst He Ht; cbn in Hc.
  { exists s, e. split; [|done]. split_and!; [done..|cbn [streamed_text]; by rewrite app_empty_str|].
    exists []. split; [by rewrite app_nil_r|constructor]. }
  apply andb_true_iff in Hc as [Hi Hc].
  assert (exists s1 e1 more l, turn_loop info [i] s = turn_loop info [] s1 /\
    (forall rest, turn_loop info (i :: rest) s = turn_loop info rest s1) /\
    s1.(streaming_assistant) = Some e1 /\ live e1 /\ e1.(AgentThreadEvent.text) = Some (t +:+ more) /\
    e1.(AgentThreadEvent.id) = e.(AgentThreadEvent.id) /\
    streamed_text (i :: chunk) = more +:+ streamed_text chunk /\
    s1.(effects) = (s.(effects) ++ (Shown <$> l))%list /\ Forall (snapshot_of e.(AgentThreadEvent.id) t) l)
    as (s1 & e1 & more & l & _ & Hloop & Hst1 & He1 & Ht1 & Hid1 & Htext & Heff & Hl).
  { destruct i as [due|[]]; try done.
    - destruct (only_tick due s e Hst) as (l & Heff & Hst1 & Hl).
      exists (on_tick due s), e, EmptyString, l. rewrite app_empty_str. split_and!; try done.
      eapply Forall_impl; [exact Hl|]. intros x ->. split; [done|]. exists t, EmptyString. by rewrite app_empty_str.
    - destruct (is_empty delta) eqn:Hd.
      + exists s, e, EmptyString, []. destruct delta; [|done]. rewrite app_empty_str, app_nil_r.
        split_and!; try done; constructor.
      + eexists (on_delta info delta s), _, delta, []. cbn [turn_loop receive streamed_text]. unfold on_delta. rewrite Hd, Hst, Ht. cbn.
        rewrite app_nil_r. split_and!; try done. by destruct He. }
  destruct (IH s1 e1 (t +:+ more) Hc Hst1 He1 Ht1) as (s' & e' & (Hloop' & Hst' & He' & Ht' & snaps & Heff' & Hsnaps) & Hid').
  exists s', e'. split; [|congruence]. rewrite Htext, <- app_assoc_str. split_and!; [|done..|].
  - intros rest. cbn [app]. by rewrite Hloop, Hloop'.
  - exists (l ++ snaps)%list. split; [by rewrite Heff', Heff, fmap_app, app_assoc|]. apply Forall_app. split; [|done].
    rewrite Hid', Hid1. eapply Forall_impl; [exact Hl|]. intros x Hx. rewrite app_assoc_str. by apply snapshot_more.
Qed.

Lemma streamed_from chunk s :
  forallb streams chunk = true -> s.(streaming_assistant) = None -> streamed_text chunk <> EmptyString ->
  exists s' e, streamed s chunk (streamed_text chunk) s' e.
Proof.
  revert s. induction chunk as [|i chunk IH]; intros s Hc Hst Ht; [done|]. cbn in Hc. apply andb_true_iff in Hc as [Hi Hc].
  assert (forall s1, (forall rest, turn_loop info (i :: rest) s = turn_loop info rest s1) -> s1.(effects) = s.(effects) ->
    s1.(streaming_assistant) = None -> streamed_text (i :: chunk) = streamed_text chunk ->
    exists s' e, streamed s (i :: chunk) (streamed_text (i :: chunk)) s' e) as Hskip.
  { intros s1 Hloop Heff Hst1 Htext. rewrite Htext in *.
    destruct (IH s1 Hc Hst1 Ht) as (s' & e & Hloop' & Hst' & He & Hte & snaps & Heff' & Hsn).
    exists s', e. split_and!; [intros rest; cbn [app]; by rewrite Hloop, Hloop'|done..|]. exists snaps. by rewrite Heff', Heff. }
  destruct i as [due|[]]; try done.
  - apply (Hskip (on_tick due s)); [done|..|done]; unfold on_tick; rewrite Hst; by destruct (stream_dirty s).
  - destruct (is_empty delta) eqn:Hd; [apply (Hskip s); destruct delta; done|].
    destruct (stepped_first_delta delta s Hst Hd) as (e & He & Hte & Heff & Hst1).
    destruct (streamed_on chunk _ e delta Hc Hst1 He Hte) as (s' & e' & (Hloop & Hst' & He' & Ht' & snaps & Heff' & Hsn) & Hid).
    exists s', e'. split_and!; [intros rest; apply Hloop|done..|].
    exists (e :: snaps). split; [by rewrite Heff', Heff, <- app_assoc|]. constructor; [|done].
    split; [done|]. by exists delta, (streamed_text chunk).
Qed.

(** ** The cleanup *)

Definition cleanup_effects : list (Effect V) :=
  ([ApprovalsCancelled; SessionRemoved; PermitDropped; SandboxReleased; LocksReleased; SchedulerWoken] ++
   option_list (WatchersNotified <$> info.(usage_project_id)))%list.

Lemma cleanup_spec s :
  (cleanup info s).(effects) = (s.(effects) ++ cleanup_effects)%list /\
  (cleanup info s).(streaming_assistant) = s.(streaming_assistant).
Proof.
  unfold cleanup, cleanup_effects, run_. destruct (usage_project_id info);
    repeat asked; cbn; rewrite <- ?app_assoc; done.
Qed.

(** Only events are shown before the cleanup. *)
Definition only_shows s s' : Prop := exists l st, stepped s l st s'.

Lemma only_shows_trans s s' s'' : only_shows s s' -> only_shows s' s'' -> only_shows s s''.
Proof. intros (l & st & Hl) (l' & st' & Hl'). exists (l ++ l')%list, st'. by eapply stepped_trans. Qed.

Lemma only_shows_quiet f s : quiet f -> only_shows s (f s).
Proof. intros Hf. by eexists _, _. Qed.

Lemma only_shows_refl s : only_shows s s.
Proof. eexists _, _. apply stepped_refl. Qed.

Lemma only_shows_tick due s : only_shows s (on_tick due s).
Proof.
  unfold on_tick. destruct (stream_dirty s); [|by apply only_shows_refl].
  destruct (streaming_assistant s) as [st|] eqn:Hst; [|by apply (only_shows_quiet (set_dirty false)); intros s'; split; cbn; rewrite ?app_nil_r].
  exists [st], (Some st). destruct due; [|split; cbn; by rewrite ?Hst].
  destruct (stepped_store st (show st s)) as [He Hs]. split; cbn; [by rewrite He, app_nil_r|by rewrite Hs].
Qed.

Lemma only_shows_delta d s : only_shows s (on_delta info d s).
Proof.
  destruct (is_empty d) eqn:Hd; [unfold on_delta; rewrite Hd; by apply only_shows_refl|].
  destruct (streaming_assistant s) as [st|] eqn:Hst.
  - unfold on_delta. rewrite Hd, Hst. eexists [], _. split; cbn; [by rewrite app_nil_r|done].
  - destruct (stepped_first_delta d s Hst Hd) as (e & _ & _ & Hstep). by eexists _, _.
Qed.

Lemma only_shows_receive ev s : only_shows s (receive info ev s).
Proof.
  destruct (event_cases ev s) as [[d ->]|[(t & st & -> & Hst)|Hp]]; [by apply only_shows_delta|..].
  { cbn [receive]. rewrite Hst. destruct (stepped_text t st s) as (e & _ & _ & Hstep). by eexists _, _. }
  rewrite receive_plain by done. cbn zeta.
  set (s1 := match ev with SessionEnded _ => _ | _ => s end).
  assert (only_shows s s1) as Hc1.
  { subst s1. destruct ev; try (by apply only_shows_refl).
    destruct (stepped_close (set_dirty false s)) as [He Hs]. eexists _, _. by split. }
  set (s3 := if recorded info ev then _ else _).
  assert (only_shows s s3) as Hc3.
  { eapply only_shows_trans; [exact Hc1|]. eapply only_shows_trans; [apply only_shows_quiet, (quiet_handle ev)|].
    subst s3. destruct (recorded info ev); [|by apply only_shows_refl].
    destruct (stepped_record ev (handle info ev s1)) as (? & ? & Hstep). by eexists _, _. }
  destruct ev; try exact Hc3. eapply only_shows_trans; [exact Hc3|apply only_shows_quiet, quiet_run].
Qed.

Lemma only_shows_loop inputs s : only_shows s (turn_loop info inputs s).
Proof.
  revert s. induction inputs as [|[due|ev] inputs IH]; intros s; cbn [turn_loop].
  - eapply only_shows_trans; [|apply only_shows_receive]. destruct (stepped_record disconnected s) as (? & ? & Hstep). by eexists _, _.
  - eapply only_shows_trans; [apply only_shows_tick|apply IH].
  - pose proof (only_shows_trans _ _ _ (only_shows_receive ev s) (IH (receive info ev s))) as Hrest.
    destruct ev; try exact Hrest. apply only_shows_receive.
Qed.

Definition ends (i : Input V) : bool := match i with Recv (SessionEnded _) => true | _ => false end.

Lemma turn_loop_app inputs s :
  Forall (fun i => ends i = false) inputs ->
  exists s', forall rest, turn_loop info (inputs ++ rest) s = turn_loop info rest s'.
Proof.
  revert s. induction inputs as [|[due|ev] inputs IH]; intros s Hall; cbn [app turn_loop]; [by exists s|..];
    apply Forall_cons in Hall as [Hev Hall]; [apply IH, Hall|].
  destruct (IH (receive info ev s) Hall) as [s' Hs']. exists s'. intros rest'. destruct ev; try done; apply Hs'.
Qed.

Lemma consume_spec inputs s :
  let s1 := turn_loop info inputs s in
  s1.(streaming_assistant) = None /\
  exists rest, quiet rest /\ consume_turn info inputs s = rest (cleanup info s1).
Proof.
  destruct (turn_loop_end inputs s) as (status & s' & Heq & _). cbn zeta.
  assert ((turn_loop info inputs s).(streaming_assistant) = None) as Hnone by (rewrite Heq; apply stream_after_end).
  split; [done|]. unfold consume_turn.
  assert (close_stream (turn_loop info inputs s) = turn_loop info inputs s) as -> by (unfold close_stream; by rewrite Hnone).
  exists (fun s => run_ (after_session (V:=V) info.(thread_id) info.(agent) (session_end info (requeue info s))) (requeue info s)).
  split; [|done]. intros x. pose proof (quiet_requeue x) as [He Hst].
  destruct (quiet_run (after_session (V:=V) info.(thread_id) info.(agent) (session_end info (requeue info x))) (requeue info x)) as [He' Hst'].
  split; [by rewrite He', He, <- app_assoc|congruence].
Qed.

(** After the loop a turn only cleans up: its effects are those of the loop and
    then the releases. *)
Lemma consume_effects inputs s :
  (consume_turn info inputs s).(effects) = ((turn_loop info inputs s).(effects) ++ cleanup_effects)%list /\
  (consume_turn info inputs s).(streaming_assistant) = None.
Proof.
  destruct (consume_spec inputs s) as (Hnone & rest & Hq & ->). destruct (Hq (cleanup info (turn_loop info inputs s))) as [-> ->].
  destruct (cleanup_spec (turn_loop info inputs s)) as [-> ->]. by rewrite app_nil_r.
Qed.
End Turn.

Module Properties.
Section Properties.
Context {V : Type} `{JsonOk V} `{!BudgetSerde V} `{Chrono} {E : Type} `{CoreServices E} `{!TurnServices E} (info : TurnInfo).

(** The message [text] under the id of its stream, without a caret. *)
Definition finished (id text : string) (e : AgentThreadEvent.t V) : Prop :=
  e.(AgentThreadEvent.id) = id /\ e.(AgentThreadEvent.data) = streaming false /\ e.(AgentThreadEvent.text) = Some text.

(** A provider's event as the transcript of this turn has it. *)
Definition of_turn (id : string) (ts : Z) (ev : NormalizedEvent V) : AgentThreadEvent.t V :=
  map_thread_event id ts info.(thread_id) info.(turn_id) ev.

(** C24: However long the stream is and whatever arrives on it, the turn settles:
    after the events it shows, the approvals, the session, the permit, the
    sandbox and the locks are released, exactly once and in this order, and the
    scheduler is woken after them.  Nothing behind the end of the session is
    looked at, and a channel closed without one is exactly an error followed by a
    failed end. *)
Theorem turn_settles (inputs : list (Input V)) (s : Turn V E) :
  (exists shows, (consume_turn info inputs s).(effects) = (s.(effects) ++ (Shown <$> shows) ++ cleanup_effects info)%list) /\
  (forall pre status rest, inputs = (pre ++ Recv (SessionEnded status) :: rest)%list ->
     Forall (fun i => ends i = false) pre ->
     consume_turn info inputs s = consume_turn info (pre ++ [Recv (SessionEnded status)]) s) /\
  (Forall (fun i => ends i = false) inputs ->
     consume_turn info inputs s =
     consume_turn info (inputs ++ [Recv disconnected; Recv (SessionEnded Failed)]) s).
Proof.
  split_and!.
  - destruct (consume_spec info inputs s) as (_ & rest & Hq & ->).
    destruct (Hq (cleanup info (turn_loop info inputs s))) as [-> _].
    destruct (cleanup_spec info (turn_loop info inputs s)) as [-> _].
    destruct (only_shows_loop info inputs s) as (l & st & -> & _). exists l. by rewrite app_nil_r, app_assoc.
  - intros pre status rest -> Hpre. destruct (turn_loop_app info pre s Hpre) as [s' Hs'].
    unfold consume_turn. by rewrite !Hs'.
  - intros Hall. destruct (turn_loop_app info inputs s Hall) as [s' Hs'].
    pose proof (Hs' []) as Hnil. rewrite app_nil_r in Hnil. unfold consume_turn. by rewrite Hnil, Hs'.
Qed.

(** C25: However a message is cut into deltas and however the frame timer ticks in
    between, every snapshot shown carries the same id and a prefix of the message.
    When the completed text arrives it is shown under that id, finished.  When the
    session ends instead, the run shows exactly the concatenation of the deltas,
    finished and under that id, then the end of the session and then only
    releases; when the channel closes without an end, the error comes first.  No
    stream is left open. *)
Theorem streamed_text_exact (chunk : list (Input V)) (s : Turn V E) :
  forallb streams chunk = true -> s.(streaming_assistant) = None -> streamed_text chunk <> EmptyString ->
  exists s' id snaps,
    (forall rest, turn_loop info (chunk ++ rest) s = turn_loop info rest s') /\
    s'.(effects) = (s.(effects) ++ (Shown <$> snaps))%list /\
    Forall (snapshot_of id (streamed_text chunk)) snaps /\
    (forall text rest, exists s2 e,
       turn_loop info (chunk ++ Recv (AssistantText text) :: rest) s = turn_loop info rest s2 /\
       s2.(effects) = (s'.(effects) ++ [Shown e])%list /\ s2.(streaming_assistant) = None /\ finished id text e) /\
    (forall status rest, exists e i ts,
       let s2 := consume_turn info (chunk ++ Recv (SessionEnded status) :: rest) s in
       s2.(effects) = (s'.(effects) ++ [Shown e; Shown (of_turn i ts (SessionEnded status))] ++ cleanup_effects info)%list /\
       s2.(streaming_assistant) = None /\ finished id (streamed_text chunk) e) /\
    (exists e i ts i' ts',
       let s2 := consume_turn info chunk s in
       s2.(effects) = (s'.(effects) ++ [Shown (of_turn i ts disconnected); Shown e; Shown (of_turn i' ts' (SessionEnded Failed))] ++
         cleanup_effects info)%list /\
       s2.(streaming_assistant) = None /\ finished id (streamed_text chunk) e).
Proof.
  intros Hc Hst Ht. destruct (streamed_from info chunk s Hc Hst Ht) as (s' & e & Hloop & Hst' & He & Hte & snaps & Heff & Hsn).
  exists s', e.(AgentThreadEvent.id), snaps. split_and!; [done..| | |].
  - intros text rest. destruct (stepped_text text e s') as (e' & [Hid Hd] & Htext & Heff2 & Hst2).
    exists (on_text text e s'), e'. split_and!; [|done..]. rewrite Hloop. cbn [turn_loop receive]. by rewrite Hst'.
  - intros status rest. destruct (stepped_end info status e s' Hst') as (i & ts & Hend & _).
    exists (with_data (streaming false) e), i, ts.
    cbn zeta. destruct (consume_effects info (chunk ++ Recv (SessionEnded status) :: rest) s) as [-> ->].
    rewrite Hloop. cbn [turn_loop]. rewrite Hend, <- app_assoc. done.
  - destruct (stepped_record info disconnected s') as (i & ts & Herr & Hopen). rewrite Hst' in Hopen.
    destruct (stepped_end info Failed e _ Hopen) as (i' & ts' & Hend & _).
    exists (with_data (streaming false) e), i, ts, i', ts'. cbn zeta.
    destruct (consume_effects info chunk s) as [-> ->].
    specialize (Hloop []). rewrite app_nil_r in Hloop. rewrite Hloop. cbn [turn_loop].
    rewrite Hend, Herr, <- !app_assoc. done.
Qed.

(** When a turn is over no live caret is left: every event shown with text
    still to come is shown again later, finished, under the same id. *)
Theorem no_caret_left (inputs : list (Input V)) (s : Turn V E) pre e post :
  s.(streaming_assistant) = None -> shown s.(effects) = [] ->
  shown (consume_turn info inputs s).(effects) = (pre ++ e :: post)%list -> live e ->
  Exists (fun e' => settles e' e) post.
Proof.
  intros Hst Hs Hl He.
  assert (carets s) as Hc by (unfold carets; by rewrite Hs).
  destruct (turn_loop_end info inputs s) as (status & s' & Heq & Hc').
  pose proof (carets_receive info (SessionEnded status) s' (Hc' Hc)) as Hend. rewrite <- Heq in Hend.
  destruct (consume_spec info inputs s) as (Hnone & rest & Hq & Hcons). unfold carets in Hend. rewrite Hnone in Hend.
  rewrite Hcons in Hl. destruct (Hq (cleanup info (turn_loop info inputs s))) as [Heff _]. rewrite Heff, app_nil_r in Hl.
  destruct (cleanup_spec info (turn_loop info inputs s)) as [Heff' _]. rewrite Heff', shown_app in Hl.
  assert (shown (V:=V) (cleanup_effects info) = []) as Hno by (unfold cleanup_effects; by destruct (usage_project_id info)).
  rewrite Hno, app_nil_r in Hl. rewrite Hl in Hend. clear -Hend He.
  induction pre as [|x pre IH]; [|by apply IH; destruct Hend]. destruct Hend as [Hx _]. by destruct (Hx He).
Qed.
End Properties.
End Properties.

(** A turn of the chat of [DemoStore]: text in two deltas, then the channel closes. *)
Module DemoTurn.
Import DemoCore DemoStore.

#[global] Instance chrono : Chrono := { to_rfc3339 _ := "now"; serde_time _ := "then" }.

(** The number of stored events names the next one. *)
#[global] Instance turn_services : TurnServices Env := {
  stamp s := (s, ("event " +:+ pretty.pretty (length s.(CoreWorld.db).(thread_messages)), s.(CoreWorld.env).(clock)));
  try_consume_provider_credit _ := mret false;
  mark_provider_account_available _ := mret ();
  mark_provider_account_limited _ _ := mret ();
  finish_runs_for_ref _ _ := mret ();
  thread_diff _ := mret (mkDiff []);
  render_thread_context_files _ := mret ();
  save_enforcement _ _ := mret ();
  cancel_session_approvals _ := mret ();
  remove_session id := modify (fun s => mkSys s.(CoreWorld.db)
    (set_running (filter (fun x => x <> id) s.(CoreWorld.env).(running)) s.(CoreWorld.env)));
  release_sandbox := mret ();
  release_locks_for_thread _ := mret ();
  notify_plan_watchers _ := mret ();
  list_queued_turns thread := read (fun e => filter (fun q => q.(QueuedTurn.thread_id) = thread) e.(queued));
  reorder_queued_turns _ _ := mret ()
}.

Definition info : TurnInfo :=
  mkInfo "u" "h" AgentKind.ClaudeCode (Some (PendingThreadMessage.mk "hello" true None)) None (Some "p") TaskBudget.Unlimited None false.

Definition start : Turn Tree.t Env :=
  mkTurn (DemoCore.world DemoCore.env db)
    (mkRun 0 false false false false default_enforcement (mkLedgerDb [] ∅) (mkLimits [] ∅ None 0) [])
    false false false false false None None false [].

Definition inputs : list (Input Tree.t) := [Recv (AssistantTextDelta "Hel"); Tick false; Recv (AssistantTextDelta "lo"); Tick true].

(** The first delta, the tick's snapshot, the error, the finished text, the end. *)
Example shown_texts :
  (AgentThreadEvent.text <$> shown (consume_turn info inputs start).(effects)) =
  [Some "Hel"; Some "Hello"; Some "The provider disconnected before finishing. Your progress is saved; please try again.";
   Some "Hello"; Some "Failed"].
Proof. vm_compute. reflexivity. Qed.
End DemoTurn.

Section Witnesses.
Import DemoTurn.

(** Events behind the end are not looked at, and a closed channel is a failed end. *)
Lemma turn_settles_witness :
  consume_turn info (inputs ++ [Recv (SessionEnded Completed); Recv (UsageLimitReached None)]) start =
    consume_turn info (inputs ++ [Recv (SessionEnded Completed)]) start /\
  consume_turn info inputs start = consume_turn info (inputs ++ [Recv disconnected; Recv (SessionEnded Failed)]) start /\
  exists shows, (consume_turn info inputs start).(effects) = ((Shown <$> shows) ++ cleanup_effects info)%list.
Proof.
  assert (Forall (fun i => ends i = false) inputs) as Hall by (repeat constructor).
  destruct (Properties.turn_settles info (inputs ++ [Recv (SessionEnded Completed); Recv (UsageLimitReached None)]) start) as (_ & H1 & _).
  destruct (Properties.turn_settles info inputs start) as (H2 & _ & H3).
  split; [exact (H1 inputs Completed _ eq_refl Hall)|]. split; [exact (H3 Hall)|exact H2].
Defined.

Lemma streamed_text_exact_witness :
  streamed_text inputs = "Hello" /\
  (exists pre e last, (consume_turn info (inputs ++ [Recv (SessionEnded Completed)]) start).(effects) =
     (pre ++ [Shown e; last] ++ cleanup_effects info)%list /\ e.(AgentThreadEvent.text) = Some "Hello") /\
  (exists pre err e last, (consume_turn info inputs start).(effects) =
     (pre ++ [Shown err; Shown e; last] ++ cleanup_effects info)%list /\ e.(AgentThreadEvent.text) = Some "Hello").
Proof.
  split; [reflexivity|].
  destruct (Properties.streamed_text_exact info inputs start ltac:(reflexivity) ltac:(reflexivity) ltac:(discriminate))
    as (s' & id & snaps & _ & _ & _ & _ & Hend & (e & i & ts & i' & ts' & Heff & _ & _ & _ & Htext)).
  split.
  - destruct (Hend Completed []) as (e1 & i1 & ts1 & Heff1 & _ & _ & _ & Htext1).
    eexists _, e1, _. split; [exact Heff1|exact Htext1].
  - eexists _, _, e, _. split; [exact Heff|exact Htext].
Defined.

Lemma no_caret_left_witness :
  exists e post, shown (consume_turn info inputs start).(effects) = e :: post /\ live e /\ Exists (fun e' => settles e' e) post.
Proof.
  destruct (shown (consume_turn info inputs start).(effects)) as [|e post] eqn:Hl; [vm_compute in Hl; discriminate|].
  exists e, post. split; [done|].
  assert (live e) as He by (vm_compute in Hl; injection Hl as <- _; split; reflexivity).
  split; [exact He|]. exact (Properties.no_caret_left info inputs start [] e post eq_refl eq_refl Hl He).
Defined.
End Witnesses.
