(* ===== verification/TurnStatus.v ===== *)
(** * How a turn leaves its thread

    The stored status of the thread at the end of a turn, as a function of what
    arrived on the stream. *)
From Stdlib Require Import Ascii String.
From S2P Require Import Prelude RustStr Json Enums Records WorkGraphDb WorkGraphInv Limits Budget SqlTable AgentDb AgentDbProps AgentDbTheorems ThreadText CoreWorld ThreadFallback TurnLoop CoreDemo FallbackProps TurnProps.
#[local] Open Scope string_scope.
#[local] Open Scope Z_scope.

(** ** The specification *)
Section Spec.
Context {V : Type}.

(** What arrives before the end of the session, and how it ends. *)
Fixpoint before_end (inputs : list (Input V)) : list (NormalizedEvent V) :=
  match inputs with
  | [] => []
  | Tick _ :: rest => before_end rest
  | Recv (SessionEnded _) :: _ => []
  | Recv ev :: rest => ev :: before_end rest
  end.

Fixpoint end_status (inputs : list (Input V)) : SessionStatus :=
  match inputs with
  | [] => Failed
  | Recv (SessionEnded status) :: _ => status
  | _ :: rest => end_status rest
  end.

Definition is_network (ev : NormalizedEvent V) : bool := match ev with NetworkUnavailable _ => true | _ => false end.
Definition is_limit (ev : NormalizedEvent V) : bool := match ev with UsageLimitReached _ => true | _ => false end.
Definition is_approval (ev : NormalizedEvent V) : bool := match ev with AwaitingApproval _ => true | _ => false end.

(** The status of a thread whose budget does not stop it. *)
Definition outcome (inputs : list (Input V)) : TaskStatus.t :=
  let events := before_end inputs in
  if existsb is_network events then TaskStatus.WaitingForNetwork
  else if existsb is_limit events then TaskStatus.WaitingForLimit
  else match end_status inputs with
       | Completed => if existsb is_approval events then TaskStatus.Paused else TaskStatus.Review
       | Interrupted => TaskStatus.Paused
       | Failed => TaskStatus.Failed
       end.
End Spec.

Section Status.
Context {V : Type} `{JsonOk V} `{!BudgetSerde V} `{!BudgetSerdeOk V} `{Chrono} {E : Type} `{CoreServices E} `{!TurnServices E} (info : TurnInfo).
Abbreviation Turn := (Turn V E).
Implicit Types s : Turn.

(** ** The flags of the loop *)

Definition flags s : bool * bool * bool := (s.(seen_network_loss), s.(seen_usage_limit), s.(seen_approval_needed)).
Definition seeing (ev : NormalizedEvent V) (f : bool * bool * bool) : bool * bool * bool :=
  (f.1.1 || is_network ev, f.1.2 || is_limit ev, f.2 || is_approval ev).

Ltac asked :=
  match goal with
  | |- context [ask ?m ?s] => let w := fresh "w" in let a := fresh "a" in destruct (ask_spec m s) as (w & a & ->)
  end.
Ltac settle :=
  unfold record_event, make_event, show, store, with_stored_thread, timed, run_; repeat (asked || case_match); simplify_eq/=;
  by rewrite ?orb_false_r, ?orb_true_r.

Lemma flags_handle ev s : flags (handle info ev s) = seeing ev (flags s).
Proof.
  unfold seeing, flags. destruct ev; cbn [handle is_network is_limit is_approval].
  all: unfold on_tokens, on_quota, on_usage_limit, on_network_unavailable, on_session_ended; settle.
Qed.

Lemma flags_record ev s : flags (record_event info ev s) = flags s.
Proof. unfold flags. settle. Qed.

Lemma flags_run m s : flags (run_ m s) = flags s.
Proof. unfold flags. settle. Qed.

Lemma flags_tick due s : flags (on_tick due s) = flags s.
Proof. unfold flags, on_tick. settle. Qed.

Lemma flags_receive ev s : flags (receive info ev s) = seeing ev (flags s).
Proof.
  destruct (event_cases ev s) as [[d ->]|[(t & st & -> & Hst)|Hp]].
  - unfold seeing, flags. cbn [receive is_network is_limit is_approval]. unfold on_delta. settle.
  - unfold seeing, flags. cbn [receive is_network is_limit is_approval]. rewrite Hst. unfold on_text. settle.
  - rewrite receive_plain by done. cbn zeta. set (s1 := match ev with SessionEnded _ => _ | _ => s end).
    assert (flags s1 = flags s) as Hc1 by (subst s1; destruct ev; try done; unfold close_stream, flags; settle).
    set (s3 := if recorded info ev then _ else _).
    assert (flags s3 = seeing ev (flags s)) as Hc3.
    { subst s3. rewrite <- Hc1, <- flags_handle. destruct (recorded info ev); [apply flags_record|done]. }
    destruct ev; try exact Hc3. by rewrite flags_run.
Qed.

(** ** The stored thread *)

(** What the loop calls leaves the threads alone. *)
Class TurnFrame : Prop := {
  turn_frame_core :: ServicesFrame (V:=V) (E:=E);
  frame_stamp (y : Sys E) : agent_db_ok (V:=V) y.(db) ->
    agent_db_ok (V:=V) (stamp y).1.(db) /\ (stamp y).1.(db).(threads) = y.(db).(threads);
  frame_credit a : frames (V:=V) (try_consume_provider_credit a);
  frame_account_available a : frames (V:=V) (mark_provider_account_available a);
  frame_account_limited a r : frames (V:=V) (mark_provider_account_limited a r);
  frame_finish_runs t st : frames (V:=V) (finish_runs_for_ref t st);
  frame_diff t : frames (V:=V) (thread_diff t);
  frame_render t : frames (V:=V) (render_thread_context_files t);
  frame_save_enforcement t e : frames (V:=V) (save_enforcement t e)
}.
Context `{!TurnFrame}.
Abbreviation stored x := (in_db (holds (V:=V) info.(thread_id) x)).
Definition has s x : Prop := stored x s.(world).

Lemma has_ask {A} (m : W E A) s x : keeps (stored x) m -> has s x -> has (ask m s).1 x.
Proof. intros Hm Hs. unfold has, ask. specialize (Hm _ Hs). unfold final in Hm. by destruct (m (world s)). Qed.

Lemma has_run (m : W E ()) s x : keeps (stored x) m -> has s x -> has (run_ m s) x.
Proof. apply has_ask. Qed.

(** A repository call that does not touch the threads. *)
Lemma kept_db {A} (m : AgentM A) x :
  repo_call (V:=V) A m -> (forall d, (final m d).(threads) = d.(threads)) -> keeps (stored x) (on_db m : W E A).
Proof.
  intros Hm Ht w Hw. unfold in_db, on_db, final in *. pose proof (repo_call_ok m Hm (db (sys w)) (steady_ok _ Hw)) as Hok.
  specialize (Ht (db (sys w))). unfold final in *. destruct (m (db (sys w))) as [d r]. cbn in *.
  by apply (steady_frame (Q:=holds info.(thread_id) x) (db (sys w))).
Qed.

Ltac untouched :=
  step_M; repeat match goal with H : _ = (_, _) |- _ => unfold throw, mret, M_ret, modify in H; simplify_eq/= end; done.

Lemma kept_insert e x : keeps (stored x) (on_db (Transcripts.insert_thread_event (V:=V) e) : W E ()).
Proof. apply kept_db; [constructor|]. intros d. unfold Transcripts.insert_thread_event, insert_row, final. untouched. Qed.

Lemma kept_upsert e x : keeps (stored x) (on_db (Transcripts.upsert (V:=V) e) : W E ()).
Proof.
  apply (kept_db (Transcripts.upsert e)); [exact (call_upsert e)|]. intros d. unfold Transcripts.upsert, final. cbv zeta. rewrite M_bind_unfold. cbn [get].
  destruct (existsb _ _); [rewrite M_bind_unfold; unfold update_rows|unfold insert_row]; untouched.
Qed.

Lemma kept_finish ts state x : keeps (stored x) (on_db (Turns.finish ts info.(turn_id) state) : W E ()).
Proof. apply (kept_db (Turns.finish ts info.(turn_id) state)); [constructor|]. intros d. unfold Turns.finish, update_rows, final. untouched. Qed.

Lemma kept_session_id sid x : keeps (stored x) (on_db (Turns.set_agent_session_id info.(turn_id) sid) : W E ()).
Proof. apply (kept_db (Turns.set_agent_session_id info.(turn_id) sid)); [constructor|]. intros d. unfold Turns.set_agent_session_id, update_rows, final. untouched. Qed.

Lemma has_make ev s x : has s x -> has (make_event info ev s).1 x.
Proof.
  intros Hs. unfold make_event. pose proof (frame_stamp (sys (world s)) (steady_ok _ Hs)) as [Hok Ht].
  destruct (stamp _) as [y [id ts]]. by apply (steady_frame (Q:=holds info.(thread_id) x) (db (sys (world s)))).
Qed.

Lemma has_record ev s x : has s x -> has (record_event info ev s) x.
Proof.
  intros Hs. unfold record_event. pose proof (has_make ev s x Hs) as Hm. destruct (make_event info ev s) as [s' e].
  by apply (has_run (on_db _)); [apply kept_insert|].
Qed.

Lemma has_store e s x : has s x -> has (store e s) x.
Proof. apply has_run, kept_upsert. Qed.

Lemma has_call {A} (m : SysM E A) s x : frames (V:=V) m -> has s x -> has (ask (call m) s).1 x.
Proof. intros Hm. by apply has_ask, (kept_call _). Qed.

Lemma has_timed m s x : has s x -> has (timed m s) x.
Proof.
  intros Hs. unfold timed. pose proof (has_call now s x frame_now Hs) as Hn.
  destruct (ask (call now) s) as [s' [ts|]]; exact Hn.
Qed.

Lemma has_note kind s x : has s x -> has (run_ (note None None kind) s) x.
Proof. apply has_run. by apply (kept_note _). Qed.

Lemma has_tokens i o s x : has s x -> has (on_tokens info i o s) x.
Proof.
  intros Hs. unfold on_tokens. destruct ((i =? 0) && (o =? 0)); [exact Hs|].
  pose proof (frame_stamp (sys (world s)) (steady_ok _ Hs)) as [Hok Ht].
  destruct (stamp _) as [y [id ts]]. by apply (steady_frame (Q:=holds info.(thread_id) x) (db (sys (world s)))).
Qed.

Lemma has_quota w u r f s x : has s x -> has (on_quota info w u r f s) x.
Proof.
  intros Hs. unfold on_quota. destruct (observe _ _ _ _ _) as [e c].
  pose proof (has_call (save_enforcement info.(thread_id) e) s x (frame_save_enforcement _ _) Hs) as Hc.
  by destruct (ask _ s) as [s' saved].
Qed.

Lemma has_tick due s x : has s x -> has (on_tick due s) x.
Proof.
  intros Hs. unfold on_tick. destruct (stream_dirty s); [|exact Hs]. destruct (streaming_assistant s); [|exact Hs].
  destruct due; [|exact Hs]. apply (has_store _ (show _ s)). exact Hs.
Qed.

Lemma has_delta d s x : has s x -> has (on_delta info d s) x.
Proof.
  intros Hs. unfold on_delta. destruct (is_empty d); [exact Hs|]. destruct (streaming_assistant s); [exact Hs|].
  pose proof (has_make (AssistantTextDelta d) s x Hs) as Hm. destruct (make_event _ _ s) as [s' e].
  apply (has_store _ (show _ s')). exact Hm.
Qed.

Lemma has_close s x : has s x -> has (close_stream s) x.
Proof. intros Hs. unfold close_stream. destruct (streaming_assistant s); [|exact Hs]. by apply has_store. Qed.

Lemma has_text t st s x : has s x -> has (on_text t st s) x.
Proof. intros Hs. unfold on_text. by apply has_store. Qed.

(** The clock never fails. *)
Hypothesis clock : ~ clock_fails (E:=E).

Lemma edit_stored edit s x :
  same_row x (edit x) -> has s x -> exists ts, has (with_stored_thread info edit s) (AgentThread.set_updated_at ts (edit x)).
Proof.
  intros Hsame [Hok Hx]. unfold with_stored_thread, run_, ask, has, with_thread.
  rewrite M_bind_unfold. unfold attempt at 1, read_thread, on_db, Threads.get_thread.
  rewrite (fetch_found _ _ x Hx). unfold save_and. rewrite M_bind_unfold. unfold attempt.
  set (w := mkWorld _ _ _). assert (stored x w) as Hw by done.
  pose proof (save_holds info.(thread_id) x (edit x) Hsame w Hw) as Hsave.
  destruct (save_thread (edit x) w) as [w' [saved|e]]; [|by destruct Hsave]. destruct Hsave as [[ts ->] Hs].
  exists ts. exact Hs.
Qed.

(** Some thread with [P] is stored. *)
Definition left (P : AgentThread.t -> Prop) : AgentDb -> Prop := fun d => exists z, holds (V:=V) info.(thread_id) z d /\ P z.

#[global] Instance left_steady P : Steady (V:=V) (left P).
Proof.
  split; [by intros d (x & [] & _)|]. intros d d' (x & Hx & Hh) Hok Ht. exists x. split; [|done].
  by apply (steady_frame (Q:=holds info.(thread_id) x) d).
Qed.

(** [m] runs from the stored [z] and leaves a thread with [P]. *)
Definition leads (P : AgentThread.t -> Prop) (z : AgentThread.t) {A} (m : W E A) : Prop :=
  forall w, stored z w -> in_db (left P) (final m w).

Lemma leads_bind {A B} (P : AgentThread.t -> Prop) z (m : W E A) (f : A -> W E B) :
  P z -> keeps (stored z) m -> (forall a, leads P z (f a)) -> leads P z (m ≫= f).
Proof.
  intros Hz Hm Hf w Hw. specialize (Hm w Hw). unfold leads, final in *. rewrite M_bind_unfold.
  destruct (m w) as [w' [a|e]]; [by apply Hf|]. by exists z.
Qed.

Lemma leads_save {B} (P : AgentThread.t -> Prop) x y (f : AgentThread.t -> W E B) :
  same_row x y -> P x -> (forall ts, P (AgentThread.set_updated_at ts y)) ->
  (forall ts, leads P (AgentThread.set_updated_at ts y) (f (AgentThread.set_updated_at ts y))) ->
  leads P x (saved ← save_thread (V:=V) y; f saved).
Proof.
  intros Hsame Hx Hy Hf w Hw. unfold final. rewrite M_bind_unfold.
  pose proof (save_holds info.(thread_id) x y Hsame w Hw) as Hs.
  destruct (save_thread y w) as [w' [saved|e]]; [|exists x; by destruct Hs]. destruct Hs as [[ts ->] Hs]. by apply Hf.
Qed.

Lemma leads_keeps {A} (P : AgentThread.t -> Prop) z (m : W E A) : P z -> keeps (stored z) m -> leads P z m.
Proof. intros Hz Hm w Hw. exists z. split; [by apply Hm|done]. Qed.

Lemma handoff_left P status :
  (forall z p n ts, P z -> P (AgentThread.set_updated_at ts (AgentThread.set_next_actions n (AgentThread.set_progress p z)))) ->
  keeps (in_db (left P)) (apply_thread_handoff (V:=V) info status : W E ()).
Proof.
  intros HP w (z & [Hok Hz] & Hpz). unfold apply_thread_handoff, final. rewrite M_bind_unfold.
  unfold read_thread at 1, on_db at 1, Threads.get_thread. rewrite (fetch_found _ _ z Hz).
  set (w1 := mkWorld _ _ _). assert (stored z w1) as Hw by done. revert Hw. generalize w1. clear w1.
  change (leads P z (events ← on_db (Transcripts.list_for_turn (V:=V) info.(turn_id));
      diff ← unwrap_or (thread_diff info.(thread_id)) (mkDiff []);
      ts ← call now;
      let summary := build_thread_handoff_summary ts info.(agent) status events diff in
      let thread := AgentThread.set_progress (append_thread_progress z.(AgentThread.progress) summary) z in
      let thread := AgentThread.set_next_actions (thread_next_actions status events) thread in
      thread ← save_thread (V:=V) thread;
      _ ← attempt (call (render_thread_context_files thread));
      call (activity thread.(AgentThread.project_id) None "thread.context_handoff"))).
  apply leads_bind; [done|by intros ?|]. intros events.
  apply leads_bind; [done|apply (kept_unwrap_or _), frame_diff|]. intros diff.
  apply leads_bind; [done|apply (kept_call _), frame_now|]. intros ts. cbn zeta.
  apply leads_save; [done|done|intros; by apply HP|]. intros ts'.
  apply leads_keeps; [by apply HP|]. apply keeps_bind; [apply kept_attempt, (kept_call _), frame_render|].
  intros _. apply (kept_call _), frame_activity.
Qed.

(** ** One event *)

Lemma run_now_finish state s x : has s x -> has (run_ (ts ← call now; on_db (Turns.finish ts info.(turn_id) state)) s) x.
Proof. apply has_run. apply keeps_bind; [apply (kept_call _), frame_now|intros; apply kept_finish]. Qed.

Definition blocked s : bool := budget_blocks (session_end info s).

(** What the end of a session writes. *)
Definition ended_as (s : Turn) (status : SessionStatus) (x y : AgentThread.t) : Prop :=
  y.(AgentThread.status) = final_status info s (effective_status s status) /\
  y.(AgentThread.limit_reset_at) = (if s.(seen_usage_limit) then s.(reset) else x.(AgentThread.limit_reset_at)).

Lemma stored_ended status s x :
  has s x -> exists y, has (on_session_ended info status s) y /\ ended_as s status x y.
Proof.
  intros Hs. unfold on_session_ended. set (eff := effective_status s status).
  set (s1 := set_completed _ s). assert (has s1 x) as Hc1 by exact Hs.
  set (s2 := run_ _ s1). assert (has s2 x) as Hc2 by (by apply run_now_finish).
  set (s3 := run_ _ s2). assert (has s3 x) as Hc3 by (by apply has_call; [apply frame_finish_runs|]).
  set (s4 := if bool_decide _ && _ then _ else s3). assert (has s4 x) as Hc4 by (subst s4; destruct (bool_decide _ && _); [by apply has_timed|done]).
  assert (flags s4 = flags s /\ blocked s4 = blocked s /\ s4.(reset) = s.(reset)) as (Hf & Hb & Hr).
  { subst s4 s3 s2 s1. unfold flags, blocked, session_end, budget_blocks, timed, run_.
    repeat (asked || case_match); simplify_eq/=; done. }
  match goal with |- context [with_stored_thread info ?e s4] => set (edit := e) end.
  destruct (edit_stored edit s4 x) as [ts Hy];
    [unfold edit; by destruct (seen_usage_limit s4)|done|].
  eexists. split; [exact Hy|]. unfold blocked, flags in *. injection Hf as Hn Hl Ha.
  unfold ended_as, edit, final_status. rewrite <- Hb, Hn, Hl, Ha.
  destruct (seen_usage_limit s); cbn; by rewrite ?Hr.
Qed.

(** *** Every event keeps the thread stored *)

Definition some_stored s : Prop := exists x, has s x.

Lemma some_edit edit s : (forall x, same_row x (edit x)) -> some_stored s -> some_stored (with_stored_thread info edit s).
Proof. intros Hsame [x Hs]. destruct (edit_stored edit s x (Hsame x) Hs) as [ts Hy]. by eexists. Qed.

Lemma stored_limit r s : some_stored s -> some_stored (on_usage_limit info r s).
Proof.
  intros [x Hs]. unfold on_usage_limit. set (s1 := set_limit r s). assert (has s1 x) as Hc1 by exact Hs.
  set (s2 := match account info with Some _ => _ | None => _ end).
  assert (has s2 x) as Hc2.
  { subst s2. destruct (account info) as [a|].
    - pose proof (has_call _ s1 x (frame_credit a) Hc1) as Hc. destruct (ask _ s1) as [s' redeemed].
      destruct (default false redeemed); (apply has_call; [|exact Hc]); [apply frame_account_available|apply frame_account_limited].
    - pose proof (has_call _ s1 x frame_limit_policy Hc1) as Hc. destruct (ask _ s1) as [s' policy]. by apply has_timed. }
  match goal with |- context [with_stored_thread info ?e s2] => set (edit := e) end.
  destruct (some_edit edit s2) as [y Hy]; [unfold edit; done|by exists x|]. exists y. by apply has_note.
Qed.

Lemma stored_network s : some_stored s -> some_stored (on_network_unavailable info s).
Proof.
  intros [x Hs]. unfold on_network_unavailable.
  match goal with |- context [with_stored_thread info ?e ?s'] => destruct (some_edit e s') as [y Hy] end;
    [done|by exists x|]. exists y. by apply has_note.
Qed.

Lemma stored_receive ev s : (forall st, ev <> SessionEnded st) -> some_stored s -> some_stored (receive info ev s).
Proof.
  intros Hev [x Hs]. destruct (event_cases ev s) as [[d ->]|[(t & st & -> & Hst)|Hp]]; [exists x; by apply has_delta|..].
  { exists x. cbn [receive]. rewrite Hst. by apply has_text. }
  rewrite receive_plain by done. cbn zeta.
  assert (match ev with SessionEnded _ => close_stream (set_dirty false s) | _ => s end = s) as ->
    by (destruct ev; try done; by destruct (Hev status)).
  set (s2 := handle info ev s).
  assert (some_stored s2) as [y Hy].
  { subst s2. destruct ev; try (by exists x); cbn [handle];
      [exists x; by apply has_run; [apply kept_session_id|]|exists x; by apply has_tokens|exists x; by apply has_quota
      |apply stored_limit; by exists x|apply stored_network; by exists x|by destruct (Hev status)]. }
  exists y. destruct (recorded info ev), ev; try exact Hy; try (by apply has_record); by destruct (Hev status).
Qed.

(** *** The end of the loop *)

Definition saw (f : NormalizedEvent V -> bool) (inputs : list (Input V)) : bool := existsb f (before_end inputs).

Lemma loop_reaches inputs s :
  exists s', turn_loop info inputs s = receive info (SessionEnded (end_status inputs)) s' /\
    flags s' = ((flags s).1.1 || saw is_network inputs, (flags s).1.2 || saw is_limit inputs, (flags s).2 || saw is_approval inputs) /\
    (some_stored s -> some_stored s').
Proof.
  unfold saw. revert s. induction inputs as [|[due|ev] inputs IH]; intros s; cbn [turn_loop before_end end_status].
  - exists (record_event info disconnected s). split_and!; [done|by rewrite flags_record, !orb_false_r|].
    intros [x Hs]. exists x. by apply has_record.
  - destruct (IH (on_tick due s)) as (s' & Heq & Hf & Hst). exists s'. split_and!; [done|by rewrite Hf, flags_tick|].
    intros [x Hs]. apply Hst. exists x. by apply has_tick.
  - assert ((exists st, ev = SessionEnded st) \/ forall st, ev <> SessionEnded st) as [[st ->]|Hne]
      by (destruct ev; eauto; right; congruence).
    + exists s. by rewrite !orb_false_r.
    + destruct (IH (receive info ev s)) as (s' & Heq & Hf & Hst). exists s'.
      rewrite flags_receive in Hf. unfold seeing in Hf. cbn [fst snd] in Hf.
      destruct ev; try (by destruct (Hne status));
        (split_and!; [exact Heq|cbn [existsb]; by rewrite !orb_assoc|intros Hs; by apply Hst, stored_receive]).
Qed.

Lemma blocked_close s : blocked (close_stream s) = blocked s /\ flags (close_stream s) = flags s.
Proof.
  unfold blocked, session_end, budget_blocks, flags, close_stream, show, store, run_.
  repeat (asked || case_match); simplify_eq/=; done.
Qed.

Lemma blocked_ended status s :
  blocked (run_ (apply_thread_handoff info (effective_status (record_event info (SessionEnded status) (on_session_ended info status s)) status))
             (record_event info (SessionEnded status) (on_session_ended info status s))) = blocked s.
Proof.
  unfold blocked, session_end, budget_blocks, record_event, make_event, show, on_session_ended, with_stored_thread, timed, run_.
  repeat (asked || case_match); simplify_eq/=; done.
Qed.

Lemma final_status_same s s' status :
  blocked s' = blocked s -> flags s' = flags s -> final_status info s' (effective_status s' status) = final_status info s (effective_status s status).
Proof. unfold blocked, flags, final_status, effective_status. intros -> [= -> -> ->]. done. Qed.

Lemma stored_end status s :
  some_stored s ->
  exists y, has (receive info (SessionEnded status) s) y /\
    y.(AgentThread.status) = final_status info s (effective_status s status) /\
    blocked (receive info (SessionEnded status) s) = blocked s.
Proof.
  intros [x Hs]. rewrite receive_plain by done. cbn zeta iota. cbn [handle recorded].
  set (s1 := close_stream (set_dirty false s)).
  assert (has s1 x) as Hc1 by (by apply has_close).
  destruct (blocked_close (set_dirty false s)) as [Hb Hf]. fold s1 in Hb, Hf.
  destruct (stored_ended status s1 x Hc1) as (y & Hy & Hst & _).
  rewrite (final_status_same (set_dirty false s) s1) in Hst by done.
  set (s3 := record_event info _ _). assert (has s3 y) as Hc3 by (by apply has_record).
  pose proof (handoff_left (fun z => z.(AgentThread.status) = y.(AgentThread.status)) (effective_status s3 status) ltac:(done) (world s3)
    (ex_intro _ y (conj Hc3 eq_refl))) as (z & Hz & Hzy).
  exists z. split; [|split; [by rewrite Hzy, Hst|subst s3; by rewrite blocked_ended, Hb]].
  unfold has, run_, ask. unfold final in Hz. by destruct (apply_thread_handoff info _ (world s3)).
Qed.
End Status.

Section Properties.
Context {V : Type} `{JsonOk V} `{!BudgetSerde V} `{!BudgetSerdeOk V} `{Chrono} {E : Type} `{CoreServices E} `{!TurnServices E} (info : TurnInfo).

(** When the loop is over, whatever arrived, the stored thread is paused if
    its budget or the accounting of it stops it; otherwise it waits for the
    network if the network was lost, else for the limit if one was reached, else
    it is in review, paused (interrupted, or completed while an approval was
    asked for) or failed, as the provider or a closed channel ended the session. *)
Theorem ended_status_exact `{!TurnFrame (V:=V) (E:=E)} (inputs : list (Input V)) (s : Turn V E) x :
  ~ clock_fails (E:=E) -> has info s x -> flags s = (false, false, false) ->
  exists y, has info (turn_loop info inputs s) y /\
    y.(AgentThread.status) = if budget_blocks (session_end info (turn_loop info inputs s)) then TaskStatus.Paused else outcome inputs.
Proof.
  intros Hclock Hs Hflags. destruct (loop_reaches info Hclock inputs s) as (s' & Heq & Hf & Hst).
  destruct (stored_end info Hclock (end_status inputs) s') as (y & Hy & Hstatus & Hb); [apply Hst; by exists x|].
  rewrite Heq. exists y. split; [done|]. unfold blocked in Hb. rewrite Hb, Hstatus. unfold final_status, outcome.
  rewrite Hflags in Hf. cbn in Hf. unfold flags, saw in Hf. injection Hf as Hn Hl Ha. unfold effective_status.
  rewrite Hn, Hl, Ha. by destruct (existsb is_network _).
Qed.
End Properties.

Section Witnesses.
Import DemoCore DemoStore DemoFallback DemoTurn.

#[global] Instance demo_turn_frame : TurnFrame (V:=Tree.t) (E:=Env).
Proof. split; [exact _|..]; intros; try intros s Hs; done. Qed.

(** A network loss, then a limit, then an interruption. *)
Definition lost : list (Input Tree.t) :=
  [Recv (AssistantTextDelta "Hi"); Recv (NetworkUnavailable "offline"); Recv (UsageLimitReached (Some 900)); Recv (SessionEnded Interrupted)].

Lemma ended_status_exact_witness :
  (exists y, has (V:=Tree.t) info (turn_loop info lost start) y /\ y.(AgentThread.status) = TaskStatus.WaitingForNetwork) /\
  (exists y, has (V:=Tree.t) info (turn_loop info inputs start) y /\ y.(AgentThread.status) = TaskStatus.Failed).
Proof.
  assert (~ clock_fails (E:=Env)) as Hclock by (intros (s & s' & e & H); discriminate H).
  assert (has (V:=Tree.t) info start chat) as Hs by exact chat_stored.
  split; [destruct (ended_status_exact (V:=Tree.t) info lost start chat Hclock Hs eq_refl) as (y & Hy & Hst)
         |destruct (ended_status_exact (V:=Tree.t) info inputs start chat Hclock Hs eq_refl) as (y & Hy & Hst)];
    exists y; (split; [exact Hy|]); rewrite Hst; vm_compute; reflexivity.
Defined.
End Witnesses.
