(* ===== verification/CollabDb.v ===== *)
(** * Collaboration: the coordinator's tables (crates/am-db/src/repos/collaboration.rs)

    Paired devices, the assignments they work on under an expiring lease, the
    leases of shared repositories, the returned change sets and the approvals
    asked for on a device.  The JSON columns and the hash of a lease token are
    third-party: classes [TextSerde] and a text. *)
From Stdlib Require Import Ascii String.
From S2P Require Import Prelude RustStr Json Enums Records WorkGraphDb WorkGraphInv Limits SqlTable AgentDb.
#[local] Open Scope string_scope.
#[local] Open Scope Z_scope.

Definition read_text {A} `{TextSerde A} (s : string) : result DbError A :=
  match from_text s with Ok a => Ok a | Err e => Err (Serde e) end.

(** ** Rows *)
Module DeviceRow.
Record t := mk {
  id : string; name : string; hostname : string; platform : string; extension_version : string;
  capabilities_json : string; last_seen_at : Z; paired_at : Z; revoked_at : option Z
}.
Definition set_revoked_at (v : option Z) (r : t) : t :=
  mk r.(id) r.(name) r.(hostname) r.(platform) r.(extension_version) r.(capabilities_json) r.(last_seen_at) r.(paired_at) v.
End DeviceRow.

Module AssignmentRow.
Record t := mk {
  id : string; thread_id : string; turn_id : string; device_id : string; agent_kind : string; permission : string;
  execution_backend : string; prompt : string; status : string; lease_token_hash : option string;
  lease_expires_at : option Z; created_at : Z; started_at : option Z; finished_at : option Z; error : option string
}.
Definition set_status (v : string) (r : t) : t :=
  mk r.(id) r.(thread_id) r.(turn_id) r.(device_id) r.(agent_kind) r.(permission) r.(execution_backend) r.(prompt) v
    r.(lease_token_hash) r.(lease_expires_at) r.(created_at) r.(started_at) r.(finished_at) r.(error).
Definition set_lease (hash : option string) (expires : option Z) (r : t) : t :=
  mk r.(id) r.(thread_id) r.(turn_id) r.(device_id) r.(agent_kind) r.(permission) r.(execution_backend) r.(prompt) r.(status)
    hash expires r.(created_at) r.(started_at) r.(finished_at) r.(error).
Definition set_started_at (v : option Z) (r : t) : t :=
  mk r.(id) r.(thread_id) r.(turn_id) r.(device_id) r.(agent_kind) r.(permission) r.(execution_backend) r.(prompt) r.(status)
    r.(lease_token_hash) r.(lease_expires_at) r.(created_at) v r.(finished_at) r.(error).
Definition set_finished (at_ : option Z) (error : option string) (r : t) : t :=
  mk r.(id) r.(thread_id) r.(turn_id) r.(device_id) r.(agent_kind) r.(permission) r.(execution_backend) r.(prompt) r.(status)
    r.(lease_token_hash) r.(lease_expires_at) r.(created_at) r.(started_at) at_ error.
End AssignmentRow.

Module RepoLeaseRow.
Record t := mk { repo_id : string; assignment_id : string; acquired_at : Z }.
End RepoLeaseRow.

Module ChangeSetRow.
Record t := mk {
  id : string; assignment_id : string; thread_id : string; device_id : string; repo_id : string; base_ref : option string;
  files_json : string; patch : string; patch_sha256 : string; status : string; conflict_files_json : string;
  created_at : Z; applied_at : option Z
}.
Definition set_outcome (status conflict_files_json : string) (applied_at : option Z) (r : t) : t :=
  mk r.(id) r.(assignment_id) r.(thread_id) r.(device_id) r.(repo_id) r.(base_ref) r.(files_json) r.(patch) r.(patch_sha256)
    status conflict_files_json r.(created_at) applied_at.
End ChangeSetRow.

Module ApprovalRow.
Record t := mk {
  id : string; assignment_id : string; local_approval_id : string; request_json : string; decision : option string;
  created_at : Z; resolved_at : option Z; delivered_at : option Z
}.
Definition set_decision (decision : option string) (at_ : option Z) (r : t) : t :=
  mk r.(id) r.(assignment_id) r.(local_approval_id) r.(request_json) decision r.(created_at) at_ r.(delivered_at).
Definition set_delivered (at_ : option Z) (r : t) : t :=
  mk r.(id) r.(assignment_id) r.(local_approval_id) r.(request_json) r.(decision) r.(created_at) r.(resolved_at) at_.
End ApprovalRow.

(** The tables; [repos] is the table the queries join with. *)
Record CollabDb := mkCollab {
  devices : list DeviceRow.t;
  assignments : list AssignmentRow.t;
  leases : list RepoLeaseRow.t;
  change_sets : list ChangeSetRow.t;
  approvals : list ApprovalRow.t;
  repos : list Repo.t
}.
Abbreviation CollabM := (M CollabDb DbError).

Definition put_devices v db := mkCollab v db.(assignments) db.(leases) db.(change_sets) db.(approvals) db.(repos).
Definition put_assignments v db := mkCollab db.(devices) v db.(leases) db.(change_sets) db.(approvals) db.(repos).
Definition put_leases v db := mkCollab db.(devices) db.(assignments) v db.(change_sets) db.(approvals) db.(repos).
Definition put_change_sets v db := mkCollab db.(devices) db.(assignments) db.(leases) v db.(approvals) db.(repos).
Definition put_approvals v db := mkCollab db.(devices) db.(assignments) db.(leases) db.(change_sets) v db.(repos).

Definition update_assignments (p : AssignmentRow.t -> bool) (f : AssignmentRow.t -> AssignmentRow.t) : CollabM Z :=
  db ← get;
  _ ← modify (put_assignments (update_where p f db.(assignments)));
  mret (Z.of_nat (length (filter (fun r => p r = true) db.(assignments)))).

Definition has_status (statuses : list CollaborationAssignmentStatus.t) (r : AssignmentRow.t) : bool :=
  existsb (fun s => eq_str r.(AssignmentRow.status) (CollaborationAssignmentStatus.as_str s)) statuses.
Definition is_assignment (id : string) (r : AssignmentRow.t) : bool := eq_str r.(AssignmentRow.id) id.

(** [status IN ('queued', 'running', 'review')]. *)
Definition active (r : AssignmentRow.t) : bool :=
  has_status [CollaborationAssignmentStatus.Queued; CollaborationAssignmentStatus.Running; CollaborationAssignmentStatus.Review] r.

(** ** Reading *)
Section Repo.
Context {V : Type} `{!TextSerde (list CollaborationAgentCapability.t)} `{!TextSerde (list FileChange.t)}
  `{!TextSerde (list string)} `{!TextSerde (ApprovalRequest.t V)}.

(** A device with the count of its active assignments. *)
Definition device_try_from (db : CollabDb) (r : DeviceRow.t) : result DbError CollaborationDevice.t :=
  capabilities ← read_text r.(DeviceRow.capabilities_json);
  mret (CollaborationDevice.mk r.(DeviceRow.id) r.(DeviceRow.name) r.(DeviceRow.hostname) r.(DeviceRow.platform)
    r.(DeviceRow.extension_version) capabilities r.(DeviceRow.last_seen_at) r.(DeviceRow.paired_at) r.(DeviceRow.revoked_at)
    (Z.of_nat (length (filter (fun a => (eq_str a.(AssignmentRow.device_id) r.(DeviceRow.id) && active a) = true) db.(assignments))))).

Definition device_row (db : CollabDb) (id : string) : option DeviceRow.t :=
  find (fun d => eq_str d.(DeviceRow.id) id) db.(devices).

Definition get_device (device_id : string) : CollabM (option CollaborationDevice.t) :=
  db ← get;
  lift (transpose (device_try_from db <$> device_row db device_id)).

(** [ORDER BY d.revoked_at IS NOT NULL, d.last_seen_at DESC]. *)
Definition device_order (a b : DeviceRow.t) : bool :=
  let revoked d := match d.(DeviceRow.revoked_at) with Some _ => 1 | None => 0 end in
  (revoked a <? revoked b) || ((revoked a =? revoked b) && (b.(DeviceRow.last_seen_at) <=? a.(DeviceRow.last_seen_at))).

Definition list_devices : CollabM (list CollaborationDevice.t) :=
  db ← get;
  lift (collect (device_try_from db <$> sort_by device_order db.(devices))).

Definition assignment_try_from (device_name : string) (r : AssignmentRow.t) : result DbError CollaborationAssignment.t :=
  agent ← decode (T:=AgentKind.t) r.(AssignmentRow.agent_kind);
  execution_backend ← decode (T:=ExecutionBackend.t) r.(AssignmentRow.execution_backend);
  status ← decode (T:=CollaborationAssignmentStatus.t) r.(AssignmentRow.status);
  mret (CollaborationAssignment.mk r.(AssignmentRow.id) r.(AssignmentRow.thread_id) r.(AssignmentRow.turn_id)
    r.(AssignmentRow.device_id) device_name agent r.(AssignmentRow.permission) execution_backend r.(AssignmentRow.prompt)
    status r.(AssignmentRow.lease_expires_at) r.(AssignmentRow.created_at) r.(AssignmentRow.started_at)
    r.(AssignmentRow.finished_at) r.(AssignmentRow.error)).

(** The join with the devices. *)
Definition joined_assignment (db : CollabDb) (r : AssignmentRow.t) : option (DeviceRow.t * AssignmentRow.t) :=
  d ← device_row db r.(AssignmentRow.device_id); Some (d, r).
Definition decode_assignment (j : DeviceRow.t * AssignmentRow.t) : result DbError CollaborationAssignment.t :=
  assignment_try_from j.1.(DeviceRow.name) j.2.

Definition get_assignment (assignment_id : string) : CollabM (option CollaborationAssignment.t) :=
  db ← get;
  lift (transpose (decode_assignment <$>
    (find (is_assignment assignment_id) db.(assignments) ≫= joined_assignment db))).

Definition list_assignments (device_id : option string) (active_only : bool) : CollabM (list CollaborationAssignment.t) :=
  db ← get;
  let rows := filter (fun r =>
    (from_option (eq_str r.(AssignmentRow.device_id)) true device_id && (negb active_only || active r)) = true) db.(assignments) in
  let newest a b := b.(AssignmentRow.created_at) <=? a.(AssignmentRow.created_at) in
  lift (collect (decode_assignment <$> take 250 (omap (joined_assignment db) (sort_by newest rows)))).

(** ** Devices *)

Definition upsert_device (ts : Z) (input : RegisterCollaborationDevice.t) (reactivate : bool) : CollabM CollaborationDevice.t :=
  let capabilities_json := to_text input.(RegisterCollaborationDevice.capabilities) in
  let written paired_at revoked_at :=
    DeviceRow.mk input.(RegisterCollaborationDevice.id) input.(RegisterCollaborationDevice.name)
      input.(RegisterCollaborationDevice.hostname) input.(RegisterCollaborationDevice.platform)
      input.(RegisterCollaborationDevice.extension_version) capabilities_json ts paired_at revoked_at in
  db ← get;
  let known d := eq_str d.(DeviceRow.id) input.(RegisterCollaborationDevice.id) in
  _ ← (if existsb known db.(devices) then
         modify (put_devices (update_where known
           (fun d => written d.(DeviceRow.paired_at) (if reactivate then None else d.(DeviceRow.revoked_at))) db.(devices)))
       else modify (put_devices (db.(devices) ++ [written ts None])));
  device ← get_device input.(RegisterCollaborationDevice.id);
  lift_opt device DbNotFound.

Definition heartbeat_device (ts : Z) (input : RegisterCollaborationDevice.t) : CollabM CollaborationDevice.t :=
  upsert_device ts input false.

Definition release_where (p : RepoLeaseRow.t -> bool) : CollabM () :=
  modify (fun db => put_leases (filter (fun l => p l = false) db.(leases)) db).
Definition release_repo_leases (assignment_id : string) : CollabM () :=
  release_where (fun l => eq_str l.(RepoLeaseRow.assignment_id) assignment_id).

(** What ends an assignment: no lease any more. *)
Definition ended (status : CollaborationAssignmentStatus.t) (ts : Z) (error : option string) (r : AssignmentRow.t) : AssignmentRow.t :=
  AssignmentRow.set_finished (Some ts) error
    (AssignmentRow.set_lease None None (AssignmentRow.set_status (CollaborationAssignmentStatus.as_str status) r)).

(** One transaction, as are the ones below: nothing in them can fail after a write. *)
Definition revoke_device (ts : Z) (device_id : string) : CollabM () :=
  _ ← modify (fun db => put_devices (update_where (fun d => eq_str d.(DeviceRow.id) device_id)
        (DeviceRow.set_revoked_at (Some ts)) db.(devices)) db);
  _ ← update_assignments
        (fun r => eq_str r.(AssignmentRow.device_id) device_id &&
                  has_status [CollaborationAssignmentStatus.Queued; CollaborationAssignmentStatus.Running] r)
        (ended CollaborationAssignmentStatus.Cancelled ts (Some "device access revoked"));
  db ← get;
  release_where (fun l => existsb (fun r => is_assignment l.(RepoLeaseRow.assignment_id) r &&
    eq_str r.(AssignmentRow.device_id) device_id && has_status [CollaborationAssignmentStatus.Cancelled] r) db.(assignments)).

(** ** Assignments *)

Inductive InsertError := LeaseTaken | InsertFailed (e : DbError).

(** [host] holds the threads and turns the foreign keys point at; [acquired]
    are the instants of the leases. A refused row rolls everything back. *)
Fixpoint take_leases (assignment_id : string) (acquired : Z) (repo_ids : list string) (db : CollabDb) : result InsertError CollabDb :=
  match repo_ids with
  | [] => Ok db
  | repo_id :: rest =>
      if existsb (fun l => eq_str l.(RepoLeaseRow.repo_id) repo_id) db.(leases) then Err LeaseTaken
      else if negb (existsb (fun r => eq_str r.(Repo.id) repo_id) db.(repos)) then Err (InsertFailed Sqlx)
      else take_leases assignment_id acquired rest
             (put_leases (db.(leases) ++ [RepoLeaseRow.mk repo_id assignment_id acquired]) db)
  end.

Definition assignment_row (a : CollaborationAssignment.t) : AssignmentRow.t :=
  AssignmentRow.mk a.(CollaborationAssignment.id) a.(CollaborationAssignment.thread_id) a.(CollaborationAssignment.turn_id)
    a.(CollaborationAssignment.device_id) (AgentKind.as_str a.(CollaborationAssignment.agent)) a.(CollaborationAssignment.permission)
    (ExecutionBackend.as_str a.(CollaborationAssignment.execution_backend)) a.(CollaborationAssignment.prompt)
    (CollaborationAssignmentStatus.as_str a.(CollaborationAssignment.status)) None None a.(CollaborationAssignment.created_at)
    None None None.

Definition insert_assignment (host : AgentDb) (ts : Z) (a : CollaborationAssignment.t) (repo_ids : list string) :
  M CollabDb InsertError () :=
  let row := assignment_row a in
  db ← get;
  _ ← fail_when (existsb (is_assignment row.(AssignmentRow.id)) db.(assignments)) (InsertFailed Sqlx);
  _ ← fail_when (negb (keyed AgentThreadRow.id host.(threads) row.(AssignmentRow.thread_id) &&
                       keyed AgentTurnRow.id host.(turns) row.(AssignmentRow.turn_id) &&
                       existsb (fun d => eq_str d.(DeviceRow.id) row.(AssignmentRow.device_id)) db.(devices))) (InsertFailed Sqlx);
  _ ← fail_when (active row && existsb (fun r => eq_str r.(AssignmentRow.thread_id) row.(AssignmentRow.thread_id) && active r)
                   db.(assignments)) (InsertFailed Sqlx);
  db' ← lift (take_leases row.(AssignmentRow.id) ts repo_ids (put_assignments (db.(assignments) ++ [row]) db));
  modify (fun _ => db').

Definition locked_repo_names (repo_ids : list string) : CollabM (list string) :=
  if bool_decide (repo_ids = []) then mret []
  else gets (fun db => sort_by String.leb
    (omap (fun l => Repo.name <$> find (fun r => eq_str r.(Repo.id) l.(RepoLeaseRow.repo_id)) db.(repos))
       (filter (fun l => l.(RepoLeaseRow.repo_id) ∈ repo_ids) db.(leases)))).

Definition claim_assignment (ts : Z) (assignment_id device_id lease_token_hash : string) (lease_expires_at : Z) :
  CollabM (option CollaborationAssignment.t) :=
  db ← get;
  let paired := existsb (fun d => eq_str d.(DeviceRow.id) device_id && bool_decide (d.(DeviceRow.revoked_at) = None)) db.(devices) in
  n ← update_assignments
        (fun r => is_assignment assignment_id r && eq_str r.(AssignmentRow.device_id) device_id &&
                  has_status [CollaborationAssignmentStatus.Queued] r && paired)
        (fun r => AssignmentRow.set_started_at (opt_or r.(AssignmentRow.started_at) (Some ts))
                    (AssignmentRow.set_lease (Some lease_token_hash) (Some lease_expires_at)
                       (AssignmentRow.set_status (CollaborationAssignmentStatus.as_str CollaborationAssignmentStatus.Running) r)));
  if n =? 0 then mret None else get_assignment assignment_id.

(** [lease_token_hash = ? AND status = 'running' AND lease_expires_at > ?]. *)
Definition leased (assignment_id lease_token_hash : string) (ts : Z) (r : AssignmentRow.t) : bool :=
  is_assignment assignment_id r && is_some_and r.(AssignmentRow.lease_token_hash) (fun h => eq_str h lease_token_hash) &&
  has_status [CollaborationAssignmentStatus.Running] r && is_some_and r.(AssignmentRow.lease_expires_at) (fun e => ts <? e).

Definition validate_lease (ts : Z) (assignment_id lease_token_hash : string) : CollabM (option CollaborationAssignment.t) :=
  db ← get;
  let row := find (leased assignment_id lease_token_hash ts) db.(assignments) ≫= joined_assignment db in
  let row := match row with
             | Some (d, r) => if bool_decide (d.(DeviceRow.revoked_at) = None) then Some (d, r) else None
             | None => None
             end in
  lift (transpose (decode_assignment <$> row)).

Definition renew_lease (ts : Z) (assignment_id lease_token_hash : string) (lease_expires_at : Z) :
  CollabM (option CollaborationAssignment.t) :=
  n ← update_assignments (leased assignment_id lease_token_hash ts)
        (fun r => AssignmentRow.set_lease r.(AssignmentRow.lease_token_hash) (Some lease_expires_at) r);
  if n =? 0 then mret None else get_assignment assignment_id.

Definition finish_assignment (ts : Z) (assignment_id lease_token_hash : string) (status : CollaborationAssignmentStatus.t)
  (error : option string) : CollabM (option CollaborationAssignment.t) :=
  n ← update_assignments (leased assignment_id lease_token_hash ts) (ended status ts error);
  if n =? 0 then mret None
  else
    _ ← (if bool_decide (status = CollaborationAssignmentStatus.Review) then mret () else release_repo_leases assignment_id);
    get_assignment assignment_id.

Definition cancel_assignment (ts : Z) (assignment_id : string) : CollabM (option CollaborationAssignment.t) :=
  n ← update_assignments
        (fun r => is_assignment assignment_id r &&
           has_status [CollaborationAssignmentStatus.Queued; CollaborationAssignmentStatus.Running; CollaborationAssignmentStatus.Review;
                       CollaborationAssignmentStatus.Failed; CollaborationAssignmentStatus.LeaseExpired] r)
        (ended CollaborationAssignmentStatus.Cancelled ts (Some "cancelled by user"));
  if n =? 0 then mret None
  else _ ← release_repo_leases assignment_id; get_assignment assignment_id.

(** The assignments one pass ends, each in its own transaction. *)
Definition expire_one (ts : Z) (id : string) : CollabM () :=
  _ ← update_assignments (fun r => is_assignment id r && has_status [CollaborationAssignmentStatus.Running] r)
        (ended CollaborationAssignmentStatus.LeaseExpired ts (Some "device lease expired"));
  release_repo_leases id.
Definition fail_offline (ts : Z) (id : string) : CollabM () :=
  _ ← update_assignments (fun r => is_assignment id r && has_status [CollaborationAssignmentStatus.Queued] r)
        (fun r => AssignmentRow.set_finished (Some ts) (Some "device went offline before starting")
                    (AssignmentRow.set_status (CollaborationAssignmentStatus.as_str CollaborationAssignmentStatus.Failed) r));
  release_repo_leases id.

Fixpoint read_back (ids : list string) : CollabM (list CollaborationAssignment.t) :=
  match ids with
  | [] => mret []
  | id :: rest =>
      assignment ← get_assignment id;
      out ← read_back rest;
      mret (option_list assignment ++ out)%list
  end.

Definition expired_ids (ts : Z) (db : CollabDb) : list string :=
  AssignmentRow.id <$> filter (fun r => (has_status [CollaborationAssignmentStatus.Running] r &&
    is_some_and r.(AssignmentRow.lease_expires_at) (fun e => e <=? ts)) = true) db.(assignments).
Definition offline_ids (ts : Z) (db : CollabDb) : list string :=
  AssignmentRow.id <$> filter (fun r => (has_status [CollaborationAssignmentStatus.Queued] r &&
    is_some_and (device_row db r.(AssignmentRow.device_id)) (fun d => d.(DeviceRow.last_seen_at) <=? ts)) = true) db.(assignments).

(** Instants are in milliseconds; [ts] stands for each [now()] of the pass. *)
Definition expire_stale_assignments (ts : Z) : CollabM (list CollaborationAssignment.t) :=
  ids ← gets (expired_ids ts);
  if bool_decide (ids = []) then mret []
  else
    _ ← for_each (expire_one ts) ids;
    queued_ids ← gets (offline_ids (ts - 45 * 1000));
    _ ← for_each (fail_offline ts) queued_ids;
    read_back (ids ++ queued_ids).

(** ** Change sets *)

Definition change_try_from (repo_name : string) (r : ChangeSetRow.t) : result DbError CollaborationChangeSet.t :=
  files ← read_text r.(ChangeSetRow.files_json);
  status ← decode (T:=CollaborationChangeStatus.t) r.(ChangeSetRow.status);
  conflict_files ← read_text r.(ChangeSetRow.conflict_files_json);
  mret (CollaborationChangeSet.mk r.(ChangeSetRow.id) r.(ChangeSetRow.assignment_id) r.(ChangeSetRow.thread_id)
    r.(ChangeSetRow.device_id) r.(ChangeSetRow.repo_id) repo_name r.(ChangeSetRow.base_ref) files r.(ChangeSetRow.patch)
    r.(ChangeSetRow.patch_sha256) status conflict_files r.(ChangeSetRow.created_at) r.(ChangeSetRow.applied_at)).

Definition repo_row (db : CollabDb) (id : string) : option Repo.t := find (fun r => eq_str r.(Repo.id) id) db.(repos).
Definition joined_change (db : CollabDb) (r : ChangeSetRow.t) : option (Repo.t * ChangeSetRow.t) :=
  repo ← repo_row db r.(ChangeSetRow.repo_id); Some (repo, r).
Definition decode_change (j : Repo.t * ChangeSetRow.t) : result DbError CollaborationChangeSet.t :=
  change_try_from j.1.(Repo.name) j.2.
Definition is_change (id : string) (r : ChangeSetRow.t) : bool := eq_str r.(ChangeSetRow.id) id.

Definition get_change_set (id : string) : CollabM (option CollaborationChangeSet.t) :=
  db ← get;
  lift (transpose (decode_change <$> (find (is_change id) db.(change_sets) ≫= joined_change db))).

Definition change_row (c : CollaborationChangeSet.t) : ChangeSetRow.t :=
  ChangeSetRow.mk c.(CollaborationChangeSet.id) c.(CollaborationChangeSet.assignment_id) c.(CollaborationChangeSet.thread_id)
    c.(CollaborationChangeSet.device_id) c.(CollaborationChangeSet.repo_id) c.(CollaborationChangeSet.base_ref)
    (to_text c.(CollaborationChangeSet.files)) c.(CollaborationChangeSet.patch) c.(CollaborationChangeSet.patch_sha256)
    (CollaborationChangeStatus.as_str c.(CollaborationChangeSet.status)) (to_text c.(CollaborationChangeSet.conflict_files))
    c.(CollaborationChangeSet.created_at) c.(CollaborationChangeSet.applied_at).

Definition insert_change_set (host : AgentDb) (change : CollaborationChangeSet.t) : CollabM CollaborationChangeSet.t :=
  let row := change_row change in
  db ← get;
  _ ← fail_when (existsb (is_change row.(ChangeSetRow.id)) db.(change_sets)) Sqlx;
  _ ← fail_when (negb (existsb (is_assignment row.(ChangeSetRow.assignment_id)) db.(assignments) &&
                       keyed AgentThreadRow.id host.(threads) row.(ChangeSetRow.thread_id) &&
                       existsb (fun d => eq_str d.(DeviceRow.id) row.(ChangeSetRow.device_id)) db.(devices) &&
                       existsb (fun r => eq_str r.(Repo.id) row.(ChangeSetRow.repo_id)) db.(repos))) Sqlx;
  _ ← modify (put_change_sets (db.(change_sets) ++ [row]));
  found ← get_change_set row.(ChangeSetRow.id);
  lift_opt found DbNotFound.

Definition newest_change (a b : ChangeSetRow.t) : bool := b.(ChangeSetRow.created_at) <=? a.(ChangeSetRow.created_at).

Definition list_change_sets (thread_id : option string) : CollabM (list CollaborationChangeSet.t) :=
  db ← get;
  let joined rows := omap (joined_change db) (sort_by newest_change rows) in
  let rows := match thread_id with
              | Some thread_id => joined (filter (fun r => r.(ChangeSetRow.thread_id) = thread_id) db.(change_sets))
              | None => take 250 (joined db.(change_sets))
              end in
  lift (collect (decode_change <$> rows)).

Definition list_change_sets_for_assignment (assignment_id : string) : CollabM (list CollaborationChangeSet.t) :=
  db ← get;
  let rows := filter (fun r => r.(ChangeSetRow.assignment_id) = assignment_id) db.(change_sets) in
  lift (collect (decode_change <$>
    omap (joined_change db) (sort_by (fun a b => a.(ChangeSetRow.created_at) <=? b.(ChangeSetRow.created_at)) rows))).

(** [status IN ('pending', 'conflict')]. *)
Definition unsettled (assignment_id : string) (r : ChangeSetRow.t) : bool :=
  eq_str r.(ChangeSetRow.assignment_id) assignment_id &&
  (eq_str r.(ChangeSetRow.status) (CollaborationChangeStatus.as_str CollaborationChangeStatus.Pending) ||
   eq_str r.(ChangeSetRow.status) (CollaborationChangeStatus.as_str CollaborationChangeStatus.Conflict)).

Definition complete_assignment_review (assignment_id : string) : CollabM (option CollaborationAssignment.t) :=
  db ← get;
  n ← update_assignments
        (fun r => is_assignment assignment_id r && has_status [CollaborationAssignmentStatus.Review] r &&
                  negb (existsb (unsettled assignment_id) db.(change_sets)))
        (AssignmentRow.set_status (CollaborationAssignmentStatus.as_str CollaborationAssignmentStatus.Completed));
  if n =? 0 then mret None
  else _ ← release_repo_leases assignment_id; get_assignment assignment_id.

Definition update_change_status (ts : Z) (id : string) (status : CollaborationChangeStatus.t) (conflict_files : list string) :
  CollabM (option CollaborationChangeSet.t) :=
  let applied_at := match status with
                    | CollaborationChangeStatus.Applied | CollaborationChangeStatus.AppliedWithOverwrite => Some ts
                    | _ => None
                    end in
  _ ← modify (fun db => put_change_sets (update_where (is_change id)
        (ChangeSetRow.set_outcome (CollaborationChangeStatus.as_str status) (to_text conflict_files) applied_at)
        db.(change_sets)) db);
  get_change_set id.

(** ** Approvals *)

Definition get_approval (id : string) : CollabM (option (ApprovalRequest.t V)) :=
  db ← get;
  lift (transpose ((fun r => read_text r.(ApprovalRow.request_json)) <$>
    find (fun r => eq_str r.(ApprovalRow.id) id) db.(approvals))).

(** [ON CONFLICT(assignment_id, local_approval_id) DO NOTHING]; another row with
    the same id is an error. *)
Definition insert_approval (id assignment_id local_approval_id : string) (request : ApprovalRequest.t V) :
  CollabM (ApprovalRequest.t V) :=
  let row := ApprovalRow.mk id assignment_id local_approval_id (to_text request) None request.(ApprovalRequest.created_at) None None in
  db ← get;
  _ ← (if existsb (fun r => eq_str r.(ApprovalRow.assignment_id) assignment_id &&
                           eq_str r.(ApprovalRow.local_approval_id) local_approval_id) db.(approvals) then mret ()
       else
         _ ← fail_when (existsb (fun r => eq_str r.(ApprovalRow.id) id) db.(approvals) ||
                        negb (existsb (is_assignment assignment_id) db.(assignments))) Sqlx;
         modify (put_approvals (db.(approvals) ++ [row])));
  found ← get_approval id;
  lift_opt found DbNotFound.

Definition list_pending_approvals : CollabM (list (ApprovalRequest.t V)) :=
  db ← get;
  let pending r := bool_decide (r.(ApprovalRow.decision) = None) &&
    existsb (fun a => is_assignment r.(ApprovalRow.assignment_id) a && has_status [CollaborationAssignmentStatus.Running] a)
      db.(assignments) in
  let oldest a b := a.(ApprovalRow.created_at) <=? b.(ApprovalRow.created_at) in
  lift (collect ((fun r => read_text r.(ApprovalRow.request_json)) <$>
    sort_by oldest (filter (fun r => pending r = true) db.(approvals)))).

Definition resolve_approval (ts : Z) (id : string) (decision : ApprovalDecision.t) : CollabM (option (ApprovalRequest.t V)) :=
  db ← get;
  let open_ r := eq_str r.(ApprovalRow.id) id && bool_decide (r.(ApprovalRow.decision) = None) in
  _ ← modify (put_approvals (update_where open_ (ApprovalRow.set_decision (Some (ApprovalDecision.as_str decision)) (Some ts)) db.(approvals)));
  if existsb open_ db.(approvals) then get_approval id else mret None.

Definition list_approval_decisions (assignment_id : string) : CollabM (list CollaborationApprovalDecision.t) :=
  db ← get;
  let rows := filter (fun r => (eq_str r.(ApprovalRow.assignment_id) assignment_id &&
    negb (bool_decide (r.(ApprovalRow.decision) = None)) && bool_decide (r.(ApprovalRow.delivered_at) = None)) = true) db.(approvals) in
  let earliest a b := default 0 a.(ApprovalRow.resolved_at) <=? default 0 b.(ApprovalRow.resolved_at) in
  lift (collect ((fun r =>
    decision ← decode (T:=ApprovalDecision.t) (default "" r.(ApprovalRow.decision));
    mret (CollaborationApprovalDecision.mk r.(ApprovalRow.id) r.(ApprovalRow.local_approval_id) decision))
    <$> sort_by earliest rows)).

Definition acknowledge_approval_decision (ts : Z) (assignment_id id : string) : CollabM bool :=
  db ← get;
  let decided r := eq_str r.(ApprovalRow.id) id && eq_str r.(ApprovalRow.assignment_id) assignment_id &&
                   negb (bool_decide (r.(ApprovalRow.decision) = None)) in
  _ ← modify (put_approvals (update_where decided (ApprovalRow.set_delivered (Some ts)) db.(approvals)));
  mret (existsb decided db.(approvals)).

(** [ON DELETE CASCADE] of a deleted thread (migrations 0024, 0026 and 0027). *)
Definition thread_deleted (thread_id : string) : CollabM () :=
  modify (fun db =>
    let gone id := existsb (fun r => is_assignment id r && eq_str r.(AssignmentRow.thread_id) thread_id) db.(assignments) in
    mkCollab db.(devices)
      (filter (fun r => eq_str r.(AssignmentRow.thread_id) thread_id = false) db.(assignments))
      (filter (fun l => gone l.(RepoLeaseRow.assignment_id) = false) db.(leases))
      (filter (fun c => (eq_str c.(ChangeSetRow.thread_id) thread_id || gone c.(ChangeSetRow.assignment_id)) = false) db.(change_sets))
      (filter (fun a => gone a.(ApprovalRow.assignment_id) = false) db.(approvals))
      db.(repos)).
End Repo.
