(* ===== verification/CollabLife.v ===== *)
(** * Collaboration: the life of an assignment

    Every repository call moves each assignment along the life cycle
    ([lifecycle]), removes none, and keeps the tables sound ([collab_ok]): one
    active assignment per thread, one holder per repository, a lease exactly while
    the assignment runs.  Both are one relation, [evolve], that calls compose. *)
From Stdlib Require Import Ascii String.
From S2P Require Import Prelude RustStr Json Enums Records WorkGraphDb WorkGraphInv Limits SqlTable AgentDb AgentDbProps CollabDb.
#[local] Open Scope string_scope.
#[local] Open Scope Z_scope.
Import CollaborationAssignmentStatus.

(** ** Programs that only read at the end *)
Section Reading.
Context {S E : Type}.

Definition reads {A} (m : M S E A) : Prop := forall s, final m s = s.

Lemma final_get {A} (k : S -> M S E A) s : final (x ← get; k x) s = final (k s) s.
Proof. done. Qed.
Lemma final_modify {A} f (k : M S E A) s : final (_ ← modify f; k) s = final k (f s).
Proof. done. Qed.
Lemma final_fail_when {A} b e (k : M S E A) s : final (_ ← fail_when b e; k) s = if b then s else final k s.
Proof. by destruct b. Qed.
Lemma final_modify_seq {A} f e (k : M S E A) s : final (_ ← (_ ← fail_when false e; modify f); k) s = final k (f s).
Proof. done. Qed.
Lemma reads_bind {A B} (m : M S E A) (k : A -> M S E B) : reads m -> (forall a, reads (k a)) -> reads (m ≫= k).
Proof.
  intros Hm Hk s. specialize (Hm s). unfold final in *. rewrite M_bind_unfold. destruct (m s) as [s' [a|e]]; cbn in *; [|done].
  change (final (k a) s' = s). by rewrite Hk.
Qed.
Lemma reads_lift {A} (r : result E A) : reads (lift r).
Proof. done. Qed.
Lemma reads_gets {A} (f : S -> A) : reads (gets f).
Proof. done. Qed.
Lemma reads_ret {A} (a : A) : reads (mret a).
Proof. done. Qed.
End Reading.

(** Drop a tail that only reads. *)
Ltac skip_reads :=
  match goal with
  | |- context [final ?m ?s] => replace (final m s) with s by (symmetry; apply (reads_bind (E:=DbError)); done)
  end.

(** ** Rows *)

Abbreviation status_is r s := (r.(AssignmentRow.status) = as_str s).

Lemma has_status_iff l r : has_status l r = true <-> exists s, s ∈ l /\ status_is r s.
Proof.
  unfold has_status. rewrite existsb_exists. split; intros (s & Hs & Heq); exists s.
  - apply eq_str_true in Heq. by apply list_elem_of_In in Hs.
  - by rewrite eq_str_true, <- list_elem_of_In.
Qed.

Lemma has_status_one s r : has_status [s] r = true <-> status_is r s.
Proof. rewrite has_status_iff. split; [intros (s' & ->%list_elem_of_singleton & Hs); done|exists s; by split; [left|]]. Qed.

Lemma as_str_inj s s' : as_str s = as_str s' -> s = s'.
Proof. by destruct s, s'. Qed.

Lemma active_iff r : active r = true <-> status_is r Queued \/ status_is r Running \/ status_is r Review.
Proof.
  unfold active. rewrite has_status_iff. split.
  - intros (s & Hin & Hs). rewrite Hs. clear Hs. apply elem_of_cons in Hin as [->|Hin]; [tauto|].
    apply elem_of_cons in Hin as [->| ->%list_elem_of_singleton]; tauto.
  - intros [H|[H|H]]; eexists; (split; [|exact H]); set_solver.
Qed.

Lemma active_status r s : status_is r s -> active r = bool_decide (s ∈ [Queued; Running; Review]).
Proof.
  intros Hs. apply Bool.eq_iff_eq_true. rewrite active_iff, Hs, bool_decide_eq_true. split.
  - intros [H|[H|H]]; apply as_str_inj in H as ->; set_solver.
  - intros [->|[->| ->%list_elem_of_singleton]%elem_of_cons]%elem_of_cons; tauto.
Qed.

(** The steps an assignment can take. *)
Inductive lifecycle : t -> t -> Prop :=
| queued_claimed : lifecycle Queued Running
| queued_failed : lifecycle Queued Failed
| queued_cancelled : lifecycle Queued Cancelled
| running_review : lifecycle Running Review
| running_failed : lifecycle Running Failed
| running_expired : lifecycle Running LeaseExpired
| running_cancelled : lifecycle Running Cancelled
| review_completed : lifecycle Review Completed
| review_cancelled : lifecycle Review Cancelled
| failed_cancelled : lifecycle Failed Cancelled
| expired_cancelled : lifecycle LeaseExpired Cancelled.

Definition readable (r : AssignmentRow.t) : Prop := is_ok (assignment_try_from "" r) = true.

(** A token and its deadline exactly while the assignment runs. *)
Definition lease_ok (r : AssignmentRow.t) : Prop :=
  if has_status [Running] r then is_Some r.(AssignmentRow.lease_token_hash) /\ is_Some r.(AssignmentRow.lease_expires_at)
  else r.(AssignmentRow.lease_token_hash) = None /\ r.(AssignmentRow.lease_expires_at) = None.
Definition row_ok (r : AssignmentRow.t) : Prop := readable r /\ lease_ok r.

(** The columns no call writes. *)
Definition same_work (r r' : AssignmentRow.t) : Prop :=
  r'.(AssignmentRow.id) = r.(AssignmentRow.id) /\ r'.(AssignmentRow.thread_id) = r.(AssignmentRow.thread_id) /\
  r'.(AssignmentRow.turn_id) = r.(AssignmentRow.turn_id) /\ r'.(AssignmentRow.device_id) = r.(AssignmentRow.device_id) /\
  r'.(AssignmentRow.permission) = r.(AssignmentRow.permission) /\ r'.(AssignmentRow.prompt) = r.(AssignmentRow.prompt).

Lemma readable_parts name r :
  is_ok (assignment_try_from name r) =
  is_ok (decode (T:=AgentKind.t) r.(AssignmentRow.agent_kind)) &&
  is_ok (decode (T:=ExecutionBackend.t) r.(AssignmentRow.execution_backend)) &&
  is_ok (decode (T:=t) r.(AssignmentRow.status)).
Proof. unfold assignment_try_from. by destruct (decode _), (decode _), (decode _). Qed.

Lemma decode_as_str s : decode (T:=t) (as_str s) = Ok s.
Proof. by destruct s. Qed.

(** What a call may do to one assignment; the instants it reads are [later]. *)
Section Moves.
Context (later : Z -> Prop).

Inductive move : AssignmentRow.t -> AssignmentRow.t -> Prop :=
| move_claim r hash expires started :
    status_is r Queued ->
    move r (AssignmentRow.set_started_at started
             (AssignmentRow.set_lease (Some hash) (Some expires) (AssignmentRow.set_status (as_str Running) r)))
| move_renew r ts hash expires :
    later ts -> leased r.(AssignmentRow.id) hash ts r = true ->
    move r (AssignmentRow.set_lease r.(AssignmentRow.lease_token_hash) (Some expires) r)
| move_end r s s' ts error :
    status_is r s -> lifecycle s s' -> s' <> Running -> move r (ended s' ts error r)
| move_offline r ts error :
    status_is r Queued -> move r (AssignmentRow.set_finished (Some ts) error (AssignmentRow.set_status (as_str Failed) r))
| move_complete r : status_is r Review -> move r (AssignmentRow.set_status (as_str Completed) r).

Lemma move_same_work r r' : move r r' -> same_work r r'.
Proof. by destruct 1. Qed.

(** Every move is a step of the life cycle or leaves the status alone. *)
Lemma move_lifecycle r r' :
  move r r' -> r'.(AssignmentRow.status) = r.(AssignmentRow.status) \/
               exists s s', status_is r s /\ status_is r' s' /\ lifecycle s s'.
Proof.
  destruct 1 as [r ? ? ? H|r|r s s' ? ? H Hl _|r ? ? H|r H]; [right|by left|right..].
  - exists Queued, Running. repeat split; [done|constructor].
  - by exists s, s'.
  - exists Queued, Failed. repeat split; [done|constructor].
  - exists Review, Completed. repeat split; [done|constructor].
Qed.

Lemma has_running_set r s : status_is r s -> has_status [Running] r = bool_decide (s = Running).
Proof.
  intros Hs. apply Bool.eq_iff_eq_true. rewrite has_status_one, Hs, bool_decide_eq_true.
  split; [apply as_str_inj|by intros ->].
Qed.

Lemma readable_status r r' s :
  r'.(AssignmentRow.agent_kind) = r.(AssignmentRow.agent_kind) ->
  r'.(AssignmentRow.execution_backend) = r.(AssignmentRow.execution_backend) -> status_is r' s -> readable r -> readable r'.
Proof.
  unfold readable. rewrite !readable_parts. intros -> -> -> [[Ha He]%andb_prop _]%andb_prop. by rewrite Ha, He, decode_as_str.
Qed.

Lemma life_row_ok r r' : row_ok r -> move r r' -> row_ok r'.
Proof.
  intros [Hr Hl] Hm. split.
  - destruct Hm as [r ? ? ? _|r|r s s' ? ? _ _ _|r ? ? _|r _].
    + by apply (readable_status r _ Running).
    + revert Hr. unfold readable. by rewrite !readable_parts.
    + by apply (readable_status r _ s').
    + by apply (readable_status r _ Failed).
    + by apply (readable_status r _ Completed).
  - unfold lease_ok in *. destruct Hm as [r ? ? ? H|r ? ? ? ? H|r s s' ? ? H Hlc Hne|r ? ? H|r H].
    + rewrite (has_running_set _ Running) by done. by split; eexists.
    + unfold leased in H. rewrite !andb_true_iff in H. destruct H as [[_ H] _].
      change (has_status [Running] (AssignmentRow.set_lease _ _ r)) with (has_status [Running] r). rewrite H in Hl |- *.
      split; [apply Hl|by eexists].
    + rewrite (has_running_set _ s') by done. by rewrite bool_decide_eq_false_2.
    + rewrite (has_running_set _ Failed) by done. by rewrite (has_running_set r Queued) in Hl by done.
    + rewrite (has_running_set _ Completed) by done. by rewrite (has_running_set r Review) in Hl by done.
Qed.

Lemma lifecycle_active s s' :
  lifecycle s s' -> s' ∈ [Queued; Running; Review] -> s ∈ [Queued; Running; Review] /\ s' <> Queued.
Proof. destruct 1; intros H; split; try done; try set_solver; exfalso; revert H; set_solver. Qed.

(** Nothing ended becomes active again, and nothing started is queued again. *)
Lemma move_active r r' : move r r' -> active r' = true -> active r = true.
Proof.
  intros Hm. destruct (move_lifecycle r r' Hm) as [Hs|(s & s' & Hs & Hs' & Hl)].
  - rewrite !active_iff, Hs. done.
  - rewrite (active_status r s Hs), (active_status r' s' Hs'), !bool_decide_eq_true. intros Ha.
    by apply (lifecycle_active s s').
Qed.

Lemma move_queued r r' : move r r' -> status_is r' Queued -> status_is r Queued.
Proof.
  intros Hm Hq. destruct (move_lifecycle r r' Hm) as [Hs|(s & s' & Hs & Hs' & Hl)]; [congruence|].
  rewrite Hs' in Hq. apply as_str_inj in Hq as ->. inversion Hl.
Qed.

Abbreviation moves := (rtc move).

Lemma moves_ind_fact (P : AssignmentRow.t -> AssignmentRow.t -> Prop) :
  (forall r, P r r) -> (forall r r' r'', move r r' -> P r' r'' -> P r r'') -> forall r r', moves r r' -> P r r'.
Proof. intros Hr Hs r r'. induction 1; eauto. Qed.

Lemma moves_same_work r r' : moves r r' -> same_work r r'.
Proof.
  apply moves_ind_fact; [done|]. intros r1 r2 r3 Hm%move_same_work Hr. unfold same_work in *. naive_solver congruence.
Qed.
Lemma lives_row_ok r r' : moves r r' -> row_ok r -> row_ok r'.
Proof. apply (moves_ind_fact (fun r r' => row_ok r -> row_ok r')); [done|]. intros ? ? ? Hm IH H. eauto using life_row_ok. Qed.
Lemma moves_active r r' : moves r r' -> active r' = true -> active r = true.
Proof. apply (moves_ind_fact (fun r r' => active r' = true -> active r = true)); [done|]. intros ? ? ? Hm IH H. eauto using move_active. Qed.
Lemma moves_queued r r' : moves r r' -> status_is r' Queued -> status_is r Queued.
Proof. apply (moves_ind_fact (fun r r' => status_is r' Queued -> status_is r Queued)); [done|]. intros ? ? ? Hm IH H. eauto using move_queued. Qed.

(** ** Tables *)

(** An assignment's device exists, and is paired while the assignment runs. *)
Definition device_fits (devices : list DeviceRow.t) (r : AssignmentRow.t) : Prop :=
  exists d, find (fun d => eq_str d.(DeviceRow.id) r.(AssignmentRow.device_id)) devices = Some d /\
            (status_is r Running -> d.(DeviceRow.revoked_at) = None).

Record collab_ok (db : CollabDb) : Prop := {
  ok_devices : NoDup (DeviceRow.id <$> db.(devices));
  ok_ids : NoDup (AssignmentRow.id <$> db.(assignments));
  ok_rows : forall r, r ∈ db.(assignments) -> row_ok r /\ device_fits db.(devices) r;
  ok_slots : forall r r', r ∈ db.(assignments) -> r' ∈ db.(assignments) -> active r = true -> active r' = true ->
             r.(AssignmentRow.thread_id) = r'.(AssignmentRow.thread_id) -> r = r';
  ok_holders : NoDup (RepoLeaseRow.repo_id <$> db.(leases));
  ok_leases : forall l, l ∈ db.(leases) -> exists r, r ∈ db.(assignments) /\
              r.(AssignmentRow.id) = l.(RepoLeaseRow.assignment_id) /\ active r = true;
  ok_changes : forall c, c ∈ db.(change_sets) -> exists r, r ∈ db.(assignments) /\
               r.(AssignmentRow.id) = c.(ChangeSetRow.assignment_id)
}.

(** No assignment is lost, each moves along its life, the new ones are queued first. *)
Definition evolve (db db' : CollabDb) : Prop :=
  exists rows born, db'.(assignments) = (rows ++ born)%list /\ Forall2 moves db.(assignments) rows /\
    Forall (fun r => exists r0, status_is r0 Queued /\ moves r0 r) born.

#[export] Instance evolve_preorder : PreOrder evolve.
Proof.
  split.
  - intros db. exists db.(assignments), []. rewrite app_nil_r. split_and!; [done| |done]. by induction db.(assignments); constructor.
  - intros db1 db2 db3 (rows & born & H & Hm & Hb) (rows' & born' & H' & Hm' & Hb').
    rewrite H in Hm'. apply Forall2_app_inv_l in Hm' as (rows1 & born1 & H1 & H2 & ->).
    exists rows1, (born1 ++ born')%list. rewrite H', app_assoc. split_and!; [done| |].
    + clear -Hm H1. revert rows1 H1. induction Hm; intros rows1 H1; inversion H1; subst; constructor; [by etrans|auto].
    + apply Forall_app. split; [|done]. clear -Hb H2. induction H2; inversion Hb; subst; constructor; [|auto].
      destruct H3 as (r0 & Hq & Hr). exists r0. split; [done|by etrans].
Qed.

(** The assignment that was there is there, further along. *)
Lemma evolve_row db db' r :
  evolve db db' -> r ∈ db.(assignments) -> exists r', r' ∈ db'.(assignments) /\ moves r r'.
Proof.
  intros (rows & born & H & Hm & _) Hr. apply list_elem_of_lookup in Hr as [i Hi].
  destruct (Forall2_lookup_l _ _ _ _ _ Hm Hi) as (r' & Hr' & Hmr). exists r'. split; [|done].
  rewrite H. apply elem_of_app. left. by eapply list_elem_of_lookup_2.
Qed.

(** One assignment after a call: moved, on a fitting device, and as active as the
    leases left need it. *)
Definition row_after (db' : CollabDb) (r r' : AssignmentRow.t) : Prop :=
  moves r r' /\ device_fits db'.(devices) r' /\
  (forall l, l ∈ db'.(leases) -> r.(AssignmentRow.id) = l.(RepoLeaseRow.assignment_id) -> active r = true -> active r' = true).

Lemma rows_ids rows rows' : Forall2 moves rows rows' -> AssignmentRow.id <$> rows' = AssignmentRow.id <$> rows.
Proof. induction 1 as [|r r' rows rows' Hm%moves_same_work _ IH]; [done|]. rewrite !fmap_cons, IH. f_equal. apply Hm. Qed.

Lemma moved_good db db' :
  collab_ok db -> Forall2 (row_after db') db.(assignments) db'.(assignments) ->
  NoDup (DeviceRow.id <$> db'.(devices)) -> NoDup (RepoLeaseRow.repo_id <$> db'.(leases)) ->
  (forall l, l ∈ db'.(leases) -> l ∈ db.(leases)) ->
  (forall c, c ∈ db'.(change_sets) -> exists r, r ∈ db.(assignments) /\ r.(AssignmentRow.id) = c.(ChangeSetRow.assignment_id)) ->
  collab_ok db' /\ evolve db db'.
Proof.
  intros [_ Hids Hrows Hslots _ Hleases _] Hrow Hd Hl Hsub Hc.
  assert (Forall2 moves db.(assignments) db'.(assignments)) as Hmoves by (eapply Forall2_impl; [exact Hrow|]; by intros ? ? []).
  assert (forall r', r' ∈ db'.(assignments) -> exists r, r ∈ db.(assignments) /\ row_after db' r r') as Hback.
  { intros r' [i Hi]%list_elem_of_lookup. destruct (Forall2_lookup_r _ _ _ _ _ Hrow Hi) as (r & Hr & Ha).
    exists r. split; [by eapply list_elem_of_lookup_2|done]. }
  assert (forall r, r ∈ db.(assignments) -> exists r', r' ∈ db'.(assignments) /\ row_after db' r r') as Hfwd.
  { intros r [i Hi]%list_elem_of_lookup. destruct (Forall2_lookup_l _ _ _ _ _ Hrow Hi) as (r' & Hr & Ha).
    exists r'. split; [by eapply list_elem_of_lookup_2|done]. }
  assert (NoDup (AssignmentRow.id <$> db'.(assignments))) as Hids' by by rewrite (rows_ids _ _ Hmoves).
  split; [split; try done|].
  - intros r' Hr'. destruct (Hback r' Hr') as (r & Hr & Hm & Hf & _). split; [|done].
    eapply lives_row_ok; [done|]. by apply Hrows.
  - intros r1' r2' H1 H2 A1 A2 Ht.
    destruct (Hback r1' H1) as (r1 & Hr1 & Hm1 & _), (Hback r2' H2) as (r2 & Hr2 & Hm2 & _).
    pose proof (moves_same_work _ _ Hm1) as (Hi1 & Ht1 & _). pose proof (moves_same_work _ _ Hm2) as (Hi2 & Ht2 & _).
    apply (NoDup_column_inj AssignmentRow.id db'.(assignments)); try done. rewrite Hi1, Hi2. f_equal.
    apply Hslots; try done; [by eapply moves_active|by eapply moves_active|congruence].
  - intros l Hin. destruct (Hleases l (Hsub l Hin)) as (r & Hr & Hid & Ha).
    destruct (Hfwd r Hr) as (r' & Hr' & Hm & _ & Hact). exists r'. pose proof (moves_same_work _ _ Hm) as (Hi & _).
    split_and!; [done|congruence|by eapply Hact].
  - intros c Hin. destruct (Hc c Hin) as (r & Hr & Hid).
    destruct (Hfwd r Hr) as (r' & Hr' & Hm & _). exists r'. pose proof (moves_same_work _ _ Hm) as (Hi & _). split; [done|congruence].
  - exists db'.(assignments), []. rewrite app_nil_r. done.
Qed.

Lemma moved_assignments (p : AssignmentRow.t -> bool) f db db' :
  db'.(assignments) = update_where p f db.(assignments) ->
  (forall r, r ∈ db.(assignments) -> row_after db' r (if p r then f r else r)) ->
  Forall2 (row_after db') db.(assignments) db'.(assignments).
Proof.
  intros -> H. unfold update_where. apply Forall2_fmap_r. revert H. induction db.(assignments) as [|r rows IH]; intros H; [constructor|].
  constructor; [apply H; by left|]. apply IH. intros r' Hr'. apply H. by right.
Qed.

Lemma fits_ended devices r r' :
  same_work r r' -> r'.(AssignmentRow.status) <> as_str Running -> device_fits devices r -> device_fits devices r'.
Proof. intros (_ & _ & _ & Hd & _) Hs (d & H & _). exists d. rewrite Hd. by split. Qed.

(** A call that ends or advances assignments that run no more, and releases. *)
Lemma ending_good db (p : AssignmentRow.t -> bool) f (q : RepoLeaseRow.t -> bool) :
  collab_ok db ->
  (forall r, r ∈ db.(assignments) -> p r = true -> move r (f r) /\ (f r).(AssignmentRow.status) <> as_str Running) ->
  (forall l r, l ∈ db.(leases) -> r ∈ db.(assignments) -> r.(AssignmentRow.id) = l.(RepoLeaseRow.assignment_id) ->
    q l = false -> p r = true -> active (f r) = true) ->
  let db' := put_leases (filter (fun l => q l = false) db.(leases)) (put_assignments (update_where p f db.(assignments)) db) in
  collab_ok db' /\ evolve db db'.
Proof.
  intros Hok Hf Hq db'. apply moved_good; [done| |apply Hok| | |].
  - apply (moved_assignments p f); [done|]. intros r Hr. pose proof (ok_rows _ Hok r Hr) as [_ Hfit]. cbn.
    destruct (p r) eqn:Hp; [|by repeat split].
    destruct (Hf r Hr Hp) as [Hm Hs]. split_and!; [by apply rtc_once| |].
    + eapply fits_ended; [by apply move_same_work|done|done].
    + intros l [Hl Hin]%list_elem_of_filter Hid _. by eapply Hq.
  - apply NoDup_filter_column, Hok.
  - intros l [_ Hin]%list_elem_of_filter. done.
  - apply (ok_changes _ Hok).
Qed.

(** A call that writes other tables. *)
Lemma others_good db db' :
  collab_ok db -> db'.(assignments) = db.(assignments) -> db'.(leases) = db.(leases) ->
  NoDup (DeviceRow.id <$> db'.(devices)) -> (forall r, r ∈ db.(assignments) -> device_fits db.(devices) r -> device_fits db'.(devices) r) ->
  (forall c, c ∈ db'.(change_sets) -> exists r, r ∈ db.(assignments) /\ r.(AssignmentRow.id) = c.(ChangeSetRow.assignment_id)) ->
  collab_ok db' /\ evolve db db'.
Proof.
  intros Hok Ha Hl Hd Hfit Hc. apply moved_good; [done| |done|rewrite Hl; apply Hok|by rewrite Hl|done].
  rewrite Ha. apply Forall_Forall2_diag, Forall_forall. intros r Hr. split_and!; [done| |done].
  apply Hfit; [done|]. by apply ok_rows.
Qed.

(** A call that keeps what it moves active. *)
Lemma staying_good db (p : AssignmentRow.t -> bool) f :
  collab_ok db ->
  (forall r, r ∈ db.(assignments) -> p r = true -> move r (f r) /\ device_fits db.(devices) (f r) /\ active (f r) = true) ->
  let db' := put_assignments (update_where p f db.(assignments)) db in
  collab_ok db' /\ evolve db db'.
Proof.
  intros Hok Hf db'. apply moved_good; [done| |apply Hok|apply Hok|done|apply (ok_changes _ Hok)].
  apply (moved_assignments p f); [done|]. intros r Hr. pose proof (ok_rows _ Hok r Hr) as [_ Hfit]. cbn.
  destruct (p r) eqn:Hp; [|by repeat split]. destruct (Hf r Hr Hp) as (Hm & Hd & Ha).
  split_and!; [by apply rtc_once|done|done].
Qed.

(** ** The calls *)
Section Calls.
Context {V : Type} `{!TextSerde (list CollaborationAgentCapability.t)} `{!TextSerde (list FileChange.t)}
  `{!TextSerde (list string)} `{!TextSerde (ApprovalRequest.t V)}.

Abbreviation good db db' := (collab_ok db' /\ evolve db db').

Lemma good_refl db : collab_ok db -> good db db.
Proof. intros Hok. by split. Qed.
Lemma good_trans db db' db'' : good db db' -> (collab_ok db' -> good db' db'') -> good db db''.
Proof. intros [Hok He] Hg. destruct (Hg Hok) as [Hok' He']. split; [done|by etrans]. Qed.

Lemma count_none (p : AssignmentRow.t -> bool) rows :
  (Z.of_nat (length (filter (fun r => p r = true) rows)) =? 0) = true -> forall r, r ∈ rows -> p r = false.
Proof.
  intros Hn%Z.eqb_eq r Hr. destruct (p r) eqn:Hp; [|done].
  assert (r ∈ filter (fun r => p r = true) rows) as Hin by by apply list_elem_of_filter.
  destruct (filter _ rows); [by apply elem_of_nil in Hin|done].
Qed.

Lemma has_in (l : list t) r : has_status l r = true -> exists s, s ∈ l /\ status_is r s.
Proof. apply has_status_iff. Qed.

(** [UPDATE ..; if it matched, DELETE the leases]. *)
Lemma released_good {A} p f (id : string) (k : Z -> CollabM A) db :
  collab_ok db ->
  (forall r, p r = true -> r.(AssignmentRow.id) = id) ->
  (forall r, p r = true -> move r (f r) /\ (f r).(AssignmentRow.status) <> as_str Running) ->
  (forall n db', final (k n) db' = if n =? 0 then db' else final (release_repo_leases id) db') ->
  good db (final (n ← update_assignments p f; k n) db).
Proof.
  intros Hok Hp Hf Hk.
  change (final _ db) with (final (k (Z.of_nat (length (filter (fun r => p r = true) db.(assignments)))))
    (put_assignments (update_where p f db.(assignments)) db)).
  rewrite Hk. destruct (_ =? 0) eqn:Hn.
  - apply staying_good; [done|]. intros r Hr Hpr. rewrite (count_none p _ Hn r Hr) in Hpr. done.
  - apply (ending_good db p f (fun l => eq_str l.(RepoLeaseRow.assignment_id) id)); [done|auto|].
    intros l r Hl Hr Hid Hq Hpr. rewrite <- Hid, (Hp r Hpr), (proj2 (eq_str_true id id) eq_refl) in Hq. done.
Qed.

(** [UPDATE ..] and a read. *)
Lemma stayed_good {A} p f (k : Z -> CollabM A) db :
  collab_ok db ->
  (forall r, r ∈ db.(assignments) -> p r = true -> move r (f r) /\ device_fits db.(devices) (f r) /\ active (f r) = true) ->
  (forall n db', final (k n) db' = db') ->
  good db (final (n ← update_assignments p f; k n) db).
Proof.
  intros Hok Hf Hk.
  change (final _ db) with (final (k (Z.of_nat (length (filter (fun r => p r = true) db.(assignments)))))
    (put_assignments (update_where p f db.(assignments)) db)).
  rewrite Hk. by apply staying_good.
Qed.

Lemma cancel_good ts id db : collab_ok db -> good db (final (cancel_assignment ts id) db).
Proof.
  intros Hok. apply (released_good _ _ id); [done|..].
  - intros r [Hid _]%andb_prop. by apply eq_str_true in Hid.
  - intros r [_ (s & Hin & Hs)%has_in]%andb_prop. split; [|done]. apply (move_end r s Cancelled); [done| |done].
    revert Hin. clear. destruct s; intros Hin; try constructor; exfalso; revert Hin; set_solver.
  - intros n db'. by destruct (n =? 0).
Qed.

Lemma expire_one_good ts id db : collab_ok db -> good db (final (expire_one ts id) db).
Proof.
  intros Hok. apply (ending_good db _ _ (fun l => eq_str l.(RepoLeaseRow.assignment_id) id)); [done|..].
  - intros r _ [_ Hs%has_status_one]%andb_prop. split; [|done]. apply (move_end r Running LeaseExpired); by try constructor.
  - intros l r _ _ Hid Hq [Hr%eq_str_true _]%andb_prop. rewrite <- Hid, Hr, (proj2 (eq_str_true id id) eq_refl) in Hq. done.
Qed.

Lemma fail_offline_good ts id db : collab_ok db -> good db (final (fail_offline ts id) db).
Proof.
  intros Hok. apply (ending_good db _ _ (fun l => eq_str l.(RepoLeaseRow.assignment_id) id)); [done|..].
  - intros r _ [_ Hs%has_status_one]%andb_prop. split; [by constructor|done].
  - intros l r _ _ Hid Hq [Hr%eq_str_true _]%andb_prop. rewrite <- Hid, Hr, (proj2 (eq_str_true id id) eq_refl) in Hq. done.
Qed.

Lemma finish_good ts id hash s error db :
  s ∈ [Review; Failed] -> collab_ok db -> good db (final (finish_assignment ts id hash s error) db).
Proof.
  intros Hs Hok. assert (forall r, leased id hash ts r = true -> r.(AssignmentRow.id) = id /\ status_is r Running) as Hleased.
  { intros r. unfold leased. rewrite !andb_true_iff. intros [[[Hid _] Hr] _]. split; [by apply eq_str_true|by apply has_status_one]. }
  assert (forall r, leased id hash ts r = true -> move r (ended s ts error r)) as Hmove.
  { intros r [_ Hr]%Hleased. apply (move_end r Running s); [done|revert Hs; destruct s; intros; try constructor; exfalso; set_solver|].
    intros ->. set_solver. }
  unfold finish_assignment. case_bool_decide as Hrev.
  - apply stayed_good; [done| |intros n db'; by destruct (n =? 0)].
    intros r Hr Hp. split_and!; [by apply Hmove| |by subst].
    eapply fits_ended; [by apply move_same_work, Hmove|by subst|by apply ok_rows].
  - apply (released_good _ _ id); [done|by intros r [? _]%Hleased| |].
    + intros r Hp. split; [by apply Hmove|]. intros Hr%as_str_inj. subst. set_solver.
    + intros n db'. by destruct (n =? 0).
Qed.

Lemma complete_review_good id db : collab_ok db -> good db (final (complete_assignment_review id) db).
Proof.
  intros Hok. apply (released_good (fun r => is_assignment id r && has_status [Review] r && negb (existsb (unsettled id) db.(change_sets)))
    (AssignmentRow.set_status (as_str Completed)) id
    (fun n => if n =? 0 then mret None else _ ← release_repo_leases id; get_assignment id)); [done|..].
  - intros r [[Hid _]%andb_prop _]%andb_prop. by apply eq_str_true in Hid.
  - intros r [[_ Hs%has_status_one]%andb_prop _]%andb_prop. split; [by constructor|done].
  - intros n db'. by destruct (n =? 0).
Qed.

Lemma claim_good ts id device_id hash expires db :
  collab_ok db -> good db (final (claim_assignment ts id device_id hash expires) db).
Proof.
  intros Hok. unfold claim_assignment. rewrite final_get.
  apply stayed_good; [done| |intros n db'; by destruct (n =? 0)].
  intros r Hr. rewrite !andb_true_iff. intros [[[_ Hdev%eq_str_true] Hq%has_status_one] Hpaired]. split_and!; [by constructor| |done].
  destruct (ok_rows _ Hok r Hr) as [_ (d & Hd & _)]. exists d. split; [done|]. intros _.
  apply existsb_exists in Hpaired as (d' & Hin & [Hid%eq_str_true Hrev%bool_decide_eq_true]%andb_prop).
  apply list_elem_of_In in Hin. apply find_Some_elem in Hd as [Hin' Hd%eq_str_true].
  rewrite (NoDup_column_inj DeviceRow.id db.(devices) d d'); try done; [apply Hok|congruence].
Qed.

Lemma renew_good ts id hash expires db :
  later ts -> collab_ok db -> good db (final (renew_lease ts id hash expires) db).
Proof.
  intros Hts Hok. apply stayed_good; [done| |intros n db'; by destruct (n =? 0)].
  intros r Hr Hl. assert (r.(AssignmentRow.id) = id /\ status_is r Running) as [Hid Hs].
  { unfold leased in Hl. rewrite !andb_true_iff in Hl. destruct Hl as [[[Hid _] Hs] _]. split; [by apply eq_str_true|by apply has_status_one]. }
  split_and!; [apply (move_renew r ts hash expires); [done|by rewrite Hid]|exact (proj2 (ok_rows _ Hok r Hr))|].
  apply active_iff. right. left. exact Hs.
Qed.

Lemma for_each_good {A} (f : A -> CollabM ()) l db :
  (forall a db, collab_ok db -> good db (final (f a) db)) -> collab_ok db -> good db (final (for_each f l) db).
Proof.
  intros Hf. revert db. induction l as [|a l IH]; intros db Hok; [by apply good_refl|]. specialize (Hf a db Hok). cbn.
  unfold final in *. rewrite M_bind_unfold. destruct (f a db) as [db' [[]|e]]; cbn in *; [|done].
  eapply good_trans; [exact Hf|apply IH].
Qed.

Lemma read_back_reads ids : reads (read_back ids).
Proof.
  induction ids as [|id ids IH]; [done|]. cbn [read_back]. apply reads_bind; [done|]. intros a.
  apply reads_bind; [apply IH|done].
Qed.

Lemma expire_good ts db : collab_ok db -> good db (final (expire_stale_assignments ts) db).
Proof.
  intros Hok. unfold expire_stale_assignments, final. rewrite M_bind_unfold. cbn. case_bool_decide; [by apply good_refl|].
  pose proof (for_each_good (expire_one ts) (expired_ids ts db) db (expire_one_good ts) Hok) as H1. unfold final in H1.
  rewrite M_bind_unfold. destruct (for_each (expire_one ts) _ db) as [db1 [[]|e]]; cbn in *; [|done].
  eapply good_trans; [exact H1|]. intros Hok1. rewrite M_bind_unfold. cbn.
  pose proof (for_each_good (fail_offline ts) (offline_ids (ts - 45000) db1) db1 (fail_offline_good ts) Hok1) as H2. unfold final in H2.
  rewrite M_bind_unfold. destruct (for_each (fail_offline ts) _ db1) as [db2 [[]|e]]; cbn in *; [|done].
  change (fst (read_back ?ids db2)) with (final (read_back ids) db2). by rewrite read_back_reads.
Qed.

Lemma find_update_devices (devs : list DeviceRow.t) (p : DeviceRow.t -> bool) f id :
  (forall d, p d = true -> (f d).(DeviceRow.id) = d.(DeviceRow.id)) ->
  find (fun d => eq_str d.(DeviceRow.id) id) (update_where p f devs) =
  (fun d => if p d then f d else d) <$> find (fun d => eq_str d.(DeviceRow.id) id) devs.
Proof.
  intros Hf. unfold update_where. induction devs as [|d devs IH]; [done|]. cbn.
  replace (eq_str (DeviceRow.id (if p d then f d else d)) id) with (eq_str d.(DeviceRow.id) id) by (destruct (p d) eqn:Hp; by rewrite ?Hf).
  destruct (eq_str _ _); [done|apply IH].
Qed.

Lemma upsert_good ts input reactivate db : collab_ok db -> good db (final (upsert_device ts input reactivate) db).
Proof.
  intros Hok. unfold upsert_device. rewrite final_get.
  set (known := fun d => eq_str d.(DeviceRow.id) input.(RegisterCollaborationDevice.id)).
  assert (forall f, final (_ ← modify f; device ← get_device input.(RegisterCollaborationDevice.id);
                            lift_opt device DbNotFound) db = f db) as Hread.
  { intros f. rewrite final_modify. apply reads_bind; done. }
  destruct (existsb known db.(devices)) eqn:He; rewrite Hread; apply others_good; try done.
  - cbn. rewrite update_where_column; [apply Hok|]. intros d _ Hd%eq_str_true. by symmetry.
  - intros r _ (d & Hd & Hrev). cbn. unfold device_fits. rewrite find_update_devices by (intros x Hx%eq_str_true; by symmetry). rewrite Hd. eexists. split; [done|].
    intros Hr%Hrev. destruct (known d), reactivate; done.
  - apply (ok_changes _ Hok).
  - cbn. rewrite fmap_app. apply NoDup_snoc; [apply Hok|]. intros (d & Hd & Hin)%list_elem_of_fmap.
    assert (existsb known db.(devices) = true) as Ht; [|congruence].
    apply existsb_exists. exists d. split; [by apply list_elem_of_In|]. by apply eq_str_true.
  - intros r _ (d & Hd & Hrev). exists d. split; [|done]. cbn. by rewrite find_append, Hd.
  - apply (ok_changes _ Hok).
Qed.

Lemma revoke_good ts device_id db : collab_ok db -> good db (final (revoke_device ts device_id) db).
Proof.
  intros Hok. set (revoke := DeviceRow.set_revoked_at (Some ts)).
  set (mine := fun d => eq_str d.(DeviceRow.id) device_id).
  apply moved_good; [done| | | |by intros l [_ Hin]%list_elem_of_filter|apply (ok_changes _ Hok)].
  - eapply moved_assignments; [reflexivity|]. intros r Hr. cbv beta.
    destruct (ok_rows _ Hok r Hr) as [_ (d & Hd & Hrev)].
    assert (find (fun d => eq_str d.(DeviceRow.id) r.(AssignmentRow.device_id)) (update_where mine revoke db.(devices)) =
            Some (if mine d then revoke d else d)) as Hd' by (rewrite find_update_devices by done; by rewrite Hd).
    apply find_Some_elem in Hd as [_ Hid%eq_str_true].
    destruct (eq_str r.(AssignmentRow.device_id) device_id && has_status [Queued; Running] r) eqn:Hp.
    + pose proof Hp as [Hdev (s & Hin & Hs)%has_in]%andb_prop. split_and!.
      * apply rtc_once, (move_end r s Cancelled); [done| |done].
        apply elem_of_cons in Hin as [->| ->%list_elem_of_singleton]; constructor.
      * eexists. split; [exact Hd'|]. done.
      * intros l [Hq Hl]%list_elem_of_filter Hlid _. exfalso. revert Hq. apply eq_true_false_abs, existsb_exists.
        exists (ended Cancelled ts (Some "device access revoked") r). split.
        { apply list_elem_of_In, elem_of_update_where. exists r. by rewrite Hp. }
        unfold is_assignment. cbn. by rewrite (proj2 (eq_str_true _ _) Hlid), Hdev.
    + split_and!; [done| |done]. eexists. split; [exact Hd'|]. intros Hr'. unfold mine.
      destruct (eq_str d.(DeviceRow.id) device_id) eqn:Hm; [|auto]. exfalso.
      apply eq_str_true in Hm. rewrite <- Hid, Hm, (proj2 (eq_str_true _ _) eq_refl), andb_true_l in Hp.
      rewrite (proj2 (has_status_iff _ _)) in Hp; [done|]. exists Running. split; [set_solver|done].
  - change (NoDup (DeviceRow.id <$> update_where mine revoke db.(devices))). rewrite update_where_column by done. apply Hok.
  - apply NoDup_filter_column, Hok.
Qed.

Lemma take_leases_ok id ts repo_ids db db' :
  take_leases id ts repo_ids db = Ok db' ->
  exists taken, db' = put_leases (db.(leases) ++ taken) db /\
    (forall l, l ∈ taken -> l.(RepoLeaseRow.assignment_id) = id) /\ RepoLeaseRow.repo_id <$> taken = repo_ids /\
    (NoDup (RepoLeaseRow.repo_id <$> db.(leases)) -> NoDup (RepoLeaseRow.repo_id <$> (db.(leases) ++ taken)%list)).
Proof.
  revert db. induction repo_ids as [|repo_id rest IH]; intros db; cbn.
  - intros [= <-]. exists []. rewrite app_nil_r. destruct db. split_and!; try done. by intros l ?%elem_of_nil.
  - destruct (existsb _ db.(leases)) eqn:He; [done|]. destruct (negb _); [done|]. intros H%IH.
    destruct H as (taken & -> & Ht & Hr & Hn). cbn in *. eexists (_ :: taken). rewrite <- app_assoc in *. split_and!; [done| | |].
    + intros l [->|Hl]%elem_of_cons; [done|by apply Ht].
    + cbn. by f_equal.
    + intros Hnd. apply Hn. rewrite fmap_app. apply NoDup_snoc; [done|].
      intros (l & Hl & Hin)%list_elem_of_fmap. revert He. apply eq_true_false_abs, existsb_exists. exists l.
      split; [by apply list_elem_of_In|]. by apply eq_str_true.
Qed.

Lemma insert_good host ts a repo_ids db :
  a.(CollaborationAssignment.status) = Queued -> collab_ok db -> good db (final (insert_assignment host ts a repo_ids) db).
Proof.
  intros Hq Hok. unfold insert_assignment. rewrite final_get, !final_fail_when.
  set (row := assignment_row a). assert (status_is row Queued) as Hrow by (cbn; by rewrite Hq).
  destruct (existsb (is_assignment _) _) eqn:Hid; [by apply good_refl|].
  destruct (negb _) eqn:Hfk; [by apply good_refl|].
  destruct (active row && _) eqn:Hslot; [by apply good_refl|].
  assert (active row = true) as Hact by (apply active_iff; by left). rewrite Hact in Hslot. cbn [andb] in Hslot.
  destruct (take_leases _ _ _ _) as [db'|e] eqn:Ht; [|by apply good_refl].
  apply take_leases_ok in Ht as (taken & -> & Htaken & _ & Hnd).
  change (final _ db) with (put_leases (db.(leases) ++ taken) (put_assignments (db.(assignments) ++ [row]) db)).
  destruct Hok as [Hdev Hids Hrows Hslots Hhold Hleases Hch]. rewrite existsb_false in Hid. rewrite existsb_false in Hslot.
  rewrite negb_false_iff, !andb_true_iff in Hfk. destruct Hfk as [_ Hdevice].
  split; [split; cbn [devices assignments leases change_sets put_leases put_assignments]|].
  - done.
  - rewrite fmap_app. apply NoDup_snoc; [done|]. intros (r & Hr & Hin)%list_elem_of_fmap.
    assert (is_assignment (AssignmentRow.id row) r = true) as H by by apply eq_str_true. rewrite Hid in H; done.
  - intros r [Hr| ->%list_elem_of_singleton]%elem_of_app; [by apply Hrows|]. split; [split|].
    + unfold readable. rewrite readable_parts. cbn. rewrite Hq.
      by destruct a.(CollaborationAssignment.agent), a.(CollaborationAssignment.execution_backend).
    + unfold lease_ok. by rewrite (has_running_set row Queued).
    + apply existsb_exists in Hdevice as (d & Hin & Hd). destruct (find (fun d => eq_str d.(DeviceRow.id) row.(AssignmentRow.device_id)) db.(devices)) as [d'|] eqn:Hf.
      * exists d'. split; [done|]. intros Hr. rewrite Hrow in Hr. done.
      * exfalso. rewrite find_None in Hf. rewrite Hf in Hd; [done|by apply list_elem_of_In].
  - intros r r' [Hr| ->%list_elem_of_singleton]%elem_of_app [Hr'| ->%list_elem_of_singleton]%elem_of_app Ha Ha' Htid; [by apply Hslots|..|done].
    + exfalso. specialize (Hslot r Hr). rewrite Ha, andb_true_r, (proj2 (eq_str_true _ _) Htid) in Hslot. done.
    + exfalso. specialize (Hslot r' Hr'). rewrite Ha', andb_true_r, (proj2 (eq_str_true _ _) (eq_sym Htid)) in Hslot. done.
  - by apply Hnd.
  - intros l [Hl|Hl]%elem_of_app.
    + destruct (Hleases l Hl) as (r & Hr & H). exists r. split; [by apply elem_of_app; left|done].
    + exists row. split_and!; [apply elem_of_app; right; by left| |done]. symmetry. by apply Htaken.
  - intros c Hc. destruct (Hch c Hc) as (r & Hr & H). exists r. split; [by apply elem_of_app; left|done].
  - exists db.(assignments), [row]. split_and!; [done| |].
    + induction db.(assignments); by constructor.
    + constructor; [|done]. exists row. done.
Qed.

Lemma others_same db db' :
  collab_ok db -> db'.(devices) = db.(devices) -> db'.(assignments) = db.(assignments) -> db'.(leases) = db.(leases) ->
  (forall c, c ∈ db'.(change_sets) -> exists r, r ∈ db.(assignments) /\ r.(AssignmentRow.id) = c.(ChangeSetRow.assignment_id)) ->
  good db db'.
Proof. intros Hok Hd Ha Hl Hc. apply others_good; try done; rewrite Hd; [apply Hok|done]. Qed.

Lemma insert_change_good host change db : collab_ok db -> good db (final (insert_change_set host change) db).
Proof.
  intros Hok. unfold insert_change_set. cbv zeta. rewrite final_get, !final_fail_when.
  destruct (existsb _ _); [by apply good_refl|]. destruct (negb _) eqn:Hfk; [by apply good_refl|].
  rewrite final_modify. skip_reads.
  apply others_same; try done. rewrite negb_false_iff, !andb_true_iff in Hfk. destruct Hfk as [[[Ha _] _] _].
  apply existsb_exists in Ha as (r & Hr%list_elem_of_In & Hid%eq_str_true).
  intros c [Hc| ->%list_elem_of_singleton]%elem_of_app; [by apply (ok_changes _ Hok)|by exists r].
Qed.

Lemma update_change_good ts id status conflicts db :
  collab_ok db -> good db (final (update_change_status ts id status conflicts) db).
Proof.
  intros Hok. apply others_same; try done. intros c (c0 & Hc0 & ->)%elem_of_update_where.
  destruct (is_change id c0); by apply (ok_changes _ Hok c0).
Qed.

Lemma approvals_good f db : collab_ok db -> good db (put_approvals f db).
Proof. intros Hok. apply others_same; try done. apply (ok_changes _ Hok). Qed.

Lemma insert_approval_good id aid local (request : ApprovalRequest.t V) db :
  collab_ok db -> good db (final (insert_approval id aid local request) db).
Proof.
  intros Hok. unfold insert_approval. cbv zeta. rewrite final_get.
  destruct (existsb _ _).
  - change (final (mret () ≫= (fun _ => ?k)) db) with (final k db). skip_reads. by apply good_refl.
  - match goal with |- context [fail_when ?b ?e] => destruct b end; [by apply good_refl|].
    rewrite final_modify_seq. skip_reads. by apply approvals_good.
Qed.

(** Deleting a thread takes its assignments with what hangs on them. *)
Lemma thread_deleted_ok thread_id db : collab_ok db -> collab_ok (final (thread_deleted thread_id) db).
Proof.
  intros Hok. set (mine := fun r => eq_str r.(AssignmentRow.thread_id) thread_id).
  assert (forall id r, r ∈ db.(assignments) -> r.(AssignmentRow.id) = id ->
    existsb (fun r => is_assignment id r && mine r) db.(assignments) = false -> r ∈ filter (fun r => mine r = false) db.(assignments)) as Hkeep.
  { intros id r Hr Hid He. apply list_elem_of_filter. split; [|done]. rewrite existsb_false in He. specialize (He r Hr).
    unfold is_assignment in He. by rewrite (proj2 (eq_str_true _ _) Hid) in He. }
  split; cbn [final fst thread_deleted modify devices assignments leases change_sets].
  - apply Hok.
  - apply NoDup_filter_column, Hok.
  - intros r [_ Hr]%list_elem_of_filter. by apply (ok_rows _ Hok).
  - intros r r' [_ Hr]%list_elem_of_filter [_ Hr']%list_elem_of_filter. by apply (ok_slots _ Hok).
  - apply NoDup_filter_column, Hok.
  - intros l [Hg Hl]%list_elem_of_filter. destruct (ok_leases _ Hok l Hl) as (r & Hr & Hid & Ha). exists r.
    split_and!; [by apply (Hkeep l.(RepoLeaseRow.assignment_id))|done|done].
  - intros c [[_ Hg]%orb_false_iff Hc]%list_elem_of_filter. destruct (ok_changes _ Hok c Hc) as (r & Hr & Hid). exists r.
    split; [by apply (Hkeep c.(ChangeSetRow.assignment_id))|done].
Qed.

(** The calls that write, at the instants [later] allows. *)
Inductive collab_call : forall E A, M CollabDb E A -> Prop :=
| call_upsert ts input reactivate : collab_call _ _ (upsert_device ts input reactivate)
| call_revoke ts id : collab_call _ _ (revoke_device ts id)
| call_insert host ts a repo_ids : a.(CollaborationAssignment.status) = Queued ->
    collab_call _ _ (insert_assignment host ts a repo_ids)
| call_claim ts id device hash expires : collab_call _ _ (claim_assignment ts id device hash expires)
| call_renew ts id hash expires : later ts -> collab_call _ _ (renew_lease ts id hash expires)
| call_finish ts id hash s error : s ∈ [Review; Failed] -> collab_call _ _ (finish_assignment ts id hash s error)
| call_cancel ts id : collab_call _ _ (cancel_assignment ts id)
| call_expire ts : collab_call _ _ (expire_stale_assignments ts)
| call_complete id : collab_call _ _ (complete_assignment_review id)
| call_insert_change host change : collab_call _ _ (insert_change_set host change)
| call_update_change ts id status conflicts : collab_call _ _ (update_change_status ts id status conflicts)
| call_insert_approval id aid local request : collab_call _ _ (insert_approval (V:=V) id aid local request)
| call_resolve_approval ts id decision : collab_call _ _ (resolve_approval (V:=V) ts id decision)
| call_acknowledge ts aid id : collab_call _ _ (acknowledge_approval_decision ts aid id)
| call_read {E A} (m : M CollabDb E A) : reads m -> collab_call E A m.

Lemma collab_call_good {E A} (m : M CollabDb E A) db : collab_call E A m -> collab_ok db -> good db (final m db).
Proof.
  destruct 1 as [ | | | | | | | | | | | |ts id decision| | ? ? m Hm]; intros Hok.
  - by apply upsert_good.
  - by apply revoke_good.
  - by apply insert_good.
  - by apply claim_good.
  - by apply renew_good.
  - by apply finish_good.
  - by apply cancel_good.
  - by apply expire_good.
  - by apply complete_review_good.
  - by apply insert_change_good.
  - by apply update_change_good.
  - by apply insert_approval_good.
  - unfold resolve_approval. rewrite final_get, final_modify. match goal with |- context [final ?k ?db'] => replace (final k db') with db' by (by destruct (existsb _ _)) end.
    by apply approvals_good.
  - by apply approvals_good.
  - rewrite Hm. by apply good_refl.
Qed.

(** ** What a refusal means *)

Lemma update_eq p f db :
  update_assignments p f db =
  (put_assignments (update_where p f db.(assignments)) db, Ok (Z.of_nat (length (filter (fun r => p r = true) db.(assignments))))).
Proof. done. Qed.


Lemma update_none p f db :
  (forall r, r ∈ db.(assignments) -> p r = false) -> update_assignments p f db = (db, Ok 0).
Proof.
  intros Hp. rewrite update_eq.
  rewrite update_where_none by by apply existsb_false.
  rewrite (filter_none (fun r => p r = true)) by (intros r Hr; by rewrite Hp). by destruct db.
Qed.

Lemma update_some p f db db' n :
  update_assignments p f db = (db', Ok n) -> (n =? 0) = false ->
  exists r, r ∈ db.(assignments) /\ p r = true /\ f r ∈ db'.(assignments).
Proof.
  intros Hu Hn. rewrite update_eq in Hu.
  destruct (filter (fun r => p r = true) db.(assignments)) as [|r rows] eqn:Hf; injection Hu as <- <-; [done|]. exists r.
  assert (p r = true /\ r ∈ db.(assignments)) as [Hp Hr] by (apply (list_elem_of_filter (fun r => p r = true)); rewrite Hf; by left).
  split_and!; [done|done|]. apply elem_of_update_where. exists r. by rewrite Hp.
Qed.

Lemma validate_refused ts id hash db :
  collab_ok db -> value (validate_lease ts id hash) db = Ok None ->
  forall r, r ∈ db.(assignments) -> leased id hash ts r = false.
Proof.
  intros Hok Hv. unfold validate_lease, value in Hv. rewrite M_bind_unfold in Hv. cbn in Hv.
  destruct (find _ db.(assignments)) as [r0|] eqn:Hf; [|by apply find_None]. exfalso.
  apply find_Some_elem in Hf as [Hr0 Hl]. destruct (ok_rows _ Hok r0 Hr0) as [[Hread _] (d & Hd & Hrev)].
  unfold leased in Hl. rewrite !andb_true_iff in Hl. destruct Hl as [[_ Hrun%has_status_one] _].
  cbn in Hv. unfold joined_assignment, device_row in Hv. rewrite Hd in Hv. cbn in Hv. rewrite (Hrev Hrun) in Hv. cbn in Hv.
  unfold decode_assignment in Hv. cbn in Hv. unfold readable in Hread. rewrite (readable_parts "" r0), <- (readable_parts d.(DeviceRow.name) r0) in Hread.
  by destruct (assignment_try_from _ r0).
Qed.

Section Refused.
Context (ts : Z) (id hash : string) (db : CollabDb) (Hnone : forall r, r ∈ db.(assignments) -> leased id hash ts r = false).

Lemma validate_none : validate_lease ts id hash db = (db, Ok None).
Proof. unfold validate_lease. rewrite M_bind_unfold. cbn. by rewrite (proj2 (find_None _ _) Hnone). Qed.

Lemma renew_none expires : renew_lease ts id hash expires db = (db, Ok None).
Proof. unfold renew_lease. by rewrite M_bind_unfold, update_none. Qed.

Lemma finish_none status error : finish_assignment ts id hash status error db = (db, Ok None).
Proof. unfold finish_assignment. by rewrite M_bind_unfold, update_none. Qed.
End Refused.

(** Only a queued assignment is claimed. *)
Lemma claim_none ts id device hash expires db :
  (forall r, r ∈ db.(assignments) -> r.(AssignmentRow.id) = id -> r.(AssignmentRow.status) <> as_str Queued) ->
  claim_assignment ts id device hash expires db = (db, Ok None).
Proof.
  intros Hq. unfold claim_assignment. rewrite M_bind_unfold. cbn [get]. rewrite M_bind_unfold, update_none; [done|].
  intros r Hr. destruct (is_assignment id r) eqn:Hid; [|done]. apply eq_str_true in Hid.
  destruct (has_status [Queued] r) eqn:Hs; [by apply has_status_one, (Hq r Hr Hid) in Hs|]. by rewrite andb_false_r.
Qed.

Lemma claim_started ts id device hash expires db db' a :
  claim_assignment ts id device hash expires db = (db', Ok (Some a)) ->
  exists r, r ∈ db'.(assignments) /\ r.(AssignmentRow.id) = id /\ status_is r Running.
Proof.
  unfold claim_assignment. rewrite M_bind_unfold. cbn [get]. rewrite M_bind_unfold.
  destruct (update_assignments _ _ db) as [db1 [n|e]] eqn:Hu; [|done]. destruct (n =? 0) eqn:Hn; [done|]. intros Hg.
  apply (update_some _ _ _ _ _ Hu) in Hn as (r & Hr & Hp & Hf). rewrite !andb_true_iff in Hp. destruct Hp as [[[Hid%eq_str_true _] _] _].
  assert (db1 = db') as <- by (unfold get_assignment in Hg; rewrite M_bind_unfold in Hg; by inversion Hg).
  eexists. split; [exact Hf|]. by split.
Qed.

(** ** What the sweep ends *)

Lemma swept_rows s f (step : string -> CollabM ()) ids db :
  (forall r, has_status [s] (f r) = false) ->
  (forall id db, exists db', step id db = (db', Ok ()) /\
     db'.(assignments) = update_where (fun r => is_assignment id r && has_status [s] r) f db.(assignments) /\
     db'.(devices) = db.(devices)) ->
  exists db', for_each step ids db = (db', Ok ()) /\
    db'.(assignments) = update_where (fun r => bool_decide (r.(AssignmentRow.id) ∈ ids) && has_status [s] r) f db.(assignments) /\
    db'.(devices) = db.(devices).
Proof.
  intros Hf Hstep. revert db. induction ids as [|id ids IH]; intros db.
  - exists db. split_and!; [done| |done]. rewrite update_where_none; [done|]. apply existsb_false. intros r _.
    rewrite bool_decide_eq_false_2 by (by intros ?%elem_of_nil). done.
  - destruct (Hstep id db) as (db1 & H1 & Ha1 & Hd1), (IH db1) as (db2 & H2 & Ha2 & Hd2). exists db2.
    cbn [for_each]. rewrite M_bind_unfold, H1. split_and!; [done| |congruence]. rewrite Ha2, Ha1. unfold update_where.
    rewrite <- list_fmap_compose. apply list_fmap_ext. intros _ r _. cbv beta. unfold compose.
    destruct (has_status [s] r) eqn:Hs; rewrite ?andb_false_r, ?andb_true_r; [|by rewrite Hs, andb_false_r].
    unfold is_assignment, eq_str. destruct (decide (r.(AssignmentRow.id) = id)) as [Hid|Hid].
    + rewrite (bool_decide_eq_true_2 (_ = id)), (bool_decide_eq_true_2 (_ ∈ id :: ids)) by (rewrite ?elem_of_cons; tauto).
      by rewrite Hf, andb_false_r.
    + rewrite (bool_decide_eq_false_2 (_ = id)) by done. rewrite Hs, andb_true_r.
      apply (f_equal (fun b : bool => if b then f r else r)), bool_decide_ext. rewrite elem_of_cons. naive_solver.
Qed.

Lemma sweep_rows ts db :
  (final (expire_stale_assignments ts) db).(assignments) = db.(assignments) /\ expired_ids ts db = [] \/
  exists offline,
  (final (expire_stale_assignments ts) db).(assignments) =
  update_where (fun r => bool_decide (r.(AssignmentRow.id) ∈ (offline : list string)) && has_status [Queued] r)
    (fun r => AssignmentRow.set_finished (Some ts) (Some "device went offline before starting") (AssignmentRow.set_status (as_str Failed) r))
    (update_where (fun r => bool_decide (r.(AssignmentRow.id) ∈ expired_ids ts db) && has_status [Running] r)
       (ended LeaseExpired ts (Some "device lease expired")) db.(assignments)).
Proof.
  unfold expire_stale_assignments, final. rewrite M_bind_unfold. cbn [gets fst]. case_bool_decide as Hids; [by left|right].
  destruct (swept_rows Running (ended LeaseExpired ts (Some "device lease expired")) (expire_one ts) (expired_ids ts db) db)
    as (db1 & H1 & Ha1 & _); [done|by intros id db0; eexists|].
  rewrite M_bind_unfold, H1, M_bind_unfold. cbn [gets].
  destruct (swept_rows Queued (fun r => AssignmentRow.set_finished (Some ts) (Some "device went offline before starting")
      (AssignmentRow.set_status (as_str Failed) r)) (fail_offline ts) (offline_ids (ts - 45 * 1000) db1) db1)
    as (db2 & H2 & Ha2 & _); [done|by intros id db0; eexists|].
  exists (offline_ids (ts - 45 * 1000) db1). rewrite M_bind_unfold, H2. change (fst (read_back ?ids db2)) with (final (read_back ids) db2).
  by rewrite read_back_reads, Ha2, Ha1.
Qed.

(** An assignment whose lease ran out has ended, and only those with time left run. *)
Lemma sweep_ends ts db r :
  collab_ok db -> r ∈ db.(assignments) -> status_is r Running ->
  let db' := final (expire_stale_assignments ts) db in
  if is_some_and r.(AssignmentRow.lease_expires_at) (fun e => e <=? ts)
  then ended LeaseExpired ts (Some "device lease expired") r ∈ db'.(assignments)
  else r ∈ db'.(assignments).
Proof.
  intros Hok Hr Hrun db'. assert (has_status [Running] r = true) as Hs by by apply has_status_one.
  assert (bool_decide (r.(AssignmentRow.id) ∈ expired_ids ts db) = is_some_and r.(AssignmentRow.lease_expires_at) (fun e => e <=? ts)) as Hexp.
  { apply Bool.eq_iff_eq_true. rewrite bool_decide_eq_true. unfold expired_ids. rewrite list_elem_of_fmap. split.
    - intros (r0 & Hid & [Hp Hr0]%list_elem_of_filter).
      rewrite (NoDup_column_inj AssignmentRow.id db.(assignments) r r0); [|apply Hok|done..]. by apply andb_prop in Hp as [_ Hp].
    - intros He. exists r. split; [done|]. apply list_elem_of_filter. by rewrite Hs, He. }
  assert (forall s, has_status [Queued] (ended LeaseExpired ts s r) = false /\ has_status [Queued] r = false) as Hnq.
  { intros s. split; [done|]. destruct (has_status [Queued] r) eqn:Hq; [|done]. apply has_status_one in Hq. by rewrite Hrun in Hq. }
  destruct (sweep_rows ts db) as [[Ha Hnone]|(offline & Ha)].
  - unfold db'. rewrite Ha. rewrite <- Hexp, Hnone. by rewrite bool_decide_eq_false_2 by (by intros ?%elem_of_nil).
  - unfold db'. rewrite Ha, <- Hexp.
    destruct (bool_decide (AssignmentRow.id r ∈ expired_ids ts db)) eqn:Hd.
    + apply elem_of_update_where. eexists. split; [apply elem_of_update_where; exists r; split; [done|reflexivity]|].
      rewrite Hd, Hs. cbn [andb].
      by rewrite (proj1 (Hnq (Some "device lease expired"))), andb_false_r.
    + apply elem_of_update_where. exists r. split; [apply elem_of_update_where; exists r; split; [done|]; by rewrite Hd|].
      by rewrite (proj2 (Hnq None)), andb_false_r.
Qed.

(** ** What the last change set settles *)

Lemma review_completes id db r :
  r ∈ db.(assignments) -> r.(AssignmentRow.id) = id -> status_is r Review -> existsb (unsettled id) db.(change_sets) = false ->
  let db' := final (complete_assignment_review id) db in
  db'.(change_sets) = db.(change_sets) /\ AssignmentRow.set_status (as_str Completed) r ∈ db'.(assignments) /\
  forall l, l ∈ db'.(leases) -> l.(RepoLeaseRow.assignment_id) <> id.
Proof.
  intros Hr Hid Hrev Hun db'.
  set (p := fun r => is_assignment id r && has_status [Review] r && negb (existsb (unsettled id) db.(change_sets))).
  assert (p r = true) as Hp.
  { unfold p, is_assignment. by rewrite (proj2 (eq_str_true _ _) Hid), (proj2 (has_status_one Review r) Hrev), Hun. }
  assert (db' = put_leases (filter (fun l => eq_str l.(RepoLeaseRow.assignment_id) id = false) db.(leases))
                  (put_assignments (update_where p (AssignmentRow.set_status (as_str Completed)) db.(assignments)) db)) as ->.
  { unfold db', complete_assignment_review, final. rewrite M_bind_unfold. cbn [get]. fold p. rewrite M_bind_unfold.
    rewrite update_eq. destruct (_ =? 0) eqn:Hn; [|done].
    by rewrite (count_none p _ Hn r Hr) in Hp. }
  split_and!; [done| |].
  - apply elem_of_update_where. exists r. by rewrite Hp.
  - intros l [Hl _]%list_elem_of_filter Heq. by rewrite (proj2 (eq_str_true _ _) Heq) in Hl.
Qed.

Lemma completing_changes id db : (final (complete_assignment_review id) db).(change_sets) = db.(change_sets).
Proof.
  unfold complete_assignment_review, final. rewrite M_bind_unfold. cbn [get]. rewrite M_bind_unfold, update_eq.
  by destruct (_ =? 0).
Qed.

Lemma change_assignment repo c change :
  decode_change (repo, c) = Ok change -> c.(ChangeSetRow.assignment_id) = change.(CollaborationChangeSet.assignment_id).
Proof.
  unfold decode_change, change_try_from. cbn [fst snd]. destruct (read_text c.(ChangeSetRow.files_json)); [|done]. cbn.
  destruct (decode _); [|done]. cbn. destruct (read_text c.(ChangeSetRow.conflict_files_json)); [|done]. cbn. by intros [= <-].
Qed.

(** The change set an update returns is the row it wrote. *)
Lemma updated_change ts id status conflicts db db' change :
  update_change_status ts id status conflicts db = (db', Ok (Some change)) ->
  db'.(assignments) = db.(assignments) /\
  exists c, c ∈ db'.(change_sets) /\ c.(ChangeSetRow.status) = CollaborationChangeStatus.as_str status /\
    c.(ChangeSetRow.assignment_id) = change.(CollaborationChangeSet.assignment_id).
Proof.
  intros Hu. unfold update_change_status in Hu. cbv zeta in Hu. rewrite M_bind_unfold in Hu. cbn [modify] in Hu.
  match type of Hu with _ ?d = _ => remember d as db1 eqn:Hdb1 end.
  assert (db' = db1 /\ value (get_change_set id) db1 = Ok (Some change)) as [-> Hv] by (injection Hu as <- Hv; done).
  split; [by subst|]. unfold get_change_set, value in Hv. rewrite M_bind_unfold in Hv. cbn [get lift snd] in Hv.
  destruct (find (is_change id) db1.(change_sets)) as [c|] eqn:Hf; [|discriminate Hv]. apply find_Some_elem in Hf as [Hin Hid].
  exists c. split; [done|]. cbn in Hv. unfold joined_change in Hv. destruct (repo_row _ _) as [repo|]; [|discriminate Hv]. split.
  - rewrite Hdb1 in Hin. apply elem_of_update_where in Hin as (c0 & _ & ->). destruct (is_change id c0) eqn:H0; [done|].
    by rewrite H0 in Hid.
  - cbn in Hv. destruct (decode_change _) as [change'|] eqn:Hd; [|discriminate Hv]. injection Hv as ->. by apply change_assignment in Hd.
Qed.
End Calls.
End Moves.
