(* ===== verification/Collab.v ===== *)
(** * Collaboration: the coordinator (crates/am-core/src/collaboration.rs)

    A paired device claims an assignment under an expiring lease, reports its
    events, approvals and patches while the lease lasts, and finishes; the user
    applies or rejects the returned patches.  Every handler runs on the core's
    world and the coordinator's tables ([CollabDb]); git, SHA-256 and the other
    tables are the class [CollabServices]. *)
From stdpp Require Import pretty.
From Stdlib Require Import Ascii String.
From S2P Require Import Prelude RustStr Json Enums Records WorkGraphDb WorkGraphInv Limits Budget SqlTable AgentDb ThreadText CoreWorld ThreadFallback CollabDb.
#[local] Open Scope string_scope.
#[local] Open Scope Z_scope.

Definition LEASE_SECONDS : Z := 45.
Definition MAX_PROMPT_BYTES : Z := 24 * 1024.
Definition MAX_EVENT_TEXT_BYTES : Z := 512 * 1024.
Definition MAX_PATCH_BYTES : Z := 16 * 1024 * 1024.
Definition MAX_EVENT_DATA_BYTES : Z := 256 * 1024.

Class CollabServices (V E : Type) := {
  (** [new_id()] *)
  fresh_id : SysM E string;
  (** lower-case hexadecimal SHA-256 *)
  hash_bytes : string -> string;
  (** [agent_thread_repo::list_for_thread], the ids *)
  thread_repo_ids : string -> SysM E (list string);
  (** the length of [serde_json::to_vec] of a value and of a request *)
  json_bytes : V -> Z;
  request_bytes : ApprovalRequest.t V -> Z;
  (** [Value::Object]: the members, in order; [None] for any other value *)
  json_members : V -> option (list (string * V));
  is_null : V -> bool;
  (** am-vcs, the error is its text *)
  dirty_paths : string -> list string -> SysM E (result string (list string));
  overwrite_patch_paths : string -> string -> string -> list string -> string -> SysM E (result string ());
  check_patch_applies : string -> string -> SysM E (result string ());
  apply_patch_to_repo : string -> string -> SysM E (result string ())
}.

Record Coord (E : Type) := mkCoord { core : World E; tables : CollabDb }.
Arguments mkCoord {E} _ _.
Arguments core {E} _.
Arguments tables {E} _.
Abbreviation C E := (M (Coord E) CoreError).

(** ** Checks and texts *)

Definition validate_device_input (input : RegisterCollaborationDevice.t) : result CoreError () :=
  let '(RegisterCollaborationDevice.mk id name hostname platform extension_version capabilities) := input in
  if is_empty (trim id) || (128 <? len id) then Err (Other "Invalid device id.")
  else if is_empty (trim name) || (80 <? len name) then Err (Other "Device names must be between 1 and 80 characters.")
  else if (255 <? len hostname) || (80 <? len platform) || (40 <? len extension_version) then Err (Other "Invalid device metadata.")
  else if 16 <? Z.of_nat (length capabilities) then Err (Other "Too many device capabilities.")
  else Ok ().

Definition validate_permission (permission : string) : result CoreError () :=
  if existsb (String.eqb permission) ["read_only"; "workspace_write"; "ask"; "autonomous"] then Ok ()
  else Err (Other "Unsupported permission mode.").

Definition stale_lease_error : CoreError :=
  Other "The device lease expired or was replaced. Its late output was kept isolated and was not accepted.".

Definition nonempty (value : string) : string := if is_empty (trim value) then "None recorded." else trim value.

Definition truncate_utf8 (value : string) (max_bytes : Z) : string :=
  if len value <=? max_bytes then value
  else substring 0 (char_floor value (Z.to_nat (u_saturating_sub max_bytes 24))) value +:+ newline +:+ "[truncated]".

(** The hand-off text; [recent] is the role and text of the last events, newest first. *)
Definition section (title value : string) : string :=
  newline +:+ "## " +:+ title +:+ newline +:+ nonempty value +:+ newline.

Definition collaboration_prompt_text (thread : AgentThread.t) (message : option string) (device_name : string)
  (recent : list (string * option string)) : string :=
  let activity (ev : string * option string) :=
    match ev.2 with
    | Some text => newline +:+ (if String.eqb ev.1 "user" then "User" else "Agent") +:+ ": " +:+ truncate_utf8 text 1600 +:+ newline
    | None => ""
    end in
  truncate_utf8
    ("# Perpetual multi-device handoff" +:+ newline +:+ newline +:+ "You are running on " +:+ device_name +:+
     ". Another Perpetual instance is the coordinator. Work only in the isolated workspace provided locally; Perpetual will reconcile your patch." +:+
     newline +:+
     section "Objective" thread.(AgentThread.objective) +:+
     section "Decisions" thread.(AgentThread.decisions) +:+
     section "Progress" thread.(AgentThread.progress) +:+
     section "Open questions" thread.(AgentThread.open_questions) +:+
     section "Next actions" thread.(AgentThread.next_actions) +:+
     match trim <$> message with
     | Some message => if is_empty message then "" else newline +:+ "## Current user request" +:+ newline +:+ message +:+ newline
     | None => ""
     end +:+
     match recent with
     | [] => ""
     | _ => newline +:+ "## Recent shared activity" +:+ newline +:+ concat_str (activity <$> reverse recent)
     end +:+
     newline +:+ "## Collaboration rules" +:+ newline +:+
     "- Inspect the workspace before editing; another device may have advanced the task." +:+ newline +:+
     "- Keep changes focused and report concrete progress and changed files." +:+ newline +:+
     "- Do not undo peer changes unless the current request requires it; explain intentional overwrites." +:+ newline +:+
     "- Do not copy credentials or provider account data into the transcript." +:+ newline)
    MAX_PROMPT_BYTES.

(** [new_id().replace('-', "")]. *)
Fixpoint without_dashes (s : string) : string :=
  match s with
  | EmptyString => EmptyString
  | String a s => if Ascii.eqb a "-"%char then without_dashes s else String a (without_dashes s)
  end.

(** [Map::insert]. *)
Fixpoint map_insert {V} (key : string) (v : V) (map : list (string * V)) : list (string * V) :=
  match map with
  | [] => [(key, v)]
  | (k, w) :: rest => if String.eqb k key then (key, v) :: rest else (k, w) :: map_insert key v rest
  end.

Section Coordinator.
Context {V : Type} `{Json V} `{!BudgetSerde V} {E : Type} `{CoreServices E} `{!CollabServices V E}.
Context `{!TextSerde (list CollaborationAgentCapability.t)} `{!TextSerde (list FileChange.t)} `{!TextSerde (list string)}
  `{!TextSerde (ApprovalRequest.t V)}.

Definition on_core {A} (m : W E A) : C E A :=
  fun s => let '(w, r) := m s.(core) in (mkCoord w s.(tables), r).
Definition on_tables {A} (m : CollabM A) : C E A :=
  fun s => let '(d, r) := m s.(tables) in
           (mkCoord s.(core) d, match r with Ok a => Ok a | Err e => Err (Db e) end).
Definition tell (event : CoreEvent) : C E () := on_core (publish event).
Definition clock : C E Z := on_core (call now).
Definition record_activity (project : option string) (kind : string) : C E () := on_core (call (activity project None kind)).
Definition host : C E AgentDb := gets (fun s => s.(core).(sys).(db)).

(** An event as it is published. *)
Definition published (ev : AgentThreadEvent.t V) : AgentThreadEvent.t string :=
  AgentThreadEvent.mk string ev.(AgentThreadEvent.id) ev.(AgentThreadEvent.thread_id) ev.(AgentThreadEvent.turn_id)
    ev.(AgentThreadEvent.role) ev.(AgentThreadEvent.kind) ev.(AgentThreadEvent.text) ev.(AgentThreadEvent.client_message_id)
    (json_to_string ev.(AgentThreadEvent.data)) ev.(AgentThreadEvent.ts).
Definition published_request (a : ApprovalRequest.t V) : ApprovalRequest.t string :=
  ApprovalRequest.mk string a.(ApprovalRequest.id) a.(ApprovalRequest.agent) a.(ApprovalRequest.project_id) a.(ApprovalRequest.work_node_id)
    a.(ApprovalRequest.task_id) a.(ApprovalRequest.thread_id) a.(ApprovalRequest.session_id) a.(ApprovalRequest.kind)
    a.(ApprovalRequest.tool_name) a.(ApprovalRequest.command) a.(ApprovalRequest.cwd) (json_to_string a.(ApprovalRequest.input))
    a.(ApprovalRequest.reason) a.(ApprovalRequest.created_at).

(** [if let Some(mut thread) = get(..)? { edit; save(..)?; publish }]. *)
Definition edit_thread (id : string) (edit : AgentThread.t -> AgentThread.t) : C E () :=
  found ← on_core (read_thread (V:=V) id);
  match found with
  | Some thread =>
      thread ← on_core (save_thread (V:=V) (edit thread));
      tell (AgentThreadUpdated thread)
  | None => mret ()
  end.

Definition finish_turn (turn_id : string) (state : SessionState.t) : C E () :=
  ts ← clock;
  on_core (on_db (Turns.finish ts turn_id state)).

(** ** Leases that ran out *)

Definition expire_collaboration_leases : C E () :=
  ts ← clock;
  expired ← on_tables (expire_stale_assignments ts);
  for_each (fun assignment =>
    _ ← finish_turn assignment.(CollaborationAssignment.turn_id) SessionState.Interrupted;
    _ ← edit_thread assignment.(CollaborationAssignment.thread_id) (AgentThread.set_status TaskStatus.WaitingForNetwork);
    tell (CollaborationAssignmentUpdated assignment)) expired.

Definition hash_secret (secret : string) : string := hash_bytes (V:=V) (E:=E) secret.

Definition validate_collaboration_lease (assignment_id lease_token : string) : C E CollaborationAssignment.t :=
  ts ← clock;
  found ← on_tables (validate_lease ts assignment_id (hash_secret lease_token));
  lift_opt found stale_lease_error.

Definition finish_collaboration_review_if_settled (assignment_id : string) : C E () :=
  completed ← on_tables (complete_assignment_review assignment_id);
  match completed with
  | None => mret ()
  | Some assignment =>
      _ ← edit_thread assignment.(CollaborationAssignment.thread_id) (AgentThread.set_status TaskStatus.Done);
      tell (CollaborationAssignmentUpdated assignment)
  end.

Definition has_active_collaboration_assignment (thread_id : string) : C E bool :=
  _ ← expire_collaboration_leases;
  assignments ← on_tables (list_assignments None true);
  mret (existsb (fun a => eq_str a.(CollaborationAssignment.thread_id) thread_id) assignments).

(** ** Devices *)

Definition register_collaboration_device (input : RegisterCollaborationDevice.t) : C E CollaborationDevice.t :=
  _ ← lift (validate_device_input input);
  ts ← clock;
  device ← on_tables (upsert_device ts input true);
  _ ← tell (CollaborationDeviceUpdated device);
  _ ← record_activity None "collaboration.device_online";
  mret device.

Definition heartbeat_collaboration_device (input : RegisterCollaborationDevice.t) : C E CollaborationDevice.t :=
  _ ← lift (validate_device_input input);
  _ ← expire_collaboration_leases;
  ts ← clock;
  device ← on_tables (heartbeat_device ts input);
  _ ← tell (CollaborationDeviceUpdated device);
  mret device.

Definition list_collaboration_devices : C E (list CollaborationDevice.t) :=
  _ ← expire_collaboration_leases;
  on_tables list_devices.

Definition revoke_collaboration_device (device_id : string) : C E () :=
  device ← on_tables (get_device device_id);
  device ← lift_opt device NotFound;
  ts ← clock;
  _ ← on_tables (revoke_device ts device_id);
  revoked ← on_tables (get_device device_id);
  revoked ← lift_opt revoked NotFound;
  _ ← tell (CollaborationDeviceUpdated revoked);
  record_activity None "collaboration.device_revoked".

Definition without_patch (c : CollaborationChangeSet.t) : CollaborationChangeSet.t :=
  let '(CollaborationChangeSet.mk id assignment_id thread_id device_id repo_id repo_name base_ref files _ sha status conflicts created applied) := c in
  CollaborationChangeSet.mk id assignment_id thread_id device_id repo_id repo_name base_ref files "" sha status conflicts created applied.

Definition collaboration_snapshot (thread_id : option string) (include_patches : bool) : C E CollaborationSnapshot.t :=
  _ ← expire_collaboration_leases;
  change_sets ← on_tables (list_change_sets thread_id);
  let change_sets := if include_patches then change_sets else without_patch <$> change_sets in
  devices ← on_tables list_devices;
  assignments ← on_tables (list_assignments None false);
  ts ← clock;
  mret (CollaborationSnapshot.mk devices
    (filter (fun a => is_none_or thread_id (eq_str a.(CollaborationAssignment.thread_id)) = true) assignments) change_sets ts).
(** ** Assignments *)

Definition merge_remote_metadata (data : V) (device_id device_name : string) : V :=
  let map := match json_members (E:=E) data with
             | Some map => map
             | None => if is_null (E:=E) data then [] else [("provider_data", data)]
             end in
  json_object (map_insert "remote_device_name" (json_str device_name) (map_insert "remote_device_id" (json_str device_id) map)).

Definition build_collaboration_prompt (thread : AgentThread.t) (message : option string) (device_name : string) : C E string :=
  events ← on_core (on_db (Transcripts.list_for_thread (V:=V) thread.(AgentThread.id)));
  let recent := take 8 (filter (fun ev => ev.(AgentThreadEvent.kind) ∈ ["assistant_text"; "user_message"; "error"]) (reverse events)) in
  mret (collaboration_prompt_text thread message device_name
    ((fun ev => (ev.(AgentThreadEvent.role), ev.(AgentThreadEvent.text))) <$> recent)).

(** The device is paired, was seen within a lease and has the agent ready. *)
Definition ready_device (device_id : string) (agent : AgentKind.t) : C E CollaborationDevice.t :=
  found ← on_tables (get_device device_id);
  device ← lift_opt found (Other "The selected device is no longer paired.");
  _ ← fail_when (bool_decide (device.(CollaborationDevice.revoked_at) <> None))
        (Other "The selected device has been revoked. Pair it again before assigning work.");
  ts ← clock;
  _ ← fail_when (LEASE_SECONDS * 1000 <? ts - device.(CollaborationDevice.last_seen_at))
        (Other (device.(CollaborationDevice.name) +:+ " is offline. Open Perpetual on that device and try again."));
  _ ← fail_when (negb (existsb (fun c => bool_decide (c.(CollaborationAgentCapability.agent) = agent) &&
                   c.(CollaborationAgentCapability.installed) && c.(CollaborationAgentCapability.authenticated))
                   device.(CollaborationDevice.capabilities)))
        (Other (AgentKind.label agent +:+ " is not ready on " +:+ device.(CollaborationDevice.name) +:+ "."));
  mret device.

Definition create_turn (thread : AgentThread.t) (input : NewCollaborationAssignment.t) : C E AgentTurn.t :=
  id ← on_core (call (fresh_id (V:=V)));
  ts ← clock;
  on_core (on_db (Turns.create ts id thread.(AgentThread.id) input.(NewCollaborationAssignment.agent)
    input.(NewCollaborationAssignment.permission) input.(NewCollaborationAssignment.execution_backend) None
    thread.(AgentThread.model) thread.(AgentThread.reasoning) thread.(AgentThread.local_provider) thread.(AgentThread.local_base_url)
    thread.(AgentThread.model_target) thread.(AgentThread.compute_lease_id) thread.(AgentThread.compute_provider)
    thread.(AgentThread.estimated_compute_cost_usd) thread.(AgentThread.fallback_model_target) None None)).

(** The request as the thread's user message. *)
Definition record_request (thread : AgentThread.t) (turn_id : string) (device : CollaborationDevice.t)
  (input : NewCollaborationAssignment.t) (record_user_message : bool) : C E () :=
  let user_text :=
    match trim <$> input.(NewCollaborationAssignment.message) with
    | Some text => if is_empty text then trim thread.(AgentThread.objective) else text
    | None => trim thread.(AgentThread.objective)
    end in
  if record_user_message && negb (is_empty user_text) then
    id ← on_core (call (fresh_id (V:=V)));
    ts ← clock;
    let event := AgentThreadEvent.mk V id thread.(AgentThread.id) turn_id "user" "user_message" (Some user_text)
                   input.(NewCollaborationAssignment.client_message_id)
                   (json_object [("remote_device_id", json_str device.(CollaborationDevice.id));
                                 ("remote_device_name", json_str device.(CollaborationDevice.name))]) ts in
    _ ← on_core (on_db (Transcripts.insert_thread_event event));
    tell (ThreadEvent (published event))
  else mret ().

(** The refusal of a leased repository is told apart by the text of its error. *)
Definition insert_refused (e : InsertError) : CoreError :=
  match e with
  | LeaseTaken => Other "Another shared agent claimed one of these repositories. Try again after its work is reviewed."
  | InsertFailed e => Db e
  end.
Definition on_insert (m : M CollabDb InsertError ()) : C E () :=
  fun s => let '(d, r) := m s.(tables) in
           (mkCoord s.(core) d, match r with Ok a => Ok a | Err e => Err (insert_refused e) end).

Definition insert_collaboration_assignment (assignment : CollaborationAssignment.t) (repo_ids : list string) : C E () :=
  h ← host;
  ts ← clock;
  on_insert (insert_assignment h ts assignment repo_ids).

Definition assigned (input : NewCollaborationAssignment.t) (thread : AgentThread.t) : AgentThread.t :=
  let thread := AgentThread.set_execution_backend input.(NewCollaborationAssignment.execution_backend)
    (AgentThread.set_permission input.(NewCollaborationAssignment.permission)
      (AgentThread.set_active_agent (Some input.(NewCollaborationAssignment.agent))
        (AgentThread.set_status TaskStatus.Queued thread))) in
  if bool_decide (thread.(AgentThread.preferred_agent) = None)
  then AgentThread.set_preferred_agent (Some input.(NewCollaborationAssignment.agent)) thread else thread.

Definition create_collaboration_assignment_inner (input : NewCollaborationAssignment.t) (record_user_message : bool) :
  C E CollaborationAssignment.t :=
  let thread_id := input.(NewCollaborationAssignment.thread_id) in
  let permission := input.(NewCollaborationAssignment.permission) in
  _ ← expire_collaboration_leases;
  running ← on_core (is_active thread_id);
  _ ← fail_when running (Other "Stop the local run before assigning this session to another device.");
  _ ← lift (validate_permission permission);
  _ ← fail_when (bool_decide (input.(NewCollaborationAssignment.execution_backend) = ExecutionBackend.Cloud))
        (Other "Provider cloud runs are coordinated separately from device runs.");
  device ← ready_device input.(NewCollaborationAssignment.device_id) input.(NewCollaborationAssignment.agent);
  found ← on_core (read_thread (V:=V) thread_id);
  thread ← lift_opt found NotFound;
  repo_ids ← (if String.eqb permission "read_only" then mret []
              else on_core (call (thread_repo_ids (V:=V) thread.(AgentThread.id))));
  locked ← on_tables (locked_repo_names repo_ids);
  _ ← fail_when (negb (bool_decide (locked = [])))
        (Other ("Another shared agent is already editing " +:+ String.concat ", " locked +:+ ". Finish or review that work first."));
  prompt ← build_collaboration_prompt thread input.(NewCollaborationAssignment.message) device.(CollaborationDevice.name);
  turn ← create_turn thread input;
  _ ← record_request thread turn.(AgentTurn.id) device input record_user_message;
  id ← on_core (call (fresh_id (V:=V)));
  created_at ← clock;
  let assignment := CollaborationAssignment.mk id thread.(AgentThread.id) turn.(AgentTurn.id) device.(CollaborationDevice.id)
    device.(CollaborationDevice.name) input.(NewCollaborationAssignment.agent) permission
    input.(NewCollaborationAssignment.execution_backend) prompt CollaborationAssignmentStatus.Queued None created_at None None None in
  _ ← insert_collaboration_assignment assignment repo_ids;
  thread ← on_core (save_thread (V:=V) (assigned input thread));
  _ ← tell (AgentThreadUpdated thread);
  _ ← tell (CollaborationAssignmentUpdated assignment);
  _ ← record_activity thread.(AgentThread.project_id) "collaboration.assignment_queued";
  mret assignment.

Definition create_collaboration_assignment (input : NewCollaborationAssignment.t) : C E CollaborationAssignment.t :=
  create_collaboration_assignment_inner input true.

Definition retry_collaboration_assignment (assignment_id : string) : C E CollaborationAssignment.t :=
  found ← on_tables (get_assignment assignment_id);
  previous ← lift_opt found NotFound;
  _ ← fail_when (negb (bool_decide (previous.(CollaborationAssignment.status) ∈
                   [CollaborationAssignmentStatus.Failed; CollaborationAssignmentStatus.LeaseExpired])))
        (Other "Only failed or disconnected device work can be retried.");
  create_collaboration_assignment_inner
    (NewCollaborationAssignment.mk previous.(CollaborationAssignment.thread_id) previous.(CollaborationAssignment.device_id)
       previous.(CollaborationAssignment.agent) previous.(CollaborationAssignment.permission)
       previous.(CollaborationAssignment.execution_backend) None None) false.

Definition list_collaboration_assignments (device_id : option string) (active_only : bool) : C E (list CollaborationAssignment.t) :=
  _ ← expire_collaboration_leases;
  on_tables (list_assignments device_id active_only).

Definition claim_collaboration_assignment (assignment_id device_id : string) : C E ClaimedCollaborationAssignment.t :=
  _ ← expire_collaboration_leases;
  a ← on_core (call (fresh_id (V:=V)));
  b ← on_core (call (fresh_id (V:=V)));
  let lease_token := without_dashes a +:+ without_dashes b in
  expires ← clock;
  ts ← clock;
  claimed ← on_tables (claim_assignment ts assignment_id device_id (hash_secret lease_token) (expires + LEASE_SECONDS * 1000));
  assignment ← lift_opt claimed (Other "This assignment was already claimed, cancelled, or the device was revoked.");
  _ ← edit_thread assignment.(CollaborationAssignment.thread_id) (AgentThread.set_status TaskStatus.Running);
  _ ← tell (CollaborationAssignmentUpdated assignment);
  mret (ClaimedCollaborationAssignment.mk assignment lease_token).

Definition renew_collaboration_lease (assignment_id lease_token : string) : C E CollaborationAssignment.t :=
  expires ← clock;
  ts ← clock;
  renewed ← on_tables (renew_lease ts assignment_id (hash_secret lease_token) (expires + LEASE_SECONDS * 1000));
  lift_opt renewed stale_lease_error.

(** ** What a device reports *)

Definition report_collaboration_event (input : CollaborationEventInput.t V) : C E () :=
  let '(CollaborationEventInput.mk _ assignment_id lease_token event_id role kind text client_message_id data ts) := input in
  assignment ← validate_collaboration_lease assignment_id lease_token;
  _ ← fail_when (is_empty (trim event_id) || (256 <? len event_id)) (Other "Invalid remote event id.");
  _ ← fail_when ((32 <? len role) || (96 <? len kind)) (Other "Invalid remote event envelope.");
  let text := (fun value => truncate_utf8 value MAX_EVENT_TEXT_BYTES) <$> text in
  let data := if json_bytes (E:=E) data <=? MAX_EVENT_DATA_BYTES then data
              else json_object [("truncated", json_bool true); ("reason", json_str "remote event data exceeded limit")] in
  let event := AgentThreadEvent.mk V ("collab:" +:+ assignment.(CollaborationAssignment.id) +:+ ":" +:+ event_id)
    assignment.(CollaborationAssignment.thread_id) assignment.(CollaborationAssignment.turn_id) role kind text client_message_id
    (merge_remote_metadata data assignment.(CollaborationAssignment.device_id) assignment.(CollaborationAssignment.device_name)) ts in
  _ ← on_core (on_db (Transcripts.upsert event));
  tell (ThreadEvent (published event)).

(** The request as the coordinator keeps it. *)
Definition adopted (a : ApprovalRequest.t V) (id : string) (project_id : option string) (thread_id turn_id : string) : ApprovalRequest.t V :=
  ApprovalRequest.mk V id a.(ApprovalRequest.agent) project_id None None (Some thread_id) (Some turn_id) a.(ApprovalRequest.kind)
    a.(ApprovalRequest.tool_name) a.(ApprovalRequest.command) a.(ApprovalRequest.cwd) a.(ApprovalRequest.input)
    a.(ApprovalRequest.reason) a.(ApprovalRequest.created_at).

Definition report_collaboration_approval (input : ReportCollaborationApproval.t V) : C E (ApprovalRequest.t V) :=
  let '(ReportCollaborationApproval.mk _ assignment_id lease_token approval) := input in
  assignment ← validate_collaboration_lease assignment_id lease_token;
  let local_approval_id := approval.(ApprovalRequest.id) in
  _ ← fail_when (is_empty (trim local_approval_id) || (256 <? len local_approval_id)) (Other "Invalid remote approval id.");
  _ ← fail_when (MAX_EVENT_DATA_BYTES <? request_bytes (E:=E) approval) (Other "Remote approval details exceeded the safety limit.");
  found ← on_core (read_thread (V:=V) assignment.(CollaborationAssignment.thread_id));
  thread ← lift_opt found NotFound;
  let id := "collab:" +:+ assignment.(CollaborationAssignment.id) +:+ ":" +:+
              substring 0 16 (hash_bytes (V:=V) (E:=E) local_approval_id) in
  approval ← on_tables (insert_approval id assignment.(CollaborationAssignment.id) local_approval_id
    (adopted approval id thread.(AgentThread.project_id) assignment.(CollaborationAssignment.thread_id) assignment.(CollaborationAssignment.turn_id)));
  _ ← tell (ApprovalRequested (published_request approval));
  mret approval.

Definition list_collaboration_approval_decisions (assignment_id lease_token : string) : C E (list CollaborationApprovalDecision.t) :=
  _ ← validate_collaboration_lease assignment_id lease_token;
  on_tables (list_approval_decisions assignment_id).

Definition acknowledge_collaboration_approval_decision (assignment_id lease_token approval_id : string) : C E () :=
  _ ← validate_collaboration_lease assignment_id lease_token;
  ts ← clock;
  known ← on_tables (acknowledge_approval_decision ts assignment_id approval_id);
  fail_when (negb known) NotFound.

Definition report_collaboration_change_set (input : NewCollaborationChangeSet.t) : C E CollaborationChangeSet.t :=
  let '(NewCollaborationChangeSet.mk assignment_id lease_token repo_id base_ref files patch) := input in
  assignment ← validate_collaboration_lease assignment_id lease_token;
  _ ← fail_when (MAX_PATCH_BYTES <? len patch)
        (Other ("Remote patch is larger than " +:+ pretty (MAX_PATCH_BYTES / 1024 / 1024) +:+ " MiB. Commit and push the branch instead."));
  found ← on_tables (gets (fun db => repo_row db repo_id));
  repo ← lift_opt found NotFound;
  bindings ← on_core (call (thread_repo_ids (V:=V) assignment.(CollaborationAssignment.thread_id)));
  _ ← fail_when (negb (existsb (String.eqb repo.(Repo.id)) bindings)) (Other "The reported repository is not attached to this session.");
  id ← on_core (call (fresh_id (V:=V)));
  ts ← clock;
  h ← host;
  change ← on_tables (insert_change_set h
    (CollaborationChangeSet.mk id assignment.(CollaborationAssignment.id) assignment.(CollaborationAssignment.thread_id)
       assignment.(CollaborationAssignment.device_id) repo.(Repo.id) repo.(Repo.name) base_ref (take 2000 files) patch
       (hash_bytes (V:=V) (E:=E) patch) CollaborationChangeStatus.Pending [] ts None));
  _ ← tell (CollaborationChangeSetUpdated change);
  mret change.

(** What a reported end makes of the assignment. *)
Definition finish_status (state : SessionState.t) : result CoreError CollaborationAssignmentStatus.t :=
  match state with
  | SessionState.Completed => Ok CollaborationAssignmentStatus.Review
  | SessionState.Interrupted | SessionState.Failed => Ok CollaborationAssignmentStatus.Failed
  | SessionState.Running => Err (Other "A running assignment cannot be reported as finished.")
  end.

Definition finished_thread_status (state : SessionState.t) (status : CollaborationAssignmentStatus.t) : TaskStatus.t :=
  match state with
  | SessionState.Completed => if bool_decide (status = CollaborationAssignmentStatus.Completed) then TaskStatus.Done else TaskStatus.Review
  | SessionState.Interrupted => TaskStatus.Paused
  | _ => TaskStatus.Failed
  end.

Definition finish_collaboration_assignment (input : FinishCollaborationAssignment.t) : C E CollaborationAssignment.t :=
  let '(FinishCollaborationAssignment.mk assignment_id lease_token state error) := input in
  status ← lift (finish_status state);
  ts ← clock;
  finished ← on_tables (finish_assignment ts assignment_id (hash_secret lease_token) status error);
  assignment ← lift_opt finished stale_lease_error;
  assignment ← (if bool_decide (state = SessionState.Completed) then
                  completed ← on_tables (complete_assignment_review assignment.(CollaborationAssignment.id));
                  mret (default assignment completed)
                else mret assignment);
  _ ← finish_turn assignment.(CollaborationAssignment.turn_id) state;
  _ ← edit_thread assignment.(CollaborationAssignment.thread_id)
        (AgentThread.set_status (finished_thread_status state assignment.(CollaborationAssignment.status)));
  _ ← tell (CollaborationAssignmentUpdated assignment);
  mret assignment.

Definition cancel_collaboration_assignment (assignment_id : string) : C E CollaborationAssignment.t :=
  ts ← clock;
  cancelled ← on_tables (cancel_assignment ts assignment_id);
  assignment ← lift_opt cancelled NotFound;
  _ ← finish_turn assignment.(CollaborationAssignment.turn_id) SessionState.Interrupted;
  _ ← edit_thread assignment.(CollaborationAssignment.thread_id) (AgentThread.set_status TaskStatus.Paused);
  _ ← tell (CollaborationAssignmentUpdated assignment);
  mret assignment.

(** ** Returned patches *)

Definition open_change (change : CollaborationChangeSet.t) : bool :=
  bool_decide (change.(CollaborationChangeSet.status) ∈ [CollaborationChangeStatus.Pending; CollaborationChangeStatus.Conflict]).

(** A change set that can still be resolved. *)
Definition open_change_set (change_set_id : string) : C E CollaborationChangeSet.t :=
  found ← on_tables (get_change_set change_set_id);
  change ← lift_opt found NotFound;
  _ ← fail_when (negb (open_change change)) (Other "This returned change set has already been resolved.");
  mret change.

(** The new status is stored and announced. *)
Definition set_change_status (id : string) (status : CollaborationChangeStatus.t) (conflict_files : list string) :
  C E CollaborationChangeSet.t :=
  ts ← clock;
  updated ← on_tables (update_change_status ts id status conflict_files);
  change ← lift_opt updated NotFound;
  _ ← tell (CollaborationChangeSetUpdated change);
  mret change.

(** A blocking git call; its error is [prefix] and its text. *)
Definition vcs {A} (m : SysM E (result string A)) (prefix : string) : C E A :=
  r ← on_core (call m);
  match r with Ok a => mret a | Err e => throw (Other (prefix +:+ e)) end.

Definition settle_change (id : string) (status : CollaborationChangeStatus.t) : C E CollaborationChangeSet.t :=
  change ← set_change_status id status [];
  _ ← finish_collaboration_review_if_settled change.(CollaborationChangeSet.assignment_id);
  mret change.

Definition apply_collaboration_change_set (change_set_id : string) (overwrite : bool) : C E CollaborationChangeSet.t :=
  change ← open_change_set change_set_id;
  let id := change.(CollaborationChangeSet.id) in
  let patch := change.(CollaborationChangeSet.patch) in
  let paths := FileChange.path <$> change.(CollaborationChangeSet.files) in
  _ ← fail_when (negb (String.eqb (hash_bytes (V:=V) (E:=E) patch) change.(CollaborationChangeSet.patch_sha256)))
        (Other "The stored patch failed its integrity check and was not applied.");
  found ← on_tables (gets (fun db => repo_row db change.(CollaborationChangeSet.repo_id)));
  repo ← lift_opt found NotFound;
  target ← lift_opt repo.(Repo.local_path) (Other "Repository has no local checkout on the coordinator.");
  dirty ← vcs (dirty_paths (V:=V) target paths) "";
  if negb (bool_decide (dirty = [])) && negb overwrite then
    set_change_status id CollaborationChangeStatus.Conflict dirty
  else if overwrite then
    base_ref ← lift_opt change.(CollaborationChangeSet.base_ref)
      (Other "This change set has no base revision, so a safe overwrite cannot be materialized.");
    _ ← vcs (overwrite_patch_paths (V:=V) target base_ref patch paths id) "Remote changes were not applied: ";
    _ ← record_activity None "collaboration.changes_overwrote_local";
    settle_change id CollaborationChangeStatus.AppliedWithOverwrite
  else
    checked ← on_core (call (check_patch_applies (V:=V) target patch));
    match checked with
    | Err _ =>
        conflict ← set_change_status id CollaborationChangeStatus.Conflict paths;
        _ ← record_activity None "collaboration.change_conflict";
        mret conflict
    | Ok _ =>
        _ ← vcs (apply_patch_to_repo (V:=V) target patch) "Remote changes were not applied: ";
        settle_change id CollaborationChangeStatus.Applied
    end.

Definition reject_collaboration_change_set (change_set_id : string) : C E CollaborationChangeSet.t :=
  current ← open_change_set change_set_id;
  settle_change change_set_id CollaborationChangeStatus.Rejected.
End Coordinator.
