(* ===== verification/CollabProps.v ===== *)
(** * Collaboration: what the coordinator promises

    Every handler composes repository calls, so the tables stay sound and each
    assignment follows its life cycle under any sequence of handlers; a lease once
    refused stays refused, an assignment is claimed once, and a review settles with
    its last change set. *)
From Stdlib Require Import Ascii String.
From S2P Require Import Prelude RustStr Json Enums Records WorkGraphDb WorkGraphInv Limits Budget SqlTable AgentDb CoreWorld ThreadFallback CollabDb CollabLife Collab CoreDemo.
#[local] Open Scope string_scope.
#[local] Open Scope Z_scope.
Import CollaborationAssignmentStatus.

Section Requests.
Context {V : Type} `{Json V} `{!BudgetSerde V} {E : Type} `{CoreServices E} `{!CollabServices V E}.
Context `{!TextSerde (list CollaborationAgentCapability.t)} `{!TextSerde (list FileChange.t)} `{!TextSerde (list string)}
  `{!TextSerde (ApprovalRequest.t V)}.

(** What the daemon and the editor ask of the coordinator. *)
Inductive request : forall A, C E A -> Prop :=
| request_register input : request _ (register_collaboration_device input)
| request_heartbeat input : request _ (heartbeat_collaboration_device input)
| request_list_devices : request _ list_collaboration_devices
| request_revoke id : request _ (revoke_collaboration_device id)
| request_snapshot thread_id patches : request _ (collaboration_snapshot thread_id patches)
| request_create input : request _ (create_collaboration_assignment (V:=V) input)
| request_retry id : request _ (retry_collaboration_assignment (V:=V) id)
| request_list_assignments device_id active_only : request _ (list_collaboration_assignments (V:=V) device_id active_only)
| request_claim id device_id : request _ (claim_collaboration_assignment (V:=V) id device_id)
| request_renew id token : request _ (renew_collaboration_lease (V:=V) id token)
| request_event input : request _ (report_collaboration_event (V:=V) input)
| request_approval input : request _ (report_collaboration_approval (V:=V) input)
| request_decisions id token : request _ (list_collaboration_approval_decisions (V:=V) id token)
| request_acknowledge id token approval : request _ (acknowledge_collaboration_approval_decision (V:=V) id token approval)
| request_change_set input : request _ (report_collaboration_change_set (V:=V) input)
| request_finish input : request _ (finish_collaboration_assignment (V:=V) input)
| request_cancel id : request _ (cancel_collaboration_assignment (V:=V) id)
| request_apply id overwrite : request _ (apply_collaboration_change_set (V:=V) id overwrite)
| request_reject id : request _ (reject_collaboration_change_set (V:=V) id)
| request_has_active thread_id : request _ (has_active_collaboration_assignment (V:=V) thread_id).

Lemma reads_get_device id : reads (get_device id).
Proof. done. Qed.
Lemma reads_list_devices : reads list_devices.
Proof. done. Qed.
Lemma reads_get_assignment id : reads (get_assignment id).
Proof. done. Qed.
Lemma reads_list_assignments device_id active_only : reads (list_assignments device_id active_only).
Proof. done. Qed.
Lemma reads_validate ts id hash : reads (validate_lease ts id hash).
Proof. done. Qed.
Lemma reads_get_change id : reads (get_change_set id).
Proof. done. Qed.
Lemma reads_list_changes thread_id : reads (list_change_sets thread_id).
Proof. intros s. by destruct thread_id. Qed.
Lemma reads_decisions id : reads (list_approval_decisions id).
Proof. done. Qed.

#[local] Hint Resolve reads_get_device reads_list_devices reads_get_assignment reads_list_assignments reads_validate
  reads_get_change reads_list_changes reads_decisions : perp.

(** One request after the other, whatever each answers. *)
Definition handles (s s' : Coord E) : Prop := exists A (m : C E A), request A m /\ s' = final m s.
Abbreviation serves := (rtc handles).

(** ** A property of the tables that every call keeps *)
#[local] Opaque upsert_device revoke_device insert_assignment claim_assignment renew_lease finish_assignment cancel_assignment
  expire_stale_assignments complete_assignment_review insert_change_set update_change_status insert_approval
  acknowledge_approval_decision get_device list_devices get_assignment list_assignments validate_lease get_change_set
  list_change_sets list_approval_decisions.
Section Kept.
Context (later : Z -> Prop) (clock_later : forall (s : Sys E) t, value now s = Ok t -> later t).
Context (P : CollabDb -> Prop)
  (P_call : forall E' A (m : M CollabDb E' A) db, collab_call (V:=V) later E' A m -> P db -> P (final m db)).

Abbreviation kept m := (keeps (fun s : Coord E => P s.(tables)) m).

Lemma kept_on_core {A} (m : W E A) : kept (on_core m).
Proof. intros s Hs. unfold final, on_core. by destruct (m (core s)). Qed.

Lemma kept_on_tables {A} (m : M CollabDb DbError A) : collab_call (V:=V) later _ _ m -> kept (on_tables m).
Proof.
  intros Hm s Hs. specialize (P_call _ _ m _ Hm Hs). unfold final, on_tables in *. by destruct (m (tables s)).
Qed.

Lemma kept_read {A} (m : M CollabDb DbError A) : reads m -> kept (on_tables m).
Proof. intros Hm. by apply kept_on_tables, call_read. Qed.

Lemma kept_on_insert (m : M CollabDb InsertError ()) : collab_call (V:=V) later _ _ m -> kept (on_insert m).
Proof.
  intros Hm s Hs. specialize (P_call _ _ m _ Hm Hs). unfold final, on_insert in *. by destruct (m (tables s)).
Qed.

Lemma kept_clock {A} (k : Z -> C E A) : (forall ts, later ts -> kept (k ts)) -> kept (clock ≫= k).
Proof.
  intros Hk s Hs. unfold final. rewrite M_bind_unfold. unfold clock, on_core, call.
  pose proof (clock_later (core s).(sys)) as Hc. unfold value in Hc.
  destruct (now _) as [w [t|e]]; cbn in *; [|done]. by apply Hk; [apply Hc|].
Qed.

Lemma kept_host {A} (k : AgentDb -> C E A) : (forall h, kept (k h)) -> kept (host ≫= k).
Proof. intros Hk. apply keeps_bind; [apply keeps_gets|done]. Qed.

(** Decompose a handler down to its calls. *)
Ltac serve :=
  repeat match goal with
  | |- kept (clock ≫= _) => apply kept_clock; intros ? ?
  | |- kept (_ ≫= _) => apply keeps_bind; [|intros ?]
  | |- kept (on_core _) => apply kept_on_core
  | |- kept (tell _) => apply kept_on_core
  | |- kept (record_activity _ _) => apply kept_on_core
  | |- kept (lift_opt _ _) => apply keeps_lift
  | |- kept (throw _) => apply (keeps_lift _ (Err _))
  | |- kept (for_each _ _) => apply keeps_for_each; intros ?
  | |- kept (on_tables _) => apply kept_read; solve [auto with perp | done]
  | |- kept (on_tables _) => apply kept_on_tables; by constructor
  | |- kept (let '(_, _) := ?x in _) => destruct x
  | |- kept (if ?b then _ else _) => destruct b
  | |- kept (match ?x with _ => _ end) => destruct x
  | |- _ => first [by apply keeps_ret | apply keeps_lift | by apply keeps_get | apply keeps_gets | apply keeps_fail_when]
  end.

Lemma kept_expire : kept (expire_collaboration_leases (V:=V)).
Proof. unfold expire_collaboration_leases, finish_turn, edit_thread. serve. Qed.

Lemma kept_validate id token : kept (validate_collaboration_lease (V:=V) id token).
Proof. unfold validate_collaboration_lease. serve. Qed.

Lemma kept_settled id : kept (finish_collaboration_review_if_settled (V:=V) id).
Proof. unfold finish_collaboration_review_if_settled, edit_thread. serve. Qed.

Lemma kept_open id : kept (open_change_set id).
Proof. unfold open_change_set. serve. Qed.

Lemma kept_settle id status : kept (settle_change (V:=V) id status).
Proof. unfold settle_change, set_change_status. serve. apply kept_settled. Qed.

Lemma kept_ready id agent : kept (ready_device id agent).
Proof. unfold ready_device. serve. Qed.

Lemma kept_locked ids : kept (on_tables (locked_repo_names ids)).
Proof. apply kept_on_tables, call_read. intros db. unfold locked_repo_names. by case_bool_decide. Qed.

Lemma kept_prompt thread message name : kept (build_collaboration_prompt (V:=V) thread message name).
Proof. apply keeps_bind; [apply kept_on_core|intros a; apply keeps_ret]. Qed.

Lemma kept_create_turn thread input : kept (create_turn (V:=V) thread input).
Proof. apply keeps_bind; [apply kept_on_core|intros id]. apply kept_clock. intros ts _. apply kept_on_core. Qed.

Lemma kept_record thread turn device input echo : kept (record_request (V:=V) thread turn device input echo).
Proof.
  unfold record_request. cbv zeta. destruct (echo && _); [|apply keeps_ret].
  apply keeps_bind; [apply kept_on_core|intros id]. apply kept_clock. intros ts _.
  apply keeps_bind; [apply kept_on_core|intros _]. apply kept_on_core.
Qed.

Lemma kept_insert_row a ids : a.(CollaborationAssignment.status) = Queued -> kept (insert_collaboration_assignment a ids).
Proof. intros Hq. apply kept_host. intros h. apply kept_clock. intros ts _. apply kept_on_insert. by constructor. Qed.

Lemma kept_create input echo : kept (create_collaboration_assignment_inner (V:=V) input echo).
Proof.
  unfold create_collaboration_assignment_inner. cbv zeta.
  apply keeps_bind; [apply kept_expire|intros _]. apply keeps_bind; [apply kept_on_core|intros running].
  apply keeps_bind; [apply keeps_fail_when|intros _]. apply keeps_bind; [apply keeps_lift|intros _].
  apply keeps_bind; [apply keeps_fail_when|intros _]. apply keeps_bind; [apply kept_ready|intros device].
  apply keeps_bind; [apply kept_on_core|intros found]. apply keeps_bind; [apply keeps_lift|intros thread].
  apply keeps_bind; [destruct (String.eqb _ _); [apply keeps_ret|apply kept_on_core]|intros repo_ids].
  apply keeps_bind; [apply kept_locked|intros locked]. apply keeps_bind; [apply keeps_fail_when|intros _].
  apply keeps_bind; [apply kept_prompt|intros prompt]. apply keeps_bind; [apply kept_create_turn|intros turn].
  apply keeps_bind; [apply kept_record|intros _]. apply keeps_bind; [apply kept_on_core|intros id].
  apply kept_clock. intros ts _. apply keeps_bind; [by apply kept_insert_row|intros _].
  apply keeps_bind; [apply kept_on_core|intros saved]. do 3 (apply keeps_bind; [apply kept_on_core|intros _]). apply keeps_ret.
Qed.

Lemma kept_report id token {A} (k : CollaborationAssignment.t -> C E A) :
  (forall a, kept (k a)) -> kept (validate_collaboration_lease (V:=V) id token ≫= k).
Proof. intros Hk. by apply keeps_bind; [apply kept_validate|]. Qed.

Lemma request_kept {A} (m : C E A) : request A m -> kept m.
Proof.
  destruct 1.
  - unfold register_collaboration_device. serve.
  - unfold heartbeat_collaboration_device, heartbeat_device. serve. apply kept_expire.
  - unfold list_collaboration_devices. serve. apply kept_expire.
  - unfold revoke_collaboration_device. serve.
  - unfold collaboration_snapshot. serve. apply kept_expire.
  - apply kept_create.
  - unfold retry_collaboration_assignment. serve. apply kept_create.
  - unfold list_collaboration_assignments. serve. apply kept_expire.
  - unfold claim_collaboration_assignment, edit_thread. serve. apply kept_expire.
  - unfold renew_collaboration_lease. serve.
  - destruct input. unfold report_collaboration_event. apply kept_report. intros a. serve.
  - destruct input. unfold report_collaboration_approval. apply kept_report. intros a. serve.
  - apply kept_report. intros a. serve.
  - apply kept_report. intros a. serve.
  - destruct input. unfold report_collaboration_change_set. apply kept_report. intros a. serve.
  - destruct input as [id token state error]. unfold finish_collaboration_assignment, finish_turn, edit_thread.
    destruct (finish_status state) as [status|e] eqn:Hs; [|intros s Hs'; exact Hs'].
    change (lift (Ok status) ≫= ?k) with (k status).
    assert (status ∈ [Review; Failed]) by (destruct state; simplify_eq/=; set_solver).
    cbv beta. serve.
  - unfold cancel_collaboration_assignment, finish_turn, edit_thread. serve.
  - unfold apply_collaboration_change_set, vcs, set_change_status. cbv zeta. serve.
    all: try apply kept_open. all: try apply kept_settle.
  - unfold reject_collaboration_change_set. serve; [apply kept_open|apply kept_settle].
  - unfold has_active_collaboration_assignment. serve. apply kept_expire.
Qed.

Lemma serves_kept s s' : serves s s' -> P s.(tables) -> P s'.(tables).
Proof. induction 1 as [|s s1 s2 (A & m & Hm & ->) _ IH]; [done|]. intros Hs. apply IH. by apply (request_kept m Hm). Qed.
End Kept.

(** Requests evolve the tables. *)
Lemma serves_evolve (later : Z -> Prop) s s' :
  (forall (y : Sys E) t, value now y = Ok t -> later t) -> serves s s' -> collab_ok s.(tables) ->
  collab_ok s'.(tables) /\ evolve later s.(tables) s'.(tables).
Proof.
  intros Hclock Hs Hok.
  refine (serves_kept later Hclock (fun db => collab_ok db /\ evolve later s.(tables) db) _ s s' Hs _); [|by split].
  intros E' A m db Hm [Hdb He]. destruct (collab_call_good (V:=V) later m db Hm Hdb) as [Hdb' He']. split; [done|by etrans].
Qed.

Definition deletes (s s' : Coord E) : Prop := exists id, s' = mkCoord s.(core) (final (thread_deleted id) s.(tables)).

Lemma step_ok s s' : handles s s' \/ deletes s s' -> collab_ok s.(tables) -> collab_ok s'.(tables).
Proof.
  intros [Hh|(id & ->)] Hok; [|by apply thread_deleted_ok].
  by apply (serves_evolve (fun _ => True) s s'); [done|apply rtc_once|].
Qed.

(** ** The life cycle *)

Lemma moves_lifecycle later r r' st :
  rtc (move later) r r' -> status_is r st -> exists st', status_is r' st' /\ rtc lifecycle st st'.
Proof.
  intros Hm. revert st. induction Hm as [r|r r1 r2 Hm _ IH]; intros st Hst; [by exists st|].
  destruct (move_lifecycle later r r1 Hm) as [Heq|(s1 & s2 & H1 & H2 & Hl)].
  - apply IH. by rewrite Heq.
  - assert (s1 = st) as -> by (apply as_str_inj; congruence). destruct (IH s2 H2) as (st' & H' & Hr).
    exists st'. split; [done|]. by eapply rtc_l.
Qed.

Lemma row_status db r : collab_ok db -> r ∈ db.(assignments) -> exists st, status_is r st.
Proof.
  intros Hok Hr. destruct (ok_rows _ Hok r Hr) as [[Hread _] _]. unfold readable in Hread. rewrite readable_parts in Hread.
  apply andb_prop in Hread as [_ Hst]. unfold decode in Hst. destruct (unwire _) as [st|] eqn:Hu; [|done]. exists st.
  apply (unwire_spec (T:=t)) in Hu. by symmetry.
Qed.

(** ** A lease that was refused *)

(** The assignment was started, and the hash holds no live lease at [lo]. *)
Definition refused (lo : Z) (id hash : string) (r : AssignmentRow.t) : Prop :=
  r.(AssignmentRow.status) <> as_str Queued /\ leased id hash lo r = false.

Lemma not_running id hash lo r : r.(AssignmentRow.status) <> as_str Running -> leased id hash lo r = false.
Proof.
  intros Hr. unfold leased. destruct (has_status [Running] r) eqn:Hs; [by apply has_status_one in Hs|].
  by rewrite andb_false_r.
Qed.

Lemma move_refused lo id hash r r' :
  move (fun ts => lo <= ts) r r' -> refused lo id hash r -> refused lo id hash r'.
Proof.
  intros Hm [Hq Hl]. destruct Hm as [r ? ? ? Hst|r ts h expires Hts Hst|r st st' ? ? Hst Hlc Hne|r ? ? Hst|r Hst].
  - done.
  - split; [done|]. revert Hl Hst. unfold leased. cbn [AssignmentRow.lease_token_hash AssignmentRow.set_lease AssignmentRow.lease_expires_at].
    change (is_assignment id (AssignmentRow.set_lease _ _ r)) with (is_assignment id r).
    change (has_status [Running] (AssignmentRow.set_lease _ _ r)) with (has_status [Running] r).
    destruct (is_assignment id r); [|done]. destruct (is_some_and (AssignmentRow.lease_token_hash r) (fun h' => eq_str h' hash)); [|done].
    cbn. intros Hl. rewrite !andb_true_iff. intros [[_ Hr] He]. rewrite Hr in Hl. cbn in Hl.
    destruct (AssignmentRow.lease_expires_at r) as [e|]; [|done]. cbn in *. lia.
  - split; [|apply not_running; intros Heq; by apply (as_str_inj st' Running) in Heq].
    intros Heq. apply (as_str_inj st' Queued) in Heq as ->. inversion Hlc.
  - split; [done|by apply not_running].
  - split; [done|by apply not_running].
Qed.

Lemma moves_refused lo id hash r r' :
  rtc (move (fun ts => lo <= ts)) r r' -> refused lo id hash r -> refused lo id hash r'.
Proof. induction 1; [done|]. intros Hr. eauto using move_refused. Qed.

(** What is asked with a lease token. *)
Inductive with_lease (id token : string) : forall A, C E A -> Prop :=
| lease_renew : with_lease id token _ (renew_collaboration_lease (V:=V) id token)
| lease_event input :
    input.(CollaborationEventInput.assignment_id) = id -> input.(CollaborationEventInput.lease_token) = token ->
    with_lease id token _ (report_collaboration_event (V:=V) input)
| lease_approval input :
    input.(ReportCollaborationApproval.assignment_id) = id -> input.(ReportCollaborationApproval.lease_token) = token ->
    with_lease id token _ (report_collaboration_approval (V:=V) input)
| lease_decisions : with_lease id token _ (list_collaboration_approval_decisions (V:=V) id token)
| lease_acknowledge approval : with_lease id token _ (acknowledge_collaboration_approval_decision (V:=V) id token approval)
| lease_change_set input :
    input.(NewCollaborationChangeSet.assignment_id) = id -> input.(NewCollaborationChangeSet.lease_token) = token ->
    with_lease id token _ (report_collaboration_change_set (V:=V) input)
| lease_finish input :
    input.(FinishCollaborationAssignment.assignment_id) = id -> input.(FinishCollaborationAssignment.lease_token) = token ->
    input.(FinishCollaborationAssignment.state) <> SessionState.Running ->
    with_lease id token _ (finish_collaboration_assignment (V:=V) input).

(** The clock answers, touches nothing and does not go back behind [lo]. *)
Definition clock_from (lo : Z) : Prop := forall y : Sys E, exists t, lo <= t /\ now y = (y, Ok t).

Lemma clock_from_later lo : clock_from lo -> forall (y : Sys E) t, value now y = Ok t -> lo <= t.
Proof. intros Hc y t. destruct (Hc y) as (t' & Hle & Hn). unfold value. rewrite Hn. by intros [= <-]. Qed.

Lemma clock_reads lo (s : Coord E) : clock_from lo -> exists ts, lo <= ts /\ clock s = (s, Ok ts).
Proof.
  intros Hc. destruct (Hc s.(core).(sys)) as (t & Hle & Hn). exists t. split; [done|].
  unfold clock, on_core, call. rewrite Hn. by destruct s as [[]].
Qed.

Lemma on_tables_none {A} (m : CollabM A) r (s : Coord E) : m s.(tables) = (s.(tables), Ok r) -> on_tables m s = (s, Ok r).
Proof. unfold on_tables. intros ->. by destruct s. Qed.

(** A request with a token that holds no lease from [lo] on is refused. *)
Lemma lease_refused lo id token {A} (m : C E A) s :
  clock_from lo ->
  (forall ts r, lo <= ts -> r ∈ s.(tables).(assignments) -> leased id (hash_secret (V:=V) (E:=E) token) ts r = false) ->
  with_lease id token A m -> m s = (s, Err stale_lease_error).
Proof.
  intros Hc Hnone Hm.
  assert (validate_collaboration_lease (V:=V) id token s = (s, Err stale_lease_error)) as Hval.
  { unfold validate_collaboration_lease. destruct (clock_reads lo s Hc) as (ts & Hle & Hts).
    rewrite M_bind_unfold, Hts, M_bind_unfold, (on_tables_none _ None); [done|]. apply validate_none. intros r. by apply Hnone. }
  assert (forall B (k : _ -> C E B), (validate_collaboration_lease (V:=V) id token ≫= k) s = (s, Err stale_lease_error)) as Hk
    by (intros B k; by rewrite M_bind_unfold, Hval).
  destruct Hm as [|[] <- <-|[] <- <-| | |[] <- <-|[i tok state error] <- <- Hne]; try apply Hk.
  - unfold renew_collaboration_lease. destruct (clock_reads lo s Hc) as (ts & Hle & Hts).
    rewrite M_bind_unfold, Hts, M_bind_unfold, Hts, M_bind_unfold, (on_tables_none _ None); [done|]. apply renew_none. intros r. by apply Hnone.
  - unfold finish_collaboration_assignment. cbn in *.
    assert (exists status, finish_status state = Ok status) as [status Hst] by (destruct state; [done|by eexists..]).
    rewrite Hst. rewrite M_bind_unfold. cbn [lift]. destruct (clock_reads lo s Hc) as (ts & Hle & Hts).
    rewrite M_bind_unfold, Hts, M_bind_unfold, (on_tables_none _ None); [done|]. apply finish_none. intros r. by apply Hnone.
Qed.

Lemma leased_later id hash lo ts r : lo <= ts -> leased id hash lo r = false -> leased id hash ts r = false.
Proof.
  intros Hle. unfold leased. intros [Hl|He]%andb_false_iff; [by rewrite Hl|]. apply andb_false_iff. right.
  destruct (AssignmentRow.lease_expires_at r) as [e|]; [|done]. cbn in *. lia.
Qed.

(** ** Steps that leave the tables alone *)

Definition quiet {A} (m : C E A) : Prop := forall s, (final m s).(tables) = s.(tables).

Lemma quiet_bind {A B} (m : C E A) (k : A -> C E B) : quiet m -> (forall a, quiet (k a)) -> quiet (m ≫= k).
Proof.
  intros Hm Hk s. specialize (Hm s). unfold final in *. rewrite M_bind_unfold. destruct (m s) as [s1 [a|e]]; cbn in *; [|done].
  specialize (Hk a s1). unfold final in Hk. congruence.
Qed.
Lemma quiet_core {A} (m : W E A) : quiet (on_core m).
Proof. intros s. unfold final, on_core. by destruct (m (core s)). Qed.
Lemma quiet_read {A} (m : CollabM A) : reads m -> quiet (on_tables m).
Proof. intros Hm s. specialize (Hm (tables s)). unfold final, on_tables in *. by destruct (m (tables s)). Qed.
Lemma quiet_lift {A} (r : result CoreError A) : quiet (lift r).
Proof. done. Qed.
Lemma quiet_edit id edit : quiet (edit_thread (V:=V) id edit).
Proof.
  apply quiet_bind; [apply quiet_core|intros [thread|]; [|done]]. apply quiet_bind; [apply quiet_core|intros; apply quiet_core].
Qed.
Lemma quiet_finish id state : quiet (finish_turn id state).
Proof. apply quiet_bind; [apply quiet_core|intros; apply quiet_core]. Qed.
Lemma quiet_for_each {A} (f : A -> C E ()) l : (forall a, quiet (f a)) -> quiet (for_each f l).
Proof. intros Hf. induction l as [|a l IH]; [done|]. by apply quiet_bind. Qed.
Lemma quiet_open id : quiet (open_change_set id).
Proof.
  apply quiet_bind; [apply quiet_read, reads_get_change|intros found]. apply quiet_bind; [done|intros change].
  apply quiet_bind; [intros s; by destruct (negb _)|done].
Qed.
Lemma quiet_vcs {A} (m : SysM E (result string A)) prefix : quiet (vcs m prefix).
Proof. apply quiet_bind; [apply quiet_core|by intros [a|e]]. Qed.

Lemma bind_ok {S X A B} (m : M S X A) (k : A -> M S X B) s s' b :
  (m ≫= k) s = (s', Ok b) -> exists s1 a, m s = (s1, Ok a) /\ k a s1 = (s', Ok b).
Proof. rewrite M_bind_unfold. destruct (m s) as [s1 [a|e]]; [|done]. eauto. Qed.

Lemma quiet_ok {A} (m : C E A) s s' a : quiet m -> m s = (s', Ok a) -> s'.(tables) = s.(tables).
Proof. intros Hm Hs. specialize (Hm s). unfold final in Hm. by rewrite Hs in Hm. Qed.

Lemma on_tables_ok {A} (m : CollabM A) (s s' : Coord E) a :
  on_tables m s = (s', Ok a) -> m s.(tables) = (s'.(tables), Ok a).
Proof. unfold on_tables. destruct (m (tables s)) as [d [b|e]]; intros [= <- <-]. done. Qed.

(** A claim that succeeds has started the assignment. *)
Lemma claim_ok_started id device (s s' : Coord E) c :
  claim_collaboration_assignment (V:=V) id device s = (s', Ok c) ->
  exists r, r ∈ s'.(tables).(assignments) /\ r.(AssignmentRow.id) = id /\ status_is r Running.
Proof.
  intros Hc. unfold claim_collaboration_assignment in Hc.
  apply bind_ok in Hc as (s1 & [] & _ & Hc). do 2 (apply bind_ok in Hc as (? & ? & _ & Hc)). cbv zeta in Hc.
  do 2 (apply bind_ok in Hc as (? & ? & _ & Hc)). apply bind_ok in Hc as (s2 & claimed & Hclaim & Hc).
  apply bind_ok in Hc as (s3 & a & Hl & Hc). destruct claimed as [a'|]; [|done]. injection Hl as <- <-.
  apply on_tables_ok, claim_started in Hclaim.
  assert (s'.(tables) = s2.(tables)) as ->; [|done].
  apply bind_ok in Hc as (s4 & [] & He & Hc). apply bind_ok in Hc as (s5 & [] & Ht & Hc). injection Hc as <- _.
  rewrite (quiet_ok _ _ _ _ (quiet_core _) Ht). by rewrite (quiet_ok _ _ _ _ (quiet_edit _ _) He).
Qed.

Lemma claim_refused id device (s s' : Coord E) c r :
  collab_ok s.(tables) -> r ∈ s.(tables).(assignments) -> r.(AssignmentRow.id) = id -> r.(AssignmentRow.status) <> as_str Queued ->
  claim_collaboration_assignment (V:=V) id device s <> (s', Ok c).
Proof.
  intros Hok Hr Hid Hq Hc. unfold claim_collaboration_assignment in Hc.
  apply bind_ok in Hc as (s1 & [] & He & Hc).
  assert (collab_ok s1.(tables) /\ evolve (fun _ => True) s.(tables) s1.(tables)) as [Hok1 Hev].
  { pose proof (kept_expire (fun _ => True) (fun _ _ _ => I) (fun db => collab_ok db /\ evolve (fun _ => True) s.(tables) db)) as Hk.
    replace s1 with (final (expire_collaboration_leases (V:=V)) s) by (unfold final; by rewrite He). apply Hk; [|by split].
    intros E' A m db Hm [Hdb Hevo]. destruct (collab_call_good (V:=V) _ m db Hm Hdb). split; [done|by etrans]. }
  destruct (evolve_row _ _ _ r Hev Hr) as (r1 & Hr1 & Hm). pose proof (moves_same_work _ _ _ Hm) as (Hid1 & _).
  do 2 (apply bind_ok in Hc as (? & ? & Hf & Hc); apply (quiet_ok _ _ _ _ (quiet_core _)) in Hf; rewrite <- Hf in Hok1, Hr1; clear Hf).
  cbv zeta in Hc.
  do 2 (apply bind_ok in Hc as (? & ? & Hf & Hc); apply (quiet_ok _ _ _ _ (quiet_core _)) in Hf; rewrite <- Hf in Hok1, Hr1; clear Hf).
  apply bind_ok in Hc as (s2 & claimed & Hclaim & Hc). apply on_tables_ok in Hclaim. rewrite claim_none in Hclaim.
  - injection Hclaim as _ <-. apply bind_ok in Hc as (? & ? & Hl & _). done.
  - intros r2 Hr2 Hid2. rewrite (NoDup_column_inj AssignmentRow.id _ r2 r1 (ok_ids _ Hok1)); [|done|done|congruence].
    intros Hq1. apply Hq. by apply (moves_queued _ _ _ Hm).
Qed.

(** ** Settling a change set *)

Lemma status_set id status conflicts (s s' : Coord E) change :
  set_change_status id status conflicts s = (s', Ok change) ->
  s'.(tables).(assignments) = s.(tables).(assignments) /\
  exists c, c ∈ s'.(tables).(change_sets) /\ c.(ChangeSetRow.status) = CollaborationChangeStatus.as_str status /\
    c.(ChangeSetRow.assignment_id) = change.(CollaborationChangeSet.assignment_id).
Proof.
  intros Hs. unfold set_change_status in Hs. apply bind_ok in Hs as (s1 & ts & Hts & Hs).
  apply (quiet_ok _ _ _ _ (quiet_core _)) in Hts. apply bind_ok in Hs as (s2 & updated & Hu & Hs). apply on_tables_ok in Hu.
  apply bind_ok in Hs as (s3 & c & Hc & Hs). destruct updated as [c'|]; [|done]. injection Hc as <- <-.
  apply bind_ok in Hs as (s4 & [] & Ht & Hs). injection Hs as <- <-. rewrite (quiet_ok _ _ _ _ (quiet_core _) Ht), <- Hts.
  exact (updated_change _ _ _ _ _ _ _ Hu).
Qed.

Lemma review_settled id (s s' : Coord E) r :
  finish_collaboration_review_if_settled (V:=V) id s = (s', Ok ()) ->
  r ∈ s.(tables).(assignments) -> r.(AssignmentRow.id) = id -> status_is r Review ->
  s'.(tables).(change_sets) = s.(tables).(change_sets) /\
  (existsb (unsettled id) s.(tables).(change_sets) = false ->
   AssignmentRow.set_status (as_str Completed) r ∈ s'.(tables).(assignments) /\
   forall l, l ∈ s'.(tables).(leases) -> l.(RepoLeaseRow.assignment_id) <> id).
Proof.
  intros Hs Hr Hid Hrev. unfold finish_collaboration_review_if_settled in Hs. apply bind_ok in Hs as (s1 & completed & Hc & Hs).
  apply on_tables_ok in Hc.
  assert (s'.(tables) = s1.(tables)) as ->.
  { refine (quiet_ok _ _ _ _ _ Hs). destruct completed as [a|]; [|done]. apply quiet_bind; [apply quiet_edit|intros; apply quiet_core]. }
  replace (tables s1) with (final (complete_assignment_review id) s.(tables)) by (unfold final; by rewrite Hc).
  split; [apply completing_changes|]. intros Hun. by destruct (review_completes id s.(tables) r Hr Hid Hrev Hun) as (_ & Ha & Hl).
Qed.

(** Either way a patch is settled, the review it belongs to is settled with it. *)
Lemma settled_review id status (s s' : Coord E) change r :
  settle_change (V:=V) id status s = (s', Ok change) ->
  r ∈ s.(tables).(assignments) -> r.(AssignmentRow.id) = change.(CollaborationChangeSet.assignment_id) -> status_is r Review ->
  existsb (unsettled r.(AssignmentRow.id)) s'.(tables).(change_sets) = false ->
  AssignmentRow.set_status (as_str Completed) r ∈ s'.(tables).(assignments) /\
  forall l, l ∈ s'.(tables).(leases) -> l.(RepoLeaseRow.assignment_id) <> r.(AssignmentRow.id).
Proof.
  intros Hs Hr Hid Hrev Hun. apply bind_ok in Hs as (s1 & c & Hset & Hs). apply bind_ok in Hs as (s2 & [] & Hfin & Hs).
  injection Hs as <- <-. apply status_set in Hset as (Ha & _). rewrite <- Ha in Hr.
  destruct (review_settled _ s1 s2 r Hfin Hr Hid Hrev) as [Hc Hdone]. rewrite Hc in Hun. rewrite Hid in *. by apply Hdone.
Qed.

Lemma conflict_open id conflicts (s s' : Coord E) change :
  set_change_status id CollaborationChangeStatus.Conflict conflicts s = (s', Ok change) ->
  existsb (unsettled change.(CollaborationChangeSet.assignment_id)) s'.(tables).(change_sets) = true.
Proof.
  intros (_ & c & Hin & Hst & Hid)%status_set. apply existsb_exists. exists c. split; [by apply list_elem_of_In|].
  unfold unsettled. rewrite (proj2 (eq_str_true _ _) Hid), Hst. done.
Qed.
End Requests.

Module Properties.
Section Properties.
Context {V : Type} `{Json V} `{!BudgetSerde V} {E : Type} `{CoreServices E} `{!CollabServices V E}.
Context `{!TextSerde (list CollaborationAgentCapability.t)} `{!TextSerde (list FileChange.t)} `{!TextSerde (list string)}
  `{!TextSerde (ApprovalRequest.t V)}.
Abbreviation serves := (rtc (handles (V:=V) (E:=E))).

(** C27: soundness of the tables - under any sequence of the coordinator's requests,
    whatever each answers, and of deleted threads, the tables stay sound: ids are
    unique, every assignment reads back, a thread has at most one active assignment,
    a repository at most one holder, every holder is active, a token and its deadline
    exist exactly while the assignment runs, and its device is then paired. *)
Theorem collab_tables_sound (s s' : Coord E) :
  collab_ok s.(tables) -> rtc (fun a b => handles (V:=V) a b \/ deletes a b) s s' -> collab_ok s'.(tables).
Proof. intros Hok Hs. induction Hs as [|s s1 s2 Hstep _ IH]; [done|]. apply IH. by apply (step_ok s). Qed.

(** C28: refinement of the life cycle - whatever is requested, no assignment is lost
    and its work never changes: it is where its life cycle can have led it, and every
    assignment of the later state is one of the earlier ones or started queued. *)
Theorem assignment_lifecycle (s s' : Coord E) :
  collab_ok s.(tables) -> serves s s' ->
  (forall r st, r ∈ s.(tables).(assignments) -> status_is r st ->
   exists r' st', r' ∈ s'.(tables).(assignments) /\ same_work r r' /\ status_is r' st' /\ rtc lifecycle st st') /\
  (forall r', r' ∈ s'.(tables).(assignments) ->
   exists r st st', (r ∈ s.(tables).(assignments) \/ st = Queued) /\ same_work r r' /\ status_is r st /\ status_is r' st' /\
     rtc lifecycle st st').
Proof.
  intros Hok Hs. destruct (serves_evolve (fun _ => True) s s' (fun _ _ _ => I) Hs Hok) as [Hok' He]. split.
  - intros r st Hr Hst. destruct (evolve_row _ _ _ r He Hr) as (r' & Hr' & Hm).
    destruct (moves_lifecycle _ r r' st Hm Hst) as (st' & Hst' & Hl). exists r', st'.
    split_and!; [done|by eapply moves_same_work|done|done].
  - intros r' Hr'. destruct He as (rows & born & Heq & Hm & Hb). rewrite Heq in Hr'. apply elem_of_app in Hr' as [Hr'|Hr'].
    + apply list_elem_of_lookup in Hr' as [i Hi]. destruct (Forall2_lookup_r _ _ _ _ _ Hm Hi) as (r & Hr & Hmr).
      apply list_elem_of_lookup_2 in Hr. destruct (row_status _ r Hok Hr) as [st Hst].
      destruct (moves_lifecycle _ r r' st Hmr Hst) as (st' & Hst' & Hl). exists r, st, st'.
      split_and!; [by left|by eapply moves_same_work|done|done|done].
    + rewrite Forall_forall in Hb. destruct (Hb r' Hr') as (r0 & Hq & Hmr).
      destruct (moves_lifecycle _ r0 r' Queued Hmr Hq) as (st' & Hst' & Hl). exists r0, Queued, st'.
      split_and!; [by right|by eapply moves_same_work|done|done|done].
Qed.

(** C26: fencing - once the lease of a started assignment was refused for a token, no
    later request makes the token good again: whatever is served in between, every
    request with it is refused as stale and changes nothing, neither the tables nor
    the transcripts nor what is published. *)
Theorem stale_lease_fenced (s s' : Coord E) (lo : Z) (id token : string) (r : AssignmentRow.t) :
  clock_from (E:=E) lo -> collab_ok s.(tables) ->
  r ∈ s.(tables).(assignments) -> r.(AssignmentRow.id) = id -> r.(AssignmentRow.status) <> as_str Queued ->
  value (validate_lease lo id (hash_secret (V:=V) (E:=E) token)) s.(tables) = Ok None ->
  serves s s' -> forall A (m : C E A), with_lease (V:=V) id token A m -> m s' = (s', Err stale_lease_error).
Proof.
  intros Hc Hok Hr Hid Hq Hv Hs A m Hm. subst id.
  pose proof (validate_refused _ _ _ _ Hok Hv r Hr) as Hl.
  destruct (serves_evolve (fun ts => lo <= ts) s s' (clock_from_later lo Hc) Hs Hok) as [Hok' He].
  destruct (evolve_row _ _ _ r He Hr) as (r1 & Hr1 & Hm1).
  pose proof (moves_refused _ _ _ _ _ Hm1 (conj Hq Hl)) as [_ Hl1]. pose proof (moves_same_work _ _ _ Hm1) as (Hid1 & _).
  apply (lease_refused lo r.(AssignmentRow.id) token); [done| |done]. intros ts r2 Hle Hr2.
  destruct (decide (r2.(AssignmentRow.id) = r.(AssignmentRow.id))) as [Heq|Hne].
  - rewrite (NoDup_column_inj AssignmentRow.id s'.(tables).(assignments) r2 r1); [|apply Hok'|done..|congruence].
    by apply (leased_later _ _ lo).
  - unfold leased, is_assignment. by rewrite eq_str_false.
Qed.

(** an assignment is claimed once - after a device has claimed it, no later claim
    of it succeeds, by whatever device and whatever is requested in between. *)
Theorem claimed_once (s s1 s2 : Coord E) (id device : string) (c : ClaimedCollaborationAssignment.t) :
  collab_ok s.(tables) -> claim_collaboration_assignment (V:=V) id device s = (s1, Ok c) -> serves s1 s2 ->
  forall device' s3 c', claim_collaboration_assignment (V:=V) id device' s2 <> (s3, Ok c').
Proof.
  intros Hok Hc Hs device' s3 c'. destruct (claim_ok_started _ _ _ _ _ Hc) as (r & Hr & Hid & Hrun).
  assert (handles (V:=V) s s1) as Hstep.
  { exists _, (claim_collaboration_assignment (V:=V) id device). split; [constructor|]. unfold final. by rewrite Hc. }
  assert (collab_ok s1.(tables)) as Hok1 by by apply (step_ok s); [left|].
  destruct (serves_evolve (fun _ => True) s1 s2 (fun _ _ _ => I) Hs Hok1) as [Hok2 He].
  destruct (evolve_row _ _ _ r He Hr) as (r2 & Hr2 & Hm). pose proof (moves_same_work _ _ _ Hm) as (Hid2 & _).
  apply (claim_refused id device' s2 s3 c' r2); [done|done|congruence|].
  intros Hq. apply (moves_queued _ _ _ Hm) in Hq. by rewrite Hrun in Hq.
Qed.

(** a review ends with its patches - when the user applies (with or without
    overwriting) or rejects a change set of an assignment in review, and no change set
    of it is open any more, the assignment is completed and holds no repository. *)
Theorem review_settles (s s' : Coord E) (m : C E CollaborationChangeSet.t) (change : CollaborationChangeSet.t)
  (id : string) (overwrite : bool) (r : AssignmentRow.t) :
  m = apply_collaboration_change_set (V:=V) id overwrite \/ m = reject_collaboration_change_set (V:=V) id ->
  m s = (s', Ok change) ->
  r ∈ s.(tables).(assignments) -> r.(AssignmentRow.id) = change.(CollaborationChangeSet.assignment_id) -> status_is r Review ->
  existsb (unsettled r.(AssignmentRow.id)) s'.(tables).(change_sets) = false ->
  AssignmentRow.set_status (as_str Completed) r ∈ s'.(tables).(assignments) /\
  forall l, l ∈ s'.(tables).(leases) -> l.(RepoLeaseRow.assignment_id) <> r.(AssignmentRow.id).
Proof.
  intros [->| ->] Hm Hr Hid Hrev Hun.
  - unfold apply_collaboration_change_set in Hm. cbv zeta in Hm.
    apply bind_ok in Hm as (s1 & c & H1 & Hm). rewrite <- (quiet_ok _ _ _ _ (quiet_open _) H1) in Hr.
    apply bind_ok in Hm as (s2 & [] & H2 & Hm). assert (s2 = s1) as -> by (by destruct (negb _); inversion H2).
    apply bind_ok in Hm as (s3 & repo & H3 & Hm). rewrite <- (quiet_ok _ _ _ _ (quiet_read _ (reads_gets _)) H3) in Hr.
    do 2 (apply bind_ok in Hm as (? & ? & H4 & Hm); injection H4 as <- _).
    apply bind_ok in Hm as (s4 & dirty & H5 & Hm). rewrite <- (quiet_ok _ _ _ _ (quiet_vcs _ _) H5) in Hr.
    destruct (_ && _).
    { exfalso. apply conflict_open in Hm. rewrite <- Hid, Hun in Hm. done. }
    destruct overwrite.
    + apply bind_ok in Hm as (? & base & H6 & Hm). injection H6 as <- _.
      apply bind_ok in Hm as (s5 & ? & H7 & Hm). rewrite <- (quiet_ok _ _ _ _ (quiet_vcs _ _) H7) in Hr.
      apply bind_ok in Hm as (s6 & ? & H8 & Hm). rewrite <- (quiet_ok _ _ _ _ (quiet_core _) H8) in Hr.
      by eapply settled_review.
    + apply bind_ok in Hm as (s5 & [patched|err] & H6 & Hm); rewrite <- (quiet_ok _ _ _ _ (quiet_core _) H6) in Hr.
      * apply bind_ok in Hm as (s6 & ? & H7 & Hm). rewrite <- (quiet_ok _ _ _ _ (quiet_vcs _ _) H7) in Hr. by eapply settled_review.
      * exfalso. apply bind_ok in Hm as (s6 & conflict & H7 & Hm). apply bind_ok in Hm as (s7 & [] & H8 & Hm).
        injection Hm as <- <-. apply conflict_open in H7. rewrite (quiet_ok _ _ _ _ (quiet_core _) H8), Hid, H7 in Hun. done.
  - apply bind_ok in Hm as (s1 & c & H1 & Hm). rewrite <- (quiet_ok _ _ _ _ (quiet_open _) H1) in Hr. by eapply settled_review.
Qed.

(** C29: the sweep that opens a request - each running assignment whose lease ran out at
    the instant of the sweep has ended and holds no repository; the others run on. *)
Theorem expired_leases_end (s : Coord E) (ts : Z) (r : AssignmentRow.t) :
  (forall y : Sys E, now y = (y, Ok ts)) -> collab_ok s.(tables) -> r ∈ s.(tables).(assignments) -> status_is r Running ->
  let s' := final (expire_collaboration_leases (V:=V)) s in
  if is_some_and r.(AssignmentRow.lease_expires_at) (fun e => e <=? ts)
  then ended LeaseExpired ts (Some "device lease expired") r ∈ s'.(tables).(assignments) /\
       forall l, l ∈ s'.(tables).(leases) -> l.(RepoLeaseRow.assignment_id) <> r.(AssignmentRow.id)
  else r ∈ s'.(tables).(assignments).
Proof.
  intros Hnow Hok Hr Hrun s'.
  assert (clock s = (s, Ok ts)) as Hts by (unfold clock, on_core, call; rewrite Hnow; by destruct s as [[]]).
  assert (s'.(tables) = final (expire_stale_assignments ts) s.(tables)) as Ht.
  { unfold s', expire_collaboration_leases, final. rewrite M_bind_unfold, Hts, M_bind_unfold. unfold on_tables.
    destruct (expire_stale_assignments ts (tables s)) as [d [expired|e]]; [|done].
    match goal with |- tables (fst (for_each ?f ?l ?st)) = _ => change (tables (final (for_each f l) st) = d) end.
    rewrite quiet_for_each; [done|]. intros a. apply quiet_bind; [apply quiet_finish|intros _].
    apply quiet_bind; [apply quiet_edit|intros _; apply quiet_core]. }
  rewrite Ht. pose proof (sweep_ends ts s.(tables) r Hok Hr Hrun) as Hsweep. cbv zeta in Hsweep.
  destruct (is_some_and _ _); [|done]. split; [done|]. intros l Hl Heq.
  destruct (expire_good (fun _ => True) ts s.(tables) Hok) as [Hok' _].
  destruct (ok_leases _ Hok' l Hl) as (r' & Hr' & Hid' & Hact).
  rewrite (NoDup_column_inj AssignmentRow.id _ r' _ (ok_ids _ Hok') Hr' Hsweep) in Hact; [done|]. by rewrite Hid', Heq.
Qed.
End Properties.
End Properties.

(** ** A concrete coordinator *)

(** The clock stands at 100; the agents' tables are empty, so no thread is edited. *)
Module DemoCollab.

#[global] Instance no_device : TextSerde (list CollaborationAgentCapability.t) := { to_text _ := "[]"; from_text _ := Ok [] }.
#[global] Instance no_files : TextSerde (list FileChange.t) := { to_text _ := "[]"; from_text _ := Ok [] }.
#[global] Instance no_strings : TextSerde (list string) := { to_text _ := "[]"; from_text _ := Ok [] }.
#[global] Instance no_request : TextSerde (ApprovalRequest.t Tree.t) := { to_text _ := ""; from_text _ := Err "no request" }.

#[global] Instance fixed_services : CoreServices () := {
  now := mret 100;
  activity _ _ _ := mret ();
  session_active _ _ := false;
  active_count _ := 0;
  sync_session_capacity := mret 2;
  run_task _ _ _ := mret "";
  run_agent_thread _ _ _ _ := mret "";
  detect_agents := mret [];
  agent_record _ := mret None;
  get_limit_policy := mret default_limit_policy;
  get_local_model_policy := mret default_local_model_policy;
  cloud_connectivity_stable _ := mret true;
  best_ready_local_target _ := mret None;
  provider_account_statuses := mret [];
  next_ready_provider_account _ := mret None;
  earliest_provider_account_reset := mret None;
  provider_account_reset _ := mret None;
  enqueue_turn _ _ _ _ _ _ _ := throw NotFound;
  pop_queued_turn _ := mret None;
  list_paused_plan_runs := mret [];
  get_work_node _ := mret None;
  resume_work_plan _ := mret ();
  run_cloud_monitor_tick := mret ();
  run_cloud_checkpoints := mret ();
  to_lowercase s := s;
  db_error_text _ := "disk full"
}.

#[global] Instance fixed_collab : CollabServices Tree.t () := {
  fresh_id := mret "0f-1e";
  hash_bytes s := "sha of " +:+ s;
  thread_repo_ids _ := mret [];
  json_bytes _ := 0;
  request_bytes _ := 0;
  json_members v := match v with Tree.JObject kvs => Some kvs | _ => None end;
  is_null v := match v with Tree.JNull => true | _ => false end;
  dirty_paths _ _ := mret (Ok []);
  overwrite_patch_paths _ _ _ _ _ := mret (Ok ());
  check_patch_applies _ _ := mret (Ok ());
  apply_patch_to_repo _ _ := mret (Ok ())
}.

Definition assignment (id thread status : string) (hash : option string) (expires : option Z) : AssignmentRow.t :=
  AssignmentRow.mk id thread "turn" "d" "codex" "workspace_write" "host" "go" status hash expires 1 None None None.

(** One assignment waits, one has run out of its lease, one is in review with a patch. *)
Definition db : CollabDb :=
  mkCollab [DeviceRow.mk "d" "Laptop" "host" "linux" "1.0" "[]" 90 1 None]
    [assignment "a1" "t1" "queued" None None; assignment "a2" "t2" "running" (Some "sha of tok") (Some 90);
     assignment "a3" "t3" "review" None None]
    [RepoLeaseRow.mk "r2" "a2" 1; RepoLeaseRow.mk "r3" "a3" 1]
    [ChangeSetRow.mk "c3" "a3" "t3" "d" "r3" None "[]" "diff" "sha of diff" "pending" "[]" 2 None] []
    [Repo.mk "r2" "p" "two" RepoKind.Local None None "main" 1 1; Repo.mk "r3" "p" "three" RepoKind.Local (Some "/repo") None "main" 1 1].

Definition start : Coord () := mkCoord (mkWorld (mkSys (mkAgentDb [] ∅ [] [] [] [] [] [] []) ()) [] []) db.

Lemma start_ok : collab_ok start.(tables).
Proof.
  assert (forall r, r ∈ db.(assignments) -> row_ok r /\ device_fits db.(devices) r) as Hrows.
  { intros r Hr. repeat (apply elem_of_cons in Hr as [->|Hr]; [split; [by repeat split; eexists|by eexists]|]). by apply elem_of_nil in Hr. }
  split; [by apply (bool_decide_eq_true_1 _); vm_compute|by apply (bool_decide_eq_true_1 _); vm_compute|done| | | |].
  - intros r r' Hr Hr' _ _. revert r' Hr'.
    repeat (apply elem_of_cons in Hr as [->|Hr]; [intros r' Hr'; repeat (apply elem_of_cons in Hr' as [->|Hr']; [done|]); by apply elem_of_nil in Hr'|]).
    by apply elem_of_nil in Hr.
  - by apply (bool_decide_eq_true_1 _); vm_compute.
  - intros l Hl. apply elem_of_cons in Hl as [->| ->%list_elem_of_singleton].
    + exists (assignment "a2" "t2" "running" (Some "sha of tok") (Some 90)). split; [by right; left|done].
    + exists (assignment "a3" "t3" "review" None None). split; [by right; right; left|done].
  - intros c ->%list_elem_of_singleton. exists (assignment "a3" "t3" "review" None None). split; [by right; right; left|done].
Qed.

(** The waiting assignment is claimed. *)
Definition claimed : Coord () := final (claim_collaboration_assignment (V:=Tree.t) "a1" "d") start.

Lemma claims : rtc (handles (V:=Tree.t)) start claimed.
Proof. apply rtc_once. exists _, (claim_collaboration_assignment (V:=Tree.t) "a1" "d"). split; [constructor|done]. Qed.
End DemoCollab.

Section Witnesses.
Import DemoCollab.

Lemma collab_tables_sound_witness : collab_ok (final (thread_deleted "t1") claimed.(tables)).
Proof.
  apply (Properties.collab_tables_sound (V:=Tree.t) start (mkCoord claimed.(core) (final (thread_deleted "t1") claimed.(tables))) start_ok).
  eapply rtc_r; [eapply rtc_subrel; [|exact claims]; by left|]. right. by exists "t1".
Defined.

Lemma assignment_lifecycle_witness :
  exists r' st', r' ∈ claimed.(tables).(assignments) /\ r'.(AssignmentRow.id) = "a1" /\ status_is r' st' /\ rtc lifecycle Queued st'.
Proof.
  destruct (Properties.assignment_lifecycle start claimed start_ok claims) as [Hfwd _].
  destruct (Hfwd (assignment "a1" "t1" "queued" None None) Queued) as (r' & st' & Hin & (Hid & _) & Hst & Hl);
    [by left|done|]. by exists r', st'.
Defined.

Lemma stale_lease_fenced_witness :
  renew_collaboration_lease (V:=Tree.t) "a2" "tok" claimed = (claimed, Err stale_lease_error).
Proof.
  apply (Properties.stale_lease_fenced start claimed 100 "a2" "tok" (assignment "a2" "t2" "running" (Some "sha of tok") (Some 90)));
    [intros y; by exists 100|exact start_ok|by right; left|done|done|by vm_compute|exact claims|constructor].
Defined.

Lemma claimed_once_witness :
  exists s1 c, claim_collaboration_assignment (V:=Tree.t) "a1" "d" start = (s1, Ok c) /\
    forall s3 c', claim_collaboration_assignment (V:=Tree.t) "a1" "d" s1 <> (s3, Ok c').
Proof.
  destruct (claim_collaboration_assignment (V:=Tree.t) "a1" "d" start) as [s1 [c|e]] eqn:Hc; [|by vm_compute in Hc].
  exists s1, c. split; [done|]. exact (Properties.claimed_once start s1 s1 "a1" "d" c start_ok Hc (rtc_refl _ _) "d").
Defined.

Lemma review_settles_witness :
  assignment "a3" "t3" "completed" None None ∈ (final (apply_collaboration_change_set (V:=Tree.t) "c3" false) start).(tables).(assignments).
Proof.
  destruct (apply_collaboration_change_set (V:=Tree.t) "c3" false start) as [s' [c|e]] eqn:Hc; [|by vm_compute in Hc].
  unfold final. rewrite Hc. cbn [fst].
  refine (proj1 (Properties.review_settles start s' _ c "c3" false (assignment "a3" "t3" "review" None None) (or_introl eq_refl) Hc _ _ _ _));
    [by right; right; left|vm_compute in Hc; by injection Hc as <- <-|done|vm_compute in Hc; by injection Hc as <- <-].
Defined.

Lemma expired_leases_end_witness :
  ended LeaseExpired 100 (Some "device lease expired") (assignment "a2" "t2" "running" (Some "sha of tok") (Some 90))
    ∈ (final (expire_collaboration_leases (V:=Tree.t)) start).(tables).(assignments).
Proof.
  exact (proj1 (Properties.expired_leases_end start 100 (assignment "a2" "t2" "running" (Some "sha of tok") (Some 90))
    (fun _ => eq_refl) start_ok ltac:(by right; left) eq_refl)).
Defined.
End Witnesses.
