(* ===== verification/Scheduler.v ===== *)
(** * The scheduler (crates/am-core/src/scheduler.rs)

    One tick resumes what can go on: queued tasks and threads, those whose limit
    has been lifted, those whose network is back, and the paused plans whose gate
    is done.  A phase reads a batch of records, oldest first, and starts them one
    by one; an error ends the phase, not the tick.  The reset timer is
    in [Limits]. *)
From Stdlib Require Import Ascii String.
From S2P Require Import Prelude RustStr Json Enums Records Gating Limits Budget SqlTable AgentDb CoreWorld ThreadFallback.
#[local] Open Scope string_scope.
#[local] Open Scope Z_scope.

Definition SCHEDULER_BATCH_LIMIT : Z := 32.

Definition scheduler_start_error_is_retryable (error : string) : bool :=
  contains "already running" error || contains "maximum concurrent" error.

Definition agent_record_ready_for_retry (record : option AgentRecord.t) (ts : Z) : bool :=
  match record with
  | Some record =>
      if bool_decide (record.(AgentRecord.availability) = AvailabilityState.Limited)
      then is_some_and record.(AgentRecord.reset_at) (fun reset_at => reset_at <=? ts)
      else true
  | None => true
  end.

Definition task_status_update (status : TaskStatus.t) : TaskUpdate.t :=
  TaskUpdate.mk None None (Some status) None None None None None None None None.
Definition primary_agent_update (agent : AgentKind.t) : TaskUpdate.t :=
  TaskUpdate.mk None None None None (Some agent) None None None None None None.
Definition thread_status_update (status : TaskStatus.t) : AgentThreadUpdate.t :=
  AgentThreadUpdate.mk None (Some status) None None None None None None None None None None None None None None None
    None None None None None.

(** ** Who resumes a limited thread *)

(** [thread.active_agent.or(thread.preferred_agent)]. *)
Definition current_agent (thread : AgentThread.t) : option AgentKind.t :=
  opt_or thread.(AgentThread.active_agent) thread.(AgentThread.preferred_agent).

Definition thread_resume_account (thread : AgentThread.t) (policy : LimitPolicy.t)
  (statuses : list ProviderAccountStatus.t) : option ProviderAccountStatus.t :=
  find (fun s =>
    s.(ProviderAccountStatus.installed) && s.(ProviderAccountStatus.account).(ProviderAccount.enabled) &&
    s.(ProviderAccountStatus.authenticated) &&
    negb (bool_decide (s.(ProviderAccountStatus.availability) = AvailabilityState.Limited)) &&
    ((policy.(LimitPolicy.auto_switch) && policy.(LimitPolicy.resume_with_earliest)) ||
     match thread.(AgentThread.provider_account_id) with
     | Some id => String.eqb s.(ProviderAccountStatus.account).(ProviderAccount.id) id
     | None => bool_decide (Some s.(ProviderAccountStatus.account).(ProviderAccount.agent) = current_agent thread)
     end)) statuses.

Definition status_ready_for (statuses : list AgentStatus.t) (agent : AgentKind.t) : bool :=
  existsb (fun status =>
    bool_decide (status.(AgentStatus.kind) = agent) && status.(AgentStatus.installed) &&
    status.(AgentStatus.authenticated) &&
    negb (bool_decide (status.(AgentStatus.availability) = AvailabilityState.Limited))) statuses.

Definition thread_resume_agent (thread : AgentThread.t) (policy : LimitPolicy.t) (statuses : list AgentStatus.t) :
  option AgentKind.t :=
  let order := match current_agent thread with Some agent => [agent] | None => [] end in
  let order :=
    if policy.(LimitPolicy.resume_with_earliest)
    then foldl push_new order policy.(LimitPolicy.agent_priority)
    else order in
  find (status_ready_for statuses) order.

Definition account_status_ready (status : ProviderAccountStatus.t) : bool :=
  status.(ProviderAccountStatus.account).(ProviderAccount.enabled) && status.(ProviderAccountStatus.authenticated) &&
  negb (bool_decide (status.(ProviderAccountStatus.availability) = AvailabilityState.Limited)).

Section Scheduler.
Context {V : Type} `{Json V} `{!BudgetSerde V} {E : Type} `{CoreServices E}.

Definition read_tasks (status : TaskStatus.t) : W E (list Task.t) :=
  on_db (Tasks.list_for_status status SCHEDULER_BATCH_LIMIT).
Definition read_threads (status : TaskStatus.t) : W E (list AgentThread.t) :=
  on_db (Threads.list_for_status (V:=V) status SCHEDULER_BATCH_LIMIT).
Definition update_task (id : string) (patch : TaskUpdate.t) : W E Task.t :=
  ts ← call now;
  on_db (Tasks.update ts id patch).
Definition update_thread (id : string) (patch : AgentThreadUpdate.t) : W E AgentThread.t :=
  ts ← call now;
  on_db (Threads.update (V:=V) ts id patch).

Definition scheduler_has_capacity : W E bool :=
  effective ← call sync_session_capacity;
  active ← gets (fun w => active_count w.(sys));
  mret (active <? effective).

(** ** Starting a task *)

Definition handle_scheduler_start_error (task : Task.t) (agent : AgentKind.t) (err : CoreError) : W E () :=
  let error := error_text err in
  let retryable := scheduler_start_error_is_retryable error in
  _ ← note (Some task.(Task.project_id)) (Some task.(Task.id)) "scheduler.start_failed";
  if retryable then mret ()
  else
    updated ← attempt (update_task task.(Task.id) (task_status_update TaskStatus.Paused));
    match updated with
    | Some updated => publish (TaskUpdated updated)
    | None => mret ()
    end.

Definition try_scheduler_start (task : Task.t) (kind : string) : W E () :=
  match task.(Task.primary_agent) with
  | None => mret ()
  | Some agent =>
      active ← is_active task.(Task.id);
      if (active : bool) then mret ()
      else
        _ ← note (Some task.(Task.project_id)) (Some task.(Task.id)) kind;
        _ ← launched (RunTask task.(Task.id) agent PermissionPolicy.WorkspaceWrite);
        started ← try_ (call (run_task task.(Task.id) agent PermissionPolicy.WorkspaceWrite));
        match started with
        | Ok _ => note (Some task.(Task.project_id)) (Some task.(Task.id)) "scheduler.started"
        | Err err => handle_scheduler_start_error task agent err
        end
  end.

(** ** Starting a thread *)

Definition handle_thread_scheduler_start_error (thread : AgentThread.t) (agent : AgentKind.t) (err : CoreError) : W E () :=
  let error := error_text err in
  let retryable := scheduler_start_error_is_retryable error in
  _ ← note thread.(AgentThread.project_id) None "scheduler.thread_start_failed";
  if retryable then mret ()
  else
    updated ← attempt (update_thread thread.(AgentThread.id) (thread_status_update TaskStatus.Paused));
    match updated with
    | Some updated => publish (AgentThreadUpdated updated)
    | None => mret ()
    end.

(** The switch recorded when another agent resumes the thread. *)
Definition switched_to (agent : AgentKind.t) (latest : AgentThread.t) : AgentThread.t :=
  let latest :=
    match latest.(AgentThread.original_agent) with
    | None => AgentThread.set_original_agent latest.(AgentThread.active_agent) latest
    | Some _ => latest
    end in
  let latest := AgentThread.set_fallback_agent (Some agent) latest in
  let latest := AgentThread.set_active_agent (Some agent) latest in
  let latest :=
    if bool_decide (latest.(AgentThread.execution_backend) = ExecutionBackend.DockerSandbox) &&
       negb (bool_decide (agent = AgentKind.Codex))
    then AgentThread.set_execution_backend ExecutionBackend.Host latest else latest in
  AgentThread.set_handoff_state "fallback_active" latest.

Definition record_switch (thread : AgentThread.t) (agent : AgentKind.t) : W E () :=
  if bool_decide (thread.(AgentThread.active_agent) = Some agent) then mret ()
  else with_thread (V:=V) thread.(AgentThread.id) (fun latest => save_and (V:=V) (switched_to agent latest) (fun _ => mret ())).

Definition try_thread_scheduler_start (thread : AgentThread.t) (agent : AgentKind.t) (kind : string) : W E () :=
  active ← is_active thread.(AgentThread.id);
  if (active : bool) then mret ()
  else
    _ ← record_switch thread agent;
    _ ← note thread.(AgentThread.project_id) None kind;
    started ← try_ (run_thread thread.(AgentThread.id) agent (parse_permission thread.(AgentThread.permission)) None);
    match started with
    | Ok _ => note thread.(AgentThread.project_id) None "scheduler.thread_started"
    | Err err => handle_thread_scheduler_start_error thread agent err
    end.

(** ** The phases *)

Definition run_queued_continuations : W E () :=
  capacity ← scheduler_has_capacity;
  if negb capacity then mret ()
  else
    tasks ← read_tasks TaskStatus.Queued;
    for_each (fun task => try_scheduler_start task "scheduler.queued_continue") tasks.

Definition run_network_continuations : W E () :=
  policy ← unwrap_or get_local_model_policy default_local_model_policy;
  if negb policy.(LocalModelPolicy.auto_resume_cloud) then mret ()
  else
    tasks ← read_tasks TaskStatus.WaitingForNetwork;
    match tasks with
    | [] => mret ()
    | _ =>
        stable ← call (cloud_connectivity_stable policy);
        if negb stable then mret ()
        else for_each (fun task => try_scheduler_start task "scheduler.network_restored_continue") tasks
    end.

Definition limit_wait_ready (task : Task.t) : W E bool :=
  configured ← provider_accounts_configured;
  if (configured : bool) then
    statuses ← call provider_account_statuses;
    mret (existsb account_status_ready statuses)
  else
    match task.(Task.primary_agent) with
    | None => mret false
    | Some agent =>
        record ← call (agent_record agent);
        ts ← call now;
        mret (agent_record_ready_for_retry record ts)
    end.

(** One task of the reset batch. *)
Definition reset_step (policy : LimitPolicy.t) (ready_account_agent : option AgentKind.t) (task : Task.t) : W E () :=
  match ready_account_agent with
  | Some agent =>
      task ← (if bool_decide (task.(Task.primary_agent) = Some agent) then mret task
              else update_task task.(Task.id) (primary_agent_update agent));
      try_scheduler_start task "scheduler.account_available_continue"
  | None =>
      if bool_decide (policy.(LimitPolicy.accounts) = []) then
        ready ← limit_wait_ready task;
        if (ready : bool) then try_scheduler_start task "scheduler.limit_reset_continue" else mret ()
      else mret ()
  end.

Definition run_reset_continuations : W E () :=
  capacity ← scheduler_has_capacity;
  if negb capacity then mret ()
  else
    tasks ← read_tasks TaskStatus.WaitingForLimit;
    policy ← unwrap_or get_limit_policy default_limit_policy;
    ready_account_agent ←
      (if bool_decide (policy.(LimitPolicy.accounts) = []) then mret None
       else
         statuses ← call provider_account_statuses;
         mret ((fun s => s.(ProviderAccountStatus.account).(ProviderAccount.agent)) <$> find account_status_ready statuses));
    for_each (reset_step policy ready_account_agent) tasks.

Definition run_thread_queued_continuations : W E () :=
  capacity ← scheduler_has_capacity;
  if negb capacity then mret ()
  else
    threads ← read_threads TaskStatus.Queued;
    for_each (fun thread =>
      match current_agent thread with
      | None => mret ()
      | Some agent => try_thread_scheduler_start thread agent "scheduler.thread_queued_continue"
      end) threads.

Definition run_resumable_work_plans : W E () :=
  plans ← call list_paused_plan_runs;
  for_each (fun plan =>
    match plan.(WorkPlanRun.resume_after_node_id) with
    | None => mret ()
    | Some node_id =>
        node ← call (get_work_node node_id);
        if is_some_and node (fun node => bool_decide (node.(WorkNode.status) = TaskStatus.Done))
        then _ ← attempt (call (resume_work_plan plan.(WorkPlanRun.id))); mret ()
        else mret ()
    end) plans.

(** The agent that resumes a limited thread, if one can. *)
Definition resuming_agent (policy : LimitPolicy.t) (statuses : list AgentStatus.t)
  (account_statuses : list ProviderAccountStatus.t) (thread : AgentThread.t) : option AgentKind.t :=
  opt_or ((fun s => s.(ProviderAccountStatus.account).(ProviderAccount.agent)) <$>
            thread_resume_account thread policy account_statuses)
    (if bool_decide (policy.(LimitPolicy.accounts) = []) then thread_resume_agent thread policy statuses else None).

Definition run_thread_reset_continuations : W E () :=
  capacity ← scheduler_has_capacity;
  if negb capacity then mret ()
  else
    threads ← read_threads TaskStatus.WaitingForLimit;
    match threads with
    | [] => mret ()
    | _ =>
        statuses ← call detect_agents;
        policy ← unwrap_or get_limit_policy default_limit_policy;
        account_statuses ← (if bool_decide (policy.(LimitPolicy.accounts) = []) then mret []
                            else unwrap_or provider_account_statuses []);
        for_each (fun thread =>
          match resuming_agent policy statuses account_statuses thread with
          | Some agent => try_thread_scheduler_start thread agent "scheduler.thread_limit_reset_continue"
          | None => mret ()
          end) threads
    end.

Definition network_step (policy : LocalModelPolicy.t) (network_stable : bool) (thread : AgentThread.t) : W E () :=
  active ← is_active thread.(AgentThread.id);
  if (active : bool) then mret ()
  else if network_stable then
    match opt_or thread.(AgentThread.original_agent) (current_agent thread) with
    | Some agent =>
        resume_thread_cloud_after_network (V:=V) thread.(AgentThread.id) agent "scheduler.thread_network_restored_continue"
    | None => mret ()
    end
  else if policy.(LocalModelPolicy.use_local_fallback) && bool_decide (thread.(AgentThread.local_provider) = None) then
    match current_agent thread with
    | Some agent =>
        target ← attempt (call (best_ready_local_target policy));
        match target with
        | Some (Some target) => start_thread_local_fallback (V:=V) thread.(AgentThread.id) agent target policy
        | _ => mret ()
        end
    | None => mret ()
    end
  else mret ().

Definition run_thread_network_continuations : W E () :=
  policy ← unwrap_or get_local_model_policy default_local_model_policy;
  threads ← read_threads TaskStatus.WaitingForNetwork;
  match threads with
  | [] => mret ()
  | _ =>
      network_stable ← (if policy.(LocalModelPolicy.auto_resume_cloud) || policy.(LocalModelPolicy.switch_back_to_cloud)
                        then call (cloud_connectivity_stable policy) else mret false);
      for_each (network_step policy network_stable) threads
  end.

(** [if let Err(err) = phase { let _ = self.activity(..) }]. *)
Definition phase (m : W E ()) : W E () :=
  result ← try_ m;
  match result with
  | Ok _ => mret ()
  | Err _ => note None None "scheduler.tick_failed"
  end.

Definition phases : list (W E ()) :=
  [run_queued_continuations; run_reset_continuations; run_network_continuations; run_thread_queued_continuations;
   run_thread_network_continuations; run_thread_reset_continuations; call run_cloud_monitor_tick;
   call run_cloud_checkpoints; run_resumable_work_plans].

Definition run_scheduler_tick : W E () := for_each phase phases.
End Scheduler.
