(* ===== verification/SchedulerProps.v ===== *)
(** * The scheduler: laws

    What a tick launches and what it leaves alone: exactly what its phases launch
    ([exactly]), each record in the state of its turn ([visited]). *)
From Stdlib Require Import Ascii String.
From S2P Require Import Prelude RustStr Json Enums Records WorkGraphDb WorkGraphInv Gating Limits Budget SqlTable AgentDb AgentDbProps AgentDbTheorems CoreWorld ThreadFallback CoreDemo Scheduler.
#[local] Open Scope string_scope.
#[local] Open Scope Z_scope.

(** ** Launch histories *)
Section Launches.
Context {V : Type} `{Json V} `{!BudgetSerde V} {E : Type} `{CoreServices E}.

(** Running [m] launches nothing. *)
Definition launchless {A} (m : W E A) : Prop := forall w, (final m w).(launches) = w.(launches).

Lemma launchless_call {A} (m : SysM E A) : launchless (call m).
Proof. intros w. unfold final, call. by destruct (m (sys w)). Qed.

Lemma launchless_on_db {A} (m : M AgentDb DbError A) : launchless (on_db m).
Proof. intros w. unfold final, on_db. by destruct (m (db (sys w))). Qed.

Lemma launchless_then_db {A B} (m : SysM E A) (f : A -> M AgentDb DbError B) : launchless (x ← call m; on_db (f x)).
Proof.
  intros w. pose proof (launchless_call m w) as Hl. unfold final in *. rewrite M_bind_unfold.
  destruct (call m w) as [w' [x|e]]; [|done]. cbn in Hl. rewrite <- Hl. apply launchless_on_db.
Qed.

(** *** What each start launches *)
Definition task_launch (task : Task.t) : list Launch :=
  match task.(Task.primary_agent) with
  | Some agent => [RunTask task.(Task.id) agent PermissionPolicy.WorkspaceWrite]
  | None => []
  end.

Definition thread_launch (agent : option AgentKind.t) (thread : AgentThread.t) : list Launch :=
  match agent with
  | Some agent => [RunThread thread.(AgentThread.id) agent (parse_permission thread.(AgentThread.permission)) None]
  | None => []
  end.

End Launches.

(** ** Exactly what is launched *)
Section Exactly.
Context {V : Type} `{Json V} `{!BudgetSerde V} {E : Type} `{CoreServices E}.

(** [m] cannot fail and launches [l]. *)
Definition exactly {A} (l : list Launch) (m : W E A) : Prop :=
  forall w, exists w' a, m w = (w', Ok a) /\ w'.(launches) = (w.(launches) ++ l)%list.

Lemma exactly_ret {A} (a : A) : exactly [] (mret a : W E A).
Proof. intros w. exists w, a. by rewrite app_nil_r. Qed.

Lemma exactly_bind {A B} l1 l2 (m : W E A) (f : A -> W E B) :
  exactly l1 m -> (forall a, exactly l2 (f a)) -> exactly (l1 ++ l2)%list (m ≫= f).
Proof.
  intros Hm Hf w. destruct (Hm w) as (w' & a & Hw & Hl). destruct (Hf a w') as (w'' & b & Hw' & Hl').
  exists w'', b. rewrite M_bind_unfold, Hw, Hl', Hl, app_assoc. done.
Qed.

Lemma exactly_then {A B} l (m : W E A) (f : A -> W E B) : exactly [] m -> (forall a, exactly l (f a)) -> exactly l (m ≫= f).
Proof. apply (exactly_bind []). Qed.

Lemma exactly_attempt {A} (m : W E A) : launchless m -> exactly [] (attempt m).
Proof.
  intros Hm w. specialize (Hm w). unfold attempt, final in *. rewrite app_nil_r.
  destruct (m w) as [w' [a|e]]; eexists _, _; done.
Qed.

Lemma exactly_try {A} l (m : W E A) : (forall w, (final m w).(launches) = (w.(launches) ++ l)%list) -> exactly l (try_ m).
Proof. intros Hm w. specialize (Hm w). unfold try_, final in *. destruct (m w) as [w' r]. by eexists _, _. Qed.

Lemma exactly_publish e : exactly [] (publish e : W E ()).
Proof. intros w. eexists _, _. by rewrite app_nil_r. Qed.

Lemma exactly_note p t k : exactly [] (note p t k).
Proof. apply exactly_then; [apply exactly_attempt, launchless_call|intros; apply exactly_ret]. Qed.

Lemma exactly_unit l (m : W E ()) w :
  exactly l m -> exists w', m w = (w', Ok ()) /\ w'.(launches) = (w.(launches) ++ l)%list.
Proof. intros Hm. destruct (Hm w) as (w' & [] & ? & ?). by exists w'. Qed.

Lemma exactly_task_error task agent err : exactly [] (handle_scheduler_start_error task agent err).
Proof.
  apply exactly_then; [apply exactly_note|]. intros _. case_match; [apply exactly_ret|].
  apply exactly_then; [apply exactly_attempt, launchless_then_db|]. intros [u|]; [apply exactly_publish|apply exactly_ret].
Qed.

Lemma exactly_thread_error thread agent err : exactly [] (handle_thread_scheduler_start_error (V:=V) thread agent err).
Proof.
  apply exactly_then; [apply exactly_note|]. intros _. case_match; [apply exactly_ret|].
  apply exactly_then; [apply exactly_attempt, launchless_then_db|]. intros [u|]; [apply exactly_publish|apply exactly_ret].
Qed.

Lemma exactly_switch thread agent : exactly [] (record_switch (V:=V) thread agent).
Proof.
  unfold record_switch. case_match; [apply exactly_ret|].
  apply exactly_then; [apply exactly_attempt, launchless_on_db|]. intros [[latest|]|]; [|apply exactly_ret..].
  apply exactly_then; [apply exactly_attempt, launchless_then_db|].
  intros [saved|]; [|apply exactly_ret]. apply exactly_then; [apply exactly_publish|intros; apply exactly_ret].
Qed.

(** *** A start launches the record's agent if, at that moment, no session of it is active *)
Definition task_due (task : Task.t) (w : World E) : list Launch :=
  if session_active task.(Task.id) w.(sys) then [] else task_launch task.

Definition thread_due (thread : AgentThread.t) (w : World E) : list Launch :=
  if session_active thread.(AgentThread.id) w.(sys) then [] else thread_launch (current_agent thread) thread.

Lemma task_started task kind w :
  exists w', try_scheduler_start task kind w = (w', Ok ()) /\ w'.(launches) = (w.(launches) ++ task_due task w)%list.
Proof.
  unfold try_scheduler_start, task_due, task_launch. destruct (Task.primary_agent task) as [agent|].
  2: { exists w. destruct (session_active _ _); by rewrite app_nil_r. }
  rewrite M_bind_unfold. cbn [is_active gets]. destruct (session_active _ (sys w)); [exists w; by rewrite app_nil_r|].
  apply exactly_unit, exactly_then; [apply exactly_note|]. intros _.
  apply (exactly_bind [_] []); [intros w'; by eexists _, _|]. intros _.
  apply exactly_then; [apply exactly_try; intros w'; rewrite app_nil_r; apply launchless_call|].
  intros [id|e]; [apply exactly_note|apply exactly_task_error].
Qed.

Lemma thread_started thread agent kind w :
  exists w', try_thread_scheduler_start (V:=V) thread agent kind w = (w', Ok ()) /\
    w'.(launches) = (w.(launches) ++
      (if session_active thread.(AgentThread.id) w.(sys) then [] else thread_launch (Some agent) thread))%list.
Proof.
  unfold try_thread_scheduler_start. rewrite M_bind_unfold. cbn [is_active gets].
  destruct (session_active _ (sys w)); [exists w; by rewrite app_nil_r|].
  apply exactly_unit, exactly_then; [apply exactly_switch|]. intros _.
  apply exactly_then; [apply exactly_note|]. intros _. apply (exactly_bind [_] []).
  - apply exactly_try. intros w'. exact (launchless_call _ _).
  - intros [id|e]; [apply exactly_note|apply exactly_thread_error].
Qed.

(** *** A batch, one record after the other

    Each record with the state it is handled in; an error ends the batch. *)
Fixpoint visited {A} (f : A -> W E ()) (batch : list A) (w : World E) : list (A * World E) :=
  match batch with
  | [] => []
  | a :: rest =>
      (a, w) :: match f a w with
                | (w', Ok _) => visited f rest w'
                | (_, Err _) => []
                end
  end.

Lemma batch_launches {A} (f : A -> W E ()) (g : A * World E -> list Launch) batch w :
  (forall a w, (final (f a) w).(launches) = (w.(launches) ++ g (a, w))%list) ->
  (final (for_each f batch) w).(launches) = (w.(launches) ++ flat_map g (visited f batch w))%list.
Proof.
  intros Hf. revert w. induction batch as [|a batch IH]; intros w; cbn [for_each visited flat_map]; [by rewrite app_nil_r|].
  specialize (Hf a w). unfold final in *. rewrite M_bind_unfold.
  destruct (f a w) as [w' [[]|e]]; cbn in Hf; cbn [flat_map fst]; [by rewrite IH, Hf, app_assoc|by rewrite Hf, app_nil_r].
Qed.

Lemma batch_completes {A} (f : A -> W E ()) batch w :
  (forall a w, exists w', f a w = (w', Ok ())) ->
  value (for_each f batch) w = Ok () /\ fst <$> visited f batch w = batch.
Proof.
  intros Hf. revert w. induction batch as [|a batch IH]; intros w; [done|]. destruct (Hf a w) as [w' Hw'].
  unfold value in *. cbn [for_each visited]. rewrite M_bind_unfold, Hw'. destruct (IH w') as [Hv Hl].
  split; [exact Hv|]. cbn. by f_equal.
Qed.

Lemma visited_completed {A} (f : A -> W E ()) batch w :
  value (for_each f batch) w = Ok () -> fst <$> visited f batch w = batch.
Proof.
  revert w. induction batch as [|a batch IH]; intros w; [done|]. unfold value in *. cbn [for_each visited].
  rewrite M_bind_unfold. destruct (f a w) as [w' [[]|e]]; [|done]. intros Hv. cbn. f_equal. by apply IH.
Qed.

Lemma visited_Forall {A} (f : A -> W E ()) (P : A * World E -> Prop) batch w :
  (forall a w, P (a, w)) -> Forall P (visited f batch w).
Proof.
  intros HP. revert w. induction batch as [|a batch IH]; intros w; cbn; constructor; [done|].
  destruct (f a w) as [w' [[]|e]]; [apply IH|constructor].
Qed.

Lemma on_db_ok {A} (m : M AgentDb DbError A) (w : World E) d a :
  m w.(sys).(db) = (d, Ok a) -> d = w.(sys).(db) -> on_db m w = (w, Ok a).
Proof. intros Hm ->. unfold on_db. rewrite Hm. by destruct w as [[]]. Qed.
End Exactly.

(** ** Batches *)
Lemma task_status_column r x : task_try_from r = Ok x -> decode r.(TaskRow.status) = Ok x.(Task.status).
Proof. unfold task_try_from. destruct (decode (T:=TaskStatus.t) r.(TaskRow.status)) eqn:?; [|done]. by decode_row. Qed.

Section Batches.
Context {V : Type} `{JsonOk V} `{!BudgetSerde V} `{!BudgetSerdeOk V} {E : Type} `{CoreServices E}.

Lemma task_batch status d tasks :
  value (Tasks.list_for_status status SCHEDULER_BATCH_LIMIT) d = Ok tasks ->
  (length tasks <= 32)%nat /\ Forall (fun t => t.(Task.status) = status) tasks.
Proof.
  intros [Hlen Hall]%(fetch_limit_inv (T:=Task.t)); [|done]. split; [unfold SCHEDULER_BATCH_LIMIT in Hlen; lia|].
  eapply Forall_impl; [exact Hall|]. intros t (r & _ & Hr & Ht). cbn in Hr.
  by apply (decode_is _ _ status (task_status_column r t Ht)).
Qed.

Lemma thread_batch status d threads :
  value (Threads.list_for_status (V:=V) status SCHEDULER_BATCH_LIMIT) d = Ok threads ->
  (length threads <= 32)%nat /\ Forall (fun t => t.(AgentThread.status) = status) threads.
Proof.
  intros [Hlen Hall]%(fetch_limit_inv (T:=AgentThread.t)); [|done]. split; [unfold SCHEDULER_BATCH_LIMIT in Hlen; lia|].
  eapply Forall_impl; [exact Hall|]. intros t (r & _ & Hr & Ht). cbn in Hr.
  by apply (decode_is _ _ status (thread_status_decodes r t Ht)).
Qed.

(** What the queue phase does with one thread. *)
Definition start_queued_thread (thread : AgentThread.t) : W E () :=
  match current_agent thread with
  | None => mret ()
  | Some agent => try_thread_scheduler_start (V:=V) thread agent "scheduler.thread_queued_continue"
  end.

Lemma queued_thread_started thread w :
  exists w', start_queued_thread thread w = (w', Ok ()) /\ w'.(launches) = (w.(launches) ++ thread_due thread w)%list.
Proof.
  unfold start_queued_thread, thread_due. destruct (current_agent thread) as [agent|].
  - apply thread_started.
  - exists w. destruct (session_active _ _); by rewrite app_nil_r.
Qed.

Lemma read_ok {A} (m : M AgentDb DbError (list A)) (w : World E) batch :
  (forall d, final m d = d) -> value m w.(sys).(db) = Ok batch -> on_db m w = (w, Ok batch).
Proof.
  intros Hm Hv. apply (on_db_ok m w w.(sys).(db) batch); [|done]. unfold value in Hv. specialize (Hm w.(sys).(db)).
  unfold final in Hm. by rewrite (surjective_pairing (m _)), Hm, Hv.
Qed.

(** A phase that has capacity goes through its batch. *)
Lemma after_capacity {A} (m : W E (list A)) (k : list A -> W E ()) w w1 batch :
  scheduler_has_capacity w = (w1, Ok true) -> m w1 = (w1, Ok batch) ->
  (capacity ← scheduler_has_capacity; if negb capacity then mret () else batch ← m; k batch) w = k batch w1.
Proof. intros Hcap Hm. rewrite M_bind_unfold, Hcap. cbn [negb]. by rewrite M_bind_unfold, Hm. Qed.
End Batches.

(** ** The wait for a limit *)
Section Reset.
Context {V : Type} `{JsonOk V} `{!BudgetSerde V} {E : Type} `{CoreServices E}.

Definition with_sys (s : Sys E) (w : World E) : World E := mkWorld s w.(events) w.(launches).

(** An account a task can run on. *)
Definition account_ready (s : ProviderAccountStatus.t) : Prop :=
  s.(ProviderAccountStatus.account).(ProviderAccount.enabled) = true /\ s.(ProviderAccountStatus.authenticated) = true /\
  s.(ProviderAccountStatus.availability) <> AvailabilityState.Limited.

(** At the time [ts] the record says that the agent is not limited, or that its
    reset has come; an agent without a record is not limited. *)
Definition limit_over (record : option AgentRecord.t) (ts : Z) : Prop :=
  forall r, record = Some r -> r.(AgentRecord.availability) = AvailabilityState.Limited ->
  exists reset_at, r.(AgentRecord.reset_at) = Some reset_at /\ reset_at <= ts.

Lemma account_ready_spec s : account_status_ready s = true <-> account_ready s.
Proof.
  unfold account_status_ready, account_ready. rewrite !andb_true_iff, negb_true_iff, bool_decide_eq_false. tauto.
Qed.

Lemma limit_over_spec record ts : agent_record_ready_for_retry record ts = true <-> limit_over record ts.
Proof.
  unfold limit_over. destruct record as [r|]; [|by split; [intros _ r [=]|]]. cbn. case_bool_decide as Hlim.
  - split.
    + intros Hr ? [= <-] _. destruct (AgentRecord.reset_at r) as [at_|]; [|done]. exists at_. split; [done|]. by apply Z.leb_le.
    + intros Hr. destruct (Hr r eq_refl Hlim) as (at_ & -> & Hle). by apply Z.leb_le.
  - split; [by intros _ ? [= <-] ?|done].
Qed.

(** The wait of [task] is over in [w].  Without provider accounts that is what the
    record of the task's own agent says at the time of the clock; with accounts
    configured, that one of them is ready. *)
Definition wait_over (task : Task.t) (w : World E) : Prop :=
  let '(s, policy) := get_limit_policy w.(sys) in
  if (match policy with Ok p => negb (bool_decide (p.(LimitPolicy.accounts) = [])) | Err _ => false end) then
    exists s' statuses st, provider_account_statuses s = (s', Ok statuses) /\ st ∈ statuses /\ account_ready st
  else
    exists agent s' record s'' ts, task.(Task.primary_agent) = Some agent /\ agent_record agent s = (s', Ok record) /\
      now s' = (s'', Ok ts) /\ limit_over record ts.

Lemma configured_spec w :
  provider_accounts_configured w =
  (with_sys (final get_limit_policy w.(sys)) w,
   Ok (match value get_limit_policy w.(sys) with Ok p => negb (bool_decide (p.(LimitPolicy.accounts) = [])) | Err _ => false end)).
Proof.
  unfold provider_accounts_configured, attempt, call, final, value. rewrite M_bind_unfold.
  by destruct (get_limit_policy (sys w)) as [s [p|e]].
Qed.

(** Reading whether the wait is over launches and publishes nothing. *)
Lemma wait_ready_spec task w :
  exists s r, limit_wait_ready task w = (with_sys s w, r) /\ (r = Ok true <-> wait_over task w).
Proof.
  unfold limit_wait_ready. rewrite M_bind_unfold, configured_spec. unfold wait_over, final, value.
  destruct (get_limit_policy (sys w)) as [s policy]. cbn [fst snd]. set (configured := match policy with Ok p => _ | Err _ => false end).
  destruct configured.
  - rewrite M_bind_unfold. unfold call. cbn. destruct (provider_account_statuses s) as [s' [statuses|e]]; cbn; eexists _, _; (split; [done|]).
    + split.
      * intros [= (st & Hin & Hst)%existsb_exists]. exists s', statuses, st. split; [done|].
        split; [by apply list_elem_of_In|by apply account_ready_spec].
      * intros (s2 & ? & st & [= <- <-] & Hin & Hst). f_equal. apply existsb_exists. exists st.
        split; [by apply list_elem_of_In|by apply account_ready_spec].
    + split; [done|]. by intros (s2 & ? & st & ? & _).
  - destruct (Task.primary_agent task) as [agent|].
    2: { exists s, (Ok false). split; [done|]. split; [done|]. by intros (agent & s2 & r & s3 & ts & ? & _). }
    rewrite M_bind_unfold. unfold call. cbn. destruct (agent_record agent s) as [s2 [record|e]] eqn:Hrec; cbn.
    2: { eexists _, _. split; [done|]. split; [done|]. intros (? & ? & r & s3 & ts & [= <-] & Hr & _). congruence. }
    rewrite M_bind_unfold. unfold call. cbn. destruct (now s2) as [s3 [ts|e]] eqn:Hnow; cbn; eexists _, _; (split; [done|]).
    + split; [intros [= Hr%limit_over_spec]; by exists agent, s2, record, s3, ts|].
      intros (? & ? & r & s4 & ts' & [= <-] & Hr & Hn & Ho). f_equal. apply limit_over_spec.
      rewrite Hrec in Hr. injection Hr as <- <-. rewrite Hnow in Hn. by injection Hn as _ <-.
    + split; [done|]. intros (? & ? & r & s4 & ts' & [= <-] & Hr & Hn & _). congruence.
Qed.

(** The task as an agent is given to it: unchanged, or with the agent stored. *)
Definition given (agent : AgentKind.t) (task task' : Task.t) (w w' : World E) : Prop :=
  task'.(Task.id) = task.(Task.id) /\ task'.(Task.primary_agent) = Some agent /\
  (if bool_decide (task.(Task.primary_agent) = Some agent) then task' = task /\ w' = w
   else update_task task.(Task.id) (primary_agent_update agent) w = (w', Ok task')).

(** What the reset phase launches for one task, [statuses] being those of the
    configured accounts. *)
Definition decided (policy : LimitPolicy.t) (statuses : list ProviderAccountStatus.t) (task : Task.t) (w : World E)
  (l : list Launch) : Prop :=
  if bool_decide (policy.(LimitPolicy.accounts) = []) then
    (wait_over task w /\ l = task_due task (final (limit_wait_ready task) w)) \/ (~ wait_over task w /\ l = [])
  else
    (exists pre st post, statuses = (pre ++ st :: post)%list /\ Forall (fun x => ~ account_ready x) pre /\ account_ready st /\
       let agent := st.(ProviderAccountStatus.account).(ProviderAccount.agent) in
       ((exists task' w', given agent task task' w w' /\ l = task_due task' w') \/
        ((exists w' e, update_task task.(Task.id) (primary_agent_update agent) w = (w', Err e)) /\ l = []))) \/
    (Forall (fun x => ~ account_ready x) statuses /\ l = []).

(** What the phase reads before it goes through the batch. *)
Definition reset_reads (w : World E) : World E * result CoreError (LimitPolicy.t * list ProviderAccountStatus.t) :=
  let '(s, policy) := get_limit_policy w.(sys) in
  let policy := match policy with Ok p => p | Err _ => default_limit_policy end in
  if bool_decide (policy.(LimitPolicy.accounts) = []) then (with_sys s w, Ok (policy, []))
  else
    let '(s', statuses) := provider_account_statuses s in
    (with_sys s' w, match statuses with Ok l => Ok (policy, l) | Err e => Err e end).

Definition first_ready (statuses : list ProviderAccountStatus.t) : option AgentKind.t :=
  (fun s => s.(ProviderAccountStatus.account).(ProviderAccount.agent)) <$> find account_status_ready statuses.

(** The launches a program adds. *)
Definition added {A} (m : W E A) (w : World E) : list Launch := drop (length w.(launches)) (final m w).(launches).

Lemma added_exactly {A} (m : W E A) w l : (final m w).(launches) = (w.(launches) ++ l)%list -> added m w = l.
Proof. intros Hl. unfold added. by rewrite Hl, drop_app_length. Qed.

Lemma first_ready_spec statuses :
  match find account_status_ready statuses with
  | Some st => exists pre post, statuses = (pre ++ st :: post)%list /\ Forall (fun x => ~ account_ready x) pre /\ account_ready st
  | None => Forall (fun x => ~ account_ready x) statuses
  end.
Proof.
  induction statuses as [|s statuses IH]; cbn; [constructor|]. destruct (account_status_ready s) eqn:Hs.
  - exists [], statuses. split_and!; [done|constructor|by apply account_ready_spec].
  - assert (~ account_ready s) as Hn by (intros Hr%account_ready_spec; congruence).
    destruct (find account_status_ready statuses) as [st|]; [|by constructor].
    destruct IH as (pre & post & -> & Hpre & Hst). exists (s :: pre), post. split_and!; [done|by constructor|done].
Qed.

Lemma updated_agent id agent (w w' : World E) task' :
  update_task id (primary_agent_update agent) w = (w', Ok task') ->
  task'.(Task.id) = id /\ task'.(Task.primary_agent) = Some agent.
Proof.
  unfold update_task. rewrite M_bind_unfold. destruct (call now w) as [w1 [ts|e]]; [|done]. unfold on_db.
  destruct (Tasks.update ts id (primary_agent_update agent) (db (sys w1))) as [d [x|e]] eqn:Hu; [|done]. intros [= _ <-].
  unfold Tasks.update in Hu. rewrite M_bind_unfold in Hu.
  destruct (Tasks.get_task id (db (sys w1))) as [d1 [[y|]|e]] eqn:Hf; [|done..].
  unfold lift_opt, lift in Hu. cbn [ok_or] in Hu. rewrite M_bind_unfold in Hu. set (patched := Tasks.patch_task _ _ _) in Hu.
  rewrite M_bind_unfold in Hu. destruct (update_rows _ _ _ : AgentDb * result DbError Z) as [d2 [n|e]]; [|done].
  injection Hu as _ <-. subst patched.
  split; [|done]. change (Task.id y = id).
  destruct (found_row (T:=Task.t) (db (sys w1)) id y) as (r & _ & _ & Hid & Hr); [exact (f_equal snd Hf)|].
  rewrite <- Hid. exact (task_id_column r y Hr).
Qed.

Lemma own_agent_decided policy task w :
  policy.(LimitPolicy.accounts) = [] ->
  exists l, (final (reset_step policy None task) w).(launches) = (w.(launches) ++ l)%list /\ decided policy [] task w l.
Proof.
  intros Hp. unfold reset_step, decided, final. rewrite !bool_decide_eq_true_2 by done. fold (final (limit_wait_ready task) w).
  destruct (wait_ready_spec task w) as (s & r & Heq & Hr). unfold final. rewrite M_bind_unfold, Heq. cbn [fst].
  destruct r as [[]|e]; [|exists []; rewrite app_nil_r; (split; [done|]); right; by rewrite <- Hr..].
  destruct (task_started task "scheduler.limit_reset_continue" (with_sys s w)) as (w' & -> & Hl).
  exists (task_due task (with_sys s w)). split; [exact Hl|]. left. split; [by apply Hr|done].
Qed.

Lemma account_decided policy statuses task w :
  policy.(LimitPolicy.accounts) <> [] ->
  exists l, (final (reset_step policy (first_ready statuses) task) w).(launches) = (w.(launches) ++ l)%list /\
    decided policy statuses task w l.
Proof.
  intros Hp. unfold reset_step, decided, final, first_ready. rewrite !bool_decide_eq_false_2 by done.
  pose proof (first_ready_spec statuses) as Hready. destruct (find account_status_ready statuses) as [st|].
  2: { exists []. rewrite app_nil_r. split; [done|]. by right. }
  destruct Hready as (pre & post & Hs & Hpre & Hst). cbn [fmap option_fmap option_map].
  set (agent := ProviderAccount.agent _). rewrite M_bind_unfold.
  assert (forall l, (exists task' w', given agent task task' w w' /\ l = task_due task' w') \/
    (exists w' e, update_task task.(Task.id) (primary_agent_update agent) w = (w', Err e)) /\ l = [] ->
    decided policy statuses task w l) as Hleft.
  { intros l Hl. unfold decided. rewrite bool_decide_eq_false_2 by done. left. by exists pre, st, post. }
  unfold decided in Hleft. rewrite bool_decide_eq_false_2 in Hleft by done.
  destruct (bool_decide (Task.primary_agent task = Some agent)) eqn:Hagent.
  - cbn. destruct (task_started task "scheduler.account_available_continue" w) as (w' & -> & Hl). exists (task_due task w).
    split; [exact Hl|]. apply Hleft. left. exists task, w. unfold given. rewrite Hagent.
    apply bool_decide_eq_true in Hagent. split_and!; done.
  - assert (launchless (update_task (E:=E) task.(Task.id) (primary_agent_update agent))) as Hsame by apply launchless_then_db.
    specialize (Hsame w). unfold final in Hsame.
    destruct (update_task _ _ w) as [w1 [task'|e]] eqn:Hu; cbn in Hsame.
    + destruct (task_started task' "scheduler.account_available_continue" w1) as (w' & -> & Hl). exists (task_due task' w1).
      split; [by rewrite <- Hsame|]. apply Hleft. left. exists task', w1. unfold given. rewrite Hagent.
      destruct (updated_agent _ _ _ _ _ Hu). done.
    + exists []. rewrite app_nil_r. split; [exact Hsame|]. apply Hleft. right. split; [by exists w1, e|done].
Qed.

(** One task of the batch. *)
Lemma step_decided policy statuses task w :
  (policy.(LimitPolicy.accounts) = [] -> statuses = []) ->
  let step := reset_step policy (first_ready statuses) task in
  (final step w).(launches) = (w.(launches) ++ added step w)%list /\ decided policy statuses task w (added step w).
Proof.
  intros Hs. cbv zeta. assert (exists l, (final (reset_step policy (first_ready statuses) task) w).(launches) =
    (w.(launches) ++ l)%list /\ decided policy statuses task w l) as (l & Hl & Hd).
  { destruct (decide (policy.(LimitPolicy.accounts) = [])) as [Hp|Hp]; [|by apply account_decided].
    rewrite (Hs Hp). by apply own_agent_decided. }
  by rewrite (added_exactly _ w l Hl).
Qed.

(** What the phase does with its batch. *)
Definition reset_batch (tasks : list Task.t) : W E () :=
  policy ← unwrap_or get_limit_policy default_limit_policy;
  ready ← (if bool_decide (policy.(LimitPolicy.accounts) = []) then mret None
           else statuses ← call provider_account_statuses; mret (first_ready statuses));
  for_each (reset_step policy ready) tasks.

Lemma reset_reads_spec tasks w :
  reset_batch tasks w =
  match reset_reads w with
  | (w', Ok (policy, statuses)) => for_each (reset_step policy (first_ready statuses)) tasks w'
  | (w', Err e) => (w', Err e)
  end.
Proof.
  unfold reset_batch, reset_reads, unwrap_or, attempt, call. rewrite !M_bind_unfold.
  destruct (get_limit_policy (sys w)) as [s [p|e]]; [|done]. cbn.
  destruct (bool_decide _); [done|]. rewrite !M_bind_unfold. cbn. by destruct (provider_account_statuses s) as [s' [l|e']].
Qed.

Lemma reset_reads_same w : 
  let '(w', r) := reset_reads w in
  w'.(launches) = w.(launches) /\
  forall policy statuses, r = Ok (policy, statuses) -> policy.(LimitPolicy.accounts) = [] -> statuses = [].
Proof.
  unfold reset_reads. destruct (get_limit_policy (sys w)) as [s policy].
  case_bool_decide as Hp; [split; [done|]; by intros ? ? [= _ <-]|]. destruct (provider_account_statuses s) as [s' [l|e]].
  all: split; [done|]. all: by intros ? ? [= <- _].
Qed.
End Reset.

(** Pushing only what is absent finds the same. *)
Lemma find_push_new {A} `{EqDecision A} (p : A -> bool) l l' : find p (foldl push_new l l') = find p (l ++ l').
Proof.
  revert l. induction l' as [|a l' IH]; intros l; cbn; [by rewrite app_nil_r|]. rewrite IH. unfold push_new.
  case_bool_decide as Ha; [|by rewrite <- app_assoc].
  rewrite !find_append. destruct (find p l) eqn:Hf; [done|]. cbn.
  by rewrite (proj1 (find_None p l) Hf a Ha).
Qed.

(** The switch recorded by the scheduler remembers the agent only: what a later
    switch-back restores is whatever the original columns held before, nothing
    outside a fallback. *)
Lemma switch_forgets_model agent original (x : AgentThread.t) :
  x.(AgentThread.original_agent) = None -> x.(AgentThread.active_agent) = Some original ->
  x.(AgentThread.original_model) = None -> x.(AgentThread.original_reasoning) = None ->
  let y := switch_back_to original (switched_to agent x) in
  y.(AgentThread.active_agent) = Some original /\ y.(AgentThread.model) = None /\ y.(AgentThread.reasoning) = None.
Proof. intros Ho _ Hm Hr. unfold switched_to. rewrite Ho. case_match; cbn; by rewrite ?Hm, ?Hr. Qed.

(** ** Properties *)
Module Properties.
Section Properties.
Context {V : Type} `{JsonOk V} `{!BudgetSerde V} `{!BudgetSerdeOk V} {E : Type} `{CoreServices E}.

(** What a tick does with one phase: run it, and on an error only note it. *)
Definition after_phase (w : World E) (m : W E ()) : World E :=
  match m w with
  | (w', Ok _) => w'
  | (w', Err _) => final (note None None "scheduler.tick_failed") w'
  end.

(** a tick always completes: each of the nine phases runs from the state the
    phases before it left, whether they succeeded or failed half-way, and a
    failure leaves only a note. *)
Theorem tick_isolates_failures w :
  run_scheduler_tick (V:=V) w = (fold_left after_phase (phases (V:=V)) w, Ok ()).
Proof.
  unfold run_scheduler_tick. generalize (phases (V:=V)). intros l. revert w. induction l as [|m l IH]; intros w; [done|].
  cbn [for_each fold_left]. rewrite M_bind_unfold.
  assert (phase m w = (after_phase w m, Ok ())) as ->; [|apply IH].
  unfold phase, after_phase, try_. rewrite M_bind_unfold. destruct (m w) as [w' [[]|e]]; [done|].
  unfold note, final, attempt. rewrite M_bind_unfold. by destruct (call _ w') as [w'' []].
Qed.

(** C34: the queue phases.  Without capacity they do nothing.  With it they go
    through all the queued records the table's query returns, at most 32, in that
    order and never fail; each record that has an agent is launched, once and with
    that agent and its permission, exactly if no session of it is active when its
    turn comes; nothing else is launched. *)
Theorem queue_phases_start_in_order (w w1 : World E) (b : bool) :
  scheduler_has_capacity w = (w1, Ok b) ->
  if b then
    (forall tasks, value (Tasks.list_for_status TaskStatus.Queued SCHEDULER_BATCH_LIMIT) w1.(sys).(db) = Ok tasks ->
       let seen := visited (fun task => try_scheduler_start task "scheduler.queued_continue") tasks w1 in
       (length tasks <= 32)%nat /\ Forall (fun t => t.(Task.status) = TaskStatus.Queued) tasks /\ fst <$> seen = tasks /\
       value run_queued_continuations w = Ok () /\
       (final run_queued_continuations w).(launches) =
         (w1.(launches) ++ flat_map (fun '(task, moment) => task_due task moment) seen)%list) /\
    (forall threads, value (Threads.list_for_status (V:=V) TaskStatus.Queued SCHEDULER_BATCH_LIMIT) w1.(sys).(db) = Ok threads ->
       let seen := visited (start_queued_thread (V:=V)) threads w1 in
       (length threads <= 32)%nat /\ Forall (fun t => t.(AgentThread.status) = TaskStatus.Queued) threads /\
       fst <$> seen = threads /\ value (run_thread_queued_continuations (V:=V)) w = Ok () /\
       (final (run_thread_queued_continuations (V:=V)) w).(launches) =
         (w1.(launches) ++ flat_map (fun '(thread, moment) => thread_due thread moment) seen)%list)
  else run_queued_continuations w = (w1, Ok ()) /\ run_thread_queued_continuations (V:=V) w = (w1, Ok ()).
Proof.
  intros Hcap. destruct b; [split|].
  - intros tasks Ht seen. pose proof (task_batch _ _ _ Ht) as [Hlen Hst]. do 2 (split; [done|]).
    unfold value, final.
    assert (run_queued_continuations w = for_each (fun task => try_scheduler_start task "scheduler.queued_continue") tasks w1) as ->
      by (by apply (after_capacity (read_tasks TaskStatus.Queued)); [|apply read_ok]).
    assert (forall t (x : World E), exists x', try_scheduler_start t "scheduler.queued_continue" x = (x', Ok ())) as Hok
      by (intros t x; destruct (task_started t "scheduler.queued_continue" x) as (x' & ? & _); by exists x').
    destruct (batch_completes _ tasks w1 Hok) as [Hv Hs]. do 2 (split; [done|]).
    apply batch_launches. intros t x. destruct (task_started t "scheduler.queued_continue" x) as (x' & Hx & Hl).
    unfold final. by rewrite Hx.
  - intros threads Ht seen. pose proof (thread_batch _ _ _ Ht) as [Hlen Hst]. do 2 (split; [done|]).
    unfold value, final.
    assert (run_thread_queued_continuations (V:=V) w = for_each (start_queued_thread (V:=V)) threads w1) as ->
      by (by apply (after_capacity (read_threads TaskStatus.Queued)); [|apply read_ok]).
    assert (forall t (x : World E), exists x', start_queued_thread (V:=V) t x = (x', Ok ())) as Hok
      by (intros t x; destruct (queued_thread_started (V:=V) t x) as (x' & ? & _); by exists x').
    destruct (batch_completes _ threads w1 Hok) as [Hv Hs]. do 2 (split; [done|]).
    apply batch_launches. intros t x. destruct (queued_thread_started (V:=V) t x) as (x' & Hx & Hl).
    unfold final. by rewrite Hx.
  - unfold run_queued_continuations, run_thread_queued_continuations. by rewrite !M_bind_unfold, Hcap.
Qed.

(** a start that fails.  A task already running or a full pool is retried: the
    tables and the events are unchanged.  Any other failure pauses the task: it
    reads back with the status paused, every other field but the time of the
    update as it was, every other task untouched, and the change is published
    last. *)
Theorem start_error_handled (task : Task.t) agent err (w : World E) x ts s :
  (forall t k, activity (Some task.(Task.project_id)) t k w.(sys) = (w.(sys), Ok ())) -> now w.(sys) = (s, Ok ts) ->
  s.(db) = w.(sys).(db) -> agent_db_ok (V:=V) w.(sys).(db) -> value (Tasks.get_task task.(Task.id)) w.(sys).(db) = Ok (Some x) ->
  let w' := final (handle_scheduler_start_error task agent err) w in
  if scheduler_start_error_is_retryable (error_text err) then w' = w
  else
    let paused := Tasks.patch_task ts (task_status_update TaskStatus.Paused) x in
    value (Tasks.get_task task.(Task.id)) w'.(sys).(db) = Ok (Some paused) /\
    (forall id, id <> task.(Task.id) -> value (Tasks.get_task id) w'.(sys).(db) = value (Tasks.get_task id) w.(sys).(db)) /\
    w'.(events) = (w.(events) ++ [TaskUpdated paused])%list /\ w'.(launches) = w.(launches) /\
    paused.(Task.status) = TaskStatus.Paused /\ paused.(Task.primary_agent) = x.(Task.primary_agent).
Proof.
  intros Hact Hnow Hs Hdb Hx w'. unfold w', handle_scheduler_start_error.
  assert (forall t k, note (Some task.(Task.project_id)) t k w = (w, Ok ())) as Hnote.
  { intros t k. unfold note, attempt, call. rewrite M_bind_unfold, Hact. cbn. by destruct w. }
  unfold final. rewrite M_bind_unfold, Hnote. destruct (scheduler_start_error_is_retryable _); [done|].
  destruct (task_updated ts task.(Task.id) (task_status_update TaskStatus.Paused) x (db (sys w)) Hdb Hx) as (d' & Hupd & Hget & Hother).
  rewrite M_bind_unfold. unfold attempt, update_task. rewrite M_bind_unfold. unfold call. rewrite Hnow. cbn.
  unfold on_db. cbn. rewrite Hs, Hupd. cbn. split_and!; done.
Qed.

(** who resumes a limited thread: the first ready agent among its own and then,
    with [resume_with_earliest], the priority list; a duplicate in the list
    changes nothing.  Without [resume_with_earliest] only the thread's own agent
    can resume it. *)
Theorem thread_resumed_by_first_ready thread policy statuses :
  thread_resume_agent thread policy statuses =
  find (status_ready_for statuses)
    (option_list (current_agent thread) ++ (if policy.(LimitPolicy.resume_with_earliest) then policy.(LimitPolicy.agent_priority) else [])).
Proof.
  unfold thread_resume_agent. assert ((match current_agent thread with Some agent => [agent] | None => [] end) =
    option_list (current_agent thread)) as -> by done.
  destruct (LimitPolicy.resume_with_earliest policy); [apply find_push_new|by rewrite app_nil_r].
Qed.

(** C33: the wait for a limit is respected.  Without capacity the reset phase does
    nothing.  With it the phase reads the waiting tasks, the policy and, if the
    policy names provider accounts, their statuses, and handles the tasks in
    order, until an error ends it; what it launches is exactly what is decided for
    each task in the state of its turn.  When no account is configured, the task's
    own agent is launched if and only if the wait is over: its record read then is
    not limited or its reset is not after the clock read then (accounts configured
    in between count instead).  When accounts are configured, the agent of the
    first ready account, stored as the task's own, is launched, whatever its
    record says, and nothing without a ready account.  A task with an active
    session is never launched. *)
Theorem limit_wait_respected (w w1 : World E) (b : bool) :
  scheduler_has_capacity w = (w1, Ok b) ->
  if b then
    forall tasks, value (Tasks.list_for_status TaskStatus.WaitingForLimit SCHEDULER_BATCH_LIMIT) w1.(sys).(db) = Ok tasks ->
      (length tasks <= 32)%nat /\ Forall (fun t => t.(Task.status) = TaskStatus.WaitingForLimit) tasks /\
      match reset_reads w1 with
      | (w2, Ok (policy, statuses)) =>
          let step := reset_step policy (first_ready statuses) in
          let seen := visited step tasks w2 in
          (final run_reset_continuations w).(launches) =
            (w1.(launches) ++ flat_map (fun '(task, moment) => added (step task) moment) seen)%list /\
          Forall (fun '(task, moment) => decided policy statuses task moment (added (step task) moment)) seen /\
          (value run_reset_continuations w = Ok () -> fst <$> seen = tasks)
      | (w2, Err e) => run_reset_continuations w = (w2, Err e) /\ w2.(launches) = w1.(launches)
      end
  else run_reset_continuations w = (w1, Ok ()).
Proof.
  intros Hcap. destruct b; [|unfold run_reset_continuations; by rewrite M_bind_unfold, Hcap].
  intros tasks Ht. pose proof (task_batch _ _ _ Ht) as [Hlen Hst]. do 2 (split; [done|]).
  assert (run_reset_continuations w =
    match reset_reads w1 with
    | (w2, Ok (policy, statuses)) => for_each (reset_step policy (first_ready statuses)) tasks w2
    | (w2, Err e) => (w2, Err e)
    end) as Hrun.
  { rewrite <- reset_reads_spec. by apply (after_capacity (read_tasks TaskStatus.WaitingForLimit) reset_batch); [|apply read_ok]. }
  pose proof (reset_reads_same w1) as Hsame. unfold final, value. rewrite Hrun. clear Hrun.
  destruct (reset_reads w1) as [w2 [[policy statuses]|e]]; [|by destruct Hsame].
  destruct Hsame as [Hl Hs]. specialize (Hs policy statuses eq_refl).
  cbv zeta. rewrite <- Hl. split_and!.
  - apply (batch_launches (reset_step policy (first_ready statuses))
      (fun '(task, moment) => added (reset_step policy (first_ready statuses) task) moment)).
    intros task x. by apply step_decided.
  - apply visited_Forall. intros task x. by apply step_decided.
  - apply visited_completed.
Qed.
End Properties.
End Properties.

Module DemoScheduler.
Import DemoCore DemoStore.

(** A task without an agent, the demo's task and chat, all queued. *)
Definition enqueue : AgentM () :=
  _ ← Tasks.create 10 "idle" (NewTask.mk "p" "Nobody" None None TaskPriority.Low None None None None None None None);
  _ ← Tasks.update 11 "idle" (task_status_update TaskStatus.Queued);
  _ ← Tasks.update 12 "t" (task_status_update TaskStatus.Queued);
  _ ← Threads.update (V:=Tree.t) 13 "h" (thread_status_update TaskStatus.Queued);
  mret ().
Definition queued_db : AgentDb := final enqueue db.

Definition waiting_db : AgentDb := final (Tasks.update 12 "t" (task_status_update TaskStatus.WaitingForLimit)) db.

(** Codex was limited until 50; it is 100. *)
Definition lifted : Env :=
  mkEnv 100 [] 2 [] [record AgentKind.Codex AvailabilityState.Limited (Some 50)]
    default_limit_policy default_local_model_policy true None [] [].

(** The demo's task as stored. *)
Definition stored_task : Task.t :=
  Task.mk "t" "p" "Fix the parser" None TaskStatus.Running TaskPriority.Medium (Some AgentKind.Codex) None
    ModelTargetKind.FrontierDefault None None None None 2 6.
End DemoScheduler.

Section Witnesses.
Import DemoCore DemoStore DemoScheduler Properties.

Lemma queue_phases_start_in_order_witness :
  let w := world DemoCore.env queued_db in
  scheduler_has_capacity w = (w, Ok true) /\
  (exists tasks, length tasks = 2%nat /\
     fst <$> visited (fun task => try_scheduler_start task "scheduler.queued_continue") tasks w = tasks /\
     (final run_queued_continuations w).(launches) =
       flat_map (fun '(task, moment) => task_due task moment)
         (visited (fun task => try_scheduler_start task "scheduler.queued_continue") tasks w)) /\
  (final run_queued_continuations w).(launches) = [RunTask "t" AgentKind.Codex PermissionPolicy.WorkspaceWrite].
Proof.
  intros w. assert (Hcap : scheduler_has_capacity w = (w, Ok true)) by reflexivity.
  split; [exact Hcap|split; [|vm_compute; reflexivity]].
  destruct (queue_phases_start_in_order (V:=Tree.t) w w true Hcap) as [Htasks _].
  eexists. destruct (Htasks _ ltac:(vm_compute; reflexivity)) as (_ & _ & Hseen & _ & Hl).
  split; [|split; [exact Hseen|exact Hl]]. reflexivity.
Defined.

Lemma limit_wait_respected_witness :
  let w := world lifted waiting_db in
  scheduler_has_capacity w = (w, Ok true) /\
  (exists task, let step := reset_step default_limit_policy None in
     (final run_reset_continuations w).(launches) =
       flat_map (fun '(task, moment) => added (step task) moment) (visited step [task] w) /\
     decided default_limit_policy [] task w (added (step task) w)) /\
  (final run_reset_continuations w).(launches) = [RunTask "t" AgentKind.Codex PermissionPolicy.WorkspaceWrite].
Proof.
  intros w. assert (Hcap : scheduler_has_capacity w = (w, Ok true)) by reflexivity.
  split; [exact Hcap|split; [|vm_compute; reflexivity]].
  pose proof (limit_wait_respected w w true Hcap) as Hreset. eexists. cbv zeta.
  destruct (Hreset [_] ltac:(vm_compute; reflexivity)) as (_ & _ & Hl & Hd & _).
  split; [exact Hl|]. inversion Hd as [|? ? Hfirst]. exact Hfirst.
Defined.

Lemma start_error_handled_witness :
  let w := world DemoCore.env db in
  let w' := final (handle_scheduler_start_error stored_task AgentKind.Codex (Other "repository has no local path")) w in
  w'.(events) = [TaskUpdated (Tasks.patch_task 100 (task_status_update TaskStatus.Paused) stored_task)].
Proof.
  destruct (start_error_handled (V:=Tree.t) stored_task AgentKind.Codex (Other "repository has no local path")
    (world DemoCore.env db) stored_task 100 (sys (world DemoCore.env db)) ltac:(done) ltac:(done) ltac:(done) db_ok
    ltac:(vm_compute; reflexivity)) as (_ & _ & He & _). exact He.
Defined.
End Witnesses.
