(* ===== verification/TaskRuns.v ===== *)
(** * The runs of tasks (crates/am-core/src/orchestrate.rs, fallback.rs)

    [run_task_inner] launches an agent on a task: a permit, the repository, the
    account, the worktree and its notes, the session to resume, the sandbox, the
    rows, the process.  [consume_session] drains the session's events and settles
    the task when they end: its rows, the notes, the permit, the sandbox and the
    locks, then the one run that may follow: after the network, after a limit, or
    the next queued message.

    The state is the core's world with the task's tables ([Desk]), the agents'
    availability, the usage ledger and the queues of messages; [effects] is the
    history of what is taken and given back.  The local variables of the consumer
    are the record [Run]. *)
From Stdlib Require Import Ascii String.
From S2P Require Import Prelude RustStr Json Enums Records Approvals WorkGraphDb WorkGraphInv Limits Budget SqlTable AgentDb ThreadText CoreWorld TaskRepos ThreadFallback TaskTexts TaskNotes TurnLoop Scheduler.
#[local] Open Scope string_scope.
#[local] Open Scope Z_scope.

Module QueuedMessage.
Record t := mk { agent : AgentKind.t; permission : PermissionPolicy.t; message : string }.
End QueuedMessage.

Inductive AccountSelection :=
| Unmanaged
| Ready (account : AccountRuntime.t)
| AccountsLimited (reset_at : option Z)
| SignedOut.

(** [SessionSpec] of a task's run; the other policy fields keep their defaults. *)
Module TaskSpec.
Record t := mk {
  worktree : string;
  prompt : string;
  model : option string;
  permission : PermissionPolicy.t;
  backend : ExecutionBackend.t;
  sandbox : option string;
  launch_env : list (string * string);
  provider_account_id : option string;
  approver : option ApprovalScope
}.
End TaskSpec.

(** What [consume_session] is started with. *)
Module Consumer.
Record t := mk {
  session_id : string;
  task_id : string;
  project_id : string;
  agent : AgentKind.t;
  permission : PermissionPolicy.t;
  lease : option string;
  account : option string
}.
End Consumer.

(** What happens outside the tables, in order. *)
Module TaskEffect.
Inductive t :=
| PermitTaken
| PermitDropped
| SandboxTaken (name : string)
| SandboxReleased (name : string)
| SandboxDropped (name : string)   (** the lease is dropped without [release] *)
| ProcessAsked (answer : result string ())   (** the adapter was asked for a process *)
| SessionRegistered
| SessionRemoved
| ApprovalsCancelled
| LocksReleased
| SchedulerWoken
| WatchersNotified
| ConsumerSpawned (consumer : Consumer.t)
| RunSpawned (task_id : string) (agent : AgentKind.t) (permission : PermissionPolicy.t) (message : option string)
(** of threads ([ThreadWork], [ThreadRuns]) *)
| WorkspaceRemoved (repo worktree : string) (backend : ExecutionBackend.t)
| BranchDeleted (repo branch : string)
| PathSeen (path : string) (there : bool)
| PathResolved (path : string) (answer : result string string)
| PatchChecked (target patch : string) (applies : bool)
| PatchApplied (target patch : string)
| TurnSpawned (turn_id thread_id : string) (agent : AgentKind.t) (message : option PendingThreadMessage.t)
    (lease : option string) (account : option string).
End TaskEffect.

Class RunServices (E : Type) := {
  (** [sessions.try_acquire] for a project, and the error when the pool is full *)
  acquire_permit : string -> SysM E bool;
  session_capacity_error : SysM E string;
  has_adapter : AgentKind.t -> bool;
  (** [adapter.detect()] *)
  probe_adapter : AgentKind.t -> SysM E AgentInstallStatus;
  select_provider_account : AgentKind.t -> SysM E AccountSelection;
  (** the local time of an instant, as shown *)
  local_time : Z -> string;
  sandbox_name_for : string -> string -> string;
  (** the name of the sandbox taken, if the backend has one *)
  session_runtime : AgentKind.t -> ExecutionBackend.t -> option string -> SysM E (option string);
  work_node_for_task : string -> SysM E (option string);
  delete_work_node : string -> SysM E ();
  release_locks_for_task : string -> SysM E ();
  (** [adapter.resume] of a provider session, or [adapter.start] *)
  open_session : AgentKind.t -> option string -> TaskSpec.t -> SysM E (result string ());
  register_session : string -> SysM E ();
  cancel_session : string -> SysM E bool;
  (** settings by key *)
  read_setting : string -> SysM E (option string);
  write_setting : string -> string -> SysM E ();
  (** the commit made of a worktree's changes without the context files, if any *)
  commit_all_with_excludes : string -> string -> list string -> SysM E (result string (option string));
  push_branch : string -> string -> bool -> SysM E (result string ())
}.

Record Tasks (E : Type) := mkTasks {
  desk : Desk E;
  limits : LimitState;
  ledger : Ledger;
  messages : gmap string (list QueuedMessage.t);
  effects : list TaskEffect.t
}.
Arguments mkTasks {E} _ _ _ _ _.
Arguments desk {E} _.
Arguments limits {E} _.
Arguments ledger {E} _.
Arguments messages {E} _.
Arguments effects {E} _.
Abbreviation T E := (M (Tasks E) CoreError).

Section Lifts.
Context {E : Type}.
Definition at_desk {A} (m : D E A) : T E A :=
  fun s => let '(d, r) := m s.(desk) in (mkTasks d s.(limits) s.(ledger) s.(messages) s.(effects), r).
Definition at_limits {A} (m : LimM A) : T E A :=
  fun s => let '(l, r) := m s.(limits) in
           (mkTasks s.(desk) l s.(ledger) s.(messages) s.(effects),
            match r with Ok a => Ok a | Err e => Err (Db e) end).
Definition at_ledger {A} (m : Ledger -> Ledger * result CoreError A) : T E A :=
  fun s => let '(l, r) := m s.(ledger) in (mkTasks s.(desk) s.(limits) l s.(messages) s.(effects), r).
Definition set_messages (v : gmap string (list QueuedMessage.t)) (s : Tasks E) : Tasks E :=
  mkTasks s.(desk) s.(limits) s.(ledger) v s.(effects).
Definition did (e : TaskEffect.t) : T E () :=
  modify (fun s => mkTasks s.(desk) s.(limits) s.(ledger) s.(messages) (s.(effects) ++ [e])).
Definition did_lease (f : string -> TaskEffect.t) (lease : option string) : T E () :=
  match lease with Some name => did (f name) | None => mret () end.
End Lifts.

(** The patch of a task's status, and of its agent. *)
Definition status_and_agent (status : TaskStatus.t) (agent : AgentKind.t) : TaskUpdate.t :=
  TaskUpdate.mk None None (Some status) None (Some agent) None None None None None None.

Definition LIMIT_POLICY_KEY : string := "limit_policy".
Definition git_automation_key (project_id : string) : string := "git_automation:" +:+ project_id.

Section Tasks.
Context {V : Type} `{Json V} `{!TextSerde (list string)} `{!TextSerde GitAutomation.t} `{!TextSerde LimitPolicy.t} `{Chrono}.
Context {E : Type} `{CoreServices E} `{!TurnServices E} `{!RepoServices E} `{!TaskFiles E} `{!RunServices E}.

(** A call of another component. *)
Definition sys_ {A} (m : SysM E A) : T E A := at_desk (at_core (call m)).
Definition table {A} (m : AgentM A) : T E A := at_desk (at_core (on_db m)).
Definition acted (project task : option string) (kind : string) : T E () := sys_ (activity project task kind).

Definition update_task (task_id : string) (patch : TaskUpdate.t) : T E Task.t :=
  ts ← sys_ now; table (Tasks.update ts task_id patch).
Definition publish_task (task : Task.t) : T E () := at_desk (at_core (publish (TaskUpdated task))).

(** A call whose error is dropped, or that has none. *)
Definition quietly {A} (m : T E A) : T E () := _ ← attempt m; mret ().

(** The calls whose answers the history tells: the adapter's process, the release of
    a lease, the registration of a session. *)
Definition ask_process (opening : SysM E (result string ())) : T E (result string ()) :=
  r ← try_ (sys_ opening);
  let opened := match r with Ok opened => opened | Err e => Err (error_text e) end in
  _ ← did (TaskEffect.ProcessAsked opened);
  mret opened.
Definition release_lease (lease : option string) : T E () :=
  _ ← quietly (sys_ release_sandbox); did_lease TaskEffect.SandboxReleased lease.
Definition register_ (key : string) : T E () :=
  _ ← quietly (sys_ (register_session key)); did TaskEffect.SessionRegistered.

(** ** Launching *)

Definition latest_resumable_session_ref (task_id : string) (agent : AgentKind.t) (target_hash legacy_target_hash : string) :
  T E (option string) :=
  sessions ← table (Sessions.list_for_task task_id);
  mret (head (omap (fun session : Session.t =>
    if bool_decide (session.(Session.agent_kind) = agent) &&
       target_hash_matches session.(Session.target_hash) target_hash legacy_target_hash
    then session.(Session.agent_session_id) else None) (reverse sessions))).

Definition require_account (agent : AgentKind.t) : T E (option AccountRuntime.t) :=
  selection ← sys_ (select_provider_account agent);
  match selection with
  | Unmanaged => mret None
  | Ready account => mret (Some account)
  | SignedOut => throw (Other ("No " +:+ AgentKind.label agent +:+ " account is signed in. Sign in from Accounts to continue."))
  | AccountsLimited (Some at_) =>
      throw (Other ("Every " +:+ AgentKind.label agent +:+ " account is at its usage limit until " +:+ local_time at_ +:+ "."))
  | AccountsLimited None => throw (Other ("Every " +:+ AgentKind.label agent +:+ " account is at its usage limit."))
  end.

(** A host run needs the agent installed, and signed in unless an account is used. *)
Definition require_host_agent (agent : AgentKind.t) (account : option AccountRuntime.t) : T E () :=
  ts ← sys_ now;
  fresh ← at_limits (fresh_ready_agent_status ts agent);
  status ← match fresh with
           | Some status => mret status
           | None => detected ← sys_ (probe_adapter agent); ts ← sys_ now; at_limits (record_agent_probe ts detected)
           end;
  _ ← fail_when (negb status.(AgentStatus.installed))
        (Other (AgentKind.label agent +:+ " is not installed or could not be found"));
  fail_when (negb status.(AgentStatus.authenticated) && negb (bool_decide (is_Some account)))
    (Other (AgentKind.label agent +:+ " is installed but not signed in. Sign in from Accounts to continue.")).

Record Target := mkTarget {
  t_agent : AgentKind.t;
  t_backend : ExecutionBackend.t;
  t_model_target : ModelTargetKind.t;
  t_sandbox_name : option string;
  t_account : option AccountRuntime.t;
  t_worktree : string;
  t_hash : string;
  t_prior : option string
}.

(** Up to the lease of a sandbox: every refusal before anything is started.  The
    policy check keeps the agent, the model and the backend. *)
Definition prepare (task : Task.t) (agent : AgentKind.t) (execution_backend : option ExecutionBackend.t) : T E Target :=
  let task_id := task.(Task.id) in
  repo ← at_desk (resolve_task_repo task);
  repo_path ← lift_opt repo.(Repo.local_path) (Other "repository has no local path");
  backend ← at_desk (task_execution_backend task execution_backend);
  let model_target := normalize_model_target task.(Task.model_target) None in
  _ ← fail_when (negb (has_adapter (E:=E) agent)) (Other ("no adapter available for " +:+ AgentKind.label agent));
  _ ← fail_when (bool_decide (model_target = ModelTargetKind.RentedCompute))
        (Other "rented compute targets are not supported by the VS Code extension");
  account ← require_account agent;
  _ ← (if bool_decide (backend = ExecutionBackend.Host) then require_host_agent agent account else mret ());
  let sandbox_name := if bool_decide (backend = ExecutionBackend.DockerSandbox)
                      then Some (sandbox_name_for (E:=E) "task" task_id) else None in
  '(worktree, _, _) ← at_desk (ensure_worktree task repo repo_path backend);
  context ← at_desk (ensure_task_context task);
  _ ← at_desk (render_task_context_files worktree context);
  let '(target_hash, legacy_target_hash) :=
    run_hashes agent task.(Task.model) backend model_target task.(Task.compute_lease_id) (account ≫= AccountRuntime.profile) in
  prior ← latest_resumable_session_ref task_id agent target_hash legacy_target_hash;
  mret (mkTarget agent backend model_target sandbox_name account worktree target_hash prior).

(** The rows of the run, and the process: the inner error is the adapter's. *)
Definition open_run (task : Task.t) (target : Target) (permission : PermissionPolicy.t) (message : option string)
  (lease : option string) : T E (Session.t * Task.t * result string ()) :=
  let task_id := task.(Task.id) in
  let agent := target.(t_agent) in
  work_node_id ← sys_ (work_node_for_task task_id);
  id ← sys_ fresh_id;
  ts ← sys_ now;
  session ← table (Sessions.create ts id task_id agent target.(t_backend) target.(t_sandbox_name) task.(Task.model) None None None
    target.(t_model_target) task.(Task.compute_lease_id) task.(Task.compute_provider) task.(Task.estimated_compute_cost_usd)
    task.(Task.fallback_model_target) (Some target.(t_hash)) None);
  task' ← update_task task_id (status_and_agent TaskStatus.Running agent);
  _ ← publish_task task';
  _ ← acted (Some task'.(Task.project_id)) (Some task_id) "session.started";
  let spec := TaskSpec.mk target.(t_worktree) (run_prompt task' message (bool_decide (is_Some target.(t_prior)))) task.(Task.model)
    permission target.(t_backend) lease (from_option AccountRuntime.env [] target.(t_account))
    (AccountRuntime.id <$> target.(t_account))
    (if approver_for permission agent
     then Some (mkScope (Some task'.(Task.project_id)) work_node_id (Some task_id) None (Some session.(Session.id))) else None) in
  opened ← ask_process (open_session agent target.(t_prior) spec);
  mret (session, task', opened).

(** The run under a permit: the session's id, its consumer spawned. *)
Definition launch (task : Task.t) (agent : AgentKind.t) (permission : PermissionPolicy.t) (message : option string)
  (execution_backend : option ExecutionBackend.t) : T E string :=
  target ← prepare task agent execution_backend;
  lease ← sys_ (session_runtime agent target.(t_backend) target.(t_sandbox_name));
  _ ← did_lease TaskEffect.SandboxTaken lease;
  opened ← try_ (open_run task target permission message lease);
  match opened with
  | Err e => _ ← did_lease TaskEffect.SandboxDropped lease; throw e
  | Ok (_, _, Err e) => _ ← release_lease lease; throw (Other e)
  | Ok (session, task', Ok _) =>
      _ ← register_ task.(Task.id);
      _ ← did (TaskEffect.ConsumerSpawned (Consumer.mk session.(Session.id) task.(Task.id) task'.(Task.project_id) agent permission
            lease (AccountRuntime.id <$> target.(t_account))));
      mret session.(Session.id)
  end.

Definition run_task_inner (task_id : string) (agent : AgentKind.t) (permission : PermissionPolicy.t) (message : option string)
  (execution_backend : option ExecutionBackend.t) : T E string :=
  active ← at_desk (at_core (is_active task_id));
  _ ← fail_when active (Other "task is already running");
  found ← table (Tasks.get_task task_id);
  task ← lift_opt found NotFound;
  _ ← attempt (sys_ sync_session_capacity);
  taken ← sys_ (acquire_permit task.(Task.project_id));
  if (taken : bool) then
    _ ← did TaskEffect.PermitTaken;
    launched ← try_ (launch task agent permission message execution_backend);
    match launched with
    | Ok session_id => mret session_id
    | Err e => _ ← did TaskEffect.PermitDropped; throw e
    end
  else
    full ← sys_ session_capacity_error;
    throw (Other full).

End Tasks.

(** ** Settings *)

(** [serde_json::from_str(..).ok()], then the default. *)
Definition parsed {A} `{TextSerde A} (fallback : A) (raw : option string) : A :=
  match raw with
  | Some raw => match from_text raw with Ok a => a | Err _ => fallback end
  | None => fallback
  end.

Module Settings.
Section Settings.
Context `{!TextSerde GitAutomation.t} `{!TextSerde LimitPolicy.t} {E : Type} `{CoreServices E} `{!RunServices E}.

Definition get_limit_policy : T E LimitPolicy.t :=
  raw ← sys_ (read_setting LIMIT_POLICY_KEY);
  mret (normalize_limit_policy (parsed default_limit_policy raw)).

Definition set_limit_policy (policy : LimitPolicy.t) : T E LimitPolicy.t :=
  let policy := normalize_limit_policy policy in
  _ ← sys_ (write_setting LIMIT_POLICY_KEY (to_text policy));
  _ ← acted None None "limit_policy.updated";
  mret policy.

Definition get_git_automation (project_id : string) : T E GitAutomation.t :=
  raw ← sys_ (read_setting (git_automation_key project_id));
  mret (parsed (GitAutomation.mk false false) raw).

Definition set_git_automation (project_id : string) (settings : GitAutomation.t) : T E GitAutomation.t :=
  _ ← sys_ (write_setting (git_automation_key project_id) (to_text settings));
  _ ← acted (Some project_id) None "git.automation_updated";
  mret settings.
End Settings.
End Settings.

Section Following.
Context {V : Type} `{Json V} `{!TextSerde (list string)} `{!TextSerde GitAutomation.t} `{!TextSerde LimitPolicy.t} `{Chrono}.
Context {E : Type} `{CoreServices E} `{!TurnServices E} `{!RepoServices E} `{!TaskFiles E} `{!RunServices E}.

(** ** Helpers of the consumer: every error is dropped *)

Definition noted (project_id task_id kind : string) : T E () := quietly (acted (Some project_id) (Some task_id) kind).

(** [if let Ok(task) = update(..) { publish; k }]. *)
Definition update_and (task_id : string) (patch : TaskUpdate.t) (k : T E ()) : T E () :=
  updated ← attempt (update_task task_id patch);
  match updated with
  | Some task => _ ← publish_task task; k
  | None => mret ()
  end.

Definition spawn_run (task_id : string) (agent : AgentKind.t) (permission : PermissionPolicy.t) (message : option string) : T E () :=
  did (TaskEffect.RunSpawned task_id agent permission message).

(** [get(..).await.ok().flatten()]. *)
Definition flat {A} (m : T E (option A)) : T E (option A) := found ← attempt m; mret (mjoin found).

(** Commit, and push to the remote, as the project wants it. *)
Definition maybe_auto_git (task_id project_id : string) : T E () :=
  found ← attempt (Settings.get_git_automation project_id);
  let settings := default (GitAutomation.mk false false) found in
  if negb settings.(GitAutomation.auto_commit) && negb settings.(GitAutomation.auto_push) then mret ()
  else
    link ← flat (at_desk (at_repos (get_for_task task_id)));
    match link with
    | None => mret ()
    | Some link =>
        match link.(TaskRepoLink.worktree_path) with
        | None => mret ()
        | Some worktree =>
            repo ← flat (at_desk (at_repos (get_repo link.(TaskRepoLink.repo_id))));
            let has_remote := bool_decide (is_Some (repo ≫= Repo.remote_url)) in
            task ← flat (table (Tasks.get_task task_id));
            let title := from_option Task.title "agent changes" task in
            committed ← (if settings.(GitAutomation.auto_commit) then
                           commit ← attempt (sys_ (commit_all_with_excludes worktree ("Perpetual: " +:+ title)
                                      ["TASK_CONTEXT.md"; "CLAUDE.md"; "AGENTS.md"]));
                           match commit with
                           | Some (Ok (Some _)) => _ ← noted project_id task_id "git.committed"; mret true
                           | Some (Err _) => _ ← noted project_id task_id "git.commit_failed"; mret false
                           | _ => mret false
                           end
                         else mret true);
            if settings.(GitAutomation.auto_push) && committed && has_remote then
              match link.(TaskRepoLink.branch) with
              | Some branch =>
                  let is_github := match repo with Some r => bool_decide (r.(Repo.kind) = RepoKind.GitHub) | None => false end in
                  pushed ← attempt (sys_ (push_branch worktree branch is_github));
                  match pushed with
                  | Some (Ok _) => noted project_id task_id "git.pushed"
                  | Some (Err _) => noted project_id task_id "git.push_failed"
                  | None => mret ()
                  end
              | None => mret ()
              end
            else mret ()
        end
    end.

(** ** What follows a session *)

(** The grace period before it is a sleep. *)
Definition handle_task_network_loss (task_id project_id : string) (agent : AgentKind.t) (permission : PermissionPolicy.t) : T E () :=
  found ← attempt (sys_ get_local_model_policy);
  let policy := default default_local_model_policy found in
  if negb policy.(LocalModelPolicy.auto_resume_cloud) then mret ()
  else
    stable ← try_ (sys_ (cloud_connectivity_stable policy));
    match stable with
    | Ok true =>
        _ ← noted project_id task_id "network.restored";
        _ ← update_and task_id (status_and_agent TaskStatus.Queued agent) (mret ());
        spawn_run task_id agent permission None
    | Ok false => noted project_id task_id "network.waiting"
    | Err _ => noted project_id task_id "network.probe_failed"
    end.

Definition apply_fallback_decision (task_id project_id : string) (current : AgentKind.t) (reset_at : option Z) : T E FallbackDecision :=
  decision ← at_desk (at_core (fallback_decision current reset_at));
  _ ← match decision with
      | Switch agent _ =>
          _ ← update_and task_id (status_and_agent TaskStatus.Queued agent) (mret ());
          acted (Some project_id) (Some task_id) "fallback.switch_queued"
      | Wait _ => acted (Some project_id) (Some task_id) "fallback.waiting"
      | Disabled => acted (Some project_id) (Some task_id) "fallback.disabled"
      end;
  mret decision.

Definition take_next_message (task_id : string) : T E (option QueuedMessage.t) :=
  s ← get;
  match s.(messages) !! task_id with
  | Some (next :: rest) =>
      _ ← modify (set_messages (if bool_decide (rest = []) then delete task_id s.(messages) else <[task_id := rest]> s.(messages)));
      mret (Some next)
  | Some [] => _ ← modify (set_messages (delete task_id s.(messages))); mret None
  | None => mret None
  end.

(** After a limit: the same account again, another account, or another agent. *)
Definition follow_limit (task_id project_id : string) (agent : AgentKind.t) (permission : PermissionPolicy.t)
  (account : option string) (credit_redeemed : bool) (reset_at : option Z) : T E () :=
  if credit_redeemed then
    update_and task_id (task_status_update TaskStatus.Queued) (spawn_run task_id agent permission None)
  else
    configured ← at_desk (at_core provider_accounts_configured);
    if (configured : bool) then
      policy ← attempt (sys_ get_limit_policy);
      let auto_switch := from_option LimitPolicy.auto_switch true policy in
      next ← (if auto_switch then flat (sys_ (next_ready_provider_account account)) else mret None);
      match next with
      | Some next =>
          update_and task_id (status_and_agent TaskStatus.Queued next.(AccountRuntime.agent))
            (spawn_run task_id next.(AccountRuntime.agent) permission None)
      | None => mret ()
      end
    else
      decision ← attempt (apply_fallback_decision task_id project_id agent reset_at);
      match decision with
      | Some (Switch next_agent _) => spawn_run task_id next_agent permission None
      | _ => mret ()
      end.
End Following.

(** ** Consuming a session *)

(** The local variables of [consume_session]. *)
Record Run (E : Type) := mkRun_ {
  tasks : Tasks E;
  saw_usage_limit : bool;
  credit_redeemed : bool;
  saw_network_loss : bool;
  saw_approval_needed : bool;
  completed_ok : bool;
  limit_reset_at : option Z
}.
Arguments mkRun_ {E} _ _ _ _ _ _ _.
Arguments tasks {E} _.
Arguments saw_usage_limit {E} _.
Arguments credit_redeemed {E} _.
Arguments saw_network_loss {E} _.
Arguments saw_approval_needed {E} _.
Arguments completed_ok {E} _.
Arguments limit_reset_at {E} _.

Section Consuming.
Context {V : Type} `{Json V} `{!TextSerde (list string)} `{!TextSerde GitAutomation.t} `{!TextSerde LimitPolicy.t} `{Chrono}.
Context {E : Type} `{CoreServices E} `{!TurnServices E} `{!RepoServices E} `{!TaskFiles E} `{!RunServices E}.
Context (info : Consumer.t).
Abbreviation Run := (Run E).
Abbreviation task_id := (info.(Consumer.task_id)).
Abbreviation session_id := (info.(Consumer.session_id)).
Abbreviation project_id := (info.(Consumer.project_id)).
Abbreviation agent := (info.(Consumer.agent)).

Definition put (t : Tasks E) (s : Run) : Run :=
  mkRun_ t s.(saw_usage_limit) s.(credit_redeemed) s.(saw_network_loss) s.(saw_approval_needed) s.(completed_ok) s.(limit_reset_at).
(** A call whose error is dropped. *)
Definition ask_ {A} (m : T E A) (s : Run) : Run * option A :=
  let '(t, r) := m s.(tasks) in (put t s, match r with Ok a => Some a | Err _ => None end).
Definition do_ {A} (m : T E A) (s : Run) : Run := (ask_ m s).1.

Definition with_status (status : TaskStatus.t) : T E () := update_and task_id (task_status_update status) (mret ()).

(** [mark_agent_limited], [mark_agent_available] at the present time. *)
Definition note_limited (reset_at : option Z) : T E () :=
  policy ← attempt (sys_ get_limit_policy);
  ts ← sys_ now;
  at_limits (mark_agent_limited ts (default default_limit_policy policy) agent reset_at).
Definition note_available : T E () := ts ← sys_ now; at_limits (mark_agent_available ts agent).

Definition on_limit (reset_at : option Z) (s : Run) : Run :=
  let s := mkRun_ s.(tasks) true s.(credit_redeemed) s.(saw_network_loss) s.(saw_approval_needed) s.(completed_ok) reset_at in
  let s :=
    match info.(Consumer.account) with
    | Some account_id =>
        let '(s, redeemed) := ask_ (sys_ (try_consume_provider_credit account_id)) s in
        let redeemed := default false redeemed in
        let s := mkRun_ s.(tasks) s.(saw_usage_limit) redeemed s.(saw_network_loss) s.(saw_approval_needed) s.(completed_ok)
                   s.(limit_reset_at) in
        if redeemed then do_ (sys_ (mark_provider_account_available account_id)) s
        else do_ (sys_ (mark_provider_account_limited account_id reset_at)) s
    | None => do_ (note_limited reset_at) s
    end in
  let s := do_ (with_status TaskStatus.WaitingForLimit) s in
  do_ (noted project_id task_id "agent.limited") s.

Definition on_network (s : Run) : Run :=
  let s := mkRun_ s.(tasks) s.(saw_usage_limit) s.(credit_redeemed) true s.(saw_approval_needed) s.(completed_ok) s.(limit_reset_at) in
  let s := do_ (with_status TaskStatus.WaitingForNetwork) s in
  do_ (noted project_id task_id "network.unavailable") s.

Definition effective (s : Run) (status : SessionStatus) : SessionStatus :=
  if s.(saw_network_loss) then Interrupted else status.

(** The status the task ends with; [status] is the effective one. *)
Definition ended_task_status (s : Run) (status : SessionStatus) : TaskStatus.t :=
  if s.(saw_network_loss) then TaskStatus.WaitingForNetwork
  else if s.(saw_usage_limit) then TaskStatus.WaitingForLimit
  else match status with
       | Completed => if s.(saw_approval_needed) then TaskStatus.AwaitingApproval else TaskStatus.Review
       | Interrupted => TaskStatus.Paused
       | Failed => TaskStatus.Failed
       end.

Definition on_ended (status : SessionStatus) (s : Run) : Run :=
  let status := effective s status in
  let s := mkRun_ s.(tasks) s.(saw_usage_limit) s.(credit_redeemed) s.(saw_network_loss) s.(saw_approval_needed)
             (bool_decide (status = Completed)) s.(limit_reset_at) in
  let state := session_state status in
  let s := do_ (ts ← sys_ now; table (Sessions.finish ts session_id state)) s in
  let s := do_ (sys_ (finish_runs_for_ref session_id state)) s in
  let s := if bool_decide (status = Completed) && negb s.(saw_usage_limit)
           then do_ (noted project_id task_id "agent.available") (do_ note_available s) else s in
  let s := do_ (with_status (ended_task_status s status)) s in
  if s.(saw_usage_limit) then do_ (noted project_id task_id "agent.limited_session_ended") s else s.

(** A fresh id, from the service that stamps events. *)
Definition stamp_ : T E (string * Z) :=
  at_desk (at_core (fun w => let '(y, st) := stamp w.(CoreWorld.sys) in (mkWorld y w.(CoreWorld.events) w.(CoreWorld.launches), Ok st))).

Definition on_usage (envelope : option string) (input output : Z) (s : Run) : Run :=
  do_ ('(id, _) ← stamp_; at_ledger (record_token_usage id (Some session_id) envelope input output)) s.

(** What an event does before it is recorded. *)
Definition handle_event (envelope : option string) (ev : NormalizedEvent V) (s : Run) : Run :=
  match ev with
  | AwaitingApproval _ =>
      mkRun_ s.(tasks) s.(saw_usage_limit) s.(credit_redeemed) s.(saw_network_loss) true s.(completed_ok) s.(limit_reset_at)
  | TokenUsage input output => on_usage envelope input output s
  | SessionStarted provider => do_ (table (Sessions.set_agent_session_id session_id provider)) s
  | UsageLimitReached reset_at => on_limit reset_at s
  | NetworkUnavailable _ => on_network s
  | SessionEnded status => on_ended status s
  | _ => s
  end.

(** The JSON value of an event is published as its text. *)
Definition published (e : SessionEvent.t V) : SessionEvent.t string :=
  SessionEvent.mk string e.(SessionEvent.id) e.(SessionEvent.session_id) e.(SessionEvent.task_id) e.(SessionEvent.role)
    e.(SessionEvent.kind) e.(SessionEvent.text) (json_to_string e.(SessionEvent.data)) e.(SessionEvent.ts).

Definition record_session_event (ev : NormalizedEvent V) : T E () :=
  '(id, ts) ← stamp_;
  let se := map_event id ts session_id task_id ev in
  _ ← attempt (table (Transcripts.insert se));
  at_desk (at_core (publish (SessionShown (published se)))).

Definition hand_off (status : SessionStatus) : T E () :=
  summary ← try_ (at_desk (apply_session_handoff (V:=V) session_id task_id agent status));
  noted project_id task_id (match summary with Ok _ => "context.handoff" | Err _ => "context.handoff_failed" end).

(** One event. *)
Definition consume_event (envelope : option string) (ev : NormalizedEvent V) (s : Run) : Run :=
  let s := handle_event envelope ev s in
  let s := do_ (record_session_event ev) s in
  match ev with
  | SessionEnded status => do_ (hand_off (effective s status)) s
  | _ => s
  end.

(** The loop goes on until the channel closes. *)
Definition consume_events (envelope : option string) (events : list (NormalizedEvent V)) (s : Run) : Run :=
  foldl (fun s ev => consume_event envelope ev s) s events.

(** After the channel closed. *)
Definition wind_up : T E () :=
  _ ← quietly (sys_ (remove_session task_id));
  _ ← did TaskEffect.SessionRemoved;
  _ ← noted project_id task_id "session.ended";
  _ ← quietly (sys_ (cancel_session_approvals session_id));
  _ ← did TaskEffect.ApprovalsCancelled;
  _ ← did TaskEffect.PermitDropped;
  _ ← release_lease info.(Consumer.lease);
  _ ← quietly (sys_ (release_locks_for_task task_id));
  _ ← did TaskEffect.LocksReleased;
  _ ← quietly (at_limits wake_scheduler);
  _ ← did TaskEffect.SchedulerWoken;
  _ ← quietly (sys_ (notify_plan_watchers project_id));
  did TaskEffect.WatchersNotified.

(** What runs next. *)
Definition follow (s : Run) : T E () :=
  if s.(saw_network_loss) then handle_task_network_loss task_id project_id agent info.(Consumer.permission)
  else if s.(saw_usage_limit) then
    follow_limit task_id project_id agent info.(Consumer.permission) info.(Consumer.account) s.(credit_redeemed) s.(limit_reset_at)
  else
    next ← take_next_message task_id;
    match next with
    | Some next => spawn_run task_id next.(QueuedMessage.agent) next.(QueuedMessage.permission) (Some next.(QueuedMessage.message))
    | None => mret ()
    end.

Definition consume_session (events : list (NormalizedEvent V)) (t : Tasks E) : Tasks E :=
  let s := mkRun_ t false false false false false None in
  let '(s, session) := ask_ (table (Sessions.get_session session_id)) s in
  let envelope := mjoin session ≫= Session.policy_envelope_id in
  let s := consume_events envelope events s in
  let s := do_ wind_up s in
  let s := if s.(completed_ok) && negb s.(saw_usage_limit) then do_ (maybe_auto_git task_id project_id) s else s in
  (do_ (follow s) s).(tasks).
End Consuming.

(** ** Other commands *)
Section Commands.
Context {V : Type} `{Json V} `{!TextSerde (list string)} `{!TextSerde GitAutomation.t} `{!TextSerde LimitPolicy.t} `{Chrono}.
Context {E : Type} `{CoreServices E} `{!TurnServices E} `{!RepoServices E} `{!TaskFiles E} `{!RunServices E}.

Definition run_task (task_id : string) (agent : AgentKind.t) (permission : PermissionPolicy.t) : T E string :=
  run_task_inner task_id agent permission None None.
Definition run_task_with_backend (task_id : string) (agent : AgentKind.t) (permission : PermissionPolicy.t)
  (execution_backend : option ExecutionBackend.t) : T E string :=
  run_task_inner task_id agent permission None execution_backend.
Definition run_task_boxed (task_id : string) (agent : AgentKind.t) (permission : PermissionPolicy.t) (message : option string) :
  T E string := run_task_inner task_id agent permission message None.

Definition stop_task (task_id : string) : T E () :=
  cancelled ← sys_ (cancel_session task_id);
  fail_when (negb cancelled) (Other "task is not running").

Definition push_message (task_id : string) (message : QueuedMessage.t) (s : Tasks E) : Tasks E :=
  set_messages (<[task_id := default [] (s.(messages) !! task_id) ++ [message]]> s.(messages))%list s.

(** The id of the run started, or [None] when the message waits for the end of the
    running one. *)
Definition send_message (task_id : string) (agent : AgentKind.t) (permission : PermissionPolicy.t) (message : string) :
  T E (option string) :=
  let message := trim message in
  _ ← fail_when (is_empty message) (Other "message is empty");
  active ← at_desk (at_core (is_active task_id));
  if (active : bool) then
    _ ← modify (push_message task_id (QueuedMessage.mk agent permission message));
    task ← table (Tasks.get_task task_id);
    _ ← acted (Task.project_id <$> task) (Some task_id) "message.queued";
    mret None
  else
    id ← run_task_inner task_id agent permission (Some message) None;
    mret (Some id).

Definition delete_task (task_id : string) : T E () :=
  found ← table (Tasks.get_task task_id);
  task ← lift_opt found NotFound;
  active ← at_desk (at_core (is_active task_id));
  _ ← (if (active : bool) then quietly (sys_ (cancel_session task_id)) else mret ());
  node ← sys_ (work_node_for_task task_id);
  _ ← match node with Some id => sys_ (delete_work_node id) | None => mret () end;
  _ ← quietly (sys_ (release_locks_for_task task_id));
  _ ← table (Tasks.delete task_id);
  _ ← at_desk (at_repos (cascade_task task_id));
  acted (Some task.(Task.project_id)) (Some task_id) "task.deleted".

Definition delete_session (session_id : string) : T E () :=
  found ← table (Sessions.get_session session_id);
  session ← lift_opt found NotFound;
  active ← at_desk (at_core (is_active session.(Session.task_id)));
  _ ← fail_when (bool_decide (session.(Session.state) = SessionState.Running) && active)
        (Other "Stop the running session before deleting it.");
  task ← table (Tasks.get_task session.(Session.task_id));
  _ ← table (Sessions.delete session_id);
  acted (Task.project_id <$> task) (Some session.(Session.task_id)) "session.deleted".

Definition list_sessions (task_id : string) : T E (list Session.t) := table (Sessions.list_for_task task_id).

(** The transcripts of a task's sessions, one after the other. *)
Fixpoint gather (task_id : string) (sessions : list Session.t) : T E (list (SessionEvent.t V)) :=
  match sessions with
  | [] => mret []
  | s :: sessions =>
      evs ← table (Transcripts.list_for_session (V:=V) s.(Session.id) task_id);
      all ← gather task_id sessions;
      mret (evs ++ all)%list
  end.
Definition list_session_events (task_id : string) : T E (list (SessionEvent.t V)) :=
  sessions ← list_sessions task_id; gather task_id sessions.
End Commands.
