(* ===== verification/TaskProps.v ===== *)
(** * The runs of tasks: what is taken comes back, and one run follows

    Permits, sandboxes and the follow-up of a run, from the history of effects;
    nothing is assumed of the services. *)
From Stdlib Require Import Ascii String.
From S2P Require Import Prelude RustStr Json Enums Records Approvals WorkGraphDb WorkGraphInv Limits Budget SqlTable AgentDb ThreadText CoreWorld TaskRepos ThreadFallback TaskTexts TaskNotes TurnLoop CoreDemo FallbackProps TurnProps TurnStatus Scheduler TaskRuns.
#[local] Open Scope string_scope.
#[local] Open Scope Z_scope.

(** ** Effects of a call *)
Section Emits.
Context {E : Type}.
Implicit Types s : Tasks E.

(** [m] does one of the sequences [L], and leaves the queues of messages. *)
Definition emits (L : list TaskEffect.t -> Prop) {A} (m : T E A) : Prop :=
  forall s, exists l, L l /\ (final m s).(effects) = (s.(effects) ++ l)%list /\ (final m s).(messages) = s.(messages).
Definition silent {A} (m : T E A) : Prop := emits (fun l => l = []) m.

Lemma silent_eq {A} (m : T E A) s :
  silent m -> (final m s).(effects) = s.(effects) /\ (final m s).(messages) = s.(messages).
Proof. intros Hm. destruct (Hm s) as (l & -> & -> & ->). by rewrite app_nil_r. Qed.

Lemma silent_intro {A} (m : T E A) :
  (forall s, (final m s).(effects) = s.(effects) /\ (final m s).(messages) = s.(messages)) -> silent m.
Proof. intros Hm s. destruct (Hm s) as [-> ->]. exists []. by rewrite app_nil_r. Qed.

Lemma silent_ret {A} (a : A) : silent (mret a : T E A).
Proof. by apply silent_intro. Qed.
Lemma silent_throw {A} e : silent (throw e : T E A).
Proof. by apply silent_intro. Qed.
Lemma silent_desk {A} (m : D E A) : silent (at_desk m).
Proof. apply silent_intro. intros s. unfold at_desk, final. by destruct (m (desk s)). Qed.
Lemma silent_limits {A} (m : LimM A) : silent (at_limits (E:=E) m).
Proof. apply silent_intro. intros s. unfold at_limits, final. by destruct (m (limits s)). Qed.
Lemma silent_ledger {A} (m : Ledger -> Ledger * result CoreError A) : silent (at_ledger (E:=E) m).
Proof. apply silent_intro. intros s. unfold at_ledger, final. by destruct (m (ledger s)). Qed.

Lemma emits_did e : emits (fun l => l = [e]) (did (E:=E) e).
Proof. intros s. by exists [e]. Qed.

Lemma emits_mono (L L' : list TaskEffect.t -> Prop) {A} (m : T E A) : (forall l, L l -> L' l) -> emits L m -> emits L' m.
Proof. intros HL Hm s. destruct (Hm s) as (l & Hl & ?). exists l. auto. Qed.

(** A call that may do nothing after a silent one. *)
Lemma emits_bind (L : list TaskEffect.t -> Prop) {A B} (m : T E A) (f : A -> T E B) :
  L [] -> silent m -> (forall a, emits L (f a)) -> emits L (m ≫= f).
Proof.
  intros HL Hm Hf s. pose proof (silent_eq m s Hm) as [He Hs]. unfold final in *. rewrite M_bind_unfold.
  destruct (m s) as [s' [a|e]]; cbn in *.
  - destruct (Hf a s') as (l & Hl & He' & Hs'). unfold final in *. exists l. by rewrite He', Hs', He, Hs.
  - exists []. by rewrite app_nil_r.
Qed.

Lemma emits_after (L : list TaskEffect.t -> Prop) {A B} (m : T E A) (f : A -> T E B) :
  L [] -> emits L m -> (forall a, silent (f a)) -> emits L (m ≫= f).
Proof.
  intros HL Hm Hf s. destruct (Hm s) as (l & Hl & He & Hs). unfold final in *. rewrite M_bind_unfold.
  destruct (m s) as [s' [a|e]]; cbn in *; [|by exists l].
  exists l. pose proof (silent_eq (f a) s' (Hf a)) as [He' Hs']. unfold final in *. by rewrite He', Hs'.
Qed.

Lemma emits_attempt (L : list TaskEffect.t -> Prop) {A} (m : T E A) : emits L m -> emits L (attempt m).
Proof.
  intros Hm s. destruct (Hm s) as (l & Hl). exists l. unfold attempt, final in *. by destruct (m s) as [s' [a|e]].
Qed.
Lemma emits_try (L : list TaskEffect.t -> Prop) {A} (m : T E A) : emits L m -> emits L (try_ m).
Proof. intros Hm s. destruct (Hm s) as (l & Hl). exists l. unfold try_, final in *. by destruct (m s) as [s' r]. Qed.

Lemma silent_bind {A B} (m : T E A) (f : A -> T E B) : silent m -> (forall a, silent (f a)) -> silent (m ≫= f).
Proof. by apply emits_bind. Qed.
Lemma silent_lift {A} (r : result CoreError A) : silent (lift r : T E A).
Proof. by apply silent_intro. Qed.
End Emits.

Create HintDb tasks.
#[export] Hint Resolve silent_ret silent_throw silent_desk silent_limits silent_ledger silent_lift silent_bind
  emits_attempt emits_try : tasks.

(** Calls that touch neither the effects nor the queues. *)
Ltac silence :=
  lazymatch goal with
  | |- emits _ (_ ≫= _) => apply silent_bind; [silence|intros; silence]
  | |- silent (_ ≫= _) => apply silent_bind; [silence|intros; silence]
  | |- silent (attempt _) => apply emits_attempt; silence
  | |- silent (try_ _) => apply emits_try; silence
  | |- silent (match ?x with _ => _ end) => destruct x; silence
  | |- silent (let '(_, _) := ?x in _) => destruct x; silence
  | |- _ => first [solve [eauto with tasks nocore]|idtac]
  end.

Section Calls.
Context {V : Type} `{Json V} `{!TextSerde (list string)} `{!TextSerde GitAutomation.t} `{!TextSerde LimitPolicy.t} `{Chrono}.
Context {E : Type} `{CoreServices E} `{!TurnServices E} `{!RepoServices E} `{!TaskFiles E} `{!RunServices E}.
Implicit Types s : Tasks E.

Lemma silent_sys {A} (m : SysM E A) : silent (sys_ m).
Proof. apply silent_desk. Qed.
Lemma silent_table {A} (m : AgentM A) : silent (table (E:=E) m).
Proof. apply silent_desk. Qed.
Lemma silent_acted p t k : silent (acted (E:=E) p t k).
Proof. apply silent_sys. Qed.
Lemma silent_update t p : silent (update_task (E:=E) t p).
Proof. apply silent_bind; [apply silent_sys|intros; apply silent_table]. Qed.
Lemma silent_quietly {A} (m : T E A) : silent m -> silent (quietly m).
Proof. intros Hm. apply silent_bind; [by apply emits_attempt|intros; apply silent_ret]. Qed.
Lemma silent_noted p t k : silent (noted (E:=E) p t k).
Proof. apply silent_quietly, silent_acted. Qed.
Lemma silent_publish t : silent (publish_task (E:=E) t).
Proof. apply silent_desk. Qed.
Lemma silent_fail b e : silent (fail_when b e : T E ()).
Proof. unfold fail_when. by destruct b; [apply silent_throw|apply silent_ret]. Qed.
Lemma silent_lift_opt {A} (o : option A) e : silent (lift_opt o e : T E A).
Proof. unfold lift_opt. by destruct o; [apply silent_ret|apply silent_throw]. Qed.

Lemma emits_update_and (L : list TaskEffect.t -> Prop) t p (k : T E ()) :
  L [] -> emits L k -> emits L (update_and t p k).
Proof.
  intros HL Hk. apply emits_bind; [done|apply emits_attempt, silent_update|]. intros [task|].
  - apply emits_bind; [done|apply silent_publish|by intros].
  - apply (emits_mono (fun l => l = [])); [by intros ? ->|apply silent_ret].
Qed.
End Calls.

#[export] Hint Resolve silent_sys silent_table silent_acted silent_update silent_quietly silent_noted silent_publish
  silent_fail silent_lift_opt : tasks.

(** ** After a session *)
Section After.
Context {V : Type} `{Json V} `{!TextSerde (list string)} `{!TextSerde GitAutomation.t} `{!TextSerde LimitPolicy.t} `{Chrono}.
Context {E : Type} `{CoreServices E} `{!TurnServices E} `{!RepoServices E} `{!TaskFiles E} `{!RunServices E}.
Implicit Types s : Tasks E.

Lemma emits_quietly {A B} (L : list TaskEffect.t -> Prop) (m : T E A) (k : T E B) :
  silent m -> emits L k -> emits L (_ ← quietly m; k).
Proof.
  intros Hm Hk s. pose proof (silent_eq m s Hm) as [He Hs]. unfold final, quietly, attempt in *.
  rewrite !M_bind_unfold. destruct (m s) as [s' [a|e]]; cbn in *; destruct (Hk s') as (l & Hl & He' & Hs');
    exists l; unfold final in *; by rewrite He', Hs', He, Hs.
Qed.

Lemma emits_then {B} (L : list TaskEffect.t -> Prop) e (k : T E B) :
  emits (fun l => L (e :: l)) k -> emits L (_ ← did e; k).
Proof.
  intros Hk s. unfold final. rewrite M_bind_unfold. cbn. set (s' := mkTasks _ _ _ _ _).
  destruct (Hk s') as (l & Hl & He & Hs). exists (e :: l). unfold final in *. rewrite He, Hs. cbn. by rewrite <- app_assoc.
Qed.

Definition lease_effect (f : string -> TaskEffect.t) (lease : option string) : list TaskEffect.t := option_list (f <$> lease).

Lemma emits_then_lease {B} (L : list TaskEffect.t -> Prop) f lease (k : T E B) :
  emits (fun l => L (lease_effect f lease ++ l)%list) k -> emits L (_ ← did_lease f lease; k).
Proof. destruct lease; cbn; [by apply emits_then|]. intros Hk s. apply (Hk s). Qed.

Lemma emits_then_release {B} (L : list TaskEffect.t -> Prop) lease (k : T E B) :
  emits (fun l => L (lease_effect TaskEffect.SandboxReleased lease ++ l)%list) k -> emits L (_ ← release_lease lease; k).
Proof.
  intros Hk. assert (emits L (_ ← quietly (sys_ release_sandbox); _ ← did_lease TaskEffect.SandboxReleased lease; k)) as Hm.
  { apply emits_quietly; [apply silent_sys|]. by apply emits_then_lease. }
  intros s. destruct (Hm s) as (l & Hl). exists l. unfold final in *. unfold release_lease. by rewrite M_assoc.
Qed.

Definition wind_up_effects (info : Consumer.t) : list TaskEffect.t :=
  ([TaskEffect.SessionRemoved; TaskEffect.ApprovalsCancelled; TaskEffect.PermitDropped] ++
   lease_effect TaskEffect.SandboxReleased info.(Consumer.lease) ++
   [TaskEffect.LocksReleased; TaskEffect.SchedulerWoken; TaskEffect.WatchersNotified])%list.

Lemma emits_wind_up info : emits (fun l => l = wind_up_effects info) (wind_up (E:=E) info).
Proof.
  unfold wind_up, noted. repeat lazymatch goal with
    | |- emits _ (quietly _ ≫= _) => apply emits_quietly; [eauto with tasks nocore|]
    | |- emits _ (did _ ≫= _) => apply emits_then
    | |- emits _ (release_lease _ ≫= _) => apply emits_then_release
    end.
  intros s. eexists. split; [|done]. cbn. by rewrite <- ?app_assoc.
Qed.

Definition one_run (task_id : string) (p : AgentKind.t -> PermissionPolicy.t -> option string -> Prop) (l : list TaskEffect.t) : Prop :=
  l = [] \/ exists a perm m, l = [TaskEffect.RunSpawned task_id a perm m] /\ p a perm m.

Lemma emits_spawn t p a perm m : p a perm m -> emits (one_run t p) (spawn_run (E:=E) t a perm m).
Proof. intros Hp s. exists [TaskEffect.RunSpawned t a perm m]. split; [right; eauto 6|done]. Qed.

Lemma emits_nothing {A} t p (m : T E A) : silent m -> emits (one_run t p) m.
Proof. apply emits_mono. intros l ->. by left. Qed.

Lemma emits_network t pid a perm :
  emits (one_run t (fun a' perm' m => a' = a /\ perm' = perm /\ m = None)) (handle_task_network_loss (E:=E) t pid a perm).
Proof.
  unfold handle_task_network_loss. apply emits_bind; [by left|apply emits_attempt, silent_sys|]. intros found. cbn zeta.
  case_match; [apply emits_nothing, silent_ret|].
  apply emits_bind; [by left|apply emits_try, silent_sys|]. intros [[]|]; [|apply emits_nothing, silent_noted..].
  apply emits_bind; [by left|apply silent_noted|]. intros _.
  apply emits_bind; [by left| |intros _; by apply emits_spawn].
  apply emits_update_and; [done|apply silent_ret].
Qed.

Lemma silent_fallback t pid a r : silent (apply_fallback_decision (E:=E) t pid a r).
Proof.
  unfold apply_fallback_decision. apply silent_bind; [apply silent_desk|]. intros d.
  apply silent_bind; [|intros; apply silent_ret]. destruct d; [|apply silent_acted..].
  apply silent_bind; [|intros; apply silent_acted]. apply emits_update_and; [done|apply silent_ret].
Qed.

Lemma emits_limit t pid a perm acc credit r :
  emits (one_run t (fun _ perm' m => perm' = perm /\ m = None)) (follow_limit (E:=E) t pid a perm acc credit r).
Proof.
  unfold follow_limit. destruct credit; [apply emits_update_and; [by left|by apply emits_spawn]|].
  apply emits_bind; [by left|apply silent_desk|]. intros [].
  - apply emits_bind; [by left|apply emits_attempt, silent_sys|]. intros policy.
    apply emits_bind; [by left| |].
    + case_match; [|apply silent_ret]. apply silent_bind; [apply emits_attempt, silent_sys|intros; apply silent_ret].
    + intros [next|]; [|apply emits_nothing, silent_ret]. apply emits_update_and; [by left|by apply emits_spawn].
  - apply emits_bind; [by left|apply emits_attempt, silent_fallback|].
    intros [[]|]; first [by apply emits_spawn|apply emits_nothing, silent_ret].
Qed.

Lemma silent_auto_git t pid : silent (maybe_auto_git (E:=E) t pid).
Proof.
  unfold maybe_auto_git, flat. apply silent_bind; [apply emits_attempt|].
  { unfold Settings.get_git_automation. apply silent_bind; [apply silent_sys|intros; apply silent_ret]. }
  intros settings. cbn zeta. repeat first [apply silent_bind; [|intros]|apply silent_noted|apply silent_ret|apply emits_attempt|
    apply silent_sys|apply silent_table|apply silent_desk|case_match; cbn zeta].
Qed.

(** *** The loop *)
Section Loop.
Context (info : Consumer.t).
Abbreviation Run := (Run E).
Implicit Types r : Run.

Definition limit_flags r : bool * bool := (r.(saw_network_loss), r.(saw_usage_limit)).
(** A step of the consumer: the flags of the events, nothing outside the tables. *)
Definition calm (f : Run -> Run) (lost limited : bool) : Prop :=
  forall r, (f r).(tasks).(effects) = r.(tasks).(effects) /\ (f r).(tasks).(messages) = r.(tasks).(messages) /\
            limit_flags (f r) = (r.(saw_network_loss) || lost, r.(saw_usage_limit) || limited).

Lemma do_spec {A} (m : T E A) r : do_ m r = put (final m r.(tasks)) r.
Proof. unfold do_, ask_, final. by destruct (m (tasks r)). Qed.

Lemma calm_do {A} (m : T E A) : silent m -> calm (do_ m) false false.
Proof.
  intros Hm r. rewrite do_spec. pose proof (silent_eq m r.(tasks) Hm) as [He Hs]. unfold limit_flags. cbn. by rewrite !orb_false_r.
Qed.

Lemma calm_trans f g a b c d : calm f a b -> calm g c d -> calm (fun r => g (f r)) (a || c) (b || d).
Proof.
  intros Hf Hg r. destruct (Hf r) as (He & Hm & Hl). destruct (Hg (f r)) as (-> & -> & Hg').
  split_and!; [done..|]. rewrite Hg'. unfold limit_flags in Hl. injection Hl as -> ->. by rewrite !orb_assoc.
Qed.

Lemma calm_id : calm id false false.
Proof. intros r. unfold limit_flags. cbn. by rewrite !orb_false_r. Qed.

Lemma calm_ask {A} (m : T E A) (k : option A -> Run -> Run) a b :
  silent m -> (forall o, calm (k o) a b) -> calm (fun r => let '(r, o) := ask_ m r in k o r) a b.
Proof.
  intros Hm Hk r. pose proof (calm_do m Hm r) as (He & Hs & Hl). unfold do_ in *.
  destruct (ask_ m r) as [r' o]. cbn in *. destruct (Hk o r') as (-> & -> & ->). split_and!; [done..|].
  unfold limit_flags in Hl. injection Hl as -> ->. by rewrite !orb_false_r.
Qed.

Lemma silent_status status : silent (with_status (E:=E) info status).
Proof. apply emits_update_and; [done|apply silent_ret]. Qed.

Lemma silent_note_limited reset_at : silent (note_limited (E:=E) info reset_at).
Proof.
  apply silent_bind; [apply emits_attempt, silent_sys|]. intros. apply silent_bind; [apply silent_sys|intros; apply silent_limits].
Qed.
Lemma silent_note_available : silent (note_available (E:=E) info).
Proof. apply silent_bind; [apply silent_sys|intros; apply silent_limits]. Qed.

Lemma calm_limit reset_at : calm (on_limit info reset_at) false true.
Proof.
  apply (calm_trans _ (fun r => do_ (noted info.(Consumer.project_id) info.(Consumer.task_id) "agent.limited") r) false true false false);
    [|apply calm_do, silent_noted].
  apply (calm_trans _ (do_ (with_status info TaskStatus.WaitingForLimit)) false true false false); [|apply calm_do, silent_status].
  intros r. set (r1 := mkRun_ r.(tasks) true _ _ _ _ reset_at).
  assert (forall f, calm f false false -> (f r1).(tasks).(effects) = r.(tasks).(effects) /\
    (f r1).(tasks).(messages) = r.(tasks).(messages) /\
    limit_flags (f r1) = (r.(saw_network_loss) || false, r.(saw_usage_limit) || true)) as Hf.
  { intros f Hf. destruct (Hf r1) as (-> & -> & ->). cbn. by rewrite orb_true_r. }
  destruct (Consumer.account info) as [account_id|]; [|apply Hf, calm_do, silent_note_limited].
  apply (Hf (fun r => let '(r, o) := ask_ (sys_ (try_consume_provider_credit account_id)) r in _)).
  apply calm_ask; [apply silent_sys|]. intros o. cbn zeta. destruct (default false o).
  all: intros r2; match goal with |- context [do_ ?m ?r3] => destruct (calm_do m (silent_sys _) r3) as (-> & -> & ->) end.
  all: split_and!; done.
Qed.

Lemma calm_network : calm (on_network info) true false.
Proof.
  apply (calm_trans _ (fun r => do_ (noted info.(Consumer.project_id) info.(Consumer.task_id) "network.unavailable") r) true false false false);
    [|apply calm_do, silent_noted].
  intros r. match goal with |- context [do_ ?m ?r1] => destruct (calm_do m (silent_status _) r1) as (-> & -> & ->) end.
  cbn. by rewrite orb_true_r.
Qed.

Lemma silent_stamp : silent (stamp_ (E:=E)).
Proof. apply silent_desk. Qed.

Lemma calm_ended status : calm (on_ended info status) false false.
Proof.
  intros r. unfold on_ended. cbn zeta. set (r1 := mkRun_ r.(tasks) _ _ _ _ _ _).
  assert (forall f, calm f false false -> forall r', limit_flags r' = limit_flags r -> r'.(tasks).(effects) = r.(tasks).(effects) ->
    r'.(tasks).(messages) = r.(tasks).(messages) ->
    limit_flags (f r') = limit_flags r /\ (f r').(tasks).(effects) = r.(tasks).(effects) /\
    (f r').(tasks).(messages) = r.(tasks).(messages)) as Hgo.
  { intros f Hf r' Hl He Hm. destruct (Hf r') as (-> & -> & ->). rewrite !orb_false_r. split_and!; [|done..]. by rewrite <- Hl. }
  set (m1 := ts ← sys_ now; _). assert (silent m1) as Hm1 by (apply silent_bind; [apply silent_sys|intros; apply silent_table]).
  destruct (Hgo _ (calm_do m1 Hm1) r1 eq_refl eq_refl eq_refl) as (Hl2 & He2 & Hs2). set (r2 := do_ m1 r1) in *.
  set (m3 := sys_ (finish_runs_for_ref _ _)). destruct (Hgo _ (calm_do m3 (silent_sys _)) r2 Hl2 He2 Hs2) as (Hl3 & He3 & Hs3).
  set (r3 := do_ m3 r2) in *. set (r4 := if _ && _ then _ else r3).
  assert (limit_flags r4 = limit_flags r /\ r4.(tasks).(effects) = r.(tasks).(effects) /\ r4.(tasks).(messages) = r.(tasks).(messages))
    as (Hl4 & He4 & Hs4).
  { subst r4. destruct (_ && _); [|done].
    destruct (Hgo _ (calm_do _ silent_note_available) r3 Hl3 He3 Hs3) as (Hl & He & Hs). by apply Hgo; [apply calm_do, silent_noted|..]. }
  destruct (Hgo _ (calm_do _ (silent_status (ended_task_status r4 (effective r status)))) r4 Hl4 He4 Hs4) as (Hl5 & He5 & Hs5).
  set (r5 := do_ _ r4) in *. rewrite !orb_false_r. change (r.(saw_network_loss), r.(saw_usage_limit)) with (limit_flags r).
  destruct (saw_usage_limit r5); [|done].
  by destruct (Hgo _ (calm_do _ (silent_noted info.(Consumer.project_id) info.(Consumer.task_id) "agent.limited_session_ended")) r5 Hl5 He5 Hs5) as (-> & -> & ->).
Qed.

Lemma calm_handle envelope ev : calm (handle_event (V:=V) info envelope ev) (is_network ev) (is_limit ev).
Proof.
  destruct ev; cbn [handle_event is_network is_limit]; try apply calm_id; try apply calm_do.
  - apply silent_table.
  - apply silent_bind; [apply silent_stamp|]. intros []. apply silent_ledger.
  - apply calm_limit.
  - apply calm_network.
  - apply calm_ended.
Qed.

Lemma silent_record ev : silent (record_session_event (V:=V) (E:=E) info ev).
Proof.
  apply silent_bind; [apply silent_stamp|]. intros []. apply silent_bind; [apply emits_attempt, silent_table|intros; apply silent_desk].
Qed.

Lemma silent_hand_off status : silent (hand_off (V:=V) (E:=E) info status).
Proof. apply silent_bind; [apply emits_try, silent_desk|]. intros []; apply silent_noted. Qed.

Lemma calm_consume envelope ev : calm (consume_event (V:=V) info envelope ev) (is_network ev) (is_limit ev).
Proof.
  intros r. unfold consume_event. cbn zeta.
  destruct (calm_trans _ _ _ _ _ _ (calm_handle envelope ev) (calm_do _ (silent_record ev)) r) as (He & Hm & Hl).
  set (r' := do_ _ _) in *. rewrite !orb_false_r in Hl.
  destruct ev; try done. destruct (calm_do _ (silent_hand_off (effective r' status)) r') as (-> & -> & ->).
  rewrite !orb_false_r. split_and!; [done..|]. unfold limit_flags in Hl. cbn in *. injection Hl as -> ->. by rewrite !orb_false_r.
Qed.

Lemma calm_events envelope events :
  calm (consume_events (V:=V) info envelope events) (existsb is_network events) (existsb is_limit events).
Proof.
  induction events as [|ev events IH]; [apply calm_id|]. exact (calm_trans _ _ _ _ _ _ (calm_consume envelope ev) IH).
Qed.
End Loop.

(** ** The whole run *)

(** Before the follow-up: the flags are those of the events. *)
Lemma before_follow info (events : list (NormalizedEvent V)) t :
  exists r, r.(tasks).(effects) = (t.(effects) ++ wind_up_effects info)%list /\ r.(tasks).(messages) = t.(messages) /\
    limit_flags r = (existsb is_network events, existsb is_limit events) /\
    consume_session info events t = final (follow info r) r.(tasks).
Proof.
  unfold consume_session. set (r0 := mkRun_ t _ _ _ _ _ _).
  pose proof (calm_do (table (E:=E) (Sessions.get_session info.(Consumer.session_id))) (silent_table _) r0) as (He0 & Hm0 & Hl0).
  unfold do_ in *. destruct (ask_ _ r0) as [r1 session]. cbn [fst] in *.
  destruct (calm_events info (mjoin session ≫= Session.policy_envelope_id) events r1) as (He1 & Hm1 & Hl1).
  set (r2 := consume_events _ _ _ _) in *. set (r3 := (ask_ (wind_up info) r2).1).
  assert (r3 = put (final (wind_up info) r2.(tasks)) r2) as Hr3 by apply do_spec.
  destruct (emits_wind_up info r2.(tasks)) as (l & -> & He3 & Hm3).
  set (r4 := if _ && _ then _ else r3).
  assert (r4.(tasks).(effects) = r3.(tasks).(effects) /\ r4.(tasks).(messages) = r3.(tasks).(messages) /\ limit_flags r4 = limit_flags r3)
    as (He4 & Hm4 & Hl4).
  { subst r4. destruct (_ && _); [|done].
    pose proof (calm_do _ (silent_auto_git info.(Consumer.task_id) info.(Consumer.project_id)) r3) as Hc.
    rewrite !orb_false_r in Hc. exact Hc. }
  exists r4. split_and!.
  - rewrite He4, Hr3. cbn. by rewrite He3, He1, He0.
  - rewrite Hm4, Hr3. cbn. by rewrite Hm3, Hm1, Hm0.
  - rewrite Hl4, Hr3. change (limit_flags (put _ r2)) with (limit_flags r2). rewrite Hl1.
    unfold limit_flags in Hl0. injection Hl0 as -> ->. done.
  - unfold do_, ask_, final. by destruct (follow info r4 _).
Qed.

(** C22: Whatever a session's stream brings and whatever the services answer, the
    end of the stream gives back what the run held, in this order and once: its
    registration, its pending approvals, its permit, its sandbox, its locks, and
    then wakes the scheduler and the plans.  After that at most one run of the
    task is started: on a lost network only the same agent again with no message;
    else after a usage limit a run with the same permission and no message; else
    exactly the first message waiting for the task, which leaves its queue.  No
    other task's messages are touched. *)
Theorem one_follow_up info (events : list (NormalizedEvent V)) t :
  let t' := consume_session info events t in
  let task_id := info.(Consumer.task_id) in
  exists next,
    t'.(effects) = (t.(effects) ++ wind_up_effects info ++ next)%list /\
    (forall other, other <> task_id -> t'.(messages) !! other = t.(messages) !! other) /\
    if existsb is_network events then
      t'.(messages) = t.(messages) /\
      (next = [] \/ next = [TaskEffect.RunSpawned task_id info.(Consumer.agent) info.(Consumer.permission) None])
    else if existsb is_limit events then
      t'.(messages) = t.(messages) /\
      (next = [] \/ exists agent, next = [TaskEffect.RunSpawned task_id agent info.(Consumer.permission) None])
    else
      match t.(messages) !! task_id with
      | Some (QueuedMessage.mk agent permission message :: rest) =>
          next = [TaskEffect.RunSpawned task_id agent permission (Some message)] /\
          default [] (t'.(messages) !! task_id) = rest
      | _ => next = [] /\ default [] (t'.(messages) !! task_id) = []
      end.
Proof.
  cbn zeta. destruct (before_follow info events t) as (r & He & Hm & Hl & ->).
  unfold limit_flags in Hl. injection Hl as Hnet Hlim. unfold follow. rewrite <- Hnet, <- Hlim.
  destruct (saw_network_loss r); [|destruct (saw_usage_limit r)].
  - destruct (emits_network info.(Consumer.task_id) info.(Consumer.project_id) info.(Consumer.agent) info.(Consumer.permission) r.(tasks))
      as (l & Hnext & He' & Hm').
    exists l. rewrite He', Hm', He, Hm, <- app_assoc. split_and!; [done..|].
    destruct Hnext as [->|(a & perm & m & -> & -> & -> & ->)]; auto.
  - destruct (emits_limit info.(Consumer.task_id) info.(Consumer.project_id) info.(Consumer.agent) info.(Consumer.permission)
      info.(Consumer.account) r.(credit_redeemed) r.(limit_reset_at) r.(tasks)) as (l & Hnext & He' & Hm').
    exists l. rewrite He', Hm', He, Hm, <- app_assoc. split_and!; [done..|].
    destruct Hnext as [->|(a & perm & m & -> & -> & ->)]; eauto.
  - unfold final. rewrite M_bind_unfold. unfold take_next_message. rewrite M_bind_unfold. cbn [get]. rewrite Hm.
    destruct (messages t !! Consumer.task_id info) as [[|[agent permission message] rest]|] eqn:Hq; rewrite ?M_bind_unfold; cbn.
    + exists []. rewrite He, app_nil_r. split_and!; [done| |done|by rewrite lookup_delete_eq].
      intros other Ho. by rewrite lookup_delete_ne.
    + exists [TaskEffect.RunSpawned info.(Consumer.task_id) agent permission (Some message)]. rewrite He, <- app_assoc.
      split_and!; [done| |done|].
      * intros other Ho. case_bool_decide; [by rewrite lookup_delete_ne|by rewrite lookup_insert_ne].
      * case_bool_decide; [subst; by rewrite lookup_delete_eq|by rewrite lookup_insert_eq].
    + exists []. rewrite He, Hm, app_nil_r. split_and!; [done..|by rewrite Hq].
Qed.
End After.

(** ** What a call does with what it answers *)
Section Outcomes.
Context {E : Type}.

(** What [m] does with what it answers. *)
Definition outcome {A} (m : T E A) (P : list TaskEffect.t -> result CoreError A -> Prop) : Prop :=
  forall t, exists l, let '(t', r) := m t in
    t'.(effects) = (t.(effects) ++ l)%list /\ t'.(messages) = t.(messages) /\ P l r.

Lemma outcome_bind {A B} (m : T E A) (f : A -> T E B) (P : list TaskEffect.t -> result CoreError B -> Prop) :
  silent m -> (forall e, P [] (Err e)) -> (forall a, outcome (f a) P) -> outcome (m ≫= f) P.
Proof.
  intros Hm He Hf t. rewrite M_bind_unfold. pose proof (silent_eq m t Hm) as [Heff Hmsg]. unfold final in *.
  destruct (m t) as [t' [a|e]]; cbn in *; [|exists []; by rewrite app_nil_r].
  destruct (Hf a t') as (l & Hl). exists l. destruct (f a t') as [t'' r]. by rewrite <- Heff, <- Hmsg.
Qed.

Lemma outcome_did {B} e (k : T E B) (P : list TaskEffect.t -> result CoreError B -> Prop) :
  outcome k (fun l r => P (e :: l) r) -> outcome (_ ← did e; k) P.
Proof.
  intros Hk t. rewrite M_bind_unfold. cbn. set (t0 := mkTasks _ _ _ _ _). destruct (Hk t0) as (l & Hl). exists (e :: l).
  destruct (k t0) as [t' r]. destruct Hl as (-> & -> & Hl). cbn. by rewrite <- app_assoc.
Qed.

Lemma outcome_silent {A} (m : T E A) (P : list TaskEffect.t -> result CoreError A -> Prop) :
  silent m -> (forall r, P [] r) -> outcome m P.
Proof.
  intros Hm HP t. exists []. pose proof (silent_eq m t Hm) as [Heff Hmsg]. unfold final in *.
  destruct (m t) as [t' r]. cbn in *. by rewrite app_nil_r.
Qed.

Lemma outcome_then {A B} (m : T E A) (f : A -> T E B) (P : list TaskEffect.t -> result CoreError A -> Prop)
  (Q : list TaskEffect.t -> result CoreError B -> Prop) :
  outcome m P -> (forall l e, P l (Err e) -> Q l (Err e)) ->
  (forall a l, P l (Ok a) -> outcome (f a) (fun l' r => Q (l ++ l')%list r)) -> outcome (m ≫= f) Q.
Proof.
  intros Hm He Hf s. destruct (Hm s) as (l & Hl). rewrite M_bind_unfold.
  destruct (m s) as [s' [a|e]]; destruct Hl as (Hs & Hq & Hl); [|exists l; auto].
  destruct (Hf a l Hl s') as (l' & Hl'). exists (l ++ l')%list. destruct (f a s') as [s'' r].
  destruct Hl' as (-> & -> & Hl'). by rewrite Hs, Hq, app_assoc.
Qed.

Lemma outcome_ret {A} (a : A) (P : list TaskEffect.t -> result CoreError A -> Prop) : P [] (Ok a) -> outcome (mret a : T E A) P.
Proof. intros Hp s. exists []. cbn. by rewrite app_nil_r. Qed.
Lemma outcome_throw {A} e (P : list TaskEffect.t -> result CoreError A -> Prop) : P [] (Err e) -> outcome (throw e : T E A) P.
Proof. intros Hp s. exists []. cbn. by rewrite app_nil_r. Qed.
Lemma outcome_mono {A} (m : T E A) (P Q : list TaskEffect.t -> result CoreError A -> Prop) :
  (forall l r, P l r -> Q l r) -> outcome m P -> outcome m Q.
Proof. intros HPQ Hm s. destruct (Hm s) as (l & Hl). exists l. destruct (m s). naive_solver. Qed.

Lemma quietly_ok {A} (m : T E A) (t : Tasks E) : exists t', quietly m t = (t', Ok ()).
Proof. unfold quietly, attempt. rewrite M_bind_unfold. destruct (m t) as [t' [a|e]]; eauto. Qed.

Lemma outcome_try {A} (m : T E A) P : outcome m P -> outcome (try_ m) (fun l r => exists r', r = Ok r' /\ P l r').
Proof. intros Hm s. destruct (Hm s) as (l & Hl). exists l. unfold try_. destruct (m s). naive_solver. Qed.

Lemma outcome_quietly {A B} (m : T E A) (k : T E B) P : silent m -> outcome k P -> outcome (_ ← quietly m; k) P.
Proof.
  intros Hm Hk. apply (outcome_then _ _ (fun l r => l = [] /\ r = Ok ())).
  - intros s. exists []. pose proof (silent_eq _ s (silent_quietly _ Hm)) as [He Hq]. destruct (quietly_ok m s) as [s' Hs].
    unfold final in *. rewrite Hs in *. cbn in *. by rewrite He, Hq, app_nil_r.
  - by intros l e [_ ?].
  - by intros [] l [-> _].
Qed.

Lemma outcome_lease {B} f lease (k : T E B) P :
  outcome k (fun l r => P (lease_effect f lease ++ l)%list r) -> outcome (_ ← did_lease f lease; k) P.
Proof. destruct lease; [apply outcome_did|]. intros Hk s. apply (Hk s). Qed.

Lemma outcome_any {A} (m : T E A) P : silent m -> (forall r, P [] r) -> outcome m P.
Proof. by apply outcome_silent. Qed.
Lemma outcome_assoc {A B C} (m : T E A) (f : A -> T E B) (g : B -> T E C) P :
  outcome (a ← m; b ← f a; g b) P -> outcome ((a ← m; f a) ≫= g) P.
Proof. intros Hm s. destruct (Hm s) as (l & Hl). exists l. by rewrite M_assoc. Qed.
End Outcomes.

(** ** What a run holds *)

(** The effects of a launch that failed: nothing was taken; or the permit and what
    sandbox it took were given up, by dropping the lease when the rows or the setup
    failed, and by releasing it when the process was asked for and refused. *)
Definition undone (l : list TaskEffect.t) (err : CoreError) : Prop :=
  l = [] \/
  exists lease,
    l = (TaskEffect.PermitTaken :: lease_effect TaskEffect.SandboxTaken lease ++
         lease_effect TaskEffect.SandboxDropped lease ++ [TaskEffect.PermitDropped])%list \/
    exists e, err = Other e /\
      l = (TaskEffect.PermitTaken :: lease_effect TaskEffect.SandboxTaken lease ++
           TaskEffect.ProcessAsked (Err e) :: lease_effect TaskEffect.SandboxReleased lease ++ [TaskEffect.PermitDropped])%list.

(** The effects of a launch that succeeded, up to the event of its consumer. *)
Definition holding (lease : option string) (spawned : TaskEffect.t) : list TaskEffect.t :=
  (TaskEffect.PermitTaken :: lease_effect TaskEffect.SandboxTaken lease ++
   [TaskEffect.ProcessAsked (Ok ()); TaskEffect.SessionRegistered; spawned])%list.

(** ** Asking for a process, and giving a lease back *)
Section Told.
Context {V : Type} `{Json V} `{!TextSerde (list string)} `{!TextSerde GitAutomation.t} `{!TextSerde LimitPolicy.t} `{Chrono}.
Context {E : Type} `{CoreServices E} `{!TurnServices E} `{!RepoServices E} `{!TaskFiles E} `{!RunServices E}.

Lemma outcome_ask opening : outcome (ask_process (E:=E) opening) (fun l r => exists opened, r = Ok opened /\ l = [TaskEffect.ProcessAsked opened]).
Proof.
  unfold ask_process. eapply outcome_then; [apply outcome_try, (outcome_silent _ (fun l _ => l = [])); [apply silent_sys|done]|by intros l e (? & ? & _)|].
  intros r l (r' & [= ->] & ->). cbn zeta. apply outcome_did, outcome_ret. cbn. eauto.
Qed.
Lemma outcome_release {B} lease (k : T E B) P :
  outcome k (fun l r => P (lease_effect TaskEffect.SandboxReleased lease ++ l)%list r) -> outcome (_ ← release_lease lease; k) P.
Proof. intros Hk. apply outcome_assoc, outcome_quietly; [apply silent_sys|]. by apply outcome_lease. Qed.
Lemma outcome_register {B} key (k : T E B) P :
  outcome k (fun l r => P (TaskEffect.SessionRegistered :: l) r) -> outcome (_ ← register_ (E:=E) key; k) P.
Proof. intros Hk. apply outcome_assoc, outcome_quietly; [apply silent_sys|]. by apply outcome_did. Qed.

(** A launch under its permit: the lease, then the rows and the process, told apart by
    what the adapter answered. *)
Lemma outcome_launch {A} (open : T E A) (opened : A -> result string ()) lease spawned (k : A -> T E string) :
  outcome open (fun l r => match r with Ok a => l = [TaskEffect.ProcessAsked (opened a)] | Err _ => l = [] end) ->
  (forall a, outcome (k a) (fun l r =>
     match opened a with
     | Err e => l = lease_effect TaskEffect.SandboxReleased lease /\ r = Err (Other e)
     | Ok _ => exists id, r = Ok id /\ l = [TaskEffect.SessionRegistered; spawned a id]
     end)) ->
  outcome (_ ← did_lease TaskEffect.SandboxTaken lease;
           o ← try_ open;
           match o with Err e => _ ← did_lease TaskEffect.SandboxDropped lease; throw e | Ok a => k a end) (fun l r =>
    match r with
    | Ok id => exists a, TaskEffect.PermitTaken :: l = holding lease (spawned a id)
    | Err e => undone (TaskEffect.PermitTaken :: l ++ [TaskEffect.PermitDropped])%list e
    end).
Proof.
  intros Ho Hk. apply outcome_lease. eapply outcome_then; [apply outcome_try, Ho|by intros l e (? & ? & _)|].
  intros o l (r' & [= ->] & Hl). destruct r' as [a|e]; subst l; cbn [app].
  - eapply outcome_mono; [|apply Hk]. intros l r Hr. cbn in *. destruct (opened a) as [[]|e].
    + destruct Hr as (id & -> & ->). by exists a.
    + destruct Hr as [-> ->]. right. exists lease. right. exists e. split; [done|]. by rewrite <- !app_assoc.
  - apply outcome_lease, outcome_throw. right. exists lease. left. by rewrite app_nil_r, <- !app_assoc.
Qed.
End Told.

Section Resources.
Context {V : Type} `{Json V} `{!TextSerde (list string)} `{!TextSerde GitAutomation.t} `{!TextSerde LimitPolicy.t} `{Chrono}.
Context {E : Type} `{CoreServices E} `{!TurnServices E} `{!RepoServices E} `{!TaskFiles E} `{!RunServices E}.

Lemma silent_prepare task agent backend : silent (prepare (E:=E) task agent backend).
Proof.
  unfold prepare, latest_resumable_session_ref, require_account, require_host_agent.
  repeat first [apply silent_bind; [|intros]|apply silent_desk|apply silent_sys|apply silent_table|apply silent_lift_opt|
    apply silent_fail|apply silent_limits|apply silent_throw|apply silent_ret|case_match; cbn zeta].
Qed.

Lemma outcome_open task target perm message lease :
  outcome (open_run (E:=E) task target perm message lease) (fun l r =>
    match r with Ok (_, _, opened) => l = [TaskEffect.ProcessAsked opened] | Err _ => l = [] end).
Proof.
  unfold open_run. cbn zeta. repeat (apply outcome_bind; [first [apply silent_sys|apply silent_table|apply silent_update|
    apply silent_publish|apply silent_acted]|done|intros]).
  eapply outcome_then; [apply outcome_ask|by intros l e (? & ? & _)|]. intros opened l (? & [= ->] & ->). by apply outcome_ret.
Qed.

(** Under its permit, a launch that succeeds has one consumer. *)
Lemma launch_holds task agent perm message backend :
  outcome (launch (E:=E) task agent perm message backend) (fun l r =>
    match r with
    | Ok id => exists c, c.(Consumer.session_id) = id /\ c.(Consumer.permission) = perm /\
                 TaskEffect.PermitTaken :: l = holding c.(Consumer.lease) (TaskEffect.ConsumerSpawned c)
    | Err e => undone (TaskEffect.PermitTaken :: l ++ [TaskEffect.PermitDropped])%list e
    end).
Proof.
  assert (forall e : CoreError, undone [TaskEffect.PermitTaken; TaskEffect.PermitDropped] e) as Hnone
    by (intros e; right; exists None; by left).
  unfold launch. apply outcome_bind; [apply silent_prepare|done|]. intros target. apply outcome_bind; [apply silent_sys|done|]. intros lease.
  set (consumer := fun (a : Session.t * Task.t * result string ()) (id : string) =>
    Consumer.mk id task.(Task.id) a.1.2.(Task.project_id) agent perm lease (AccountRuntime.id <$> target.(t_account))).
  eapply outcome_mono; [|eapply (outcome_launch _ snd lease (fun a id => TaskEffect.ConsumerSpawned (consumer a id)) (fun a =>
    match a with
    | (_, _, Err e) => _ ← release_lease lease; throw (Other e)
    | (session, task', Ok _) =>
        _ ← register_ task.(Task.id);
        _ ← did (TaskEffect.ConsumerSpawned (Consumer.mk session.(Session.id) task.(Task.id) task'.(Task.project_id) agent perm
              lease (AccountRuntime.id <$> target.(t_account))));
        mret session.(Session.id)
    end))].
  - intros l [id|e]; [|done]. intros [a Ha]. by exists (consumer a id).
  - eapply outcome_mono; [|apply outcome_open]. by intros l [[[session task'] opened]|e].
  - intros [[session task'] [[]|e]]; cbn [snd].
    + apply outcome_register, outcome_did, outcome_ret. by exists session.(Session.id).
    + apply outcome_release, outcome_throw. by rewrite app_nil_r.
Qed.

Lemma follow_up_after info (events : list (NormalizedEvent V)) (t : Tasks E) :
  exists next, (consume_session info events t).(effects) = (t.(effects) ++ wind_up_effects info ++ next)%list /\
    one_run info.(Consumer.task_id) (fun _ _ _ => True) next.
Proof.
  destruct (before_follow info events t) as (r & He & Hm & _ & ->).
  assert (forall p l, one_run info.(Consumer.task_id) p l -> one_run info.(Consumer.task_id) (fun _ _ _ => True) l) as Hone.
  { intros p l [->|(a & perm & m & -> & _)]; [by left|]. right. by exists a, perm, m. }
  unfold follow. destruct (saw_network_loss r); [|destruct (saw_usage_limit r)].
  - destruct (emits_network info.(Consumer.task_id) info.(Consumer.project_id) info.(Consumer.agent) info.(Consumer.permission) r.(tasks))
      as (l & Hl & -> & _). exists l. rewrite He, <- app_assoc. eauto.
  - destruct (emits_limit info.(Consumer.task_id) info.(Consumer.project_id) info.(Consumer.agent) info.(Consumer.permission)
      info.(Consumer.account) r.(credit_redeemed) r.(limit_reset_at) r.(tasks)) as (l & Hl & -> & _).
    exists l. rewrite He, <- app_assoc. eauto.
  - unfold final. rewrite M_bind_unfold. unfold take_next_message. rewrite M_bind_unfold. cbn [get].
    destruct (messages (tasks r) !! _) as [[|m rest]|]; rewrite ?M_bind_unfold; cbn; rewrite He.
    + exists []. rewrite app_nil_r. split; [done|by left].
    + rewrite <- app_assoc. eexists. split; [done|]. right. by do 3 eexists.
    + exists []. rewrite app_nil_r. split; [done|by left].
Qed.

(** C7: A run gives back what it takes, whatever fails on the way.  A launch that is
    refused has taken nothing, or gives its permit back and starts no consumer: when
    the adapter was asked for a process and refused, its sandbox has been released
    through the manager; when a row or the setup failed before that, the lease is only
    dropped, which does not release it.  A launch that succeeds took one permit and
    at most one sandbox, had the process from the adapter, registered the session, and
    handed both to exactly one consumer, that of the session it returns; and when that
    consumer's stream has closed, whatever it brought, it has given the permit back and
    released that sandbox, each exactly once, and no more than the one run that may
    follow was spawned. *)
Theorem resources_come_back task_id agent permission message backend (t : Tasks E) :
  let '(t', r) := run_task_inner task_id agent permission message backend t in
  exists l, t'.(effects) = (t.(effects) ++ l)%list /\ t'.(messages) = t.(messages) /\
    match r with
    | Err e => undone l e
    | Ok id =>
        exists c, c.(Consumer.session_id) = id /\ c.(Consumer.permission) = permission /\
          l = holding c.(Consumer.lease) (TaskEffect.ConsumerSpawned c) /\
          forall (events : list (NormalizedEvent V)) (t2 : Tasks E),
            exists next,
              (consume_session c events t2).(effects) =
                (t2.(effects) ++
                 [TaskEffect.SessionRemoved; TaskEffect.ApprovalsCancelled; TaskEffect.PermitDropped] ++
                 lease_effect TaskEffect.SandboxReleased c.(Consumer.lease) ++
                 [TaskEffect.LocksReleased; TaskEffect.SchedulerWoken; TaskEffect.WatchersNotified] ++ next)%list /\
              (next = [] \/ exists agent' permission' message',
                 next = [TaskEffect.RunSpawned c.(Consumer.task_id) agent' permission' message'])
    end.
Proof.
  assert (outcome (run_task_inner (E:=E) task_id agent permission message backend) (fun l r =>
    match r with
    | Ok id => exists c, c.(Consumer.session_id) = id /\ c.(Consumer.permission) = permission /\
                 l = holding c.(Consumer.lease) (TaskEffect.ConsumerSpawned c)
    | Err e => undone l e
    end)) as Hrun.
  { unfold run_task_inner. apply outcome_bind; [apply silent_desk|by left|]. intros active.
    apply outcome_bind; [apply silent_fail|by left|]. intros _. apply outcome_bind; [apply silent_table|by left|]. intros found.
    apply outcome_bind; [apply silent_lift_opt|by left|]. intros task.
    apply outcome_bind; [apply emits_attempt, silent_sys|by left|]. intros _. apply outcome_bind; [apply silent_sys|by left|]. intros [].
    2: { apply outcome_bind; [apply silent_sys|by left|]. intros full. apply outcome_throw. by left. }
    apply outcome_did. eapply outcome_then; [apply outcome_try, launch_holds|by intros l e (? & ? & _)|].
    intros launched l (r' & [= ->] & Hl). destruct r' as [id|e].
    - apply outcome_ret. by rewrite app_nil_r.
    - apply outcome_did, outcome_throw. exact Hl. }
  destruct (Hrun t) as (l & Hl). destruct (run_task_inner _ _ _ _ _ t) as [t' [id|e]]; exists l; [|done].
  destruct Hl as (He & Hm & c & Hid & Hperm & Hheld). do 2 (split; [done|]). exists c. do 3 (split; [done|]). intros events t2.
  destruct (follow_up_after c events t2) as (next & Hnext & Hone). exists next. split.
  - rewrite Hnext. unfold wind_up_effects. by rewrite <- !app_assoc.
  - destruct Hone as [->|(a & p & m & -> & _)]; [by left|right; eauto].
Qed.
End Resources.
