(* ===== verification/ThreadWork.v ===== *)
(** * The workspaces of threads and their changes (crates/am-core/src/agent_thread.rs)

    A thread works in the visible checkout of its repository or in a managed
    workspace of worktrees; its changes are shown as a diff, and those of managed
    worktrees are applied to the visible repositories on request.  Class
    [WorkServices] is git and the file system.  Paths are those of Unix. *)
From Stdlib Require Import Ascii String.
From S2P Require Import Prelude RustStr Json Enums Records Approvals WorkGraphDb WorkGraphInv Limits Budget SqlTable AgentDb ThreadText Attachments GitText CoreWorld TaskRepos ThreadFallback TaskTexts TaskNotes TurnLoop Scheduler TaskRuns.
#[local] Open Scope string_scope.
#[local] Open Scope Z_scope.

(** A finished git process. *)
Module GitOutput.
Record t := mk { code : option Z; stdout : string; stderr : string }.
End GitOutput.

Class WorkServices (E : Type) := {
  data_dir : string;
  (** the error of each is its text *)
  canonicalize : string -> SysM E (result string string);
  create_dir_all : string -> SysM E (result string ());
  remove_dir_all : string -> SysM E (result string ());
  (** [git -C repo args..]: the error is that of starting it *)
  run_git : string -> list string -> SysM E (result string GitOutput.t);
  head_sha : string -> SysM E (result string string);
  create_worktree : string -> string -> string -> string -> SysM E (result string ());
  create_clone_workspace : string -> string -> string -> string -> SysM E (result string ());
  remove_worktree : string -> string -> SysM E (result string ());
  worktree_diff_with_excludes : string -> string -> Z -> list string -> SysM E (result string TaskDiff.t);
  worktree_patch_with_excludes : string -> string -> list string -> SysM E (result string string);
  dirty_paths : string -> list string -> SysM E (result string (list string));
  check_patch_applies : string -> string -> SysM E (result string ());
  apply_patch_to_repo : string -> string -> SysM E (result string ());
  checkpoint_worktree_with_excludes : string -> string -> list string -> SysM E (result string (option string));
  cleanup_thread_sandboxes : string -> SysM E ();
  (** waits up to [CANCEL_SETTLE] *)
  wait_until_inactive : string -> SysM E bool
}.

Definition MAX_DIFF_BYTES : Z := 2 * 1024 * 1024.

Module ThreadWorkspace.
Record t := mk { path : string; uses_visible_repo : bool }.
End ThreadWorkspace.

Module PreparedRepo.
Record t := mk {
  result : AgentThreadRepoApplyResult.t;
  target : string;
  worktree : string;
  branch : option string;
  workspace_backend : ExecutionBackend.t;
  patch : string
}.
End PreparedRepo.

(** How the check of one link ends: settled, blocked, or ready to be applied. *)
Inductive Checked :=
| Settled (r : AgentThreadRepoApplyResult.t)
| Blocked (r : AgentThreadRepoApplyResult.t) (reason : string)
| Prepared (item : PreparedRepo.t).

(** [PathBuf] is lossless here: every path is UTF-8. *)
Section Work.
Context {V : Type} `{Json V} `{!BudgetSerde V} `{!TextSerde (list Attachment.t)} `{!Codecs} `{Chrono}.
Context {E : Type} `{CoreServices E} `{!TurnServices E} `{!RepoServices E} `{!TaskFiles E} `{!RunServices E} `{!WorkServices E}.

(** A blocking call whose error becomes [CoreError::Other]. *)
Definition vcs {A} (m : SysM E (result string A)) : T E A :=
  r ← sys_ m; match r with Ok a => mret a | Err e => throw (Other e) end.
(** The looks at the file system whose answers the history tells. *)
Definition see_path (path : string) : T E bool :=
  there ← sys_ (path_exists path); _ ← did (TaskEffect.PathSeen path there); mret there.
Definition resolve_path (path : string) : T E string :=
  answer ← sys_ (canonicalize path); _ ← did (TaskEffect.PathResolved path answer);
  match answer with Ok resolved => mret resolved | Err e => throw (Other e) end.
Definition repos_ {A} (m : RepoM A) : T E A := at_desk (at_repos m).
Definition announce (thread : AgentThread.t) : T E () := at_desk (at_core (publish (CoreWorld.AgentThreadUpdated thread))).
Definition is_active_ (id : string) : T E bool := at_desk (at_core (is_active id)).
Definition save_thread_ (thread : AgentThread.t) : T E AgentThread.t := at_desk (at_core (save_thread (V:=V) thread)).
Definition find_thread (id : string) : T E (option AgentThread.t) := table (Threads.get_thread (V:=V) id).

Definition same_path (a b : string) : T E bool :=
  ca ← sys_ (canonicalize a);
  cb ← sys_ (canonicalize b);
  let resolved r p := match r with Ok c => c | Err _ => p end in
  mret (eq_path (resolved ca a) (resolved cb b)).

(** ** Groups and records of threads *)

Definition create_workbench_session_group (input : NewWorkbenchSessionGroup.t) : T E WorkbenchSessionGroup.t :=
  id ← sys_ fresh_id; ts ← sys_ now;
  group ← table (Threads.create_group ts id input);
  _ ← acted group.(WorkbenchSessionGroup.project_id) None "thread_group.created";
  mret group.

Definition update_workbench_session_group (id : string) (patch : WorkbenchSessionGroupUpdate.t) : T E WorkbenchSessionGroup.t :=
  ts ← sys_ now;
  group ← table (Threads.update_group ts id patch);
  _ ← acted group.(WorkbenchSessionGroup.project_id) None "thread_group.updated";
  mret group.

Definition delete_workbench_session_group (id : string) : T E () :=
  ts ← sys_ now;
  _ ← table (Threads.delete_group ts id);
  acted None None "thread_group.deleted".

Definition assign_agent_thread_group (thread_id : string) (group_id : option string) : T E AgentThread.t :=
  ts ← sys_ now;
  thread ← table (Threads.assign_group (V:=V) ts thread_id group_id);
  _ ← announce thread;
  _ ← acted thread.(AgentThread.project_id) None "thread.group_assigned";
  mret thread.

Definition each_repo_exists (repo_ids : list string) : T E () :=
  for_each (fun repo_id => found ← repos_ (get_repo repo_id); _ ← lift_opt found NotFound; mret ()) repo_ids.
Definition replace_thread_repos (thread_id : string) (repo_ids : list string) : T E () :=
  at_desk (at_host (fun host => replace_repos host thread_id repo_ids)).

(** [NewAgentThread] with its backend filled in. *)
Definition with_backend (backend : ExecutionBackend.t) (i : NewAgentThread.t) : NewAgentThread.t :=
  NewAgentThread.mk i.(NewAgentThread.project_id) i.(NewAgentThread.group_id) i.(NewAgentThread.title)
    i.(NewAgentThread.objective) i.(NewAgentThread.repo_ids) i.(NewAgentThread.preferred_agent) i.(NewAgentThread.permission)
    (Some backend) i.(NewAgentThread.force_managed_workspace) i.(NewAgentThread.model) i.(NewAgentThread.reasoning)
    i.(NewAgentThread.local_provider) i.(NewAgentThread.local_base_url) i.(NewAgentThread.model_target)
    i.(NewAgentThread.compute_lease_id) i.(NewAgentThread.compute_provider) i.(NewAgentThread.estimated_compute_cost_usd)
    i.(NewAgentThread.fallback_model_target) i.(NewAgentThread.sort_order) i.(NewAgentThread.task_budget).

Definition create_agent_thread (input : NewAgentThread.t) : T E AgentThread.t :=
  input ← match input.(NewAgentThread.execution_backend) with
          | Some _ => mret input
          | None =>
              policy ← attempt (sys_ default_backend);
              mret (with_backend (default ExecutionBackend.Host policy) input)
          end;
  let repo_ids := input.(NewAgentThread.repo_ids) in
  _ ← each_repo_exists repo_ids;
  id ← sys_ fresh_id; ts ← sys_ now;
  thread ← table (Threads.create (V:=V) ts id input);
  _ ← (if bool_decide (repo_ids = []) then mret () else replace_thread_repos thread.(AgentThread.id) repo_ids);
  _ ← at_desk (at_core (publish (AgentThreadCreated thread)));
  _ ← acted thread.(AgentThread.project_id) None "thread.created";
  mret thread.

Definition reorder_agent_threads (ordered_ids : list string) : T E () :=
  _ ← fail_when (10000 <? Z.of_nat (length ordered_ids)) (Other "too many threads to reorder");
  table (Threads.set_order ordered_ids).

Definition update_agent_thread (id : string) (patch : AgentThreadUpdate.t) : T E AgentThread.t :=
  _ ← match patch.(AgentThreadUpdate.task_budget) with
      | None => mret ()
      | Some requested =>
          found ← find_thread id;
          current ← lift_opt found NotFound;
          active ← is_active_ id;
          _ ← fail_when (active && negb (bool_decide (current.(AgentThread.task_budget) = requested)))
                (Other "Stop the session before changing its task budget.");
          turns ← table (Turns.list_for_thread id);
          match validate_change current.(AgentThread.task_budget) requested (negb (bool_decide (turns = []))) with
          | Ok _ => mret ()
          | Err e => throw (Other e)
          end
      end;
  ts ← sys_ now;
  thread ← table (Threads.update (V:=V) ts id patch);
  _ ← announce thread;
  _ ← acted thread.(AgentThread.project_id) None "thread.updated";
  active ← is_active_ thread.(AgentThread.id);
  _ ← (if (bool_decide (thread.(AgentThread.status) = TaskStatus.Done) ||
           bool_decide (thread.(AgentThread.status) = TaskStatus.Cancelled)) && negb active
       then sys_ (cleanup_thread_sandboxes thread.(AgentThread.id)) else mret ());
  mret thread.

Definition list_thread_repos (thread_id : string) : T E (list AgentThreadRepo.t) := repos_ (list_for_thread thread_id).

Definition assign_thread_repos (thread_id : string) (repo_ids : list string) : T E (list AgentThreadRepo.t) :=
  found ← find_thread thread_id;
  thread ← lift_opt found NotFound;
  _ ← each_repo_exists repo_ids;
  existing ← list_thread_repos thread_id;
  _ ← fail_when (existsb (fun repo => bool_decide (is_Some repo.(AgentThreadRepo.worktree_path))) existing)
        (Other "cannot change repositories after a thread workspace has been created");
  _ ← replace_thread_repos thread_id repo_ids;
  _ ← acted thread.(AgentThread.project_id) None "thread.repos_selected";
  list_thread_repos thread_id.

(** ** Workspaces *)

Definition thread_workspace_path (thread_id : string) (backend : ExecutionBackend.t) : string :=
  match backend with
  | ExecutionBackend.Host | ExecutionBackend.Cloud => join (join data_dir "workbench") thread_id
  | ExecutionBackend.DockerSandbox => join (join (join data_dir "sandbox-workspaces") "workbench") thread_id
  end.

Definition thread_execution_backend (thread : AgentThread.t) (requested : option ExecutionBackend.t) : T E ExecutionBackend.t :=
  match requested with
  | Some requested => mret requested
  | None => _ ← list_thread_repos thread.(AgentThread.id); mret thread.(AgentThread.execution_backend)
  end.

(** The checkout itself, for a host run on one repository. *)
Definition visible_repo_workspace (links : list AgentThreadRepo.t) (backend : ExecutionBackend.t) (permission : PermissionPolicy.t) :
  T E (option string) :=
  match links with
  | [link] =>
      if negb (bool_decide (backend = ExecutionBackend.Host)) then mret None
      else
        found ← repos_ (get_repo link.(AgentThreadRepo.repo_id));
        repo ← lift_opt found NotFound;
        repo_path ← lift_opt repo.(Repo.local_path) (Other "repository has no local path");
        already ← (if bool_decide (link.(AgentThreadRepo.workspace_backend) = ExecutionBackend.Host) then
                     match link.(AgentThreadRepo.worktree_path) with
                     | Some path => same_path path repo_path
                     | None => mret false
                     end
                   else mret false);
        if (already : bool) then mret (Some repo_path)
        else if bool_decide (permission = PermissionPolicy.ReadOnly) then mret None
        else mret (Some repo_path)
  | _ => mret None
  end.

(** The link's worktree is there and fits the run. *)
Definition link_ready (link : AgentThreadRepo.t) (backend : ExecutionBackend.t) (worktree : string) : T E bool :=
  match link.(AgentThreadRepo.worktree_path) with
  | Some path =>
      if bool_decide (link.(AgentThreadRepo.workspace_backend) = backend) ||
         (bool_decide (backend = ExecutionBackend.Host) &&
          bool_decide (link.(AgentThreadRepo.workspace_backend) = ExecutionBackend.DockerSandbox))
      then
        exists_ ← sys_ (path_exists path);
        if (exists_ : bool) then same_path path worktree else mret false
      else mret false
  | None => mret false
  end.

(** One repository's worktree in the workspace, and its link. *)
Definition ensure_link (thread : AgentThread.t) (backend : ExecutionBackend.t) (workspace : string) (visible : bool)
  (link : AgentThreadRepo.t) : T E () :=
  found ← repos_ (get_repo link.(AgentThreadRepo.repo_id));
  repo ← lift_opt found NotFound;
  repo_path ← lift_opt repo.(Repo.local_path) (Other "repository has no local path");
  let worktree := if visible then repo_path else join workspace (safe_repo_dir repo.(Repo.name) repo.(Repo.id)) in
  ready ← link_ready link backend worktree;
  if (ready : bool) then mret ()
  else
    let branch := "am/thread-" +:+ first_part thread.(AgentThread.id) +:+ "-" +:+ first_part repo.(Repo.id) in
    base_ref ← vcs (head_sha repo_path);
    _ ← (if visible then mret () else
         match backend with
         | ExecutionBackend.Host | ExecutionBackend.Cloud => vcs (create_worktree repo_path worktree branch base_ref)
         | ExecutionBackend.DockerSandbox => vcs (create_clone_workspace repo_path worktree branch base_ref)
         end);
    branch ← (if visible then
                info ← sys_ (open_repo repo_path false);
                mret (match info with Ok info => git_default_branch info | Err _ => "HEAD" end)
              else mret branch);
    at_desk (at_host (fun host =>
      upsert_thread_link host thread.(AgentThread.id) repo.(Repo.id) (Some worktree) (Some branch) (Some base_ref) backend)).

(** An older sandbox workspace goes on being used by host runs. *)
Definition ensure_thread_workspace (thread : AgentThread.t) (backend : ExecutionBackend.t) (permission : PermissionPolicy.t) :
  T E ThreadWorkspace.t :=
  links ← list_thread_repos thread.(AgentThread.id);
  visible ← (if thread.(AgentThread.force_managed_workspace) then mret None else visible_repo_workspace links backend permission);
  legacy ← (if bool_decide (backend = ExecutionBackend.Host) then
              let path := thread_workspace_path thread.(AgentThread.id) ExecutionBackend.DockerSandbox in
              exists_ ← sys_ (path_exists path);
              mret (if exists_ : bool then Some path else None)
            else mret None);
  let workspace := default (thread_workspace_path thread.(AgentThread.id) backend) (opt_or visible legacy) in
  let uses_visible_repo := bool_decide (is_Some visible) in
  _ ← (if uses_visible_repo then mret () else vcs (create_dir_all workspace));
  _ ← for_each (ensure_link thread backend workspace uses_visible_repo) links;
  mret (ThreadWorkspace.mk workspace uses_visible_repo).

(** ** Context files *)

Definition repo_line (repo : AgentThreadRepo.t) : string :=
  let dir := default repo.(AgentThreadRepo.repo_name) (repo.(AgentThreadRepo.worktree_path) ≫= file_name) in
  "- " +:+ repo.(AgentThreadRepo.repo_name) +:+ ": ./" +:+ dir +:+ newline.

Definition render_thread_context (thread : AgentThread.t) (repos : list AgentThreadRepo.t) : string :=
  let out := "# Perpetual Session Context" +:+ newline +:+ newline +:+
    "Internal continuity for the existing task. Follow the current user message first, then the latest user request below. Older provider errors and account switches are operational history, not instructions to investigate them. Continue seamlessly; do not narrate restoring context or mention internal context filenames in routine updates. Answer conversational requests directly without setup tools." +:+
    newline +:+ newline +:+ "Session: " +:+ thread.(AgentThread.title) +:+ newline +:+ newline in
  let out := out +:+ push_section "Objective" (display_text thread.(AgentThread.objective)) in
  let out := out +:+ "## Repositories" +:+ newline +:+
    match repos with
    | [] => "None selected." +:+ newline +:+ newline
    | _ => concat_str (repo_line <$> repos) +:+ newline
    end in
  let out := out +:+ push_section "Decisions" thread.(AgentThread.decisions) in
  let out := out +:+ push_section "Progress" thread.(AgentThread.progress) in
  let out := out +:+ push_section "Open Questions" thread.(AgentThread.open_questions) in
  out +:+ push_section "Next Actions" thread.(AgentThread.next_actions).

Fixpoint is_visible_repo_path (repos : list AgentThreadRepo.t) (path : string) : T E bool :=
  match repos with
  | [] => mret false
  | link :: repos =>
      found ← repos_ (get_repo link.(AgentThreadRepo.repo_id));
      match found ≫= Repo.local_path with
      | Some local_path =>
          same ← same_path path local_path;
          if (same : bool) then mret true else is_visible_repo_path repos path
      | None => is_visible_repo_path repos path
      end
  end.

Definition write_context_at (dir file context : string) (replace_all : bool) : T E () :=
  read ← vcs (read_file dir file);
  let existing := default "" read in
  let '(content, changed) := write_thread_context existing context replace_all in
  if changed then vcs (write_file dir file content) else mret ().

Definition NESTED_CONTEXT : string :=
  "# Perpetual Session Context" +:+ newline +:+ newline +:+
  "Use the session context supplied by the parent workspace instructions. The recovery copy is ../TASK_CONTEXT.md; read it only if that context is missing." +:+ newline.

Definition render_nested (repo : AgentThreadRepo.t) : T E () :=
  match repo.(AgentThreadRepo.worktree_path) with
  | Some path =>
      exists_ ← sys_ (path_exists path);
      if negb exists_ then mret ()
      else
        visible ← is_visible_repo_path [repo] path;
        if (visible : bool) then mret ()
        else for_each (fun file => write_context_at path file NESTED_CONTEXT false) ["CLAUDE.md"; "AGENTS.md"]
  | None => mret ()
  end.

Definition render_thread_context_files (thread : AgentThread.t) (workspace : string) : T E () :=
  repos ← list_thread_repos thread.(AgentThread.id);
  let block := render_thread_context thread repos in
  latest ← table (Transcripts.latest_user_message (V:=V) thread.(AgentThread.id));
  let block := match latest ≫= AgentThreadEvent.text with
               | Some text =>
                   block +:+ push_section "Latest user request (continue this unless the current message supersedes it)" (display_text text)
               | None => block
               end in
  visible ← is_visible_repo_path repos workspace;
  _ ← (if (visible : bool) then mret ()
       else for_each (fun file => write_context_at workspace file block (String.eqb file "TASK_CONTEXT.md"))
              ["TASK_CONTEXT.md"; "CLAUDE.md"; "AGENTS.md"]);
  for_each render_nested repos.

(** ** Diffs *)

(** [git_read]: the output, when git succeeds. *)
Definition git_read (repo : string) (args : list string) : T E string :=
  output ← vcs (run_git repo args);
  if bool_decide (output.(GitOutput.code) = Some 0) then mret output.(GitOutput.stdout) else throw (Other (trim output.(GitOutput.stderr))).

(** [git diff --no-index] ends with 1 when there are differences. *)
Definition git_untracked_diff (repo path : string) (stats : bool) : T E string :=
  output ← vcs (run_git repo (["-c"; "core.quotepath=false"; "diff"; "--no-index"] ++
                  (if stats then ["--numstat"] else ["--binary"; "--full-index"]) ++ ["--"; "/dev/null"; path])%list);
  if bool_decide (output.(GitOutput.code) = Some 0) || bool_decide (output.(GitOutput.code) = Some 1) then mret output.(GitOutput.stdout)
  else throw (Other (trim output.(GitOutput.stderr))).

(** The files git does not track, after those it lists. *)
Fixpoint add_untracked (repo : string) (max_bytes : Z) (paths : list string) (files : list FileChange.t) (patch : string) :
  T E (list FileChange.t * string) :=
  match paths with
  | [] => mret (files, patch)
  | path :: paths =>
      if existsb (fun file => String.eqb file.(FileChange.path) path) files then add_untracked repo max_bytes paths files patch
      else
        stat ← git_untracked_diff repo path true;
        let '(additions, deletions) := match parse_numstat stat with (a, d, _) :: _ => (a, d) | [] => (0, 0) end in
        let files := (files ++ [FileChange.mk path "untracked" additions deletions])%list in
        more ← (if len patch <? max_bytes then git_untracked_diff repo path false else mret "");
        add_untracked repo max_bytes paths files (patch +:+ more)
  end.

Definition direct_repo_diff_with_excludes (repo : string) (max_bytes : Z) (exclude_paths : list string) : T E TaskDiff.t :=
  exists_ ← sys_ (path_exists repo);
  if negb exists_ then mret no_diff
  else
    base_sha ← vcs (head_sha repo);
    name_status ← git_read repo (git_diff_args ["diff"; "--name-status"; base_sha] exclude_paths false);
    numstat ← git_read repo (git_diff_args ["diff"; "--numstat"; base_sha] exclude_paths false);
    patch ← git_read repo (git_diff_args ["diff"; "--binary"; "--full-index"; base_sha] exclude_paths false);
    let files := merge_file_changes name_status numstat in
    listed ← attempt (git_read repo (git_diff_args ["ls-files"; "--others"; "--exclude-standard"; "-z"] exclude_paths true));
    let untracked := filter (fun path => is_empty path = false) (split_on "000"%char (default "" listed)) in
    '(files, patch) ← add_untracked repo max_bytes untracked files patch;
    branch ← attempt (git_read repo ["symbolic-ref"; "--quiet"; "--short"; "HEAD"]);
    let branch := match branch with Some value => if is_empty (trim value) then None else Some value | None => None end in
    head_ref ← attempt (vcs (head_sha repo));
    mret (TaskDiff.mk files (capped_patch max_bytes patch) None None None branch (Some base_sha) head_ref (Some repo)).

(** The diff of a linked worktree against its base, or of the visible checkout. *)
Definition link_diff (uses_visible_repo : bool) (worktree base_ref : string) : T E TaskDiff.t :=
  if uses_visible_repo then direct_repo_diff_with_excludes worktree MAX_DIFF_BYTES GENERATED_CONTEXT_FILES
  else vcs (worktree_diff_with_excludes worktree base_ref MAX_DIFF_BYTES GENERATED_CONTEXT_FILES).

Definition repo_diff (full_managed_patch : bool) (link : AgentThreadRepo.t) : T E (option AgentThreadRepoDiff.t) :=
  match link.(AgentThreadRepo.worktree_path), link.(AgentThreadRepo.base_ref) with
  | Some worktree, Some base_ref =>
      repo ← repos_ (get_repo link.(AgentThreadRepo.repo_id));
      uses_visible_repo ← match repo ≫= Repo.local_path with
                          | Some path => same_path worktree path
                          | None => mret false
                          end;
      diff ← link_diff uses_visible_repo worktree base_ref;
      patch ← (if full_managed_patch && negb uses_visible_repo
               then vcs (worktree_patch_with_excludes worktree base_ref GENERATED_CONTEXT_FILES)
               else mret diff.(TaskDiff.patch));
      mret (Some (AgentThreadRepoDiff.mk link.(AgentThreadRepo.repo_id) link.(AgentThreadRepo.repo_name) (repo ≫= Repo.remote_url)
        diff.(TaskDiff.branch) (opt_or diff.(TaskDiff.base_ref) (Some base_ref)) diff.(TaskDiff.head_ref)
        diff.(TaskDiff.worktree_path) diff.(TaskDiff.files) patch))
  | _, _ => mret None
  end.

Fixpoint collect_diffs (full_managed_patch : bool) (links : list AgentThreadRepo.t) : T E (list AgentThreadRepoDiff.t) :=
  match links with
  | [] => mret []
  | link :: links =>
      diff ← repo_diff full_managed_patch link;
      rest ← collect_diffs full_managed_patch links;
      mret (option_list diff ++ rest)%list
  end.

Definition thread_diff (thread_id : string) : T E AgentThreadDiff :=
  found ← find_thread thread_id;
  links ← list_thread_repos thread_id;
  repos ← collect_diffs (match found with Some t => t.(AgentThread.force_managed_workspace) | None => false end) links;
  mret (mkDiff repos).

(** ** Applying changes to the visible repositories *)

Definition blocked (r : AgentThreadRepoApplyResult.t) (blocker reason : string) : Checked :=
  Blocked (AgentThreadRepoApplyResult.set_blocker (Some blocker) r) (r.(AgentThreadRepoApplyResult.repo_name) +:+ ": " +:+ reason).

(** The first five of the paths in the way. *)
Definition dirty_message (dirty : list string) : string :=
  "Visible repo has uncommitted changes in " +:+ String.concat ", " (take 5 dirty) +:+
  (if (5 <? length dirty)%nat then ", ..." else "").

Definition check_link (link : AgentThreadRepo.t) : T E Checked :=
  repo ← repos_ (get_repo link.(AgentThreadRepo.repo_id));
  let target_path := repo ≫= Repo.local_path in
  let r := AgentThreadRepoApplyResult.mk link.(AgentThreadRepo.repo_id) link.(AgentThreadRepo.repo_name) target_path
             link.(AgentThreadRepo.worktree_path) [] false None in
  match target_path, link.(AgentThreadRepo.worktree_path), link.(AgentThreadRepo.base_ref) with
  | None, _, _ => mret (blocked r "Repository has no visible local path." "repository has no visible local path")
  | Some _, None, _ => mret (Settled r)
  | Some _, Some _, None => mret (blocked r "Managed worktree has no base revision." "managed worktree has no base revision")
  | Some target, Some worktree, Some base_ref =>
      uses_visible_repo ← same_path worktree target;
      diff ← link_diff uses_visible_repo worktree base_ref;
      let r := AgentThreadRepoApplyResult.set_files diff.(TaskDiff.files) r in
      if bool_decide (diff.(TaskDiff.files) = []) then mret (Settled r)
      else if (uses_visible_repo : bool) then mret (Settled (AgentThreadRepoApplyResult.set_applied true r))
      else
        dirty ← vcs (dirty_paths target (FileChange.path <$> diff.(TaskDiff.files)));
        if negb (bool_decide (dirty = [])) then mret (blocked r (dirty_message dirty) (dirty_message dirty))
        else
          patch ← vcs (worktree_patch_with_excludes worktree base_ref GENERATED_CONTEXT_FILES);
          checked ← sys_ (check_patch_applies target patch);
          _ ← did (TaskEffect.PatchChecked target patch (is_ok checked));
          match checked with
          | Err err => let message := "Patch does not apply cleanly: " +:+ err in mret (blocked r message message)
          | Ok _ => mret (Prepared (PreparedRepo.mk r target worktree link.(AgentThreadRepo.branch) link.(AgentThreadRepo.workspace_backend) patch))
          end
  end.

(** The results so far, the blockers, and what is ready. *)
Fixpoint check_links (links : list AgentThreadRepo.t) :
  T E (list AgentThreadRepoApplyResult.t * list string * list PreparedRepo.t) :=
  match links with
  | [] => mret ([], [], [])
  | link :: links =>
      checked ← check_link link;
      '(repos, blockers, prepared) ← check_links links;
      mret match checked with
           | Settled r => (r :: repos, blockers, prepared)
           | Blocked r reason => (r :: repos, reason :: blockers, prepared)
           | Prepared item => (repos, blockers, item :: prepared)
           end
  end.

Definition CHECKPOINT_MESSAGE : string := "Perpetual applied changes checkpoint".

(** The managed worktree keeps the content and its base moves past it. *)
Definition apply_prepared (thread_id : string) (item : PreparedRepo.t) : T E (AgentThreadRepoApplyResult.t * option string) :=
  _ ← vcs (apply_patch_to_repo item.(PreparedRepo.target) item.(PreparedRepo.patch));
  _ ← did (TaskEffect.PatchApplied item.(PreparedRepo.target) item.(PreparedRepo.patch));
  checkpoint ← sys_ (checkpoint_worktree_with_excludes item.(PreparedRepo.worktree) CHECKPOINT_MESSAGE GENERATED_CONTEXT_FILES);
  let r := AgentThreadRepoApplyResult.set_applied true item.(PreparedRepo.result) in
  match checkpoint with
  | Ok (Some base_ref) =>
      _ ← at_desk (at_host (fun host => upsert_thread_link host thread_id r.(AgentThreadRepoApplyResult.repo_id) (Some item.(PreparedRepo.worktree))
            item.(PreparedRepo.branch) (Some base_ref) item.(PreparedRepo.workspace_backend)));
      mret (r, None)
  | Ok None => mret (r, None)
  | Err err =>
      let message := "Changes were applied, but the managed workspace could not be checkpointed: " +:+ err in
      _ ← acted None None "thread.workspace_checkpoint_failed";
      mret (AgentThreadRepoApplyResult.set_blocker (Some message) r,
            Some (r.(AgentThreadRepoApplyResult.repo_name) +:+ ": " +:+ message))
  end.

Fixpoint apply_all (thread_id : string) (prepared : list PreparedRepo.t) : T E (list AgentThreadRepoApplyResult.t * list string) :=
  match prepared with
  | [] => mret ([], [])
  | item :: prepared =>
      '(r, blocker) ← apply_prepared thread_id item;
      '(repos, blockers) ← apply_all thread_id prepared;
      mret (r :: repos, option_list blocker ++ blockers)%list
  end.

Definition apply_thread_changes (thread_id : string) : T E AgentThreadApplyResult.t :=
  found ← find_thread thread_id;
  _ ← lift_opt found NotFound;
  active ← is_active_ thread_id;
  if (active : bool) then
    mret (AgentThreadApplyResult.mk thread_id false [] ["Stop the running session before applying managed changes."])
  else
    links ← list_thread_repos thread_id;
    '(repos, blockers, prepared) ← check_links links;
    if negb (bool_decide (blockers = [])) then
      mret (AgentThreadApplyResult.mk thread_id false (repos ++ (PreparedRepo.result <$> prepared))%list blockers)
    else
      '(applied, blockers) ← apply_all thread_id prepared;
      let repos := (repos ++ applied)%list in
      _ ← acted None None "thread.changes_applied";
      mret (AgentThreadApplyResult.mk thread_id (existsb AgentThreadRepoApplyResult.applied repos) repos blockers).

Definition import_collaboration_patch (thread_id repo_id patch : string) : T E () :=
  _ ← fail_when (16 * 1024 * 1024 <? len patch) (Other "Collaboration patch exceeds the 16 MiB safety limit.");
  found ← find_thread thread_id;
  thread ← lift_opt found NotFound;
  _ ← fail_when (negb thread.(AgentThread.force_managed_workspace))
        (Other "Peer patches may only be imported into managed collaboration workspaces.");
  _ ← ensure_thread_workspace thread thread.(AgentThread.execution_backend) PermissionPolicy.WorkspaceWrite;
  links ← list_thread_repos thread_id;
  link ← lift_opt (find (fun link => eq_str link.(AgentThreadRepo.repo_id) repo_id) links)
           (Other "Repository is not attached to the mirror.");
  worktree ← lift_opt link.(AgentThreadRepo.worktree_path) (Other "Managed workspace was not created.");
  checked ← sys_ (check_patch_applies worktree patch);
  _ ← did (TaskEffect.PatchChecked worktree patch (is_ok checked));
  match checked with
  | Err err => throw (Other ("This device's repository is not aligned with the shared workspace: " +:+ err))
  | Ok _ => _ ← vcs (apply_patch_to_repo worktree patch); did (TaskEffect.PatchApplied worktree patch)
  end.

(** ** Deleting a thread *)

Definition delete_managed_branch (repo : string) (branch : option string) : T E () :=
  match branch with
  | Some branch =>
      if negb (starts_with "am/thread-" branch) then mret ()
      else
        output ← vcs (run_git repo ["branch"; "-D"; branch]);
        _ ← did (TaskEffect.BranchDeleted repo branch);
        if bool_decide (output.(GitOutput.code) = Some 0) then mret ()
        else if contains "not found" output.(GitOutput.stderr) || contains "branch not found" output.(GitOutput.stderr) then mret ()
        else throw (Other (trim output.(GitOutput.stderr)))
  | None => mret ()
  end.

Definition cleanup_managed_workspace (repo worktree : string) (branch : option string) (backend : ExecutionBackend.t) : T E () :=
  match backend with
  | ExecutionBackend.Host | ExecutionBackend.Cloud =>
      _ ← did (TaskEffect.WorkspaceRemoved repo worktree backend);
      _ ← vcs (remove_worktree repo worktree);
      delete_managed_branch repo branch
  | ExecutionBackend.DockerSandbox =>
      exists_ ← sys_ (path_exists worktree);
      if (exists_ : bool) then
        _ ← did (TaskEffect.WorkspaceRemoved repo worktree backend);
        removed ← sys_ (remove_dir_all worktree);
        match removed with
        | Ok _ => mret ()
        | Err err => throw (Other ("failed to remove managed workspace " +:+ worktree +:+ ": " +:+ err))
        end
      else mret ()
  end.

(** The workspace of one link, unless it is the visible checkout. *)
Definition remove_workspace (id : string) (link : AgentThreadRepo.t) : T E () :=
  match link.(AgentThreadRepo.worktree_path) with
  | None => mret ()
  | Some worktree =>
      repo ← repos_ (get_repo link.(AgentThreadRepo.repo_id));
      match repo ≫= Repo.local_path with
      | None => mret ()
      | Some visible_repo =>
          same ← same_path worktree visible_repo;
          if (same : bool) then mret ()
          else
            let backend := link.(AgentThreadRepo.workspace_backend) in
            let managed_root := thread_workspace_path id backend in
            let expected := join managed_root (safe_repo_dir link.(AgentThreadRepo.repo_name) link.(AgentThreadRepo.repo_id)) in
            _ ← fail_when (negb (eq_path worktree expected))
                  (Other ("Refusing to remove a thread workspace outside its expected path: " +:+ worktree));
            exists_ ← see_path worktree;
            _ ← (if (exists_ : bool) then
                   resolved_root ← resolve_path managed_root;
                   resolved_worktree ← resolve_path worktree;
                   fail_when (negb (path_starts_with resolved_root resolved_worktree))
                     (Other ("Refusing to remove a thread workspace outside its managed directory: " +:+ worktree))
                 else mret ());
            cleanup_managed_workspace visible_repo worktree link.(AgentThreadRepo.branch) backend
      end
  end.

(** The links cascade with the thread. *)
Definition cascade_thread (id : string) : RepoM () :=
  modify (fun db => put_thread_links (filter (fun l => of_thread id l = false) db.(thread_links)) db).

(** Up to the links: the guards, the stop of a running session, the sandboxes. *)
Definition prepare_delete (id : string) (force : bool) : T E (bool * AgentThread.t) :=
  active ← is_active_ id;
  _ ← fail_when ((active : bool) && negb force) (Other "Stop the running session before deleting it.");
  found ← find_thread id;
  thread ← lift_opt found NotFound;
  _ ← (if (active : bool) then
         _ ← quietly (sys_ (cancel_session id));
         stopped ← sys_ (wait_until_inactive id);
         fail_when (negb stopped) (Other "the running session did not stop before deletion timed out")
       else mret ());
  _ ← sys_ (cleanup_thread_sandboxes id);
  mret (active, thread).

Definition delete_agent_thread (id : string) (force : bool) : T E () :=
  '(active, thread) ← prepare_delete id force;
  links ← list_thread_repos id;
  _ ← for_each (remove_workspace id) links;
  _ ← table (Threads.delete id);
  _ ← repos_ (cascade_thread id);
  acted thread.(AgentThread.project_id) None (if (active : bool) then "thread.force_deleted" else "thread.deleted").
End Work.
