(* ===== verification/ThreadWorkProps.v ===== *)
(** * Workspaces of threads: what is removed and what is applied

    Deleting a thread asks for the removal of nothing but its managed worktrees and
    branches; applying its changes checks every patch before the first is applied.
    Nothing is assumed of git, the file system or the other services. *)
From Stdlib Require Import Ascii String.
From S2P Require Import Prelude RustStr Json Enums Records Approvals WorkGraphDb WorkGraphInv Limits Budget SqlTable AgentDb ThreadText Attachments GitText CoreWorld TaskRepos ThreadFallback TaskTexts TaskNotes TurnLoop CoreDemo FallbackProps TurnProps TurnStatus Scheduler TaskRuns TaskProps ThreadWork.
#[local] Open Scope string_scope.
#[local] Open Scope Z_scope.

Section Only.
Context {E : Type}.


(** Every effect of a kind. *)
Definition only (ok : TaskEffect.t -> Prop) {A} (m : T E A) : Prop := outcome m (fun l _ => Forall ok l).

Lemma only_silent ok {A} (m : T E A) : silent m -> only ok m.
Proof. intros Hm. by apply outcome_silent. Qed.
Lemma only_bind ok {A B} (m : T E A) (f : A -> T E B) : only ok m -> (forall a, only ok (f a)) -> only ok (m ≫= f).
Proof.
  intros Hm Hf. eapply outcome_then; [exact Hm|done|]. intros a l Hl. cbn. eapply outcome_mono; [|apply Hf].
  intros l' r Hl'. cbn in *. by apply Forall_app.
Qed.
Lemma only_for_each ok {A} (f : A -> T E ()) l : (forall a, only ok (f a)) -> only ok (for_each f l).
Proof. intros Hf. induction l as [|a l IH]; cbn; [by apply only_silent, silent_ret|by apply only_bind]. Qed.
End Only.

Section Props.
Context {V : Type} `{Json V} `{!BudgetSerde V} `{!TextSerde (list Attachment.t)} `{!Codecs} `{Chrono}.
Context {E : Type} `{CoreServices E} `{!TurnServices E} `{!RepoServices E} `{!TaskFiles E} `{!RunServices E} `{!WorkServices E}.
Implicit Types s : Tasks E.

Lemma silent_vcs {A} (m : SysM E (result string A)) : silent (vcs m).
Proof. apply silent_bind; [apply silent_sys|]. intros [a|e]; [apply silent_ret|apply silent_throw]. Qed.
Lemma silent_repos {A} (m : RepoM A) : silent (repos_ (E:=E) m).
Proof. apply silent_desk. Qed.
Lemma silent_active id : silent (is_active_ (E:=E) id).
Proof. apply silent_desk. Qed.
Lemma silent_find id : silent (find_thread (V:=V) (E:=E) id).
Proof. apply silent_table. Qed.
Lemma silent_links id : silent (list_thread_repos (E:=E) id).
Proof. apply silent_desk. Qed.
Lemma silent_same a b : silent (same_path (E:=E) a b).
Proof. apply silent_bind; [apply silent_sys|]. intros. apply silent_bind; [apply silent_sys|]. intros. apply silent_ret. Qed.
End Props.
#[export] Hint Resolve silent_vcs silent_repos silent_active silent_find silent_links silent_same : tasks.

Section Deleting.
Context {V : Type} `{Json V} `{!BudgetSerde V} `{!TextSerde (list Attachment.t)} `{!Codecs} `{Chrono}.
Context {E : Type} `{CoreServices E} `{!TurnServices E} `{!RepoServices E} `{!TaskFiles E} `{!RunServices E} `{!WorkServices E}.
Implicit Types s : Tasks E.













End Deleting.

(** ** Applying *)
Section Applying.
Context {V : Type} `{Json V} `{!BudgetSerde V} `{!TextSerde (list Attachment.t)} `{!Codecs} `{Chrono}.
Context {E : Type} `{CoreServices E} `{!TurnServices E} `{!RepoServices E} `{!TaskFiles E} `{!RunServices E} `{!WorkServices E}.
Implicit Types s : Tasks E.

Definition is_check (e : TaskEffect.t) : bool := match e with TaskEffect.PatchChecked _ _ _ => true | _ => false end.
Definition failed_check (e : TaskEffect.t) : bool := match e with TaskEffect.PatchChecked _ _ applies => negb applies | _ => false end.
(** The patches that were found to apply, with their targets. *)
Definition passed (l : list TaskEffect.t) : list (string * string) :=
  omap (fun e => match e with TaskEffect.PatchChecked target patch true => Some (target, patch) | _ => None end) l.
Definition applied_patch (p : string * string) : TaskEffect.t := TaskEffect.PatchApplied p.1 p.2.
Definition patch_of (item : PreparedRepo.t) : string * string := (item.(PreparedRepo.target), item.(PreparedRepo.patch)).

Lemma silent_git repo args : silent (git_read (E:=E) repo args).
Proof. unfold git_read. apply silent_bind; [apply silent_vcs|]. intros. case_match; [apply silent_ret|apply silent_throw]. Qed.
Lemma silent_untracked repo path stats : silent (git_untracked_diff (E:=E) repo path stats).
Proof. unfold git_untracked_diff. apply silent_bind; [apply silent_vcs|]. intros. case_match; [apply silent_ret|apply silent_throw]. Qed.
Lemma silent_add_untracked repo n paths files patch : silent (add_untracked (E:=E) repo n paths files patch).
Proof.
  revert files patch. induction paths as [|path paths IH]; intros files patch; cbn; [apply silent_ret|]. case_match; [done|].
  apply silent_bind; [apply silent_untracked|]. intros stat.
  destruct (parse_numstat stat) as [|[[a d] p] rest]; (apply silent_bind; [|intros; apply IH]);
    (case_match; [apply silent_untracked|apply silent_ret]).
Qed.
Lemma silent_direct repo n ex : silent (direct_repo_diff_with_excludes (E:=E) repo n ex).
Proof.
  unfold direct_repo_diff_with_excludes. apply silent_bind; [apply silent_sys|]. intros exists_. case_match; [apply silent_ret|].
  apply silent_bind; [apply silent_vcs|]. intros base. do 3 (apply silent_bind; [apply silent_git|intros]). cbn zeta.
  apply silent_bind; [apply emits_attempt, silent_git|]. intros listed. apply silent_bind; [apply silent_add_untracked|]. intros [files patch].
  apply silent_bind; [apply emits_attempt, silent_git|]. intros branch. apply silent_bind; [apply emits_attempt, silent_vcs|].
  intros head_ref. apply silent_ret.
Qed.
Lemma silent_link_diff b w base : silent (link_diff (E:=E) b w base).
Proof. unfold link_diff. case_match; [apply silent_direct|apply silent_vcs]. Qed.

(** One check: what is ready has a passed check, a failed check blocks. *)
Definition checked_right (l : list TaskEffect.t) (r : result CoreError Checked) : Prop :=
  match r with
  | Ok (Prepared item) => l = [TaskEffect.PatchChecked item.(PreparedRepo.target) item.(PreparedRepo.patch) true]
  | Ok (Blocked _ _) => l = [] \/ exists target patch, l = [TaskEffect.PatchChecked target patch false]
  | _ => l = []
  end.

Lemma outcome_check_link link : outcome (check_link (E:=E) link) checked_right.
Proof.
  unfold check_link. apply outcome_bind; [apply silent_repos|done|]. intros repo. cbn zeta.
  destruct (repo ≫= Repo.local_path) as [target|]; [|apply outcome_ret; by left].
  destruct (AgentThreadRepo.worktree_path link) as [worktree|]; [|by apply outcome_ret].
  destruct (AgentThreadRepo.base_ref link) as [base|]; [|apply outcome_ret; by left].
  apply outcome_bind; [apply silent_same|done|]. intros visible. apply outcome_bind; [apply silent_link_diff|done|]. intros diff. cbn zeta.
  case_match; [by apply outcome_ret|]. case_match; [by apply outcome_ret|].
  apply outcome_bind; [apply silent_vcs|done|]. intros dirty. case_match; [apply outcome_ret; by left|].
  apply outcome_bind; [apply silent_vcs|done|]. intros patch. apply outcome_bind; [apply silent_sys|done|]. intros checked.
  apply outcome_did. destruct checked as [[]|err]; apply outcome_ret; cbn; [done|]. right. eauto.
Qed.

Definition all_checked (l : list TaskEffect.t) (blockers : list string) (prepared : list PreparedRepo.t) : Prop :=
  forallb is_check l = true /\ passed l = patch_of <$> prepared /\ (existsb failed_check l = true -> blockers <> []).

Lemma outcome_check_links links : outcome (check_links (E:=E) links) (fun l r =>
  match r with Ok (_, blockers, prepared) => all_checked l blockers prepared | Err _ => forallb is_check l = true end).
Proof.
  induction links as [|link links IH]; [by apply outcome_ret|]. cbn [check_links].
  eapply outcome_then; [apply outcome_check_link| |].
  { intros l e. cbn. by intros ->. }
  intros checked l Hl. eapply outcome_then; [apply IH| |].
  { intros l' e Hl'. cbn in *. rewrite forallb_app, Hl', andb_true_r. destruct checked; cbn in Hl; [by subst..| |by subst].
    by destruct Hl as [->|(? & ? & ->)]. }
  intros [[repos blockers] prepared] l' (Hc & Hp & Hf). apply outcome_ret. rewrite app_nil_r. unfold passed in *.
  destruct checked as [r|r reason|item]; cbn in Hl.
  - subst l. by split_and!.
  - split_and!; [| |done].
    + by destruct Hl as [->|(? & ? & ->)].
    + rewrite <- Hp. by destruct Hl as [->|(? & ? & ->)].
  - subst l. split_and!; [done| |done]. by rewrite fmap_cons, <- Hp.
Qed.

Lemma outcome_apply_all id prepared : outcome (apply_all (E:=E) id prepared) (fun l r =>
  exists n, l = applied_patch <$> take n (patch_of <$> prepared) /\ (is_ok r = true -> (length prepared <= n)%nat)).
Proof.
  induction prepared as [|item prepared IH]; [apply outcome_ret; by exists 0%nat|]. cbn [apply_all].
  eapply (outcome_then _ _ (fun l r => l = [applied_patch (patch_of item)] \/ l = [] /\ is_ok r = false)).
  - unfold apply_prepared. apply outcome_bind; [apply silent_vcs|by right|]. intros _. apply outcome_did.
    apply outcome_bind; [apply silent_sys|by left|]. intros checkpoint. cbn zeta.
    destruct checkpoint as [[base|]|err]; [|apply outcome_ret; by left|];
      (apply outcome_bind; [apply silent_desk|by left|]; intros _; apply outcome_ret; by left).
  - intros l e [->|[-> _]]; [by exists 1%nat|by exists 0%nat].
  - intros [r blocker] l [->|[_ ?]]; [|done]. eapply outcome_then; [apply IH| |].
    + intros l' e (n & -> & _). by exists (S n).
    + intros [repos blockers] l' (n & -> & Hn). apply outcome_ret. exists (S n). rewrite app_nil_r. split; [done|].
      cbn. intros _. specialize (Hn eq_refl). lia.
Qed.

(** C19: Applying a thread's changes first checks every patch against its visible
    repository and only then applies: nothing is applied when a check failed or
    when another blocker was found, and otherwise the patches that passed are
    applied in order, each once.  An answer means either that all of them were
    applied, or that none was and the blockers are reported; an error can stop the
    applying between two repositories. *)
Theorem changes_checked_before_applied thread_id s :
  exists checks n,
    (final (apply_thread_changes (V:=V) (E:=E) thread_id) s).(effects) =
      (s.(effects) ++ checks ++ (applied_patch <$> take n (passed checks)))%list /\
    forallb is_check checks = true /\ (existsb failed_check checks = true -> n = 0%nat) /\
    match value (apply_thread_changes (V:=V) (E:=E) thread_id) s with
    | Ok r => (length (passed checks) <= n)%nat \/
              n = 0%nat /\ r.(AgentThreadApplyResult.applied) = false /\ r.(AgentThreadApplyResult.blockers) <> []
    | Err _ => True
    end.
Proof.
  assert (outcome (apply_thread_changes (V:=V) (E:=E) thread_id) (fun l r => exists checks n,
    l = (checks ++ (applied_patch <$> take n (passed checks)))%list /\ forallb is_check checks = true /\
    (existsb failed_check checks = true -> n = 0%nat) /\
    match r with
    | Ok r => (length (passed checks) <= n)%nat \/
              n = 0%nat /\ r.(AgentThreadApplyResult.applied) = false /\ r.(AgentThreadApplyResult.blockers) <> []
    | Err _ => True
    end)) as Ho.
  { unfold apply_thread_changes. apply outcome_bind; [apply silent_find|by exists [], 0%nat|]. intros found.
    apply outcome_bind; [apply silent_lift_opt|by exists [], 0%nat|intros _].
    apply outcome_bind; [apply silent_active|by exists [], 0%nat|]. intros [|].
    { apply outcome_ret. exists [], 0%nat. split_and!; [done..|]. by right. }
    apply outcome_bind; [apply silent_links|by exists [], 0%nat|]. intros links.
    eapply outcome_then; [apply outcome_check_links| |].
    { intros l e Hl. exists l, 0%nat. by rewrite app_nil_r. }
    intros [[repos blockers] prepared] l (Hc & Hp & Hf). case_bool_decide as Hb; cbn [negb].
    - eapply outcome_then; [apply outcome_apply_all| |].
      + intros l' e (n & -> & _). exists l, n. rewrite Hp. split_and!; [done..| |done]. intros Hx. by destruct (Hf Hx).
      + intros [applied more] l' (n & -> & Hn). apply outcome_bind; [apply silent_acted| |].
        * intros e. exists l, n. rewrite Hp, app_nil_r. split_and!; [done..| |done]. intros Hx. by destruct (Hf Hx).
        * intros _. apply outcome_ret. exists l, n. rewrite Hp, app_nil_r. split_and!; [done..| |left].
          -- intros Hx. by destruct (Hf Hx).
          -- rewrite length_fmap. by apply Hn.
    - apply outcome_ret. exists l, 0%nat. split_and!; [done..|by right]. }
  destruct (Ho s) as (l & Hl). unfold final, value. destruct (apply_thread_changes thread_id s) as [s' r].
  destruct Hl as (Heff & _ & checks & n & -> & Hl). exists checks, n. split; [done|exact Hl].
Qed.
End Applying.
