(* ===== verification/ThreadRuns.v ===== *)
(** * Launching and steering threads (crates/am-core/src/agent_thread.rs)

    [run_agent_thread_inner_locked] starts a turn of a thread: refusals and queueing,
    the target and its budget, the account, the workspace and its context files, the
    message to deliver, a permit, the sandbox, the rows, the prompt, the process.
    [send_thread_message] queues or runs; [edit_thread_message] rewinds the
    conversation to a message and runs it again, or puts everything back.

    The lock of the start is [SessionManager]'s; here a launch is one sequence of
    steps.  A launch that re-enters the launch of another agent does so through
    class [CoreServices]. *)
From Stdlib Require Import Ascii String SpecFloat.
From stdpp Require Import pretty.
From S2P Require Import Prelude RustStr Json Enums Records Doubles Approvals WorkGraphDb WorkGraphInv Limits Budget SqlTable AgentDb ThreadText Attachments GitText CoreWorld TaskRepos ThreadFallback TaskTexts TaskNotes TurnLoop Scheduler TaskRuns ThreadWork.
#[local] Open Scope string_scope.
#[local] Open Scope Z_scope.

Module LocalModelRuntime.
Record t := mk { provider : LocalModelProviderKind.t; model : string; base_url : option string; api_token : option string }.
Definition target (r : t) : LocalModelTarget.t := LocalModelTarget.mk r.(provider) r.(model) r.(base_url).
End LocalModelRuntime.

(** [SessionSpec] of a turn; the other policy fields keep their defaults. *)
Module ThreadSpec.
Record t := mk {
  worktree : string;
  prompt : string;
  model : option string;
  reasoning : option string;
  local_model : option LocalModelRuntime.t;
  permission : PermissionPolicy.t;
  backend : ExecutionBackend.t;
  sandbox : option string;
  task_budget : TaskBudget.t;
  launch_env : list (string * string);
  provider_account_id : option string;
  approver : option ApprovalScope
}.
End ThreadSpec.

Class ThreadServices (E : Type) := {
  (** the assignments that have not ended, expired ones aside *)
  has_active_collaboration_assignment : string -> SysM E bool;
  list_open_assignments : SysM E (list CollaborationAssignment.t);
  (** [cloud_run::active_for_thread(..).is_some()] *)
  cloud_active : string -> SysM E bool;
  select_provider_account_for : AgentKind.t -> option string -> SysM E AccountSelection;
  load_lm_studio_token : SysM E (option string);
  (** [task_budget_state::get] and [from_json] *)
  budget_state : string -> SysM E (result string EnforcementState);
  (** [sessions.try_acquire], [sessions.acquire_queued] for the thread's project *)
  try_acquire_session : option string -> SysM E bool;
  acquire_queued_session : option string -> SysM E ();
  (** [std::env::var("GIT_CONFIG_COUNT")] *)
  git_config_count : SysM E (option string);
  (** the files of a workspace, as [Attachments] reads and writes them *)
  in_workspace : forall {A : Type}, string -> FileM A -> SysM E (result string A);
  open_thread_session : AgentKind.t -> option string -> ThreadSpec.t -> SysM E (result string ());
  delete_queued_turn_row : string -> SysM E ();
  update_queued_turn_message : string -> string -> SysM E ()
}.

(** ** What the agent is told of its budget (budget.rs) *)

(** [{:.1}] of a finite double: its value rounded to a tenth, ties to even. *)
Definition round_half_even (n d : Z) : Z :=
  let q := n / d in
  match Z.compare (2 * (n mod d)) d with
  | Lt => q
  | Gt => q + 1
  | Eq => if Z.even q then q else q + 1
  end.
Definition tenths (x : f64) : Z :=
  match x with
  | S754_finite _ m e => if 0 <=? e then 10 * Z.pos m * 2 ^ e else round_half_even (10 * Z.pos m) (2 ^ (- e))
  | _ => 0
  end.
Definition f64_sign (x : f64) : bool :=
  match x with S754_zero s | S754_infinity s | S754_finite s _ _ => s | S754_nan => false end.
Definition show_tenth (x : f64) : string :=
  match x with
  | S754_nan => "NaN"
  | S754_infinity s => if s then "-inf" else "inf"
  | _ => (if f64_sign x then "-" else "") +:+ pretty (tenths x / 10) +:+ "." +:+ pretty (tenths x mod 10)
  end.

Definition launch_instruction (budget : TaskBudget.t) (used_tokens : Z) (used_weekly_percent : f64) : option string :=
  match budget with
  | TaskBudget.Unlimited => None
  | TaskBudget.Tokens limit_tokens =>
      Some ("Session task budget: " +:+ pretty limit_tokens +:+
        " total input and output tokens across all turns and provider changes. Provider reports show " +:+ pretty used_tokens +:+
        " used before this turn, leaving about " +:+ pretty (u_saturating_sub limit_tokens used_tokens) +:+
        " tokens. Plan this turn within the remaining allowance; reserve capacity for validation and a concise completed/remaining/current-state response. Usage arrives after model steps, so one response may overshoot the cap.")
  | TaskBudget.WeeklyPercent limit_percent =>
      let remaining := f64_max (f64_sub (f64_of_int limit_percent) used_weekly_percent) f64_zero in
      Some ("Session task budget: increase the selected Codex account's 7-day usage by at most " +:+ pretty limit_percent +:+
        " percentage points across all turns. Provider reports show approximately " +:+ show_tenth used_weekly_percent +:+
        " points consumed before this turn, leaving about " +:+ show_tenth remaining +:+
        " points. Plan this turn within the remaining allowance; reserve capacity for validation and a concise completed/remaining/current-state response. Account usage is reported after responses, so one response may overshoot the target.")
  end.

Definition append_budget_instruction (prompt : string) (budget : TaskBudget.t) (used_tokens : Z) (used_weekly_percent : f64) : string :=
  match launch_instruction budget used_tokens used_weekly_percent with
  | Some instruction => prompt +:+ newline +:+ newline +:+ "[Internal session guidance]" +:+ newline +:+ instruction
  | None => prompt
  end.

(** ** Helpers *)

Definition normalize_base_url (value fallback : string) : string :=
  let trimmed := trim_end_slashes (trim value) in if is_empty trimmed then fallback else trimmed.

Definition public (text : string) (client_message_id : option string) : PendingThreadMessage.t :=
  PendingThreadMessage.mk text true client_message_id.

(** The hashes of a turn: a provider's session lives in one account profile. *)
Definition turn_hashes (thread : AgentThread.t) (agent : AgentKind.t) (backend : ExecutionBackend.t) (profile : option string) :
  string * string :=
  let hash := run_target_hash agent thread.(AgentThread.model) thread.(AgentThread.reasoning) thread.(AgentThread.local_provider)
                thread.(AgentThread.local_base_url) backend thread.(AgentThread.model_target) thread.(AgentThread.compute_lease_id) in
  match profile with
  | Some profile => let hash := stable_hex_hash (hash +:+ "|account=" +:+ profile) in (hash, hash)
  | None => (hash, legacy_run_target_hash agent thread.(AgentThread.model) thread.(AgentThread.reasoning)
                     thread.(AgentThread.local_provider) thread.(AgentThread.local_base_url))
  end.

(** The JSON value of an event is published as its text. *)
Definition shown {V} `{Json V} (e : AgentThreadEvent.t V) : AgentThreadEvent.t string :=
  AgentThreadEvent.mk string e.(AgentThreadEvent.id) e.(AgentThreadEvent.thread_id) e.(AgentThreadEvent.turn_id)
    e.(AgentThreadEvent.role) e.(AgentThreadEvent.kind) e.(AgentThreadEvent.text) e.(AgentThreadEvent.client_message_id)
    (json_to_string e.(AgentThreadEvent.data)) e.(AgentThreadEvent.ts).

Definition BUDGET_LIMITED : string :=
  "Percentage budgets pause when the selected provider is limited; they do not switch providers because quota percentages are not comparable.".

Section Runs.
Context {V : Type} `{Json V} `{!BudgetSerde V} `{!TextSerde (list string)} `{!TextSerde GitAutomation.t} `{!TextSerde LimitPolicy.t}
  `{!TextSerde (list Attachment.t)} `{!Codecs} `{Chrono}.
Context {E : Type} `{CoreServices E} `{!TurnServices E} `{!RepoServices E} `{!TaskFiles E} `{!RunServices E} `{!WorkServices E}
  `{!ThreadServices E}.

(** ** The target of a turn *)

Definition local_model_runtime (provider : option LocalModelProviderKind.t) (model base_url : option string) :
  T E (option LocalModelRuntime.t) :=
  match provider with
  | None => mret None
  | Some provider =>
      let named := match model with Some m => if is_empty (trim m) then None else Some (trim m) | None => None end in
      model ← lift_opt named (Other "local model target requires a model");
      token ← match provider with
              | LocalModelProviderKind.LmStudio => sys_ load_lm_studio_token
              | LocalModelProviderKind.Ollama => mret None
              end;
      let url := match base_url with
                 | Some url => let url := normalize_base_url url (LocalModelProviderKind.default_base_url provider) in
                               if is_empty url then None else Some url
                 | None => None
                 end in
      mret (Some (LocalModelRuntime.mk provider model url token))
  end.

(** Everything about the thread's settings that refuses a launch. *)
Definition check_target (thread : AgentThread.t) (agent : AgentKind.t) (backend : ExecutionBackend.t) :
  T E (option LocalModelRuntime.t) :=
  _ ← lift (match validate thread.(AgentThread.task_budget) with Ok b => Ok b | Err e => Err (Other e) end);
  _ ← fail_when (negb (has_adapter (E:=E) agent)) (Other ("no adapter available for " +:+ AgentKind.label agent));
  _ ← fail_when (bool_decide (thread.(AgentThread.model_target) = ModelTargetKind.RentedCompute))
        (Other "rented compute targets are not supported by the VS Code extension");
  local_model ← local_model_runtime thread.(AgentThread.local_provider) thread.(AgentThread.model) thread.(AgentThread.local_base_url);
  _ ← fail_when (bool_decide (is_Some local_model) && negb (bool_decide (agent = AgentKind.Codex)))
        (Other "open-model runs use Codex OSS in this version");
  _ ← fail_when (bool_decide (backend = ExecutionBackend.DockerSandbox) &&
                 is_some_and local_model (fun r => local_model_uses_container_localhost (LocalModelRuntime.target r)))
        (Other "local model endpoints on localhost are not reachable from Docker Sandbox. Use Host execution, or set the local endpoint to a host-reachable address such as http://host.docker.internal:<port>.");
  _ ← lift (validate_runtime_budget thread.(AgentThread.task_budget) agent backend (bool_decide (is_Some local_model)));
  mret local_model.

(** ** The account, or what is done without one *)

Inductive Choice :=
| GoOn (account : option AccountRuntime.t)
| Answered (id : string).

Definition pause_thread (thread : AgentThread.t) : T E () :=
  saved ← save_thread_ (V:=V) (AgentThread.set_status TaskStatus.Paused thread);
  announce saved.

(** A wait that continues with one account keeps that account. *)
Definition required_account (thread : AgentThread.t) (message : option PendingThreadMessage.t) (policy : LimitPolicy.t) : option string :=
  if bool_decide (thread.(AgentThread.status) = TaskStatus.WaitingForLimit) && bool_decide (message = None) &&
     (negb policy.(LimitPolicy.auto_switch) || negb policy.(LimitPolicy.resume_with_earliest))
  then thread.(AgentThread.provider_account_id) else None.

Definition choose_account (thread : AgentThread.t) (agent : AgentKind.t) (permission : PermissionPolicy.t)
  (message : option PendingThreadMessage.t) : T E Choice :=
  let thread_id := thread.(AgentThread.id) in
  limit_policy ← Settings.get_limit_policy;
  selection ← sys_ (select_provider_account_for agent (required_account thread message limit_policy));
  match selection with
  | Unmanaged => mret (GoOn None)
  | Ready account => mret (GoOn (Some account))
  | SignedOut => throw (Other ("No " +:+ AgentKind.label agent +:+ " account is signed in. Sign in from Accounts to continue."))
  | AccountsLimited reset_at =>
      if is_percentage_budget thread.(AgentThread.task_budget) then
        _ ← pause_thread thread; throw (Other BUDGET_LIMITED)
      else
        queued_id ← at_desk (at_core (queue_known_limited_message thread_id agent (permission_to_string permission) message None));
        _ ← at_desk (at_core (start_thread_fallback (V:=V) thread_id agent None reset_at));
        mret (Answered (default thread_id queued_id))
  end.

(** An agent known to be limited is not started at all. *)
Definition check_known_limit (thread : AgentThread.t) (agent : AgentKind.t) (permission : PermissionPolicy.t)
  (message : option PendingThreadMessage.t) : T E Choice :=
  limited ← at_desk (at_core (known_limited_agent_reset agent));
  match limited with
  | None => mret (GoOn None)
  | Some reset_at =>
      if is_percentage_budget thread.(AgentThread.task_budget) then
        _ ← pause_thread thread; throw (Other BUDGET_LIMITED)
      else
        id ← at_desk (at_core (start_known_limited_thread_fallback (V:=V) thread agent permission message reset_at None));
        mret (Answered id)
  end.

Definition choose (thread : AgentThread.t) (agent : AgentKind.t) (permission : PermissionPolicy.t)
  (message : option PendingThreadMessage.t) (local_model : option LocalModelRuntime.t) : T E Choice :=
  match local_model with
  | Some _ => mret (GoOn None)
  | None =>
      choice ← choose_account thread agent permission message;
      match choice with
      | GoOn None => check_known_limit thread agent permission message
      | _ => mret choice
      end
  end.

(** What is spent of the budget; an exhausted one pauses the thread. *)
Definition launch_budget (thread : AgentThread.t) : T E (Z * f64) :=
  let budget := thread.(AgentThread.task_budget) in
  stored ← (if is_percentage_budget budget then sys_ (budget_state thread.(AgentThread.id)) else mret (Ok default_enforcement));
  s ← get;
  let '(actions, spent) := check_launch_budget budget thread.(AgentThread.id) s.(ledger) (Ok stored) (Ok ()) in
  _ ← (if bool_decide (actions = []) then mret () else pause_thread thread);
  lift spent.

(** A host run without an account needs the agent installed and signed in. *)
Definition require_host_thread_agent (agent : AgentKind.t) (local_model : option LocalModelRuntime.t) : T E () :=
  ts ← sys_ now;
  fresh ← at_limits (fresh_ready_agent_status ts agent);
  status ← match fresh with
           | Some status => mret status
           | None => detected ← sys_ (probe_adapter agent); ts ← sys_ now; at_limits (record_agent_probe ts detected)
           end;
  _ ← fail_when (negb status.(AgentStatus.installed))
        (Other (AgentKind.label agent +:+ " is not installed or could not be found"));
  fail_when (negb status.(AgentStatus.authenticated) && negb (bool_decide (is_Some local_model)))
    (Other (AgentKind.label agent +:+ " is installed but not signed in. Sign in from Accounts to continue.")).

Definition latest_thread_session_ref (thread_id : string) (agent : AgentKind.t) (target_hash legacy_target_hash : string) :
  T E (option string) :=
  turns ← table (Turns.list_for_thread thread_id);
  mret (head (omap (fun turn : AgentTurn.t =>
    if bool_decide (turn.(AgentTurn.agent_kind) = agent) &&
       target_hash_matches turn.(AgentTurn.target_hash) target_hash legacy_target_hash
    then turn.(AgentTurn.agent_session_id) else None) (reverse turns))).

(** ** The launch *)

(** A turn about to start. *)
Record Start := mkStart {
  st_thread : AgentThread.t;
  st_agent : AgentKind.t;
  st_backend : ExecutionBackend.t;
  st_permission : PermissionPolicy.t;
  st_account : option AccountRuntime.t;
  st_local_model : option LocalModelRuntime.t;
  st_spent : Z * f64;
  st_hash : string;
  st_prior : option string;
  st_workspace : ThreadWorkspace.t;
  st_has_history : bool
}.

Definition enqueue_message (thread_id : string) (agent : AgentKind.t) (permission : PermissionPolicy.t) (text : string)
  (echo : bool) (client_message_id : option string) : T E QueuedTurn.t :=
  sys_ (enqueue_turn thread_id agent (permission_to_string permission) text None echo client_message_id).

Definition next_message (thread_id : string) : T E (option PendingThreadMessage.t) :=
  popped ← sys_ (pop_queued_turn thread_id);
  mret (PendingThreadMessage.from_queued <$> popped).

(** No slot is free: the message goes to the queue, the thread waits for a slot. *)
Definition wait_for_slot (st : Start) (message : option PendingThreadMessage.t) : T E (option PendingThreadMessage.t) :=
  let thread := st.(st_thread) in
  message ← match message with
            | Some msg =>
                let text := trim msg.(PendingThreadMessage.text) in
                if is_empty text then mret message
                else
                  _ ← enqueue_message thread.(AgentThread.id) st.(st_agent) st.(st_permission) text
                        msg.(PendingThreadMessage.echo_user_message) msg.(PendingThreadMessage.client_message_id);
                  mret None
            | None => mret None
            end;
  queued ← save_thread_ (V:=V) (AgentThread.set_status TaskStatus.Queued thread);
  _ ← announce queued;
  _ ← acted queued.(AgentThread.project_id) None "thread.capacity_queued";
  _ ← sys_ (acquire_queued_session thread.(AgentThread.project_id));
  mret message.

(** What the transcript shows of the message: an echoed message, or the objective
    of a thread without history. *)
Definition user_message_of (st : Start) (message : option PendingThreadMessage.t) : option string :=
  let text := match message with
              | Some msg => if msg.(PendingThreadMessage.echo_user_message) then Some (trim msg.(PendingThreadMessage.text)) else None
              | None => if st.(st_has_history) then None else Some (trim st.(st_thread).(AgentThread.objective))
              end in
  match text with Some t => if is_empty t then None else Some t | None => None end.
Definition user_client_id (message : option PendingThreadMessage.t) : option string :=
  match message with
  | Some msg => if msg.(PendingThreadMessage.echo_user_message) then msg.(PendingThreadMessage.client_message_id) else None
  | None => None
  end.

Definition sandbox_of (st : Start) : option string :=
  if bool_decide (st.(st_backend) = ExecutionBackend.DockerSandbox)
  then Some (sandbox_name_for (E:=E) "thread" st.(st_thread).(AgentThread.id)) else None.

Definition create_turn (st : Start) : T E AgentTurn.t :=
  let thread := st.(st_thread) in
  id ← sys_ fresh_id; ts ← sys_ now;
  table (Turns.create ts id thread.(AgentThread.id) st.(st_agent) (permission_to_string st.(st_permission)) st.(st_backend)
    (sandbox_of st) thread.(AgentThread.model) thread.(AgentThread.reasoning) thread.(AgentThread.local_provider)
    thread.(AgentThread.local_base_url) thread.(AgentThread.model_target) thread.(AgentThread.compute_lease_id)
    thread.(AgentThread.compute_provider) thread.(AgentThread.estimated_compute_cost_usd) thread.(AgentThread.fallback_model_target)
    (Some st.(st_hash)) None).

Definition show_user_message (thread_id turn_id : string) (text : option string) (client_message_id : option string) : T E () :=
  match text with
  | Some text =>
      '(id, ts) ← stamp_;
      let ev := user_thread_event (V:=V) id ts thread_id turn_id text client_message_id in
      _ ← table (Transcripts.insert_thread_event ev);
      at_desk (at_core (publish (ThreadEvent (shown ev))))
  | None => mret ()
  end.

(** The thread as the turn runs it. *)
Definition running_thread (st : Start) : AgentThread.t :=
  let thread := AgentThread.set_status TaskStatus.Running st.(st_thread) in
  let thread := AgentThread.set_active_agent (Some st.(st_agent)) thread in
  let thread := AgentThread.set_provider_account_id (AccountRuntime.id <$> st.(st_account)) thread in
  let thread := AgentThread.set_permission (permission_to_string st.(st_permission)) thread in
  let thread := AgentThread.set_execution_backend st.(st_backend) thread in
  match thread.(AgentThread.preferred_agent) with
  | None => AgentThread.set_preferred_agent (Some st.(st_agent)) thread
  | Some _ => thread
  end.

(** The managed worktrees inside the workspace. *)
Fixpoint managed_repos (root : string) (links : list AgentThreadRepo.t) : T E (list string) :=
  match links with
  | [] => mret []
  | link :: links =>
      here ← match link.(AgentThreadRepo.worktree_path) with
             | Some path =>
                 resolved ← sys_ (canonicalize path);
                 mret (match resolved with
                       | Ok p => if path_starts_with root p && negb (eq_path p root) then [p] else []
                       | Err _ => []
                       end)
             | None => mret []
             end;
      rest ← managed_repos root links;
      mret (here ++ rest)%list
  end.

Definition launch_env_of (st : Start) : T E (list (string * string)) :=
  let env := from_option AccountRuntime.env [] st.(st_account) in
  if bool_decide (st.(st_backend) = ExecutionBackend.Host) && negb st.(st_workspace).(ThreadWorkspace.uses_visible_repo) then
    root ← vcs (canonicalize st.(st_workspace).(ThreadWorkspace.path));
    links ← list_thread_repos st.(st_thread).(AgentThread.id);
    repos ← managed_repos root links;
    inherited ← sys_ git_config_count;
    lift (add_managed_git_safe_directories inherited env repos)
  else mret env.

Definition PRECEDING : string := "Conversation history preceding the current request (context only):" +:+ newline.
Definition turn_prompt (st : Start) (thread : AgentThread.t) (message : option PendingThreadMessage.t) : string :=
  let context_files_available := negb st.(st_workspace).(ThreadWorkspace.uses_visible_repo) in
  let prompt :=
    match message with
    | Some msg =>
        if bool_decide (is_Some st.(st_prior)) then build_thread_followup_prompt msg.(PendingThreadMessage.text)
        else build_thread_initial_prompt thread msg.(PendingThreadMessage.text) context_files_available
    | None =>
        if st.(st_has_history) then build_thread_resume_prompt thread context_files_available
        else build_thread_initial_prompt thread thread.(AgentThread.objective) context_files_available
    end in
  if negb (bool_decide (is_Some st.(st_prior))) && negb (is_empty (trim thread.(AgentThread.progress)))
  then PRECEDING +:+ thread.(AgentThread.progress) +:+ newline +:+ newline +:+ "Current user request:" +:+ newline +:+ prompt
  else prompt.

(** The rows of the turn and its process: the inner error is the adapter's. *)
Definition open_turn (st : Start) (message : option PendingThreadMessage.t) (lease : option string) :
  T E (AgentTurn.t * result string ()) :=
  turn ← create_turn st;
  let thread_id := st.(st_thread).(AgentThread.id) in
  _ ← show_user_message thread_id turn.(AgentTurn.id) (user_message_of st message) (user_client_id message);
  thread ← save_thread_ (V:=V) (running_thread st);
  _ ← announce thread;
  _ ← acted thread.(AgentThread.project_id) None "thread.turn_started";
  env ← launch_env_of st;
  prompt ← vcs (in_workspace st.(st_workspace).(ThreadWorkspace.path) (Attachments.prepare (turn_prompt st thread message)));
  let prompt := append_budget_instruction prompt thread.(AgentThread.task_budget) st.(st_spent).1 st.(st_spent).2 in
  let spec := ThreadSpec.mk st.(st_workspace).(ThreadWorkspace.path) prompt thread.(AgentThread.model) thread.(AgentThread.reasoning)
    st.(st_local_model) st.(st_permission) st.(st_backend) lease thread.(AgentThread.task_budget) env
    (AccountRuntime.id <$> st.(st_account))
    (if approver_for st.(st_permission) st.(st_agent)
     then Some (mkScope thread.(AgentThread.project_id) None None (Some thread_id) (Some turn.(AgentTurn.id))) else None) in
  opened ← ask_process (open_thread_session st.(st_agent) st.(st_prior) spec);
  mret (turn, opened).

(** Under a permit. *)
Definition launch_turn (st : Start) (message : option PendingThreadMessage.t) : T E string :=
  let thread_id := st.(st_thread).(AgentThread.id) in
  message ← match message with Some _ => mret message | None => next_message thread_id end;
  lease ← sys_ (session_runtime st.(st_agent) st.(st_backend) (sandbox_of st));
  _ ← did_lease TaskEffect.SandboxTaken lease;
  opened ← try_ (open_turn st message lease);
  match opened with
  | Err e => _ ← did_lease TaskEffect.SandboxDropped lease; throw e
  | Ok (_, Err e) => _ ← release_lease lease; throw (Other e)
  | Ok (turn, Ok _) =>
      _ ← register_ thread_id;
      _ ← did (TaskEffect.TurnSpawned turn.(AgentTurn.id) thread_id st.(st_agent) message lease (AccountRuntime.id <$> st.(st_account)));
      mret turn.(AgentTurn.id)
  end.

(** The workspace, the session to resume, the message: before the permit. *)
Definition prepare_turn (thread : AgentThread.t) (agent : AgentKind.t) (backend : ExecutionBackend.t) (permission : PermissionPolicy.t)
  (account : option AccountRuntime.t) (local_model : option LocalModelRuntime.t) : T E Start :=
  let thread_id := thread.(AgentThread.id) in
  spent ← launch_budget thread;
  let '(target_hash, legacy_target_hash) := turn_hashes thread agent backend (account ≫= AccountRuntime.profile) in
  _ ← (if bool_decide (backend = ExecutionBackend.Host) && bool_decide (account = None)
       then require_host_thread_agent agent local_model else mret ());
  workspace ← ensure_thread_workspace thread backend permission;
  _ ← render_thread_context_files (V:=V) thread workspace.(ThreadWorkspace.path);
  prior ← latest_thread_session_ref thread_id agent target_hash legacy_target_hash;
  mret (mkStart thread agent backend permission account local_model spent target_hash prior workspace
          (bool_decide (is_Some prior) || negb (is_empty (trim thread.(AgentThread.progress))))).

(** Take a slot, or wait for one; then launch. *)
Definition start_turn (st : Start) (message : option PendingThreadMessage.t) : T E string :=
  let thread := st.(st_thread) in
  message ← match message with Some _ => mret message | None => next_message thread.(AgentThread.id) end;
  _ ← attempt (sys_ sync_session_capacity);
  taken ← sys_ (try_acquire_session thread.(AgentThread.project_id));
  message ← (if taken : bool then mret message else wait_for_slot st message);
  _ ← did TaskEffect.PermitTaken;
  launched ← try_ (launch_turn st message);
  match launched with
  | Ok turn_id => mret turn_id
  | Err e => _ ← did TaskEffect.PermitDropped; throw e
  end.

Definition run_agent_thread_inner (thread_id : string) (agent : AgentKind.t) (permission : PermissionPolicy.t)
  (message : option PendingThreadMessage.t) (execution_backend : option ExecutionBackend.t) : T E string :=
  assigned ← sys_ (has_active_collaboration_assignment thread_id);
  _ ← fail_when assigned
        (Other "This session is assigned to another device. Cancel or finish that assignment before starting a local run.");
  active ← is_active_ thread_id;
  if (active : bool) then
    match message with
    | Some msg =>
        queued ← enqueue_message thread_id agent permission msg.(PendingThreadMessage.text)
                   msg.(PendingThreadMessage.echo_user_message) msg.(PendingThreadMessage.client_message_id);
        _ ← acted None None "thread.message_queued";
        mret queued.(QueuedTurn.id)
    | None => throw (Other "agent thread is already running")
    end
  else
    in_cloud ← sys_ (cloud_active thread_id);
    _ ← fail_when in_cloud
          (Other "this thread is running in the cloud; reclaim the cloud run before starting a local turn");
    found ← find_thread (V:=V) thread_id;
    thread ← lift_opt found NotFound;
    backend ← thread_execution_backend thread execution_backend;
    let thread := AgentThread.set_model_target
      (normalize_model_target thread.(AgentThread.model_target) thread.(AgentThread.local_provider)) thread in
    local_model ← check_target thread agent backend;
    choice ← choose thread agent permission message local_model;
    match choice with
    | Answered id => mret id
    | GoOn account =>
        st ← prepare_turn thread agent backend permission account local_model;
        start_turn st message
    end.

Definition run_agent_thread (thread_id : string) (agent : AgentKind.t) (permission : PermissionPolicy.t) (message : option string) :
  T E string := run_agent_thread_inner thread_id agent permission ((fun m => public m None) <$> message) None.
Definition run_agent_thread_with_client_message (thread_id : string) (agent : AgentKind.t) (permission : PermissionPolicy.t)
  (message : option string) (execution_backend : option ExecutionBackend.t) (client_message_id : option string) : T E string :=
  run_agent_thread_inner thread_id agent permission ((fun m => public m client_message_id) <$> message) execution_backend.
Definition run_agent_thread_with_backend (thread_id : string) (agent : AgentKind.t) (permission : PermissionPolicy.t)
  (message : option string) (execution_backend : option ExecutionBackend.t) : T E string :=
  run_agent_thread_inner thread_id agent permission ((fun m => public m None) <$> message) execution_backend.
Definition run_agent_thread_boxed (thread_id : string) (agent : AgentKind.t) (permission : PermissionPolicy.t)
  (message : option PendingThreadMessage.t) : T E string :=
  run_agent_thread_inner thread_id agent permission message None.

Definition stop_agent_thread (thread_id : string) : T E () :=
  cancelled ← sys_ (cancel_session thread_id);
  fail_when (negb cancelled) (Other "agent thread is not running").

(** ** Messages *)

(** [unpack(..).map_err(..)?] *)
Definition check_attachments (message : string) : T E () :=
  match unpack message with Ok _ => mret () | Err e => throw (Other e) end.

Definition in_status (thread_id : string) (statuses : list CollaborationAssignmentStatus.t) (a : CollaborationAssignment.t) : bool :=
  String.eqb a.(CollaborationAssignment.thread_id) thread_id &&
  existsb (fun status => bool_decide (a.(CollaborationAssignment.status) = status)) statuses.

Definition send_thread_message (thread_id : string) (agent : AgentKind.t) (permission : PermissionPolicy.t) (message : string)
  (client_message_id : option string) : T E (option string) :=
  _ ← check_attachments message;
  let message := trim message in
  _ ← fail_when (is_empty message) (Other "message is empty");
  in_cloud ← sys_ (cloud_active thread_id);
  assignments ← sys_ list_open_assignments;
  _ ← fail_when (existsb (in_status thread_id [CollaborationAssignmentStatus.Review]) assignments)
        (Other "Apply or reject the returned device changes before sending the next request.");
  let elsewhere := existsb (in_status thread_id [CollaborationAssignmentStatus.Queued; CollaborationAssignmentStatus.Running]) assignments in
  active ← is_active_ thread_id;
  if active || in_cloud || elsewhere then
    _ ← enqueue_message thread_id agent permission message true client_message_id;
    thread ← find_thread (V:=V) thread_id;
    _ ← acted (thread ≫= AgentThread.project_id) None "thread.message_queued";
    mret None
  else
    id ← run_agent_thread_inner thread_id agent permission (Some (public message client_message_id)) None;
    mret (Some id).

(** *** Editing *)

(** A transaction: on an error nothing of it stays. *)
Definition in_tx {A} (m : AgentM A) : AgentM A :=
  fun db => match m db with (db', Ok a) => (db', Ok a) | (_, Err e) => (db, Err e) end.
(** Its errors are turned into their texts. *)
Definition transaction {A} (m : AgentM A) : T E A :=
  r ← try_ (table (in_tx m));
  match r with Ok a => mret a | Err (Db e) => throw (Other (db_error_text e)) | Err e => throw e end.

Definition editable (event_id : string) (e : AgentThreadEvent.t V) : bool :=
  String.eqb e.(AgentThreadEvent.id) event_id && String.eqb e.(AgentThreadEvent.role) "user".

(** Where the conversation is cut: at the first event of the message's turn. *)
Definition cut_at (event_id : string) (events : list (AgentThreadEvent.t V)) : option nat :=
  index ← position (editable event_id) events;
  e ← events !! index;
  Some (default index (position (fun e' => String.eqb e'.(AgentThreadEvent.turn_id) e.(AgentThreadEvent.turn_id)) events)).

Definition spoken (e : AgentThreadEvent.t V) : option string :=
  if String.eqb e.(AgentThreadEvent.role) "user" || String.eqb e.(AgentThreadEvent.role) "assistant"
  then (fun text => e.(AgentThreadEvent.role) +:+ ": " +:+ display_text text) <$> e.(AgentThreadEvent.text) else None.
Definition history_of (events : list (AgentThreadEvent.t V)) : string :=
  String.concat (newline +:+ newline) (omap spoken events).

Definition delete_event (thread_id : string) (e : AgentThreadEvent.t V) : AgentM () :=
  delete_rows (fun r => eq_str r.(ThreadMessageRow.id) e.(AgentThreadEvent.id) && eq_str r.(ThreadMessageRow.thread_id) thread_id).

Definition rewound_row (objective progress : string) (r : AgentThreadRow.t) : AgentThreadRow.t :=
  let r := AgentThreadRow.set_progress progress (AgentThreadRow.set_objective objective r) in
  let r := AgentThreadRow.set_next_actions "" (AgentThreadRow.set_open_questions "" (AgentThreadRow.set_decisions "" r)) in
  AgentThreadRow.set_status "paused" r.

(** The discarded events, the provider's sessions and what was noted from them. *)
Definition rewind (thread_id : string) (discarded : list (AgentThreadEvent.t V)) (objective progress : string) : AgentM () :=
  _ ← for_each (delete_event thread_id) discarded;
  _ ← update_rows (fun r => eq_str r.(AgentTurnRow.thread_id) thread_id) (AgentTurnRow.set_agent_session_id None);
  _ ← update_rows (by_id thread_id) (rewound_row objective progress);
  mret ().

Definition rewound_thread (objective progress : string) (t : AgentThread.t) : AgentThread.t :=
  let t := AgentThread.set_progress progress (AgentThread.set_objective objective t) in
  let t := AgentThread.set_next_actions "" (AgentThread.set_open_questions "" (AgentThread.set_decisions "" t)) in
  AgentThread.set_status TaskStatus.Paused t.

(** The conversation as it was. *)
Definition restore_rows (thread_id : string) (events : list (AgentThreadEvent.t V)) (turns : list AgentTurn.t) : AgentM () :=
  _ ← delete_rows (fun r => eq_str r.(ThreadMessageRow.thread_id) thread_id);
  _ ← for_each Transcripts.insert_thread_event events;
  for_each (fun turn => _ ← update_rows (by_id turn.(AgentTurn.id)) (AgentTurnRow.set_agent_session_id turn.(AgentTurn.agent_session_id));
                        mret ()) turns.

Definition restore_thread (thread_id : string) (original : AgentThread.t) (events : list (AgentThreadEvent.t V))
  (turns : list AgentTurn.t) : T E () :=
  _ ← transaction (restore_rows thread_id events turns);
  restored ← save_thread_ (V:=V) original;
  let workspace := thread_workspace_path (E:=E) thread_id original.(AgentThread.execution_backend) in
  exists_ ← sys_ (path_exists workspace);
  _ ← (if (exists_ : bool) then quietly (render_thread_context_files (V:=V) original workspace) else mret ());
  announce restored.

(** Anything that could race with the edit refuses it. *)
Definition edit_blocked (thread_id : string) : T E bool :=
  active ← is_active_ thread_id;
  if (active : bool) then mret true
  else
    in_cloud ← sys_ (cloud_active thread_id);
    if (in_cloud : bool) then mret true
    else
      queued ← sys_ (list_queued_turns thread_id);
      if negb (bool_decide (queued = [])) then mret true
      else
        assignments ← sys_ list_open_assignments;
        mret (existsb (fun a => String.eqb a.(CollaborationAssignment.thread_id) thread_id) assignments).

Definition list_thread_events (thread_id : string) : T E (list (AgentThreadEvent.t V)) :=
  table (Transcripts.list_for_thread thread_id).
Definition list_thread_turns (thread_id : string) : T E (list AgentTurn.t) := table (Turns.list_for_thread thread_id).

Definition edit_thread_message (thread_id event_id : string) (agent : AgentKind.t) (permission : PermissionPolicy.t)
  (message : string) (client_message_id : option string) : T E (option string) :=
  _ ← fail_when (is_empty (trim message)) (Other "message is empty");
  _ ← check_attachments message;
  blocked ← edit_blocked thread_id;
  _ ← fail_when blocked (Other "Stop the task and clear queued or remote work before editing.");
  events ← list_thread_events thread_id;
  cut ← lift_opt (cut_at event_id events) (Other "This user message is no longer available to edit.");
  found ← find_thread (V:=V) thread_id;
  original ← lift_opt found (Other "Task not found");
  turns ← list_thread_turns thread_id;
  let objective := if (cut =? 0)%nat then message else original.(AgentThread.objective) in
  let progress := history_of (take cut events) in
  _ ← transaction (rewind thread_id (drop cut events) objective progress);
  _ ← announce (rewound_thread objective progress original);
  run ← try_ (run_agent_thread_inner thread_id agent permission (Some (public message client_message_id)) None);
  match run with
  | Ok turn => mret (Some turn)
  | Err error => _ ← restore_thread thread_id original events turns; throw error
  end.

(** *** The queue *)
Definition list_queued_turns_ (thread_id : string) : T E (list QueuedTurn.t) := sys_ (list_queued_turns thread_id).
Definition delete_queued_turn (id : string) : T E () := sys_ (delete_queued_turn_row id).
Definition update_queued_turn (id message : string) : T E () := sys_ (update_queued_turn_message id message).
Definition reorder_queued_turns_ (thread_id : string) (ordered_ids : list string) : T E () :=
  sys_ (reorder_queued_turns thread_id ordered_ids).
End Runs.
