(* ===== verification/ThreadRunsProps.v ===== *)
(** * Launching and steering threads: one process, and edits that can be undone

    The effects of a launch, of a message and of an edit, whatever the services do;
    and the rows an edit discards and restores. *)
From Stdlib Require Import Ascii String.
From S2P Require Import Prelude RustStr Json Enums Records Doubles Approvals WorkGraphDb WorkGraphInv Limits Budget SqlTable AgentDb AgentDbProps ThreadText Attachments GitText CoreWorld TaskRepos ThreadFallback TaskTexts TaskNotes TurnLoop CoreDemo FallbackProps TurnProps TurnStatus Scheduler TaskRuns TaskProps ThreadWork ThreadWorkProps ThreadRuns.
#[local] Open Scope string_scope.
#[local] Open Scope Z_scope.

(** What a successful [m] answers. *)
Definition returns {S Er A} (m : M S Er A) (P : A -> Prop) : Prop := forall s, match value m s with Ok a => P a | Err _ => True end.

Lemma returns_bind {S Er A B} (m : M S Er A) (f : A -> M S Er B) P : (forall a, returns (f a) P) -> returns (m ≫= f) P.
Proof. intros Hf s. unfold value. rewrite M_bind_unfold. destruct (m s) as [s' [a|e]]; [apply Hf|done]. Qed.
Lemma returns_ret {S Er A} (a : A) (P : A -> Prop) : P a -> returns (mret a : M S Er A) P.
Proof. by intros ? s. Qed.

Lemma outcome_returns {E A} (m : T E A) (P : A -> Prop) :
  silent m -> returns m P -> outcome m (fun l r => l = [] /\ match r with Ok a => P a | Err _ => True end).
Proof.
  intros Hm Hr s. exists []. pose proof (silent_eq _ s Hm) as [He Hq]. specialize (Hr s). unfold final, value in *.
  destruct (m s) as [s' r]. cbn in *. by rewrite He, Hq, app_nil_r.
Qed.

(** ** What a launch takes and starts *)

(** [Ok None]: the message waits in the queue; [Some id] without effects: it was
    queued, or another launch answered. *)
Definition launch_shape (thread_id : string) (agent : AgentKind.t) (l : list TaskEffect.t) (r : result CoreError (option string)) : Prop :=
  match r with
  | Ok (Some id) => l = [] \/ exists message lease account,
      l = holding lease (TaskEffect.TurnSpawned id thread_id agent message lease account)
  | Ok None => l = []
  | Err _ => exists e, undone l e
  end.

Section Launching.
Context {V : Type} `{Json V} `{!BudgetSerde V} `{!TextSerde (list string)} `{!TextSerde GitAutomation.t} `{!TextSerde LimitPolicy.t}
  `{!TextSerde (list Attachment.t)} `{!Codecs} `{Chrono}.
Context {E : Type} `{CoreServices E} `{!TurnServices E} `{!RepoServices E} `{!TaskFiles E} `{!RunServices E} `{!WorkServices E}
  `{!ThreadServices E}.

Lemma silent_save thread : silent (save_thread_ (V:=V) (E:=E) thread).
Proof. apply silent_desk. Qed.
Lemma silent_announce thread : silent (announce (E:=E) thread).
Proof. apply silent_desk. Qed.
Lemma silent_attempt {A} (m : T E A) : silent m -> silent (attempt m).
Proof. apply emits_attempt. Qed.
Lemma silent_for_each {A} (f : A -> T E ()) l : (forall a, silent (f a)) -> silent (for_each f l).
Proof. intros Hf. induction l as [|a l IH]; cbn; [apply silent_ret|by apply silent_bind]. Qed.

(** Calls of services, tables and other components only; [known] proves the
    definitions met before. *)
Ltac known := fail.
Ltac quiet :=
  repeat first [known|apply silent_ret|apply silent_throw|apply silent_bind; [|intros]|apply silent_desk|apply silent_sys|apply silent_table|
    apply silent_lift_opt|apply silent_lift|apply silent_fail|apply silent_limits|apply silent_vcs|apply silent_repos|
    apply silent_same|apply silent_links|apply silent_find|apply silent_active|apply silent_save|apply silent_announce|
    apply silent_acted|apply silent_attempt|apply silent_quietly|progress cbn zeta|case_match].

Lemma silent_ensure_link thread backend w b link : silent (ensure_link (E:=E) thread backend w b link).
Proof. unfold ensure_link, link_ready. quiet. Qed.

Ltac known ::= first [apply silent_ensure_link].

Lemma silent_visible_repo links backend permission : silent (visible_repo_workspace (E:=E) links backend permission).
Proof. unfold visible_repo_workspace. quiet. Qed.

Lemma silent_workspace thread backend permission : silent (ensure_thread_workspace (E:=E) thread backend permission).
Proof.
  unfold ensure_thread_workspace. quiet; first [apply silent_visible_repo|apply silent_for_each; intros; apply silent_ensure_link].
Qed.

Lemma silent_visible_path repos path : silent (is_visible_repo_path (E:=E) repos path).
Proof. induction repos as [|link repos IH]; cbn; quiet; done. Qed.

Lemma silent_write_context dir file c b : silent (write_context_at (E:=E) dir file c b).
Proof. unfold write_context_at. quiet. Qed.

Ltac known ::= first [apply silent_visible_path|apply silent_write_context].

Lemma silent_render thread w : silent (render_thread_context_files (V:=V) (E:=E) thread w).
Proof.
  unfold render_thread_context_files. quiet; first [apply silent_visible_path|apply silent_for_each; intros; unfold render_nested; quiet];
    first [apply silent_visible_path|apply silent_for_each; intros; apply silent_write_context].
Qed.

Lemma silent_budget thread : silent (launch_budget (V:=V) (E:=E) thread).
Proof.
  unfold launch_budget, pause_thread. apply silent_bind; [quiet|]. intros stored. apply silent_bind; [by apply silent_intro|]. intros s. quiet.
Qed.

Ltac known ::= first [apply silent_workspace|apply silent_render|apply silent_budget].

Lemma silent_prepare_turn thread agent backend permission account local_model :
  silent (prepare_turn (V:=V) (E:=E) thread agent backend permission account local_model).
Proof.
  unfold prepare_turn, latest_thread_session_ref, require_host_thread_agent. quiet.
Qed.

Lemma outcome_prepare_turn thread agent backend permission account local_model :
  outcome (prepare_turn (V:=V) (E:=E) thread agent backend permission account local_model) (fun l r =>
    l = [] /\ match r with Ok st => st.(st_thread) = thread /\ st.(st_agent) = agent | Err _ => True end).
Proof.
  apply outcome_returns; [apply silent_prepare_turn|]. unfold prepare_turn. apply returns_bind. intros spent.
  case_match. do 3 (apply returns_bind; intros). apply returns_bind. intros prior. by apply returns_ret.
Qed.

Lemma silent_check_target thread agent backend : silent (check_target (E:=E) thread agent backend).
Proof. unfold check_target, local_model_runtime. quiet. Qed.

Lemma silent_choose thread agent permission message local_model :
  silent (choose (V:=V) (E:=E) thread agent permission message local_model).
Proof. unfold choose, choose_account, check_known_limit, pause_thread, Settings.get_limit_policy. quiet. Qed.

Lemma silent_managed root links : silent (managed_repos (E:=E) root links).
Proof. induction links as [|link links IH]; cbn; quiet; done. Qed.

Lemma silent_env st : silent (launch_env_of (E:=E) st).
Proof. unfold launch_env_of. quiet. all: first [apply silent_managed|quiet]. Qed.

Lemma silent_show t u text c : silent (show_user_message (V:=V) (E:=E) t u text c).
Proof. unfold show_user_message. quiet. Qed.

Ltac known ::= first [apply silent_show|apply silent_env].

Lemma outcome_open_turn st message lease : outcome (open_turn (V:=V) (E:=E) st message lease) (fun l r =>
  match r with Ok (_, opened) => l = [TaskEffect.ProcessAsked opened] | Err _ => l = [] end).
Proof.
  unfold open_turn, create_turn. repeat (apply outcome_bind; [solve [quiet]|done|intros]). cbn zeta.
  eapply outcome_then; [apply outcome_ask|by intros l e (? & ? & _)|]. intros opened l (? & [= ->] & ->). by apply outcome_ret.
Qed.

Lemma silent_wait st message : silent (wait_for_slot (V:=V) (E:=E) st message).
Proof. unfold wait_for_slot, enqueue_message. quiet. Qed.

Lemma outcome_launch_turn st message : outcome (launch_turn (V:=V) (E:=E) st message) (fun l r =>
  match r with
  | Ok id => exists message lease account, TaskEffect.PermitTaken :: l =
      holding lease (TaskEffect.TurnSpawned id st.(st_thread).(AgentThread.id) st.(st_agent) message lease account)
  | Err e => undone (TaskEffect.PermitTaken :: l ++ [TaskEffect.PermitDropped]) e
  end).
Proof.
  assert (Hnone : forall e, undone [TaskEffect.PermitTaken; TaskEffect.PermitDropped] e) by (intros e; right; exists None; by left).
  unfold launch_turn. apply outcome_bind; [unfold next_message; quiet|done|]. intros message'.
  apply outcome_bind; [apply silent_sys|done|]. intros lease.
  set (account := AccountRuntime.id <$> st.(st_account)). set (thread_id := AgentThread.id (st_thread st)).
  eapply outcome_mono; [|eapply (outcome_launch _ snd lease
    (fun (a : AgentTurn.t * result string ()) id => TaskEffect.TurnSpawned id thread_id st.(st_agent) message' lease account) (fun a =>
    match a with
    | (_, Err e) => _ ← release_lease lease; throw (Other e)
    | (turn, Ok _) =>
        _ ← register_ thread_id;
        _ ← did (TaskEffect.TurnSpawned turn.(AgentTurn.id) thread_id st.(st_agent) message' lease account);
        mret turn.(AgentTurn.id)
    end))].
  - intros l [id|e]; [|done]. intros [a Ha]. by exists message', lease, account.
  - eapply outcome_mono; [|apply outcome_open_turn]. by intros l [[turn opened]|e].
  - intros [turn [[]|e]]; cbn [snd].
    + apply outcome_register, outcome_did, outcome_ret. by exists turn.(AgentTurn.id).
    + apply outcome_release, outcome_throw. by rewrite app_nil_r.
Qed.

Lemma outcome_start st message : outcome (start_turn (V:=V) (E:=E) st message) (fun l r =>
  launch_shape st.(st_thread).(AgentThread.id) st.(st_agent) l (Some <$> r)).
Proof.
  unfold start_turn. apply outcome_bind; [unfold next_message; quiet|by exists NotFound; left|]. intros message1.
  apply outcome_bind; [apply silent_attempt, silent_sys|by exists NotFound; left|intros _]. apply outcome_bind; [apply silent_sys|by exists NotFound; left|]. intros taken.
  apply outcome_bind; [destruct taken; [apply silent_ret|apply silent_wait]|by exists NotFound; left|]. intros message2. apply outcome_did.
  eapply outcome_then; [apply outcome_try, outcome_launch_turn|by intros l e (? & ? & _)|].
  intros launched l (r' & [= ->] & Hl). destruct r' as [id|e].
  - apply outcome_ret. right. by rewrite app_nil_r.
  - apply outcome_did, outcome_throw. by exists e.
Qed.

(** A thread is found under its id. *)
Lemma thread_try_from_id r t : thread_try_from (V:=V) r = Ok t -> t.(AgentThread.id) = r.(AgentThreadRow.id).
Proof.
  unfold thread_try_from. unfold mbind, result_bind. repeat (case_match; [|done]). by intros [= <-].
Qed.

Lemma outcome_find id : outcome (find_thread (V:=V) (E:=E) id) (fun l r =>
  l = [] /\ match r with Ok (Some t) => t.(AgentThread.id) = id | _ => True end).
Proof.
  eapply outcome_mono; [|apply (outcome_returns _ (fun o => match o with Some t => t.(AgentThread.id) = id | None => True end))].
  - intros l [[t|]|e]; naive_solver.
  - apply silent_find.
  - intros s. unfold value, find_thread, table, at_desk, at_core, on_db, Threads.get_thread, fetch_by_id.
    rewrite M_bind_unfold. cbn. destruct (find _ _) as [row|] eqn:Hf; cbn; [|done].
    destruct (thread_try_from row) as [t'|] eqn:Ht; cbn; [|done].
    apply find_Some_elem in Hf as [_ Hid%by_id_true]. by rewrite (thread_try_from_id _ _ Ht).
Qed.

Lemma outcome_run thread_id agent permission message backend :
  outcome (run_agent_thread_inner (V:=V) (E:=E) thread_id agent permission message backend) (fun l r =>
    launch_shape thread_id agent l (Some <$> r)).
Proof.
  assert (Hnil : forall r, launch_shape thread_id agent [] (Some <$> r)) by (intros [id|e]; [by left|by exists NotFound; left]).
  unfold run_agent_thread_inner. apply outcome_bind; [apply silent_sys|by exists NotFound; left|]. intros assigned.
  apply outcome_bind; [apply silent_fail|by exists NotFound; left|intros _]. apply outcome_bind; [apply silent_active|by exists NotFound; left|]. intros [].
  { apply outcome_any; [|done]. unfold enqueue_message. quiet. }
  apply outcome_bind; [apply silent_sys|by exists NotFound; left|]. intros in_cloud. apply outcome_bind; [apply silent_fail|by exists NotFound; left|intros _].
  eapply outcome_then; [apply outcome_find|by intros l e [-> _]; exists NotFound; left|]. intros found l [-> Hid]. cbn [app].
  apply (outcome_then _ _ (fun l r => l = [] /\ match r with Ok t => t.(AgentThread.id) = thread_id | _ => True end)).
  { destruct found; [by apply outcome_ret|by apply outcome_throw]. }
  { intros l e [-> _]. by exists NotFound; left. }
  intros thread l [-> Ht]. cbn [app]. apply outcome_bind; [unfold thread_execution_backend; quiet|by exists NotFound; left|]. intros b. cbn zeta.
  apply outcome_bind; [apply silent_check_target|by exists NotFound; left|]. intros local_model. apply outcome_bind; [apply silent_choose|by exists NotFound; left|].
  intros [account|id]; [|apply outcome_ret; by left].
  eapply outcome_then; [apply (outcome_prepare_turn)|by intros l e [-> _]; exists NotFound; left|]. intros st l (-> & Hst & Hag). cbn [app].
  eapply outcome_mono; [|apply outcome_start]. intros l r. rewrite Hst, Hag.
  change (AgentThread.id (AgentThread.set_model_target _ thread)) with thread.(AgentThread.id). by rewrite Ht.
Qed.

Lemma outcome_send thread_id agent permission message client_message_id :
  outcome (send_thread_message (V:=V) (E:=E) thread_id agent permission message client_message_id) (launch_shape thread_id agent).
Proof.
  unfold send_thread_message, check_attachments. apply outcome_bind; [quiet|by exists NotFound; left|intros _]. cbn zeta.
  apply outcome_bind; [apply silent_fail|by exists NotFound; left|intros _]. do 2 (apply outcome_bind; [apply silent_sys|by exists NotFound; left|intros]).
  apply outcome_bind; [apply silent_fail|by exists NotFound; left|intros _]. apply outcome_bind; [apply silent_active|by exists NotFound; left|]. intros active.
  case_match.
  - unfold enqueue_message. apply outcome_bind; [apply silent_sys|by exists NotFound; left|intros _]. apply outcome_bind; [apply silent_find|by exists NotFound; left|]. intros thread.
    apply outcome_bind; [apply silent_acted|by exists NotFound; left|intros _]. by apply outcome_ret.
  - eapply outcome_then; [apply outcome_run|done|]. intros id l Hl. apply outcome_ret. by rewrite app_nil_r.
Qed.

Lemma silent_transaction {A} (m : AgentM A) : silent (transaction (E:=E) m).
Proof. unfold transaction. apply silent_bind; [apply emits_try, silent_table|]. intros. quiet. Qed.

Ltac known ::= first [apply silent_transaction|apply silent_render].

Lemma silent_restore thread_id original events turns : silent (restore_thread (V:=V) (E:=E) thread_id original events turns).
Proof. unfold restore_thread. quiet. Qed.

Lemma outcome_edit thread_id event_id agent permission message client_message_id :
  outcome (edit_thread_message (V:=V) (E:=E) thread_id event_id agent permission message client_message_id) (launch_shape thread_id agent).
Proof.
  unfold edit_thread_message, check_attachments. apply outcome_bind; [apply silent_fail|by exists NotFound; left|intros _].
  apply outcome_bind; [quiet|by exists NotFound; left|intros _]. apply outcome_bind; [unfold edit_blocked; quiet|by exists NotFound; left|]. intros blocked.
  apply outcome_bind; [apply silent_fail|by exists NotFound; left|intros _]. apply outcome_bind; [apply silent_table|by exists NotFound; left|]. intros events.
  apply outcome_bind; [apply silent_lift_opt|by exists NotFound; left|]. intros cut. apply outcome_bind; [apply silent_find|by exists NotFound; left|]. intros found.
  apply outcome_bind; [apply silent_lift_opt|by exists NotFound; left|]. intros original. apply outcome_bind; [apply silent_table|by exists NotFound; left|]. intros turns. cbn zeta.
  apply outcome_bind; [apply silent_transaction|by exists NotFound; left|intros _]. apply outcome_bind; [apply silent_announce|by exists NotFound; left|intros _].
  eapply outcome_then; [apply outcome_try, outcome_run|by intros l e (? & ? & _)|]. intros run l (r' & [= ->] & Hl).
  destruct r' as [id|e]; [apply outcome_ret; by rewrite app_nil_r|].
  eapply (outcome_then _ _ (fun l r => l = [])); [apply outcome_any; [apply silent_restore|done]| |].
  - intros l' e' ->. by rewrite app_nil_r.
  - intros _ l' ->. apply outcome_throw. by rewrite !app_nil_r.
Qed.

(** ** What must not be running *)

(** No assignment of the thread to another device, no running session, no cloud run,
    asked in that order. *)
Definition free (thread_id : string) (s : Tasks E) : Prop :=
  exists s1 s2 s3,
    sys_ (has_active_collaboration_assignment thread_id) s = (s1, Ok false) /\
    is_active_ thread_id s1 = (s2, Ok false) /\
    sys_ (cloud_active thread_id) s2 = (s3, Ok false).
(** The same, asked by a message first: none of its assignments is open. *)
Definition free_to_send (thread_id : string) (s : Tasks E) : Prop :=
  exists s1 s2 s3 assignments,
    sys_ (cloud_active thread_id) s = (s1, Ok false) /\
    sys_ list_open_assignments s1 = (s2, Ok assignments) /\
    existsb (in_status thread_id [CollaborationAssignmentStatus.Review]) assignments = false /\
    existsb (in_status thread_id [CollaborationAssignmentStatus.Queued; CollaborationAssignmentStatus.Running]) assignments = false /\
    is_active_ thread_id s2 = (s3, Ok false) /\ free thread_id s3.
(** And by an edit. *)
Definition free_to_edit (thread_id : string) (s : Tasks E) : Prop :=
  exists s1 s2, edit_blocked thread_id s = (s1, Ok false) /\ free thread_id s2.

(** [m] has effects only where [ok] holds. *)
Definition guarded {A} (ok : Tasks E -> Prop) (m : T E A) : Prop := forall s, ok s \/ (final m s).(effects) = s.(effects).

Lemma guarded_silent {A} ok (m : T E A) : silent m -> guarded ok m.
Proof. intros Hm s. right. apply (silent_eq _ s Hm). Qed.
Lemma guarded_bind {A B} (ok : Tasks E -> Prop) (m : T E A) (f : A -> T E B) :
  silent m ->
  (forall s s1 a, m s = (s1, Ok a) -> ok s \/ (final (f a) s1).(effects) = s1.(effects)) -> guarded ok (m ≫= f).
Proof.
  intros Hm Hf s. pose proof (silent_eq _ s Hm) as [He _]. unfold final in *. rewrite M_bind_unfold.
  destruct (m s) as [s1 [a|e]] eqn:Hs; cbn in *; [|by right]. destruct (Hf s s1 a Hs) as [?|Hr]; [by left|right; by rewrite Hr].
Qed.
Lemma guarded_after {A B} (Q : Prop) (m : T E A) (f : A -> T E B) :
  silent m -> (forall a, guarded (fun _ => Q) (f a)) -> guarded (fun _ => Q) (m ≫= f).
Proof. intros Hm Hf. apply guarded_bind; [done|]. intros s s1 a _. apply Hf. Qed.
Lemma stays {A} (m : T E A) s : silent m -> (final m s).(effects) = s.(effects).
Proof. intros Hm. apply (silent_eq _ s Hm). Qed.

Lemma guarded_run thread_id agent permission message backend :
  guarded (free thread_id) (run_agent_thread_inner (V:=V) (E:=E) thread_id agent permission message backend).
Proof.
  unfold run_agent_thread_inner. apply guarded_bind; [apply silent_sys|]. intros s s1 [|] H1'; [right; by apply stays; quiet|].
  unfold final. rewrite M_bind_unfold. cbn [fail_when mret M_ret]. rewrite M_bind_unfold.
  pose proof (silent_eq _ s1 (silent_active thread_id)) as [He2 _]. unfold final in He2.
  destruct (is_active_ thread_id s1) as [s2 [[|]|e]] eqn:H2'; cbn in He2; [|..|by right].
  { right. rewrite <- He2. match goal with |- effects (fst (?m s2)) = _ => apply (stays m) end. unfold enqueue_message. quiet. }
  rewrite M_bind_unfold. pose proof (stays _ s2 (silent_sys (cloud_active thread_id))) as He3. unfold final in He3.
  destruct (sys_ (cloud_active thread_id) s2) as [s3 [[|]|e]] eqn:H3'; cbn in He3; [|left; by exists s1, s2, s3|].
  - right. rewrite M_bind_unfold. cbn. by rewrite He3.
  - right. cbn. by rewrite He3.
Qed.

Lemma guarded_send thread_id agent permission message client_message_id :
  guarded (free_to_send thread_id) (send_thread_message (V:=V) (E:=E) thread_id agent permission message client_message_id).
Proof.
  unfold send_thread_message, check_attachments. intros s. unfold final. rewrite M_bind_unfold.
  destruct (unpack message); [|by right]. cbn [mret M_ret]. cbv zeta. rewrite M_bind_unfold. destruct (is_empty _); [by right|].
  cbn [fail_when mret M_ret]. rewrite M_bind_unfold. pose proof (stays _ s (silent_sys (cloud_active thread_id))) as He1. unfold final in He1.
  destruct (sys_ (cloud_active thread_id) s) as [s1 [in_cloud|e]] eqn:H1'; cbn in He1; [|by right].
  rewrite M_bind_unfold. pose proof (stays _ s1 (silent_sys list_open_assignments)) as He2. unfold final in He2.
  destruct (sys_ list_open_assignments s1) as [s2 [assignments|e]] eqn:H2'; cbn in He2; [|right; cbn; by rewrite He2].
  rewrite M_bind_unfold. destruct (existsb (in_status _ [CollaborationAssignmentStatus.Review]) _) eqn:Hr; [right; cbn; by rewrite He2|].
  cbn [fail_when mret M_ret]. rewrite M_bind_unfold. pose proof (silent_eq _ s2 (silent_active thread_id)) as [He3 _]. unfold final in He3.
  destruct (is_active_ thread_id s2) as [s3 [active|e]] eqn:H3'; cbn in He3; [|right; cbn; by rewrite He3, He2].
  destruct (active || in_cloud || _) eqn:Hb.
  - right. rewrite <- He1, <- He2, <- He3. match goal with |- effects (fst (?m s3)) = _ => apply (stays m) end. unfold enqueue_message. quiet.
  - rewrite !orb_false_iff in Hb. destruct Hb as [[-> ->] Hq]. rewrite M_bind_unfold.
    destruct (guarded_run thread_id agent permission (Some (public (trim message) client_message_id)) None s3) as [Hf|Hs].
    + left. by exists s1, s2, s3, assignments.
    + right. unfold final in Hs. destruct (run_agent_thread_inner _ _ _ _ _ s3) as [s4 [id|e]]; cbn in *; by rewrite Hs, He3, He2.
Qed.

Lemma guarded_edit thread_id event_id agent permission message client_message_id :
  guarded (free_to_edit thread_id) (edit_thread_message (V:=V) (E:=E) thread_id event_id agent permission message client_message_id).
Proof.
  unfold edit_thread_message, check_attachments. intros s. unfold final. rewrite M_bind_unfold. destruct (is_empty _); [by right|].
  cbn [fail_when mret M_ret]. rewrite M_bind_unfold. destruct (unpack message); [|by right]. cbn [mret M_ret]. rewrite M_bind_unfold.
  assert (silent (edit_blocked (E:=E) thread_id)) as Hsb by (unfold edit_blocked; quiet).
  pose proof (stays _ s Hsb) as He1. unfold final in He1.
  destruct (edit_blocked thread_id s) as [s1 [[|]|e]] eqn:H1'; cbn in He1; [by right| |by right].
  rewrite M_bind_unfold. cbn [fail_when mret M_ret].
  match goal with |- _ \/ effects (fst (?m s1)) = _ => assert (guarded (fun _ => exists s2, free thread_id s2) m) as Hg end.
  { do 6 (apply guarded_after; [solve [quiet]|intros]). apply guarded_after; [apply silent_announce|intros _].
    intros s2. unfold final. rewrite M_bind_unfold. unfold try_.
    destruct (guarded_run thread_id agent permission (Some (public message client_message_id)) None s2) as [Hf|Hs];
      [left; by exists s2|right]. unfold final in Hs. destruct (run_agent_thread_inner _ _ _ _ _ s2) as [s3 [id|e]]; cbn in *; [done|].
    rewrite <- Hs. match goal with |- effects (fst (?m s3)) = _ => apply (stays m) end.
    apply silent_bind; [apply silent_restore|intros _; apply silent_throw]. }
  destruct (Hg s1) as [(s2 & Hf)|Hs]; [left; by exists s1, s2|right]. unfold final in Hs. by rewrite Hs.
Qed.

(** C8: Starting a turn, sending a message and editing one ask for at most one process,
    and only for a thread that is free: no device has it assigned, no session of it is
    running and no cloud run is active (and, for a message, no assignment of it is
    queued, running or in review; for an edit, nothing blocks the edit), asked before
    anything is taken.  Whatever fails on the way, an error has taken nothing, or has
    given the permit back with no turn spawned: the sandbox is released when the
    process was asked for and refused, and its lease only dropped when the rows or the
    setup failed before.  (The rows written by then stay.)  A success either started
    nothing (the message waits, or another launch took over) or took one permit and
    its sandbox, had the process from the adapter, registered the session and spawned
    exactly one turn, which holds both and runs the agent asked for on the thread
    asked for. *)
Theorem turn_started_at_most_once thread_id event_id agent permission message backend text client_message_id :
  let start := r ← run_agent_thread_inner (V:=V) (E:=E) thread_id agent permission message backend; mret (Some r) in
  let send := send_thread_message (V:=V) (E:=E) thread_id agent permission text client_message_id in
  let edit := edit_thread_message (V:=V) (E:=E) thread_id event_id agent permission text client_message_id in
  (outcome start (launch_shape thread_id agent) /\ guarded (free thread_id) start) /\
  (outcome send (launch_shape thread_id agent) /\ guarded (free_to_send thread_id) send) /\
  (outcome edit (launch_shape thread_id agent) /\ guarded (free_to_edit thread_id) edit).
Proof.
  cbv zeta. split_and!; [|intros s|apply outcome_send|apply guarded_send|apply outcome_edit|apply guarded_edit].
  - eapply outcome_then; [apply outcome_run|done|]. intros id l Hl. apply outcome_ret. by rewrite app_nil_r.
  - destruct (guarded_run thread_id agent permission message backend s) as [?|Hs]; [by left|right].
    unfold final in *. rewrite M_bind_unfold. by destruct (run_agent_thread_inner _ _ _ _ _ s) as [s' [id|e]].
Qed.
End Launching.
