(* ===== verification/ThreadEdit.v ===== *)
(** * Editing a message (the transactions of edit_thread_message)

    The rows an edit discards are exactly those from the edited turn on; the rows
    it restores after a failed run are those it discarded. *)
From Stdlib Require Import Ascii String.
From S2P Require Import Prelude RustStr Json Enums Records Doubles Approvals WorkGraphDb WorkGraphInv Limits Budget SqlTable AgentDb AgentDbProps AgentDbTheorems ThreadText Attachments GitText CoreWorld TaskRepos ThreadFallback TaskTexts TaskNotes TurnLoop Scheduler TaskRuns ThreadWork ThreadRuns.
#[local] Open Scope string_scope.
#[local] Open Scope Z_scope.

(** ** Sorting *)
Section Sorting.
Context {A : Type} (leb : A -> A -> bool) `{!Total (le_of leb), !Transitive (le_of leb)}.

Lemma filter_insert_by (P : A -> Prop) `{!forall x, Decision (P x)} a l :
  StronglySorted (le_of leb) l ->
  filter P (insert_by leb a l) = if decide (P a) then insert_by leb a (filter P l) else filter P l.
Proof.
  induction 1 as [|b l Hs IH Hb]; cbn [insert_by].
  - rewrite filter_cons, !filter_nil. by case_decide.
  - destruct (leb a b) eqn:Hab.
    + rewrite filter_cons. case_decide; [|done]. clear IH.
      assert (forall c, c ∈ filter P (b :: l) -> leb a c = true) as Hall.
      { intros c [_ [->|Hc]%elem_of_cons]%list_elem_of_filter; [done|]. eapply Forall_forall in Hb; [|done].
        change (le_of leb a c). by transitivity b. }
      destruct (filter P (b :: l)) as [|c k]; [done|]. cbn. by rewrite Hall by left.
    + rewrite !filter_cons, IH. destruct (decide (P a)), (decide (P b)); cbn; rewrite ?Hab; done.
Qed.

Lemma filter_sort_by (P : A -> Prop) `{!forall x, Decision (P x)} l : filter P (sort_by leb l) = sort_by leb (filter P l).
Proof.
  induction l as [|a l IH]; [done|]. change (sort_by leb (a :: l)) with (insert_by leb a (sort_by leb l)).
  rewrite filter_insert_by by (apply (sort_by_sorted leb)). rewrite IH, filter_cons. by case_decide.
Qed.

Lemma sort_by_sorted_id l : StronglySorted (le_of leb) l -> sort_by leb l = l.
Proof.
  induction 1 as [|a l Hs IH Ha]; [done|]. change (sort_by leb (a :: l)) with (insert_by leb a (sort_by leb l)). rewrite IH.
  destruct l as [|b l]; [done|]. cbn. apply Forall_cons in Ha as [Ha _]. by rewrite Ha.
Qed.
End Sorting.

Lemma filter_compose {A} (P Q : A -> Prop) `{!forall x, Decision (P x), !forall x, Decision (Q x)} (l : list A) :
  filter P (filter Q l) = filter (fun x => P x /\ Q x) l.
Proof. by rewrite list_filter_filter. Qed.

(** What is kept of a list when the keys of its tail are deleted. *)
Lemma filter_keys_take {A} (key : A -> string) n (l : list A) :
  NoDup (key <$> l) -> filter (fun x => key x ∉ key <$> drop n l) l = take n l.
Proof.
  intros Hnd. rewrite <- (take_drop n l) in Hnd at 1. rewrite fmap_app in Hnd. apply NoDup_app in Hnd as (_ & Hdis & _).
  trans (filter (fun x => key x ∉ key <$> drop n l) (take n l ++ drop n l)%list); [by rewrite take_drop|]. rewrite filter_app, filter_all, filter_none, app_nil_r; [done| |].
  - intros x Hx Hn. by apply Hn, list_elem_of_fmap_2.
  - intros x Hx. apply Hdis. by apply list_elem_of_fmap_2.
Qed.

(** ** Events and their rows *)
Section Edit.
Context {V : Type} `{JsonOk V} `{!BudgetSerde V}.
Abbreviation Event := (AgentThreadEvent.t V).
Implicit Types (db : AgentDb) (r : ThreadMessageRow.t) (e : Event).

Definition rows_of_thread (thread_id : string) db : list ThreadMessageRow.t :=
  selected (fun r => eq_str r.(ThreadMessageRow.thread_id) thread_id) (oldest_first ThreadMessageRow.ts) db.
(** The conversation as [list_for_thread] answers it. *)
Definition events_of (thread_id : string) db : list Event := Transcripts.row_to_thread_event <$> rows_of_thread thread_id db.

Lemma list_events_value thread_id db : Transcripts.list_for_thread thread_id db = (db, Ok (events_of thread_id db)).
Proof. done. Qed.

Lemma row_of_event_read r :
  Transcripts.row_to_thread_event (Transcripts.thread_message_row (Transcripts.row_to_thread_event (V:=V) r)) =
  Transcripts.row_to_thread_event r.
Proof.
  set (e := Transcripts.row_to_thread_event r).
  assert (Hid : e.(AgentThreadEvent.client_message_id) = None -> json_get e.(AgentThreadEvent.data) "client_message_id" ≫= json_as_str = None).
  { subst e. unfold Transcripts.row_to_thread_event. cbn. by case_match. }
  clearbody e. destruct e as [id t u role kind text cid data ts]. unfold Transcripts.row_to_thread_event. cbn in *.
  rewrite content_text, !json_get_object by by apply (bool_decide_unpack _). cbn.
  destruct text, cid; cbn; rewrite ?json_as_str_str, ?json_as_str_null; rewrite ?Hid; done.
Qed.

Lemma events_ids thread_id db : AgentThreadEvent.id <$> events_of thread_id db = ThreadMessageRow.id <$> rows_of_thread thread_id db.
Proof. unfold events_of. by rewrite <- list_fmap_compose. Qed.

Lemma elem_rows_of_thread thread_id db r :
  r ∈ rows_of_thread thread_id db <-> r ∈ db.(thread_messages) /\ r.(ThreadMessageRow.thread_id) = thread_id.
Proof. unfold rows_of_thread. rewrite elem_of_selected. by rewrite eq_str_true. Qed.

Lemma rows_of_thread_NoDup thread_id db :
  NoDup (ThreadMessageRow.id <$> db.(thread_messages)) -> NoDup (ThreadMessageRow.id <$> rows_of_thread thread_id db).
Proof.
  intros Hnd. unfold rows_of_thread, selected. rewrite (sort_by_perm _ _). by apply NoDup_filter_column.
Qed.

(** ** Discarding *)

Definition discarded_row (thread_id : string) (ids : list string) r : Prop :=
  r.(ThreadMessageRow.id) ∈ ids /\ r.(ThreadMessageRow.thread_id) = thread_id.
#[local] Instance discarded_dec thread_id ids r : Decision (discarded_row thread_id ids r).
Proof. unfold discarded_row. apply _. Defined.

Lemma delete_events thread_id (es : list Event) db :
  for_each (delete_event thread_id) es db =
  (put_thread_messages (filter (fun r => ~ discarded_row thread_id (AgentThreadEvent.id <$> es) r) db.(thread_messages)) db, Ok ()).
Proof.
  revert db. induction es as [|e es IH]; intros db.
  - cbn. rewrite filter_all; [by destruct db|]. intros r _ [Hr _]. by apply elem_of_nil in Hr.
  - cbn [for_each]. rewrite M_bind_unfold. unfold delete_event at 1, delete_rows. cbn. rewrite IH. cbn. f_equal. unfold put_thread_messages.
    f_equal. rewrite filter_compose. apply filter_ext_in. intros r _. unfold discarded_row.
    rewrite andb_false_iff. unfold eq_str. rewrite !bool_decide_eq_false, elem_of_cons.
    destruct (decide (ThreadMessageRow.id r = AgentThreadEvent.id e)), (decide (ThreadMessageRow.thread_id r = thread_id)); tauto.
Qed.

Lemma rows_after_delete thread_id ids db other :
  rows_of_thread other (put_thread_messages (filter (fun r => ~ discarded_row thread_id ids r) db.(thread_messages)) db) =
  filter (fun r => ~ discarded_row thread_id ids r) (rows_of_thread other db).
Proof.
  unfold rows_of_thread, selected. rewrite (filter_sort_by _ _ _). cbn. f_equal. rewrite !filter_compose.
  apply filter_ext_in. naive_solver.
Qed.

Lemma retained_rows thread_id n db :
  NoDup (ThreadMessageRow.id <$> db.(thread_messages)) ->
  filter (fun r => ~ discarded_row thread_id (AgentThreadEvent.id <$> drop n (events_of thread_id db)) r) (rows_of_thread thread_id db) =
  take n (rows_of_thread thread_id db).
Proof.
  intros Hnd. rewrite <- (filter_keys_take ThreadMessageRow.id n) by by apply rows_of_thread_NoDup.
  apply filter_ext_in. intros r [_ Hr]%elem_rows_of_thread. unfold discarded_row.
  assert (AgentThreadEvent.id <$> drop n (events_of thread_id db) = ThreadMessageRow.id <$> drop n (rows_of_thread thread_id db)) as ->.
  { by rewrite !fmap_drop, events_ids. }
  tauto.
Qed.

Lemma other_rows thread_id ids other db :
  other <> thread_id ->
  filter (fun r => ~ discarded_row thread_id ids r) (rows_of_thread other db) = rows_of_thread other db.
Proof. intros Hne. apply filter_all. intros r [_ Hr]%elem_rows_of_thread [_ Hd]. congruence. Qed.

Lemma rewind_eq thread_id (es : list Event) objective progress db :
  agent_db_ok (V:=V) db ->
  exists db1, rewind thread_id es objective progress db = (db1, Ok ()) /\
    db1.(thread_messages) = filter (fun r => ~ discarded_row thread_id (AgentThreadEvent.id <$> es) r) db.(thread_messages) /\
    db1.(turns) = update_where (fun r : AgentTurnRow.t => eq_str r.(AgentTurnRow.thread_id) thread_id) (AgentTurnRow.set_agent_session_id None) db.(turns).
Proof.
  intros Hok. unfold rewind. rewrite M_bind_unfold, delete_events. set (db' := put_thread_messages _ db).
  assert (Hturns : forall r : AgentTurnRow.t, r ∈ rows_of db' -> references_ok db' r = true).
  { intros r Hr. by apply (turns_ok db Hok). }
  assert (Hthreads : forall r : AgentThreadRow.t, r ∈ rows_of db' -> references_ok db' r = true).
  { intros r Hr. by apply (threads_ok db Hok). }
  rewrite M_bind_unfold, update_rows_eq by (intros r Hr _; exact (Hturns r Hr)).
  rewrite M_bind_unfold, update_rows_eq by (intros r Hr _; exact (Hthreads r Hr)). cbn.
  eexists. split_and!; done.
Qed.

(** ** Restoring *)

Lemma insert_events (es : list Event) db :
  NoDup (AgentThreadEvent.id <$> es) ->
  (forall r, r ∈ db.(thread_messages) -> r.(ThreadMessageRow.id) ∉ AgentThreadEvent.id <$> es) ->
  (forall e, e ∈ es -> references_ok db (Transcripts.thread_message_row e) = true) ->
  for_each Transcripts.insert_thread_event es db =
  (put_thread_messages (db.(thread_messages) ++ (Transcripts.thread_message_row <$> es))%list db, Ok ()).
Proof.
  revert db. induction es as [|e es IH]; intros db Hnd Hfresh Hrefs.
  - cbn. rewrite app_nil_r. by destruct db.
  - rewrite fmap_cons in Hnd. apply NoDup_cons in Hnd as [He Hnd]. cbn [for_each]. rewrite M_bind_unfold.
    unfold Transcripts.insert_thread_event at 1. rewrite insert_row_eq, Hrefs by by left.
    assert (existsb (by_id (row_id (Transcripts.thread_message_row e))) (rows_of db) = false) as ->.
    { apply existsb_false. intros r Hr. unfold by_id. apply eq_str_false. intros Heq. apply (Hfresh r Hr). rewrite fmap_cons.
      change (ThreadMessageRow.id r = AgentThreadEvent.id e) in Heq. rewrite Heq. by left. }
    cbn [orb negb]. rewrite IH.
    + cbn. by rewrite <- app_assoc.
    + done.
    + cbn. intros r [Hr| ->%list_elem_of_singleton]%elem_of_app; [|done]. specialize (Hfresh r Hr). rewrite fmap_cons in Hfresh. set_solver.
    + intros e' He'. apply (Hrefs e'). by right.
Qed.

Lemma rows_of_inserted thread_id (es : list Event) (msgs : list ThreadMessageRow.t) db :
  (forall r, r ∈ msgs -> r.(ThreadMessageRow.thread_id) <> thread_id) ->
  Forall (fun e => e.(AgentThreadEvent.thread_id) = thread_id) es ->
  StronglySorted (le_of (oldest_first ThreadMessageRow.ts)) (Transcripts.thread_message_row <$> es) ->
  rows_of_thread thread_id (put_thread_messages (msgs ++ (Transcripts.thread_message_row <$> es))%list db) =
    Transcripts.thread_message_row <$> es.
Proof.
  intros Hm Hes Hs. unfold rows_of_thread, selected. cbn. rewrite filter_app, filter_none, filter_all.
  - by apply (sort_by_sorted_id _).
  - intros r (e & -> & He)%list_elem_of_fmap. apply eq_str_true. exact (proj1 (Forall_forall _ _) Hes e He).
  - intros r Hr%Hm Ht%eq_str_true. done.
Qed.

Lemma sorted_rows thread_id db :
  StronglySorted (le_of (oldest_first ThreadMessageRow.ts)) (Transcripts.thread_message_row <$> events_of thread_id db).
Proof.
  assert (StronglySorted (le_of (oldest_first ThreadMessageRow.ts)) (rows_of_thread thread_id db)) as Hs by apply (sort_by_sorted _).
  unfold events_of. rewrite <- list_fmap_compose. induction Hs as [|r l Hs IH Hr]; [constructor|]. rewrite fmap_cons. constructor; [done|].
  apply Forall_forall. intros x (r' & -> & Hr')%list_elem_of_fmap. exact (proj1 (Forall_forall _ _) Hr r' Hr').
Qed.

(** The rows after the sessions were put back, one update after the other. *)
Definition sessions_back (ts : list AgentTurn.t) (rows : list AgentTurnRow.t) : list AgentTurnRow.t :=
  foldl (fun rows t => update_where (by_id t.(AgentTurn.id)) (AgentTurnRow.set_agent_session_id t.(AgentTurn.agent_session_id)) rows) rows ts.

Lemma put_sessions_back (ts : list AgentTurn.t) db :
  (forall r : AgentTurnRow.t, r ∈ db.(turns) -> references_ok db r = true) ->
  for_each (fun t => _ ← update_rows (by_id t.(AgentTurn.id)) (AgentTurnRow.set_agent_session_id t.(AgentTurn.agent_session_id)); mret ()) ts db =
  (put_turns (sessions_back ts db.(turns)) db, Ok ()).
Proof.
  revert db. induction ts as [|t ts IH]; intros db Hrefs; [by destruct db|]. cbn [for_each]. rewrite !M_bind_unfold.
  rewrite update_rows_eq by (intros r Hr _; by apply (Hrefs r)). cbn [mret M_ret]. rewrite IH; [done|].
  cbn. intros x (r & Hr & ->)%elem_of_update_where. case_match; by apply (Hrefs r).
Qed.

Lemma sessions_back_other i s (ts : list AgentTurn.t) rows :
  i ∉ AgentTurn.id <$> ts -> (forall r : AgentTurnRow.t, r ∈ rows -> r.(AgentTurnRow.id) = i -> r.(AgentTurnRow.agent_session_id) = s) ->
  forall r : AgentTurnRow.t, r ∈ sessions_back ts rows -> r.(AgentTurnRow.id) = i -> r.(AgentTurnRow.agent_session_id) = s.
Proof.
  revert rows. induction ts as [|t ts IH]; intros rows Hi Hrows; [done|]. rewrite fmap_cons, elem_of_cons in Hi.
  apply (IH (update_where _ _ rows)); [tauto|]. intros x (r & Hr & ->)%elem_of_update_where.
  destruct (by_id t.(AgentTurn.id) r) eqn:Hb; [|by apply Hrows]. apply by_id_true in Hb.
  change (r.(AgentTurnRow.id) = t.(AgentTurn.id)) in Hb. cbn. intros Hx. destruct Hi. left. congruence.
Qed.

Lemma sessions_back_set (ts : list AgentTurn.t) rows :
  NoDup (AgentTurn.id <$> ts) -> Forall (fun t => Forall (fun r : AgentTurnRow.t => r.(AgentTurnRow.id) = t.(AgentTurn.id) ->
    r.(AgentTurnRow.agent_session_id) = t.(AgentTurn.agent_session_id)) (sessions_back ts rows)) ts.
Proof.
  revert rows. induction ts as [|t ts IH]; intros rows Hnd; [constructor|]. rewrite fmap_cons in Hnd. apply NoDup_cons in Hnd as [Ht Hnd].
  constructor; [|by apply IH]. apply Forall_forall. intros r Hr. cbn in Hr. eapply sessions_back_other; [exact Ht| |exact Hr].
  intros x (y & Hy & ->)%elem_of_update_where. destruct (by_id t.(AgentTurn.id) y) eqn:Hb; [done|]. intros Hx.
  exfalso. assert (by_id t.(AgentTurn.id) y = true); [by apply by_id_true|congruence].
Qed.

Lemma turn_try_from_id (r : AgentTurnRow.t) t : turn_try_from r = Ok t -> t.(AgentTurn.id) = r.(AgentTurnRow.id).
Proof. unfold turn_try_from, mbind, result_bind. repeat (case_match; [|done]). by intros [= <-]. Qed.

Lemma listed_turns_NoDup thread_id db ts :
  agent_db_ok (V:=V) db -> Turns.list_for_thread thread_id db = (db, Ok ts) -> NoDup (AgentTurn.id <$> ts).
Proof.
  intros Hok Hl. assert (exists rows, NoDup (AgentTurnRow.id <$> rows) /\ collect (turn_try_from <$> rows) = Ok ts) as (rows & Hnd & Hc).
  { unfold Turns.list_for_thread, fetch_all in Hl. rewrite M_bind_unfold in Hl. cbn in Hl. injection Hl as Hl.
    exists (selected (fun r : AgentTurnRow.t => eq_str r.(AgentTurnRow.thread_id) thread_id) (oldest_first AgentTurnRow.started_at) db). split; [|exact Hl].
    unfold selected. rewrite (sort_by_perm _ _). apply NoDup_filter_column, (turns_ok db Hok). }
  apply collect_inv in Hc. apply Forall2_fmap_l in Hc.
  assert (AgentTurn.id <$> ts = AgentTurnRow.id <$> rows) as ->; [|done].
  clear Hl Hnd. induction Hc as [|r t rows ts Hr _ IH]; [done|]. by rewrite !fmap_cons, (turn_try_from_id _ _ Hr), IH.
Qed.

(** The store after the failed run: the thread and its turns are still there, and
    no other thread took the id of one of its messages. *)
Definition still_there (thread_id : string) db db2 : Prop :=
  keys_grow AgentThreadRow.id db.(threads) db2.(threads) /\ keys_grow AgentTurnRow.id db.(turns) db2.(turns) /\
  (forall r, r ∈ db2.(thread_messages) -> r.(ThreadMessageRow.thread_id) <> thread_id ->
     r.(ThreadMessageRow.id) ∉ ThreadMessageRow.id <$> rows_of_thread thread_id db).

Lemma restored thread_id (ts : list AgentTurn.t) db db2 :
  agent_db_ok (V:=V) db -> agent_db_ok (V:=V) db2 -> still_there thread_id db db2 -> NoDup (AgentTurn.id <$> ts) ->
  exists db3, restore_rows thread_id (events_of thread_id db) ts db2 = (db3, Ok ()) /\
    events_of thread_id db3 = events_of thread_id db /\
    (forall other, other <> thread_id -> events_of other db3 = events_of other db2) /\
    db3.(turns) = sessions_back ts db2.(turns).
Proof.
  intros Hok Hok2 (Hth & Htu & Hfree) Hnd. set (es := events_of thread_id db).
  assert (Hall : forall e, e ∈ es -> exists r, r ∈ db.(thread_messages) /\ r.(ThreadMessageRow.thread_id) = thread_id /\ e = Transcripts.row_to_thread_event r).
  { intros e (r & -> & [Hr Ht]%elem_rows_of_thread)%list_elem_of_fmap. eauto. }
  unfold restore_rows. rewrite M_bind_unfold. unfold delete_rows, modify.
  set (kept := filter (fun r => eq_str r.(ThreadMessageRow.thread_id) thread_id = false) (rows_of db2)).
  assert (Hkept : forall r, r ∈ kept -> r ∈ db2.(thread_messages) /\ r.(ThreadMessageRow.thread_id) <> thread_id).
  { intros r [Hf Hr]%list_elem_of_filter. split; [done|]. intros Ht. by rewrite (proj2 (eq_str_true _ _) Ht) in Hf. }
  rewrite M_bind_unfold, insert_events.
  - rewrite put_sessions_back by (intros r Hr; by apply (turns_ok db2 Hok2)).
    eexists. split; [done|]. split_and!; [| |done].
    + trans (Transcripts.row_to_thread_event (V:=V) <$>
        rows_of_thread thread_id (put_thread_messages (kept ++ (Transcripts.thread_message_row <$> es))%list db2)); [done|].
      rewrite rows_of_inserted; [|intros r Hr; by apply Hkept| |apply sorted_rows].
      * subst es. unfold events_of. rewrite <- !list_fmap_compose. apply list_fmap_ext. intros i r _. apply row_of_event_read.
      * apply Forall_forall. intros e (r & _ & Hr & ->)%Hall. exact Hr.
    + intros other Hne.
      trans (Transcripts.row_to_thread_event (V:=V) <$>
        rows_of_thread other (put_thread_messages (kept ++ (Transcripts.thread_message_row <$> es))%list db2)); [done|].
      unfold events_of, rows_of_thread, selected. cbn. do 2 f_equal. rewrite filter_app. rewrite (filter_none _ (_ <$> es)), app_nil_r.
      * subst kept. rewrite filter_compose. apply filter_ext_in. intros r _. rewrite eq_str_true.
        split; [tauto|]. intros Hr. split; [done|]. apply eq_str_false. congruence.
      * intros x (e & -> & (r & _ & Hr & ->)%Hall)%list_elem_of_fmap Hx%eq_str_true. cbn in Hx. congruence.
  - subst es. rewrite events_ids. apply rows_of_thread_NoDup, (thread_messages_ok db Hok).
  - intros r Hr. subst es. rewrite events_ids. apply Hfree; by apply Hkept.
  - intros e (r & Hr & Ht & ->)%Hall. destruct (proj2 (thread_messages_ok db Hok) r Hr) as [_ Href].
    apply andb_true_iff in Href as [H1%Hth H2%Htu]. apply andb_true_iff. split; [exact H1|exact H2].
Qed.

Lemma cut_at_spec event_id (events : list Event) cut :
  cut_at event_id events = Some cut ->
  exists e, e ∈ drop cut events /\ e.(AgentThreadEvent.id) = event_id /\ e.(AgentThreadEvent.role) = "user" /\
    forall e', e' ∈ take cut events -> e'.(AgentThreadEvent.turn_id) <> e.(AgentThreadEvent.turn_id).
Proof.
  unfold cut_at, mbind, option_bind. destruct (position (editable event_id) events) as [i|] eqn:Hp; [|done].
  apply position_Some in Hp as (e & l1 & l2 & -> & <- & [Hid%String.eqb_eq Hrole%String.eqb_eq]%andb_true_iff & _).
  rewrite lookup_app_r, Nat.sub_diag by done. cbn [lookup list_lookup]. intros [= <-]. exists e.
  destruct (position _ _) as [j|] eqn:Hj; cbn.
  - apply position_Some in Hj as (a & k1 & k2 & Hk & <- & Ha%String.eqb_eq & Hnone). rewrite Hk, drop_app_length, take_app_length.
    split_and!; [|done..|].
    + assert (e ∈ (k1 ++ a :: k2)%list) as Hin by (rewrite <- Hk; set_solver). apply elem_of_app in Hin as [Hin%Hnone|Hin]; [|done].
      by rewrite String.eqb_refl in Hin.
    + intros e' He'%Hnone. by apply String.eqb_neq.
  - pose proof (proj1 (position_None _ _) Hj) as Hnone. specialize (Hnone e ltac:(set_solver)). cbv beta in Hnone. by rewrite String.eqb_refl in Hnone.
Qed.

Lemma rewound thread_id n objective progress db :
  agent_db_ok (V:=V) db ->
  exists db1, rewind thread_id (drop n (events_of thread_id db)) objective progress db = (db1, Ok ()) /\
    events_of thread_id db1 = take n (events_of thread_id db) /\
    (forall other, other <> thread_id -> events_of other db1 = events_of other db) /\
    (forall r : AgentTurnRow.t, r ∈ db1.(turns) -> r.(AgentTurnRow.thread_id) = thread_id -> r.(AgentTurnRow.agent_session_id) = None).
Proof.
  intros Hok. destruct (rewind_eq thread_id (drop n (events_of thread_id db)) objective progress db Hok) as (db1 & Hr & Hm & Ht).
  exists db1. split; [done|].
  assert (Hrows : forall other, rows_of_thread other db1 =
    filter (fun r => ~ discarded_row thread_id (AgentThreadEvent.id <$> drop n (events_of thread_id db)) r) (rows_of_thread other db)).
  { intros other. rewrite <- rows_after_delete. unfold rows_of_thread, selected. cbn. by rewrite Hm. }
  split_and!.
  - unfold events_of at 1. rewrite Hrows, retained_rows by apply (thread_messages_ok db Hok). by rewrite fmap_take.
  - intros other Hne. unfold events_of. by rewrite Hrows, other_rows.
  - intros r. rewrite Ht. intros (y & _ & ->)%elem_of_update_where. case_match eqn:He; [done|]. intros Hy. apply eq_str_true in Hy. congruence.
Qed.

(** C20: editing the message of a turn.  The cut falls on the first event of the
    edited turn: what is discarded holds the edited message, what is kept holds
    no event of its turn.  The transaction of the edit succeeds on every well
    formed store; it removes from the conversation exactly the events from the
    cut on, touches no other conversation, and forgets every provider session of
    the thread's turns.  When the new run fails, the restoring transaction
    succeeds on every well formed store in which the thread and its turns are
    still there: the conversation is again what it was, event for event, the
    other conversations stay as the failed run left them, and every turn has its
    provider session back. *)
Theorem edit_round_trip thread_id event_id objective progress db cut ts :
  agent_db_ok (V:=V) db ->
  cut_at event_id (events_of thread_id db) = Some cut ->
  Turns.list_for_thread thread_id db = (db, Ok ts) ->
  (exists e, e ∈ drop cut (events_of thread_id db) /\ e.(AgentThreadEvent.id) = event_id /\ e.(AgentThreadEvent.role) = "user" /\
    forall e', e' ∈ take cut (events_of thread_id db) -> e'.(AgentThreadEvent.turn_id) <> e.(AgentThreadEvent.turn_id)) /\
  (exists db1, rewind thread_id (drop cut (events_of thread_id db)) objective progress db = (db1, Ok ()) /\
    events_of thread_id db1 = take cut (events_of thread_id db) /\
    (forall other, other <> thread_id -> events_of other db1 = events_of other db) /\
    (forall r : AgentTurnRow.t, r ∈ db1.(turns) -> r.(AgentTurnRow.thread_id) = thread_id -> r.(AgentTurnRow.agent_session_id) = None)) /\
  (forall db2, agent_db_ok (V:=V) db2 -> still_there thread_id db db2 ->
    exists db3, restore_rows thread_id (events_of thread_id db) ts db2 = (db3, Ok ()) /\
      events_of thread_id db3 = events_of thread_id db /\
      (forall other, other <> thread_id -> events_of other db3 = events_of other db2) /\
      (forall t (r : AgentTurnRow.t), t ∈ ts -> r ∈ db3.(turns) -> r.(AgentTurnRow.id) = t.(AgentTurn.id) ->
        r.(AgentTurnRow.agent_session_id) = t.(AgentTurn.agent_session_id))).
Proof.
  intros Hok Hcut Hts. split_and!; [by apply cut_at_spec|by apply rewound|]. intros db2 Hok2 Hthere.
  pose proof (listed_turns_NoDup _ _ _ Hok Hts) as Hnd.
  destruct (restored thread_id ts db db2 Hok Hok2 Hthere Hnd) as (db3 & Hr & He & Ho & Ht).
  exists db3. split_and!; [done..|]. rewrite Ht. intros t r Hin Hrow.
  pose proof (proj1 (Forall_forall _ _) (sessions_back_set ts db2.(turns) Hnd) t Hin) as Hall. exact (proj1 (Forall_forall _ _) Hall r Hrow).
Qed.
End Edit.

(** Two turns, the second of which is edited. *)
Module DemoEdit.
Definition said (id turn role text : string) (ts : Z) : AgentThreadEvent.t Tree.t :=
  AgentThreadEvent.mk Tree.t id "h" turn role "message" (Some text) None Tree.JNull ts.

Definition talk : list (AgentM ()) :=
  [Turns.set_agent_session_id "u" "s1";
   Transcripts.insert_thread_event (said "m1" "u" "user" "hello" 10);
   Transcripts.insert_thread_event (said "m2" "u" "assistant" "hi" 11);
   Transcripts.insert_thread_event (said "m3" "v" "user" "go on" 13);
   Transcripts.insert_thread_event (said "m4" "v" "assistant" "done" 14)].
Definition second_turn : AgentM AgentTurn.t :=
  Turns.create 12 "v" "h" AgentKind.ClaudeCode "ask" ExecutionBackend.Host None None None None None
    ModelTargetKind.FrontierDefault None None None None None None.
Definition db : AgentDb := foldl (fun db m => final m db) (final second_turn DemoStore.db) talk.

Lemma talk_ok : agent_db_ok (V:=Tree.t) db.
Proof.
  apply (reached_ok ∅). pose proof DemoStore.db_reached as Hr.
  apply (fun Hr => reached_call _ _ _ _ Hr (call_create_turn 12 "v" "h" AgentKind.ClaudeCode "ask" ExecutionBackend.Host None None
    None None None ModelTargetKind.FrontierDefault None None None None None None)) in Hr.
  unfold db, talk. cbn [foldl]. do 4 (eapply reached_call; [|apply call_insert_thread_message]).
  eapply reached_call; [|apply call_set_turn_session_id]. exact Hr.
Qed.

Definition listed : list AgentTurn.t :=
  match (Turns.list_for_thread "h" db).2 with Ok ts => ts | Err _ => [] end.

Lemma unchanged : still_there "h" db db.
Proof.
  split_and!; [by intros ?..|]. intros r Hr Hne. exfalso. apply Hne.
  assert (Forall (fun r => r.(ThreadMessageRow.thread_id) = "h") db.(thread_messages)) as Hall.
  { vm_compute. repeat constructor. }
  exact (proj1 (Forall_forall _ _) Hall r Hr).
Qed.
End DemoEdit.

Lemma edit_round_trip_witness :
  agent_db_ok (V:=Tree.t) DemoEdit.db /\ cut_at "m3" (events_of "h" DemoEdit.db) = Some 2%nat /\
  (exists db1, rewind "h" (drop 2 (events_of "h" DemoEdit.db)) "go" "hello" DemoEdit.db = (db1, Ok ()) /\
    events_of "h" db1 = [DemoEdit.said "m1" "u" "user" "hello" 10; DemoEdit.said "m2" "u" "assistant" "hi" 11]) /\
  exists db3, restore_rows "h" (events_of "h" DemoEdit.db) DemoEdit.listed DemoEdit.db = (db3, Ok ()) /\
    events_of (V:=Tree.t) "h" db3 = events_of "h" DemoEdit.db.
Proof.
  assert (Hcut : cut_at "m3" (events_of (V:=Tree.t) "h" DemoEdit.db) = Some 2%nat) by (vm_compute; reflexivity).
  assert (Hts : Turns.list_for_thread "h" DemoEdit.db = (DemoEdit.db, Ok DemoEdit.listed)) by (vm_compute; reflexivity).
  pose proof (edit_round_trip "h" "m3" "go" "hello" DemoEdit.db 2 DemoEdit.listed DemoEdit.talk_ok Hcut Hts) as (_ & Hone & Htwo).
  split; [exact DemoEdit.talk_ok|]. split; [exact Hcut|]. split.
  - destruct Hone as (db1 & Hr & He & _). exists db1. split; [exact Hr|]. rewrite He. vm_compute. reflexivity.
  - destruct (Htwo DemoEdit.db DemoEdit.talk_ok DemoEdit.unchanged) as (db3 & Hr & He & _). exists db3. split; assumption.
Defined.
