(* ===== verification/WorkPlan.v ===== *)
(** * Work-graph service (crates/am-core/src/work_graph.rs)

    The commands of [AppCore] on the work graph and the plan driver, as programs
    over the tables and a log of what they publish.  What they call in other
    components (launching a session, building a context packet, evaluating a
    gate, updating the task or thread behind a node) is a parameter of the
    section that uses it: the theorems hold whatever those calls do. *)
From S2P Require Import Prelude RustStr Enums Records WorkGraphDb WorkGraphInv Gating.

(** The model choice a run or a plan is started with. *)
Record WorkRunModelOptions := mkModelOptions {
  model : option string;
  model_target : option ModelTargetKind.t;
  compute_profile : option string;
  max_compute_usd : option f64;
  allow_auto_purchase : bool
}.

Definition default_model_options : WorkRunModelOptions := mkModelOptions None None None None false.

(** What the commands publish or schedule. *)
Inductive Effect :=
| WorkGraphUpdated (project_id : string)
| WorkNodeCreated (node : WorkNode.t)
| WorkNodeUpdated (node : WorkNode.t)
| WorkPlanRunUpdated (plan : WorkPlanRun.t)
| Activity (kind : string)
| ScheduleAutoPrettify (project_id : string)
| NotifyPlanWatchers (project_id : string)
| SpawnResume (plan_run_id : string)
| SpawnDriver (plan_run_id project_id : string) (default_agent : AgentKind.t)
    (permission : PermissionPolicy.t) (execution_backend : option ExecutionBackend.t)
    (model_options : WorkRunModelOptions).

Record Core := mkCore { db : WorkDb; log : list Effect }.

Abbreviation CoreM := (M Core CoreError).

(** [?] on a database result. *)
Definition lift_db {A} (m : DbM A) : CoreM A := fun c =>
  match m c.(db) with
  | (d, Ok a) => (mkCore d c.(log), Ok a)
  | (d, Err e) => (mkCore d c.(log), Err (Records.Db e))
  end.

Definition emit (e : Effect) : CoreM () := modify (fun c => mkCore c.(db) (c.(log) ++ [e])).

(** [get_node(..).await?.ok_or(CoreError::NotFound)?]. *)
Definition node_or_not_found (id : string) : CoreM WorkNode.t :=
  o ← lift_db (get_node id); lift_opt o NotFound.

(** ** Edges *)

Section Edges.
Context (iter : gset string -> list string).

Definition validate_gating_edge_candidate (ts : Z) (project_id : string) (replacing_edge_id : option string)
  (source_id target_id : string) (kind : WorkEdgeKind.t) : CoreM () :=
  g ← lift_db (graph project_id);
  let edges := filter (fun e => replacing_edge_id <> Some e.(WorkEdge.id)) g.(WorkGraph.edges) ++
    [WorkEdge.mk (default "__candidate__"%string replacing_edge_id) project_id source_id target_id
       kind None ts ts] in
  lift (validate_gating_edges_acyclic iter g.(WorkGraph.nodes) edges).

Definition connect_work_nodes (ts : Z) (id : string) (input : NewWorkEdge.t) : CoreM WorkEdge.t :=
  source ← node_or_not_found input.(NewWorkEdge.source_id);
  target ← node_or_not_found input.(NewWorkEdge.target_id);
  _ ← fail_when (negb (eq_str source.(WorkNode.project_id) input.(NewWorkEdge.project_id) &&
                       eq_str target.(WorkNode.project_id) input.(NewWorkEdge.project_id)))
        (Other "both work nodes must belong to the edge project");
  _ ← fail_when (eq_str input.(NewWorkEdge.source_id) input.(NewWorkEdge.target_id))
        (Other "a work link cannot target itself");
  _ ← validate_gating_edge_candidate ts input.(NewWorkEdge.project_id) None
        input.(NewWorkEdge.source_id) input.(NewWorkEdge.target_id) input.(NewWorkEdge.kind);
  edge ← lift_db (create_edge ts id input);
  _ ← emit (WorkGraphUpdated edge.(WorkEdge.project_id));
  _ ← emit (Activity "work.edge_connected");
  _ ← (if negb source.(WorkNode.position_locked) && negb target.(WorkNode.position_locked)
       then emit (ScheduleAutoPrettify edge.(WorkEdge.project_id)) else mret ());
  mret edge.

Definition update_work_edge (ts : Z) (edge_id : string) (patch : WorkEdgeUpdate.t) : CoreM WorkEdge.t :=
  o ← lift_db (get_edge edge_id);
  before ← lift_opt o NotFound;
  let source_id := default before.(WorkEdge.source_id) patch.(WorkEdgeUpdate.source_id) in
  let target_id := default before.(WorkEdge.target_id) patch.(WorkEdgeUpdate.target_id) in
  let kind := default before.(WorkEdge.kind) patch.(WorkEdgeUpdate.kind) in
  _ ← fail_when (eq_str source_id target_id) (Other "a work link cannot target itself");
  source ← node_or_not_found source_id;
  target ← node_or_not_found target_id;
  _ ← fail_when (negb (eq_str source.(WorkNode.project_id) before.(WorkEdge.project_id) &&
                       eq_str target.(WorkNode.project_id) before.(WorkEdge.project_id)))
        (Other "both work nodes must stay in the edge project");
  _ ← validate_gating_edge_candidate ts before.(WorkEdge.project_id) (Some edge_id) source_id target_id kind;
  edge ← lift_db (update_edge ts edge_id patch);
  _ ← emit (WorkGraphUpdated edge.(WorkEdge.project_id));
  _ ← emit (Activity "work.edge_updated");
  mret edge.

Definition disconnect_work_nodes (edge_id : string) : CoreM () :=
  o ← lift_db (get_edge edge_id);
  edge ← lift_opt o NotFound;
  _ ← lift_db (delete_edge edge_id);
  _ ← emit (WorkGraphUpdated edge.(WorkEdge.project_id));
  emit (Activity "work.edge_disconnected").
End Edges.

(** ** Placement *)

Definition move_work_node (ts : Z) (node_id : string) (parent_id : option string) (x y : f64) :
  CoreM WorkNode.t :=
  node ← node_or_not_found node_id;
  _ ← fail_when (eq_opt parent_id node_id) (Other "a work node cannot be its own parent");
  _ ← match parent_id with
      | Some parent_id =>
          parent ← node_or_not_found parent_id;
          fail_when (negb (eq_str parent.(WorkNode.project_id) node.(WorkNode.project_id)))
            (Other "parent work node must be in the same project")
      | None => mret ()
      end;
  moved ← lift_db (move_node ts node_id parent_id x y);
  _ ← emit (WorkNodeUpdated moved);
  _ ← emit (Activity "work.node_moved");
  mret moved.

(** ** The gating graph stays acyclic *)

(** What a monadic program that only reads leaves behind. *)
Lemma node_or_not_found_state id c c' r : node_or_not_found id c = (c', r) -> c' = c.
Proof.
  unfold node_or_not_found. rewrite M_bind_unfold. unfold lift_db, get_node, fetch_optional.
  rewrite M_bind_unfold. cbn. destruct c as [d l]. cbn.
  destruct (transpose _); cbn; by intros [= <- _].
Qed.

Lemma fail_when_inv {S E} b (e : E) (s s' : S) u : fail_when b e s = (s', Ok u) -> s' = s /\ b = false.
Proof. unfold fail_when. destruct b; by intros [= <-]. Qed.

Lemma bind_inv {S E A B} (m : M S E A) (f : A -> M S E B) s s' b :
  (m ≫= f) s = (s', Ok b) -> exists s1 a, m s = (s1, Ok a) /\ f a s1 = (s', Ok b).
Proof. rewrite M_bind_unfold. destruct (m s) as [s1 [a|e]]; [eauto|done]. Qed.

Lemma lift_db_inv {A} (m : DbM A) c c' a :
  lift_db m c = (c', Ok a) -> m c.(db) = (c'.(db), Ok a).
Proof. unfold lift_db. destruct (m (db c)) as [d [x|e]]; [|done]. by intros [= <- ->]. Qed.

Lemma edge_try_from_fields r e :
  edge_try_from r = Ok e ->
  WorkEdge.source_id e = WorkEdgeRow.source_id r /\ WorkEdge.target_id e = WorkEdgeRow.target_id r /\
  WorkEdgeKind.as_str (WorkEdge.kind e) = WorkEdgeRow.kind r.
Proof.
  unfold edge_try_from. destruct (decode (T:=WorkEdgeKind.t) _) eqn:Hk; [|done]. intros [= <-].
  split_and!; [done..|]. cbn. apply decode_inv in Hk. exact (wire_unwire (T:=WorkEdgeKind.t) _ _ Hk).
Qed.

Lemma edge_kind_inj (k k' : WorkEdgeKind.t) : WorkEdgeKind.as_str k = WorkEdgeKind.as_str k' -> k = k'.
Proof. exact (wire_inj (T:=WorkEdgeKind.t) k k'). Qed.

(** The gating pair is a function of the ends and the kind. *)
Lemma gating_dependency_ext e e' :
  WorkEdge.source_id e = WorkEdge.source_id e' -> WorkEdge.target_id e = WorkEdge.target_id e' ->
  WorkEdge.kind e = WorkEdge.kind e' -> gating_dependency e = gating_dependency e'.
Proof. unfold gating_dependency. by intros -> -> ->. Qed.

Lemma elem_of_gating_pairs edges p :
  p ∈ gating_pairs edges <-> exists e, e ∈ edges /\ gating_dependency e = Some p.
Proof. apply list_elem_of_omap. Qed.

Lemma acyclic_subset nodes nodes' edges edges' :
  (forall x, x ∈ node_id_set nodes' -> x ∈ node_id_set nodes) ->
  (forall p, p ∈ gating_pairs edges' -> p ∈ gating_pairs edges) ->
  no_self_link edges /\ acyclic nodes edges -> no_self_link edges' /\ acyclic nodes' edges'.
Proof.
  intros Hn Hp [Hs Ha]. split; [intros x Hx; by apply (Hs x), Hp|].
  intros x Hx. apply (Ha x). revert Hx. generalize x at 1 3. intros y Hy.
  induction Hy as [a b (?&?&?)|a b d (?&?&?) _ IH]; [apply tc_once|eapply tc_l; [|done]]; split_and!; auto.
Qed.

Lemma elem_of_node_id_set nodes x :
  x ∈ node_id_set nodes <-> exists n, n ∈ nodes /\ WorkNode.id n = x.
Proof.
  unfold node_id_set. rewrite elem_of_list_to_set, list_elem_of_fmap. naive_solver.
Qed.

(** Every project reads back, and its gating edges are acyclic. *)
Definition gating_ok (d : WorkDb) : Prop :=
  forall pid, exists g, graph pid d = (d, Ok g) /\
    no_self_link g.(WorkGraph.edges) /\ acyclic g.(WorkGraph.nodes) g.(WorkGraph.edges).

Definition graph_ok (c : Core) : Prop := wf c.(db) /\ gating_ok c.(db).

(** The identity of the nodes: a write that keeps these columns and the edges
    keeps the graph. *)
Definition node_keys (d : WorkDb) : list (string * string) :=
  (fun r => (r.(WorkNodeRow.id), r.(WorkNodeRow.project_id))) <$> d.(nodes).

Lemma node_id_set_read d pid g x :
  wf d -> graph pid d = (d, Ok g) -> x ∈ node_id_set g.(WorkGraph.nodes) <-> (x, pid) ∈ node_keys d.
Proof.
  intros Hwf Hg. destruct (graph_read d pid Hwf) as (g0 & Hg0 & Hn & _).
  rewrite Hg in Hg0. injection Hg0 as <-.
  rewrite elem_of_node_id_set. unfold node_keys. rewrite list_elem_of_fmap. split.
  - intros (n & (r & Hr & Hp & Htf)%Hn & <-). exists r. split; [|done].
    destruct (node_try_from_fields r n Htf) as (-> & _ & _). by rewrite Hp.
  - intros (r & [= -> ->] & Hr). pose proof (wf_node_rows _ Hwf r Hr) as Hok.
    destruct (node_try_from r) as [n|] eqn:Htf; [|done]. exists n. split; [apply Hn; eauto|].
    by destruct (node_try_from_fields r n Htf).
Qed.

(** A row of the new edge table stands for an edge the old project graph had, or
    for one more edge whose addition is acyclic. *)
Lemma gating_after_write d d' pid g (skip : option string) (extra : list WorkEdge.t) :
  wf d -> wf d' -> node_keys d' = node_keys d -> graph pid d = (d, Ok g) ->
  no_self_link (filter (fun x => skip <> Some x.(WorkEdge.id)) g.(WorkGraph.edges) ++ extra) /\
  acyclic g.(WorkGraph.nodes)
    (filter (fun x => skip <> Some x.(WorkEdge.id)) g.(WorkGraph.edges) ++ extra) ->
  (forall r, r ∈ d'.(edges) -> r.(WorkEdgeRow.project_id) = pid ->
     (exists r0, r0 ∈ d.(edges) /\ r0.(WorkEdgeRow.project_id) = pid /\ edge_key r0 = edge_key r /\
                 skip <> Some r0.(WorkEdgeRow.id)) \/
     exists e, e ∈ extra /\ edge_key r = (e.(WorkEdge.source_id), e.(WorkEdge.target_id),
                                          WorkEdgeKind.as_str e.(WorkEdge.kind))) ->
  exists g', graph pid d' = (d', Ok g') /\ no_self_link g'.(WorkGraph.edges) /\
             acyclic g'.(WorkGraph.nodes) g'.(WorkGraph.edges).
Proof.
  intros Hwf Hwf' Hnodes Hg Hac Hedges.
  destruct (graph_read d pid Hwf) as (g0 & Hg0 & Hn0 & He0 & _). rewrite Hg in Hg0. injection Hg0 as <-.
  destruct (graph_read d' pid Hwf') as (g' & Hg' & Hn' & He' & _).
  exists g'. split; [done|]. eapply acyclic_subset; [| |exact Hac].
  - intros x. rewrite (node_id_set_read d pid g), (node_id_set_read d' pid g'), Hnodes by done. done.
  - intros p (f & Hf & Hp)%elem_of_gating_pairs. apply elem_of_gating_pairs.
    apply He' in Hf as (r & Hr & Hrp & Hf). pose proof (edge_try_from_fields r f Hf) as (Hs & Ht & Hk).
    destruct (Hedges r Hr Hrp) as [(r0 & Hr0 & Hp0 & Hkey & Hne)|(e & He & Hkey)]; unfold edge_key in Hkey.
    + pose proof (wf_edge_rows _ Hwf r0 Hr0) as Hok. destruct (edge_try_from r0) as [e0|] eqn:He0'; [|done].
      pose proof (edge_try_from_fields r0 e0 He0') as (Hs0 & Ht0 & Hk0).
      exists e0. split.
      * apply elem_of_app. left. apply list_elem_of_filter. split; [|apply He0; eauto].
        by rewrite (edge_try_from_id r0 e0 He0').
      * injection Hkey as H1 H2 H3. rewrite <- Hp. apply gating_dependency_ext; [congruence..|].
        apply edge_kind_inj. congruence.
    + exists e. split; [apply elem_of_app; by right|]. injection Hkey as H1 H2 H3.
      rewrite <- Hp. apply gating_dependency_ext; try congruence. apply edge_kind_inj. congruence.
Qed.

(** Rows that stand for edges the project already had. *)
Lemma gating_after_unrelated d d' pid :
  wf d -> wf d' -> node_keys d' = node_keys d -> gating_ok d ->
  (forall r, r ∈ d'.(edges) -> r.(WorkEdgeRow.project_id) = pid ->
     exists r0, r0 ∈ d.(edges) /\ r0.(WorkEdgeRow.project_id) = pid /\ edge_key r0 = edge_key r) ->
  exists g', graph pid d' = (d', Ok g') /\ no_self_link g'.(WorkGraph.edges) /\
             acyclic g'.(WorkGraph.nodes) g'.(WorkGraph.edges).
Proof.
  intros Hwf Hwf' Hn Hok Hrows. destruct (Hok pid) as (g & Hg & Hac).
  apply (gating_after_write d d' pid g None []); try done.
  - rewrite app_nil_r, filter_all by done. exact Hac.
  - intros r Hr Hp. left. destruct (Hrows r Hr Hp) as (r0 & ? & ? & ?). by exists r0.
Qed.

Lemma keeps_lift_db {A} (P : WorkDb -> Prop) (m : DbM A) :
  keeps P m -> keeps (fun c => P c.(db)) (lift_db m).
Proof.
  intros Hk c Hc. specialize (Hk _ Hc). unfold final, lift_db in *. by destruct (m (db c)) as [d [x|e]].
Qed.

Lemma keeps_emit (P : WorkDb -> Prop) e : keeps (fun c => P c.(db)) (emit e).
Proof. by intros c Hc. Qed.

Lemma keeps_node_or_not_found (P : Core -> Prop) id : keeps P (node_or_not_found id).
Proof.
  intros c Hc. unfold final. destruct (node_or_not_found id c) as [c' r] eqn:Hr.
  by rewrite (node_or_not_found_state _ _ _ _ Hr).
Qed.

(** What [create_edge] leaves in the edge table, whatever it returns. *)
Lemma create_edge_rows ts id input d :
  let d' := final (create_edge ts id input) d in
  d'.(nodes) = d.(nodes) /\
  forall r, r ∈ d'.(edges) ->
    (exists r0, r0 ∈ d.(edges) /\ r0.(WorkEdgeRow.project_id) = r.(WorkEdgeRow.project_id) /\
                edge_key r0 = edge_key r) \/
    r.(WorkEdgeRow.project_id) = input.(NewWorkEdge.project_id) /\
    edge_key r = (input.(NewWorkEdge.source_id), input.(NewWorkEdge.target_id),
                  WorkEdgeKind.as_str input.(NewWorkEdge.kind)).
Proof.
  assert (forall d p, keeps (eq d) (o ← fetch_optional edges p edge_try_from; lift_opt o Sqlx)) as Htail
    by (intros; apply keeps_bind; [auto with perp|intros; apply keeps_lift]).
  unfold create_edge, final. rewrite M_bind_unfold. cbn [get].
  destruct (existsb _ _).
  - rewrite M_bind_unfold. cbn [modify].
    match goal with |- context [fst (?m ?d')] => change (fst (m d')) with (final m d') end.
    rewrite <- (Htail _ _ _ eq_refl).
    cbn. split; [done|]. intros r (b & Hb & ->)%elem_of_update_where. left. exists b. by destruct (same_edge _ _ _ b).
  - rewrite !M_bind_unfold. destruct (_ || _); cbn [fail_when throw mret M_ret modify]; [eauto 10|].
    match goal with |- context [fst (?m ?d')] => change (fst (m d')) with (final m d') end.
    rewrite <- (Htail _ _ _ eq_refl).
    cbn. split; [done|]. intros r [?| ->%list_elem_of_singleton]%elem_of_app; [left; eauto|right; done].
Qed.

(** What [update_edge] leaves in the edge table, whatever it returns. *)
Lemma update_edge_rows ts id patch before d :
  wf d -> get_edge id d = (d, Ok (Some before)) ->
  let d' := final (update_edge ts id patch) d in
  d' = d \/
  d'.(nodes) = d.(nodes) /\
  forall r, r ∈ d'.(edges) ->
    r ∈ d.(edges) /\ r.(WorkEdgeRow.id) <> id \/
    r.(WorkEdgeRow.project_id) = before.(WorkEdge.project_id) /\
    edge_key r = (default before.(WorkEdge.source_id) patch.(WorkEdgeUpdate.source_id),
                  default before.(WorkEdge.target_id) patch.(WorkEdgeUpdate.target_id),
                  WorkEdgeKind.as_str (default before.(WorkEdge.kind) patch.(WorkEdgeUpdate.kind))).
Proof.
  intros Hwf Hget. unfold update_edge, required, final. rewrite !M_bind_unfold, Hget. cbn [lift_opt lift ok_or].
  assert (exists row, row ∈ d.(edges) /\ row.(WorkEdgeRow.id) = id /\ edge_try_from row = Ok before)
    as (row & Hin & Hrow & Htf).
  { unfold get_edge, fetch_optional in Hget. rewrite M_bind_unfold in Hget. cbn in Hget. injection Hget as Hf.
    destruct (find _ (edges d)) as [row|] eqn:Hfind; cbn in Hf; [|done].
    destruct (edge_try_from row) as [e1|] eqn:Htf; [|done]. injection Hf as ->.
    apply find_Some_elem in Hfind as [? Hkey%eq_str_true]. eauto. }
  unfold save_edge. rewrite M_bind_unfold. cbn [get]. rewrite M_bind_unfold.
  destruct (_ || _); cbn [fail_when throw mret M_ret]; [by left|]. rewrite M_bind_unfold. cbn [modify].
  match goal with |- context [fst (?m ?d')] => change (fst (m d')) with (final m d') end.
  assert (forall d, keeps (eq d) (required (get_edge id))) as Htail by auto with perp.
  rewrite <- (Htail _ _ eq_refl). right. cbn. split; [done|]. 
  intros r (b & Hb & ->)%elem_of_update_where.
  rewrite (edge_try_from_id _ _ Htf), Hrow. unfold eq_str. case_bool_decide as Hid; [|by left].
  right. cbn. split; [|done].
  assert (b = row) as -> by (apply (NoDup_column_inj WorkEdgeRow.id d.(edges)); [apply Hwf|congruence..]).
  unfold edge_try_from in Htf. destruct (decode _); [|done]. by injection Htf as <-.
Qed.

(** ** Every edge command keeps the graph acyclic *)

(** The project graph with the edge [replacing] (if any) exchanged for [e] has
    acyclic gating edges. *)
Definition validated (replacing : option string) (e : WorkEdge.t) (d : WorkDb) : Prop :=
  exists g, graph e.(WorkEdge.project_id) d = (d, Ok g) /\
    let edges := filter (fun x => replacing <> Some x.(WorkEdge.id)) g.(WorkGraph.edges) ++ [e] in
    no_self_link edges /\ acyclic g.(WorkGraph.nodes) edges.

Lemma create_edge_graph_ok ts id input e c :
  graph_ok c -> validated None e c.(db) ->
  (e.(WorkEdge.project_id), e.(WorkEdge.source_id), e.(WorkEdge.target_id), e.(WorkEdge.kind)) =
  (input.(NewWorkEdge.project_id), input.(NewWorkEdge.source_id), input.(NewWorkEdge.target_id),
   input.(NewWorkEdge.kind)) ->
  graph_ok (final (lift_db (create_edge ts id input)) c).
Proof.
  intros [Hwf Hok] (g & Hg & Hac) [= Hep Hes Het Hek].
  pose proof (keeps_create_edge ts id input _ Hwf) as Hwf'.
  destruct (create_edge_rows ts id input c.(db)) as [Hn Hrows].
  assert (gating_ok (final (create_edge ts id input) c.(db))) as Hok'.
  { intros pid. destruct (decide (pid = e.(WorkEdge.project_id))) as [->|Hne].
    - eapply gating_after_write; [exact Hwf|done|unfold node_keys; by rewrite Hn|exact Hg|exact Hac|]. intros r Hr Hp.
      destruct (Hrows r Hr) as [(r0 & ? & Hp0 & ?)|[_ Hkey]].
      + left. exists r0. split_and!; [done|congruence|done|done].
      + right. exists e. split; [by left|]. congruence.
    - apply (gating_after_unrelated c.(db)); try done; [unfold node_keys; by rewrite Hn|]. intros r Hr Hp.
      destruct (Hrows r Hr) as [(r0 & ? & Hp0 & ?)|[? _]]; [|congruence].
      exists r0. split_and!; [done|congruence|done]. }
  unfold final, lift_db in *. destruct (create_edge ts id input (db c)) as [d' [?|?]]; by split.
Qed.

Lemma update_edge_graph_ok ts id before patch e c :
  graph_ok c -> get_edge id c.(db) = (c.(db), Ok (Some before)) -> validated (Some id) e c.(db) ->
  (e.(WorkEdge.project_id), e.(WorkEdge.source_id), e.(WorkEdge.target_id), e.(WorkEdge.kind)) =
  (before.(WorkEdge.project_id), default before.(WorkEdge.source_id) patch.(WorkEdgeUpdate.source_id),
   default before.(WorkEdge.target_id) patch.(WorkEdgeUpdate.target_id),
   default before.(WorkEdge.kind) patch.(WorkEdgeUpdate.kind)) ->
  graph_ok (final (lift_db (update_edge ts id patch)) c).
Proof.
  intros [Hwf Hok] Hget (g & Hg & Hac) [= Hep Hes Het Hek].
  pose proof (keeps_update_edge ts id patch _ Hwf) as Hwf'.
  assert (gating_ok (final (update_edge ts id patch) c.(db))) as Hok'.
  { destruct (update_edge_rows ts id patch before c.(db) Hwf Hget) as [->|[Hn Hrows]]; [done|].
    intros pid. destruct (decide (pid = e.(WorkEdge.project_id))) as [->|Hne].
    - eapply gating_after_write; [exact Hwf|done|unfold node_keys; by rewrite Hn|exact Hg|exact Hac|]. intros r Hr Hp.
      destruct (Hrows r Hr) as [[? ?]|[_ Hkey]].
      + left. exists r. split_and!; [done..|congruence].
      + right. exists e. split; [by left|]. congruence.
    - apply (gating_after_unrelated c.(db)); try done; [unfold node_keys; by rewrite Hn|]. intros r Hr Hp.
      destruct (Hrows r Hr) as [[? _]|[? _]]; [|congruence]. by exists r. }
  unfold final, lift_db in *. destruct (update_edge ts id patch (db c)) as [d' [?|?]]; by split.
Qed.

(** A step that only reads: the rest runs in the same state. *)
Lemma keeps_read_bind {A B} (P : Core -> Prop) (m : CoreM A) (f : A -> CoreM B) (c : Core) :
  (forall c, keeps (eq c) m) -> P c -> (forall a, value m c = Ok a -> P (final (f a) c)) ->
  P (final (m ≫= f) c).
Proof.
  intros Hm Hc Hf. specialize (Hm c c eq_refl). unfold final, value in *. rewrite M_bind_unfold.
  destruct (m c) as [c' [a|e]]; cbn in *; subst; auto.
Qed.

(** A step that keeps [P], followed by steps that keep it. *)
Lemma final_bind_keeps {A B} (P : Core -> Prop) (m : CoreM A) (f : A -> CoreM B) c :
  P (final m c) -> (forall a, keeps P (f a)) -> P (final (m ≫= f) c).
Proof.
  intros Hm Hf. unfold final in *. rewrite M_bind_unfold. destruct (m c) as [c' [a|e]]; [by apply Hf|done].
Qed.

Lemma lift_db_reads {A} (m : DbM A) c : (forall d, keeps (eq d) m) -> keeps (eq c) (lift_db m).
Proof.
  intros Hm ? <-. specialize (Hm _ _ eq_refl : eq c.(db) _). unfold final, lift_db in *.
  destruct (m (db c)) as [d [a|e]]; cbn in *; subst; by destruct c.
Qed.

Lemma lift_db_value {A} (m : DbM A) c a :
  (forall d, keeps (eq d) m) -> value (lift_db m) c = Ok a -> m c.(db) = (c.(db), Ok a).
Proof.
  intros Hm. specialize (Hm _ _ eq_refl : eq c.(db) _). unfold final, value, lift_db in *.
  destruct (m (db c)) as [d [x|e]]; cbn in *; [|done]. by intros [= ->]; subst.
Qed.

Lemma keeps_graph P pid : keeps P (graph pid).
Proof. repeat (apply keeps_bind; [apply keeps_fetch_all|intros ?]). apply keeps_ret. Qed.

Lemma keeps_emit_ok e : keeps graph_ok (emit e).
Proof. by intros c Hc. Qed.

#[export] Hint Resolve keeps_node_or_not_found keeps_graph lift_db_reads keeps_emit_ok : perp.
#[export] Hint Extern 1 (keeps _ (lift_opt _ _)) => apply keeps_lift : perp.

Section EdgeCommands.
Context (iter : gset string -> list string) (Hiter : enumerates iter).

Lemma validate_reads ts pid replacing s t k c :
  keeps (eq c) (validate_gating_edge_candidate iter ts pid replacing s t k).
Proof. apply keeps_bind; [auto with perp|]. intros g. apply keeps_lift. Qed.

Lemma validate_value ts pid replacing s t k c u :
  wf c.(db) -> value (validate_gating_edge_candidate iter ts pid replacing s t k) c = Ok u ->
  validated replacing (WorkEdge.mk (default "__candidate__"%string replacing) pid s t k None ts ts) c.(db).
Proof.
  intros Hwf. unfold validate_gating_edge_candidate. unfold value. rewrite M_bind_unfold.
  destruct (lift_db (graph pid) c) as [c' [g|e]] eqn:Hl; [|done]. cbn. intros Hv.
  assert (graph pid c.(db) = (c.(db), Ok g)) as Hg
    by (apply lift_db_value; [intros; apply keeps_graph|unfold value; by rewrite Hl]).
  exists g. split; [done|]. destruct u. apply (validate_exact iter Hiter) in Hv; [done|].
  destruct (graph_read c.(db) pid Hwf) as (g' & Hg' & _ & _ & Hnd).
  rewrite Hg in Hg'. by injection Hg' as <-.
Qed.

Ltac read_step := apply keeps_read_bind; [intros; auto using validate_reads, keeps_fail_when with perp|done|].

Lemma connect_graph_ok ts id input : keeps graph_ok (connect_work_nodes iter ts id input).
Proof.
  intros c Hc. unfold connect_work_nodes.
  read_step; intros source _. read_step; intros target _. do 2 (read_step; intros _ _).
  read_step; intros u Hv%validate_value; [|apply Hc]. 
  apply final_bind_keeps; [by eapply create_edge_graph_ok|]. intros edge.
  repeat (apply keeps_bind; [|intros _]); auto using keeps_ret with perp.
  destruct (_ && _); auto using keeps_ret with perp.
Qed.

Lemma update_graph_ok ts id patch : keeps graph_ok (update_work_edge iter ts id patch).
Proof.
  intros c Hc. unfold update_work_edge.
  read_step; intros o Ho%lift_db_value; [|auto with perp]. read_step; intros before Hb.
  destruct o as [before'|]; [injection Hb as ->|done].
  read_step; intros _ _. read_step; intros source _. read_step; intros target _. read_step; intros _ _.
  read_step; intros u Hv%validate_value; [|apply Hc]. 
  apply final_bind_keeps; [by eapply update_edge_graph_ok|]. intros edge.
  repeat (apply keeps_bind; [|intros _]); auto using keeps_ret with perp.
Qed.

Lemma disconnect_graph_ok id : keeps graph_ok (disconnect_work_nodes id).
Proof.
  intros c Hc. unfold disconnect_work_nodes. read_step; intros o _. read_step; intros edge _.
  apply final_bind_keeps; [|intros _; apply keeps_bind; auto with perp].
  destruct Hc as [Hwf Hok]. pose proof (keeps_delete_edge id _ Hwf) as Hwf'. split; [exact Hwf'|].
  intros pid. apply (gating_after_unrelated c.(db)); [done..|].
  intros r [_ Hr]%list_elem_of_filter Hp. by exists r.
Qed.
End EdgeCommands.

(** A write that touches neither the edges nor the identity of the nodes. *)
Definition same_graph (d d' : WorkDb) : Prop := node_keys d' = node_keys d /\ d'.(edges) = d.(edges).

Lemma keeps_graph_ok_lift {A} (m : DbM A) :
  keeps wf m -> (forall d, keeps (same_graph d) m) -> keeps graph_ok (lift_db m).
Proof.
  intros Hwf Hsame c [Hc Hok]. specialize (Hwf _ Hc). destruct (Hsame c.(db) c.(db)) as [Hk He]; [done|].
  assert (graph_ok (mkCore (final m c.(db)) c.(log))) as Hgoal.
  { split; [done|]. intros pid. apply (gating_after_unrelated c.(db)); try done. cbn. rewrite He.
    intros r Hr Hp. by exists r. }
  unfold final, lift_db in *. by destruct (m (db c)) as [d' [a|e]].
Qed.
