(* ===== verification/PlanDriver.v ===== *)
(** * Running work: sessions, locks and the plan driver (crates/am-core/src/work_graph.rs)

    Starting a work node under the repository locks, the gate modes, retries, and
    one iteration of the driver loop of a plan run.  What these call outside the
    work graph is the class [Services]. *)
From stdpp Require Import pretty.
From Stdlib Require Import Ascii String.
From S2P Require Import Prelude RustStr Enums Records ContextPackets WorkGraphDb WorkGraphInv Gating WorkPlan.

(** The part of a node update that belongs to the task or thread behind it. *)
Record TaskPatch := mkTaskPatch {
  tp_title : option string;
  tp_description : option string;
  tp_status : option TaskStatus.t;
  tp_priority : option TaskPriority.t;
  tp_primary_agent : option AgentKind.t
}.

Record ThreadPatch := mkThreadPatch {
  hp_title : option string;
  hp_status : option TaskStatus.t;
  hp_active_agent : option AgentKind.t;
  hp_preferred_agent : option AgentKind.t;
  hp_objective : option string
}.

(** What the work graph calls in the other components of the core.  [sqlx_text]
    is the message of the database library. *)
Class Services := {
  update_task : string -> TaskPatch -> CoreM ();
  update_agent_thread : string -> ThreadPatch -> CoreM ();
  set_task_model : string -> WorkRunModelOptions -> CoreM ();
  set_thread_model : string -> WorkRunModelOptions -> CoreM ();
  run_task_inner : string -> AgentKind.t -> PermissionPolicy.t -> string -> option ExecutionBackend.t ->
    CoreM string;
  run_agent_thread_with_backend : string -> AgentKind.t -> PermissionPolicy.t -> string ->
    option ExecutionBackend.t -> CoreM string;
  stop_task : string -> CoreM ();
  stop_agent_thread : string -> CoreM ();
  send_message : string -> AgentKind.t -> PermissionPolicy.t -> string -> CoreM (option string);
  send_thread_message : string -> AgentKind.t -> PermissionPolicy.t -> string -> CoreM (option string);
  session_is_active : string -> CoreM bool;
  latest_handoff : string -> CoreM (option string);
  build_context_packet : WorkNode.t -> CoreM ContextPacket.t;
  record_context_packet : ContextPacket.t -> CoreM ();
  evaluate_work_gate : WorkPlanRun.t -> WorkNode.t -> AgentKind.t -> CoreM EvaluationVerdict.t;
  effective_session_capacity : CoreM Z;
  get_evaluator_policy_json : CoreM (option string);
  new_id : CoreM string;
  sqlx_text : DbError -> string
}.

Inductive PlanGateOutcome := Continue | ContinueUpdated | Paused.

Section Driver.
Context {Sv : Services} (iter : gset string -> list string) (ts : Z).

Definition db_error_text (e : DbError) : string :=
  match e with
  | Sqlx | Migrate | Serde _ => sqlx_text e
  | InvalidEnum v => ("invalid stored enum value: " +:+ v)%string
  | DbNotFound => "not found"
  end.

Definition error_text (e : CoreError) : string :=
  match e with Records.Db e => db_error_text e | NotFound => "not found" | Other msg => msg end.

(** ** Updating a node *)

Definition send_work_node_message (node_id : string) (agent : AgentKind.t) (permission : PermissionPolicy.t)
  (message : string) : CoreM (option string) :=
  node ← node_or_not_found node_id;
  match node.(WorkNode.task_id), node.(WorkNode.thread_id) with
  | Some task_id, _ => send_message task_id agent permission message
  | None, Some thread_id => send_thread_message thread_id agent permission message
  | None, None => throw (Other "groups and milestones cannot receive agent messages")
  end.

Definition unblock_message (title : string) (handoff : option string) : string :=
  let message := ("Coordination update: prerequisite " +:+ String (ascii_of_nat 34) title +:+
    String (ascii_of_nat 34) " just completed.")%string in
  match handoff with
  | Some summary =>
      (message +:+ newline +:+ newline +:+ "Its handoff summary:" +:+ newline +:+ truncate summary 1200)%string
  | None => message
  end.

Definition resume_plans_unblocked_by_node (node : WorkNode.t) : CoreM () :=
  plans ← lift_db (list_plan_runs node.(WorkNode.project_id));
  let steer_enabled := existsb (fun plan =>
    bool_decide (plan.(WorkPlanRun.state) = WorkPlanRunState.Running) &&
    plan.(WorkPlanRun.steer_dependents_on_unblock)) plans in
  _ ← for_each (fun plan => emit (SpawnResume plan.(WorkPlanRun.id)))
        (filter (fun plan => plan.(WorkPlanRun.state) = WorkPlanRunState.Paused /\
                             plan.(WorkPlanRun.resume_after_node_id) = Some node.(WorkNode.id)) plans);
  dependents ← lift_db (gating_dependents node.(WorkNode.id));
  match dependents with
  | [] => mret ()
  | _ =>
      handoff ← match node.(WorkNode.task_id) with
                | Some task_id => latest_handoff task_id
                | None => mret None
                end;
      for_each (fun dependent =>
        _ ← emit (Activity "work.blocker_resolved");
        if negb steer_enabled then mret ()
        else
          active ← session_is_active
            (default dependent.(WorkNode.id)
               (opt_or dependent.(WorkNode.task_id) dependent.(WorkNode.thread_id)));
          if negb active then mret ()
          else
            _ ← attempt (send_work_node_message dependent.(WorkNode.id)
                  (default AgentKind.ClaudeCode dependent.(WorkNode.primary_agent))
                  PermissionPolicy.WorkspaceWrite (unblock_message node.(WorkNode.title) handoff));
            mret ()) dependents
  end.

Definition has_task_change (p : TaskPatch) : bool :=
  bool_decide (is_Some p.(tp_title)) || bool_decide (is_Some p.(tp_description)) ||
  bool_decide (is_Some p.(tp_status)) || bool_decide (is_Some p.(tp_priority)) ||
  bool_decide (is_Some p.(tp_primary_agent)).

Definition has_thread_change (p : ThreadPatch) : bool :=
  bool_decide (is_Some p.(hp_title)) || bool_decide (is_Some p.(hp_status)) ||
  bool_decide (is_Some p.(hp_active_agent)) || bool_decide (is_Some p.(hp_objective)).

Definition update_work_node (node_id : string) (patch : WorkNodeUpdate.t) : CoreM WorkNode.t :=
  before ← node_or_not_found node_id;
  _ ← match before.(WorkNode.task_id), before.(WorkNode.thread_id) with
      | Some task_id, _ =>
          let p := mkTaskPatch patch.(WorkNodeUpdate.title) patch.(WorkNodeUpdate.description)
                     patch.(WorkNodeUpdate.status) patch.(WorkNodeUpdate.priority)
                     patch.(WorkNodeUpdate.primary_agent) in
          if has_task_change p then update_task task_id p else mret ()
      | None, Some thread_id =>
          let p := mkThreadPatch patch.(WorkNodeUpdate.title) patch.(WorkNodeUpdate.status)
                     patch.(WorkNodeUpdate.primary_agent) patch.(WorkNodeUpdate.primary_agent)
                     patch.(WorkNodeUpdate.description) in
          if has_thread_change p then update_agent_thread thread_id p else mret ()
      | None, None => mret ()
      end;
  let graph_patch :=
    match before.(WorkNode.task_id), before.(WorkNode.thread_id) with
    | None, None => patch
    | _, _ => WorkNodeUpdate.mk patch.(WorkNodeUpdate.parent_id) None None None None None
                patch.(WorkNodeUpdate.position_x) patch.(WorkNodeUpdate.position_y)
                patch.(WorkNodeUpdate.sort_order)
    end in
  node ← lift_db (update_node_fields ts node_id graph_patch);
  _ ← emit (WorkNodeUpdated node);
  _ ← emit (NotifyPlanWatchers node.(WorkNode.project_id));
  _ ← emit (Activity "work.node_updated");
  _ ← (if negb (bool_decide (before.(WorkNode.status) = TaskStatus.Done)) &&
          bool_decide (node.(WorkNode.status) = TaskStatus.Done)
       then resume_plans_unblocked_by_node node else mret ());
  mret node.

Definition status_patch (status : TaskStatus.t) : WorkNodeUpdate.t :=
  WorkNodeUpdate.mk None None None (Some status) None None None None None.

(** ** Running one node *)

Definition set_work_node_model_options (node : WorkNode.t) (options : WorkRunModelOptions) : CoreM () :=
  if bool_decide (options.(model) = None) && bool_decide (options.(model_target) = None) &&
     match options.(max_compute_usd) with None => true | Some _ => false end &&
     bool_decide (options.(compute_profile) = None)
  then mret ()
  else
    _ ← fail_when (bool_decide (options.(model_target) = Some ModelTargetKind.RentedCompute))
          (Other "rented compute targets are not supported by the VS Code extension");
    match node.(WorkNode.task_id), node.(WorkNode.thread_id) with
    | Some task_id, _ => set_task_model task_id options
    | None, Some thread_id => set_thread_model thread_id options
    | None, None => mret ()
    end.

Definition run_work_node_with_model_options (node_id : string) (agent : AgentKind.t)
  (permission : PermissionPolicy.t) (execution_backend : option ExecutionBackend.t)
  (model_options : WorkRunModelOptions) : CoreM string :=
  node ← node_or_not_found node_id;
  blockers ← lift_db (blocking_edges_for_node node_id);
  _ ← fail_when (negb (bool_decide (blockers = [])))
        (Other ("work is blocked by " +:+ pretty (Z.of_nat (length blockers)) +:+
                " unfinished prerequisite(s)"));
  let locks_needed := negb (bool_decide (permission = PermissionPolicy.ReadOnly)) in
  _ ← (if locks_needed then
         conflicts ← lift_db (conflicting_locks node_id);
         _ ← fail_when (negb (bool_decide (conflicts = [])))
               (Other ("repository is already locked by " +:+ pretty (Z.of_nat (length conflicts)) +:+
                       " running work item(s)"));
         lift_db (acquire_locks ts node_id)
       else mret ());
  packet ← build_context_packet node;
  _ ← record_context_packet packet;
  let packet_prompt := render_context_packet_prompt packet in
  _ ← set_work_node_model_options node model_options;
  result ← try_ match node.(WorkNode.task_id), node.(WorkNode.thread_id) with
                | Some task_id, _ => run_task_inner task_id agent permission packet_prompt execution_backend
                | None, Some thread_id =>
                    run_agent_thread_with_backend thread_id agent permission packet_prompt execution_backend
                | None, None => throw (Other "groups and milestones cannot run agents directly")
                end;
  match result with
  | Ok run_ref =>
      id ← new_id;
      _ ← attempt (lift_db (record_run ts id node agent run_ref));
      mret run_ref
  | Err err =>
      _ ← (if locks_needed then lift_db (release_locks node_id) else mret ());
      throw err
  end.

Definition stop_work_node (node_id : string) : CoreM () :=
  node ← node_or_not_found node_id;
  _ ← match node.(WorkNode.task_id), node.(WorkNode.thread_id) with
      | Some task_id, _ => stop_task task_id
      | None, Some thread_id => stop_agent_thread thread_id
      | None, None => throw (Other "work node is not running")
      end;
  lift_db (release_locks node_id).

(** ** Plan runs *)

Definition update_plan_run (plan_run_id : string) (state : WorkPlanRunState.t)
  (completed active blocked : Z) (error : option string) (ended : bool) : CoreM () :=
  o ← attempt (lift_db (update_plan_run_progress ts plan_run_id state completed active blocked error ended));
  match o with
  | Some plan =>
      _ ← emit (WorkPlanRunUpdated plan);
      if ended then emit (Activity "work.plan_ended") else mret ()
  | None => mret ()
  end.

Definition finish_plan_run (plan_run_id : string) (state : WorkPlanRunState.t)
  (completed active blocked : Z) (error : option string) : CoreM () :=
  update_plan_run plan_run_id state completed active blocked error true.

Definition not_group (node : WorkNode.t) : Prop := node.(WorkNode.kind) <> WorkNodeKind.Group.
#[global] Instance not_group_dec node : Decision (not_group node).
Proof. unfold not_group. apply _. Defined.

Definition total_nodes (g : WorkGraph.t) : Z := Z.of_nat (length (filter not_group g.(WorkGraph.nodes))).

Definition run_work_plan_with_options (project_id : string) (gate_mode : GateMode.t)
  (max_active_runs : option Z) (agent : AgentKind.t) (permission : PermissionPolicy.t)
  (execution_backend : option ExecutionBackend.t) (options : WorkPlanOptions.t) : CoreM WorkPlanRun.t :=
  g ← lift_db (graph project_id);
  _ ← lift (validate_gating_edges_acyclic iter g.(WorkGraph.nodes) g.(WorkGraph.edges));
  let total_count := total_nodes g in
  _ ← fail_when (total_count =? 0) (Other "create runnable work or milestones before running a plan");
  effective_capacity ← effective_session_capacity;
  let max_active_runs := clampZ 1 effective_capacity (default effective_capacity max_active_runs) in
  policy ← attempt get_evaluator_policy_json;
  id ← new_id;
  plan ← lift_db (create_plan_run ts id project_id gate_mode max_active_runs agent
           (permission_to_string permission) execution_backend (mjoin policy) total_count options);
  _ ← emit (WorkPlanRunUpdated plan);
  _ ← emit (Activity "work.plan_started");
  _ ← emit (SpawnDriver plan.(WorkPlanRun.id) project_id agent permission execution_backend
        (mkModelOptions options.(WorkPlanOptions.model) options.(WorkPlanOptions.model_target)
           options.(WorkPlanOptions.compute_profile) options.(WorkPlanOptions.max_compute_usd)
           options.(WorkPlanOptions.allow_auto_purchase)));
  mret plan.

Definition stop_work_plan (plan_run_id : string) : CoreM WorkPlanRun.t :=
  plan ← lift_db (cancel_plan_run ts plan_run_id);
  _ ← emit (WorkPlanRunUpdated plan);
  runs ← lift_db (list_running_runs_for_plan plan_run_id);
  _ ← for_each (fun run => _ ← attempt (stop_work_node run.(WorkRun.node_id)); mret ()) runs;
  _ ← emit (Activity "work.plan_cancelled");
  mret plan.

Definition resume_work_plan (plan_run_id : string) : CoreM WorkPlanRun.t :=
  o ← lift_db (get_plan_run plan_run_id);
  plan ← lift_opt o NotFound;
  if negb (bool_decide (plan.(WorkPlanRun.state) = WorkPlanRunState.Paused)) then mret plan
  else
    g ← lift_db (graph plan.(WorkPlanRun.project_id));
    _ ← fail_when (bool_decide (plan.(WorkPlanRun.gate_mode) = GateMode.Manual) && manual_gate_pending g)
          (Other "manual gate is still waiting for review");
    resumed ← lift_db (resume_plan_run ts plan_run_id);
    _ ← emit (WorkPlanRunUpdated resumed);
    _ ← emit (SpawnDriver resumed.(WorkPlanRun.id) resumed.(WorkPlanRun.project_id)
          (default AgentKind.Codex resumed.(WorkPlanRun.default_agent))
          (from_option parse_permission PermissionPolicy.WorkspaceWrite
             resumed.(WorkPlanRun.default_permission))
          resumed.(WorkPlanRun.default_execution_backend) default_model_options);
    _ ← emit (Activity "work.plan_resumed");
    mret resumed.

(** *** Gates *)

(** A node the gate logic acts on: in review, or a milestone that is due. *)
Definition gate_due (g : WorkGraph.t) (node : WorkNode.t) : bool :=
  bool_decide (node.(WorkNode.status) = TaskStatus.Review) ||
  (bool_decide (node.(WorkNode.kind) = WorkNodeKind.Milestone) &&
   negb (bool_decide (node.(WorkNode.status) = TaskStatus.Done)) &&
   prerequisites_complete node.(WorkNode.id) g).

Fixpoint manual_gate (plan : WorkPlanRun.t) (g : WorkGraph.t) (nodes : list WorkNode.t) :
  CoreM PlanGateOutcome :=
  match nodes with
  | [] => mret Continue
  | node :: rest =>
      if is_group node then manual_gate plan g rest
      else if bool_decide (node.(WorkNode.status) = TaskStatus.Review) then
        _ ← attempt (lift_db (set_plan_run_resume_after_node ts plan.(WorkPlanRun.id) (Some node.(WorkNode.id))));
        mret Paused
      else if bool_decide (node.(WorkNode.kind) = WorkNodeKind.Milestone) &&
              negb (bool_decide (node.(WorkNode.status) = TaskStatus.Done)) &&
              prerequisites_complete node.(WorkNode.id) g then
        _ ← update_work_node node.(WorkNode.id) (status_patch TaskStatus.Review);
        _ ← attempt (lift_db (set_plan_run_resume_after_node ts plan.(WorkPlanRun.id) (Some node.(WorkNode.id))));
        mret Paused
      else manual_gate plan g rest
  end.

Fixpoint auto_gate (plan : WorkPlanRun.t) (g : WorkGraph.t) (updated_any : bool) (nodes : list WorkNode.t) :
  CoreM PlanGateOutcome :=
  match nodes with
  | [] => mret (if updated_any then ContinueUpdated else Continue)
  | node :: rest =>
      if is_group node || is_active_status node.(WorkNode.status) then auto_gate plan g updated_any rest
      else if gate_due g node then
        if bool_decide (plan.(WorkPlanRun.gate_mode) = GateMode.AutoEvaluate) then
          verdict ← evaluate_work_gate plan node
            (default (default AgentKind.Codex plan.(WorkPlanRun.default_agent)) node.(WorkNode.primary_agent));
          match verdict with
          | EvaluationVerdict.Pass =>
              _ ← update_work_node node.(WorkNode.id) (status_patch TaskStatus.Done);
              _ ← emit (Activity "work.gate_auto_evaluated");
              auto_gate plan g true rest
          | EvaluationVerdict.Fail =>
              _ ← update_work_node node.(WorkNode.id) (status_patch TaskStatus.Paused);
              mret Paused
          | EvaluationVerdict.NeedsHuman =>
              _ ← update_work_node node.(WorkNode.id) (status_patch TaskStatus.Review);
              mret Paused
          end
        else
          _ ← update_work_node node.(WorkNode.id) (status_patch TaskStatus.Done);
          _ ← emit (Activity "work.gate_autonomous_passed");
          auto_gate plan g true rest
      else auto_gate plan g updated_any rest
  end.

Definition apply_gate_mode (plan : WorkPlanRun.t) (g : WorkGraph.t) : CoreM PlanGateOutcome :=
  match plan.(WorkPlanRun.gate_mode) with
  | GateMode.Manual => manual_gate plan g g.(WorkGraph.nodes)
  | GateMode.AutoEvaluate | GateMode.Autonomous => auto_gate plan g false g.(WorkGraph.nodes)
  end.

(** *** Retries *)

Fixpoint retry_failed_plan_nodes (plan : WorkPlanRun.t) (failed_ids : list string) (retried : bool) :
  CoreM bool :=
  match failed_ids with
  | [] => mret retried
  | node_id :: rest =>
      attempts ← lift_db (count_runs_for_node_in_plan plan.(WorkPlanRun.id) node_id);
      if plan.(WorkPlanRun.max_node_retries) <? attempts then retry_failed_plan_nodes plan rest retried
      else
        _ ← update_work_node node_id (status_patch TaskStatus.Queued);
        _ ← emit (Activity "work.node_retried");
        retry_failed_plan_nodes plan rest true
  end.

(** *** Starting ready work *)

Inductive start_outcome := Started (started : Z) | StartFailed (err : CoreError).

Fixpoint start_ready (run : WorkNode.t -> CoreM string) (plan_run_id : string) (start_budget started : Z)
  (nodes : list WorkNode.t) : CoreM start_outcome :=
  match nodes with
  | [] => mret (Started started)
  | node :: rest =>
      if start_budget <=? started then mret (Started started)
      else
        r ← try_ (run node);
        match r with
        | Ok run_ref =>
            _ ← attempt (lift_db (attach_run_to_plan run_ref plan_run_id));
            start_ready run plan_run_id start_budget (started + 1) rest
        | Err err =>
            if plan_start_error_is_retryable (error_text err)
            then start_ready run plan_run_id start_budget started rest
            else mret (StartFailed err)
        end
  end.

Definition failed_nodes (g : WorkGraph.t) : list string :=
  WorkNode.id <$> filter (fun node => not_group node /\ node.(WorkNode.status) = TaskStatus.Failed)
                    g.(WorkGraph.nodes).

Definition exhausted_message (failed : nat) (retries : Z) : string :=
  (pretty (Z.of_nat failed) +:+ " node(s) failed after exhausting " +:+ pretty retries +:+ " retr" +:+
   (if (retries =? 1)%Z then "y" else "ies"))%string.

(** *** One iteration of the driver loop

    [true] when the loop goes on (after waiting to be woken), [false] when the
    driver returns.  The body is cut where the source returns early. *)

Definition plan_completed_phase (plan : WorkPlanRun.t) (plan_run_id : string) (g : WorkGraph.t)
  (failed_ids : list string) (completed excluded attainable : Z) : option (CoreM ()) :=
  if (0 <? total_nodes g) && (0 <? attainable) && (attainable <=? completed) then
    Some (match failed_ids with
          | [] => finish_plan_run plan_run_id WorkPlanRunState.Completed completed 0 0 None
          | _ => finish_plan_run plan_run_id WorkPlanRunState.Failed completed 0 excluded
                   (Some ("completed all independent work; " +:+ pretty (Z.of_nat (length failed_ids)) +:+
                          " failed node(s) and their dependents were skipped")%string)
          end)
  else None.

Definition start_phase (plan : WorkPlanRun.t) (plan_run_id : string) (default_agent : AgentKind.t)
  (permission : PermissionPolicy.t) (execution_backend : option ExecutionBackend.t)
  (model_options : WorkRunModelOptions) (active : Z) (g : WorkGraph.t) : CoreM start_outcome :=
  let start_budget := Z.max (plan.(WorkPlanRun.max_active_runs) - active) 0 in
  if 0 <? start_budget then
    start_ready (fun node => run_work_node_with_model_options node.(WorkNode.id)
                   (default default_agent node.(WorkNode.primary_agent)) permission execution_backend
                   model_options)
      plan_run_id start_budget 0 (ready_runnable_nodes g)
  else mret (Started 0).

(** What the failure mode does with failed nodes; [false]: the plan has ended. *)
Definition failure_phase (plan : WorkPlanRun.t) (plan_run_id : string) (failed_ids : list string)
  (completed active blocked : Z) : CoreM bool :=
  if bool_decide (failed_ids = []) then mret true
  else
    match plan.(WorkPlanRun.failure_mode) with
    | PlanFailureMode.Halt =>
        _ ← finish_plan_run plan_run_id WorkPlanRunState.Failed completed active blocked
              (Some "one or more work nodes failed"%string);
        mret false
    | PlanFailureMode.Retry =>
        retried ← attempt (retry_failed_plan_nodes plan failed_ids false);
        if default false retried then mret true
        else
          _ ← finish_plan_run plan_run_id WorkPlanRunState.Failed completed active blocked
                (Some (exhausted_message (length failed_ids) plan.(WorkPlanRun.max_node_retries)));
          mret false
    | PlanFailureMode.Continue => mret true
    end.

Definition progress_phase (plan : WorkPlanRun.t) (plan_run_id : string) (default_agent : AgentKind.t)
  (permission : PermissionPolicy.t) (execution_backend : option ExecutionBackend.t)
  (model_options : WorkRunModelOptions) (g : WorkGraph.t) : CoreM bool :=
  let '(completed, active, blocked) := plan_counts g in
  let failed_ids := failed_nodes g in
  go_on ← failure_phase plan plan_run_id failed_ids completed active blocked;
  if negb go_on then mret false
  else
    let excluded := match plan.(WorkPlanRun.failure_mode) with
                    | PlanFailureMode.Continue => gating_subtree_size failed_ids g
                    | _ => 0
                    end in
    let attainable := Z.max (total_nodes g - excluded) 0 in
    match plan_completed_phase plan plan_run_id g failed_ids completed excluded attainable with
    | Some finish => _ ← finish; mret false
    | None =>
        outcome ← start_phase plan plan_run_id default_agent permission execution_backend model_options active g;
        match outcome with
        | StartFailed err =>
            _ ← finish_plan_run plan_run_id WorkPlanRunState.Failed completed active blocked
                  (Some (error_text err));
            mret false
        | Started started =>
            if bool_decide (plan.(WorkPlanRun.failure_mode) = PlanFailureMode.Continue) &&
               negb (bool_decide (failed_ids = [])) && (active =? 0) && (started =? 0) &&
               bool_decide (length (ready_runnable_nodes g) = 0%nat) && (completed <? attainable) then
              _ ← finish_plan_run plan_run_id WorkPlanRunState.Failed completed 0 blocked
                    (Some ("no runnable work remains; " +:+ pretty (Z.of_nat (length failed_ids)) +:+
                           " failed node(s) block the rest")%string);
              mret false
            else
              _ ← update_plan_run plan_run_id WorkPlanRunState.Running completed (active + started) blocked
                    None false;
              mret true
        end
    end.

Definition drive_once (plan_run_id project_id : string) (default_agent : AgentKind.t)
  (permission : PermissionPolicy.t) (execution_backend : option ExecutionBackend.t)
  (model_options : WorkRunModelOptions) : CoreM bool :=
  r ← try_ (lift_db (get_plan_run plan_run_id));
  match r with
  | Err _ => _ ← emit (Activity "work.plan_error"); mret false
  | Ok None => mret false
  | Ok (Some plan) =>
      if negb (bool_decide (plan.(WorkPlanRun.state) = WorkPlanRunState.Running)) then mret false
      else
        rg ← try_ (lift_db (graph project_id));
        match rg with
        | Err err => _ ← finish_plan_run plan_run_id WorkPlanRunState.Failed 0 0 0 (Some (error_text err));
                     mret false
        | Ok g =>
            match validate_gating_edges_acyclic iter g.(WorkGraph.nodes) g.(WorkGraph.edges) with
            | Err err => _ ← finish_plan_run plan_run_id WorkPlanRunState.Failed 0 0 0 (Some (error_text err));
                         mret false
            | Ok _ =>
                outcome ← attempt (apply_gate_mode plan g);
                match default Continue outcome with
                | Paused =>
                    let '(completed, active, blocked) := plan_counts g in
                    _ ← update_plan_run plan_run_id WorkPlanRunState.Paused completed active blocked
                          (Some "manual gate is waiting for review"%string) false;
                    _ ← emit (Activity "work.plan_gate_paused");
                    mret false
                | ContinueUpdated =>
                    fresh ← attempt (lift_db (graph project_id));
                    progress_phase plan plan_run_id default_agent permission execution_backend model_options
                      (default g fresh)
                | Continue =>
                    progress_phase plan plan_run_id default_agent permission execution_backend model_options g
                end
            end
        end
  end.
End Driver.
