(* ===== verification/PlanProps.v ===== *)
(** * Properties of running work

    What starting nodes and driving a plan guarantee: the graph invariant
    survives every iteration, a repository has one writer, starts stay within the
    plan's budget, and the driver ends a plan in the right state. *)
From stdpp Require Import pretty.
From S2P Require Import Prelude RustStr Enums Records ContextPackets WorkGraphDb WorkGraphInv.
From S2P Require Import Gating WorkPlan PlanDriver.

(** ** The graph invariant *)

Lemma same_graph_trans d d' d'' : same_graph d d' -> same_graph d' d'' -> same_graph d d''.
Proof. unfold same_graph. intros [-> ->] [-> ->]. done. Qed.

(** A write guarded by the state it reads, and a plain write. *)
Lemma same_graph_write d d' d'' :
  same_graph d d' -> d''.(nodes) = d'.(nodes) -> d''.(edges) = d'.(edges) -> same_graph d d''.
Proof. intros [H1 H2] Hn He. unfold same_graph, node_keys in *. by rewrite Hn, He. Qed.

Lemma same_graph_update d d' p f :
  same_graph d d' -> (forall r, WorkNodeRow.id (f r) = WorkNodeRow.id r /\
                                WorkNodeRow.project_id (f r) = WorkNodeRow.project_id r) ->
  same_graph d (set_nodes (update_where p f d'.(nodes)) d').
Proof.
  intros [H1 H2] Hf. split; [|done]. unfold node_keys in *. cbn. rewrite update_where_column; [done|].
  intros r _ _. destruct (Hf r) as [-> ->]. done.
Qed.

Ltac same_graph_step :=
  first [ apply keeps_bind; [|intros ?]
        | apply keeps_gets | apply keeps_get | apply keeps_fail_when | apply keeps_lift | apply keeps_ret
        | apply keeps_fetch_optional | apply keeps_fetch_all | apply keeps_required
        | apply keeps_for_each; intros ?
        | apply keeps_modify; intros ? ?; by eapply same_graph_write ].

Lemma same_update_node_fields d ts id patch : keeps (same_graph d) (update_node_fields ts id patch).
Proof.
  apply keeps_bind; [repeat same_graph_step|]. intros before.
  apply keeps_guarded; [|intros; repeat same_graph_step]. intros d' Hd _. by apply same_graph_update.
Qed.

Lemma same_acquire_locks d ts id : keeps (same_graph d) (acquire_locks ts id).
Proof.
  apply keeps_bind; [repeat same_graph_step|]. intros bs. apply keeps_for_each. intros b.
  apply keeps_guarded_last. intros d' Hd _. by eapply same_graph_write.
Qed.

Lemma same_release_locks d id : keeps (same_graph d) (release_locks id).
Proof. repeat same_graph_step. Qed.

Lemma same_record_run d ts id node agent r : keeps (same_graph d) (record_run ts id node agent r).
Proof.
  apply keeps_guarded; [|intros; repeat same_graph_step]. intros d' Hd _. by eapply same_graph_write.
Qed.

Lemma same_attach_run d r p : keeps (same_graph d) (attach_run_to_plan r p).
Proof. apply keeps_guarded_last. intros d' Hd _. by eapply same_graph_write. Qed.

Lemma same_update_plan d id cond f : keeps (same_graph d) (update_plan id cond f).
Proof. repeat same_graph_step. Qed.

Lemma same_set_resume d ts id n : keeps (same_graph d) (set_plan_run_resume_after_node ts id n).
Proof. repeat same_graph_step. Qed.

Lemma same_create_plan_run d ts id pid gm mx ag perm be ev total options :
  keeps (same_graph d) (create_plan_run ts id pid gm mx ag perm be ev total options).
Proof.
  apply keeps_guarded; [|intros; repeat same_graph_step]. intros d' Hd _. by eapply same_graph_write.
Qed.

Lemma same_progress d ts id st c a b e ended :
  keeps (same_graph d) (update_plan_run_progress ts id st c a b e ended).
Proof. apply same_update_plan. Qed.

#[export] Hint Resolve same_progress same_update_node_fields same_acquire_locks same_release_locks same_record_run
  same_attach_run same_update_plan same_set_resume same_create_plan_run keeps_graph_ok_lift : perp.

(** The reads of the tables. *)
Lemma read_graph_ok {A} (m : DbM A) : (forall P, keeps P m) -> keeps graph_ok (lift_db m).
Proof. intros Hm. apply keeps_graph_ok_lift; [apply Hm|]. intros d. apply Hm. Qed.

Lemma keeps_attempt {S E A} (P : S -> Prop) (m : M S E A) : keeps P m -> keeps P (attempt m).
Proof. intros Hm s Hs. specialize (Hm s Hs). unfold final, attempt in *. by destruct (m s) as [s' [a|e]]. Qed.

Lemma keeps_try {S E A} (P : S -> Prop) (m : M S E A) : keeps P m -> keeps P (try_ m).
Proof. intros Hm s Hs. specialize (Hm s Hs). unfold final, try_ in *. by destruct (m s) as [s' r]. Qed.

Lemma keeps_throw {S E A} (P : S -> Prop) (e : E) : keeps P (throw e : M S E A).
Proof. by intros s Hs. Qed.

(** What the other components promise: none of them breaks the work graph. *)
Class ServicesOk (Sv : Services) := {
  update_task_ok : forall id p, keeps graph_ok (update_task id p);
  update_agent_thread_ok : forall id p, keeps graph_ok (update_agent_thread id p);
  set_task_model_ok : forall id o, keeps graph_ok (set_task_model id o);
  set_thread_model_ok : forall id o, keeps graph_ok (set_thread_model id o);
  run_task_inner_ok : forall id a p m b, keeps graph_ok (run_task_inner id a p m b);
  run_agent_thread_ok : forall id a p m b, keeps graph_ok (run_agent_thread_with_backend id a p m b);
  send_message_ok : forall id a p m, keeps graph_ok (send_message id a p m);
  send_thread_message_ok : forall id a p m, keeps graph_ok (send_thread_message id a p m);
  session_is_active_ok : forall k, keeps graph_ok (session_is_active k);
  latest_handoff_ok : forall k, keeps graph_ok (latest_handoff k);
  build_context_packet_ok : forall n, keeps graph_ok (build_context_packet n);
  record_context_packet_ok : forall p, keeps graph_ok (record_context_packet p);
  evaluate_work_gate_ok : forall p n a, keeps graph_ok (evaluate_work_gate p n a);
  new_id_ok : keeps graph_ok new_id
}.

#[export] Hint Resolve update_task_ok update_agent_thread_ok set_task_model_ok set_thread_model_ok
  run_task_inner_ok run_agent_thread_ok send_message_ok send_thread_message_ok session_is_active_ok
  latest_handoff_ok build_context_packet_ok record_context_packet_ok evaluate_work_gate_ok new_id_ok
  keeps_attempt keeps_try keeps_throw keeps_ret keeps_lift keeps_fail_when : perp.

(** Walk through a program step by step. *)
Ltac graph_ok_step :=
  first
    [ solve [auto with perp]
    | apply keeps_bind; [|intros ?]
    | apply keeps_for_each; intros ?
    | apply keeps_attempt | apply keeps_try
    | match goal with |- keeps _ (match ?x with _ => _ end) => destruct x end
    | apply read_graph_ok; intros ? ].

Section GraphOk.
Context {Sv : Services} {Svok : ServicesOk Sv} (iter : gset string -> list string) (ts : Z).

Lemma send_work_node_message_ok id a p m : keeps graph_ok (send_work_node_message id a p m).
Proof. unfold send_work_node_message. repeat graph_ok_step. Qed.

Lemma list_plan_runs_reads P pid : keeps P (list_plan_runs pid).
Proof. apply keeps_fetch_all. Qed.
Lemma gating_dependents_reads P id : keeps P (gating_dependents id).
Proof. apply keeps_fetch_all. Qed.
Lemma blocking_edges_reads P id : keeps P (blocking_edges_for_node id).
Proof. apply keeps_fetch_all. Qed.
Lemma conflicting_locks_reads P id : keeps P (conflicting_locks id).
Proof. apply keeps_gets. Qed.
Lemma count_runs_reads P plan id : keeps P (count_runs_for_node_in_plan plan id).
Proof. apply keeps_gets. Qed.
#[local] Hint Resolve send_work_node_message_ok list_plan_runs_reads gating_dependents_reads
  blocking_edges_reads conflicting_locks_reads count_runs_reads : perp.

Lemma resume_plans_ok node : keeps graph_ok (resume_plans_unblocked_by_node node).
Proof. unfold resume_plans_unblocked_by_node. repeat graph_ok_step. Qed.
#[local] Hint Resolve resume_plans_ok : perp.

Lemma update_work_node_ok id patch : keeps graph_ok (update_work_node ts id patch).
Proof. unfold update_work_node. repeat graph_ok_step. Qed.
#[local] Hint Resolve update_work_node_ok : perp.

Lemma set_model_options_ok node o : keeps graph_ok (set_work_node_model_options node o).
Proof. unfold set_work_node_model_options. repeat graph_ok_step. Qed.
#[local] Hint Resolve set_model_options_ok : perp.

Lemma run_work_node_ok id a p b o : keeps graph_ok (run_work_node_with_model_options ts id a p b o).
Proof. unfold run_work_node_with_model_options. repeat graph_ok_step. Qed.
#[local] Hint Resolve run_work_node_ok : perp.

Lemma update_plan_run_ok id st c a b e ended : keeps graph_ok (update_plan_run ts id st c a b e ended).
Proof. unfold update_plan_run. repeat graph_ok_step. Qed.
#[local] Hint Resolve update_plan_run_ok : perp.

Lemma finish_plan_run_ok id st c a b e : keeps graph_ok (finish_plan_run ts id st c a b e).
Proof. apply update_plan_run_ok. Qed.
#[local] Hint Resolve finish_plan_run_ok : perp.

Lemma apply_gate_mode_ok plan g : keeps graph_ok (apply_gate_mode ts plan g).
Proof.
  unfold apply_gate_mode.
  assert (forall nodes, keeps graph_ok (manual_gate ts plan g nodes)) as Hm
    by (induction nodes; cbn [manual_gate]; repeat graph_ok_step).
  assert (forall nodes u, keeps graph_ok (auto_gate ts plan g u nodes)) as Ha
    by (induction nodes; intros u; cbn [auto_gate]; repeat graph_ok_step).
  destruct (WorkPlanRun.gate_mode plan); auto.
Qed.

Lemma retry_ok plan ids retried : keeps graph_ok (retry_failed_plan_nodes ts plan ids retried).
Proof. revert retried. induction ids; intros r; cbn [retry_failed_plan_nodes]; repeat graph_ok_step. Qed.

Lemma start_ready_ok run plan budget started nodes :
  (forall n, keeps graph_ok (run n)) -> keeps graph_ok (start_ready run plan budget started nodes).
Proof.
  intros Hrun. revert started. induction nodes; intros n; cbn [start_ready]; repeat graph_ok_step.
Qed.
#[local] Hint Resolve apply_gate_mode_ok retry_ok start_ready_ok : perp.

Lemma plan_completed_ok plan id g failed c e a m :
  plan_completed_phase ts plan id g failed c e a = Some m -> keeps graph_ok m.
Proof.
  unfold plan_completed_phase. destruct (_ && _); [intros [= <-]|done]. repeat graph_ok_step.
Qed.

Lemma progress_phase_ok plan id a p b o g : keeps graph_ok (progress_phase ts plan id a p b o g).
Proof.
  unfold progress_phase, failure_phase, start_phase.
  destruct (plan_counts g) as [[c ac] bl]. apply keeps_bind; [repeat graph_ok_step|]. intros go_on.
  destruct go_on; [|apply keeps_ret]. cbn [negb].
  destruct (plan_completed_phase _ _ _ _ _ _ _) eqn:Hm; [|repeat graph_ok_step].
  apply plan_completed_ok in Hm. repeat graph_ok_step.
Qed.
#[local] Hint Resolve progress_phase_ok : perp.

Lemma drive_once_ok id pid a p b o : keeps graph_ok (drive_once iter ts id pid a p b o).
Proof. unfold drive_once. repeat graph_ok_step. Qed.
End GraphOk.

(** ** Plan rows *)

Lemma get_plan_run_read id d plan :
  get_plan_run id d = (d, Ok (Some plan)) <->
  exists row, find (fun p => eq_str p.(WorkPlanRunRow.id) id) d.(plans) = Some row /\ plan_try_from row = Ok plan.
Proof.
  unfold get_plan_run, fetch_optional. rewrite M_bind_unfold. cbn.
  destruct (find _ (plans d)) as [row|]; cbn; [|split; [done|by intros (? & ? & _)]].
  destruct (plan_try_from row) as [p|e] eqn:Hp; split.
  - intros [= ->]. eauto.
  - intros (row' & [= <-] & Hp'). rewrite Hp in Hp'. by injection Hp' as ->.
  - done.
  - intros (row' & [= <-] & Hp'). by rewrite Hp in Hp'.
Qed.

(** The columns of a plan run the progress write leaves alone. *)
Lemma plan_try_from_progress row plan ts st c a b err (ended : bool) :
  plan_try_from row = Ok plan ->
  exists plan', plan_try_from
      (WorkPlanRunRow.set_updated_at ts
       (WorkPlanRunRow.set_ended_at (opt_or (if ended then Some ts else None) row.(WorkPlanRunRow.ended_at))
          (WorkPlanRunRow.set_error err (WorkPlanRunRow.set_blocked_count b
             (WorkPlanRunRow.set_active_count a (WorkPlanRunRow.set_completed_count c
                (WorkPlanRunRow.set_state (WorkPlanRunState.as_str st) row))))))) = Ok plan' /\
    plan'.(WorkPlanRun.id) = plan.(WorkPlanRun.id) /\
    plan'.(WorkPlanRun.state) = st /\ plan'.(WorkPlanRun.completed_count) = c /\
    plan'.(WorkPlanRun.active_count) = a /\ plan'.(WorkPlanRun.blocked_count) = b /\
    plan'.(WorkPlanRun.error) = err /\
    (ended = true -> plan'.(WorkPlanRun.ended_at) = Some ts).
Proof.
  unfold plan_try_from. cbn.
  assert (decode (T:=WorkPlanRunState.t) (WorkPlanRunState.as_str st) = Ok st) as ->
    by (unfold decode; exact (f_equal (fun o => ok_or o _) (unwire_wire (T:=WorkPlanRunState.t) st))).
  destruct (decode (T:=GateMode.t) _); [|done]. destruct (decode (T:=WorkPlanRunState.t) _); [|done].
  destruct (decode (T:=PlanFailureMode.t) _); [|done]. destruct (decode_opt (T:=AgentKind.t) _); [|done].
  destruct (decode_opt (T:=ExecutionBackend.t) _); [|done]. cbn. intros [= <-].
  eexists. split; [done|]. cbn. split_and!; try done. by intros ->.
Qed.

Section PlanRows.
Context {Sv : Services} (iter : gset string -> list string) (ts : Z).

Lemma update_plan_run_total id st cc a b err ended c :
  exists c', update_plan_run ts id st cc a b err ended c = (c', Ok ()).
Proof.
  unfold update_plan_run. rewrite M_bind_unfold. unfold attempt.
  destruct (lift_db _ c) as [c1 [plan|e]]; [|by eexists]. destruct ended; by eexists.
Qed.

(** A progress write on an existing plan run sets exactly these columns. *)
Lemma update_plan_run_writes id st cc a b err ended c plan :
  get_plan_run id c.(db) = (c.(db), Ok (Some plan)) ->
  exists c' plan', update_plan_run ts id st cc a b err ended c = (c', Ok ()) /\
    get_plan_run id c'.(db) = (c'.(db), Ok (Some plan')) /\
    plan'.(WorkPlanRun.state) = st /\ plan'.(WorkPlanRun.completed_count) = cc /\
    plan'.(WorkPlanRun.active_count) = a /\ plan'.(WorkPlanRun.blocked_count) = b /\
    plan'.(WorkPlanRun.error) = err /\ (ended = true -> plan'.(WorkPlanRun.ended_at) = Some ts) /\
    c'.(db).(nodes) = c.(db).(nodes) /\ c'.(db).(runs) = c.(db).(runs).
Proof.
  intros (row & Hrow & Hplan)%get_plan_run_read.
  destruct (plan_try_from_progress row plan ts st cc a b err ended Hplan) as (plan' & Hp' & _ & Hfields).
  unfold update_plan_run. rewrite M_bind_unfold. unfold attempt, lift_db, update_plan_run_progress, update_plan.
  rewrite M_bind_unfold. cbn [modify].
  match goal with |- context [required (get_plan_run id) ?d] =>
    set (d' := d); assert (get_plan_run id d' = (d', Ok (Some plan'))) as Hget end.
  { apply get_plan_run_read. eexists. split; [|exact Hp']. unfold d'. cbn.
    rewrite find_update_where, Hrow; [done|..]; intros r; cbn; by rewrite ?andb_true_r. }
  unfold required. rewrite M_bind_unfold, Hget. cbn.
  destruct Hfields as (? & ? & ? & ? & ? & ?).
  destruct ended; eexists _, plan'; (split; [done|]); by split_and!.
Qed.
End PlanRows.

(** ** Counting a graph *)

Lemma plan_counts_done g :
  (forall n, n ∈ g.(WorkGraph.nodes) -> not_group n -> n.(WorkNode.status) = TaskStatus.Done) ->
  plan_counts g = (total_nodes g, 0, 0).
Proof.
  intros Hdone. unfold plan_counts, total_nodes.
  assert (filter (fun node => is_group node = false) g.(WorkGraph.nodes) = filter not_group g.(WorkGraph.nodes)) as ->.
  { apply filter_ext_in. intros n _. unfold is_group, not_group. by rewrite bool_decide_eq_false. }
  assert (forall l k, (forall n, n ∈ l -> n.(WorkNode.status) = TaskStatus.Done) ->
    foldl (fun '(completed, active, blocked) node =>
           if is_success_status node.(WorkNode.status) then (completed + 1, active, blocked)
           else if is_active_status node.(WorkNode.status) then (completed, active + 1, blocked)
           else if negb (prerequisites_complete node.(WorkNode.id) g)
                then (completed, active, blocked + 1) else (completed, active, blocked))
      (k, 0, 0) l = (k + Z.of_nat (length l), 0, 0)) as H.
  { induction l as [|n l IH]; intros k Hl; cbn [foldl length]; [f_equal; f_equal; lia|].
    rewrite (Hl n) by left. cbn [is_success_status]. rewrite IH by (intros; apply Hl; by right).
    f_equal. f_equal. lia. }
  rewrite H; [f_equal|]. intros n [Hn Hin]%list_elem_of_filter. auto.
Qed.

Lemma gating_subtree_none g : gating_subtree_size [] g = 0.
Proof. unfold gating_subtree_size. cbn. by destruct (length (WorkGraph.edges g)). Qed.

Lemma failed_nodes_none g :
  (forall n, n ∈ g.(WorkGraph.nodes) -> not_group n -> n.(WorkNode.status) <> TaskStatus.Failed) ->
  failed_nodes g = [].
Proof.
  intros H. unfold failed_nodes. rewrite filter_none; [done|]. intros n Hn [Hg Hs]. by apply (H n).
Qed.

Section Outcomes.
Context {Sv : Services} (iter : gset string -> list string) (Hiter : enumerates iter) (ts : Z).

(** With no gate due the gate logic changes nothing. *)
Lemma apply_gate_mode_idle plan g c :
  (forall n, n ∈ g.(WorkGraph.nodes) -> not_group n -> gate_due g n = false) ->
  apply_gate_mode ts plan g c = (c, Ok Continue).
Proof.
  intros Hdue. unfold apply_gate_mode.
  assert (forall l, (forall n, n ∈ l -> not_group n -> gate_due g n = false) ->
    manual_gate ts plan g l c = (c, Ok Continue) /\ auto_gate ts plan g false l c = (c, Ok Continue)) as H.
  { induction l as [|n l IH]; intros Hl; [done|]. cbn [manual_gate auto_gate].
    assert (forall m, m ∈ l -> not_group m -> gate_due g m = false) as Hl' by (intros; apply Hl; [by right|done]).
    destruct (IH Hl') as [Hm Ha]. unfold is_group.
    destruct (bool_decide_reflect (WorkNode.kind n = WorkNodeKind.Group)) as [|Hg]; [done|].
    assert (gate_due g n = false) as Hn by (apply Hl; [by left|done]). rewrite Hn.
    unfold gate_due in Hn. apply orb_false_iff in Hn as [-> ->]. cbn [orb].
    destruct (is_active_status _); done. }
  destruct (H (WorkGraph.nodes g)) as [Hm Ha]; [done|]. by destruct (WorkPlanRun.gate_mode plan).
Qed.

(** The driver reaches the counting phase with the graph it read. *)
Lemma drive_once_progress id pid a p b o c plan g :
  graph_ok c -> get_plan_run id c.(db) = (c.(db), Ok (Some plan)) ->
  plan.(WorkPlanRun.state) = WorkPlanRunState.Running -> graph pid c.(db) = (c.(db), Ok g) ->
  (forall n, n ∈ g.(WorkGraph.nodes) -> not_group n -> gate_due g n = false) ->
  drive_once iter ts id pid a p b o c = progress_phase ts plan id a p b o g c.
Proof.
  intros [Hwf Hok] Hplan Hrun Hg Hdue. unfold drive_once.
  assert (forall (A : Type) (m : DbM A) x, m c.(db) = (c.(db), Ok x) -> try_ (lift_db m) c = (c, Ok (Ok x))) as Htry.
  { intros A m x Hm. unfold try_, lift_db. rewrite Hm. by destruct c. }
  rewrite M_bind_unfold, (Htry _ _ _ Hplan), Hrun. cbn [bool_decide negb].
  rewrite bool_decide_true by done. cbn [negb]. rewrite M_bind_unfold, (Htry _ _ _ Hg).
  destruct (Hok pid) as (g' & Hg' & Hac). rewrite Hg in Hg'. injection Hg' as <-.
  destruct (graph_read c.(db) pid Hwf) as (g' & Hg' & _ & _ & Hnd). rewrite Hg in Hg'. injection Hg' as <-.
  assert (validate_gating_edges_acyclic iter (WorkGraph.nodes g) (WorkGraph.edges g) = Ok ()) as ->
    by by apply validate_exact.
  rewrite M_bind_unfold. unfold attempt at 1. rewrite apply_gate_mode_idle by done. done.
Qed.

(** Retrying stops at the first pass where every failed node used its budget. *)
Lemma retry_exhausted plan ids retried c :
  (forall id, id ∈ ids -> plan.(WorkPlanRun.max_node_retries) <
     Z.of_nat (length (filter (fun r => r.(WorkRunRow.plan_run_id) = Some plan.(WorkPlanRun.id) /\
                                        r.(WorkRunRow.node_id) = id) c.(db).(runs)))) ->
  retry_failed_plan_nodes ts plan ids retried c = (c, Ok retried).
Proof.
  induction ids as [|id ids IH]; intros Hex; [done|]. cbn [retry_failed_plan_nodes].
  rewrite M_bind_unfold. unfold lift_db at 1, count_runs_for_node_in_plan, gets. 
  rewrite (proj2 (Z.ltb_lt _ _)) by (apply Hex; by left).
  destruct c as [d l]. cbn [db log] in *. apply IH. intros i Hi. apply Hex. by right.
Qed.
End Outcomes.

(** ** Starting ready nodes *)

Section Starting.
Context {Sv : Services} (run : WorkNode.t -> CoreM string) (plan_run_id : string).

(** The runs attempted one after the other, each success attached to the plan. *)
Inductive attempts : Core -> list (WorkNode.t * result CoreError string) -> Core -> Prop :=
| attempts_nil c : attempts c [] c
| attempts_ok c c1 c2 node run_ref tr :
    run node c = (c1, Ok run_ref) ->
    attempts (final (attempt (lift_db (attach_run_to_plan run_ref plan_run_id))) c1) tr c2 ->
    attempts c ((node, Ok run_ref) :: tr) c2
| attempts_err c c1 c2 node err tr :
    run node c = (c1, Err err) -> attempts c1 tr c2 -> attempts c ((node, Err err) :: tr) c2.

Definition successes (tr : list (WorkNode.t * result CoreError string)) : Z :=
  Z.of_nat (length (filter (fun x => is_ok x.2 = true) tr)).

(** What the loop did: it tried a prefix of the nodes in order, stopped at the
    budget or at an error that is not retryable. *)
Definition start_result (budget started : Z) (nodes : list WorkNode.t) (c c' : Core) (out : start_outcome) : Prop :=
  exists tr, attempts c tr c' /\ tr.*1 `prefix_of` nodes /\
    (started <= budget -> started + successes tr <= budget) /\
    match out with
    | Started n => n = started + successes tr /\ (budget <= n \/ tr.*1 = nodes)
    | StartFailed err =>
        exists node, last tr = Some (node, Err err) /\ plan_start_error_is_retryable (error_text err) = false
    end.

Lemma successes_nonneg tr : 0 <= successes tr.
Proof. unfold successes. lia. Qed.

Lemma start_result_stop budget started nodes c :
  budget <= started \/ nodes = [] -> start_result budget started nodes c c (Started started).
Proof.
  intros H. exists []. split; [apply attempts_nil|]. split; [apply prefix_nil|]. unfold successes. cbn.
  split; [lia|]. split; [lia|]. destruct H as [H| ->]; auto.
Qed.

Lemma start_ready_spec budget started nodes c :
  exists c' out, start_ready run plan_run_id budget started nodes c = (c', Ok out) /\
                 start_result budget started nodes c c' out.
Proof.
  revert started c. induction nodes as [|node rest IH]; intros started c; cbn [start_ready].
  { exists c, (Started started). split; [done|]. apply start_result_stop. by right. }
  destruct (Z.leb_spec budget started).
  { exists c, (Started started). split; [done|]. apply start_result_stop. by left. }
  rewrite M_bind_unfold. unfold try_ at 1. destruct (run node c) as [c1 [run_ref|err]] eqn:Hrun.
  - rewrite M_bind_unfold.
    assert (exists x, attempt (lift_db (attach_run_to_plan run_ref plan_run_id)) c1 =
      (final (attempt (lift_db (attach_run_to_plan run_ref plan_run_id))) c1, Ok x)) as [x ->].
    { unfold final, attempt. destruct (lift_db _ c1) as [c2 [?|?]]; eauto. }
    set (c2 := final _ c1).
    destruct (IH (started + 1) c2) as (c' & out & Hs & tr & Htr & Hpre & Hb & Hout).
    exists c', out. split; [done|]. exists ((node, Ok run_ref) :: tr).
    assert (successes ((node, Ok run_ref) :: tr) = 1 + successes tr) as Hsucc
      by (unfold successes; rewrite filter_cons_True by done; cbn [length]; lia).
    split_and!; [by econstructor|by apply prefix_cons|lia|].
    destruct out as [n|err]; [|destruct Hout as (n & Hlast & ?); exists n; split; [|done]].
    + rewrite Hsucc. destruct Hout as [-> Hd]. split; [lia|]. cbn. destruct Hd as [|Hd]; [left; lia|right; by rewrite Hd].
    + rewrite last_cons, Hlast. done.
  - assert (successes [(node, Err err : result CoreError string)] = 0) as H0 by done.
    destruct (plan_start_error_is_retryable (error_text err)) eqn:Hret.
    + destruct (IH started c1) as (c' & out & Hs & tr & Htr & Hpre & Hb & Hout).
      exists c', out. split; [done|]. exists ((node, Err err) :: tr).
      assert (successes ((node, Err err) :: tr) = successes tr) as Hsucc by done.
      split_and!; [by econstructor|by apply prefix_cons|lia|].
      destruct out as [n|err']; [|destruct Hout as (n & Hlast & ?); exists n; split; [|done]].
      * rewrite Hsucc. destruct Hout as [-> Hd]. split; [done|]. destruct Hd as [|Hd]; [by left|right; cbn; by rewrite Hd].
      * rewrite last_cons, Hlast. done.
    + exists c1, (StartFailed err). split; [done|]. exists [(node, Err err)].
      split_and!; [econstructor; [done|constructor]|apply prefix_cons, prefix_nil|lia|by exists node].
Qed.
End Starting.

(** ** Repository locks *)

Lemma conflicting_locks_elem d node_id l :
  conflicting_locks node_id d = (d, Ok l) ->
  forall holder, holder ∈ l <->
    holder <> node_id /\ exists k w, k ∈ d.(locks) /\ w ∈ d.(node_repos) /\
      k.(WorkLockRow.node_id) = holder /\ w.(NodeRepoRow.node_id) = node_id /\
      w.(NodeRepoRow.repo_id) = k.(WorkLockRow.repo_id).
Proof.
  unfold conflicting_locks, gets. intros [= <-] holder. rewrite elem_of_remove_dups, list_elem_of_bind. split.
  - intros (k & (w & Hin & [[Hr Hn] Hw]%list_elem_of_filter)%list_elem_of_bind & Hk).
    case_decide as Hd; [by apply elem_of_nil in Hin|]. apply list_elem_of_singleton in Hin as ->.
    split; [done|]. exists k, w. done.
  - intros [Hne (k & w & Hk & Hw & <- & Hn & Hr)]. exists k. split; [|done]. apply list_elem_of_bind.
    exists w. rewrite decide_False by done. split; [by left|]. by apply list_elem_of_filter.
Qed.

(** The effect of the inserts: one lock per binding, appended in order. *)
Lemma insert_locks_rows node_id ts bs d d' u :
  for_each (fun b => insert_lock node_id b.(WorkNodeRepoBinding.repo_id) ts) bs d = (d', Ok u) ->
  d' = set_locks (d.(locks) ++ ((fun b => WorkLockRow.mk node_id b.(WorkNodeRepoBinding.repo_id) ts) <$> bs)) d.
Proof.
  revert d. induction bs as [|b bs IH]; intros d; cbn [for_each fmap list_fmap].
  { intros [= <- _]. rewrite app_nil_r. by destruct d. }
  intros (d1 & [] & Hins & Hrest)%bind_inv. apply IH in Hrest as ->.
  unfold insert_lock in Hins. apply bind_inv in Hins as (d2 & x & [= <- <-] & Hins).
  apply bind_inv in Hins as (d3 & y & [-> _]%fail_when_inv & [= <-]). cbn. by rewrite <- app_assoc.
Qed.

(** A binding whose repository exists is among those the locks are taken for. *)
Lemma list_repo_bindings_elem d node_id bs w :
  list_repo_bindings node_id d = (d, Ok bs) -> w ∈ d.(node_repos) -> w.(NodeRepoRow.node_id) = node_id ->
  w.(NodeRepoRow.repo_id) ∈ d.(repos).*1 ->
  exists b, b ∈ bs /\ b.(WorkNodeRepoBinding.repo_id) = w.(NodeRepoRow.repo_id).
Proof.
  unfold list_repo_bindings. rewrite fetch_all_read. intros [= Hbs] Hw Hn Hr.
  apply list_elem_of_fmap in Hr as (r & Hr & Hrin).
  assert (exists row, row ∈ join_repos d (filter (fun w => w.(NodeRepoRow.node_id) = node_id) d.(node_repos)) /\
            row.(RepoBindingRow.repo_id) = w.(NodeRepoRow.repo_id)) as (row & Hrow & Hid).
  { unfold join_repos. setoid_rewrite elem_of_sort_by. eexists (RepoBindingRow.mk _ _ _ _ _ _ _). split.
    - apply list_elem_of_bind. exists w. split; [|by apply list_elem_of_filter].
      apply list_elem_of_bind. exists r. split; [by left|]. by apply list_elem_of_filter.
    - reflexivity. }
  destruct (collect_each _ _ _ _ Hbs Hrow) as [b Hb].
  exists b. split; [apply (collect_elem _ _ _ _ Hbs); eauto|]. rewrite <- Hid.
  unfold binding_try_from in Hb. destruct (decode _); [|done]. by injection Hb as <-.
Qed.

(** The node is bound to the repository; the node holds its lock. *)
Definition bound_repo (d : WorkDb) (node_id repo_id : string) : Prop :=
  exists w, w ∈ d.(node_repos) /\ w.(NodeRepoRow.node_id) = node_id /\ w.(NodeRepoRow.repo_id) = repo_id.
Definition locks_repo (d : WorkDb) (node_id repo_id : string) : Prop :=
  exists k, k ∈ d.(locks) /\ k.(WorkLockRow.node_id) = node_id /\ k.(WorkLockRow.repo_id) = repo_id.

Lemma acquired_bindings ts a d d' u r :
  acquire_locks ts a d = (d', Ok u) -> bound_repo d a r -> r ∈ d.(repos).*1 ->
  exists bs bd, bd ∈ bs /\ bd.(WorkNodeRepoBinding.repo_id) = r /\
    for_each (fun b => insert_lock a b.(WorkNodeRepoBinding.repo_id) ts) bs d = (d', Ok u).
Proof.
  intros (d1 & bs & Hbs & Hins)%bind_inv (w & Hw & Ha & Hwr) Hr.
  assert (d1 = d) as ->.
  { unfold list_repo_bindings in Hbs. rewrite fetch_all_read in Hbs. congruence. }
  subst r. destruct (list_repo_bindings_elem d a bs w Hbs Hw Ha Hr) as (bd & Hbd & Hid). by exists bs, bd.
Qed.

(** Taking the locks of a node gives it the lock of every repository it is bound to. *)
Lemma acquire_locks_holds ts a d d' u r :
  acquire_locks ts a d = (d', Ok u) -> bound_repo d a r -> r ∈ d.(repos).*1 -> locks_repo d' a r.
Proof.
  intros Hacq Hb Hr. destruct (acquired_bindings _ _ _ _ _ _ Hacq Hb Hr) as (bs & bd & Hbd & Hid & Hins).
  apply insert_locks_rows in Hins as ->. exists (WorkLockRow.mk a bd.(WorkNodeRepoBinding.repo_id) ts). cbn.
  split; [|done]. apply elem_of_app. right. apply list_elem_of_fmap. by exists bd.
Qed.

(** A repository has one lock: inserts that succeed meet none. *)
Lemma insert_locks_free node_id ts bs d d' u :
  for_each (fun b => insert_lock node_id b.(WorkNodeRepoBinding.repo_id) ts) bs d = (d', Ok u) ->
  forall bd k, bd ∈ bs -> k ∈ d.(locks) -> k.(WorkLockRow.repo_id) <> bd.(WorkNodeRepoBinding.repo_id).
Proof.
  revert d. induction bs as [|b bs IH]; intros d; cbn [for_each]; [by intros _ bd k ?%elem_of_nil|].
  intros (d1 & [] & Hins & Hrest)%bind_inv bd k Hbd Hk.
  unfold insert_lock in Hins. apply bind_inv in Hins as (d2 & x & [= <- <-] & Hins).
  apply bind_inv in Hins as (d3 & y & [-> Hfree]%fail_when_inv & [= <-]).
  apply elem_of_cons in Hbd as [->|Hbd].
  - intros Heq. apply orb_false_iff in Hfree as [[Hfree _]%orb_false_iff _].
    enough (existsb (fun l => eq_str l.(WorkLockRow.repo_id) b.(WorkNodeRepoBinding.repo_id)) d.(locks) = true) by congruence.
    apply existsb_exists. exists k. split; [by apply list_elem_of_In|by apply eq_str_true].
  - apply (IH _ Hrest bd k Hbd). cbn. apply elem_of_app. by left.
Qed.

(** A node cannot take the locks while another row holds one of its repositories. *)
Lemma acquire_locks_refused ts b d r k :
  k ∈ d.(locks) -> k.(WorkLockRow.repo_id) = r -> bound_repo d b r -> r ∈ d.(repos).*1 ->
  exists d' e, acquire_locks ts b d = (d', Err e).
Proof.
  intros Hk Hkr Hb Hr. destruct (acquire_locks ts b d) as [d' [u|e]] eqn:Hacq; [|by exists d', e].
  destruct (acquired_bindings _ _ _ _ _ _ Hacq Hb Hr) as (bs & bd & Hbd & Hid & Hins).
  destruct (insert_locks_free _ _ _ _ _ _ Hins bd k Hbd Hk). congruence.
Qed.

Lemma locked_conflicts d a b r :
  locks_repo d a r -> bound_repo d b r -> a <> b -> exists l, conflicting_locks b d = (d, Ok l) /\ a ∈ l.
Proof.
  intros (k & Hk & Ha & Hkr) (w & Hw & Hb & Hwr) Hne. eexists. split; [done|].
  eapply conflicting_locks_elem; [done|]. split; [done|]. exists k, w. split_and!; congruence.
Qed.

Lemma conflicting_holders d b l :
  conflicting_locks b d = (d, Ok l) ->
  forall h, h ∈ l <-> h <> b /\ exists r, locks_repo d h r /\ bound_repo d b r.
Proof.
  intros Hc h. rewrite (conflicting_locks_elem d b l Hc h). split.
  - intros [Hne (k & w & Hk & Hw & Hh & Hb & Hr)]. split; [done|]. exists k.(WorkLockRow.repo_id).
    split; [by exists k|by exists w].
  - intros [Hne (r & (k & Hk & Hh & Hkr) & (w & Hw & Hb & Hwr))]. split; [done|]. exists k, w. split_and!; congruence.
Qed.

Lemma conflicting_nodup b d l : conflicting_locks b d = (d, Ok l) -> NoDup l.
Proof. unfold conflicting_locks, gets. intros [= <-]. apply NoDup_remove_dups. Qed.

(** The refusal of a start, with the number of nodes that hold its repositories. *)
Definition locked_error (conflicts : list string) : CoreError :=
  Other ("repository is already locked by " +:+ pretty (Z.of_nat (length conflicts)) +:+ " running work item(s)").

Section Locks.
Context {Sv : Services} (ts : Z).

Lemma lift_db_ok {A} (m : DbM A) c x : m c.(db) = (c.(db), Ok x) -> lift_db m c = (c, Ok x).
Proof. unfold lift_db. intros ->. by destruct c. Qed.

(** A conflicting lock stops a writer before it does anything. *)
Lemma run_blocked_by_lock node_id agent permission backend options c l :
  permission <> PermissionPolicy.ReadOnly ->
  conflicting_locks node_id c.(db) = (c.(db), Ok l) -> l <> [] ->
  exists e, run_work_node_with_model_options ts node_id agent permission backend options c = (c, Err e) /\
    (forall node, node_or_not_found node_id c = (c, Ok node) ->
       lift_db (blocking_edges_for_node node_id) c = (c, Ok []) -> e = locked_error l).
Proof.
  intros Hp Hc Hl. unfold run_work_node_with_model_options. rewrite M_bind_unfold.
  destruct (node_or_not_found node_id c) as [c1 [node|e]] eqn:Hn; apply node_or_not_found_state in Hn as ->;
    [|by eexists].
  rewrite M_bind_unfold. destruct (lift_db (blocking_edges_for_node node_id) c) as [c1 [bs|e]] eqn:Hb.
  all: assert (c1 = c) as -> by
    (pose proof (lift_db_reads (blocking_edges_for_node node_id) c ltac:(intros; apply blocking_edges_reads) c
       eq_refl) as Hk; unfold final in Hk; by rewrite Hb in Hk).
  2: { eexists. split; [done|]. by intros ? _. }
  rewrite M_bind_unfold. unfold fail_when at 1. case_bool_decide as Hbs; cbn [negb].
  2: { eexists. split; [done|]. intros ? _ [= ?]. done. }
  cbn [mret M_ret]. rewrite bool_decide_false by done. cbn [negb].
  rewrite M_bind_unfold, M_bind_unfold, (lift_db_ok _ _ _ Hc).
  rewrite M_bind_unfold. unfold fail_when. rewrite bool_decide_false by done. cbn. by eexists.
Qed.
End Locks.

(** *** Taking the locks succeeds when nobody holds them *)

Lemma filter_key_unique (repos : list (string * string)) k :
  NoDup (repos.*1) ->
  filter (fun r => r.1 = k) repos = [] \/ exists r, filter (fun r => r.1 = k) repos = [r].
Proof.
  induction repos as [|r l IH]; intros Hnd; [by left|]. rewrite fmap_cons in Hnd.
  apply NoDup_cons in Hnd as [Hr Hnd]. rewrite filter_cons. case_decide as Hk; [right; exists r|auto].
  f_equal. apply filter_none. intros x Hx Hxk. apply Hr. rewrite Hk, <- Hxk. by apply list_elem_of_fmap_2.
Qed.

(** The repositories of a node's bindings are distinct and in the table. *)
Lemma bindings_distinct d node_id bs :
  wf d -> list_repo_bindings node_id d = (d, Ok bs) ->
  NoDup (WorkNodeRepoBinding.repo_id <$> bs) /\
  forall b, b ∈ bs -> b.(WorkNodeRepoBinding.repo_id) ∈ d.(repos).*1 /\
    exists w, w ∈ d.(node_repos) /\ w.(NodeRepoRow.node_id) = node_id /\
              w.(NodeRepoRow.repo_id) = b.(WorkNodeRepoBinding.repo_id).
Proof.
  intros Hwf. unfold list_repo_bindings. rewrite fetch_all_read. intros [= Hbs].
  assert (forall row b, binding_try_from row = Ok b -> b.(WorkNodeRepoBinding.repo_id) = row.(RepoBindingRow.repo_id))
    as Hcol by (intros row b; unfold binding_try_from; destruct (decode _); [by intros [= <-]|done]).
  split.
  - rewrite (collect_column _ RepoBindingRow.repo_id _ _ _ Hcol Hbs). unfold join_repos.
    rewrite sort_by_perm.
    pose proof (wf_binding_keys _ Hwf) as Hkeys. pose proof (wf_repo_ids _ Hwf) as Hrepos. clear Hbs.
    induction (node_repos d) as [|w ws IH]; [constructor|]. rewrite fmap_cons in Hkeys.
    apply NoDup_cons in Hkeys as [Hw Hkeys]. rewrite filter_cons. case_decide as Hn; [|auto].
    cbn. rewrite fmap_app. apply NoDup_app. split_and!; [| |auto].
    + destruct (filter_key_unique d.(repos) w.(NodeRepoRow.repo_id) Hrepos) as [->|[r ->]]; cbn; 
        [constructor|apply NoDup_singleton].
    + intros k Hk (row & -> & (w' & Hrow & [Hn' Hw']%list_elem_of_filter)%list_elem_of_bind)%list_elem_of_fmap.
      apply list_elem_of_bind in Hrow as (r' & ->%list_elem_of_singleton & _).
      apply list_elem_of_fmap in Hk as (row & Hk & (r & ->%list_elem_of_singleton & _)%list_elem_of_bind).
      cbn in Hk. apply Hw. apply list_elem_of_fmap. exists w'. by rewrite Hn, Hn', Hk.
  - intros b Hb. apply (collect_elem _ _ _ _ Hbs) in Hb as (row & Hrow & Htf). rewrite (Hcol _ _ Htf).
    unfold join_repos in Hrow.
    apply elem_of_sort_by, list_elem_of_bind in Hrow as (w & Hrow & [Hn Hw]%list_elem_of_filter).
    apply list_elem_of_bind in Hrow as (r & ->%list_elem_of_singleton & [Hr Hrin]%list_elem_of_filter).
    cbn. split; [rewrite <- Hr; by apply list_elem_of_fmap_2|]. by exists w.
Qed.

Lemma bindings_readable d node_id : wf d -> exists bs, list_repo_bindings node_id d = (d, Ok bs).
Proof.
  intros Hwf. unfold list_repo_bindings. rewrite fetch_all_read.
  match goal with |- context [collect ?x] => assert (is_ok (collect x) = true) as Hok end.
  { apply collect_ok. intros row Hrow. unfold join_repos in Hrow.
    apply elem_of_sort_by, list_elem_of_bind in Hrow as (w & Hrow & [_ Hw]%list_elem_of_filter).
    apply list_elem_of_bind in Hrow as (r & ->%list_elem_of_singleton & _).
    pose proof (wf_binding_rows _ Hwf w Hw) as Hr. unfold binding_try_from, ExecutionBackend_of in *. cbn.
    by destruct (decode _). }
  destruct (collect _); [by eexists|done].
Qed.

Lemma insert_locks_ok node_id ts bs d :
  node_exists d node_id = true -> NoDup (WorkNodeRepoBinding.repo_id <$> bs) ->
  (forall b, b ∈ bs -> b.(WorkNodeRepoBinding.repo_id) ∈ d.(repos).*1 /\
     b.(WorkNodeRepoBinding.repo_id) ∉ WorkLockRow.repo_id <$> d.(locks)) ->
  exists d', for_each (fun b => insert_lock node_id b.(WorkNodeRepoBinding.repo_id) ts) bs d = (d', Ok ()).
Proof.
  revert d. induction bs as [|b bs IH]; intros d Hn Hnd Hfree; cbn [for_each]; [by eexists|].
  rewrite fmap_cons in Hnd. apply NoDup_cons in Hnd as [Hb Hnd].
  destruct (Hfree b) as [Hr Hl]; [by left|].
  rewrite M_bind_unfold. unfold insert_lock at 1. rewrite M_bind_unfold. cbn [get]. rewrite M_bind_unfold.
  rewrite Hn. rewrite (proj2 (existsb_key_false WorkLockRow.repo_id _ _)) by done.
  rewrite (proj2 (existsb_key fst _ _)) by done. cbn [negb orb fail_when mret M_ret modify].
  apply IH; [done|done|]. intros b' Hb'. destruct (Hfree b') as [Hr' Hl']; [by right|]. split; [done|].
  cbn. rewrite fmap_app. intros [?|Heq%list_elem_of_singleton]%elem_of_app; [done|].
  apply Hb. cbn in Heq. rewrite <- Heq. by apply list_elem_of_fmap_2.
Qed.

Lemma acquire_locks_free ts node_id d :
  wf d -> node_exists d node_id = true -> conflicting_locks node_id d = (d, Ok []) ->
  (forall k, k ∈ d.(locks) -> k.(WorkLockRow.node_id) <> node_id) ->
  exists d', acquire_locks ts node_id d = (d', Ok ()).
Proof.
  intros Hwf Hn Hc Hown. destruct (bindings_readable d node_id Hwf) as [bs Hbs].
  unfold acquire_locks. rewrite M_bind_unfold, Hbs.
  destruct (bindings_distinct d node_id bs Hwf Hbs) as [Hnd Hin].
  apply insert_locks_ok; [done|done|]. intros b Hb. destruct (Hin b Hb) as (Hr & w & Hw & Hwn & Hwr).
  split; [done|]. intros (k & Hk & Hkin)%list_elem_of_fmap.
  assert (k.(WorkLockRow.node_id) ∈ []) as Hno; [|by apply elem_of_nil in Hno].
  apply (conflicting_locks_elem _ _ _ Hc). split; [by apply Hown|]. exists k, w.
  split_and!; [done..|congruence].
Qed.

(** ** A failed start *)

(** The steps between taking the locks and launching succeed. *)
Class PrepTotal (Sv : Services) : Prop := {
  build_total : forall n c, is_ok (value (build_context_packet n) c) = true;
  record_total : forall p c, is_ok (value (record_context_packet p) c) = true;
  task_model_total : forall id o c, is_ok (value (set_task_model id o) c) = true;
  thread_model_total : forall id o c, is_ok (value (set_thread_model id o) c) = true;
  new_id_total : forall c, is_ok (value new_id c) = true
}.

Definition holds_lock (d : WorkDb) (node_id : string) : Prop :=
  exists k, k ∈ d.(locks) /\ k.(WorkLockRow.node_id) = node_id.

Lemma value_ok {S E A} (m : M S E A) s : is_ok (value m s) = true -> exists s' a, m s = (s', Ok a).
Proof. unfold value. destruct (m s) as [s' [a|e]]; [eauto|done]. Qed.

Section FailedStart.
Context {Sv : Services} {Prep : PrepTotal Sv} (ts : Z).

Lemma set_model_options_total node o c :
  o.(model_target) <> Some ModelTargetKind.RentedCompute ->
  is_ok (value (set_work_node_model_options node o) c) = true.
Proof.
  intros Hm. unfold set_work_node_model_options. destruct (_ && _); [done|]. unfold value.
  rewrite M_bind_unfold. rewrite bool_decide_false by done. cbn [fail_when mret M_ret].
  destruct (WorkNode.task_id node); [apply task_model_total|].
  destruct (WorkNode.thread_id node); [apply thread_model_total|done].
Qed.

Lemma release_locks_none node_id c c' u :
  lift_db (release_locks node_id) c = (c', Ok u) -> ~ holds_lock c'.(db) node_id.
Proof. intros [= <- _] (k & [Hne _]%list_elem_of_filter & Hk). done. Qed.

(** The launch and its clean-up, from any state. *)
Lemma launch_cleanup node node_id agent (launch : CoreM string) c c' e :
  (result ← try_ launch;
   match result with
   | Ok run_ref =>
       id ← new_id; _ ← attempt (lift_db (record_run ts id node agent run_ref)); mret run_ref
   | Err err => _ ← lift_db (release_locks node_id); throw err
   end : CoreM string) c = (c', Err e) -> ~ holds_lock c'.(db) node_id.
Proof.
  rewrite M_bind_unfold. unfold try_ at 1. destruct (launch c) as [c1 [run_ref|err]].
  - rewrite M_bind_unfold. destruct (value_ok new_id c1 (new_id_total c1)) as (c2 & id & ->).
    rewrite M_bind_unfold. unfold attempt. by destruct (lift_db _ c2) as [c3 [?|?]].
  - rewrite M_bind_unfold. destruct (lift_db (release_locks node_id) c1) as [c2 [u|?]] eqn:Hr; [|done].
    intros [= <- _]. by eapply release_locks_none.
Qed.

Lemma node_found_exists id c c' node : node_or_not_found id c = (c', Ok node) -> node_exists c.(db) id = true.
Proof.
  unfold node_or_not_found. rewrite M_bind_unfold. unfold lift_db, get_node, fetch_optional.
  rewrite M_bind_unfold. cbn. destruct (find _ (nodes (db c))) as [r|] eqn:Hr; [intros _|done].
  apply find_Some_elem in Hr as [Hin Heq]. apply existsb_exists. exists r. split; [by apply list_elem_of_In|done].
Qed.

Lemma failed_start_no_lock node_id agent permission backend options c c' e :
  wf c.(db) -> ~ holds_lock c.(db) node_id -> options.(model_target) <> Some ModelTargetKind.RentedCompute ->
  permission <> PermissionPolicy.ReadOnly ->
  run_work_node_with_model_options ts node_id agent permission backend options c = (c', Err e) ->
  ~ holds_lock c'.(db) node_id.
Proof.
  intros Hwf Hown Hopt Hperm. unfold run_work_node_with_model_options. rewrite M_bind_unfold.
  destruct (node_or_not_found node_id c) as [c1 [node|e1]] eqn:Hn;
    pose proof (node_or_not_found_state _ _ _ _ Hn) as ->; [|by intros [= <- _]].
  apply node_found_exists in Hn. rewrite M_bind_unfold.
  pose proof (lift_db_reads (blocking_edges_for_node node_id) c ltac:(intros; apply blocking_edges_reads) c
       eq_refl) as Hk. unfold final in Hk.
  destruct (lift_db (blocking_edges_for_node node_id) c) as [c1 [bs|e1]]; cbn [fst] in Hk; subst c1;
    [|by intros [= <- _]].
  rewrite M_bind_unfold. unfold fail_when at 1. destruct (negb _); [by intros [= <- _]|]. cbn [mret M_ret].
  rewrite bool_decide_false by done. cbn [negb]. rewrite M_bind_unfold, M_bind_unfold.
  assert (exists l, conflicting_locks node_id c.(db) = (c.(db), Ok l)) as [l Hc] by by eexists.
  rewrite (lift_db_ok _ _ _ Hc). rewrite M_bind_unfold. unfold fail_when at 1.
  destruct (bool_decide_reflect (l = [])) as [Hnil|]; cbn [negb]; [|by intros [= <- _]].
  rewrite Hnil in Hc. cbn [mret M_ret].
  destruct (acquire_locks_free ts node_id c.(db) Hwf Hn Hc) as [d' Hacq].
  { intros k Hkin Hkn. apply Hown. by exists k. }
  unfold lift_db at 1. rewrite Hacq. set (c1 := mkCore d' (log c)).
  rewrite M_bind_unfold. destruct (value_ok _ _ (build_total node c1)) as (c2 & packet & ->).
  rewrite M_bind_unfold. destruct (value_ok _ _ (record_total packet c2)) as (c3 & [] & ->).
  rewrite M_bind_unfold. destruct (value_ok _ _ (set_model_options_total node options c3 Hopt)) as (c4 & [] & ->).
  apply launch_cleanup.
Qed.
End FailedStart.
