(* ===== verification/NodeCommands.v ===== *)
(** * Creating, binding and deleting work nodes (crates/am-core/src/work_graph.rs)

    The commands that add and remove nodes.  A task or session node is created and
    deleted through the task or thread that owns it; those components are the
    class [NodeServices]. *)
From Stdlib Require Import SpecFloat.
From S2P Require Import Prelude RustStr Enums Records Doubles ContextPackets WorkGraphDb WorkGraphInv.
From S2P Require Import Gating WorkPlan PlanDriver PlanProps.

Class NodeServices := {
  create_task : NewTask.t -> CoreM string;
  create_agent_thread : NewAgentThread.t -> CoreM string;
  delete_task : string -> CoreM ();
  delete_agent_thread : string -> bool -> CoreM ();
  validate_project_repo : string -> string -> CoreM ();
  assign_thread_repos : string -> list string -> CoreM ();
  assign_task_repo : string -> string -> CoreM ();
  clear_task_repos : string -> CoreM ()
}.

(** ** Provisional positions *)

Definition LAYOUT_X_GAP : f64 := f64_of_int 300.
Definition LAYOUT_Y_GAP : f64 := f64_of_int 142.
Definition LAYOUT_X0 : f64 := f64_of_int 80.
Definition LAYOUT_Y0 : f64 := f64_of_int 80.

(** [index % 6.0] floored is the remainder of the sibling count. *)
Definition next_work_node_position (project_id : string) (parent_id : option string) (kind : WorkNodeKind.t) :
  CoreM (f64 * f64) :=
  g ← lift_db (graph project_id);
  let siblings := filter (fun node => node.(WorkNode.parent_id) = parent_id) g.(WorkGraph.nodes) in
  let count := Z.of_nat (length siblings) in
  if bool_decide (g.(WorkGraph.nodes) = []) then mret (LAYOUT_X0, LAYOUT_Y0)
  else if bool_decide (is_Some parent_id) && negb (bool_decide (kind = WorkNodeKind.Group)) then
    mret (f64_add LAYOUT_X0 (f64_of_int 24), f64_add LAYOUT_Y0 (f64_mul (f64_of_int count) (f64_of_int 110)))
  else
    let max_x := foldl f64_max LAYOUT_X0 (WorkNode.position_x <$> g.(WorkGraph.nodes)) in
    let row := f64_of_int (count mod 6) in
    mret (f64_add max_x LAYOUT_X_GAP, f64_add LAYOUT_Y0 (f64_mul row LAYOUT_Y_GAP)).

Definition place (x y : f64) (input : NewWorkNode.t) : NewWorkNode.t :=
  NewWorkNode.mk input.(NewWorkNode.project_id) input.(NewWorkNode.parent_id) input.(NewWorkNode.kind)
    input.(NewWorkNode.title) input.(NewWorkNode.description) input.(NewWorkNode.priority)
    input.(NewWorkNode.primary_agent) input.(NewWorkNode.model) input.(NewWorkNode.model_target)
    input.(NewWorkNode.compute_profile) input.(NewWorkNode.max_compute_usd)
    input.(NewWorkNode.allow_auto_purchase) input.(NewWorkNode.compute_provider) input.(NewWorkNode.repo_ids)
    (Some (default x input.(NewWorkNode.position_x))) (Some (default y input.(NewWorkNode.position_y))).

(** The task and the thread behind a node. *)
Definition task_of (input : NewWorkNode.t) : NewTask.t :=
  NewTask.mk input.(NewWorkNode.project_id) input.(NewWorkNode.title) (head input.(NewWorkNode.repo_ids))
    input.(NewWorkNode.description) input.(NewWorkNode.priority) input.(NewWorkNode.primary_agent)
    input.(NewWorkNode.model) input.(NewWorkNode.model_target) None input.(NewWorkNode.compute_provider)
    input.(NewWorkNode.max_compute_usd) None.

Definition thread_of (input : NewWorkNode.t) : NewAgentThread.t :=
  NewAgentThread.mk (Some input.(NewWorkNode.project_id)) None input.(NewWorkNode.title)
    input.(NewWorkNode.description) input.(NewWorkNode.repo_ids) input.(NewWorkNode.primary_agent) None None false
    input.(NewWorkNode.model) None None input.(NewWorkNode.compute_profile) input.(NewWorkNode.model_target) None
    input.(NewWorkNode.compute_provider) input.(NewWorkNode.max_compute_usd) None None None.

(** ** Commands *)

Section Commands.
Context `{Sv : Services, NSv : NodeServices} (ts : Z).

Definition assign_work_node_repos (node_id : string) (repo_ids : list string) : CoreM (list WorkNodeRepoBinding.t) :=
  node ← node_or_not_found node_id;
  _ ← for_each (validate_project_repo node.(WorkNode.project_id)) repo_ids;
  _ ← match node.(WorkNode.thread_id), node.(WorkNode.task_id) with
      | Some thread_id, _ => assign_thread_repos thread_id repo_ids
      | None, Some task_id =>
          match repo_ids with
          | repo_id :: _ => assign_task_repo task_id repo_id
          | [] => clear_task_repos task_id
          end
      | None, None => mret ()
      end;
  bindings ← lift_db (replace_node_repos node_id repo_ids);
  _ ← emit (Activity "work.repos_selected");
  mret bindings.

(** [WorkNodeUpdate { parent_id, position_x, position_y, ..Default::default() }]. *)
Definition placement_patch (input : NewWorkNode.t) : WorkNodeUpdate.t :=
  WorkNodeUpdate.mk input.(NewWorkNode.parent_id) None None None None None input.(NewWorkNode.position_x)
    input.(NewWorkNode.position_y) None.

Definition create_owned_node (find_node : DbM (option WorkNode.t)) (input : NewWorkNode.t) : CoreM WorkNode.t :=
  o ← lift_db find_node;
  node ← lift_opt o NotFound;
  update_work_node ts node.(WorkNode.id) (placement_patch input).

Definition create_work_node (input0 : NewWorkNode.t) : CoreM WorkNode.t :=
  let kind := default WorkNodeKind.Task input0.(NewWorkNode.kind) in
  let auto_layout := negb (bool_decide (is_Some input0.(NewWorkNode.position_x))) ||
                     negb (bool_decide (is_Some input0.(NewWorkNode.position_y))) in
  input ← (if auto_layout then
             '(x, y) ← next_work_node_position input0.(NewWorkNode.project_id) input0.(NewWorkNode.parent_id) kind;
             mret (place x y input0)
           else mret input0);
  let repo_ids := input.(NewWorkNode.repo_ids) in
  node ← match kind with
         | WorkNodeKind.Task =>
             task_id ← create_task (task_of input);
             node ← create_owned_node (get_node_for_task task_id) input;
             _ ← (if (1 <? length repo_ids)%nat
                  then _ ← assign_work_node_repos node.(WorkNode.id) repo_ids; mret () else mret ());
             mret node
         | WorkNodeKind.Session =>
             thread_id ← create_agent_thread (thread_of input);
             create_owned_node (get_node_for_thread thread_id) input
         | WorkNodeKind.Group | WorkNodeKind.Milestone =>
             id ← new_id;
             lift_db (create_standalone_node ts id input kind)
         end;
  node ← (if (bool_decide (kind = WorkNodeKind.Group) || bool_decide (kind = WorkNodeKind.Milestone)) &&
             negb (bool_decide (repo_ids = []))
          then _ ← assign_work_node_repos node.(WorkNode.id) repo_ids; node_or_not_found node.(WorkNode.id)
          else mret node);
  _ ← emit (WorkNodeCreated node);
  _ ← emit (Activity "work.node_created");
  _ ← (if auto_layout then emit (ScheduleAutoPrettify node.(WorkNode.project_id)) else mret ());
  mret node.

Definition delete_work_node (node_id : string) : CoreM () :=
  node ← node_or_not_found node_id;
  match node.(WorkNode.task_id) with
  | Some task_id => delete_task task_id
  | None =>
      _ ← match node.(WorkNode.thread_id) with
          | Some thread_id => delete_agent_thread thread_id false
          | None => mret ()
          end;
      _ ← lift_db (delete_node node_id);
      emit (Activity "work.node_deleted")
  end.
End Commands.

(** ** The graph invariant

    What the owners of tasks and threads promise. *)
Class NodeServicesOk (NSv : NodeServices) := {
  create_task_ok : forall t, keeps graph_ok (create_task t);
  create_agent_thread_ok : forall t, keeps graph_ok (create_agent_thread t);
  delete_task_ok : forall id, keeps graph_ok (delete_task id);
  delete_agent_thread_ok : forall id f, keeps graph_ok (delete_agent_thread id f);
  validate_project_repo_ok : forall p r, keeps graph_ok (validate_project_repo p r);
  assign_thread_repos_ok : forall id rs, keeps graph_ok (assign_thread_repos id rs);
  assign_task_repo_ok : forall id r, keeps graph_ok (assign_task_repo id r);
  clear_task_repos_ok : forall id, keeps graph_ok (clear_task_repos id)
}.

#[export] Hint Resolve create_task_ok create_agent_thread_ok delete_task_ok delete_agent_thread_ok
  validate_project_repo_ok assign_thread_repos_ok assign_task_repo_ok clear_task_repos_ok : perp.

(** A project's gating links after a change of its nodes that leaves every link
    whose ends are still there: nodes may come, if no link names them. *)
Lemma gating_after_nodes d d' pid :
  wf d -> wf d' -> gating_ok d ->
  (forall r, r ∈ d'.(edges) -> r ∈ d.(edges)) ->
  (forall r x, r ∈ d'.(edges) -> x = r.(WorkEdgeRow.source_id) \/ x = r.(WorkEdgeRow.target_id) ->
     (x, pid) ∈ node_keys d' -> (x, pid) ∈ node_keys d) ->
  exists g', graph pid d' = (d', Ok g') /\ no_self_link g'.(WorkGraph.edges) /\
             acyclic g'.(WorkGraph.nodes) g'.(WorkGraph.edges).
Proof.
  intros Hwf Hwf' Hok Hedges Hends. destruct (Hok pid) as (g & Hg & Hself & Hac).
  destruct (graph_read d pid Hwf) as (g0 & Hg0 & _ & He0 & _). rewrite Hg in Hg0. injection Hg0 as <-.
  destruct (graph_read d' pid Hwf') as (g' & Hg' & _ & He' & _). exists g'. split; [done|].
  assert (forall p, p ∈ gating_pairs g'.(WorkGraph.edges) -> p ∈ gating_pairs g.(WorkGraph.edges) /\
    exists r, r ∈ d'.(edges) /\ forall x, x = p.1 \/ x = p.2 -> x = r.(WorkEdgeRow.source_id) \/ x = r.(WorkEdgeRow.target_id))
    as Hpairs.
  { intros p (e & (r & Hr & Hp & Htf)%He' & Hd)%elem_of_gating_pairs. split.
    - apply elem_of_gating_pairs. exists e. split; [|done]. apply He0. exists r. auto.
    - exists r. split; [done|]. destruct (edge_try_from_fields r e Htf) as (<- & <- & _).
      unfold gating_dependency in Hd. destruct (WorkEdge.kind e); simplify_eq; cbn; tauto. }
  split; [intros x [Hx _]%Hpairs; by apply (Hself x)|].
  intros x Hx. apply (Hac x). revert Hx. generalize x at 1 3. intros y Hy.
  assert (forall a b, gates g'.(WorkGraph.nodes) g'.(WorkGraph.edges) a b ->
                      gates g.(WorkGraph.nodes) g.(WorkGraph.edges) a b) as Hgates.
  { intros a b (Ha & Hb & Hab). destruct (Hpairs _ Hab) as (Hp & r & Hr & Hends').
    rewrite (node_id_set_read d' pid g') in Ha, Hb by done.
    split_and!; [apply (node_id_set_read d pid g); [done..|]; by eapply Hends; [|apply Hends'; auto|]..|done]. }
  induction Hy as [a b Hab|a b c Hab _ IH]; [by apply tc_once, Hgates|eapply tc_l; [by apply Hgates|done]].
Qed.

Lemma create_standalone_rows ts id input kind d :
  let d' := final (create_standalone_node ts id input kind) d in
  d'.(edges) = d.(edges) /\
  (d'.(nodes) = d.(nodes) \/
   exists row, d'.(nodes) = d.(nodes) ++ [row] /\ row.(WorkNodeRow.id) ∉ node_ids d).
Proof.
  assert (forall d, keeps (eq d) (required (get_node id))) as Htail by (intros; auto with perp).
  unfold create_standalone_node, final. rewrite M_bind_unfold. cbn [gets].
  unfold insert_node. rewrite M_bind_unfold, M_bind_unfold. cbn [get]. rewrite M_bind_unfold.
  destruct (_ || _) eqn:Hg; cbn [fail_when throw mret M_ret modify]; [cbn; auto|].
  match goal with |- context [fst (?m ?d')] => change (fst (m d')) with (final m d') end.
  rewrite <- (Htail _ _ eq_refl). cbn. split; [done|]. right. eexists. split; [done|].
  rewrite !orb_false_iff in Hg. destruct Hg as [[Hid _] _]. by apply existsb_key_false in Hid.
Qed.

Lemma create_standalone_graph_ok ts id input kind :
  keeps graph_ok (lift_db (create_standalone_node ts id input kind)).
Proof.
  intros c [Hc Hok]. pose proof (keeps_create_standalone_node ts id input kind _ Hc) as Hwf.
  destruct (create_standalone_rows ts id input kind c.(db)) as [He Hn].
  assert (graph_ok (mkCore (final (create_standalone_node ts id input kind) c.(db)) c.(log))) as Hgoal.
  { split; [done|]. intros pid. apply (gating_after_nodes c.(db)); try done; cbn [db].
    - by rewrite He.
    - intros r x Hr Hx. rewrite He in Hr. destruct (wf_edge_ends _ Hc r Hr) as [Hs Ht].
      unfold node_keys. destruct Hn as [-> |(row & -> & Hfresh)]; [done|].
      rewrite fmap_app. intros [?|[= -> _]%list_elem_of_singleton]%elem_of_app; [done|].
      destruct Hx as [Hx|Hx]; rewrite Hx in Hfresh; done. }
  unfold final, lift_db in *. by destruct (create_standalone_node _ _ _ _ _) as [d' [a|e]].
Qed.

Lemma delete_node_graph_ok id : keeps graph_ok (lift_db (delete_node id)).
Proof.
  intros c [Hc Hok]. split; [exact (keeps_delete_node id _ Hc)|].
  intros pid. apply (gating_after_nodes c.(db)); [done|exact (keeps_delete_node id _ Hc)|done|..]; cbn [db].
  - by intros r [_ Hr]%list_elem_of_filter.
  - intros r x _ _. unfold node_keys. cbn. rewrite update_where_column by done.
    intros (n & Heq & [_ Hn]%list_elem_of_filter)%list_elem_of_fmap. apply list_elem_of_fmap. by exists n.
Qed.

Section Preserve.
Context {Sv : Services} {Svok : ServicesOk Sv} {NSv : NodeServices} {NSvok : NodeServicesOk NSv} (ts : Z).
#[local] Hint Resolve update_work_node_ok create_standalone_graph_ok delete_node_graph_ok keeps_node_or_not_found : perp.

Lemma replace_node_repos_graph_ok id rs : keeps graph_ok (lift_db (replace_node_repos id rs)).
Proof.
  apply keeps_graph_ok_lift; [apply keeps_replace_node_repos|]. intros d. unfold replace_node_repos, list_repo_bindings.
  repeat same_graph_step.
Qed.
#[local] Hint Resolve replace_node_repos_graph_ok : perp.

Lemma assign_repos_ok id rs : keeps graph_ok (assign_work_node_repos id rs).
Proof. unfold assign_work_node_repos. repeat graph_ok_step. Qed.
#[local] Hint Resolve assign_repos_ok : perp.

Lemma next_position_ok pid parent kind : keeps graph_ok (next_work_node_position pid parent kind).
Proof. unfold next_work_node_position. repeat graph_ok_step. Qed.
#[local] Hint Resolve next_position_ok : perp.

Lemma create_work_node_ok input : keeps graph_ok (create_work_node ts input).
Proof. unfold create_work_node, create_owned_node. repeat graph_ok_step; apply keeps_fetch_optional. Qed.

Lemma delete_work_node_ok id : keeps graph_ok (delete_work_node id).
Proof. unfold delete_work_node. repeat graph_ok_step. Qed.

Lemma move_work_node_ok id parent x y : keeps graph_ok (move_work_node ts id parent x y).
Proof.
  assert (keeps graph_ok (lift_db (move_node ts id parent x y))) as Hmove; [|unfold move_work_node; repeat graph_ok_step].
  apply keeps_graph_ok_lift; [apply keeps_move_node|]. intros d. unfold move_node.
  apply keeps_guarded; [|intros; repeat same_graph_step]. intros d' Hd _. by apply same_graph_update.
Qed.
End Preserve.
