(* ===== verification/Demo.v ===== *)
(** * A small project, for evaluating the definitions

    Two milestones and a task in one project with one repository, built with the
    repository's own commands, and a trivial implementation of [Services]. *)
From Stdlib Require Import SpecFloat.
From S2P Require Import Prelude RustStr Enums Records ContextPackets WorkGraphDb WorkGraphInv.
From S2P Require Import Gating WorkPlan PlanDriver PlanProps NodeCommands.

Definition empty_db : WorkDb := mkDb {["p"%string]} [("r", "repo")%string] [] [] [] [] [] [].

Lemma wf_empty : wf empty_db.
Proof.
  split; cbn; first [apply NoDup_nil_2|apply NoDup_singleton|intros ? H; by apply elem_of_nil in H].
Qed.

Definition new_node (title : string) : NewWorkNode.t :=
  NewWorkNode.mk "p" None None title None TaskPriority.Medium None None None None None None None []
    (Some (S754_zero false)) (Some (S754_zero false)).

(** Nodes [a] and [b], no edges. *)
Definition two_nodes : WorkDb :=
  exec (CreateStandaloneNode 1 "b" (new_node "B") WorkNodeKind.Milestone)
    (exec (CreateStandaloneNode 0 "a" (new_node "A") WorkNodeKind.Milestone) empty_db).

Lemma wf_two_nodes : wf two_nodes.
Proof. apply wf_exec, wf_exec, wf_empty. Qed.

(** Without edges nothing is gated. *)
Lemma gating_ok_no_edges d : wf d -> d.(edges) = [] -> gating_ok d.
Proof.
  intros Hwf He pid. destruct (graph_read d pid Hwf) as (g & Hg & _ & Hes & _). exists g. split; [done|].
  assert (WorkGraph.edges g = []) as ->.
  { destruct (WorkGraph.edges g) as [|e l]; [done|].
    assert (e ∈ e :: l) as (r & Hr & _)%Hes by by left. rewrite He in Hr. by apply elem_of_nil in Hr. }
  split; [by intros x ?%elem_of_nil|]. intros x Hx. remember x as y eqn:Hy in Hx at 2. clear Hy.
  by destruct Hx as [? ? (_ & _ & ?%elem_of_nil)|? ? ? (_ & _ & ?%elem_of_nil)].
Qed.

Definition two_nodes_core : Core := mkCore two_nodes [].

Lemma two_nodes_ok : graph_ok two_nodes_core.
Proof. split; [apply wf_two_nodes|apply gating_ok_no_edges; [apply wf_two_nodes|reflexivity]]. Qed.

(** Both nodes bound to the repository, and [a] holding its lock. *)
Definition bound_db : WorkDb :=
  exec (ReplaceNodeRepos "b" ["r"%string]) (exec (ReplaceNodeRepos "a" ["r"%string]) two_nodes).

Definition locked_db : WorkDb := final (acquire_locks 6 "a") bound_db.

Definition link (s t : string) : NewWorkEdge.t := NewWorkEdge.mk "p" s t WorkEdgeKind.Blocks None.

(** Both nodes done, and a plan run over it. *)
Definition options (mode : PlanFailureMode.t) (retries : Z) : WorkPlanOptions.t :=
  WorkPlanOptions.mk mode retries false None None None None false.

Definition set_status (id : string) (st : TaskStatus.t) : command :=
  UpdateNodeFields 2 id (status_patch st).

Definition new_plan (mode : PlanFailureMode.t) (retries : Z) : command :=
  CreatePlanRun 3 "plan" "p" GateMode.Manual 2 AgentKind.Codex "workspace_write" None None 2
    (options mode retries).

Definition done_db : WorkDb :=
  exec (new_plan PlanFailureMode.Halt 0)
    (exec (set_status "b" TaskStatus.Done) (exec (set_status "a" TaskStatus.Done) two_nodes)).

Lemma done_ok : graph_ok (mkCore done_db []).
Proof.
  assert (wf done_db) as Hwf by (repeat apply wf_exec; apply wf_empty).
  split; [done|]. by apply gating_ok_no_edges.
Qed.

(** A failed task that was already run once in a plan without retries. *)
Definition failed_node : WorkNode.t :=
  WorkNode.mk "t" "p" None None None WorkNodeKind.Task "T" None TaskStatus.Failed TaskPriority.Medium None
    (S754_zero false) (S754_zero false) None None false 0 0 0.

Definition failed_db : WorkDb :=
  foldl (fun d c => exec c d) empty_db
    [CreateStandaloneNode 0 "t" (new_node "T") WorkNodeKind.Task; set_status "t" TaskStatus.Failed;
     new_plan PlanFailureMode.Retry 0; RecordRun 4 "run" failed_node AgentKind.Codex "ref";
     AttachRunToPlan "ref" "plan"].

Lemma failed_ok : graph_ok (mkCore failed_db []).
Proof.
  assert (wf failed_db) as Hwf by (repeat apply wf_exec; apply wf_empty).
  split; [done|]. by apply gating_ok_no_edges.
Qed.

(** ** Services that do nothing, or refuse to launch *)

Definition idle {A} (a : A) : CoreM A := mret a.

#[global] Instance demo_services : Services := {|
  update_task := fun _ _ => idle ();
  update_agent_thread := fun _ _ => idle ();
  set_task_model := fun _ _ => idle ();
  set_thread_model := fun _ _ => idle ();
  run_task_inner := fun _ _ _ _ _ => idle "run"%string;
  run_agent_thread_with_backend := fun _ _ _ _ _ => idle "run"%string;
  stop_task := fun _ => idle ();
  stop_agent_thread := fun _ => idle ();
  send_message := fun _ _ _ _ => idle None;
  send_thread_message := fun _ _ _ _ => idle None;
  session_is_active := fun _ => idle false;
  latest_handoff := fun _ => idle None;
  build_context_packet := fun n => idle (finish "packet" 0 (build n.(WorkNode.id) []));
  record_context_packet := fun _ => idle ();
  evaluate_work_gate := fun _ _ _ => idle EvaluationVerdict.Pass;
  effective_session_capacity := idle 4;
  get_evaluator_policy_json := idle None;
  new_id := idle "id"%string;
  sqlx_text := fun _ => "database error"%string
|}.

#[global] Instance demo_services_ok : ServicesOk demo_services.
Proof. split; intros; apply keeps_ret. Qed.

#[global] Instance demo_prep_total : PrepTotal demo_services.
Proof. by split. Qed.

#[global] Instance demo_node_services : NodeServices := {|
  create_task := fun _ => idle "task"%string;
  create_agent_thread := fun _ => idle "thread"%string;
  delete_task := fun _ => idle ();
  delete_agent_thread := fun _ _ => idle ();
  validate_project_repo := fun _ _ => idle ();
  assign_thread_repos := fun _ _ => idle ();
  assign_task_repo := fun _ _ => idle ();
  clear_task_repos := fun _ => idle ()
|}.

#[global] Instance demo_node_services_ok : NodeServicesOk demo_node_services.
Proof. split; intros; apply keeps_ret. Qed.

Definition new_milestone (title : string) : NewWorkNode.t :=
  NewWorkNode.mk "p" None (Some WorkNodeKind.Milestone) title None TaskPriority.Medium None None None None None None
    None ["r"%string] None None.
