(* ===== verification/PlanTheorems.v ===== *)
(** * Theorems on the work graph and its plans

    The guarantees of the tables, the edge commands, starting work and the plan
    driver, each with an instance on the project of [Demo]. *)
From Stdlib Require Import SpecFloat.
From S2P Require Import Prelude RustStr Enums Records ContextPackets WorkGraphDb WorkGraphInv.
From S2P Require Import Gating WorkPlan PlanDriver PlanProps NodeCommands Demo.

(** ** The graph commands as one type *)

Inductive graph_command :=
| Connect (ts : Z) (id : string) (input : NewWorkEdge.t)
| UpdateLink (ts : Z) (id : string) (patch : WorkEdgeUpdate.t)
| Disconnect (id : string)
| CreateWorkNode (ts : Z) (input : NewWorkNode.t)
| UpdateWorkNode (ts : Z) (id : string) (patch : WorkNodeUpdate.t)
| MoveWorkNode (ts : Z) (id : string) (parent_id : option string) (x y : f64)
| AssignRepos (id : string) (repo_ids : list string)
| DeleteWorkNode (id : string).

Definition exec_graph `{Services, NodeServices} (iter : gset string -> list string) (c : Core) (cmd : graph_command) :
  Core :=
  match cmd with
  | Connect ts id input => final (connect_work_nodes iter ts id input) c
  | UpdateLink ts id patch => final (update_work_edge iter ts id patch) c
  | Disconnect id => final (disconnect_work_nodes id) c
  | CreateWorkNode ts input => final (create_work_node ts input) c
  | UpdateWorkNode ts id patch => final (update_work_node ts id patch) c
  | MoveWorkNode ts id parent_id x y => final (move_work_node ts id parent_id x y) c
  | AssignRepos id repo_ids => final (assign_work_node_repos id repo_ids) c
  | DeleteWorkNode id => final (delete_work_node id) c
  end.

(** ** Reading back a patched node *)

Lemma node_try_from_write ts patch before row :
  node_try_from row = Ok before ->
  node_try_from (write_node_fields (patch_node ts patch before) row) = Ok (patch_node ts patch before).
Proof.
  intros Hrow. pose proof (node_try_from_fields _ _ Hrow) as (_ & _ & _). revert Hrow.
  unfold node_try_from, write_node_fields.
  cbn [WorkNodeRow.primary_agent WorkNodeRow.kind WorkNodeRow.status WorkNodeRow.priority].
  change (AgentKind.as_str <$> WorkNode.primary_agent (patch_node ts patch before))
    with (wire <$> WorkNode.primary_agent (patch_node ts patch before)).
  change (TaskStatus.as_str (WorkNode.status (patch_node ts patch before)))
    with (wire (WorkNode.status (patch_node ts patch before))).
  change (TaskPriority.as_str (WorkNode.priority (patch_node ts patch before)))
    with (wire (WorkNode.priority (patch_node ts patch before))).
  rewrite !decode_wire, decode_opt_wire.
  destruct (decode_opt _); [|done]. destruct (decode (T:=WorkNodeKind.t) _); [|done].
  destruct (decode (T:=TaskStatus.t) _); [|done]. destruct (decode (T:=TaskPriority.t) _); [|done].
  cbn. by intros [= <-].
Qed.

Lemma get_node_read id d n :
  get_node id d = (d, Ok (Some n)) <->
  exists row, find (fun r => eq_str r.(WorkNodeRow.id) id) d.(nodes) = Some row /\ node_try_from row = Ok n.
Proof.
  unfold get_node, fetch_optional. rewrite M_bind_unfold. cbn.
  destruct (find _ (nodes d)) as [row|]; cbn; [|split; [done|by intros (? & ? & _)]].
  destruct (node_try_from row) as [p|e] eqn:Hp; split; [intros [= ->]; eauto|..|done|];
    intros (row' & [= <-] & Hp'); rewrite Hp in Hp'; [by injection Hp' as ->|done].
Qed.

(** A created plan run, read back. *)
Lemma create_plan_run_fields ts id pid gm mx agent perm backend policy total opts d d' plan :
  create_plan_run ts id pid gm mx agent perm backend policy total opts d = (d', Ok plan) ->
  plan.(WorkPlanRun.state) = WorkPlanRunState.Running /\ plan.(WorkPlanRun.max_active_runs) = mx /\
  plan.(WorkPlanRun.total_count) = total /\ plan.(WorkPlanRun.default_permission) = Some perm /\
  plan.(WorkPlanRun.gate_mode) = gm.
Proof.
  unfold create_plan_run. intros (d1 & x & [= <- <-] & H)%bind_inv.
  apply bind_inv in H as (d2 & y & [-> Hg]%fail_when_inv & H). apply orb_false_iff in Hg as [Hid _].
  apply bind_inv in H as (d3 & z & [= <- _] & H). unfold required in H.
  apply bind_inv in H as (d4 & o & Hget & H). unfold get_plan_run, fetch_optional in Hget.
  rewrite M_bind_unfold in Hget. cbn [gets set_plans plans] in Hget.
  rewrite find_snoc in Hget; [|done|by apply eq_str_true]. cbn [fmap option_fmap option_map transpose] in Hget.
  unfold plan_try_from in Hget.
  cbn [WorkPlanRunRow.gate_mode WorkPlanRunRow.state WorkPlanRunRow.failure_mode WorkPlanRunRow.default_agent
       WorkPlanRunRow.default_execution_backend] in Hget.
  change (GateMode.as_str gm) with (wire gm) in Hget.
  change (PlanFailureMode.as_str (WorkPlanOptions.failure_mode opts))
    with (wire (WorkPlanOptions.failure_mode opts)) in Hget.
  change (Some (AgentKind.as_str agent)) with (wire <$> Some agent) in Hget.
  change (ExecutionBackend.as_str <$> backend) with (wire <$> backend) in Hget.
  change "running"%string with (wire WorkPlanRunState.Running) in Hget.
  rewrite !decode_wire, !decode_opt_wire in Hget. injection Hget as _ <-.
  unfold lift_opt, lift in H. cbn in H. injection H as _ <-. done.
Qed.

Lemma parse_permission_to_string p : parse_permission (permission_to_string p) = p.
Proof. by destruct p. Qed.

Module Properties.

(** whatever sequence of repository commands runs, and whether each succeeds
    or fails, the tables stay well formed: keys unique, references valid, every
    stored enum readable; so reading any project's graph never fails and returns
    exactly the rows of the project, decoded. *)
Theorem tables_stay_readable db cmds pid :
  wf db ->
  let db' := foldl (fun d c => exec c d) db cmds in
  wf db' /\ exists g, graph pid db' = (db', Ok g) /\
    (forall n, n ∈ g.(WorkGraph.nodes) <->
       exists r, r ∈ db'.(nodes) /\ r.(WorkNodeRow.project_id) = pid /\ node_try_from r = Ok n) /\
    (forall e, e ∈ g.(WorkGraph.edges) <->
       exists r, r ∈ db'.(edges) /\ r.(WorkEdgeRow.project_id) = pid /\ edge_try_from r = Ok e).
Proof.
  intros Hwf. cbn. assert (wf (foldl (fun d c => exec c d) db cmds)) as Hwf'.
  { revert db Hwf. induction cmds as [|c cmds IH]; intros db Hwf; cbn; [done|]. by apply IH, wf_exec. }
  split; [done|]. destruct (graph_read _ pid Hwf') as (g & ? & ? & ? & _). by exists g.
Qed.

Lemma tables_stay_readable_witness :
  exists g, graph "p" (foldl (fun d c => exec c d) empty_db
    [CreateStandaloneNode 0 "a" (new_node "A") WorkNodeKind.Milestone; DeleteNode "missing"]) =
    (foldl (fun d c => exec c d) empty_db
      [CreateStandaloneNode 0 "a" (new_node "A") WorkNodeKind.Milestone; DeleteNode "missing"], Ok g).
Proof.
  destruct (tables_stay_readable empty_db
    [CreateStandaloneNode 0 "a" (new_node "A") WorkNodeKind.Milestone; DeleteNode "missing"] "p" wf_empty)
    as (_ & g & Hg & _).
  exists g. exact Hg.
Defined.

(** C1: no sequence of commands on links and nodes, accepted or refused, makes
    the gating links of a project cyclic: every project still reads back and can
    be ordered, as long as the task and thread components keep it so. *)
Theorem graph_commands_keep_acyclic {Sv : Services} {Svok : ServicesOk Sv} {NSv : NodeServices}
  {NSvok : NodeServicesOk NSv} iter c cmds pid :
  enumerates iter -> graph_ok c ->
  let c' := foldl (exec_graph iter) c cmds in
  exists g, graph pid c'.(db) = (c'.(db), Ok g) /\ no_self_link g.(WorkGraph.edges) /\
            acyclic g.(WorkGraph.nodes) g.(WorkGraph.edges).
Proof.
  intros Hiter Hok. cbn. assert (graph_ok (foldl (exec_graph iter) c cmds)) as [_ Hg]; [|apply Hg].
  revert c Hok. induction cmds as [|cmd cmds IH]; intros c Hok; cbn; [done|]. apply IH.
  destruct cmd; [by apply connect_graph_ok|by apply update_graph_ok|by apply disconnect_graph_ok|
    by apply create_work_node_ok|by apply update_work_node_ok|by apply move_work_node_ok|by apply assign_repos_ok|
    by apply delete_work_node_ok].
Qed.

(** A new milestone between [a] and [b] makes [b -> a] a cycle; once it is
    deleted, [b -> a] is accepted. *)
Definition demo_commands : list graph_command :=
  [CreateWorkNode 1 (new_milestone "M"); Connect 2 "e1" (link "a" "id"); Connect 3 "e2" (link "id" "b");
   Connect 4 "e3" (link "b" "a"); DeleteWorkNode "id"; Connect 5 "e4" (link "b" "a"); Connect 6 "e5" (link "a" "b")].

Lemma graph_commands_keep_acyclic_witness :
  let c := foldl (exec_graph elements) two_nodes_core demo_commands in
  (WorkEdgeRow.id <$> c.(db).(edges)) = ["e4"%string] /\
  exists g, graph "p" c.(db) = (c.(db), Ok g) /\ no_self_link g.(WorkGraph.edges) /\
            acyclic g.(WorkGraph.nodes) g.(WorkGraph.edges).
Proof.
  split; [vm_compute; reflexivity|].
  exact (graph_commands_keep_acyclic elements two_nodes_core demo_commands "p" elements_enum two_nodes_ok).
Defined.

(** a field update is exact: it returns the node with precisely the patched
    fields replaced, that node reads back, and every other row keeps its value. *)
Theorem update_node_exact ts id patch before d :
  get_node id d = (d, Ok (Some before)) ->
  opt_node_exists d (opt_or patch.(WorkNodeUpdate.parent_id) before.(WorkNode.parent_id)) = true ->
  exists d', update_node_fields ts id patch d = (d', Ok (patch_node ts patch before)) /\
    get_node id d' = (d', Ok (Some (patch_node ts patch before))) /\
    forall other, other <> id ->
      find (fun r => eq_str r.(WorkNodeRow.id) other) d'.(nodes) =
      find (fun r => eq_str r.(WorkNodeRow.id) other) d.(nodes).
Proof.
  intros Hget Hparent. pose proof Hget as (row & Hrow & Htf)%get_node_read.
  unfold update_node_fields, required. rewrite M_bind_unfold, M_bind_unfold, Hget. cbn [lift_opt lift ok_or].
  rewrite M_bind_unfold. cbn [get]. rewrite M_bind_unfold. cbn [WorkNode.parent_id patch_node].
  rewrite Hparent. cbn [negb fail_when mret M_ret]. rewrite M_bind_unfold. cbn [modify].
  assert (before.(WorkNode.id) = id) as Hid.
  { destruct (node_try_from_fields _ _ Htf) as (-> & _ & _). by apply find_Some_elem in Hrow as [_ ?%eq_str_true]. }
  set (d' := set_nodes _ d).
  assert (get_node id d' = (d', Ok (Some (patch_node ts patch before)))) as Hget'.
  { apply get_node_read. eexists. split; [|by apply node_try_from_write]. unfold d'. cbn. rewrite Hid.
    rewrite find_update_where, Hrow; done. }
  exists d'. rewrite M_bind_unfold, Hget'. split_and!; [done..|]. intros other Hne. unfold d'. cbn.
  rewrite Hid. apply find_update_other. intros r Hr%eq_str_true. cbn. rewrite Hr.
  split; by apply bool_decide_eq_false.
Qed.

Lemma update_node_exact_witness :
  exists before d', update_node_fields 5 "a" (status_patch TaskStatus.Done) two_nodes =
    (d', Ok (patch_node 5 (status_patch TaskStatus.Done) before)).
Proof.
  eexists.
  destruct (update_node_exact 5 "a" (status_patch TaskStatus.Done) _ two_nodes
    ltac:(vm_compute; reflexivity) ltac:(vm_compute; reflexivity)) as (d' & Hd & _).
  exists d'. exact Hd.
Defined.

(** C37: one writer per repository.  A node that takes its locks holds the one of
    every repository it is bound to.  In any state in which a node holds the lock
    of a repository, whatever happened since it took it, no other node bound to
    that repository starts for writing: the start is refused and changes nothing,
    and when nothing else refuses it first, the error names the number of nodes,
    at least one, that hold its repositories; nor can the other node take its locks. *)
Theorem one_writer_per_repo {Sv : Services} a b r :
  a <> b ->
  (forall ts d d', acquire_locks ts a d = (d', Ok ()) -> bound_repo d a r -> r ∈ d.(repos).*1 -> locks_repo d' a r) /\
  (forall ts agent permission backend opts c,
     locks_repo c.(db) a r -> bound_repo c.(db) b r -> permission <> PermissionPolicy.ReadOnly ->
     exists e holders,
       run_work_node_with_model_options ts b agent permission backend opts c = (c, Err e) /\
       (forall h, h ∈ holders <-> h <> b /\ exists r', locks_repo c.(db) h r' /\ bound_repo c.(db) b r') /\
       a ∈ holders /\ NoDup holders /\
       (forall node, node_or_not_found b c = (c, Ok node) -> lift_db (blocking_edges_for_node b) c = (c, Ok []) ->
          e = locked_error holders)) /\
  (forall ts d, locks_repo d a r -> bound_repo d b r -> r ∈ d.(repos).*1 -> exists d' e, acquire_locks ts b d = (d', Err e)).
Proof.
  intros Hne. split_and!.
  - intros ts d d'. apply acquire_locks_holds.
  - intros ts agent permission backend opts c Ha Hb Hp. destruct (locked_conflicts _ _ _ _ Ha Hb Hne) as (l & Hc & Hin).
    destruct (run_blocked_by_lock ts b agent permission backend opts c l Hp Hc) as (e & Hrun & He);
      [by intros ->; apply elem_of_nil in Hin|].
    exists e, l. split_and!; [done|by apply conflicting_holders|done|exact (conflicting_nodup _ _ _ Hc)|exact He].
  - intros ts d (k & Hk & _ & Hr) Hb Hrepo. by apply (acquire_locks_refused ts b d r k).
Qed.

Lemma one_writer_per_repo_witness :
  locks_repo locked_db "a" "r" /\
  run_work_node_with_model_options 7 "b" AgentKind.Codex PermissionPolicy.Ask None
    default_model_options (mkCore locked_db []) =
  (mkCore locked_db [], Err (Other "repository is already locked by 1 running work item(s)"%string)).
Proof.
  destruct (one_writer_per_repo "a"%string "b"%string "r"%string ltac:(done)) as (Htake & Hrun & _).
  assert (locks_repo locked_db "a" "r") as Hlock.
  { apply (Htake 6 bound_db); [vm_compute; reflexivity|exists (NodeRepoRow.mk "a" "r" None None None "host")|].
    - split; [apply (proj2 (list_elem_of_In _ _)); vm_compute; tauto|done].
    - apply (proj2 (list_elem_of_In _ _)). vm_compute. tauto. }
  split; [exact Hlock|].
  destruct (Hrun 7 AgentKind.Codex PermissionPolicy.Ask None default_model_options (mkCore locked_db []) Hlock) as
    (e & holders & Heq & _); [|done|].
  - exists (NodeRepoRow.mk "b" "r" None None None "host").
    split; [apply (proj2 (list_elem_of_In _ _)); vm_compute; tauto|done].
  - vm_compute. reflexivity.
Defined.

(** a start that fails never leaves the node's locks behind, provided the
    steps between locking and launching do not themselves fail: whatever the
    launch did, an error means the node holds no lock. *)
Theorem failed_start_releases_locks {Sv : Services} {Prep : PrepTotal Sv} ts node_id agent permission backend
  opts c c' e :
  wf c.(db) -> ~ holds_lock c.(db) node_id -> opts.(model_target) <> Some ModelTargetKind.RentedCompute ->
  permission <> PermissionPolicy.ReadOnly ->
  run_work_node_with_model_options ts node_id agent permission backend opts c = (c', Err e) ->
  ~ holds_lock c'.(db) node_id.
Proof. apply failed_start_no_lock. Qed.

Lemma failed_start_releases_locks_witness :
  exists c' e, run_work_node_with_model_options 7 "a" AgentKind.Codex PermissionPolicy.Ask None
    default_model_options (mkCore bound_db []) = (c', Err e) /\ ~ holds_lock c'.(db) "a".
Proof.
  eexists _, _. split; [vm_compute; reflexivity|].
  eapply (failed_start_releases_locks 7 "a" AgentKind.Codex PermissionPolicy.Ask None default_model_options
    (mkCore bound_db [])); [|by intros (k & ?%elem_of_nil & _)|done|done|vm_compute; reflexivity].
  repeat apply wf_exec. apply wf_empty.
Defined.

(** one driver iteration starts runs only from the ready list, in its order,
    at most as many as the plan's free slots, and keeps going until the slots or
    the list are used up or a start fails for a reason that is not retryable. *)
Theorem starts_within_budget {Sv : Services} ts plan plan_run_id agent permission backend opts active g c :
  let run := fun node => run_work_node_with_model_options ts node.(WorkNode.id)
    (default agent node.(WorkNode.primary_agent)) permission backend opts in
  exists c' out tr,
    start_phase ts plan plan_run_id agent permission backend opts active g c = (c', Ok out) /\
    attempts run plan_run_id c tr c' /\ tr.*1 `prefix_of` ready_runnable_nodes g /\
    active + successes tr <= Z.max active plan.(WorkPlanRun.max_active_runs) /\
    match out with
    | Started n => n = successes tr /\
        (plan.(WorkPlanRun.max_active_runs) <= active + n \/ tr.*1 = ready_runnable_nodes g)
    | StartFailed err =>
        exists node, last tr = Some (node, Err err) /\ plan_start_error_is_retryable (error_text err) = false
    end.
Proof.
  cbn. unfold start_phase. destruct (Z.ltb_spec 0 (Z.max (WorkPlanRun.max_active_runs plan - active) 0)).
  - match goal with |- context [start_ready ?r] => destruct (start_ready_spec r plan_run_id
      (Z.max (WorkPlanRun.max_active_runs plan - active) 0) 0 (ready_runnable_nodes g) c)
      as (c' & out & Hs & tr & Htr & Hpre & Hb & Hout) end.
    exists c', out, tr. split_and!; [done|done|done|lia|]. destruct out as [n|err]; [|done].
    destruct Hout as [-> Hd]. split; [lia|]. destruct Hd; [left; lia|by right].
  - exists c, (Started 0), []. split_and!; [done|apply attempts_nil|apply prefix_nil|change (successes []) with 0; lia|done|].
    left. lia.
Qed.

(** the driver touches nothing unless its plan is running: for a plan that is
    paused, cancelled, completed, failed or gone it returns at once. *)
Theorem driver_only_drives_running {Sv : Services} iter ts id pid agent permission backend opts c o :
  get_plan_run id c.(db) = (c.(db), Ok o) ->
  (forall plan, o = Some plan -> plan.(WorkPlanRun.state) <> WorkPlanRunState.Running) ->
  drive_once iter ts id pid agent permission backend opts c = (c, Ok false).
Proof.
  intros Hget Hst. unfold drive_once. rewrite M_bind_unfold. unfold try_, lift_db. rewrite Hget.
  destruct c as [d lg]. destruct o as [plan|]; [|done]. rewrite bool_decide_false by by apply Hst. done.
Qed.

Lemma driver_only_drives_running_witness :
  let c := mkCore (exec (CancelPlanRun 9 "plan") done_db) [] in
  drive_once elements 10 "plan" "p" AgentKind.Codex PermissionPolicy.Ask None default_model_options c =
  (c, Ok false).
Proof.
  cbn zeta. eapply driver_only_drives_running; [vm_compute; reflexivity|].
  intros plan [= <-]. vm_compute. discriminate.
Defined.

(** a plan whose work is all done completes: one iteration ends it as
    completed, with the full count, no error and its end time. *)
Theorem driver_completes {Sv : Services} iter ts id pid agent permission backend opts c plan g :
  enumerates iter -> graph_ok c -> get_plan_run id c.(db) = (c.(db), Ok (Some plan)) ->
  plan.(WorkPlanRun.state) = WorkPlanRunState.Running -> graph pid c.(db) = (c.(db), Ok g) ->
  (forall n, n ∈ g.(WorkGraph.nodes) -> not_group n -> n.(WorkNode.status) = TaskStatus.Done) ->
  0 < total_nodes g ->
  exists c' plan', drive_once iter ts id pid agent permission backend opts c = (c', Ok false) /\
    get_plan_run id c'.(db) = (c'.(db), Ok (Some plan')) /\
    plan'.(WorkPlanRun.state) = WorkPlanRunState.Completed /\
    plan'.(WorkPlanRun.completed_count) = total_nodes g /\
    plan'.(WorkPlanRun.error) = None /\ plan'.(WorkPlanRun.ended_at) = Some ts.
Proof.
  intros Hiter Hok Hplan Hrun Hg Hdone Htot.
  erewrite drive_once_progress; [|done..|].
  2: { intros n Hn Hng. unfold gate_due. rewrite (Hdone n Hn Hng). cbn. by rewrite andb_false_r. }
  unfold progress_phase. rewrite plan_counts_done by done.
  assert (failed_nodes g = []) as Hf by (apply failed_nodes_none; intros n Hn Hng; by rewrite (Hdone n Hn Hng)).
  rewrite Hf. unfold failure_phase. rewrite (bool_decide_true (@nil string = [])) by done. rewrite M_bind_unfold. cbn [mret M_ret negb].
  assert (match WorkPlanRun.failure_mode plan with
          | PlanFailureMode.Continue => gating_subtree_size [] g | _ => 0 end = 0) as ->
    by (destruct (WorkPlanRun.failure_mode plan); auto using gating_subtree_none).
  unfold plan_completed_phase. rewrite Z.sub_0_r, Z.max_l by lia.
  rewrite (proj2 (Z.ltb_lt _ _)) by done. rewrite Z.leb_refl. cbn [andb].
  destruct (update_plan_run_writes ts id WorkPlanRunState.Completed (total_nodes g) 0 0 None true c plan Hplan)
    as (c' & plan' & Hw & Hget & Hst & Hc & _ & _ & He & Hend & _).
  exists c', plan'. rewrite M_bind_unfold. unfold finish_plan_run. rewrite Hw. split_and!; auto.
Qed.

Lemma driver_completes_witness :
  exists c' plan', drive_once elements 10 "plan" "p" AgentKind.Codex PermissionPolicy.Ask None
      default_model_options (mkCore done_db []) = (c', Ok false) /\
    get_plan_run "plan" c'.(db) = (c'.(db), Ok (Some plan')) /\
    plan'.(WorkPlanRun.state) = WorkPlanRunState.Completed.
Proof.
  edestruct (driver_completes elements 10 "plan" "p" AgentKind.Codex PermissionPolicy.Ask None
    default_model_options (mkCore done_db []) _ _ elements_enum done_ok
    ltac:(vm_compute; reflexivity) ltac:(vm_compute; reflexivity) ltac:(vm_compute; reflexivity))
    as (c' & plan' & H1 & H2 & H3 & _).
  - intros n Hn _. cbn [WorkGraph.nodes] in Hn.
    repeat (apply elem_of_cons in Hn as [->|Hn]; [reflexivity|]). by apply elem_of_nil in Hn.
  - vm_compute. reflexivity.
  - exists c', plan'. auto.
Defined.

(** retries are bounded: when a running plan in retry mode has failed nodes
    and each of them was already run more often than the retry budget allows, the
    iteration requeues and starts nothing and ends the plan as failed. *)
Theorem retry_budget_ends_plan {Sv : Services} iter ts id pid agent permission backend opts c plan g :
  enumerates iter -> graph_ok c -> get_plan_run id c.(db) = (c.(db), Ok (Some plan)) ->
  plan.(WorkPlanRun.state) = WorkPlanRunState.Running ->
  plan.(WorkPlanRun.failure_mode) = PlanFailureMode.Retry -> graph pid c.(db) = (c.(db), Ok g) ->
  (forall n, n ∈ g.(WorkGraph.nodes) -> not_group n -> gate_due g n = false) ->
  failed_nodes g <> [] ->
  (forall n, n ∈ failed_nodes g -> plan.(WorkPlanRun.max_node_retries) <
     Z.of_nat (length (filter (fun r => r.(WorkRunRow.plan_run_id) = Some plan.(WorkPlanRun.id) /\
                                        r.(WorkRunRow.node_id) = n) c.(db).(runs)))) ->
  exists c' plan', drive_once iter ts id pid agent permission backend opts c = (c', Ok false) /\
    c'.(db).(nodes) = c.(db).(nodes) /\ c'.(db).(runs) = c.(db).(runs) /\
    get_plan_run id c'.(db) = (c'.(db), Ok (Some plan')) /\
    plan'.(WorkPlanRun.state) = WorkPlanRunState.Failed /\
    plan'.(WorkPlanRun.error) =
      Some (exhausted_message (length (failed_nodes g)) plan.(WorkPlanRun.max_node_retries)).
Proof.
  intros Hiter Hok Hplan Hrun Hmode Hg Hdue Hf Hex.
  erewrite drive_once_progress; [|done..].
  unfold progress_phase. destruct (plan_counts g) as [[cc ac] bl]. unfold failure_phase.
  rewrite (bool_decide_false (failed_nodes g = [])) by done. rewrite Hmode, M_bind_unfold, M_bind_unfold. unfold attempt at 1.
  rewrite retry_exhausted by done. change (default false (Some false)) with false. cbv iota. rewrite M_bind_unfold. unfold finish_plan_run.
  destruct (update_plan_run_writes ts id WorkPlanRunState.Failed cc ac bl
    (Some (exhausted_message (length (failed_nodes g)) plan.(WorkPlanRun.max_node_retries))) true c plan Hplan)
    as (c' & plan' & Hw & Hget & Hst & _ & _ & _ & He & _ & Hn & Hr).
  rewrite Hw. exists c', plan'. done.
Qed.

Lemma retry_budget_ends_plan_witness :
  exists c' plan', drive_once elements 10 "plan" "p" AgentKind.Codex PermissionPolicy.Ask None
      default_model_options (mkCore failed_db []) = (c', Ok false) /\
    get_plan_run "plan" c'.(db) = (c'.(db), Ok (Some plan')) /\
    plan'.(WorkPlanRun.error) = Some "1 node(s) failed after exhausting 0 retries"%string.
Proof.
  edestruct (retry_budget_ends_plan elements 10 "plan" "p" AgentKind.Codex PermissionPolicy.Ask None
    default_model_options (mkCore failed_db []) _ _ elements_enum failed_ok
    ltac:(vm_compute; reflexivity) ltac:(vm_compute; reflexivity) ltac:(vm_compute; reflexivity)
    ltac:(vm_compute; reflexivity)) as (c' & plan' & H1 & _ & _ & H2 & _ & H3).
  - intros n Hn _. cbn [WorkGraph.nodes] in Hn. apply elem_of_cons in Hn as [->|Hn]; [reflexivity|].
    by apply elem_of_nil in Hn.
  - vm_compute. discriminate.
  - intros n Hn. assert (n = "t"%string) as ->; [|vm_compute; reflexivity].
    vm_compute in Hn. by apply list_elem_of_singleton in Hn.
  - exists c', plan'. split; [exact H1|]. split; [exact H2|]. rewrite H3. vm_compute. reflexivity.
Defined.

(** driving a plan never breaks the work graph: when the components it calls
    leave the tables well formed and the gating links acyclic, so does every
    iteration of the driver, whatever it starts, retries, gates or finishes. *)
Theorem driver_preserves_graph {Sv : Services} {Svok : ServicesOk Sv} iter ts id pid agent permission backend
  opts c n :
  graph_ok c ->
  graph_ok (Nat.iter n (final (drive_once iter ts id pid agent permission backend opts)) c).
Proof. intros Hc. induction n as [|n IH]; cbn; [done|]. by apply drive_once_ok. Qed.

Lemma driver_preserves_graph_witness :
  graph_ok (Nat.iter 2 (final (drive_once elements 10 "plan" "p" AgentKind.Codex PermissionPolicy.Ask None
      default_model_options)) (mkCore failed_db [])).
Proof. apply driver_preserves_graph. exact failed_ok. Defined.

(** a plan is created only over an acyclic graph with work in it, in the
    running state, with between one and the session capacity active runs and a
    driver scheduled for it under the caller's permission. *)
Theorem plan_created_within_capacity {Sv : Services} iter ts pid gm mx agent permission backend opts c c' plan :
  enumerates iter -> graph_ok c ->
  (forall c1, exists k, effective_session_capacity c1 = (c1, Ok k) /\ 1 <= k) ->
  (forall c1, exists o, attempt get_evaluator_policy_json c1 = (c1, Ok o)) ->
  (forall c1, exists id, new_id c1 = (c1, Ok id)) ->
  run_work_plan_with_options iter ts pid gm mx agent permission backend opts c = (c', Ok plan) ->
  plan.(WorkPlanRun.state) = WorkPlanRunState.Running /\
  (exists k, effective_session_capacity c = (c, Ok k) /\ 1 <= plan.(WorkPlanRun.max_active_runs) <= k /\
     forall m, mx = Some m -> 1 <= m <= k -> plan.(WorkPlanRun.max_active_runs) = m) /\
  0 < plan.(WorkPlanRun.total_count) /\
  from_option parse_permission PermissionPolicy.WorkspaceWrite plan.(WorkPlanRun.default_permission) = permission.
Proof.
  intros Hiter Hok Hcap Hpol Hid (c1 & g & Hg & H)%bind_inv.
  assert (c1 = c) as ->.
  { pose proof (lift_db_reads (graph pid) c ltac:(intros; apply keeps_graph) c eq_refl) as Hk.
    unfold final in Hk. by rewrite Hg in Hk. }
  apply bind_inv in H as (c2 & [] & [= <- Hv] & H).
  apply bind_inv in H as (c3 & [] & [-> Ht]%fail_when_inv & H).
  apply bind_inv in H as (c4 & k & Hk & H). destruct (Hcap c) as (k' & Hk' & Hpos).
  rewrite Hk' in Hk. injection Hk as <- <-.
  apply bind_inv in H as (c5 & policy & Hp & H). destruct (Hpol c) as [o Ho]. rewrite Ho in Hp. injection Hp as <- <-.
  apply bind_inv in H as (c6 & id & Hi & H). destruct (Hid c) as [id' Hid']. rewrite Hid' in Hi. injection Hi as <- <-.
  apply bind_inv in H as (c7 & plan0 & Hc & H). apply lift_db_inv in Hc.
  apply bind_inv in H as (c8 & [] & _ & H). apply bind_inv in H as (c9 & [] & _ & H).
  apply bind_inv in H as (c10 & [] & _ & [= <- <-]).
  apply create_plan_run_fields in Hc as (-> & -> & -> & -> & _). cbn [from_option].
  rewrite parse_permission_to_string. split_and!; [done| | |done].
  - exists k'. split; [done|]. split; [apply clampZ_bounds; lia|]. intros m -> Hm. by apply clampZ_id.
  - apply Z.eqb_neq in Ht. unfold total_nodes in *. lia.
Qed.

Lemma plan_created_within_capacity_witness :
  exists c' plan, run_work_plan_with_options elements 5 "p" GateMode.Manual (Some 9) AgentKind.Codex
      PermissionPolicy.Ask None (options PlanFailureMode.Halt 0) two_nodes_core = (c', Ok plan) /\
    plan.(WorkPlanRun.state) = WorkPlanRunState.Running /\ 1 <= plan.(WorkPlanRun.max_active_runs) <= 4.
Proof.
  eexists _, _. split; [vm_compute; reflexivity|].
  edestruct (plan_created_within_capacity elements 5 "p" GateMode.Manual (Some 9) AgentKind.Codex
      PermissionPolicy.Ask None (options PlanFailureMode.Halt 0) two_nodes_core)
    as (Hs & (k & Hk & Hb & _) & _); [exact elements_enum|exact two_nodes_ok|..].
  - intros c1. exists 4. split; [reflexivity|lia].
  - intros c1. by eexists.
  - intros c1. by eexists.
  - vm_compute. reflexivity.
  - split; [exact Hs|]. injection Hk as <-. exact Hb.
Defined.
End Properties.

(** ** Where the parts disagree

    Facts on concrete data behind the recorded findings. *)

(** The check before a start ignores handoff links, which gate a plan. *)
Definition handoff_db : WorkDb :=
  exec (CreateEdge 3 "h" (NewWorkEdge.mk "p" "a" "b" WorkEdgeKind.Handoff None)) two_nodes.

Lemma handoff_gates_but_does_not_block :
  blocking_edges_for_node "b" handoff_db = (handoff_db, Ok []) /\
  exists g, graph "p" handoff_db = (handoff_db, Ok g) /\ prerequisites_complete "b" g = false.
Proof.
  split; [vm_compute; reflexivity|]. eexists. split; [vm_compute; reflexivity|]. vm_compute. reflexivity.
Qed.

(** A progress write that was in flight when the plan was cancelled revives it. *)
Lemma cancelled_plan_revived :
  exists p, get_plan_run "plan" (exec (UpdatePlanRunProgress 9 "plan" WorkPlanRunState.Running 0 1 0 None false)
                             (exec (CancelPlanRun 8 "plan") done_db)) =
    (exec (UpdatePlanRunProgress 9 "plan" WorkPlanRunState.Running 0 1 0 None false)
       (exec (CancelPlanRun 8 "plan") done_db), Ok (Some p)) /\
    p.(WorkPlanRun.state) = WorkPlanRunState.Running /\ p.(WorkPlanRun.ended_at) = Some 8.
Proof. eexists. split; [vm_compute; reflexivity|]. split; vm_compute; reflexivity. Qed.

(** A node that still holds its own lock cannot be started again. *)
Lemma own_lock_refuses_restart :
  value (conflicting_locks "a") locked_db = Ok [] /\
  value (acquire_locks 9 "a") locked_db = Err Sqlx.
Proof. split; vm_compute; reflexivity. Qed.

(** Two moves make two nodes each other's parent. *)
Lemma moves_make_a_parent_cycle :
  let zero := S754_zero false in
  let c := final (move_work_node 4 "b" (Some "a"%string) zero zero)
             (final (move_work_node 3 "a" (Some "b"%string) zero zero) two_nodes_core) in
  (fun r => (r.(WorkNodeRow.id), r.(WorkNodeRow.parent_id))) <$> c.(db).(nodes) =
  [("a", Some "b"); ("b", Some "a")]%string.
Proof. vm_compute. reflexivity. Qed.
