(* ===== verification/JsonView.v ===== *)
(** * Looking into JSON values

    The shape of a [serde_json::Value] and the readers the provider adapters use,
    as class [JsonView] over the third-party value type; [JsonViewOk] has the
    behaviour serde_json documents.  The instance of the witnesses is [Tree]. *)
From Stdlib Require Import Ascii String.
From S2P Require Import Prelude RustStr Json Enums Records Limits Doubles.
#[local] Open Scope string_scope.
#[local] Open Scope Z_scope.

(** The variants of [Value]; the fields of an object in the order of its map. *)
Inductive Shape {V : Type} :=
| SNull
| SBool (b : bool)
| SNumber
| SString (s : string)
| SArray (l : list V)
| SObject (fields : list (string * V)).
Arguments Shape : clear implicits.

Class JsonView (V : Type) `{Json V} := {
  shape : V -> Shape V;
  (** [json!([..])] *)
  json_array : list V -> V;
  json_as_u64 : V -> option Z;
  json_as_f64 : V -> option f64;
  (** how deep a value is *)
  json_depth : V -> nat
}.

Class JsonViewOk (V : Type) `{JsonView V} : Prop := {
  json_ok :: JsonOk V;
  shape_as_str : forall v s, json_as_str v = Some s <-> shape v = SString s;
  shape_get : forall v k, json_get v k = match shape v with SObject fields => assoc k fields | _ => None end;
  shape_array : forall l, shape (json_array l) = SArray l;
  shape_bool : forall b, shape (json_bool b) = SBool b;
  u64_range : forall v n, json_as_u64 v = Some n -> 0 <= n <= u64_max;
  depth_array : forall v l x, shape v = SArray l -> x ∈ l -> (json_depth x < json_depth v)%nat;
  depth_object : forall v fields kv, shape v = SObject fields -> kv ∈ fields -> (json_depth kv.2 < json_depth v)%nat
}.

Section Views.
Context {V : Type} `{JsonView V}.

Definition json_as_array (v : V) : option (list V) := match shape v with SArray l => Some l | _ => None end.
Definition json_as_bool (v : V) : option bool := match shape v with SBool b => Some b | _ => None end.
Definition json_as_object (v : V) : option (list (string * V)) := match shape v with SObject fields => Some fields | _ => None end.

(** [Value::pointer] on a path of keys (none is an index). *)
Fixpoint pointer (v : V) (path : list string) : option V :=
  match path with
  | [] => Some v
  | k :: path => match json_get v k with Some v => pointer v path | None => None end
  end.

(** [v.get(k).and_then(Value::as_str)] and the like. *)
Definition get_str (v : V) (k : string) : option string := json_get v k ≫= json_as_str.
Definition get_array (v : V) (k : string) : option (list V) := json_get v k ≫= json_as_array.
Definition get_bool (v : V) (k : string) : option bool := json_get v k ≫= json_as_bool.
Definition get_i64 (v : V) (k : string) : option Z := json_get v k ≫= json_as_i64.
Definition pointer_str (v : V) (path : list string) : option string := pointer v path ≫= json_as_str.
Definition pointer_array (v : V) (path : list string) : option (list V) := pointer v path ≫= json_as_array.
(** [v.get(a).or_else(|| v.get(b))]. *)
Definition get_either (v : V) (a b : string) : option V := opt_or (json_get v a) (json_get v b).
(** [v.get(k).cloned().unwrap_or(Value::Null)]. *)
Definition get_or_null (v : V) (k : string) : V := default Null (json_get v k).

(** [v[k] = x] on an object. *)
Fixpoint assoc_set (k : string) (x : V) (fields : list (string * V)) : list (string * V) :=
  match fields with
  | [] => [(k, x)]
  | (k', y) :: fields => if String.eqb k k' then (k, x) :: fields else (k', y) :: assoc_set k x fields
  end.
Definition json_set (v : V) (k : string) (x : V) : V :=
  match shape v with SObject fields => json_object (assoc_set k x fields) | _ => v end.
End Views.

(** The concrete value: a number is an integer. *)
Fixpoint tree_depth (v : Tree.t) : nat :=
  match v with
  | Tree.JArray vs => S (foldr (fun v n => Nat.max (tree_depth v) n) 0%nat vs)
  | Tree.JObject kvs => S (foldr (fun kv n => Nat.max (tree_depth kv.2) n) 0%nat kvs)
  | _ => 0%nat
  end.

#[global] Instance tree_view : JsonView Tree.t := {
  shape v := match v with
             | Tree.JNull => SNull
             | Tree.JBool b => SBool b
             | Tree.JNum _ => SNumber
             | Tree.JStr s => SString s
             | Tree.JArray l => SArray l
             | Tree.JObject fields => SObject fields
             end;
  json_array := Tree.JArray;
  json_as_u64 v := match v with Tree.JNum z => if (0 <=? z) && (z <=? u64_max) then Some z else None | _ => None end;
  json_as_f64 v := match v with Tree.JNum z => Some (f64_of_int z) | _ => None end;
  json_depth := tree_depth
}.

Lemma foldr_max_elem {A} (f : A -> nat) l x : x ∈ l -> (f x <= foldr (fun x n => Nat.max (f x) n) 0 l)%nat.
Proof. induction 1 as [|x y l _ IH]; cbn; lia. Qed.

#[global] Instance tree_view_ok : JsonViewOk Tree.t.
Proof.
  split; [apply _|intros [] ?; split; intros [=]; subst; done|intros [] ?; done|done|done|..].
  - intros [| |z| | |] n; try done. cbn. case_match eqn:Hz; [|done]. intros [= ->]. apply andb_true_iff in Hz. lia.
  - intros [| | | |l'|] l x; try done. intros [= ->] Hx. cbn. pose proof (foldr_max_elem tree_depth _ _ Hx). lia.
  - intros [| | | | |kvs] fields kv; try done. intros [= ->] Hx. cbn.
    pose proof (foldr_max_elem (fun kv : string * Tree.t => tree_depth kv.2) _ _ Hx). lia.
Qed.
