(* ===== verification/ProviderText.v ===== *)
(** * Reading what a provider prints (am-agents/src/limits.rs, network.rs, runtime.rs)

    The usage limit and the network loss a message speaks of, the reset time it
    names, and the bounded buffer of diagnostics.  A [None] of a [Checked]
    computation is a panic of the code. *)
From Stdlib Require Import Ascii String.
From S2P Require Import Prelude RustStr Json Enums Records Limits ThreadText Attachments GitText ThreadFallback.
#[local] Open Scope string_scope.
#[local] Open Scope Z_scope.

(** ** Characters *)
Definition is_ascii_digit : ascii -> bool := between "0"%char "9"%char.
Definition is_ascii_alphabetic (c : ascii) : bool := between "a"%char "z"%char c || between "A"%char "Z"%char c.

(** [chars().take_while(p)] and what follows; [p] holds of ASCII only. *)
Fixpoint span (p : ascii -> bool) (s : string) : string * string :=
  match s with
  | String a s' => if p a then let '(pre, post) := span p s' in (String a pre, post) else (EmptyString, s)
  | EmptyString => (EmptyString, EmptyString)
  end.

(** [trim_matches], [trim_end_matches] on a set of characters. *)
Fixpoint drop_while (p : ascii -> bool) (s : string) : string :=
  match s with String a s' => if p a then drop_while p s' else s | EmptyString => EmptyString end.
Definition trim_end_chars (p : ascii -> bool) (s : string) : string := rev_str (drop_while p (rev_str s)).
Definition trim_chars (p : ascii -> bool) (s : string) : string := trim_end_chars p (drop_while p s).

(** [split(p)] on a set of ASCII characters. *)
Fixpoint split_where (p : ascii -> bool) (s : string) : list string :=
  match s with
  | EmptyString => [EmptyString]
  | String a s =>
      if p a then EmptyString :: split_where p s
      else match split_where p s with part :: parts => String a part :: parts | [] => [String a EmptyString] end
  end.

(** [split_whitespace]: a step removes a character, so the length is fuel. *)
Fixpoint words_fuel (fuel : nat) (word s : string) : list string :=
  let close rest := if is_empty word then rest else rev_str word :: rest in
  match fuel, s with
  | S fuel, String a s' =>
      match strip_one white_space s with
      | Some rest => close (words_fuel fuel EmptyString rest)
      | None => words_fuel fuel (String a word) s'
      end
  | _, _ => close []
  end.
Definition words (s : string) : list string := words_fuel (S (String.length s)) EmptyString s.

(** [truncate] of the adapters and [summarize] of network.rs. *)
Definition ellipsis : string := bytes_of [226; 128; 166].
Definition truncate (s : string) (max : nat) : string :=
  if (char_count s <=? max)%nat then s else take_chars max s +:+ ellipsis.

(** ** Limits (limits.rs) *)

(** chrono and the clock: instants are milliseconds since 1970. *)
Class LimitClock := {
  (** [str::to_lowercase] *)
  lowercase : string -> string;
  (** [DateTime::parse_from_rfc3339] *)
  rfc3339 : string -> option Z;
  (** [Duration::seconds]; [None] when it panics *)
  seconds : Z -> option Z;
  (** [DateTime + Duration]; [None] when it panics *)
  after_ : Z -> Z -> option Z;
  (** the wall clock of an instant, and the earliest instant of a wall clock time *)
  wall_clock : Z -> Z;
  from_wall_clock : Z -> option Z
}.

Definition day_ms : Z := 24 * 60 * 60 * 1000.

Section Limits.
Context `{LimitClock}.

Definition looks_like_limit (text : string) : bool :=
  let lower := lowercase text in
  existsb (fun p => contains p lower)
    ["usage limit"; "rate limit"; "limit reached"; "spend limit"; "too many requests"; "quota"; "429"].

Definition token_char (c : ascii) : bool := is_ascii_alphanumeric c || existsb (Ascii.eqb c) ["-"; ":"; "."; "+"; "T"; "Z"]%char.
Definition closing_char (c : ascii) : bool := existsb (Ascii.eqb c) [","; "."; ";"; ")"; "]"; "}"]%char.
Definition parse_rfc3339 (text : string) : option Z :=
  head (omap (fun raw => rfc3339 (trim_end_chars closing_char (trim_chars (fun c => negb (token_char c)) raw))) (words text)).

(** The seconds in a unit. *)
Definition unit_seconds (unit : string) : option Z :=
  if starts_with "sec" unit || String.eqb unit "s" then Some 1
  else if starts_with "min" unit || String.eqb unit "m" then Some 60
  else if starts_with "hour" unit || starts_with "hr" unit || String.eqb unit "h" then Some (60 * 60)
  else if starts_with "day" unit || String.eqb unit "d" then Some (24 * 60 * 60)
  else None.

(** The loop of at most [rounds] pieces; the outer [None] is a panic, the inner
    one the [None] of the code. [total] is in seconds. *)
Fixpoint parse_pieces (rounds : nat) (rest : string) (total : option Z) : option (option Z) :=
  match rounds with
  | O => Some total
  | S rounds =>
      let '(digits, rest) := span is_ascii_digit rest in
      if is_empty digits then Some total
      else match parse_unsigned i64_max digits with
           | None => Some None
           | Some amount =>
               let '(unit, rest) := span is_ascii_alphabetic (trim_start rest) in
               match unit_seconds unit with
               | None => Some total
               | Some n =>
                   match seconds (amount * n), seconds (default 0 total + amount * n) with
                   | Some _, Some _ =>
                       parse_pieces rounds (trim_start (trim_start_matches "and" (trim_start rest))) (Some (default 0 total + amount * n))
                   | _, _ => None
                   end
               end
           end
  end.
Definition parse_duration (input : string) : option (option Z) := parse_pieces 3 (trim_start input) None.

Definition RELATIVE_MARKERS : list string :=
  ["try again in"; "retry in"; "retry after"; "resets in"; "reset in"; "available in"].
Fixpoint parse_after (now : Z) (lower : string) (markers : list string) : option (option Z) :=
  match markers with
  | [] => Some None
  | marker :: markers =>
      match split_once marker lower with
      | None => parse_after now lower markers
      | Some (_, after) =>
          match parse_duration after with
          | None => None
          | Some None => parse_after now lower markers
          | Some (Some duration) =>
              match after_ now duration with Some at_ => Some (Some at_) | None => None end
          end
      end
  end.
Definition parse_relative (now : Z) (text : string) : option (option Z) := parse_after now (lowercase text) RELATIVE_MARKERS.

(** A run of ten digits that is an instant of the next eight days. *)
Definition plausible (now candidate : Z) : bool := (now <? candidate) && (candidate <? now + 8 * day_ms).
Definition epoch_of (now : Z) (raw : string) : option Z :=
  if (String.length raw =? 10)%nat then
    secs ← parse_unsigned i64_max raw;
    if plausible now (secs * 1000) then Some (secs * 1000) else None
  else None.
Definition parse_epoch_seconds (now : Z) (text : string) : option Z :=
  head (omap (epoch_of now) (split_where (fun c => negb (is_ascii_digit c)) text)).

Definition CLOCK_MARKERS : list string := ["reset at"; "resets at"; "again at"; "available at"].
(** The hour and minute of a phrase like "7pm" or "19:30". *)
Definition clock_phrase (after : string) : option (Z * Z) :=
  let '(hour_digits, tail) := span is_ascii_digit after in
  if is_empty hour_digits || (2 <? String.length hour_digits)%nat then None
  else
    hour_raw ← parse_unsigned u32_max hour_digits;
    '(minute, rest) ← match strip_prefix ":" tail with
                      | Some stripped =>
                          let '(minute_digits, rest) := span is_ascii_digit stripped in
                          minute ← parse_unsigned u32_max minute_digits; Some (minute, rest)
                      | None => Some (0, tail)
                      end;
    let rest := trim_start rest in
    hour ← (if starts_with "pm" rest && (hour_raw <? 12) then Some (hour_raw + 12)
            else if starts_with "am" rest && (hour_raw =? 12) then Some 0
            else if starts_with "am" rest || starts_with "pm" rest || ((hour_raw <=? 23) && starts_with ":" tail) then Some hour_raw
            else None);
    if (hour <? 24) && (minute <? 60) then Some (hour, minute) else None.

(** That time of today, or of tomorrow when it has passed. *)
Definition next_at (now_local hour minute : Z) : Z :=
  let candidate := now_local - now_local mod day_ms + (hour * 60 + minute) * 60 * 1000 in
  if candidate <=? now_local then candidate + day_ms else candidate.
Definition parse_clock_time (now : Z) (text : string) : option Z :=
  let lower := lowercase text in
  after ← head (omap (fun marker => snd <$> split_once marker lower) CLOCK_MARKERS);
  '(hour, minute) ← clock_phrase (trim_start after);
  from_wall_clock (next_at (wall_clock now) hour minute).

Definition parse_reset_at (now : Z) (text : string) : option (option Z) :=
  match parse_rfc3339 text with
  | Some at_ => Some (Some at_)
  | None =>
      match parse_relative now text with
      | None => None
      | Some (Some at_) => Some (Some at_)
      | Some None => Some (opt_or (parse_epoch_seconds now text) (parse_clock_time now text))
      end
  end.

(** [Some None] is the code's [None], [Some (Some reset_at)] its [Some(reset_at)]. *)
Definition detect_usage_limit (now : Z) (text : string) : option (option (option Z)) :=
  if looks_like_limit text then Some <$> parse_reset_at now text else Some None.
End Limits.

(** ** Network loss (network.rs) *)
Definition NETWORK_PATTERNS : list string :=
  ["could not resolve host"; "dns error"; "dns lookup"; "failed to lookup address"; "temporary failure in name resolution";
   "name or service not known"; "nodename nor servname provided"; "network is unreachable"; "network unreachable";
   "no internet connection"; "internet connection appears to be offline"; "offline"; "connection timed out"; "request timed out";
   "operation timed out"; "deadline has elapsed"; "timed out while trying to connect"; "connection reset"; "connection aborted";
   "connection closed before"; "connection refused"; "eai_again"; "enotfound"; "enetunreach"; "etimedout"; "econnreset";
   "econnrefused"; "tls handshake timeout"; "failed to connect"; "error sending request"; "connection error"].
Definition detect_network_error (message : string) : option string :=
  let trimmed := trim message in
  if is_empty trimmed then None
  else if existsb (fun pattern => contains pattern (to_ascii_lowercase trimmed)) NETWORK_PATTERNS then Some (truncate trimmed 2000)
  else None.

(** ** Diagnostics (runtime.rs) *)
Definition MAX_DIAGNOSTIC_BYTES : nat := 16 * 1024.

(** [buf.find('\n')]. *)
Fixpoint find_char (c : ascii) (s : string) : option nat :=
  match s with EmptyString => None | String a s => if Ascii.eqb a c then Some 0%nat else S <$> find_char c s end.

(** The slice at [keep_from] panics inside a character. *)
Definition push_diagnostic_line (buf line : string) : option string :=
  let buf := buf +:+ line +:+ newline in
  if (MAX_DIAGNOSTIC_BYTES <? String.length buf)%nat then
    let keep_from := (String.length buf - MAX_DIAGNOSTIC_BYTES)%nat in
    if is_char_boundary buf keep_from then
      let tail := drop_bytes keep_from buf in
      Some (match find_char "010"%char tail with Some idx => drop_bytes (S idx) tail | None => tail end)
    else None
  else Some buf.

Definition buffered_diagnostics (stdout stderr : string) : string :=
  let stdout := trim stdout in
  let stderr := trim stderr in
  if is_empty stdout then stderr else if is_empty stderr then stdout else stdout +:+ newline +:+ stderr.

Definition with_diagnostics (message diagnostics : string) : string :=
  let diagnostics := trim diagnostics in
  if is_empty diagnostics then message else message +:+ newline +:+ newline +:+ diagnostics.
