(* ===== verification/AdapterArgs.v ===== *)
(** * How a provider is started (am-agents/src/lib.rs, runtime.rs and the launch halves of claude.rs, codex.rs, codex_app_server.rs)

    The launch specification an adapter gets, and the argument vectors and
    environments it translates to. *)
From Stdlib Require Import Ascii String SpecFloat.
From stdpp Require Import pretty.
From S2P Require Import Prelude RustStr Json Enums Records Doubles Limits ThreadText Attachments GitText TaskRepos ThreadFallback ThreadRuns JsonView ProviderText.
#[local] Open Scope string_scope.
#[local] Open Scope Z_scope.

(** ** The launch specification *)

Module AgentPolicyRuntime.
Record t := mk {
  allowed_tools : list string;
  denied_tools : list string;
  allowed_mcp_servers : list string;
  denied_mcp_servers : list string;
  denied_context_globs : list string;
  env_allowlist : list string;
  disable_remote_mcp_connectors : bool;
  max_budget_usd : option f64;
  task_budget : option TaskBudget.t;
  launch_env : list (string * string);
  provider_account_id : option string
}.
End AgentPolicyRuntime.

(** Durations in milliseconds. *)
Module RuntimeLimits.
Record t := mk { startup_timeout : Z; run_timeout : Z; idle_timeout : Z; stop_grace : Z }.
Definition default : t := mk (120 * 1000) (7200 * 1000) (900 * 1000) (30 * 1000).
End RuntimeLimits.

Inductive SessionRuntime :=
| Host (limits : RuntimeLimits.t)
| DockerSandbox (name : string) (cpus : Z) (memory network_preset : string) (limits : RuntimeLimits.t).
Definition runtime_limits (r : SessionRuntime) : RuntimeLimits.t :=
  match r with Host limits | DockerSandbox _ _ _ _ limits => limits end.
Definition sandbox_name (r : SessionRuntime) : option string :=
  match r with DockerSandbox name _ _ _ _ => Some name | Host _ => None end.
Definition on_host (r : SessionRuntime) : bool := match r with Host _ => true | DockerSandbox _ _ _ _ _ => false end.

(** [approver] says whether there is one. *)
Module SessionSpec.
Record t := mk {
  worktree : string;
  prompt : string;
  model : option string;
  reasoning : option string;
  local_model : option LocalModelRuntime.t;
  permission : PermissionPolicy.t;
  runtime : SessionRuntime;
  policy : option AgentPolicyRuntime.t;
  approver : bool
}.
Definition set_prompt (v : string) (s : t) : t :=
  mk s.(worktree) v s.(model) s.(reasoning) s.(local_model) s.(permission) s.(runtime) s.(policy) s.(approver).
End SessionSpec.

Definition budgeted (spec : SessionSpec.t) : bool :=
  match spec.(SessionSpec.policy) ≫= AgentPolicyRuntime.task_budget with
  | Some TaskBudget.Unlimited | None => false
  | Some _ => true
  end.

(** ** Overrides *)
Definition clean_override (value : option string) : option string :=
  value ← value;
  let value := trim value in
  if existsb (String.eqb value) [""; "default"; "auto"] then None else Some value.
Definition normalize_reasoning (reasoning : option string) : option string := to_ascii_lowercase <$> clean_override reasoning.

(** [format!("{max:.4}")] of a finite double. *)
Definition ten_thousandths (x : f64) : Z :=
  match x with
  | S754_finite _ m e => if 0 <=? e then 10000 * Z.pos m * 2 ^ e else round_half_even (10000 * Z.pos m) (2 ^ (- e))
  | _ => 0
  end.
Definition pad4 (n : Z) : string :=
  (if n <? 10 then "000" else if n <? 100 then "00" else if n <? 1000 then "0" else "") +:+ pretty n.
Definition show_fixed4 (x : f64) : string :=
  match x with
  | S754_nan => "NaN"
  | S754_infinity s => if s then "-inf" else "inf"
  | _ => (if f64_sign x then "-" else "") +:+ pretty (ten_thousandths x / 10000) +:+ "." +:+ pad4 (ten_thousandths x mod 10000)
  end.

(** ** Claude Code (claude.rs) *)
Module ClaudeArgs.
Section Claude.
Context {V : Type} `{Json V} `{!TextSerde (list Attachment.t)} `{!Codecs}.

Definition is_openai_reasoning_model (value : string) : bool :=
  match value with String "o"%char (String c _) => is_ascii_digit c | _ => false end.
Definition normalize_model (model : option string) : option string :=
  value ← clean_override model;
  let lower := to_ascii_lowercase value in
  if contains "gpt-" lower || is_openai_reasoning_model lower then None else Some value.

Definition budgeted_host_run (spec : SessionSpec.t) : bool := on_host spec.(SessionSpec.runtime) && budgeted spec.
Definition stream_input (spec : SessionSpec.t) : bool :=
  (contains "<perpetual-attachments>" spec.(SessionSpec.prompt) && on_host spec.(SessionSpec.runtime)) || budgeted_host_run spec ||
  (spec.(SessionSpec.approver) && on_host spec.(SessionSpec.runtime)).

Definition stream_user_line (text : string) (user_content : V) : string :=
  json_to_string (json_object [("type", json_str "user");
    ("message", json_object [("role", json_str "user"); ("content", user_content)])]).

Definition push_policy_args (policy : AgentPolicyRuntime.t) : list string :=
  let denied := (policy.(AgentPolicyRuntime.denied_tools) ++
    ((fun glob => "Read(" +:+ glob +:+ ")") <$> policy.(AgentPolicyRuntime.denied_context_globs)) ++
    ((fun server => if String.eqb server "*" then "mcp__*" else "mcp__" +:+ server +:+ "__*") <$>
       policy.(AgentPolicyRuntime.denied_mcp_servers)))%list in
  ((if bool_decide (policy.(AgentPolicyRuntime.allowed_tools) = []) then []
    else ["--allowedTools"; String.concat " " policy.(AgentPolicyRuntime.allowed_tools)]) ++
   (if bool_decide (denied = []) then [] else ["--disallowedTools"; String.concat " " denied]) ++
   match policy.(AgentPolicyRuntime.max_budget_usd) with
   | Some max => ["--max-budget-usd"; show_fixed4 max]
   | None => []
   end)%list.

Definition permission_args (spec : SessionSpec.t) : list string :=
  match spec.(SessionSpec.permission) with
  | PermissionPolicy.ReadOnly => ["--permission-mode"; "plan"]
  | PermissionPolicy.WorkspaceWrite => ["--permission-mode"; "acceptEdits"]
  | PermissionPolicy.Ask => ["--permission-mode"; if spec.(SessionSpec.approver) then "manual" else "acceptEdits"]
  | PermissionPolicy.Autonomous =>
      ["--permission-mode"; "bypassPermissions"; "--dangerously-skip-permissions"; "--settings";
       json_to_string (json_object [("sandbox", json_object [("enabled", json_bool (V:=V) false)])])]
  end.

Definition build_args (spec : SessionSpec.t) (resume : option string) : list string :=
  ((if stream_input spec
    then ["-p"; "--input-format"; "stream-json"; "--output-format"; "stream-json"; "--include-partial-messages"; "--verbose"]
    else ["-p"; spec.(SessionSpec.prompt); "--output-format"; "stream-json"; "--include-partial-messages"; "--verbose"]) ++
   (if spec.(SessionSpec.approver) && on_host spec.(SessionSpec.runtime) then ["--permission-prompt-tool"; "stdio"] else []) ++
   permission_args spec ++
   match normalize_model spec.(SessionSpec.model) with Some model => ["--model"; model] | None => [] end ++
   match normalize_reasoning spec.(SessionSpec.reasoning) with Some effort => ["--effort"; effort] | None => [] end ++
   match spec.(SessionSpec.policy) with Some policy => push_policy_args policy | None => [] end ++
   match resume with Some prior => ["--resume"; prior] | None => [] end)%list.

Definition policy_env (spec : SessionSpec.t) : list (string * string) :=
  match spec.(SessionSpec.policy) with
  | Some policy =>
      (policy.(AgentPolicyRuntime.launch_env) ++
       (if policy.(AgentPolicyRuntime.disable_remote_mcp_connectors) then [("ENABLE_CLAUDEAI_MCP_SERVERS", "false")] else []) ++
       (if bool_decide (policy.(AgentPolicyRuntime.env_allowlist) = []) then []
        else [("PERPETUAL_POLICY_ENV_ALLOWLIST", String.concat "," policy.(AgentPolicyRuntime.env_allowlist))]))%list
  | None => []
  end.

(** What [launch] starts: arguments, environment, and the prompt it streams. *)
Definition launch (spec : SessionSpec.t) (resume : option string) :
  result string (list string * list (string * string) * option string) :=
  unpacked ← unpack spec.(SessionSpec.prompt);
  let spec := if on_host spec.(SessionSpec.runtime) then spec else SessionSpec.set_prompt unpacked.1 spec in
  Ok (build_args spec resume, policy_env spec, if stream_input spec then Some spec.(SessionSpec.prompt) else None).
End Claude.
End ClaudeArgs.

(** ** Codex (codex.rs) *)
Module CodexArgs.
Section Codex.
Context `{!TextSerde (list Attachment.t)} `{!Codecs}.

Definition normalize_model (model : option string) : option string :=
  value ← clean_override model;
  let lower := to_ascii_lowercase value in
  if existsb (String.eqb lower) ["opus"; "sonnet"; "haiku"; "fable"] || starts_with "claude-" lower then None else Some value.

Definition backslash : string := bytes_of [92].
Definition toml_string (value : string) : string :=
  double_quote +:+ replace double_quote (backslash +:+ double_quote) (replace backslash (backslash +:+ backslash) value) +:+ double_quote.

Definition parse_mcp_tool (value : string) : option (string * string) :=
  rest ← strip_prefix "mcp__" value;
  '(server, tool) ← split_once "__" rest;
  if is_empty server || is_empty tool || contains "*" server then None else Some (server, tool).

Definition tool_args (list_ : string) (tools : list string) : list string :=
  concat ((fun tool => match parse_mcp_tool tool with
                       | Some (server, name) => ["-c"; "mcp_servers." +:+ server +:+ "." +:+ list_ +:+ "=[" +:+ toml_string name +:+ "]"]
                       | None => []
                       end) <$> tools).
Definition server_args (skip enabled : string) (servers : list string) : list string :=
  concat ((fun server => if String.eqb server skip then []
                         else ["-c"; "mcp_servers." +:+ server +:+ ".enabled=" +:+ enabled]) <$> servers).

Definition push_policy_args (policy : AgentPolicyRuntime.t) : list string :=
  (server_args "perpetual" "true" policy.(AgentPolicyRuntime.allowed_mcp_servers) ++
   server_args "*" "false" policy.(AgentPolicyRuntime.denied_mcp_servers) ++
   tool_args "enabled_tools" policy.(AgentPolicyRuntime.allowed_tools) ++
   tool_args "disabled_tools" policy.(AgentPolicyRuntime.denied_tools) ++
   (if bool_decide (policy.(AgentPolicyRuntime.env_allowlist) = []) then []
    else ["-c"; "shell_environment_policy.include_only=[" +:+
                String.concat "," (toml_string <$> policy.(AgentPolicyRuntime.env_allowlist)) +:+ "]"]) ++
   (if bool_decide (policy.(AgentPolicyRuntime.denied_context_globs) = []) then []
    else ["-c"; "permissions.perpetual_policy.filesystem." +:+ double_quote +:+ ":workspace_roots" +:+ double_quote +:+ "={" +:+
                String.concat "," ((fun glob => toml_string glob +:+ "=" +:+ double_quote +:+ "deny" +:+ double_quote) <$>
                  policy.(AgentPolicyRuntime.denied_context_globs)) +:+ "}"]))%list.

Definition LOCAL_MODEL_TOKEN_ENV : string := "PERPETUAL_LOCAL_MODEL_TOKEN".
Definition LOCAL_PROVIDER_ID : string := "perpetual_local".
Definition normalize_base_url (base_url : string) : string := trim_end_slashes (trim base_url).
Definition has_token (local : LocalModelRuntime.t) : bool :=
  is_some_and local.(LocalModelRuntime.api_token) (fun token => negb (is_empty (trim token))).
Definition uses_builtin_local_provider (local : LocalModelRuntime.t) : bool :=
  negb (has_token local) &&
  match local.(LocalModelRuntime.base_url) with
  | Some base_url => String.eqb (normalize_base_url base_url) (LocalModelProviderKind.default_base_url local.(LocalModelRuntime.provider))
  | None => true
  end.
Definition local_openai_base_url (local : LocalModelRuntime.t) : string :=
  let base := normalize_base_url (default (LocalModelProviderKind.default_base_url local.(LocalModelRuntime.provider))
                                    local.(LocalModelRuntime.base_url)) in
  if ends_with "/v1" base then base else base +:+ "/v1".

Definition push_local_model_args (local : LocalModelRuntime.t) : list string :=
  ((if uses_builtin_local_provider local then
      ["--oss"; "-c"; "oss_provider=" +:+ toml_string (LocalModelProviderKind.codex_oss_provider local.(LocalModelRuntime.provider))]
    else
      let key := "model_providers." +:+ LOCAL_PROVIDER_ID in
      ["-c"; "model_provider=" +:+ toml_string LOCAL_PROVIDER_ID; "-c"; key +:+ ".name=" +:+ toml_string "Perpetual Local";
       "-c"; key +:+ ".base_url=" +:+ toml_string (local_openai_base_url local)] ++
      (if has_token local then ["-c"; key +:+ ".env_key=" +:+ toml_string LOCAL_MODEL_TOKEN_ENV] else [])) ++
   ["--model"; trim local.(LocalModelRuntime.model)])%list.

Definition BYPASS : string := "--dangerously-bypass-approvals-and-sandbox".
Definition sandbox_args (permission : PermissionPolicy.t) (runtime : SessionRuntime) : list string :=
  match permission with
  | PermissionPolicy.ReadOnly => ["--sandbox"; "read-only"]
  | PermissionPolicy.WorkspaceWrite => if on_host runtime then ["--sandbox"; "workspace-write"] else [BYPASS]
  | PermissionPolicy.Ask => ["--sandbox"; "workspace-write"]
  | PermissionPolicy.Autonomous => [BYPASS]
  end.

(** Everything before the prompt. *)
Definition option_args (spec : SessionSpec.t) (resume : option string) : list string :=
  (["exec"; "--json"; "--color"; "never"; "--skip-git-repo-check"] ++
   sandbox_args spec.(SessionSpec.permission) spec.(SessionSpec.runtime) ++
   match spec.(SessionSpec.local_model) with
   | Some local => push_local_model_args local
   | None => match normalize_model spec.(SessionSpec.model) with Some model => ["--model"; model] | None => [] end
   end ++
   match normalize_reasoning spec.(SessionSpec.reasoning) with
   | Some effort => ["-c"; "model_reasoning_effort=" +:+ double_quote +:+ effort +:+ double_quote]
   | None => []
   end ++
   match spec.(SessionSpec.policy) with Some policy => push_policy_args policy | None => [] end ++
   match resume with Some prior => ["resume"; prior] | None => [] end)%list.
Definition build_args (spec : SessionSpec.t) (resume : option string) : list string :=
  (option_args spec resume ++ [spec.(SessionSpec.prompt)])%list.

Definition local_model_env (spec : SessionSpec.t) : list (string * string) :=
  match spec.(SessionSpec.local_model) ≫= LocalModelRuntime.api_token with
  | Some token => if is_empty (trim token) then [] else [(LOCAL_MODEL_TOKEN_ENV, trim token)]
  | None => []
  end.
Definition session_env (spec : SessionSpec.t) : list (string * string) :=
  (local_model_env spec ++
   match spec.(SessionSpec.policy) with
   | Some policy =>
       policy.(AgentPolicyRuntime.launch_env) ++
       (if bool_decide (policy.(AgentPolicyRuntime.env_allowlist) = []) then []
        else [("PERPETUAL_POLICY_ENV_ALLOWLIST", String.concat "," policy.(AgentPolicyRuntime.env_allowlist))])
   | None => []
   end)%list.

(** The image arguments, put before the prompt. *)
Definition image_args (files : list Attachment.t) : list string :=
  concat ((fun file => if native_image file.(Attachment.mime)
                       then match file.(Attachment.path) with Some path => ["--image"; path] | None => [] end
                       else []) <$> files).
(** The [exec] launch: arguments and environment. *)
Definition launch_exec (spec : SessionSpec.t) (resume : option string) : result string (list string * list (string * string)) :=
  '(plain, attachments) ← unpack spec.(SessionSpec.prompt);
  let spec := SessionSpec.set_prompt plain spec in
  let args := build_args spec resume in
  let prompt_index := (length args - 1)%nat in
  Ok ((take prompt_index args ++ image_args attachments ++ drop prompt_index args)%list, session_env spec).

(** The two transports: [app_server] is how the interactive one ends. *)
Inductive Transport := AppServer | Exec | Refused (message : string).
Definition choose_transport (spec : SessionSpec.t) (app_server : result string ()) : Transport :=
  if on_host spec.(SessionSpec.runtime) then
    match app_server with
    | Ok _ => AppServer
    | Err message => if budgeted spec then Refused message else Exec
    end
  else Exec.

Definition app_server_args (spec : SessionSpec.t) : list string :=
  "app-server" :: match spec.(SessionSpec.policy) with Some policy => push_policy_args policy | None => [] end.

Definition login_status_authenticated (lowercase : string -> string) (stdout stderr : string) : bool :=
  let combined := lowercase (stdout +:+ newline +:+ stderr) in
  contains "logged in" combined && negb (contains "not logged in" combined).
End Codex.
End CodexArgs.

(** ** The runtime (runtime.rs) *)
Definition docker_create_args (name : string) (cpus : Z) (memory sandbox_agent cwd : string) : list string :=
  ["run"; "--detached"; "--name"; name; "--cpus"; pretty cpus; "--memory"; memory; sandbox_agent; cwd].
Definition docker_exec_args (name sandbox_agent : string) (host_args : list string) (cwd : string) : list string :=
  (["exec"; "--workdir"; cwd; name; sandbox_agent] ++ host_args)%list.
Definition network_policy_arg (network_preset : string) : option string :=
  let preset := trim network_preset in
  if existsb (String.eqb preset) [""; "balanced"] then Some "balanced"
  else if existsb (String.eqb preset) ["open"; "allow-all"; "allow_all"] then Some "allow-all"
  else if existsb (String.eqb preset) ["locked_down"; "locked-down"; "deny-all"; "deny_all"; "restricted"; "offline"] then Some "deny-all"
  else None.
