(* ===== verification/ExecDrive.v ===== *)
(** * The driver of a provider process (the [drive] tasks of claude.rs and codex.rs)

    What both drivers share: the inputs their [select!] takes, the channel the
    events go to, the shape of the loop and the end of the session.  The tasks are
    functions of the sequence of inputs; [None] is a panic of the task. *)
From Stdlib Require Import Ascii String.
From S2P Require Import Prelude RustStr Json Enums Records Limits ThreadText JsonView ProviderText AdapterArgs.
#[local] Open Scope string_scope.
#[local] Open Scope Z_scope.

(** ** Inputs *)
(** The branches of [select!]; [delivered] tells whether the writer still takes
    an instruction. A line carries the time at which it is handled. *)
Inductive Input :=
| Line (now : Z) (text : string)
| Eof
| ReadError
| Steer (instruction : string) (delivered : bool)
| Cancel
| HardTimeout
| IdleTimeout
| StartupTimeout.

(** ** The event channel *)
Section Drive.
Context {V : Type}.
Abbreviation Event := (NormalizedEvent V).

(** The events received, and how many more are received before the receiver is
    dropped ([None]: it stays). *)
Record Channel := mkChannel { received : list Event; room : option nat }.
Definition open_channel (room : option nat) : Channel := mkChannel [] room.

(** [tx.send(event).await.is_ok()]. *)
Definition send (ev : Event) (c : Channel) : Channel * bool :=
  match c.(room) with
  | Some O => (c, false)
  | Some (S n) => (mkChannel (c.(received) ++ [ev]) (Some n), true)
  | None => (mkChannel (c.(received) ++ [ev]) None, true)
  end.
(** [let _ = tx.send(event).await]. *)
Definition post (ev : Event) (c : Channel) : Channel := (send ev c).1.
(** The loop that sends until the receiver is gone. *)
Fixpoint send_all (evs : list Event) (c : Channel) : Channel * bool :=
  match evs with
  | [] => (c, true)
  | ev :: evs => let '(c, ok) := send ev c in if ok then send_all evs c else (c, false)
  end.

(** ** The loop *)
(** How the loop was left: with the stream, or cut short (with a timeout's message). *)
Inductive Left := StreamEnded | Cut (timeout_message : option string).

(** The timeouts and the cancellation; [started] disables the startup timeout. *)
Definition cut_by (started : bool) (i : Input) : option Left :=
  match i with
  | Eof | ReadError => Some StreamEnded
  | Cancel => Some (Cut None)
  | HardTimeout => Some (Cut (Some "agent run timed out"))
  | IdleTimeout => Some (Cut (Some "agent produced no structured output before the idle timeout"))
  | StartupTimeout =>
      if started then None else Some (Cut (Some "agent did not produce structured output before the startup timeout"))
  | Line _ _ | Steer _ _ => None
  end.

Section Loop.
Context {St : Type} (step : Input -> St -> option (St * option Left)).

(** The inputs run out only with the process's output. *)
Fixpoint loop (inputs : list Input) (st : St) : option (St * Left) :=
  match inputs with
  | [] => Some (st, StreamEnded)
  | i :: inputs =>
      match step i st with
      | None => None
      | Some (st, Some left_) => Some (st, left_)
      | Some (st, None) => loop inputs st
      end
  end.
End Loop.

(** ** The end of the session *)
Context `{LimitClock}.

Definition is_cut (l : Left) : bool := match l with Cut _ => true | StreamEnded => false end.

(** What a message means: the limit, the lost network, or an error. *)
Definition error_or_limit (now : Z) (message : string) : option (list Event) :=
  match detect_usage_limit now message with
  | None => None
  | Some (Some reset_at) => Some [UsageLimitReached reset_at]
  | Some None =>
      match detect_network_error message with
      | Some message => Some [NetworkUnavailable message]
      | None => Some (if is_empty (trim message) then [] else [ErrorEvent (truncate message 2000) false])
      end
  end.

(** The diagnostics of a run that failed without a result. *)
Definition failure_events (now : Z) (diagnostics : string) : option (list Event) :=
  let err := trim diagnostics in
  if is_empty err then Some [] else error_or_limit now err.

Definition post_all (evs : list Event) (c : Channel) : Channel := foldl (fun c ev => post ev c) c evs.

(** After the process has exited: [reported] when the provider itself ended the
    run, [status] what the exit code says otherwise. *)
Definition finish (now : Z) (left_ : Left) (success reported : bool) (status : SessionStatus) (stdout stderr : string) (c : Channel) :
  option Channel :=
  let diagnostics := buffered_diagnostics stdout stderr in
  let c := match left_ with
           | Cut (Some message) => post (ErrorEvent (with_diagnostics message diagnostics) true) c
           | _ => c
           end in
  match (if negb (is_cut left_) && negb success && negb reported then failure_events now diagnostics else Some []) with
  | None => None
  | Some evs => Some (post (SessionEnded (if is_cut left_ then Interrupted else status)) (post_all evs c))
  end.

(** ** Facts *)
Definition not_end (ev : Event) : Prop := match ev with SessionEnded _ => False | _ => True end.

Lemma received_send ev c : (send ev c).1.(received) = (c.(received) ++ if (send ev c).2 then [ev] else [])%list.
Proof. unfold send. destruct c as [l [[|n]|]]; cbn; by rewrite ?app_nil_r. Qed.

Lemma send_all_received evs c :
  exists sent, sent `prefix_of` evs /\ (send_all evs c).1.(received) = (c.(received) ++ sent)%list /\
    ((send_all evs c).2 = true -> sent = evs).
Proof.
  revert c. induction evs as [|ev evs IH]; intros c; cbn [send_all].
  - exists []. rewrite app_nil_r. done.
  - destruct (send ev c) as [c' ok] eqn:Hs. pose proof (received_send ev c) as Hr. rewrite Hs in Hr. cbn in Hr. destruct ok.
    + destruct (IH c') as (sent & Hp & -> & Hok). exists (ev :: sent). rewrite Hr, <- app_assoc. split_and!; [by apply prefix_cons|done|].
      intros Hk. by rewrite (Hok Hk).
    + exists []. rewrite app_nil_r in Hr. cbn. rewrite app_nil_r. split_and!; [apply prefix_nil|done|done].
Qed.

Lemma received_post_all evs c : exists sent, sent `sublist_of` evs /\ (post_all evs c).(received) = (c.(received) ++ sent)%list.
Proof.
  revert c. induction evs as [|ev evs IH]; intros c; cbn [post_all foldl].
  - exists []. rewrite app_nil_r. done.
  - destruct (IH (post ev c)) as (sent & Hs & Hr). fold (post_all evs (post ev c)). rewrite Hr. unfold post at 1. rewrite received_send.
    destruct (send ev c).2; [exists (ev :: sent)|exists sent]; rewrite <- app_assoc; cbn; (split; [|done]).
    + by apply sublist_skip.
    + by apply sublist_cons.
Qed.

Lemma error_or_limit_not_end now message evs : error_or_limit now message = Some evs -> Forall not_end evs.
Proof. unfold error_or_limit. repeat case_match; intros [= <-]; repeat constructor. Qed.

(** The channel after the end: what it had, at most errors, and the end at most once, last. *)
Lemma finish_received now left_ success reported status stdout stderr c c' :
  finish now left_ success reported status stdout stderr c = Some c' ->
  exists mid last_, c'.(received) = (c.(received) ++ mid ++ last_)%list /\ Forall not_end mid /\
    (last_ = [] \/ last_ = [SessionEnded (if is_cut left_ then Interrupted else status)]) /\
    (c.(room) = None -> last_ <> []).
Proof.
  unfold finish. set (diagnostics := buffered_diagnostics stdout stderr).
  set (c1 := match left_ with Cut (Some message) => _ | _ => c end).
  assert (exists mid, c1.(received) = (c.(received) ++ mid)%list /\ Forall not_end mid /\ (c.(room) = None -> c1.(room) = None))
    as (mid1 & Hr1 & Hm1 & Hroom1).
  { subst c1. destruct left_ as [|[message|]]; try (exists []; by rewrite app_nil_r). unfold post. rewrite received_send.
    eexists. split; [done|]. split; [case_match; repeat constructor|]. unfold send. by intros ->. }
  clearbody c1.
  destruct (if negb (is_cut left_) && negb success && negb reported then failure_events now diagnostics else Some []) as [evs|] eqn:Hevs;
    [|done]. intros [= <-].
  assert (Forall not_end evs) as Hne.
  { destruct (_ && _); [|by injection Hevs as <-]. unfold failure_events in Hevs. destruct (is_empty _); [by injection Hevs as <-|].
    by apply error_or_limit_not_end in Hevs. }
  destruct (received_post_all evs c1) as (sent & Hsub & Hr2). unfold post at 1. rewrite received_send, Hr2, Hr1.
  set (ok := (send _ (post_all evs c1)).2). exists (mid1 ++ sent)%list, (if ok then [SessionEnded (if is_cut left_ then Interrupted else status)] else []).
  rewrite <- !app_assoc. split_and!; [done| |by destruct ok; auto|].
  - apply Forall_app. split; [done|]. apply Forall_forall. intros x Hx. eapply Forall_forall; [exact Hne|]. by eapply elem_of_sublist.
  - intros Hroom. specialize (Hroom1 Hroom). assert (ok = true) as ->; [|done]. subst ok.
    assert ((post_all evs c1).(room) = None) as Hn; [|unfold send; by rewrite Hn].
    clear -Hroom1. revert c1 Hroom1. induction evs as [|ev evs IH]; intros c1 Hn; [done|]. apply IH. unfold post, send. by rewrite Hn.
Qed.
End Drive.
Arguments Channel : clear implicits.
