(* ===== verification/ClaudeStream.v ===== *)
(** * The stream of Claude Code (am-agents/src/claude.rs)

    The parser of one line, the usage that is counted once, the answers to the
    permission requests, and the driver task over its inputs. *)
From Stdlib Require Import Ascii String.
From stdpp Require Import pretty strings gmap.
From S2P Require Import Prelude RustStr Json Enums Records Limits ThreadText Attachments GitText JsonView ProviderText AdapterArgs ExecDrive.
#[local] Open Scope string_scope.
#[local] Open Scope Z_scope.

(** ** Usage counted once *)
Module MessageUsageTotals.
Record t := mk { input : Z; output : Z }.
Definition default : t := mk 0 0.
Definition record_message (i o : Z) (u : t) : t := mk (u64_saturating_add u.(input) i) (u64_saturating_add u.(output) o).
Definition result_delta (i o : Z) (u : t) : Z * Z := (u_saturating_sub i u.(input), u_saturating_sub o u.(output)).
End MessageUsageTotals.

Section Claude.
Context {V : Type} `{JsonView V} `{!TextSerde (list Attachment.t)} `{!Codecs} `{LimitClock}.
Abbreviation Event := (NormalizedEvent V).

(** ** One line *)

(** The sum wraps around (a release build), the reported input saturates. *)
Definition token_usage_event (usage : V) : option Event :=
  let number v := default 0 (v ≫= json_as_u64) in
  let input := number (json_get usage "input_tokens") in
  let cached_input := number (get_either usage "cache_read_input_tokens" "cached_input_tokens") in
  let cache_creation := number (get_either usage "cache_creation_input_tokens" "cached_creation_input_tokens") in
  let output := number (json_get usage "output_tokens") in
  if 0 <? (input + cached_input + cache_creation + output) mod 2 ^ 64
  then Some (TokenUsage (u64_saturating_add (u64_saturating_add input cached_input) cache_creation) output)
  else None.

Definition usage_message_id (value : V) : option string :=
  opt_or (opt_or (pointer value ["message"; "id"]) (pointer value ["message"; "message_id"])) (json_get value "message_id") ≫= json_as_str.

(** The names of the blocked tools, each once in the order of their first denial. *)
Fixpoint denied_names (entries : list V) (names : list string) : list string :=
  match entries with
  | [] => names
  | entry :: entries =>
      let name := default "a tool" (get_str entry "tool_name") in
      denied_names entries (if existsb (fun n => String.eqb n name) names then names else (names ++ [name])%list)
  end.
Definition permission_denials_detail (value : option V) : option string :=
  arr ← value ≫= json_as_array;
  if bool_decide (arr = []) then None
  else
    let count := Z.of_nat (length arr) in
    Some (pretty count +:+ " action" +:+ (if count =? 1 then "" else "s") +:+ " blocked by the current permission level: " +:+
          String.concat ", " (denied_names arr [])).

Definition stringify_tool_content (content : option V) : string :=
  truncate
    (match content with
     | Some v =>
         match shape v with
         | SString s => s
         | SArray arr => String.concat newline (omap (fun b => get_str b "text") arr)
         | _ => json_to_string v
         end
     | None => ""
     end) 800.

Definition assistant_block (block : V) : list Event :=
  match get_str block "type" with
  | Some kind =>
      if String.eqb kind "text" then
        match get_str block "text" with
        | Some text => if is_empty (trim text) then [] else [AssistantText text]
        | None => []
        end
      else if String.eqb kind "tool_use" then
        [ToolUse (get_str block "id") (default "tool" (get_str block "name")) (get_or_null block "input")]
      else []
  | None => []
  end.
Definition user_block (block : V) : list Event :=
  if bool_decide (get_str block "type" = Some "tool_result") then
    [ToolResult (get_str block "tool_use_id") (negb (default false (get_bool block "is_error"))) (stringify_tool_content (json_get block "content"))]
  else [].

Definition content_events (f : V -> list Event) (v : V) : list Event :=
  match pointer_array v ["message"; "content"] with Some content => concat (f <$> content) | None => [] end.

Definition parse_assistant (v : V) : list Event :=
  (option_list (opt_or (pointer v ["message"; "usage"]) (json_get v "usage") ≫= token_usage_event) ++
   content_events assistant_block v)%list.

Definition parse_stream_event (v : V) : list Event :=
  let event := default v (json_get v "event") in
  if bool_decide (get_str event "type" = Some "content_block_delta") &&
     bool_decide (pointer_str event ["delta"; "type"] = Some "text_delta")
  then match pointer_str event ["delta"; "text"] with
       | Some delta => if is_empty delta then [] else [AssistantTextDelta delta]
       | None => []
       end
  else [].

Definition parse_result (now : Z) (v : V) : option (list Event) :=
  let before :=
    (option_list (json_get v "usage" ≫= token_usage_event) ++
     match permission_denials_detail (json_get v "permission_denials") with Some detail => [AwaitingApproval detail] | None => [] end)%list in
  if default false (get_bool v "is_error") then
    evs ← error_or_limit now (default "" (get_str v "result")); Some (before ++ evs)%list
  else Some before.

Definition parse_line (now : Z) (v : V) : option (list Event) :=
  match get_str v "type" with
  | Some kind =>
      if String.eqb kind "system" then
        Some (if bool_decide (get_str v "subtype" = Some "init")
              then match get_str v "session_id" with Some sid => [SessionStarted sid] | None => [] end
              else [])
      else if String.eqb kind "assistant" then Some (parse_assistant v)
      else if String.eqb kind "stream_event" then Some (parse_stream_event v)
      else if String.eqb kind "user" then Some (content_events user_block v)
      else if String.eqb kind "result" then parse_result now v
      else Some []
  | None => Some []
  end.

(** ** Permission requests *)
Definition control_ask (worktree : string) (request : V) : ApprovalAsk.t V :=
  let input := default (json_object []) (json_get request "input") in
  let command := get_str input "command" in
  ApprovalAsk.mk V (if bool_decide (is_Some command) then ApprovalKind.Command else ApprovalKind.Tool)
    (default "unknown" (get_str request "tool_name")) ((fun text => [text]) <$> command) (Some worktree) input
    (get_either request "decision_reason" "description" ≫= json_as_str).

(** The suggested rules that allow, for this session. *)
Definition session_suggestions (request : V) : list V :=
  (fun suggestion => json_set suggestion "destination" (json_str "session")) <$>
    filter (fun suggestion => get_str suggestion "behavior" = Some "allow") (default [] (get_array request "permission_suggestions")).

Definition allow_response (request : V) (decision : ApprovalDecision.t) : V :=
  let input := default (json_object []) (json_get request "input") in
  let allow := [("behavior", json_str "allow"); ("updatedInput", input)] in
  let suggestions := if bool_decide (decision = ApprovalDecision.AllowForSession) then session_suggestions request else [] in
  json_object (if bool_decide (suggestions = []) then allow else allow ++ [("updatedPermissions", json_array suggestions)])%list.
Definition deny_response (decision : ApprovalDecision.t) : V :=
  json_object [("behavior", json_str "deny"); ("message", json_str "Denied in Perpetual");
               ("interrupt", json_bool (bool_decide (decision = ApprovalDecision.Abort)))].

(** [ask] is the approver; without one the answer is [Deny]. *)
Definition control_response (approver : option (ApprovalAsk.t V -> ApprovalDecision.t)) (worktree : string) (request : V) : V :=
  if bool_decide (get_str request "subtype" = Some "can_use_tool") then
    let decision := match approver with
                    | Some ask => ask (control_ask worktree request)
                    | None => ApprovalDecision.Deny
                    end in
    if ApprovalDecision.is_allow decision then allow_response request decision else deny_response decision
  else json_object [("behavior", json_str "deny"); ("message", json_str "Unsupported Claude control request")].

(** The reply line; a request without an id has none. *)
Definition handle_control_request (value : V) (approver : option (ApprovalAsk.t V -> ApprovalDecision.t)) (worktree : string) : option V :=
  request_id ← get_str value "request_id";
  Some (json_object [("type", json_str "control_response");
    ("response", json_object [("subtype", json_str "success"); ("request_id", json_str request_id);
       ("response", control_response approver worktree (get_or_null value "request"))])]).

(** ** The driver *)
Record State := mkState {
  (** the sending half of the input pipe *)
  input_open : bool;
  (** the lines queued for the process, and the permission requests handed to tasks *)
  written : list string;
  requests : list V;
  events : Channel V;
  saw_result : bool;
  saw_structured_output : bool;
  seen_usage_message_ids : gset string;
  usage_totals : MessageUsageTotals.t;
  stdout_buf : string
}.

(** What one event of a line becomes: dropped, or sent. *)
Definition counted (is_result : bool) (message_id : option string) (ev : Event) (seen : gset string) (totals : MessageUsageTotals.t) :
  option Event * gset string * MessageUsageTotals.t :=
  match ev with
  | TokenUsage input output =>
      if is_result then
        let '(input, output) := MessageUsageTotals.result_delta input output totals in
        (if (input =? 0) && (output =? 0) then None else Some (TokenUsage input output), seen, totals)
      else
        match message_id with
        | Some id =>
            if bool_decide (id ∈ seen) then (None, seen, totals)
            else (Some ev, {[id]} ∪ seen, MessageUsageTotals.record_message input output totals)
        | None => (Some ev, seen, MessageUsageTotals.record_message input output totals)
        end
  | _ => (Some ev, seen, totals)
  end.

(** The loop over the events of a line; [false] when the receiver is gone. *)
Fixpoint forward (is_result : bool) (message_id : option string) (evs : list Event)
  (acc : Channel V * gset string * MessageUsageTotals.t) : Channel V * gset string * MessageUsageTotals.t * bool :=
  match evs with
  | [] => (acc, true)
  | ev :: evs =>
      let '(c, seen, totals) := acc in
      let '(out, seen, totals) := counted is_result message_id ev seen totals in
      match out with
      | None => forward is_result message_id evs (c, seen, totals)
      | Some ev =>
          let '(c, ok) := send ev c in
          if ok then forward is_result message_id evs (c, seen, totals) else (c, seen, totals, false)
      end
  end.

Definition on_value (now : Z) (value : V) (st : State) : option (State * option Left) :=
  let kind := get_str value "type" in
  if bool_decide (kind = Some "control_request") then
    Some (mkState st.(input_open) st.(written) (if st.(input_open) then st.(requests) ++ [value] else st.(requests))%list st.(events)
            st.(saw_result) true st.(seen_usage_message_ids) st.(usage_totals) st.(stdout_buf), None)
  else
    let is_result := bool_decide (kind = Some "result") in
    evs ← parse_line now value;
    let '(c, seen, totals, ok) :=
      forward is_result (usage_message_id value) evs (st.(events), st.(seen_usage_message_ids), st.(usage_totals)) in
    Some (mkState (st.(input_open) && negb is_result) st.(written) st.(requests) c (st.(saw_result) || is_result) true seen totals
            st.(stdout_buf), if (ok : bool) then None else Some (Cut None)).

Definition step (i : Input) (st : State) : option (State * option Left) :=
  match i with
  | Line now text =>
      let trimmed := trim text in
      if is_empty trimmed then Some (st, None)
      else match json_from_str trimmed with
           | Ok value => on_value now value st
           | Err _ =>
               buf ← push_diagnostic_line st.(stdout_buf) trimmed;
               Some (mkState st.(input_open) st.(written) st.(requests) st.(events) st.(saw_result) st.(saw_structured_output)
                       st.(seen_usage_message_ids) st.(usage_totals) buf, None)
           end
  | Steer instruction delivered =>
      if negb st.(input_open) then Some (st, None)
      else if negb delivered then Some (st, Some StreamEnded)
      else Some (mkState true (st.(written) ++ [ClaudeArgs.stream_user_line instruction (json_array (claude_content instruction))])%list
                   st.(requests) st.(events) st.(saw_result) st.(saw_structured_output) st.(seen_usage_message_ids) st.(usage_totals)
                   st.(stdout_buf), None)
  | _ => Some (st, cut_by st.(saw_structured_output) i)
  end.

(** [prompt] is streamed when there is an input pipe; the writer may have ended already. *)
Definition start (prompt : option string) (delivered : bool) (c : Channel V) : State :=
  match prompt with
  | Some prompt =>
      let line := ClaudeArgs.stream_user_line prompt (json_array (claude_content prompt)) in
      if delivered then mkState true [line] [] c false false ∅ MessageUsageTotals.default ""
      else mkState true [] [] (post (ErrorEvent "Claude stream input closed before the session started" false) c) false false ∅
             MessageUsageTotals.default ""
  | None => mkState false [] [] c false false ∅ MessageUsageTotals.default ""
  end.

(** The task: the exit of the process and what it wrote to stderr end it. *)
Definition drive (prompt : option string) (delivered : bool) (inputs : list Input) (now : Z) (success : bool) (stderr : string)
  (c : Channel V) : option (Channel V) :=
  '(st, left_) ← loop step inputs (start prompt delivered c);
  finish now left_ success st.(saw_result) (if success then Completed else Failed) st.(stdout_buf) stderr st.(events).
End Claude.
