(* ===== verification/CodexStream.v ===== *)
(** * The stream of [codex exec --json] (am-agents/src/codex.rs)

    The parser of one line and the driver task over its inputs. *)
From Stdlib Require Import Ascii String.
From stdpp Require Import pretty.
From S2P Require Import Prelude RustStr Json Enums Records Limits ThreadText JsonView ProviderText AdapterArgs ExecDrive.
#[local] Open Scope string_scope.
#[local] Open Scope Z_scope.

Module ParsedCodexLine.
Record t {V : Type} := mk { events : list (NormalizedEvent V); terminal : option SessionStatus }.
Arguments t : clear implicits.
Arguments mk {V} _ _.
End ParsedCodexLine.

Inductive ItemPhase := Started | Updated | ItemCompleted.
#[global] Instance ItemPhase_eq_dec : EqDecision ItemPhase.
Proof. solve_decision. Defined.

Section Codex.
Context {V : Type} `{JsonView V} `{LimitClock}.
Abbreviation Event := (NormalizedEvent V).

(** [and_then(|x| x.as_i64()).unwrap_or(0).max(0) as u64]. *)
Definition count_of (v : option V) : Z := Z.max (default 0 (v ≫= json_as_i64)) 0.
Definition usage_event (input output : Z) : option Event := if 0 <? input + output then Some (TokenUsage input output) else None.
Definition parse_usage (usage : option V) : option Event :=
  usage ← usage; usage_event (count_of (json_get usage "input_tokens")) (count_of (json_get usage "output_tokens")).

Definition command_summary (output : string) (exit_code : option Z) (status : string) : string :=
  if negb (is_empty (trim output)) then truncate output 800
  else match exit_code with Some code => "exit code " +:+ pretty code | None => status end.
Definition text_of (item : V) (k : string) : string := default "" (get_str item k).

Definition parse_command_execution (item : V) (phase : ItemPhase) : list Event :=
  match phase with
  | Started => [ToolUse None "Command" (json_object [("command", json_str (text_of item "command"))])]
  | ItemCompleted =>
      let status := text_of item "status" in
      let exit_code := get_i64 item "exit_code" in
      [ToolResult None (String.eqb status "completed" && (default 0 exit_code =? 0))
         (command_summary (text_of item "aggregated_output") exit_code status)]
  | Updated => []
  end.

Definition change_kind (kind : option string) : ChangeKind :=
  match kind with
  | Some k => if String.eqb k "add" then Created else if String.eqb k "delete" then Deleted else Modified
  | None => Modified
  end.
Definition file_changes (changes : list V) : list Event :=
  omap (fun change => path ← get_str change "path"; Some (FileChanged path (change_kind (get_str change "kind")))) changes.
Definition changes_summary (changes : list V) : string :=
  let n := Z.of_nat (length changes) in pretty n +:+ " file change" +:+ (if n =? 1 then "" else "s").

Definition parse_file_change (item : V) : list Event :=
  match get_array item "changes" with
  | Some changes => (file_changes changes ++ [ToolResult None (String.eqb (text_of item "status") "completed") (changes_summary changes)])%list
  | None => []
  end.

Definition qualified (server tool : string) : string := if is_empty server then tool else server +:+ "/" +:+ tool.

Definition parse_mcp_tool_call (item : V) (phase : ItemPhase) : list Event :=
  let server := text_of item "server" in
  let tool := default "tool" (get_str item "tool") in
  match phase with
  | Started =>
      [ToolUse None (qualified server tool)
         (json_object [("server", json_str server); ("tool", json_str tool); ("arguments", get_or_null item "arguments")])]
  | ItemCompleted =>
      let status := text_of item "status" in
      [ToolResult None (String.eqb status "completed" && negb (bool_decide (is_Some (json_get item "error"))))
         (default status (opt_or (pointer_str item ["error"; "message"])
                            ((fun r => truncate (json_to_string r) 800) <$> json_get item "result")))]
  | Updated => []
  end.

Definition parse_web_search (item : V) (phase : ItemPhase) : list Event :=
  let query := text_of item "query" in
  match phase with
  | Started => [ToolUse None "WebSearch" (json_object [("query", json_str query); ("action", get_or_null item "action")])]
  | ItemCompleted => [ToolResult None true (truncate query 800)]
  | Updated => []
  end.

(** [push_error_or_limit] on an optional message. *)
Definition message_events (now : Z) (message : option string) : option (list Event) :=
  match message with Some message => error_or_limit now message | None => Some [] end.

Definition parse_item (now : Z) (item : V) (phase : ItemPhase) : option (list Event) :=
  let completed := bool_decide (phase = ItemCompleted) in
  match get_str item "type" with
  | Some kind =>
      if String.eqb kind "agent_message" && completed then
        Some match get_str item "text" with
             | Some text => if is_empty (trim text) then [] else [AssistantText text]
             | None => []
             end
      else if String.eqb kind "command_execution" then Some (parse_command_execution item phase)
      else if String.eqb kind "file_change" && completed then Some (parse_file_change item)
      else if String.eqb kind "mcp_tool_call" then Some (parse_mcp_tool_call item phase)
      else if String.eqb kind "web_search" then Some (parse_web_search item phase)
      else if String.eqb kind "error" && completed then message_events now (get_str item "message")
      else Some []
  | None => Some []
  end.

Definition hint (events : option (list Event)) (terminal : option SessionStatus) : option (ParsedCodexLine.t V) :=
  evs ← events; Some (ParsedCodexLine.mk evs terminal).
Definition parse_in (now : Z) (v : V) (phase : ItemPhase) : option (ParsedCodexLine.t V) :=
  hint (match json_get v "item" with Some item => parse_item now item phase | None => Some [] end) None.

Definition parse_line (now : Z) (v : V) : option (ParsedCodexLine.t V) :=
  match get_str v "type" with
  | Some kind =>
      if String.eqb kind "thread.started" then
        hint (Some match get_str v "thread_id" with Some id => [SessionStarted id] | None => [] end) None
      else if String.eqb kind "turn.started" then hint (Some []) None
      else if String.eqb kind "turn.completed" then hint (Some (option_list (parse_usage (json_get v "usage")))) (Some Completed)
      else if String.eqb kind "turn.failed" then hint (message_events now (pointer_str v ["error"; "message"])) (Some Failed)
      else if String.eqb kind "error" then hint (message_events now (get_str v "message")) None
      else if String.eqb kind "item.started" then parse_in now v Started
      else if String.eqb kind "item.updated" then parse_in now v Updated
      else if String.eqb kind "item.completed" then parse_in now v ItemCompleted
      else hint (Some []) None
  | None => hint (Some []) None
  end.

(** ** The driver *)
Record CodexState := mkCodex {
  codex_events : Channel V;
  codex_terminal_status : option SessionStatus;
  codex_structured : bool;
  codex_stdout : string
}.

Definition codex_step (i : Input) (st : CodexState) : option (CodexState * option Left) :=
  match i with
  | Line now text =>
      let trimmed := trim text in
      if is_empty trimmed then Some (st, None)
      else match json_from_str trimmed with
           | Ok value =>
               parsed ← parse_line now value;
               let '(c, ok) := send_all parsed.(ParsedCodexLine.events) st.(codex_events) in
               Some (mkCodex c (opt_or parsed.(ParsedCodexLine.terminal) st.(codex_terminal_status)) true st.(codex_stdout),
                     if (ok : bool) then None else Some (Cut None))
           | Err _ =>
               buf ← push_diagnostic_line st.(codex_stdout) trimmed;
               Some (mkCodex st.(codex_events) st.(codex_terminal_status) st.(codex_structured) buf, None)
           end
  | Steer _ _ => Some (st, None)
  | _ => Some (st, cut_by st.(codex_structured) i)
  end.

Definition codex_start (c : Channel V) : CodexState := mkCodex c None false "".

Definition codex_drive (inputs : list Input) (now : Z) (success : bool) (stderr : string) (c : Channel V) : option (Channel V) :=
  '(st, left_) ← loop codex_step inputs (codex_start c);
  finish now left_ success (bool_decide (is_Some st.(codex_terminal_status)))
    (default (if success then Completed else Failed) st.(codex_terminal_status)) st.(codex_stdout) stderr st.(codex_events).
End Codex.
