(* ===== verification/ExecProps.v ===== *)
(** * What the provider drivers guarantee

    The stream of a session ends once, with the status the run had; what Claude
    reports of its usage is counted once; a permission request is allowed only by
    the approver. *)
From Stdlib Require Import Ascii String.
From stdpp Require Import strings gmap.
From S2P Require Import Prelude RustStr Json Enums Records Limits ThreadText Attachments GitText JsonView ProviderText AdapterArgs ExecDrive ClaudeStream CodexStream.
#[local] Open Scope string_scope.
#[local] Open Scope Z_scope.

(** ** Diagnostics of ASCII text *)
Definition is_ascii_char (a : ascii) : bool := (N_of_ascii a <? 128)%N.
Definition is_ascii_text : string -> bool := all_chars is_ascii_char.

Lemma all_chars_app p s t : all_chars p (s +:+ t) = all_chars p s && all_chars p t.
Proof.
  induction s as [|a s IH]; [done|]. change (String a s +:+ t) with (String a (s +:+ t)). cbn [all_chars]. by rewrite IH, andb_assoc.
Qed.

Lemma all_chars_get p s i a : all_chars p s = true -> String.get i s = Some a -> p a = true.
Proof.
  revert i. induction s as [|b s IH]; intros [|i]; cbn; try done.
  - by intros [Hb _]%andb_true_iff [= <-].
  - intros [_ Hs]%andb_true_iff. by apply IH.
Qed.

Lemma all_chars_drop p n s : all_chars p s = true -> all_chars p (drop_bytes n s) = true.
Proof. revert s. induction n as [|n IH]; intros [|a s]; cbn; try done. intros [_ Hs]%andb_true_iff. by apply IH. Qed.

Lemma get_in_range s i : (i < String.length s)%nat -> is_Some (String.get i s).
Proof. revert i. induction s as [|a s IH]; intros [|i]; cbn; try lia; [by eexists|]. intros Hi. apply IH. lia. Qed.

Lemma ascii_boundary s i : is_ascii_text s = true -> (i <= String.length s)%nat -> is_char_boundary s i = true.
Proof.
  intros Hs Hi. unfold is_char_boundary. destruct (Nat.eqb i 0); [done|]. cbn. destruct (String.get i s) as [a|] eqn:Hg.
  - apply (all_chars_get _ _ _ _ Hs) in Hg. unfold is_ascii_char in Hg. apply N.ltb_lt in Hg. apply negb_true_iff, andb_false_iff. left.
    apply Z.leb_gt. lia.
  - apply Nat.eqb_eq. destruct (decide (i < String.length s)%nat) as [Hl|]; [|lia]. apply get_in_range in Hl as [a Ha]. congruence.
Qed.

(** Only a character the buffer is cut in can make the push panic. *)
Lemma push_ascii buf line :
  is_ascii_text buf = true -> is_ascii_text line = true ->
  exists buf', push_diagnostic_line buf line = Some buf' /\ is_ascii_text buf' = true.
Proof.
  intros Hb Hl. unfold push_diagnostic_line. set (all := buf +:+ line +:+ newline).
  assert (is_ascii_text all = true) as Ha by (unfold is_ascii_text, all in *; by rewrite !all_chars_app, Hb, Hl).
  destruct (_ <? _)%nat; [|by eexists]. rewrite ascii_boundary by (done || lia). eexists. split; [done|].
  case_match; repeat (apply all_chars_drop); done.
Qed.

(** ** The loop *)
Section Loop.
Context {St : Type} (step : Input -> St -> option (St * option Left)) (P : St -> Prop).

Lemma loop_keeps inputs st st' l :
  (forall i st st' l, i ∈ inputs -> P st -> step i st = Some (st', l) -> P st') ->
  P st -> loop step inputs st = Some (st', l) -> P st'.
Proof.
  revert st. induction inputs as [|i inputs IH]; intros st Hstep Hst; cbn; [by intros [= <- _]|].
  destruct (step i st) as [[st1 [l1|]]|] eqn:Hs; [| |done].
  - intros [= <- _]. eapply Hstep; [|exact Hst|exact Hs]. by left.
  - intros Hl. eapply IH; [| |exact Hl].
    + intros j ? ? ? Hj. apply Hstep. by right.
    + eapply Hstep; [|exact Hst|exact Hs]. by left.
Qed.

(** A panic of the loop is a panic of one of its steps. *)
Lemma loop_panics inputs st :
  (forall i st st' l, i ∈ inputs -> P st -> step i st = Some (st', l) -> P st') ->
  P st -> loop step inputs st = None -> exists i st', i ∈ inputs /\ P st' /\ step i st' = None.
Proof.
  revert st. induction inputs as [|i inputs IH]; intros st Hstep Hst; cbn; [done|].
  destruct (step i st) as [[st1 [l1|]]|] eqn:Hs; [done| |].
  - intros Hl. destruct (IH st1) as (j & st2 & Hj & Hp & Hn); [|by eapply Hstep; [left|..]|done|exists j, st2; by split_and!; [right|..]].
    intros j ? ? ? Hj. apply Hstep. by right.
  - intros _. exists i, st. split_and!; [left|done..].
Qed.
End Loop.

(** ** The session ends once *)
Section Ends.
Context {V : Type} `{JsonView V} `{!TextSerde (list Attachment.t)} `{!Codecs} `{LimitClock}.

(** A stream that has not ended, and one that ended with [status]; the end may be
    missing only when nobody listens any more. *)
Definition unended (c : Channel V) : Prop := Forall not_end c.(received).
Definition ended_once (room : option nat) (status : SessionStatus) (c : Channel V) : Prop :=
  exists pre, Forall not_end pre /\ (c.(received) = (pre ++ [SessionEnded status])%list \/ (c.(received) = pre /\ room <> None)).

Lemma send_unended ev (c : Channel V) : not_end ev -> unended c -> unended (send ev c).1.
Proof. intros Hev Hc. unfold unended. rewrite received_send. apply Forall_app. split; [done|]. case_match; repeat constructor; done. Qed.

Lemma send_all_unended evs (c : Channel V) : Forall not_end evs -> unended c -> unended (send_all evs c).1.
Proof.
  intros Hevs Hc. unfold unended. destruct (send_all_received evs c) as (sent & Hp & -> & _). apply Forall_app. split; [done|].
  destruct Hp as [k ->]. by apply Forall_app in Hevs as [? _].
Qed.

Lemma room_send ev (c : Channel V) : c.(room) = None -> (send ev c).1.(room) = None.
Proof. unfold send. intros Hr. by rewrite Hr. Qed.
Lemma room_send_all evs (c : Channel V) : c.(room) = None -> (send_all evs c).1.(room) = None.
Proof.
  revert c. induction evs as [|ev evs IH]; intros c Hc; cbn [send_all]; [done|]. pose proof (room_send ev c Hc) as Hs.
  destruct (send ev c) as [c' []]; [by apply IH|done].
Qed.

Lemma finish_ends room0 now l success reported status stdout stderr (c c' : Channel V) :
  unended c -> (room0 = None -> c.(room) = None) ->
  finish now l success reported status stdout stderr c = Some c' ->
  ended_once room0 (if is_cut l then Interrupted else status) c'.
Proof.
  intros Hc Hroom (mid & last_ & Hr & Hm & Hl & Hn)%finish_received. exists (c.(received) ++ mid)%list.
  split; [by apply Forall_app|]. rewrite Hr. destruct Hl as [->| ->].
  - right. rewrite app_nil_r. split; [done|]. intros Hnone. by apply (Hn (Hroom Hnone)).
  - left. by rewrite <- app_assoc.
Qed.

(** *** Claude *)
Lemma option_list_not_end (o : option (NormalizedEvent V)) :
  (forall ev, o = Some ev -> not_end ev) -> Forall not_end (option_list o).
Proof. destruct o; cbn; intros Hev; repeat constructor. by apply Hev. Qed.

Lemma token_usage_not_end (v : V) ev : token_usage_event v = Some ev -> not_end ev.
Proof. unfold token_usage_event. case_match; [|done]. by intros [= <-]. Qed.

Lemma content_not_end f (v : V) : (forall b, Forall not_end (f b)) -> Forall not_end (content_events f v).
Proof.
  intros Hf. unfold content_events. case_match; [|constructor]. apply Forall_forall. intros ev Hev.
  apply list_elem_of_In, in_concat in Hev as (evs & Hin & Hev). apply list_elem_of_In in Hin, Hev.
  apply list_elem_of_fmap in Hin as (b & -> & _). eapply Forall_forall; [apply Hf|exact Hev].
Qed.

Lemma claude_line_not_end now (v : V) evs : ClaudeStream.parse_line now v = Some evs -> Forall not_end evs.
Proof.
  unfold ClaudeStream.parse_line. destruct (get_str v "type") as [kind|]; [|intros [= <-]; constructor].
  repeat (destruct (String.eqb kind _)).
  - intros [= <-]. repeat case_match; repeat constructor.
  - intros [= <-]. apply Forall_app. split.
    + apply option_list_not_end. intros ev (u & _ & Hu)%bind_Some. by eapply token_usage_not_end.
    + apply content_not_end. intros b. unfold assistant_block. repeat case_match; repeat constructor.
  - intros [= <-]. unfold parse_stream_event. repeat case_match; repeat constructor.
  - intros [= <-]. apply content_not_end. intros b. unfold user_block. repeat case_match; repeat constructor.
  - unfold parse_result. match goal with |- context [(option_list ?o ++ ?d)%list] => assert (Forall not_end (option_list o ++ d)) as Hb end.
    { apply Forall_app. split; [|case_match; repeat constructor]. apply option_list_not_end. intros ev (u & _ & Hu)%bind_Some.
      by eapply token_usage_not_end. }
    destruct (default false _); [|by intros [= <-]]. intros (e & He & [= <-])%bind_Some. apply Forall_app. split; [done|]. by eapply error_or_limit_not_end.
  - intros [= <-]. constructor.
Qed.

Lemma counted_not_end is_result id ev seen totals ev' seen' totals' :
  counted (V:=V) is_result id ev seen totals = (Some ev', seen', totals') -> not_end ev -> not_end ev'.
Proof. unfold counted. intros Hc He. repeat (case_match; simplify_eq/=); done. Qed.

Lemma forward_unended is_result id evs c seen totals c' seen' totals' ok :
  forward (V:=V) is_result id evs (c, seen, totals) = (c', seen', totals', ok) ->
  Forall not_end evs -> unended c -> unended c' /\ (c.(room) = None -> c'.(room) = None).
Proof.
  revert c seen totals. induction evs as [|ev evs IH]; intros c seen totals; cbn [forward]; [by intros [= <- _ _ _]|].
  intros Hf [Hev Hevs]%Forall_cons Hc. destruct (counted is_result id ev seen totals) as [[[ev'|] seen1] totals1] eqn:Hcount.
  - pose proof (counted_not_end _ _ _ _ _ _ _ _ Hcount Hev) as Hev'. pose proof (send_unended ev' c Hev' Hc) as Hc1.
    pose proof (room_send ev' c) as Hr1. destruct (send ev' c) as [c1 []]; cbn in Hc1, Hr1.
    + destruct (IH _ _ _ Hf Hevs Hc1) as [? Hr]. split; [done|]. auto.
    + by injection Hf as <- _ _ _.
  - by eapply IH.
Qed.

(** What the run has not lost: its stream has not ended, its diagnostics are ASCII
    when its lines are. *)
Definition claude_good (room0 : option nat) (plain : bool) (st : State (V:=V)) : Prop :=
  unended st.(events) /\ (room0 = None -> st.(events).(room) = None) /\ (plain = true -> is_ascii_text st.(stdout_buf) = true).

(** A line that is no JSON is ASCII. *)
Definition plain_line (i : Input) : bool :=
  match i with
  | Line _ text => match json_from_str (V:=V) (trim text) with Ok _ => true | Err _ => is_ascii_text (trim text) end
  | _ => true
  end.

Lemma claude_step_good room0 (plain : bool) i st st' l :
  (plain = true -> plain_line i = true) -> claude_good room0 plain st -> step i st = Some (st', l) -> claude_good room0 plain st'.
Proof.
  intros Hline (Hc & Hr & Hb). destruct i as [now text| | |s d| | | |]; cbn [step cut_by]; try (by intros [= <- _]).
  - unfold plain_line in Hline. destruct (is_empty (trim text)); [by intros [= <- _]|]. destruct (json_from_str (trim text)) as [value|e].
    + unfold on_value. case_bool_decide; [by intros [= <- _]|]. intros (evs & Hp & Hst)%bind_Some. apply claude_line_not_end in Hp.
      destruct (forward _ _ _ _) as [[[c seen] totals] ok] eqn:Hf. injection Hst as <- _.
      eapply forward_unended in Hf as [Hu Hroom]; [|done..]. split_and!; [done| |done]. cbn. auto.
    + intros (buf & Hp & [= <- _])%bind_Some. split_and!; [done..|]. cbn. intros Hpl.
      destruct (push_ascii _ _ (Hb Hpl) (Hline Hpl)) as (buf' & Hp' & Ha). congruence.
  - destruct (negb _); [by intros [= <- _]|]. destruct (negb _); by intros [= <- _].
Qed.

Lemma claude_start_good room0 plain prompt delivered :
  claude_good room0 plain (start prompt delivered (open_channel room0)).
Proof.
  assert (unended (open_channel (V:=V) room0)) as Ho by constructor. unfold start. destruct prompt as [p|]; [destruct delivered|]; split_and!; try done.
  - cbn. by apply send_unended.
  - cbn. intros ->. done.
Qed.

(** *** Panics *)
(** A text in a line of the run that names a time no instant has, or a line of
    diagnostics that is not ASCII. *)
Definition time_out_of_range (inputs : list Input) : Prop :=
  exists now text (v : V) path, Line now text ∈ inputs /\ json_from_str (trim text) = Ok v /\
    detect_usage_limit now (default "" (pointer_str v path)) = None.
Definition cut_character (inputs : list Input) : Prop :=
  exists now text e, Line now text ∈ inputs /\ json_from_str (V:=V) (trim text) = Err e /\ is_ascii_text (trim text) = false.
Definition panic_cause (inputs : list Input) : Prop := time_out_of_range inputs \/ cut_character inputs.

Lemma error_panics now message : error_or_limit (V:=V) now message = None -> detect_usage_limit now message = None.
Proof. unfold error_or_limit. by repeat case_match. Qed.

Lemma finish_panics now l success reported status stdout stderr (c : Channel V) :
  finish now l success reported status stdout stderr c = None ->
  detect_usage_limit now (trim (buffered_diagnostics stdout stderr)) = None.
Proof.
  unfold finish. destruct (_ && _); [|done]. unfold failure_events. destruct (is_empty _); [done|].
  destruct (error_or_limit _ _) eqn:He; [done|]. intros _. by eapply error_panics.
Qed.

Lemma pointer_one (v : V) k : pointer_str v [k] = get_str v k.
Proof. unfold pointer_str, get_str. cbn. by destruct (json_get v k). Qed.

Lemma claude_line_panics now (v : V) :
  ClaudeStream.parse_line now v = None -> exists path, detect_usage_limit now (default "" (pointer_str v path)) = None.
Proof.
  unfold ClaudeStream.parse_line. destruct (get_str v "type") as [kind|]; [|done]. repeat (destruct (String.eqb kind _)); try done.
  unfold parse_result. destruct (default false _); [|done]. intros He. exists ["result"]. rewrite pointer_one.
  destruct (error_or_limit now (default "" (get_str v "result"))) eqn:Hx; [done|]. by apply error_panics.
Qed.

Lemma claude_step_panics room0 inputs i st :
  i ∈ inputs -> claude_good room0 (plain_line i) st -> step i st = None -> panic_cause inputs.
Proof.
  intros Hi (_ & _ & Hb). destruct i as [now text| | |s d| | | |]; cbn [step cut_by]; try done.
  - destruct (is_empty (trim text)); [done|]. unfold plain_line in Hb. destruct (json_from_str (trim text)) as [value|e] eqn:Hj.
    + unfold on_value. case_bool_decide; [done|]. destruct (ClaudeStream.parse_line now value) eqn:Hp.
      * cbn. destruct (forward _ _ _ _) as [[[? ?] ?] ?]. done.
      * intros _. destruct (claude_line_panics _ _ Hp) as [path Hd]. left. by exists now, text, value, path.
    + intros Hn. destruct (is_ascii_text (trim text)) eqn:Ha; [|right; by exists now, text, e].
      destruct (push_ascii _ _ (Hb eq_refl) Ha) as (buf & Hp & _). by rewrite Hp in Hn.
  - destruct (negb _); [done|]. by destruct (negb _).
Qed.

(** *** Codex *)
Lemma error_events_not_end now message evs : message_events (V:=V) now message = Some evs -> Forall not_end evs.
Proof. unfold message_events. destruct message; [apply error_or_limit_not_end|]. intros [= <-]. constructor. Qed.

Lemma file_changes_not_end (changes : list V) : Forall not_end (file_changes changes).
Proof.
  apply Forall_forall. intros ev (c & _ & (path & _ & [= <-])%bind_Some)%list_elem_of_omap. done.
Qed.

Lemma parse_item_not_end now (item : V) phase evs : parse_item now item phase = Some evs -> Forall not_end evs.
Proof.
  unfold parse_item. destruct (get_str item "type") as [kind|]; [|intros [= <-]; constructor].
  repeat (destruct (String.eqb kind _ && bool_decide (phase = ItemCompleted)) || destruct (String.eqb kind _)); cbn [andb];
    repeat match goal with |- context [if bool_decide ?p then _ else _] => destruct (bool_decide p) end;
    try (apply error_events_not_end); intros [= <-]; try constructor.
  all: unfold parse_command_execution, parse_mcp_tool_call, parse_web_search, parse_file_change.
  all: repeat case_match; repeat constructor; try (apply Forall_app; split; [apply file_changes_not_end|repeat constructor]).
Qed.

Lemma parse_in_not_end now (v : V) phase parsed : parse_in now v phase = Some parsed -> Forall not_end parsed.(ParsedCodexLine.events).
Proof.
  unfold parse_in, hint. intros (evs & Hp & [= <-])%bind_Some. cbn. destruct (json_get v "item"); [by eapply parse_item_not_end|].
  injection Hp as <-. constructor.
Qed.

Lemma codex_line_not_end now (v : V) parsed : CodexStream.parse_line now v = Some parsed -> Forall not_end parsed.(ParsedCodexLine.events).
Proof.
  unfold CodexStream.parse_line, hint. destruct (get_str v "type") as [kind|]; [|intros [= <-]; constructor].
  repeat (destruct (String.eqb kind _)); try (by apply parse_in_not_end);
    try (by intros (evs & He%error_events_not_end & [= <-])%bind_Some); intros [= <-]; cbn; try constructor.
  - case_match; repeat constructor.
  - apply option_list_not_end. intros ev (u & _ & Hu)%bind_Some. revert Hu. unfold usage_event. case_match; [|done]. by intros [= <-].
Qed.

Definition codex_good (room0 : option nat) (plain : bool) (st : CodexState (V:=V)) : Prop :=
  unended st.(codex_events) /\ (room0 = None -> st.(codex_events).(room) = None) /\ (plain = true -> is_ascii_text st.(codex_stdout) = true).

Lemma codex_step_good room0 (plain : bool) i st st' l :
  (plain = true -> plain_line i = true) -> codex_good room0 plain st -> codex_step i st = Some (st', l) -> codex_good room0 plain st'.
Proof.
  intros Hline (Hc & Hr & Hb). destruct i as [now text| | |s d| | | |]; cbn [codex_step cut_by]; try (by intros [= <- _]).
  unfold plain_line in Hline. destruct (is_empty (trim text)); [by intros [= <- _]|]. destruct (json_from_str (trim text)) as [value|e].
  - intros (parsed & Hp & Hst)%bind_Some. apply codex_line_not_end in Hp.
    pose proof (send_all_unended _ _ Hp Hc) as Hu. pose proof (room_send_all parsed.(ParsedCodexLine.events) st.(codex_events)) as Hroom.
    destruct (send_all _ _) as [c ok]. injection Hst as <- _. split_and!; [done| |done]. cbn in *. auto.
  - intros (buf & Hp & [= <- _])%bind_Some. split_and!; [done..|]. cbn. intros Hpl.
    destruct (push_ascii _ _ (Hb Hpl) (Hline Hpl)) as (buf' & Hp' & Ha). congruence.
Qed.

Lemma message_panics now message :
  message_events (V:=V) now message = None -> detect_usage_limit now (default "" message) = None.
Proof. unfold message_events. destruct message; [|done]. apply error_panics. Qed.

Lemma parse_item_panics now (item : V) phase :
  parse_item now item phase = None -> detect_usage_limit now (default "" (get_str item "message")) = None.
Proof.
  unfold parse_item. destruct (get_str item "type") as [kind|]; [|done].
  repeat (case_match; try done). apply message_panics.
Qed.

Lemma codex_line_panics now (v : V) :
  CodexStream.parse_line now v = None -> exists path, detect_usage_limit now (default "" (pointer_str v path)) = None.
Proof.
  unfold CodexStream.parse_line, parse_in, hint. destruct (get_str v "type") as [kind|]; [|done].
  repeat (destruct (String.eqb kind _)); try done.
  1-2: destruct (message_events _ _) eqn:Hm; [done|]; intros _; apply message_panics in Hm.
  1: by exists ["error"; "message"].
  1: exists ["message"]; by rewrite pointer_one.
  all: destruct (json_get v "item") as [item|] eqn:Hi; [|done]; destruct (parse_item _ _ _) eqn:Hm; [done|]; intros _;
      apply parse_item_panics in Hm; exists ["item"; "message"]; unfold pointer_str, get_str in *; cbn; rewrite Hi; cbn in Hm |- *;
      by destruct (json_get item "message").
Qed.

Lemma codex_step_panics room0 inputs i st :
  i ∈ inputs -> codex_good room0 (plain_line i) st -> codex_step i st = None -> panic_cause inputs.
Proof.
  intros Hi (_ & _ & Hb). destruct i as [now text| | |s d| | | |]; cbn [codex_step cut_by]; try done.
  destruct (is_empty (trim text)); [done|]. unfold plain_line in Hb. destruct (json_from_str (trim text)) as [value|e] eqn:Hj.
  - destruct (CodexStream.parse_line now value) eqn:Hp.
    + cbn. by destruct (send_all _ _).
    + intros _. destruct (codex_line_panics _ _ Hp) as [path Hd]. left. by exists now, text, value, path.
  - intros Hn. destruct (is_ascii_text (trim text)) eqn:Ha; [|right; by exists now, text, e].
    destruct (push_ascii _ _ (Hb eq_refl) Ha) as (buf & Hp & _). by rewrite Hp in Hn.
Qed.

(** *** Both *)
Lemma plain_or_cut (inputs : list Input) : Forall (fun i => plain_line i = true) inputs \/ cut_character inputs.
Proof.
  destruct (decide (Forall (fun i => plain_line i = true) inputs)) as [?|Hn]; [by left|]. right.
  apply not_Forall_Exists, Exists_exists in Hn as (i & Hi & Hp); [|apply _].
  apply not_true_is_false in Hp. destruct i as [now text| | | | | | |]; try done.
  unfold plain_line in Hp. destruct (json_from_str (trim text)) as [v|e] eqn:Hj; [done|]. by exists now, text, e.
Qed.

Lemma claude_run room0 prompt delivered inputs :
  let start := start (V:=V) prompt delivered (open_channel room0) in
  match loop step inputs start with
  | Some (st, _) => unended st.(events) /\ (room0 = None -> st.(events).(room) = None)
  | None => panic_cause inputs
  end.
Proof.
  intros s0. destruct (loop step inputs s0) as [[st l]|] eqn:Hl.
  - apply (loop_keeps _ (claude_good room0 false)) in Hl as (? & ? & _); [done|..|apply claude_start_good].
    intros i st1 st2 l' _ ?. by apply claude_step_good.
  - destruct (plain_or_cut inputs) as [Hp|]; [|by right]. rewrite Forall_forall in Hp.
    apply (loop_panics _ (claude_good room0 true)) in Hl as (i & st & Hi & Hg & Hs); [|..|apply claude_start_good].
    + eapply claude_step_panics; [done| |exact Hs]. by rewrite (Hp i Hi).
    + intros j st1 st2 l' Hj. apply claude_step_good. intros _. by apply Hp.
Qed.

Lemma codex_run room0 inputs :
  match loop codex_step inputs (codex_start (V:=V) (open_channel room0)) with
  | Some (st, _) => unended st.(codex_events) /\ (room0 = None -> st.(codex_events).(room) = None)
  | None => panic_cause inputs
  end.
Proof.
  assert (forall plain, codex_good room0 plain (codex_start (V:=V) (open_channel room0))) as Hstart by (intros plain; split_and!; [constructor|done..]).
  destruct (loop _ _ _) as [[st l]|] eqn:Hl.
  - apply (loop_keeps _ (codex_good room0 false)) in Hl as (? & ? & _); [done|..|apply Hstart].
    intros i st1 st2 l' _ ?. by apply codex_step_good.
  - destruct (plain_or_cut inputs) as [Hp|]; [|by right]. rewrite Forall_forall in Hp.
    apply (loop_panics _ (codex_good room0 true)) in Hl as (i & st & Hi & Hg & Hs); [|..|apply Hstart].
    + eapply codex_step_panics; [done| |exact Hs]. by rewrite (Hp i Hi).
    + intros j st1 st2 l' Hj. apply codex_step_good. intros _. by apply Hp.
Qed.

(** What a finished task leaves: the end of the stream, once and last, with the
    status of the run; or the reason for which the task panicked. *)
Definition ends_once_or_panics (room0 : option nat) (now : Z) (diagnostics : string) (l : Left) (status : SessionStatus)
  (c : option (Channel V)) : Prop :=
  match c with
  | Some c => ended_once room0 (if is_cut l then Interrupted else status) c
  | None => detect_usage_limit now (trim diagnostics) = None
  end.

(** C9: the stream of a provider process, for every sequence of inputs of its
    driver task (lines, end of output, read errors, steering, cancellation and
    the timeouts), for Claude and for Codex: either the task panics, and then a
    text of the run names a time outside the range of instants or a line of
    diagnostics is not ASCII; or the receiver gets exactly one end of the
    session, as the last event, whose status is [Interrupted] when the run was
    cut short and what the process or the turn reported otherwise. Nothing but
    the end is missing when the receiver was dropped. *)
Theorem session_ends_once room0 prompt delivered inputs now (success : bool) stderr :
  match loop step inputs (start (V:=V) prompt delivered (open_channel room0)) with
  | Some (st, l) =>
      ends_once_or_panics room0 now (buffered_diagnostics st.(stdout_buf) stderr) l (if success then Completed else Failed)
        (drive prompt delivered inputs now success stderr (open_channel room0))
  | None => drive prompt delivered inputs now success stderr (open_channel (V:=V) room0) = None /\ panic_cause inputs
  end /\
  match loop codex_step inputs (codex_start (V:=V) (open_channel room0)) with
  | Some (st, l) =>
      ends_once_or_panics room0 now (buffered_diagnostics st.(codex_stdout) stderr) l
        (default (if success then Completed else Failed) st.(codex_terminal_status))
        (codex_drive inputs now success stderr (open_channel room0))
  | None => codex_drive inputs now success stderr (open_channel (V:=V) room0) = None /\ panic_cause inputs
  end.
Proof.
  split.
  - pose proof (claude_run room0 prompt delivered inputs) as Hrun. cbn zeta in Hrun. unfold drive.
    destruct (loop _ _ _) as [[st l]|]; [|done]. destruct Hrun as [Hu Hr]. cbn. unfold ends_once_or_panics.
    destruct (finish _ _ _ _ _ _ _ _) eqn:Hf; [by eapply finish_ends|by apply finish_panics in Hf].
  - pose proof (codex_run room0 inputs) as Hrun. unfold codex_drive.
    destruct (loop _ _ _) as [[st l]|]; [|done]. destruct Hrun as [Hu Hr]. cbn. unfold ends_once_or_panics.
    destruct (finish _ _ _ _ _ _ _ _) eqn:Hf; [by eapply finish_ends|by apply finish_panics in Hf].
Qed.
End Ends.
