(* ===== verification/ClaudeUsage.v ===== *)
(** * The usage a Claude session reports (am-agents/src/claude.rs)

    What the receiver has added up at the end of a run, against the reports of
    the provider's lines: each message counts once, and the total of the result
    replaces a smaller sum. *)
From Stdlib Require Import Ascii String.
From stdpp Require Import strings gmap.
From S2P Require Import Prelude RustStr Json Enums Records Limits ThreadText Attachments GitText JsonView ProviderText AdapterArgs ExecDrive ClaudeStream ExecProps.
#[local] Open Scope string_scope.
#[local] Open Scope Z_scope.

(** ** Sums *)
Definition usages {V} (evs : list (NormalizedEvent V)) : list (Z * Z) :=
  omap (fun ev => match ev with TokenUsage i o => Some (i, o) | _ => None end) evs.
Definition total (p : Z * Z -> Z) (us : list (Z * Z)) : Z := foldr (fun u n => p u + n) 0 us.

Lemma total_app p us us' : total p (us ++ us') = total p us + total p us'.
Proof. induction us as [|u us IH]; cbn; [done|]. fold (total p (us ++ us')%list). fold (total p us). rewrite IH. lia. Qed.
Lemma total_nonneg p us : Forall (fun u => 0 <= p u) us -> 0 <= total p us.
Proof. induction 1; cbn; [done|]. fold (total p l). lia. Qed.
Lemma usages_app {V} (evs evs' : list (NormalizedEvent V)) : usages (evs ++ evs') = (usages evs ++ usages evs')%list.
Proof. apply omap_app. Qed.

(** The first report of each message id; a message without one always counts. *)
Fixpoint fresh (id : option string) (us : list (Z * Z)) (seen : gset string) : list (Z * Z) * gset string :=
  match us with
  | [] => ([], seen)
  | u :: us =>
      match id with
      | Some i => if bool_decide (i ∈ seen) then fresh id us seen
                  else let '(us, seen) := fresh id us ({[i]} ∪ seen) in (u :: us, seen)
      | None => let '(us, seen) := fresh id us seen in (u :: us, seen)
      end
  end.

(** What a result with these totals still adds. *)
Definition delta (totals : MessageUsageTotals.t) (u : Z * Z) : option (Z * Z) :=
  let '(i, o) := MessageUsageTotals.result_delta u.1 u.2 totals in if (i =? 0) && (o =? 0) then None else Some (i, o).

Section Usage.
Context {V : Type} `{JsonViewOk V} `{!TextSerde (list Attachment.t)} `{!Codecs} `{LimitClock}.
Abbreviation Event := (NormalizedEvent V).

(** The usage a line reports. *)
Definition reported (v : V) : list (Z * Z) :=
  usages (option_list
    (match get_str v "type" with
     | Some kind =>
         if String.eqb kind "assistant" then opt_or (pointer v ["message"; "usage"]) (json_get v "usage") ≫= token_usage_event
         else if String.eqb kind "result" then json_get v "usage" ≫= token_usage_event
         else None
     | None => None
     end)).

(** The reports of the messages of a run that count. *)
Fixpoint message_reports (values : list V) (seen : gset string) : list (Z * Z) :=
  match values with
  | [] => []
  | v :: values => let '(us, seen) := fresh (usage_message_id v) (reported v) seen in (us ++ message_reports values seen)%list
  end.

Definition line_value (text : string) : option V :=
  if is_empty (trim text) then None else match json_from_str (trim text) with Ok v => Some v | Err _ => None end.

(** ** The usage of one line *)
Lemma token_usage_shape (v : V) ev : token_usage_event v = Some ev -> exists i o, ev = TokenUsage i o /\ is_u64 i /\ is_u64 o.
Proof.
  unfold token_usage_event. case_match; [|done]. intros [= <-]. do 2 eexists. split; [done|].
  assert (forall w : option V, is_u64 (default 0 (w ≫= json_as_u64))) as Hr.
  { intros [w|]; cbn; [|by unfold is_u64, u64_max]. destruct (json_as_u64 w) eqn:Hw; cbn; [by apply u64_range in Hw|by unfold is_u64, u64_max]. }
  split; [|apply Hr]. pose proof (Hr (json_get v "input_tokens")) as H1'.
  pose proof (Hr (get_either v "cache_read_input_tokens" "cached_input_tokens")) as H2'.
  pose proof (Hr (get_either v "cache_creation_input_tokens" "cached_creation_input_tokens")) as H3'.
  unfold is_u64, u64_saturating_add, u64_max in *. lia.
Qed.

Lemma reported_u64 (v : V) : Forall (fun u => is_u64 u.1 /\ is_u64 u.2) (reported v).
Proof.
  unfold reported. match goal with |- context [option_list ?o] => assert (forall ev, o = Some ev -> exists i w, ev = TokenUsage i w /\ is_u64 i /\ is_u64 w) as Ho; [|destruct o as [ev|]; [|constructor]] end.
  - intros ev. destruct (get_str v "type") as [kind|]; [|done]. repeat (destruct (String.eqb kind _)); try done;
      intros (u & _ & Hu)%bind_Some; by apply token_usage_shape in Hu.
  - destruct (Ho ev eq_refl) as (i & w & -> & ? & ?). cbn. by apply Forall_singleton.
Qed.

Lemma quiet_usages (evs : list Event) : (forall ev, ev ∈ evs -> match ev with TokenUsage _ _ => False | _ => True end) -> usages evs = [].
Proof.
  induction evs as [|ev evs IH]; intros Hq; [done|]. pose proof (Hq ev (list_elem_of_here _ _)) as He.
  destruct ev; cbn; try done; (apply IH; intros; apply Hq; by right).
Qed.

Lemma content_quiet f (v : V) : (forall b, usages (f b) = []) -> usages (content_events f v) = [].
Proof.
  intros Hf. unfold content_events. case_match; [|done]. clear - Hf. induction l as [|b l IH]; [done|]. by rewrite fmap_cons, concat_cons, usages_app, Hf, IH.
Qed.

Lemma error_quiet now message (evs : list Event) : error_or_limit now message = Some evs -> usages evs = [].
Proof. unfold error_or_limit. repeat case_match; by intros [= <-]. Qed.

Lemma line_usages now (v : V) evs : ClaudeStream.parse_line now v = Some evs -> usages evs = reported v.
Proof.
  unfold ClaudeStream.parse_line, reported. destruct (get_str v "type") as [kind|]; [|by intros [= <-]].
  destruct (String.eqb_spec kind "system") as [->|]; [intros [= <-]; by repeat case_match|].
  destruct (String.eqb_spec kind "assistant") as [->|].
  { intros [= <-]. unfold parse_assistant. rewrite usages_app, content_quiet, app_nil_r; [done|].
    intros b. unfold assistant_block. by repeat case_match. }
  destruct (String.eqb_spec kind "stream_event") as [->|]; [intros [= <-]; unfold parse_stream_event; by repeat case_match|].
  destruct (String.eqb_spec kind "user") as [->|].
  { intros [= <-]. apply content_quiet. intros b. unfold user_block. by repeat case_match. }
  destruct (String.eqb_spec kind "result") as [->|]; [|by intros [= <-]].
  unfold parse_result. case_match; [intros (e & He%error_quiet & [= <-])%bind_Some; rewrite usages_app, He, app_nil_r|intros [= <-]].
  all: rewrite usages_app; by case_match; cbn; rewrite app_nil_r.
Qed.

(** ** The events of one line *)
#[local] Arguments usages : simpl never.

Lemma received_open ev (c : Channel V) : c.(room) = None -> send ev c = (mkChannel (c.(received) ++ [ev]) None, true).
Proof. unfold send. by intros ->. Qed.

(** The totals are the sums received, as long as there is room in a [u64]. *)
Definition totals_match (totals : MessageUsageTotals.t) (us : list (Z * Z)) : Prop :=
  totals.(MessageUsageTotals.input) = Z.min (total fst us) u64_max /\ totals.(MessageUsageTotals.output) = Z.min (total snd us) u64_max.

Lemma record_match totals us u :
  is_u64 u.1 -> is_u64 u.2 -> totals_match totals us -> totals_match (MessageUsageTotals.record_message u.1 u.2 totals) (us ++ [u]).
Proof.
  unfold totals_match, is_u64. intros H1' H2' [Hi Ho]. cbn. rewrite !total_app, Hi, Ho. cbn. unfold u64_saturating_add. lia.
Qed.

Lemma forward_messages id evs (c : Channel V) seen totals :
  c.(room) = None -> Forall (fun u => is_u64 u.1 /\ is_u64 u.2) (usages evs) -> totals_match totals (usages c.(received)) ->
  exists c' totals', forward false id evs (c, seen, totals) = (c', (fresh id (usages evs) seen).2, totals', true) /\ c'.(room) = None /\
    usages c'.(received) = (usages c.(received) ++ (fresh id (usages evs) seen).1)%list /\ totals_match totals' (usages c'.(received)).
Proof.
  revert c seen totals. induction evs as [|ev evs IH]; intros c seen totals Hr Hu Ht; cbn [forward].
  { exists c, totals. cbn. by rewrite app_nil_r. }
  destruct (match ev with TokenUsage i o => Some (i, o) | _ => None end) as [[i o]|] eqn:Hev; cycle 1.
  - assert (counted false id ev seen totals = (Some ev, seen, totals)) as -> by (by destruct ev).
    assert (forall l, usages (ev :: l) = usages l) as Hq by (intros l; by destruct ev).
    assert (usages (c.(received) ++ [ev]) = usages c.(received)) as Hq1 by (by rewrite usages_app, Hq, app_nil_r).
    rewrite received_open by done. rewrite Hq in *. rewrite <- Hq1 in *.
    by apply (IH (mkChannel (c.(received) ++ [ev]) None) seen totals).
  - assert (ev = TokenUsage i o) as -> by (by destruct ev; simplify_eq/=). change (usages (TokenUsage i o :: evs)) with ((i, o) :: usages evs) in *.
    apply Forall_cons in Hu as [[Hi Ho] Hu]. cbn [fresh].
    assert (forall seen', exists c' totals', (let '(c, ok) := send (TokenUsage i o) c in
        if ok then forward false id evs (c, seen', MessageUsageTotals.record_message i o totals)
        else (c, seen', MessageUsageTotals.record_message i o totals, false)) = (c', (fresh id (usages evs) seen').2, totals', true) /\
      c'.(room) = None /\ usages c'.(received) = (usages c.(received) ++ (i, o) :: (fresh id (usages evs) seen').1)%list /\
      totals_match totals' (usages c'.(received))) as Hsend.
    { intros seen'. rewrite received_open by done.
      destruct (IH (mkChannel (c.(received) ++ [TokenUsage i o]) None) seen' (MessageUsageTotals.record_message i o totals))
        as (c' & t' & -> & ? & Hs & ?); [done..| |].
      - cbn. rewrite usages_app. by apply (record_match _ _ (i, o)).
      - exists c', t'. split_and!; [done..| |done]. rewrite Hs. cbn. by rewrite usages_app, <- app_assoc. }
    unfold counted. destruct id as [id|].
    + case_bool_decide; [by apply IH|]. specialize (Hsend ({[id]} ∪ seen)). by destruct (fresh _ _ ({[id]} ∪ seen)).
    + specialize (Hsend seen). by destruct (fresh _ _ seen).
Qed.

Lemma forward_result id evs (c : Channel V) seen totals :
  c.(room) = None ->
  exists c', forward true id evs (c, seen, totals) = (c', seen, totals, true) /\
    usages c'.(received) = (usages c.(received) ++ omap (delta totals) (usages evs))%list.
Proof.
  revert c. induction evs as [|ev evs IH]; intros c Hr; cbn [forward].
  { exists c. cbn. by rewrite app_nil_r. }
  destruct (match ev with TokenUsage i o => Some (i, o) | _ => None end) as [[i o]|] eqn:Hev; cycle 1.
  - assert (counted true id ev seen totals = (Some ev, seen, totals)) as -> by (by destruct ev).
    assert (forall l, usages (ev :: l) = usages l) as Hq by (intros l; by destruct ev).
    rewrite received_open by done. rewrite Hq. destruct (IH (mkChannel (c.(received) ++ [ev]) None)) as (c' & -> & Hs); [done|].
    exists c'. split; [done|]. rewrite Hs. cbn. by rewrite usages_app, (Hq []), app_nil_r.
  - assert (ev = TokenUsage i o) as -> by (by destruct ev; simplify_eq/=). change (usages (TokenUsage i o :: evs)) with ((i, o) :: usages evs).
    cbn [omap list_omap]. unfold counted, delta at 1. cbn [fst snd]. destruct (MessageUsageTotals.result_delta i o totals) as [i' o'].
    destruct ((i' =? 0) && (o' =? 0)); [by apply IH|]. rewrite received_open by done.
    destruct (IH (mkChannel (c.(received) ++ [TokenUsage i' o']) None)) as (c' & -> & Hs); [done|].
    exists c'. split; [done|]. rewrite Hs. cbn. by rewrite usages_app, <- app_assoc.
Qed.

(** ** The run *)
(** The state while no result has come, and what it has counted. *)
Definition usage_good (st : State (V:=V)) : Prop :=
  st.(events).(room) = None /\ totals_match st.(usage_totals) (usages st.(events).(received)).

Lemma message_step (v : V) now (st : State) :
  get_str v "type" <> Some "result" -> get_str v "type" <> Some "control_request" -> usage_good st ->
  match on_value now v st with
  | Some (st', l) =>
      let '(us, seen) := fresh (usage_message_id v) (reported v) st.(seen_usage_message_ids) in
      l = None /\ usage_good st' /\ st'.(seen_usage_message_ids) = seen /\
      usages st'.(events).(received) = (usages st.(events).(received) ++ us)%list
  | None => True
  end.
Proof.
  intros Hres Hctl [Hr Ht]. unfold on_value. rewrite !bool_decide_eq_false_2 by done.
  destruct (ClaudeStream.parse_line now v) as [evs|] eqn:Hp; [|done]. apply line_usages in Hp. cbn.
  edestruct forward_messages as (c' & t' & -> & Hr' & Hs & Ht'); [done|rewrite Hp; apply reported_u64|done|].
  rewrite Hp in *. destruct (fresh _ _ _). by cbn in *.
Qed.

Lemma control_step (v : V) now (st : State) :
  get_str v "type" = Some "control_request" -> usage_good st ->
  exists st', on_value now v st = Some (st', None) /\ usage_good st' /\ st'.(seen_usage_message_ids) = st.(seen_usage_message_ids) /\
    st'.(events) = st.(events) /\ reported v = [].
Proof.
  intros Hc Hg. unfold on_value, reported. rewrite Hc, bool_decide_eq_true_2 by done. eexists. by split_and!.
Qed.

Lemma result_step (v : V) now (st : State) :
  get_str v "type" = Some "result" -> usage_good st ->
  match on_value now v st with
  | Some (st', l) => usages st'.(events).(received) =
                       (usages st.(events).(received) ++ omap (delta st.(usage_totals)) (reported v))%list
  | None => True
  end.
Proof.
  intros Hc [Hr _]. unfold on_value. rewrite Hc, (bool_decide_eq_false_2 (Some "result" = Some "control_request")), bool_decide_eq_true_2 by done.
  destruct (ClaudeStream.parse_line now v) as [evs|] eqn:Hp; [|done]. apply line_usages in Hp. cbn.
  edestruct forward_result as (c' & -> & Hs); [done|]. cbn. by rewrite Hs, Hp.
Qed.

Lemma fresh_nil id seen : fresh id [] seen = ([], seen).
Proof. done. Qed.

(** A line that is no JSON, or empty. *)
Lemma other_line text now (st : State (V:=V)) :
  line_value text = None -> usage_good st ->
  match step (Line now text) st with
  | Some (st', l) => l = None /\ usage_good st' /\ st'.(seen_usage_message_ids) = st.(seen_usage_message_ids) /\ st'.(events) = st.(events)
  | None => True
  end.
Proof.
  unfold line_value. cbn [step]. intros Hv Hg. destruct (is_empty _); [done|]. destruct (json_from_str _); [done|].
  by destruct (push_diagnostic_line _ _).
Qed.

Lemma line_step text v now (st : State (V:=V)) : line_value text = Some v -> step (Line now text) st = on_value now v st.
Proof. unfold line_value. cbn [step]. destruct (is_empty _); [done|]. destruct (json_from_str _); [|done]. by intros [= ->]. Qed.

Lemma messages_run (lines : list (Z * string)) (rest : list Input) (st st' : State (V:=V)) l :
  (forall v, v ∈ omap (fun line => line_value line.2) lines -> get_str v "type" <> Some "result") -> usage_good st ->
  loop step (((fun line => Line line.1 line.2) <$> lines) ++ rest) st = Some (st', l) ->
  exists mid, usage_good mid /\ loop step rest mid = Some (st', l) /\
    usages mid.(events).(received) =
      (usages st.(events).(received) ++ message_reports (omap (fun line => line_value line.2) lines) st.(seen_usage_message_ids))%list.
Proof.
  revert st. induction lines as [|[now text] lines IH]; intros st Hv Hg; cbn [fmap list_fmap app loop].
  { intros Hl. exists st. cbn. by rewrite app_nil_r. }
  cbn [omap list_omap fst snd] in *. destruct (line_value text) as [v|] eqn:Hlv.
  - rewrite (line_step _ _ _ _ Hlv). destruct (decide (get_str v "type" = Some "control_request")) as [Hc|Hc].
    + destruct (control_step v now st Hc Hg) as (st1 & -> & Hg1 & Hs1 & He1 & Hr1). intros Hl.
      destruct (IH st1) as (mid & ? & ? & Hm); [intros; apply Hv; by right|done..|]. exists mid. cbn [message_reports].
      rewrite Hr1, fresh_nil, <- He1, <- Hs1. done.
    + pose proof (message_step v now st (Hv v (list_elem_of_here _ _)) Hc Hg) as Hm. destruct (on_value now v st) as [[st1 l1]|]; [|done].
      cbn [message_reports]. destruct (fresh _ _ _) as [us seen]. destruct Hm as (-> & Hg1 & Hs1 & He1). intros Hl.
      destruct (IH st1) as (mid & ? & ? & Hm); [intros; apply Hv; by right|done..|]. exists mid. split_and!; [done..|].
      by rewrite Hm, He1, Hs1, app_assoc.
  - pose proof (other_line text now st Hlv Hg) as Hm. destruct (step (Line now text) st) as [[st1 l1]|]; [|done].
    destruct Hm as (-> & Hg1 & Hs1 & He1). intros Hl. destruct (IH st1) as (mid & ? & ? & Hm); [done..|]. exists mid. by rewrite <- Hs1, <- He1.
Qed.

Lemma fresh_forall (P : Z * Z -> Prop) id us seen : Forall P us -> Forall P (fresh id us seen).1.
Proof.
  intros Hu. revert seen. induction Hu as [|u us Hu _ IH]; intros seen; cbn; [constructor|]. destruct id as [i|].
  - case_bool_decide; [apply IH|]. specialize (IH ({[i]} ∪ seen)). destruct (fresh _ _ _). by constructor.
  - specialize (IH seen). destruct (fresh _ _ _). by constructor.
Qed.

Lemma message_reports_u64 values seen : Forall (fun u => is_u64 u.1 /\ is_u64 u.2) (message_reports values seen).
Proof.
  revert seen. induction values as [|v values IH]; intros seen; cbn; [constructor|].
  pose proof (fresh_forall _ (usage_message_id v) _ seen (reported_u64 v)) as Hf. destruct (fresh _ _ _). by apply Forall_app.
Qed.

Lemma delta_total us r totals :
  Forall (fun u => is_u64 u.1 /\ is_u64 u.2) us -> Forall (fun u => is_u64 u.1 /\ is_u64 u.2) r -> (length r <= 1)%nat ->
  totals_match totals us ->
  total fst (us ++ omap (delta totals) r) = Z.max (total fst us) (total fst r) /\
  total snd (us ++ omap (delta totals) r) = Z.max (total snd us) (total snd r).
Proof.
  intros Hus Hr Hlen [Hi Ho].
  assert (0 <= total fst us) by (apply total_nonneg; eapply Forall_impl; [exact Hus|]; unfold is_u64; intros ? [[? ?] [? ?]]; cbn; lia).
  assert (0 <= total snd us) by (apply total_nonneg; eapply Forall_impl; [exact Hus|]; unfold is_u64; intros ? [[? ?] [? ?]]; cbn; lia).
  destruct r as [|[i o] [|]]; [rewrite app_nil_r; cbn; lia| |cbn in Hlen; lia].
  apply Forall_singleton in Hr as [Hri Hro]. cbn [fst snd] in *. rewrite !total_app. cbn [omap list_omap]. unfold delta, MessageUsageTotals.result_delta. cbn [fst snd].
  rewrite Hi, Ho. unfold u_saturating_sub, is_u64 in *. destruct (_ && _) eqn:Hz; cbn; [|lia].
  apply andb_true_iff in Hz as [?%Z.eqb_eq ?%Z.eqb_eq]. lia.
Qed.

Lemma reported_one (v : V) : (length (reported v) <= 1)%nat.
Proof. unfold reported. destruct (match get_str v "type" with Some _ => _ | None => _ end) as [[]|]; unfold usages; cbn; lia. Qed.

(** C13: while the receiver stays, the token usage a Claude run reports adds up,
    for input and for output, to the larger of two sums: the first usage report
    of each message id (and every report without an id), and the usage of the
    result that ends the run. No message counts twice, and what the messages
    reported is not counted again by the result. *)
Theorem usage_counted_once prompt delivered (lines : list (Z * string)) now text (r : V) st l :
  (forall v, v ∈ omap (fun line => line_value line.2) lines -> get_str v "type" <> Some "result") ->
  line_value text = Some r -> get_str r "type" = Some "result" ->
  loop step (((fun line => Line line.1 line.2) <$> lines) ++ [Line now text]) (start prompt delivered (open_channel None)) = Some (st, l) ->
  let messages := message_reports (omap (fun line => line_value line.2) lines) ∅ in
  forall p, p = fst \/ p = snd -> total p (usages st.(events).(received)) = Z.max (total p messages) (total p (reported r)).
Proof.
  intros Hv Hr Ht Hl messages p Hp. set (st0 := start _ _ _) in Hl.
  assert (usage_good st0 /\ usages st0.(events).(received) = [] /\ st0.(seen_usage_message_ids) = ∅) as (Hg & He & Hs).
  { subst st0. unfold start. destruct prompt; [destruct delivered|]; by split_and!. }
  destruct (messages_run _ _ _ _ _ Hv Hg Hl) as (mid & Hgm & Hlm & Hm). rewrite He, Hs in Hm. cbn [app] in Hm. fold messages in Hm.
  cbn [loop] in Hlm. rewrite (line_step _ _ _ _ Hr) in Hlm. pose proof (result_step r now mid Ht Hgm) as Hx.
  destruct (on_value now r mid) as [[st1 l1]|]; [|done].
  assert (st1 = st) as -> by (destruct l1; by injection Hlm). destruct Hgm as [_ Hgm]. rewrite Hx, Hm in *.
  destruct (delta_total messages (reported r) mid.(usage_totals)) as [H1' H2'];
    [apply message_reports_u64|apply reported_u64|apply reported_one|done|]. by destruct Hp as [-> | ->].
Qed.
End Usage.

(** Two reports of the same message and one of another, and a larger result. *)
#[local] Instance usage_clock : LimitClock := {
  lowercase s := s;
  rfc3339 _ := None;
  seconds z := Some z;
  after_ a b := Some (a + b);
  wall_clock z := z;
  from_wall_clock z := Some z
}.
Definition usage_line (kind id : string) (i o : Z) : string :=
  json_to_string (Tree.JObject [("type", Tree.JStr kind); ("message_id", Tree.JStr id);
    ("usage", Tree.JObject [("input_tokens", Tree.JNum i); ("output_tokens", Tree.JNum o)])]).

Lemma usage_counted_once_witness :
  match loop (step (V:=Tree.t)) (((fun line : Z * string => Line line.1 line.2) <$>
          [(0, usage_line "assistant" "m1" 10 2); (1, usage_line "assistant" "m1" 10 2); (2, usage_line "assistant" "m2" 5 1)]) ++
        [Line 3 (usage_line "result" "" 40 3)]) (start None true (open_channel None)) with
  | Some (st, _) => total fst (usages st.(events).(received)) = Z.max 15 40 /\ total snd (usages st.(events).(received)) = Z.max 3 3
  | None => False
  end.
Proof.
  destruct (loop _ _ _) as [[st l]|] eqn:Hl; [|by vm_compute in Hl].
  pose proof (usage_counted_once None true
    [(0, usage_line "assistant" "m1" 10 2); (1, usage_line "assistant" "m1" 10 2); (2, usage_line "assistant" "m2" 5 1)]
    3 (usage_line "result" "" 40 3)
    (Tree.JObject [("type", Tree.JStr "result"); ("message_id", Tree.JStr "");
       ("usage", Tree.JObject [("input_tokens", Tree.JNum 40); ("output_tokens", Tree.JNum 3)])]) st l) as Hu.
  assert (total fst (usages st.(events).(received)) = Z.max 15 40) as H1.
  { rewrite Hu; [by vm_compute| |by vm_compute|done|exact Hl|by left]. apply Forall_forall, (bool_decide_unpack (Forall _ _)). by vm_compute. }
  split; [exact H1|]. rewrite Hu; [by vm_compute| |by vm_compute|done|exact Hl|by right].
  apply Forall_forall, (bool_decide_unpack (Forall _ _)). by vm_compute.
Defined.
