(* ===== verification/AppServerText.v ===== *)
(** * The words of the Codex app-server (am-agents/src/codex_app_server.rs)

    The pure half of the adapter: the parameters of its requests, the questions
    and answers of an approval, and the reading of items, usage and quota. *)
From Stdlib Require Import Ascii String SpecFloat.
From stdpp Require Import pretty.
From S2P Require Import Prelude RustStr Json Enums Records Doubles Limits ThreadText Attachments GitText ThreadFallback JsonView ProviderText AdapterArgs ExecDrive CodexStream.
#[local] Open Scope string_scope.
#[local] Open Scope Z_scope.

(** ** Doubles *)

(** A decimal [digits * 10^exponent], correctly rounded. *)
Definition f64_of_decimal (negative : bool) (digits exponent : Z) : f64 :=
  match digits with
  | Zpos m =>
      if 0 <=? exponent then binary_normalize 53 1024 ((if negative then -1 else 1) * (digits * 10 ^ exponent)) 0 negative
      else let '(q, e, l) := SFdiv_core_binary 53 1024 digits 0 (10 ^ (- exponent)) 0 in
           binary_round_aux 53 1024 negative q e l
  | _ => S754_zero negative
  end.

(** [str::parse::<f64>]: an optional sign, then a name or digits with at most one
    point and an optional exponent. *)
Definition digits_value (s : string) : Z :=
  (fix go s acc := match s with EmptyString => acc | String a s => go s (10 * acc + default 0 (digit_value a)) end) s 0.
Definition sign_of (s : string) : bool * string :=
  match s with
  | String "-"%char s => (true, s)
  | String "+"%char s => (false, s)
  | _ => (false, s)
  end.
Definition parse_exponent (s : string) : option Z :=
  match s with
  | EmptyString => Some 0
  | String e s =>
      if Ascii.eqb e "e" || Ascii.eqb e "E" then
        let '(negative, s) := sign_of s in
        let '(digits, rest) := span is_ascii_digit s in
        if is_empty digits || negb (is_empty rest) then None
        else Some (if negative then - digits_value digits else digits_value digits)
      else None
  end.
Definition parse_number (negative : bool) (s : string) : option f64 :=
  let '(whole, rest) := span is_ascii_digit s in
  let '(fraction, rest) :=
    match rest with
    | String "."%char rest => span is_ascii_digit rest
    | _ => (EmptyString, rest)
    end in
  if is_empty whole && is_empty fraction then None
  else exponent ← parse_exponent rest;
       Some (f64_of_decimal negative (digits_value (whole +:+ fraction)) (exponent - Z.of_nat (String.length fraction))).
Definition parse_f64 (s : string) : option f64 :=
  let '(negative, s) := sign_of s in
  let lower := to_ascii_lowercase s in
  if String.eqb lower "inf" || String.eqb lower "infinity" then Some (S754_infinity negative)
  else if String.eqb lower "nan" then Some S754_nan
  else parse_number negative s.

(** [as i64]: towards zero, saturating, a NaN is zero. *)
Definition f64_to_i64 (x : f64) : Z :=
  match x with
  | S754_nan | S754_zero _ => 0
  | S754_infinity s => if s then i64_min else i64_max
  | S754_finite s m e =>
      let n := if 0 <=? e then Z.pos m * 2 ^ e else Z.pos m / 2 ^ (- e) in
      Z.max i64_min (Z.min i64_max (if s then - n else n))
  end.

(** chrono: [DateTime::from_timestamp] at a whole second, in milliseconds. *)
Class Timestamps := { from_timestamp : Z -> option Z }.

(** A question that is an approval: its id and its two answers. *)
Module ApprovalQuestionChoice.
Record t := mk { id : string; allow : string; deny : string }.
End ApprovalQuestionChoice.

Section Words.
Context {V : Type} `{JsonView V} `{!TextSerde (list Attachment.t)} `{!Codecs} `{LimitClock} `{Timestamps}.
Abbreviation Event := (NormalizedEvent V).

(** ** Requests *)
Definition approval_policy (permission : PermissionPolicy.t) : string :=
  match permission with
  | PermissionPolicy.Ask => "untrusted"
  | PermissionPolicy.ReadOnly | PermissionPolicy.Autonomous => "never"
  | PermissionPolicy.WorkspaceWrite => "on-request"
  end.
Definition thread_sandbox (permission : PermissionPolicy.t) : string :=
  match permission with
  | PermissionPolicy.ReadOnly => "read-only"
  | PermissionPolicy.Autonomous => "danger-full-access"
  | PermissionPolicy.WorkspaceWrite | PermissionPolicy.Ask => "workspace-write"
  end.

Definition thread_start_params (spec : SessionSpec.t) : V :=
  let params := json_object [("cwd", json_str spec.(SessionSpec.worktree));
                             ("approvalPolicy", json_str (approval_policy spec.(SessionSpec.permission)));
                             ("sandbox", json_str (thread_sandbox spec.(SessionSpec.permission)))] in
  match clean_override spec.(SessionSpec.model) with
  | Some model => json_set params "model" (json_str model)
  | None => params
  end.
Definition thread_resume_params (spec : SessionSpec.t) (thread_id : string) : V :=
  json_set (thread_start_params spec) "threadId" (json_str thread_id).

Definition turn_sandbox_policy (spec : SessionSpec.t) : V :=
  match spec.(SessionSpec.permission) with
  | PermissionPolicy.ReadOnly => json_object [("type", json_str "readOnly")]
  | PermissionPolicy.Autonomous => json_object [("type", json_str "dangerFullAccess")]
  | PermissionPolicy.WorkspaceWrite | PermissionPolicy.Ask =>
      json_object [("type", json_str "workspaceWrite"); ("writableRoots", json_array [json_str spec.(SessionSpec.worktree)]);
                   ("networkAccess", json_bool false)]
  end.
Definition turn_start_params (spec : SessionSpec.t) (thread_id : string) : V :=
  let params := json_object [("threadId", json_str thread_id); ("input", json_array (codex_input spec.(SessionSpec.prompt)));
                             ("approvalPolicy", json_str (approval_policy spec.(SessionSpec.permission)));
                             ("sandboxPolicy", turn_sandbox_policy spec)] in
  match clean_override spec.(SessionSpec.reasoning) with
  | Some effort => json_set params "effort" (json_str (to_ascii_lowercase effort))
  | None => params
  end.

(** ** Approvals *)
Definition ALLOW_LABELS : list string := ["accept"; "allow"; "approve"; "yes"].
Definition DENY_LABELS : list string := ["decline"; "deny"; "reject"; "no"; "cancel"].

(** The first option whose label, in any case, is one of these. *)
Definition find_label (labels : list string) (options : list V) : option string :=
  head (omap (fun option_ =>
    label ← get_str option_ "label";
    if existsb (String.eqb (to_ascii_lowercase label)) labels then Some label else None) options).
Definition approval_question_choice (question : V) : option ApprovalQuestionChoice.t :=
  id ← get_str question "id";
  options ← get_array question "options";
  allow ← find_label ALLOW_LABELS options;
  deny ← find_label DENY_LABELS options;
  Some (ApprovalQuestionChoice.mk id allow deny).
Definition approval_question_choices (params : V) : option (list ApprovalQuestionChoice.t) :=
  questions ← get_array params "questions";
  if bool_decide (questions = []) then None else mapM approval_question_choice questions.

Definition approval_command (params : V) : option (list string) :=
  command ← json_get params "command";
  match shape command with
  | SString command => if is_empty (trim command) then None else Some [command]
  | SArray parts => let command := omap json_as_str parts in if bool_decide (command = []) then None else Some command
  | _ => None
  end.
Definition approval_ask (kind : ApprovalKind.t) (tool_name : string) (command : option (list string)) (params : V) : ApprovalAsk.t V :=
  ApprovalAsk.mk V kind tool_name command (get_str params "cwd") params (get_str params "reason").
Definition approval_ask_for (method : string) (params : V) : option (ApprovalAsk.t V) :=
  if existsb (String.eqb method) ["item/commandExecution/requestApproval"; "execCommandApproval"] then
    Some (approval_ask ApprovalKind.Command "command" (approval_command params) params)
  else if String.eqb method "item/permissions/requestApproval" then
    Some (approval_ask ApprovalKind.Tool "permissions" None params)
  else if existsb (String.eqb method) ["item/fileChange/requestApproval"; "applyPatchApproval"] then
    Some (approval_ask ApprovalKind.FileChange "apply_patch" None params)
  else None.
(** What the user is asked about a question. *)
Definition question_ask (params : V) : ApprovalAsk.t V :=
  ApprovalAsk.mk V ApprovalKind.Tool "app_connector" None None params (Some "An app or connector wants to perform an action").

Definition review_decision (decision : ApprovalDecision.t) : string :=
  match decision with
  | ApprovalDecision.Allow => "approved"
  | ApprovalDecision.AllowForSession => "approved_for_session"
  | ApprovalDecision.Deny => "denied"
  | ApprovalDecision.Abort => "abort"
  end.
Definition item_decision (decision : ApprovalDecision.t) : string :=
  match decision with
  | ApprovalDecision.Allow => "accept"
  | ApprovalDecision.AllowForSession => "acceptForSession"
  | ApprovalDecision.Deny => "decline"
  | ApprovalDecision.Abort => "cancel"
  end.
Definition approval_response (method : string) (decision : ApprovalDecision.t) (params : V) : V :=
  if String.eqb method "item/permissions/requestApproval" then
    json_object
      [("permissions", if ApprovalDecision.is_allow decision then default (json_object []) (json_get params "permissions") else json_object []);
       ("scope", json_str (if bool_decide (decision = ApprovalDecision.AllowForSession) then "session" else "turn"))]
  else json_object [("decision", json_str (if starts_with "item/" method then item_decision decision else review_decision decision))].

(** The answers to the questions: a map from the ids, a later question wins. *)
Definition question_answer (decision : ApprovalDecision.t) (choice : ApprovalQuestionChoice.t) : string * V :=
  (choice.(ApprovalQuestionChoice.id),
   json_object [("answers", json_array [json_str (if ApprovalDecision.is_allow decision then choice.(ApprovalQuestionChoice.allow)
                                                  else choice.(ApprovalQuestionChoice.deny))])]).
Definition question_answers (decision : ApprovalDecision.t) (choices : list ApprovalQuestionChoice.t) : list (string * V) :=
  foldl (fun answers choice => let '(id, answer) := question_answer decision choice in assoc_set id answer answers) [] choices.

(** ** Items *)
Definition turn_status (status : string) : SessionStatus :=
  if String.eqb status "interrupted" then Interrupted else if String.eqb status "failed" then Failed else Completed.

Definition summarize_value (value : V) : string :=
  truncate (match shape value with SString value => value | _ => json_to_string value end) 800.
Definition succeeded (status : string) : bool := existsb (String.eqb status) ["completed"; "succeeded"; "success"].

(** What an item is when it starts, and when it has completed. *)
Definition item_started (kind : string) (call_id : option string) (item : V) : list Event :=
  let field k := (k, get_or_null item k) in
  if String.eqb kind "commandExecution" then
    [ToolUse call_id "Command" (json_object [("command", json_str (text_of item "command"))])]
  else if String.eqb kind "mcpToolCall" then
    [ToolUse call_id (qualified (text_of item "server") (default "tool" (get_str item "tool"))) (get_or_null item "arguments")]
  else if String.eqb kind "dynamicToolCall" then
    [ToolUse call_id (qualified (text_of item "namespace") (default "tool" (get_str item "tool"))) (get_or_null item "arguments")]
  else if String.eqb kind "webSearch" then
    [ToolUse call_id "Web search" (json_object [("query", json_str (text_of item "query")); field "action"])]
  else if String.eqb kind "imageView" then [ToolUse call_id "View image" (json_object [field "path"])]
  else if String.eqb kind "imageGeneration" then
    [ToolUse call_id "Image generation" (json_object [field "revisedPrompt"; field "transparentBackground"])]
  else if String.eqb kind "collabAgentToolCall" then
    [ToolUse call_id ("Collaboration/" +:+ default "collaboration" (get_str item "tool"))
       (json_object [field "prompt"; field "model"; field "receiverThreadIds"])]
  else [].

Definition generated_summary (item : V) : string :=
  let saved := summary ← summarize_value <$> json_get item "savedPath";
               if is_empty summary || String.eqb summary "null" then None else Some summary in
  default "Image generation completed" (opt_or saved ((fun text => truncate text 800) <$> get_str item "result")).

Definition item_completed (kind : string) (call_id : option string) (item : V) : list Event :=
  let status := text_of item "status" in
  let result_ ok summary := [ToolResult call_id ok summary] in
  if String.eqb kind "agentMessage" then
    match get_str item "text" with
    | Some text => if is_empty (trim text) then [] else [AssistantText text]
    | None => []
    end
  else if String.eqb kind "commandExecution" then
    let exit := get_i64 item "exitCode" in
    result_ (String.eqb status "completed" && (default 0 exit =? 0)) (command_summary (text_of item "aggregatedOutput") exit status)
  else if String.eqb kind "fileChange" then
    match get_array item "changes" with
    | Some changes => (file_changes changes ++ result_ (String.eqb status "completed") (changes_summary changes))%list
    | None => []
    end
  else if String.eqb kind "mcpToolCall" then
    result_ (String.eqb status "completed" && negb (bool_decide (is_Some (json_get item "error"))))
      (default (qualified (text_of item "server") (default "tool" (get_str item "tool")))
         (opt_or (pointer_str item ["error"; "message"]) (summarize_value <$> json_get item "result")))
  else if String.eqb kind "dynamicToolCall" then
    result_ (default (String.eqb status "completed") (get_bool item "success"))
      (default (qualified (text_of item "namespace") (default "tool" (get_str item "tool"))) (summarize_value <$> json_get item "contentItems"))
  else if String.eqb kind "webSearch" then
    let query := text_of item "query" in
    result_ true (if is_empty query then "Web search completed" else "Web search completed: " +:+ truncate query 300)
  else if String.eqb kind "imageGeneration" then result_ (succeeded status) (generated_summary item)
  else if String.eqb kind "collabAgentToolCall" then
    result_ (succeeded status) ("Collaboration " +:+ default "collaboration" (get_str item "tool") +:+ ": " +:+ status)
  else [].

Definition map_item (item : V) (completed : bool) : list Event :=
  match get_str item "type" with
  | Some kind => (if completed then item_completed else item_started) kind (get_str item "id") item
  | None => []
  end.

(** ** Usage and quota *)
Definition server_usage (usage : option V) : option Event :=
  usage ← usage;
  usage_event (count_of (get_either usage "input_tokens" "inputTokens")) (count_of (get_either usage "output_tokens" "outputTokens")).

Definition first_some {A B} (f : A -> option B) (l : list A) : option B := head (omap f l).

(** The object of a weekly window; the fuel is the depth of the value. *)
Definition f64_10000 : f64 := f64_of_int 10000.
Definition weekly_here (value : V) : bool :=
  let window := to_ascii_lowercase (default "" (get_either value "window" "duration" ≫= json_as_str)) in
  let duration_minutes := default f64_zero (get_either value "window_duration_mins" "windowDurationMins" ≫= json_as_f64) in
  contains "7d" window || contains "week" window || SFleb f64_10000 duration_minutes.
Fixpoint find_weekly (fuel : nat) (value : V) : option V :=
  match fuel with
  | O => None
  | S fuel =>
      match shape value with
      | SObject fields =>
          match get_either value "7d" "weekly" with
          | Some bucket => Some bucket
          | None => if weekly_here value then Some value else first_some (fun field => find_weekly fuel field.2) fields
          end
      | SArray items => first_some (find_weekly fuel) items
      | _ => None
      end
  end.

Definition quota_number (candidate : V) (names : list string) : option f64 :=
  first_some (fun name => value ← json_get candidate name; opt_or (json_as_f64 value) (json_as_str value ≫= parse_f64)) names.

Definition f64_1e10 : f64 := f64_of_int 10000000000.
Definition f64_1000 : f64 := f64_of_int 1000.
Definition quota_reset_at (value : V) : option Z :=
  match json_as_str value with
  | Some text => rfc3339 text
  | None =>
      seconds ← json_as_f64 value;
      from_timestamp (f64_to_i64 (if SFltb f64_1e10 seconds then SFdiv 53 1024 seconds f64_1000 else seconds))
  end.

Definition used_percent (candidate : V) : option f64 :=
  opt_or (quota_number candidate ["used_percent"; "usedPercent"; "percent_used"; "percentUsed"])
         (f64_sub f64_100 <$> quota_number candidate ["remaining_percent"; "remainingPercent"]).
Definition parse_quota_window (value : V) : option Event :=
  candidate ← find_weekly (S (json_depth value)) value;
  _ ← json_as_object candidate;
  used ← used_percent candidate;
  Some (QuotaWindow Weekly (f64_clamp f64_zero f64_100 used)
          (opt_or (get_either candidate "reset_at" "resetAt") (get_either candidate "resets_at" "resetsAt") ≫= quota_reset_at) false).
End Words.
