(* ===== verification/AppServer.v ===== *)
(** * The Codex app-server connection (am-agents/src/codex_app_server.rs)

    The JSON-RPC connection as a state that its tasks change by turns: the
    requests of the driver, the lines of the server, the decisions of the user.
    Then the sequence that starts a turn, and the driver that waits for its end. *)
From Stdlib Require Import Ascii String.
From stdpp Require Import gmap strings.
From S2P Require Import Prelude RustStr Json Enums Records Doubles Limits ThreadText Attachments GitText JsonView ProviderText AdapterArgs ExecDrive CodexStream AppServerText.
#[local] Open Scope string_scope.
#[local] Open Scope Z_scope.

Definition CONNECTION_CLOSED : string := "The provider connection closed. Please try again.".
Definition STDIN_CLOSED : string := "codex app-server stdin closed".
Definition DISCONNECTED : string :=
  "The provider disconnected before finishing. Your progress is saved; please try again.".

(** What the reader task does: it reads, it has ended with the output of the
    server, it has panicked. *)
Inductive ReaderState := Reading | ReaderEnded | ReaderPanicked.
#[global] Instance ReaderState_eq_dec : EqDecision ReaderState.
Proof. solve_decision. Defined.

Section AppServer.
Context {V : Type} `{JsonView V} `{!TextSerde (list Attachment.t)} `{!Codecs} `{LimitClock} `{Timestamps}.
Abbreviation Event := (NormalizedEvent V).

(** An approval task: the id it answers, and what it asks about. *)
Inductive Ask :=
| AskQuestions (id : V) (choices : list ApprovalQuestionChoice.t) (params : V)
| AskApproval (id : V) (method : string) (params : V) (ask : ApprovalAsk.t V).

Record Conn := mkConn {
  next_id : Z;
  (** [ResponseState]: whether the reader is done, and the requests without a response *)
  closed : bool;
  waiting : gset Z;
  (** the requests that are registered and not yet handed to the writer *)
  unsent : gmap Z (string * V);
  (** what the requests return *)
  results : gmap Z (result string V);
  (** the lines the writer has accepted; it is gone when a write failed *)
  lines : list string;
  writer_open : bool;
  asks : list Ask;
  events : Channel V;
  (** what [terminal_tx] has sent *)
  terminal : option SessionStatus;
  reader : ReaderState
}.

Definition connect (room : option nat) : Conn := mkConn 1 false ∅ ∅ ∅ [] true [] (open_channel room) None Reading.

Definition set_requests (closed : bool) (waiting : gset Z) (unsent : gmap Z (string * V)) (results : gmap Z (result string V)) (c : Conn) : Conn :=
  mkConn c.(next_id) closed waiting unsent results c.(lines) c.(writer_open) c.(asks) c.(events) c.(terminal) c.(reader).
Definition set_asks (asks : list Ask) (c : Conn) : Conn :=
  mkConn c.(next_id) c.(closed) c.(waiting) c.(unsent) c.(results) c.(lines) c.(writer_open) asks c.(events) c.(terminal) c.(reader).
Definition set_reader (terminal : option SessionStatus) (reader : ReaderState) (c : Conn) : Conn :=
  mkConn c.(next_id) c.(closed) c.(waiting) c.(unsent) c.(results) c.(lines) c.(writer_open) c.(asks) c.(events) terminal reader.
Definition emit (evs : list Event) (c : Conn) : Conn :=
  mkConn c.(next_id) c.(closed) c.(waiting) c.(unsent) c.(results) c.(lines) c.(writer_open) c.(asks) (post_all evs c.(events))
    c.(terminal) c.(reader).
(** [out_tx.send(line)]; it fails when the writer is gone. *)
Definition enqueue (line : V) (c : Conn) : Conn :=
  mkConn c.(next_id) c.(closed) c.(waiting) c.(unsent) c.(results)
    (if c.(writer_open) then c.(lines) ++ [json_to_string line] else c.(lines))%list c.(writer_open) c.(asks) c.(events) c.(terminal) c.(reader).

(** ** The requests of the driver *)

(** The first half of [Rpc::request]: an id, and a place among the waiting. *)
Definition register (method : string) (params : V) (c : Conn) : Conn :=
  let id := c.(next_id) in
  let c' := mkConn (u64_wrapping_add id 1) c.(closed) c.(waiting) c.(unsent) c.(results) c.(lines) c.(writer_open) c.(asks) c.(events)
              c.(terminal) c.(reader) in
  if c.(closed) then set_requests true c.(waiting) c.(unsent) (<[id := Err CONNECTION_CLOSED]> c.(results)) c'
  else set_requests false ({[id]} ∪ c.(waiting)) (<[id := (method, params)]> c.(unsent)) c.(results) c'.

(** The second half: the line goes to the writer. *)
Definition request_line (id : Z) (method : string) (params : V) : V :=
  json_object [("id", json_num id); ("method", json_str method); ("params", params)].
Definition send_request (id : Z) (c : Conn) : Conn :=
  match c.(unsent) !! id with
  | None => c
  | Some (method, params) =>
      if c.(writer_open) then
        enqueue (request_line id method params) (set_requests c.(closed) c.(waiting) (delete id c.(unsent)) c.(results) c)
      else set_requests c.(closed) (c.(waiting) ∖ {[id]}) (delete id c.(unsent)) (<[id := Err STDIN_CLOSED]> c.(results)) c
  end.

Definition notify (method : string) (params : V) : Conn -> Conn :=
  enqueue (json_object [("method", json_str method); ("params", params)]).
Definition interrupt (thread_id turn_id : string) : Conn -> Conn :=
  notify "turn/interrupt" (json_object [("threadId", json_str thread_id); ("turnId", json_str turn_id)]).
Definition steer (thread_id turn_id instruction : string) : Conn -> Conn :=
  notify "turn/steer"
    (json_object [("threadId", json_str thread_id); ("turnId", json_str turn_id);
                  ("input", json_array [json_object [("type", json_str "text"); ("text", json_str instruction)]])]).

(** ** The lines of the server *)

(** A response to one of our requests. *)
Definition response_of (value : V) : result string V :=
  match json_get value "error" with
  | Some err => Err (default "app-server error" (get_str err "message"))
  | None => Ok (get_or_null value "result")
  end.
Definition on_response (value : V) (c : Conn) : Conn :=
  match json_get value "id" ≫= json_as_u64 with
  | Some id =>
      if bool_decide (id ∈ c.(waiting)) then
        set_requests c.(closed) (c.(waiting) ∖ {[id]}) c.(unsent) (<[id := response_of value]> c.(results)) c
      else c
  | None => c
  end.

Definition reply (id result_ : V) : V := json_object [("id", id); ("result", result_)].
Definition unsupported_reply (id : V) (method : string) : V :=
  json_object [("id", id);
    ("error", json_object [("code", json_num (-32601));
                           ("message", json_str ("Perpetual does not support app-server request method " +:+ method))])].

(** A request of the server. *)
Definition handle_server_request (method : string) (value : V) (c : Conn) : Conn :=
  let id := get_or_null value "id" in
  let params := get_or_null value "params" in
  if String.eqb method "item/tool/requestUserInput" then
    match approval_question_choices params with
    | Some choices => set_asks (c.(asks) ++ [AskQuestions id choices params])%list c
    | None => enqueue (reply id (json_object [("answers", json_object [])])) (emit [ToolUse None "request_user_input" params] c)
    end
  else if String.eqb method "mcpServer/elicitation/request" then
    enqueue (reply id (json_object [("action", json_str "cancel")])) (emit [ToolUse None "mcp_elicitation" params] c)
  else
    match approval_ask_for method params with
    | Some ask => set_asks (c.(asks) ++ [AskApproval id method params ask])%list c
    | None => enqueue (unsupported_reply id method) c
    end.

(** The end of an approval task. *)
Definition ask_reply (ask : Ask) (decision : ApprovalDecision.t) : V :=
  match ask with
  | AskQuestions id choices _ => reply id (json_object [("answers", json_object (question_answers decision choices))])
  | AskApproval id method params _ => reply id (approval_response method decision params)
  end.
Definition asked (ask : Ask) : ApprovalAsk.t V :=
  match ask with AskQuestions _ _ params => question_ask params | AskApproval _ _ _ ask => ask end.
Definition decide_ask (k : nat) (decision : ApprovalDecision.t) (c : Conn) : Conn :=
  match c.(asks) !! k with
  | Some ask => enqueue (ask_reply ask decision) (set_asks (delete k c.(asks)) c)
  | None => c
  end.

(** A notification: the events it sends first, then ([None]: a panic) the rest of
    them and the status that ends the turn. *)
Definition message_at (now : Z) (params : V) (path : list string) (status : option SessionStatus) :
  option (list Event * option SessionStatus) :=
  evs ← message_events now (pointer_str params path); Some (evs, status).
Definition handle_notification (now : Z) (method : string) (value : V) : list Event * option (list Event * option SessionStatus) :=
  let params := default value (json_get value "params") in
  if String.eqb method "turn/completed" then
    let status := default Completed (turn_status <$> pointer_str params ["turn"; "status"]) in
    ((option_list (server_usage (pointer params ["turn"; "usage"])) ++ option_list (parse_quota_window params))%list,
     if bool_decide (status = Failed) then message_at now params ["turn"; "error"; "message"] (Some status) else Some ([], Some status))
  else if String.eqb method "turn/failed" then ([], message_at now params ["error"; "message"] (Some Failed))
  else if String.eqb method "error" then ([], message_at now params ["message"] None)
  else if existsb (String.eqb method) ["item/started"; "item/completed"] then
    (match json_get params "item" with
     | Some item => map_item item (String.eqb method "item/completed")
     | None => []
     end, Some ([], None))
  else if String.eqb method "item/agentMessage/delta" then
    (match get_str params "delta" with
     | Some delta => if is_empty delta then [] else [AssistantTextDelta delta]
     | None => []
     end, Some ([], None))
  else if existsb (String.eqb method) ["account/rateLimits/updated"; "account/rateLimits/read"] then
    (option_list (parse_quota_window params), Some ([], None))
  else ([], Some ([], None)).
Definition on_notification (now : Z) (method : string) (value : V) (c : Conn) : Conn :=
  let '(evs, rest) := handle_notification now method value in
  match rest with
  | Some (evs', status) => set_reader (opt_or c.(terminal) status) c.(reader) (emit (evs ++ evs')%list c)
  | None => set_reader c.(terminal) ReaderPanicked (emit evs c)
  end.

(** One line of the server. *)
Definition on_line (now : Z) (text : string) (c : Conn) : Conn :=
  match json_from_str (trim text) with
  | Err _ => c
  | Ok value =>
      match json_get value "id", get_str value "method" with
      | Some _, None => on_response value c
      | Some _, Some method => handle_server_request method value c
      | None, Some method => on_notification now method value c
      | None, None => c
      end
  end.

(** The output of the server has ended. *)
Definition on_end (c : Conn) : Conn :=
  let interrupted := negb (bool_decide (c.(waiting) = ∅)) in
  let drained := set_fold (fun id results => <[id := Err CONNECTION_CLOSED]> results) c.(results) c.(waiting) in
  let c' := set_requests true ∅ c.(unsent) drained c in
  match c.(terminal) with
  | Some status => set_reader (Some status) ReaderEnded c'
  | None => set_reader (Some Failed) ReaderEnded (if interrupted then c' else emit [ErrorEvent DISCONNECTED true] c')
  end.

(** ** The interleavings *)
Inductive Action :=
| Register (method : string) (params : V)
| SendRequest (id : Z)
| Notify (method : string) (params : V)
| WriterFails
| ServerLine (now : Z) (text : string)
| ServerEnds
| Decide (k : nat) (decision : ApprovalDecision.t).

Definition act (a : Action) (c : Conn) : Conn :=
  match a with
  | Register method params => register method params c
  | SendRequest id => send_request id c
  | Notify method params => notify method params c
  | WriterFails => mkConn c.(next_id) c.(closed) c.(waiting) c.(unsent) c.(results) c.(lines) false c.(asks) c.(events) c.(terminal) c.(reader)
  | ServerLine now text =>
      if bool_decide (c.(reader) = Reading) && negb (is_empty (trim text)) then on_line now text c else c
  | ServerEnds => if bool_decide (c.(reader) = Reading) then on_end c else c
  | Decide k decision => decide_ask k decision c
  end.
Definition run (acts : list Action) (c : Conn) : Conn := foldl (fun c a => act a c) c acts.

(** ** The start of a turn

    [run_turn] asks one request after the other; [answers] are what they return,
    and a connection without further answers is closed. *)
Inductive Sent := SentRequest (method : string) (params : V) | SentNotification (method : string) (params : V).
Record Talk := mkTalk { answers : list (result string V); sent : list Sent; posted : Channel V }.

Definition call (method : string) (params : V) (t : Talk) : result string V * Talk :=
  (default (Err CONNECTION_CLOSED) (head t.(answers)), mkTalk (tail t.(answers)) (t.(sent) ++ [SentRequest method params])%list t.(posted)).
Definition tell (method : string) (params : V) (t : Talk) : Talk :=
  mkTalk t.(answers) (t.(sent) ++ [SentNotification method params])%list t.(posted).
Definition announce (ev : Event) (t : Talk) : Talk := mkTalk t.(answers) t.(sent) (post ev t.(posted)).
Definition and_then {A B} (r : result string A * Talk) (f : A -> Talk -> result string B * Talk) : result string B * Talk :=
  match r with (Ok a, t) => f a t | (Err e, t) => (Err e, t) end.

Definition NO_WINDOW : string := "Codex did not provide a 7-day usage window".
Definition as_sample (final_sample : bool) (ev : Event) : Event :=
  match ev with QuotaWindow window used reset _ => QuotaWindow window used reset final_sample | ev => ev end.
Definition refresh_quota (required final_sample : bool) (t : Talk) : result string () * Talk :=
  match call "account/rateLimits/read" (json_object []) t with
  | (Ok quota, t) =>
      match parse_quota_window quota with
      | Some ev => (Ok (), announce (as_sample final_sample ev) t)
      | None => (if required then Err NO_WINDOW else Ok (), t)
      end
  | (Err err, t) => (if required then Err (NO_WINDOW +:+ ": " +:+ err) else Ok (), t)
  end.

Definition weekly_budget (spec : SessionSpec.t) : bool :=
  match spec.(SessionSpec.policy) ≫= AgentPolicyRuntime.task_budget with Some (TaskBudget.WeeklyPercent _) => true | _ => false end.
Definition client_info (version : string) : V :=
  json_object [("clientInfo", json_object [("name", json_str "Perpetual"); ("version", json_str version)])].

(** The thread: resumed, or a new one when there is none to resume or it fails. *)
Definition open_thread (spec : SessionSpec.t) (resume : option string) (t : Talk) : result string V * Talk :=
  let start := call "thread/start" (thread_start_params spec) in
  match resume with
  | Some prior =>
      match call "thread/resume" (thread_resume_params spec prior) t with
      | (Ok value, t) => (Ok value, t)
      | (Err _, t) => start t
      end
  | None => start t
  end.
Definition id_in (value : V) (path : list string) (k : string) : option string :=
  opt_or (pointer value path) (json_get value k) ≫= json_as_str.
Definition start_turn (spec : SessionSpec.t) (thread_id : string) (t : Talk) : result string (string * string) * Talk :=
  and_then (call "turn/start" (turn_start_params spec thread_id) t) (fun turn t =>
    (Ok (thread_id, default "" (id_in turn ["turn"; "id"] "turnId")), t)).
Definition run_turn (version : string) (spec : SessionSpec.t) (resume : option string) (t : Talk) : result string (string * string) * Talk :=
  and_then (call "initialize" (client_info version) t) (fun _ t =>
  and_then (open_thread spec resume (tell "initialized" (json_object []) t)) (fun thread t =>
  match id_in thread ["thread"; "id"] "threadId" with
  | None => (Err "codex app-server returned no thread id", t)
  | Some thread_id =>
      let t := announce (SessionStarted thread_id) t in
      if weekly_budget spec then and_then (refresh_quota true false t) (fun _ => start_turn spec thread_id)
      else start_turn spec thread_id t
  end)).

(** ** The driver *)
Inductive Startup :=
| StartedTurn (thread_id turn_id : string)
| StartFailed (message : string)
| StartCancelled
| StartTimedOut.
(** The branches of the driver's [select!]; the status is [None] when the reader
    has gone without one. *)
Inductive Wait :=
| TurnEnded (status : option SessionStatus)
| SteerTurn (instruction : string)
| CancelTurn
| TurnTimedOut.

Fixpoint wait_turn (thread_id turn_id : string) (waits : list Wait) (c : Conn) : option (Conn * SessionStatus) :=
  match waits with
  | [] => None
  | TurnEnded status :: _ => Some (c, default Failed status)
  | SteerTurn instruction :: waits => wait_turn thread_id turn_id waits (steer thread_id turn_id instruction c)
  | CancelTurn :: _ => Some (interrupt thread_id turn_id c, Interrupted)
  | TurnTimedOut :: _ => Some (interrupt thread_id turn_id (emit [ErrorEvent "agent run timed out" true] c), Interrupted)
  end.
Definition settle_startup (startup : Startup) (waits : list Wait) (c : Conn) : option (Conn * SessionStatus) :=
  match startup with
  | StartedTurn thread_id turn_id => wait_turn thread_id turn_id waits c
  | StartFailed message => Some (emit [ErrorEvent message false] c, Failed)
  | StartCancelled => Some (c, Interrupted)
  | StartTimedOut =>
      Some (emit [ErrorEvent "codex app-server did not finish starting before the startup timeout" true] c, Interrupted)
  end.
(** [quota]: what the last reading of the usage gave, with its event; [None] when
    it timed out. The reader is stopped after the end is sent. *)
Definition drive_server (spec : SessionSpec.t) (startup : Startup) (waits : list Wait) (quota : option (result string () * option Event)) (c : Conn) :
  option Conn :=
  '(c, status) ← settle_startup startup waits c;
  let c := emit (option_list (quota ≫= snd)) c in
  let read_ := match quota with Some (Ok _, _) => true | _ => false end in
  let c := if weekly_budget spec && negb read_
           then emit [ErrorEvent "Codex did not provide a final 7-day usage reading; this budgeted task was paused." true] c
           else c in
  Some (emit [SessionEnded status] c).
End AppServer.
Arguments Conn : clear implicits.
Arguments Ask : clear implicits.
Arguments Action : clear implicits.
Arguments Talk : clear implicits.
Arguments Sent : clear implicits.
