(* ===== verification/AppServerProps.v ===== *)
(** * What the app-server connection guarantees

    Every request gets one result, an approval is granted only by the approver,
    and a turn under a weekly budget starts with a reading of the quota. *)
From Stdlib Require Import Ascii String.
From stdpp Require Import gmap strings.
From S2P Require Import Prelude RustStr Json Enums Records Doubles Limits ThreadText Attachments GitText ThreadFallback JsonView ProviderText AdapterArgs ExecDrive CodexStream AppServerText AppServer ClaudeUsage.
#[local] Open Scope string_scope.
#[local] Open Scope Z_scope.

Section Conn.
Context {V : Type} `{JsonView V} `{!TextSerde (list Attachment.t)} `{!Codecs} `{LimitClock} `{Timestamps}.

(** ** The requests *)

Definition registered (c : Conn V) (id : Z) : Prop := 1 <= id < c.(next_id).

(** A registered request waits for its response or has its result. *)
Record requests_ok (count : Z) (c : Conn V) : Prop := {
  ids : c.(next_id) = 1 + count;
  waiting_registered : forall id, id ∈ c.(waiting) -> registered c id /\ c.(results) !! id = None;
  settled_registered : forall id, is_Some (c.(results) !! id) -> registered c id;
  unsent_registered : forall id, is_Some (c.(unsent) !! id) -> registered c id;
  settled : forall id, registered c id -> id ∈ c.(waiting) \/ is_Some (c.(results) !! id);
  closed_empty : c.(closed) = true -> c.(waiting) = ∅;
  closed_ended : c.(closed) = true <-> c.(reader) = ReaderEnded
}.

(** The results of sent requests stay. *)
Definition results_kept (c c' : Conn V) : Prop :=
  forall id r, c.(unsent) !! id = None -> c.(results) !! id = Some r -> c'.(results) !! id = Some r /\ c'.(unsent) !! id = None.

(** Only what concerns the requests. *)
Definition same_requests (c c' : Conn V) : Prop :=
  c'.(next_id) = c.(next_id) /\ c'.(closed) = c.(closed) /\ c'.(waiting) = c.(waiting) /\ c'.(unsent) = c.(unsent) /\
  c'.(results) = c.(results) /\ (c'.(reader) = ReaderEnded <-> c.(reader) = ReaderEnded).

Lemma same_requests_ok n c c' : same_requests c c' -> requests_ok n c -> requests_ok n c' /\ results_kept c c'.
Proof.
  intros (En & Ec & Ew & Eu & Er & Ed) [H1' H2' H3' H4' H5' H6' H7']. split.
  - split; unfold registered in *; rewrite ?En, ?Ec, ?Ew, ?Eu, ?Er; try done. by rewrite Ed.
  - intros id r. by rewrite Eu, Er.
Qed.

Lemma requests_refl n c : requests_ok n c -> requests_ok n c /\ results_kept c c.
Proof. intros Hc. by split; [|intros id r]. Qed.

Lemma register_ok n method params (c : Conn V) :
  0 <= n -> n + 1 < u64_max -> requests_ok n c ->
  requests_ok (n + 1) (register method params c) /\ results_kept c (register method params c).
Proof.
  intros Hn Hmax [Hid Hw Hs Hu Ht Hce Hcl]. unfold register. assert (u64_wrapping_add c.(next_id) 1 = c.(next_id) + 1) as Hnext.
  { unfold u64_wrapping_add, u64_max in *. rewrite Hid. apply Z.mod_small. lia. }
  assert (c.(results) !! c.(next_id) = None) as Hfresh.
  { apply eq_None_not_Some. intros [_ Hbad]%Hs. lia. }
  assert (c.(unsent) !! c.(next_id) = None) as Hfresh'.
  { apply eq_None_not_Some. intros [_ Hbad]%Hu. lia. }
  destruct (c.(closed)) eqn:Hc; (split; [split|]); unfold registered in *; cbn; rewrite ?Hnext; try lia; try done.
  - intros id Hi. rewrite (Hce eq_refl) in Hi. by apply not_elem_of_empty in Hi.
  - intros id. destruct (decide (id = c.(next_id))) as [->|]; [lia|]. rewrite lookup_insert_ne by done. intros Hi%Hs. lia.
  - intros id Hi%Hu. lia.
  - intros id Hi. right. destruct (decide (id = c.(next_id))) as [->|]; [by rewrite lookup_insert_eq|]. rewrite lookup_insert_ne by done.
    destruct (Ht id) as [Hx|]; [lia| |done]. by rewrite (Hce eq_refl) in Hx.
  - intros id r Hx Hy; cbn. split; [|done]. rewrite lookup_insert_ne; [done|]. intros <-. congruence.
  - intros id [->%elem_of_singleton|Hi]%elem_of_union; [split; [lia|done]|]. apply Hw in Hi as [??]. split; [lia|done].
  - intros id Hi%Hs. lia.
  - intros id. destruct (decide (id = c.(next_id))) as [->|]; [lia|]. rewrite lookup_insert_ne by done. intros Hi%Hu. lia.
  - intros id Hi. destruct (decide (id = c.(next_id))) as [->|]; [left; set_solver|]. destruct (Ht id) as [Hx|]; [lia|left; set_solver|by right].
  - intros id r Hx Hy; cbn. split; [done|]. rewrite lookup_insert_ne; [done|]. intros <-. congruence.
Qed.

Lemma send_request_ok n id (c : Conn V) : requests_ok n c -> requests_ok n (send_request id c) /\ results_kept c (send_request id c).
Proof.
  intros Hok. pose proof Hok as [Hid Hw Hs Hu Ht Hce Hcl]. unfold send_request. destruct (c.(unsent) !! id) as [[method params]|] eqn:Hun; [|by apply requests_refl].
  assert (registered c id) as Hreg by (apply Hu; by rewrite Hun).
  destruct (c.(writer_open)); (split; [split|]); unfold registered in *; cbn; try done.
  - intros i [? Hi%lookup_delete_Some]. apply Hu. destruct Hi as [_ Hi]. by rewrite Hi.
  - intros i r Hx Hy; cbn. split; [done|]. by rewrite lookup_delete_None; right.
  - intros i [Hi Hne]%elem_of_difference. rewrite lookup_insert_ne by set_solver. by apply Hw.
  - intros i. destruct (decide (i = id)) as [->|]; [done|]. rewrite lookup_insert_ne by done. apply Hs.
  - intros i [? Hi%lookup_delete_Some]. apply Hu. destruct Hi as [_ Hi]. by rewrite Hi.
  - intros i Hi. destruct (decide (i = id)) as [->|]; [right; by rewrite lookup_insert_eq|]. rewrite lookup_insert_ne by done.
    destruct (Ht i Hi); [left; set_solver|by right].
  - intros Hc. apply Hce in Hc. set_solver.
  - intros i r Hx Hy; cbn. rewrite lookup_insert_ne by congruence. split; [done|]. by rewrite lookup_delete_None; right.
Qed.

Lemma response_ok n value (c : Conn V) : requests_ok n c -> requests_ok n (on_response value c) /\ results_kept c (on_response value c).
Proof.
  intros Hok. pose proof Hok as [Hid Hw Hs Hu Ht Hce Hcl]. unfold on_response. destruct (_ ≫= _) as [id|]; [|by apply requests_refl].
  case_bool_decide as Hi; [|by apply requests_refl]. apply Hw in Hi as Hi'. destruct Hi' as [Hreg Hnone].
  (split; [split|]); unfold registered in *; cbn; try done.
  - intros i [Hj Hne]%elem_of_difference. rewrite lookup_insert_ne by set_solver. by apply Hw.
  - intros i. destruct (decide (i = id)) as [->|]; [done|]. rewrite lookup_insert_ne by done. apply Hs.
  - intros i Hj. destruct (decide (i = id)) as [->|]; [right; by rewrite lookup_insert_eq|]. rewrite lookup_insert_ne by done.
    destruct (Ht i Hj); [left; set_solver|by right].
  - intros Hc. apply Hce in Hc. set_solver.
  - intros i r Hx Hy; cbn. rewrite lookup_insert_ne by congruence. done.
Qed.

Lemma drained_lookup (w : gset Z) (results : gmap Z (result string V)) id :
  let drained := set_fold (fun id results => <[id := Err CONNECTION_CLOSED]> results) results w in
  (id ∈ w -> drained !! id = Some (Err CONNECTION_CLOSED)) /\ (id ∉ w -> drained !! id = results !! id).
Proof.
  apply (set_fold_ind_L (fun r w => (id ∈ w -> r !! id = Some (Err CONNECTION_CLOSED)) /\ (id ∉ w -> r !! id = results !! id))).
  - split; [set_solver|done].
  - intros x X r Hx [IH1 IH2]. destruct (decide (x = id)) as [->|].
    + rewrite lookup_insert_eq. split; [done|set_solver].
    + rewrite lookup_insert_ne by done. split; intros; [apply IH1|apply IH2]; set_solver.
Qed.

(** A connection that has ended with the waiting requests drained. *)
Lemma drained_ok n (c c' : Conn V) :
  c'.(next_id) = c.(next_id) -> c'.(closed) = true -> c'.(waiting) = ∅ -> c'.(unsent) = c.(unsent) -> c'.(reader) = ReaderEnded ->
  c'.(results) = set_fold (fun id results => <[id := Err CONNECTION_CLOSED]> results) c.(results) c.(waiting) ->
  requests_ok n c -> requests_ok n c' /\ results_kept c c'.
Proof.
  intros En Ec Ew Eu Ed Er [Hid Hw Hs Hu Ht Hce Hcl].
  assert (forall id, c'.(results) !! id = if bool_decide (id ∈ c.(waiting)) then Some (Err CONNECTION_CLOSED) else c.(results) !! id) as Hd
    by (intros id; rewrite Er; destruct (drained_lookup c.(waiting) c.(results) id); case_bool_decide; auto).
  split; [split|]; unfold registered in *; rewrite ?En, ?Ec, ?Ew, ?Eu, ?Ed; try done.
  - intros i. rewrite Hd. case_bool_decide; [intros _; by apply Hw|apply Hs].
  - intros i Hi. right. rewrite Hd. case_bool_decide; [done|]. by destruct (Ht i Hi).
  - intros i r Hx Hy; cbn. rewrite Hd, Eu. case_bool_decide as Hi; [|done]. apply Hw in Hi as [_ Hi]. congruence.
Qed.

Lemma end_ok n (c : Conn V) : requests_ok n c -> requests_ok n (on_end c) /\ results_kept c (on_end c).
Proof. unfold on_end. intros Hok. destruct (c.(terminal)); [|case_match]; by apply drained_ok. Qed.

Lemma server_request_same method value (c : Conn V) : same_requests c (handle_server_request method value c).
Proof. unfold handle_server_request. by repeat case_match. Qed.

Lemma notification_same now method value (c : Conn V) : c.(reader) = Reading -> same_requests c (on_notification now method value c).
Proof.
  intros Hr. unfold on_notification. destruct (handle_notification _ _ _) as [evs [[evs' status]|]]; split_and!; try done. cbn. by rewrite Hr.
Qed.

Lemma line_ok n now text (c : Conn V) :
  c.(reader) = Reading -> requests_ok n c -> requests_ok n (on_line now text c) /\ results_kept c (on_line now text c).
Proof.
  intros Hr Hok. unfold on_line. destruct (json_from_str _) as [value|]; [|by apply requests_refl].
  destruct (json_get value "id"), (get_str value "method"); [| | |by apply requests_refl].
  - by apply same_requests_ok; [apply server_request_same|].
  - by apply response_ok.
  - by apply same_requests_ok; [apply notification_same|].
Qed.

Definition registers (a : Action V) : Z := match a with Register _ _ => 1 | _ => 0 end.

Lemma act_ok n a (c : Conn V) :
  0 <= n -> n + 1 < u64_max -> requests_ok n c -> requests_ok (n + registers a) (act a c) /\ results_kept c (act a c).
Proof.
  intros Hn Hmax Hok. destruct a as [method params|id|method params| |now text| |k decision]; cbn [registers]; rewrite ?Z.add_0_r; cbn [act].
  - by apply register_ok.
  - by apply send_request_ok.
  - by apply same_requests_ok.
  - by apply same_requests_ok.
  - destruct (bool_decide _) eqn:Hr; [|by apply requests_refl]. destruct (negb _); [|by apply requests_refl].
    apply bool_decide_eq_true in Hr. by apply line_ok.
  - destruct (bool_decide _); [by apply end_ok|by apply requests_refl].
  - unfold decide_ask. destruct (_ !! k); [|by apply requests_refl]. by apply same_requests_ok.
Qed.

Lemma run_ok acts n (c : Conn V) :
  0 <= n -> n + Z.of_nat (length acts) < u64_max -> requests_ok n c ->
  exists n', requests_ok n' (run acts c) /\ results_kept c (run acts c) /\ n <= n' /\ n' <= n + Z.of_nat (length acts).
Proof.
  revert n c. induction acts as [|a acts IH]; intros n c Hn Hmax Hok; cbn [run foldl length] in *.
  - exists n. split_and!; [done|by intros id r|lia..].
  - assert (0 <= registers a <= 1) as Ha by (destruct a; cbn; lia).
    destruct (act_ok n a c) as [Hok1 Hk1]; [lia|lia|done|].
    destruct (IH (n + registers a) (act a c)) as (n' & Hok' & Hk' & Hn'); [lia|lia|done|]. exists n'. fold (run acts (act a c)) in *.
    split_and!; [done| |lia..]. intros id r Hu Hr. destruct (Hk1 id r Hu Hr). by apply Hk'.
Qed.

Lemma connect_ok room : requests_ok 0 (connect (V:=V) room).
Proof. split; unfold registered; cbn; try done; try lia; intros id; try (rewrite lookup_empty; by intros []); lia. Qed.

Lemma run_app acts acts' (c : Conn V) : run (acts ++ acts') c = run acts' (run acts c).
Proof. unfold run. apply foldl_app. Qed.

(** C10: the requests of the app-server connection under every interleaving of
    its tasks (the requester, the writer that may fail, the lines of the server
    and the end of its output, the approvals), as long as there are fewer steps
    than ids: a request either waits without a result or has exactly one; once it
    has been handed to the writer its result never changes; and when the output
    of the server has ended no request waits, whether it was registered before
    or is registered later. *)
Theorem requests_settle_once room acts more :
  Z.of_nat (length (acts ++ more)) < u64_max ->
  let c := run (V:=V) acts (connect room) in
  let c' := run more c in
  (forall id, registered c id -> (id ∈ c.(waiting) /\ c.(results) !! id = None) \/ ((id ∉ c.(waiting)) /\ is_Some (c.(results) !! id))) /\
  (forall id r, c.(unsent) !! id = None -> c.(results) !! id = Some r -> c'.(results) !! id = Some r) /\
  (c'.(reader) = ReaderEnded -> forall id, registered c' id -> is_Some (c'.(results) !! id)).
Proof.
  rewrite length_app. intros Hlen c c'.
  destruct (run_ok acts 0 (connect room)) as (n & Hok & _ & Hn); [lia|lia|apply connect_ok|]. fold c in Hok.
  destruct (run_ok more n c) as (n' & Hok' & Hk & _); [lia|lia|done|]. fold c' in Hok', Hk. split_and!.
  - intros id Hreg. destruct (decide (id ∈ c.(waiting))) as [Hi|Hi]; [left|right].
    + split; [done|]. by apply (waiting_registered _ _ Hok).
    + split; [done|]. by destruct (settled _ _ Hok id Hreg).
  - intros id r Hu Hr. by apply (Hk id r Hu Hr).
  - intros He id Hreg. apply (closed_ended _ _ Hok') in He. apply (closed_empty _ _ Hok') in He.
    destruct (settled _ _ Hok' id Hreg) as [Hi|]; [|done]. rewrite He in Hi. by apply not_elem_of_empty in Hi.
Qed.

(** ** Approvals *)

(** The result of a reply that grants nothing: a declining word, no permissions,
    or declining answers to every question. *)
Definition declining_answer (answer : string * V) : Prop :=
  exists label, answer.2 = json_object [("answers", json_array [json_str label])] /\ In (to_ascii_lowercase label) DENY_LABELS.
Definition grants_nothing (result_ : V) : Prop :=
  (exists word, result_ = json_object [("decision", json_str word)] /\ In word ["decline"; "cancel"; "denied"; "abort"]) \/
  (exists scope, result_ = json_object [("permissions", json_object []); ("scope", scope)]) \/
  result_ = json_object [("action", json_str "cancel")] \/
  (exists answers, result_ = json_object [("answers", json_object answers)] /\ Forall declining_answer answers).

(** One that says what an approver who allows has decided. *)
Definition allowing_answer (answer : string * V) : Prop :=
  exists label, answer.2 = json_object [("answers", json_array [json_str label])] /\ In (to_ascii_lowercase label) ALLOW_LABELS.
Definition grants (params result_ : V) : Prop :=
  (exists word, result_ = json_object [("decision", json_str word)] /\
     In word ["accept"; "acceptForSession"; "approved"; "approved_for_session"]) \/
  (exists scope, result_ = json_object [("permissions", default (json_object []) (json_get params "permissions")); ("scope", scope)]) \/
  (exists answers, result_ = json_object [("answers", json_object answers)] /\ Forall allowing_answer answers).

Lemma find_label_in labels (options : list V) label : find_label labels options = Some label -> In (to_ascii_lowercase label) labels.
Proof.
  unfold find_label. intros Hh. apply head_Some_elem_of, list_elem_of_omap in Hh as (o & _ & (l & _ & Hl)%bind_Some).
  destruct (existsb _ _) eqn:He; [|done]. injection Hl as ->. apply existsb_exists in He as (x & Hx & Heq). by apply String.eqb_eq in Heq as ->.
Qed.

(** The answers of a choice are labels of the two kinds. *)
Definition choice_ok (choice : ApprovalQuestionChoice.t) : Prop :=
  In (to_ascii_lowercase choice.(ApprovalQuestionChoice.allow)) ALLOW_LABELS /\
  In (to_ascii_lowercase choice.(ApprovalQuestionChoice.deny)) DENY_LABELS.

Lemma choices_ok (params : V) choices : approval_question_choices params = Some choices -> Forall choice_ok choices.
Proof.
  unfold approval_question_choices. intros (questions & _ & Hc)%bind_Some. destruct (bool_decide _); [done|].
  apply mapM_Some_1 in Hc. apply Forall_forall. intros choice [k Hk]%list_elem_of_lookup.
  eapply Forall2_lookup_r in Hc as (q & _ & Hq); [|done].
  unfold approval_question_choice in Hq. apply bind_Some in Hq as (id & _ & (os & _ & (allow & Ha & (deny & Hd & [= <-])%bind_Some)%bind_Some)%bind_Some).
  split; by eapply find_label_in.
Qed.

Lemma assoc_set_forall (P : string * V -> Prop) k x fields : P (k, x) -> Forall P fields -> Forall P (assoc_set k x fields).
Proof. intros Hp. induction 1 as [|[k' y] fields Hy Hf IH]; cbn; [by constructor|]. by destruct (String.eqb k k'); constructor. Qed.

Lemma question_answers_forall (P : string * V -> Prop) decision choices :
  (forall choice, choice ∈ choices -> P (question_answer decision choice)) -> Forall P (question_answers decision choices).
Proof.
  unfold question_answers. intros Hp. assert (Forall P (@nil (string * V))) as Hnil by constructor. revert Hnil. generalize (@nil (string * V)).
  induction choices as [|choice choices IH]; intros answers Ha; cbn [foldl]; [done|]. apply IH; [intros; apply Hp; by right|].
  pose proof (Hp choice (list_elem_of_here _ _)) as Hc. destruct (question_answer decision choice) as [id answer]. by apply assoc_set_forall.
Qed.

Lemma approval_reply method decision (params : V) :
  if ApprovalDecision.is_allow decision then grants params (approval_response method decision params)
  else grants_nothing (approval_response method decision params).
Proof.
  unfold approval_response, grants, grants_nothing. destruct (String.eqb method _); [destruct decision; cbn; eauto|].
  destruct (starts_with _ _), decision; cbn; left; eexists; (split; [done|]); auto 10.
Qed.

Lemma question_reply decision choices :
  Forall choice_ok choices ->
  let result_ := json_object (V:=V) [("answers", json_object (question_answers decision choices))] in
  forall params, if ApprovalDecision.is_allow decision then grants params result_ else grants_nothing result_.
Proof.
  intros Hc result_ params. rewrite Forall_forall in Hc. unfold grants, grants_nothing.
  destruct (ApprovalDecision.is_allow decision) eqn:Hd; do 2 right; [|right]; eexists; (split; [done|]);
    apply question_answers_forall; intros choice [Ha Hn]%Hc; unfold question_answer; rewrite Hd; eexists; by split.
Qed.

(** C11: a request of the app-server is answered under its own id and granted by
    nobody but the approver: it either gets one line at once, which is an error or
    a result that grants nothing, or it becomes one question to the approver and
    no line; the reply to that question carries the id, grants nothing when the
    decision is to deny or to abort, and says what was granted when it is to
    allow. *)
Theorem approvals_fail_closed method value (c : Conn V) :
  let c' := handle_server_request method value c in
  let id := get_or_null value "id" in
  (exists line, c'.(lines) = (if c.(writer_open) then c.(lines) ++ [json_to_string line] else c.(lines))%list /\ c'.(asks) = c.(asks) /\
     ((exists result_, line = reply id result_ /\ grants_nothing result_) \/ line = unsupported_reply id method)) \/
  (exists ask, c'.(asks) = (c.(asks) ++ [ask])%list /\ c'.(lines) = c.(lines) /\ (asked ask).(ApprovalAsk.input) = get_or_null value "params" /\
     forall decision, exists result_, ask_reply ask decision = reply id result_ /\
       if ApprovalDecision.is_allow decision then grants (get_or_null value "params") result_ else grants_nothing result_).
Proof.
  intros c' id. subst c'. unfold handle_server_request. fold id. set (params := get_or_null value "params").
  destruct (String.eqb method "item/tool/requestUserInput").
  - destruct (approval_question_choices params) as [choices|] eqn:Hq.
    + right. eexists. split_and!; [done..|]. intros decision. eexists. split; [done|]. apply question_reply. by eapply choices_ok.
    + left. eexists. split_and!; [done..|]. left. eexists. split; [done|]. do 3 right. exists []. by split.
  - destruct (String.eqb method "mcpServer/elicitation/request").
    + left. eexists. split_and!; [done..|]. left. eexists. split; [done|]. by do 2 right; left.
    + destruct (approval_ask_for method params) as [ask|] eqn:Ha.
      * right. exists (AskApproval id method params ask). split_and!; [done..| |].
        { cbn. revert Ha. unfold approval_ask_for. repeat case_match; by intros [= <-]. }
        intros decision. eexists. split; [done|]. apply approval_reply.
      * left. eexists. split_and!; [done..|]. by right.
Qed.

(** ** The start of a turn *)

Definition reading_announced (t : Talk V) : Prop :=
  exists used reset, QuotaWindow Weekly used reset false ∈ t.(posted).(received).
(** The requests a start may send. *)
Definition start_request (spec : SessionSpec.t) (resume : option string) (s : Sent V) : Prop :=
  match s with
  | SentRequest method params =>
      method <> "turn/start" /\ (method = "thread/start" -> params = thread_start_params spec) /\
      (method = "thread/resume" -> exists prior, resume = Some prior /\ params = thread_resume_params spec prior)
  | SentNotification method _ => method = "initialized"
  end.
(** A talk that has not sent the prompt. *)
Definition before_prompt (spec : SessionSpec.t) (resume : option string) (t : Talk V) : Prop :=
  Forall (start_request spec resume) t.(sent) /\ t.(posted).(room) = None.

Lemma call_before spec resume method params t :
  start_request spec resume (SentRequest method params) -> before_prompt spec resume t -> before_prompt spec resume (call method params t).2.
Proof. intros Hs [Ht Hr]. split; [|done]. cbn. apply Forall_app. split; [done|]. by apply Forall_singleton. Qed.

Lemma open_thread_before spec resume t :
  before_prompt spec resume t -> before_prompt spec resume (open_thread spec resume t).2.
Proof.
  intros Ht. assert (start_request spec resume (SentRequest "thread/start" (thread_start_params spec))) as Hs by done.
  unfold open_thread. destruct resume as [prior|]; [|by apply call_before].
  assert (before_prompt spec (Some prior) (call "thread/resume" (thread_resume_params spec prior) t).2) as Hr
    by (apply call_before; [split; [done|]; split; [done|]; by eexists|done]).
  destruct (call "thread/resume" _ t) as [[v|e] t']; [done|]. by apply call_before.
Qed.

Lemma refresh_before spec resume t :
  before_prompt spec resume t -> let '(r, t') := refresh_quota true false t in
  before_prompt spec resume t' /\ (r = Ok () -> reading_announced t').
Proof.
  intros Ht. assert (before_prompt spec resume (call "account/rateLimits/read" (json_object []) t).2) as Hc by (by apply call_before).
  unfold refresh_quota. destruct (call _ _ t) as [[quota|e] t']; [|by split].
  destruct (parse_quota_window quota) as [ev|] eqn:Hq; [|by split]. cbn [snd] in Hc. destruct Hc as [Hs Hr].
  assert (exists used reset, as_sample false ev = QuotaWindow Weekly used reset false) as (used & reset & ->).
  { unfold parse_quota_window in Hq. apply bind_Some in Hq as (? & _ & (? & _ & (? & _ & [= <-])%bind_Some)%bind_Some). cbn. by do 2 eexists. }
  cbn. split; [split; [done|]|intros _; exists used, reset]; cbn; unfold post, send; rewrite Hr; [done|]. cbn. set_solver.
Qed.

(** C12: the start of an app-server turn. The prompt is in no request but the last
    one, which is sent when the start succeeds, for the thread it reports, with
    the sandbox and the approval policy of the run's permission; a thread is
    started or resumed under the same permission; and under a weekly budget
    nothing of the prompt is sent before a reading of the weekly quota has been
    announced. *)
Theorem turn_start_guarded version spec resume answers :
  let '(r, t) := run_turn (V:=V) version spec resume (mkTalk answers [] (open_channel None)) in
  Forall (start_request spec resume) t.(sent) \/
  exists before_ thread_id, t.(sent) = (before_ ++ [SentRequest "turn/start" (turn_start_params spec thread_id)])%list /\
    Forall (start_request spec resume) before_ /\ (weekly_budget spec = true -> reading_announced t) /\
    (forall started, r = Ok started -> started.1 = thread_id).
Proof.
  set (t0 := mkTalk _ _ _). assert (before_prompt spec resume t0) as H0' by (split; [constructor|done]).
  assert (forall thread_id t1, before_prompt spec resume t1 -> (weekly_budget spec = true -> reading_announced t1) ->
    let '(r, t) := start_turn spec thread_id t1 in
    exists before_ thread_id, t.(sent) = (before_ ++ [SentRequest "turn/start" (turn_start_params spec thread_id)])%list /\
      Forall (start_request spec resume) before_ /\ (weekly_budget spec = true -> reading_announced t) /\
      (forall started, r = Ok started -> started.1 = thread_id)) as Hstart.
  { intros thread_id t1 [Hs _] Hw. unfold start_turn, call, and_then. destruct (default _ _) as [turn|e];
      exists t1.(sent), thread_id; split_and!; try done. by intros ? [= <-]. }
  assert (before_prompt spec resume (call "initialize" (client_info version) t0).2) as H1' by (by apply call_before).
  unfold run_turn, and_then at 1. destruct (call "initialize" _ t0) as [[v|e] t1]; [|left; by destruct H1'].
  assert (before_prompt spec resume (tell "initialized" (json_object []) t1)) as H2'
    by (destruct H1' as [Hs Hr]; split; [apply Forall_app; split; [done|]; by apply Forall_singleton|done]).
  apply open_thread_before in H2'. unfold and_then at 1. destruct (open_thread _ _ _) as [[thread|e] t2]; [|left; by destruct H2'].
  destruct (id_in thread _ _) as [thread_id|]; [|left; by destruct H2'].
  assert (before_prompt spec resume (announce (SessionStarted thread_id) t2)) as H3'
    by (destruct H2' as [Hs Hr]; split; [done|]; cbn in *; unfold post, send; by rewrite Hr).
  destruct (weekly_budget spec) eqn:Hw.
  - apply refresh_before in H3'. destruct (refresh_quota true false _) as [[[]|e] t3]; destruct H3' as [Hb Hread]; cbn [and_then].
    + specialize (Hstart thread_id t3 Hb (fun _ => Hread eq_refl)). destruct (start_turn _ _ _). by right.
    + left. by destruct Hb.
  - specialize (Hstart thread_id _ H3'). destruct (start_turn _ _ _). right. by apply Hstart.
Qed.
End Conn.

(** A request in flight when the server ends, and one after it. *)
#[local] Existing Instance usage_clock.
#[local] Instance whole_seconds : Timestamps := { from_timestamp s := Some (s * 1000) }.
Definition settle_acts : list (Action Tree.t) := [Register "initialize" Tree.JNull; SendRequest 1].
Definition settle_more : list (Action Tree.t) := [ServerEnds; Register "turn/start" Tree.JNull].

Lemma requests_settle_once_witness :
  let c' := run settle_more (run settle_acts (connect None)) in
  c'.(next_id) = 3 /\ (forall id, registered c' id -> is_Some (c'.(results) !! id)).
Proof.
  split; [by vm_compute|].
  apply (requests_settle_once None settle_acts settle_more); [by vm_compute|by vm_compute].
Defined.
