(* ===== verification/ProviderAccounts.v ===== *)
(** * The pool of provider accounts (am-core/src/provider_accounts.rs, am-db/src/repos/provider_account.rs)

    The accounts of the limit policy, their states, their profiles and tokens,
    the checks of their sign-in, and the choice of the account of a run.  The
    provider programs, the credential vault and the file system are class
    [AccountHost]; [ts] is the time of a call in milliseconds. *)
From Stdlib Require Import Ascii String.
From stdpp Require Import strings gmap.
From S2P Require Import Prelude RustStr Json Enums Records WorkGraphDb Limits ThreadText Attachments GitText CoreWorld ThreadFallback TaskRuns JsonView ProviderText.
#[local] Open Scope string_scope.
#[local] Open Scope Z_scope.

(** ** The states of the accounts *)
Module ProviderAccountRecord.
Record t := mk { account_id : string; availability : AvailabilityState.t; reset_at : option Z; limit_strikes : Z; last_checked : option Z }.
End ProviderAccountRecord.
Module AccountRow.
Record t := mk { account_id : string; availability : string; reset_at : option Z; limit_strikes : Z; last_checked : option Z }.
End AccountRow.

Definition account_try_from (row : AccountRow.t) : result DbError ProviderAccountRecord.t :=
  availability ← decode (T:=AvailabilityState.t) row.(AccountRow.availability);
  mret (ProviderAccountRecord.mk row.(AccountRow.account_id) availability row.(AccountRow.reset_at) row.(AccountRow.limit_strikes)
          row.(AccountRow.last_checked)).

Module ProviderAccountAuthLaunch.
Record t := mk {
  account_id : string;
  label : string;
  agent : AgentKind.t;
  binary : string;
  args : list string;
  env : list (string * string);
  instructions : string
}.
End ProviderAccountAuthLaunch.

(** ** The outside *)
Module Probe.
Record t := mk { installed : bool; authenticated : bool; detail : option string; email : option string; plan : option string }.
End Probe.

Class AccountHost := {
  data_dir : string;
  find_binary : string -> option string;
  (** the status command of a provider in an environment: what it printed when it
      succeeded before its deadline *)
  status_output : Z -> string -> list string -> list (string * string) -> option (string * string);
  (** [CODEX_HOME], or the default one below the home directory *)
  default_codex_home : option string;
  (** a text file of at most so many bytes *)
  small_file : string -> Z -> option string;
  (** base64, URL-safe and without padding, of a text *)
  base64url : string -> option string;
  (** the failures of an entry of the vault, of its use, and of the file system *)
  entry_error : string -> option string;
  vault_error : string -> option string;
  make_dir : string -> result string ();
  remove_dir : string -> result string ();
  (** the exchange that redeems an earned reset *)
  consume_reset_credit : list (string * string) -> result string bool
}.

(** The key of a cached check. *)
Abbreviation ProbeKey := (string * AgentKind.t * ProviderAccountAuthMode.t)%type.

Record Pool := mkPool {
  stored_policy : option string;
  account_states : list AccountRow.t;
  tokens : gmap string string;
  cached_probes : list (ProbeKey * (Z * Probe.t));
  (** the reset deadlines the scheduler was told of *)
  deadlines : list Z
}.

Section Pool.
Context `{!TextSerde LimitPolicy.t} `{AccountHost} `{LimitClock} {V : Type} `{JsonView V}.
Abbreviation PoolM := (M Pool CoreError).

(** *** The repository *)
Definition row_named (id : string) (row : AccountRow.t) : bool := eq_str row.(AccountRow.account_id) id.
Definition put_states (rows : list AccountRow.t) (s : Pool) : Pool := mkPool s.(stored_policy) rows s.(tokens) s.(cached_probes) s.(deadlines).
Definition in_db {A} (r : result DbError A) : PoolM A := lift (match r with Ok a => Ok a | Err e => Err (Db e) end).

Definition get_state (id : string) : PoolM (option ProviderAccountRecord.t) :=
  row ← gets (fun s => find (row_named id) s.(account_states));
  in_db (transpose (account_try_from <$> row)).
Definition list_states : PoolM (list ProviderAccountRecord.t) :=
  rows ← gets account_states;
  in_db (collect (account_try_from <$> rows)).
Definition upsert_state (row : AccountRow.t) : PoolM () :=
  modify (fun s => put_states (replace_or_push (row_named row.(AccountRow.account_id)) row s.(account_states)) s).
Definition mark_limited (ts : Z) (id : string) (reset_at : option Z) (strikes : Z) : PoolM () :=
  upsert_state (AccountRow.mk id "limited" reset_at strikes (Some ts)).
Definition mark_available (ts : Z) (id : string) : PoolM () := upsert_state (AccountRow.mk id "available" None 0 (Some ts)).
Definition delete_state (id : string) : PoolM () :=
  modify (fun s => put_states (filter (fun row => row_named id row = false) s.(account_states)) s).

(** *** The stored policy *)
Definition policy_of (s : Pool) : LimitPolicy.t := normalize_limit_policy (parsed default_limit_policy s.(stored_policy)).
Definition get_policy : PoolM LimitPolicy.t := gets policy_of.
Definition set_policy (policy : LimitPolicy.t) : PoolM () :=
  modify (fun s => mkPool (Some (to_text (normalize_limit_policy policy))) s.(account_states) s.(tokens) s.(cached_probes) s.(deadlines)).
Definition with_accounts (accounts : list ProviderAccount.t) (dismissed : list AgentKind.t) (p : LimitPolicy.t) : LimitPolicy.t :=
  LimitPolicy.mk p.(LimitPolicy.auto_switch) p.(LimitPolicy.switch_back) p.(LimitPolicy.agent_priority) p.(LimitPolicy.agent_profiles)
    accounts dismissed p.(LimitPolicy.resume_with_earliest) p.(LimitPolicy.unknown_reset_retry_secs) p.(LimitPolicy.keep_awake).
Definition NOT_FOUND : CoreError := Other "Provider account was not found".
Definition UNSUPPORTED : CoreError := Other "Only Codex and Claude accounts are supported".

Definition validate_id (id : string) : PoolM () :=
  fail_when ((len id <? 8) || (128 <? len id) || negb (Limits.all_chars id_char id)) (Other "Invalid provider account identifier").

(** *** Accounts, profiles and tokens *)
Definition is_codex (agent : AgentKind.t) : bool := bool_decide (agent = AgentKind.Codex).
Definition supported (agent : AgentKind.t) : bool := is_codex agent || bool_decide (agent = AgentKind.ClaudeCode).
Definition system_account_id (agent : AgentKind.t) : string := "system-" +:+ AgentKind.as_str agent.
Definition cli_name (agent : AgentKind.t) : string := if is_codex agent then "codex" else "claude".
Definition system_account (agent : AgentKind.t) : ProviderAccount.t :=
  ProviderAccount.mk (system_account_id agent) "Default" agent true false ProviderAccountAuthMode.System.
Definition system_of (agent : AgentKind.t) (a : ProviderAccount.t) : bool :=
  bool_decide (a.(ProviderAccount.agent) = agent) && is_system a.
Definition provider_binary (agent : AgentKind.t) : PoolM string :=
  _ ← fail_when (negb (supported agent)) UNSUPPORTED;
  lift_opt (find_binary (cli_name agent)) (Other (AgentKind.label agent +:+ " CLI is not installed")).

Definition account_by_id (id : string) : PoolM ProviderAccount.t :=
  _ ← validate_id id;
  policy ← get_policy;
  lift_opt (find (fun a => eq_str a.(ProviderAccount.id) id) policy.(LimitPolicy.accounts)) NOT_FOUND.

(** The profile directory; [None] is the default profile of the provider. *)
Definition profile_dir (account : ProviderAccount.t) : option string :=
  if is_system account then None
  else Some (data_dir +:+ "/provider-accounts/" +:+ account.(ProviderAccount.id) +:+
             (if is_codex account.(ProviderAccount.agent) then "/codex-home" else "/claude-home")).
Definition account_home (account : ProviderAccount.t) : PoolM (option string) :=
  _ ← validate_id account.(ProviderAccount.id); mret (profile_dir account).
Definition ensure_account_home (account : ProviderAccount.t) : PoolM (option string) :=
  path ← account_home account;
  match path with
  | Some dir => match make_dir dir with
                | Ok _ => mret path
                | Err e => throw (Other ("could not create account home: " +:+ e))
                end
  | None => mret None
  end.

Definition failed_with (prefix : string) (e : option string) : PoolM () :=
  match e with Some e => throw (Other (prefix +:+ e)) | None => mret () end.
Definition KEYRING : string := "OS credential vault error: ".
Definition token_entry (id : string) : PoolM () := _ ← validate_id id; failed_with KEYRING (entry_error id).
Definition uses_token (account : ProviderAccount.t) : bool :=
  bool_decide (account.(ProviderAccount.auth_mode) = ProviderAccountAuthMode.OauthToken).
Definition account_token (account : ProviderAccount.t) : PoolM (option string) :=
  if negb (uses_token account) then mret None
  else
    _ ← token_entry account.(ProviderAccount.id);
    _ ← failed_with KEYRING (vault_error account.(ProviderAccount.id));
    token ← gets (fun s => s.(tokens) !! account.(ProviderAccount.id));
    mret (match token with Some t => if is_empty (trim t) then None else Some t | None => None end).

Definition selector_env (account : ProviderAccount.t) (home token : option string) : list (string * string) :=
  match home with
  | None =>
      if bool_decide (account.(ProviderAccount.agent) = AgentKind.ClaudeCode) then [("CLAUDE_CODE_DISABLE_FAST_MODE", "1")] else []
  | Some home =>
      if is_codex account.(ProviderAccount.agent) then
        [("CODEX_HOME", home); ("OPENAI_API_KEY", ""); ("CODEX_API_KEY", ""); ("CODEX_ACCESS_TOKEN", "")]
      else
        [("CLAUDE_CONFIG_DIR", home); ("ANTHROPIC_API_KEY", ""); ("ANTHROPIC_AUTH_TOKEN", "");
         ("CLAUDE_CODE_OAUTH_TOKEN", default "" token); ("CLAUDE_CODE_DISABLE_FAST_MODE", "1")]
  end.

(** *** What a check shows *)
Definition has_white_space (s : string) : bool := existsb (fun w => contains w s) white_space.
Definition ascii_control (a : ascii) : bool := (N_of_ascii a <? 32)%N || (N_of_ascii a =? 127)%N.
Definition has_control (s : string) : bool :=
  negb (Limits.all_chars (fun a => negb (ascii_control a)) s) ||
  existsb (fun n => contains (bytes_of [194; n]) s) (seqZ 128 32).
Definition display_email (value : option string) : option string :=
  value ← value;
  let email := trim value in
  '(local, domain) ← split_once "@" email;
  if negb (is_empty local) && negb (is_empty domain) && negb (contains "@" domain) && (len email <=? 320) &&
     negb (has_white_space email) && negb (has_control email)
  then Some email else None.
Definition plan_char (a : ascii) : bool := is_ascii_alphanumeric a || Ascii.eqb a "_" || Ascii.eqb a "-".
Definition display_plan (value : option string) : option string :=
  value ← value;
  let plan := trim value in
  if negb (is_empty plan) && (len plan <=? 32) && Limits.all_chars plan_char plan then Some (to_ascii_lowercase plan) else None.

Definition parse_status (text : string) : option V := match json_from_str text with Ok v => Some v | Err _ => None end.
Definition claude_logged_in (status : V) : bool :=
  bool_decide (get_either status "loggedIn" "logged_in" ≫= json_as_bool = Some true).
Definition login_status_authenticated (agent : AgentKind.t) (stdout stderr : string) : bool :=
  if is_codex agent then
    let text := lowercase (stdout +:+ newline +:+ stderr) in contains "logged in" text && negb (contains "not logged in" text)
  else is_some_and (parse_status stdout) claude_logged_in.
Definition claude_account_identity (output : string) : option string * option string :=
  match parse_status output with
  | Some status =>
      if claude_logged_in status
      then (display_email (get_str status "email"), display_plan (get_str status "subscriptionType"))
      else (None, None)
  | None => (None, None)
  end.

Definition trim_padding (s : string) : string := trim_end_chars (Ascii.eqb "=") s.
Definition id_token_claims (token : string) : option V :=
  if 65536 <? len token then None
  else match split_on "." token with
       | [_; payload; _] => text ← base64url (trim_padding payload); parse_status text
       | _ => None
       end.
Definition codex_id_token_identity (token : string) : option string * option string :=
  match id_token_claims token with
  | Some claims =>
      (display_email (opt_or (json_get claims "email") (pointer claims ["https://api.openai.com/profile"; "email"]) ≫= json_as_str),
       display_plan (pointer_str claims ["https://api.openai.com/auth"; "chatgpt_plan_type"]))
  | None => (None, None)
  end.
Definition codex_account_identity (home : string) : option (option string * option string) :=
  text ← small_file (home +:+ "/auth.json") 262144;
  auth ← parse_status text;
  token ← pointer_str auth ["tokens"; "id_token"];
  Some (codex_id_token_identity token).

Definition failed_probe (detail : string) : Probe.t := Probe.mk true false (Some detail) None None.
Definition UNVERIFIED : string := "Could not verify sign-in. Sign in again or retry the account check.".
Definition status_args (agent : AgentKind.t) : list string := if is_codex agent then ["login"; "status"] else ["auth"; "status"; "--json"].
Definition probe_cli_account (ts : Z) (account : ProviderAccount.t) (home : option string) (binary : string) : Probe.t :=
  match status_output ts binary (status_args account.(ProviderAccount.agent)) (selector_env account home None) with
  | Some (stdout, stderr) =>
      let ok := login_status_authenticated account.(ProviderAccount.agent) stdout stderr in
      let '(email, plan) :=
        if negb ok then (None, None)
        else if is_codex account.(ProviderAccount.agent)
             then default (None, None) (opt_or home default_codex_home ≫= codex_account_identity)
             else claude_account_identity stdout in
      Probe.mk true ok (if ok then None else Some "Not signed in") email plan
  | None => failed_probe UNVERIFIED
  end.
Definition probe_provider_account (ts : Z) (account : ProviderAccount.t) (home : option string) : PoolM Probe.t :=
  let binary := find_binary (cli_name account.(ProviderAccount.agent)) in
  if uses_token account then
    token ← attempt (account_token account);
    let authenticated := bool_decide (is_Some (mjoin token)) in
    mret (Probe.mk (bool_decide (is_Some binary)) authenticated
            (if authenticated then None else Some "Add a setup token to finish signing in") None None)
  else
    mret match binary with
         | Some binary => probe_cli_account ts account home binary
         | None => Probe.mk false false (Some (AgentKind.label account.(ProviderAccount.agent) +:+ " CLI is not installed")) None None
         end.

(** *** Checks, cached for twenty seconds *)
Definition PROBE_TTL : Z := 20 * 1000.
Definition probe_key (account : ProviderAccount.t) : ProbeKey :=
  (account.(ProviderAccount.id), account.(ProviderAccount.agent), account.(ProviderAccount.auth_mode)).
Definition key_is (k : ProbeKey) (entry : ProbeKey * (Z * Probe.t)) : bool := bool_decide (entry.1 = k).
Definition cached_probe (ts : Z) (account : ProviderAccount.t) (s : Pool) : option Probe.t :=
  '(_, (at_, probe)) ← find (key_is (probe_key account)) s.(cached_probes);
  if ts - at_ <? PROBE_TTL then Some probe else None.
Definition put_probes (probes : list (ProbeKey * (Z * Probe.t))) (s : Pool) : Pool :=
  mkPool s.(stored_policy) s.(account_states) s.(tokens) probes s.(deadlines).
Definition invalidate_account_probes : PoolM () := modify (put_probes []).

Fixpoint map_M {A B} (f : A -> PoolM B) (l : list A) : PoolM (list B) :=
  match l with
  | [] => mret []
  | a :: l => b ← f a; bs ← map_M f l; mret (b :: bs)
  end.
Definition fresh_probe (ts : Z) (account : ProviderAccount.t) : PoolM Probe.t :=
  home ← attempt (ensure_account_home account);
  probe ← match home with
          | Some home => probe_provider_account ts account home
          | None => mret (failed_probe "Account storage is unavailable")
          end;
  _ ← modify (fun s => put_probes (replace_or_push (key_is (probe_key account)) (probe_key account, (ts, probe)) s.(cached_probes)) s);
  mret probe.
(** The cache is read before any check. *)
Definition probe_accounts (ts : Z) (accounts : list ProviderAccount.t) : PoolM (list Probe.t) :=
  cached ← gets (fun s => (fun account => (account, cached_probe ts account s)) <$> accounts);
  map_M (fun '(account, probe) => match probe with Some probe => mret probe | None => fresh_probe ts account end) cached.

(** *** The accounts and their statuses *)
Definition dismissed (agent : AgentKind.t) (p : LimitPolicy.t) : bool :=
  bool_decide (agent ∈ p.(LimitPolicy.dismissed_system_accounts)).
Definition wants_system (policy : LimitPolicy.t) (agent : AgentKind.t) : bool :=
  negb (dismissed agent policy) && negb (existsb (system_of agent) policy.(LimitPolicy.accounts)).
Definition selects {A} `{EqDecision A} (only : option A) (a : A) : bool :=
  match only with Some b => bool_decide (b = a) | None => true end.

(** The system accounts found signed in; the policy is read again under the lock. *)
Fixpoint add_found (found : list (ProviderAccount.t * Probe.t)) (p : LimitPolicy.t) : LimitPolicy.t * bool :=
  match found with
  | [] => (p, false)
  | (account, probe) :: found =>
      if probe.(Probe.authenticated) && wants_system p account.(ProviderAccount.agent)
      then let '(p, _) := add_found found (with_accounts (p.(LimitPolicy.accounts) ++ [account]) p.(LimitPolicy.dismissed_system_accounts) p) in
           (p, true)
      else add_found found p
  end.
Definition sync_system_provider_accounts_for (ts : Z) (only : option AgentKind.t) : PoolM () :=
  policy ← get_policy;
  let candidates := system_account <$>
    filter (fun agent => selects only agent && wants_system policy agent = true) [AgentKind.Codex; AgentKind.ClaudeCode] in
  if bool_decide (candidates = []) then mret ()
  else
    probes ← probe_accounts ts candidates;
    policy ← get_policy;
    let '(policy, added) := add_found (zip candidates probes) policy in
    if (added : bool) then set_policy policy else mret ().

Definition passed (ts : Z) (reset_at : option Z) : bool := is_some_and reset_at (fun at_ => at_ <=? ts).
Definition account_status (ts : Z) (account : ProviderAccount.t) (probe : Probe.t) : PoolM ProviderAccountStatus.t :=
  state ← get_state account.(ProviderAccount.id);
  let availability := from_option ProviderAccountRecord.availability AvailabilityState.Unknown state in
  let reset_at := state ≫= ProviderAccountRecord.reset_at in
  '(availability, reset_at) ←
    (if bool_decide (availability = AvailabilityState.Limited) && passed ts reset_at then
       _ ← mark_available ts account.(ProviderAccount.id); mret (AvailabilityState.Available, None)
     else if probe.(Probe.authenticated) && bool_decide (availability = AvailabilityState.Unknown)
          then mret (AvailabilityState.Available, reset_at)
          else mret (availability, reset_at));
  mret (ProviderAccountStatus.mk account probe.(Probe.authenticated) probe.(Probe.email) probe.(Probe.plan) availability reset_at
          probe.(Probe.detail) probe.(Probe.installed) false).

Definition account_ready (status : ProviderAccountStatus.t) : bool :=
  status.(ProviderAccountStatus.installed) && status.(ProviderAccountStatus.account).(ProviderAccount.enabled) &&
  status.(ProviderAccountStatus.authenticated) &&
  negb (bool_decide (status.(ProviderAccountStatus.availability) = AvailabilityState.Limited)).
Definition activated (s : ProviderAccountStatus.t) : ProviderAccountStatus.t :=
  ProviderAccountStatus.mk s.(ProviderAccountStatus.account) s.(ProviderAccountStatus.authenticated) s.(ProviderAccountStatus.email)
    s.(ProviderAccountStatus.plan) s.(ProviderAccountStatus.availability) s.(ProviderAccountStatus.reset_at) s.(ProviderAccountStatus.detail)
    s.(ProviderAccountStatus.installed) true.
(** The first ready account of each provider. *)
Fixpoint mark_active (statuses : list ProviderAccountStatus.t) (seen : list AgentKind.t) : list ProviderAccountStatus.t :=
  match statuses with
  | [] => []
  | status :: statuses =>
      let agent := status.(ProviderAccountStatus.account).(ProviderAccount.agent) in
      if negb (bool_decide (agent ∈ seen)) && account_ready status then activated status :: mark_active statuses (agent :: seen)
      else status :: mark_active statuses seen
  end.
Definition provider_account_statuses_for (ts : Z) (agent : option AgentKind.t) : PoolM (list ProviderAccountStatus.t) :=
  _ ← sync_system_provider_accounts_for ts agent;
  policy ← get_policy;
  let accounts := filter (fun a => selects agent a.(ProviderAccount.agent) = true) policy.(LimitPolicy.accounts) in
  probes ← probe_accounts ts accounts;
  statuses ← map_M (fun '(account, probe) => account_status ts account probe) (zip accounts probes);
  mret (mark_active statuses []).

(** *** The choice *)
Definition ready_runtime (statuses : list ProviderAccountStatus.t) : PoolM (option AccountRuntime.t) :=
  match find account_ready statuses with
  | Some status =>
      let account := status.(ProviderAccountStatus.account) in
      home ← ensure_account_home account;
      token ← account_token account;
      mret (Some (AccountRuntime.mk account.(ProviderAccount.id) account.(ProviderAccount.agent) (selector_env account home token)
                    (if is_system account then None else Some account.(ProviderAccount.id))))
  | None => mret None
  end.
Fixpoint earliest (resets : list (option Z)) : option Z :=
  match resets with
  | [] => None
  | Some t :: resets => Some (from_option (Z.min t) t (earliest resets))
  | None :: resets => earliest resets
  end.
Definition limited_resets (statuses : list ProviderAccountStatus.t) : list (option Z) :=
  ProviderAccountStatus.reset_at <$>
    filter (fun s => s.(ProviderAccountStatus.account).(ProviderAccount.enabled) && s.(ProviderAccountStatus.authenticated) &&
                     bool_decide (s.(ProviderAccountStatus.availability) = AvailabilityState.Limited) = true) statuses.
Definition status_id (s : ProviderAccountStatus.t) : string := s.(ProviderAccountStatus.account).(ProviderAccount.id).
Definition select_provider_account_for (ts : Z) (agent : AgentKind.t) (required_id : option string) : PoolM AccountSelection :=
  statuses ← provider_account_statuses_for ts (Some agent);
  let statuses := filter (fun s => selects required_id (status_id s) = true) statuses in
  if bool_decide (length statuses = 0%nat) then mret (if bool_decide (is_Some required_id) then SignedOut else Unmanaged)
  else
    let resets := limited_resets statuses in
    runtime ← ready_runtime statuses;
    mret match runtime with
         | Some runtime => Ready runtime
         | None => if bool_decide (resets = []) then SignedOut else AccountsLimited (earliest resets)
         end.
Definition next_ready_provider_account (ts : Z) (current_id : option string) : PoolM (option AccountRuntime.t) :=
  statuses ← provider_account_statuses_for ts None;
  ready_runtime (filter (fun s => negb (bool_decide (current_id = Some (status_id s))) = true) statuses).

(** *** Limits *)
Definition note_deadline (at_ : Z) : PoolM () :=
  modify (fun s => mkPool s.(stored_policy) s.(account_states) s.(tokens) s.(cached_probes) (s.(deadlines) ++ [at_])).
Definition mark_provider_account_limited (ts : Z) (id : string) (reset_at : option Z) : PoolM () :=
  state ← get_state id;
  let strikes := from_option (fun s => s.(ProviderAccountRecord.limit_strikes) + 1) 1 state in
  policy ← get_policy;
  let seconds := policy.(LimitPolicy.unknown_reset_retry_secs) in
  let reset_at := match reset_at with Some at_ => Some at_ | None => if 0 <? seconds then Some (ts + 1000 * seconds) else None end in
  _ ← mark_limited ts id reset_at strikes;
  match reset_at with Some deadline => note_deadline deadline | None => mret () end.
Definition earliest_provider_account_reset : PoolM (option Z) :=
  states ← list_states; mret (earliest (ProviderAccountRecord.reset_at <$> states)).
Definition provider_accounts_configured : PoolM bool :=
  policy ← get_policy; mret (negb (bool_decide (policy.(LimitPolicy.accounts) = []))).
Definition try_consume_provider_credit (id : string) : PoolM bool :=
  account ← account_by_id id;
  if negb account.(ProviderAccount.use_credits) || negb (is_codex account.(ProviderAccount.agent)) then mret false
  else
    home ← ensure_account_home account;
    match consume_reset_credit (selector_env account home None) with
    | Ok redeemed => mret redeemed
    | Err e => throw (Other e)
    end.

(** *** Changes of the pool *)
Definition add_system_provider_account (agent : AgentKind.t) : PoolM string :=
  _ ← fail_when (negb (supported agent)) UNSUPPORTED;
  policy ← get_policy;
  let id := system_account_id agent in
  let accounts := if existsb (fun a => eq_str a.(ProviderAccount.id) id) policy.(LimitPolicy.accounts) then policy.(LimitPolicy.accounts)
                  else (policy.(LimitPolicy.accounts) ++ [system_account agent])%list in
  _ ← set_policy (with_accounts accounts (filter (fun a => a <> agent) policy.(LimitPolicy.dismissed_system_accounts)) policy);
  mret id.

Definition enabled (a : ProviderAccount.t) : ProviderAccount.t :=
  ProviderAccount.mk a.(ProviderAccount.id) a.(ProviderAccount.label) a.(ProviderAccount.agent) true a.(ProviderAccount.use_credits)
    a.(ProviderAccount.auth_mode).
Definition activate_provider_account (id : string) : PoolM () :=
  _ ← validate_id id;
  policy ← get_policy;
  let accounts := policy.(LimitPolicy.accounts) in
  index ← lift_opt (position (fun a => eq_str a.(ProviderAccount.id) id) accounts) NOT_FOUND;
  account ← lift_opt (accounts !! index) NOT_FOUND;
  set_policy (with_accounts (enabled account :: delete index accounts) policy.(LimitPolicy.dismissed_system_accounts) policy).

Definition set_token (id : string) (token : option string) : PoolM () :=
  modify (fun s => mkPool s.(stored_policy) s.(account_states)
                     (match token with Some t => <[id := t]> s.(tokens) | None => delete id s.(tokens) end) s.(cached_probes) s.(deadlines)).
Definition set_provider_account_token (ts : Z) (id token : string) : PoolM () :=
  account ← account_by_id id;
  _ ← fail_when (negb (bool_decide (account.(ProviderAccount.agent) = AgentKind.ClaudeCode)) || negb (uses_token account))
        (Other "Setup tokens are only used by Claude token accounts");
  let token := trim token in
  _ ← fail_when (negb (starts_with "sk-ant-oat" token) || (len token <? 40) || has_white_space token)
        (Other "That doesn't look like a token from `claude setup-token`");
  _ ← token_entry id;
  _ ← failed_with KEYRING (vault_error id);
  _ ← set_token id (Some token);
  _ ← mark_available ts id;
  invalidate_account_probes.

Definition delete_provider_account (id : string) : PoolM () :=
  _ ← validate_id id;
  policy ← get_policy;
  let removed := find (fun a => eq_str a.(ProviderAccount.id) id) policy.(LimitPolicy.accounts) in
  let dismissed_ := match removed with
                    | Some account =>
                        if is_system account && negb (dismissed account.(ProviderAccount.agent) policy)
                        then (policy.(LimitPolicy.dismissed_system_accounts) ++ [account.(ProviderAccount.agent)])%list
                        else policy.(LimitPolicy.dismissed_system_accounts)
                    | None => policy.(LimitPolicy.dismissed_system_accounts)
                    end in
  _ ← set_policy (with_accounts (filter (fun a => a.(ProviderAccount.id) <> id) policy.(LimitPolicy.accounts)) dismissed_ policy);
  _ ← delete_state id;
  _ ← invalidate_account_probes;
  if is_some_and removed is_system then mret ()
  else
    _ ← token_entry id;
    _ ← match vault_error id with Some _ => mret () | None => set_token id None end;
    match remove_dir (data_dir +:+ "/provider-accounts/" +:+ id) with
    | Ok _ => mret ()
    | Err e => throw (Other ("could not remove account data: " +:+ e))
    end.

(** *** Signing in, and the provider's own program *)
Definition auth_steps (agent : AgentKind.t) (mode : ProviderAccountAuthMode.t) : option (list string * string) :=
  if is_codex agent then Some (["login"], "Finish signing in in your browser, then return to Perpetual.")
  else if bool_decide (agent = AgentKind.ClaudeCode) then
    Some (if bool_decide (mode = ProviderAccountAuthMode.OauthToken)
          then (["setup-token"], "Finish signing in, then paste the printed token into Perpetual.")
          else (["auth"; "login"], "Finish signing in in your browser, then return to Perpetual."))
  else None.
Definition provider_account_auth_launch (id : string) : PoolM ProviderAccountAuthLaunch.t :=
  account ← account_by_id id;
  binary ← provider_binary account.(ProviderAccount.agent);
  home ← ensure_account_home account;
  '(args, instructions) ← lift_opt (auth_steps account.(ProviderAccount.agent) account.(ProviderAccount.auth_mode)) UNSUPPORTED;
  _ ← invalidate_account_probes;
  mret (ProviderAccountAuthLaunch.mk account.(ProviderAccount.id) account.(ProviderAccount.label) account.(ProviderAccount.agent) binary args
          (selector_env account home None) instructions).
Definition provider_account_tooling_launch (id : string) : PoolM ProviderAccountAuthLaunch.t :=
  account ← account_by_id id;
  binary ← provider_binary account.(ProviderAccount.agent);
  home ← ensure_account_home account;
  token ← account_token account;
  _ ← fail_when (uses_token account && negb (bool_decide (is_Some token)))
        (Other "Add this account's setup token before opening its CLI");
  mret (ProviderAccountAuthLaunch.mk account.(ProviderAccount.id) account.(ProviderAccount.label) account.(ProviderAccount.agent) binary []
          (selector_env account home token) ("Using " +:+ account.(ProviderAccount.label) +:+ ". Changes apply to new Perpetual sessions.")).
End Pool.
