(* ===== verification/ProviderAccountsProps.v ===== *)
(** * What the account pool guarantees

    A run is given only an account that may serve it, and a default sign-in the
    user removed does not come back by itself. *)
From Stdlib Require Import Ascii String.
From stdpp Require Import strings gmap.
From S2P Require Import Prelude RustStr Json Enums Records WorkGraphDb Limits ThreadText Attachments GitText CoreWorld ThreadFallback TaskRuns JsonView ProviderText ProviderAccounts.
#[local] Open Scope string_scope.
#[local] Open Scope Z_scope.

Section Props.
Context `{!TextSerde LimitPolicy.t} `{AccountHost} `{LimitClock} {V : Type} `{JsonView V}.
Abbreviation PoolM := (M Pool CoreError).

(** ** Programs that leave parts of the pool alone *)

(** The states and the tokens of the accounts. *)
Definition same_but_probes (s s' : Pool) : Prop := s'.(account_states) = s.(account_states) /\ s'.(tokens) = s.(tokens).
(** A program that only reads. *)
Definition reads_only {A} (m : PoolM A) : Prop := forall s, final m s = s.

Lemma reads_only_bind {A B} (m : PoolM A) (f : A -> PoolM B) : reads_only m -> (forall a, reads_only (f a)) -> reads_only (m ≫= f).
Proof.
  intros Hm Hf s. unfold final. rewrite M_bind_unfold. specialize (Hm s). unfold final in Hm.
  destruct (m s) as [s' [a|e]]; cbn in *; subst; [apply Hf|done].
Qed.
Lemma reads_fail_when b e : reads_only (fail_when b e : PoolM ()).
Proof. intros s. by destruct b. Qed.
Lemma reads_attempt {A} (m : PoolM A) : reads_only m -> reads_only (attempt m).
Proof. intros Hm s. specialize (Hm s). unfold final, attempt in *. by destruct (m s) as [s' [a|e]]. Qed.

Lemma reads_home account : reads_only (ensure_account_home account).
Proof.
  unfold ensure_account_home. apply reads_only_bind; [apply reads_only_bind; [apply reads_fail_when|done]|]. intros [dir|]; [|done].
  by destruct (make_dir dir).
Qed.
Lemma reads_failed prefix e : reads_only (failed_with prefix e).
Proof. by destruct e. Qed.
Lemma reads_entry id : reads_only (token_entry id).
Proof. apply reads_only_bind; [apply reads_fail_when|intros _; apply reads_failed]. Qed.
Lemma reads_token account : reads_only (account_token account).
Proof.
  unfold account_token. destruct (negb _); [done|]. apply reads_only_bind; [apply reads_entry|]. intros _.
  apply reads_only_bind; [apply reads_failed|]. intros _. by apply reads_only_bind.
Qed.
Lemma reads_probe ts account home : reads_only (probe_provider_account ts account home).
Proof.
  unfold probe_provider_account. destruct (uses_token account); [|done]. apply reads_only_bind; [apply reads_attempt, reads_token|done].
Qed.
Lemma reads_runtime statuses : reads_only (ready_runtime statuses).
Proof.
  unfold ready_runtime. destruct (find _ _); [|done]. apply reads_only_bind; [apply reads_home|]. intros home.
  by apply reads_only_bind; [apply reads_token|].
Qed.

(** ** The checks *)

(** A check that is not cached. *)
Definition check_now (ts : Z) (account : ProviderAccount.t) : PoolM Probe.t :=
  home ← attempt (ensure_account_home account);
  match home with
  | Some home => probe_provider_account ts account home
  | None => mret (failed_probe "Account storage is unavailable")
  end.
Definition checked (ts : Z) (account : ProviderAccount.t) (s : Pool) (probe : Probe.t) : Prop := value (check_now ts account) s = Ok probe.

Lemma reads_check ts account : reads_only (check_now ts account).
Proof.
  unfold check_now. apply reads_only_bind; [apply reads_attempt, reads_home|]. intros [home|]; [apply reads_probe|done].
Qed.

Lemma check_ok ts account s : exists probe, check_now ts account s = (s, Ok probe).
Proof.
  pose proof (reads_check ts account s) as Hr. unfold final in Hr. destruct (check_now ts account s) as [s' [p|e]] eqn:Hc; cbn in Hr; subst; [by exists p|].
  exfalso. revert Hc. unfold check_now. rewrite M_bind_unfold. unfold attempt at 1.
  destruct (ensure_account_home account s) as [s1 [home|]]; [|done]. unfold probe_provider_account. destruct (uses_token account); [|done].
  rewrite M_bind_unfold. unfold attempt. by destruct (account_token account s1) as [s2 [t|]].
Qed.

(** A check depends on the key of the account and on the tokens. *)
Lemma home_of_key a b s : probe_key a = probe_key b -> ensure_account_home a s = ensure_account_home b s.
Proof.
  intros [= H1' H2' H3']. unfold ensure_account_home, account_home, profile_dir, is_system. by rewrite H1', H2', H3'.
Qed.

Lemma check_of_key ts a b s : probe_key a = probe_key b -> check_now ts a s = check_now ts b s.
Proof.
  intros Hk. pose proof Hk as Hk'. injection Hk' as H1' H2' H3'. unfold check_now. rewrite !M_bind_unfold. unfold attempt.
  rewrite (home_of_key _ _ _ Hk). destruct (ensure_account_home b s) as [s1 [home|]]; [|done].
  unfold probe_provider_account, uses_token, account_token, probe_cli_account, selector_env. unfold uses_token. by rewrite H1', H2', H3'.
Qed.

Lemma home_tokens a s s' : value (ensure_account_home a) s = value (ensure_account_home a) s'.
Proof.
  unfold value, ensure_account_home, account_home, validate_id, fail_when. rewrite !M_bind_unfold.
  destruct (_ || _); [done|]. cbn. destruct (profile_dir a) as [dir|]; [|done]. by destruct (make_dir dir).
Qed.

Lemma token_tokens a s s' : s'.(tokens) = s.(tokens) -> value (account_token a) s = value (account_token a) s'.
Proof.
  intros Ht. unfold value, account_token, token_entry, validate_id, failed_with, fail_when, gets, throw, mret, M_ret. destruct (negb _); [done|].
  unfold mbind, M_bind. destruct (_ || _); [done|]. destruct (entry_error _); [done|]. destruct (vault_error _); [done|].
  cbn. by rewrite Ht.
Qed.

Lemma checked_tokens ts a s s' probe : s'.(tokens) = s.(tokens) -> checked ts a s probe -> checked ts a s' probe.
Proof.
  intros Ht. unfold checked, value, check_now. rewrite !M_bind_unfold. unfold attempt.
  pose proof (home_tokens a s s') as Hh. pose proof (reads_home a s) as Hr. pose proof (reads_home a s') as Hr'. unfold value, final in *.
  destruct (ensure_account_home a s) as [s1 r], (ensure_account_home a s') as [s1' r']; cbn in *; subst. destruct r' as [home|]; [|done].
  unfold probe_provider_account. destruct (uses_token a); [|done]. rewrite !M_bind_unfold. unfold attempt.
  pose proof (token_tokens a s s' Ht) as Hk. unfold value in Hk.
  destruct (account_token a s) as [s2 r], (account_token a s') as [s2' r']; cbn in *; subst. by destruct r'.
Qed.

(** What is known of a sign-in in this call: it was checked at most twenty seconds
    before, or in the call. *)
Definition known (ts : Z) (s : Pool) (account : ProviderAccount.t) (probe : Probe.t) : Prop :=
  cached_probe ts account s = Some probe \/ checked ts account s probe.

Lemma known_of_key ts s a b probe : probe_key a = probe_key b -> known ts s a probe -> known ts s b probe.
Proof. intros Hk. unfold known, checked, value, cached_probe. by rewrite Hk, (check_of_key _ _ _ _ Hk). Qed.

(** The checks of a call leave only checks of the call in the cache. *)
Definition probes_from (ts : Z) (s s' : Pool) : Prop :=
  same_but_probes s s' /\ forall account probe, cached_probe ts account s' = Some probe -> known ts s account probe.

Lemma probes_from_refl ts s : probes_from ts s s.
Proof. split; [done|]. intros account probe Hc. by left. Qed.

Lemma probes_from_known ts s s' account probe : probes_from ts s s' -> known ts s' account probe -> known ts s account probe.
Proof.
  intros [[_ Ht] Hp] [Hc|Hc]; [by apply Hp|]. right. by eapply checked_tokens; [|exact Hc].
Qed.

Lemma probes_from_trans ts s1 s2 s3 : probes_from ts s1 s2 -> probes_from ts s2 s3 -> probes_from ts s1 s3.
Proof.
  intros Hp1 [[E1 E2] Hp2]. split.
  - destruct Hp1 as [[? ?] _]. unfold same_but_probes. by rewrite E1, E2.
  - intros account probe Hc%Hp2. by eapply probes_from_known.
Qed.

Lemma find_after_put (k k' : ProbeKey) v (l : list (ProbeKey * (Z * Probe.t))) :
  find (key_is k') (replace_or_push (key_is k) (k, v) l) = if bool_decide (k = k') then Some (k, v) else find (key_is k') l.
Proof.
  unfold key_is. induction l as [|[k0 v0] l IH]; cbn [replace_or_push find fst]; [by case_bool_decide|].
  destruct (decide (k0 = k)) as [->|Hne].
  - rewrite bool_decide_eq_true_2 by done. cbn [find fst]. by case_bool_decide.
  - rewrite (bool_decide_eq_false_2 (k0 = k)) by done. cbn [find fst].
    destruct (decide (k0 = k')) as [->|Hne']; [by rewrite bool_decide_eq_true_2, bool_decide_eq_false_2 by congruence|].
    by rewrite (bool_decide_eq_false_2 (k0 = k')).
Qed.

Lemma fresh_probe_eq ts account s :
  exists probe, checked ts account s probe /\
    fresh_probe ts account s =
      (put_probes (replace_or_push (key_is (probe_key account)) (probe_key account, (ts, probe)) s.(cached_probes)) s, Ok probe).
Proof.
  destruct (check_ok ts account s) as [probe Hc]. exists probe. split; [by unfold checked, value; rewrite Hc|].
  unfold fresh_probe. unfold check_now in Hc. rewrite M_bind_unfold in *. destruct (attempt _ s) as [s1 [home|]]; [|done].
  rewrite M_bind_unfold. by rewrite Hc.
Qed.

Lemma fresh_probes_from ts account s probe s' : fresh_probe ts account s = (s', Ok probe) ->
  probes_from ts s s' /\ known ts s account probe /\ s'.(stored_policy) = s.(stored_policy).
Proof.
  destruct (fresh_probe_eq ts account s) as (p & Hc & ->). intros [= <- <-]. split; [|split; [by right|done]]. split; [done|].
  intros b q. unfold cached_probe. cbn. rewrite find_after_put. case_bool_decide as Hk; [|by left].
  cbn. case_match; [|done]. intros [= <-]. eapply known_of_key; [exact Hk|]. by right.
Qed.

Lemma probe_accounts_from ts accounts s s' r :
  probe_accounts ts accounts s = (s', r) ->
  probes_from ts s s' /\ s'.(stored_policy) = s.(stored_policy) /\ exists probes, r = Ok probes /\ Forall2 (known ts s) accounts probes.
Proof.
  unfold probe_accounts. rewrite M_bind_unfold. cbn.
  assert (forall l s1 s' r, probes_from ts s s1 -> Forall (fun '(a, o) => forall p, o = Some p -> known ts s a p) l ->
    map_M (fun '(account, probe) => match probe with Some probe => mret probe | None => fresh_probe ts account end) l s1 = (s', r) ->
    probes_from ts s s' /\ s'.(stored_policy) = s1.(stored_policy) /\ exists probes, r = Ok probes /\ Forall2 (fun x p => known ts s x.1 p) l probes) as Hmap.
  { clear s' r. induction l as [|[a o] l IH]; intros s1 s' r Hs1 Hl; cbn [map_M].
    - intros [= <- <-]. split_and!; [done..|]. exists []. by split; [|constructor].
    - apply Forall_cons in Hl as [Ha Hl]. rewrite M_bind_unfold.
      assert (exists s2 p, (match o with Some probe => mret probe | None => fresh_probe ts a end) s1 = (s2, Ok p) /\
                probes_from ts s s2 /\ known ts s a p /\ s2.(stored_policy) = s1.(stored_policy)) as (s2 & p & -> & Hs2 & Hp & Hst).
      { destruct o as [p|]; [exists s1, p; split_and!; [done|done|by apply Ha|done]|]. destruct (fresh_probe_eq ts a s1) as (p & _ & Hf).
        apply fresh_probes_from in Hf as Hk. destruct Hk as (Hk1 & Hk2 & Hk3). do 2 eexists. split_and!; [exact Hf|..].
        - by eapply probes_from_trans. - by eapply probes_from_known. - done. }
      rewrite M_bind_unfold. destruct (map_M _ l s2) as [s3 r3] eqn:Hm.
      apply IH in Hm as (Hm1 & Hm2 & probes & -> & Hm3); [|done..].
      intros [= <- <-]. split_and!; [done|congruence|]. exists (p :: probes). by split; [|constructor]. }
  intros Hm. apply Hmap in Hm as (? & ? & probes & ? & Hp); [|apply probes_from_refl|].
  - split_and!; [done..|]. exists probes. split; [done|]. rewrite Forall2_fmap_l in Hp. exact Hp.
  - apply Forall_fmap, Forall_true. intros a p Hc. by left.
Qed.

Lemma sync_from ts only s s' r :
  sync_system_provider_accounts_for ts only s = (s', r) -> probes_from ts s s' /\ r = Ok ().
Proof.
  unfold sync_system_provider_accounts_for. rewrite M_bind_unfold. cbn. case_bool_decide.
  - intros [= <- <-]. by split; [apply probes_from_refl|].
  - rewrite M_bind_unfold. destruct (probe_accounts _ _ s) as [s1 r1] eqn:Hp. apply probe_accounts_from in Hp as (Hf & _ & probes & -> & _).
    rewrite M_bind_unfold. cbn. destruct (add_found _ _) as [policy []]; intros [= <- <-]; by split.
Qed.

(** ** The statuses *)

(** The stored state of an account says it is limited. *)
Definition stored_limited (s : Pool) (id : string) : Prop :=
  exists row, find (row_named id) s.(account_states) = Some row /\ row.(AccountRow.availability) = "limited".

(** It is limited, and the reset it is limited until has not come. *)
Definition limited_until (ts : Z) (s : Pool) (id : string) (reset : option Z) : Prop :=
  exists row, find (row_named id) s.(account_states) = Some row /\ row.(AccountRow.availability) = "limited" /\
    row.(AccountRow.reset_at) = reset /\ forall t, reset = Some t -> ts < t.

Lemma find_upsert id (row : AccountRow.t) rows :
  find (row_named id) (replace_or_push (row_named row.(AccountRow.account_id)) row rows) =
    if eq_str row.(AccountRow.account_id) id then Some row else find (row_named id) rows.
Proof.
  unfold row_named, eq_str. induction rows as [|x rows IH]; cbn [replace_or_push find]; [by case_bool_decide|].
  destruct (decide (x.(AccountRow.account_id) = row.(AccountRow.account_id))) as [Heq|Hne].
  - rewrite (bool_decide_eq_true_2 (x.(AccountRow.account_id) = _)) by done. cbn [find]. rewrite Heq. by case_bool_decide.
  - rewrite (bool_decide_eq_false_2 (x.(AccountRow.account_id) = _)) by done. cbn [find].
    destruct (decide (x.(AccountRow.account_id) = id)) as [Hid|Hid].
    + rewrite bool_decide_eq_true_2 by done. by rewrite bool_decide_eq_false_2 by congruence.
    + by rewrite (bool_decide_eq_false_2 (x.(AccountRow.account_id) = id)).
Qed.

Lemma available_not_limited ts id id' s : ~ stored_limited s id -> ~ stored_limited (final (mark_available ts id') s) id.
Proof.
  intros Hs (row & Hf & Hl). apply Hs. unfold final, mark_available, upsert_state, modify in Hf. cbn [fst put_states account_states] in Hf.
  rewrite find_upsert in Hf. cbn in Hf.
  destruct (eq_str id' id); [by injection Hf as <-|]. by exists row.
Qed.

(** What a status tells. *)
Definition status_sound (ts : Z) (s0 : Pool) (s : Pool) (account : ProviderAccount.t) (st : ProviderAccountStatus.t) : Prop :=
  st.(ProviderAccountStatus.account) = account /\
  (exists probe, known ts s0 account probe /\ st.(ProviderAccountStatus.installed) = probe.(Probe.installed) /\
     st.(ProviderAccountStatus.authenticated) = probe.(Probe.authenticated)) /\
  (st.(ProviderAccountStatus.availability) <> AvailabilityState.Limited -> ~ stored_limited s account.(ProviderAccount.id)) /\
  (st.(ProviderAccountStatus.availability) = AvailabilityState.Limited ->
   limited_until ts s account.(ProviderAccount.id) st.(ProviderAccountStatus.reset_at)).

(** The record of a row is limited exactly when the row is. *)
Lemma state_of_row (row : option AccountRow.t) state :
  transpose (account_try_from <$> row) = Ok state ->
  let av := from_option ProviderAccountRecord.availability AvailabilityState.Unknown state in
  (forall r, row = Some r -> r.(AccountRow.availability) = "limited" -> av <> AvailabilityState.Limited -> False) /\
  (av = AvailabilityState.Limited ->
   exists r, row = Some r /\ r.(AccountRow.availability) = "limited" /\ r.(AccountRow.reset_at) = state ≫= ProviderAccountRecord.reset_at).
Proof.
  destruct row as [r|]; cbn; [|by intros [= <-]]. destruct (account_try_from r) as [a|] eqn:Ha; cbn; [|done]. intros [= <-]. cbn.
  unfold account_try_from in Ha. unfold decode in Ha. destruct (unwire r.(AccountRow.availability)) as [v|] eqn:Hv; cbn in Ha; [|done].
  injection Ha as <-. cbn. split.
  - intros r' [= <-] Hl Hn. rewrite Hl in Hv. vm_compute in Hv. by injection Hv as <-.
  - intros ->. exists r. split_and!; [done| |done]. by apply (wire_unwire (T:=AvailabilityState.t)) in Hv as <-.
Qed.

Lemma account_status_sound ts s0 account probe s s' r :
  known ts s0 account probe -> account_status ts account probe s = (s', r) ->
  s'.(stored_policy) = s.(stored_policy) /\ (forall id, ~ stored_limited s id -> ~ stored_limited s' id) /\
  (forall id reset, limited_until ts s id reset -> limited_until ts s' id reset) /\
  forall st, r = Ok st -> status_sound ts s0 s' account st.
Proof.
  intros Hk. unfold account_status. rewrite M_bind_unfold. unfold get_state at 1. rewrite M_bind_unfold. cbn [gets].
  unfold in_db, lift. set (row := find (row_named account.(ProviderAccount.id)) s.(account_states)).
  destruct (transpose (account_try_from <$> row)) as [state|] eqn:Hrow; [|intros [= <- <-]; split_and!; [done..|by intros ? [=]]].
  destruct (state_of_row _ _ Hrow) as (Hnl & Hlim).
  set (av := from_option _ _ state) in *. set (ra := state ≫= _) in *.
  destruct (bool_decide (av = AvailabilityState.Limited) && passed ts ra) eqn:Hcase.
  - apply andb_true_iff in Hcase as [Hav%bool_decide_eq_true Hpassed]. destruct (Hlim Hav) as (row' & Hf' & Hl' & Hra').
    cbn. intros [= <- <-]. split_and!; [done|intros id; apply available_not_limited|..].
    + intros id reset (row1 & Hf1 & Hl1 & Hr1 & Hlate). unfold limited_until. cbn [account_states put_states fst].
      rewrite (find_upsert _ (AccountRow.mk account.(ProviderAccount.id) "available" None 0 (Some ts))). cbn. unfold eq_str. case_bool_decide as Hid.
      * subst id. subst row. rewrite Hf' in Hf1. injection Hf1 as <-. unfold passed in Hpassed. rewrite <- Hra', Hr1 in Hpassed.
        destruct reset as [t|]; [|done]. cbn in Hpassed. specialize (Hlate t eq_refl). lia.
      * by exists row1.
    + intros st [= <-]. split_and!; [done|by exists probe| |done].
      intros _. intros (row1 & Hf & Hl). cbn [account_states put_states fst] in Hf.
      rewrite (find_upsert _ (AccountRow.mk account.(ProviderAccount.id) "available" None 0 (Some ts))) in Hf. cbn in Hf.
      unfold eq_str in Hf. rewrite bool_decide_eq_true_2 in Hf by done. by injection Hf as <-.
  - assert (av = AvailabilityState.Limited -> limited_until ts s account.(ProviderAccount.id) ra) as Hlate.
    { intros Hav. destruct (Hlim Hav) as (row' & Hf' & Hl' & Hra'). exists row'. split_and!; [done..|]. intros t Hra.
      rewrite bool_decide_eq_true_2 in Hcase by done. unfold passed in Hcase. rewrite Hra in Hcase. cbn in Hcase. lia. }
    destruct (probe.(Probe.authenticated) && bool_decide (av = AvailabilityState.Unknown)) eqn:Hu; cbn; intros [= <- <-];
      (split_and!; [done..|]); intros st [= <-]; (split_and!; [done|by exists probe|..]); cbn; try done.
    + intros _ (row' & Hf' & Hl'). apply andb_true_iff in Hu as [_ Hu%bool_decide_eq_true]. apply (Hnl row' Hf' Hl'). by rewrite Hu.
    + intros Hav (row' & Hf' & Hl'). by apply (Hnl row' Hf' Hl').
Qed.

Lemma map_status_sound ts s0 pairs s s' r :
  Forall (fun '(account, probe) => known ts s0 account probe) pairs ->
  map_M (fun '(account, probe) => account_status ts account probe) pairs s = (s', r) ->
  s'.(stored_policy) = s.(stored_policy) /\ (forall id, ~ stored_limited s id -> ~ stored_limited s' id) /\
  (forall id reset, limited_until ts s id reset -> limited_until ts s' id reset) /\
  forall l, r = Ok l -> Forall2 (fun x st => status_sound ts s0 s' x.1 st) pairs l.
Proof.
  revert s s' r. induction pairs as [|[account probe] pairs IH]; intros s s' r Hk; cbn [map_M].
  { intros [= <- <-]. split_and!; [done..|]. intros l [= <-]. constructor. }
  apply Forall_cons in Hk as [Hk1 Hk]. rewrite M_bind_unfold. destruct (account_status ts account probe s) as [s1 r1] eqn:Ha.
  apply (account_status_sound _ _ _ _ _ _ _ Hk1) in Ha as (Hp1 & Hn1 & Hu1 & Hs1).
  destruct r1 as [st|]; [|intros [= <- <-]; by split_and!]. rewrite M_bind_unfold.
  destruct (map_M _ pairs s1) as [s2 r2] eqn:Hm. apply IH in Hm as (Hp2 & Hn2 & Hu2 & Hs2); [|done].
  destruct r2 as [sts|]; intros [= <- <-]; (split_and!; [congruence|auto|auto|]); [|done]. intros l [= <-].
  constructor; [|by apply Hs2]. destruct (Hs1 st eq_refl) as (? & ? & ? & ?). split_and!; auto.
Qed.

Lemma mark_active_sound ts s0 s accounts statuses seen :
  Forall2 (status_sound ts s0 s) accounts statuses -> Forall2 (status_sound ts s0 s) accounts (mark_active statuses seen).
Proof.
  intros Hf. revert seen. induction Hf as [|account st accounts statuses Hs _ IH]; intros seen; cbn [mark_active]; [constructor|].
  destruct (_ && _); constructor; auto.
Qed.

Lemma statuses_sound ts agent s s' l :
  provider_account_statuses_for ts agent s = (s', Ok l) ->
  Forall2 (status_sound ts s s') (filter (fun a => selects agent a.(ProviderAccount.agent) = true) (policy_of s').(LimitPolicy.accounts)) l.
Proof.
  unfold provider_account_statuses_for. rewrite M_bind_unfold. destruct (sync_system_provider_accounts_for ts agent s) as [s1 r1] eqn:Hs.
  apply sync_from in Hs as [Hf1 ->]. rewrite M_bind_unfold. cbn [get_policy gets]. rewrite M_bind_unfold.
  set (accounts := filter _ (policy_of s1).(LimitPolicy.accounts)).
  destruct (probe_accounts ts accounts s1) as [s2 r2] eqn:Hp. apply probe_accounts_from in Hp as (Hf2 & Hp2 & probes & -> & Hk).
  rewrite M_bind_unfold. destruct (map_M _ _ s2) as [s3 r3] eqn:Hm.
  assert (Forall (fun '(account, probe) => known ts s account probe) (zip accounts probes)) as Hk'.
  { apply Forall_forall. intros [a p] Hin. apply list_elem_of_lookup in Hin as [k Hin]. apply lookup_zip_with_Some in Hin as (a' & p' & [= -> ->] & Ha & Hpr).
    eapply probes_from_known; [exact Hf1|]. by eapply Forall2_lookup_lr. }
  apply (map_status_sound _ _ _ _ _ _ Hk') in Hm as (Hp3 & _ & _ & Hs3). destruct r3 as [sts|]; [|done]. intros [= <- <-].
  apply mark_active_sound. specialize (Hs3 _ eq_refl). assert (policy_of s3 = policy_of s1) as -> by (unfold policy_of; congruence).
  fold accounts. apply Forall2_length in Hk as Hlen. clear -Hs3 Hlen. revert probes Hs3 Hlen. generalize accounts. clear accounts.
  induction sts as [|st sts IH]; intros [|a accounts] [|p probes] Hf Hlen; cbn in *; try done; inversion Hf; subst; constructor; eauto.
Qed.

(** ** The choice *)

(** An account that may serve a run of a provider at [ts]. *)
Definition usable (ts : Z) (s s' : Pool) (agent : AgentKind.t) (account : ProviderAccount.t) : Prop :=
  account ∈ (policy_of s').(LimitPolicy.accounts) /\ account.(ProviderAccount.agent) = agent /\ account.(ProviderAccount.enabled) = true /\
  ~ stored_limited s' account.(ProviderAccount.id) /\
  exists probe, known ts s account probe /\ probe.(Probe.installed) = true /\ probe.(Probe.authenticated) = true.

Lemma ready_runtime_some statuses s s' rt :
  ready_runtime statuses s = (s', Ok (Some rt)) ->
  s' = s /\ exists st token, find account_ready statuses = Some st /\
    rt = AccountRuntime.mk (status_id st) st.(ProviderAccountStatus.account).(ProviderAccount.agent)
           (selector_env st.(ProviderAccountStatus.account) (profile_dir st.(ProviderAccountStatus.account)) token)
           (if is_system st.(ProviderAccountStatus.account) then None else Some (status_id st)).
Proof.
  intros Hr. pose proof (reads_runtime statuses s) as Hs. unfold final in Hs. rewrite Hr in Hs. cbn in Hs. subst s'. split; [done|].
  revert Hr. unfold ready_runtime. destruct (find account_ready statuses) as [st|]; [|done]. rewrite M_bind_unfold.
  destruct (ensure_account_home _ s) as [s1 [home|]] eqn:Hh; [|done]. rewrite M_bind_unfold.
  destruct (account_token _ s1) as [s2 [token|]]; [|done]. intros [= _ <-]. exists st, token. split; [done|].
  assert (home = profile_dir st.(ProviderAccountStatus.account)) as ->; [|done].
  revert Hh. unfold ensure_account_home, account_home, validate_id, fail_when. rewrite !M_bind_unfold. destruct (_ || _); [done|]. cbn.
  destruct (profile_dir _) as [dir|]; [|by intros [= _ <-]]. destruct (make_dir dir); [|done]. by intros [= _ <-].
Qed.

Lemma ready_runtime_none statuses s s' : ready_runtime statuses s = (s', Ok None) -> forall st, st ∈ statuses -> account_ready st = false.
Proof.
  unfold ready_runtime. destruct (find account_ready statuses) as [st|] eqn:Hf; [|by intros _; apply find_None].
  rewrite M_bind_unfold. destruct (ensure_account_home _ s) as [s1 [home|]]; [|done]. rewrite M_bind_unfold.
  by destruct (account_token _ s1) as [s2 [token|]].
Qed.

Lemma earliest_in resets t : earliest resets = Some t -> Some t ∈ resets.
Proof.
  revert t. induction resets as [|[u|] resets IH]; intros t; cbn; [done| |intros Ht; right; by apply IH].
  intros [= <-]. destruct (earliest resets) as [v|] eqn:He; cbn; [|by left]. destruct (Z.min_spec u v) as [[_ ->]|[_ ->]]; [by left|right; by apply IH].
Qed.

Lemma earliest_least resets u : Some u ∈ resets -> exists t, earliest resets = Some t /\ t <= u.
Proof.
  induction resets as [|[v|] resets IH]; cbn; [by intros ?%elem_of_nil|..].
  - intros [[= <-]|Hin]%elem_of_cons; destruct (earliest resets) as [w|] eqn:He; cbn; eexists; (split; [done|]); try lia.
    + destruct (IH Hin) as (t & [= <-] & Ht). lia.
    + by destruct (IH Hin) as (t & ? & _).
  - intros [?|Hin]%elem_of_cons; [done|by apply IH].
Qed.

(** The accounts asked for. *)
Definition asked (s : Pool) (agent : AgentKind.t) (required : option string) (account : ProviderAccount.t) : Prop :=
  account ∈ (policy_of s).(LimitPolicy.accounts) /\ account.(ProviderAccount.agent) = agent /\
  forall id, required = Some id -> account.(ProviderAccount.id) = id.

(** An account that is switched off, or not signed in by a known check. *)
Definition signed_out (account : ProviderAccount.t) (probe : Probe.t) : Prop :=
  account.(ProviderAccount.enabled) && probe.(Probe.authenticated) = false.
(** One that is signed in but not installed, with no limit that would come to an end. *)
Definition not_installed (s : Pool) (account : ProviderAccount.t) (probe : Probe.t) : Prop :=
  probe.(Probe.installed) = false /\ ~ stored_limited s account.(ProviderAccount.id).

(** The statuses of the accounts asked for are sound, and none is left out. *)
Lemma asked_statuses ts agent required s s1 l :
  provider_account_statuses_for ts (Some agent) s = (s1, Ok l) ->
  let mine := filter (fun st => selects required (status_id st) = true) l in
  (forall st, st ∈ mine -> exists a, asked s1 agent required a /\ status_sound ts s s1 a st) /\
  (forall a, asked s1 agent required a -> exists st, st ∈ mine /\ status_sound ts s s1 a st).
Proof.
  intros Hst%statuses_sound. set (accounts := filter _ _) in Hst. cbv zeta. split.
  - intros st [Hsel [k Hk]%list_elem_of_lookup]%list_elem_of_filter. eapply Forall2_lookup_r in Hst as (a & Ha & Hsound); [|done]. exists a.
    split; [|done]. apply list_elem_of_lookup_2, list_elem_of_filter in Ha as [Hag Ha]. cbn in Hag. split_and!; [done|by apply bool_decide_eq_true in Hag|].
    intros id ->. cbn in Hsel. apply bool_decide_eq_true in Hsel. unfold status_id in Hsel. destruct Hsound as [<- _]. done.
  - intros a (Ha & Hag & Hreq).
    assert (a ∈ accounts) as Hin by (apply list_elem_of_filter; split; [cbn; by apply bool_decide_eq_true|done]).
    apply list_elem_of_lookup in Hin as [k Hk]. eapply Forall2_lookup_l in Hst as (st & Hk' & Hsound); [|done]. exists st. split; [|done].
    apply list_elem_of_filter. split; [|by eapply list_elem_of_lookup_2]. destruct required as [id|]; [|done]. cbn. apply bool_decide_eq_true.
    unfold status_id. destruct Hsound as [-> _]. symmetry. by apply Hreq.
Qed.

(** What a status that is not ready tells of its account. *)
Lemma not_ready ts s s1 a st :
  status_sound ts s s1 a st -> account_ready st = false ->
  exists probe, known ts s a probe /\
    (signed_out a probe \/ not_installed s1 a probe \/
     (st.(ProviderAccountStatus.account).(ProviderAccount.enabled) && st.(ProviderAccountStatus.authenticated) &&
      bool_decide (st.(ProviderAccountStatus.availability) = AvailabilityState.Limited) = true /\
      limited_until ts s1 a.(ProviderAccount.id) st.(ProviderAccountStatus.reset_at))).
Proof.
  intros (Heq & (probe & Hk & Hi & Hau) & Hnl & Hlim) Hready. exists probe. split; [done|]. unfold signed_out, not_installed, account_ready in *.
  rewrite Heq, Hi, Hau in *. destruct (ProviderAccount.enabled a); cbn in *; [|by left]. destruct (Probe.authenticated probe); cbn in *; [|by left].
  right. case_bool_decide as Hl; cbn in *; [right; by split; [|apply Hlim]|]. left. split; [|by apply Hnl]. by destruct (Probe.installed probe).
Qed.

(** C14: the account of a run. What is chosen is an enabled account of the
    provider in the pool whose stored state is not limited and whose sign-in was
    confirmed by a check made in the call or at most twenty seconds before; the
    one a conversation requires, when it requires one; and the run gets the
    environment and the profile of that very account.  The other answers are given
    only when no account asked for can serve: "signed out" when each of them is
    switched off, not signed in by such a check, or not installed without being
    limited; "limited" when each is that or has a stored limit whose reset, if known,
    has not come, and at least one signed-in account has such a limit, and then the
    time told is the earliest of the known resets; "no account is managed" when none
    is required and the pool has none of the provider. *)
Theorem selected_account_usable ts agent required s :
  let '(s', r) := select_provider_account_for ts agent required s in
  match r with
  | Ok (Ready rt) =>
      exists account token, usable ts s s' agent account /\ (forall id, required = Some id -> account.(ProviderAccount.id) = id) /\
        rt = AccountRuntime.mk account.(ProviderAccount.id) agent (selector_env account (profile_dir account) token)
               (if is_system account then None else Some account.(ProviderAccount.id))
  | Ok SignedOut =>
      (required = None -> exists account, asked s' agent required account) /\
      forall account, asked s' agent required account ->
        exists probe, known ts s account probe /\ (signed_out account probe \/ not_installed s' account probe)
  | Ok (AccountsLimited at_) =>
      (exists account probe, asked s' agent required account /\ known ts s account probe /\ ~ signed_out account probe /\
         limited_until ts s' account.(ProviderAccount.id) at_) /\
      forall account, asked s' agent required account ->
        exists probe, known ts s account probe /\
          (signed_out account probe \/ not_installed s' account probe \/
           exists reset, limited_until ts s' account.(ProviderAccount.id) reset /\
             forall u, reset = Some u -> exists t, at_ = Some t /\ t <= u)
  | Ok Unmanaged => required = None /\ forall a, a ∈ (policy_of s').(LimitPolicy.accounts) -> a.(ProviderAccount.agent) <> agent
  | Err _ => True
  end.
Proof.
  unfold select_provider_account_for. rewrite M_bind_unfold. destruct (provider_account_statuses_for ts (Some agent) s) as [s1 r1] eqn:Hst.
  destruct r1 as [l|]; [|done]. apply (asked_statuses _ _ required) in Hst as [Hl Hall]. set (mine := filter _ l) in *. case_bool_decide as Hmine.
  - assert (forall a, ~ asked s1 agent required a) as Hno.
    { intros a (st & Hin & _)%Hall. apply nil_length_inv in Hmine. rewrite Hmine in Hin. by apply elem_of_nil in Hin. }
    destruct required as [id|]; cbn; [split; [done|by intros a ?%Hno]|]. split; [done|]. intros a Ha Heq. by apply (Hno a).
  - rewrite M_bind_unfold. destruct (ready_runtime mine s1) as [s2 [[rt|]|]] eqn:Hr; cbn [mret M_ret]; [| |done].
    + apply ready_runtime_some in Hr as (-> & st & token & (Hin & Hready)%find_Some_elem & ->).
      destruct (Hl st Hin) as (a & (Ha & Hagent & Hreq) & <- & (probe & Hk & Hi & Hau) & Hnl & _). exists st.(ProviderAccountStatus.account), token.
      unfold account_ready in Hready. rewrite !andb_true_iff, negb_true_iff, bool_decide_eq_false in Hready.
      destruct Hready as [[[Hins Hen] Hauth] Hav]. split_and!; [|done|by rewrite Hagent].
      split_and!; [done..|by apply Hnl|]. exists probe. split_and!; [done|congruence..].
    + assert (s2 = s1) as -> by (pose proof (reads_runtime mine s1) as Hs; unfold final in Hs; by rewrite Hr in Hs).
      pose proof (ready_runtime_none _ _ _ Hr) as Hnone. clear Hr. rename Hnone into Hr.
      assert (forall a, asked s1 agent required a -> exists probe, known ts s a probe /\
        (signed_out a probe \/ not_installed s1 a probe \/
         exists reset, reset ∈ limited_resets mine /\ limited_until ts s1 a.(ProviderAccount.id) reset)) as Hwhy.
      { intros a (st & Hin & Hs)%Hall. destruct (not_ready _ _ _ _ _ Hs (Hr st Hin)) as (probe & Hk & [?|[?|[Hc Hlim]]]); exists probe; (split; [done|]);
          [by left|by right; left|]. right. right. eexists. split; [|exact Hlim]. apply list_elem_of_fmap. exists st. split; [done|].
        by apply list_elem_of_filter. }
      case_bool_decide as Hres.
      * split.
        -- intros _. destruct mine as [|st mine']; [done|]. destruct (Hl st ltac:(left)) as (a & Ha & _). by exists a.
        -- intros a (probe & Hk & [?|[?|(reset & Hin & _)]])%Hwhy; exists probe; (split; [done|]); [by left|by right|].
           rewrite Hres in Hin. by apply elem_of_nil in Hin.
      * split.
        -- assert (earliest (limited_resets mine) ∈ limited_resets mine) as (st & Heq & [Hc Hin]%list_elem_of_filter)%list_elem_of_fmap.
           { destruct (earliest (limited_resets mine)) as [t|] eqn:He; [by apply earliest_in|].
             destruct (limited_resets mine) as [|[t|] rest] eqn:Hlr; [done| |left].
             destruct (earliest_least (Some t :: rest) t ltac:(left)) as (? & ? & _). congruence. }
           destruct (Hl st Hin) as (a & Ha & Heqa & (probe & Hk & _ & Hau) & _ & Hlim). exists a, probe. rewrite !andb_true_iff, bool_decide_eq_true in Hc.
           destruct Hc as [[Hen Hauth] Hav]. split_and!; [done..| |rewrite Heq; by apply Hlim]. unfold signed_out. rewrite <- Heqa, <- Hau, Hen, Hauth. done.
        -- intros a (probe & Hk & [?|[?|(reset & Hin & Hlim)]])%Hwhy; exists probe; (split; [done|]); [by left|by right; left|].
           right. right. exists reset. split; [done|]. intros u ->. by apply earliest_least.
Qed.

(** ** A removed default sign-in *)

(** The user removed the default sign-in of a provider: it is remembered and no
    account of the pool is it. *)
Definition removed_in (agent : AgentKind.t) (p : LimitPolicy.t) : Prop :=
  agent ∈ p.(LimitPolicy.dismissed_system_accounts) /\ forall a, a ∈ p.(LimitPolicy.accounts) -> system_of agent a = false.
Definition gone (agent : AgentKind.t) (s : Pool) : Prop := removed_in agent (policy_of s).

Lemma dedup_elem {A} `{EqDecision A} (l : list A) x : x ∈ dedup l <-> x ∈ l.
Proof.
  induction l as [|a [|b l] IH]; [done..|]. cbn [dedup]. case_bool_decide as Hab; [subst; rewrite IH; set_solver|].
  rewrite !(elem_of_cons _ _ a), IH. done.
Qed.

Lemma normalize_system agent a b : normalize_account a = Some b -> system_of agent a = false -> system_of agent b = false.
Proof.
  unfold normalize_account, system_of, is_system. repeat (case_match; try done); intros [= <-]; cbn; try done.
  intros Hn. repeat case_bool_decide; try done; congruence.
Qed.

Lemma removed_normalized agent p : removed_in agent p -> removed_in agent (normalize_limit_policy p).
Proof.
  intros [Hd Ha]. assert (forall a, a ∈ (normalize_limit_policy p).(LimitPolicy.accounts) -> system_of agent a = false) as Hacc.
  { cbn [normalize_limit_policy LimitPolicy.accounts]. apply foldl_replace_forall; [by intros x ?%elem_of_nil|].
    intros b (a & Hin & Hb)%list_elem_of_omap. eapply normalize_system; [exact Hb|]. by apply Ha. }
  split; [|done]. cbn [normalize_limit_policy LimitPolicy.dismissed_system_accounts]. apply list_elem_of_filter. split; [|by apply dedup_elem].
  apply not_true_iff_false. rewrite existsb_exists. intros (a & Hin & Hs). apply list_elem_of_In in Hin.
  pose proof (Hacc a Hin) as Hf. unfold system_of in Hf. congruence.
Qed.

Context `{!TextSerdeOk LimitPolicy.t}.

Lemma policy_of_set p s : policy_of (final (set_policy p) s) = normalize_limit_policy (normalize_limit_policy p).
Proof. unfold policy_of, final. cbn. unfold parsed. by rewrite from_to_text. Qed.

Lemma gone_set agent p s : removed_in agent p -> gone agent (final (set_policy p) s).
Proof. intros Hp. unfold gone. rewrite policy_of_set. by do 2 apply removed_normalized. Qed.

Lemma gone_same agent s s' : s'.(stored_policy) = s.(stored_policy) -> gone agent s -> gone agent s'.
Proof. unfold gone, policy_of. by intros ->. Qed.

(** Programs that leave the policy alone. *)
Definition policy_kept {A} (m : PoolM A) : Prop := forall s, (final m s).(stored_policy) = s.(stored_policy).
Lemma policy_kept_keeps {A} (m : PoolM A) agent : policy_kept m -> keeps (gone agent) m.
Proof. intros Hm s. apply gone_same, Hm. Qed.
Lemma policy_kept_reads {A} (m : PoolM A) : reads_only m -> policy_kept m.
Proof. intros Hm s. by rewrite Hm. Qed.
Lemma policy_kept_probes ts accounts : policy_kept (probe_accounts ts accounts).
Proof. intros s. unfold final. destruct (probe_accounts ts accounts s) as [s' r] eqn:Hp. by apply probe_accounts_from in Hp as (_ & ? & _). Qed.

Lemma add_found_removed agent found p p' added :
  Forall (fun x => exists other, x.1 = system_account other) found ->
  add_found found p = (p', added) -> removed_in agent p -> removed_in agent p'.
Proof.
  revert p p' added. induction found as [|[account probe] found IH]; intros p p' added Hf; cbn [add_found]; [by intros [= <- _]|].
  apply Forall_cons in Hf as [[other Ho] Hf]. cbn in Ho. subst account. destruct (_ && _) eqn:Hc; [|by apply IH].
  destruct (add_found found _) as [p1 added1] eqn:Hadd. intros [= <- _] [Hd Ha]. eapply IH; [done|exact Hadd|]. split; [done|].
  intros a [Hin|Hin]%elem_of_app; [by apply Ha|]. apply list_elem_of_singleton in Hin as ->. unfold system_of. cbn. rewrite andb_true_r. apply bool_decide_eq_false. intros ->.
  apply andb_true_iff in Hc as [_ Hc]. unfold wants_system, dismissed in Hc. cbn in Hc. by rewrite bool_decide_eq_true_2 in Hc.
Qed.

Lemma sync_gone agent ts only : keeps (gone agent) (sync_system_provider_accounts_for ts only).
Proof.
  unfold sync_system_provider_accounts_for. apply keeps_bind; [apply keeps_gets|]. intros policy. case_bool_decide; [apply keeps_ret|].
  set (candidates := system_account <$> _). apply keeps_bind; [apply policy_kept_keeps, policy_kept_probes|].
  intros probes s Hs. unfold final. rewrite M_bind_unfold. cbn [get_policy gets].
  destruct (add_found (zip candidates probes) (policy_of s)) as [p []] eqn:Hadd; [|done].
  apply (gone_set agent p s). eapply add_found_removed; [|exact Hadd|exact Hs]. apply Forall_forall. intros [a pr] Hin.
  apply list_elem_of_lookup in Hin as [k Hin]. apply lookup_zip_with_Some in Hin as (a' & p' & [= -> ->] & Ha & _).
  apply list_elem_of_lookup_2, list_elem_of_fmap in Ha as (other & -> & _). by exists other.
Qed.

Lemma status_kept ts account probe : policy_kept (account_status ts account probe).
Proof.
  intros s. unfold final, account_status. rewrite M_bind_unfold. unfold get_state at 1. rewrite M_bind_unfold. cbn [gets]. unfold in_db, lift.
  destruct (transpose _) as [state|]; [|done]. rewrite M_bind_unfold. destruct (_ && _); [done|]. by destruct (_ && _).
Qed.

Lemma statuses_gone agent ts only : keeps (gone agent) (provider_account_statuses_for ts only).
Proof.
  unfold provider_account_statuses_for. apply keeps_bind; [apply sync_gone|]. intros _. apply keeps_bind; [apply keeps_gets|]. intros policy.
  apply keeps_bind; [apply policy_kept_keeps, policy_kept_probes|]. intros probes. apply keeps_bind; [|intros; apply keeps_ret].
  induction (zip _ probes) as [|[account probe] pairs IH]; cbn [map_M]; [apply keeps_ret|].
  apply keeps_bind; [apply policy_kept_keeps, status_kept|]. intros b. by apply keeps_bind; [|intros; apply keeps_ret].
Qed.

(** What is done with the pool, other than adding the default sign-in again. *)
Inductive PoolOp :=
| ListStatuses (agent : option AgentKind.t)
| SelectFor (agent : AgentKind.t) (required : option string)
| NextReady (current : option string)
| MarkLimited (id : string) (reset_at : option Z)
| Activate (id : string)
| SetToken (id token : string)
| DeleteAccount (id : string)
| SignIn (id : string)
| OpenTooling (id : string)
| ConsumeCredit (id : string).
Definition do_op (ts : Z) (op : PoolOp) : PoolM () :=
  match op with
  | ListStatuses agent => _ ← provider_account_statuses_for ts agent; mret ()
  | SelectFor agent required => _ ← select_provider_account_for ts agent required; mret ()
  | NextReady current => _ ← next_ready_provider_account ts current; mret ()
  | MarkLimited id reset_at => mark_provider_account_limited ts id reset_at
  | Activate id => activate_provider_account id
  | SetToken id token => set_provider_account_token ts id token
  | DeleteAccount id => delete_provider_account id
  | SignIn id => _ ← provider_account_auth_launch id; mret ()
  | OpenTooling id => _ ← provider_account_tooling_launch id; mret ()
  | ConsumeCredit id => _ ← try_consume_provider_credit id; mret ()
  end.
Definition do_ops (ops : list (Z * PoolOp)) (s : Pool) : Pool := foldl (fun s op => final (do_op op.1 op.2) s) s ops.

Lemma keeps_unit {A} agent (m : PoolM A) : keeps (gone agent) m -> keeps (gone agent) (_ ← m; mret ()).
Proof. intros Hm. by apply keeps_bind; [|intros; apply keeps_ret]. Qed.

Lemma keeps_lift_opt {A} agent (o : option A) e : keeps (gone agent) (lift_opt o e : PoolM A).
Proof. apply keeps_lift. Qed.
Lemma keeps_read {A} agent (m : PoolM A) : reads_only m -> keeps (gone agent) m.
Proof. intros Hm. by apply policy_kept_keeps, policy_kept_reads. Qed.

Lemma by_id_gone agent id : keeps (gone agent) (account_by_id id).
Proof.
  apply keeps_bind; [apply keeps_fail_when|]. intros _. apply keeps_bind; [apply keeps_gets|]. intros policy. apply keeps_lift.
Qed.
Lemma invalidate_gone agent : keeps (gone agent) invalidate_account_probes.
Proof. by apply policy_kept_keeps. Qed.
Lemma binary_gone agent kind : keeps (gone agent) (provider_binary kind).
Proof. apply keeps_bind; [apply keeps_fail_when|]. intros _. apply keeps_lift. Qed.
Hint Resolve keeps_unit keeps_lift_opt keeps_read by_id_gone invalidate_gone binary_gone keeps_fail_when keeps_ret reads_home reads_token
  reads_entry reads_failed reads_runtime : perp.

Lemma select_gone agent ts kind required : keeps (gone agent) (select_provider_account_for ts kind required).
Proof.
  unfold select_provider_account_for. apply keeps_bind; [apply statuses_gone|]. intros statuses. case_bool_decide; [apply keeps_ret|].
  apply keeps_bind; [eauto with perp|]. intros; apply keeps_ret.
Qed.

Lemma keeps_with_policy {A} agent (f : LimitPolicy.t -> PoolM A) :
  (forall p, removed_in agent p -> keeps (gone agent) (f p)) -> keeps (gone agent) (policy ← get_policy; f policy).
Proof. intros Hf s Hs. unfold final. rewrite M_bind_unfold. by apply (Hf (policy_of s)). Qed.
Lemma keeps_set agent p : removed_in agent p -> keeps (gone agent) (set_policy p).
Proof. intros Hp s _. by apply gone_set. Qed.

Lemma activate_gone agent id : keeps (gone agent) (activate_provider_account id).
Proof.
  apply keeps_bind; [apply keeps_fail_when|]. intros _. apply keeps_with_policy. intros p [Hd Ha].
  destruct (position _ p.(LimitPolicy.accounts)) as [k|]; [|apply keeps_lift]. apply keeps_bind; [apply keeps_lift|]. intros k'.
  destruct (p.(LimitPolicy.accounts) !! k') as [a|] eqn:Hk; [|apply keeps_lift].
  intros s Hs. apply (keeps_set agent _); [|exact Hs]. split; [done|].
  intros x [->|Hin]%elem_of_cons; [apply (Ha a); by eapply list_elem_of_lookup_2|]. apply Ha.
  apply list_elem_of_lookup in Hin as [j Hj]. rewrite list_lookup_delete in Hj. case_decide; by eapply list_elem_of_lookup_2.
Qed.

Lemma delete_gone agent id : keeps (gone agent) (delete_provider_account id).
Proof.
  apply keeps_bind; [apply keeps_fail_when|]. intros _. apply keeps_with_policy. intros p [Hd Ha]. apply keeps_bind; [|intros _].
  - apply keeps_set. split; [|intros a [_ Hin]%list_elem_of_filter; by apply Ha]. cbn. destruct (find _ _); [|done].
    destruct (_ && _); [|done]. apply elem_of_app. by left.
  - apply keeps_bind; [by apply policy_kept_keeps|]. intros _. apply keeps_bind; [apply invalidate_gone|]. intros _.
    destruct (is_some_and _ _); [apply keeps_ret|]. apply keeps_bind; [eauto with perp|]. intros _. apply keeps_bind.
    + destruct (vault_error id); [apply keeps_ret|by apply policy_kept_keeps].
    + intros _. destruct (remove_dir _); apply keeps_lift.
Qed.

Lemma op_gone agent ts op : keeps (gone agent) (do_op ts op).
Proof.
  destruct op; cbn [do_op].
  - apply keeps_unit, statuses_gone.
  - apply keeps_unit, select_gone.
  - apply keeps_unit. apply keeps_bind; [apply statuses_gone|]. eauto with perp.
  - unfold mark_provider_account_limited. apply keeps_bind; [apply keeps_read|].
    { intros s. unfold final, get_state. rewrite M_bind_unfold. done. }
    intros state. apply keeps_bind; [apply keeps_gets|]. intros policy. apply keeps_bind; [by apply policy_kept_keeps|]. intros _.
    case_match; [by apply policy_kept_keeps|apply keeps_ret].
  - apply activate_gone.
  - unfold set_provider_account_token. apply keeps_bind; [apply by_id_gone|]. intros account. apply keeps_bind; [apply keeps_fail_when|]. intros _.
    apply keeps_bind; [apply keeps_fail_when|]. intros _. apply keeps_bind; [eauto with perp|]. intros _. apply keeps_bind; [eauto with perp|]. intros _.
    apply keeps_bind; [by apply policy_kept_keeps|]. intros _. apply keeps_bind; [by apply policy_kept_keeps|]. intros _. apply invalidate_gone.
  - apply delete_gone.
  - apply keeps_unit. apply keeps_bind; [apply by_id_gone|]. intros account. apply keeps_bind; [apply binary_gone|]. intros binary.
    apply keeps_bind; [eauto with perp|]. intros home. apply keeps_bind; [apply keeps_lift|]. intros [args instructions].
    apply keeps_bind; [apply invalidate_gone|]. intros _. apply keeps_ret.
  - apply keeps_unit. apply keeps_bind; [apply by_id_gone|]. intros account. apply keeps_bind; [apply binary_gone|]. intros binary.
    apply keeps_bind; [eauto with perp|]. intros home. apply keeps_bind; [eauto with perp|]. intros token.
    apply keeps_bind; [apply keeps_fail_when|]. intros _. apply keeps_ret.
  - apply keeps_unit. apply keeps_bind; [apply by_id_gone|]. intros account. destruct (_ || _); [apply keeps_ret|].
    apply keeps_bind; [eauto with perp|]. intros home. destruct (consume_reset_credit _); apply keeps_lift.
Qed.

(** An account of a normalised pool has a valid id. *)
Lemma pool_id_valid s account : account ∈ (policy_of s).(LimitPolicy.accounts) ->
  (len account.(ProviderAccount.id) <? 8) || (128 <? len account.(ProviderAccount.id)) || negb (Limits.all_chars id_char account.(ProviderAccount.id)) = false.
Proof.
  intros Hin. assert (account_valid account) as (_ & Hlen & Hid & _).
  { revert account Hin. unfold policy_of. cbn [normalize_limit_policy LimitPolicy.accounts]. intros account.
    apply foldl_replace_forall; [by intros x ?%elem_of_nil|]. intros x (a & _ & Hx)%list_elem_of_omap. by eapply normalize_account_valid. }
  rewrite Hid. cbn. rewrite orb_false_r. apply orb_false_iff. split; apply Z.ltb_ge; lia.
Qed.

(** the default sign-in of a provider stays removed. Once the user deletes
    the account that is the provider's default sign-in (the only one of the pool),
    no later listing, choice of an account, limit, activation, token, deletion or
    sign-in, in any order and at any time, puts a default sign-in of that provider
    back into the pool, however the checks of the program turn out; only adding
    it again does. *)
Theorem removed_default_stays_out agent id account ops s :
  find (fun a => eq_str a.(ProviderAccount.id) id) (policy_of s).(LimitPolicy.accounts) = Some account ->
  (forall a, a ∈ (policy_of s).(LimitPolicy.accounts) -> system_of agent a = bool_decide (a = account)) ->
  (forall a, a ∈ (policy_of s).(LimitPolicy.accounts) -> a.(ProviderAccount.id) = id -> a = account) ->
  let s' := do_ops ops (final (delete_provider_account id) s) in
  forall a, a ∈ (policy_of s').(LimitPolicy.accounts) -> system_of agent a = false.
Proof.
  intros Hf Hsys Honly s'. pose proof Hf as [Hin Hid]%find_Some_elem. apply bool_decide_eq_true in Hid.
  assert (system_of agent account = true) as Hacc by (rewrite Hsys by done; by apply bool_decide_eq_true).
  assert (gone agent (final (delete_provider_account id) s)) as Hgone.
  { unfold delete_provider_account, final. rewrite M_bind_unfold. unfold validate_id, fail_when. rewrite <- Hid, (pool_id_valid s account Hin).
    cbn [mret M_ret]. rewrite M_bind_unfold. cbn [get_policy gets]. rewrite Hid, Hf. cbn [is_some_and].
    apply andb_true_iff in Hacc as [Hag Hmode]. rewrite Hmode. cbn [andb]. rewrite M_bind_unfold. apply bool_decide_eq_true in Hag.
    apply (gone_set agent _ s). split.
    - cbn. unfold dismissed. rewrite Hag. case_bool_decide; cbn; [done|]. apply elem_of_app. right. by apply list_elem_of_singleton.
    - intros a [Hne Ha]%list_elem_of_filter. rewrite Hsys by done. apply bool_decide_eq_false. intros ->. by apply Hne. }
  assert (gone agent s') as [_ Hres]; [|exact Hres]. unfold s', do_ops. clear -Hgone TextSerdeOk0. revert Hgone. generalize (final (delete_provider_account id) s).
  induction ops as [|[ts op] ops IH]; intros s0 Hs0; cbn; [done|]. apply IH. by apply op_gone.
Qed.
End Props.

(** ** A pool with the default sign-in of Codex *)
Module DemoPool.
Abbreviation Text := (prod (bool * bool * bool * bool) (prod (list string * list string * Z)
  (prod (list (string * option string * option string)) (list (string * string * string * bool * bool * nat))))).
Definition mode_number (m : ProviderAccountAuthMode.t) : nat :=
  match m with ProviderAccountAuthMode.IsolatedCli => 0 | ProviderAccountAuthMode.OauthToken => 1 | ProviderAccountAuthMode.System => 2 end%nat.
Definition number_mode (n : nat) : ProviderAccountAuthMode.t :=
  match n with 0%nat => ProviderAccountAuthMode.IsolatedCli | 1%nat => ProviderAccountAuthMode.OauthToken | _ => ProviderAccountAuthMode.System end.
Definition agent_of (s : string) : AgentKind.t := default AgentKind.Codex (unwire s).
Definition to_tuple (p : LimitPolicy.t) : Text :=
  ((p.(LimitPolicy.auto_switch), p.(LimitPolicy.switch_back), p.(LimitPolicy.resume_with_earliest), p.(LimitPolicy.keep_awake)),
   ((wire <$> p.(LimitPolicy.agent_priority), wire <$> p.(LimitPolicy.dismissed_system_accounts), p.(LimitPolicy.unknown_reset_retry_secs)),
   ((fun x => (wire x.(AgentTargetProfile.agent), x.(AgentTargetProfile.model), x.(AgentTargetProfile.reasoning))) <$> p.(LimitPolicy.agent_profiles),
    (fun a => (a.(ProviderAccount.id), a.(ProviderAccount.label), wire a.(ProviderAccount.agent), a.(ProviderAccount.enabled),
               a.(ProviderAccount.use_credits), mode_number a.(ProviderAccount.auth_mode))) <$> p.(LimitPolicy.accounts)))).
Definition of_tuple (t : Text) : LimitPolicy.t :=
  let '((auto, back, resume, awake), ((priority, dismissed, secs), (profiles, accounts))) := t in
  LimitPolicy.mk auto back (agent_of <$> priority) ((fun '(a, m, r) => AgentTargetProfile.mk (agent_of a) m r) <$> profiles)
    ((fun '(id, label, a, e, c, m) => ProviderAccount.mk id label (agent_of a) e c (number_mode m)) <$> accounts) (agent_of <$> dismissed) resume secs awake.

Lemma of_to_tuple p : of_tuple (to_tuple p) = p.
Proof.
  assert (forall x, agent_of (wire x) = x) as Ha by (intros x; unfold agent_of; by rewrite unwire_wire).
  assert (forall l, agent_of <$> (wire <$> l) = l) as Hl
    by (intros l; rewrite <- list_fmap_compose; rewrite <- (list_fmap_id l) at 2; apply list_fmap_ext; intros ? x ?; apply Ha).
  destruct p as [auto back priority profiles accounts dismissed resume secs awake]. cbn. rewrite !Hl, <- !list_fmap_compose. f_equal.
  - rewrite <- (list_fmap_id profiles) at 2. apply list_fmap_ext. intros ? [a m r] ?. cbn. f_equal. apply Ha.
  - rewrite <- (list_fmap_id accounts) at 2. apply list_fmap_ext. intros ? [i l a e c m] ?. cbn. f_equal; [apply Ha|by destruct m].
Qed.

#[local] Instance policy_text : TextSerde LimitPolicy.t := {
  to_text p := Tree.digits (encode (to_tuple p));
  from_text s := ok_or (of_tuple <$> countable.decode (Tree.undigits s)) "expected value"
}.
#[local] Instance policy_text_ok : TextSerdeOk LimitPolicy.t.
Proof. split. intros p. cbn. rewrite Tree.undigits_digits, decode_encode. cbn [fmap option_fmap option_map ok_or]. f_equal. apply of_to_tuple. Qed.

(** Codex is signed in, whenever it is asked. *)
#[local] Instance host : AccountHost := {
  data_dir := "/data";
  find_binary name := Some ("/bin/" +:+ name);
  status_output _ _ _ _ := Some ("Logged in", "");
  default_codex_home := None;
  small_file _ _ := None;
  base64url _ := None;
  entry_error _ := None;
  vault_error _ := None;
  make_dir _ := Ok ();
  remove_dir _ := Ok ();
  consume_reset_credit _ := Ok false
}.
#[local] Instance ascii_clock : LimitClock := {
  lowercase := to_ascii_lowercase;
  rfc3339 _ := None;
  seconds z := Some z;
  after_ a b := Some (a + b);
  wall_clock z := z;
  from_wall_clock z := Some z
}.

Definition pool : Pool := final (provider_account_statuses_for (V:=Tree.t) 0 (Some AgentKind.Codex)) (mkPool None [] ∅ [] []).
Definition after : Pool :=
  do_ops (V:=Tree.t) [(1, ListStatuses None); (30000, SelectFor AgentKind.Codex None)] (final (delete_provider_account "system-codex") pool).

Lemma removed_default_stays_out_witness :
  ProviderAccount.id <$> (policy_of pool).(LimitPolicy.accounts) = ["system-codex"] /\
  (forall a, a ∈ (policy_of after).(LimitPolicy.accounts) -> system_of AgentKind.Codex a = false) /\
  ProviderAccount.id <$> (policy_of after).(LimitPolicy.accounts) = [].
Proof.
  assert ((policy_of pool).(LimitPolicy.accounts) = [system_account AgentKind.Codex]) as Hpool by (by vm_compute).
  split; [by rewrite Hpool|]. split; [|by vm_compute]. unfold after.
  pose proof (removed_default_stays_out (V:=Tree.t) AgentKind.Codex "system-codex" (system_account AgentKind.Codex)
    [(1, ListStatuses None); (30000, SelectFor AgentKind.Codex None)] pool) as Hout. rewrite Hpool in Hout.
  cbv zeta in Hout. apply Hout; clear Hout.
  - by vm_compute.
  - intros a Ha. apply list_elem_of_singleton in Ha as ->. by vm_compute.
  - intros a Ha _. by apply list_elem_of_singleton in Ha as ->.
Defined.
End DemoPool.
