(* ===== verification/CloudRuns.v ===== *)
(** * Cloud runs: the records, their table, the policy and the trigger matrix

    The structs of crates/am-proto/src/cloud.rs, the repository of
    am-db/src/repos/cloud_run.rs, and the parts of am-core/src/cloud_handoff.rs
    that compute: the normal form of the policy and what to do for a thread when
    the machine goes away. *)
From Stdlib Require Import Ascii String.
From S2P Require Import Prelude RustStr Enums Records WorkGraphDb WorkGraphInv SqlTable AgentDb.
#[local] Open Scope string_scope.
#[local] Open Scope Z_scope.

Module CloudRun.
Record t := mk {
  id : string;
  thread_id : string;
  agent_kind : AgentKind.t;
  provider_task_id : option string;
  url : option string;
  env_id : option string;
  branch : option string;
  base_commit : option string;
  launch_commit : option string;
  status : CloudRunStatus.t;
  trigger : CloudHandoffTrigger.t;
  launched_at : Z;
  last_activity_at : option Z;
  last_seen_commit : option string;
  reclaimed_at : option Z;
  failure_reason : option string
}.
End CloudRun.

Module CloudAvailability.
Record t := mk { agent : AgentKind.t; ready : bool; authenticated : bool; blockers : list string; checked_at : Z }.
End CloudAvailability.

Module CloudPolicy.
Record t := mk {
  enabled : bool;
  continue_on_sleep : bool;
  continue_on_shutdown : bool;
  allow_cross_provider : bool;
  provider_priority : list AgentKind.t;
  checkpoint_interval_secs : Z;
  monitor_poll_secs : Z;
  stall_timeout_secs : Z;
  max_concurrent_cloud_runs : Z;
  codex_env_id : option string;
  require_approval : bool
}.
End CloudPolicy.

(** [CloudPolicy::default()]. *)
Definition default_cloud_policy : CloudPolicy.t :=
  CloudPolicy.mk false true true false [AgentKind.ClaudeCode; AgentKind.Codex] 120 30 900 2 None false.

(** ** The policy and the trigger matrix (cloud_handoff.rs) *)

Definition cloud_provider (agent : AgentKind.t) : bool :=
  bool_decide (agent = AgentKind.ClaudeCode) || bool_decide (agent = AgentKind.Codex).

Fixpoint push_new (priority : list AgentKind.t) (agents : list AgentKind.t) : list AgentKind.t :=
  match agents with
  | [] => priority
  | agent :: agents =>
      push_new (if cloud_provider agent && negb (bool_decide (agent ∈ priority)) then priority ++ [agent] else priority)%list agents
  end.

Definition normalize_cloud_policy (p : CloudPolicy.t) : CloudPolicy.t :=
  CloudPolicy.mk p.(CloudPolicy.enabled) p.(CloudPolicy.continue_on_sleep) p.(CloudPolicy.continue_on_shutdown)
    p.(CloudPolicy.allow_cross_provider)
    (push_new (push_new [] p.(CloudPolicy.provider_priority)) [AgentKind.ClaudeCode; AgentKind.Codex])
    (Z.min p.(CloudPolicy.checkpoint_interval_secs) 86400)
    (clampZ 1 3600 p.(CloudPolicy.monitor_poll_secs))
    (clampZ 60 86400 p.(CloudPolicy.stall_timeout_secs))
    (clampZ 1 64 p.(CloudPolicy.max_concurrent_cloud_runs))
    (match p.(CloudPolicy.codex_env_id) with
     | Some id => if is_empty (trim id) then None else Some (trim id)
     | None => None
     end)
    p.(CloudPolicy.require_approval).

Inductive CloudDecision :=
| LaunchOn (agent : AgentKind.t)
| Pause
| Disabled.

Definition switched_off (trigger : CloudHandoffTrigger.t) (policy : CloudPolicy.t) : bool :=
  match trigger with
  | CloudHandoffTrigger.Sleep => negb policy.(CloudPolicy.continue_on_sleep)
  | CloudHandoffTrigger.Shutdown => negb policy.(CloudPolicy.continue_on_shutdown)
  | CloudHandoffTrigger.Manual => false
  end.

Definition is_ready (a : CloudAvailability.t) : bool := a.(CloudAvailability.ready).
Definition option_list {A} (o : option A) : list A := match o with Some a => [a] | None => [] end.

Definition cloud_decision (trigger : CloudHandoffTrigger.t) (policy : CloudPolicy.t) (current_agent : AgentKind.t)
  (current_cloud other_cloud : option CloudAvailability.t) (active_cloud_runs : Z) : CloudDecision :=
  if negb policy.(CloudPolicy.enabled) then Disabled
  else if switched_off trigger policy then Disabled
  else if policy.(CloudPolicy.max_concurrent_cloud_runs) <=? active_cloud_runs then Pause
  else if match current_cloud with Some a => is_ready a | None => false end then LaunchOn current_agent
  else if policy.(CloudPolicy.allow_cross_provider) then
    let ready := filter (fun a => is_ready a = true) (option_list current_cloud ++ option_list other_cloud)%list in
    let offers agent := existsb (fun a => bool_decide (a.(CloudAvailability.agent) = agent)) ready in
    match find offers policy.(CloudPolicy.provider_priority) with
    | Some preferred => LaunchOn preferred
    | None => match head ready with Some first_ready => LaunchOn first_ready.(CloudAvailability.agent) | None => Pause end
    end
  else Pause.

(** ** The table (cloud_run.rs) *)

Module CloudRunRow.
Record t := mk {
  id : string;
  thread_id : string;
  agent_kind : string;
  provider_task_id : option string;
  url : option string;
  env_id : option string;
  branch : option string;
  base_commit : option string;
  launch_commit : option string;
  status : string;
  trigger : string;
  launched_at : Z;
  last_activity_at : option Z;
  last_seen_commit : option string;
  reclaimed_at : option Z;
  failure_reason : option string
}.
Definition set_status (v : string) (r : t) : t :=
  mk r.(id) r.(thread_id) r.(agent_kind) r.(provider_task_id) r.(url) r.(env_id) r.(branch) r.(base_commit) r.(launch_commit)
     v r.(trigger) r.(launched_at) r.(last_activity_at) r.(last_seen_commit) r.(reclaimed_at) r.(failure_reason).
Definition set_provider (task_id link : option string) (r : t) : t :=
  mk r.(id) r.(thread_id) r.(agent_kind) (opt_or task_id r.(provider_task_id)) (opt_or link r.(url)) r.(env_id) r.(branch)
     r.(base_commit) r.(launch_commit) r.(status) r.(trigger) r.(launched_at) r.(last_activity_at) r.(last_seen_commit)
     r.(reclaimed_at) r.(failure_reason).
Definition set_activity (ts : Z) (commit : option string) (r : t) : t :=
  mk r.(id) r.(thread_id) r.(agent_kind) r.(provider_task_id) r.(url) r.(env_id) r.(branch) r.(base_commit) r.(launch_commit)
     r.(status) r.(trigger) r.(launched_at) (Some ts) (opt_or commit r.(last_seen_commit)) r.(reclaimed_at) r.(failure_reason).
Definition set_closed (v : string) (ts : Z) (reason : option string) (r : t) : t :=
  mk r.(id) r.(thread_id) r.(agent_kind) r.(provider_task_id) r.(url) r.(env_id) r.(branch) r.(base_commit) r.(launch_commit)
     v r.(trigger) r.(launched_at) r.(last_activity_at) r.(last_seen_commit) (Some ts) reason.
End CloudRunRow.

Definition cloud_run_row (x : CloudRun.t) : CloudRunRow.t :=
  CloudRunRow.mk x.(CloudRun.id) x.(CloudRun.thread_id) (wire x.(CloudRun.agent_kind))
    x.(CloudRun.provider_task_id) x.(CloudRun.url) x.(CloudRun.env_id) x.(CloudRun.branch) x.(CloudRun.base_commit)
    x.(CloudRun.launch_commit) (wire x.(CloudRun.status)) (wire x.(CloudRun.trigger))
    x.(CloudRun.launched_at) x.(CloudRun.last_activity_at) x.(CloudRun.last_seen_commit) x.(CloudRun.reclaimed_at)
    x.(CloudRun.failure_reason).
Definition cloud_run_try_from (r : CloudRunRow.t) : result DbError CloudRun.t :=
  agent_kind ← decode (T:=AgentKind.t) r.(CloudRunRow.agent_kind);
  status ← decode (T:=CloudRunStatus.t) r.(CloudRunRow.status);
  trigger ← decode (T:=CloudHandoffTrigger.t) r.(CloudRunRow.trigger);
  mret (CloudRun.mk r.(CloudRunRow.id) r.(CloudRunRow.thread_id) agent_kind r.(CloudRunRow.provider_task_id)
    r.(CloudRunRow.url) r.(CloudRunRow.env_id) r.(CloudRunRow.branch) r.(CloudRunRow.base_commit)
    r.(CloudRunRow.launch_commit) status trigger r.(CloudRunRow.launched_at) r.(CloudRunRow.last_activity_at)
    r.(CloudRunRow.last_seen_commit) r.(CloudRunRow.reclaimed_at) r.(CloudRunRow.failure_reason)).
#[global] Instance cloud_run_codec : Codec CloudRunRow.t CloudRun.t := { to_row := cloud_run_row; try_from := cloud_run_try_from }.

(** The table alone: nothing refers to it and it refers to nothing. *)
Abbreviation CloudDb := (list CloudRunRow.t).
#[global] Instance cloud_run_table : Table CloudDb CloudRunRow.t := {
  row_id := CloudRunRow.id; rows_of s := s; put_rows l _ := l; references_ok _ _ := true }.

Module NewCloudRun.
Record t := mk {
  thread_id : string;
  agent_kind : AgentKind.t;
  provider_task_id : option string;
  url : option string;
  env_id : option string;
  branch : option string;
  base_commit : option string;
  launch_commit : option string;
  trigger : CloudHandoffTrigger.t
}.
End NewCloudRun.

Module CloudRuns.
Abbreviation CloudM := (M CloudDb DbError).

Definition new_run (ts : Z) (id : string) (i : NewCloudRun.t) : CloudRun.t :=
  CloudRun.mk id i.(NewCloudRun.thread_id) i.(NewCloudRun.agent_kind) i.(NewCloudRun.provider_task_id) i.(NewCloudRun.url)
    i.(NewCloudRun.env_id) i.(NewCloudRun.branch) i.(NewCloudRun.base_commit) i.(NewCloudRun.launch_commit)
    CloudRunStatus.Provisioning i.(NewCloudRun.trigger) ts None i.(NewCloudRun.launch_commit) None None.
Definition create (ts : Z) (id : string) (input : NewCloudRun.t) : CloudM CloudRun.t :=
  let run := new_run ts id input in
  _ ← insert_row (to_row run); mret run.

Definition get_run (id : string) : CloudM (option CloudRun.t) := fetch_by_id (T:=CloudRun.t) (R:=CloudRunRow.t) id.

(** [status IN ('provisioning', 'running', 'stalled')]. *)
Definition active_row (r : CloudRunRow.t) : bool :=
  existsb (eq_str r.(CloudRunRow.status)) ["provisioning"; "running"; "stalled"].
Definition of_thread (thread_id : string) (r : CloudRunRow.t) : bool := eq_str r.(CloudRunRow.thread_id) thread_id.

Definition active_for_thread (thread_id : string) : CloudM (option CloudRun.t) :=
  rows ← gets (selected (fun r => of_thread thread_id r && active_row r) (newest_first CloudRunRow.launched_at));
  lift (transpose (try_from <$> head rows)).
Definition list_active : CloudM (list CloudRun.t) := fetch_all active_row (oldest_first CloudRunRow.launched_at).
Definition list_for_thread (thread_id : string) : CloudM (list CloudRun.t) :=
  fetch_all (of_thread thread_id) (newest_first CloudRunRow.launched_at).

Definition set_status (id : string) (status : CloudRunStatus.t) : CloudM () :=
  _ ← update_rows (by_id id) (CloudRunRow.set_status (CloudRunStatus.as_str status)); mret ().
Definition set_provider_ref (id : string) (provider_task_id url : option string) : CloudM () :=
  _ ← update_rows (by_id id) (CloudRunRow.set_provider provider_task_id url); mret ().
Definition record_activity (ts : Z) (id : string) (last_seen_commit : option string) : CloudM () :=
  _ ← update_rows (by_id id) (CloudRunRow.set_activity ts last_seen_commit); mret ().
Definition close (ts : Z) (id : string) (status : CloudRunStatus.t) (failure_reason : option string) : CloudM () :=
  _ ← update_rows (by_id id) (CloudRunRow.set_closed (CloudRunStatus.as_str status) ts failure_reason); mret ().
End CloudRuns.
