(* ===== verification/CloudClients.v ===== *)
(** * The clients of the providers' clouds (crates/am-agents/src/cloud/)

    Readiness, launch, status and results of a cloud task, over the programs of
    the two providers.  [Sure] computations cannot fail; those of [Ask] answer a
    [CloudError], or panic where reading a reset time does.  Running a program is
    class [CloudHost]; [ts] is the time of a call in milliseconds. *)
From Stdlib Require Import Ascii String.
From stdpp Require Import pretty.
From S2P Require Import Prelude RustStr Json Enums Records Limits ThreadText Attachments GitText WorkGraphDb CoreWorld TaskTexts JsonView ProviderText CloudRuns.
#[local] Open Scope string_scope.
#[local] Open Scope Z_scope.

(** ** mod.rs *)

Module CloudError.
Inductive t :=
| NotInstalled (program : string)
| NotAuthenticated (msg : string)
| UsageLimited (reset_at : option Z)
| LaunchFailed (msg : string)
| CommandFailed (msg : string)
| ParseFailed (msg : string).
End CloudError.

Module CloudLaunchRequest.
Record t := mk { prompt : string; worktree : string; branch : option string; env_id : option string }.
End CloudLaunchRequest.

Module CloudTaskRef.
Record t := mk { agent : AgentKind.t; task_id : option string; url : option string; env_id : option string }.
End CloudTaskRef.

Module CloudPollStatus.
Inductive t := Provisioning | Running | Completed | Failed (reason : string) | Expired | Unknown.
#[global] Instance CloudPollStatus_eq_dec : EqDecision t.
Proof. solve_decision. Defined.
End CloudPollStatus.

Module CommandOutput.
Record t := mk { status_success : bool; stdout : string; stderr : string }.
Definition combined (o : t) : string := o.(stdout) +:+ newline +:+ o.(stderr).
End CommandOutput.

(** How a program run under a deadline ends. *)
Inductive CommandEnd :=
| Finished (output : CommandOutput.t)
| NotRun (error : string)
| TimedOut.

(** What the loop around [claude --cloud] is woken by. *)
Inductive LaunchInput :=
| Line (line : string)
| StreamsClosed
| Exited (success : bool)
| Elapsed.

(** A run of [claude --cloud]: the inputs of the loop, the lines left in the
    channel after it, and the exit within five seconds, if any. *)
Module ClaudeLaunch.
Record t := mk { inputs : list LaunchInput; left_over : list string; settled : option bool }.
End ClaudeLaunch.

(** A cloud error, or a panic. *)
Inductive AskFail :=
| Refused (e : CloudError.t)
| AskPanicked.

Abbreviation Sure E := (M (Sys E) Empty_set).
Abbreviation Ask E := (M (Sys E) AskFail).

Class CloudHost (E : Type) := {
  find_program : string -> Sure E (option string);
  (** a program with its arguments in a directory, with a deadline in seconds *)
  command_end : string -> list string -> option string -> Z -> Sure E CommandEnd;
  (** the program started with a prompt in a worktree, or the error of starting it *)
  claude_cloud : string -> string -> string -> Sure E (result string ClaudeLaunch.t);
  (** [Display] of a [DateTime<Utc>] *)
  show_utc : Z -> string
}.

(** A computation that cannot fail, where failing is possible. *)
Definition surely {S Er A} (m : M S Empty_set A) : M S Er A :=
  fun s => let '(s', r) := m s in (s', match r with Ok a => Ok a | Err e => match e with end end).

Module CloudTaskClient.
Record t (E : Type) := mk {
  availability : Z -> option string -> Sure E CloudAvailability.t;
  launch : Z -> CloudLaunchRequest.t -> Ask E CloudTaskRef.t;
  poll : CloudTaskRef.t -> Ask E CloudPollStatus.t;
  fetch_results : CloudTaskRef.t -> string -> Ask E string
}.
Arguments availability {E}.
Arguments launch {E}.
Arguments poll {E}.
Arguments fetch_results {E}.
End CloudTaskClient.

(** The suffix of [s] from the first [p]. *)
Fixpoint from_first (p s : string) : option string :=
  if starts_with p s then Some s
  else match s with String _ s => from_first p s | EmptyString => None end.

Definition url_end (c : ascii) : bool := existsb (Ascii.eqb c) ["."; ","; ")"; "]"; ";"; "034"; "039"]%char.
Fixpoint first_url (tokens : list string) : option string :=
  match tokens with
  | [] => None
  | token :: tokens =>
      match from_first "https://" token with
      | Some rest => let url := trim_end_chars url_end rest in if 8 <? len url then Some url else first_url tokens
      | None => first_url tokens
      end
  end.
Definition extract_url (text : string) : option string := first_url (words text).

(** ** What the clients read in texts *)

Definition contains_any (needles : list string) (s : string) : bool := existsb (fun n => contains n s) needles.

Definition map_status_of (lower raw : string) : CloudPollStatus.t :=
  if contains_any ["pending"; "queued"; "provision"] lower then CloudPollStatus.Provisioning
  else if contains_any ["in_progress"; "in progress"; "running"] lower then CloudPollStatus.Running
  else if contains_any ["completed"; "succeeded"; "ready"] lower then CloudPollStatus.Completed
  else if contains_any ["expired"] lower then CloudPollStatus.Expired
  else if contains_any ["failed"; "error"; "cancelled"] lower then CloudPollStatus.Failed (take_chars 200 (trim raw))
  else CloudPollStatus.Unknown.

Definition is_slash (c : ascii) : bool := Ascii.eqb c "/".
Definition last_of (parts : list string) : string := default EmptyString (last parts).
Definition task_id_from_url (url : string) : option string :=
  let last := last_of (split_where is_slash (trim_end_chars is_slash url)) in
  let id := default last (head (split_where (fun c => Ascii.eqb c "?" || Ascii.eqb c "#") last)) in
  if starts_with "task" id && (5 <? len id) then Some id else None.

Definition session_char (c : ascii) : bool := is_ascii_alphanumeric c || Ascii.eqb c "_".
Definition long_after (prefix raw : string) : bool :=
  match strip_prefix prefix raw with Some r => 8 <=? len r | None => false end.
Definition find_session_token (text : string) : option string :=
  find (fun raw => long_after "session_" raw || long_after "cse_" raw) (split_where (fun c => negb (session_char c)) text).

Definition parse_session_ref (text : string) : option (option string * option string) :=
  let url := match extract_url text with Some u => if contains "claude.ai" u then Some u else None | None => None end in
  let id := find_session_token text in
  match url, id with
  | None, None => None
  | _, Some _ => Some (id, url)
  | Some u, None => Some (find_session_token (last_of (split_where is_slash u)), url)
  end.

(** ** The loop around [claude --cloud] *)

Abbreviation SessionRef := (option (option string * option string)).
(** What it printed, the session found, and whether it counts as finished.  The
    deadline always comes: an exhausted list of inputs is its end. *)
Fixpoint launch_loop (inputs : list LaunchInput) (all_output : string) (session : SessionRef) : string * SessionRef * bool :=
  match inputs with
  | Line line :: inputs =>
      launch_loop inputs (all_output +:+ line +:+ newline) (match session with Some _ => session | None => parse_session_ref line end)
  | StreamsClosed :: _ => (all_output, session, false)
  | Exited success :: _ => (all_output, session, success)
  | Elapsed :: _ | [] => (all_output, session, bool_decide (is_Some session))
  end.

Section Clients.
Context `{LimitClock} {V : Type} `{JsonView V} {E : Type} `{!CloudHost E}.

Definition cloud_error_text (e : CloudError.t) : string :=
  match e with
  | CloudError.NotInstalled program => program +:+ " CLI is not installed"
  | CloudError.NotAuthenticated msg => msg
  | CloudError.UsageLimited reset_at =>
      "usage limited" +:+ match reset_at with Some dt => " (resets " +:+ show_utc dt +:+ ")" | None => EmptyString end
  | CloudError.LaunchFailed msg => "cloud launch failed: " +:+ msg
  | CloudError.CommandFailed msg => "cloud command failed: " +:+ msg
  | CloudError.ParseFailed msg => "could not parse provider output: " +:+ msg
  end.

Definition run_cloud_command (binary : string) (args : list string) (cwd : option string) (timeout : Z) :
  Sure E (result CloudError.t CommandOutput.t) :=
  end_ ← command_end binary args cwd timeout;
  mret match end_ with
       | Finished output => Ok output
       | NotRun error => Err (CloudError.CommandFailed error)
       | TimedOut => Err (CloudError.CommandFailed ("timed out after " +:+ pretty timeout +:+ "s"))
       end.

Definition refuse {A} (e : CloudError.t) : Ask E A := throw (Refused e).
(** [run_cloud_command(..).await?]. *)
Definition command (binary : string) (args : list string) (cwd : option string) (timeout : Z) : Ask E CommandOutput.t :=
  out ← surely (run_cloud_command binary args cwd timeout);
  match out with Ok out => mret out | Err e => refuse e end.
Definition need_program (program : string) : Ask E string :=
  found ← surely (find_program program); lift_opt found (Refused (CloudError.NotInstalled program)).

Definition launch_failure (ts : Z) (output : string) : option CloudError.t :=
  limit ← detect_usage_limit ts output;
  Some match limit with
       | Some reset_at => CloudError.UsageLimited reset_at
       | None =>
           let trimmed := take_chars 600 (trim output) in
           CloudError.LaunchFailed (if is_empty trimmed then "provider CLI exited with an error and no output" else trimmed)
       end.
Definition launch_failed {A} (ts : Z) (output : string) : Ask E A :=
  match launch_failure ts output with Some e => refuse e | None => throw AskPanicked end.

Definition map_status (raw : string) : CloudPollStatus.t := map_status_of (lowercase raw) raw.

(** ** codex.rs *)

Definition blank_id (id : option string) : bool := match id with Some id => is_empty (trim id) | None => true end.
Definition NO_ENV_ID : string :=
  "No Codex Cloud environment id configured (create one at chatgpt.com/codex, then set it in Settings " +:+
  bytes_of [226; 134; 146] +:+ " Cloud Continuity)".

(** Signed in, and why not. *)
Definition codex_signed_in (binary : option string) : Sure E (bool * list string) :=
  match binary with
  | None => mret (false, ["Codex CLI is not installed"])
  | Some bin =>
      out ← run_cloud_command bin ["login"; "status"] None 60;
      let signed := match out with
                    | Ok out =>
                        let combined := lowercase (CommandOutput.combined out) in
                        out.(CommandOutput.status_success) && contains "logged in" combined && negb (contains "not logged in" combined)
                    | Err _ => false
                    end in
      mret (signed, if signed then [] else ["Codex CLI is not signed in"])
  end.

Definition codex_reachable (bin : string) : Sure E (list string) :=
  out ← run_cloud_command bin ["cloud"; "list"; "--limit"; "1"; "--json"] None 60;
  mret match out with
       | Ok out =>
           if out.(CommandOutput.status_success) then []
           else ["Codex Cloud is unreachable: " +:+ take_chars 200 (trim (CommandOutput.combined out))]
       | Err e => ["Codex Cloud is unreachable: " +:+ cloud_error_text e]
       end.

Definition codex_availability (ts : Z) (codex_env_id : option string) : Sure E CloudAvailability.t :=
  binary ← find_program "codex";
  '(authenticated, blockers) ← codex_signed_in binary;
  let blockers := (blockers ++ if blank_id codex_env_id then [NO_ENV_ID] else [])%list in
  probed ← match binary with
           | Some bin => if (authenticated : bool) && bool_decide (blockers = []) then codex_reachable bin else mret []
           | None => mret []
           end;
  let blockers := (blockers ++ probed)%list in
  mret (CloudAvailability.mk AgentKind.Codex (bool_decide (blockers = [])) authenticated blockers ts).

(** The first entry of a [tasks] array, with an id. *)
Definition newest_of (parsed : V) : option (string * option string) :=
  t ← get_array parsed "tasks" ≫= head;
  id ← get_str t "id";
  Some (id, get_str t "url").
Definition newest_task (binary env_id : string) : Ask E (option (string * option string)) :=
  out ← command binary ["cloud"; "list"; "--json"; "--limit"; "1"; "--env"; env_id] None 60;
  if negb out.(CommandOutput.status_success) then mret None
  else match json_from_str (trim out.(CommandOutput.stdout)) with
       | Ok parsed => mret (newest_of parsed)
       | Err e => refuse (CloudError.ParseFailed e)
       end.

Definition codex_launch (ts : Z) (req : CloudLaunchRequest.t) : Ask E CloudTaskRef.t :=
  binary ← need_program "codex";
  env_id ← lift_opt (if blank_id req.(CloudLaunchRequest.env_id) then None else req.(CloudLaunchRequest.env_id))
             (Refused (CloudError.LaunchFailed "no Codex Cloud environment id configured"));
  let args := (["cloud"; "exec"; "--env"; env_id] ++
               match req.(CloudLaunchRequest.branch) with Some branch => ["--branch"; branch] | None => [] end ++
               [req.(CloudLaunchRequest.prompt)])%list in
  out ← command binary args (Some req.(CloudLaunchRequest.worktree)) 180;
  if negb out.(CommandOutput.status_success) then launch_failed ts (CommandOutput.combined out)
  else
    let combined := CommandOutput.combined out in
    let url := extract_url combined in
    found ← match url ≫= task_id_from_url with
            | Some id => mret (Some id, url)
            | None =>
                newest ← attempt (newest_task binary env_id);
                mret match newest with
                     | Some (Some (id, task_url)) => (Some id, opt_or url task_url)
                     | _ => (None, url)
                     end
            end;
    match found with
    | (None, None) =>
        refuse (CloudError.ParseFailed ("launch succeeded but no task id or URL was found in output: " +:+ take_chars 300 (trim combined)))
    | (task_id, url) => mret (CloudTaskRef.mk AgentKind.Codex task_id url (Some env_id))
    end.

Definition poll_via_status (binary task_id : string) : Ask E CloudPollStatus.t :=
  out ← command binary ["cloud"; "status"; task_id] None 60;
  mret (if negb out.(CommandOutput.status_success) then CloudPollStatus.Unknown else map_status (CommandOutput.combined out)).

Definition codex_poll (task : CloudTaskRef.t) : Ask E CloudPollStatus.t :=
  binary ← need_program "codex";
  match task.(CloudTaskRef.task_id) with
  | None => mret CloudPollStatus.Unknown
  | Some task_id =>
      let args := (["cloud"; "list"; "--json"; "--limit"; "20"] ++
                   match task.(CloudTaskRef.env_id) with Some env => ["--env"; env] | None => [] end)%list in
      out ← command binary args None 60;
      if negb out.(CommandOutput.status_success)
      then refuse (CloudError.CommandFailed (take_chars 300 (trim (CommandOutput.combined out))))
      else match json_from_str (trim out.(CommandOutput.stdout)) with
           | Err e => refuse (CloudError.ParseFailed ("cloud list JSON: " +:+ e))
           | Ok parsed =>
               match get_array parsed "tasks" with
               | None => refuse (CloudError.ParseFailed "cloud list JSON has no tasks array")
               | Some tasks =>
                   match find (fun t => bool_decide (get_str t "id" = Some task_id)) tasks with
                   | Some t => mret (map_status (default EmptyString (get_str t "status")))
                   | None => poll_via_status binary task_id
                   end
               end
           end
  end.

Definition codex_fetch_results (task : CloudTaskRef.t) (worktree : string) : Ask E string :=
  binary ← need_program "codex";
  match task.(CloudTaskRef.task_id) with
  | None => refuse (CloudError.CommandFailed "no provider task id recorded for this cloud run")
  | Some task_id =>
      out ← command binary ["apply"; task_id] (Some worktree) 300;
      if out.(CommandOutput.status_success) then
        let summary := take_chars 600 (trim (CommandOutput.combined out)) in
        mret (if is_empty summary then "applied Codex Cloud diff" else summary)
      else
        diff ← surely (run_cloud_command binary ["cloud"; "diff"; task_id] (Some worktree) 60);
        let diff := match diff with Ok d => d.(CommandOutput.stdout) | Err _ => EmptyString end in
        if is_empty (trim diff) then mret "Codex Cloud task produced no diff"
        else refuse (CloudError.CommandFailed ("codex apply failed: " +:+ take_chars 300 (trim (CommandOutput.combined out)) +:+
               "; diff preserved on the provider (task " +:+ task_id +:+ ")"))
  end.

Definition codex_cloud_client : CloudTaskClient.t E :=
  CloudTaskClient.mk E codex_availability codex_launch codex_poll codex_fetch_results.

(** ** claude.rs *)

Definition NOT_SIGNED_IN : string := "Claude Code is not signed in".
(** Signed in, and why the cloud cannot be used. *)
Definition claude_auth (out : result CloudError.t CommandOutput.t) : bool * list string :=
  match out with
  | Ok out =>
      if negb out.(CommandOutput.status_success) then (false, [NOT_SIGNED_IN])
      else match json_from_str (trim out.(CommandOutput.stdout)) with
           | Ok v =>
               let logged_in := default false (get_bool v "loggedIn") in
               let method := default EmptyString (get_str v "authMethod") in
               (logged_in,
                if negb logged_in then [NOT_SIGNED_IN]
                else if negb (eq_str method "claude.ai")
                then ["Claude web sessions need claude.ai subscription auth; current auth method is " +:+ double_quote +:+ method +:+ double_quote]
                else [])
           | Err _ => (false, ["could not parse `claude auth status` output"])
           end
  | Err _ => (false, [NOT_SIGNED_IN])
  end.

Definition claude_availability (ts : Z) (codex_env_id : option string) : Sure E CloudAvailability.t :=
  binary ← find_program "claude";
  '(authenticated, blockers) ← match binary with
     | None => mret (false, ["Claude Code CLI is not installed"])
     | Some bin => out ← run_cloud_command bin ["auth"; "status"] None 30; mret (claude_auth out)
     end;
  mret (CloudAvailability.mk AgentKind.ClaudeCode (bool_decide (blockers = [])) authenticated blockers ts).

Definition claude_launch (ts : Z) (req : CloudLaunchRequest.t) : Ask E CloudTaskRef.t :=
  binary ← need_program "claude";
  run ← surely (claude_cloud binary req.(CloudLaunchRequest.prompt) req.(CloudLaunchRequest.worktree));
  match run with
  | Err e => refuse (CloudError.CommandFailed e)
  | Ok run =>
      let '(all_output, session, exited) := launch_loop run.(ClaudeLaunch.inputs) EmptyString None in
      let all_output := foldl (fun out line => out +:+ line +:+ newline) all_output run.(ClaudeLaunch.left_over) in
      let exit_ok := match run.(ClaudeLaunch.settled) with Some success => success || exited | None => exited end in
      match opt_or session (parse_session_ref all_output) with
      | Some (session_id, url) => mret (CloudTaskRef.mk AgentKind.ClaudeCode session_id url None)
      | None =>
          if exit_ok
          then refuse (CloudError.ParseFailed ("claude --cloud finished but no session id was found in output: " +:+
                 take_chars 300 (trim all_output)))
          else launch_failed ts all_output
      end
  end.

Definition claude_poll (task : CloudTaskRef.t) : Ask E CloudPollStatus.t := mret CloudPollStatus.Unknown.
Definition claude_fetch_results (task : CloudTaskRef.t) (worktree : string) : Ask E string := mret EmptyString.
Definition claude_cloud_client : CloudTaskClient.t E :=
  CloudTaskClient.mk E claude_availability claude_launch claude_poll claude_fetch_results.

Definition cloud_client_for (agent : AgentKind.t) : option (CloudTaskClient.t E) :=
  match agent with
  | AgentKind.Codex => Some codex_cloud_client
  | AgentKind.ClaudeCode => Some claude_cloud_client
  | _ => None
  end.
End Clients.

(** The examples of the code's own tests. *)
Example extracts_url_from_noise :
  extract_url ("Task created!" +:+ newline +:+ "View it at https://chatgpt.com/codex/tasks/task_e_abc123." +:+ newline +:+ "Done") =
  Some "https://chatgpt.com/codex/tasks/task_e_abc123".
Proof. vm_compute. done. Qed.
Example parses_task_id_from_url :
  task_id_from_url "https://chatgpt.com/codex/tasks/task_e_abc123?x=1" = Some "task_e_abc123" /\
  task_id_from_url "https://chatgpt.com/codex" = None.
Proof. vm_compute. done. Qed.
Example parses_session_refs :
  parse_session_ref "View at https://claude.ai/code/session_01AbCdEf1234" =
    Some (Some "session_01AbCdEf1234", Some "https://claude.ai/code/session_01AbCdEf1234") /\
  parse_session_ref "session created: cse_9f8e7d6c5b" = Some (Some "cse_9f8e7d6c5b", None) /\
  parse_session_ref "session_id field" = None.
Proof. vm_compute. done. Qed.
