(* ===== verification/CloudHandoff.v ===== *)
(** * Handing a thread to a provider's cloud and back (crates/am-core/src/cloud_handoff.rs)

    [start_thread_cloud_handoff] stops the local session, pushes a checkpoint and
    launches a cloud task; [run_cloud_monitor_tick] polls the runs that are active
    and reclaims those that ended, failed or stalled; [handle_power_event] decides
    for every running thread when the machine goes away; [run_cloud_checkpoints]
    keeps the branches of running threads pushed.

    The state is that of the threads ([Tasks]) with the table of cloud runs, the
    marks of the two timers, and the history [told] of what a handoff asks of the
    outside, is answered, and shows.  The lock of the handoff makes each handoff one sequence of steps
    among handoffs.  A panic is the error [Panicked], which no caller catches. *)
From Stdlib Require Import Ascii String.
From stdpp Require Import pretty gmap strings.
From S2P Require Import Prelude RustStr Json Enums Records Approvals WorkGraphDb WorkGraphInv Limits Budget SqlTable AgentDb ThreadText Attachments GitText CoreWorld TaskRepos ThreadFallback TaskTexts TaskNotes TurnLoop Scheduler TaskRuns ThreadWork JsonView ProviderText CloudRuns CloudClients.
#[local] Open Scope string_scope.
#[local] Open Scope Z_scope.

Class CloudServices (E V : Type) := {
  request_approval : ApprovalScope -> AgentKind.t -> ApprovalAsk.t V -> SysM E ApprovalDecision.t;
  github_push_header : SysM E (option string);
  (** git in a worktree; the error of each is its text *)
  commit_all : string -> string -> SysM E (result string (option string));
  push_branch_with : string -> string -> option string -> SysM E (result string ());
  remote_branch_sha : string -> string -> option string -> SysM E (result string (option string));
  fetch_branch : string -> string -> option string -> SysM E (result string ());
  fast_forward_to_fetch_head : string -> SysM E (result string ());
  commits_between : string -> option string -> string -> SysM E (result string (list string));
  (** the monotonic clock in nanoseconds *)
  instant : SysM E Z
}.

(** ** The state *)

Module CloudEvent.
Inductive t :=
| Probed (availability : CloudAvailability.t)
| ApprovalDecided (decision : ApprovalDecision.t)
| ActiveSeen (thread_id : string) (active : bool)
| CancelAsked (thread_id : string)
| SessionStopped (stopped : bool)
| Committed (worktree : string) (answer : result string (option string))
| Pushed (worktree branch : string) (answer : result string ())
| HeadRead (worktree : string) (answer : result string string)
| LaunchAsked (agent : AgentKind.t) (request : CloudLaunchRequest.t)
| LaunchAnswered (answer : result CloudError.t CloudTaskRef.t)
| WorktreeFound (worktree : option string)
| BranchMerged (worktree branch : string) (answer : result string (list string))
| ResultsFetched (answer : result CloudError.t string)
| ThreadLooked (thread_id : string) (found : option AgentThread.t)
| QueueRead (thread_id : string) (queued : list QueuedTurn.t)
| ThreadShown (thread : AgentThread.t)
| CloudRunUpdated (run : CloudRun.t)
| SchedulerWoken.
End CloudEvent.

Record Cloud (E : Type) := mkCloud {
  base : Tasks E;
  runs : CloudDb;
  monitor_marks : gmap string Z;
  checkpoint_marks : gmap string Z;
  told : list CloudEvent.t
}.
Arguments mkCloud {E} _ _ _ _ _.
Arguments base {E} _.
Arguments runs {E} _.
Arguments monitor_marks {E} _.
Arguments checkpoint_marks {E} _.
Arguments told {E} _.

Inductive CloudFail :=
| Failed (e : CoreError)
| Panicked.
Abbreviation C E := (M (Cloud E) CloudFail).

Definition refuse_ {E A} (msg : string) : C E A := throw (Failed (Other msg)).
Definition refuse_when {E} (b : bool) (msg : string) : C E () := if b then refuse_ msg else mret ().

(** ** What is computed *)

Inductive PowerEvent := SleepImminent | ShutdownImminent.

Module PolicyPreflight.
Record t := mk { agent : AgentKind.t; model : option string; runtime : ExecutionBackend.t; envelope_id : option string }.
End PolicyPreflight.
(** [policy_preflight] answers what it is asked. *)
Definition policy_preflight {E} (agent : AgentKind.t) (model : option string) (runtime : ExecutionBackend.t) : C E PolicyPreflight.t :=
  mret (PolicyPreflight.mk agent model runtime None).

Definition CLOUD_POLICY_KEY : string := "cloud_policy".
Definition MAX_CLOUD_PROMPT_CHARS : Z := 8000.

(** [String::truncate]: it panics inside a character. *)
Definition truncate_bytes (n : nat) (s : string) : option string :=
  if (n <=? String.length s)%nat then if is_char_boundary s n then Some (substring 0 n s) else None else Some s.

Definition continuation_text (thread : AgentThread.t) (agent : AgentKind.t) : string :=
  let push_note := match agent with
                   | AgentKind.ClaudeCode => " Push your commits to this branch as you go so progress is visible."
                   | _ => EmptyString
                   end in
  let prompt :=
    "Continue work that was running locally through Perpetual and has been handed off to this cloud environment." +:+ newline +:+ newline +:+
    "Read TASK_CONTEXT.md at the repository root first " +:+ bytes_of [226; 128; 148] +:+
    " it is the authoritative record of the objective, decisions, progress so far, and next actions. Work listed there as completed is done; do not redo it. Reading this Perpetual context file is routine setup; focus user-facing updates on relevant progress, findings, and blockers." +:+ newline +:+ newline +:+
    "Objective: " +:+ trim thread.(AgentThread.objective) +:+ newline in
  let next := trim thread.(AgentThread.next_actions) in
  let prompt := if is_empty next then prompt else prompt +:+ newline +:+ "Next actions:" +:+ newline +:+ next +:+ newline in
  prompt +:+ newline +:+ "Commit incrementally with clear messages." +:+ push_note.
(** [None] is a panic. *)
Definition continuation_prompt (thread : AgentThread.t) (agent : AgentKind.t) : option string :=
  let prompt := continuation_text thread agent in
  if MAX_CLOUD_PROMPT_CHARS <? len prompt then truncate_bytes (Z.to_nat MAX_CLOUD_PROMPT_CHARS) prompt else Some prompt.

Definition usage_limited (ts : Z) (record : option AgentRecord.t) : option (option Z) :=
  match record with
  | Some record =>
      if bool_decide (record.(AgentRecord.availability) = AvailabilityState.Limited) &&
         match record.(AgentRecord.reset_at) with Some reset_at => ts <? reset_at | None => true end
      then Some record.(AgentRecord.reset_at) else None
  | None => None
  end.

(** The mark of a timer: due when there is none, or one old enough. *)
Definition due_mark (id : string) (now_ : Z) (old_enough : Z -> bool) (marks : gmap string Z) : bool * gmap string Z :=
  match marks !! id with
  | Some last => if old_enough (Z.max 0 (now_ - last)) then (true, <[id := now_]> marks) else (false, marks)
  | None => (true, <[id := now_]> marks)
  end.

(** How a run is reclaimed, from what git said: the parts of the summary and
    whether the merge failed. *)
Definition merge_summary (fetched : option (result string (list string))) : list string * bool :=
  match fetched with
  | None => ([], false)
  | Some (Ok []) => (["no new commits from the cloud run"], false)
  | Some (Ok commits) => (["cloud commits merged:" +:+ newline +:+ String.concat newline commits], false)
  | Some (Err e) =>
      (["cloud branch could not be fast-forwarded (" +:+ e +:+ "); the remote branch holds the cloud work " +:+
        bytes_of [226; 128; 148] +:+ " resolve manually"], true)
  end.

Definition close_status (reason : string) (failure_detail : option string) (merge_conflict : bool) : CloudRunStatus.t :=
  if merge_conflict || (bool_decide (is_Some failure_detail) && eq_str reason "failed") then CloudRunStatus.Failed
  else if eq_str reason "expired" then CloudRunStatus.Expired else CloudRunStatus.Reclaimed.
Definition failure_note (failure_detail : option string) (merge_conflict : bool) : option string :=
  opt_or failure_detail (if merge_conflict then Some "merge conflict while reclaiming" else None).

(** The thread a reclaimed run goes back to. *)
Definition reclaimed_thread (run : CloudRun.t) (reason : string) (parts : list string) (merge_conflict : bool)
  (queued : list QueuedTurn.t) (thread : AgentThread.t) : AgentThread.t :=
  let entry := "Cloud leg on " +:+ AgentKind.label run.(CloudRun.agent_kind) +:+ " (" +:+ reason +:+ "): " +:+ String.concat "; " parts in
  let entry := match run.(CloudRun.url) with Some url => entry +:+ newline +:+ "Session: " +:+ url | None => entry end in
  let thread := AgentThread.set_progress (append_thread_progress thread.(AgentThread.progress) entry) thread in
  let thread := AgentThread.set_status
    (if merge_conflict || (eq_str reason "completed" && bool_decide (queued = [])) then TaskStatus.Review else TaskStatus.Queued) thread in
  AgentThread.set_handoff_state "resolved" thread.

(** The thread of a launched run. *)
Definition handed_off (agent : AgentKind.t) (thread : AgentThread.t) : AgentThread.t :=
  AgentThread.set_handoff_state "cloud_active"
    (AgentThread.set_active_agent (Some agent) (AgentThread.set_status TaskStatus.RunningInCloud thread)).

Definition task_ref_of (run : CloudRun.t) : CloudTaskRef.t :=
  CloudTaskRef.mk run.(CloudRun.agent_kind) run.(CloudRun.provider_task_id) run.(CloudRun.url) run.(CloudRun.env_id).

Definition trigger_of (event : PowerEvent) : CloudHandoffTrigger.t :=
  match event with SleepImminent => CloudHandoffTrigger.Sleep | ShutdownImminent => CloudHandoffTrigger.Shutdown end.

(** What a handoff has decided before it touches anything. *)
Module HandoffTarget.
Record t (E : Type) := mk {
  policy : CloudPolicy.t;
  thread : AgentThread.t;
  agent : AgentKind.t;
  client : CloudTaskClient.t E;
  worktree : string;
  branch : string
}.
Arguments mk {E}.
Arguments policy {E}.
Arguments thread {E}.
Arguments agent {E}.
Arguments client {E}.
Arguments worktree {E}.
Arguments branch {E}.
End HandoffTarget.

Section Handoff.
Context {V : Type} `{JsonView V} `{!BudgetSerde V} `{!TextSerde (list Attachment.t)} `{!TextSerde CloudPolicy.t} `{!Codecs} `{Chrono} `{LimitClock}.
Context {E : Type} `{CoreServices E} `{!TurnServices E} `{!RepoServices E} `{!TaskFiles E} `{!RunServices E} `{!WorkServices E}
  `{!CloudHost E} `{!CloudServices E V}.

(** *** Calls *)
Definition at_base {A} (m : T E A) : C E A :=
  fun c => let '(s, r) := m c.(base) in
           (mkCloud s c.(runs) c.(monitor_marks) c.(checkpoint_marks) c.(told),
            match r with Ok a => Ok a | Err e => Err (Failed e) end).
Definition at_runs {A} (m : M CloudDb DbError A) : C E A :=
  fun c => let '(db, r) := m c.(runs) in
           (mkCloud c.(base) db c.(monitor_marks) c.(checkpoint_marks) c.(told),
            match r with Ok a => Ok a | Err e => Err (Failed (Db e)) end).
Definition tell (e : CloudEvent.t) : C E () :=
  modify (fun c => mkCloud c.(base) c.(runs) c.(monitor_marks) c.(checkpoint_marks) (c.(told) ++ [e])).
Definition outside {A} (m : SysM E A) : C E A := at_base (sys_ m).
Definition ask_sure {A} (m : Sure E A) : C E A := outside (surely m).
(** The answer of a client, or its error. *)
Definition ask_client {A} (m : Ask E A) : C E (result CloudError.t A) :=
  r ← outside (try_ (fun s => let '(s', r) := m s in (s', Ok r : result CoreError (result AskFail A))));
  match r with
  | Ok (Ok a) => mret (Ok a)
  | Ok (Err (Refused e)) => mret (Err e)
  | Ok (Err AskPanicked) | Err _ => throw Panicked
  end.
(** The result of a handler; a panic is not one. *)
Definition caught {A} (m : C E A) : C E (result CoreError A) :=
  fun c => let '(c', r) := m c in
           (c', match r with Ok a => Ok (Ok a) | Err (Failed e) => Ok (Err e) | Err Panicked => Err Panicked end).
(** [let _ = ..]. *)
Definition dropped {A} (m : C E A) : C E () := _ ← caught m; mret ().
Definition log (project : option string) (kind : string) : C E () := at_base (acted project None kind).
Definition git {A} (m : SysM E (result string A)) : C E (result string A) := outside m.
(** A sequence of git commands that stops at its first error. *)
Abbreviation G := (M (Sys E) string).
Definition step {A} (m : SysM E (result string A)) : G A :=
  fun s => let '(s', r) := m s in
           (s', match r with Ok r => r | Err e => Err (error_text e) end).
Definition git_steps {A} (m : G A) : C E (result string A) :=
  outside (fun s => let '(s', r) := m s in (s', Ok r)).

(** A call whose answer the history tells. *)
Definition hear {A} (event : A -> CloudEvent.t) (m : C E A) : C E A := a ← m; _ ← tell (event a); mret a.

(** The note of what the provider's results said. *)
Definition results_note (fetched : result CloudError.t string) : list string :=
  match fetched with
  | Ok s => if is_empty (trim s) then [] else [s]
  | Err e => ["provider result fetch: " +:+ cloud_error_text e]
  end.

(** *** The policy *)
Definition get_cloud_policy : C E CloudPolicy.t :=
  raw ← outside (read_setting CLOUD_POLICY_KEY);
  mret (normalize_cloud_policy (parsed default_cloud_policy raw)).
Definition set_cloud_policy (policy : CloudPolicy.t) : C E CloudPolicy.t :=
  let policy := normalize_cloud_policy policy in
  _ ← outside (write_setting CLOUD_POLICY_KEY (to_text policy));
  _ ← tell CloudEvent.SchedulerWoken;
  mret policy.
(** [get_cloud_policy().await.unwrap_or_default()]. *)
Definition policy_or_default : C E CloudPolicy.t :=
  r ← caught get_cloud_policy; mret match r with Ok p => p | Err _ => default_cloud_policy end.

(** *** Worktrees *)
Fixpoint first_worktree (links : list AgentThreadRepo.t) : C E (option (string * string)) :=
  match links with
  | [] => mret None
  | link :: links =>
      match link.(AgentThreadRepo.worktree_path), link.(AgentThreadRepo.branch) with
      | Some worktree, Some branch =>
          exists_ ← outside (path_exists worktree);
          if (exists_ : bool) then mret (Some (worktree, branch)) else first_worktree links
      | _, _ => first_worktree links
      end
  end.
Definition primary_worktree (links : list AgentThreadRepo.t) : C E (option (string * string)) := first_worktree links.
Definition run_worktree (run : CloudRun.t) : C E (option string) :=
  links ← caught (at_base (list_thread_repos run.(CloudRun.thread_id)));
  match links with
  | Ok links => found ← primary_worktree links; mret (fst <$> found)
  | Err _ => mret None
  end.

(** *** Readiness *)
Definition limited_blocker (agent : AgentKind.t) (reset_at : option Z) : string :=
  match reset_at with
  | Some reset_at => AgentKind.label agent +:+ " is usage-limited until " +:+ show_utc reset_at
  | None => AgentKind.label agent +:+ " is usage-limited"
  end.
Definition block_limited (agent : AgentKind.t) (limited : option (option Z)) (a : CloudAvailability.t) : CloudAvailability.t :=
  match limited with
  | Some reset_at =>
      CloudAvailability.mk a.(CloudAvailability.agent) false a.(CloudAvailability.authenticated)
        (a.(CloudAvailability.blockers) ++ [limited_blocker agent reset_at])%list a.(CloudAvailability.checked_at)
  | None => a
  end.
Fixpoint availability_of (env_id : option string) (agents : list AgentKind.t) : C E (list CloudAvailability.t) :=
  match agents with
  | [] => mret []
  | agent :: agents =>
      match cloud_client_for agent with
      | None => availability_of env_id agents
      | Some client =>
          ts ← outside now;
          availability ← ask_sure (client.(CloudTaskClient.availability) ts env_id);
          record ← outside (agent_record agent);
          ts ← outside now;
          rest ← availability_of env_id agents;
          mret (block_limited agent (usage_limited ts record) availability :: rest)
      end
  end.
Definition cloud_availability : C E (list CloudAvailability.t) :=
  policy ← policy_or_default;
  availability_of policy.(CloudPolicy.codex_env_id) [AgentKind.ClaudeCode; AgentKind.Codex].

Definition list_cloud_runs (thread_id : string) : C E (list CloudRun.t) := at_runs (CloudRuns.list_for_thread thread_id).

(** *** Handing a thread off *)
Definition show_thread (thread : AgentThread.t) : C E () :=
  _ ← at_base (announce thread); tell (CloudEvent.ThreadShown thread).

Definition active_runs_of (thread_id : string) : C E (option CloudRun.t) := at_runs (CloudRuns.active_for_thread thread_id).
Definition active_runs : C E (list CloudRun.t) := at_runs CloudRuns.list_active.

(** Every condition of a handoff under the policy, in order. *)
Definition check_handoff (policy : CloudPolicy.t) (thread_id : string) (agent_override : option AgentKind.t) :
  C E (HandoffTarget.t E) :=
  _ ← refuse_when (negb policy.(CloudPolicy.enabled)) "cloud continuation is disabled";
  found ← at_base (find_thread (V:=V) thread_id);
  thread ← lift_opt found (Failed NotFound);
  running ← active_runs_of thread_id;
  _ ← refuse_when (bool_decide (is_Some running)) "a cloud run is already active for this thread";
  active ← active_runs;
  _ ← refuse_when (policy.(CloudPolicy.max_concurrent_cloud_runs) <=? Z.of_nat (length active))
        ("cloud run cap reached (" +:+ pretty (Z.of_nat (length active)) +:+ " active)");
  agent ← lift_opt (opt_or agent_override (opt_or thread.(AgentThread.active_agent) thread.(AgentThread.preferred_agent)))
            (Failed (Other "thread has no agent to continue with"));
  client ← lift_opt (cloud_client_for agent) (Failed (Other (AgentKind.label agent +:+ " has no cloud offering")));
  ts ← outside now;
  availability ← ask_sure (client.(CloudTaskClient.availability) ts policy.(CloudPolicy.codex_env_id));
  _ ← tell (CloudEvent.Probed availability);
  _ ← refuse_when (negb availability.(CloudAvailability.ready))
        (AgentKind.label agent +:+ " cloud is not ready: " +:+ String.concat "; " availability.(CloudAvailability.blockers));
  record ← outside (agent_record agent);
  ts ← outside now;
  _ ← match usage_limited ts record with
      | Some (Some reset_at) => refuse_ (AgentKind.label agent +:+ " cloud is usage-limited until " +:+ show_utc reset_at)
      | Some None => refuse_ (AgentKind.label agent +:+ " cloud is usage-limited")
      | None => mret ()
      end;
  links ← at_base (list_thread_repos thread_id);
  subject ← primary_worktree links;
  '(worktree, branch) ← lift_opt subject (Failed (Other "thread has no local worktree to hand off from"));
  _ ← policy_preflight agent thread.(AgentThread.model) ExecutionBackend.Cloud;
  mret (HandoffTarget.mk policy thread agent client worktree branch).

Definition handoff_ask (target : HandoffTarget.t E) (trigger : CloudHandoffTrigger.t) : ApprovalAsk.t V :=
  let agent := target.(HandoffTarget.agent) in
  ApprovalAsk.mk V ApprovalKind.Tool "cloud_handoff" None (Some target.(HandoffTarget.worktree))
    (json_object [("trigger", json_str (CloudHandoffTrigger.as_str trigger)); ("agent", json_str (AgentKind.as_str agent))])
    (Some ("Continue " +:+ double_quote +:+ target.(HandoffTarget.thread).(AgentThread.title) +:+ double_quote +:+ " on " +:+
           AgentKind.label agent +:+ " cloud")).
(** Only a handoff the user asks for is approved: nobody answers a sleep. *)
Definition handoff_consent (target : HandoffTarget.t E) (trigger : CloudHandoffTrigger.t) (thread_id : string) : C E () :=
  if target.(HandoffTarget.policy).(CloudPolicy.require_approval) && bool_decide (trigger = CloudHandoffTrigger.Manual) then
    decision ← outside (request_approval
      (mkScope target.(HandoffTarget.thread).(AgentThread.project_id) None None (Some thread_id) None)
      target.(HandoffTarget.agent) (handoff_ask target trigger));
    _ ← tell (CloudEvent.ApprovalDecided decision);
    match decision with
    | ApprovalDecision.Allow | ApprovalDecision.AllowForSession => mret ()
    | _ => refuse_ "cloud handoff was not approved"
    end
  else mret ().

(** The local session is stopped, or the handoff is given up. *)
Definition quiesce (thread_id : string) : C E () :=
  active ← hear (CloudEvent.ActiveSeen thread_id) (at_base (is_active_ thread_id));
  if negb (active : bool) then mret ()
  else
    _ ← hear (fun _ => CloudEvent.CancelAsked thread_id) (outside (cancel_session thread_id));
    stopped ← hear CloudEvent.SessionStopped (outside (wait_until_inactive thread_id));
    refuse_when (negb stopped) "the local session did not stop before cloud handoff timed out".

(** [step?; rest], with the answer of [step] told. *)
Definition then_git {A B} (event : result string A -> CloudEvent.t) (m : SysM E (result string A))
  (rest : A -> C E (result string B)) : C E (result string B) :=
  answer ← hear event (git_steps (step m));
  match answer with Ok a => rest a | Err e => mret (Err e) end.

(** The commit before the checkpoint, if it can be read, and the pushed commit. *)
Definition checkpoint (worktree branch : string) : C E (option string * string) :=
  auth ← outside github_push_header;
  before ← git (head_sha worktree);
  pushed ← then_git (CloudEvent.Committed worktree) (commit_all worktree "am: cloud handoff checkpoint") (fun _ =>
           then_git (CloudEvent.Pushed worktree branch) (push_branch_with worktree branch auth) (fun _ =>
           hear (CloudEvent.HeadRead worktree) (git_steps (step (head_sha worktree)))));
  match pushed with
  | Err e => refuse_ ("could not push checkpoint before cloud handoff: " +:+ e)
  | Ok launch_commit => mret (match before with Ok sha => Some sha | Err _ => None end, launch_commit)
  end.

(** [self.mark_agent_limited(..)], its error dropped. *)
Definition note_cloud_limit (agent : AgentKind.t) (reset_at : option Z) : C E () := 
  dropped (at_base (policy ← attempt (sys_ get_limit_policy); ts ← sys_ now;
                    at_limits (mark_agent_limited ts (default default_limit_policy policy) agent reset_at))).

Definition launch_error (agent : AgentKind.t) (e : CloudError.t) : string :=
  match e with
  | CloudError.UsageLimited reset_at =>
      AgentKind.label agent +:+ " cloud is usage-limited" +:+
      match reset_at with Some dt => " (resets " +:+ show_utc dt +:+ ")" | None => EmptyString end
  | other => cloud_error_text other
  end.
Definition launch_run (target : HandoffTarget.t E) (request : CloudLaunchRequest.t) : C E CloudTaskRef.t :=
  let agent := target.(HandoffTarget.agent) in
  ts ← outside now;
  _ ← tell (CloudEvent.LaunchAsked agent request);
  launched ← hear CloudEvent.LaunchAnswered (ask_client (target.(HandoffTarget.client).(CloudTaskClient.launch) ts request));
  match launched with
  | Ok task_ref => mret task_ref
  | Err e =>
      _ ← match e with CloudError.UsageLimited reset_at => note_cloud_limit agent reset_at | _ => mret () end;
      refuse_ (launch_error agent e)
  end.

(** The run's row, and the thread that now runs in the cloud. *)
Definition record_launch (target : HandoffTarget.t E) (trigger : CloudHandoffTrigger.t) (thread : AgentThread.t) (task_ref : CloudTaskRef.t)
  (base_commit : option string) (launch_commit : string) (thread_id : string) : C E CloudRun.t :=
  let agent := target.(HandoffTarget.agent) in
  id ← outside fresh_id; ts ← outside now;
  run ← at_runs (CloudRuns.create ts id (NewCloudRun.mk thread_id agent task_ref.(CloudTaskRef.task_id) task_ref.(CloudTaskRef.url)
          task_ref.(CloudTaskRef.env_id) (Some target.(HandoffTarget.branch)) base_commit (Some launch_commit) trigger));
  saved ← at_base (save_thread_ (V:=V) (handed_off agent thread));
  _ ← show_thread saved;
  _ ← tell (CloudEvent.CloudRunUpdated run);
  _ ← log saved.(AgentThread.project_id) "thread.cloud_handoff_started";
  _ ← tell CloudEvent.SchedulerWoken;
  mret run.

(** The handoff under the policy read at its start. *)
Definition handoff_with (policy : CloudPolicy.t) (thread_id : string) (trigger : CloudHandoffTrigger.t) (agent_override : option AgentKind.t) :
  C E CloudRun.t :=
  target ← check_handoff policy thread_id agent_override;
  _ ← handoff_consent target trigger thread_id;
  _ ← quiesce thread_id;
  fresh ← at_base (find_thread (V:=V) thread_id);
  let thread := default target.(HandoffTarget.thread) fresh in
  _ ← at_base (render_thread_context_files (V:=V) thread (thread_workspace_path thread_id thread.(AgentThread.execution_backend)));
  let worktree := target.(HandoffTarget.worktree) in
  let branch := target.(HandoffTarget.branch) in
  '(base_commit, launch_commit) ← checkpoint worktree branch;
  prompt ← lift_opt (continuation_prompt thread target.(HandoffTarget.agent)) Panicked;
  task_ref ← launch_run target (CloudLaunchRequest.mk prompt worktree (Some branch) target.(HandoffTarget.policy).(CloudPolicy.codex_env_id));
  record_launch target trigger thread task_ref base_commit launch_commit thread_id.
Definition start_thread_cloud_handoff (thread_id : string) (trigger : CloudHandoffTrigger.t) (agent_override : option AgentKind.t) :
  C E CloudRun.t :=
  policy ← get_cloud_policy;
  handoff_with policy thread_id trigger agent_override.

(** *** Taking a thread back *)

(** Fetch, fast-forward, and the commits that came. *)
Definition merge_cloud (worktree branch : string) (launch_commit auth : option string) : G (list string) :=
  _ ← (fun s => let '(s', r) := step (fetch_branch worktree branch auth) s in
                (s', match r with Ok a => Ok a | Err e => Err ("fetch: " +:+ e) end));
  before ← step (head_sha worktree);
  _ ← (fun s => let '(s', r) := step (fast_forward_to_fetch_head worktree) s in
                (s', match r with Ok a => Ok a | Err e => Err ("non-fast-forward: " +:+ e) end));
  after ← step (head_sha worktree);
  if eq_str before after then mret [] else step (commits_between worktree launch_commit after).

Definition pull_results (run : CloudRun.t) (worktree : option string) : C E (option (result string (list string))) :=
  match worktree, run.(CloudRun.branch) with
  | Some worktree, Some branch =>
      auth ← outside github_push_header;
      fetched ← hear (CloudEvent.BranchMerged worktree branch)
                  (git_steps (merge_cloud worktree branch run.(CloudRun.launch_commit) auth));
      mret (Some fetched)
  | _, _ => mret None
  end.

(** What git cannot see of a completed run. *)
Definition provider_results (run : CloudRun.t) (worktree : option string) : C E (list string) :=
  match cloud_client_for run.(CloudRun.agent_kind), worktree with
  | Some client, Some worktree =>
      fetched ← hear CloudEvent.ResultsFetched
                  (ask_client (client.(CloudTaskClient.fetch_results) (task_ref_of run) worktree));
      mret (results_note fetched)
  | _, _ => mret []
  end.

Definition forget_mark (id : string) : C E () :=
  modify (fun c => mkCloud c.(base) c.(runs) (delete id c.(monitor_marks)) c.(checkpoint_marks) c.(told)).

Definition settle_thread (run : CloudRun.t) (reason : string) (parts : list string) (merge_conflict : bool) : C E () :=
  let thread_id := run.(CloudRun.thread_id) in
  found ← hear (CloudEvent.ThreadLooked thread_id) (at_base (find_thread (V:=V) thread_id));
  match found with
  | None => mret ()
  | Some thread =>
      queued ← hear (CloudEvent.QueueRead thread_id) (outside (list_queued_turns thread_id));
      saved ← at_base (save_thread_ (V:=V) (reclaimed_thread run reason parts merge_conflict queued thread));
      _ ← dropped (at_base (render_thread_context_files (V:=V) saved (thread_workspace_path thread_id thread.(AgentThread.execution_backend))));
      show_thread saved
  end.

(** [if let Ok(Some(..)) = cloud_run::get(..) { publish }]. *)
Definition show_run (id : string) : C E () :=
  found ← caught (at_runs (CloudRuns.get_run id));
  match found with Ok (Some run) => tell (CloudEvent.CloudRunUpdated run) | _ => mret () end.

Definition reclaim_thread_from_cloud (run : CloudRun.t) (reason : string) (failure_detail : option string) : C E () :=
  worktree ← hear CloudEvent.WorktreeFound (run_worktree run);
  fetched ← pull_results run worktree;
  let '(parts, merge_conflict) := merge_summary fetched in
  more ← (if eq_str reason "completed" && negb merge_conflict then provider_results run worktree else mret []);
  let parts := (parts ++ more)%list in
  ts ← outside now;
  _ ← at_runs (CloudRuns.close ts run.(CloudRun.id) (close_status reason failure_detail merge_conflict) (failure_note failure_detail merge_conflict));
  _ ← forget_mark run.(CloudRun.id);
  _ ← settle_thread run reason parts merge_conflict;
  _ ← show_run run.(CloudRun.id);
  _ ← log None "thread.cloud_reclaimed";
  tell CloudEvent.SchedulerWoken.

Definition reclaim_cloud_run (thread_id : string) : C E () :=
  found ← active_runs_of thread_id;
  run ← lift_opt found (Failed NotFound);
  reclaim_thread_from_cloud run "manual" None.

(** *** The monitor *)

(** Did new commits arrive on the branch? *)
Definition observe_branch (run : CloudRun.t) : C E bool :=
  worktree ← run_worktree run;
  match run.(CloudRun.branch), worktree with
  | Some branch, Some worktree =>
      auth ← outside github_push_header;
      remote ← git (remote_branch_sha worktree branch auth);
      match remote with
      | Ok (Some sha) =>
          if bool_decide (run.(CloudRun.last_seen_commit) = Some sha) then mret false
          else ts ← outside now; _ ← at_runs (CloudRuns.record_activity ts run.(CloudRun.id) (Some sha)); mret true
      | _ => mret false
      end
  | _, _ => mret false
  end.

(** What a task in flight changes of its run; the result is [saw_progress]. *)
Definition note_running (run : CloudRun.t) (provider_status : CloudPollStatus.t) (saw_progress : bool) : C E bool :=
  if bool_decide (provider_status = CloudPollStatus.Running) then
    saw_progress ← (if negb (bool_decide (run.(CloudRun.status) = CloudRunStatus.Running))
                    then _ ← at_runs (CloudRuns.set_status run.(CloudRun.id) CloudRunStatus.Running); mret true
                    else mret saw_progress);
    if (saw_progress : bool) then mret true
    else ts ← outside now; _ ← at_runs (CloudRuns.record_activity ts run.(CloudRun.id) None); mret true
  else mret saw_progress.

(** Nothing seen for too long. *)
Definition check_stall (run : CloudRun.t) (policy : CloudPolicy.t) : C E () :=
  let last_signal := default run.(CloudRun.launched_at) run.(CloudRun.last_activity_at) in
  ts ← outside now;
  let stalled_for := Z.quot (ts - last_signal) 1000 in
  if policy.(CloudPolicy.stall_timeout_secs) <=? stalled_for then
    _ ← at_runs (CloudRuns.set_status run.(CloudRun.id) CloudRunStatus.Stalled);
    reclaim_thread_from_cloud run "stalled" (Some ("no progress observed for " +:+ pretty stalled_for +:+ "s"))
  else mret ().

Definition monitor_cloud_run (run : CloudRun.t) (policy : CloudPolicy.t) : C E () :=
  client ← lift_opt (cloud_client_for run.(CloudRun.agent_kind)) (Failed (Other "no cloud client"));
  saw_progress ← observe_branch run;
  polled ← ask_client (client.(CloudTaskClient.poll) (task_ref_of run));
  let provider_status := match polled with Ok status => status | Err _ => CloudPollStatus.Unknown end in
  match provider_status with
  | CloudPollStatus.Completed => reclaim_thread_from_cloud run "completed" None
  | CloudPollStatus.Failed reason => reclaim_thread_from_cloud run "failed" (Some reason)
  | CloudPollStatus.Expired => reclaim_thread_from_cloud run "expired" (Some "environment expired")
  | _ =>
      saw_progress ← note_running run provider_status saw_progress;
      if (saw_progress : bool) then show_run run.(CloudRun.id) else check_stall run policy
  end.

Definition NANOS : Z := 1000000000.
Definition mark_monitor (id : string) (now_ : Z) (old_enough : Z -> bool) : C E bool :=
  fun c => let '(due, marks) := due_mark id now_ old_enough c.(monitor_marks) in
           (mkCloud c.(base) c.(runs) marks c.(checkpoint_marks) c.(told), Ok due).
Definition monitor_due (id : string) (poll_secs : Z) : C E bool :=
  now_ ← outside instant; mark_monitor id now_ (fun age => negb (age <? Z.max poll_secs 1 * NANOS)).

Definition monitor_one (policy : CloudPolicy.t) (run : CloudRun.t) : C E () :=
  due ← monitor_due run.(CloudRun.id) policy.(CloudPolicy.monitor_poll_secs);
  if negb (due : bool) then mret ()
  else
    r ← caught (monitor_cloud_run run policy);
    match r with Ok _ => mret () | Err _ => dropped (log None "thread.cloud_monitor_failed") end.

Definition run_cloud_monitor_tick : C E () :=
  active ← active_runs;
  if bool_decide (active = []) then mret ()
  else policy ← policy_or_default; for_each (monitor_one policy) active.

(** *** When the machine goes away *)

Definition power_one (trigger : CloudHandoffTrigger.t) (policy : CloudPolicy.t) (availability : list CloudAvailability.t)
  (active : Z) (item : nat * AgentThread.t) : C E () :=
  let '(i, thread) := item in
  match opt_or thread.(AgentThread.active_agent) thread.(AgentThread.preferred_agent) with
  | None => mret ()
  | Some agent =>
      let current := find (fun a => bool_decide (a.(CloudAvailability.agent) = agent)) availability in
      let other := find (fun a => negb (bool_decide (a.(CloudAvailability.agent) = agent))) availability in
      match cloud_decision trigger policy agent current other (active + Z.of_nat i) with
      | LaunchOn target_agent =>
          let override_agent := if bool_decide (target_agent = agent) then None else Some target_agent in
          r ← caught (start_thread_cloud_handoff thread.(AgentThread.id) trigger override_agent);
          match r with
          | Ok _ => mret ()
          | Err _ => dropped (log thread.(AgentThread.project_id) "thread.cloud_handoff_failed")
          end
      | _ => dropped (log thread.(AgentThread.project_id) "thread.cloud_handoff_skipped")
      end
  end.

Definition running_threads : C E (list AgentThread.t) :=
  at_base (table (Threads.list_for_status (V:=V) TaskStatus.Running 16)).

Definition handle_power_event (event : PowerEvent) : C E () :=
  policy ← policy_or_default;
  let trigger := trigger_of event in
  if negb (policy.(CloudPolicy.enabled) && negb (switched_off trigger policy)) then mret ()
  else
    listed ← caught running_threads;
    match listed with
    | Err _ | Ok [] => mret ()
    | Ok running =>
        availability ← caught cloud_availability;
        let availability := match availability with Ok l => l | Err _ => [] end in
        active ← caught active_runs;
        let active := match active with Ok l => Z.of_nat (length l) | Err _ => 0 end in
        for_each (power_one trigger policy availability active) (imap pair running)
    end.
Definition prepare_shutdown : C E () := handle_power_event ShutdownImminent.

(** *** Checkpoints *)

(** The background task of a checkpoint; a failure must not disturb the session. *)
Definition background_checkpoint (worktree branch : string) (auth : option string) : C E () :=
  committed ← git (commit_all worktree "am: checkpoint");
  match committed with
  | Ok (Some _) => _ ← git (push_branch_with worktree branch auth); mret ()
  | _ => mret ()
  end.
Definition mark_checkpoint (id : string) (now_ : Z) (old_enough : Z -> bool) : C E bool :=
  fun c => let '(due, marks) := due_mark id now_ old_enough c.(checkpoint_marks) in
           (mkCloud c.(base) c.(runs) c.(monitor_marks) marks c.(told), Ok due).
Definition checkpoint_due (id : string) (interval : Z) : C E bool :=
  now_ ← outside instant; mark_checkpoint id now_ (fun age => negb (age / NANOS <? interval)).
Definition checkpoint_one (interval : Z) (thread : AgentThread.t) : C E () :=
  due ← checkpoint_due thread.(AgentThread.id) interval;
  if negb (due : bool) then mret ()
  else
    links ← at_base (list_thread_repos thread.(AgentThread.id));
    subject ← primary_worktree links;
    match subject with
    | None => mret ()
    | Some (worktree, branch) => auth ← outside github_push_header; background_checkpoint worktree branch auth
    end.
Definition run_cloud_checkpoints : C E () :=
  policy ← policy_or_default;
  if negb policy.(CloudPolicy.enabled) || (policy.(CloudPolicy.checkpoint_interval_secs) =? 0) then mret ()
  else threads ← running_threads; for_each (checkpoint_one policy.(CloudPolicy.checkpoint_interval_secs)) threads.
End Handoff.
