(* ===== verification/CloudProps.v ===== *)
(** * Cloud runs: one at a time, launched under guards, always taken back

    Whatever the providers, git and the rest of the program answer: the table of
    runs stays sound under every sequence of handoffs, monitor ticks, reclaims and
    power events; a launch is asked for only after its conditions held and the
    checkpoint was pushed; a reclaimed run is closed and its thread runnable. *)
From Stdlib Require Import Ascii String.
From stdpp Require Import gmap strings.
From S2P Require Import Prelude RustStr Json Enums Records Approvals WorkGraphDb WorkGraphInv Limits Budget SqlTable AgentDb AgentDbProps AgentDbTheorems ThreadText Attachments GitText CoreWorld TaskRepos ThreadFallback TaskTexts TaskNotes TurnLoop Scheduler TaskRuns ThreadWork ThreadRunsProps JsonView ProviderText CloudRuns CloudClients CloudHandoff.
#[local] Open Scope string_scope.
#[local] Open Scope Z_scope.

(** ** What a computation does to the table and the history *)
Section Effects.
Context {E : Type}.
Implicit Types (db : CloudDb) (l : list CloudEvent.t).

Definition from {A} db (m : C E A) (P : CloudDb -> list CloudEvent.t -> result CloudFail A -> Prop) : Prop :=
  forall c, c.(runs) = db -> exists l, let '(c', r) := m c in c'.(told) = (c.(told) ++ l)%list /\ P c'.(runs) l r.
(** The table and the history stay. *)
Definition quiet {A} (m : C E A) : Prop := forall db, from db m (fun db' l _ => db' = db /\ l = []).
Definition leads {A} db (m : C E A) (R : CloudDb -> Prop) : Prop := from db m (fun db' _ _ => R db').

Lemma from_mono {A} db (m : C E A) (P Q : CloudDb -> list CloudEvent.t -> result CloudFail A -> Prop) :
  (forall db' l r, P db' l r -> Q db' l r) -> from db m P -> from db m Q.
Proof. intros HPQ Hm c Hc. destruct (Hm c Hc) as (l & Hl). exists l. destruct (m c). naive_solver. Qed.

Lemma from_bind {A B} db (m : C E A) (f : A -> C E B) P (Q : CloudDb -> list CloudEvent.t -> result CloudFail B -> Prop) :
  from db m P -> (forall e db' l, P db' l (Err e) -> Q db' l (Err e)) ->
  (forall a db' l, P db' l (Ok a) -> from db' (f a) (fun db'' l' r => Q db'' (l ++ l')%list r)) -> from db (m ≫= f) Q.
Proof.
  intros Hm He Hf c Hc. destruct (Hm c Hc) as (l & Hl). rewrite M_bind_unfold.
  destruct (m c) as [c' [a|e]]; destruct Hl as [Ht Hp]; [|exists l; auto].
  destruct (Hf a _ l Hp c' eq_refl) as (l' & Hl'). exists (l ++ l')%list. destruct (f a c') as [c'' r].
  destruct Hl' as [-> Hq]. by rewrite Ht, app_assoc.
Qed.

Lemma from_quiet {A B} db (m : C E A) (f : A -> C E B) Q :
  quiet m -> (forall e, Q db [] (Err e)) -> (forall a, from db (f a) Q) -> from db (m ≫= f) Q.
Proof.
  intros Hm He Hf. eapply from_bind; [apply Hm| |].
  - by intros e db' l [-> ->].
  - by intros a db' l [-> ->].
Qed.

Lemma from_ret {A} db (a : A) (P : CloudDb -> list CloudEvent.t -> result CloudFail A -> Prop) : P db [] (Ok a) -> from db (mret a) P.
Proof. intros Hp c <-. exists []. cbn. by rewrite app_nil_r. Qed.
Lemma from_throw {A} db e (P : CloudDb -> list CloudEvent.t -> result CloudFail A -> Prop) : P db [] (Err e) -> from db (throw e) P.
Proof. intros Hp c <-. exists []. cbn. by rewrite app_nil_r. Qed.
Lemma from_any {A} db (m : C E A) (P : CloudDb -> list CloudEvent.t -> result CloudFail A -> Prop) :
  quiet m -> (forall r, P db [] r) -> from db m P.
Proof. intros Hm Hp. eapply from_mono; [|apply Hm]. by intros db' l r [-> ->]. Qed.

Lemma quiet_ret {A} (a : A) : quiet (mret a).
Proof. intros db. by apply from_ret. Qed.
Lemma quiet_throw {A} e : quiet (throw e : C E A).
Proof. intros db. by apply from_throw. Qed.
Lemma untold_bind {A B} (m : C E A) (f : A -> C E B) : quiet m -> (forall a, quiet (f a)) -> quiet (m ≫= f).
Proof. intros Hm Hf db. apply from_quiet; [done..|]. intros a. apply Hf. Qed.
Lemma quiet_lift_opt {A} (o : option A) e : quiet (lift_opt o e).
Proof. destruct o; [apply (quiet_ret a)|apply (quiet_throw e)]. Qed.
Lemma quiet_refuse_when b msg : quiet (refuse_when b msg).
Proof. destruct b; [apply quiet_throw|apply quiet_ret]. Qed.
Lemma untold_for_each {A} (f : A -> C E ()) (l : list A) : (forall a, quiet (f a)) -> quiet (for_each f l).
Proof. intros Hf. induction l as [|a l IH]; cbn; [apply quiet_ret|by apply untold_bind]. Qed.

Lemma quiet_base {A} (m : T E A) : quiet (at_base m).
Proof. intros db c Hc. exists []. unfold at_base. destruct (m c.(base)) as [s r]. cbn. by rewrite app_nil_r. Qed.
Lemma quiet_caught {A} (m : C E A) : quiet m -> quiet (caught m).
Proof. intros Hm db c Hc. destruct (Hm db c Hc) as (l & Hl). exists l. unfold caught. by destruct (m c) as [c' [a|[e|]]]. Qed.
Lemma quiet_mark id now_ p : quiet (mark_monitor id now_ p).
Proof. intros db c Hc. exists []. unfold mark_monitor. destruct due_mark. cbn. by rewrite app_nil_r. Qed.
Lemma quiet_mark_checkpoint id now_ p : quiet (mark_checkpoint id now_ p).
Proof. intros db c Hc. exists []. unfold mark_checkpoint. destruct due_mark. cbn. by rewrite app_nil_r. Qed.
Lemma quiet_forget id : quiet (forget_mark id).
Proof. intros db c Hc. exists []. cbn. by rewrite app_nil_r. Qed.

Lemma from_tell db e (P : CloudDb -> list CloudEvent.t -> result CloudFail () -> Prop) : P db [e] (Ok ()) -> from db (tell e) P.
Proof. intros Hp c <-. by exists [e]. Qed.
Lemma from_tell_bind {B} db e (f : () -> C E B) Q :
  from db (f ()) (fun db' l r => Q db' (e :: l) r) -> from db (tell e ≫= f) Q.
Proof. intros Hf. eapply from_bind; [by apply (from_tell _ _ (fun db' l r => db' = db /\ l = [e] /\ r = Ok ()))|naive_solver|]. by intros [] db' l (-> & -> & _). Qed.

Lemma from_assoc {A B D} db (m : C E A) (f : A -> C E B) (g : B -> C E D) Q :
  from db (a ← m; b ← f a; g b) Q -> from db ((a ← m; f a) ≫= g) Q.
Proof. intros Hm c Hc. rewrite M_assoc. exact (Hm c Hc). Qed.

Lemma from_ret_bind {A B} db (a : A) (f : A -> C E B) Q : from db (f a) Q -> from db (mret a ≫= f) Q.
Proof. intros Hm c Hc. rewrite M_bind_unfold. exact (Hm c Hc). Qed.

Lemma from_hear {A B} db (event : A -> CloudEvent.t) (m : C E A) (f : A -> C E B) Q :
  quiet m -> (forall e, Q db [] (Err e)) -> (forall a, from db (f a) (fun db' l r => Q db' (event a :: l) r)) ->
  from db (hear event m ≫= f) Q.
Proof.
  intros Hm He Hf. unfold hear. apply from_assoc. apply from_quiet; [done..|]. intros a.
  apply from_assoc. apply from_tell_bind. apply Hf.
Qed.

Lemma from_hears {A} db (event : A -> CloudEvent.t) (m : C E A) (Q : CloudDb -> list CloudEvent.t -> result CloudFail A -> Prop) :
  quiet m -> (forall e, Q db [] (Err e)) -> (forall a, Q db [event a] (Ok a)) -> from db (hear event m) Q.
Proof.
  intros Hm He Ha. unfold hear. apply from_quiet; [done..|]. intros a. apply from_tell_bind, from_ret, Ha.
Qed.

Lemma from_caught {A} db (m : C E A) P (Q : CloudDb -> list CloudEvent.t -> result CloudFail (result CoreError A) -> Prop) :
  from db m P -> (forall db' l r, P db' l r -> Q db' l (match r with Ok a => Ok (Ok a) | Err (Failed e) => Ok (Err e) | Err Panicked => Err Panicked end)) ->
  from db (caught m) Q.
Proof.
  intros Hm HPQ c Hc. destruct (Hm c Hc) as (l & Hl). exists l. unfold caught. destruct (m c) as [c' r]. destruct Hl as [Ht Hp].
  by apply HPQ in Hp.
Qed.

(** Statements on the table. *)
Lemma from_runs {A} db (m : M CloudDb DbError A) (P : CloudDb -> list CloudEvent.t -> result CloudFail A -> Prop) :
  P (final m db) [] (match value m db with Ok a => Ok a | Err e => Err (Failed (Db e)) end) -> from db (at_runs m) P.
Proof. intros Hp c <-. exists []. unfold at_runs, final, value in *. destruct (m c.(runs)) as [db' r]. cbn in *. by rewrite app_nil_r. Qed.

Lemma quiet_runs {A} (m : M CloudDb DbError A) : (forall db, final m db = db) -> quiet (at_runs m).
Proof. intros Hm db. apply from_runs. by rewrite Hm. Qed.
End Effects.

(** ** The table *)
Section Table.
Implicit Types (db : CloudDb) (r : CloudRunRow.t).

#[local] Instance cloud_run_ok : TableOk CloudDb CloudRunRow.t.
Proof. by split. Qed.

#[global] Instance cloud_codec_ok : CodecOk CloudRunRow.t CloudRun.t.
Proof. split. intros []. unfold to_row, try_from, cloud_run_codec, cloud_run_row, cloud_run_try_from. read_back. Qed.

(** How a row may change: an active one, without changing whose it is. *)
Definition same_run r r' : Prop := r'.(CloudRunRow.id) = r.(CloudRunRow.id) /\ r'.(CloudRunRow.thread_id) = r.(CloudRunRow.thread_id).
Definition readable_row r : Prop := is_ok (try_from (T:=CloudRun.t) r) = true.
Definition may r r' : Prop :=
  r' = r \/ (CloudRuns.active_row r = true /\ same_run r r' /\ (readable_row r -> readable_row r')).
Definition may_become id r r' : Prop := r' = r \/ (r.(CloudRunRow.id) = id /\ may r r').
Definition live id db : Prop := forall r, r ∈ db -> r.(CloudRunRow.id) = id -> CloudRuns.active_row r = true.

Lemma may_trans r r' r'' : may r r' -> may r' r'' -> may r r''.
Proof. unfold may, same_run. intros [->|(Ha & [? ?] & Hr)] [->|(Ha' & [? ?] & Hr')]; [by left|right; naive_solver..|]. right. split_and!; [done|congruence..|naive_solver]. Qed.
Lemma may_become_trans id r r' r'' : may_become id r r' -> may_become id r' r'' -> may_become id r r''.
Proof.
  intros [->|[Hid Hm]] [->|[Hid' Hm']]; [by left|by right..|]. right. split; [done|]. by eapply may_trans.
Qed.

Definition moves id db db' : Prop := Forall2 (may_become id) db db'.
Lemma moves_refl id db : moves id db db.
Proof. apply Forall_Forall2_diag, Forall_forall. by left. Qed.
Lemma moves_trans id db db' db'' : moves id db db' -> moves id db' db'' -> moves id db db''.
Proof. intros H H'. eapply Forall2_trans; [|exact H|exact H']. apply may_become_trans. Qed.

Lemma update_moves id f db :
  live id db -> (forall r, same_run r (f r) /\ (readable_row r -> readable_row (f r))) -> moves id db (update_where (by_id id) f db).
Proof.
  intros Hl Hf. unfold moves, update_where. apply Forall2_fmap_r, Forall_Forall2_diag, Forall_forall. intros r Hr.
  unfold compose. destruct (by_id id r) eqn:Hb; [|by left]. right. apply eq_str_true in Hb. split; [exact Hb|]. right. split; [by apply Hl|apply Hf].
Qed.
Lemma update_live id f db :
  (forall r, CloudRuns.active_row (f r) = true) -> (forall r, same_run r (f r)) -> live id (update_where (by_id id) f db).
Proof.
  intros Ha Hs r (r0 & Hr0 & ->)%elem_of_update_where. destruct (by_id id r0) eqn:Hb; [done|].
  intros Hid. exfalso. apply not_true_iff_false in Hb. apply Hb. by apply eq_str_true.
Qed.
Lemma moves_other_live id id' db db' : id <> id' -> moves id db db' -> live id' db -> live id' db'.
Proof.
  intros Hne Hm Hl r' Hr' Hid. apply list_elem_of_lookup in Hr' as (i & Hi).
  destruct (Forall2_lookup_r _ _ _ _ _ Hm Hi) as (r & Hr & [->|(Heq & Hmay)]); [by apply Hl; [eapply list_elem_of_lookup_2|]|].
  destruct Hmay as [->|(_ & [Hs _] & _)]; [by apply Hl; [eapply list_elem_of_lookup_2|]|]. exfalso. congruence.
Qed.

(** A sound table. *)
Record sound db : Prop := {
  sound_ids : NoDup (CloudRunRow.id <$> db);
  sound_rows : Forall readable_row db;
  sound_single : forall th, (length (filter (fun r => CloudRuns.of_thread th r && CloudRuns.active_row r = true) db) <= 1)%nat;
  sound_cap : (length (filter (fun r => CloudRuns.active_row r = true) db) <= 64)%nat
}.
(** Every run is still there; one that was closed has not changed. *)
Definition kept db db' : Prop := forall r, r ∈ db -> exists r', r' ∈ db' /\ may r r'.
Definition good db db' : Prop := sound db' /\ kept db db'.

Lemma kept_refl db : kept db db.
Proof. intros r Hr. exists r. split; [done|by left]. Qed.
Lemma kept_trans db db' db'' : kept db db' -> kept db' db'' -> kept db db''.
Proof. intros H H' r Hr. destruct (H r Hr) as (r' & Hr' & Hm). destruct (H' r' Hr') as (r'' & Hr'' & Hm'). exists r''. split; [done|]. by eapply may_trans. Qed.
Lemma runs_good_trans db db' db'' : good db db' -> good db' db'' -> good db db''.
Proof. intros [_ H] [Hs H']. split; [done|]. by eapply kept_trans. Qed.

Lemma filter_moves (p : CloudRunRow.t -> bool) id db db' :
  (forall r r', may_become id r r' -> p r' = true -> p r = true) -> moves id db db' ->
  (length (filter (fun r => p r = true) db') <= length (filter (fun r => p r = true) db))%nat.
Proof.
  intros Hp. induction 1 as [|r r' db db' Hr _ IH]; [done|]. rewrite !filter_cons.
  pose proof (Hp r r' Hr) as Himp. case_decide as H1; case_decide as H2; cbn [length]; try lia. by specialize (Himp H1).
Qed.
Lemma moves_from_active id r r' : may_become id r r' -> CloudRuns.active_row r' = true -> CloudRuns.active_row r = true.
Proof. intros [->|[_ [->|(? & _)]]]; done. Qed.

Lemma moves_good id db db' : sound db -> moves id db db' -> good db db'.
Proof.
  intros [H1 H2 H3 H4] Hm. split.
  - split.
    + replace (CloudRunRow.id <$> db') with (CloudRunRow.id <$> db); [done|]. clear -Hm. induction Hm as [|r r' db db' Hr _ IH]; [done|].
      rewrite !fmap_cons, IH. f_equal. by destruct Hr as [->|(_ & [->|(_ & [? _] & _)])].
    + clear -H2 Hm. induction Hm as [|r r' db db' Hr _ IH]; [done|]. apply Forall_cons in H2 as [Hr0 H2]. constructor; [|by apply IH].
      destruct Hr as [->|(_ & [->|(_ & _ & Hok)])]; [done..|by apply Hok].
    + intros th. etrans; [|apply (H3 th)]. apply (filter_moves _ id); [|done]. intros r r' Hr.
      rewrite !andb_true_iff. intros [Ht Ha]. split; [|by eapply moves_from_active].
      revert Ht. unfold CloudRuns.of_thread. by destruct Hr as [->|(_ & [->|(_ & [_ ->] & _)])].
    + etrans; [|exact H4]. apply (filter_moves _ id); [|done]. apply moves_from_active.
  - intros r Hr. apply list_elem_of_lookup in Hr as (i & Hi). destruct (Forall2_lookup_l _ _ _ _ _ Hm Hi) as (r' & Hr' & Hb).
    exists r'. split; [by eapply list_elem_of_lookup_2|]. destruct Hb as [->|[_ ?]]; [by left|done].
Qed.

Lemma append_good db row :
  sound db -> existsb (by_id row.(CloudRunRow.id)) db = false -> readable_row row ->
  filter (fun r => CloudRuns.of_thread row.(CloudRunRow.thread_id) r && CloudRuns.active_row r = true) db = [] ->
  (length (filter (fun r => CloudRuns.active_row r = true) db) < 64)%nat -> good db (db ++ [row]).
Proof.
  intros [H1 H2 H3 H4] Hnew Hok Hnone Hcap. split.
  - split.
    + rewrite fmap_app. apply NoDup_app. split; [done|]. split; [|apply NoDup_singleton].
      intros i (x & -> & Hx)%list_elem_of_fmap [Heq|[]%elem_of_nil]%elem_of_cons.
      apply not_true_iff_false in Hnew. apply Hnew, existsb_exists. exists x. split; [by apply list_elem_of_In|]. by apply eq_str_true.
    + apply Forall_app. split; [done|]. by constructor.
    + intros th. rewrite filter_app, length_app. destruct (decide (th = row.(CloudRunRow.thread_id))) as [->|Hne].
      * rewrite Hnone. cbn [length]. rewrite filter_cons, filter_nil. case_decide; cbn; lia.
      * rewrite (filter_cons_False _ row); [rewrite filter_nil; cbn [length]; specialize (H3 th); lia|].
        rewrite andb_true_iff. intros [Ht _]. by apply eq_str_true in Ht.
    + rewrite filter_app, length_app, filter_cons, filter_nil. case_decide; cbn [length]; lia.
  - intros r Hr. exists r. split; [by apply elem_of_app; left|by left].
Qed.
End Table.

(** ** Statements of the repository *)
Section Statements.
Context {E : Type}.
Implicit Types (db : CloudDb) (r : CloudRunRow.t).

#[local] Instance cloud_table : TableOk CloudDb CloudRunRow.t.
Proof. by split. Qed.

Lemma quiet_list_active : quiet (active_runs (E:=E)).
Proof. by apply quiet_runs. Qed.
Lemma quiet_active_of th : quiet (active_runs_of (E:=E) th).
Proof. by apply quiet_runs. Qed.
Lemma quiet_get id : quiet (at_runs (E:=E) (CloudRuns.get_run id)).
Proof. by apply quiet_runs. Qed.

Lemma try_from_run r (x : CloudRun.t) : try_from r = Ok x ->
  x.(CloudRun.id) = r.(CloudRunRow.id) /\ x.(CloudRun.thread_id) = r.(CloudRunRow.thread_id).
Proof.
  cbn [try_from cloud_run_codec]. unfold cloud_run_try_from. destruct (decode r.(CloudRunRow.agent_kind)); cbn; [|done]. destruct (decode r.(CloudRunRow.status)); cbn; [|done].
  destruct (decode r.(CloudRunRow.trigger)); cbn; [|done]. by intros [= <-].
Qed.

(** The active run of a thread, as it was read. *)
Lemma from_active_of db th :
  from db (active_runs_of (E:=E) th) (fun db' l res => db' = db /\ l = [] /\
    match res with
    | Ok None => filter (fun r => CloudRuns.of_thread th r && CloudRuns.active_row r = true) db = []
    | Ok (Some run) => exists row, row ∈ db /\ CloudRuns.active_row row = true /\ run.(CloudRun.id) = row.(CloudRunRow.id)
    | Err _ => True
    end).
Proof.
  apply from_runs. split_and!; [done|done|]. unfold CloudRuns.active_for_thread, value. rewrite M_bind_unfold. cbn [gets snd lift].
  set (p := fun r => CloudRuns.of_thread th r && CloudRuns.active_row r).
  pose proof (sort_by_perm (newest_first CloudRunRow.launched_at) (filter (fun r => p r = true) db)) as Hperm.
  unfold selected. cbn [rows_of cloud_run_table]. destruct (sort_by _ _) as [|row rows] eqn:Hs; cbn [head fmap option_fmap option_map transpose].
  - by apply Permutation_nil_l in Hperm.
  - destruct (try_from row) as [x|] eqn:Hx; cbn [transpose snd]; [|done]. exists row.
    assert (row ∈ filter (fun r => p r = true) db) as [Hp Hr]%list_elem_of_filter by (rewrite <- Hperm; left).
    unfold p in Hp. apply andb_true_iff in Hp as [_ Ha]. split_and!; [done|done|]. by apply try_from_run in Hx as [-> _].
Qed.

(** The active runs, as they were read. *)
Definition read_from db (runs : list CloudRun.t) : Prop :=
  length runs = length (filter (fun r => CloudRuns.active_row r = true) db) /\
  (NoDup (CloudRunRow.id <$> db) -> NoDup (CloudRun.id <$> runs)) /\
  forall run, run ∈ runs -> exists row, row ∈ db /\ CloudRuns.active_row row = true /\ run.(CloudRun.id) = row.(CloudRunRow.id).

Lemma from_active db :
  from db (active_runs (E:=E)) (fun db' l res => db' = db /\ l = [] /\ match res with Ok runs => read_from db runs | Err _ => True end).
Proof.
  apply from_runs. split_and!; [done|done|]. unfold CloudRuns.list_active, fetch_all, value. rewrite M_bind_unfold. cbn [gets snd lift].
  unfold selected. cbn [rows_of cloud_run_table].
  pose proof (sort_by_perm (oldest_first CloudRunRow.launched_at) (filter (fun r => CloudRuns.active_row r = true) db)) as Hperm.
  set (rows := sort_by _ _) in *. cbn [snd]. destruct (collect (try_from <$> rows)) as [runs|] eqn:Hc; [|done].
  apply collect_inv, Forall2_fmap_l in Hc. split_and!.
  - rewrite <- Hperm. symmetry. by apply Forall2_length in Hc.
  - intros Hnd. assert (CloudRun.id <$> runs = CloudRunRow.id <$> rows) as ->.
    { clear -Hc. induction Hc as [|r x rows runs Hx _ IH]; [done|]. rewrite !fmap_cons, IH. f_equal. by apply try_from_run in Hx as [-> _]. }
    rewrite Hperm. clear -Hnd. induction db as [|r db IH]; [constructor|]. rewrite fmap_cons in Hnd. apply NoDup_cons in Hnd as [Hr Hnd].
    rewrite filter_cons. case_decide; [|by apply IH]. rewrite fmap_cons. apply NoDup_cons. split; [|by apply IH].
    intros (x & Heq & [_ Hx]%list_elem_of_filter)%list_elem_of_fmap. apply Hr, list_elem_of_fmap. by exists x.
  - intros run Hrun. apply list_elem_of_lookup in Hrun as (i & Hi). destruct (Forall2_lookup_r _ _ _ _ _ Hc Hi) as (row & Hrow & Hx).
    apply list_elem_of_lookup_2 in Hrow. rewrite Hperm in Hrow. apply list_elem_of_filter in Hrow as [Ha Hrow]. exists row.
    split_and!; [done|done|]. by apply try_from_run in Hx as [-> _].
Qed.

Lemma live_of_row db row id : NoDup (CloudRunRow.id <$> db) -> row ∈ db -> CloudRuns.active_row row = true -> row.(CloudRunRow.id) = id -> live id db.
Proof. intros Hnd Hr Ha <- x Hx Heq. replace x with row; [done|]. by apply (NoDup_column_inj _ _ _ _ Hnd). Qed.

(** An update of one run. *)
Lemma update_final id f db : final (_ ← update_rows (S:=CloudDb) (by_id id) f; mret ()) db = update_where (by_id id) f db /\
  value (_ ← update_rows (S:=CloudDb) (by_id id) f; mret ()) db = Ok ().
Proof. unfold final, value. rewrite M_bind_unfold, update_rows_eq by done. done. Qed.

Lemma from_update db id f (P : CloudDb -> list CloudEvent.t -> result CloudFail () -> Prop) :
  P (update_where (by_id id) f db) [] (Ok ()) -> from (E:=E) db (at_runs (_ ← update_rows (by_id id) f; mret ())) P.
Proof. intros Hp. apply from_runs. by rewrite (proj1 (update_final id f db)), (proj2 (update_final id f db)). Qed.

(** The new row, or none. *)
Lemma from_create db ts id i :
  from (E:=E) db (at_runs (CloudRuns.create ts id i)) (fun db' l res => l = [] /\
    match res with
    | Ok run => run = CloudRuns.new_run ts id i /\ existsb (by_id id) db = false /\ db' = (db ++ [to_row (CloudRuns.new_run ts id i)])%list
    | Err _ => db' = db
    end).
Proof.
  apply from_runs. split; [done|]. unfold CloudRuns.create. set (run := CloudRuns.new_run ts id i).
  assert (row_id (to_row run) = id) as Hid by done. unfold final, value. rewrite M_bind_unfold, insert_row_eq, Hid.
  change (rows_of db) with db. generalize (to_row run). intros row. destruct (existsb (by_id id) db); done.
Qed.
End Statements.

(** ** The handlers *)
Section Handlers.
Context {V : Type} `{JsonView V} `{!BudgetSerde V} `{!TextSerde (list Attachment.t)} `{!TextSerde CloudPolicy.t} `{!Codecs} `{Chrono} `{LimitClock}.
Context {E : Type} `{CoreServices E} `{!TurnServices E} `{!RepoServices E} `{!TaskFiles E} `{!RunServices E} `{!WorkServices E}
  `{!CloudHost E} `{!CloudServices E V}.
Implicit Types (db : CloudDb) (run : CloudRun.t).

Lemma quiet_outside {A} (m : SysM E A) : quiet (outside m).
Proof. apply quiet_base. Qed.
Lemma quiet_client {A} (m : Ask E A) : quiet (ask_client m).
Proof. apply untold_bind; [apply quiet_outside|]. intros [[a|[e|]]|e]; first [apply quiet_ret|apply quiet_throw]. Qed.
Lemma quiet_dropped {A} (m : C E A) : quiet m -> quiet (dropped m).
Proof. intros Hm. apply untold_bind; [by apply quiet_caught|]. intros. apply quiet_ret. Qed.

Ltac known := fail.
Ltac quiet :=
  repeat first [known|apply quiet_ret|apply quiet_throw|apply quiet_base|apply quiet_outside|apply quiet_client|apply quiet_lift_opt|
    apply quiet_refuse_when|apply quiet_list_active|apply quiet_active_of|apply quiet_get|apply quiet_mark|apply quiet_mark_checkpoint|
    apply quiet_forget|apply quiet_dropped|apply quiet_caught|apply untold_bind; [|intros]|progress cbn zeta|case_match].

Lemma quiet_policy : quiet (get_cloud_policy (E:=E)).
Proof. unfold get_cloud_policy. quiet. Qed.
Lemma quiet_policy_or : quiet (policy_or_default (E:=E)).
Proof. unfold policy_or_default, get_cloud_policy. quiet. Qed.
Lemma quiet_worktree links : quiet (primary_worktree (E:=E) links).
Proof. unfold primary_worktree. induction links as [|link links IH]; cbn; quiet; exact IH. Qed.
Ltac known ::= first [apply quiet_policy|apply quiet_policy_or|apply quiet_worktree].

Lemma quiet_run_worktree run : quiet (run_worktree (E:=E) run).
Proof. unfold run_worktree. quiet. Qed.
Ltac known ::= first [apply quiet_policy|apply quiet_policy_or|apply quiet_worktree|apply quiet_run_worktree].
(** What the merge of the branch told: one merge when there is a worktree and a
    branch, else none. *)
Definition merge_told run (worktree : option string) (fetched : option (result string (list string))) (l : list CloudEvent.t) : Prop :=
  match worktree, run.(CloudRun.branch) with
  | Some worktree, Some branch => exists answer, fetched = Some answer /\ l = [CloudEvent.BranchMerged worktree branch answer]
  | _, _ => fetched = None /\ l = []
  end.
Lemma from_pull db run worktree :
  from db (pull_results (V:=V) (E:=E) run worktree) (fun db' l r => db' = db /\
    match r with Ok fetched => merge_told run worktree fetched l | Err _ => l = [] end).
Proof.
  unfold pull_results, merge_told. destruct worktree as [worktree|]; [|by apply from_ret].
  destruct run.(CloudRun.branch) as [branch|]; [|by apply from_ret]. apply from_quiet; [apply quiet_outside|done|]. intros auth.
  apply from_hear; [apply quiet_outside|done|]. intros answer. apply from_ret. split; [done|]. by exists answer.
Qed.
(** What the provider's results told, when they are asked for. *)
Definition results_told run (worktree : option string) (asked : bool) (more : list string) (l : list CloudEvent.t) : Prop :=
  match cloud_client_for (V:=V) (E:=E) run.(CloudRun.agent_kind), worktree with
  | Some _, Some _ =>
      if asked then exists answer, more = results_note (E:=E) answer /\ l = [CloudEvent.ResultsFetched answer] else more = [] /\ l = []
  | _, _ => more = [] /\ l = []
  end.
Lemma from_provider db run worktree :
  from db (provider_results (V:=V) (E:=E) run worktree) (fun db' l r => db' = db /\
    match r with Ok more => results_told run worktree true more l | Err _ => l = [] end).
Proof.
  unfold provider_results, results_told. destruct (cloud_client_for _) as [client|]; [|by apply from_ret].
  destruct worktree as [worktree|]; [|by apply from_ret].
  apply from_hear; [apply quiet_client|done|]. intros answer. apply from_ret. split; [done|]. by exists answer.
Qed.
Lemma quiet_availability : quiet (cloud_availability (V:=V) (E:=E)).
Proof.
  unfold cloud_availability. apply untold_bind; [apply quiet_policy_or|]. intros policy.
  generalize [AgentKind.ClaudeCode; AgentKind.Codex] as agents. induction agents as [|agent agents IH]; cbn [availability_of]; [apply quiet_ret|].
  unfold ask_sure. quiet; exact IH.
Qed.

(** *** Taking back *)

Lemma readable_columns r r' :
  r'.(CloudRunRow.agent_kind) = r.(CloudRunRow.agent_kind) -> r'.(CloudRunRow.trigger) = r.(CloudRunRow.trigger) ->
  (r'.(CloudRunRow.status) = r.(CloudRunRow.status) \/ exists v : CloudRunStatus.t, r'.(CloudRunRow.status) = wire v) ->
  readable_row r -> readable_row r'.
Proof.
  unfold readable_row. cbn [try_from cloud_run_codec]; unfold cloud_run_try_from. intros -> -> Hst.
  destruct (decode r.(CloudRunRow.agent_kind)); cbn [mbind result_bind is_ok]; [|done].
  assert (is_ok (decode (T:=CloudRunStatus.t) r.(CloudRunRow.status)) = true -> is_ok (decode (T:=CloudRunStatus.t) r'.(CloudRunRow.status)) = true) as Hs.
  { intros Hok. destruct Hst as [->|[v ->]]; [done|]. by rewrite decode_wire. }
  destruct (decode r.(CloudRunRow.status)); cbn [mbind result_bind is_ok]; [|done]. specialize (Hs eq_refl).
  destruct (decode r'.(CloudRunRow.status)); [|done]. by destruct (decode r.(CloudRunRow.trigger)).
Qed.

Lemma leads_show db id : from db (show_run (E:=E) id) (fun db' l r =>
  (db' = db /\ (l = [] \/ exists run, l = [CloudEvent.CloudRunUpdated run])) /\ r = Ok ()).
Proof.
  unfold show_run. intros c Hc.
  destruct (quiet_caught _ (quiet_get id) db c Hc) as (l & Hl). rewrite M_bind_unfold.
  assert (exists v, snd (caught (at_runs (E:=E) (CloudRuns.get_run id)) c) = Ok v) as [v Hv].
  { unfold caught, at_runs. destruct (CloudRuns.get_run id c.(runs)) as [? [a|e]]; by eexists. }
  destruct (caught _ c) as [c' r]. cbn in Hv. subst r. destruct Hl as (Ht & Hr & ->). rewrite app_nil_r in Ht.
  destruct v as [[run|]|]; [exists [CloudEvent.CloudRunUpdated run]|exists []..]; cbn; rewrite ?Ht, ?app_nil_r; split_and!; try done; eauto.
Qed.

(** A saved thread has the columns it was saved with. *)
Lemma saved_columns_of y r ts z :
  thread_try_from (V:=V) (AgentThreadRow.set_updated_at ts (thread_columns y r)) = Ok z ->
  z.(AgentThread.status) = y.(AgentThread.status) /\ z.(AgentThread.active_agent) = y.(AgentThread.active_agent) /\
  z.(AgentThread.handoff_state) = y.(AgentThread.handoff_state) /\ z.(AgentThread.progress) = y.(AgentThread.progress) /\
  z.(AgentThread.id) = r.(AgentThreadRow.id).
Proof.
  unfold thread_try_from, thread_columns, AgentThreadRow.set_updated_at. cbn -[decode decode_opt wire fmap].
  repeat first [rewrite decode_wire; cbn -[decode decode_opt wire fmap]|rewrite decode_opt_wire; cbn -[decode decode_opt wire fmap]].
  destruct (parse_task_budget _); [|done]. by intros [= <-].
Qed.

Definition saved_as (y z : AgentThread.t) : Prop :=
  z.(AgentThread.id) = y.(AgentThread.id) /\
  z.(AgentThread.status) = y.(AgentThread.status) /\ z.(AgentThread.active_agent) = y.(AgentThread.active_agent) /\
  z.(AgentThread.handoff_state) = y.(AgentThread.handoff_state) /\ z.(AgentThread.progress) = y.(AgentThread.progress).

Lemma update_fetch_returns {S R X} `{TableOk S R} `{Codec R X} id (f : R -> R) (e : DbError) :
  (forall r, row_id (f r) = row_id r) ->
  returns (_ ← update_rows (S:=S) (by_id id) f; found ← fetch_by_id (T:=X) id; lift_opt found e)
    (fun z => exists r, row_id r = id /\ try_from (f r) = Ok z).
Proof.
  intros Hf s. unfold value. rewrite M_bind_unfold. unfold update_rows. rewrite M_bind_unfold. cbn [get].
  unfold fail_when. rewrite M_bind_unfold. destruct (existsb _ _); [done|].
  cbn -[fetch_by_id lift_opt update_where]. unfold modify, mret, M_ret. cbn beta iota.
  rewrite M_bind_unfold. pose proof (fetch_updated (T:=X) s id f Hf) as Hget. unfold value in Hget.
  rewrite fetch_by_id_eq in Hget. cbn [snd] in Hget. rewrite M_bind_unfold, fetch_by_id_eq, Hget. clear Hget.
  unfold lift_opt, lift, ok_or. destruct (find _ _) as [r|] eqn:Hr; cbn; [|done].
  destruct (try_from (f r)) as [z|] eqn:Hz; cbn; [|done]. exists r. split; [|done].
  by apply find_Some_elem in Hr as [_ ?%by_id_true].
Qed.
Lemma save_returns ts y : returns (Threads.save (V:=V) ts y) (saved_as y).
Proof.
  intros d. pose proof (update_fetch_returns (X:=AgentThread.t) y.(AgentThread.id)
    (fun r => AgentThreadRow.set_updated_at ts (thread_columns y r)) DbNotFound ltac:(done) d) as Hd.
  unfold Threads.save, Threads.get_thread. destruct (value _ d) as [z|]; [|done]. destruct Hd as (r & Hid & Hz).
  apply saved_columns_of in Hz as (? & ? & ? & ? & Hzid). unfold saved_as. split_and!; try done. by rewrite Hzid.
Qed.
Lemma save_thread_returns y : returns (save_thread_ (V:=V) (E:=E) y) (saved_as y).
Proof.
  intros s. unfold save_thread_, at_desk, at_core, save_thread, value. rewrite M_bind_unfold.
  destruct (call now _) as [w [ts|e]]; cbn; [|done]. unfold on_db. pose proof (save_returns ts y w.(sys).(db)) as Hs. unfold value in Hs.
  by destruct (Threads.save ts y _) as [d [z|e]].
Qed.

Lemma find_thread_returns id : returns (find_thread (V:=V) (E:=E) id) (fun found => forall x, found = Some x -> x.(AgentThread.id) = id).
Proof.
  intros s. unfold find_thread, value, table, at_desk, at_core, on_db, Threads.get_thread. rewrite fetch_by_id_eq.
  destruct (find _ _) as [r|] eqn:Hf; [|by intros x]. cbn [fmap option_fmap option_map transpose].
  apply find_Some_elem in Hf as [_ Hid%by_id_true]. destruct (try_from r) as [x|] eqn:Hx; cbn; [|done].
  intros ? [= <-]. rewrite <- Hid. by apply thread_kept_columns in Hx as (-> & _).
Qed.

Lemma from_returns {A} db (m : T E A) (P : A -> Prop) :
  returns m P -> from db (at_base m) (fun db' l r => db' = db /\ l = [] /\ match r with Ok a => P a | Err _ => True end).
Proof.
  intros Hm c <-. exists []. unfold at_base. specialize (Hm c.(base)). unfold value in Hm. destruct (m c.(base)) as [s [a|e]]; cbn; by rewrite app_nil_r.
Qed.

(** Nothing of a run or its thread is shown, and nobody is woken. *)
Definition quiet_events (l : list CloudEvent.t) : Prop :=
  Forall (fun e => match e with
    | CloudEvent.LaunchAsked _ _ | CloudEvent.LaunchAnswered _ | CloudEvent.CloudRunUpdated _ | CloudEvent.ThreadShown _
    | CloudEvent.SchedulerWoken => False
    | _ => True
    end) l.
Lemma quiet_events_app l l' : quiet_events l -> quiet_events l' -> quiet_events (l ++ l')%list.
Proof. intros. by apply Forall_app. Qed.

(** The thread of a run that was taken back: it was looked for and is gone, or it was
    found, its queue read, and it is shown as the reclaimed thread was saved. *)
Definition thread_settled run reason parts conflict (l : list CloudEvent.t) : Prop :=
  l = [CloudEvent.ThreadLooked run.(CloudRun.thread_id) None] \/
  exists thread queued saved,
    l = [CloudEvent.ThreadLooked run.(CloudRun.thread_id) (Some thread); CloudEvent.QueueRead run.(CloudRun.thread_id) queued;
         CloudEvent.ThreadShown saved] /\
    thread.(AgentThread.id) = run.(CloudRun.thread_id) /\ saved_as (reclaimed_thread run reason parts conflict queued thread) saved.
(** It may stop on the way there. *)
Definition thread_settling run reason parts conflict (l : list CloudEvent.t) : Prop :=
  exists l', thread_settled run reason parts conflict l' /\ l `prefix_of` l'.

Lemma settling_nil run reason parts conflict : thread_settling run reason parts conflict [].
Proof. exists [CloudEvent.ThreadLooked run.(CloudRun.thread_id) None]. split; [by left|apply prefix_nil]. Qed.

Lemma from_hear_returns {A B} db (event : A -> CloudEvent.t) (m : T E A) (P : A -> Prop) (f : A -> C E B) Q :
  returns m P -> (forall e, Q db [] (Err e)) -> (forall a, P a -> from db (f a) (fun db' l r => Q db' (event a :: l) r)) ->
  from db (hear event (at_base m) ≫= f) Q.
Proof.
  intros Hm He Hf. unfold hear. apply from_assoc.
  eapply from_bind; [by apply from_returns|by intros e db' l (-> & -> & _)|]. intros a db' l (-> & -> & Ha).
  apply from_assoc. apply from_tell_bind. by apply Hf.
Qed.

Lemma from_settle db run reason parts conflict :
  from db (settle_thread (V:=V) (E:=E) run reason parts conflict) (fun db' l r => db' = db /\
    match r with Ok _ => thread_settled run reason parts conflict l | Err _ => thread_settling run reason parts conflict l end).
Proof.
  unfold settle_thread. eapply from_hear_returns; [apply find_thread_returns|intros e; split; [done|apply settling_nil]|].
  intros [thread|] Hid; [specialize (Hid thread eq_refl)|by apply from_ret; split; [|left]].
  set (id := run.(CloudRun.thread_id)) in *.
  assert (forall l, (exists l', l ++ l' = [CloudEvent.QueueRead id []; CloudEvent.ThreadShown (reclaimed_thread run reason parts conflict [] thread)])%list ->
    thread_settling run reason parts conflict (CloudEvent.ThreadLooked id (Some thread) :: l)) as Hstop.
  { intros l [l' Hl']. eexists. split; [right; exists thread, [], (reclaimed_thread run reason parts conflict [] thread); by split_and!|].
    exists l'. cbn. fold id. by rewrite Hl'. }
  apply from_hear; [apply quiet_outside|intros e; split; [done|by apply Hstop; eexists]|]. intros queued.
  assert (thread_settling run reason parts conflict [CloudEvent.ThreadLooked id (Some thread); CloudEvent.QueueRead id queued]) as Hstop'.
  { eexists. split; [right; exists thread, queued, (reclaimed_thread run reason parts conflict queued thread); by split_and!|]. by eexists. }
  eapply from_bind; [apply from_returns, save_thread_returns|by intros e db' l (-> & -> & _)|]. intros saved db' l (-> & -> & Hs).
  apply from_quiet; [apply quiet_dropped, quiet_base|done|]. intros _. unfold show_thread.
  apply from_quiet; [apply quiet_base|done|]. intros _. apply from_tell. split; [done|]. right. by exists thread, queued, saved.
Qed.

(** How taking a run back goes: before it is closed nothing of it is shown and the
    table stays; once it is closed, as what git said calls for, the thread is settled. *)
Inductive reclaim_outcome run reason (detail : option string) db : CloudDb -> list CloudEvent.t -> result CloudFail () -> Prop :=
| StillRunning l e : quiet_events l -> reclaim_outcome run reason detail db db l (Err e)
| TakenBack ts worktree fetched merged more results shown told_run r :
    merge_told run worktree fetched merged ->
    let conflict := (merge_summary fetched).2 in
    results_told run worktree (eq_str reason "completed" && negb conflict) more results ->
    let parts := ((merge_summary fetched).1 ++ more)%list in
    (if is_ok r then thread_settled run reason parts conflict shown else thread_settling run reason parts conflict shown) ->
    (told_run = [] \/ exists run', told_run = [CloudEvent.CloudRunUpdated run']) ->
    reclaim_outcome run reason detail db
      (update_where (by_id run.(CloudRun.id))
         (CloudRunRow.set_closed (CloudRunStatus.as_str (close_status reason detail conflict)) ts (failure_note detail conflict)) db)
      (CloudEvent.WorktreeFound worktree :: merged ++ results ++ shown ++ told_run ++
       (if is_ok r then [CloudEvent.SchedulerWoken] else [])) r.

Lemma quiet_merged run worktree fetched l : merge_told run worktree fetched l -> quiet_events l.
Proof. unfold merge_told. repeat case_match; first [intros (? & _ & ->)|intros [_ ->]]; by repeat constructor. Qed.
Lemma quiet_results run worktree asked more l : results_told run worktree asked more l -> quiet_events l.
Proof. unfold results_told. repeat case_match; first [intros (? & _ & ->)|intros [_ ->]]; by repeat constructor. Qed.

Lemma from_results db run worktree (asked : bool) :
  from db (if asked then provider_results (V:=V) (E:=E) run worktree else mret []) (fun db' l r => db' = db /\
    match r with Ok more => results_told run worktree asked more l | Err _ => l = [] end).
Proof. destruct asked; [apply from_provider|]. apply from_ret. split; [done|]. unfold results_told. by repeat case_match. Qed.

Lemma from_reclaim db run reason detail :
  from db (reclaim_thread_from_cloud (V:=V) (E:=E) run reason detail) (reclaim_outcome run reason detail db).
Proof.
  assert (quiet_events []) as Hnil by constructor.
  unfold reclaim_thread_from_cloud. apply from_hear; [apply quiet_run_worktree|by intros; apply StillRunning|]. intros worktree.
  set (found := CloudEvent.WorktreeFound worktree). assert (quiet_events [found]) as Hfound by (by repeat constructor).
  eapply from_bind; [apply from_pull|by intros e db' l [-> ->]; apply StillRunning|]. intros fetched db' merged [-> Hmerged].
  pose proof (quiet_events_app [found] merged Hfound (quiet_merged _ _ _ _ Hmerged)) as Hq1.
  destruct (merge_summary fetched) as [parts conflict] eqn:Hm.
  eapply from_bind; [apply from_results| |].
  { intros e db' l [-> ->]. rewrite app_nil_r. by apply StillRunning. }
  intros more db' results [-> Hmore].
  pose proof (quiet_events_app _ results Hq1 (quiet_results _ _ _ _ _ Hmore)) as Hq2. cbn [app] in Hq2.
  apply from_quiet; [apply quiet_outside|intros e; rewrite app_nil_r, app_comm_cons; by apply StillRunning|]. intros ts. unfold CloudRuns.close.
  set (db1 := update_where (by_id run.(CloudRun.id)) (CloudRunRow.set_closed (CloudRunStatus.as_str (close_status reason detail conflict)) ts (failure_note detail conflict)) db).
  assert (forall shown told_run (r : result CloudFail ()),
    (if is_ok r then thread_settled run reason (parts ++ more)%list conflict shown else thread_settling run reason (parts ++ more)%list conflict shown) ->
    (told_run = [] \/ exists run', told_run = [CloudEvent.CloudRunUpdated run']) ->
    reclaim_outcome run reason detail db db1 (found :: merged ++ results ++ shown ++ told_run ++ (if is_ok r then [CloudEvent.SchedulerWoken] else [])) r) as Hdone.
  { intros shown told_run r Hs Ht. pose proof (TakenBack run reason detail db ts worktree fetched merged more results shown told_run r Hmerged) as Hb.
    rewrite Hm in Hb. by apply Hb. }
  eapply from_bind; [apply (from_update _ _ _ (fun db' l r => db' = db1 /\ l = [] /\ r = Ok ())); by split_and!|naive_solver|].
  intros [] db' l (-> & -> & _). cbn [app].
  apply from_quiet; [apply quiet_forget| |].
  { intros e. by apply (Hdone [] [] (Err e)); [apply settling_nil|left]. }
  intros _. eapply from_bind; [apply from_settle| |].
  { intros e db' l [-> Hs]. rewrite <- (app_nil_r l). by apply (Hdone l [] (Err e)); [|left]. }
  intros [] db' l [-> Hs]. assert (thread_settling run reason (parts ++ more)%list conflict l) as Hs' by (by exists l).
  eapply from_bind; [apply leads_show|naive_solver|].
  intros [] db' l' ([-> Hl'] & _).
  apply from_quiet; [apply quiet_base| |].
  { intros e. rewrite app_nil_r, <- (app_nil_r l'). by apply (Hdone l l' (Err e)). }
  intros _. apply from_tell. by apply (Hdone l l' (Ok ())).
Qed.

Lemma leads_reclaim db run reason detail :
  live run.(CloudRun.id) db ->
  leads db (reclaim_thread_from_cloud (V:=V) (E:=E) run reason detail) (moves run.(CloudRun.id) db).
Proof.
  intros Hl. eapply from_mono; [|apply from_reclaim]. intros db' l r [l0 e _|ts worktree fetched merged more results shown told_run r' _ conflict _ parts _ _]; [apply moves_refl|].
  apply update_moves; [done|]. intros row. split; [done|]. apply readable_columns; [done..|right; by eexists].
Qed.

(** *** The monitor *)

(** A step that keeps the run active. *)
Definition live_step id db db' : Prop := moves id db db' /\ live id db'.

Lemma live_update db id f :
  live id db -> (forall r, CloudRuns.active_row r = true -> CloudRuns.active_row (f r) = true) ->
  (forall r, same_run r (f r) /\ (readable_row r -> readable_row (f r))) ->
  live_step id db (update_where (by_id id) f db).
Proof.
  intros Hl Ha Hf. split; [by apply update_moves|]. intros x (r0 & Hr0 & ->)%elem_of_update_where.
  destruct (by_id id r0) eqn:Hb; [|by apply Hl]. intros _. apply Ha, Hl; [done|]. by apply eq_str_true in Hb.
Qed.
Lemma live_step_refl id db : live id db -> live_step id db db.
Proof. intros Hl. split; [apply moves_refl|done]. Qed.
Lemma live_step_trans id db db' db'' : live_step id db db' -> live_step id db' db'' -> live_step id db db''.
Proof. intros [Ha _] [Hb ?]. split; [by eapply moves_trans|done]. Qed.

Lemma leads_activity db id ts commit :
  live id db -> leads db (at_runs (E:=E) (CloudRuns.record_activity ts id commit)) (live_step id db).
Proof.
  intros Hl. apply from_update. apply live_update; [done..|]. intros r. split; [done|].
  apply readable_columns; [done..|by left].
Qed.
Lemma leads_status db id (status : CloudRunStatus.t) :
  CloudRunStatus.is_active status = true ->
  live id db -> leads db (at_runs (E:=E) (CloudRuns.set_status id status)) (live_step id db).
Proof.
  intros Hs Hl. apply from_update. apply live_update; [done..| |].
  - intros r _. by destruct status.
  - intros r. split; [done|]. apply readable_columns; [done..|right; by eexists].
Qed.

Lemma leads_then {A B} db (m : C E A) (f : A -> C E B) (P Q : CloudDb -> Prop) :
  leads db m P -> (forall db', P db' -> Q db') -> (forall a db', P db' -> leads db' (f a) Q) -> leads db (m ≫= f) Q.
Proof. intros Hm He Hf. eapply from_bind; [exact Hm|intros; by apply He|intros; by apply Hf]. Qed.
Lemma leads_quiet {A B} db (m : C E A) (f : A -> C E B) (Q : CloudDb -> Prop) :
  quiet m -> Q db -> (forall a, leads db (f a) Q) -> leads db (m ≫= f) Q.
Proof. intros Hm He Hf. by apply from_quiet. Qed.
Lemma leads_any {A} db (m : C E A) (Q : CloudDb -> Prop) : quiet m -> Q db -> leads db m Q.
Proof. intros Hm Hq. by apply from_any. Qed.
Lemma leads_mono {A} db (m : C E A) (P Q : CloudDb -> Prop) : (forall db', P db' -> Q db') -> leads db m P -> leads db m Q.
Proof. intros HPQ. apply from_mono. intros db' l r. apply HPQ. Qed.
Lemma leads_caught {A} db (m : C E A) (Q : CloudDb -> Prop) : leads db m Q -> leads db (caught m) Q.
Proof. intros Hm. by eapply from_caught. Qed.

Lemma leads_observe db run : live run.(CloudRun.id) db -> leads db (observe_branch (V:=V) (E:=E) run) (live_step run.(CloudRun.id) db).
Proof.
  intros Hl. pose proof (live_step_refl _ _ Hl) as Hr. unfold observe_branch. apply leads_quiet; [apply quiet_run_worktree|done|]. intros worktree.
  destruct run.(CloudRun.branch) as [branch|]; [|by apply leads_any; [apply quiet_ret|]].
  destruct worktree as [worktree|]; [|by apply leads_any; [apply quiet_ret|]].
  apply leads_quiet; [apply quiet_outside|done|]. intros auth. apply leads_quiet; [apply quiet_base|done|].
  intros [[sha|]|e]; [|by apply leads_any; [apply quiet_ret|]..]. case_bool_decide; [by apply leads_any; [apply quiet_ret|]|].
  apply leads_quiet; [apply quiet_outside|done|]. intros ts. eapply leads_then; [by apply leads_activity|done|].
  intros _ db' Hd. by apply leads_any; [apply quiet_ret|].
Qed.

Lemma leads_note_running db run status saw :
  live run.(CloudRun.id) db -> leads db (note_running (E:=E) run status saw) (live_step run.(CloudRun.id) db).
Proof.
  intros Hl. pose proof (live_step_refl _ _ Hl) as Hr. unfold note_running. case_bool_decide; [|by apply leads_any; [apply quiet_ret|]].
  apply (leads_then _ _ _ (live_step run.(CloudRun.id) db)); [|done|].
  - case_match; [|by apply leads_any; [apply quiet_ret|]]. eapply leads_then; [by apply leads_status|done|].
    intros _ db' Hd. by apply leads_any; [apply quiet_ret|].
  - intros [] db' Hd; [by apply leads_any; [apply quiet_ret|]|]. apply leads_quiet; [apply quiet_outside|done|]. intros ts.
    eapply leads_then; [apply leads_activity, Hd| |].
    + intros db'' Hd'. by eapply live_step_trans.
    + intros _ db'' Hd'. apply leads_any; [apply quiet_ret|]. by eapply live_step_trans.
Qed.

Lemma leads_monitor db run policy :
  live run.(CloudRun.id) db -> leads db (monitor_cloud_run (V:=V) (E:=E) run policy) (moves run.(CloudRun.id) db).
Proof.
  intros Hl. unfold monitor_cloud_run. apply leads_quiet; [apply quiet_lift_opt|apply moves_refl|]. intros client.
  eapply leads_then; [by apply leads_observe|by intros ? [? _]|]. intros saw db1 [Hm1 Hl1].
  apply leads_quiet; [apply quiet_client|done|]. intros polled. generalize (match polled with Ok status => status | Err _ => CloudPollStatus.Unknown end).
  intros status.
  assert (forall reason detail, leads db1 (reclaim_thread_from_cloud (V:=V) (E:=E) run reason detail) (moves run.(CloudRun.id) db)) as Hrec.
  { intros reason detail. eapply leads_mono; [|by apply leads_reclaim]. intros db' Hm. by eapply moves_trans. }
  assert (leads db1 (saw_progress ← note_running run status saw;
            if (saw_progress : bool) then show_run run.(CloudRun.id) else check_stall (V:=V) run policy) (moves run.(CloudRun.id) db)) as Hrest.
  { eapply leads_then; [by apply leads_note_running| |].
    - intros db' [Hm _]. by eapply moves_trans.
    - intros b db2 [Hm2 Hl2]. assert (moves run.(CloudRun.id) db db2) as Hm by (by eapply moves_trans).
      destruct b; [eapply from_mono; [|apply leads_show]; by intros db' l r [[-> _] _]|].
      unfold check_stall. apply leads_quiet; [apply quiet_outside|done|]. intros ts.
      case_match; [|by apply leads_any; [apply quiet_ret|]]. eapply leads_then; [by apply leads_status| |].
      + intros db' [Hm' _]. by eapply moves_trans.
      + intros _ db3 [Hm3 Hl3]. eapply leads_mono; [|by apply leads_reclaim]. intros db' Hm'.
        eapply moves_trans; [|exact Hm']. by eapply moves_trans. }
  destruct status; first [exact Hrest|apply Hrec].
Qed.

Lemma leads_monitor_one db policy run :
  live run.(CloudRun.id) db -> leads db (monitor_one (V:=V) (E:=E) policy run) (moves run.(CloudRun.id) db).
Proof.
  intros Hl. pose proof (moves_refl run.(CloudRun.id) db) as Hr. unfold monitor_one, monitor_due.
  apply leads_quiet; [apply untold_bind; [apply quiet_outside|intros; apply quiet_mark]|done|].
  intros [|]; cbn [negb]; [|by apply leads_any; [apply quiet_ret|]].
  eapply leads_then; [by apply leads_caught, leads_monitor|done|]. intros [a|e] db' Hm; apply leads_any; try done; [apply quiet_ret|].
  apply quiet_dropped, quiet_base.
Qed.

Lemma leads_each policy runs0 db :
  sound db -> NoDup (CloudRun.id <$> runs0) -> (forall run, run ∈ runs0 -> live run.(CloudRun.id) db) ->
  leads db (for_each (monitor_one (V:=V) (E:=E) policy) runs0) (good db).
Proof.
  revert db. induction runs0 as [|run runs0 IH]; intros db Hs Hnd Hl; cbn [for_each].
  { apply leads_any; [apply quiet_ret|]. split; [done|apply kept_refl]. }
  rewrite fmap_cons in Hnd. apply NoDup_cons in Hnd as [Hnew Hnd].
  eapply leads_then; [apply leads_monitor_one, Hl; by left| |].
  - intros db' Hm. by apply (moves_good run.(CloudRun.id)).
  - intros _ db' Hm. pose proof (moves_good _ _ _ Hs Hm) as Hg. eapply leads_mono; [|apply IH; [apply Hg|done|]].
    + intros db'' Hg'. by eapply runs_good_trans.
    + intros run' Hr'. eapply moves_other_live; [|exact Hm|apply Hl; by right]. intros Heq. apply Hnew. rewrite Heq.
      apply list_elem_of_fmap. by exists run'.
Qed.

Lemma runs_good_refl db : sound db -> good db db.
Proof. intros Hs. split; [done|apply kept_refl]. Qed.

Lemma leads_tick db : sound db -> leads db (run_cloud_monitor_tick (V:=V) (E:=E)) (good db).
Proof.
  intros Hs. unfold run_cloud_monitor_tick. eapply from_bind; [apply from_active| |].
  - intros e db' l (-> & _). by apply runs_good_refl.
  - intros active db' l (-> & -> & _ & Hnd & Hrows). case_bool_decide; [by apply leads_any; [apply quiet_ret|by apply runs_good_refl]|].
    apply leads_quiet; [apply quiet_policy_or|by apply runs_good_refl|]. intros policy. apply leads_each; [done|apply Hnd, Hs|].
    intros run Hrun. destruct (Hrows run Hrun) as (row & Hrow & Ha & ->). by apply (live_of_row db row); [apply Hs|..].
Qed.

Lemma leads_manual db th : sound db -> leads db (reclaim_cloud_run (V:=V) (E:=E) th) (good db).
Proof.
  intros Hs. unfold reclaim_cloud_run. eapply from_bind; [apply from_active_of| |].
  - intros e db' l (-> & _). by apply runs_good_refl.
  - intros [run|] db' l (-> & -> & Hr); cbn [lift_opt ok_or]; [|by apply leads_any; [apply quiet_throw|by apply runs_good_refl]].
    destruct Hr as (row & Hrow & Ha & Hid). eapply leads_mono; [intros db'; by apply (moves_good run.(CloudRun.id))|].
    apply leads_reclaim. rewrite Hid. by apply (live_of_row db row); [apply Hs|..].
Qed.

(** *** Handing off *)

(** What allows a launch for a thread. *)
Definition allowed (policy : CloudPolicy.t) db (thread_id : string) (agent : AgentKind.t) : Prop :=
  policy.(CloudPolicy.enabled) = true /\
  filter (fun r => CloudRuns.of_thread thread_id r && CloudRuns.active_row r = true) db = [] /\
  Z.of_nat (length (filter (fun r => CloudRuns.active_row r = true) db)) < policy.(CloudPolicy.max_concurrent_cloud_runs) /\
  cloud_provider agent = true.

Lemma from_refuse_when {A} db b msg (k : () -> C E A) (Q : CloudDb -> list CloudEvent.t -> result CloudFail A -> Prop) :
  (forall e, Q db [] (Err e)) -> (b = false -> from db (k ()) Q) -> from db (refuse_when b msg ≫= k) Q.
Proof. intros He Hk. destruct b; [|by apply Hk]. intros c <-. exists []. cbn. by rewrite app_nil_r. Qed.
Lemma from_lift_opt {A B} db (o : option A) e (k : A -> C E B) (Q : CloudDb -> list CloudEvent.t -> result CloudFail B -> Prop) :
  (forall e, Q db [] (Err e)) -> (forall a, o = Some a -> from db (k a) Q) -> from db (lift_opt o e ≫= k) Q.
Proof. intros He Hk. destruct o as [a|]; [by apply Hk|]. intros c <-. exists []. cbn. by rewrite app_nil_r. Qed.

(** A client speaks of its own provider, and is ready when nothing blocks it. *)
Lemma availability_agent agent (client : CloudTaskClient.t E) ts env :
  cloud_client_for (V:=V) agent = Some client ->
  returns (client.(CloudTaskClient.availability) ts env) (fun a =>
    a.(CloudAvailability.agent) = agent /\ (a.(CloudAvailability.ready) = true <-> a.(CloudAvailability.blockers) = [])).
Proof.
  destruct agent; cbn; intros [= <-]; cbn [CloudTaskClient.availability codex_cloud_client claude_cloud_client];
    unfold codex_availability, claude_availability;
    apply returns_bind; intros binary; apply returns_bind; intros [auth blockers]; [|apply returns_bind; intros probed_];
    (apply returns_ret; cbn; split; [done|by rewrite bool_decide_eq_true]).
Qed.

Lemma from_availability db agent (client : CloudTaskClient.t E) ts env :
  cloud_client_for (V:=V) agent = Some client ->
  from db (ask_sure (client.(CloudTaskClient.availability) ts env)) (fun db' l r => db' = db /\ l = [] /\
    match r with Ok a => a.(CloudAvailability.agent) = agent | Err _ => True end).
Proof.
  intros Hc c Hdb. destruct (quiet_outside (surely (client.(CloudTaskClient.availability) ts env)) db c Hdb) as (l & Hl).
  exists l. pose proof (availability_agent agent client ts env) as Ha.
  unfold ask_sure, outside, at_base, sys_, at_desk, at_core, call, surely in *.
  specialize (Ha Hc (sys (desk_core (desk (base c))))). unfold value in Ha.
  destruct (client.(CloudTaskClient.availability) ts env _) as [s' [a|[]]]. cbn in *. destruct Hl as (? & ? & ?). by destruct Ha.
Qed.

Definition probed (agent : AgentKind.t) (l : list CloudEvent.t) : Prop :=
  exists a, l = [CloudEvent.Probed a] /\ a.(CloudAvailability.agent) = agent /\ a.(CloudAvailability.ready) = true.
Lemma from_check db policy thread_id agent_override :
  from db (check_handoff (V:=V) policy thread_id agent_override) (fun db' l r => db' = db /\
    match r with
    | Ok target => target.(HandoffTarget.policy) = policy /\ allowed policy db thread_id target.(HandoffTarget.agent) /\
                   cloud_client_for target.(HandoffTarget.agent) = Some target.(HandoffTarget.client) /\ probed target.(HandoffTarget.agent) l
    | Err _ => quiet_events l
    end).
Proof.
  assert (quiet_events []) as Hnil by constructor. unfold check_handoff.
  apply from_refuse_when; [done|]. intros Hen%negb_false_iff.
  apply from_quiet; [apply quiet_base|done|]. intros found. apply from_lift_opt; [done|]. intros thread _.
  eapply from_bind; [apply from_active_of|naive_solver|]. intros running db1 l1 (-> & -> & Hrun). cbn [app].
  apply from_refuse_when; [done|]. intros Hnone%bool_decide_eq_false. destruct running; [by destruct Hnone|].
  eapply from_bind; [apply from_active|naive_solver|]. intros active db1 l1 (-> & -> & Hlen & _). cbn [app].
  apply from_refuse_when; [done|]. intros Hcap%Z.leb_gt.
  apply from_lift_opt; [done|]. intros agent _. apply from_lift_opt; [done|]. intros client Hclient.
  apply from_quiet; [apply quiet_outside|done|]. intros ts.
  eapply from_bind; [by apply from_availability|naive_solver|]. intros a db1 l1 (-> & -> & Ha). cbn [app].
  apply from_tell_bind. assert (quiet_events [CloudEvent.Probed a]) as Hone by (by repeat constructor).
  apply from_refuse_when; [done|]. intros Hready%negb_false_iff.
  apply from_quiet; [apply quiet_outside|done|]. intros record. apply from_quiet; [apply quiet_outside|done|]. intros ts'.
  apply from_quiet; [quiet|done|]. intros _. apply from_quiet; [apply quiet_base|done|]. intros links.
  apply from_quiet; [apply quiet_worktree|done|]. intros subject. apply from_lift_opt; [done|]. intros [worktree branch] _.
  apply from_quiet; [apply quiet_ret|done|]. intros _. apply from_ret. cbn. split_and!; [done|done| |done|by exists a].
  unfold allowed. rewrite <- Hlen. split_and!; [done..|]. by destruct agent.
Qed.

(** The consent asked for, and given. *)
Definition consented (policy : CloudPolicy.t) (trigger : CloudHandoffTrigger.t) (l : list CloudEvent.t) : Prop :=
  if policy.(CloudPolicy.require_approval) && bool_decide (trigger = CloudHandoffTrigger.Manual)
  then l = [CloudEvent.ApprovalDecided ApprovalDecision.Allow] \/ l = [CloudEvent.ApprovalDecided ApprovalDecision.AllowForSession]
  else l = [].
Lemma from_consent db (target : HandoffTarget.t E) trigger thread_id :
  from db (handoff_consent (V:=V) target trigger thread_id) (fun db' l r => db' = db /\
    match r with Ok _ => consented target.(HandoffTarget.policy) trigger l | Err _ => quiet_events l end).
Proof.
  unfold handoff_consent, consented. destruct (_ && _); [|by apply from_ret].
  apply from_quiet; [apply quiet_outside|intros; split; [done|constructor]|]. intros decision.
  apply from_tell_bind. destruct decision; first [apply from_ret; auto|apply from_throw; split; [done|by repeat constructor]].
Qed.

(** No session of the thread was seen, or it was told to stop and did. *)
Definition stopped (thread_id : string) (l : list CloudEvent.t) : Prop :=
  l = [CloudEvent.ActiveSeen thread_id false] \/
  l = [CloudEvent.ActiveSeen thread_id true; CloudEvent.CancelAsked thread_id; CloudEvent.SessionStopped true].
Lemma from_quiesce db thread_id :
  from db (quiesce (E:=E) thread_id) (fun db' l r => db' = db /\ match r with Ok _ => stopped thread_id l | Err _ => quiet_events l end).
Proof.
  unfold quiesce. apply from_hear; [apply quiet_base|intros; split; [done|constructor]|].
  intros [|]; cbn [negb]; [|apply from_ret; split; [done|by left]].
  apply from_hear; [apply quiet_outside|intros; split; [done|by repeat constructor]|]. intros cancelled.
  apply from_hear; [apply quiet_outside|intros; split; [done|by repeat constructor]|]. intros [|]; [apply from_ret; split; [done|by right]|].
  apply from_throw. split; [done|by repeat constructor].
Qed.

(** Everything was committed, the branch pushed and the head read, in that order. *)
Definition checkpointed (worktree branch commit : string) (l : list CloudEvent.t) : Prop :=
  exists committed, l = [CloudEvent.Committed worktree (Ok committed); CloudEvent.Pushed worktree branch (Ok ());
                         CloudEvent.HeadRead worktree (Ok commit)].
Lemma from_then_git {A B} db (event : result string A -> CloudEvent.t) (m : SysM E (result string A)) (rest : A -> C E (result string B))
  (Q : CloudDb -> list CloudEvent.t -> result CloudFail (result string B) -> Prop) :
  (forall e, Q db [] (Err e)) -> (forall e, Q db [event (Err e)] (Ok (Err e))) ->
  (forall a, from db (rest a) (fun db' l r => Q db' (event (Ok a) :: l) r)) -> from db (then_git event m rest) Q.
Proof.
  intros He Hr Ha. unfold then_git. apply from_hear; [apply quiet_outside|done|]. intros [a|e]; [apply Ha|by apply from_ret].
Qed.
Lemma from_checkpoint db worktree branch :
  from db (checkpoint (V:=V) (E:=E) worktree branch) (fun db' l r => db' = db /\
    match r with Ok (_, commit) => checkpointed worktree branch commit l | Err _ => quiet_events l end).
Proof.
  assert (Hnil : quiet_events []) by constructor.
  unfold checkpoint. apply from_quiet; [apply quiet_outside|done|]. intros auth. apply from_quiet; [apply quiet_base|done|]. intros before.
  apply (from_bind _ _ _ (fun db' l r => db' = db /\
    match r with Ok (Ok commit) => checkpointed worktree branch commit l | _ => quiet_events l end)).
  - apply from_then_git; [done|intros; split; [done|by repeat constructor]|]. intros committed.
    apply from_then_git; [intros; split; [done|by repeat constructor]..|]. intros [].
    apply from_hears; [apply quiet_outside|intros; split; [done|by repeat constructor]|]. intros [commit|e]; (split; [done|]); [by exists committed|by repeat constructor].
  - naive_solver.
  - intros [commit|e] db' l [-> Hl]; [apply from_ret|apply from_throw]; by rewrite app_nil_r.
Qed.

Lemma from_client {A} db (m : Ask E A) :
  from db (ask_client m) (fun db' l r => db' = db /\ l = [] /\ match r with Ok _ => True | Err e => e = Panicked end).
Proof.
  intros c <-. exists []. rewrite app_nil_r. unfold ask_client, outside, at_base, sys_, at_desk, at_core, call, try_. rewrite M_bind_unfold.
  destruct (m _) as [s' [a|[e|]]]; by cbn.
Qed.
(** The launch: nothing asked for yet; or asked for, and it panicked, was refused, or
    answered a task. *)
Lemma from_launch db (target : HandoffTarget.t E) request :
  from db (launch_run target request) (fun db' l r => db' = db /\
    match r with
    | Ok ref => l = [CloudEvent.LaunchAsked target.(HandoffTarget.agent) request; CloudEvent.LaunchAnswered (Ok ref)]
    | Err err => l = [] \/
        (l = [CloudEvent.LaunchAsked target.(HandoffTarget.agent) request] /\ err = Panicked) \/
        exists e, l = [CloudEvent.LaunchAsked target.(HandoffTarget.agent) request; CloudEvent.LaunchAnswered (Err e)]
    end).
Proof.
  unfold launch_run. apply from_quiet; [apply quiet_outside|by auto|]. intros ts. apply from_tell_bind. unfold hear.
  apply from_assoc. eapply from_bind; [apply from_client|by intros e db' l (-> & -> & ->); auto|].
  intros launched db' l (-> & -> & _). apply from_assoc. apply from_tell_bind.
  apply from_ret_bind.
  destruct launched as [ref|e]; [by apply from_ret|]. apply from_quiet.
  - destruct e; first [apply quiet_dropped, quiet_base|apply quiet_ret].
  - intros err. split; [done|]. right; right. by exists e.
  - intros _. apply from_throw. split; [done|]. right; right. by exists e.
Qed.

(** The thread of a launched run. *)
Definition in_cloud (agent : AgentKind.t) (saved : AgentThread.t) : Prop :=
  saved.(AgentThread.status) = TaskStatus.RunningInCloud /\ saved.(AgentThread.active_agent) = Some agent /\
  saved.(AgentThread.handoff_state) = "cloud_active".
(** The row of a launch, and what is told after it. *)
Definition run_recorded db (thread_id : string) (trigger : CloudHandoffTrigger.t) (agent : AgentKind.t) (branch commit : string)
  (ref : CloudTaskRef.t) db' (l : list CloudEvent.t) (r : result CloudFail CloudRun.t) : Prop :=
  exists run, db' = (db ++ [to_row run])%list /\ existsb (by_id run.(CloudRun.id)) db = false /\
    run.(CloudRun.thread_id) = thread_id /\ run.(CloudRun.agent_kind) = agent /\ run.(CloudRun.trigger) = trigger /\
    run.(CloudRun.provider_task_id) = ref.(CloudTaskRef.task_id) /\ run.(CloudRun.url) = ref.(CloudTaskRef.url) /\
    run.(CloudRun.env_id) = ref.(CloudTaskRef.env_id) /\
    run.(CloudRun.status) = CloudRunStatus.Provisioning /\ run.(CloudRun.branch) = Some branch /\
    run.(CloudRun.launch_commit) = Some commit /\ run.(CloudRun.last_seen_commit) = Some commit /\
    match r with
    | Ok run' => run' = run /\ exists saved, in_cloud agent saved /\
        l = [CloudEvent.ThreadShown saved; CloudEvent.CloudRunUpdated run; CloudEvent.SchedulerWoken]
    | Err _ => l = [] \/ exists saved, in_cloud agent saved /\ l = [CloudEvent.ThreadShown saved; CloudEvent.CloudRunUpdated run]
    end.
(** What follows a launch that was asked for: the client panicked, and nothing is
    recorded; or it refused, and nothing is; or it answered a task, which is recorded
    unless its row could not be written. *)
Inductive after_launch db thread_id trigger agent branch commit : CloudDb -> list CloudEvent.t -> result CloudFail CloudRun.t -> Prop :=
| LaunchPanicked : after_launch db thread_id trigger agent branch commit db [] (Err Panicked)
| LaunchRefused e err : after_launch db thread_id trigger agent branch commit db [CloudEvent.LaunchAnswered (Err e)] (Err err)
| NotRecorded ref err : after_launch db thread_id trigger agent branch commit db [CloudEvent.LaunchAnswered (Ok ref)] (Err err)
| Recorded ref db' l r : run_recorded db thread_id trigger agent branch commit ref db' l r ->
    after_launch db thread_id trigger agent branch commit db' (CloudEvent.LaunchAnswered (Ok ref) :: l) r.

Lemma from_record db (target : HandoffTarget.t E) trigger thread ref base_commit commit thread_id :
  from db (record_launch (V:=V) target trigger thread ref base_commit commit thread_id)
    (fun db' l r => after_launch db thread_id trigger target.(HandoffTarget.agent) target.(HandoffTarget.branch) commit db'
       (CloudEvent.LaunchAnswered (Ok ref) :: l) r).
Proof.
  unfold record_launch. do 2 (apply from_quiet; [apply quiet_outside|intros; apply NotRecorded|intros ?]).
  eapply from_bind; [apply from_create| |].
  { intros e db' l (-> & ->). apply NotRecorded. }
  intros run db' l (-> & -> & Hnew & ->). set (run0 := CloudRuns.new_run _ _ _) in *.
  set (agent := target.(HandoffTarget.agent)) in *.
  assert (forall l (r : result CloudFail CloudRun.t),
    match r with
    | Ok run' => run' = run0 /\ exists saved, in_cloud agent saved /\
        l = [CloudEvent.ThreadShown saved; CloudEvent.CloudRunUpdated run0; CloudEvent.SchedulerWoken]
    | Err _ => l = [] \/ exists saved, in_cloud agent saved /\ l = [CloudEvent.ThreadShown saved; CloudEvent.CloudRunUpdated run0]
    end -> after_launch db thread_id trigger agent target.(HandoffTarget.branch) commit (db ++ [to_row run0])%list
             (CloudEvent.LaunchAnswered (Ok ref) :: l) r) as Hrec.
  { intros l r Hr. apply Recorded. exists run0. by split_and!. }
  eapply from_bind; [apply from_returns, save_thread_returns| |].
  { intros e db' l (-> & -> & _). apply Hrec. by left. }
  intros saved db' l (-> & -> & _ & Hst & Hag & Hho & _). assert (in_cloud agent saved) as Hin by done.
  eapply (from_bind _ _ _ (fun db' l r => db' = (db ++ [to_row run0])%list /\ match r with Ok _ => l = [CloudEvent.ThreadShown saved] | Err _ => l = [] end)).
  { unfold show_thread. apply from_quiet; [apply quiet_base|done|]. intros _. by apply from_tell. }
  { intros e db' l [-> ->]. apply Hrec. by left. }
  intros [] db' l [-> ->]. apply from_tell_bind.
  apply from_quiet; [apply quiet_base|intros; apply Hrec; right; by exists saved|]. intros _. apply from_tell_bind. apply from_ret, Hrec. split; [done|].
  by exists saved.
Qed.

Lemma truncate_bytes_length n s t : truncate_bytes n s = Some t -> (String.length t <= Nat.max n (String.length s))%nat /\ ((n <= String.length s)%nat -> (String.length t <= n)%nat).
Proof.
  unfold truncate_bytes. destruct (_ <=? _)%nat eqn:Hle; [|intros [= <-]; apply Nat.leb_gt in Hle; lia].
  case_match; [|done]. intros [= <-]. pose proof (length_substring0 n s). lia.
Qed.
Lemma prompt_bounded thread agent prompt : continuation_prompt thread agent = Some prompt -> len prompt <= MAX_CLOUD_PROMPT_CHARS.
Proof.
  unfold continuation_prompt. destruct (_ <? _) eqn:Hlt; [|intros [= <-]; apply Z.ltb_ge in Hlt; lia].
  intros Ht%truncate_bytes_length. apply Z.ltb_lt in Hlt. unfold len in *. unfold MAX_CLOUD_PROMPT_CHARS in *.
  generalize dependent (String.length (continuation_text thread agent)). generalize (String.length prompt). intros n m. lia.
Qed.

(** How a handoff goes, given the policy it read. *)
Inductive handoff_outcome (read : result CloudFail CloudPolicy.t) (thread_id : string) (trigger : CloudHandoffTrigger.t) db :
  CloudDb -> list CloudEvent.t -> result CloudFail CloudRun.t -> Prop :=
| GivenUp l e : quiet_events l -> handoff_outcome read thread_id trigger db db l (Err e)
| WasLaunched policy agent before_ consent stop saved worktree branch commit prompt db' rest r :
    read = Ok policy -> allowed policy db thread_id agent ->
    probed agent before_ -> consented policy trigger consent -> stopped thread_id stop ->
    checkpointed worktree branch commit saved ->
    len prompt <= MAX_CLOUD_PROMPT_CHARS ->
    after_launch db thread_id trigger agent branch commit db' rest r ->
    handoff_outcome read thread_id trigger db db'
      (before_ ++ consent ++ stop ++ saved ++
       CloudEvent.LaunchAsked agent (CloudLaunchRequest.mk prompt worktree (Some branch) policy.(CloudPolicy.codex_env_id)) :: rest) r.

Lemma quiet_probed agent l : probed agent l -> quiet_events l.
Proof. intros (a & -> & _). by repeat constructor. Qed.
Lemma quiet_consented policy trigger l : consented policy trigger l -> quiet_events l.
Proof. unfold consented. case_match; [intros [->| ->]|intros ->]; by repeat constructor. Qed.
Lemma quiet_stopped thread_id l : stopped thread_id l -> quiet_events l.
Proof. intros [->| ->]; by repeat constructor. Qed.

Lemma quiet_checkpointed wt br commit l : checkpointed wt br commit l -> quiet_events l.
Proof. intros [committed ->]. by repeat constructor. Qed.

Lemma from_handoff db policy thread_id trigger agent_override :
  from db (handoff_with (V:=V) policy thread_id trigger agent_override) (handoff_outcome (Ok policy) thread_id trigger db).
Proof.
  unfold handoff_with. eapply from_bind; [apply from_check| |].
  { intros e db' l [-> Hl]. by apply GivenUp. }
  intros target db' l0 (-> & Hpol & Hall & _ & Hp). pose proof (quiet_probed _ _ Hp) as Hq0.
  eapply from_bind; [apply from_consent| |].
  { intros e db' l [-> Hl]. by apply GivenUp, quiet_events_app. }
  intros [] db' l1 [-> Hc]. rewrite Hpol in Hc. pose proof (quiet_consented _ _ _ Hc) as Hq1.
  eapply from_bind; [apply from_quiesce| |].
  { intros e db' l [-> Hl]. by apply GivenUp; repeat apply quiet_events_app. }
  intros [] db' l2 [-> Hs]. pose proof (quiet_stopped _ _ Hs) as Hq2.
  assert (quiet_events (l0 ++ l1 ++ l2 ++ [])%list) as Hq by (repeat apply quiet_events_app; by try constructor).
  apply from_quiet; [apply quiet_base|intros; by apply GivenUp|]. intros fresh. cbn zeta.
  apply from_quiet; [apply quiet_base|intros; by apply GivenUp|]. intros _.
  eapply from_bind; [apply from_checkpoint| |].
  { intros e db' l [-> Hl]. by apply GivenUp; repeat apply quiet_events_app. }
  intros [base_commit commit] db' l3 [-> Hck]. pose proof (quiet_checkpointed _ _ _ _ Hck) as Hq3.
  assert (quiet_events (l0 ++ l1 ++ l2 ++ l3 ++ [])%list) as Hq' by (repeat apply quiet_events_app; by try constructor).
  apply from_lift_opt; [intros; by apply GivenUp|]. intros prompt Hprompt%prompt_bounded.
  eapply from_bind; [apply from_launch| |].
  { intros e db' l [-> [->|[[-> ->]|[e' ->]]]]; [by apply GivenUp|..]; rewrite Hpol; eapply WasLaunched; try done; constructor. }
  intros ref db' l4 [-> ->]. eapply from_mono; [|apply from_record].
  intros db' l r Ha. rewrite Hpol. cbn [app]. by eapply WasLaunched.
Qed.

(** C16: A launch is asked for at most once in a handoff, and only when the policy
    read at its start enables it, the thread has no active run, fewer runs than
    the cap are active, the provider just answered that it is ready, the user
    consented if the policy wants that, no local session of the thread was seen active
    or it was cancelled and stopped, and then the worktree was committed, its branch
    pushed and its head read, each with success.  A handoff given up before that, a
    launch that panics and one the provider refuses leave the table of runs as it was;
    one the provider answers is recorded with the task it answered, as provisioning
    from the pushed commit, unless its row cannot be written, and its thread is then
    running in the cloud if it can be saved. *)
Theorem cloud_launch_guarded thread_id trigger agent_override (c : Cloud E) :
  exists l, let '(c', r) := start_thread_cloud_handoff (V:=V) thread_id trigger agent_override c in
    c'.(told) = (c.(told) ++ l)%list /\
    handoff_outcome (value get_cloud_policy c) thread_id trigger c.(runs) c'.(runs) l r.
Proof.
  unfold start_thread_cloud_handoff, value. rewrite M_bind_unfold.
  destruct (quiet_policy c.(runs) c eq_refl) as (l & Hl). destruct (get_cloud_policy c) as [c1 [policy|e]]; destruct Hl as (Ht & Hr & ->);
    rewrite app_nil_r in Ht; cbn [snd].
  - destruct (from_handoff _ policy thread_id trigger agent_override c1 Hr) as (l & Hl). exists l. by rewrite <- Ht.
  - exists []. rewrite app_nil_r, Hr. split; [done|]. apply GivenUp. constructor.
Qed.

(** *** Every sequence of operations *)

Lemma policy_cap (c : Cloud E) policy :
  value get_cloud_policy c = Ok policy -> policy.(CloudPolicy.max_concurrent_cloud_runs) <= 64.
Proof.
  unfold get_cloud_policy, value. rewrite M_bind_unfold. destruct (outside _ c) as [c' [raw|e]]; cbn; [|done]. intros [= <-]. cbn.
  pose proof (clampZ_bounds 1 64 (CloudPolicy.max_concurrent_cloud_runs (parsed default_cloud_policy raw))). lia.
Qed.

Lemma run_recorded_good db thread_id trigger agent branch commit ref db' l r policy :
  sound db -> allowed policy db thread_id agent -> policy.(CloudPolicy.max_concurrent_cloud_runs) <= 64 ->
  run_recorded db thread_id trigger agent branch commit ref db' l r -> good db db'.
Proof.
  intros Hs (_ & Hnone & Hcap & _) Hmax (run & -> & Hnew & Hth & _). apply append_good; [done|done| | |lia].
  - unfold readable_row. by rewrite try_from_to_row.
  - cbn [to_row cloud_run_codec cloud_run_row CloudRunRow.thread_id]. by rewrite Hth.
Qed.

Lemma outcome_good policy thread_id trigger db db' l r :
  sound db -> policy.(CloudPolicy.max_concurrent_cloud_runs) <= 64 ->
  handoff_outcome (Ok policy) thread_id trigger db db' l r -> good db db'.
Proof.
  intros Hs Hcap Ho.
  destruct Ho as [l e _|policy' agent b co st sv wt br cm pr db'' rest r Hp Hall _ _ _ _ _ [| | |ref db3 l' r' Hrec]]; [by apply runs_good_refl..|].
  injection Hp as <-. by eapply run_recorded_good.
Qed.

Lemma leads_start db thread_id trigger agent_override :
  sound db -> leads db (start_thread_cloud_handoff (V:=V) (E:=E) thread_id trigger agent_override) (good db).
Proof.
  intros Hs c Hc. unfold start_thread_cloud_handoff. rewrite M_bind_unfold.
  pose proof (policy_cap c) as Hcap. unfold value in Hcap. destruct (quiet_policy db c Hc) as (l & Hl).
  destruct (get_cloud_policy c) as [c1 [policy|e]]; destruct Hl as (Ht & Hr & ->); rewrite app_nil_r in Ht.
  - destruct (from_handoff db policy thread_id trigger agent_override c1 Hr) as (l & Hl). exists l.
    destruct (handoff_with _ _ _ _ c1) as [c' r]. rewrite <- Ht. destruct Hl as [Hl Ho]. split; [done|]. specialize (Hcap policy eq_refl).
    by eapply outcome_good.
  - exists []. rewrite app_nil_r, Hr. split; [done|by apply runs_good_refl].
Qed.

Lemma quiet_running : quiet (running_threads (V:=V) (E:=E)).
Proof. apply quiet_base. Qed.

Lemma leads_power_one db trigger policy availability active item :
  sound db -> leads db (power_one (V:=V) (E:=E) trigger policy availability active item) (good db).
Proof.
  intros Hs. pose proof (runs_good_refl _ Hs) as Hr. destruct item as [i thread]. unfold power_one.
  destruct (opt_or _ _) as [agent|]; [|by apply leads_any; [apply quiet_ret|]].
  destruct (cloud_decision _ _ _ _ _ _) as [target| |]; [|by apply leads_any; [apply quiet_dropped, quiet_base|]..].
  eapply leads_then; [by apply leads_caught, leads_start|done|].
  intros [run|e] db' Hg; apply leads_any; try done; [apply quiet_ret|apply quiet_dropped, quiet_base].
Qed.

Lemma leads_all {A} (f : A -> C E ()) (items : list A) db :
  (forall db a, sound db -> leads db (f a) (good db)) -> sound db -> leads db (for_each f items) (good db).
Proof.
  intros Hf. revert db. induction items as [|a items IH]; intros db Hs; cbn [for_each]; [by apply leads_any; [apply quiet_ret|by apply runs_good_refl]|].
  eapply leads_then; [by apply Hf|done|]. intros _ db' Hg. eapply leads_mono; [|apply IH, Hg]. intros db'' Hg'. by eapply runs_good_trans.
Qed.

Lemma leads_power db event : sound db -> leads db (handle_power_event (V:=V) (E:=E) event) (good db).
Proof.
  intros Hs. pose proof (runs_good_refl _ Hs) as Hr. unfold handle_power_event. apply leads_quiet; [apply quiet_policy_or|done|].
  intros policy. cbn zeta. destruct (negb _); [by apply leads_any; [apply quiet_ret|]|].
  apply leads_quiet; [apply quiet_caught, quiet_running|done|]. intros [[|thread running]|e]; [by apply leads_any; [apply quiet_ret|]| |by apply leads_any; [apply quiet_ret|]].
  apply leads_quiet; [apply quiet_caught, quiet_availability|done|]. intros availability.
  apply leads_quiet; [apply quiet_caught, quiet_list_active|done|]. intros active.
  apply leads_all; [|done]. intros. by apply leads_power_one.
Qed.

Lemma quiet_checkpoints : quiet (run_cloud_checkpoints (V:=V) (E:=E)).
Proof.
  unfold run_cloud_checkpoints. apply untold_bind; [apply quiet_policy_or|]. intros policy. destruct (_ || _); [apply quiet_ret|].
  apply untold_bind; [apply quiet_running|]. intros threads. apply untold_for_each. intros thread. unfold checkpoint_one, checkpoint_due, background_checkpoint.
  quiet.
Qed.

(** What can happen to the cloud runs, and anything else elsewhere. *)
Inductive CloudOp :=
| Handoff (thread_id : string) (trigger : CloudHandoffTrigger.t) (agent_override : option AgentKind.t)
| MonitorTick
| ReclaimRun (thread_id : string)
| Power (event : PowerEvent)
| Checkpoints
| SetPolicy (policy : CloudPolicy.t)
| Elsewhere (f : Tasks E -> Tasks E).

Definition perform (op : CloudOp) : C E () :=
  match op with
  | Handoff thread_id trigger agent_override => _ ← start_thread_cloud_handoff (V:=V) thread_id trigger agent_override; mret ()
  | MonitorTick => run_cloud_monitor_tick (V:=V)
  | ReclaimRun thread_id => reclaim_cloud_run (V:=V) thread_id
  | Power event => handle_power_event (V:=V) event
  | Checkpoints => run_cloud_checkpoints (V:=V)
  | SetPolicy policy => _ ← set_cloud_policy policy; mret ()
  | Elsewhere f => modify (fun c => mkCloud (f c.(base)) c.(runs) c.(monitor_marks) c.(checkpoint_marks) c.(told))
  end.
Definition perform_all (ops : list CloudOp) (c : Cloud E) : Cloud E := foldl (fun c op => final (perform op) c) c ops.

Lemma leads_perform db op : sound db -> leads db (perform op) (good db).
Proof.
  intros Hs. pose proof (runs_good_refl _ Hs) as Hr. destruct op; cbn [perform].
  - eapply leads_then; [by apply leads_start|done|]. intros run db' Hg. by apply leads_any; [apply quiet_ret|].
  - by apply leads_tick.
  - by apply leads_manual.
  - by apply leads_power.
  - by apply leads_any; [apply quiet_checkpoints|].
  - unfold set_cloud_policy. eapply leads_then; [|done|intros p db' Hg; by apply leads_any; [apply quiet_ret|]].
    apply leads_quiet; [apply quiet_outside|done|]. intros _. eapply leads_then; [by apply from_tell|done|].
    intros _ db' Hg. by apply leads_any; [apply quiet_ret|].
  - intros c <-. exists []. cbn. by rewrite app_nil_r.
Qed.

Lemma perform_good ops (c : Cloud E) : sound c.(runs) -> good c.(runs) (perform_all ops c).(runs).
Proof.
  revert c. induction ops as [|op ops IH]; intros c Hs; [by apply runs_good_refl|]. cbn [perform_all foldl].
  destruct (leads_perform _ op Hs c eq_refl) as (l & Hl). unfold final. destruct (perform op c) as [c' r]. destruct Hl as [_ Hg].
  eapply runs_good_trans; [exact Hg|]. apply IH, Hg.
Qed.

Lemma sound_empty : sound [].
Proof. split; [by apply NoDup_nil|by apply Forall_nil|intros th; cbn; lia|cbn; lia]. Qed.

(** C15: Under every sequence of handoffs, monitor ticks, reclaims, power events and
    checkpoints, whatever the providers, git and the rest of the program do, the
    table of cloud runs has distinct readable rows, at most one active run of a
    thread and at most 64 active runs; no run is lost or changes its thread, and
    a run once closed never changes again. *)
Theorem cloud_runs_sound (before_ after_ : list CloudOp) (start : Tasks E) :
  let c := perform_all before_ (mkCloud start [] ∅ ∅ []) in
  let c' := perform_all after_ c in
  sound c'.(runs) /\ kept c.(runs) c'.(runs).
Proof.
  cbn zeta. pose proof (perform_good before_ (mkCloud start [] ∅ ∅ []) sound_empty) as [Hs _].
  exact (perform_good after_ _ Hs).
Qed.

(** C17: Taking a run back, whatever the reason: either it fails with the table of runs
    as it was (an active run stays active, for the next poll) and nothing shown; or the
    run is closed, with the status that the reason, the detail and what git answered for
    its branch call for: failed when git could not merge it or the provider failed it,
    else expired or reclaimed.  Then its thread is looked up: if it is found, its queue is
    read and the thread shown as saved, in review when the merge failed or the run
    completed with no message waiting and queued otherwise, with the cloud leg (the
    merge and, for a completed run, the provider's results) in its progress; if the
    reclaim succeeds, that is done or the thread is gone.  A success leaves no row of the
    run active. *)
Theorem reclaim_settles run reason detail (c : Cloud E) :
  exists l, let '(c', r) := reclaim_thread_from_cloud (V:=V) run reason detail c in
    c'.(told) = (c.(told) ++ l)%list /\ reclaim_outcome run reason detail c.(runs) c'.(runs) l r /\
    (is_ok r = true -> forall row, row ∈ c'.(runs) -> row.(CloudRunRow.id) = run.(CloudRun.id) -> CloudRuns.active_row row = false).
Proof.
  destruct (from_reclaim c.(runs) run reason detail c eq_refl) as (l & Hl). exists l.
  destruct (reclaim_thread_from_cloud _ _ _ c) as [c' r]. destruct Hl as [Ht Ho]. split_and!; [done|done|]. intros Hok row Hrow Hid.
  destruct Ho as [l0 e _|ts worktree fetched merged more results shown told_run r _ conflict _ parts _ _]; [done|].
  apply elem_of_update_where in Hrow as (r0 & _ & ->). destruct (by_id _ r0) eqn:Hb.
  - cbn. unfold close_status. repeat case_match; done.
  - exfalso. apply not_true_iff_false in Hb. apply Hb. by apply eq_str_true.
Qed.

(** Only one operation at a time keeps this: the monitor acts on the run as it was
    when it listed the runs.  If the run was reclaimed meanwhile, a provider that
    still reports it running makes it active again. *)
Lemma stale_status_revives id :
  exists db : CloudDb, CloudRuns.active_row <$> db = [false] /\
    CloudRuns.active_row <$> (final (CloudRuns.set_status id CloudRunStatus.Running) db) = [true].
Proof.
  exists [CloudRunRow.mk id "t" "codex" None None None None None None "reclaimed" "manual" 0 None None (Some 1) None].
  split; [done|]. unfold CloudRuns.set_status. rewrite (proj1 (update_final id _ _)).
  unfold update_where. cbn [fmap list_fmap]. 
  match goal with |- context [by_id id ?r] => replace (by_id id r) with true by (symmetry; by apply eq_str_true) end. done.
Qed.
End Handlers.

(** ** Where the code misses what it means to do *)

Fixpoint e_acutes (n : nat) : string := match n with O => EmptyString | S n => bytes_of [195; 169] +:+ e_acutes n end.
(** The prompt is cut at a byte, and [String::truncate] panics inside a character:
    a long objective in another script stops the handoff after the local session
    was cancelled. *)
Lemma long_objective_panics thread :
  thread.(AgentThread.objective) = "e" +:+ e_acutes 5000 -> thread.(AgentThread.next_actions) = EmptyString ->
  continuation_prompt thread AgentKind.Codex = None.
Proof. intros Ho Hn. unfold continuation_prompt, continuation_text. rewrite Ho, Hn. vm_compute. done. Qed.

(** The position of a thread in the list of running ones counts as a run, even when
    the threads before it were skipped: with room for two, the third waits. *)
Lemma skipped_threads_use_room policy a agent :
  policy.(CloudPolicy.enabled) = true -> policy.(CloudPolicy.continue_on_sleep) = true ->
  policy.(CloudPolicy.max_concurrent_cloud_runs) = 2 -> a.(CloudAvailability.ready) = true ->
  cloud_decision CloudHandoffTrigger.Sleep policy agent (Some a) None (0 + Z.of_nat 2) = Pause /\
  cloud_decision CloudHandoffTrigger.Sleep policy agent (Some a) None (0 + Z.of_nat 1) = LaunchOn agent.
Proof. intros He Hs Hm Ha. unfold cloud_decision, switched_off, is_ready. by rewrite He, Hs, Hm, Ha. Qed.

(** A launch decided for a thread is one the policy allows, of a provider that is ready. *)
Lemma cloud_decision_sound trigger policy agent current other active target :
  cloud_decision trigger policy agent current other active = LaunchOn target ->
  policy.(CloudPolicy.enabled) = true /\ switched_off trigger policy = false /\
  active < policy.(CloudPolicy.max_concurrent_cloud_runs) /\
  ((target = agent /\ exists a, current = Some a /\ is_ready a = true) \/
   (policy.(CloudPolicy.allow_cross_provider) = true /\
    exists a, (current = Some a \/ other = Some a) /\ is_ready a = true /\ a.(CloudAvailability.agent) = target)).
Proof.
  unfold cloud_decision. destruct policy.(CloudPolicy.enabled); [|done]. destruct (switched_off _ _); [done|]. cbn [negb].
  destruct (_ <=? _) eqn:Hcap; [done|]. apply Z.leb_gt in Hcap.
  destruct (match current with Some a => is_ready a | None => false end) eqn:Hc.
  { intros [= <-]. destruct current as [a|]; [|done]. split_and!; [done..|]. left. eauto. }
  destruct policy.(CloudPolicy.allow_cross_provider); [|done]. set (ready := filter _ _).
  assert (forall a, a ∈ ready -> (current = Some a \/ other = Some a) /\ is_ready a = true) as Hready.
  { intros a [Ha Hin]%list_elem_of_filter. split; [|done]. apply elem_of_app in Hin as [Hin|Hin]; [left; destruct current|right; destruct other]; cbn in Hin; set_solver. }
  cbn zeta. destruct (find _ _) as [preferred|] eqn:Hf.
  - intros [= <-]. apply find_Some_elem in Hf as [_ He]. apply existsb_exists in He as (a & Ha%list_elem_of_In & Hag%bool_decide_eq_true).
    split_and!; [done..|]. right. split; [done|]. exists a. destruct (Hready a Ha). by split_and!.
  - destruct ready as [|a rest] eqn:Hr; [done|]. intros [= <-]. split_and!; [done..|]. right. split; [done|]. exists a.
    destruct (Hready a) as [? ?]; [by left|]. by split_and!.
Qed.
