(* ===== verification/Evaluator.v ===== *)
(** * The gate evaluator (crates/am-core/src/evaluator.rs)

    A plan in the mode AutoEvaluate asks an agent whether the work behind a gate
    is done.  [evaluate_work_gate] is the whole handler: it reads the policy,
    builds the context, runs the agent against a timeout, reads a verdict out of
    what the agent said, stores the evaluation (the table of
    crates/am-db/src/repos/work_graph.rs) and, on a failure, creates the follow-up
    work.  The state is the plan's ([Core]) with the evaluations, the settings and
    the history of the runs.  Class [EvaluatorHost] is the agents and the readers
    of diffs and transcripts in other components. *)
From Stdlib Require Import Ascii String SpecFloat Sorted.
From stdpp Require Import gmap strings pretty.
From S2P Require Import Prelude RustStr Json Enums Records Doubles Capacity Gating WorkGraphDb WorkGraphInv Limits ThreadText Attachments GitText TaskTexts WorkPlan PlanDriver PlanProps NodeCommands Demo JsonView ProviderText AdapterArgs.
#[local] Open Scope string_scope.
#[local] Open Scope Z_scope.

(** ** Data (am-proto/src/work_graph.rs) *)

Module EvaluationFollowUp.
Record t := mk { title : string; description : option string; priority : TaskPriority.t }.
End EvaluationFollowUp.

Module WorkGateEvaluation.
Record t := mk {
  id : string;
  plan_run_id : option string;
  node_id : string;
  evaluator_agent : option AgentKind.t;
  verdict : EvaluationVerdict.t;
  confidence : f64;
  findings : list string;
  required_follow_ups : list EvaluationFollowUp.t;
  validation_commands : list string;
  rationale : string;
  raw_output : string;
  created_at : Z
}.
Definition set_raw_output (v : string) (e : t) : t :=
  mk e.(id) e.(plan_run_id) e.(node_id) e.(evaluator_agent) e.(verdict) e.(confidence) e.(findings)
    e.(required_follow_ups) e.(validation_commands) e.(rationale) v e.(created_at).
End WorkGateEvaluation.

Module EvaluatorPolicy.
Record t := mk {
  enabled : bool;
  agent : option AgentKind.t;
  model : option string;
  reasoning : option string;
  timeout_secs : Z;
  create_follow_up_nodes : bool
}.
Definition default : t := mk true None None None 300 true.
End EvaluatorPolicy.

Module WorkNodeDiff.
Record t := mk { task : option TaskDiff.t; thread : option AgentThreadDiff }.
Definition default : t := mk None None.
End WorkNodeDiff.

(** What the evaluator is asked to answer; serde fills in what is missing. *)
Module RawVerdict.
Record t := mk {
  verdict : string;
  confidence : f64;
  findings : list string;
  required_follow_ups : list EvaluationFollowUp.t;
  validation_commands : list string;
  rationale : string
}.
End RawVerdict.

Module WorkGateEvaluationRow.
Record t := mk {
  id : string;
  plan_run_id : option string;
  node_id : string;
  evaluator_agent : option string;
  verdict : string;
  confidence : f64;
  findings_json : string;
  required_followups_json : string;
  validation_commands_json : string;
  rationale : string;
  raw_output : string;
  created_at : Z
}.
Definition set_plan_run_id (v : option string) (r : t) : t :=
  mk r.(id) v r.(node_id) r.(evaluator_agent) r.(verdict) r.(confidence) r.(findings_json)
    r.(required_followups_json) r.(validation_commands_json) r.(rationale) r.(raw_output) r.(created_at).
End WorkGateEvaluationRow.

(** ** Texts *)

(** [truncate] of evaluator.rs counts characters. *)
Definition truncate_eval (value : string) (max_chars : nat) : string :=
  if (char_count value <=? max_chars)%nat then value else take_chars (max_chars - 3) value +:+ "...".

Definition EVALUATOR_POLICY_KEY : string := "evaluator_policy".
Definition MAX_GATE_CONTEXT_CHARS : nat := Z.to_nat 36000.
Definition MAX_EVALUATOR_OUTPUT_CHARS : nat := Z.to_nat 24000.

(** [str::rfind] of an ASCII character. *)
Fixpoint rfind_char (c : ascii) (s : string) : option nat :=
  match s with
  | EmptyString => None
  | String a s =>
      match rfind_char c s with
      | Some i => Some (S i)
      | None => if Ascii.eqb a c then Some O else None
      end
  end.

Definition extract_json_object (output : string) : option string :=
  start ← find_char "{" output;
  end_ ← rfind_char "}" output;
  if (start <? end_)%nat then Some (substring start (end_ - start + 1) output) else None.

Definition nonempty_trimmed (s : string) : option string :=
  let trimmed := trim s in if is_empty trimmed then None else Some trimmed.
Definition normalize_evaluator_policy (policy : EvaluatorPolicy.t) : EvaluatorPolicy.t :=
  EvaluatorPolicy.mk policy.(EvaluatorPolicy.enabled) policy.(EvaluatorPolicy.agent)
    (policy.(EvaluatorPolicy.model) ≫= nonempty_trimmed) (policy.(EvaluatorPolicy.reasoning) ≫= nonempty_trimmed)
    (clampZ 30 1800 policy.(EvaluatorPolicy.timeout_secs)) policy.(EvaluatorPolicy.create_follow_up_nodes).

Definition dq : string := bytes_of [34].
Definition build_gate_evaluator_prompt (context : string) : string :=
  "You are Perpetual's independent gate evaluator. Inspect the bounded context, diffs, transcript snippets, blockers, and milestone requirements. Return only strict JSON with this shape: {" +:+
  dq +:+ "verdict" +:+ dq +:+ ":" +:+ dq +:+ "pass|fail|needs_human" +:+ dq +:+ "," +:+
  dq +:+ "confidence" +:+ dq +:+ ":0.0," +:+
  dq +:+ "findings" +:+ dq +:+ ":[" +:+ dq +:+ "..." +:+ dq +:+ "]," +:+
  dq +:+ "required_follow_ups" +:+ dq +:+ ":[{" +:+
  dq +:+ "title" +:+ dq +:+ ":" +:+ dq +:+ "..." +:+ dq +:+ "," +:+
  dq +:+ "description" +:+ dq +:+ ":" +:+ dq +:+ "..." +:+ dq +:+ "," +:+
  dq +:+ "priority" +:+ dq +:+ ":" +:+ dq +:+ "medium" +:+ dq +:+ "}]," +:+
  dq +:+ "validation_commands" +:+ dq +:+ ":[" +:+ dq +:+ "..." +:+ dq +:+ "]," +:+
  dq +:+ "rationale" +:+ dq +:+ ":" +:+ dq +:+ "..." +:+ dq +:+
  "}. Use pass only when the work is clearly complete and validated. Use fail with targeted follow-ups when concrete work remains. Use needs_human when evidence is insufficient." +:+
  newline +:+ newline +:+ context.

(** ** The world around the evaluator *)

Module EvaluatorRun.
(** What an agent sends: each event with the milliseconds since the wait for it
    began, and when the channel closes, if it does. *)
Record t (V : Type) := mk { arrivals : list (Z * NormalizedEvent V); closes : option Z }.
Arguments mk {V} _ _.
Arguments arrivals {V} _.
Arguments closes {V} _.
End EvaluatorRun.

Class EvaluatorHost (V : Type) := {
  system_capacity : LocalSystemCapacity;
  active_count : Core -> Z;
  (** whether the registry has an adapter *)
  registered : AgentKind.t -> bool;
  (** [installed] and [authenticated] *)
  detect : AgentKind.t -> bool * bool;
  data_dir : string;
  create_dir_all : string -> result string ();
  start_adapter : AgentKind.t -> SessionSpec.t -> result string (EvaluatorRun.t V);
  work_node_diff : string -> Core -> result CoreError WorkNodeDiff.t;
  list_session_events : string -> Core -> result CoreError (list (SessionEvent.t V));
  list_thread_events : string -> Core -> result CoreError (list (AgentThreadEvent.t V));
  (** [{:?}] on the name of a repository *)
  debug_name : option string -> string
}.

(** ** The state *)

Module EvaluatorEffect.
Inductive t :=
| PolicyUpdated (policy : EvaluatorPolicy.t)
| WorkspaceCreated (dir : string)
| AgentStarted (agent : AgentKind.t) (spec : SessionSpec.t)
| AgentCancelled (agent : AgentKind.t)
| GateEvaluated (evaluation : WorkGateEvaluation.t).
End EvaluatorEffect.

Record Gate := mkGate {
  core : Core;
  evaluations : list WorkGateEvaluationRow.t;
  settings : gmap string string;
  told : list EvaluatorEffect.t
}.
Abbreviation GateM := (M Gate CoreError).

(** The schema's [ON DELETE] actions on the table of evaluations. *)
Definition plan_exists (d : WorkDb) (id : string) : bool :=
  existsb (fun p => eq_str p.(WorkPlanRunRow.id) id) d.(plans).
Definition cascade (d : WorkDb) (rows : list WorkGateEvaluationRow.t) : list WorkGateEvaluationRow.t :=
  (fun r => match r.(WorkGateEvaluationRow.plan_run_id) with
            | Some p => if plan_exists d p then r else WorkGateEvaluationRow.set_plan_run_id None r
            | None => r
            end) <$> filter (fun r => node_exists d r.(WorkGateEvaluationRow.node_id) = true) rows.

Definition lift_core {A} (m : CoreM A) : GateM A := fun g =>
  let (c, r) := m g.(core) in (mkGate c (cascade c.(db) g.(evaluations)) g.(settings) g.(told), r).
Definition tell (e : EvaluatorEffect.t) : GateM () :=
  modify (fun g => mkGate g.(core) g.(evaluations) g.(settings) (g.(told) ++ [e])).
(** a call that only reads *)
Definition read_core {A} (f : Core -> A) : GateM A := gets (fun g => f g.(core)).

Section Handler.
Context {V : Type} `{H : EvaluatorHost V} `{Services, NodeServices}.
Context `{!TextSerde (list string)} `{!TextSerde (list EvaluationFollowUp.t)} `{!TextSerde EvaluatorPolicy.t} `{!TextSerde RawVerdict.t}.
Context `{CapSerde : !TextSerde RunCapacityPolicy.t}.
Context (iter : gset string -> list string).

(** ** The policy *)

Definition stored {A} `{TextSerde A} (text : string) : option A :=
  match from_text text with Ok a => Some a | Err _ => None end.

Definition get_evaluator_policy : GateM EvaluatorPolicy.t :=
  gets (fun g => default EvaluatorPolicy.default (g.(settings) !! EVALUATOR_POLICY_KEY ≫= stored)).

Definition set_evaluator_policy (policy : EvaluatorPolicy.t) : GateM EvaluatorPolicy.t :=
  let policy := normalize_evaluator_policy policy in
  _ ← modify (fun g => mkGate g.(core) g.(evaluations) (<[EVALUATOR_POLICY_KEY := to_text policy]> g.(settings)) g.(told));
  _ ← tell (EvaluatorEffect.PolicyUpdated policy);
  mret policy.

(** ** The table of evaluations (am-db/src/repos/work_graph.rs) *)

Definition evaluation_row (e : WorkGateEvaluation.t) : WorkGateEvaluationRow.t :=
  WorkGateEvaluationRow.mk e.(WorkGateEvaluation.id) e.(WorkGateEvaluation.plan_run_id)
    e.(WorkGateEvaluation.node_id) (AgentKind.as_str <$> e.(WorkGateEvaluation.evaluator_agent))
    (EvaluationVerdict.as_str e.(WorkGateEvaluation.verdict)) e.(WorkGateEvaluation.confidence)
    (to_text e.(WorkGateEvaluation.findings)) (to_text e.(WorkGateEvaluation.required_follow_ups))
    (to_text e.(WorkGateEvaluation.validation_commands)) e.(WorkGateEvaluation.rationale)
    e.(WorkGateEvaluation.raw_output) e.(WorkGateEvaluation.created_at).

(** [from_str(..).unwrap_or_default()]. *)
Definition stored_list {A} `{TextSerde (list A)} (text : string) : list A := default [] (stored text).

Definition evaluation_try_from (r : WorkGateEvaluationRow.t) : result DbError WorkGateEvaluation.t :=
  agent ← transpose ((fun s => ok_or (AgentKind.parse s) (InvalidEnum s)) <$> r.(WorkGateEvaluationRow.evaluator_agent));
  verdict ← ok_or (EvaluationVerdict.parse r.(WorkGateEvaluationRow.verdict)) (InvalidEnum r.(WorkGateEvaluationRow.verdict));
  mret (WorkGateEvaluation.mk r.(WorkGateEvaluationRow.id) r.(WorkGateEvaluationRow.plan_run_id)
    r.(WorkGateEvaluationRow.node_id) agent verdict r.(WorkGateEvaluationRow.confidence)
    (stored_list r.(WorkGateEvaluationRow.findings_json)) (stored_list r.(WorkGateEvaluationRow.required_followups_json))
    (stored_list r.(WorkGateEvaluationRow.validation_commands_json)) r.(WorkGateEvaluationRow.rationale)
    r.(WorkGateEvaluationRow.raw_output) r.(WorkGateEvaluationRow.created_at)).

(** [?] on a result of the database. *)
Definition of_db {A} (r : result DbError A) : GateM A :=
  lift (match r with Ok a => Ok a | Err e => Err (Records.Db e) end).

Definition get_gate_evaluation (id : string) : GateM (option WorkGateEvaluation.t) :=
  row ← gets (fun g => find (fun r => eq_str r.(WorkGateEvaluationRow.id) id) g.(evaluations));
  of_db (transpose (evaluation_try_from <$> row)).

Definition insert_gate_evaluation (e : WorkGateEvaluation.t) : GateM WorkGateEvaluation.t :=
  g ← get;
  _ ← fail_when (existsb (fun r => eq_str r.(WorkGateEvaluationRow.id) e.(WorkGateEvaluation.id)) g.(evaluations) ||
        negb (node_exists g.(core).(db) e.(WorkGateEvaluation.node_id)) ||
        negb (is_none_or e.(WorkGateEvaluation.plan_run_id) (plan_exists g.(core).(db)))) (Records.Db Sqlx);
  _ ← modify (fun g => mkGate g.(core) (g.(evaluations) ++ [evaluation_row e]) g.(settings) g.(told));
  o ← get_gate_evaluation e.(WorkGateEvaluation.id);
  lift_opt o (Records.Db DbNotFound).

Definition list_gate_evaluations (node_id : string) : GateM (list WorkGateEvaluation.t) :=
  rows ← gets (fun g => sort_by (fun a b => b.(WorkGateEvaluationRow.created_at) <=? a.(WorkGateEvaluationRow.created_at))
                 (filter (fun r => r.(WorkGateEvaluationRow.node_id) = node_id) g.(evaluations)));
  of_db (collect (evaluation_try_from <$> rows)).

Definition store_gate_evaluation (e : WorkGateEvaluation.t) : GateM WorkGateEvaluation.t :=
  saved ← insert_gate_evaluation e;
  _ ← tell (EvaluatorEffect.GateEvaluated saved);
  mret saved.

(** ** The run of the agent *)

(** What the agent said by the deadline; [None] when it was not done by then. *)
Fixpoint collect_output (timeout : Z) (arrivals : list (Z * NormalizedEvent V)) (closes : option Z) (output : string) :
  option string :=
  match arrivals with
  | [] => match closes with Some t => if t <=? timeout then Some output else None | None => None end
  | (t, event) :: arrivals =>
      if t <=? timeout then
        match event with
        | AssistantText text => collect_output timeout arrivals closes (output +:+ text +:+ newline)
        | ErrorEvent message _ =>
            collect_output timeout arrivals closes (output +:+ newline +:+ "Evaluator error: " +:+ message)
        | SessionEnded _ => Some output
        | _ => collect_output timeout arrivals closes output
        end
      else None
  end.

Definition evaluator_timeout_ms (policy : EvaluatorPolicy.t) : Z :=
  clampZ 30 1800 policy.(EvaluatorPolicy.timeout_secs) * 1000.

Definition evaluator_spec (dir prompt : string) (policy : EvaluatorPolicy.t) : SessionSpec.t :=
  SessionSpec.mk dir prompt policy.(EvaluatorPolicy.model) policy.(EvaluatorPolicy.reasoning) None
    PermissionPolicy.ReadOnly (Host RuntimeLimits.default) None false.

Definition run_evaluator_agent (agent : AgentKind.t) (policy : EvaluatorPolicy.t) (prompt : string) : GateM string :=
  g ← get;
  _ ← lift (ensure_session_capacity stored g.(settings) system_capacity (active_count g.(core)));
  _ ← fail_when (negb (registered agent)) (Other ("no adapter available for " +:+ AgentKind.label agent));
  let '(installed, authenticated) := detect agent in
  _ ← fail_when (negb installed || negb authenticated)
        (Other (AgentKind.label agent +:+ " is not installed and authenticated"));
  id ← lift_core new_id;
  let dir := GitText.join (GitText.join data_dir "evaluations") ("gate-" +:+ id) in
  _ ← match create_dir_all dir with
      | Ok _ => mret ()
      | Err e => throw (Other ("failed to create evaluator workspace: " +:+ e))
      end;
  _ ← tell (EvaluatorEffect.WorkspaceCreated dir);
  let spec := evaluator_spec dir prompt policy in
  run ← match start_adapter agent spec with Ok run => mret run | Err e => throw (Other e) end;
  _ ← tell (EvaluatorEffect.AgentStarted agent spec);
  let output := collect_output (evaluator_timeout_ms policy) run.(EvaluatorRun.arrivals) run.(EvaluatorRun.closes) EmptyString in
  _ ← tell (EvaluatorEffect.AgentCancelled agent);
  lift_opt output (Other "evaluator timed out").

(** ** The context *)

Definition relationship_lines (g : WorkGraph.t) (node_id : string) : string :=
  let title id := default id (WorkNode.title <$> find (fun n => eq_str n.(WorkNode.id) id) g.(WorkGraph.nodes)) in
  concat_str ((fun e =>
    if eq_str e.(WorkEdge.source_id) node_id || eq_str e.(WorkEdge.target_id) node_id then
      "- " +:+ title e.(WorkEdge.source_id) +:+ " " +:+ WorkEdgeKind.as_str e.(WorkEdge.kind) +:+ " " +:+
      title e.(WorkEdge.target_id) +:+ newline
    else EmptyString) <$> g.(WorkGraph.edges)).

Definition packet_lines (p : ContextPacket.t) : string :=
  newline +:+ "## Context Packet" +:+ newline +:+ p.(ContextPacket.summary) +:+ newline +:+
  concat_str ((fun i => "- [" +:+ i.(ContextInclusion.source_kind) +:+ "] " +:+ i.(ContextInclusion.title) +:+ ": " +:+
    truncate_eval i.(ContextInclusion.snippet) 700 +:+ newline) <$> take 12 p.(ContextPacket.inclusions)).

Definition diff_lines (diff : WorkNodeDiff.t) : string :=
  newline +:+ "## Diff Summary" +:+ newline +:+
  match diff.(WorkNodeDiff.task) with
  | Some task =>
      "Task repo: " +:+ debug_name task.(TaskDiff.repo_name) +:+ newline +:+ "Files: " +:+
      pretty (length task.(TaskDiff.files)) +:+ newline +:+ truncate_eval task.(TaskDiff.patch) (Z.to_nat 10000) +:+ newline
  | None => EmptyString
  end +:+
  match diff.(WorkNodeDiff.thread) with
  | Some thread =>
      concat_str ((fun repo => "Thread repo: " +:+ repo.(AgentThreadRepoDiff.repo_name) +:+ " files: " +:+
        pretty (length repo.(AgentThreadRepoDiff.files)) +:+ newline +:+
        truncate_eval repo.(AgentThreadRepoDiff.patch) (Z.to_nat 10000) +:+ newline) <$> thread.(ThreadText.repos))
  | None => EmptyString
  end.

(** [iter().rev().take(20).rev()]. *)
Definition last_twenty {A} (l : list A) : list A := drop (length l - 20) l.
Definition transcript_line (role kind : string) (text : option string) : string :=
  match text with
  | Some text => "- " +:+ role +:+ " " +:+ kind +:+ ": " +:+ truncate_eval text 900 +:+ newline
  | None => EmptyString
  end.

Definition task_transcript (c : Core) (node : WorkNode.t) : string :=
  match node.(WorkNode.task_id) with
  | Some task_id =>
      match list_session_events task_id c with
      | Ok events =>
          newline +:+ "## Recent Transcript" +:+ newline +:+
          concat_str ((fun e : SessionEvent.t V => transcript_line e.(SessionEvent.role) e.(SessionEvent.kind) e.(SessionEvent.text)) <$> last_twenty events)
      | Err _ => EmptyString
      end
  | None => EmptyString
  end.
Definition thread_transcript (c : Core) (node : WorkNode.t) : string :=
  match node.(WorkNode.thread_id) with
  | Some thread_id =>
      match list_thread_events thread_id c with
      | Ok events =>
          newline +:+ "## Recent Thread Transcript" +:+ newline +:+
          concat_str ((fun e : AgentThreadEvent.t V => transcript_line e.(AgentThreadEvent.role) e.(AgentThreadEvent.kind) e.(AgentThreadEvent.text)) <$> last_twenty events)
      | Err _ => EmptyString
      end
  | None => EmptyString
  end.

Definition build_gate_evaluation_context (node : WorkNode.t) : GateM string :=
  g ← lift_core (lift_db (graph node.(WorkNode.project_id)));
  packet ← lift_core (build_context_packet node);
  c ← read_core (fun c => c);
  let diff := match work_node_diff node.(WorkNode.id) c with Ok diff => diff | Err _ => WorkNodeDiff.default end in
  mret (truncate_eval
    ("# Work Gate Evaluation Context" +:+ newline +:+ newline +:+
     "Node: " +:+ node.(WorkNode.title) +:+ " (" +:+ WorkNodeKind.as_str node.(WorkNode.kind) +:+ ")" +:+ newline +:+
     "Status: " +:+ TaskStatus.as_str node.(WorkNode.status) +:+ newline +:+
     "Objective: " +:+ default "None recorded." node.(WorkNode.description) +:+ newline +:+ newline +:+
     "## Graph Relationships" +:+ newline +:+ relationship_lines g node.(WorkNode.id) +:+
     packet_lines packet +:+ diff_lines diff +:+ task_transcript c node +:+ thread_transcript c node)
    MAX_GATE_CONTEXT_CHARS).

(** ** The verdict *)

Definition parse_evaluator_output (id : string) (ts : Z) (plan : WorkPlanRun.t) (node : WorkNode.t)
  (evaluator_agent : option AgentKind.t) (output : string) : result string WorkGateEvaluation.t :=
  json_text ← ok_or (extract_json_object output) "missing JSON object";
  raw ← (from_text json_text : result string RawVerdict.t);
  verdict ← ok_or (EvaluationVerdict.parse raw.(RawVerdict.verdict)) ("unknown verdict '" +:+ raw.(RawVerdict.verdict) +:+ "'");
  mret (WorkGateEvaluation.mk id (Some plan.(WorkPlanRun.id)) node.(WorkNode.id) evaluator_agent verdict
    (f64_clamp f64_zero (f64_of_int 1) raw.(RawVerdict.confidence))
    ((fun s => truncate_eval s 700) <$> raw.(RawVerdict.findings))
    (take 12 (filter (fun item => is_empty (trim item.(EvaluationFollowUp.title)) = false) raw.(RawVerdict.required_follow_ups)))
    (take 12 ((fun s => truncate_eval s 300) <$> raw.(RawVerdict.validation_commands)))
    (truncate_eval raw.(RawVerdict.rationale) 2000) (truncate_eval output MAX_EVALUATOR_OUTPUT_CHARS) ts).

Definition fallback_needs_human (id : string) (ts : Z) (plan : WorkPlanRun.t) (node : WorkNode.t)
  (evaluator_agent : option AgentKind.t) (rationale : string) : WorkGateEvaluation.t :=
  WorkGateEvaluation.mk id (Some plan.(WorkPlanRun.id)) node.(WorkNode.id) evaluator_agent EvaluationVerdict.NeedsHuman
    f64_zero [rationale] [] [] rationale EmptyString ts.

(** ** Follow-ups and the handler *)

Definition follow_up_node (node : WorkNode.t) (f : EvaluationFollowUp.t) : NewWorkNode.t :=
  NewWorkNode.mk node.(WorkNode.project_id) node.(WorkNode.parent_id) (Some WorkNodeKind.Task)
    f.(EvaluationFollowUp.title) f.(EvaluationFollowUp.description) f.(EvaluationFollowUp.priority)
    node.(WorkNode.primary_agent) None None None None None None [] None None.

Definition create_evaluation_followups (ts : Z) (node : WorkNode.t) (e : WorkGateEvaluation.t) : GateM () :=
  for_each (fun f =>
    created ← lift_core (create_work_node ts (follow_up_node node f));
    edge_id ← lift_core new_id;
    _ ← attempt (lift_core (connect_work_nodes iter ts edge_id
          (NewWorkEdge.mk node.(WorkNode.project_id) created.(WorkNode.id) node.(WorkNode.id) WorkEdgeKind.Blocks
             (Some "Evaluator follow-up"))));
    mret ()) (take 8 e.(WorkGateEvaluation.required_follow_ups)).

Definition evaluation_of (id : string) (ts : Z) (plan : WorkPlanRun.t) (node : WorkNode.t) (agent : AgentKind.t) (output : string) :
  WorkGateEvaluation.t :=
  let e := match parse_evaluator_output id ts plan node (Some agent) output with
           | Ok e => e
           | Err err => fallback_needs_human id ts plan node (Some agent) ("Evaluator returned invalid JSON: " +:+ err)
           end in
  if is_empty e.(WorkGateEvaluation.raw_output)
  then WorkGateEvaluation.set_raw_output (truncate_eval output MAX_EVALUATOR_OUTPUT_CHARS) e else e.

Definition evaluate_work_gate (ts : Z) (plan : WorkPlanRun.t) (node : WorkNode.t) (fallback_agent : AgentKind.t) :
  GateM WorkGateEvaluation.t :=
  policy ← get_evaluator_policy;
  id ← lift_core new_id;
  if negb policy.(EvaluatorPolicy.enabled) then
    store_gate_evaluation (fallback_needs_human id ts plan node None "Evaluator is disabled in settings.")
  else
    let evaluator_agent := default fallback_agent policy.(EvaluatorPolicy.agent) in
    context ← build_gate_evaluation_context node;
    answer ← try_ (run_evaluator_agent evaluator_agent policy (build_gate_evaluator_prompt context));
    match answer with
    | Err err =>
        store_gate_evaluation (fallback_needs_human id ts plan node (Some evaluator_agent)
          ("Evaluator could not run: " +:+ error_text err))
    | Ok output =>
        evaluation ← store_gate_evaluation (evaluation_of id ts plan node evaluator_agent output);
        _ ← (if bool_decide (evaluation.(WorkGateEvaluation.verdict) = EvaluationVerdict.Fail) &&
                policy.(EvaluatorPolicy.create_follow_up_nodes) &&
                negb (bool_decide (evaluation.(WorkGateEvaluation.required_follow_ups) = []))
             then create_evaluation_followups ts node evaluation else mret ());
        mret evaluation
    end.
End Handler.

(** * Gate evaluations: the agent's verdict, nothing else

    A gate passes, or fails, only on a verdict the evaluator stated in time; the
    stored evaluations stay readable and tied to the graph, and the follow-up work
    a failure creates keeps the gating links acyclic. *)

(** ** What an agent said in time *)
Section Said.
Context {V : Type}.

Definition spoken (event : NormalizedEvent V) : string :=
  match event with
  | AssistantText text => text +:+ newline
  | ErrorEvent message _ => newline +:+ "Evaluator error: " +:+ message
  | _ => EmptyString
  end.
Definition is_ended (event : NormalizedEvent V) : bool := match event with SessionEnded _ => true | _ => false end.

(** The run was over by the deadline, and [output] is what was said before. *)
Definition answered (timeout : Z) (run : EvaluatorRun.t V) (output : string) : Prop :=
  exists said rest, run.(EvaluatorRun.arrivals) = (said ++ rest)%list /\
    Forall (fun a => a.1 <= timeout /\ is_ended a.2 = false) said /\
    output = concat_str ((fun a => spoken a.2) <$> said) /\
    match rest with
    | (t, e) :: _ => t <= timeout /\ is_ended e = true
    | [] => exists t, run.(EvaluatorRun.closes) = Some t /\ t <= timeout
    end.

Lemma append_assoc_str (a b c : string) : (a +:+ b) +:+ c = a +:+ b +:+ c.
Proof. induction a as [|x a IH]; [done|]. exact (f_equal (String x) IH). Qed.
Lemma append_empty (a : string) : a +:+ EmptyString = a.
Proof. induction a as [|x a IH]; [done|]. exact (f_equal (String x) IH). Qed.

Lemma collect_step timeout t (event : NormalizedEvent V) arrivals closes output :
  collect_output timeout ((t, event) :: arrivals) closes output =
  if t <=? timeout then
    if is_ended event then Some output else collect_output timeout arrivals closes (output +:+ spoken event)
  else None.
Proof. cbn. destruct (t <=? timeout); [|done]. destruct event; cbn; by rewrite ?append_empty. Qed.

Lemma collect_said timeout arrivals closes prefix output :
  collect_output timeout arrivals closes prefix = Some output ->
  exists suffix, output = prefix +:+ suffix /\ answered timeout (EvaluatorRun.mk arrivals closes) suffix.
Proof.
  revert prefix. induction arrivals as [|[t event] arrivals IH]; intros prefix.
  - cbn. destruct closes as [t|]; [|done]. destruct (Z.leb_spec t timeout); [|done]. intros [= <-].
    exists EmptyString. rewrite append_empty. split; [done|]. exists [], []. naive_solver.
  - rewrite collect_step. destruct (Z.leb_spec t timeout); [|done]. destruct (is_ended event) eqn:He.
    + intros [= <-]. exists EmptyString. rewrite append_empty. split; [done|].
      exists [], ((t, event) :: arrivals). naive_solver.
    + intros (suffix & -> & said & rest & Ha & Hf & -> & Hr)%IH. cbn in Ha. subst arrivals.
      eexists. split; [apply append_assoc_str|]. exists ((t, event) :: said), rest. split_and!; [done| |done|done].
      constructor; [done|done].
Qed.
End Said.

Section Verdict.
Context {V : Type} `{H : EvaluatorHost V} `{Sv : Services, NSv : NodeServices}.
Context `{!TextSerde (list string)} `{!TextSerde (list EvaluationFollowUp.t)} `{!TextSerde EvaluatorPolicy.t} `{!TextSerde RawVerdict.t}.
Context `{CapSerde : !TextSerde RunCapacityPolicy.t}.
Context (iter : gset string -> list string).
Implicit Types (g : Gate) (e : WorkGateEvaluation.t).

Lemma lift_inv {S E A} (r : result E A) (s s' : S) a : lift r s = (s', Ok a) -> s' = s /\ r = Ok a.
Proof. by intros [= <- ->]. Qed.

(** ** Storing *)

Lemma evaluation_fields r e : evaluation_try_from r = Ok e ->
  e.(WorkGateEvaluation.id) = r.(WorkGateEvaluationRow.id) /\
  EvaluationVerdict.parse r.(WorkGateEvaluationRow.verdict) = Some e.(WorkGateEvaluation.verdict).
Proof.
  unfold evaluation_try_from. destruct (transpose _) as [a|]; [|done]. unfold mbind, result_bind.
  destruct (EvaluationVerdict.parse r.(WorkGateEvaluationRow.verdict)) eqn:Hv; [|done]. intros [= <-]. done.
Qed.

Lemma row_readable e : is_ok (evaluation_try_from (evaluation_row e)) = true.
Proof.
  destruct e as [? ? ? agent verdict ? ? ? ? ? ? ?]. unfold evaluation_try_from, evaluation_row. cbn.
  pose proof (unwire_wire verdict) as Hv. cbn in Hv. rewrite Hv.
  destruct agent as [a|]; cbn; [|done]. pose proof (unwire_wire a) as Ha. cbn in Ha. by rewrite Ha.
Qed.

Lemma store_inv e g g' saved :
  store_gate_evaluation e g = (g', Ok saved) ->
  g' = mkGate g.(core) (g.(evaluations) ++ [evaluation_row e]) g.(settings) (g.(told) ++ [EvaluatorEffect.GateEvaluated saved]) /\
  evaluation_try_from (evaluation_row e) = Ok saved.
Proof.
  unfold store_gate_evaluation, insert_gate_evaluation. intros (g1 & s & Hi & Ht)%bind_inv.
  cbn in Ht. injection Ht as <- ->. revert Hi. rewrite M_bind_unfold. cbn [get]. rewrite M_bind_unfold.
  destruct (_ || _ || _) eqn:Hc; cbn [fail_when throw]; [done|]. cbn [mret M_ret]. rewrite !orb_false_iff in Hc. destruct Hc as [[Hid _] _].
  rewrite M_bind_unfold. cbn [modify]. unfold get_gate_evaluation. rewrite !M_bind_unfold. cbn [gets evaluations].
  rewrite find_snoc by (done || by apply eq_str_true).
  cbn [fmap option_fmap option_map transpose]. destruct (evaluation_try_from (evaluation_row e)) as [x|]; cbn; [|done].
  by intros [= <- <-].
Qed.

(** ** The run *)

Lemma lift_core_told {A} (m : CoreM A) g g' r : lift_core m g = (g', r) -> g'.(told) = g.(told) /\ g'.(settings) = g.(settings).
Proof. unfold lift_core. destruct (m (core g)) as [c r']. by intros [= <- <-]. Qed.

(** What it takes for an agent to answer. *)
Definition agent_answered (agent : AgentKind.t) (policy : EvaluatorPolicy.t) (output : string) (effects : list EvaluatorEffect.t) : Prop :=
  registered agent = true /\ detect agent = (true, true) /\
  exists dir prompt run,
    start_adapter agent (evaluator_spec dir prompt policy) = Ok run /\ answered (evaluator_timeout_ms policy) run output /\
    effects = [EvaluatorEffect.WorkspaceCreated dir; EvaluatorEffect.AgentStarted agent (evaluator_spec dir prompt policy);
               EvaluatorEffect.AgentCancelled agent].

Lemma run_answered agent policy prompt g g' output :
  run_evaluator_agent agent policy prompt g = (g', Ok output) ->
  exists effects, g'.(told) = (g.(told) ++ effects)%list /\ agent_answered agent policy output effects.
Proof.
  unfold run_evaluator_agent. intros (? & ? & [= <- <-] & (? & ? & [-> _]%lift_inv & (? & ? & [-> Hr]%fail_when_inv & Hm)%bind_inv)%bind_inv)%bind_inv.
  apply negb_false_iff in Hr. revert Hm. destruct (detect agent) as [installed authenticated] eqn:Hd.
  intros (? & ? & [-> Ha]%fail_when_inv & (g1 & id & [Ht _]%lift_core_told & (g2 & ? & Hc & Hm)%bind_inv)%bind_inv)%bind_inv.
  rewrite orb_false_iff, !negb_false_iff in Ha. destruct Ha as [-> ->].
  assert (g2 = g1) as ->. { destruct (create_dir_all _); [by injection Hc|done]. }
  revert Hm. intros (g3 & ? & [= <- <-] & (g4 & run & Hs & Hm)%bind_inv)%bind_inv.
  destruct (start_adapter _ _) as [run'|] eqn:Hs'; [|done]. injection Hs as <- ->.
  revert Hm. intros (g5 & ? & [= <- <-] & (g6 & ? & [= <- <-] & Ho)%bind_inv)%bind_inv.
  unfold lift_opt, lift in Ho. destruct (collect_output _ _ _ _) as [out|] eqn:Hout; [|done]. injection Ho as <- <-.
  apply collect_said in Hout. destruct Hout as (suffix & -> & Hans). cbn [told]. rewrite Ht, <- !app_assoc.
  eexists. split; [reflexivity|]. split; [done|]. split; [done|]. do 3 eexists. split; [exact Hs'|]. split; [|done].
  by destruct run.
Qed.

(** ** The verdict *)

(** The JSON in what was said names the verdict. *)
Definition states (output : string) (verdict : EvaluationVerdict.t) : Prop :=
  exists text raw, extract_json_object output = Some text /\ from_text text = Ok raw /\
    raw.(RawVerdict.verdict) = EvaluationVerdict.as_str verdict.

Lemma raw_output_verdict v e : (WorkGateEvaluation.set_raw_output v e).(WorkGateEvaluation.verdict) = e.(WorkGateEvaluation.verdict).
Proof. done. Qed.

Lemma verdict_stated id ts plan node agent output :
  let e := evaluation_of id ts plan node agent output in
  e.(WorkGateEvaluation.verdict) <> EvaluationVerdict.NeedsHuman -> states output e.(WorkGateEvaluation.verdict).
Proof.
  unfold evaluation_of. destruct (parse_evaluator_output _ _ _ _ _ _) as [e|err] eqn:Hp; cbn zeta.
  2: { by destruct (is_empty _). }
  intros _. assert (forall v, states output (WorkGateEvaluation.verdict e) ->
    states output (WorkGateEvaluation.verdict (if is_empty e.(WorkGateEvaluation.raw_output) then WorkGateEvaluation.set_raw_output v e else e)))
    as Hgoal by (intros v; by destruct (is_empty _)).
  apply Hgoal. clear Hgoal. revert Hp. unfold parse_evaluator_output. destruct (extract_json_object output) as [text|] eqn:Hx; cbn -[EvaluationVerdict.parse]; [|done].
  destruct (from_text text) as [raw|] eqn:Hr; cbn -[EvaluationVerdict.parse]; [|done].
  destruct (EvaluationVerdict.parse (RawVerdict.verdict raw)) as [v|] eqn:Hv; cbn; [|done]. intros [= <-]. cbn.
  exists text, raw. split_and!; [done..|]. symmetry. exact (wire_unwire (T:=EvaluationVerdict.t) _ _ Hv).
Qed.

Lemma stored_verdict e saved :
  evaluation_try_from (evaluation_row e) = Ok saved -> saved.(WorkGateEvaluation.verdict) = e.(WorkGateEvaluation.verdict).
Proof.
  intros [_ Hv]%evaluation_fields. cbn in Hv. pose proof (unwire_wire (WorkGateEvaluation.verdict e)) as Hu. cbn in Hu.
  congruence.
Qed.

Lemma keeps_followups (P : Gate -> Prop) ts node e :
  (forall input, keeps P (lift_core (create_work_node ts input))) -> keeps P (lift_core new_id) ->
  (forall id input, keeps P (lift_core (connect_work_nodes iter ts id input))) ->
  keeps P (create_evaluation_followups iter ts node e).
Proof.
  intros Hc Hi He. apply keeps_for_each. intros f. apply keeps_bind; [apply Hc|]. intros created.
  apply keeps_bind; [done|]. intros id. apply keeps_bind; [apply keeps_attempt, He|]. intros ?. apply keeps_ret.
Qed.

Lemma followups_told ts node e g g' r : create_evaluation_followups iter ts node e g = (g', r) -> g'.(told) = g.(told).
Proof.
  assert (forall A (m : CoreM A), keeps (fun g' => g'.(told) = g.(told)) (lift_core m)) as Hl.
  { intros A m g1 <-. unfold final. destruct (lift_core m g1) eqn:Hm. by apply lift_core_told in Hm as [? _]. }
  pose proof (keeps_followups (fun g' => g'.(told) = g.(told)) ts node e ltac:(auto) (Hl _ _) ltac:(auto) g eq_refl) as Hk.
  unfold final in Hk. intros Hr. by rewrite Hr in Hk.
Qed.

(** C2: a decision is the agent's own: an evaluation that passes or fails a gate is
    returned only when the evaluator is enabled and its agent, installed and
    authenticated, was over by the deadline of the policy having stated that very
    verdict; without that the verdict is "needs_human".  The agent was started
    read-only in a directory of its own, and was told to stop before the evaluation
    was stored. *)
Theorem decision_is_the_agents ts plan node fallback g g' e :
  evaluate_work_gate iter ts plan node fallback g = (g', Ok e) ->
  e.(WorkGateEvaluation.verdict) <> EvaluationVerdict.NeedsHuman ->
  let policy := default EvaluatorPolicy.default (g.(settings) !! EVALUATOR_POLICY_KEY ≫= stored) in
  policy.(EvaluatorPolicy.enabled) = true /\
  exists output effects,
    agent_answered (default fallback policy.(EvaluatorPolicy.agent)) policy output effects /\
    states output e.(WorkGateEvaluation.verdict) /\
    g'.(told) = (g.(told) ++ effects ++ [EvaluatorEffect.GateEvaluated e])%list.
Proof.
  unfold evaluate_work_gate. intros Hm Hv. cbv zeta.
  apply bind_inv in Hm as (? & policy & [= <- <-] & (g1 & id & [Ht _]%lift_core_told & Hm)%bind_inv).
  destruct (EvaluatorPolicy.enabled _) eqn:He; cbn [negb] in Hm.
  2: { apply store_inv in Hm as [_ Hs]. apply stored_verdict in Hs. by rewrite Hs in Hv. }
  split; [done|]. apply bind_inv in Hm as (g2 & context & Hc & (g3 & answer & Ha & Hm)%bind_inv).
  assert (g2.(told) = g1.(told)) as Hc2.
  { revert Hc. unfold build_gate_evaluation_context.
    intros (? & ? & [H1 _]%lift_core_told & (? & ? & [H2 _]%lift_core_told & (? & ? & [= <- <-] & [= <- _])%bind_inv)%bind_inv)%bind_inv.
    congruence. }
  unfold try_ in Ha. destruct (run_evaluator_agent _ _ _ g2) as [g3' answer'] eqn:Hr. injection Ha as -> ->.
  destruct answer as [output|err].
  2: { apply store_inv in Hm as [_ Hs]. apply stored_verdict in Hs. by rewrite Hs in Hv. }
  apply run_answered in Hr as (effects & Ht3 & Hans). apply bind_inv in Hm as (g4 & e' & [-> Hs]%store_inv & Hm).
  apply bind_inv in Hm as (g5 & u & Hf & [= <- <-]).
  exists output, effects. split; [done|]. apply stored_verdict in Hs. rewrite Hs in Hv |- *.
  split; [by apply verdict_stated|].
  assert (g5.(told) = (g3.(told) ++ [EvaluatorEffect.GateEvaluated e'])%list) as ->; [|by rewrite Ht3, Hc2, Ht, app_assoc].
  destruct (_ && _ && _); [by apply followups_told in Hf|by injection Hf as <- _].
Qed.

(** ** The invariant of the table *)

Record gate_ok (g : Gate) : Prop := {
  ok_graph : graph_ok g.(core);
  ok_ids : NoDup (WorkGateEvaluationRow.id <$> g.(evaluations));
  ok_rows : forall r, r ∈ g.(evaluations) ->
    is_ok (evaluation_try_from r) = true /\ node_exists g.(core).(db) r.(WorkGateEvaluationRow.node_id) = true /\
    is_none_or r.(WorkGateEvaluationRow.plan_run_id) (plan_exists g.(core).(db)) = true
}.

Lemma try_from_plan v r : is_ok (evaluation_try_from (WorkGateEvaluationRow.set_plan_run_id v r)) = is_ok (evaluation_try_from r).
Proof. unfold evaluation_try_from. cbn. destruct (transpose _); [|done]. cbn. by destruct (ok_or _ _). Qed.

(** Deletions in the graph take the evaluations with them. *)
Lemma keeps_lift_core {A} (m : CoreM A) : keeps graph_ok m -> keeps gate_ok (lift_core m).
Proof.
  intros Hm g [Hg Hids Hrows]. specialize (Hm _ Hg). unfold final, lift_core in *. destruct (m (core g)) as [c r]. cbn in *.
  split; cbn; [done| |].
  - unfold cascade. rewrite <- list_fmap_compose.
    erewrite (list_fmap_ext _ WorkGateEvaluationRow.id) by (intros i x _; cbn; destruct x as [? [p|] ?]; cbn; [by destruct (plan_exists _ _)|done]).
    by apply NoDup_filter_column.
  - intros r' (x & -> & [Hn Hx]%list_elem_of_filter)%list_elem_of_fmap. destruct (Hrows x Hx) as (Hok & _ & _).
    destruct (WorkGateEvaluationRow.plan_run_id x) as [p|] eqn:Hp; [|by rewrite Hp].
    destruct (plan_exists _ p) eqn:Hpe; [by rewrite Hp|]. by rewrite try_from_plan.
Qed.

Lemma keeps_store e : keeps gate_ok (store_gate_evaluation e).
Proof.
  apply keeps_bind; [|intros saved; apply keeps_bind; [|intros _; apply keeps_ret]; apply keeps_modify; intros g [? ? ?]; by split].
  intros g [Hg Hids Hrows]. unfold insert_gate_evaluation, final. rewrite M_bind_unfold. cbn [get]. rewrite M_bind_unfold.
  destruct (_ || _ || _) eqn:Hc; cbn [fail_when throw mret M_ret]; [by split|]. rewrite !orb_false_iff, !negb_false_iff in Hc. destruct Hc as [[Hid Hn] Hp].
  rewrite M_bind_unfold. cbn [modify].
  match goal with |- gate_ok (?m ?s).1 => change (gate_ok (final m s)) end.
  apply (keeps_bind gate_ok); [apply keeps_bind; [apply keeps_gets|intros ?; apply keeps_lift]|intros ?; apply keeps_lift|].
  split; cbn; [done| |].
  - rewrite fmap_app. apply NoDup_snoc; [done|]. cbn. intros (r & Hr & Hin)%list_elem_of_fmap.
    rewrite existsb_false in Hid. specialize (Hid r Hin). rewrite Hr in Hid. by rewrite (proj2 (eq_str_true _ _) eq_refl) in Hid.
  - intros r [Hr| ->%list_elem_of_singleton]%elem_of_app; [by apply Hrows|]. split; [apply row_readable|]. done.
Qed.

Lemma read_created r e : evaluation_try_from r = Ok e -> e.(WorkGateEvaluation.created_at) = r.(WorkGateEvaluationRow.created_at).
Proof.
  unfold evaluation_try_from. destruct (transpose _) as [a|]; [|done]. unfold mbind, result_bind.
  destruct (EvaluationVerdict.parse r.(WorkGateEvaluationRow.verdict)); [|done]. by intros [= <-].
Qed.

Lemma list_newest_first g node_id : gate_ok g ->
  exists l, list_gate_evaluations node_id g = (g, Ok l) /\
    StronglySorted (fun a b => b.(WorkGateEvaluation.created_at) <= a.(WorkGateEvaluation.created_at)) l.
Proof.
  intros [_ _ Hrows]. unfold list_gate_evaluations. rewrite M_bind_unfold. cbn [gets].
  set (newer := fun a b => WorkGateEvaluationRow.created_at b <=? WorkGateEvaluationRow.created_at a).
  assert (StronglySorted (le_of newer) (sort_by newer (filter (fun r => WorkGateEvaluationRow.node_id r = node_id) (evaluations g)))) as Hs.
  { assert (Total (le_of newer)) by (intros a b; unfold le_of, newer; lia).
    assert (Transitive (le_of newer)) by (intros a b c; unfold le_of, newer; lia). exact (sort_by_sorted newer _). }
  assert (forall r, r ∈ sort_by newer (filter (fun r => WorkGateEvaluationRow.node_id r = node_id) (evaluations g)) ->
            is_ok (evaluation_try_from r) = true) as Hok.
  { intros r. rewrite sort_by_perm. intros [_ Hr]%list_elem_of_filter. by apply Hrows. }
  revert Hs Hok. generalize (sort_by newer (filter (fun r => WorkGateEvaluationRow.node_id r = node_id) (evaluations g))). intros rows Hs Hok.
  assert (exists l, collect (evaluation_try_from <$> rows) = Ok l) as [l Hl].
  { pose proof (collect_ok evaluation_try_from rows Hok) as Hc. destruct (collect _) as [l|]; [by exists l|done]. }
  rewrite Hl. exists l. split; [done|]. apply collect_inv, Forall2_fmap_l in Hl. clear Hok.
  induction Hl as [|r e rows l Hr Hl IH]; [constructor|]. inversion Hs as [|? ? Hss Hall]; subst. constructor; [by apply IH|].
  clear IH Hs Hss. induction Hl as [|r' e' rows l Hr' Hl IH]; [constructor|]. inversion Hall; subst. constructor; [|by apply IH].
  apply read_created in Hr, Hr'. unfold le_of, newer in *. lia.
Qed.

Context {Svok : ServicesOk Sv} {NSvok : NodeServicesOk NSv} (Hiter : enumerates iter).

Lemma keeps_evaluation ts plan node fallback : keeps gate_ok (evaluate_work_gate iter ts plan node fallback).
Proof.
  assert (forall x, keeps gate_ok (tell x)) as Htell by (intros x; apply keeps_modify; intros g [? ? ?]; by split).
  assert (keeps gate_ok (lift_core new_id)) as Hid by (apply keeps_lift_core, new_id_ok).
  apply keeps_bind; [apply keeps_gets|]. intros policy. apply keeps_bind; [done|]. intros id.
  destruct (negb _); [apply keeps_store|]. apply keeps_bind.
  { apply keeps_bind; [apply keeps_lift_core, read_graph_ok; intros P; apply keeps_graph|]. intros gr.
    apply keeps_bind; [apply keeps_lift_core, build_context_packet_ok|]. intros packet.
    apply keeps_bind; [apply keeps_gets|]. intros c. apply keeps_ret. }
  intros context. apply keeps_bind.
  { apply keeps_try. unfold run_evaluator_agent.
    repeat first [apply keeps_bind; [|intros ?] | apply keeps_get | apply keeps_lift | apply keeps_fail_when | apply Htell | apply Hid
                 | apply keeps_ret | apply keeps_throw | match goal with |- keeps _ (match ?x with _ => _ end) => destruct x end]. }
  intros [output|err]; [|apply keeps_store]. apply keeps_bind; [apply keeps_store|]. intros e.
  apply keeps_bind; [|intros ?; apply keeps_ret]. destruct (_ && _ && _); [|apply keeps_ret].
  apply keeps_followups; [intros input; apply keeps_lift_core; by apply create_work_node_ok|done|].
  intros eid input. apply keeps_lift_core. by apply connect_graph_ok.
Qed.

(** ** What an evaluation leaves *)

Lemma store_read_back e g g' saved :
  store_gate_evaluation e g = (g', Ok saved) -> get_gate_evaluation saved.(WorkGateEvaluation.id) g' = (g', Ok (Some saved)).
Proof.
  intros Hst. pose proof Hst as [-> Hr]%store_inv. unfold get_gate_evaluation. rewrite M_bind_unfold. cbn [gets evaluations].
  assert (existsb (fun r => eq_str r.(WorkGateEvaluationRow.id) e.(WorkGateEvaluation.id)) g.(evaluations) = false) as Hid.
  { revert Hst. unfold store_gate_evaluation, insert_gate_evaluation. intros (g1 & s & Hi & _)%bind_inv. revert Hi.
    rewrite M_bind_unfold. cbn [get]. rewrite M_bind_unfold. by destruct (existsb _ _). }
  pose proof (evaluation_fields _ _ Hr) as [-> _]. cbn [evaluation_row WorkGateEvaluationRow.id].
  rewrite find_snoc by (done || by apply eq_str_true). cbn [fmap option_fmap option_map transpose]. by rewrite Hr.
Qed.

(** The row of a link the graph accepted. *)
Definition linked (source target : string) (kind : WorkEdgeKind.t) (c : Core) : Prop :=
  exists row, row ∈ c.(db).(edges) /\ edge_key row = (source, target, WorkEdgeKind.as_str kind).

Lemma create_edge_linked ts id input d d' edge :
  create_edge ts id input d = (d', Ok edge) ->
  exists row, row ∈ d'.(edges) /\
    edge_key row = (input.(NewWorkEdge.source_id), input.(NewWorkEdge.target_id), WorkEdgeKind.as_str input.(NewWorkEdge.kind)).
Proof.
  unfold create_edge. intros (? & db & [= <- <-] & (d1 & u & _ & (d2 & o & Hf & Ho)%bind_inv)%bind_inv)%bind_inv.
  unfold fetch_optional in Hf. apply bind_inv in Hf as (? & row & [= <- <-] & [-> Hf]%lift_inv).
  destruct o as [x|]; cbn in Ho; [|done]. injection Ho as <- _. destruct (find _ _) as [row|] eqn:Hrow; [|done].
  apply find_Some_elem in Hrow as [Hin Hp]. exists row. split; [exact Hin|].
  unfold same_edge in Hp. rewrite !andb_true_iff, !eq_str_true in Hp. unfold edge_key. by destruct Hp as [[-> ->] ->].
Qed.

Lemma connect_linked ts id input c c' edge :
  connect_work_nodes iter ts id input c = (c', Ok edge) ->
  linked input.(NewWorkEdge.source_id) input.(NewWorkEdge.target_id) input.(NewWorkEdge.kind) c'.
Proof.
  unfold connect_work_nodes. intros (c1 & source & _ & (c2 & target & _ & (c3 & ? & _ & (c4 & ? & _ & (c5 & ? & _ & Hm)%bind_inv)%bind_inv)%bind_inv)%bind_inv)%bind_inv.
  apply bind_inv in Hm as (c6 & e & He & (c7 & ? & [= <- _] & (c8 & ? & [= <- _] & (c9 & ? & Hs & [= <- _])%bind_inv)%bind_inv)%bind_inv).
  unfold lift_db in He. destruct (create_edge _ _ _ _) as [d [e'|err]] eqn:Hc; [|done]. injection He as <- _.
  apply create_edge_linked in Hc. destruct (_ && _); injection Hs as <- _; exact Hc.
Qed.

(** The follow-ups are made one by one: each is created as a task beside the gate's
    node, and then a link by which it blocks that node is asked for; a link the graph
    takes is stored. *)
Fixpoint followed (ts : Z) (node : WorkNode.t) (follow_ups : list EvaluationFollowUp.t) (g g' : Gate) : Prop :=
  match follow_ups with
  | [] => g' = g
  | f :: follow_ups =>
      exists created g1 edge_id g2 g3 answer,
        lift_core (create_work_node ts (follow_up_node node f)) g = (g1, Ok created) /\
        lift_core new_id g1 = (g2, Ok edge_id) /\
        lift_core (connect_work_nodes iter ts edge_id
          (NewWorkEdge.mk node.(WorkNode.project_id) created.(WorkNode.id) node.(WorkNode.id) WorkEdgeKind.Blocks
             (Some "Evaluator follow-up"))) g2 = (g3, answer) /\
        (is_ok answer = true -> linked created.(WorkNode.id) node.(WorkNode.id) WorkEdgeKind.Blocks g3.(core)) /\
        followed ts node follow_ups g3 g'
  end.

Lemma followups_followed ts node e g g' :
  create_evaluation_followups iter ts node e g = (g', Ok ()) ->
  followed ts node (take 8 e.(WorkGateEvaluation.required_follow_ups)) g g'.
Proof.
  unfold create_evaluation_followups. generalize (take 8 (WorkGateEvaluation.required_follow_ups e)). clear e.
  intros fs. revert g. induction fs as [|f fs IH]; intros g; [by intros [= <-]|].
  cbn [for_each followed]. intros (g3 & [] & (g1 & created & Hc & (g2 & eid & Hi & (g3' & o & Ha & [= <-])%bind_inv)%bind_inv)%bind_inv & Hr)%bind_inv.
  unfold attempt in Ha. destruct (lift_core (connect_work_nodes _ _ _ _) g2) as [g4 answer] eqn:Hl.
  exists created, g1, eid, g2, g4, answer. assert (g4 = g3') as -> by (destruct answer; congruence).
  split_and!; [done..| |by apply IH]. destruct answer as [edge|]; [|done]. intros _. revert Hl. unfold lift_core.
  destruct (connect_work_nodes _ _ _ _ _) as [c r] eqn:Hk. intros [= <- ->]. by apply connect_linked in Hk.
Qed.

(** What was asked for after the verdict [e]. *)
Definition wanted (policy : EvaluatorPolicy.t) (e : WorkGateEvaluation.t) : list EvaluationFollowUp.t :=
  if bool_decide (e.(WorkGateEvaluation.verdict) = EvaluationVerdict.Fail) && policy.(EvaluatorPolicy.create_follow_up_nodes)
  then take 8 e.(WorkGateEvaluation.required_follow_ups) else [].

Lemma evaluation_leaves ts plan node fallback g g' e :
  evaluate_work_gate iter ts plan node fallback g = (g', Ok e) ->
  exists g1, get_gate_evaluation e.(WorkGateEvaluation.id) g1 = (g1, Ok (Some e)) /\
    followed ts node (wanted (default EvaluatorPolicy.default (g.(settings) !! EVALUATOR_POLICY_KEY ≫= stored)) e) g1 g'.
Proof.
  unfold evaluate_work_gate.
  assert (forall agent text id g0, store_gate_evaluation (fallback_needs_human id ts plan node agent text) g0 = (g', Ok e) ->
    exists g1, get_gate_evaluation e.(WorkGateEvaluation.id) g1 = (g1, Ok (Some e)) /\
      followed ts node (wanted (default EvaluatorPolicy.default (g.(settings) !! EVALUATOR_POLICY_KEY ≫= stored)) e) g1 g') as Hfb.
  { intros agent text id g0 Hst. exists g'. split; [by eapply store_read_back|]. apply store_inv in Hst as [_ Hv].
    apply stored_verdict in Hv. unfold wanted. by rewrite Hv. }
  intros (? & policy & [= <- <-] & (g1 & id & _ & Hm)%bind_inv)%bind_inv.
  destruct (negb _) in Hm; [by eapply Hfb|]. apply bind_inv in Hm as (g2 & context & _ & (g3 & answer & _ & Hm)%bind_inv).
  destruct answer as [output|err]; [|by eapply Hfb]. apply bind_inv in Hm as (g4 & e' & Hst & (g5 & [] & Hf & [= <- <-])%bind_inv).
  exists g4. split; [by eapply store_read_back|]. unfold wanted. revert Hf.
  destruct (bool_decide (_ = EvaluationVerdict.Fail) && _); cbn [andb]; [|by intros [= <-]].
  destruct (bool_decide (_ = [])) eqn:Hn; cbn [negb]; [|by apply followups_followed].
  intros [= <-]. apply bool_decide_eq_true in Hn. by rewrite Hn.
Qed.

(** C3: evaluations are recorded, followed up, and leave the database sound, as long
    as the components called on the way (tasks, threads and the others behind
    [Services] and [NodeServices]) keep the graph sound themselves.  After any number
    of evaluations, whatever the agents answer, the gating links of every project are
    acyclic, each evaluation has a key of its own, is of a node that exists and names
    no plan that does not, and the evaluations of any node read back, newest first.
    One more evaluation that returns has its verdict stored, read back as it is
    returned; and when it failed the gate and the policy wants follow-ups, each of the
    first eight it requires is created, in order, as a task beside the gate's node, and
    a link by which it blocks that node is asked for, and stored unless the graph
    refuses it; with any other verdict nothing is created. *)
Theorem evaluations_stay_sound g asked :
  gate_ok g ->
  let g' := foldl (fun g '(ts, plan, node, fallback) => final (evaluate_work_gate iter ts plan node fallback) g) g asked in
  gate_ok g' /\
  (forall node_id, exists l, list_gate_evaluations node_id g' = (g', Ok l) /\
     StronglySorted (fun a b => b.(WorkGateEvaluation.created_at) <= a.(WorkGateEvaluation.created_at)) l) /\
  forall ts plan node fallback g'' e, evaluate_work_gate iter ts plan node fallback g' = (g'', Ok e) ->
    gate_ok g'' /\
    exists g1, get_gate_evaluation e.(WorkGateEvaluation.id) g1 = (g1, Ok (Some e)) /\
      followed ts node (wanted (default EvaluatorPolicy.default (g'.(settings) !! EVALUATOR_POLICY_KEY ≫= stored)) e) g1 g''.
Proof.
  intros Hg. cbv zeta. assert (gate_ok (foldl (fun g '(ts, plan, node, fallback) => final (evaluate_work_gate iter ts plan node fallback) g) g asked)) as Hg'.
  { revert g Hg. induction asked as [|[[[ts plan] node] fallback] asked IH]; intros g Hg; [done|]. by apply IH, keeps_evaluation. }
  revert Hg'. generalize (foldl (fun g '(ts, plan, node, fallback) => final (evaluate_work_gate iter ts plan node fallback) g) g asked).
  clear g Hg asked. intros g Hg. split_and!; [done|intros node_id; by apply list_newest_first|].
  intros ts plan node fallback g'' e He. split; [|by apply (evaluation_leaves _ plan _ fallback)].
  pose proof (keeps_evaluation ts plan node fallback g Hg) as Hk. unfold final in Hk. by rewrite He in Hk.
Qed.
End Verdict.

(** ** An evaluator that passes the gate *)

Definition demo_raw : RawVerdict.t := RawVerdict.mk "pass" f64_100 [] [] [] "complete".
#[local] Instance demo_texts : TextSerde (list string) := {| to_text := fun _ => "[]"; from_text := fun _ => Ok [] |}.
#[local] Instance demo_follow_up_texts : TextSerde (list EvaluationFollowUp.t) := {| to_text := fun _ => "[]"; from_text := fun _ => Ok [] |}.
#[local] Instance demo_policy_text : TextSerde EvaluatorPolicy.t := {| to_text := fun _ => "{}"; from_text := fun _ => Err "none" |}.
#[local] Instance demo_raw_text : TextSerde RawVerdict.t :=
  {| to_text := fun _ => "{pass}"; from_text := fun s => if String.eqb s "{pass}" then Ok demo_raw else Err "expected value" |}.
#[local] Instance demo_capacity_text : TextSerde RunCapacityPolicy.t := {| to_text := fun _ => "{}"; from_text := fun _ => Err "none" |}.
#[local] Instance demo_evaluator : EvaluatorHost Tree.t := {|
  system_capacity := mkSystem 8 16000 8000;
  active_count := fun _ => 0;
  registered := fun _ => true;
  detect := fun _ => (true, true);
  data_dir := "/data";
  create_dir_all := fun _ => Ok ();
  start_adapter := fun _ _ => Ok (EvaluatorRun.mk [(1000, AssistantText "Verdict: {pass}"); (2000, SessionEnded Completed)] None);
  work_node_diff := fun _ _ => Err NotFound;
  list_session_events := fun _ _ => Ok [];
  list_thread_events := fun _ _ => Ok [];
  debug_name := fun _ => "None"
|}.

Definition demo_gate : Gate := mkGate (mkCore done_db []) [] ∅ [].
Definition demo_plan_run : WorkPlanRun.t :=
  WorkPlanRun.mk "plan" "p" GateMode.AutoEvaluate WorkPlanRunState.Running 2 PlanFailureMode.Halt 0 false None None None None
    None None 2 0 0 0 None 3 None 3.
Definition demo_gate_node : WorkNode.t :=
  WorkNode.mk "a" "p" None None None WorkNodeKind.Milestone "A" None TaskStatus.Review TaskPriority.Medium None
    (S754_zero false) (S754_zero false) None None false 0 0 0.
Definition demo_evaluated : Gate * result CoreError WorkGateEvaluation.t :=
  evaluate_work_gate elements 9 demo_plan_run demo_gate_node AgentKind.Codex demo_gate.

Lemma decision_is_the_agents_witness :
  exists e output effects, demo_evaluated.2 = Ok e /\ e.(WorkGateEvaluation.verdict) = EvaluationVerdict.Pass /\
    agent_answered AgentKind.Codex EvaluatorPolicy.default output effects /\ states output e.(WorkGateEvaluation.verdict).
Proof.
  eexists. edestruct (decision_is_the_agents elements 9 demo_plan_run demo_gate_node AgentKind.Codex demo_gate)
    as (_ & output & effects & Hans & Hst & _); [vm_compute; reflexivity|done|].
  exists output, effects. split; [vm_compute; reflexivity|]. split; [reflexivity|]. split; [exact Hans|exact Hst].
Defined.

Lemma demo_gate_ok : gate_ok demo_gate.
Proof. split; [apply done_ok|constructor|by intros r ?%elem_of_nil]. Qed.

Lemma evaluations_stay_sound_witness :
  (WorkGateEvaluationRow.id <$> demo_evaluated.1.(evaluations)) = ["id"] /\ gate_ok demo_evaluated.1 /\
  exists e g1, demo_evaluated.2 = Ok e /\ get_gate_evaluation "id" g1 = (g1, Ok (Some e)) /\
    followed elements 9 demo_gate_node [] g1 demo_evaluated.1.
Proof.
  destruct (evaluations_stay_sound elements elements_enum demo_gate [] demo_gate_ok) as (_ & _ & Hnext).
  destruct demo_evaluated as [g'' [e|]] eqn:He; [|by vm_compute in He].
  destruct (Hnext 9 demo_plan_run demo_gate_node AgentKind.Codex g'' e He) as (Hok & g1 & Hread & Hf).
  vm_compute in He. injection He as <- <-. split; [vm_compute; reflexivity|]. split; [exact Hok|].
  eexists _, g1. split; [reflexivity|]. split; [exact Hread|exact Hf].
Defined.
