(* ===== verification/ContextIndex.v ===== *)
(** * The index of source files (crates/am-core/src/context_index.rs)

    Context packets choose files by their summaries in the table
    repo_context_index.  A refresh walks the repository and replaces the rows of
    the files that changed: a file whose size and modification time are those of
    its row is not read, and the walk itself is skipped when git reports what it
    reported at the last walk.  A repository is the tree of what the walk finds,
    unfolded through links, with the answers of git ([RepoView]); the tables are
    those of crates/am-db/src/repos/work_graph.rs. *)
From Stdlib Require Import Ascii String.
From stdpp Require Import gmap strings pretty.
From S2P Require Import Prelude RustStr Json Enums Records ContextPackets WorkGraphDb WorkGraphInv Limits ThreadText Attachments GitText TaskTexts WorkPlan.
#[local] Open Scope string_scope.
#[local] Open Scope Z_scope.

(** ** Characters *)

(** The standard library's tables of characters, and its decoding of bytes. *)
Class CharTable := {
  is_alphanumeric : string -> bool;
  str_lowercase : string -> string;
  from_utf8_lossy : string -> string
}.

(** [str::chars]: each character as its bytes. *)
Fixpoint chars (s : string) : list string :=
  match s with
  | EmptyString => []
  | String a rest =>
      match chars rest with
      | c :: cs =>
          if match rest with String b _ => is_continuation b | EmptyString => false end
          then String a c :: cs else String a EmptyString :: c :: cs
      | [] => [String a EmptyString]
      end
  end.

(** [str::split] on a predicate. *)
Fixpoint split_pieces (p : string -> bool) (cs : list string) : list string :=
  match cs with
  | [] => [EmptyString]
  | c :: cs =>
      if p c then EmptyString :: split_pieces p cs
      else match split_pieces p cs with w :: ws => (c +:+ w) :: ws | [] => [c] end
  end.
Definition split_chars (p : string -> bool) (s : string) : list string := split_pieces p (chars s).

(** ** The repository *)

Definition MAX_CONTEXT_INDEX_FILES_PER_REPO : nat := Z.to_nat 2000.
Definition MAX_CONTEXT_INDEX_FILE_BYTES : Z := 96 * 1024.
Definition GIT_FAST_PATH_MAX_AGE_SECS : Z := 600.

(** [modified] is the time since 1970 in milliseconds, when there is one. *)
Module FileMeta.
Record t := mk { size : Z; modified : option Z }.
End FileMeta.

(** What is at a path; a reading that fails is [None]. *)
Inductive FsEntry :=
| FsFile (metadata : option FileMeta.t) (content : option string)
| FsDir (entries : option (list (string * FsEntry))).
Definition is_dir (e : FsEntry) : bool := match e with FsDir _ => true | FsFile _ _ => false end.

Module RepoView.
(** [git args] is the output of a run that succeeded. *)
Record t := mk { tree : FsEntry; git_output : list string -> option string }.
End RepoView.

Module GitState.
Record t := mk { head_commit : string; dirty_digest : string }.
End GitState.

Definition read_git_state (w : RepoView.t) : option GitState.t :=
  head ← w.(RepoView.git_output) ["rev-parse"; "HEAD"];
  status ← w.(RepoView.git_output) ["status"; "--porcelain"; "--untracked-files=all"];
  Some (GitState.mk (trim head) (stable_hex_hash status)).

(** ** The tables (am-db/src/repos/work_graph.rs) *)

Module RepoContextFile.
Record t := mk {
  id : string;
  repo_id : string;
  path : string;
  language : option string;
  symbols_json : string;
  summary : string;
  size_bytes : Z;
  mtime_ms : Z;
  content_hash : string;
  indexed_at : Z
}.
End RepoContextFile.

Module RepoContextMeta.
Record t := mk { path : string; size_bytes : Z; mtime_ms : Z; content_hash : string }.
End RepoContextMeta.

Module NewRepoContextFile.
Record t := mk {
  path : string;
  language : option string;
  symbols_json : string;
  summary : string;
  size_bytes : Z;
  mtime_ms : Z;
  content_hash : string
}.
End NewRepoContextFile.

Module RepoIndexState.
Record t := mk {
  repo_id : string;
  head_commit : option string;
  dirty_digest : option string;
  last_walk_at : Z;
  file_count : Z
}.
End RepoIndexState.

Record IndexDb := mkIndex {
  index_repos : gset string;
  files : list RepoContextFile.t;
  walks : list RepoIndexState.t
}.
Definition set_files (v : list RepoContextFile.t) (d : IndexDb) : IndexDb := mkIndex d.(index_repos) v d.(walks).
Definition set_walks (v : list RepoIndexState.t) (d : IndexDb) : IndexDb := mkIndex d.(index_repos) d.(files) v.
Abbreviation IdxM := (M IndexDb DbError).

Definition at_path (repo_id path : string) (r : RepoContextFile.t) : bool :=
  eq_str r.(RepoContextFile.repo_id) repo_id && eq_str r.(RepoContextFile.path) path.

Definition context_row (id repo_id : string) (ts : Z) (f : NewRepoContextFile.t) : RepoContextFile.t :=
  RepoContextFile.mk id repo_id f.(NewRepoContextFile.path) f.(NewRepoContextFile.language)
    f.(NewRepoContextFile.symbols_json) f.(NewRepoContextFile.summary) f.(NewRepoContextFile.size_bytes)
    f.(NewRepoContextFile.mtime_ms) f.(NewRepoContextFile.content_hash) ts.

(** [INSERT .. ON CONFLICT(repo_id, path) DO UPDATE]: the row keeps its id. *)
Definition upsert_context_file (ts : Z) (repo_id : string) (new : string * NewRepoContextFile.t) : IdxM () :=
  let '(id, f) := new in
  d ← get;
  _ ← fail_when (existsb (fun r => eq_str r.(RepoContextFile.id) id) d.(files) ||
        negb (bool_decide (repo_id ∈ d.(index_repos)))) Sqlx;
  modify (set_files
    (if existsb (at_path repo_id f.(NewRepoContextFile.path)) d.(files)
     then update_where (at_path repo_id f.(NewRepoContextFile.path))
            (fun r => context_row r.(RepoContextFile.id) repo_id ts f) d.(files)
     else d.(files) ++ [context_row id repo_id ts f])).

Definition delete_context_file (repo_id path : string) : IdxM () :=
  modify (fun d => set_files (filter (fun r => at_path repo_id path r = false) d.(files)) d).

Definition record_walk (s : RepoIndexState.t) : IdxM () :=
  d ← get;
  _ ← fail_when (negb (bool_decide (s.(RepoIndexState.repo_id) ∈ d.(index_repos)))) Sqlx;
  modify (set_walks
    (if existsb (fun w => eq_str w.(RepoIndexState.repo_id) s.(RepoIndexState.repo_id)) d.(walks)
     then update_where (fun w => eq_str w.(RepoIndexState.repo_id) s.(RepoIndexState.repo_id)) (fun _ => s) d.(walks)
     else d.(walks) ++ [s])).

(** A transaction: a failure takes the writes before it back. *)
Definition in_transaction {S E A} (m : M S E A) : M S E A := fun s =>
  match m s with (s', Ok a) => (s', Ok a) | (_, Err e) => (s, Err e) end.

Definition apply_repo_context_changes (ts : Z) (ids : nat -> string) (repo_id : string)
  (upserts : list NewRepoContextFile.t) (deleted_paths : list string) (head_commit dirty_digest : option string)
  (file_count : Z) : IdxM () :=
  in_transaction (
    _ ← for_each (upsert_context_file ts repo_id) (imap (fun i f => (ids i, f)) upserts);
    _ ← for_each (delete_context_file repo_id) deleted_paths;
    record_walk (RepoIndexState.mk repo_id head_commit dirty_digest ts file_count)).

Definition get_repo_index_state (repo_id : string) : IdxM (option RepoIndexState.t) :=
  gets (fun d => find (fun w => eq_str w.(RepoIndexState.repo_id) repo_id) d.(walks)).

Definition context_meta (r : RepoContextFile.t) : RepoContextMeta.t :=
  RepoContextMeta.mk r.(RepoContextFile.path) r.(RepoContextFile.size_bytes) r.(RepoContextFile.mtime_ms)
    r.(RepoContextFile.content_hash).
Definition list_repo_context_meta (repo_id : string) : IdxM (list RepoContextMeta.t) :=
  gets (fun d => context_meta <$> filter (fun r => r.(RepoContextFile.repo_id) = repo_id) d.(files)).

(** [ORDER BY indexed_at DESC LIMIT]; the limit is positive where it is called. *)
Definition list_repo_context_files (repo_ids : list string) (limit : Z) : IdxM (list RepoContextFile.t) :=
  match repo_ids with
  | [] => mret []
  | _ => gets (fun d => take (Z.to_nat limit)
           (sort_by (fun a b => b.(RepoContextFile.indexed_at) <=? a.(RepoContextFile.indexed_at))
              (filter (fun r => r.(RepoContextFile.repo_id) ∈ repo_ids) d.(files))))
  end.

(** ** The walk *)

Definition ignored_context_name (name : string) : bool :=
  existsb (String.eqb name)
    [".git"; "node_modules"; "target"; "dist"; "build"; ".next"; ".turbo"; ".cache"; "coverage"; "__pycache__"].

(** [Path::extension] of a file name. *)
Definition extension (name : string) : option string :=
  match rsplit_once "." name with
  | Some (stem, ext) => if is_empty stem then None else Some ext
  | None => None
  end.
Definition context_file_candidate (name : string) : bool :=
  is_some_and (extension name) (fun ext => existsb (String.eqb ext)
    ["rs"; "ts"; "tsx"; "js"; "jsx"; "py"; "go"; "java"; "kt"; "swift"; "rb"; "php"; "cs"; "cpp"; "c"; "h"; "hpp";
     "sql"; "md"; "toml"; "json"; "yaml"; "yml"; "css"; "scss"; "html"]).

(** The path from the root to an entry of a directory. *)
Definition child_path (dir name : string) : string := if is_empty dir then name else dir +:+ "/" +:+ name.

(** [fuel] is the depths left: the walk enters the depths 0 to 8.  After the break
    of the loop the count no longer changes, so every later entry is passed. *)
Fixpoint walk (fuel : nat) (dir : string) (e : FsEntry) (out : list (string * FsEntry)) : list (string * FsEntry) :=
  match fuel with
  | O => out
  | S fuel =>
      if (MAX_CONTEXT_INDEX_FILES_PER_REPO <=? length out)%nat then out
      else match e with
           | FsDir (Some entries) =>
               foldl (fun out '(name, child) =>
                 if (MAX_CONTEXT_INDEX_FILES_PER_REPO <=? length out)%nat then out
                 else if ignored_context_name name then out
                 else if is_dir child then walk fuel (child_path dir name) child out
                 else if context_file_candidate name then (out ++ [(child_path dir name, child)])%list
                 else out) out entries
           | _ => out
           end
  end.
Definition collect_context_files (root : FsEntry) : list (string * FsEntry) := walk 9 EmptyString root [].

(** ** Summaries *)

Definition language_for_path (path : string) : option string :=
  let ext := match rsplit_once "." path with Some (_, ext) => ext | None => path end in
  if String.eqb ext "rs" then Some "Rust"
  else if existsb (String.eqb ext) ["ts"; "tsx"] then Some "TypeScript"
  else if existsb (String.eqb ext) ["js"; "jsx"] then Some "JavaScript"
  else if String.eqb ext "py" then Some "Python"
  else if String.eqb ext "go" then Some "Go"
  else if existsb (String.eqb ext) ["java"; "kt"] then Some "JVM"
  else if String.eqb ext "sql" then Some "SQL"
  else if String.eqb ext "md" then Some "Markdown"
  else if String.eqb ext "json" then Some "JSON"
  else if String.eqb ext "toml" then Some "TOML"
  else if existsb (String.eqb ext) ["yaml"; "yml"] then Some "YAML"
  else if existsb (String.eqb ext) ["css"; "scss"] then Some "Stylesheet"
  else if String.eqb ext "html" then Some "HTML"
  else None.

(** A zero byte among the first 4096. *)
Fixpoint has_zero (n : nat) (s : string) : bool :=
  match n, s with
  | S n, String a s => Ascii.eqb a "000"%char || has_zero n s
  | _, _ => false
  end.

Definition relative_path (path : string) : string := swap_char "\" "/" path.
#[global] Arguments relative_path : simpl never.
Definition BINARY_PREFIX_BYTES : nat := Z.to_nat 4096.
Definition is_binary (raw : string) : bool := has_zero BINARY_PREFIX_BYTES raw.
#[global] Arguments is_binary : simpl never.

Module RepoScan.
Record t := mk { upserts : list NewRepoContextFile.t; seen_paths : list string; file_count : Z }.
End RepoScan.

Section Index.
Context `{CharTable} `{!TextSerde (list string)}.

Definition SYMBOL_PREFIXES : list string :=
  ["fn "; "pub fn "; "function "; "export function "; "class "; "export class "].
Definition symbol_of (line : string) : option string :=
  match head (omap (fun p => strip_prefix p (trim_start line)) SYMBOL_PREFIXES) with
  | Some rest =>
      name ← head (split_chars (fun c => negb (is_alphanumeric c) && negb (String.eqb c "_")) rest);
      if is_empty name then None else Some name
  | None => None
  end.
(** The loop stops at the twelfth symbol. *)
Definition symbols_for_source (text : string) : list string := take 12 (omap symbol_of (take 400 (lines text))).

Definition option_line (o : option string) : list string := match o with Some l => [l] | None => [] end.
Definition summarize_source_file (path text : string) : string :=
  let symbols := symbols_for_source text in
  let body := String.concat newline (take 24 (filter (fun line => is_empty (trim line) = false) (lines text))) in
  String.concat newline
    (["Path: " +:+ path] ++
     option_line ((fun language => "Language: " +:+ language) <$> language_for_path path) ++
     (match symbols with [] => [] | _ => ["Symbols: " +:+ String.concat ", " symbols] end) ++
     [truncate body 1000])%list.

(** ** The scan *)

(** [as i64] on the lengths and times. *)
Definition as_i64 (x : Z) : Z := u64_as_i64 (x mod 2 ^ 64).
Definition mtime_of (m : FileMeta.t) : Z := from_option as_i64 0 m.(FileMeta.modified).

Definition context_file (relative : string) (m : FileMeta.t) (raw : string) : NewRepoContextFile.t :=
  let text := from_utf8_lossy raw in
  NewRepoContextFile.mk relative (language_for_path relative) (to_text (symbols_for_source text))
    (summarize_source_file relative text) (as_i64 m.(FileMeta.size)) (mtime_of m) (stable_hex_hash raw).

Definition scan_file (existing : gmap string RepoContextMeta.t) (scan : RepoScan.t) (found : string * FsEntry) : RepoScan.t :=
  let '(path, e) := found in
  match e with
  | FsFile (Some m) content =>
      if MAX_CONTEXT_INDEX_FILE_BYTES <? m.(FileMeta.size) then scan
      else
        let relative := relative_path path in
        let count := scan.(RepoScan.file_count) + 1 in
        let seen := (scan.(RepoScan.seen_paths) ++ [relative])%list in
        if is_some_and (existing !! relative) (fun prev =>
             (prev.(RepoContextMeta.size_bytes) =? as_i64 m.(FileMeta.size)) && (prev.(RepoContextMeta.mtime_ms) =? mtime_of m))
        then RepoScan.mk scan.(RepoScan.upserts) seen count
        else match content with
             | Some raw =>
                 if is_binary raw then RepoScan.mk scan.(RepoScan.upserts) scan.(RepoScan.seen_paths) count
                 else RepoScan.mk (scan.(RepoScan.upserts) ++ [context_file relative m raw]) seen count
             | None => RepoScan.mk scan.(RepoScan.upserts) scan.(RepoScan.seen_paths) count
             end
  | _ => scan
  end.

Definition scan_repo (root : FsEntry) (existing : gmap string RepoContextMeta.t) : RepoScan.t :=
  foldl (scan_file existing) (RepoScan.mk [] [] 0) (collect_context_files root).

(** ** The refresh *)

(** What git says is what it said at the last walk, and that was recent. *)
Definition fast_path (ts : Z) (state : option RepoIndexState.t) (git : option GitState.t) : bool :=
  match state, git with
  | Some state, Some git =>
      bool_decide (state.(RepoIndexState.head_commit) = Some git.(GitState.head_commit)) &&
      bool_decide (state.(RepoIndexState.dirty_digest) = Some git.(GitState.dirty_digest)) &&
      (Z.quot (ts - state.(RepoIndexState.last_walk_at)) 1000 <? GIT_FAST_PATH_MAX_AGE_SECS)
  | _, _ => false
  end.

(** The deletions are made in the order of the table; each names one row. *)
Definition refresh_repo_index (ts : Z) (ids : nat -> string) (repo_id : string) (w : RepoView.t) : IdxM () :=
  let git := read_git_state w in
  state ← get_repo_index_state repo_id;
  if fast_path ts state git then mret ()
  else
    metas ← list_repo_context_meta repo_id;
    let existing := list_to_map (reverse ((fun m => (m.(RepoContextMeta.path), m)) <$> metas)) in
    let scan := scan_repo w.(RepoView.tree) existing in
    let deleted := filter (fun p => p ∉ scan.(RepoScan.seen_paths)) (RepoContextMeta.path <$> metas) in
    if bool_decide (scan.(RepoScan.upserts) = []) && bool_decide (deleted = []) &&
       negb (bool_decide (is_Some git)) && bool_decide (is_Some state)
    then mret ()
    else apply_repo_context_changes ts ids repo_id scan.(RepoScan.upserts) deleted
           (GitState.head_commit <$> git) (GitState.dirty_digest <$> git) scan.(RepoScan.file_count).

(** The root of a binding: its worktree, or the local path of its repository. *)
Definition index_root (get_repo : string -> result DbError (option Repo.t)) (b : WorkNodeRepoBinding.t) :
  result DbError (option string) :=
  match b.(WorkNodeRepoBinding.worktree_path) with
  | Some path => Ok (Some path)
  | None =>
      match get_repo b.(WorkNodeRepoBinding.repo_id) with
      | Ok repo => Ok (repo ≫= Repo.local_path)
      | Err e => Err e
      end
  end.

(** [view root] is what the refresh of that root finds; [ids] are the ids it draws. *)
Definition refresh_context_index (ts : Z) (ids : string -> nat -> string) (get_repo : string -> result DbError (option Repo.t))
  (view : string -> RepoView.t) (repos : list WorkNodeRepoBinding.t) : IdxM () :=
  for_each (fun b =>
    root ← lift (index_root get_repo b);
    match root with
    | Some root =>
        if is_dir (view root).(RepoView.tree)
        then refresh_repo_index ts (ids b.(WorkNodeRepoBinding.repo_id)) b.(WorkNodeRepoBinding.repo_id) (view root)
        else mret ()
    | None => mret ()
    end) repos.
End Index.

(** * The incremental index is the full index

    After any history of refreshes the rows of a repository are those that
    indexing it from scratch would give, as long as a file with the size and time
    of an earlier reading has the content of that reading. *)

(** ** The columns of a row *)

Definition columns (r : RepoContextFile.t) : NewRepoContextFile.t :=
  NewRepoContextFile.mk r.(RepoContextFile.path) r.(RepoContextFile.language) r.(RepoContextFile.symbols_json)
    r.(RepoContextFile.summary) r.(RepoContextFile.size_bytes) r.(RepoContextFile.mtime_ms) r.(RepoContextFile.content_hash).

(** The index of a repository has the file [f]. *)
Definition indexed_as (repo_id : string) (d : IndexDb) (f : NewRepoContextFile.t) : Prop :=
  exists r, r ∈ d.(files) /\ r.(RepoContextFile.repo_id) = repo_id /\ columns r = f.

Definition file_key (r : RepoContextFile.t) : string * string := (r.(RepoContextFile.repo_id), r.(RepoContextFile.path)).
Definition keys_unique (d : IndexDb) : Prop := NoDup (file_key <$> d.(files)).
Definition of_others (repo_id : string) (d : IndexDb) : list RepoContextFile.t :=
  filter (fun r => r.(RepoContextFile.repo_id) <> repo_id) d.(files).

Lemma at_path_true repo p r : at_path repo p r = true <-> file_key r = (repo, p).
Proof.
  unfold at_path, file_key. rewrite andb_true_iff, !eq_str_true. split; [by intros [-> ->]|by intros [= -> ->]].
Qed.
Lemma at_path_false repo p r : at_path repo p r = false <-> file_key r <> (repo, p).
Proof. rewrite <- at_path_true. by destruct (at_path repo p r). Qed.

Lemma columns_context_row id repo ts f : columns (context_row id repo ts f) = f.
Proof. by destruct f. Qed.

Lemma same_key_same_row d r r' : keys_unique d -> r ∈ d.(files) -> r' ∈ d.(files) -> file_key r = file_key r' -> r = r'.
Proof. intros Hk Hr Hr' He. by eapply NoDup_column_inj. Qed.

(** ** Writing *)

Section Writing.
Context (repo : string) (ts : Z).

Lemma others_update p f l :
  (forall r, p r = true -> r.(RepoContextFile.repo_id) = repo /\ (f r).(RepoContextFile.repo_id) = repo) ->
  filter (fun r => r.(RepoContextFile.repo_id) <> repo) (update_where p f l) =
  filter (fun r => r.(RepoContextFile.repo_id) <> repo) l.
Proof.
  intros Hp. unfold update_where. induction l as [|r l IH]; [done|]. rewrite fmap_cons, !filter_cons, IH. destruct (p r) eqn:Hr; [|done].
  destruct (Hp r Hr) as [H1 H2]. rewrite !decide_False by (intros Hn; by apply Hn). done.
Qed.

(** What the write of one file does. *)
Record upserted (id : string) (f : NewRepoContextFile.t) (d d' : IndexDb) : Prop := {
  up_keys : keys_unique d';
  up_repos : d'.(index_repos) = d.(index_repos);
  up_others : of_others repo d' = of_others repo d;
  up_ids : forall i, i ∈ RepoContextFile.id <$> d'.(files) -> i = id \/ i ∈ RepoContextFile.id <$> d.(files);
  up_index : forall g, indexed_as repo d' g <->
    if decide (g.(NewRepoContextFile.path) = f.(NewRepoContextFile.path)) then g = f else indexed_as repo d g
}.

Lemma upsert_old id f d :
  keys_unique d -> existsb (at_path repo f.(NewRepoContextFile.path)) d.(files) = true ->
  upserted id f d (set_files (update_where (at_path repo f.(NewRepoContextFile.path))
    (fun r => context_row r.(RepoContextFile.id) repo ts f) d.(files)) d).
Proof.
  intros Hk (r0 & Hr0 & Hp0%at_path_true)%existsb_exists. apply list_elem_of_In in Hr0. split; cbn.
  - unfold keys_unique. cbn. rewrite update_where_column; [done|]. intros r _ ->%at_path_true. done.
  - done.
  - apply others_update. intros r Hr%at_path_true. by injection Hr as <- _.
  - intros i (r & -> & (r1 & Hr1 & ->)%elem_of_update_where)%list_elem_of_fmap. right.
    apply list_elem_of_fmap. exists r1. split; [by destruct (at_path _ _ _)|done].
  - intros g. split.
    + intros (r & (r1 & Hr1 & ->)%elem_of_update_where & Hrepo & Hc). destruct (at_path repo _ r1) eqn:Ha.
      * rewrite columns_context_row in Hc. subst g. by rewrite decide_True.
      * rewrite decide_False; [by exists r1|]. apply at_path_false in Ha. intros Hp. apply Ha.
        unfold file_key. rewrite Hrepo. by rewrite <- Hp, <- Hc.
    + case_decide as Hp.
      * intros ->. exists (context_row r0.(RepoContextFile.id) repo ts f). split_and!; [|done|apply columns_context_row].
        apply elem_of_update_where. exists r0. split; [done|]. by rewrite (proj2 (at_path_true _ _ _) Hp0).
      * intros (r & Hr & Hrepo & Hc). exists r. split_and!; [|done..]. apply elem_of_update_where. exists r. split; [done|].
        destruct (at_path _ _ r) eqn:Ha; [|done]. apply at_path_true in Ha. injection Ha as _ Ha. destruct Hp. by rewrite <- Hc.
Qed.

Lemma upsert_new id f d :
  keys_unique d -> existsb (at_path repo f.(NewRepoContextFile.path)) d.(files) = false ->
  upserted id f d (set_files (d.(files) ++ [context_row id repo ts f]) d).
Proof.
  intros Hk Hn. rewrite existsb_false in Hn.
  assert (forall r, r ∈ d.(files) -> r.(RepoContextFile.repo_id) = repo -> r.(RepoContextFile.path) <> f.(NewRepoContextFile.path)) as Hne.
  { intros r Hr <- Hp. specialize (Hn r Hr). apply at_path_false in Hn. apply Hn. unfold file_key. by rewrite Hp. }
  split; cbn.
  - unfold keys_unique. cbn. rewrite fmap_app. apply NoDup_snoc; [done|].
    intros (r & Hkey & Hr)%list_elem_of_fmap. injection Hkey as Hrepo Hp. by apply (Hne r Hr).
  - done.
  - unfold of_others. cbn. rewrite filter_app, filter_cons_False, app_nil_r by (intros Hx; by apply Hx). done.
  - intros i. rewrite fmap_app. intros [Hi| ->%list_elem_of_singleton]%elem_of_app; auto.
  - intros g. split.
    + intros (r & [Hr| ->%list_elem_of_singleton]%elem_of_app & Hrepo & Hc).
      * rewrite decide_False; [by exists r|]. intros Hp. apply (Hne r Hr Hrepo). by rewrite <- Hp, <- Hc.
      * rewrite columns_context_row in Hc. subst g. by rewrite decide_True.
    + case_decide as Hp.
      * intros ->. exists (context_row id repo ts f). split_and!; [|done|apply columns_context_row]. apply elem_of_app. right. by left.
      * intros (r & Hr & Hrest). exists r. split; [|done]. apply elem_of_app. by left.
Qed.

Lemma context_upsert_spec id f d :
  keys_unique d -> repo ∈ d.(index_repos) -> id ∉ RepoContextFile.id <$> d.(files) ->
  exists d', upsert_context_file ts repo (id, f) d = (d', Ok ()) /\ upserted id f d d'.
Proof.
  intros Hk Hrepo Hid. unfold upsert_context_file. rewrite M_bind_unfold. cbn [get]. rewrite M_bind_unfold.
  assert (existsb (fun r => eq_str r.(RepoContextFile.id) id) d.(files) = false) as ->.
  { apply existsb_false. intros r Hr. destruct (eq_str _ _) eqn:He; [|done]. apply eq_str_true in He.
    destruct Hid. apply list_elem_of_fmap. by exists r. }
  rewrite bool_decide_true by done. cbn [orb negb fail_when mret M_ret modify].
  destruct (existsb (at_path repo _) d.(files)) eqn:He; eexists; (split; [reflexivity|]); [by apply upsert_old|by apply upsert_new].
Qed.

(** ... and of all files of a scan. *)
Lemma upserts_spec l d :
  keys_unique d -> repo ∈ d.(index_repos) -> NoDup l.*1 -> (forall id, id ∈ l.*1 -> id ∉ RepoContextFile.id <$> d.(files)) ->
  NoDup (NewRepoContextFile.path <$> l.*2) ->
  exists d', for_each (upsert_context_file ts repo) l d = (d', Ok ()) /\ keys_unique d' /\ d'.(index_repos) = d.(index_repos) /\
    of_others repo d' = of_others repo d /\
    (forall g, indexed_as repo d' g <->
      (g ∈ l.*2 \/ (~ g.(NewRepoContextFile.path) ∈ (NewRepoContextFile.path <$> l.*2) /\ indexed_as repo d g))).
Proof.
  revert d. induction l as [|[id f] l IH]; intros d Hk Hrepo Hids Hfresh Hpaths.
  - exists d. split_and!; try done. intros g. cbn. rewrite elem_of_nil. split; [|intros [[]|[_ Hg]]; done].
    intros Hg. right. split; [|done]. by intros ?%elem_of_nil.
  - cbn [fmap list_fmap fst snd] in *. apply NoDup_cons in Hids as [Hid Hids]. apply NoDup_cons in Hpaths as [Hp Hpaths].
    destruct (context_upsert_spec id f d Hk Hrepo) as (d1 & H1 & [Hk1 Hr1 Ho1 Hi1 Hx1]); [apply Hfresh; by left|].
    destruct (IH d1) as (d2 & H2 & Hk2 & Hr2 & Ho2 & Hx2); [done|by rewrite Hr1|done| |done|].
    { intros i Hi Hin. apply Hi1 in Hin as [->|Hin]; [done|]. by eapply Hfresh; [right|]. }
    exists d2. cbn [for_each]. rewrite M_bind_unfold, H1. split_and!; [done|done|congruence|congruence|].
    intros g. rewrite Hx2, Hx1, !elem_of_cons. case_decide as Hgp; [|naive_solver].
    rewrite <- Hgp in Hp. split.
    + intros [Hg|[_ ->]]; auto.
    + intros [[->|Hg]|[Hn _]]; [by right|by left|]. destruct Hn. by left.
Qed.

(** Writes that succeeded add nothing else. *)
Lemma upserts_add l d d' u :
  keys_unique d -> for_each (upsert_context_file ts repo) l d = (d', Ok u) ->
  keys_unique d' /\ forall g, indexed_as repo d' g -> g ∈ l.*2 \/ indexed_as repo d g.
Proof.
  revert d. induction l as [|[id f] l IH]; intros d Hk; cbn [for_each]; [intros [= <- _]; auto|].
  intros (d1 & x & H1 & H2)%bind_inv. assert (upserted id f d d1) as [Hk1 _ _ _ Hx1].
  { unfold upsert_context_file in H1. apply bind_inv in H1 as (? & ? & [= <- <-] & (? & ? & [-> _]%fail_when_inv & H1)%bind_inv).
    destruct (existsb (at_path repo _) d.(files)) eqn:He; injection H1 as <- _; [by apply upsert_old|by apply upsert_new]. }
  destruct (IH d1 Hk1 H2) as [Hk' Hx']. split; [done|]. intros g [Hg|Hg%Hx1]%Hx'; [left; by right|].
  case_decide; [left; subst g; by left|by right].
Qed.

Lemma deletes_spec D d :
  keys_unique d ->
  exists d', for_each (delete_context_file repo) D d = (d', Ok ()) /\ keys_unique d' /\ d'.(index_repos) = d.(index_repos) /\
    of_others repo d' = of_others repo d /\
    (forall g, indexed_as repo d' g <-> (~ g.(NewRepoContextFile.path) ∈ D /\ indexed_as repo d g)).
Proof.
  revert d. induction D as [|p D IH]; intros d Hk.
  - exists d. split_and!; try done. intros g. split; [intros Hg; split; [by intros ?%elem_of_nil|done]|tauto].
  - cbn [for_each]. rewrite M_bind_unfold. cbn [delete_context_file modify].
    destruct (IH (set_files (filter (fun r => at_path repo p r = false) d.(files)) d)) as (d' & Hd & Hk' & Hr' & Ho' & Hx').
    { by apply NoDup_filter_column. }
    exists d'. split_and!; [done|done|done| |].
    + rewrite Ho'. unfold of_others. cbn. rewrite list_filter_filter. apply list_filter_iff. intros r. split; [tauto|].
      intros Hn. split; [done|]. apply at_path_false. by intros [= ? _].
    + intros g. rewrite Hx', elem_of_cons. unfold indexed_as at 1. cbn. split.
      * intros [Hn (r & [Ha Hr]%list_elem_of_filter & Hrepo & Hc)]. split; [|by exists r].
        intros [Hp|Hp]; [|done]. apply at_path_false in Ha. apply Ha. unfold file_key. rewrite Hrepo, <- Hp, <- Hc. done.
      * intros [Hn (r & Hr & Hrepo & Hc)]. split; [tauto|]. exists r. split_and!; [|done..].
        apply list_elem_of_filter. split; [|done]. apply at_path_false. intros [= _ Hp]. apply Hn. left. by rewrite <- Hc.
Qed.
End Writing.

(** ** The scan *)
Section Scan.
Context `{CharTable} `{!TextSerde (list string)}.

(** The row a file gets when it is read, and what indexing from scratch gives. *)
Definition file_row (found : string * FsEntry) : option NewRepoContextFile.t :=
  match found.2 with
  | FsFile (Some m) (Some raw) =>
      if MAX_CONTEXT_INDEX_FILE_BYTES <? m.(FileMeta.size) then None
      else if is_binary raw then None else Some (context_file (relative_path found.1) m raw)
  | _ => None
  end.
Definition reindex (root : FsEntry) : list NewRepoContextFile.t := omap file_row (collect_context_files root).

(** The row of the file has its size and time. *)
Definition matched (existing : gmap string RepoContextMeta.t) (found : string * FsEntry) : bool :=
  match found.2 with
  | FsFile (Some m) _ =>
      negb (MAX_CONTEXT_INDEX_FILE_BYTES <? m.(FileMeta.size)) &&
      is_some_and (existing !! relative_path found.1) (fun prev =>
        (prev.(RepoContextMeta.size_bytes) =? as_i64 m.(FileMeta.size)) && (prev.(RepoContextMeta.mtime_ms) =? mtime_of m))
  | _ => false
  end.

Definition to_upsert existing found := if matched existing found then None else file_row found.
Definition seen_path existing found :=
  if matched existing found then Some (relative_path found.1) else NewRepoContextFile.path <$> file_row found.

Lemma scan_file_spec existing scan found :
  (scan_file existing scan found).(RepoScan.upserts) = (scan.(RepoScan.upserts) ++ option_list (to_upsert existing found))%list /\
  (scan_file existing scan found).(RepoScan.seen_paths) = (scan.(RepoScan.seen_paths) ++ option_list (seen_path existing found))%list.
Proof.
  unfold scan_file, to_upsert, seen_path, matched, file_row. destruct found as [path [[m|] content|entries]]; cbn; rewrite ?app_nil_r; try done.
  destruct (_ <? _); cbn; [by destruct content; cbn; rewrite ?app_nil_r|]. destruct (is_some_and _ _); cbn; rewrite ?app_nil_r; [done|].
  destruct content as [raw|]; cbn; rewrite ?app_nil_r; [|done]. destruct (is_binary raw); cbn; by rewrite ?app_nil_r.
Qed.

Lemma scan_repo_spec root existing :
  (scan_repo root existing).(RepoScan.upserts) = omap (to_upsert existing) (collect_context_files root) /\
  (scan_repo root existing).(RepoScan.seen_paths) = omap (seen_path existing) (collect_context_files root).
Proof.
  unfold scan_repo.
  assert (forall l scan, (foldl (scan_file existing) scan l).(RepoScan.upserts) = (scan.(RepoScan.upserts) ++ omap (to_upsert existing) l)%list /\
    (foldl (scan_file existing) scan l).(RepoScan.seen_paths) = (scan.(RepoScan.seen_paths) ++ omap (seen_path existing) l)%list) as Hl; [|apply (Hl _ (RepoScan.mk [] [] 0))].
  induction l as [|found l IH]; intros scan; cbn [foldl]; [by rewrite !app_nil_r|].
  destruct (IH (scan_file existing scan found)) as [-> ->]. destruct (scan_file_spec existing scan found) as [-> ->].
  rewrite <- !app_assoc. split; f_equal; cbn; [by destruct (to_upsert _ _)|by destruct (seen_path _ _)].
Qed.

(** Indexing from scratch is the scan against an empty index. *)
Lemma reindex_is_cold_scan root : (scan_repo root ∅).(RepoScan.upserts) = reindex root.
Proof.
  rewrite (proj1 (scan_repo_spec root ∅)). unfold reindex. induction (collect_context_files root) as [|found l IH]; [done|].
  cbn. rewrite IH. assert (to_upsert ∅ found = file_row found) as ->; [|done].
  unfold to_upsert, matched. destruct found as [path [[m|] content|entries]]; cbn; [|done..].
  rewrite lookup_empty. cbn. by rewrite andb_false_r.
Qed.

Lemma row_path found f : file_row found = Some f -> f.(NewRepoContextFile.path) = relative_path found.1.
Proof.
  unfold file_row. destruct found as [path [[m|] [raw|]|entries]]; cbn; try done.
  destruct (_ <? _); [done|]. destruct (is_binary raw); [done|]. by intros [= <-].
Qed.

(** ** One refresh *)
Context (repo : string).

(** A file of both trees with one size and time has one content. *)
Definition same_content (T0 T : FsEntry) : Prop :=
  forall p0 m0 c0 p m c,
    (p0, FsFile (Some m0) c0) ∈ collect_context_files T0 -> (p, FsFile (Some m) c) ∈ collect_context_files T ->
    relative_path p0 = relative_path p -> as_i64 m0.(FileMeta.size) = as_i64 m.(FileMeta.size) -> mtime_of m0 = mtime_of m ->
    c0 = c.

(** Every row of the repository was read from one of the trees. *)
Definition read_from (Ts : list FsEntry) (d : IndexDb) : Prop :=
  forall f, indexed_as repo d f -> exists T found, T ∈ Ts /\ found ∈ collect_context_files T /\ file_row found = Some f.

Definition distinct_paths (T : FsEntry) : Prop := NoDup ((fun a => relative_path a.1) <$> collect_context_files T).
Definition fresh_ids (ids : nat -> string) (d : IndexDb) : Prop :=
  (forall i j, ids i = ids j -> i = j) /\ forall i, ids i ∉ RepoContextFile.id <$> d.(files).

Definition metas (d : IndexDb) : list RepoContextMeta.t :=
  context_meta <$> filter (fun r => r.(RepoContextFile.repo_id) = repo) d.(files).
Definition existing_of (d : IndexDb) : gmap string RepoContextMeta.t :=
  list_to_map (reverse ((fun m => (m.(RepoContextMeta.path), m)) <$> metas d)).

Lemma metas_unique d : keys_unique d -> NoDup (RepoContextMeta.path <$> metas d).
Proof.
  intros Hk. unfold metas. rewrite <- list_fmap_compose. unfold keys_unique in Hk.
  induction (files d) as [|r l IH]; [constructor|]. cbn in Hk. apply NoDup_cons in Hk as [Hr Hk]. rewrite filter_cons.
  case_decide as Hrepo; [|by apply IH]. cbn. apply NoDup_cons. split; [|by apply IH].
  intros (r' & Hp & [Hrepo' Hin]%list_elem_of_filter)%list_elem_of_fmap. apply Hr. apply list_elem_of_fmap. exists r'.
  split; [|done]. unfold file_key. cbn in Hp. by rewrite Hrepo, Hrepo', Hp.
Qed.

Lemma existing_lookup d p m : keys_unique d ->
  existing_of d !! p = Some m <-> exists r, r ∈ d.(files) /\ r.(RepoContextFile.repo_id) = repo /\ context_meta r = m /\ r.(RepoContextFile.path) = p.
Proof.
  intros Hk. unfold existing_of. rewrite <- elem_of_list_to_map.
  - rewrite elem_of_reverse, list_elem_of_fmap. unfold metas. split.
    + intros (m' & [= -> ->] & (r & -> & [Hrepo Hr]%list_elem_of_filter)%list_elem_of_fmap). by exists r.
    + intros (r & Hr & Hrepo & <- & <-). exists (context_meta r). split; [done|]. apply list_elem_of_fmap. exists r.
      split; [done|]. by apply list_elem_of_filter.
  - rewrite fmap_reverse, reverse_Permutation, <- list_fmap_compose. by apply metas_unique.
Qed.

Lemma apply_spec ts ids U D head dirty n d :
  keys_unique d -> repo ∈ d.(index_repos) -> fresh_ids ids d -> NoDup (NewRepoContextFile.path <$> U) ->
  exists d', apply_repo_context_changes ts ids repo U D head dirty n d = (d', Ok ()) /\ of_others repo d' = of_others repo d /\
    (forall g, indexed_as repo d' g <->
      (~ g.(NewRepoContextFile.path) ∈ D /\
       (g ∈ U \/ (~ g.(NewRepoContextFile.path) ∈ (NewRepoContextFile.path <$> U) /\ indexed_as repo d g)))).
Proof.
  intros Hk Hrepo [Hinj Hfresh] Hpaths. set (l := imap (fun i f => (ids i, f)) U).
  assert (l.*2 = U) as H2.
  { apply list_eq. intros i. unfold l. rewrite list_lookup_fmap, list_lookup_imap. by destruct (U !! i). }
  assert (forall i x, l.*1 !! i = Some x -> x = ids i) as H1.
  { intros i x. unfold l. rewrite list_lookup_fmap, list_lookup_imap. destruct (U !! i); cbn; [by intros [= <-]|done]. }
  destruct (upserts_spec repo ts l d) as (d1 & Hd1 & Hk1 & Hr1 & Ho1 & Hx1); [done|done| | |by rewrite H2|].
  { apply NoDup_alt. intros i j x Hi%H1 Hj%H1. apply Hinj. congruence. }
  { intros id [i Hi%H1]%list_elem_of_lookup. rewrite Hi. apply Hfresh. }
  destruct (deletes_spec repo D d1 Hk1) as (d2 & Hd2 & Hk2 & Hr2 & Ho2 & Hx2).
  unfold apply_repo_context_changes, in_transaction. fold l. rewrite M_bind_unfold, Hd1, M_bind_unfold, Hd2.
  unfold record_walk. rewrite M_bind_unfold. cbn [get]. rewrite M_bind_unfold, bool_decide_true by (cbn; by rewrite Hr2, Hr1).
  cbn [negb fail_when mret M_ret modify]. eexists. split; [reflexivity|]. split; [by rewrite <- Ho1, <- Ho2|].
  intros g. rewrite <- H2. specialize (Hx2 g). rewrite Hx1 in Hx2. exact Hx2.
Qed.

(** A file that is passed over would be read to the row it has. *)
Lemma matched_row Ts T d found :
  keys_unique d -> read_from Ts d -> (forall T0, T0 ∈ Ts -> same_content T0 T) -> found ∈ collect_context_files T ->
  matched (existing_of d) found = true ->
  exists f, indexed_as repo d f /\ file_row found = Some f.
Proof.
  intros Hk Hread Hsame Hin. unfold matched. destruct found as [p [[m|] c|entries]]; cbn; [|done..].
  rewrite andb_true_iff, negb_true_iff. intros [Hsize Hm]. destruct (existing_of d !! relative_path p) as [prev|] eqn:He; [|by cbn in Hm].
  cbn in Hm. rewrite andb_true_iff, !Z.eqb_eq in Hm. destruct Hm as [Hs Ht].
  apply existing_lookup in He as (r & Hr & Hrepo & <- & Hp); [|done]. cbn in Hs, Ht.
  assert (indexed_as repo d (columns r)) as Hr' by (by exists r). exists (columns r). split; [done|].
  destruct (Hread _ Hr') as (T0 & [p0 e0] & HT0 & Hin0 & Hrow). unfold file_row in Hrow. cbn in Hrow.
  destruct e0 as [[m0|] [raw|]|]; try done. destruct (MAX_CONTEXT_INDEX_FILE_BYTES <? FileMeta.size m0); [done|]. destruct (is_binary raw) eqn:Hb; [done|].
  injection Hrow as Hp0 Hl0 Hy0 Hu0 Hs0 Ht0 Hh0.
  assert (c = Some raw) as ->.
  { symmetry. apply (Hsame T0 HT0 p0 m0 (Some raw) p m c); [done..|congruence|congruence|congruence]. }
  unfold file_row. cbn. rewrite Hsize, Hb. f_equal. unfold columns, context_file in *.
  rewrite <- Hs, <- Ht, <- Hp, <- Hp0 in *. congruence.
Qed.

Lemma rows_distinct (k : string * FsEntry -> option NewRepoContextFile.t) L :
  (forall found f, k found = Some f -> f.(NewRepoContextFile.path) = relative_path found.1) ->
  NoDup ((fun a => relative_path a.1) <$> L) -> NoDup (NewRepoContextFile.path <$> omap k L).
Proof.
  intros Hp. induction L as [|a L IH]; cbn; [constructor|]. intros [Ha HL]%NoDup_cons. specialize (IH HL).
  destruct (k a) as [f|] eqn:Hf; cbn; [|done]. apply NoDup_cons. split; [|done].
  intros (g & Hg & (b & Hb & Hk)%list_elem_of_omap)%list_elem_of_fmap. apply Ha. apply list_elem_of_fmap. exists b.
  split; [|done]. cbn. by rewrite <- (Hp _ _ Hf), <- (Hp _ _ Hk).
Qed.

(** What the walk leaves is what indexing from scratch gives. *)
Lemma walk_is_reindex Ts T d :
  keys_unique d -> read_from Ts d -> (forall T0, T0 ∈ Ts -> same_content T0 T) -> distinct_paths T ->
  let scan := scan_repo T (existing_of d) in
  NoDup (NewRepoContextFile.path <$> scan.(RepoScan.upserts)) /\
  forall g,
    g ∈ reindex T <->
      (~ g.(NewRepoContextFile.path) ∈ filter (fun p => p ∉ scan.(RepoScan.seen_paths)) (RepoContextMeta.path <$> metas d) /\
       (g ∈ scan.(RepoScan.upserts) \/
        (~ g.(NewRepoContextFile.path) ∈ (NewRepoContextFile.path <$> scan.(RepoScan.upserts)) /\ indexed_as repo d g))).
Proof.
  intros Hk Hread Hsame Hdist. cbv zeta. destruct (scan_repo_spec T (existing_of d)) as [-> ->].
  assert (forall found f, to_upsert (existing_of d) found = Some f -> file_row found = Some f /\ matched (existing_of d) found = false) as Hup.
  { intros found f. unfold to_upsert. by destruct (matched _ _). }
  assert (forall f, f ∈ omap (to_upsert (existing_of d)) (collect_context_files T) ->
    exists found, found ∈ collect_context_files T /\ file_row found = Some f /\ matched (existing_of d) found = false /\
      f.(NewRepoContextFile.path) = relative_path found.1) as Hups.
  { intros f (found & Hin & Hf)%list_elem_of_omap. apply Hup in Hf as [Hf Hm]. exists found. split_and!; [done..|by apply row_path]. }
  assert (forall a b, a ∈ collect_context_files T -> b ∈ collect_context_files T -> relative_path a.1 = relative_path b.1 -> a = b) as Hinj.
  { intros a b Ha Hb Hab. by eapply (NoDup_column_inj (fun a : string * FsEntry => relative_path a.1)). }
  split; [apply rows_distinct; [|done]; intros found f [Hf _]%Hup; by apply row_path|]. intros g. split.
  - intros (found & Hin & Hrow)%list_elem_of_omap. pose proof (row_path _ _ Hrow) as Hp. split.
    { intros [Hn _]%list_elem_of_filter. apply Hn, list_elem_of_omap. exists found. split; [done|]. unfold seen_path.
      rewrite Hp. destruct (matched _ _); [done|]. rewrite Hrow. cbn. by rewrite Hp. }
    destruct (matched (existing_of d) found) eqn:Hm.
    + right. destruct (matched_row Ts T d found Hk Hread Hsame Hin Hm) as (f & Hf & Hrow'). rewrite Hrow in Hrow'.
      injection Hrow' as <-. split; [|done]. intros (u & Hu & (b & Hb & _ & Hmb & Hpb)%Hups)%list_elem_of_fmap.
      rewrite (Hinj found b) in Hm; [congruence|done|done|congruence].
    + left. apply list_elem_of_omap. exists found. split; [done|]. unfold to_upsert. by rewrite Hm.
  - intros [Hdel [(found & Hin & Hrow & _)%Hups|[Hnew Hold]]]; [apply list_elem_of_omap; by exists found|].
    destruct Hold as (r & Hr & Hrepo & Hc).
    assert (g.(NewRepoContextFile.path) ∈ omap (seen_path (existing_of d)) (collect_context_files T)) as (found & Hin & Hs)%list_elem_of_omap.
    { destruct (decide (NewRepoContextFile.path g ∈ omap (seen_path (existing_of d)) (collect_context_files T))) as [?|Hns]; [done|].
      destruct Hdel. apply list_elem_of_filter. split; [done|]. unfold metas. rewrite <- list_fmap_compose.
      apply list_elem_of_fmap. exists r. split; [by rewrite <- Hc|]. by apply list_elem_of_filter. }
    unfold seen_path in Hs. destruct (matched (existing_of d) found) eqn:Hm.
    + injection Hs as Hs. destruct (matched_row Ts T d found Hk Hread Hsame Hin Hm) as (f & (r' & Hr' & Hrepo' & Hc') & Hrow).
      assert (r = r') as ->; [|rewrite Hc in Hc'; subst f; apply list_elem_of_omap; by exists found].
      apply (same_key_same_row d); [done..|]. unfold file_key. rewrite Hrepo, Hrepo'. f_equal.
      apply row_path in Hrow. rewrite Hs in Hrow. subst. cbn in *. by rewrite Hrow.
    + destruct (file_row found) as [f|] eqn:Hrow; [|done]. cbn in Hs. injection Hs as Hs. destruct Hnew. rewrite <- Hs.
      apply list_elem_of_fmap. exists f. split; [done|]. apply list_elem_of_omap. exists found. split; [done|].
      unfold to_upsert. by rewrite Hm.
Qed.

(** ** A history of refreshes *)

Definition refresh_all (d : IndexDb) (steps : list (Z * (nat -> string) * RepoView.t)) : IndexDb :=
  foldl (fun d '(ts, ids, w) => final (refresh_repo_index ts ids repo w) d) d steps.

Definition quiet_scan (d : IndexDb) (w : RepoView.t) : bool :=
  let scan := scan_repo w.(RepoView.tree) (existing_of d) in
  bool_decide (scan.(RepoScan.upserts) = []) &&
  bool_decide (filter (fun p => p ∉ scan.(RepoScan.seen_paths)) (RepoContextMeta.path <$> metas d) = []) &&
  negb (bool_decide (is_Some (read_git_state w))) &&
  bool_decide (is_Some (find (fun w => eq_str w.(RepoIndexState.repo_id) repo) d.(walks))).

Lemma refresh_unfold ts ids w d :
  refresh_repo_index ts ids repo w d =
  if fast_path ts (find (fun w => eq_str w.(RepoIndexState.repo_id) repo) d.(walks)) (read_git_state w) then (d, Ok ())
  else if quiet_scan d w then (d, Ok ())
  else let scan := scan_repo w.(RepoView.tree) (existing_of d) in
       apply_repo_context_changes ts ids repo scan.(RepoScan.upserts)
         (filter (fun p => p ∉ scan.(RepoScan.seen_paths)) (RepoContextMeta.path <$> metas d))
         (GitState.head_commit <$> read_git_state w) (GitState.dirty_digest <$> read_git_state w) scan.(RepoScan.file_count) d.
Proof.
  unfold refresh_repo_index. rewrite M_bind_unfold. cbn [get_repo_index_state gets]. destruct (fast_path _ _ _); [done|].
  rewrite M_bind_unfold. unfold list_repo_context_meta. cbn [gets]. fold (metas d). fold (existing_of d).
  unfold quiet_scan. by destruct (_ && _ && _ && _).
Qed.

Lemma scanned_rows T d f : f ∈ (scan_repo T (existing_of d)).(RepoScan.upserts) -> f ∈ reindex T.
Proof.
  rewrite (proj1 (scan_repo_spec T _)). unfold reindex. rewrite !list_elem_of_omap. intros (found & Hin & Hf). exists found.
  split; [done|]. unfold to_upsert in Hf. by destruct (matched _ _).
Qed.

(** A step leaves rows of the trees that were seen. *)
Lemma refresh_reads Ts ts ids w d :
  keys_unique d -> read_from Ts d ->
  let d' := final (refresh_repo_index ts ids repo w) d in keys_unique d' /\ read_from (w.(RepoView.tree) :: Ts) d'.
Proof.
  intros Hk Hread. assert (keys_unique d /\ read_from (w.(RepoView.tree) :: Ts) d) as Hsame.
  { split; [done|]. intros f (T & found & HT & Hrest)%Hread. exists T, found. split; [by right|done]. }
  cbv zeta. unfold final. rewrite refresh_unfold. destruct (fast_path _ _ _); [done|]. destruct (quiet_scan d w); [done|]. cbv zeta.
  unfold apply_repo_context_changes, in_transaction.
  match goal with |- context [match ?m d with _ => _ end] => destruct (m d) as [d3 [u|e]] eqn:Hm end; [|done].
  apply bind_inv in Hm as (d1 & u1 & H1 & (d2 & u2 & H2 & H3)%bind_inv).
  destruct (upserts_add repo ts _ d d1 u1 Hk H1) as [Hk1 Hx1].
  match type of H2 with for_each (delete_context_file repo) ?D _ = _ => destruct (deletes_spec repo D d1 Hk1) as (d2' & Hd2 & Hk2 & _ & _ & Hx2) end.
  rewrite Hd2 in H2. injection H2 as <- _. cbn [fst]. unfold record_walk in H3.
  apply bind_inv in H3 as (? & ? & [= <- <-] & (? & ? & [-> _]%fail_when_inv & H3)%bind_inv). injection H3 as <- _.
  split; [done|]. intros f Hf. assert (indexed_as repo d1 f) as [Hin|Hold]%Hx1 by (apply Hx2; exact Hf).
  - assert (f ∈ reindex (RepoView.tree w)) as (found & Hfound & Hrow)%list_elem_of_omap.
    { apply (scanned_rows _ d). apply list_elem_of_fmap in Hin as ([i f'] & -> & Hin). apply list_elem_of_lookup in Hin as [k Hin].
      rewrite list_lookup_imap in Hin. apply fmap_Some in Hin as (f'' & Hk'' & [= -> ->]). by apply list_elem_of_lookup_2 in Hk''. }
    exists (RepoView.tree w), found. split; [by left|done].
  - destruct (Hread _ Hold) as (T & found & HT & Hrest). exists T, found. split; [by right|done].
Qed.

Lemma history_reads Ts d steps :
  keys_unique d -> read_from Ts d ->
  keys_unique (refresh_all d steps) /\
  read_from (reverse ((fun s => s.2.(RepoView.tree)) <$> steps) ++ Ts) (refresh_all d steps).
Proof.
  revert Ts d. induction steps as [|[[ts ids] w] steps IH]; intros Ts d Hk Hread; [done|].
  cbn [refresh_all foldl]. destruct (refresh_reads Ts ts ids w d Hk Hread) as [Hk' Hread'].
  destruct (IH _ _ Hk' Hread') as [Hk'' Hread'']. split; [done|].
  rewrite fmap_cons, reverse_cons, <- app_assoc. exact Hread''.
Qed.

(** C4: the incremental index is the full index.  After any history of refreshes of
    a repository, whether they walked, were skipped or failed, a refresh that is not
    skipped on git's word succeeds and leaves exactly the rows that indexing the tree
    from scratch gives, and every other repository's rows as they were; all it needs
    is that a file with the size and time of an earlier reading has its content. *)
Theorem incremental_is_reindex d steps ts ids w :
  keys_unique d -> (forall f, ~ indexed_as repo d f) ->
  (forall s, s ∈ steps -> same_content s.2.(RepoView.tree) w.(RepoView.tree)) -> distinct_paths w.(RepoView.tree) ->
  let d' := refresh_all d steps in
  repo ∈ d'.(index_repos) -> fresh_ids ids d' ->
  fast_path ts (find (fun w => eq_str w.(RepoIndexState.repo_id) repo) d'.(walks)) (read_git_state w) = false ->
  exists d'', refresh_repo_index ts ids repo w d' = (d'', Ok ()) /\
    (forall f, indexed_as repo d'' f <-> f ∈ (scan_repo w.(RepoView.tree) ∅).(RepoScan.upserts)) /\
    of_others repo d'' = of_others repo d'.
Proof.
  intros Hk Hempty Hsame Hdist. cbv zeta. intros Hrepo Hids Hfast.
  destruct (history_reads [] d steps Hk) as [Hk' Hread]; [by intros f Hf%Hempty|].
  rewrite app_nil_r in Hread. rewrite refresh_unfold, Hfast, reindex_is_cold_scan.
  destruct (walk_is_reindex _ (RepoView.tree w) _ Hk' Hread) as [Hnd Hx]; [|done|].
  { intros T0. rewrite elem_of_reverse. intros (s & -> & Hs)%list_elem_of_fmap. by apply Hsame. }
  destruct (quiet_scan _ w) eqn:Hq.
  - exists (refresh_all d steps). split; [done|]. split; [|done]. intros f. rewrite Hx.
    unfold quiet_scan in Hq. rewrite !andb_true_iff, !bool_decide_eq_true in Hq. destruct Hq as [[[-> ->] _] _].
    split; [|by intros [_ [?%elem_of_nil|[_ ?]]]]. intros Hi. split; [by intros ?%elem_of_nil|]. right.
    split; [by intros ?%elem_of_nil|done].
  - cbv zeta. destruct (apply_spec ts ids (scan_repo (RepoView.tree w) (existing_of (refresh_all d steps))).(RepoScan.upserts)
      (filter (fun p => p ∉ (scan_repo (RepoView.tree w) (existing_of (refresh_all d steps))).(RepoScan.seen_paths)) (RepoContextMeta.path <$> metas (refresh_all d steps)))
      (GitState.head_commit <$> read_git_state w) (GitState.dirty_digest <$> read_git_state w)
      (scan_repo (RepoView.tree w) (existing_of (refresh_all d steps))).(RepoScan.file_count) (refresh_all d steps))
      as (d'' & Hd & Ho & Hx''); [done..|].
    exists d''. split; [exact Hd|]. split; [|done]. intros f. rewrite Hx''. symmetry. apply Hx.
Qed.

(** While git says the same, nothing is read for ten minutes, whatever the files
    hold: a second edit of a file that is already modified changes no line of
    [git status --porcelain]. *)
Lemma same_status_skips ts ids w d state git :
  find (fun w => eq_str w.(RepoIndexState.repo_id) repo) d.(walks) = Some state -> read_git_state w = Some git ->
  state.(RepoIndexState.head_commit) = Some git.(GitState.head_commit) ->
  state.(RepoIndexState.dirty_digest) = Some git.(GitState.dirty_digest) ->
  ts - state.(RepoIndexState.last_walk_at) < 600000 ->
  forall tree, refresh_repo_index ts ids repo (RepoView.mk tree w.(RepoView.git_output)) d = (d, Ok ()).
Proof.
  intros Hs Hg Hh Hd Ht tree. rewrite refresh_unfold, Hs.
  change (read_git_state (RepoView.mk tree w.(RepoView.git_output))) with (read_git_state w). rewrite Hg.
  unfold fast_path. rewrite !bool_decide_true by done. cbn.
  replace (_ <? _) with true; [done|]. symmetry. apply Z.ltb_lt. unfold GIT_FAST_PATH_MAX_AGE_SECS.
  destruct (Z.le_gt_cases 0 (ts - RepoIndexState.last_walk_at state)).
  - rewrite Z.quot_div_nonneg by lia. apply Z.div_lt_upper_bound; lia.
  - pose proof (Z.quot_opp_l (- (ts - RepoIndexState.last_walk_at state)) 1000 ltac:(lia)) as Hq. rewrite Z.opp_involutive in Hq.
    rewrite Hq. pose proof (Z.quot_pos (- (ts - RepoIndexState.last_walk_at state)) 1000). lia.
Qed.
End Scan.

(** ** A repository that gains a file *)

#[local] Instance demo_table : CharTable := {|
  is_alphanumeric c := match c with String a EmptyString => is_ascii_alphanumeric a | _ => false end;
  str_lowercase s := s;
  from_utf8_lossy s := s
|}.
#[local] Instance demo_symbols : TextSerde (list string) := {| to_text := String.concat ","; from_text := fun _ => Ok [] |}.
Definition demo_file (time : Z) (text : string) : FsEntry :=
  FsFile (Some (FileMeta.mk (len text) (Some time))) (Some text).
Definition demo_tree (more : list (string * FsEntry)) : FsEntry :=
  FsDir (Some [(".git", FsDir None); ("src", FsDir (Some (("main.rs", demo_file 1 "fn main() {}") :: more)))]).
Definition demo_view (more : list (string * FsEntry)) : RepoView.t := RepoView.mk (demo_tree more) (fun _ => None).
Definition demo_index : IndexDb := mkIndex {["r"]} [] [].
Definition demo_step : Z * (nat -> string) * RepoView.t := (5, (fun i => "old" +:+ pretty i), demo_view []).
Definition demo_ids (i : nat) : string := "new" +:+ pretty i.

Lemma demo_fresh : fresh_ids demo_ids (refresh_all "r" demo_index [demo_step]).
Proof.
  split; [by intros i j ?%(inj (String.append "new"))%(inj pretty)|].
  intros i. assert ((RepoContextFile.id <$> (refresh_all "r" demo_index [demo_step]).(files)) = ["old0"]) as -> by (vm_compute; reflexivity).
  unfold demo_ids. intros Hi%list_elem_of_singleton. by destruct (pretty i).
Qed.

Lemma demo_same_content : same_content (demo_tree []) (demo_tree [("lib.rs", demo_file 7 "pub fn add() {}")]).
Proof.
  assert (collect_context_files (demo_tree []) = [("src/main.rs", demo_file 1 "fn main() {}")]) as H0 by (vm_compute; reflexivity).
  assert (collect_context_files (demo_tree [("lib.rs", demo_file 7 "pub fn add() {}")]) =
    [("src/main.rs", demo_file 1 "fn main() {}"); ("src/lib.rs", demo_file 7 "pub fn add() {}")]) as H1 by (vm_compute; reflexivity).
  intros p0 m0 c0 p m c. rewrite H0, H1. intros [= -> -> ->]%list_elem_of_singleton [[= -> -> ->]|[= -> -> ->]%list_elem_of_singleton]%elem_of_cons; [done|].
  intros Hp. vm_compute in Hp. done.
Qed.

Lemma incremental_is_reindex_witness :
  exists d'', refresh_repo_index 9 demo_ids "r" (demo_view [("lib.rs", demo_file 7 "pub fn add() {}")])
      (refresh_all "r" demo_index [demo_step]) = (d'', Ok ()) /\
    (RepoContextFile.path <$> d''.(files)) = ["src/main.rs"; "src/lib.rs"].
Proof.
  edestruct (incremental_is_reindex "r" demo_index [demo_step] 9 demo_ids (demo_view [("lib.rs", demo_file 7 "pub fn add() {}")]))
    as (d'' & Hd & _); [apply NoDup_nil_2| | | |vm_compute; reflexivity|exact demo_fresh|vm_compute; reflexivity|].
  - by intros f (r & ?%elem_of_nil & _).
  - intros s ->%list_elem_of_singleton. exact demo_same_content.
  - apply (bool_decide_unpack _). vm_compute. exact I.
  - exists d''. split; [exact Hd|]. vm_compute in Hd. injection Hd as <-. vm_compute. reflexivity.
Defined.
