(* ===== verification/ContextScoring.v ===== *)
(** * Ranking the files of a context packet (crates/am-core/src/context_scoring.rs)

    BM25 over the candidates, in the doubles of the code, with boosts for the
    files of completed prerequisites, fresh rows and paths named in the title.
    The natural logarithm is a parameter, and so is the order in which a hash map
    of terms is walked, since a sum of doubles depends on it.  However they answer,
    the ranking is a permutation of the candidates, best first, and no score is
    above the cap or not a number. *)
From Stdlib Require Import Ascii String SpecFloat Sorted.
From stdpp Require Import gmap strings.
From S2P Require Import Prelude RustStr Json Enums Records Doubles Layout ContextIndex GitText ProviderText.
#[local] Open Scope string_scope.
#[local] Open Scope Z_scope.

(** The binary64 values of the literals. *)
Definition f64_1 : f64 := S754_finite false 4503599627370496 (-52).
Definition f64_0_5 : f64 := S754_finite false 4503599627370496 (-53).
Definition BM25_K1 : f64 := S754_finite false 5404319552844595 (-52).
Definition BM25_B : f64 := S754_finite false 6755399441055744 (-53).
Definition SCORE_FLOOR : f64 := S754_finite false 8106479329266893 (-54).
Definition SCORE_SPAN : f64 := S754_finite false 8106479329266893 (-54).
Definition DEPENDENCY_BOOST : f64 := S754_finite false 7205759403792794 (-55).
Definition RECENCY_BOOST : f64 := S754_finite false 7205759403792794 (-57).
Definition PATH_TITLE_BOOST : f64 := S754_finite false 7205759403792794 (-56).
Definition SCORE_CAP : f64 := S754_finite false 8827055269646172 (-53).
Definition f64_0_07 : f64 := S754_finite false 5044031582654956 (-56).
Definition RECENCY_WINDOW_SECS : Z := 3600.

(** [f64::min]: a NaN operand is ignored. *)
Definition f64_min (x y : f64) : f64 :=
  match x, y with
  | S754_nan, _ => y
  | _, S754_nan => x
  | _, _ => if SFltb y x then y else x
  end.

Record ScoreBoosts := mkBoosts { dependency_paths : gset string }.

(** [b.partial_cmp(&a)] does not put [b] before [a]. *)
Definition ranks_before {A} (a b : f64 * A) : bool :=
  match SFcompare b.1 a.1 with Some Gt => false | _ => true end.

Section Scoring.
Context `{CharTable} (ln : f64 -> f64) (terms_of : gmap string f64 -> list (string * f64)) (iter : gset string -> list string).

Definition tokenize (text : string) : list string :=
  str_lowercase <$> filter (fun token => (3 <=? String.length token)%nat = true) (split_chars (fun c => negb (is_alphanumeric c)) text).

(** [*map.entry(token).or_insert(0.0) += weight]. *)
Definition add_term (weight : f64) (m : gmap string f64) (token : string) : gmap string f64 :=
  <[token := f64_add (default f64_zero (m !! token)) weight]> m.

Definition query_terms (title : string) (description : option string) : gmap string f64 :=
  let m := foldl (add_term f64_1) ∅ (tokenize title) in
  match description with
  | Some description => foldl (add_term f64_0_5) m (take 24 (tokenize description))
  | None => m
  end.

Definition doc_tokens (file : RepoContextFile.t) : list string :=
  (tokenize file.(RepoContextFile.path) ++ tokenize file.(RepoContextFile.summary) ++
   tokenize file.(RepoContextFile.symbols_json))%list.

Definition count_query_term (query : gmap string f64) (m : gmap string f64) (term : string) : gmap string f64 :=
  if bool_decide (is_Some (query !! term)) then add_term f64_1 m term else m.
Definition doc_freq (query : gmap string f64) (docs : list (list string)) : gmap string f64 :=
  foldl (fun m doc => foldl (count_query_term query) m (iter (list_to_set doc))) ∅ docs.

(** [usize as f64]. *)
Definition f64_of_len {A} (l : list A) : f64 := f64_of_int (Z.of_nat (length l)).

Definition term_score (doc_count avg_len : f64) (freq tf : gmap string f64) (doc_len : f64) (query : string * f64) : f64 :=
  let '(term, weight) := query in
  match tf !! term with
  | None => f64_zero
  | Some tf =>
      let df := default f64_zero (freq !! term) in
      let idf := ln (f64_add (f64_div (f64_add (f64_sub doc_count df) f64_0_5) (f64_add df f64_0_5)) f64_1) in
      let norm := f64_div (f64_mul tf (f64_add BM25_K1 f64_1))
        (f64_add tf (f64_mul BM25_K1
           (f64_add (f64_sub f64_1 BM25_B) (f64_div (f64_mul BM25_B doc_len) avg_len)))) in
      f64_mul (f64_mul weight idf) norm
  end.

(** The sum of no terms is a zero, whose sign nothing below depends on. *)
Definition bm25_score (query : gmap string f64) (doc_count avg_len : f64) (freq : gmap string f64) (doc : list string) : f64 :=
  let tf := foldl (count_query_term query) ∅ doc in
  foldl f64_add f64_zero (term_score doc_count avg_len freq tf (f64_of_len doc) <$> terms_of query).

Definition path_matches_dependency (path : string) (deps : gset string) : bool :=
  existsb (fun dep => String.eqb dep path || ends_with path dep || ends_with dep path) (iter deps).

Definition path_segment_matches (path : string) (title_tokens : gset string) : bool :=
  existsb (fun segment => bool_decide (str_lowercase segment ∈ title_tokens))
    (split_where (fun c => Ascii.eqb c "/" || Ascii.eqb c ".")%char path).

Definition file_score (now : Z) (boosts : ScoreBoosts) (title_tokens : gset string) (max_bm25 : f64)
  (file : RepoContextFile.t) (bm25 : f64) : f64 :=
  let text_score := if SFltb f64_zero max_bm25
                    then f64_add SCORE_FLOOR (f64_mul SCORE_SPAN (f64_div bm25 max_bm25))
                    else f64_add SCORE_FLOOR f64_0_07 in
  let score := if path_matches_dependency file.(RepoContextFile.path) boosts.(dependency_paths)
               then f64_add text_score DEPENDENCY_BOOST else text_score in
  let score := if Z.quot (now - file.(RepoContextFile.indexed_at)) 1000 <? RECENCY_WINDOW_SECS
               then f64_add score RECENCY_BOOST else score in
  let score := if path_segment_matches file.(RepoContextFile.path) title_tokens
               then f64_add score PATH_TITLE_BOOST else score in
  f64_min score SCORE_CAP.

Definition rank_context_files (title : string) (description : option string) (files : list RepoContextFile.t)
  (boosts : ScoreBoosts) (now : Z) : list (f64 * RepoContextFile.t) :=
  let query := query_terms title description in
  let docs := doc_tokens <$> files in
  let doc_count := f64_of_int (Z.max (Z.of_nat (length docs)) 1) in
  let avg_len := f64_max (f64_div (f64_of_int (Z.of_nat (sum_list (length <$> docs)))) doc_count) f64_1 in
  let scores := bm25_score query doc_count avg_len (doc_freq query docs) <$> docs in
  let max_bm25 := foldl f64_max f64_zero scores in
  let title_tokens := list_to_set (tokenize title) in
  sort_by ranks_before
    (zip_with (fun file bm25 => (file_score now boosts title_tokens max_bm25 file bm25, file)) files scores).

(** ** The order *)

Lemma f64_min_cap x : is_number (f64_min x SCORE_CAP) /\ SFleb (f64_min x SCORE_CAP) SCORE_CAP = true.
Proof.
  assert (is_number SCORE_CAP) as Hcap by done. assert (x = S754_nan \/ is_number x) as [->|Hx] by (destruct x; [right|right|left|right]; done).
  { by vm_compute. }
  assert (f64_min x SCORE_CAP = if SFltb SCORE_CAP x then SCORE_CAP else x) as -> by (by destruct x).
  destruct (SFltb SCORE_CAP x) eqn:Hlt; [split; [done|by apply SFleb_refl]|]. split; [done|].
  rewrite SFltb_negb in Hlt by done. by apply negb_false_iff.
Qed.

Definition number_score {A} (a : f64 * A) : Prop := is_number a.1.

Lemma ranks_before_le {A} (a b : f64 * A) : number_score a -> number_score b -> ranks_before a b = SFleb b.1 a.1.
Proof.
  unfold number_score, ranks_before, SFleb. destruct a as [x ?], b as [y ?]. cbn. intros Hx Hy.
  destruct (SFcompare y x) as [[]|] eqn:Hc; try done. unfold is_number in *.
  exfalso.
  destruct x as [[]|[]| |[] mx ex], y as [[]|[]| |[] my ey]; cbn in Hc; try done; destruct (ey ?= ex); done.
Qed.

(** Sorting by a comparison that is a preorder on the elements at hand. *)
Lemma sort_by_sorted_on {A} (leb : A -> A -> bool) (P : A -> Prop) l :
  (forall a b, P a -> P b -> leb a b = true \/ leb b a = true) ->
  (forall a b c, P a -> P b -> P c -> leb a b = true -> leb b c = true -> leb a c = true) ->
  Forall P l -> StronglySorted (le_of leb) (sort_by leb l).
Proof.
  intros Htot Htr. assert (forall a l, P a -> Forall P l -> StronglySorted (le_of leb) l -> StronglySorted (le_of leb) (insert_by leb a l)) as Hins.
  { intros a k Ha Hk. induction k as [|b k IH]; cbn; [by constructor|]. inversion_clear Hk as [|? ? Hb Hk']. intros Hs.
    inversion_clear Hs as [|? ? Hs' Hall]. destruct (leb a b) eqn:Hab.
    - constructor; [by constructor|]. constructor; [done|]. rewrite Forall_forall in Hall, Hk' |- *. intros c Hc.
      apply (Htr a b c); [done|done|by apply Hk'|done|by apply Hall].
    - constructor; [by apply IH|]. rewrite insert_by_perm. constructor; [|done]. unfold le_of.
      destruct (Htot a b Ha Hb) as [Hx|Hx]; [congruence|done]. }
  induction 1 as [|a l Ha Hl IH]; cbn; [constructor|]. apply Hins; [done| |done].
  change (Forall P (sort_by leb l)). by rewrite sort_by_perm.
Qed.

Lemma scores_capped now boosts tokens max fs xs :
  Forall (fun a => is_number a.1 /\ SFleb a.1 SCORE_CAP = true)
    (zip_with (fun file bm25 => (file_score now boosts tokens max file bm25, file)) fs xs).
Proof. revert xs. induction fs as [|file fs IH]; intros [|x xs]; cbn; constructor; [apply f64_min_cap|apply IH]. Qed.

Lemma scored_files now boosts tokens max fs xs : length xs = length fs ->
  (zip_with (fun file bm25 => (file_score now boosts tokens max file bm25, file)) fs xs).*2 = fs.
Proof. revert xs. induction fs as [|file fs IH]; intros [|x xs]; cbn; try done. intros [= Hl]. f_equal. by apply IH. Qed.

(** The ranking is sound whatever the logarithm and the order of the terms give:
    it has every candidate once, best first, and every score is a number no greater
    than the cap, so no candidate is lost, duplicated or placed above the score of
    the current work item. *)
Lemma ranking_sound title description files boosts now :
  let ranked := rank_context_files title description files boosts now in
  ranked.*2 ≡ₚ files /\
  Forall (fun a => is_number a.1 /\ SFleb a.1 SCORE_CAP = true) ranked /\
  StronglySorted (fun a b => SFleb b.1 a.1 = true) ranked.
Proof.
  cbv zeta. unfold rank_context_files.
  set (scores := bm25_score _ _ _ _ <$> _). set (max := foldl f64_max f64_zero scores).
  set (tokens := list_to_set (tokenize title)).
  set (l := zip_with _ files scores).
  assert (Forall (fun a => is_number a.1 /\ SFleb a.1 SCORE_CAP = true) l) as Hl.
  { apply scores_capped. }
  assert (length scores = length files) as Hlen by (unfold scores; by rewrite !length_fmap).
  split; [|split].
  - rewrite sort_by_perm. unfold l. by rewrite scored_files.
  - by rewrite sort_by_perm.
  - assert (forall a b : f64 * RepoContextFile.t, is_number a.1 -> is_number b.1 -> ranks_before a b = SFleb b.1 a.1) as Hle
      by (intros; by apply ranks_before_le).
    pose proof (sort_by_sorted_on (A:=f64 * RepoContextFile.t) ranks_before (fun a => is_number a.1) l) as Hs.
    assert (StronglySorted (le_of ranks_before) (sort_by ranks_before l)) as Hsorted.
    { apply Hs.
      - intros a b Ha Hb. rewrite !Hle by done. destruct (SFleb b.1 a.1) eqn:Hab; [by left|right].
        rewrite <- negb_true_iff, <- SFltb_negb in Hab by done. by apply SFltb_le.
      - intros a b c Ha Hb Hc. rewrite !Hle by done. intros H1 H2. by eapply SFleb_trans.
      - eapply Forall_impl; [exact Hl|]. by intros a [? _]. }
    assert (Forall (fun a => is_number a.1) (sort_by ranks_before l)) as Hnum.
    { rewrite sort_by_perm. eapply Forall_impl; [exact Hl|]. by intros a [? _]. }
    induction Hsorted as [|a k Hsk IH Hk]; [constructor|]. inversion_clear Hnum as [|? ? Ha Hkn]. constructor; [by apply IH|].
    rewrite Forall_forall in Hk, Hkn |- *. intros b Hb. rewrite <- Hle by auto. by apply Hk.
Qed.
End Scoring.
