(* ===== verification/Knowledge.v ===== *)
(** * Knowledge, memory and the search index

    The documents and notes of a project (crates/am-db/src/repos/knowledge.rs,
    memory.rs), the search over them (search.rs) and the commands of
    crates/am-core/src/lib.rs.  The triggers of the schema
    (migrations/0004_search.sql) keep the full-text index: [index] has its entries
    for documents and notes.  The matching itself is SQLite's FTS5, class [Fts]. *)
From Stdlib Require Import Ascii String.
From stdpp Require Import gmap strings.
From S2P Require Import Prelude RustStr Json Enums Records WorkGraphDb WorkGraphInv WorkPlan ProviderText ContextIndex.
#[local] Open Scope string_scope.
#[local] Open Scope Z_scope.

(** ** Data (am-proto/src/knowledge.rs, memory.rs, search.rs) *)

Module KnowledgeDoc.
Record t := mk { id : string; project_id : string; title : string; body : string; created_at : Z; updated_at : Z }.
End KnowledgeDoc.
Module NewKnowledgeDoc.
Record t := mk { project_id : string; title : string; body : string }.
End NewKnowledgeDoc.
Module KnowledgeDocUpdate.
Record t := mk { title : option string; body : option string }.
End KnowledgeDocUpdate.

Module MemoryNote.
Record t := mk { id : string; project_id : string; task_id : option string; body : string; created_at : Z; updated_at : Z }.
End MemoryNote.
Module NewMemoryNote.
Record t := mk { project_id : string; task_id : option string; body : string }.
End NewMemoryNote.
Module MemoryNoteUpdate.
Record t := mk { body : option string }.
End MemoryNoteUpdate.

Module SearchHit.
Record t := mk {
  kind : string;
  entity_id : string;
  project_id : option string;
  task_id : option string;
  title : string;
  snippet : string
}.
End SearchHit.

(** A row of search_index. *)
Module SearchEntry.
Record t := mk {
  title : string;
  body : string;
  kind : string;
  entity_id : string;
  project_id : string;
  task_id : option string
}.
End SearchEntry.
#[global] Instance SearchEntry_eq_dec : EqDecision SearchEntry.t.
Proof. solve_decision. Defined.

Record Know := mkKnow {
  know_projects : gset string;
  know_tasks : gmap string string; (* the project of each task *)
  docs : list KnowledgeDoc.t;
  notes : list MemoryNote.t;
  index : list SearchEntry.t;
  activity : list string
}.
Definition set_docs (v : list KnowledgeDoc.t) (i : list SearchEntry.t) (k : Know) : Know :=
  mkKnow k.(know_projects) k.(know_tasks) v k.(notes) i k.(activity).
Definition set_notes (v : list MemoryNote.t) (i : list SearchEntry.t) (k : Know) : Know :=
  mkKnow k.(know_projects) k.(know_tasks) k.(docs) v i k.(activity).
Abbreviation KnowDbM := (M Know DbError).
Abbreviation KnowM := (M Know CoreError).

(** ** The triggers *)

Definition doc_entry (d : KnowledgeDoc.t) : SearchEntry.t :=
  SearchEntry.mk d.(KnowledgeDoc.title) d.(KnowledgeDoc.body) "doc" d.(KnowledgeDoc.id) d.(KnowledgeDoc.project_id) None.
Definition note_entry (n : MemoryNote.t) : SearchEntry.t :=
  SearchEntry.mk EmptyString n.(MemoryNote.body) "memory" n.(MemoryNote.id) n.(MemoryNote.project_id) n.(MemoryNote.task_id).

(** [DELETE FROM search_index WHERE kind = .. AND entity_id = old.id]. *)
Definition unindex (kind id : string) (l : list SearchEntry.t) : list SearchEntry.t :=
  filter (fun e => ~ (e.(SearchEntry.kind) = kind /\ e.(SearchEntry.entity_id) = id)) l.

(** The triggers of an update and of a deletion of the rows of one kind that
    satisfy [p]. *)
Definition on_update {R} (kind : string) (key : R -> string) (entry : R -> SearchEntry.t) (p : R -> bool) (f : R -> R)
  (rows : list R) (l : list SearchEntry.t) : list SearchEntry.t :=
  foldl (fun l r => if p r then unindex kind (key r) l ++ [entry (f r)] else l)%list l rows.
Definition on_delete {R} (kind : string) (key : R -> string) (p : R -> bool) (rows : list R) (l : list SearchEntry.t) :
  list SearchEntry.t :=
  foldl (fun l r => if p r then unindex kind (key r) l else l) l rows.

(** ** Documents (knowledge.rs) *)

Definition doc_by_id (id : string) (d : KnowledgeDoc.t) : bool := eq_str d.(KnowledgeDoc.id) id.
Definition note_by_id (id : string) (n : MemoryNote.t) : bool := eq_str n.(MemoryNote.id) id.

Module Doc.
Definition create (ts : Z) (id : string) (input : NewKnowledgeDoc.t) : KnowDbM KnowledgeDoc.t :=
  let doc := KnowledgeDoc.mk id input.(NewKnowledgeDoc.project_id) input.(NewKnowledgeDoc.title) input.(NewKnowledgeDoc.body) ts ts in
  k ← get;
  _ ← fail_when (existsb (doc_by_id id) k.(docs) ||
        negb (bool_decide (input.(NewKnowledgeDoc.project_id) ∈ k.(know_projects)))) Sqlx;
  _ ← modify (fun k => set_docs (k.(docs) ++ [doc]) (k.(index) ++ [doc_entry doc]) k);
  mret doc.

Definition list_for_project (project_id : string) : KnowDbM (list KnowledgeDoc.t) :=
  gets (fun k => sort_by (fun a b => b.(KnowledgeDoc.updated_at) <=? a.(KnowledgeDoc.updated_at))
    (filter (fun d => d.(KnowledgeDoc.project_id) = project_id) k.(docs))).

Definition get (id : string) : KnowDbM (option KnowledgeDoc.t) := gets (fun k => find (doc_by_id id) k.(docs)).

Definition update (ts : Z) (id : string) (patch : KnowledgeDocUpdate.t) : KnowDbM KnowledgeDoc.t :=
  o ← get id;
  doc ← lift_opt o DbNotFound;
  let title := default doc.(KnowledgeDoc.title) patch.(KnowledgeDocUpdate.title) in
  let body := default doc.(KnowledgeDoc.body) patch.(KnowledgeDocUpdate.body) in
  let write d := KnowledgeDoc.mk d.(KnowledgeDoc.id) d.(KnowledgeDoc.project_id) title body d.(KnowledgeDoc.created_at) ts in
  _ ← modify (fun k => set_docs (update_where (doc_by_id id) write k.(docs))
                        (on_update "doc" KnowledgeDoc.id doc_entry (doc_by_id id) write k.(docs) k.(index)) k);
  mret (write doc).

Definition delete_where (p : KnowledgeDoc.t -> bool) : KnowDbM () :=
  modify (fun k => set_docs (filter (fun d => p d = false) k.(docs)) (on_delete "doc" KnowledgeDoc.id p k.(docs) k.(index)) k).
Definition delete (id : string) : KnowDbM () := delete_where (doc_by_id id).
End Doc.

(** ** Notes (memory.rs) *)

Module Memory.
Definition create (ts : Z) (id : string) (input : NewMemoryNote.t) : KnowDbM MemoryNote.t :=
  let note := MemoryNote.mk id input.(NewMemoryNote.project_id) input.(NewMemoryNote.task_id) input.(NewMemoryNote.body) ts ts in
  k ← get;
  _ ← fail_when (existsb (note_by_id id) k.(notes) ||
        negb (bool_decide (input.(NewMemoryNote.project_id) ∈ k.(know_projects))) ||
        negb (is_none_or input.(NewMemoryNote.task_id) (fun t => bool_decide (is_Some (k.(know_tasks) !! t))))) Sqlx;
  _ ← modify (fun k => set_notes (k.(notes) ++ [note]) (k.(index) ++ [note_entry note]) k);
  mret note.

Definition newest (a b : MemoryNote.t) : bool := b.(MemoryNote.created_at) <=? a.(MemoryNote.created_at).
Definition list_for_project (project_id : string) : KnowDbM (list MemoryNote.t) :=
  gets (fun k => sort_by newest
    (filter (fun n => n.(MemoryNote.project_id) = project_id /\ n.(MemoryNote.task_id) = None) k.(notes))).
Definition list_for_task (task_id : string) : KnowDbM (list MemoryNote.t) :=
  gets (fun k => sort_by newest (filter (fun n => n.(MemoryNote.task_id) = Some task_id) k.(notes))).

Definition get (id : string) : KnowDbM (option MemoryNote.t) := gets (fun k => find (note_by_id id) k.(notes)).

Definition update (ts : Z) (id : string) (patch : MemoryNoteUpdate.t) : KnowDbM MemoryNote.t :=
  o ← get id;
  note ← lift_opt o DbNotFound;
  let body := default note.(MemoryNote.body) patch.(MemoryNoteUpdate.body) in
  let write n := MemoryNote.mk n.(MemoryNote.id) n.(MemoryNote.project_id) n.(MemoryNote.task_id) body n.(MemoryNote.created_at) ts in
  _ ← modify (fun k => set_notes (update_where (note_by_id id) write k.(notes))
                        (on_update "memory" MemoryNote.id note_entry (note_by_id id) write k.(notes) k.(index)) k);
  mret (write note).

Definition delete_where (p : MemoryNote.t -> bool) : KnowDbM () :=
  modify (fun k => set_notes (filter (fun n => p n = false) k.(notes)) (on_delete "memory" MemoryNote.id p k.(notes) k.(index)) k).
Definition delete (id : string) : KnowDbM () := delete_where (note_by_id id).
End Memory.

(** What the deletion of a project or a task takes with it (a project's tasks and
    their notes too); the triggers of the deleted rows run. *)
Definition cascade_project (id : string) : KnowDbM () :=
  tasks ← gets know_tasks;
  _ ← Doc.delete_where (fun d => eq_str d.(KnowledgeDoc.project_id) id);
  _ ← Memory.delete_where (fun n => eq_str n.(MemoryNote.project_id) id ||
        is_some_and n.(MemoryNote.task_id) (fun task => bool_decide (tasks !! task = Some id)));
  modify (fun k => mkKnow (k.(know_projects) ∖ {[id]}) (filter (fun t => t.2 <> id) k.(know_tasks))
                     k.(docs) k.(notes) k.(index) k.(activity)).
Definition cascade_task (id : string) : KnowDbM () :=
  _ ← Memory.delete_where (fun n => eq_opt n.(MemoryNote.task_id) id);
  modify (fun k => mkKnow k.(know_projects) (delete id k.(know_tasks)) k.(docs) k.(notes) k.(index) k.(activity)).

(** ** Search (search.rs) *)

Class Fts := { fts_match : string -> option string -> Z -> Know -> result DbError (list SearchHit.t) }.

Section Search.
Context `{CharTable}.

Definition fts_query (raw : string) : option string :=
  let terms := omap (fun word =>
    let cleaned := foldr String.append EmptyString (filter (fun c => is_alphanumeric c = true) (chars word)) in
    if is_empty cleaned then None else Some (cleaned +:+ "*")) (words raw) in
  match terms with [] => None | _ => Some (String.concat " " terms) end.

Definition search `{Fts} (query : string) (project_id : option string) (limit : Z) : KnowDbM (list SearchHit.t) :=
  match fts_query query with
  | None => mret []
  | Some match_query => fun k => (k, fts_match match_query project_id limit k)
  end.
End Search.

(** ** The commands (am-core/src/lib.rs) *)

Definition of_know {A} (m : KnowDbM A) : KnowM A := fun k =>
  match m k with (k', Ok a) => (k', Ok a) | (k', Err e) => (k', Err (Records.Db e)) end.
Definition note_activity (what : string) : KnowM () :=
  modify (fun k => mkKnow k.(know_projects) k.(know_tasks) k.(docs) k.(notes) k.(index) (k.(activity) ++ [what])).

Definition create_knowledge_doc (ts : Z) (id : string) (input : NewKnowledgeDoc.t) : KnowM KnowledgeDoc.t :=
  doc ← of_know (Doc.create ts id input);
  _ ← note_activity "knowledge.created";
  mret doc.
Definition update_knowledge_doc (ts : Z) (id : string) (patch : KnowledgeDocUpdate.t) : KnowM KnowledgeDoc.t :=
  doc ← of_know (Doc.update ts id patch);
  _ ← note_activity "knowledge.updated";
  mret doc.
Definition delete_knowledge_doc (id : string) : KnowM () :=
  doc ← of_know (Doc.get id);
  _ ← of_know (Doc.delete id);
  match doc with Some _ => note_activity "knowledge.deleted" | None => mret () end.
Definition create_memory_note (ts : Z) (id : string) (input : NewMemoryNote.t) : KnowM MemoryNote.t :=
  note ← of_know (Memory.create ts id input);
  _ ← note_activity "memory.created";
  mret note.
Definition update_memory_note (ts : Z) (id : string) (patch : MemoryNoteUpdate.t) : KnowM MemoryNote.t :=
  note ← of_know (Memory.update ts id patch);
  _ ← note_activity "memory.updated";
  mret note.
Definition delete_memory_note (id : string) : KnowM () :=
  note ← of_know (Memory.get id);
  _ ← of_know (Memory.delete id);
  match note with Some _ => note_activity "memory.deleted" | None => mret () end.

(** * The search index mirrors what it indexes

    The triggers keep one entry of each document and note in the full-text index,
    with the text the row has now, under every command and every deletion of a
    project or a task; and what a query can say to the full-text engine. *)

(** ** One kind of rows among the entries *)
Section Kind.
Context {R : Type} (kind : string) (key : R -> string) (entry : R -> SearchEntry.t).
Context (entry_kind : forall r, (entry r).(SearchEntry.kind) = kind) (entry_key : forall r, (entry r).(SearchEntry.entity_id) = key r).
Context (others : list SearchEntry.t) (Hothers : forall e, e ∈ others -> e.(SearchEntry.kind) <> kind).

Lemma unindex_others id : unindex kind id others = others.
Proof. apply filter_all. intros e He [Hk _]. by apply (Hothers e He). Qed.

Lemma unindex_perm id l l' : l ≡ₚ l' -> unindex kind id l ≡ₚ unindex kind id l'.
Proof. intros Hl. unfold unindex. by rewrite Hl. Qed.

Lemma unindex_rows id rows : id ∉ key <$> rows -> unindex kind id (entry <$> rows) = entry <$> rows.
Proof.
  intros Hid. apply filter_all. intros e (r & -> & Hr)%list_elem_of_fmap [_ Hk]. apply Hid. rewrite <- Hk, entry_key.
  apply list_elem_of_fmap. by exists r.
Qed.

Lemma unindex_app id l l' : unindex kind id (l ++ l')%list = (unindex kind id l ++ unindex kind id l')%list.
Proof. apply filter_app. Qed.
Lemma unindex_hit r l : unindex kind (key r) (entry r :: l) = unindex kind (key r) l.
Proof. unfold unindex. rewrite filter_cons_False; [done|]. intros Hn. apply Hn. by rewrite entry_kind, entry_key. Qed.

(** The entry of a row is the one its deletion takes away. *)
Lemma unindex_row l before r todo :
  NoDup (key <$> (before ++ r :: todo)%list) -> l ≡ₚ (entry <$> (before ++ r :: todo)%list) ++ others ->
  unindex kind (key r) l ≡ₚ (entry <$> (before ++ todo)%list) ++ others.
Proof.
  intros Hnd Hl. rewrite fmap_app, fmap_cons in Hnd. apply NoDup_app in Hnd as (_ & Hd & Ht). apply NoDup_cons in Ht as [Ht _].
  assert (key r ∉ key <$> before) as Hbefore by (intros Hr; apply (Hd _ Hr); by left).
  rewrite (unindex_perm _ _ _ Hl). rewrite !fmap_app, fmap_cons, !unindex_app, unindex_hit, unindex_others.
  by rewrite !unindex_rows.
Qed.

Lemma on_update_spec p f before todo l :
  (forall r, key (f r) = key r) -> NoDup (key <$> (before ++ todo)%list) -> l ≡ₚ (entry <$> (before ++ todo)%list) ++ others ->
  on_update kind key entry p f todo l ≡ₚ (entry <$> (before ++ update_where p f todo)%list) ++ others.
Proof.
  intros Hf. revert before l. induction todo as [|r todo IH]; intros before l Hnd Hl; [done|].
  cbn [on_update foldl]. fold (on_update kind key entry p f). unfold update_where. rewrite fmap_cons. fold (update_where p f todo).
  assert (forall r', key r' = key r -> NoDup (key <$> ((before ++ [r']) ++ todo)%list)) as Hnd'.
  { intros r' Hr. rewrite <- app_assoc. cbn. rewrite fmap_app, fmap_cons, Hr, <- fmap_cons, <- fmap_app. done. }
  change (r :: todo)%list with ([r] ++ todo)%list in Hl.
  destruct (p r) eqn:Hp.
  - change (?a :: ?b)%list with ([a] ++ b)%list. rewrite (app_assoc before). apply IH; [by apply Hnd'|].
    rewrite (unindex_row l before r todo Hnd Hl), <- app_assoc, !fmap_app. cbn. solve_perm.
  - change (?a :: ?b)%list with ([a] ++ b)%list. rewrite (app_assoc before). apply IH; [by apply Hnd'|]. by rewrite <- app_assoc.
Qed.

Lemma on_delete_spec p before todo l :
  NoDup (key <$> (before ++ todo)%list) -> l ≡ₚ (entry <$> (before ++ todo)%list) ++ others ->
  on_delete kind key p todo l ≡ₚ (entry <$> (before ++ filter (fun r => p r = false) todo)%list) ++ others.
Proof.
  revert before l. induction todo as [|r todo IH]; intros before l Hnd Hl; [done|].
  cbn [on_delete foldl]. fold (on_delete kind key p). rewrite filter_cons. destruct (p r) eqn:Hp.
  - rewrite decide_False by done. apply IH; [|by apply unindex_row].
    rewrite fmap_app, fmap_cons, <- Permutation_middle in Hnd. rewrite fmap_app. by apply NoDup_cons in Hnd as [_ Hnd].
  - rewrite decide_True by done. change (?a :: ?b)%list with ([a] ++ b)%list. rewrite (app_assoc before). apply IH; by rewrite <- app_assoc.
Qed.
End Kind.

(** ** The invariant *)

Record mirrored (k : Know) : Prop := {
  doc_ids : NoDup (KnowledgeDoc.id <$> k.(docs));
  note_ids : NoDup (MemoryNote.id <$> k.(notes));
  index_exact : k.(index) ≡ₚ (doc_entry <$> k.(docs)) ++ (note_entry <$> k.(notes))
}.

Lemma other_notes (l : list MemoryNote.t) e : e ∈ note_entry <$> l -> e.(SearchEntry.kind) <> "doc".
Proof. by intros (n & -> & _)%list_elem_of_fmap. Qed.
Lemma other_docs (l : list KnowledgeDoc.t) e : e ∈ doc_entry <$> l -> e.(SearchEntry.kind) <> "memory".
Proof. by intros (n & -> & _)%list_elem_of_fmap. Qed.

(** The commands, and what deletions elsewhere take along. *)
Inductive command :=
| CreateDoc (ts : Z) (id : string) (input : NewKnowledgeDoc.t)
| UpdateDoc (ts : Z) (id : string) (patch : KnowledgeDocUpdate.t)
| DeleteDoc (id : string)
| CreateNote (ts : Z) (id : string) (input : NewMemoryNote.t)
| UpdateNote (ts : Z) (id : string) (patch : MemoryNoteUpdate.t)
| DeleteNote (id : string)
| DropProject (id : string)
| DropTask (id : string).

Definition exec_know (k : Know) (c : command) : Know :=
  match c with
  | CreateDoc ts id input => final (create_knowledge_doc ts id input) k
  | UpdateDoc ts id patch => final (update_knowledge_doc ts id patch) k
  | DeleteDoc id => final (delete_knowledge_doc id) k
  | CreateNote ts id input => final (create_memory_note ts id input) k
  | UpdateNote ts id patch => final (update_memory_note ts id patch) k
  | DeleteNote id => final (delete_memory_note id) k
  | DropProject id => final (cascade_project id) k
  | DropTask id => final (cascade_task id) k
  end.

Lemma keeps_of_know {A} (m : KnowDbM A) : keeps mirrored m -> keeps mirrored (of_know m).
Proof. intros Hm k Hk. specialize (Hm k Hk). unfold final, of_know in *. by destruct (m k) as [k' [a|e]]. Qed.
Lemma keeps_activity what : keeps mirrored (note_activity what).
Proof. apply keeps_modify. intros k [? ? ?]. by split. Qed.

Lemma keeps_doc_delete p : keeps mirrored (Doc.delete_where p).
Proof.
  apply keeps_modify. intros k [Hd Hn Hi]. split; cbn; [by apply NoDup_filter_column|done|].
  apply (on_delete_spec "doc" KnowledgeDoc.id doc_entry (fun _ => eq_refl) (fun _ => eq_refl) _ (other_notes _) p []); done.
Qed.
Lemma keeps_note_delete p : keeps mirrored (Memory.delete_where p).
Proof.
  apply keeps_modify. intros k [Hd Hn Hi]. split; cbn; [done|by apply NoDup_filter_column|].
  rewrite Permutation_app_comm.
  apply (on_delete_spec "memory" MemoryNote.id note_entry (fun _ => eq_refl) (fun _ => eq_refl) _ (other_docs _) p []); [done|].
  by rewrite Hi, Permutation_app_comm.
Qed.

Lemma keeps_doc_create ts id input : keeps mirrored (Doc.create ts id input).
Proof.
  apply keeps_guarded; [|intros; apply keeps_ret]. intros k [Hd Hn Hi] Hg. rewrite orb_false_iff in Hg. destruct Hg as [Hid _].
  split; cbn; [|done|].
  - rewrite fmap_app. apply NoDup_snoc; [done|]. cbn. intros (d & Hdid & Hin)%list_elem_of_fmap. rewrite existsb_false in Hid.
    specialize (Hid d Hin). unfold doc_by_id in Hid. by rewrite (proj2 (eq_str_true _ _)) in Hid.
  - rewrite fmap_app, Hi. cbn. solve_perm.
Qed.
Lemma keeps_note_create ts id input : keeps mirrored (Memory.create ts id input).
Proof.
  apply keeps_guarded; [|intros; apply keeps_ret]. intros k [Hd Hn Hi] Hg. rewrite !orb_false_iff in Hg. destruct Hg as [[Hid _] _].
  split; cbn; [done| |].
  - rewrite fmap_app. apply NoDup_snoc; [done|]. cbn. intros (n & Hnid & Hin)%list_elem_of_fmap. rewrite existsb_false in Hid.
    specialize (Hid n Hin). unfold note_by_id in Hid. by rewrite (proj2 (eq_str_true _ _)) in Hid.
  - rewrite fmap_app, Hi, app_assoc. done.
Qed.

Lemma keeps_doc_update ts id patch : keeps mirrored (Doc.update ts id patch).
Proof.
  apply keeps_bind; [apply keeps_gets|]. intros o. apply keeps_bind; [apply keeps_lift|]. intros doc.
  apply keeps_bind; [|intros; apply keeps_ret]. apply keeps_modify. intros k [Hd Hn Hi]. split; cbn; [|done|].
  - by rewrite update_where_column.
  - apply (on_update_spec "doc" KnowledgeDoc.id doc_entry (fun _ => eq_refl) (fun _ => eq_refl) _ (other_notes _) _ _ []); done.
Qed.
Lemma keeps_note_update ts id patch : keeps mirrored (Memory.update ts id patch).
Proof.
  apply keeps_bind; [apply keeps_gets|]. intros o. apply keeps_bind; [apply keeps_lift|]. intros note.
  apply keeps_bind; [|intros; apply keeps_ret]. apply keeps_modify. intros k [Hd Hn Hi]. split; cbn; [done| |].
  - by rewrite update_where_column.
  - rewrite Permutation_app_comm.
    apply (on_update_spec "memory" MemoryNote.id note_entry (fun _ => eq_refl) (fun _ => eq_refl) _ (other_docs _) _ _ []); [done|done|].
    by rewrite Hi, Permutation_app_comm.
Qed.

Lemma mirrored_step c k : mirrored k -> mirrored (exec_know k c).
Proof.
  assert (forall m : KnowM (), keeps mirrored m -> mirrored k -> mirrored (final m k)) as Hgo by auto.
  assert (forall A (o : option A) what, keeps mirrored (match o with Some _ => note_activity what | None => mret () end)) as Htold
    by (intros ? [] ?; [apply keeps_activity|apply keeps_ret]).
  destruct c; cbn [exec_know]; intros Hk;
    match goal with |- mirrored (final ?m k) => assert (keeps mirrored m) as Hm; [|by apply Hm] end;
    repeat first [ apply keeps_doc_create | apply keeps_doc_update | apply keeps_note_create | apply keeps_note_update
                 | apply keeps_doc_delete | apply keeps_note_delete | apply keeps_activity | apply Htold
                 | match goal with
                   | |- keeps _ (of_know _) => apply keeps_of_know
                   | |- keeps _ (gets _) => apply keeps_gets
                   | |- keeps _ (Doc.get _) => apply keeps_gets
                   | |- keeps _ (Memory.get _) => apply keeps_gets
                   | |- keeps _ (mret _) => apply keeps_ret
                   | |- keeps _ (modify _) => apply keeps_modify; intros k' [? ? ?]; by split
                   end
                 | apply keeps_bind; [|intros ?] ].
Qed.

(** C6: the search index mirrors what it indexes.  After any sequence of commands on
    documents and notes, refused ones included, and of deletions of projects and
    tasks, the index has exactly one entry of each document and note, with the text
    the row has now, and no other. *)
Theorem index_mirrors_rows projects tasks commands :
  let k := foldl exec_know (mkKnow projects tasks [] [] [] []) commands in
  k.(index) ≡ₚ (doc_entry <$> k.(docs)) ++ (note_entry <$> k.(notes)).
Proof.
  apply index_exact. assert (mirrored (mkKnow projects tasks [] [] [] [])) as Hk by (split; constructor).
  revert Hk. generalize (mkKnow projects tasks [] [] [] []). induction commands as [|c cs IH]; intros k Hk; [done|].
  by apply IH, mirrored_step.
Qed.

(** A word that is one of the operators of the full-text engine keeps that meaning:
    the star comes after it. *)
Lemma operator_kept `{CharTable} :
  (forall c, c ∈ ["A"; "N"; "D"; "o"; "n"; "e"; "t"; "w"] -> is_alphanumeric c = true) ->
  fts_query "one AND two" = Some "one* AND* two*".
Proof.
  intros Hc. unfold fts_query. change (words "one AND two") with ["one"; "AND"; "two"].
  assert (forall c cs, c ∈ ["A"; "N"; "D"; "o"; "n"; "e"; "t"; "w"] ->
    filter (fun c => is_alphanumeric c = true) (c :: cs) = c :: filter (fun c => is_alphanumeric c = true) cs) as Hf.
  { intros c cs Hin. rewrite filter_cons_True; [done|by apply Hc]. }
  cbn [omap list_omap]. change (chars "one") with ["o"; "n"; "e"]. change (chars "AND") with ["A"; "N"; "D"].
  change (chars "two") with ["t"; "w"; "o"]. rewrite !Hf, !filter_nil by set_solver. reflexivity.
Qed.
