(* ===== verification/PacketSelection.v ===== *)
(** * What a context packet holds (build_context_packet of crates/am-core/src/work_graph.rs)

    The packet of a node is assembled from the node, its parent and blockers, the
    handoffs of completed prerequisites, its repositories, the ranked files of their
    index, the sessions beside it in the plan, and memory, documents and search
    hits; the builder of [ContextPackets] keeps it within its budgets.  The state is
    the plan's database, the index and the knowledge tables; class [PacketHost] is
    the handoff archive, the repository rows and the file systems. *)
From Stdlib Require Import Ascii String SpecFloat Sorted.
From stdpp Require Import gmap strings pretty.
From S2P Require Import Prelude RustStr Json Enums Records Doubles ContextPackets WorkGraphDb WorkGraphInv WorkPlan PlanProps Demo ThreadText Attachments ContextIndex ContextScoring Knowledge.
#[local] Open Scope string_scope.
#[local] Open Scope Z_scope.

(** ** The state *)

Record Packing := mkPacking {
  plan_db : WorkDb;
  index_db : IndexDb;
  know : Know;
  packets : list ContextPacket.t;
  packet_inclusions : list (string * ContextInclusion.t)
}.
Abbreviation PackM := (M Packing CoreError).

Definition on_plan {A} (m : DbM A) : PackM A := fun p =>
  match m p.(plan_db) with
  | (d, Ok a) => (mkPacking d p.(index_db) p.(know) p.(packets) p.(packet_inclusions), Ok a)
  | (d, Err e) => (mkPacking d p.(index_db) p.(know) p.(packets) p.(packet_inclusions), Err (Records.Db e))
  end.
Definition on_index {A} (m : M IndexDb DbError A) : PackM A := fun p =>
  match m p.(index_db) with
  | (d, Ok a) => (mkPacking p.(plan_db) d p.(know) p.(packets) p.(packet_inclusions), Ok a)
  | (d, Err e) => (mkPacking p.(plan_db) d p.(know) p.(packets) p.(packet_inclusions), Err (Records.Db e))
  end.
Definition on_know {A} (m : M Know DbError A) : PackM A := fun p =>
  match m p.(know) with
  | (k, Ok a) => (mkPacking p.(plan_db) p.(index_db) k p.(packets) p.(packet_inclusions), Ok a)
  | (k, Err e) => (mkPacking p.(plan_db) p.(index_db) k p.(packets) p.(packet_inclusions), Err (Records.Db e))
  end.

Class PacketHost := {
  latest_handoff : string -> result DbError (option TaskHandoff.t);
  repo_row : string -> result DbError (option Repo.t);
  (** what a refresh finds at a root *)
  repo_view : string -> RepoView.t;
  (** [new_id()] for the rows of the index *)
  row_ids : string -> nat -> string
}.
Definition of_db {A} (r : result DbError A) : PackM A :=
  lift (match r with Ok a => Ok a | Err e => Err (Records.Db e) end).

(** [for x in l { out.extend(f(x).await?) }]. *)
Fixpoint flat_each {A B} (f : A -> PackM (list B)) (l : list A) : PackM (list B) :=
  match l with
  | [] => mret []
  | a :: l => b ← f a; bs ← flat_each f l; mret (b ++ bs)%list
  end.

Module SiblingContext.
Record t := mk { node_id : string; title : string; snippet : string }.
End SiblingContext.

(** The binary64 values of the scores. *)
Definition f64_0_9 : f64 := S754_finite false 8106479329266893 (-53).
Definition f64_0_85 : f64 := S754_finite false 7656119366529843 (-53).
Definition f64_0_78 : f64 := S754_finite false 7025615418697974 (-53).
Definition f64_0_72 : f64 := S754_finite false 6485183463413514 (-53).
Definition f64_0_62 : f64 := S754_finite false 5584463537939415 (-53).
Definition f64_0_6 : f64 := S754_finite false 5404319552844595 (-53).
Definition f64_0_55 : f64 := S754_finite false 4953959590107546 (-53).

Section Selection.
Context `{CharTable, PacketHost, Fts} `{!TextSerde (list string)}.
Context (ln : f64 -> f64) (terms_of : gmap string f64 -> list (string * f64)) (iter : gset string -> list string).
Context (ts : Z).

(** ** The sources *)

Definition own_push (node : WorkNode.t) : PushArgs :=
  mkPush "work_node" (Some node.(WorkNode.id)) node.(WorkNode.title)
    ("Status: " +:+ TaskStatus.as_str node.(WorkNode.status) +:+ newline +:+ "Priority: " +:+
     TaskPriority.as_str node.(WorkNode.priority) +:+ newline +:+ "Objective: " +:+
     default "None recorded." node.(WorkNode.description)) "current work item" f64_1.

Definition parent_pushes (node : WorkNode.t) : PackM (list PushArgs) :=
  match node.(WorkNode.parent_id) with
  | Some parent_id =>
      o ← on_plan (get_node parent_id);
      mret (match o with
            | Some parent => [mkPush "parent" (Some parent.(WorkNode.id)) parent.(WorkNode.title)
                (default "No parent summary." parent.(WorkNode.description)) "hierarchical parent context" f64_0_9]
            | None => []
            end)
  | None => mret []
  end.

Definition blocker_of (edge : WorkEdge.t) : string :=
  if bool_decide (edge.(WorkEdge.kind) = WorkEdgeKind.Blocks) then edge.(WorkEdge.source_id) else edge.(WorkEdge.target_id).
Definition blocker_pushes (node : WorkNode.t) : PackM (list PushArgs) :=
  blockers ← on_plan (blocking_edges_for_node node.(WorkNode.id));
  flat_each (fun edge =>
    o ← on_plan (get_node (blocker_of edge));
    mret (match o with
          | Some blocker => [mkPush "blocker" (Some blocker.(WorkNode.id)) blocker.(WorkNode.title)
              (default "No blocker summary." blocker.(WorkNode.description)) "unfinished dependency or blocker" f64_0_85]
          | None => []
          end)) (take 4 blockers).

(** The handoffs of the prerequisites, each with the files it changed. *)
Definition prerequisite_handoffs (node : WorkNode.t) : PackM (list (WorkNode.t * TaskHandoff.t)) :=
  predecessors ← on_plan (completed_gating_predecessors node.(WorkNode.id));
  flat_each (fun predecessor =>
    match predecessor.(WorkNode.task_id) with
    | None => mret []
    | Some task_id =>
        o ← of_db (latest_handoff task_id);
        mret (match o with Some handoff => [(predecessor, handoff)] | None => [] end)
    end) (take 4 predecessors).
Definition handoff_push (ph : WorkNode.t * TaskHandoff.t) : PushArgs :=
  mkPush "handoff" (Some ph.1.(WorkNode.id)) ("Prerequisite done: " +:+ ph.1.(WorkNode.title)) ph.2.(TaskHandoff.summary)
    "handoff summary from a completed prerequisite" f64_0_85.

Definition repo_push (repo : WorkNodeRepoBinding.t) : PushArgs :=
  mkPush "repo" (Some repo.(WorkNodeRepoBinding.repo_id)) repo.(WorkNodeRepoBinding.repo_name)
    ("Branch: " +:+ default "not created yet" repo.(WorkNodeRepoBinding.branch) +:+ newline +:+
     "Base: " +:+ default "not created yet" repo.(WorkNodeRepoBinding.base_ref) +:+ newline +:+
     "Workspace: " +:+ default "not created yet" repo.(WorkNodeRepoBinding.worktree_path))
    "repository bound to this work item" f64_0_8.

Definition file_push (scored : f64 * RepoContextFile.t) : PushArgs :=
  mkPush "repo_file" (Some scored.2.(RepoContextFile.repo_id)) scored.2.(RepoContextFile.path) scored.2.(RepoContextFile.summary)
    "policy-filtered multi-repo source context" scored.1.

Definition file_pushes (node : WorkNode.t) (repos : list WorkNodeRepoBinding.t) (dependency_paths : gset string) :
  PackM (list PushArgs) :=
  let repo_ids := WorkNodeRepoBinding.repo_id <$> repos in
  _ ← on_index (refresh_context_index ts row_ids repo_row repo_view repos);
  let denials := denied_context_globs_for_node node repo_ids in
  indexed ← on_index (list_repo_context_files repo_ids 500);
  let candidates := filter (fun f => denies denials f.(RepoContextFile.repo_id) f.(RepoContextFile.path) = false) indexed in
  mret (file_push <$> take 18
    (rank_context_files ln terms_of iter node.(WorkNode.title) node.(WorkNode.description) candidates (mkBoosts dependency_paths) ts)).

(** ** The sessions beside the node *)

Definition sibling_snippet (run : WorkRun.t) (sibling : WorkNode.t) : PackM string :=
  let snippet := "Status: " +:+ TaskStatus.as_str sibling.(WorkNode.status) +:+ newline +:+ "Agent: " +:+
    AgentKind.label run.(WorkRun.agent_kind) in
  match sibling.(WorkNode.task_id) with
  | Some task_id =>
      o ← of_db (latest_handoff task_id);
      mret (match o with
            | Some handoff => snippet +:+ newline +:+ "Last handoff:" +:+ newline +:+ truncate handoff.(TaskHandoff.summary) 500
            | None => snippet
            end)
  | None => mret snippet
  end.

Fixpoint sibling_runs (node : WorkNode.t) (runs : list WorkRun.t) (seen : gset string) :
  PackM (gset string * list SiblingContext.t) :=
  match runs with
  | [] => mret (seen, [])
  | run :: runs =>
      let id := run.(WorkRun.node_id) in
      if eq_str id node.(WorkNode.id) || bool_decide (id ∈ seen) then sibling_runs node runs seen
      else
        let seen := {[id]} ∪ seen in
        o ← on_plan (get_node id);
        match o with
        | None => sibling_runs node runs seen
        | Some sibling =>
            snippet ← sibling_snippet run sibling;
            '(seen, rest) ← sibling_runs node runs seen;
            mret (seen, SiblingContext.mk sibling.(WorkNode.id) sibling.(WorkNode.title) snippet :: rest)
        end
  end.

(** Only the plans in which the node runs. *)
Fixpoint plan_siblings (node : WorkNode.t) (plans : list WorkPlanRun.t) (seen : gset string) : PackM (list SiblingContext.t) :=
  match plans with
  | [] => mret []
  | plan :: plans =>
      runs ← on_plan (list_running_runs_for_plan plan.(WorkPlanRun.id));
      if existsb (fun run => eq_str run.(WorkRun.node_id) node.(WorkNode.id)) runs then
        '(seen, here) ← sibling_runs node runs seen;
        rest ← plan_siblings node plans seen;
        mret (here ++ rest)%list
      else plan_siblings node plans seen
  end.
Definition active_plan_siblings (node : WorkNode.t) : PackM (list SiblingContext.t) :=
  plans ← on_plan (list_plan_runs node.(WorkNode.project_id));
  plan_siblings node (filter (fun plan => plan.(WorkPlanRun.state) = WorkPlanRunState.Running) plans) ∅.
Definition sibling_push (s : SiblingContext.t) : PushArgs :=
  mkPush "sibling" (Some s.(SiblingContext.node_id)) ("In progress elsewhere: " +:+ s.(SiblingContext.title))
    s.(SiblingContext.snippet) "parallel session in the same plan run" f64_0_6.

(** ** Memory, documents and search: an error leaves its source out *)

Definition or_none {A} (m : PackM (list A)) : PackM (list A) := o ← attempt m; mret (default [] o).

Definition memory_pushes (node : WorkNode.t) : PackM (list PushArgs) :=
  project ← or_none (on_know (Memory.list_for_project node.(WorkNode.project_id)));
  task ← (match node.(WorkNode.task_id) with
          | Some task_id => or_none (on_know (Memory.list_for_task task_id))
          | None => mret []
          end);
  mret (((fun n => mkPush "memory" (Some n.(MemoryNote.id)) "Project memory" n.(MemoryNote.body) "project-level memory" f64_0_72) <$> take 5 project) ++
        ((fun n => mkPush "memory" (Some n.(MemoryNote.id)) "Task memory" n.(MemoryNote.body) "task-level memory" f64_0_78) <$> take 5 task))%list.

Definition doc_pushes (node : WorkNode.t) : PackM (list PushArgs) :=
  docs ← or_none (on_know (Doc.list_for_project node.(WorkNode.project_id)));
  mret ((fun d => mkPush "doc" (Some d.(KnowledgeDoc.id)) d.(KnowledgeDoc.title) d.(KnowledgeDoc.body) "project knowledge document" f64_0_62) <$> take 4 docs).

(** The node itself, and what belongs to its task, are not repeated. *)
Definition hit_skipped (node : WorkNode.t) (hit : SearchHit.t) : bool :=
  eq_str hit.(SearchHit.entity_id) node.(WorkNode.id) || bool_decide (hit.(SearchHit.task_id) = node.(WorkNode.task_id)).
Definition search_pushes (node : WorkNode.t) : PackM (list PushArgs) :=
  hits ← or_none (on_know (search node.(WorkNode.title) (Some node.(WorkNode.project_id)) 6));
  mret ((fun hit => mkPush ("search:" +:+ hit.(SearchHit.kind)) (Some hit.(SearchHit.entity_id)) hit.(SearchHit.title)
    hit.(SearchHit.snippet) "full-text match for this work title" f64_0_55) <$> filter (fun hit => hit_skipped node hit = false) hits).

(** ** The packet *)

(** Everything pushed, in order; the builder is local to the function. *)
Definition packet_pushes (node : WorkNode.t) : PackM (list PushArgs) :=
  parent ← parent_pushes node;
  blockers ← blocker_pushes node;
  handoffs ← prerequisite_handoffs node;
  repos ← on_plan (list_repo_bindings node.(WorkNode.id));
  files ← file_pushes node repos (list_to_set (handoffs ≫= (fun ph => ph.2.(TaskHandoff.changed_files))));
  siblings ← active_plan_siblings node;
  memory ← memory_pushes node;
  docs ← doc_pushes node;
  hits ← search_pushes node;
  mret (own_push node :: parent ++ blockers ++ (handoff_push <$> handoffs) ++ (repo_push <$> repos) ++ files ++
        (sibling_push <$> take 4 siblings) ++ memory ++ docs ++ hits)%list.

Definition build_context_packet (id : string) (node : WorkNode.t) : PackM ContextPacket.t :=
  pushes ← packet_pushes node;
  mret (finish id ts (build node.(WorkNode.id) pushes)).

(** [record_context_packet]: two tables, no transaction. *)
Definition record_context_packet (packet : ContextPacket.t) : PackM () :=
  p ← get;
  _ ← fail_when (existsb (fun x => eq_str x.(ContextPacket.id) packet.(ContextPacket.id)) p.(packets) ||
        negb (node_exists p.(plan_db) packet.(ContextPacket.node_id))) (Records.Db Sqlx);
  _ ← modify (fun p => mkPacking p.(plan_db) p.(index_db) p.(know) (p.(packets) ++ [packet]) p.(packet_inclusions));
  for_each (fun i => modify (fun p => mkPacking p.(plan_db) p.(index_db) p.(know) p.(packets)
    (p.(packet_inclusions) ++ [(packet.(ContextPacket.id), i)]))) packet.(ContextPacket.inclusions).
End Selection.

(** ** What the builder keeps of what is pushed *)

Definition inclusion_of (a : PushArgs) : ContextInclusion.t :=
  let snippet := truncate a.(p_snippet) 1400 in
  let title := truncate a.(p_title) 180 in
  let bytes := len a.(p_source_kind) + len title + len snippet + len a.(p_reason) in
  ContextInclusion.mk a.(p_source_kind) a.(p_entity_id) title snippet a.(p_reason) a.(p_score) bytes (Z.max (bytes / 4) 1).

Lemma push_adds a b : inclusions (push a b) = inclusions b \/ inclusions (push a b) = (inclusions b ++ [inclusion_of a])%list.
Proof. unfold push. cbv zeta. repeat case_match; auto. Qed.

Lemma foldl_push_adds l b :
  exists kept, inclusions (foldl (fun b a => push a b) b l) = (inclusions b ++ kept)%list /\ kept `sublist_of` (inclusion_of <$> l).
Proof.
  revert b. induction l as [|a l IH]; intros b; cbn [foldl]; [exists []; by rewrite app_nil_r|].
  destruct (IH (push a b)) as (kept & -> & Hk). destruct (push_adds a b) as [->| ->].
  - exists kept. split; [done|]. cbn. by apply sublist_cons.
  - exists (inclusion_of a :: kept). rewrite <- app_assoc. split; [done|]. cbn. by apply sublist_skip.
Qed.

(** The node itself always fits. *)
Lemma own_push_fits node b : b = new_builder node.(WorkNode.id) ->
  inclusions (push (own_push node) b) = [inclusion_of (own_push node)].
Proof.
  intros ->. unfold push. cbv zeta. pose proof (truncate_len (p_title (own_push node)) 180 ltac:(lia)) as Ht.
  pose proof (truncate_len (p_snippet (own_push node)) 1400 ltac:(lia)) as Hs.
  assert (0 <= len (truncate (p_title (own_push node)) 180)) as Ht0 by (unfold len; lia).
  assert (0 <= len (truncate (p_snippet (own_push node)) 1400)) as Hs0 by (unfold len; lia).
  set (bytes := len (p_source_kind (own_push node)) + _ + _ + _).
  assert (len (p_source_kind (own_push node)) = 9) as Hk by done. assert (len (p_reason (own_push node)) = 17) as Hr by done.
  assert (0 <= bytes <= 1606) as Hb by (unfold bytes; lia).
  assert (0 <= bytes / 4 <= 402) as Hq by (split; [apply Z.div_pos; lia|apply Z.div_le_upper_bound; lia]).
  assert (source_used (new_builder (WorkNode.id node)) (p_source_kind (own_push node)) = 0) as Hu by (unfold source_used; cbn; by rewrite lookup_empty).
  rewrite Hu. change (source_token_budget (p_source_kind (own_push node))) with i64_max.
  cbn [used_bytes used_tokens new_builder]. unfold CONTEXT_HARD_CAP_BYTES, CONTEXT_HARD_CAP_TOKENS, CONTEXT_BUDGET_BYTES, CONTEXT_BUDGET_TOKENS, i64_max.
  rewrite !(proj2 (Z.ltb_ge _ _)) by lia. rewrite !(proj2 (Z.leb_gt _ _)) by lia. done.
Qed.

Lemma sublist_sorted {A} (R : relation A) l l' : l `sublist_of` l' -> StronglySorted R l' -> StronglySorted R l.
Proof.
  induction 1 as [|x l l' Hl IH|x l l' Hl IH]; [done| |]; intros Hs; inversion_clear Hs as [|? ? Hs' Hall].
  - constructor; [by apply IH|]. rewrite Forall_forall in Hall |- *. intros y Hy. apply Hall. by eapply elem_of_sublist.
  - by apply IH.
Qed.

Lemma sublist_filter_both {A} (P : A -> Prop) `{!forall x, Decision (P x)} (l l' : list A) :
  l `sublist_of` l' -> filter P l `sublist_of` filter P l'.
Proof.
  induction 1 as [|x l l' Hl IH|x l l' Hl IH]; rewrite ?filter_cons; [done| |].
  - case_decide; [by apply sublist_skip|done].
  - case_decide; [by apply sublist_cons|done].
Qed.

(** ** What the sources touch and give *)

Definition unchanging {A} (m : PackM A) : Prop := forall p, fst (m p) = p.
Definition gives {A} (m : PackM A) (P : A -> Prop) : Prop := forall p p' a, m p = (p', Ok a) -> P a.

Lemma unchanging_bind {A B} (m : PackM A) (f : A -> PackM B) : unchanging m -> (forall a, unchanging (f a)) -> unchanging (m ≫= f).
Proof.
  intros Hm Hf p. rewrite M_bind_unfold. specialize (Hm p). destruct (m p) as [p' [a|e]]; cbn in *; subst; [apply Hf|done].
Qed.
Lemma unchanging_plan {A} (m : DbM A) : (forall P, keeps P m) -> unchanging (on_plan m).
Proof.
  intros Hm p. specialize (Hm (fun d => d = p.(plan_db)) p.(plan_db) eq_refl). unfold on_plan, final in *.
  destruct (m (plan_db p)) as [d [a|e]]; cbn in *; subst; by destruct p.
Qed.
Lemma unchanging_know {A} (f : Know -> result DbError A) : unchanging (on_know (fun k => (k, f k))).
Proof. intros p. unfold on_know. destruct (f (know p)); by destruct p. Qed.
Lemma unchanging_ret {A} (a : A) : unchanging (mret a).
Proof. done. Qed.
Lemma unchanging_of_db {A} (r : result DbError A) : unchanging (of_db r).
Proof. done. Qed.
Lemma unchanging_each {A B} (f : A -> PackM (list B)) l : (forall a, unchanging (f a)) -> unchanging (flat_each f l).
Proof.
  intros Hf. induction l as [|a l IH]; [done|]. apply unchanging_bind; [done|]. intros b. by apply unchanging_bind.
Qed.
Lemma unchanging_or_none {A} (m : PackM (list A)) : unchanging m -> unchanging (or_none m).
Proof.
  intros Hm p. specialize (Hm p). unfold or_none. rewrite M_bind_unfold. unfold attempt. by destruct (m p) as [p' [a|e]].
Qed.
Lemma unchanged_state {A} (m : PackM A) p p' r : unchanging m -> m p = (p', r) -> p' = p.
Proof. intros Hm He. specialize (Hm p). by rewrite He in Hm. Qed.

Lemma gives_bind {A B} (m : PackM A) (f : A -> PackM B) P : (forall a, gives (f a) P) -> gives (m ≫= f) P.
Proof. intros Hf p p' b (p1 & a & _ & H)%bind_inv. by eapply Hf. Qed.
Lemma gives_ret {A} (a : A) (P : A -> Prop) : P a -> gives (mret a) P.
Proof. by intros HP p p' b [= _ <-]. Qed.
Lemma gives_each {A B} (f : A -> PackM (list B)) l P : (forall a, gives (f a) (Forall P)) -> gives (flat_each f l) (Forall P).
Proof.
  intros Hf. induction l as [|a l IH]; [apply gives_ret; constructor|].
  intros p p' b (p1 & x & Hx & (p2 & y & Hy & [= _ <-])%bind_inv)%bind_inv. apply Forall_app. split; [by eapply Hf|by eapply IH].
Qed.
#[export] Hint Resolve unchanging_ret unchanging_of_db : perp.

(** Walk through a program that only reads. *)
Ltac only_reads :=
  repeat first
    [ apply unchanging_plan; intros ?; first [apply keeps_fetch_optional|apply keeps_fetch_all]
    | apply unchanging_ret | apply unchanging_of_db | apply unchanging_know
    | apply unchanging_or_none | apply unchanging_each; intros ?
    | apply unchanging_bind; [|intros ?]
    | match goal with |- unchanging (match ?x with _ => _ end) => destruct x end ].

Section Packet.
Context `{CharTable, PacketHost, Fts} `{!TextSerde (list string)}.
Context (ln : f64 -> f64) (terms_of : gmap string f64 -> list (string * f64)) (iter : gset string -> list string).
Context (ts : Z).

Definition not_a_file (a : PushArgs) : Prop := a.(p_source_kind) <> "repo_file".

(** The sources read the plan and the knowledge tables, and push no file. *)
Lemma parent_source node : unchanging (parent_pushes node) /\ gives (parent_pushes node) (Forall not_a_file).
Proof.
  unfold parent_pushes. split; [only_reads|]. destruct (WorkNode.parent_id node); [|apply gives_ret; constructor].
  apply gives_bind. intros [parent|]; apply gives_ret; repeat constructor; done.
Qed.
Lemma blocker_source node : unchanging (blocker_pushes node) /\ gives (blocker_pushes node) (Forall not_a_file).
Proof.
  unfold blocker_pushes. split; [only_reads|]. apply gives_bind. intros edges. apply gives_each. intros edge.
  apply gives_bind. intros [b|]; apply gives_ret; repeat constructor; done.
Qed.
Lemma handoff_source node : unchanging (prerequisite_handoffs node).
Proof. unfold prerequisite_handoffs. only_reads. Qed.
Lemma snippet_source run sibling : unchanging (sibling_snippet run sibling).
Proof. unfold sibling_snippet. only_reads. Qed.
Lemma sibling_runs_source node runs seen : unchanging (sibling_runs node runs seen).
Proof.
  revert seen. induction runs as [|run runs IH]; intros seen; cbn [sibling_runs]; [only_reads|].
  destruct (_ || _); [done|]. apply unchanging_bind; [only_reads|]. intros [sibling|]; [|done].
  apply unchanging_bind; [apply snippet_source|]. intros snippet. apply unchanging_bind; [done|]. by intros [seen' rest].
Qed.
Lemma siblings_source node : unchanging (active_plan_siblings node).
Proof.
  unfold active_plan_siblings. apply unchanging_bind; [only_reads|]. intros plans.
  generalize (filter (fun plan => plan.(WorkPlanRun.state) = WorkPlanRunState.Running) plans). intros l. generalize (∅ : gset string).
  induction l as [|plan l IH]; intros seen; cbn [plan_siblings]; [only_reads|].
  apply unchanging_bind; [only_reads|]. intros runs. destruct (existsb _ _); [|done].
  apply unchanging_bind; [apply sibling_runs_source|]. intros [seen' here]. apply unchanging_bind; [done|]. by intros rest.
Qed.
Lemma memory_source node : unchanging (memory_pushes node) /\ gives (memory_pushes node) (Forall not_a_file).
Proof.
  unfold memory_pushes. split.
  - apply unchanging_bind; [apply unchanging_or_none, unchanging_know|]. intros project. apply unchanging_bind; [|done].
    destruct (WorkNode.task_id node); [apply unchanging_or_none, unchanging_know|done].
  - apply gives_bind. intros project. apply gives_bind. intros task. apply gives_ret.
    apply Forall_app; split; apply Forall_fmap, Forall_true; done.
Qed.
Lemma doc_source node : unchanging (doc_pushes node) /\ gives (doc_pushes node) (Forall not_a_file).
Proof.
  unfold doc_pushes. split; [apply unchanging_bind; [apply unchanging_or_none, unchanging_know|done]|].
  apply gives_bind. intros docs. apply gives_ret. by apply Forall_fmap, Forall_true.
Qed.
Lemma search_source node : unchanging (search_pushes node) /\ gives (search_pushes node) (Forall not_a_file).
Proof.
  unfold search_pushes. split.
  - apply unchanging_bind; [|done]. apply unchanging_or_none. unfold search. destruct (fts_query _); apply unchanging_know.
  - apply gives_bind. intros hits. apply gives_ret. by apply Forall_fmap, Forall_true.
Qed.

(** The files: the best eighteen of the refreshed index. *)
Definition best_of (indexed : list RepoContextFile.t) (ranked : list (f64 * RepoContextFile.t)) : Prop :=
  ranked.*2 ≡ₚ indexed /\ StronglySorted (fun a b => SFleb b.1 a.1 = true) ranked /\
  Forall (fun a => is_number a.1 /\ SFleb a.1 SCORE_CAP = true) ranked.
Definition refreshed (repos : list WorkNodeRepoBinding.t) (p p' : Packing) (indexed : list RepoContextFile.t) : Prop :=
  (exists d, p' = mkPacking p.(plan_db) d p.(know) p.(packets) p.(packet_inclusions)) /\
  refresh_context_index ts row_ids repo_row repo_view repos p.(index_db) = (p'.(index_db), Ok ()) /\
  list_repo_context_files (WorkNodeRepoBinding.repo_id <$> repos) 500 p'.(index_db) = (p'.(index_db), Ok indexed).

Lemma listed_files ids n d d' l : list_repo_context_files ids n d = (d', Ok l) ->
  d' = d /\ forall f, f ∈ l -> f ∈ d.(files) /\ f.(RepoContextFile.repo_id) ∈ ids.
Proof.
  unfold list_repo_context_files. destruct ids as [|i ids].
  - intros [= <- <-]. split; [done|]. by intros f ?%elem_of_nil.
  - intros [= <- <-]. split; [done|]. intros f Hf. apply subseteq_take in Hf. rewrite sort_by_perm in Hf.
    by apply list_elem_of_filter in Hf as [? ?].
Qed.

Lemma on_index_inv {A} (m : M IndexDb DbError A) p p' a : on_index m p = (p', Ok a) ->
  exists d, m p.(index_db) = (d, Ok a) /\ p' = mkPacking p.(plan_db) d p.(know) p.(packets) p.(packet_inclusions).
Proof. unfold on_index. destruct (m (index_db p)) as [d [x|e]]; [|done]. intros [= <- ->]. by exists d. Qed.

(** The ranking of the code: the scores of the files for the node's texts, raised for
    the files the prerequisites changed. *)
Definition ranking_of (node : WorkNode.t) (handoffs : list (WorkNode.t * TaskHandoff.t)) (indexed : list RepoContextFile.t) :
  list (f64 * RepoContextFile.t) :=
  rank_context_files ln terms_of iter node.(WorkNode.title) node.(WorkNode.description) indexed
    (mkBoosts (list_to_set (handoffs ≫= (fun ph => ph.2.(TaskHandoff.changed_files))))) ts.

Lemma ranking_best node handoffs indexed : best_of indexed (ranking_of node handoffs indexed).
Proof.
  pose proof (ranking_sound ln terms_of iter (WorkNode.title node) (WorkNode.description node) indexed
    (mkBoosts (list_to_set (handoffs ≫= (fun ph => ph.2.(TaskHandoff.changed_files))))) ts) as (Hperm & Hnum & Hsort).
  by split_and!.
Qed.

Lemma file_source node repos handoffs p p' pushes :
  file_pushes ln terms_of iter ts node repos (list_to_set (handoffs ≫= (fun ph => ph.2.(TaskHandoff.changed_files)))) p = (p', Ok pushes) ->
  exists indexed, refreshed repos p p' indexed /\ pushes = file_push <$> take 18 (ranking_of node handoffs indexed).
Proof.
  unfold file_pushes. intros (p1 & [] & (d & Hd & ->)%on_index_inv & (p2 & indexed & (d' & Hl & ->)%on_index_inv & Hr)%bind_inv)%bind_inv.
  cbn in Hl. pose proof Hl as [-> _]%listed_files. injection Hr as <- <-.
  rewrite filter_all by done. exists indexed. by repeat split; [by eexists|..].
Qed.

Lemma filter_not_files l : Forall not_a_file l -> filter (fun a => a.(p_source_kind) = "repo_file") l = [].
Proof. intros Hl. apply filter_none. intros a Ha. rewrite Forall_forall in Hl. by apply Hl. Qed.

Lemma bindings_read id p p' repos : on_plan (list_repo_bindings id) p = (p', Ok repos) ->
  list_repo_bindings id p.(plan_db) = (p.(plan_db), Ok repos) /\ p' = p.
Proof.
  assert (keeps (fun d => d = p.(plan_db)) (list_repo_bindings id)) as Hk by apply keeps_fetch_all.
  pose proof (Hk _ eq_refl) as Hf. unfold final in Hf.
  unfold on_plan. destruct (list_repo_bindings id (plan_db p)) as [d [l|e]]; [|done]. cbn in Hf. subst d.
  intros [= <- <-]. split; [done|]. by destruct p.
Qed.

(** What was pushed, and what it took. *)
Lemma packet_pushes_spec node p p' pushes :
  packet_pushes ln terms_of iter ts node p = (p', Ok pushes) ->
  exists repos handoffs indexed before after,
    list_repo_bindings node.(WorkNode.id) p.(plan_db) = (p.(plan_db), Ok repos) /\
    prerequisite_handoffs node p = (p, Ok handoffs) /\
    refreshed repos p p' indexed /\ Forall not_a_file before /\ Forall not_a_file after /\
    pushes = (own_push node :: before ++ (file_push <$> take 18 (ranking_of node handoffs indexed)) ++ after)%list.
Proof.
  unfold packet_pushes. intros (p1 & parent & Hp & Hm)%bind_inv.
  pose proof (unchanged_state _ _ _ _ (proj1 (parent_source node)) Hp) as ->. apply (proj2 (parent_source node)) in Hp.
  apply bind_inv in Hm as (p2 & blockers & Hb & Hm).
  pose proof (unchanged_state _ _ _ _ (proj1 (blocker_source node)) Hb) as ->. apply (proj2 (blocker_source node)) in Hb.
  apply bind_inv in Hm as (p3 & handoffs & Hh & Hm). pose proof (unchanged_state _ _ _ _ (handoff_source node) Hh) as ->.
  apply bind_inv in Hm as (p4 & repos & Hr & Hm). apply bindings_read in Hr as [Hr ->].
  apply bind_inv in Hm as (p5 & files & (indexed & Hd & ->)%file_source & Hm).
  apply bind_inv in Hm as (p6 & siblings & Hs & Hm). pose proof (unchanged_state _ _ _ _ (siblings_source node) Hs) as ->.
  apply bind_inv in Hm as (p7 & memory & Hy & Hm).
  pose proof (unchanged_state _ _ _ _ (proj1 (memory_source node)) Hy) as ->. apply (proj2 (memory_source node)) in Hy.
  apply bind_inv in Hm as (p8 & docs & Hc & Hm).
  pose proof (unchanged_state _ _ _ _ (proj1 (doc_source node)) Hc) as ->. apply (proj2 (doc_source node)) in Hc.
  apply bind_inv in Hm as (p9 & hits & Hx & [= <- <-]).
  pose proof (unchanged_state _ _ _ _ (proj1 (search_source node)) Hx) as ->. apply (proj2 (search_source node)) in Hx.
  exists repos, handoffs, indexed, (parent ++ blockers ++ (handoff_push <$> handoffs) ++ (repo_push <$> repos))%list,
    ((sibling_push <$> take 4 siblings) ++ memory ++ docs ++ hits)%list.
  do 3 (split; [done|]). rewrite !Forall_app. split_and!; try done; try (by apply Forall_fmap, Forall_true).
  by rewrite <- !app_assoc.
Qed.

Lemma filter_inclusions k (l : list PushArgs) :
  filter (fun i => i.(ContextInclusion.source_kind) = k) (inclusion_of <$> l) =
  inclusion_of <$> filter (fun a => a.(p_source_kind) = k) l.
Proof. induction l as [|a l IH]; [done|]. rewrite fmap_cons, !filter_cons, IH. cbn. by case_decide. Qed.

(** What the builder holds of the files between other sources. *)
Lemma builder_files id ts' node ranked before after :
  Forall not_a_file before -> Forall not_a_file after ->
  let packet := finish id ts' (build node.(WorkNode.id) (own_push node :: before ++ (file_push <$> take 18 ranked) ++ after)) in
  head packet.(ContextPacket.inclusions) = Some (inclusion_of (own_push node)) /\
  filter (fun i => i.(ContextInclusion.source_kind) = "repo_file") packet.(ContextPacket.inclusions)
    `sublist_of` ((fun scored => inclusion_of (file_push scored)) <$> take 18 ranked).
Proof.
  intros Hb Ha. cbv zeta. set (rest := (before ++ _ ++ after)%list). unfold build. cbn [foldl]. unfold finish. cbn [ContextPacket.inclusions].
  destruct (foldl_push_adds rest (push (own_push node) (new_builder (WorkNode.id node)))) as (kept & Hk & Hsub).
  rewrite Hk, (own_push_fits _ _ eq_refl). split; [done|].
  apply (sublist_filter_both (fun i => i.(ContextInclusion.source_kind) = "repo_file")) in Hsub.
  rewrite filter_inclusions in Hsub. unfold rest in Hsub.
  rewrite !filter_app, (filter_not_files before), (filter_not_files after), app_nil_r in Hsub by done. cbn [app] in Hsub.
  rewrite (filter_all _ (file_push <$> take 18 ranked)), <- list_fmap_compose in Hsub by (by intros a (scored & -> & _)%list_elem_of_fmap).
  rewrite filter_app, filter_cons_False by done. exact Hsub.
Qed.

(** C5: a context packet holds the work item and the best of its repositories'
    files.  Building one reads the plan, the handoffs and the knowledge tables and
    writes only the index, which is left as its refresh leaves it.  The packet is what
    the builder keeps, in order, of: the work item; sources that are not files; the
    first eighteen files of the code's own ranking, by its scores for the item's title
    and description at that time, raised for the files its prerequisites' handoffs
    changed, of the files the refreshed index lists for the repositories bound to the
    item; and sources that are not files.  That ranking has every listed file once, by
    descending score, each a number no greater than the cap.  The work item is the
    first inclusion whatever the budgets, and the files held come from the eighteen
    best, in descending score. *)
Theorem packet_selects_best id node p p' packet :
  build_context_packet ln terms_of iter ts id node p = (p', Ok packet) ->
  exists repos handoffs indexed before after,
    list_repo_bindings node.(WorkNode.id) p.(plan_db) = (p.(plan_db), Ok repos) /\
    prerequisite_handoffs node p = (p, Ok handoffs) /\
    refreshed repos p p' indexed /\
    (forall f, f ∈ indexed -> f.(RepoContextFile.repo_id) ∈ WorkNodeRepoBinding.repo_id <$> repos) /\
    let ranked := ranking_of node handoffs indexed in
    best_of indexed ranked /\
    Forall not_a_file before /\ Forall not_a_file after /\
    packet = finish id ts (build node.(WorkNode.id) (own_push node :: before ++ (file_push <$> take 18 ranked) ++ after)) /\
    head packet.(ContextPacket.inclusions) = Some (inclusion_of (own_push node)) /\
    let held := filter (fun i => i.(ContextInclusion.source_kind) = "repo_file") packet.(ContextPacket.inclusions) in
    held `sublist_of` ((fun scored => inclusion_of (file_push scored)) <$> take 18 ranked) /\
    StronglySorted (fun a b => SFleb b.(ContextInclusion.score) a.(ContextInclusion.score) = true) held.
Proof.
  intros (p1 & pushes & (repos & handoffs & indexed & before & after & Hr & Hh & Hd & Hb & Ha & ->)%packet_pushes_spec & [= <- <-])%bind_inv.
  exists repos, handoffs, indexed, before, after. do 3 (split; [done|]).
  split; [by destruct Hd as (_ & _ & [_ Hin]%listed_files); intros f [_ ?]%Hin|].
  cbv zeta. set (ranked := ranking_of node handoffs indexed). pose proof (ranking_best node handoffs indexed) as Hbest.
  do 4 (split; [done|]). destruct (builder_files id ts node ranked before after Hb Ha) as [-> Hsub]. split; [done|]. split; [exact Hsub|].
  eapply sublist_sorted; [exact Hsub|]. destruct Hbest as (_ & Hsort & _).
  pose proof (sublist_sorted _ _ _ (sublist_take ranked 18) Hsort) as Hs. clear -Hs.
  induction Hs as [|a l Hs IH Ha]; cbn; constructor; [done|]. by apply Forall_fmap.
Qed.
End Packet.

(** A node without a task skips every hit that has no task either: documents,
    project memory and the other nodes are never found for it. *)
Lemma taskless_hits_skipped node hit : node.(WorkNode.task_id) = None -> hit.(SearchHit.task_id) = None -> hit_skipped node hit = true.
Proof. intros Hn Hh. unfold hit_skipped. rewrite Hn, Hh, bool_decide_true by done. by rewrite orb_true_r. Qed.

(** ** A concrete packet *)

#[local] Instance packet_table : CharTable := {|
  is_alphanumeric c := match c with String a EmptyString => is_ascii_alphanumeric a | _ => false end;
  str_lowercase s := s;
  from_utf8_lossy s := s
|}.
#[local] Instance packet_symbols : TextSerde (list string) := {| to_text := String.concat ","; from_text := fun _ => Ok [] |}.
#[local] Instance packet_fts : Fts := {| fts_match := fun _ _ _ _ => Ok [] |}.
#[local] Instance packet_host : PacketHost := {|
  latest_handoff := fun _ => Ok None;
  repo_row := fun _ => Ok (Some (Repo.mk "r" "p" "repo" RepoKind.Local (Some "/repo") None "main" 1 1));
  repo_view := fun _ => demo_view [("login.rs", demo_file 7 "pub fn login() {}")];
  row_ids := fun _ i => pretty i
|}.
Definition demo_packing : Packing := mkPacking bound_db demo_index (mkKnow {["p"]} ∅ [] [] [] []) [] [].
Definition login_node : WorkNode.t :=
  WorkNode.mk "a" "p" None None None WorkNodeKind.Task "Fix login" None TaskStatus.Queued TaskPriority.Medium None
    (S754_zero false) (S754_zero false) None None false 0 0 0.
Definition demo_build := build_context_packet (fun x => x) map_to_list elements 9 "packet" login_node demo_packing.

Lemma packet_selects_best_witness :
  exists packet,
    snd demo_build = Ok packet /\ head packet.(ContextPacket.inclusions) = Some (inclusion_of (own_push login_node)) /\
    ContextInclusion.title <$> filter (fun i => i.(ContextInclusion.source_kind) = "repo_file") packet.(ContextPacket.inclusions) =
      ["src/login.rs"; "src/main.rs"].
Proof.
  destruct demo_build as [p' [packet|e]] eqn:Hb; [|vm_compute in Hb; discriminate].
  destruct (packet_selects_best _ _ _ _ _ _ _ _ _ Hb) as (repos & handoffs & indexed & before & after & _ & _ & _ & _ & _ & _ & _ & _ & Hhead & _).
  exists packet. split; [done|]. split; [exact Hhead|]. vm_compute in Hb. injection Hb as <- <-. vm_compute. reflexivity.
Defined.
